(* ===== verification/_CoqProject ===== *)
-Q . S2P
Prelude.v
Riscv.v
CString.v
Fields.v
Ring.v
Kernel.v
Printf.v
Kalloc.v
Vm.v
Frame.v
UserMem.v
VmFree.v
UserMemEx.v
Sched.v
UserProc.v
Spinlock.v
Args.v
Sleeplock.v
SleepMutex.v
Bio.v
Bcache.v
Log.v
FsView.v
Wal.v
Crash.v
Fs.v
FsBlocks.v
FsFile.v
FsDir.v
FsPath.v
Pipe.v
PipeFifo.v
Console.v
ConsoleLine.v
File.v
Proc.v
ProcMem.v
ProcLife.v
ProcFork.v
ProcWait.v
ProcExit.v
ForkWait.v
Exec.v
ExecStack.v
ExecImage.v
Sysfile.v
FdView.v
FdStill.v
FdSteps.v
FdCalls.v
FdSyscalls.v
FdProcs.v
VirtioDisk.v
DiskRefine.v
Trap.v
FileTable.v
UserSys.v
Ulib.v
Grep.v
UserPrograms.v
TestLib.v
TestProgs.v
Grind.v
UserTestsA.v
UserTestsB.v
UserTestsC.v
Umalloc.v
UserTestsD.v
UserTests.v
TestSafety.v
Sh.v
ShGrammar.v
Asm.v
AsmRun.v
AsmTrap.v
TrapCycle.v
Mkfs.v
MkfsImage.v
MkfsMain.v
