(* ===== verification/Prelude.v ===== *)
(** * A verification of xv6-riscv with a priority scheduler, page reference
    counts and a disk monitor

    ** The program

    [src/kernel/] is a small Unix kernel for RISC-V in C.  [start.c] and
    [main.c] boot it; [kalloc.c] hands out pages of physical memory; [vm.c]
    builds page tables from them and copies between kernel and user memory;
    [proc.c] has the process table, fork, exit, wait, sleep and wakeup and the
    scheduler; [spinlock.c] and [sleeplock.c] have the locks; [trap.c] and
    [syscall.c] bring user programs into the kernel; [sysproc.c], [sysfile.c]
    and [exec.c] are the system calls; [file.c], [pipe.c], [console.c] and
    [uart.c] are what file descriptors lead to; [fs.c] is the file system on
    top of [log.c] (transactions), [bio.c] (the buffer cache) and
    [virtio_disk.c] (the disk driver).  This version adds to xv6: a reference
    count per physical page and a free-page counter printed on every
    allocation, a scheduler that runs the RUNNABLE process of highest priority,
    and a line on the console for every disk transfer.

    [src/user/] has the user programs: a library ([ulib.c], [printf.c],
    [umalloc.c]), the shell ([sh.c]), [init.c], the usual small tools and the
    test programs ([usertests.c], [grind.c] and smaller ones), which reach the
    kernel only through system calls.  [src/mkfs/mkfs.c] runs on the
    host and makes the disk image, with the user programs as its files, from
    which the kernel boots.

    ** The model

    The embedding is shallow: each C function is a definition of the same name,
    composed as the code composes them.  Kernel.v has the structs as records,
    the static variables as one record [kernel], the state of the running hart
    as [cpu], and the monad [M A := cpu -> kernel -> outcome A].  An outcome is
    [Done] (the call returned), [Panicked] (it stopped in [panic]), [Switch]
    (it gave up the CPU in [swtch]; the rest of the call is a function of the
    state in which it is resumed) or [Stuck] (it did what C leaves undefined,
    such as using a null pointer, or a bounded loop ran out of fuel).  Integers
    are [Z] with the wrap-around of their C type written out ([u32], [i32], ...);
    bytes are [Z]; physical memory is a map from addresses to bytes, in which
    page tables, free lists and trapframes are read and written as the code
    does; blocks of the disk are lists of 1024 bytes in their on-disk encoding.

    The assembly files are lists of instructions, executed on a hart with its
    registers, control registers, privilege mode and physical memory, which
    loads and stores reach through the page table of [satp].

    A user program is a tree of the system calls it makes ([prog] in UserSys.v):
    it returns, exits, does what C leaves undefined, or makes a call and goes on
    with its result.  [exec] runs it against a handler of the calls, which is a
    parameter, so that the tree is followed as the child or as the parent of a
    [fork] according to its answer.  Theorems on a program that reads a stream
    hold for every way the stream is cut into reads.  The tests also make pointers
    up: a call with such a pointer has its address as argument, and a load or
    store through it is a call of its own, which the kernel may answer by killing
    the process.  Their arrays (of bytes, numbers and pointers) are lists of the
    declared length, a local one with contents that are an answer of the handler
    as well ([MUninit]), with an access outside and a string that does not end as
    undefined behaviour, and their endless loops take a number of rounds.  [mkfs] is a function from the files it is given to the image.

    Code outside [src/] is a parameter: the symbols of the linker script
    ([Linker], with [LinkerOk] for the layout relied on), the disk as the buffer
    cache sees it ([BlockDevice], an interface that DiskRefine.v discharges for
    the driver), the virtio device itself ([virtio_device] in DiskRefine.v), the
    bytes in uninitialised stack variables ([Uninit]), for [malloc] a handler of
    [sbrk] that grows the memory or refuses ([sbrk_grows] in Umalloc.v), for
    [mkfs] the contents of the host's files, for the assembly code the length of
    its instructions ([Assembler]).  Loops that wait
    ([while(...) sleep(...)]) take [fuel] rounds, a parameter; theorems that
    claim a result ask for as much fuel as the case needs (none or one round).
    Loops over an array or a length have a bound computed from it, which their
    lemmas show to be enough; the parser of the shell is bounded by the length
    of the line, and the theorems on [malloc] and on the programs that read say
    how many rounds are enough.

    ** The files

    - Prelude.v, Ring.v, Fields.v: integers, lists, ring buffers, fields of
      on-disk records; record update notation; the tactics [zlia] and [ulia].
    - Riscv.v ([riscv.h], [memlayout.h], [param.h]), CString.v ([string.c]),
      Kernel.v (data, monad, the program logics [runs] and [safe]),
      Printf.v ([printf.c]).
    - Kalloc.v ([kalloc.c]), Vm.v ([vm.c]), UserMem.v and UserMemEx.v (what the
      operations of [vm.c] do to user memory; a concrete address space),
      VmFree.v (freeing a whole address space), Frame.v (what memory management
      leaves alone), UserProc.v (a process and its memory).
    - Spinlock.v ([spinlock.c], instruction by instruction), Sched.v and Proc.v
      ([proc.c]), Sleeplock.v and SleepMutex.v ([sleeplock.c]), Args.v,
      Sysfile.v ([syscall.c], [sysproc.c], [sysfile.c]), Exec.v ([exec.c]),
      Trap.v ([trap.c], [plic.c], [main.c], [start.c]).
    - ProcMem.v, ProcLife.v, ProcFork.v, ProcWait.v, ProcExit.v, ForkWait.v (the
      memory and the life of a process through fork, exit and wait), ExecStack.v and
      ExecImage.v (the arguments on the stack, the new image).
    - FdView.v (what the file table and the descriptors of all processes are, as
      one view), FdStill.v and FdSteps.v (the code that leaves it alone, without
      and with sleeping), FdCalls.v, FdSyscalls.v, FdProcs.v (the code that
      changes it), FileTable.v (a whole trap).
    - Bio.v and Bcache.v ([bio.c]), Log.v ([log.c]), FsView.v (blocks as a
      transaction sees them), Wal.v and Crash.v (commit, recovery, crashes),
      Fs.v ([fs.c]), FsBlocks.v, FsFile.v, FsDir.v, FsPath.v (its theorems).
    - Pipe.v and PipeFifo.v ([pipe.c]), Console.v and ConsoleLine.v
      ([console.c], [uart.c]), File.v ([file.c]), VirtioDisk.v and DiskRefine.v
      ([virtio_disk.c]).
    - Asm.v ([entry.S], [swtch.S], [kernelvec.S], [trampoline.S]), AsmRun.v
      (translation, runs of stores and loads), AsmTrap.v (traps, the context
      switch), TrapCycle.v ([prepare_return] and the trampoline together).
    - UserSys.v (programs and system calls), Ulib.v ([ulib.c], [printf.c]),
      Umalloc.v ([umalloc.c]), Sh.v ([sh.c]) and ShGrammar.v (the grammar of
      the command line), Grep.v ([grep.c]), UserPrograms.v ([cat.c], [wc.c],
      [echo.c], [kill.c], [ln.c], [mkdir.c], [rm.c], [zombie.c], [init.c],
      [ls.c]).
    - TestLib.v (arrays, loops and the judgement [wp] of programs that keep to
      their arrays), TestProgs.v ([forktest.c], [stressfs.c], [logstress.c],
      [forphan.c], [dorphan.c]), Grind.v ([grind.c]), UserTestsA.v to
      UserTestsD.v (the tests of [usertests.c], in the order of the source),
      UserTests.v (its tables and its driver), TestSafety.v ([wp] of each test).
    - Mkfs.v ([mkfs.c]), MkfsImage.v (the blocks of the files while the image is
      made), MkfsMain.v (the finished image).

    ** The theorems

    - Memory: kinit and the allocator refine an abstract allocator; a page
      handed out is fresh; what each [uvm*] operation maps, frees, copies and
      leaves alone, and how few pages have to be free for its out-of-memory
      result; user copies round trip.
    - Concurrency: spinlocks exclude each other in every interleaving of
      instructions and keep interrupts off, and the lock calls of the model
      refine them; sleep locks exclude each other in every interleaving of
      processes; sleep and wakeup; the buffer cache's list and the pipes'
      bounds are invariants under any interference that preserves them.
    - Processes: fork copies the caller or leaves nothing behind, wait reaps a
      zombie and gives back its pages; a child that is forked, started by the
      scheduler, exits and is waited for leaves pages, files, inodes and the log
      as they were; exec installs the arguments and the image, or leaves the
      process as it was when they do not fit or memory is short.
    - File descriptors: through every trap and system call, under any
      interference of the same kind, the count of each open file is the number
      of descriptors that name it; only a process in [kexit], which closes a file
      before it clears the descriptor, may have one descriptor that does not
      count.
    - Scheduling: the process chosen has the highest priority, and one of equal
      priority behind a busy process is never chosen.
    - The file system: a commit is atomic under crashes and recovery is
      idempotent; block allocation; writing and reading a file and linking and
      finding a name round trip; path names are split as they should be.
    - Devices: the disk driver, the device and the interrupt handler implement
      a block transfer; the console implements a line editor; a pipe is a
      first-in first-out queue; the number printer of [printf.c] stays within
      its buffer.
    - Assembly: the registers of a program survive a trap, and [prepare_return]
      with the trampoline takes a process to user mode and back onto its kernel
      stack; a context switch comes back where it left; an interrupt in the
      kernel is not noticed by the code it interrupts.
    - User programs: the shell's parser accepts exactly the sentences of a
      grammar, builds the command each denotes, and stops on every line; malloc
      gives a block apart from all others and free gives it back, with the free
      list sorted and merged; grep's matcher decides the language of the
      pattern, grep prints the lines that match, wc counts lines, words and
      bytes.
    - Test programs: [usertests] and all its tests keep to their arrays and
      formats on any kernel, and it exits with 0 exactly when every test
      gets a process and exits with 0 and no page is lost; [forktest] decides whether fork runs out; the random
      numbers of [grind] are those of Park and Miller; [logstress] overruns its
      buffer, and a loop of [lazy_sbrk] cannot report its error.
    - The disk image: [mkfs] makes an image with the invariants that the
      theorems on the file system assume, in which the kernel finds the files.

    ** Not modelled

    The fetching of instructions: a run of assembly code takes its list of
    instructions, so that the mapping of the trampoline page at one address in
    all page tables is not used; nor are the accessed and dirty bits.  That the
    compiler turns C into code with the registers and stack frames which
    [kernelvec.S] and [swtch.S] count on.  Weak memory and the fences that control it:
    steps of different harts interleave.  Interrupts being switched off while a
    spinlock is held is part of Spinlock.v only: in the rest of the kernel the
    number of locks held stands for [noff], so [sched] has no test for enabled
    interrupts and does not save [intena].  A failing [malloc] in the constructors
    of the shell's commands, which use its result unchecked.  The time a transfer takes: in the
    model of the buffer cache a transfer is one step; DiskRefine.v connects it
    to the driver, which sleeps.  Calls of the host system on the image file
    that fail in [mkfs], and its messages.  What the tests of [usertests.c] find out on the
    kernel of this model: they are run against any kernel, and not against the
    definitions of the kernel files.  The host script [test-xv6.py], [usys.S]
    (generated), the link scripts. *)

From stdpp Require Import base numbers strings gmap list.
From Stdlib Require Import ZArith Lia.

#[local] Open Scope Z_scope.

(** ** Machine-width integers

    C integers are kept as [Z]; each assignment that may wrap goes through one
    of these.  Signed arithmetic wraps in two's complement. *)

Definition u8 (x : Z) : Z := x mod 2 ^ 8.
Definition u16 (x : Z) : Z := x mod 2 ^ 16.
Definition u32 (x : Z) : Z := x mod 2 ^ 32.
Definition u64 (x : Z) : Z := x mod 2 ^ 64.
Definition i16 (x : Z) : Z := (x + 2 ^ 15) mod 2 ^ 16 - 2 ^ 15.
Definition i32 (x : Z) : Z := (x + 2 ^ 31) mod 2 ^ 32 - 2 ^ 31.
Definition i64 (x : Z) : Z := (x + 2 ^ 63) mod 2 ^ 64 - 2 ^ 63.

(** [zlia]: [lia] with division and remainder by constants expanded. *)
Ltac zlia := Z.to_euclidean_division_equations; lia.

(** [ulia]: the same, with the width casts unfolded. *)
Ltac ulia := unfold u8, u16, u32, u64, i16, i32, i64 in *; zlia.

Create HintDb width.
Create Rewrite HintDb width.

Lemma u8_small x : 0 <= x < 2 ^ 8 -> u8 x = x.
Proof. ulia. Qed.
Lemma u32_small x : 0 <= x < 2 ^ 32 -> u32 x = x.
Proof. ulia. Qed.
Lemma u64_small x : 0 <= x < 2 ^ 64 -> u64 x = x.
Proof. ulia. Qed.
Lemma i32_small x : - 2 ^ 31 <= x < 2 ^ 31 -> i32 x = x.
Proof. ulia. Qed.
Lemma i16_small x : - 2 ^ 15 <= x < 2 ^ 15 -> i16 x = x.
Proof. ulia. Qed.
Lemma u8_range x : 0 <= u8 x < 2 ^ 8.
Proof. ulia. Qed.
Lemma u32_range x : 0 <= u32 x < 2 ^ 32.
Proof. ulia. Qed.
Lemma u64_range x : 0 <= u64 x < 2 ^ 64.
Proof. ulia. Qed.
Lemma i32_range x : - 2 ^ 31 <= i32 x < 2 ^ 31.
Proof. ulia. Qed.

#[export] Hint Rewrite u8_small u32_small u64_small i32_small using lia : width.
#[export] Hint Resolve u8_range u32_range u64_range i32_range : width.

(** ** Bit masks *)

Lemma land_ones_lnot x n : 0 <= n -> Z.land x (Z.lnot (Z.ones n)) = 2 ^ n * (x / 2 ^ n).
Proof.
  intros Hn. rewrite <- Z.ldiff_land, Z.ldiff_ones_r by lia.
  rewrite Z.shiftl_mul_pow2, Z.shiftr_div_pow2 by lia. lia.
Qed.

Lemma land_shiftl_small x y n : 0 <= n -> 0 <= y < 2 ^ n -> Z.land (Z.shiftl x n) y = 0.
Proof.
  intros Hn Hy. apply Z.bits_inj'; intros i Hi. rewrite Z.land_spec, Z.bits_0, Z.shiftl_spec by lia.
  destruct (decide (i < n)).
  - by rewrite (Z.testbit_neg_r x) by lia.
  - rewrite <- (Z.mod_small y (2 ^ n)), Z.mod_pow2_bits_high by lia. apply andb_false_r.
Qed.

Lemma lor_shiftl_add x y n :
  0 <= n -> 0 <= y < 2 ^ n -> Z.lor (Z.shiftl x n) y = Z.shiftl x n + y.
Proof.
  intros Hn Hy. pose proof (land_shiftl_small x y n Hn Hy).
  by rewrite Z.add_nocarry_lxor, Z.lxor_lor.
Qed.

Lemma lor_range x y n : 0 <= n -> 0 <= x < 2 ^ n -> 0 <= y < 2 ^ n -> 0 <= Z.lor x y < 2 ^ n.
Proof.
  intros Hn Hx Hy.
  rewrite <- (Z.mod_small x (2 ^ n)), <- (Z.mod_small y (2 ^ n)), <- !Z.land_ones, <- Z.land_lor_distr_l, Z.land_ones by lia.
  apply Z.mod_pos_bound. lia.
Qed.

(** ** Lists *)

Section list_lemmas.
Context {A : Type}.
Implicit Types (l : list A).

(** Reading an array out of range: the model returns the default. *)
Definition nthd (d : A) l (i : Z) : A := if i <? 0 then d else default d (l !! Z.to_nat i).

(** [a[i] = x]; an index out of range leaves the list as it is. *)
Definition setz l (i : Z) (x : A) : list A := if i <? 0 then l else <[Z.to_nat i := x]> l.

Lemma length_setz l i x : length (setz l i x) = length l.
Proof. unfold setz. destruct (i <? 0); [done|apply length_insert]. Qed.

Lemma nthd_setz_eq d l i x : 0 <= i < Z.of_nat (length l) -> nthd d (setz l i x) i = x.
Proof.
  intros. unfold nthd, setz. destruct (Z.ltb_spec i 0); [lia|].
  by rewrite list_lookup_insert_eq by lia.
Qed.

Lemma nthd_setz_ne d l i j x : i <> j -> nthd d (setz l i x) j = nthd d l j.
Proof.
  intros. unfold nthd, setz.
  destruct (Z.ltb_spec j 0), (Z.ltb_spec i 0); try done.
  by rewrite list_lookup_insert_ne by lia.
Qed.
Lemma nthd_drop d l n i : 0 <= i -> nthd d (drop n l) i = nthd d l (i + Z.of_nat n).
Proof.
  intros. unfold nthd. destruct (Z.ltb_spec i 0), (Z.ltb_spec (i + Z.of_nat n) 0); try lia.
  rewrite lookup_drop. do 2 f_equal. lia.
Qed.

Lemma nthd_take d l n i : i < Z.of_nat n -> nthd d (take n l) i = nthd d l i.
Proof.
  intros. unfold nthd. destruct (Z.ltb_spec i 0); [done|]. by rewrite lookup_take_lt by lia.
Qed.
End list_lemmas.

(** ** Struct assignment

    [r <| f := v |>] is the struct [r] after [r.f = v], [r <| f ::= g |>] after
    [r.f = g(r.f)].  A record type gives its expansion ([Expand]: rebuilding a
    value from its fields); the update of a field replaces that field in it. *)
Class Expand (R : Type) := expand : R -> R.
Class Update {R T : Type} (f : R -> T) := update : (T -> T) -> R -> R.

Arguments update {R T} f {_} g r /.

Ltac derive_update f :=
  let g := fresh "g" in
  let r := fresh "r" in
  intros g r;
  let e := constr:(expand r) in
  match e with
  | @expand _ ?inst _ =>
      let e := eval unfold expand in e in
      let e := eval unfold inst in e in
      let e := eval cbv beta in e in
      match eval pattern (f r) in e with
      | ?F _ => let t := eval cbv beta in (F (g (f r))) in exact t
      end
  end.

#[export] Hint Extern 1 (Update ?f) => derive_update f : typeclass_instances.

Notation "r <| f := v |>" := (update f (fun _ => v) r)
  (at level 1, f at level 200, left associativity, format "r  <|  f  :=  v  |>").
Notation "r <| f ::= g |>" := (update f g r)
  (at level 1, f at level 200, left associativity, format "r  <|  f  ::=  g  |>").
