(* ===== verification/Riscv.v ===== *)
(** * The machine: [riscv.h], [memlayout.h], [param.h]

    Sizes and limits are notations for their values; the address macros are
    definitions, with the properties the page-table code relies on: rounding,
    the three 9-bit indices of a virtual address and back, the page-table
    entry encoding, and the layout of the kernel stacks. *)

From S2P Require Import Prelude.
From stdpp Require Import base numbers strings gmap list.
From Stdlib Require Import ZArith Lia.

#[local] Open Scope Z_scope.

(** ** param.h *)
Abbreviation NPROC := 64%Z (only parsing).
Abbreviation NOFILE := 16%Z (only parsing).
Abbreviation NFILE := 100%Z (only parsing).
Abbreviation NINODE := 50%Z (only parsing).
Abbreviation NDEV := 10%Z (only parsing).
Abbreviation ROOTDEV := 1%Z (only parsing).
Abbreviation MAXARG := 32%Z (only parsing).
Abbreviation MAXOPBLOCKS := 10%Z (only parsing).
Abbreviation LOGBLOCKS := 30%Z (only parsing).
Abbreviation NBUF := 30%Z (only parsing).
Abbreviation MAXPATH := 128%Z (only parsing).
Abbreviation USERSTACK := 1%Z (only parsing).

(** ** memlayout.h and riscv.h: sizes *)
Abbreviation PGSIZE := 4096%Z (only parsing).
Abbreviation PGSHIFT := 12%Z (only parsing).
Abbreviation UART0 := 0x10000000%Z (only parsing).
Abbreviation VIRTIO0 := 0x10001000%Z (only parsing).
Abbreviation PLIC := 0x0c000000%Z (only parsing).
Abbreviation KERNBASE := 0x80000000%Z (only parsing).
Abbreviation PHYSTOP := 0x88000000%Z (only parsing).
Abbreviation MAXVA := 0x4000000000%Z (only parsing).
Abbreviation TRAMPOLINE := 0x3ffffff000%Z (only parsing).
Abbreviation TRAPFRAME := 0x3fffffe000%Z (only parsing).

(** The derived constants, as the headers compute them. *)
Lemma layout_values :
  PHYSTOP = KERNBASE + 128 * 1024 * 1024 /\ MAXVA = Z.shiftl 1 (9 + 9 + 9 + 12 - 1) /\
  TRAMPOLINE = MAXVA - PGSIZE /\ TRAPFRAME = TRAMPOLINE - PGSIZE /\ LOGBLOCKS = MAXOPBLOCKS * 3.
Proof. repeat split. Qed.

Definition KSTACK (p : Z) : Z := TRAMPOLINE - (p + 1) * 2 * PGSIZE.

(** ** Page rounding *)
Definition PGROUNDUP (sz : Z) : Z := Z.land (u64 (sz + PGSIZE - 1)) (Z.lnot (PGSIZE - 1)).
Definition PGROUNDDOWN (a : Z) : Z := Z.land a (Z.lnot (PGSIZE - 1)).

(** ** Page-table entries *)
Definition PTE_V : Z := Z.shiftl 1 0.
Definition PTE_R : Z := Z.shiftl 1 1.
Definition PTE_W : Z := Z.shiftl 1 2.
Definition PTE_X : Z := Z.shiftl 1 3.
Definition PTE_U : Z := Z.shiftl 1 4.
Definition PA2PTE (pa : Z) : Z := u64 (Z.shiftl (Z.shiftr pa 12) 10).
Definition PTE2PA (pte : Z) : Z := u64 (Z.shiftl (Z.shiftr pte 10) 12).
Definition PTE_FLAGS (pte : Z) : Z := Z.land pte 0x3FF.

(** ** Virtual-address indices *)
Definition PXSHIFT (level : Z) : Z := PGSHIFT + 9 * level.
Definition PX (level va : Z) : Z := Z.land (Z.shiftr va (PXSHIFT level)) 0x1FF.

(** ** satp *)
Definition SATP_SV39 : Z := Z.shiftl 8 60.
Definition MAKE_SATP (pagetable : Z) : Z := Z.lor SATP_SV39 (Z.shiftr pagetable 12).

(** ** Control and status registers

    The registers [riscv.h] reads and writes, each a 64-bit value; [tp] is kept
    with them. *)
Record csrs := mkcsrs {
  mhartid : Z;
  mstatus : Z;
  mepc : Z;
  sstatus : Z;
  sip : Z;
  sie : Z;
  mie : Z;
  sepc : Z;
  medeleg : Z;
  mideleg : Z;
  stvec : Z;
  stimecmp : Z;
  menvcfg : Z;
  pmpcfg0 : Z;
  pmpaddr0 : Z;
  satp : Z;
  scause : Z;
  stval : Z;
  mcounteren : Z;
  time : Z;
  tp : Z
}.

#[export] Instance csrs_expand : Expand csrs := fun r =>
  mkcsrs (mhartid r) (mstatus r) (mepc r) (sstatus r) (sip r) (sie r) (mie r) (sepc r) (medeleg r)
    (mideleg r) (stvec r) (stimecmp r) (menvcfg r) (pmpcfg0 r) (pmpaddr0 r) (satp r) (scause r)
    (stval r) (mcounteren r) (time r) (tp r).

Definition csrs_0 : csrs := mkcsrs 0 0 0 0 0 0 0 0 0 0 0 0 0 0 0 0 0 0 0 0 0.

Definition MSTATUS_MPP_MASK : Z := Z.shiftl 3 11.
Definition MSTATUS_MPP_S : Z := Z.shiftl 1 11.
Definition SSTATUS_SPP : Z := Z.shiftl 1 8.
Definition SSTATUS_SPIE : Z := Z.shiftl 1 5.
Definition SSTATUS_SIE : Z := Z.shiftl 1 1.
Definition SIE_SEIE : Z := Z.shiftl 1 9.
Definition SIE_STIE : Z := Z.shiftl 1 5.
Definition MIE_STIE : Z := Z.shiftl 1 5.

Definition r_mhartid (r : csrs) : Z := mhartid r.
Definition r_mstatus (r : csrs) : Z := mstatus r.
Definition r_sstatus (r : csrs) : Z := sstatus r.
Definition r_sip (r : csrs) : Z := sip r.
Definition r_sie (r : csrs) : Z := sie r.
Definition r_mie (r : csrs) : Z := mie r.
Definition r_sepc (r : csrs) : Z := sepc r.
Definition r_medeleg (r : csrs) : Z := medeleg r.
Definition r_mideleg (r : csrs) : Z := mideleg r.
Definition r_stvec (r : csrs) : Z := stvec r.
Definition r_stimecmp (r : csrs) : Z := stimecmp r.
Definition r_menvcfg (r : csrs) : Z := menvcfg r.
Definition r_satp (r : csrs) : Z := satp r.
Definition r_scause (r : csrs) : Z := scause r.
Definition r_stval (r : csrs) : Z := stval r.
Definition r_mcounteren (r : csrs) : Z := mcounteren r.
Definition r_time (r : csrs) : Z := time r.
Definition r_tp (r : csrs) : Z := tp r.
Definition w_mstatus (x : Z) (r : csrs) : csrs := r <| mstatus := u64 x |>.
Definition w_mepc (x : Z) (r : csrs) : csrs := r <| mepc := u64 x |>.
Definition w_sstatus (x : Z) (r : csrs) : csrs := r <| sstatus := u64 x |>.
Definition w_sip (x : Z) (r : csrs) : csrs := r <| sip := u64 x |>.
Definition w_sie (x : Z) (r : csrs) : csrs := r <| sie := u64 x |>.
Definition w_mie (x : Z) (r : csrs) : csrs := r <| mie := u64 x |>.
Definition w_sepc (x : Z) (r : csrs) : csrs := r <| sepc := u64 x |>.
Definition w_medeleg (x : Z) (r : csrs) : csrs := r <| medeleg := u64 x |>.
Definition w_mideleg (x : Z) (r : csrs) : csrs := r <| mideleg := u64 x |>.
Definition w_stvec (x : Z) (r : csrs) : csrs := r <| stvec := u64 x |>.
Definition w_stimecmp (x : Z) (r : csrs) : csrs := r <| stimecmp := u64 x |>.
Definition w_menvcfg (x : Z) (r : csrs) : csrs := r <| menvcfg := u64 x |>.
Definition w_pmpcfg0 (x : Z) (r : csrs) : csrs := r <| pmpcfg0 := u64 x |>.
Definition w_pmpaddr0 (x : Z) (r : csrs) : csrs := r <| pmpaddr0 := u64 x |>.
Definition w_satp (x : Z) (r : csrs) : csrs := r <| satp := u64 x |>.
Definition w_mcounteren (x : Z) (r : csrs) : csrs := r <| mcounteren := u64 x |>.
Definition w_tp (x : Z) (r : csrs) : csrs := r <| tp := u64 x |>.

Definition intr_on (r : csrs) : csrs := w_sstatus (Z.lor (r_sstatus r) SSTATUS_SIE) r.
Definition intr_off (r : csrs) : csrs := w_sstatus (Z.land (r_sstatus r) (Z.lnot SSTATUS_SIE)) r.
Definition intr_get (r : csrs) : bool := negb (Z.land (r_sstatus r) SSTATUS_SIE =? 0).

(** [flag pte f]: the C test [pte & f]. *)
Definition flag (pte f : Z) : bool := negb (Z.land pte f =? 0).

(** ** Lemmas *)

Lemma PGROUNDDOWN_eq a : PGROUNDDOWN a = PGSIZE * (a / PGSIZE).
Proof. unfold PGROUNDDOWN. change (4096 - 1) with (Z.ones 12). by rewrite land_ones_lnot. Qed.

Lemma PGROUNDUP_eq sz :
  0 <= sz < 2 ^ 64 - PGSIZE -> PGROUNDUP sz = PGSIZE * ((sz + PGSIZE - 1) / PGSIZE).
Proof.
  intros. unfold PGROUNDUP. change (4096 - 1) with (Z.ones 12).
  rewrite land_ones_lnot by lia. rewrite u64_small by lia. done.
Qed.

Lemma PGROUNDUP_bounds sz :
  0 <= sz < 2 ^ 64 - PGSIZE -> sz <= PGROUNDUP sz < sz + PGSIZE /\ PGROUNDUP sz mod PGSIZE = 0.
Proof. intros. rewrite PGROUNDUP_eq by lia. zlia. Qed.

Lemma PGROUNDDOWN_bounds a : PGROUNDDOWN a <= a < PGROUNDDOWN a + PGSIZE /\ PGROUNDDOWN a mod PGSIZE = 0.
Proof. rewrite PGROUNDDOWN_eq. zlia. Qed.

Lemma PGROUNDUP_aligned sz :
  0 <= sz < 2 ^ 64 - PGSIZE -> sz mod PGSIZE = 0 -> PGROUNDUP sz = sz.
Proof. intros. rewrite PGROUNDUP_eq by lia. zlia. Qed.

Lemma PX_eq level va : 0 <= level -> PX level va = va / 2 ^ (12 + 9 * level) mod 512.
Proof.
  intros. unfold PX, PXSHIFT. change 0x1FF with (Z.ones 9).
  rewrite Z.land_ones, Z.shiftr_div_pow2 by lia. done.
Qed.

Lemma PX_range level va : 0 <= level -> 0 <= PX level va < 512.
Proof. intros. rewrite PX_eq by lia. apply Z.mod_pos_bound. lia. Qed.

Lemma PX_root va : 0 <= va < MAXVA -> 0 <= PX 2 va < 256.
Proof. intros. rewrite PX_eq by lia. change (12 + 9 * 2) with 30. zlia. Qed.

(** The three indices and the offset determine the address. *)
Lemma PX_compose va :
  0 <= va < MAXVA ->
  va = PX 2 va * 2 ^ 30 + PX 1 va * 2 ^ 21 + PX 0 va * 2 ^ 12 + va mod PGSIZE.
Proof.
  intros. rewrite !PX_eq by lia.
  change (12 + 9 * 2) with 30. change (12 + 9 * 1) with 21. change (12 + 9 * 0) with 12. zlia.
Qed.

Lemma PX_inj va va' :
  0 <= va < MAXVA -> 0 <= va' < MAXVA -> va mod PGSIZE = 0 -> va' mod PGSIZE = 0 ->
  PX 2 va = PX 2 va' -> PX 1 va = PX 1 va' -> PX 0 va = PX 0 va' -> va = va'.
Proof.
  intros H H' Ha Ha' E2 E1 E0. rewrite (PX_compose va), (PX_compose va') by done. congruence.
Qed.

Lemma PA2PTE_eq pa : 0 <= pa < 2 ^ 56 -> PA2PTE pa = 1024 * (pa / PGSIZE).
Proof.
  intros. unfold PA2PTE. rewrite Z.shiftl_mul_pow2, Z.shiftr_div_pow2 by lia.
  rewrite u64_small by zlia. change (2 ^ 12) with 4096. change (2 ^ 10) with 1024. lia.
Qed.

(** Encoding a page address with flag bits. *)
Lemma PTE_make_eq pa fl :
  0 <= pa < 2 ^ 56 -> 0 <= fl < 1024 -> Z.lor (PA2PTE pa) fl = 1024 * (pa / PGSIZE) + fl.
Proof.
  intros. unfold PA2PTE. rewrite u64_small.
  2: { rewrite Z.shiftl_mul_pow2, Z.shiftr_div_pow2 by lia. zlia. }
  rewrite lor_shiftl_add by lia. rewrite Z.shiftl_mul_pow2, Z.shiftr_div_pow2 by lia.
  change (2 ^ 12) with 4096. lia.
Qed.

(** The page address comes back, and so do the flags. *)
Lemma PTE2PA_make pa fl :
  0 <= pa < 2 ^ 56 -> pa mod PGSIZE = 0 -> 0 <= fl < 1024 -> PTE2PA (Z.lor (PA2PTE pa) fl) = pa.
Proof.
  intros. rewrite PTE_make_eq by lia. unfold PTE2PA.
  rewrite Z.shiftr_div_pow2, Z.shiftl_mul_pow2 by lia. change (2 ^ 10) with 1024. change (2 ^ 12) with 4096.
  ulia.
Qed.

Lemma PTE_FLAGS_make pa fl :
  0 <= pa < 2 ^ 56 -> 0 <= fl < 1024 -> PTE_FLAGS (Z.lor (PA2PTE pa) fl) = fl.
Proof.
  intros. rewrite PTE_make_eq by lia. unfold PTE_FLAGS. change 0x3FF with (Z.ones 10).
  rewrite Z.land_ones by lia. zlia.
Qed.

(** A flag test on an encoded entry only sees the flag bits. *)
Lemma flag_make pa fl f :
  0 <= pa < 2 ^ 56 -> 0 <= fl < 1024 -> 0 <= f < 1024 -> flag (Z.lor (PA2PTE pa) fl) f = flag fl f.
Proof.
  intros. unfold flag. f_equal. f_equal. rewrite Z.land_lor_distr_l.
  unfold PA2PTE. rewrite u64_small.
  2: { rewrite Z.shiftl_mul_pow2, Z.shiftr_div_pow2 by lia. zlia. }
  rewrite land_shiftl_small by lia. by rewrite Z.lor_0_l.
Qed.

(** Kernel stacks are page aligned, below the trampoline, and any two of them
    are separated by at least one unmapped guard page. *)
Lemma KSTACK_guarded p q :
  0 <= p < q -> q < NPROC -> KSTACK q + PGSIZE <= KSTACK p - PGSIZE.
Proof. unfold KSTACK. lia. Qed.

Lemma KSTACK_range p :
  0 <= p < NPROC -> PHYSTOP < KSTACK p /\ KSTACK p + 2 * PGSIZE <= TRAMPOLINE /\ KSTACK p mod PGSIZE = 0.
Proof. unfold KSTACK. zlia. Qed.
