(* ===== verification/CString.v ===== *)
(** * Bytes in memory and [string.c]

    Physical memory is a finite map from byte addresses to byte values (an
    address never written reads 0); a C object that is not shared (a local
    array, an array inside a struct) is a list of bytes.  A string that is only
    read is given as its accessor [s : Z -> Z], [s i] being [s[i]], so that the
    same routine serves memory ([mem_at]) and arrays ([nthd 0]). *)

From S2P Require Import Prelude Riscv.
From stdpp Require Import base numbers strings gmap list.
From Stdlib Require Import ZArith Lia.

#[local] Open Scope Z_scope.

Abbreviation memory := (gmap Z Z).

Definition rd8 (m : memory) (a : Z) : Z := default 0 (m !! a).
Definition wr8 (m : memory) (a v : Z) : memory := <[a := u8 v]> m.
Definition mem_at (m : memory) (a : Z) : Z -> Z := fun i => rd8 m (a + i).

(** Little-endian loads and stores of [n] bytes. *)
Fixpoint rdn (n : nat) (m : memory) (a : Z) : Z :=
  match n with
  | O => 0
  | S n => rd8 m a + 2 ^ 8 * rdn n m (a + 1)
  end.

Fixpoint wrn (n : nat) (m : memory) (a v : Z) : memory :=
  match n with
  | O => m
  | S n => wr8 (wrn n m (a + 1) (v / 2 ^ 8)) a v
  end.

Abbreviation rd64 := (rdn 8).
Abbreviation wr64 := (wrn 8).

(** The [n] bytes at [a]. *)
Definition rdbytes (m : memory) (a : Z) (n : nat) : list Z :=
  (fun i => rd8 m (a + Z.of_nat i)) <$> seq 0 n.

(** The same on the bytes of an array: [lget n l off] is the [n]-byte
    little-endian field at offset [off], [splice l off bs] the array with [bs]
    stored there. *)
Fixpoint le_val (l : list Z) : Z := match l with [] => 0 | b :: l => b + 2 ^ 8 * le_val l end.
Fixpoint le_bytes (n : nat) (v : Z) : list Z := match n with O => [] | S n => u8 v :: le_bytes n (v / 2 ^ 8) end.
Definition lget (n : nat) (l : list Z) (off : Z) : Z := le_val (take n (drop (Z.to_nat off) l)).
Definition splice (l : list Z) (off : Z) (bs : list Z) : list Z :=
  take (Z.to_nat off) l ++ bs ++ drop (Z.to_nat off + length bs) l.

(** ** [memset], [memcmp], [memmove] *)

Fixpoint memset_loop (n : nat) (m : memory) (cdst c i : Z) : memory :=
  match n with
  | O => m
  | S n => memset_loop n (wr8 m (cdst + i) c) cdst c (i + 1)
  end.

Definition memset (m : memory) (dst c n : Z) : memory := memset_loop (Z.to_nat (u32 n)) m dst c 0.

Fixpoint memcmp_loop (n : nat) (s1 s2 : Z -> Z) (i : Z) : Z :=
  match n with
  | O => 0
  | S n => if s1 i =? s2 i then memcmp_loop n s1 s2 (i + 1) else s1 i - s2 i
  end.

Definition memcmp (s1 s2 : Z -> Z) (n : Z) : Z := memcmp_loop (Z.to_nat (u32 n)) s1 s2 0.

(** [while(n-- > 0) *--d = *--s;] *)
Fixpoint copy_down (n : nat) (m : memory) (d s : Z) : memory :=
  match n with
  | O => m
  | S n => copy_down n (wr8 m (d - 1) (rd8 m (s - 1))) (d - 1) (s - 1)
  end.

(** [while(n-- > 0) *d++ = *s++;] *)
Fixpoint copy_up (n : nat) (m : memory) (d s : Z) : memory :=
  match n with
  | O => m
  | S n => copy_up n (wr8 m d (rd8 m s)) (d + 1) (s + 1)
  end.

Definition memmove (m : memory) (dst src n : Z) : memory :=
  let n := u32 n in
  if n =? 0 then m
  else if (src <? dst) && (src + n >? dst) then copy_down (Z.to_nat n) m (dst + n) (src + n)
  else copy_up (Z.to_nat n) m dst src.

(** [memmove] from an array of the kernel into memory. *)
Fixpoint wrbytes (m : memory) (a : Z) (bs : list Z) : memory :=
  match bs with
  | [] => m
  | b :: bs => wrbytes (wr8 m a b) (a + 1) bs
  end.

(** ** Strings *)

Fixpoint strncmp_loop (n : nat) (p q : Z -> Z) (i : Z) : Z :=
  match n with
  | O => 0
  | S n =>
      if negb (p i =? 0) && (p i =? q i) then strncmp_loop n p q (i + 1)
      else u8 (p i) - u8 (q i)
  end.

Definition strncmp (p q : Z -> Z) (n : Z) : Z := strncmp_loop (Z.to_nat (u32 n)) p q 0.

(** [while(n-- > 0) *s++ = 0;], the destination being the array [s] from index [i]. *)
Fixpoint zero_fill (n : nat) (s : list Z) (i : Z) : list Z :=
  match n with
  | O => s
  | S n => zero_fill n (setz s i 0) (i + 1)
  end.

Fixpoint strncpy_loop (n : nat) (s : list Z) (t : Z -> Z) (i : Z) : list Z :=
  match n with
  | O => s
  | S n =>
      let s := setz s i (t i) in
      if t i =? 0 then zero_fill n s (i + 1) else strncpy_loop n s t (i + 1)
  end.

Definition strncpy (s : list Z) (t : Z -> Z) (n : Z) : list Z := strncpy_loop (Z.to_nat n) s t 0.

(** Up to [n] bytes are copied until a NUL has been copied; then one more NUL is stored. *)
Fixpoint safestrcpy_loop (n : nat) (s : list Z) (t : Z -> Z) (i : Z) : list Z :=
  match n with
  | O => setz s i 0
  | S n =>
      let s := setz s i (t i) in
      if t i =? 0 then setz s (i + 1) 0 else safestrcpy_loop n s t (i + 1)
  end.

Definition safestrcpy (s : list Z) (t : Z -> Z) (n : Z) : list Z :=
  if n <=? 0 then s else safestrcpy_loop (Z.to_nat (n - 1)) s t 0.

(** [for(n = 0; s[n]; n++);] with a bound on the length looked at. *)
Fixpoint strlen_loop (fuel : nat) (s : Z -> Z) (n : Z) : option Z :=
  match fuel with
  | O => None
  | S fuel => if s n =? 0 then Some n else strlen_loop fuel s (n + 1)
  end.

Definition strlen (fuel : nat) (s : Z -> Z) : option Z := strlen_loop fuel s 0.

(** ** Lemmas: bytes and words *)

Lemma rd8_wr8_eq m a v : rd8 (wr8 m a v) a = u8 v.
Proof. unfold rd8, wr8. by rewrite lookup_insert_eq. Qed.

Lemma rd8_wr8_ne m a b v : a <> b -> rd8 (wr8 m a v) b = rd8 m b.
Proof. intros. unfold rd8, wr8. by rewrite lookup_insert_ne. Qed.

Lemma rd8_wr8 m a b v : rd8 (wr8 m a v) b = if a =? b then u8 v else rd8 m b.
Proof. destruct (Z.eqb_spec a b) as [->|]; [apply rd8_wr8_eq|by apply rd8_wr8_ne]. Qed.

Lemma rd8_wrn_out n m a v b : b < a \/ a + Z.of_nat n <= b -> rd8 (wrn n m a v) b = rd8 m b.
Proof.
  revert a v; induction n as [|n IH]; intros a v Hb; [done|].
  cbn [wrn]. rewrite rd8_wr8_ne by lia. apply IH. lia.
Qed.

(** A read depends on its bytes only. *)
Lemma rdn_ext n m m' a :
  (forall i, a <= i < a + Z.of_nat n -> rd8 m i = rd8 m' i) -> rdn n m a = rdn n m' a.
Proof.
  revert a; induction n as [|n IH]; intros a H; [done|].
  cbn [rdn]. rewrite (H a) by lia. rewrite (IH (a + 1)); [done|]. intros; apply H; lia.
Qed.

Lemma rdn_wrn_out n n' m a v b :
  b + Z.of_nat n <= a \/ a + Z.of_nat n' <= b -> rdn n (wrn n' m a v) b = rdn n m b.
Proof. intros. apply rdn_ext. intros. apply rd8_wrn_out. lia. Qed.

Lemma rdn_wrn_eq n m a v : rdn n (wrn n m a v) a = v mod 2 ^ (8 * Z.of_nat n).
Proof.
  revert a v; induction n as [|n IH]; intros a v; [by rewrite Z.mod_1_r|].
  cbn [rdn wrn]. rewrite rd8_wr8_eq.
  rewrite (rdn_ext _ _ (wrn n m (a + 1) (v / 2 ^ 8))).
  2: { intros. apply rd8_wr8_ne. lia. }
  rewrite IH. unfold u8. replace (8 * Z.of_nat (S n)) with (8 + 8 * Z.of_nat n) by lia.
  rewrite Z.pow_add_r by lia. rewrite Z.rem_mul_r by lia. lia.
Qed.

Lemma rd64_wr64_eq m a v : rd64 (wr64 m a v) a = u64 v.
Proof. apply rdn_wrn_eq. Qed.

(** Every byte of a memory the code has written is a byte. *)
Definition mem_ok (m : memory) : Prop := forall a, 0 <= rd8 m a < 2 ^ 8.

Lemma rdn_range n m a : mem_ok m -> 0 <= rdn n m a < 2 ^ (8 * Z.of_nat n).
Proof.
  intros Hm. revert a; induction n as [|n IH]; intros a; [simpl; lia|].
  cbn [rdn]. specialize (IH (a + 1)). pose proof (Hm a).
  replace (8 * Z.of_nat (S n)) with (8 + 8 * Z.of_nat n) by lia.
  rewrite Z.pow_add_r by lia. nia.
Qed.

Lemma mem_ok_wr8 m a v : mem_ok m -> mem_ok (wr8 m a v).
Proof. intros H b. rewrite rd8_wr8. destruct (a =? b); [apply u8_range|apply H]. Qed.

Lemma mem_ok_wrn n m a v : mem_ok m -> mem_ok (wrn n m a v).
Proof. revert a v; induction n; intros; cbn [wrn]; [done|]. apply mem_ok_wr8; auto. Qed.

Lemma mem_ok_empty : mem_ok ∅.
Proof. intros a. unfold rd8. rewrite lookup_empty. simpl. lia. Qed.

(** ** Lemmas: [memset] *)

Lemma rd8_memset_loop n m d c i a :
  rd8 (memset_loop n m d c i) a =
  if decide (d + i <= a < d + i + Z.of_nat n) then u8 c else rd8 m a.
Proof.
  revert m i; induction n as [|n IH]; intros m i; cbn [memset_loop].
  - rewrite decide_False by lia. done.
  - rewrite IH, rd8_wr8. repeat case_decide; try lia; try done; destruct (Z.eqb_spec (d + i) a); try lia; done.
Qed.

Lemma rd8_memset m d c n a :
  0 <= n < 2 ^ 32 ->
  rd8 (memset m d c n) a = if decide (d <= a < d + n) then u8 c else rd8 m a.
Proof.
  intros. unfold memset. rewrite rd8_memset_loop, u32_small by lia.
  repeat case_decide; try done; lia.
Qed.

Lemma rd8_memset_out m d c n a :
  0 <= n < 2 ^ 32 -> ~ (d <= a < d + n) -> rd8 (memset m d c n) a = rd8 m a.
Proof. intros. rewrite rd8_memset by done. by rewrite decide_False. Qed.

Lemma rdn_memset_out k m d c n a :
  0 <= n < 2 ^ 32 -> a + Z.of_nat k <= d \/ d + n <= a -> rdn k (memset m d c n) a = rdn k m a.
Proof. intros. apply rdn_ext. intros. apply rd8_memset_out; lia. Qed.

Lemma rd64_memset_0 m d n a :
  0 <= n < 2 ^ 32 -> d <= a -> a + 8 <= d + n -> rd64 (memset m d 0 n) a = 0.
Proof.
  intros. cbn [rdn]. rewrite !rd8_memset by lia. rewrite !decide_True by lia. reflexivity.
Qed.

Lemma mem_ok_memset m d c n : mem_ok m -> mem_ok (memset m d c n).
Proof. intros H a. unfold memset. rewrite rd8_memset_loop. case_decide; [apply u8_range|apply H]. Qed.

(** ** Lemmas: copying *)

Lemma rd8_copy_up n m d s a :
  mem_ok m -> ~ (s < d < s + Z.of_nat n) ->
  rd8 (copy_up n m d s) a = if decide (d <= a < d + Z.of_nat n) then rd8 m (s + (a - d)) else rd8 m a.
Proof.
  revert m d s; induction n as [|n IH]; intros m d s Hm Hov; cbn [copy_up].
  - by rewrite decide_False by lia.
  - rewrite IH by (try apply mem_ok_wr8; try lia; done). rewrite !rd8_wr8.
    rewrite !(u8_small (rd8 m s)) by apply Hm.
    repeat case_decide; try lia.
    + destruct (Z.eqb_spec d (s + 1 + (a - (d + 1)))); [|f_equal; lia].
      f_equal; lia.
    + destruct (Z.eqb_spec d a); [f_equal; lia|lia].
    + destruct (Z.eqb_spec d a); [lia|done].
Qed.

Lemma rd8_copy_down n m d s a :
  mem_ok m -> ~ (d < s /\ s - Z.of_nat n < d) ->
  rd8 (copy_down n m d s) a =
  if decide (d - Z.of_nat n <= a < d) then rd8 m (s + (a - d)) else rd8 m a.
Proof.
  revert m d s; induction n as [|n IH]; intros m d s Hm Hov; cbn [copy_down].
  - by rewrite decide_False by lia.
  - rewrite IH by (try apply mem_ok_wr8; try lia; done). rewrite !rd8_wr8.
    rewrite !(u8_small (rd8 m (s - 1))) by apply Hm.
    repeat case_decide; try lia.
    + destruct (Z.eqb_spec (d - 1) (s - 1 + (a - (d - 1)))); f_equal; lia.
    + destruct (Z.eqb_spec (d - 1) a); [f_equal; lia|lia].
    + destruct (Z.eqb_spec (d - 1) a); [lia|done].
Qed.

Lemma mem_ok_copy_up n m d s : mem_ok m -> mem_ok (copy_up n m d s).
Proof. revert m d s; induction n; intros; cbn [copy_up]; [done|]. by apply IHn, mem_ok_wr8. Qed.

Lemma mem_ok_copy_down n m d s : mem_ok m -> mem_ok (copy_down n m d s).
Proof. revert m d s; induction n; intros; cbn [copy_down]; [done|]. by apply IHn, mem_ok_wr8. Qed.

Lemma mem_ok_memmove m d s n : mem_ok m -> mem_ok (memmove m d s n).
Proof.
  intros. unfold memmove. repeat case_match; auto using mem_ok_copy_up, mem_ok_copy_down.
Qed.

(** The specification of [memmove]: the destination gets the bytes the source
    held before the call, whatever the overlap; nothing else changes. *)
Lemma rd8_memmove m d s n a :
  mem_ok m -> 0 <= n < 2 ^ 32 ->
  rd8 (memmove m d s n) a = if decide (d <= a < d + n) then rd8 m (s + (a - d)) else rd8 m a.
Proof.
  intros Hm Hn. unfold memmove. rewrite u32_small by lia.
  destruct (Z.eqb_spec n 0); [by rewrite decide_False by lia|].
  destruct (Z.ltb_spec s d), (Z.gtb_spec (s + n) d); simpl.
  1: rewrite rd8_copy_down by (try done; lia).
  2-4: rewrite rd8_copy_up by (try done; lia).
  all: repeat case_decide; try lia; f_equal; lia.
Qed.

(** ** Lemmas: strings *)

(** The bytes of [s] from [i] up to its NUL, [n] at most: what a bounded
    string routine sees of it. *)
Fixpoint cstr_from (n : nat) (s : Z -> Z) (i : Z) : list Z :=
  match n with
  | O => []
  | S n => if s i =? 0 then [] else s i :: cstr_from n s (i + 1)
  end.

Definition cstr (n : nat) (s : Z -> Z) : list Z := cstr_from n s 0.

Definition bytes_ok (s : Z -> Z) : Prop := forall i, 0 <= s i < 2 ^ 8.

Lemma strncmp_loop_0 n p q i :
  bytes_ok p -> bytes_ok q ->
  strncmp_loop n p q i = 0 <-> cstr_from n p i = cstr_from n q i.
Proof.
  intros Hp Hq. revert i; induction n as [|n IH]; intros i; cbn [strncmp_loop cstr_from]; [done|].
  pose proof (Hp i). pose proof (Hq i).
  destruct (Z.eqb_spec (p i) 0) as [E|E]; cbn [negb andb].
  - rewrite !u8_small by lia. destruct (Z.eqb_spec (q i) 0); split; try done; lia.
  - destruct (Z.eqb_spec (p i) (q i)) as [Eq|Eq].
    + rewrite IH, <- Eq. destruct (Z.eqb_spec (p i) 0); [done|]. split; [by intros ->|by intros [=]].
    + rewrite !u8_small by lia. destruct (Z.eqb_spec (q i) 0); split; try done; try lia.
      intros [=]; lia.
Qed.

(** [strncmp] answers 0 exactly on strings that agree up to [n] bytes or their NUL. *)
Lemma strncmp_0 p q n :
  bytes_ok p -> bytes_ok q -> 0 <= n < 2 ^ 32 ->
  strncmp p q n = 0 <-> cstr (Z.to_nat n) p = cstr (Z.to_nat n) q.
Proof. intros. unfold strncmp, cstr. rewrite u32_small by lia. by apply strncmp_loop_0. Qed.

Lemma setz_middle (pre s : list Z) x y : setz (pre ++ x :: s) (Z.of_nat (length pre)) y = pre ++ y :: s.
Proof.
  unfold setz. destruct (Z.ltb_spec (Z.of_nat (length pre)) 0); [lia|].
  by rewrite Nat2Z.id, insert_app_r_alt, Nat.sub_diag by lia.
Qed.

Lemma zero_fill_app n pre s :
  (n <= length s)%nat ->
  zero_fill n (pre ++ s) (Z.of_nat (length pre)) = pre ++ replicate n 0 ++ drop n s.
Proof.
  revert pre s; induction n as [|n IH]; intros pre s Hn; [done|].
  destruct s as [|x s]; simpl in Hn; [lia|]. cbn [zero_fill].
  rewrite setz_middle.
  replace (pre ++ 0 :: s) with ((pre ++ [0]) ++ s) by (by rewrite <- app_assoc).
  replace (Z.of_nat (length pre) + 1) with (Z.of_nat (length (pre ++ [0])))
    by (rewrite length_app; simpl; lia).
  rewrite IH by lia. by rewrite <- app_assoc.
Qed.

Lemma length_cstr_from n s i : (length (cstr_from n s i) <= n)%nat.
Proof. revert i; induction n; intros i; cbn [cstr_from]; [done|]. destruct (s i =? 0); simpl; [lia|]. specialize (IHn (i + 1)). lia. Qed.

Lemma strncpy_loop_app n pre s t :
  (n <= length s)%nat ->
  strncpy_loop n (pre ++ s) t (Z.of_nat (length pre)) =
  pre ++ cstr_from n t (Z.of_nat (length pre))
      ++ replicate (n - length (cstr_from n t (Z.of_nat (length pre)))) 0 ++ drop n s.
Proof.
  revert pre s; induction n as [|n IH]; intros pre s Hn; [done|].
  destruct s as [|x s]; simpl in Hn; [lia|]. cbn [strncpy_loop cstr_from].
  rewrite setz_middle.
  set (b := t (Z.of_nat (length pre))).
  replace (pre ++ b :: s) with ((pre ++ [b]) ++ s) by (by rewrite <- app_assoc).
  replace (Z.of_nat (length pre) + 1) with (Z.of_nat (length (pre ++ [b])))
    by (rewrite length_app; simpl; lia).
  destruct (Z.eqb_spec b 0) as [E|E].
  - rewrite zero_fill_app by lia. rewrite <- app_assoc. simpl. by rewrite E.
  - rewrite IH by lia. rewrite <- !app_assoc. simpl. done.
Qed.

(** [strncpy] fills its [n]-byte destination: the string, then NULs. *)
Lemma strncpy_spec s t n :
  0 <= n <= Z.of_nat (length s) ->
  strncpy s t n =
  cstr (Z.to_nat n) t ++ replicate (Z.to_nat n - length (cstr (Z.to_nat n) t)) 0 ++ drop (Z.to_nat n) s.
Proof. intros. unfold strncpy, cstr. exact (strncpy_loop_app (Z.to_nat n) [] s t ltac:(lia)). Qed.

Lemma nthd_middle (pre r : list Z) x : nthd 0 (pre ++ x :: r) (Z.of_nat (length pre)) = x.
Proof.
  unfold nthd. destruct (Z.ltb_spec (Z.of_nat (length pre)) 0); [lia|].
  by rewrite Nat2Z.id, list_lookup_middle.
Qed.

Lemma cstr_from_list n pre l r :
  Forall (fun b => b <> 0) l -> (length l <= n)%nat ->
  (length l = n \/ exists r', r = 0 :: r') ->
  cstr_from n (nthd 0 (pre ++ l ++ r)) (Z.of_nat (length pre)) = l.
Proof.
  revert pre l; induction n as [|n IH]; intros pre l Hl Hn Hr.
  - destruct l; [done|simpl in Hn; lia].
  - cbn [cstr_from]. destruct l as [|b l].
    + destruct Hr as [|[r' ->]]; [simpl in *; lia|]. simpl. by rewrite nthd_middle.
    + inversion Hl; subst. simpl. rewrite nthd_middle.
      destruct (Z.eqb_spec b 0); [lia|]. f_equal.
      replace (pre ++ b :: l ++ r) with ((pre ++ [b]) ++ l ++ r) by (by rewrite <- app_assoc).
      replace (Z.of_nat (length pre) + 1) with (Z.of_nat (length (pre ++ [b])))
        by (rewrite length_app; simpl; lia).
      apply IH; [done|simpl in Hn; lia|].
      destruct Hr as [Hr|?]; [left; simpl in Hr; lia|by right].
Qed.

Lemma cstr_from_nonzero n s i : Forall (fun b => b <> 0) (cstr_from n s i).
Proof. revert i; induction n; intros i; cbn [cstr_from]; [done|]. destruct (Z.eqb_spec (s i) 0); by constructor. Qed.

(** A name stored with [strncpy] reads back as the same name. *)
Lemma cstr_strncpy s t n :
  0 <= n <= Z.of_nat (length s) ->
  cstr (Z.to_nat n) (nthd 0 (strncpy s t n)) = cstr (Z.to_nat n) t.
Proof.
  intros. rewrite strncpy_spec by done. unfold cstr at 1.
  apply (cstr_from_list (Z.to_nat n) []).
  - apply cstr_from_nonzero.
  - apply length_cstr_from.
  - pose proof (length_cstr_from (Z.to_nat n) t 0) as Hl. fold (cstr (Z.to_nat n) t) in Hl.
    destruct (decide (length (cstr (Z.to_nat n) t) = Z.to_nat n)) as [|Hne]; [by left|right].
    destruct (Z.to_nat n - length (cstr (Z.to_nat n) t))%nat eqn:E; [lia|]. simpl. eauto.
Qed.

Lemma strlen_loop_spec fuel s n i :
  strlen_loop fuel s n = Some i <->
  n <= i < n + Z.of_nat fuel /\ s i = 0 /\ forall j, n <= j < i -> s j <> 0.
Proof.
  revert n; induction fuel as [|fuel IH]; intros n; cbn [strlen_loop].
  - split; [done|lia].
  - destruct (Z.eqb_spec (s n) 0) as [E|E].
    + split; [intros [= <-]; repeat split; try lia; done|].
      intros (Hr & H0 & Hj). f_equal. destruct (decide (n = i)); [done|]. destruct (Hj n); [lia|done].
    + rewrite IH. split; intros (Hr & H0 & Hj); repeat split; try lia.
      * intros j ?. destruct (decide (j = n)); [by subst|apply Hj; lia].
      * destruct (decide (n = i)); [by subst|lia].
      * intros j ?. apply Hj; lia.
Qed.

(** [safestrcpy] stops at the NUL or at [n - 1] bytes and always terminates. *)
Lemma safestrcpy_loop_app n pre s t :
  (n < length s)%nat ->
  exists rest, safestrcpy_loop n (pre ++ s) t (Z.of_nat (length pre)) =
  pre ++ cstr_from n t (Z.of_nat (length pre)) ++ 0 :: rest /\ length (pre ++ cstr_from n t (Z.of_nat (length pre)) ++ 0 :: rest) = length (pre ++ s).
Proof.
  revert pre s; induction n as [|n IH]; intros pre s Hn; destruct s as [|x s]; simpl in Hn; try lia.
  all: cbn [safestrcpy_loop cstr_from]; rewrite setz_middle.
  - exists s. split; [done|]. rewrite !length_app; done.
  - set (b := t (Z.of_nat (length pre))).
    replace (pre ++ b :: s) with ((pre ++ [b]) ++ s) by (by rewrite <- app_assoc).
    replace (Z.of_nat (length pre) + 1) with (Z.of_nat (length (pre ++ [b])))
      by (rewrite length_app; simpl; lia).
    destruct (Z.eqb_spec b 0) as [E|E].
    + destruct s as [|y s]; [simpl in Hn; lia|]. exists (0 :: s).
      rewrite setz_middle.
      rewrite <- app_assoc, E. split; [done|]. rewrite !length_app; done.
    + destruct (IH (pre ++ [b]) s) as (rest & -> & Hlen); [lia|]. exists rest.
      rewrite <- !app_assoc in *. simpl in *. split; [done|]. rewrite Hlen, !length_app. done.
Qed.

Lemma safestrcpy_spec s t n :
  0 < n <= Z.of_nat (length s) ->
  exists rest, safestrcpy s t n = cstr (Z.to_nat (n - 1)) t ++ 0 :: rest /\ length (safestrcpy s t n) = length s.
Proof.
  intros. unfold safestrcpy. destruct (Z.leb_spec n 0); [lia|].
  destruct (safestrcpy_loop_app (Z.to_nat (n - 1)) [] s t) as (rest & E & Hl); [lia|].
  exists rest. change (Z.of_nat (length [])) with 0 in *. simpl in E, Hl. rewrite E. split; [done|]. by rewrite Hl.
Qed.

(** The later files reason about these through the lemmas above. *)
(** Writing a list of bytes. *)
Lemma rd8_wrbytes m a bs x :
  rd8 (wrbytes m a bs) x =
  if decide (a <= x < a + Z.of_nat (length bs)) then u8 (nthd 0 bs (x - a)) else rd8 m x.
Proof.
  revert m a; induction bs as [|b bs IH]; intros m a; cbn [wrbytes length].
  - by rewrite decide_False by lia.
  - rewrite IH. destruct (decide (a + 1 <= x < _)), (decide (a <= x < _)); try lia.
    + f_equal. unfold nthd. destruct (Z.ltb_spec (x - (a + 1)) 0), (Z.ltb_spec (x - a) 0); try lia.
      by replace (Z.to_nat (x - a)) with (S (Z.to_nat (x - (a + 1)))) by lia.
    + assert (x = a) as -> by lia. rewrite rd8_wr8_eq, Z.sub_diag. done.
    + by rewrite rd8_wr8_ne by lia.
Qed.

Lemma mem_ok_wrbytes m a bs : mem_ok m -> mem_ok (wrbytes m a bs).
Proof. revert m a; induction bs as [|b bs IH]; intros m a Hm; [done|]. by apply IH, mem_ok_wr8. Qed.

Lemma rdbytes_cons m a n : rdbytes m a (S n) = rd8 m a :: rdbytes m (a + 1) n.
Proof.
  unfold rdbytes. cbn [seq fmap list_fmap]. f_equal; [f_equal; lia|].
  rewrite <- seq_shift, <- list_fmap_compose. apply list_fmap_ext. intros. simpl. f_equal. lia.
Qed.

Lemma length_rdbytes m a n : length (rdbytes m a n) = n.
Proof. unfold rdbytes. by rewrite length_fmap, length_seq. Qed.

#[global] Opaque memset memmove rdn wrn.
