(* ===== verification/Fields.v ===== *)
(** * Fields of on-disk records

    A block holds records with little-endian fields ([struct logheader],
    [struct dinode], [struct dirent], arrays of [uint]).  Reading a field after
    writing it gives the value, and the other fields stay. *)

From S2P Require Import Prelude CString.
From stdpp Require Import base numbers list.
From Stdlib Require Import ZArith Lia.

#[local] Open Scope Z_scope.

Definition byte_ok (x : Z) : Prop := 0 <= x < 2 ^ 8.

(** ** Values and bytes *)

Lemma length_le_bytes n v : length (le_bytes n v) = n.
Proof. revert v. induction n; intros; cbn; auto. Qed.

Lemma u8_byte v : byte_ok (u8 v).
Proof. unfold byte_ok, u8. apply Z.mod_pos_bound. lia. Qed.

Lemma le_bytes_ok n v : Forall byte_ok (le_bytes n v).
Proof. revert v. induction n; intros; cbn; constructor; [apply u8_byte|auto]. Qed.

Lemma pow8_S n : 2 ^ (8 * Z.of_nat (S n)) = 2 ^ 8 * 2 ^ (8 * Z.of_nat n).
Proof. rewrite <- Z.pow_add_r by lia. f_equal. lia. Qed.

Lemma le_val_bytes n v : le_val (le_bytes n v) = v mod 2 ^ (8 * Z.of_nat n).
Proof.
  revert v. induction n as [|n IH]; intros v; cbn [le_val le_bytes].
  - by rewrite Z.mod_1_r.
  - rewrite IH, pow8_S. unfold u8. rewrite Z.rem_mul_r by lia. done.
Qed.

Lemma le_val_range l : Forall byte_ok l -> 0 <= le_val l < 2 ^ (8 * Z.of_nat (length l)).
Proof.
  induction 1 as [|b l Hb Hl IH]; [done|]. cbn [length le_val]. rewrite pow8_S. unfold byte_ok in Hb. lia.
Qed.

Lemma le_bytes_val l : Forall byte_ok l -> le_bytes (length l) (le_val l) = l.
Proof.
  induction 1 as [|b l Hb Hl IH]; [done|]. cbn [length le_val le_bytes]. unfold byte_ok, u8 in *. f_equal.
  - rewrite Z.mul_comm, Z.mod_add by lia. by rewrite Z.mod_small.
  - rewrite Z.mul_comm, Z.div_add by lia. by rewrite Z.div_small, Z.add_0_l by done.
Qed.

(** ** Bytes stored in an array *)

Lemma length_splice l off bs : (Z.to_nat off + length bs <= length l)%nat -> length (splice l off bs) = length l.
Proof. intros. unfold splice. rewrite !length_app, length_take, length_drop. lia. Qed.

Lemma splice_bytes l off bs : Forall byte_ok l -> Forall byte_ok bs -> Forall byte_ok (splice l off bs).
Proof. intros. unfold splice. repeat apply Forall_app_2; auto using Forall_take, Forall_drop. Qed.

Lemma lookup_splice l off bs i :
  (Z.to_nat off + length bs <= length l)%nat ->
  splice l off bs !! i = if decide (Z.to_nat off <= i < Z.to_nat off + length bs)%nat then bs !! (i - Z.to_nat off)%nat else l !! i.
Proof.
  intros Hl. unfold splice. destruct (decide (i < Z.to_nat off)%nat) as [Hi|Hi].
  - rewrite decide_False by lia. rewrite lookup_app_l by (rewrite length_take; lia). by rewrite lookup_take_lt by lia.
  - rewrite lookup_app_r by (rewrite length_take; lia). rewrite length_take, Nat.min_l by lia. case_decide as Hd.
    + by rewrite lookup_app_l by lia.
    + rewrite lookup_app_r by lia. rewrite lookup_drop. f_equal. lia.
Qed.

Lemma take_drop_ext {A} (l l' : list A) o n : (forall i, (o <= i < o + n)%nat -> l !! i = l' !! i) -> take n (drop o l) = take n (drop o l').
Proof.
  intros E. apply list_eq. intros i. destruct (decide (i < n)%nat).
  - rewrite !lookup_take_lt, !lookup_drop by done. apply E. lia.
  - by rewrite !lookup_take_ge by lia.
Qed.

Lemma take_drop_splice l off bs : (Z.to_nat off + length bs <= length l)%nat -> take (length bs) (drop (Z.to_nat off) (splice l off bs)) = bs.
Proof.
  intros. unfold splice. rewrite drop_app_le by (rewrite length_take; lia).
  rewrite (drop_ge (take _ _)) by (rewrite length_take; lia). cbn. by rewrite take_app_length.
Qed.

Lemma splice_splice l off bs bs' :
  (Z.to_nat off + length bs <= length l)%nat -> length bs' = length bs -> splice (splice l off bs) off bs' = splice l off bs'.
Proof.
  intros Hl E. apply list_eq. intros i. rewrite !lookup_splice by (rewrite ?length_splice; lia). repeat case_decide; try done; lia.
Qed.

Lemma splice_id l off n : (Z.to_nat off + n <= length l)%nat -> splice l off (take n (drop (Z.to_nat off) l)) = l.
Proof.
  intros Hl. apply list_eq. intros i. rewrite lookup_splice by (rewrite length_take, length_drop; lia).
  rewrite length_take, length_drop. case_decide as Hd; [|done].
  rewrite lookup_take_lt, lookup_drop by lia. f_equal. lia.
Qed.

(** ** Fields *)

Lemma lget_put n l off v : (Z.to_nat off + n <= length l)%nat -> lget n (splice l off (le_bytes n v)) off = v mod 2 ^ (8 * Z.of_nat n).
Proof.
  intros Hl. unfold lget. rewrite <- (length_le_bytes n v) at 1. rewrite take_drop_splice by (by rewrite length_le_bytes). apply le_val_bytes.
Qed.

Lemma lget_other n l off off' bs :
  (Z.to_nat off + length bs <= length l)%nat -> (Z.to_nat off' + n <= Z.to_nat off \/ Z.to_nat off + length bs <= Z.to_nat off')%nat ->
  lget n (splice l off bs) off' = lget n l off'.
Proof.
  intros Hl Hd. unfold lget. f_equal. apply take_drop_ext. intros i Hi. rewrite lookup_splice by done. rewrite decide_False by lia. done.
Qed.

Lemma lget_range n l off : Forall byte_ok l -> 0 <= lget n l off < 2 ^ (8 * Z.of_nat n).
Proof.
  intros Hl. unfold lget. assert (Hb : Forall byte_ok (take n (drop (Z.to_nat off) l))) by auto using Forall_take, Forall_drop.
  pose proof (le_val_range _ Hb) as Hr. rewrite length_take in Hr. split; [lia|]. eapply Z.lt_le_trans; [apply Hr|]. apply Z.pow_le_mono_r; lia.
Qed.
