(* ===== verification/Ring.v ===== *)
(** * Ring buffers with 32-bit counters

    Pipes and the console keep bytes in an array of [N] cells, indexed by
    [uint] counters modulo [N] that only grow and wrap around at 2^32.  This
    works because [N] divides 2^32.  [seg] is the list of bytes between two
    counters. *)

From S2P Require Import Prelude.
From stdpp Require Import base numbers list.
From Stdlib Require Import ZArith Znumtheory Lia.

#[local] Open Scope Z_scope.

(** [hi - lo] in [uint] arithmetic. *)
Definition rlen (lo hi : Z) : Z := u32 (hi - lo).

Definition u32_ok (x : Z) : Prop := 0 <= x < 2 ^ 32.

Definition seg (N : Z) (data : list Z) (lo hi : Z) : list Z :=
  (fun j => nthd 0 data ((lo + Z.of_nat j) mod N)) <$> seq 0 (Z.to_nat (rlen lo hi)).

Lemma rlen_range lo hi : 0 <= rlen lo hi < 2 ^ 32.
Proof. apply u32_range. Qed.

Lemma rlen_eq lo hi : u32_ok lo -> u32_ok hi -> (lo =? hi) = (rlen lo hi =? 0).
Proof. unfold u32_ok, rlen, u32. intros. apply eq_true_iff_eq. rewrite !Z.eqb_eq. zlia. Qed.

Lemma rlen_push lo hi : u32_ok lo -> u32_ok hi -> rlen lo hi < 2 ^ 32 - 1 -> rlen lo (u32 (hi + 1)) = rlen lo hi + 1.
Proof. unfold u32_ok, rlen, u32. intros. zlia. Qed.

Lemma rlen_pop lo hi : u32_ok lo -> u32_ok hi -> 0 < rlen lo hi -> rlen (u32 (lo + 1)) hi = rlen lo hi - 1.
Proof. unfold u32_ok, rlen, u32. intros. zlia. Qed.

Lemma rlen_unpush lo hi : u32_ok lo -> u32_ok hi -> 0 < rlen lo hi -> rlen lo (u32 (hi - 1)) = rlen lo hi - 1.
Proof. unfold u32_ok, rlen, u32. intros. zlia. Qed.

Lemma u32_rlen lo hi : u32_ok hi -> u32 (lo + rlen lo hi) = hi.
Proof. unfold u32_ok, rlen, u32. intros. zlia. Qed.

Lemma rlen_add lo mid hi : rlen lo mid + rlen mid hi < 2 ^ 32 -> rlen lo mid + rlen mid hi = rlen lo hi.
Proof. unfold rlen, u32. intros. zlia. Qed.

Lemma length_seg N data lo hi : Z.of_nat (length (seg N data lo hi)) = rlen lo hi.
Proof. unfold seg. rewrite length_fmap, length_seq. apply Z2Nat.id, rlen_range. Qed.

Lemma seg_nil N data lo hi : rlen lo hi = 0 -> seg N data lo hi = [].
Proof. unfold seg. by intros ->. Qed.

Lemma seg_split N data lo mid hi n : rlen lo hi = rlen lo mid + n -> 0 <= n -> u32_ok mid ->
  seg N data lo hi = seg N data lo mid ++ ((fun j => nthd 0 data ((lo + rlen lo mid + Z.of_nat j) mod N)) <$> seq 0 (Z.to_nat n)).
Proof.
  intros E Hn Hm. unfold seg. pose proof (rlen_range lo mid). rewrite E, Z2Nat.inj_add by lia. rewrite seq_app, fmap_app. f_equal.
  rewrite Nat.add_0_l, <- (Nat.add_0_r (Z.to_nat (rlen lo mid))), <- fmap_add_seq, <- list_fmap_compose. apply list_fmap_ext. intros _ j _.
  cbn. do 2 f_equal. lia.
Qed.

Lemma seg_1 N data lo : u32_ok lo -> seg N data lo (u32 (lo + 1)) = [nthd 0 data (lo mod N)].
Proof.
  intros Hl. unfold seg. replace (rlen lo (u32 (lo + 1))) with 1 by (unfold u32_ok, rlen, u32 in *; zlia).
  change (Z.to_nat 1) with 1%nat. cbn [seq fmap list_fmap]. do 3 f_equal. lia.
Qed.

Section Ring.
Context (N : Z) (HN : 0 < N) (Hdiv : (N | 2 ^ 32)).

Lemma u32_mod x : u32 x mod N = x mod N.
Proof using Hdiv. unfold u32. by apply Z.mod_mod_divide. Qed.

Lemma u32_add_mod x y : (u32 x + y) mod N = (x + y) mod N.
Proof using HN Hdiv. rewrite Z.add_mod, u32_mod, <- Z.add_mod by lia. done. Qed.

Lemma seg_app data lo mid hi : u32_ok mid -> rlen lo mid + rlen mid hi = rlen lo hi ->
  seg N data lo hi = seg N data lo mid ++ seg N data mid hi.
Proof using HN Hdiv.
  intros Hm E. rewrite (seg_split N data lo mid hi (rlen mid hi)); [|lia|apply rlen_range|done]. f_equal.
  apply list_fmap_ext. intros _ j _. cbn. f_equal. rewrite <- u32_add_mod, u32_rlen by done. done.
Qed.

Lemma seg_pop data lo hi : u32_ok lo -> u32_ok hi -> 0 < rlen lo hi ->
  seg N data lo hi = nthd 0 data (lo mod N) :: seg N data (u32 (lo + 1)) hi.
Proof using HN Hdiv.
  intros Hl Hh Hp. rewrite (seg_app data lo (u32 (lo + 1)) hi); [by rewrite seg_1|apply u32_range|].
  rewrite (rlen_pop lo hi) by done. unfold u32_ok, rlen, u32 in *. zlia.
Qed.

Lemma seg_unpush data lo hi : u32_ok lo -> u32_ok hi -> 0 < rlen lo hi ->
  seg N data lo hi = seg N data lo (u32 (hi - 1)) ++ [nthd 0 data (u32 (hi - 1) mod N)].
Proof using HN Hdiv.
  intros Hl Hh Hp. assert (E : u32 (u32 (hi - 1) + 1) = hi) by (unfold u32_ok, u32 in *; zlia).
  rewrite (seg_app data lo (u32 (hi - 1)) hi); [|apply u32_range|].
  - f_equal. rewrite <- E at 2. apply seg_1, u32_range.
  - rewrite (rlen_unpush lo hi) by done. unfold u32_ok, rlen, u32 in *. zlia.
Qed.

Lemma seg_setz data lo hi x : u32_ok hi -> rlen lo hi < N -> seg N (setz data (hi mod N) x) lo hi = seg N data lo hi.
Proof using HN Hdiv.
  intros Hh Hl. apply list_fmap_ext. intros i j Hj%list_elem_of_lookup_2%elem_of_seq. apply nthd_setz_ne.
  rewrite <- (u32_rlen lo hi Hh), u32_mod. intros E. assert (E0 : (rlen lo hi - Z.of_nat j) mod N = 0).
  { replace (rlen lo hi - Z.of_nat j) with ((lo + rlen lo hi) - (lo + Z.of_nat j)) by lia. rewrite Zminus_mod, E, Z.sub_diag. by apply Z.mod_0_l; lia. }
  rewrite Z.mod_small in E0 by lia. lia.
Qed.

Lemma seg_push data lo hi x : u32_ok lo -> u32_ok hi -> rlen lo hi < N -> N < 2 ^ 32 -> Z.of_nat (length data) = N ->
  seg N (setz data (hi mod N) x) lo (u32 (hi + 1)) = seg N data lo hi ++ [x].
Proof using HN Hdiv.
  intros Hl Hh Hr HN2 Hd. rewrite (seg_app _ lo hi (u32 (hi + 1))); [|done|].
  - rewrite seg_setz, seg_1 by done. do 2 f_equal. apply nthd_setz_eq. rewrite Hd. apply Z.mod_pos_bound. lia.
  - rewrite (rlen_push lo hi) by (done || lia). unfold u32_ok, rlen, u32 in *. zlia.
Qed.
End Ring.

Lemma divide_512 : (512 | 2 ^ 32).
Proof. by exists (2 ^ 23). Qed.
Lemma divide_128 : (128 | 2 ^ 32).
Proof. by exists (2 ^ 25). Qed.
