(* ===== verification/Kernel.v ===== *)
(** * The kernel's data and its execution monad

    The structs of [proc.h], [buf.h], [file.h], [fs.h], [sleeplock.h] and the
    static variables of the C files, and the monad kernel code runs in.

    Pointers to elements of a static array ([proc], [ftable.file],
    [itable.inode], [bcache.buf]) are indices; pointers to pages are physical
    addresses, which the kernel also uses as virtual ones.

    Kernel code is run between two switches to the scheduler as one sequence:
    a call returns ([Done]), stops in [panic] ([Panicked]), gives up the CPU in
    [swtch] with the rest of the call to be resumed later ([Switch]), or does
    something C gives no meaning to ([Stuck]: a null or wild pointer, a loop
    out of the model's fuel).  While a call runs, [cpu] records the process it
    runs for and the spinlocks the CPU holds, most recent first; [acquire] and
    [release] check them as [holding] does, and [noff] is their number.
    Spinlock.v refines this by the code of [spinlock.c]. *)

From S2P Require Import Prelude Riscv CString.
From stdpp Require Import base numbers strings gmap list.
From Stdlib Require Import ZArith Lia.

#[local] Open Scope Z_scope.

(** ** Identities of locks and wait channels

    A spinlock is named by the variable it is; [LSleepBuf i] is the spinlock
    inside the sleep lock of [bcache.buf[i]]. *)
Inductive lockid :=
  | LKmem | LRef | LPid | LWait | LProc (i : nat) | LPr | LCons | LTx | LTicks
  | LFtable | LItable | LBcache | LLog | LPipe (pi : Z) | LSleepBuf (i : nat) | LSleepInode (i : nat)
  | LDisk.

(** The addresses passed to [sleep] and [wakeup]: [CProc i] is [&proc[i]],
    [CPipeR pi] is [&pi->nread], [CSleepBuf i] is [&bcache.buf[i].lock], ... *)
Inductive chan :=
  | CNull | CProc (i : nat) | CLog | CTicks | CPipeR (pi : Z) | CPipeW (pi : Z) | CConsR | CTx
  | CSleepBuf (i : nat) | CSleepInode (i : nat) | CDiskFree | CBuf (i : nat).

#[export] Instance lockid_eq_dec : EqDecision lockid.
Proof. solve_decision. Defined.
#[export] Instance chan_eq_dec : EqDecision chan.
Proof. solve_decision. Defined.

(** ** Structs *)

(** [struct context]: the callee-saved registers of a kernel thread. *)
Record context := mkcontext {
  cx_ra : Z;
  cx_sp : Z;
  cx_s0 : Z;
  cx_s1 : Z;
  cx_s2 : Z;
  cx_s3 : Z;
  cx_s4 : Z;
  cx_s5 : Z;
  cx_s6 : Z;
  cx_s7 : Z;
  cx_s8 : Z;
  cx_s9 : Z;
  cx_s10 : Z;
  cx_s11 : Z
}.

#[export] Instance context_expand : Expand context := fun r =>
  mkcontext (cx_ra r) (cx_sp r) (cx_s0 r) (cx_s1 r) (cx_s2 r) (cx_s3 r) (cx_s4 r) (cx_s5 r) (cx_s6 r)
    (cx_s7 r) (cx_s8 r) (cx_s9 r) (cx_s10 r) (cx_s11 r).

Definition context_0 : context := mkcontext 0 0 0 0 0 0 0 0 0 0 0 0 0 0.

Inductive procstate := UNUSED | USED | SLEEPING | RUNNABLE | RUNNING | ZOMBIE.

#[export] Instance procstate_eq_dec : EqDecision procstate.
Proof. solve_decision. Defined.

(** [struct proc], without its lock, which is [LProc i]. *)
Record proc := mkproc {
  p_state : procstate;
  p_chan : chan;
  p_killed : Z;
  p_xstate : Z;
  p_pid : Z;
  p_priority : Z;
  p_parent : option nat;
  p_kstack : Z;
  p_sz : Z;
  p_pagetable : Z;
  p_trapframe : Z;
  p_context : context;
  p_ofile : list (option nat);
  p_cwd : option nat;
  p_name : list Z
}.

#[export] Instance proc_expand : Expand proc := fun r =>
  mkproc (p_state r) (p_chan r) (p_killed r) (p_xstate r) (p_pid r) (p_priority r) (p_parent r)
    (p_kstack r) (p_sz r) (p_pagetable r) (p_trapframe r) (p_context r) (p_ofile r) (p_cwd r)
    (p_name r).

(** An all-zero [struct proc], as static storage is at boot. *)
Definition proc_0 : proc :=
  mkproc UNUSED CNull 0 0 0 0 None 0 0 0 0 context_0 (replicate 16 None) None (replicate 16 0).

(** [struct sleeplock]; its spinlock is named by [lockid]. *)
Record sleeplock := mksleeplock {
  sl_locked : bool;
  sl_pid : Z
}.

#[export] Instance sleeplock_expand : Expand sleeplock := fun r =>
  mksleeplock (sl_locked r) (sl_pid r).

Definition sleeplock_0 : sleeplock := mksleeplock false 0.

(** [struct buf]; [b_prev] and [b_next] index [bcache.buf], with 30 (NBUF) for [bcache.head]. *)
Record buf := mkbuf {
  b_valid : bool;
  b_disk : bool;
  b_dev : Z;
  b_blockno : Z;
  b_lock : sleeplock;
  b_refcnt : Z;
  b_prev : nat;
  b_next : nat;
  b_data : list Z
}.

#[export] Instance buf_expand : Expand buf := fun r =>
  mkbuf (b_valid r) (b_disk r) (b_dev r) (b_blockno r) (b_lock r) (b_refcnt r) (b_prev r) (b_next r)
    (b_data r).

Definition buf_0 : buf := mkbuf false false 0 0 sleeplock_0 0 0 0 (replicate 1024 0).

(** [struct log]; the in-memory header [lh] is [l_n] and [l_block]. *)
Record log_t := mklog {
  l_start : Z;
  l_outstanding : Z;
  l_committing : bool;
  l_dev : Z;
  l_n : Z;
  l_block : list Z
}.

#[export] Instance log_t_expand : Expand log_t := fun r =>
  mklog (l_start r) (l_outstanding r) (l_committing r) (l_dev r) (l_n r) (l_block r).

(** [struct superblock]. *)
Record superblock := mksuperblock {
  sb_magic : Z;
  sb_size : Z;
  sb_nblocks : Z;
  sb_ninodes : Z;
  sb_nlog : Z;
  sb_logstart : Z;
  sb_inodestart : Z;
  sb_bmapstart : Z
}.

#[export] Instance superblock_expand : Expand superblock := fun r =>
  mksuperblock (sb_magic r) (sb_size r) (sb_nblocks r) (sb_ninodes r) (sb_nlog r) (sb_logstart r)
    (sb_inodestart r) (sb_bmapstart r).

(** [struct inode], the in-memory inode. *)
Record inode := mkinode {
  i_dev : Z;
  i_inum : Z;
  i_ref : Z;
  i_lock : sleeplock;
  i_valid : bool;
  i_type : Z;
  i_major : Z;
  i_minor : Z;
  i_nlink : Z;
  i_size : Z;
  i_addrs : list Z
}.

#[export] Instance inode_expand : Expand inode := fun r =>
  mkinode (i_dev r) (i_inum r) (i_ref r) (i_lock r) (i_valid r) (i_type r) (i_major r) (i_minor r)
    (i_nlink r) (i_size r) (i_addrs r).

Definition inode_0 : inode := mkinode 0 0 0 sleeplock_0 false 0 0 0 0 0 (replicate 13 0).

Inductive fdtype := FD_NONE | FD_PIPE | FD_INODE | FD_DEVICE.

#[export] Instance fdtype_eq_dec : EqDecision fdtype.
Proof. solve_decision. Defined.

(** [struct file]. *)
Record file := mkfile {
  f_type : fdtype;
  f_ref : Z;
  f_readable : bool;
  f_writable : bool;
  f_pipe : Z;
  f_ip : nat;
  f_off : Z;
  f_major : Z
}.

#[export] Instance file_expand : Expand file := fun r =>
  mkfile (f_type r) (f_ref r) (f_readable r) (f_writable r) (f_pipe r) (f_ip r) (f_off r) (f_major r).

Definition file_0 : file := mkfile FD_NONE 0 false false 0 0 0 0.

(** [struct pipe], at the page the map [pipes] gives it. *)
Record pipe := mkpipe {
  pi_data : list Z;
  pi_nread : Z;
  pi_nwrite : Z;
  pi_readopen : bool;
  pi_writeopen : bool
}.

#[export] Instance pipe_expand : Expand pipe := fun r =>
  mkpipe (pi_data r) (pi_nread r) (pi_nwrite r) (pi_readopen r) (pi_writeopen r).

(** The console input buffer of [console.c]. *)
Record cons_t := mkcons {
  cn_buf : list Z;
  cn_r : Z;
  cn_w : Z;
  cn_e : Z
}.

#[export] Instance cons_t_expand : Expand cons_t := fun r =>
  mkcons (cn_buf r) (cn_r r) (cn_w r) (cn_e r).

(** What the address in a DMA descriptor points to: [&disk.ops[i]], [b->data] of
    buffer [i], or [&disk.info[i].status]. *)
Inductive dma := ANull | AOp (i : nat) | AData (i : nat) | AStatus (i : nat).

(** [struct virtq_desc]. *)
Record virtq_desc := mkdesc {
  d_addr : dma;
  d_len : Z;
  d_flags : Z;
  d_next : Z
}.

#[export] Instance virtq_desc_expand : Expand virtq_desc := fun r =>
  mkdesc (d_addr r) (d_len r) (d_flags r) (d_next r).

Definition desc_0 : virtq_desc := mkdesc ANull 0 0 0.

(** [struct virtio_blk_req]. *)
Record virtio_blk_req := mkreq {
  rq_type : Z;
  rq_reserved : Z;
  rq_sector : Z
}.

#[export] Instance virtio_blk_req_expand : Expand virtio_blk_req := fun r =>
  mkreq (rq_type r) (rq_reserved r) (rq_sector r).

Definition req_0 : virtio_blk_req := mkreq 0 0 0.

(** [struct disk] of [virtio_disk.c], with the rings it points to. *)
Record vdisk_t := mkvdisk {
  vd_desc : list virtq_desc; (** desc[NUM] *)
  vd_avail_idx : Z; (** avail->idx *)
  vd_avail_ring : list Z; (** avail->ring[NUM] *)
  vd_used_ridx : Z; (** used->idx, written by the device *)
  vd_used_ring : list Z; (** the ids in used->ring[NUM] *)
  vd_free : list bool;
  vd_used_idx : Z; (** used_idx: how far the driver has looked *)
  vd_info_b : list (option nat); (** info[NUM].b *)
  vd_info_status : list Z; (** info[NUM].status *)
  vd_ops : list virtio_blk_req
}.

#[export] Instance vdisk_t_expand : Expand vdisk_t := fun r =>
  mkvdisk (vd_desc r) (vd_avail_idx r) (vd_avail_ring r) (vd_used_ridx r) (vd_used_ring r) (vd_free r)
    (vd_used_idx r) (vd_info_b r) (vd_info_status r) (vd_ops r).

Definition vdisk_0 : vdisk_t :=
  mkvdisk (replicate 8 desc_0) 0 (replicate 8 0) 0 (replicate 8 0) (replicate 8 false) 0 (replicate 8 None) (replicate 8 0)
    (replicate 8 req_0).

(** The functions a [struct devsw] may point to. *)
Inductive devfn := Console.

(** [struct devsw]; null pointers are [None]. *)
Record devsw_t := mkdevsw {
  dv_read : option devfn;
  dv_write : option devfn
}.

#[export] Instance devsw_t_expand : Expand devsw_t := fun r =>
  mkdevsw (dv_read r) (dv_write r).

(** The devices as the CPU sees them: the bytes waiting in the UART, whether it can take a byte, the
    interrupt the PLIC would give, what a read of a device register returns, and the registers written. *)
Record dev_t := mkdev {
  uart_rx : list Z;
  uart_txidle : bool;
  plic_irq : Z;
  mmio_in : Z -> Z;
  mmio_out : list (Z * Z) (** newest first *)
}.

#[export] Instance dev_t_expand : Expand dev_t := fun r =>
  mkdev (uart_rx r) (uart_txidle r) (plic_irq r) (mmio_in r) (mmio_out r).

(** ** The static variables of the kernel *)

(** Every static variable the model has, and the devices they drive. *)
Record kernel := mkkernel {
  mem : memory; (** physical memory *)
  freelist : Z; (** kmem.freelist, 0 at the end *)
  free_pages_count : Z; (** kmem.free_pages_count *)
  ref_counts : gmap Z Z; (** ref_counts[PHYSTOP / PGSIZE], 0 where absent *)
  kernel_pagetable : Z; (** vm.c *)
  procs : list proc; (** proc[NPROC] *)
  nextpid : Z; (** proc.c *)
  initproc : option nat; (** proc.c *)
  ticks : Z; (** trap.c *)
  bufs : list buf; (** bcache.buf[NBUF] *)
  head_prev : nat; (** bcache.head.prev *)
  head_next : nat; (** bcache.head.next *)
  log : log_t; (** log.c *)
  sb : superblock; (** fs.c *)
  inodes : list inode; (** itable.inode[NINODE] *)
  files : list file; (** ftable.file[NFILE] *)
  pipes : gmap Z pipe; (** the pipes in kalloc'ed pages *)
  console : cons_t; (** cons, console.c *)
  tx_busy : bool; (** uart.c *)
  uart : list Z; (** bytes sent to the console, oldest first *)
  disk : gmap Z (list Z); (** the blocks of the disk image *)
  writes : list (Z * list Z); (** the blocks the disk has written, newest first *)
  vdisk : vdisk_t; (** disk, virtio_disk.c *)
  devsw : list devsw_t; (** devsw[NDEV] *)
  first : bool; (** forkret, proc.c *)
  started : bool; (** main.c *)
  devs : dev_t (** the other devices *)
}.

#[export] Instance kernel_expand : Expand kernel := fun r =>
  mkkernel (mem r) (freelist r) (free_pages_count r) (ref_counts r) (kernel_pagetable r) (procs r)
    (nextpid r) (initproc r) (ticks r) (bufs r) (head_prev r) (head_next r) (log r) (sb r) (inodes r)
    (files r) (pipes r) (console r) (tx_busy r) (uart r) (disk r) (writes r) (vdisk r) (devsw r)
    (first r) (started r) (devs r).

(** ** The CPU and the outcome of a call *)

(** [mycpu()]: the process it runs, the spinlocks it holds, its registers; its
    number is the register [tp]. *)
Record cpu := mkcpu { cpu_proc : option nat; held : list lockid; regs : csrs }.

#[export] Instance cpu_expand : Expand cpu := fun r => mkcpu (cpu_proc r) (held r) (regs r).

Inductive outcome (A : Type) :=
  | Done (a : A) (c : cpu) (k : kernel)
  | Panicked (msg : string) (c : cpu) (k : kernel)
  | Switch (c : cpu) (k : kernel) (resume : cpu -> kernel -> outcome A)
  | Stuck (why : string).
Arguments Done {A}.
Arguments Panicked {A}.
Arguments Switch {A}.
Arguments Stuck {A}.

Definition M (A : Type) : Type := cpu -> kernel -> outcome A.

(** A bound on the re-entries of the loops that wait ([while(cond) sleep(..)])
    and of the loops C does not bound; running out of it is [Stuck]. *)
Class Fuel := fuel : nat.

Definition ret {A} (a : A) : M A := fun c k => Done a c k.

Fixpoint continue {A B} (o : outcome A) (f : A -> M B) : outcome B :=
  match o with
  | Done a c k => f a c k
  | Panicked msg c k => Panicked msg c k
  | Switch c k resume => Switch c k (fun c k => continue (resume c k) f)
  | Stuck why => Stuck why
  end.

Definition bind {A B} (m : M A) (f : A -> M B) : M B := fun c k => continue (m c k) f.

Declare Scope kernel_scope.
Delimit Scope kernel_scope with kernel.
Notation "x <- m ;; f" := (bind m (fun x => f))
  (at level 100, m at next level, f at level 200, right associativity) : kernel_scope.
Notation "' p <- m ;; f" := (bind m (fun x => match x with p => f end))
  (at level 20, p pattern, m at level 99, f at level 200) : kernel_scope.
Notation "m ;; f" := (bind m (fun _ => f))
  (at level 100, f at level 200, right associativity) : kernel_scope.
#[local] Open Scope kernel_scope.

Definition panic {A} (msg : string) : M A := fun c k => Panicked msg c k.
Definition stuck {A} (why : string) : M A := fun _ _ => Stuck why.
Definition gets {A} (f : kernel -> A) : M A := fun c k => Done (f k) c k.
Definition modify (f : kernel -> kernel) : M unit := fun c k => Done tt c (f k).
Definition mycpu : M cpu := fun c k => Done c c k.
Definition setcpu (f : cpu -> cpu) : M unit := fun c k => Done tt (f c) k.

(** [if(b) m;] *)
Definition when (b : bool) (m : M unit) : M unit := if b then m else ret tt.

(** A pointer the C code dereferences without a test. *)
Definition deref {A} (o : option A) : M A :=
  match o with Some a => ret a | None => stuck "null" end.

(** ** Locks, as the CPU that runs the code sees them *)

(** [holding(lk)] *)
Definition holding (lk : lockid) : M bool := fun c k => Done (bool_decide (lk ∈ held c)) c k.

Definition acquire (lk : lockid) : M unit := fun c k =>
  if decide (lk ∈ held c) then Panicked "acquire" c k else Done tt (c <| held := lk :: held c |>) k.

Definition release (lk : lockid) : M unit := fun c k =>
  if decide (lk ∈ held c)
  then Done tt (c <| held := filter (fun l => l <> lk) (held c) |>) k
  else Panicked "release" c k.

(** [initlock(lk, name)]: the lock is free. *)
Definition initlock (lk : lockid) : M unit :=
  setcpu (fun c => c <| held := filter (fun l => l <> lk) (held c) |>).

(** ** Symbols the linker defines ([kernel.ld]) *)
Class Linker := {
  end_ : Z;         (** first address after the kernel *)
  etext : Z;        (** end of kernel code *)
  trampoline : Z;   (** the page of trampoline.S *)
  uservec : Z;
  userret : Z;
  forkret_pc : Z;   (** address of forkret() *)
  usertrap_pc : Z;  (** address of usertrap() *)
  kernelvec : Z;    (** address of kernelvec, kernelvec.S *)
  main_pc : Z       (** address of main() *)
}.

(** What [kernel.ld] arranges: text at KERNBASE up to a page boundary, the
    trampoline code in one page of it, then data up to [end], below PHYSTOP. *)
Class LinkerOk `{Linker} := {
  etext_range : KERNBASE < etext <= end_;
  etext_aligned : etext mod PGSIZE = 0;
  end_range : end_ < PHYSTOP;
  trampoline_range : KERNBASE <= trampoline < etext;
  trampoline_aligned : trampoline mod PGSIZE = 0
}.

(** A layout the linker may choose: 4 pages of text, the trampoline the last of
    them, and little memory left after the kernel. *)
Definition small_linker : Linker := {|
  end_ := PHYSTOP - 12 * PGSIZE - 8; etext := KERNBASE + 4 * PGSIZE;
  trampoline := KERNBASE + 3 * PGSIZE; uservec := KERNBASE + 3 * PGSIZE;
  userret := KERNBASE + 3 * PGSIZE + 0x9c; forkret_pc := KERNBASE + 0x1d2c;
  usertrap_pc := KERNBASE + 0x2536; kernelvec := KERNBASE + 0x5c40; main_pc := KERNBASE + 0xe5a |}.

#[local] Existing Instance small_linker.
Lemma small_linker_ok : LinkerOk.
Proof. by split. Qed.

(** Static storage as it is when the kernel starts. *)
Definition kernel_0 : kernel := {|
  mem := ∅; freelist := 0; free_pages_count := 0; ref_counts := ∅; kernel_pagetable := 0;
  procs := replicate 64 proc_0; nextpid := 1; initproc := None; ticks := 0;
  bufs := replicate 30 buf_0; head_prev := 0; head_next := 0;
  log := mklog 0 0 false 0 0 (replicate 30 0); sb := mksuperblock 0 0 0 0 0 0 0 0;
  inodes := replicate 50 inode_0; files := replicate 100 file_0; pipes := ∅;
  console := mkcons (replicate 128 0) 0 0 0; tx_busy := false; uart := []; disk := ∅;
  writes := []; vdisk := vdisk_0; devsw := replicate 10 (mkdevsw None None); first := true; started := false;
  devs := mkdev [] true 0 (fun _ => 0) [] |}.

Definition cpu_0 : cpu := mkcpu None [] csrs_0.

(** ** Access to arrays of structs *)

Definition getproc (i : nat) : M proc := p <- gets (fun k => procs k !! i) ;; deref p.
Definition modproc (i : nat) (f : proc -> proc) : M unit := modify (fun k => k <| procs ::= alter f i |>).

(** [myproc()], which is null on a CPU running no process. *)
Definition myproc : M (option nat) := c <- mycpu ;; ret (cpu_proc c).
Definition curproc : M nat := p <- myproc ;; deref p.

(** ** Memory *)

Definition load64 (a : Z) : M Z := gets (fun k => rd64 (mem k) a).
Definition store64 (a v : Z) : M unit := modify (fun k => k <| mem ::= fun m => wr64 m a v |>).
Definition kmemset (a c n : Z) : M unit := modify (fun k => k <| mem ::= fun m => memset m a c n |>).
Definition kmemmove (d s n : Z) : M unit := modify (fun k => k <| mem ::= fun m => memmove m d s n |>).

(** ** Lemmas on running code *)

Lemma bind_done {A B} (m : M A) (f : A -> M B) c k a c' k' :
  m c k = Done a c' k' -> bind m f c k = f a c' k'.
Proof. unfold bind. by intros ->. Qed.

Lemma bind_panic {A B} (m : M A) (f : A -> M B) c k msg c' k' :
  m c k = Panicked msg c' k' -> bind m f c k = Panicked msg c' k'.
Proof. unfold bind. by intros ->. Qed.

Lemma bind_switch {A B} (m : M A) (f : A -> M B) c k c' k' r :
  m c k = Switch c' k' r -> bind m f c k = Switch c' k' (fun c k => continue (r c k) f).
Proof. unfold bind. by intros ->. Qed.

Lemma bind_stuck {A B} (m : M A) (f : A -> M B) c k why : m c k = Stuck why -> bind m f c k = Stuck why.
Proof. unfold bind. by intros ->. Qed.

Lemma acquire_ok lk c k : lk ∉ held c -> acquire lk c k = Done tt (c <| held := lk :: held c |>) k.
Proof. intros. unfold acquire. by rewrite decide_False. Qed.

Lemma acquire_deadlock lk c k : lk ∈ held c -> acquire lk c k = Panicked "acquire" c k.
Proof. intros. unfold acquire. by rewrite decide_True. Qed.

Lemma filter_ne_notin (lk : lockid) (l : list lockid) : lk ∉ l -> filter (fun x => x <> lk) l = l.
Proof.
  intros H. induction l as [|x l IH]; [done|]. apply not_elem_of_cons in H as [? ?].
  rewrite filter_cons_True by congruence. by rewrite IH.
Qed.

(** Releasing the lock taken last gives the CPU back as it was. *)
Lemma release_ok lk c k :
  lk ∉ held c -> release lk (c <| held := lk :: held c |>) k = Done tt c k.
Proof.
  intros. unfold release. rewrite decide_True by (simpl; set_solver).
  cbn. rewrite decide_False by tauto. rewrite filter_ne_notin by done. by destruct c.
Qed.

Lemma getproc_done i p c k : procs k !! i = Some p -> getproc i c k = Done p c k.
Proof. intros E. unfold getproc, gets, bind. simpl. by rewrite E. Qed.

Lemma getproc_none i c k : procs k !! i = None -> getproc i c k = Stuck "null".
Proof. intros E. unfold getproc, gets, bind. simpl. by rewrite E. Qed.

Lemma curproc_done i c k : cpu_proc c = Some i -> curproc c k = Done i c k.
Proof. intros E. unfold curproc, myproc, bind, mycpu. simpl. by rewrite E. Qed.

Lemma release_done lk c k :
  lk ∈ held c -> release lk c k = Done tt (c <| held := filter (fun l => l <> lk) (held c) |>) k.
Proof. intros. unfold release. by rewrite decide_True. Qed.

(** Normalise struct assignments and field reads. *)
Ltac kred :=
  cbn [update mem freelist free_pages_count ref_counts kernel_pagetable procs nextpid
    initproc ticks bufs head_prev head_next log sb inodes files pipes console tx_busy uart disk
    writes vdisk devsw first started devs held cpu_proc regs].
Ltac kred_in H :=
  cbn [update mem freelist free_pages_count ref_counts kernel_pagetable procs nextpid
    initproc ticks bufs head_prev head_next log sb inodes files pipes console tx_busy uart disk
    writes vdisk devsw first started devs held cpu_proc regs] in H.
Ltac kdone := kred; reflexivity.

(** ** Runs that return

    [runs m c k Q]: run on CPU state [c] and kernel [k], [m] returns without
    giving up the CPU, and its result satisfies [Q]. *)
Definition runs {A} (m : M A) (c : cpu) (k : kernel) (Q : A -> cpu -> kernel -> Prop) : Prop :=
  match m c k with Done a c' k' => Q a c' k' | _ => False end.

Lemma runs_done {A} (m : M A) c k Q :
  runs m c k Q <-> exists a c' k', m c k = Done a c' k' /\ Q a c' k'.
Proof. unfold runs. split; [destruct (m c k); [eauto|done..]|by intros (a&c'&k'&->&?)]. Qed.

Lemma runs_intro {A} (m : M A) c k Q a c' k' : m c k = Done a c' k' -> Q a c' k' -> runs m c k Q.
Proof. unfold runs. by intros ->. Qed.

Lemma runs_ret {A} (a : A) c k Q : Q a c k -> runs (ret a) c k Q.
Proof. done. Qed.

Lemma runs_bind {A B} (m : M A) (f : A -> M B) c k Q :
  runs m c k (fun a c' k' => runs (f a) c' k' Q) -> runs (bind m f) c k Q.
Proof. unfold runs, bind. by destruct (m c k). Qed.

Lemma runs_mono {A} (m : M A) c k (Q Q' : A -> cpu -> kernel -> Prop) :
  runs m c k Q -> (forall a c' k', Q a c' k' -> Q' a c' k') -> runs m c k Q'.
Proof. unfold runs. destruct (m c k); auto. Qed.

(** The common step of a proof: a call whose lemma is [H], then the rest. *)
Lemma runs_step {A B} (m : M A) (f : A -> M B) c k (Q : A -> cpu -> kernel -> Prop) Q' :
  runs m c k Q -> (forall a c' k', Q a c' k' -> runs (f a) c' k' Q') -> runs (bind m f) c k Q'.
Proof. intros H Hf. apply runs_bind. eapply runs_mono; [exact H|exact Hf]. Qed.

Lemma runs_at {A B} (m : M A) (f : A -> M B) c k a c' k' Q :
  m c k = Done a c' k' -> runs (f a) c' k' Q -> runs (bind m f) c k Q.
Proof. intros E H. unfold runs. by rewrite (bind_done _ _ _ _ _ _ _ E). Qed.

(** ** Runs under interference

    [safe I E Q o]: every state in which [o] gives up the CPU satisfies [I], and
    when it is resumed in any state that satisfies [I], by the same process
    with the same locks, this goes on; if it returns, [Q] holds, and if it
    panics, the message satisfies [E]. *)
Fixpoint safe {A} (I : kernel -> Prop) (E : string -> Prop) (Q : A -> cpu -> kernel -> Prop) (o : outcome A) : Prop :=
  match o with
  | Done a c k => Q a c k
  | Panicked msg _ _ => E msg
  | Switch c k resume =>
      I k /\ forall c' k', cpu_proc c' = cpu_proc c -> held c' = held c -> I k' -> safe I E Q (resume c' k')
  | Stuck _ => True
  end.

Lemma safe_mono {A} I E (Q Q' : A -> cpu -> kernel -> Prop) o :
  safe I E Q o -> (forall a c k, Q a c k -> Q' a c k) -> safe I E Q' o.
Proof.
  intros H HQ. induction o as [a c k|msg c k|c k r IH|why]; simpl in *; auto.
  destruct H as [HI H]. split; [done|]. intros. apply IH. auto.
Qed.

Lemma safe_continue {A B} I E (Q : A -> cpu -> kernel -> Prop) Q' (o : outcome A) (f : A -> M B) :
  safe I E Q o -> (forall a c k, Q a c k -> safe I E Q' (f a c k)) -> safe I E Q' (continue o f).
Proof.
  intros H HQ. induction o as [a c k|msg c k|c k r IH|why]; simpl in *; auto.
  destruct H as [HI H]. split; [done|]. intros. apply IH. auto.
Qed.

Lemma safe_bind {A B} I E (Q : A -> cpu -> kernel -> Prop) Q' (m : M A) (f : A -> M B) c k :
  safe I E Q (m c k) -> (forall a c k, Q a c k -> safe I E Q' (f a c k)) -> safe I E Q' (bind m f c k).
Proof. apply safe_continue. Qed.

Lemma safe_runs {A} I E (Q : A -> cpu -> kernel -> Prop) (m : M A) c k : runs m c k Q -> safe I E Q (m c k).
Proof. unfold runs. destruct (m c k); simpl; tauto. Qed.

(** Elements of the static arrays. *)
Definition getbuf (i : nat) : M buf := b <- gets (fun k => bufs k !! i) ;; deref b.
Definition modbuf (i : nat) (f : buf -> buf) : M unit := modify (fun k => k <| bufs ::= alter f i |>).
Definition getinode (i : nat) : M inode := b <- gets (fun k => inodes k !! i) ;; deref b.
Definition modinode (i : nat) (f : inode -> inode) : M unit := modify (fun k => k <| inodes ::= alter f i |>).
Definition getfile (i : nat) : M file := b <- gets (fun k => files k !! i) ;; deref b.
Definition modfile (i : nat) (f : file -> file) : M unit := modify (fun k => k <| files ::= alter f i |>).

Lemma getbuf_done i b c k : bufs k !! i = Some b -> getbuf i c k = Done b c k.
Proof. intros E. unfold getbuf, gets, bind. simpl. by rewrite E. Qed.
Lemma getinode_done i b c k : inodes k !! i = Some b -> getinode i c k = Done b c k.
Proof. intros E. unfold getinode, gets, bind. simpl. by rewrite E. Qed.
Lemma getfile_done i b c k : files k !! i = Some b -> getfile i c k = Done b c k.
Proof. intros E. unfold getfile, gets, bind. simpl. by rewrite E. Qed.
