(* ===== verification/Printf.v ===== *)
(** * Console output: [printf.c], [consputc] and [uartputc_sync]

    [format] is the interpretation of a format string: the characters
    [printf] passes to [consputc], in order.  The UART appends each byte
    written to its transmit register to [uart]. *)

From S2P Require Import Prelude Riscv CString Kernel.
From stdpp Require Import base numbers strings gmap list.
From Stdlib Require Import ZArith Lia Ascii.

#[local] Open Scope Z_scope.
#[local] Open Scope kernel_scope.

(** The bytes of a string literal, without its NUL. *)
Definition str (s : string) : list Z :=
  (fun a => Z.of_N (N_of_ascii a)) <$> String.list_ascii_of_string s.

Definition chr (s : string) : Z := nthd 0 (str s) 0.

(** ** Characters *)

Definition uartputc_sync (c : Z) : M unit := modify (fun k => k <| uart ::= fun o => o ++ [u8 c] |>).

Abbreviation BACKSPACE := 0x100%Z (only parsing).

Definition consputc (c : Z) : M unit :=
  if c =? BACKSPACE then uartputc_sync 8 ;; uartputc_sync (chr " ") ;; uartputc_sync 8
  else uartputc_sync c.

Fixpoint consputs (cs : list Z) : M unit :=
  match cs with
  | [] => ret tt
  | c :: cs => consputc c ;; consputs cs
  end.

(** ** Numbers *)

Definition digits : list Z := str "0123456789abcdef".

(** [do { buf[i++] = digits[x % base]; } while((x /= base) != 0);] *)
Fixpoint printint_loop (fuel : nat) (x base : Z) : list Z :=
  match fuel with
  | O => []
  | S fuel =>
      nthd 0 digits (x mod base) :: (if x / base =? 0 then [] else printint_loop fuel (x / base) base)
  end.

(** The contents of [buf] when the digits and the sign have been stored. *)
Definition printint_buf (xx base : Z) (sign : bool) : list Z :=
  let neg := sign && (xx <? 0) in
  let x := u64 (if neg then - xx else xx) in
  printint_loop 64 x base ++ (if neg then [chr "-"] else []).

Definition printint (xx base : Z) (sign : bool) : list Z := rev (printint_buf xx base sign).

Fixpoint printptr_loop (n : nat) (x : Z) : list Z :=
  match n with
  | O => []
  | S n => nthd 0 digits (Z.shiftr x 60) :: printptr_loop n (u64 (Z.shiftl x 4))
  end.

Definition printptr (x : Z) : list Z := str "0x" ++ printptr_loop 16 x.

(** ** Format strings *)

Inductive vararg := VInt (z : Z) | VStr (s : option (list Z)).

Definition isc (c : Z) (s : string) : bool := c =? chr s.

Fixpoint format (fmt : list Z) (ap : list vararg) : option (list Z) :=
  match fmt with
  | [] => Some []
  | cx :: fmt =>
      if negb (isc cx "%") then cons cx <$> format fmt ap
      else match fmt with
      | [] => Some []
      | c0 :: fmt0 =>
          let c1 := nthd 0 fmt0 0 in
          let c2 := if c1 =? 0 then 0 else nthd 0 fmt0 1 in
          let num (conv : Z -> Z) base sign rest :=
            match ap with
            | VInt z :: ap => app (printint (conv z) base sign) <$> rest ap
            | _ => None
            end in
          let skip1 ap := match fmt0 with _ :: f => format f ap | [] => None end in
          let skip2 ap := match fmt0 with _ :: _ :: f => format f ap | _ => None end in
          if isc c0 "d" then num i32 10 true (format fmt0)
          else if isc c0 "l" && isc c1 "d" then num i64 10 true skip1
          else if isc c0 "l" && isc c1 "l" && isc c2 "d" then num i64 10 true skip2
          else if isc c0 "u" then num u32 10 false (format fmt0)
          else if isc c0 "l" && isc c1 "u" then num i64 10 false skip1
          else if isc c0 "l" && isc c1 "l" && isc c2 "u" then num i64 10 false skip2
          else if isc c0 "x" then num u32 16 false (format fmt0)
          else if isc c0 "l" && isc c1 "x" then num i64 16 false skip1
          else if isc c0 "l" && isc c1 "l" && isc c2 "x" then num i64 16 false skip2
          else if isc c0 "p" then
            match ap with
            | VInt z :: ap => app (printptr (u64 z)) <$> format fmt0 ap
            | _ => None
            end
          else if isc c0 "c" then
            match ap with
            | VInt z :: ap => cons (i32 z) <$> format fmt0 ap
            | _ => None
            end
          else if isc c0 "s" then
            match ap with
            | VStr s :: ap => app (default (str "(null)") s) <$> format fmt0 ap
            | _ => None
            end
          else if isc c0 "%" then cons (chr "%") <$> format fmt0 ap
          else (fun cs => chr "%" :: c0 :: cs) <$> format fmt0 ap
      end
  end.

Definition printf (fmt : string) (ap : list vararg) : M unit :=
  acquire LPr ;;
  match format (str fmt) ap with
  | Some cs => consputs cs
  | None => stuck "printf arguments"
  end ;;
  release LPr.

(** A newline, as [\n] in a C literal. *)
Definition nl : string := String.String "010"%char EmptyString.

(** ** Lemmas: output *)

Definition echo_bytes (c : Z) : list Z := if c =? BACKSPACE then [8; chr " "; 8] else [u8 c].

(** The bytes that reach the UART when [cs] is printed. *)
Definition out (cs : list Z) : list Z := List.concat (map echo_bytes cs).

Lemma consputc_done c cp k :
  consputc c cp k = Done tt cp (k <| uart ::= fun o => o ++ echo_bytes c |>).
Proof.
  unfold consputc, echo_bytes. destruct (c =? 256); [|done].
  unfold bind, uartputc_sync, modify, update; simpl. by rewrite <- !app_assoc.
Qed.

Lemma consputs_done cs cp k :
  consputs cs cp k = Done tt cp (k <| uart ::= fun o => o ++ out cs |>).
Proof.
  revert k; induction cs as [|c cs IH]; intros k.
  - cbn. unfold ret. f_equal. unfold update. rewrite app_nil_r. by destruct k.
  - cbn [consputs]. erewrite bind_done by apply consputc_done. rewrite IH. unfold out. cbn [map List.concat].
    unfold update; simpl. by rewrite <- app_assoc.
Qed.

(** A whole [printf] leaves the locks as they were and only adds output. *)
Lemma printf_done fmt ap cs cp k :
  LPr ∉ held cp -> format (str fmt) ap = Some cs ->
  printf fmt ap cp k = Done tt cp (k <| uart ::= fun o => o ++ out cs |>).
Proof.
  intros Hh Hf. unfold printf. erewrite bind_done by (by apply acquire_ok). rewrite Hf.
  erewrite bind_done by apply consputs_done. by apply release_ok.
Qed.

(** ** Lemmas: numbers *)

(** The value of a digit character, and of a number written least digit first. *)
Definition digit_val (d : Z) : Z :=
  match list_find (fun x => x = d) digits with Some (i, _) => Z.of_nat i | None => 0 end.

Fixpoint value (base : Z) (ds : list Z) : Z :=
  match ds with
  | [] => 0
  | d :: ds => digit_val d + base * value base ds
  end.

(** Reading a printed number. *)
Definition read_int (base : Z) (cs : list Z) : Z :=
  match cs with
  | c :: ds => if isc c "-" then - value base (rev ds) else value base (rev cs)
  | [] => 0
  end.

Lemma digit_val_digits i : 0 <= i < 16 -> digit_val (nthd 0 digits i) = i.
Proof.
  intros H.
  assert (Hall : forallb (fun i => digit_val (nthd 0 digits i) =? i) (Z.of_nat <$> seq 0 16) = true)
    by (vm_compute; reflexivity).
  rewrite forallb_forall in Hall. apply Z.eqb_eq, Hall, list_elem_of_In, list_elem_of_fmap.
  exists (Z.to_nat i). split; [lia|]. apply elem_of_seq. lia.
Qed.

Lemma digits_not_sign i : 0 <= i < 16 -> isc (nthd 0 digits i) "-" = false.
Proof.
  intros H.
  assert (Hall : forallb (fun i => negb (isc (nthd 0 digits i) "-")) (Z.of_nat <$> seq 0 16) = true)
    by (vm_compute; reflexivity).
  rewrite forallb_forall in Hall. apply negb_true_iff, Hall, list_elem_of_In, list_elem_of_fmap.
  exists (Z.to_nat i). split; [lia|]. apply elem_of_seq. lia.
Qed.

Lemma printint_loop_value fuel x base :
  2 <= base <= 16 -> 0 <= x < base ^ Z.of_nat fuel -> (0 < fuel)%nat ->
  value base (printint_loop fuel x base) = x.
Proof.
  intros Hb. revert x; induction fuel as [|fuel IH]; intros x Hx Hf; [lia|].
  cbn [printint_loop value].
  assert (Hmod : 0 <= x mod base < base) by (apply Z.mod_pos_bound; lia).
  rewrite digit_val_digits by lia.
  pose proof (Z.div_mod x base ltac:(lia)).
  destruct (Z.eqb_spec (x / base) 0) as [E|E]; [cbn [value]; nia|].
  assert (0 <= x / base < base ^ Z.of_nat fuel).
  { split; [apply Z.div_pos; lia|]. apply Z.div_lt_upper_bound; [lia|].
    rewrite Nat2Z.inj_succ, Z.pow_succ_r in Hx by lia. lia. }
  destruct fuel as [|fuel]; [simpl in *; lia|]. rewrite IH by lia. lia.
Qed.

Lemma printint_loop_length n fuel x base :
  2 <= base -> 0 <= x < base ^ Z.of_nat n -> (0 < n)%nat ->
  (0 < length (printint_loop (S fuel) x base) <= n)%nat.
Proof.
  intros Hb. revert fuel x; induction n as [|n IH]; intros fuel x Hx Hn; [lia|].
  cbn [printint_loop length].
  destruct (Z.eqb_spec (x / base) 0) as [E|E]; [simpl; lia|].
  assert (0 <= x / base < base ^ Z.of_nat n).
  { split; [apply Z.div_pos; lia|]. apply Z.div_lt_upper_bound; [lia|].
    rewrite Nat2Z.inj_succ, Z.pow_succ_r in Hx by lia. lia. }
  destruct n as [|n]; [simpl in *; lia|].
  destruct fuel as [|fuel]; [simpl; lia|]. specialize (IH fuel (x / base)). lia.
Qed.

Lemma printint_loop_digits fuel x base :
  2 <= base <= 16 ->
  Forall (fun d => isc d "-" = false) (printint_loop fuel x base).
Proof.
  intros Hb. revert x; induction fuel as [|fuel IH]; intros x; cbn [printint_loop]; [done|].
  constructor; [|destruct (x / base =? 0); auto].
  apply digits_not_sign. pose proof (Z.mod_pos_bound x base ltac:(lia)). lia.
Qed.

Lemma printint_loop_nonempty fuel x base : (0 < fuel)%nat -> printint_loop fuel x base <> [].
Proof. by destruct fuel; [lia|]. Qed.

Lemma pow64_bound base x : 2 <= base -> 0 <= x < 2 ^ 64 -> 0 <= x < base ^ Z.of_nat 64.
Proof.
  intros. split; [lia|]. apply Z.lt_le_trans with (2 ^ 64); [lia|].
  change (Z.of_nat 64) with 64. apply Z.pow_le_mono_l. lia.
Qed.

Lemma read_int_digits base ds :
  Forall (fun d => isc d "-" = false) ds -> ds <> [] -> read_int base (rev ds) = value base ds.
Proof.
  intros Hd Hne. unfold read_int. destruct (rev ds) as [|c cs] eqn:E.
  - apply (f_equal (@rev Z)) in E. rewrite rev_involutive in E. done.
  - rewrite Forall_forall in Hd. rewrite Hd.
    + rewrite <- E, rev_involutive. done.
    + apply elem_of_reverse. unfold reverse. rewrite <- rev_alt, E. by left.
Qed.

Lemma printint_loop_64 x base :
  2 <= base <= 16 -> value base (printint_loop 64 (u64 x) base) = u64 x.
Proof.
  intros. apply printint_loop_value; [lia| |lia]. apply pow64_bound; [lia|]. apply u64_range.
Qed.

(** What is printed in base 2 to 16 reads back as the number, signed or unsigned. *)
Lemma printint_read xx base sign :
  2 <= base <= 16 -> - 2 ^ 63 <= xx < 2 ^ 63 ->
  read_int base (printint xx base sign) = if sign then xx else u64 xx.
Proof.
  intros Hb Hx. unfold printint, printint_buf.
  destruct (sign && (xx <? 0)) eqn:Es.
  - apply andb_prop in Es as [-> Hneg%Z.ltb_lt].
    rewrite rev_app_distr. cbn [rev app]. unfold read_int.
    change (isc (chr "-") "-") with true. cbv iota. rewrite rev_involutive, printint_loop_64 by lia. ulia.
  - rewrite app_nil_r, read_int_digits, printint_loop_64.
    + destruct sign; [|reflexivity]. apply Z.ltb_ge in Es. ulia.
    + lia.
    + apply printint_loop_digits. lia.
    + apply printint_loop_nonempty. lia.
Qed.

(** The 20-byte buffer of [printint] is never overrun, in the two bases [printf] uses. *)
Lemma printint_buf_length xx base sign :
  base = 10 \/ base = 16 -> - 2 ^ 63 <= xx < 2 ^ 63 ->
  (0 < length (printint_buf xx base sign) <= 20)%nat.
Proof.
  intros Hb Hx. unfold printint_buf. rewrite length_app.
  set (neg := sign && (xx <? 0)). set (x := u64 (if neg then - xx else xx)).
  assert (Hr : 0 <= x < 2 ^ 64) by apply u64_range.
  pose proof (printint_loop_length 19 63 x base) as H19.
  pose proof (printint_loop_length 20 63 x base) as H20.
  set (l := printint_loop 64 x base) in *. clearbody l.
  destruct neg eqn:En; cbn [length].
  - assert (x <= 2 ^ 63). { subst x neg. apply andb_prop in En as [_ En]. apply Z.ltb_lt in En. ulia. }
    assert (0 <= x < base ^ Z.of_nat 19); [|lia].
    destruct Hb as [-> | ->]; [change (10 ^ Z.of_nat 19) with 10000000000000000000|change (16 ^ Z.of_nat 19) with (2 ^ 76)]; lia.
  - assert (0 <= x < base ^ Z.of_nat 20); [|lia].
    destruct Hb as [-> | ->]; [change (10 ^ Z.of_nat 20) with 100000000000000000000|change (16 ^ Z.of_nat 20) with (2 ^ 80)]; lia.
Qed.

(** C40. [printint] is right for every 64-bit number in the two bases [printf]
    uses: the digits and the sign never overrun the 20 bytes of its buffer (the
    longest numbers, -2^63 and 2^64-1 in base 10, fill it), and what is printed
    reads back as the number, signed or unsigned as asked for. *)
Theorem printint_fits xx base sign : base = 10 \/ base = 16 -> - 2 ^ 63 <= xx < 2 ^ 63 ->
  (0 < length (printint_buf xx base sign) <= 20)%nat /\ read_int base (printint xx base sign) = if sign then xx else u64 xx.
Proof. intros Hb Hx. split; [by apply printint_buf_length|]. apply printint_read; lia. Qed.

Lemma printint_fits_witness : length (printint_buf (- 2 ^ 63) 10 true) = 20%nat /\
  ((0 < length (printint_buf (- 2 ^ 63) 10 true) <= 20)%nat /\ read_int 10 (printint (- 2 ^ 63) 10 true) = - 2 ^ 63).
Proof. split; [vm_compute; reflexivity|]. apply (printint_fits (- 2 ^ 63) 10 true); lia. Defined.

#[global] Opaque printint.
