(* ===== verification/Kalloc.v ===== *)
(** * The physical page allocator: [kalloc.c]

    Free pages are linked through their first word, in memory; [ref_counts]
    has one counter per physical page.  [kalloc] and [kfree] are shown to
    implement an abstract allocator, a list of free pages and a counter per
    page. *)

From S2P Require Import Prelude Riscv CString Kernel Printf.
From stdpp Require Import base numbers strings gmap list.
From Stdlib Require Import ZArith Lia.

#[local] Open Scope Z_scope.
#[local] Open Scope kernel_scope.

(** Elements of [ref_counts[PHYSTOP / PGSIZE]]. *)
Abbreviation NREF := 0x88000%Z (only parsing).

Section kalloc.
Context {LK : Linker}.

(** ** Reference counts *)

Definition get_ref_index (pa : Z) : Z := i32 (pa / PGSIZE).

Definition ref_get (i : Z) : M Z :=
  if (0 <=? i) && (i <? NREF) then gets (fun k => default 0 (ref_counts k !! i)) else stuck "ref_counts".

Definition ref_set (i v : Z) : M unit :=
  if (0 <=? i) && (i <? NREF) then modify (fun k => k <| ref_counts ::= <[i := v]> |>) else stuck "ref_counts".

Definition kref_inc (pa : Z) : M unit :=
  acquire LRef ;;
  let i := get_ref_index pa in
  n <- ref_get i ;;
  ref_set i (i32 (n + 1)) ;;
  release LRef.

Definition kref_dec (pa : Z) : M Z :=
  acquire LRef ;;
  let i := get_ref_index pa in
  n <- ref_get i ;;
  ref_set i (i32 (n - 1)) ;;
  current_count <- ref_get i ;;
  release LRef ;;
  ret current_count.

(** ** Pages *)

Definition kfree (pa : Z) : M unit :=
  if negb (pa mod PGSIZE =? 0) || (pa <? end_) || (PHYSTOP <=? pa) then panic "kfree" else
  n <- kref_dec pa ;;
  if n >? 0 then ret tt else
  kmemset pa 1 PGSIZE ;;
  acquire LKmem ;;
  next <- gets freelist ;;
  store64 pa next ;;
  modify (fun k => k <| freelist := pa |>) ;;
  modify (fun k => k <| free_pages_count ::= fun n => i32 (n + 1) |>) ;;
  release LKmem.

Definition kalloc : M Z :=
  acquire LKmem ;;
  r <- gets freelist ;;
  when (negb (r =? 0)) (
    next <- load64 r ;;
    modify (fun k => k <| freelist := next |>) ;;
    modify (fun k => k <| free_pages_count ::= fun n => i32 (n - 1) |>)) ;;
  release LKmem ;;
  when (negb (r =? 0)) (kmemset r 5 PGSIZE) ;;
  acquire LRef ;;
  ref_set (get_ref_index r) 1 ;;
  release LRef ;;
  n <- gets free_pages_count ;;
  printf ("Available memory: %d pages" +:+ nl) [VInt n] ;;
  ret r.

(** [for(; p + PGSIZE <= pa_end; p += PGSIZE)] *)
Fixpoint freerange_loop (n : nat) (p pa_end : Z) : M unit :=
  match n with
  | O => stuck "fuel"
  | S n =>
      if p + PGSIZE <=? pa_end then
        acquire LRef ;;
        ref_set (get_ref_index p) 1 ;;
        release LRef ;;
        kfree p ;;
        freerange_loop n (p + PGSIZE) pa_end
      else ret tt
  end.

Definition freerange (pa_start pa_end : Z) : M unit :=
  let p := PGROUNDUP pa_start in
  freerange_loop (S (Z.to_nat ((pa_end - p) / PGSIZE))) p pa_end.

Definition kinit : M unit :=
  initlock LKmem ;;
  initlock LRef ;;
  modify (fun k => k <| free_pages_count := 0 |>) ;;
  freerange end_ PHYSTOP.

(** ** The abstract allocator *)

Definition page_ok (p : Z) : Prop := p mod PGSIZE = 0 /\ end_ <= p < PHYSTOP.

(** The free pages, next to be handed out first, and the counter of each page. *)
Record alloc_spec := mkalloc { a_free : list Z; a_ref : Z -> Z }.

Definition upd_ref (p v : Z) (f : Z -> Z) : Z -> Z := fun q => if q =? p then v else f q.

Definition spec_kalloc (a : alloc_spec) : Z * alloc_spec :=
  match a_free a with
  | [] => (0, a)
  | p :: l => (p, mkalloc l (upd_ref p 1 (a_ref a)))
  end.

Definition spec_kfree (p : Z) (a : alloc_spec) : alloc_spec :=
  mkalloc (if a_ref a p - 1 >? 0 then a_free a else p :: a_free a) (upd_ref p (a_ref a p - 1) (a_ref a)).

(** The operations of a client, with what each may ask for: a page is freed, or
    gets another owner, only while it has one. *)
Inductive aop := AAlloc | AFree (p : Z) | AShare (p : Z).

Definition page_okb (p : Z) : bool := (p mod PGSIZE =? 0) && (end_ <=? p) && (p <? PHYSTOP).

Definition spec_step (op : aop) (a : alloc_spec) : option (Z * alloc_spec) :=
  match op with
  | AAlloc => Some (spec_kalloc a)
  | AFree p =>
      if page_okb p && (1 <=? a_ref a p) && (a_ref a p <? 2 ^ 31) then Some (0, spec_kfree p a) else None
  | AShare p =>
      if page_okb p && (1 <=? a_ref a p) && (a_ref a p <? 2 ^ 31 - 1)
      then Some (0, mkalloc (a_free a) (upd_ref p (a_ref a p + 1) (a_ref a))) else None
  end.

Fixpoint spec_run (ops : list aop) (a : alloc_spec) : option (list Z * alloc_spec) :=
  match ops with
  | [] => Some ([], a)
  | op :: ops =>
      match spec_step op a with
      | Some (r, a) => match spec_run ops a with Some (rs, a) => Some (r :: rs, a) | None => None end
      | None => None
      end
  end.

(** The same operations on the kernel. *)
Definition impl_step (op : aop) : M Z :=
  match op with
  | AAlloc => kalloc
  | AFree p => kfree p ;; ret 0
  | AShare p => kref_inc p ;; ret 0
  end.

Fixpoint impl_run (ops : list aop) : M (list Z) :=
  match ops with
  | [] => ret []
  | op :: ops => r <- impl_step op ;; rs <- impl_run ops ;; ret (r :: rs)
  end.

(** The list linked through the first words of the free pages. *)
Fixpoint free_list (m : memory) (head : Z) (l : list Z) : Prop :=
  match l with
  | [] => head = 0
  | p :: l => head = p /\ page_ok p /\ free_list m (rd64 m p) l
  end.

(** The counter kept for a page. *)
Definition refc (k : kernel) (p : Z) : Z := default 0 (ref_counts k !! (p / PGSIZE)).

(** The concrete state represents the abstract one. *)
Record represents (a : alloc_spec) (k : kernel) : Prop := {
  rep_list : free_list (mem k) (freelist k) (a_free a);
  rep_nodup : NoDup (a_free a);
  rep_count : free_pages_count k = Z.of_nat (length (a_free a));
  rep_ref : forall p, page_ok p -> refc k p = a_ref a p;
  rep_free0 : forall p, p ∈ a_free a -> a_ref a p = 0;
  rep_mem : mem_ok (mem k)
}.

(** Every page without an owner is in the list: none is lost. *)
Definition complete (a : alloc_spec) : Prop := forall p, page_ok p -> a_ref a p = 0 -> p ∈ a_free a.

(** The state a call may change: memory, the allocator's variables and the console. *)
Definition only_pages (k k' : kernel) : Prop :=
  k' = k <| mem := mem k' |> <| freelist := freelist k' |> <| free_pages_count := free_pages_count k' |>
         <| ref_counts := ref_counts k' |> <| uart := uart k' |>.

End kalloc.

(** ** Lemmas *)

Section kalloc_lemmas.
Context {LK : Linker} {LKO : LinkerOk}.
Implicit Types (c : cpu) (k : kernel).

Lemma page_ok_range p : page_ok p -> KERNBASE <= p < PHYSTOP /\ p mod PGSIZE = 0.
Proof. intros [? ?]. pose proof etext_range. lia. Qed.

Lemma page_ok_index p : page_ok p -> 0 <= p / PGSIZE < NREF /\ get_ref_index p = p / PGSIZE.
Proof. intros [? ?]%page_ok_range. unfold get_ref_index. ulia. Qed.

Lemma page_ok_inj p q : page_ok p -> page_ok q -> p / PGSIZE = q / PGSIZE -> p = q.
Proof. intros [_ ?]%page_ok_range [_ ?]%page_ok_range. zlia. Qed.

(** Two pages that differ do not overlap. *)
Lemma page_disjoint p q : p mod PGSIZE = 0 -> q mod PGSIZE = 0 -> p <> q -> p + PGSIZE <= q \/ q + PGSIZE <= p.
Proof. zlia. Qed.

(** There are at most [NREF] pages. *)
Lemma pages_bound l : NoDup l -> Forall page_ok l -> Z.of_nat (length l) <= NREF.
Proof.
  intros Hnd Hok. destruct (Z_of_nat_complete NREF ltac:(lia)) as [N HN]. rewrite HN.
  assert (Hlen : (length l <= length (seq 0 N))%nat).
  { rewrite <- (length_fmap (fun p => Z.to_nat (p / PGSIZE)) l).
    apply submseteq_length, NoDup_submseteq.
    - apply NoDup_fmap_2_strong; [|done].
      intros p q Hp Hq E. rewrite Forall_forall in Hok.
      pose proof (page_ok_index p (Hok p ltac:(done))).
      pose proof (page_ok_index q (Hok q ltac:(done))).
      apply page_ok_inj; [by apply Hok ..|lia].
    - intros n [p [-> Hp]]%list_elem_of_fmap. rewrite Forall_forall in Hok.
      pose proof (page_ok_index p (Hok p ltac:(done))).
      apply elem_of_seq. lia. }
  rewrite length_seq in Hlen. lia.
Qed.

Lemma ref_get_done i c k : 0 <= i < NREF -> ref_get i c k = Done (default 0 (ref_counts k !! i)) c k.
Proof. intros. unfold ref_get. destruct (Z.leb_spec 0 i), (Z.ltb_spec i NREF); try lia. done. Qed.

Lemma ref_set_done i v c k :
  0 <= i < NREF -> ref_set i v c k = Done tt c (k <| ref_counts ::= <[i := v]> |>).
Proof. intros. unfold ref_set. destruct (Z.leb_spec 0 i), (Z.ltb_spec i NREF); try lia. done. Qed.

Lemma kref_dec_done p c k :
  page_ok p -> LRef ∉ held c ->
  kref_dec p c k =
  Done (i32 (refc k p - 1)) c (k <| ref_counts ::= <[p / PGSIZE := i32 (refc k p - 1)]> |>).
Proof.
  intros Hp Hh. destruct (page_ok_index p Hp) as [Hi Hix]. unfold kref_dec. rewrite Hix.
  erewrite bind_done by (by apply acquire_ok). cbv zeta.
  erewrite bind_done by (by apply ref_get_done).
  erewrite bind_done by (by apply ref_set_done).
  erewrite bind_done by (by apply ref_get_done).
  erewrite bind_done by (by apply release_ok).
  unfold ret, refc. kred. rewrite lookup_insert_eq. done.
Qed.

Lemma kref_inc_done p c k :
  page_ok p -> LRef ∉ held c ->
  kref_inc p c k = Done tt c (k <| ref_counts ::= <[p / PGSIZE := i32 (refc k p + 1)]> |>).
Proof.
  intros Hp Hh. destruct (page_ok_index p Hp) as [Hi Hix]. unfold kref_inc. rewrite Hix.
  erewrite bind_done by (by apply acquire_ok). cbv zeta.
  erewrite bind_done by (by apply ref_get_done).
  erewrite bind_done by (by apply ref_set_done).
  rewrite release_ok by done. kdone.
Qed.

(** The message [kalloc] prints. *)
Definition mem_msg (n : Z) : list Z :=
  str "Available memory: " ++ printint (i32 n) 10 true ++ str (" pages" +:+ nl).

Lemma format_mem_msg n : format (str ("Available memory: %d pages" +:+ nl)) [VInt n] = Some (mem_msg n).
Proof. reflexivity. Qed.

(** [kfree] refuses an address that is not a page of allocatable memory. *)
Lemma kfree_bad p c k : ~ page_ok p -> kfree p c k = Panicked "kfree" c k.
Proof.
  intros Hp. unfold kfree, page_ok in *.
  destruct (Z.eqb_spec (p mod PGSIZE) 0), (Z.ltb_spec p end_), (Z.leb_spec PHYSTOP p); simpl; try done. lia.
Qed.

Lemma kfree_guard {A} p (m m' : M A) :
  page_ok p -> (if negb (p mod PGSIZE =? 0) || (p <? end_) || (PHYSTOP <=? p) then m else m') = m'.
Proof.
  intros [Ha Hr]. rewrite Ha.
  destruct (Z.ltb_spec p end_), (Z.leb_spec PHYSTOP p); simpl; try lia; done.
Qed.

(** A page others still use only loses a reference. *)
Lemma kfree_shared p c k :
  page_ok p -> LRef ∉ held c -> 0 < i32 (refc k p - 1) ->
  kfree p c k = Done tt c (k <| ref_counts ::= <[p / PGSIZE := i32 (refc k p - 1)]> |>).
Proof.
  intros Hp Hh Hr. unfold kfree. rewrite kfree_guard by done.
  erewrite bind_done by (by apply kref_dec_done).
  destruct (Z.gtb_spec (i32 (refc k p - 1)) 0); [done|lia].
Qed.

(** Otherwise it is filled with junk and pushed on the free list. *)
Lemma kfree_last p c k :
  page_ok p -> LRef ∉ held c -> LKmem ∉ held c -> i32 (refc k p - 1) <= 0 ->
  kfree p c k =
  Done tt c (k <| ref_counts ::= <[p / PGSIZE := i32 (refc k p - 1)]> |>
               <| mem := wr64 (memset (mem k) p 1 PGSIZE) p (freelist k) |>
               <| freelist := p |> <| free_pages_count := i32 (free_pages_count k + 1) |>).
Proof.
  intros Hp Hh Hh' Hr. unfold kfree. rewrite kfree_guard by done.
  erewrite bind_done by (by apply kref_dec_done).
  destruct (Z.gtb_spec (i32 (refc k p - 1)) 0); [lia|].
  erewrite bind_done by done.
  erewrite bind_done by (by apply acquire_ok).
  do 4 erewrite bind_done by done.
  rewrite release_ok by done. kdone.
Qed.

(** [kalloc] when the free list is empty: nothing is allocated; counter 0 is set and the
    status line printed all the same. *)
Lemma kalloc_empty c k :
  LKmem ∉ held c -> LRef ∉ held c -> LPr ∉ held c -> freelist k = 0 ->
  kalloc c k = Done 0 c (k <| ref_counts ::= <[0 := 1]> |>
                           <| uart ::= fun o => o ++ out (mem_msg (free_pages_count k)) |>).
Proof.
  intros H1 H2 H3 Hf. unfold kalloc.
  erewrite bind_done by (by apply acquire_ok).
  erewrite bind_done by done. rewrite Hf. cbn [Z.eqb negb when].
  erewrite bind_done by done.
  erewrite bind_done by (by apply release_ok).
  erewrite bind_done by done.
  erewrite bind_done by (by apply acquire_ok).
  erewrite bind_done by (apply ref_set_done; unfold get_ref_index; ulia).
  erewrite bind_done by (by apply release_ok).
  erewrite bind_done by done.
  erewrite bind_done by (apply printf_done; [done|apply format_mem_msg]).
  unfold ret. kdone.
Qed.

(** [kalloc] takes the first page of the list, fills it and gives it one owner. *)
Lemma kalloc_page p c k :
  LKmem ∉ held c -> LRef ∉ held c -> LPr ∉ held c -> freelist k = p -> page_ok p ->
  kalloc c k =
  Done p c (k <| freelist := rd64 (mem k) p |> <| free_pages_count := i32 (free_pages_count k - 1) |>
              <| mem ::= fun m => memset m p 5 PGSIZE |> <| ref_counts ::= <[p / PGSIZE := 1]> |>
              <| uart ::= fun o => o ++ out (mem_msg (i32 (free_pages_count k - 1))) |>).
Proof.
  intros H1 H2 H3 Hf Hp. destruct (page_ok_index p Hp) as [Hi Hix].
  assert (Hnz : p <> 0) by (apply page_ok_range in Hp; lia).
  unfold kalloc.
  erewrite bind_done by (by apply acquire_ok).
  erewrite bind_done by done. rewrite Hf. destruct (Z.eqb_spec p 0); [done|]. cbn [negb when].
  erewrite bind_done by done.
  erewrite bind_done by (by apply release_ok).
  erewrite bind_done by done.
  erewrite bind_done by (by apply acquire_ok).
  erewrite bind_done by (rewrite Hix; by apply ref_set_done).
  erewrite bind_done by (by apply release_ok).
  erewrite bind_done by done.
  erewrite bind_done by (apply printf_done; [done|apply format_mem_msg]).
  unfold ret. kdone.
Qed.

Lemma upd_ref_eq p v f : upd_ref p v f p = v.
Proof. unfold upd_ref. by rewrite Z.eqb_refl. Qed.
Lemma upd_ref_ne p v f q : q <> p -> upd_ref p v f q = f q.
Proof. intros. unfold upd_ref. by destruct (Z.eqb_spec q p). Qed.

Lemma refc_insert k p v m :
  page_ok p -> forall q, page_ok q ->
  ref_counts k = <[p / PGSIZE := v]> m ->
  refc k q = if q =? p then v else default 0 (m !! (q / PGSIZE)).
Proof.
  intros Hp q Hq E. unfold refc. rewrite E. destruct (Z.eqb_spec q p) as [->|Hne].
  - by rewrite lookup_insert_eq.
  - rewrite lookup_insert_ne; [done|]. intros ?. apply Hne. by apply page_ok_inj.
Qed.

Lemma free_list_pages m h l : free_list m h l -> Forall page_ok l.
Proof. revert h; induction l as [|p l IH]; intros h; simpl; [done|]. intros (_ & ? & ?). eauto. Qed.

(** Writes that keep the first word of each free page keep the list. *)
Lemma free_list_frame m m' h l :
  free_list m h l -> (forall p, p ∈ l -> rd64 m' p = rd64 m p) -> free_list m' h l.
Proof.
  revert h; induction l as [|p l IH]; intros h; simpl; [done|]. intros (-> & ? & ?) Hw.
  split; [done|]. split; [done|]. rewrite Hw by set_solver. apply IH; [done|]. intros; apply Hw; set_solver.
Qed.

Lemma page_sep p q l m h :
  page_ok p -> free_list m h l -> p ∉ l -> q ∈ l -> q + 8 <= p \/ p + PGSIZE <= q.
Proof.
  intros Hp Hl Hn Hq. pose proof (free_list_pages _ _ _ Hl) as Hok. rewrite Forall_forall in Hok.
  pose proof (page_ok_range _ (Hok q ltac:(done))). apply page_ok_range in Hp.
  destruct (page_disjoint p q); try lia. by intros ->.
Qed.

Lemma represents_free_page a k p l :
  represents a k -> a_free a = p :: l ->
  freelist k = p /\ page_ok p /\ free_list (mem k) (rd64 (mem k) p) l /\ (p ∉ l) /\ NoDup l.
Proof.
  intros Hr E. pose proof (rep_list _ _ Hr) as Hl. pose proof (rep_nodup _ _ Hr) as Hnd.
  rewrite E in Hl, Hnd. apply NoDup_cons in Hnd as [? ?]. simpl in Hl. tauto.
Qed.

Lemma complete_kalloc a p l r :
  complete a -> a_free a = p :: l -> r <> 0 -> complete (mkalloc l (upd_ref p r (a_ref a))).
Proof.
  intros Hc E Hr q Hq. cbn [a_ref a_free]. destruct (decide (q = p)) as [->|Hne]; [by rewrite upd_ref_eq|].
  rewrite upd_ref_ne by done. intros Hz. apply (Hc q Hq) in Hz. rewrite E in Hz. by apply elem_of_cons in Hz as [->|].
Qed.

Lemma complete_kfree a p : complete a -> a_ref a p = 1 -> complete (spec_kfree p a).
Proof.
  intros Hc H1 q Hq. unfold spec_kfree. rewrite H1. cbn [a_ref a_free Z.gtb Z.sub].
  destruct (decide (q = p)) as [->|Hne]; [left|]. rewrite upd_ref_ne by done. right. by apply Hc.
Qed.

Lemma represents_length a k : represents a k -> 0 <= free_pages_count k <= NREF.
Proof.
  intros Hr. rewrite (rep_count _ _ Hr).
  pose proof (pages_bound (a_free a) (rep_nodup _ _ Hr) (free_list_pages _ _ _ (rep_list _ _ Hr))). lia.
Qed.

Lemma kalloc_represents a k c :
  represents a k -> LKmem ∉ held c -> LRef ∉ held c -> LPr ∉ held c ->
  exists k', kalloc c k = Done (fst (spec_kalloc a)) c k' /\ represents (snd (spec_kalloc a)) k' /\
    only_pages k k' /\
    forall x, (fst (spec_kalloc a) = 0 \/ ~ fst (spec_kalloc a) <= x < fst (spec_kalloc a) + PGSIZE) ->
      rd8 (mem k') x = rd8 (mem k) x.
Proof.
  intros Hr H1 H2 H3. unfold spec_kalloc. destruct (a_free a) as [|p l] eqn:E; simpl.
  - assert (Hf : freelist k = 0) by (pose proof (rep_list _ _ Hr) as Hl; by rewrite E in Hl).
    eexists. split; [by apply kalloc_empty|]. split; [|by split].
    destruct Hr; split; try done. intros q Hq. rewrite <- rep_ref0 by done. unfold refc. kred.
    rewrite lookup_insert_ne; [done|]. apply page_ok_range in Hq. zlia.
  - destruct (represents_free_page _ _ _ _ Hr E) as (Hf & Hp & Hl & Hn & Hnd).
    pose proof (represents_length _ _ Hr). pose proof (rep_count _ _ Hr) as Hc. rewrite E in Hc. simpl in Hc.
    eexists. split; [by apply kalloc_page|]. split; [|split; [by unfold only_pages; kdone|]].
    + split; kred; simpl.
      * apply free_list_frame with (mem k); [done|]. intros q Hq. apply rdn_memset_out; [lia|].
        by eapply page_sep.
      * done.
      * rewrite i32_small by lia. lia.
      * intros q Hq. erewrite (refc_insert _ p _ (ref_counts k) Hp q Hq) by reflexivity. unfold upd_ref. destruct (q =? p); [done|].
        by apply (rep_ref _ _ Hr).
      * intros q Hq. rewrite upd_ref_ne by (by intros ->). apply (rep_free0 _ _ Hr). rewrite E. by apply list_elem_of_further.
      * apply mem_ok_memset, (rep_mem _ _ Hr).
    + intros x [->|Hx]; [apply page_ok_range in Hp; lia|]. kred. by apply rd8_memset_out.
Qed.

Lemma kfree_represents a k c p :
  represents a k -> LKmem ∉ held c -> LRef ∉ held c -> page_ok p -> 1 <= a_ref a p < 2 ^ 31 ->
  exists k', kfree p c k = Done tt c k' /\ represents (spec_kfree p a) k' /\ only_pages k k' /\
    forall x, ~ p <= x < p + PGSIZE -> rd8 (mem k') x = rd8 (mem k) x.
Proof.
  intros Hr H1 H2 Hp Hc. pose proof (rep_ref _ _ Hr p Hp) as Er.
  assert (Hn : p ∉ a_free a) by (intros Hin; pose proof (rep_free0 _ _ Hr p Hin); lia).
  unfold spec_kfree. destruct (Z.gtb_spec (a_ref a p - 1) 0) as [Hs|Hs].
  - eexists. split; [apply kfree_shared; try done; rewrite Er, i32_small; lia|].
    split; [|by split; [unfold only_pages; kdone|]].
    pose proof (i32_small (refc k p - 1)) as Hi. rewrite Hi by lia. rewrite Er.
    destruct Hr; split; simpl; try done.
    + intros q Hq. erewrite (refc_insert _ p _ (ref_counts k) Hp q Hq) by reflexivity. unfold upd_ref. destruct (q =? p); [done|]. by apply rep_ref0.
    + intros q Hq. rewrite upd_ref_ne by (by intros ->). by apply rep_free1.
  - eexists. split; [apply kfree_last; try done; rewrite Er, i32_small; lia|].
    pose proof (i32_small (refc k p - 1)) as Hi. rewrite Hi by lia. rewrite Er.
    pose proof (represents_length _ _ Hr).
    split; [|split; [by unfold only_pages; kdone|]].
    + split; kred; simpl.
      * split; [done|]. split; [done|]. rewrite rd64_wr64_eq.
        pose proof (rep_list _ _ Hr) as Hl.
        replace (u64 (freelist k)) with (freelist k).
        2: { destruct (a_free a) as [|q l]; simpl in Hl; [rewrite Hl; done|].
             destruct Hl as (-> & Hq%page_ok_range & _). ulia. }
        apply free_list_frame with (mem k); [done|]. intros q Hq.
        assert (q + 8 <= p \/ p + PGSIZE <= q) by (by eapply page_sep).
        rewrite rdn_wrn_out by lia. apply rdn_memset_out; lia.
      * apply NoDup_cons. split; [done|]. apply (rep_nodup _ _ Hr).
      * rewrite i32_small by lia. rewrite (rep_count _ _ Hr). lia.
      * intros q Hq. erewrite (refc_insert _ p _ (ref_counts k) Hp q Hq) by reflexivity. unfold upd_ref. destruct (q =? p); [done|].
        by apply (rep_ref _ _ Hr).
      * intros q [->|Hq]%elem_of_cons; [rewrite upd_ref_eq; lia|].
        rewrite upd_ref_ne by (by intros ->). by apply (rep_free0 _ _ Hr).
      * apply mem_ok_wrn, mem_ok_memset, (rep_mem _ _ Hr).
    + intros x Hx. kred. rewrite rd8_wrn_out by lia. by apply rd8_memset_out.
Qed.

Lemma kref_inc_represents a k c p :
  represents a k -> LRef ∉ held c -> page_ok p -> 1 <= a_ref a p < 2 ^ 31 - 1 ->
  exists k', kref_inc p c k = Done tt c k' /\
    represents (mkalloc (a_free a) (upd_ref p (a_ref a p + 1) (a_ref a))) k' /\ only_pages k k'.
Proof.
  intros Hr H1 Hp Hc. pose proof (rep_ref _ _ Hr p Hp) as Er.
  eexists. split; [by apply kref_inc_done|]. split; [|by unfold only_pages; kdone].
  pose proof (i32_small (refc k p + 1)) as Hi. rewrite Hi by lia. rewrite Er.
  destruct Hr; split; simpl; try done.
  - intros q Hq. erewrite (refc_insert _ p _ (ref_counts k) Hp q Hq) by reflexivity.
    unfold upd_ref. destruct (q =? p); [done|]. by apply rep_ref0.
  - intros q Hq. rewrite upd_ref_ne; [by apply rep_free1|]. intros ->. rewrite rep_free1 in Hc by done. lia.
Qed.

Lemma page_okb_spec p : page_okb p = true -> page_ok p.
Proof. unfold page_okb, page_ok. intros [[?%Z.eqb_eq ?%Z.leb_le]%andb_prop ?%Z.ltb_lt]%andb_prop. lia. Qed.

Lemma only_pages_refl k : only_pages k k.
Proof. by destruct k. Qed.

Lemma only_pages_trans k1 k2 k3 : only_pages k1 k2 -> only_pages k2 k3 -> only_pages k1 k3.
Proof. unfold only_pages. intros E1 E2. rewrite E2 at 1. rewrite E1. kdone. Qed.

Lemma step_represents op a k c r a' :
  represents a k -> LKmem ∉ held c -> LRef ∉ held c -> LPr ∉ held c -> spec_step op a = Some (r, a') ->
  exists k', impl_step op c k = Done r c k' /\ represents a' k' /\ only_pages k k'.
Proof.
  intros Hr H1 H2 H3 Hs. destruct op as [|p|p]; simpl in Hs.
  - injection Hs as Hs. destruct (kalloc_represents a k c) as (k' & E & Hr' & Ho & _); try done.
    rewrite Hs in E, Hr'. eauto.
  - destruct (page_okb p) eqn:Hp, (Z.leb_spec 1 (a_ref a p)), (Z.ltb_spec (a_ref a p) (2 ^ 31));
      simplify_eq/=. apply page_okb_spec in Hp.
    destruct (kfree_represents a k c p) as (k' & E & Hr' & Ho & _); try done.
    exists k'. by erewrite bind_done by done.
  - destruct (page_okb p) eqn:Hp, (Z.leb_spec 1 (a_ref a p)), (Z.ltb_spec (a_ref a p) (2 ^ 31 - 1));
      simplify_eq/=. apply page_okb_spec in Hp.
    destruct (kref_inc_represents a k c p) as (k' & E & Hr' & Ho); try done.
    exists k'. by erewrite bind_done by done.
Qed.

(** The pages from [p], upwards. *)
Definition pages_from (p : Z) (n : nat) : list Z := (fun i => p + PGSIZE * Z.of_nat i) <$> seq 0 n.

Lemma pages_from_cons p n : pages_from p (S n) = p :: pages_from (p + PGSIZE) n.
Proof.
  unfold pages_from. cbn [seq fmap list_fmap]. f_equal; [lia|].
  rewrite <- seq_shift, <- list_fmap_compose. apply list_fmap_ext. intros. simpl. lia.
Qed.

(** One round of [freerange]: the page, whatever its counter was, is freed. *)
Lemma freerange_page p a c k :
  represents a k -> LKmem ∉ held c -> LRef ∉ held c -> page_ok p -> p ∉ a_free a ->
  exists k', represents (mkalloc (p :: a_free a) (upd_ref p 0 (a_ref a))) k' /\ only_pages k k' /\
    forall n pa_end, p + PGSIZE <= pa_end ->
      freerange_loop (S n) p pa_end c k = freerange_loop n (p + PGSIZE) pa_end c k'.
Proof.
  intros Hr H1 H2 Hp Hn. destruct (page_ok_index p Hp) as [Hi Hix].
  set (k1 := k <| ref_counts ::= <[p / PGSIZE := 1]> |>).
  assert (Hr1 : represents (mkalloc (a_free a) (upd_ref p 1 (a_ref a))) k1).
  { destruct Hr; split; simpl; try done.
    - intros q Hq. erewrite (refc_insert _ p _ (ref_counts k) Hp q Hq) by reflexivity.
      unfold upd_ref. destruct (q =? p); [done|]. by apply rep_ref0.
    - intros q Hq. rewrite upd_ref_ne; [by apply rep_free1|]. by intros ->. }
  destruct (kfree_represents _ k1 c p Hr1) as (k' & E & Hr' & Ho & _); try done.
  { simpl. rewrite upd_ref_eq. lia. }
  exists k'. split; [|split].
  - unfold spec_kfree in Hr'. simpl in Hr'. rewrite upd_ref_eq in Hr'. simpl in Hr'.
    destruct Hr'; split; try done; simpl in *.
    + intros q Hq. rewrite rep_ref0 by done. unfold upd_ref. by destruct (q =? p).
    + intros q Hq. specialize (rep_free1 q Hq). unfold upd_ref in *. by destruct (q =? p).
  - eapply only_pages_trans; [|done]. unfold only_pages, k1. kdone.
  - intros n pa_end Hle. cbn [freerange_loop]. destruct (Z.leb_spec (p + PGSIZE) pa_end); [|lia].
    erewrite bind_done by (by apply acquire_ok).
    erewrite bind_done by (rewrite Hix; by apply ref_set_done).
    erewrite bind_done by (by apply release_ok).
    by erewrite bind_done by done.
Qed.

(** [freerange] frees every page of the range, the highest last. *)
Lemma freerange_loop_represents n p a c k :
  represents a k -> LKmem ∉ held c -> LRef ∉ held c ->
  Forall page_ok (pages_from p n) -> (forall q, q ∈ pages_from p n -> q ∉ a_free a) ->
  exists k' r, freerange_loop (S n) p (p + PGSIZE * Z.of_nat n) c k = Done tt c k' /\
    represents (mkalloc (rev (pages_from p n) ++ a_free a) r) k' /\ only_pages k k' /\
    (forall q, q ∈ pages_from p n -> r q = 0) /\ (forall q, q ∉ pages_from p n -> r q = a_ref a q).
Proof.
  revert p a k; induction n as [|n IH]; intros p a k Hr H1 H2 Hok Hni.
  - exists k, (a_ref a). cbn [freerange_loop]. destruct (Z.leb_spec (p + PGSIZE) (p + PGSIZE * Z.of_nat 0)); [lia|].
    split; [done|]. split; [by destruct Hr|]. split; [apply only_pages_refl|]. set_solver.
  - rewrite pages_from_cons in *. apply Forall_cons in Hok as [Hp Hok].
    destruct (freerange_page p a c k) as (k1 & Hr1 & Ho1 & Hstep); try done; [set_solver|].
    rewrite Hstep by lia.
    assert (Hlater : forall q, q ∈ pages_from (p + PGSIZE) n -> q <> p).
    { intros q [i [-> _]]%list_elem_of_fmap. lia. }
    destruct (IH (p + PGSIZE) _ k1 Hr1 H1 H2 Hok) as (k2 & r & E & Hr2 & Ho2 & Hz & Hnz).
    { intros q Hq [->|Hin]%elem_of_cons; [by apply (Hlater p)|]. apply (Hni q); [by apply list_elem_of_further|done]. }
    replace (p + PGSIZE * Z.of_nat (S n)) with (p + PGSIZE + PGSIZE * Z.of_nat n) by lia.
    exists k2, r. split; [done|]. split; [|split; [by eapply only_pages_trans|]].
    + simpl in *. by rewrite <- app_assoc.
    + split; intros q Hq.
      * apply elem_of_cons in Hq as [->|Hq]; [|by apply Hz].
        rewrite Hnz; [apply upd_ref_eq|]. intros Hin. by apply (Hlater p Hin).
      * apply not_elem_of_cons in Hq as [Hne Hq]. rewrite Hnz by done. by apply upd_ref_ne.
Qed.

End kalloc_lemmas.

(** ** Theorems *)

Section kalloc_theorems.
Context {LK : Linker} {LKO : LinkerOk}.
Implicit Types (c : cpu) (k : kernel).

(** The pages [kinit] hands to the allocator: all of those between the end of
    the kernel and PHYSTOP. *)
Definition boot_pages : list Z :=
  pages_from (PGROUNDUP end_) (Z.to_nat ((PHYSTOP - PGROUNDUP end_) / PGSIZE)).

Lemma boot_pages_spec p : p ∈ boot_pages <-> page_ok p.
Proof.
  pose proof etext_range. pose proof end_range. unfold boot_pages.
  destruct (PGROUNDUP_bounds end_) as [Hb Ha]; [lia|].
  unfold pages_from, page_ok. rewrite list_elem_of_fmap. split.
  - intros (i & -> & Hi%elem_of_seq). zlia.
  - intros [Hp Hr]. exists (Z.to_nat ((p - PGROUNDUP end_) / PGSIZE)). split; [zlia|].
    apply elem_of_seq. zlia.
Qed.

(** C9. After [kinit] on the zeroed static storage the allocator is in the abstract state in
    which exactly the whole pages between [end] and PHYSTOP are free, the highest first, each
    with reference count 0, and [free_pages_count] is their number. *)
Theorem kinit_establishes c k :
  held c = [] -> freelist k = 0 -> mem_ok (mem k) ->
  exists k' r, kinit c k = Done tt c k' /\ represents (mkalloc (rev boot_pages) r) k' /\ only_pages k k' /\
    (forall p, p ∈ rev boot_pages <-> page_ok p) /\ (forall p, page_ok p -> r p = 0).
Proof.
  intros Hc Hf Hm. pose proof etext_range. pose proof end_range.
  destruct (PGROUNDUP_bounds end_) as [Hb Ha]; [lia|].
  set (k1 := k <| free_pages_count := 0 |>).
  destruct (freerange_loop_represents (Z.to_nat ((PHYSTOP - PGROUNDUP end_) / PGSIZE)) (PGROUNDUP end_)
    (mkalloc [] (refc k1)) c k1) as (k' & r & E & Hr & Ho & Hz & Hnz).
  - split; simpl; try done; [apply NoDup_nil_2|set_solver].
  - rewrite Hc. set_solver.
  - rewrite Hc. set_solver.
  - apply Forall_forall. apply boot_pages_spec.
  - set_solver.
  - exists k', r. unfold kinit, initlock, setcpu.
    erewrite bind_done by done. erewrite bind_done by done. erewrite bind_done by done.
    replace (c <| held := _ |> <| held := _ |>) with c by (destruct c; simpl in Hc; by subst).
    split; [|split; [|split; [|split]]].
    + unfold freerange. rewrite <- E. f_equal. zlia.
    + by rewrite app_nil_r in Hr.
    + eapply only_pages_trans; [|done]. unfold only_pages, k1. kdone.
    + intros p. rewrite list_elem_of_In, <- in_rev, <- list_elem_of_In. apply boot_pages_spec.
    + intros p Hp. apply Hz. by apply boot_pages_spec.
Qed.

(** C1. The allocator implements the abstract one on every sequence of calls: as long as the
    sequence only frees or shares pages that have an owner, [kalloc], [kfree] and [kref_inc]
    return without panic, [kalloc] returns exactly the pages the abstract allocator hands out,
    the final states correspond, and nothing but memory, the allocator's own variables and the
    console changes. *)
Theorem allocator_refines ops a k c rs a' :
  represents a k -> LKmem ∉ held c -> LRef ∉ held c -> LPr ∉ held c ->
  spec_run ops a = Some (rs, a') ->
  exists k', impl_run ops c k = Done rs c k' /\ represents a' k' /\ only_pages k k'.
Proof.
  intros Hr H1 H2 H3. revert a k rs Hr.
  induction ops as [|op ops IH]; intros a k rs Hr Hs; simpl in Hs.
  - injection Hs as <- <-. exists k. split; [done|]. split; [done|apply only_pages_refl].
  - destruct (spec_step op a) as [[r a1]|] eqn:E1; [|done].
    destruct (spec_run ops a1) as [[rs1 a2]|] eqn:E2; [|done]. injection Hs as <- <-.
    destruct (step_represents op a k c r a1) as (k1 & R1 & Hr1 & Ho1); try done.
    destruct (IH a1 k1 rs1) as (k2 & R2 & Hr2 & Ho2); try done.
    exists k2. split; [|split; [done|by eapply only_pages_trans]].
    simpl. erewrite bind_done by done. by erewrite bind_done by done.
Qed.

(** A page [kalloc] returns had no owner: its count was 0 and becomes 1, it is a
    whole page of allocatable memory filled with 5s, and no byte outside it changes. *)
Theorem kalloc_fresh a k c p :
  represents a k -> LKmem ∉ held c -> LRef ∉ held c -> LPr ∉ held c ->
  fst (spec_kalloc a) = p -> p <> 0 ->
  exists k', kalloc c k = Done p c k' /\ page_ok p /\ refc k p = 0 /\ refc k' p = 1 /\
    (forall q, page_ok q -> q <> p -> refc k' q = refc k q) /\
    (forall x, p <= x < p + PGSIZE -> rd8 (mem k') x = 5) /\
    (forall x, ~ p <= x < p + PGSIZE -> rd8 (mem k') x = rd8 (mem k) x).
Proof.
  intros Hr H1 H2 H3 <- Hnz. unfold spec_kalloc in *. destruct (a_free a) as [|p l] eqn:E; [done|]. simpl in *.
  destruct (represents_free_page _ _ _ _ Hr E) as (Hf & Hp & Hl & Hn & Hnd).
  eexists. split; [by apply kalloc_page|]. split; [done|]. split; [|split; [|split; [|split]]].
  - rewrite (rep_ref _ _ Hr) by done. apply (rep_free0 _ _ Hr). rewrite E. set_solver.
  - erewrite (refc_insert _ p _ (ref_counts k) Hp p Hp) by reflexivity. by rewrite Z.eqb_refl.
  - intros q Hq Hne. erewrite (refc_insert _ p _ (ref_counts k) Hp q Hq) by reflexivity.
    by destruct (Z.eqb_spec q p).
  - intros x Hx. kred. rewrite rd8_memset by lia. destruct (decide _); [done|lia].
  - intros x Hx. kred. by apply rd8_memset_out.
Qed.

(** Nothing in [kfree] detects a page that is freed twice: the counter goes to -1, the
    page enters the list again, and the next two calls of [kalloc] both return it. *)
Theorem kfree_twice_aliases a k c p l :
  represents a k -> LKmem ∉ held c -> LRef ∉ held c -> LPr ∉ held c -> a_free a = p :: l ->
  exists k', (kfree p ;; x <- kalloc ;; y <- kalloc ;; ret (x, y)) c k = Done (p, p) c k'.
Proof.
  intros Hr H1 H2 H3 E. destruct (represents_free_page _ _ _ _ Hr E) as (Hf & Hp & _).
  assert (H0 : refc k p = 0).
  { rewrite (rep_ref _ _ Hr) by done. apply (rep_free0 _ _ Hr). rewrite E. set_solver. }
  eexists. erewrite bind_done; [|apply kfree_last; try done; by rewrite H0].
  erewrite bind_done by (by apply (kalloc_page p)).
  erewrite bind_done; [|apply (kalloc_page p); try done].
  - unfold ret. reflexivity.
  - kred. rewrite rd64_wr64_eq, Hf. apply u64_small. apply page_ok_range in Hp. lia.
Qed.

(** [kalloc] prints its status line on every call, whether 30,000 pages are left or fewer
    and also when it fails: the console gets "Available memory: ", the decimal count of the
    pages left and " pages". *)
Theorem kalloc_prints a k c :
  represents a k -> LKmem ∉ held c -> LRef ∉ held c -> LPr ∉ held c ->
  exists r k', kalloc c k = Done r c k' /\
    uart k' = uart k ++ out (str "Available memory: " ++
      printint (i32 (Z.of_nat (length (a_free (snd (spec_kalloc a)))))) 10 true ++ str (" pages" +:+ nl)).
Proof.
  intros Hr H1 H2 H3. pose proof (rep_count _ _ Hr) as Hc. pose proof (represents_length _ _ Hr).
  unfold spec_kalloc. destruct (a_free a) as [|p l] eqn:E; simpl in *.
  - assert (Hf : freelist k = 0) by (pose proof (rep_list _ _ Hr) as Hl; by rewrite E in Hl).
    do 2 eexists. split; [by apply kalloc_empty|]. kred. unfold mem_msg. by rewrite E, Hc.
  - destruct (represents_free_page _ _ _ _ Hr E) as (Hf & Hp & _).
    do 2 eexists. split; [by apply kalloc_page|]. kred. unfold mem_msg. rewrite Hc.
    rewrite (i32_small (Z.of_nat (S (length l)) - 1)) by lia.
    by replace (Z.of_nat (S (length l)) - 1) with (Z.of_nat (length l)) by lia.
Qed.

End kalloc_theorems.

(** ** Witnesses: twelve pages after a small kernel *)

Section kalloc_witnesses.
#[local] Existing Instance small_linker.
#[local] Existing Instance small_linker_ok.

Definition page_a : Z := PHYSTOP - PGSIZE.
Definition page_b : Z := PHYSTOP - 2 * PGSIZE.

(** Two free pages, [page_a] then [page_b]. *)
Definition kernel_2 : kernel :=
  kernel_0 <| mem := wr64 ∅ page_a page_b |> <| freelist := page_a |> <| free_pages_count := 2 |>.

Lemma kernel_2_represents : represents (mkalloc [page_a; page_b] (fun _ => 0)) kernel_2.
Proof.
  split; cbn [a_free a_ref].
  - repeat split; vm_compute; congruence.
  - apply NoDup_cons. split; [by rewrite list_elem_of_singleton|]. apply NoDup_cons. split; [apply not_elem_of_nil|apply NoDup_nil_2].
  - done.
  - done.
  - done.
  - apply mem_ok_wrn, mem_ok_empty.
Qed.

Lemma kinit_establishes_witness :
  exists k' r, kinit cpu_0 kernel_0 = Done tt cpu_0 k' /\ length (rev boot_pages) = 12%nat /\
    represents (mkalloc (rev boot_pages) r) k'.
Proof.
  destruct (kinit_establishes cpu_0 kernel_0) as (k' & r & E & Hr & _); [done|done|apply mem_ok_empty|].
  exists k', r. split; [exact E|]. split; [vm_compute; reflexivity|exact Hr].
Defined.

Lemma allocator_refines_witness :
  exists k' a', impl_run [AAlloc; AShare page_a; AFree page_a; AAlloc; AAlloc; AFree page_a; AAlloc] cpu_0 kernel_2 =
    Done [page_a; 0; 0; page_b; 0; 0; page_a] cpu_0 k' /\ represents a' k'.
Proof.
  edestruct (allocator_refines [AAlloc; AShare page_a; AFree page_a; AAlloc; AAlloc; AFree page_a; AAlloc]
    (mkalloc [page_a; page_b] (fun _ => 0)) kernel_2 cpu_0 [page_a; 0; 0; page_b; 0; 0; page_a]) as (k' & E & Hr & _);
    [apply kernel_2_represents|set_solver|set_solver|set_solver|vm_compute; reflexivity|].
  eauto.
Defined.

Lemma kalloc_fresh_witness :
  exists k', kalloc cpu_0 kernel_2 = Done page_a cpu_0 k' /\ refc k' page_a = 1 /\ rd8 (mem k') (page_a + 7) = 5.
Proof.
  destruct (kalloc_fresh _ kernel_2 cpu_0 page_a kernel_2_represents) as (k' & E & _ & _ & H1 & _ & H5 & _);
    [apply not_elem_of_nil ..|done|done|].
  exists k'. split; [done|]. split; [done|]. apply H5. unfold page_a. lia.
Defined.

Lemma kfree_twice_aliases_witness :
  exists k', (kfree page_a ;; x <- kalloc ;; y <- kalloc ;; ret (x, y)) cpu_0 kernel_2 = Done (page_a, page_a) cpu_0 k'.
Proof.
  apply (kfree_twice_aliases _ kernel_2 cpu_0 page_a [page_b] kernel_2_represents); [apply not_elem_of_nil ..|done].
Defined.

Lemma kalloc_prints_witness :
  exists r k', kalloc cpu_0 kernel_2 = Done r cpu_0 k' /\ uart k' = str ("Available memory: 1 pages" +:+ nl).
Proof.
  destruct (kalloc_prints _ kernel_2 cpu_0 kernel_2_represents) as (r & k' & E & Hu); [apply not_elem_of_nil ..|].
  exists r, k'. split; [done|]. rewrite Hu. vm_compute. reflexivity.
Defined.

End kalloc_witnesses.
