(* ===== verification/Vm.v ===== *)
(** * Page tables and user memory: [vm.c]

    Page tables are read and written in physical memory, entry by entry, as
    the code does.  The second half relates such a table to the function from
    virtual pages to entries it stands for, and shows what each operation does
    to that function. *)

From S2P Require Import Prelude Riscv CString Kernel Printf Kalloc.
From stdpp Require Import base numbers strings gmap list.
From Stdlib Require Import ZArith Lia.

#[local] Open Scope Z_scope.
#[local] Open Scope kernel_scope.

Section vm.
Context {LK : Linker}.

(** The address of [pagetable[i]]. *)
Definition pte_addr (pagetable i : Z) : Z := pagetable + 8 * i.

(** A load through a pointer that the code does not test. *)
Definition loadp (a : Z) : M Z := if a =? 0 then stuck "null" else load64 a.

(** ** Walking *)

(** The loop of [walk], for the levels from [level] down to 1. *)
Fixpoint walk_loop (level : nat) (pagetable va : Z) (alloc : bool) : M Z :=
  match level with
  | O => ret (pte_addr pagetable (PX 0 va))
  | S l =>
      let pte := pte_addr pagetable (PX (Z.of_nat level) va) in
      e <- load64 pte ;;
      if flag e PTE_V then walk_loop l (PTE2PA e) va alloc
      else if negb alloc then ret 0
      else
        pagetable <- kalloc ;;
        if pagetable =? 0 then ret 0 else
        kmemset pagetable 0 PGSIZE ;;
        store64 pte (Z.lor (PA2PTE pagetable) PTE_V) ;;
        walk_loop l pagetable va alloc
  end.

Definition walk (pagetable va : Z) (alloc : bool) : M Z :=
  if MAXVA <=? va then panic "walk" else walk_loop 2 pagetable va alloc.

Definition walkaddr (pagetable va : Z) : M Z :=
  if MAXVA <=? va then ret 0 else
  pte <- walk pagetable va false ;;
  if pte =? 0 then ret 0 else
  e <- load64 pte ;;
  if negb (flag e PTE_V) then ret 0 else
  if negb (flag e PTE_U) then ret 0 else
  ret (PTE2PA e).

Definition ismapped (pagetable va : Z) : M bool :=
  pte <- walk pagetable va false ;;
  if pte =? 0 then ret false else
  e <- load64 pte ;;
  ret (flag e PTE_V).

(** ** Mapping *)

(** The [for(;;)] of [mappages]; it runs [size / PGSIZE] times. *)
Fixpoint mappages_loop (n : nat) (pagetable a last pa perm : Z) : M Z :=
  match n with
  | O => stuck "fuel"
  | S n =>
      pte <- walk pagetable a true ;;
      if pte =? 0 then ret (-1) else
      e <- load64 pte ;;
      if flag e PTE_V then panic "mappages: remap" else
      store64 pte (Z.lor (Z.lor (PA2PTE pa) perm) PTE_V) ;;
      if a =? last then ret 0
      else mappages_loop n pagetable (u64 (a + PGSIZE)) last (u64 (pa + PGSIZE)) perm
  end.

Definition mappages (pagetable va size pa perm : Z) : M Z :=
  if negb (va mod PGSIZE =? 0) then panic "mappages: va not aligned" else
  if negb (size mod PGSIZE =? 0) then panic "mappages: size not aligned" else
  if size =? 0 then panic "mappages: size" else
  mappages_loop (Z.to_nat (size / PGSIZE)) pagetable va (u64 (va + size - PGSIZE)) pa perm.

Definition kvmmap (kpgtbl va pa sz perm : Z) : M unit :=
  r <- mappages kpgtbl va sz pa perm ;;
  if negb (r =? 0) then panic "kvmmap" else ret tt.

Definition uvmcreate : M Z :=
  pagetable <- kalloc ;;
  if pagetable =? 0 then ret 0 else
  kmemset pagetable 0 PGSIZE ;;
  ret pagetable.

(** The body of the loop of [uvmunmap]; [ret tt] is its [continue]. *)
Definition uvmunmap_page (pagetable a : Z) (do_free : bool) : M unit :=
  pte <- walk pagetable a false ;;
  if pte =? 0 then ret tt else
  e <- load64 pte ;;
  if negb (flag e PTE_V) then ret tt else
  when do_free (kfree (PTE2PA e)) ;;
  store64 pte 0.

(** [for(a = va; a < va + npages*PGSIZE; a += PGSIZE)] *)
Fixpoint uvmunmap_loop (n : nat) (pagetable a stop : Z) (do_free : bool) : M unit :=
  match n with
  | O => stuck "fuel"
  | S n =>
      if stop <=? a then ret tt else
      uvmunmap_page pagetable a do_free ;;
      uvmunmap_loop n pagetable (u64 (a + PGSIZE)) stop do_free
  end.

Definition uvmunmap (pagetable va npages : Z) (do_free : bool) : M unit :=
  if negb (va mod PGSIZE =? 0) then panic "uvmunmap: not aligned" else
  uvmunmap_loop (S (Z.to_nat npages)) pagetable va (u64 (va + npages * PGSIZE)) do_free.

(** ** Growing and shrinking *)

Definition uvmdealloc (pagetable oldsz newsz : Z) : M Z :=
  if oldsz <=? newsz then ret oldsz else
  when (PGROUNDUP newsz <? PGROUNDUP oldsz) (
    let npages := i32 ((PGROUNDUP oldsz - PGROUNDUP newsz) / PGSIZE) in
    uvmunmap pagetable (PGROUNDUP newsz) (u64 npages) true) ;;
  ret newsz.

Fixpoint uvmalloc_loop (n : nat) (pagetable a oldsz newsz xperm : Z) : M Z :=
  match n with
  | O => stuck "fuel"
  | S n =>
      if newsz <=? a then ret newsz else
      mem <- kalloc ;;
      if mem =? 0 then uvmdealloc pagetable a oldsz ;; ret 0 else
      kmemset mem 0 PGSIZE ;;
      r <- mappages pagetable a PGSIZE mem (Z.lor (Z.lor PTE_R PTE_U) xperm) ;;
      if negb (r =? 0) then kfree mem ;; uvmdealloc pagetable a oldsz ;; ret 0
      else uvmalloc_loop n pagetable (u64 (a + PGSIZE)) oldsz newsz xperm
  end.

Definition uvmalloc (pagetable oldsz newsz xperm : Z) : M Z :=
  if newsz <? oldsz then ret oldsz else
  let oldsz := PGROUNDUP oldsz in
  uvmalloc_loop (S (Z.to_nat ((newsz - oldsz + PGSIZE - 1) / PGSIZE))) pagetable oldsz oldsz newsz xperm.

(** ** Freeing *)

(** [for(int i = 0; i < 512; i++)] of [freewalk], [n] entries left. *)
Fixpoint freewalk_loop (freewalk : Z -> M unit) (n : nat) (pagetable i : Z) : M unit :=
  match n with
  | O => ret tt
  | S n =>
      pte <- load64 (pte_addr pagetable i) ;;
      (if flag pte PTE_V && negb (flag pte (Z.lor (Z.lor PTE_R PTE_W) PTE_X)) then
         freewalk (PTE2PA pte) ;;
         store64 (pte_addr pagetable i) 0
       else if flag pte PTE_V then panic "freewalk: leaf"
       else ret tt) ;;
      freewalk_loop freewalk n pagetable (i + 1)
  end.

(** The recursion goes as deep as the tree; a page table has 3 levels. *)
Fixpoint freewalk (levels : nat) (pagetable : Z) : M unit :=
  match levels with
  | O => stuck "fuel"
  | S levels => freewalk_loop (freewalk levels) 512 pagetable 0 ;; kfree pagetable
  end.

Definition uvmfree (pagetable sz : Z) : M unit :=
  when (0 <? sz) (uvmunmap pagetable 0 (PGROUNDUP sz / PGSIZE) true) ;;
  freewalk 3 pagetable.

(** ** Copying an address space *)

Fixpoint uvmcopy_loop (n : nat) (old new i sz : Z) : M Z :=
  match n with
  | O => stuck "fuel"
  | S n =>
      if sz <=? i then ret 0 else
      pte <- walk old i false ;;
      if pte =? 0 then uvmcopy_loop n old new (u64 (i + PGSIZE)) sz else
      e <- load64 pte ;;
      if negb (flag e PTE_V) then uvmcopy_loop n old new (u64 (i + PGSIZE)) sz else
      let pa := PTE2PA e in
      let flags := u32 (PTE_FLAGS e) in
      let err := uvmunmap new 0 (i / PGSIZE) true ;; ret (-1) in
      mem <- kalloc ;;
      if mem =? 0 then err else
      kmemmove mem pa PGSIZE ;;
      r <- mappages new i PGSIZE mem (i32 flags) ;;
      if negb (r =? 0) then kfree mem ;; err
      else uvmcopy_loop n old new (u64 (i + PGSIZE)) sz
  end.

Definition uvmcopy (old new sz : Z) : M Z :=
  uvmcopy_loop (S (Z.to_nat ((sz + PGSIZE - 1) / PGSIZE))) old new 0 sz.

Definition uvmclear (pagetable va : Z) : M unit :=
  pte <- walk pagetable va false ;;
  if pte =? 0 then panic "uvmclear" else
  e <- load64 pte ;;
  store64 pte (Z.land e (Z.lnot PTE_U)).

(** ** Page faults and copies between user and kernel *)

(** [read] is not used. *)
Definition vmfault (pagetable va : Z) (read : bool) : M Z :=
  i <- curproc ;;
  p <- getproc i ;;
  if p_sz p <=? va then ret 0 else
  let va := PGROUNDDOWN va in
  m <- ismapped pagetable va ;;
  if (m : bool) then ret 0 else
  mem <- kalloc ;;
  if mem =? 0 then ret 0 else
  kmemset mem 0 PGSIZE ;;
  r <- mappages (p_pagetable p) va PGSIZE mem (Z.lor (Z.lor PTE_W PTE_U) PTE_R) ;;
  if negb (r =? 0) then kfree mem ;; ret 0 else
  ret mem.

(** Writes the bytes of a kernel object to physical memory. *)
Definition kwrbytes (a : Z) (bs : list Z) : M unit := modify (fun k => k <| mem ::= fun m => wrbytes m a bs |>).

(** [src] is the object copied from; its first [len] bytes are copied. *)
Fixpoint copyout_loop (n : nat) (pagetable dstva : Z) (src : list Z) (len : Z) : M Z :=
  match n with
  | O => stuck "fuel"
  | S n =>
      if len =? 0 then ret 0 else
      let va0 := PGROUNDDOWN dstva in
      if MAXVA <=? va0 then ret (-1) else
      pa0 <- walkaddr pagetable va0 ;;
      pa0 <- (if pa0 =? 0 then vmfault pagetable va0 false else ret pa0) ;;
      if pa0 =? 0 then ret (-1) else
      pte <- walk pagetable va0 false ;;
      e <- loadp pte ;;
      if negb (flag e PTE_W) then ret (-1) else
      let n0 := PGSIZE - (dstva - va0) in
      let n1 := if n0 >? len then len else n0 in
      kwrbytes (pa0 + (dstva - va0)) (take (Z.to_nat n1) src) ;;
      copyout_loop n pagetable (u64 (va0 + PGSIZE)) (drop (Z.to_nat n1) src) (len - n1)
  end.

Definition copyout (pagetable dstva : Z) (src : list Z) (len : Z) : M Z :=
  copyout_loop (S (S (Z.to_nat (len / PGSIZE + 1)))) pagetable dstva src len.

(** The bytes copied to [dst], also when the copy stops early, come with the result. *)
Fixpoint copyin_loop (n : nat) (pagetable : Z) (dst : list Z) (srcva len : Z) : M (Z * list Z) :=
  match n with
  | O => stuck "fuel"
  | S n =>
      if len =? 0 then ret (0, dst) else
      let va0 := PGROUNDDOWN srcva in
      pa0 <- walkaddr pagetable va0 ;;
      pa0 <- (if pa0 =? 0 then vmfault pagetable va0 false else ret pa0) ;;
      if pa0 =? 0 then ret (-1, dst) else
      let n0 := PGSIZE - (srcva - va0) in
      let n1 := if n0 >? len then len else n0 in
      bs <- gets (fun k => rdbytes (mem k) (pa0 + (srcva - va0)) (Z.to_nat n1)) ;;
      copyin_loop n pagetable (dst ++ bs) (u64 (va0 + PGSIZE)) (len - n1)
  end.

Definition copyin (pagetable srcva len : Z) : M (Z * list Z) :=
  copyin_loop (S (S (Z.to_nat (len / PGSIZE + 1)))) pagetable [] srcva len.

(** The inner [while(n > 0)]: copies up to [n] bytes at [p]; the bytes written,
    whether the 0 was met, and what is left of [max]. *)
Fixpoint copyinstr_inner (n : nat) (m : memory) (p : Z) (dst : list Z) (max : Z) : list Z * bool * Z :=
  match n with
  | O => (dst, false, max)
  | S n =>
      if rd8 m p =? 0 then (dst ++ [0], true, max)
      else copyinstr_inner n m (p + 1) (dst ++ [rd8 m p]) (max - 1)
  end.

Fixpoint copyinstr_loop (n : nat) (pagetable : Z) (dst : list Z) (srcva max : Z) : M (Z * list Z) :=
  match n with
  | O => stuck "fuel"
  | S n =>
      if max =? 0 then ret (-1, dst) else
      let va0 := PGROUNDDOWN srcva in
      pa0 <- walkaddr pagetable va0 ;;
      if pa0 =? 0 then ret (-1, dst) else
      let n0 := PGSIZE - (srcva - va0) in
      let n1 := if n0 >? max then max else n0 in
      '(dst, got_null, max) <-
        gets (fun k => copyinstr_inner (Z.to_nat n1) (mem k) (pa0 + (srcva - va0)) dst max) ;;
      if (got_null : bool) then ret (0, dst)
      else copyinstr_loop n pagetable dst (u64 (va0 + PGSIZE)) max
  end.

Definition copyinstr (pagetable srcva max : Z) : M (Z * list Z) :=
  copyinstr_loop (S (S (Z.to_nat (max / PGSIZE + 1)))) pagetable [] srcva max.

(** ** The kernel's page table *)

(** [proc_mapstacks] of [proc.c], for the processes from [i] on. *)
Fixpoint proc_mapstacks_loop (n : nat) (kpgtbl i : Z) : M unit :=
  match n with
  | O => ret tt
  | S n =>
      pa <- kalloc ;;
      if pa =? 0 then panic "kalloc" else
      kvmmap kpgtbl (KSTACK i) pa PGSIZE (Z.lor PTE_R PTE_W) ;;
      proc_mapstacks_loop n kpgtbl (i + 1)
  end.

Definition proc_mapstacks (kpgtbl : Z) : M unit := proc_mapstacks_loop (Z.to_nat NPROC) kpgtbl 0.

Definition kvmmake : M Z :=
  kpgtbl <- kalloc ;;
  if kpgtbl =? 0 then stuck "null" else
  kmemset kpgtbl 0 PGSIZE ;;
  kvmmap kpgtbl UART0 UART0 PGSIZE (Z.lor PTE_R PTE_W) ;;
  kvmmap kpgtbl VIRTIO0 VIRTIO0 PGSIZE (Z.lor PTE_R PTE_W) ;;
  kvmmap kpgtbl PLIC PLIC 0x4000000 (Z.lor PTE_R PTE_W) ;;
  kvmmap kpgtbl KERNBASE KERNBASE (etext - KERNBASE) (Z.lor PTE_R PTE_X) ;;
  kvmmap kpgtbl etext etext (PHYSTOP - etext) (Z.lor PTE_R PTE_W) ;;
  kvmmap kpgtbl TRAMPOLINE trampoline PGSIZE (Z.lor PTE_R PTE_X) ;;
  proc_mapstacks kpgtbl ;;
  ret kpgtbl.

Definition kvminit : M unit :=
  kpgtbl <- kvmmake ;;
  modify (fun k => k <| kernel_pagetable := kpgtbl |>).

End vm.

(** ** The function a page table stands for *)

(** The pages of one page table: the root, the level-1 tables by root index,
    the level-0 tables by both indices. *)
Record ptree := mkptree { pt_root : Z; pt_mid : gmap Z Z; pt_low : gmap (Z * Z) Z }.

Definition pt_pages (t : ptree) : list Z :=
  pt_root t :: (map_to_list (pt_mid t)).*2 ++ (map_to_list (pt_low t)).*2.

(** The entry of a table that points to the table [o], if there is one. *)
Definition table_pte (o : option Z) : Z :=
  match o with Some p => Z.lor (PA2PTE p) PTE_V | None => 0 end.

Section vm_spec.
Context {LK : Linker}.

(** Memory [m] holds the page table [t]; the root is used below MAXVA, its lower half. *)
Record pt_wf (m : memory) (t : ptree) : Prop := {
  wf_pages : Forall page_ok (pt_pages t);
  wf_nodup : NoDup (pt_pages t);
  wf_root : forall i, 0 <= i < 512 -> rd64 m (pte_addr (pt_root t) i) = table_pte (pt_mid t !! i);
  wf_mid : forall i p, pt_mid t !! i = Some p ->
    forall j, 0 <= j < 512 -> rd64 m (pte_addr p j) = table_pte (pt_low t !! (i, j));
  wf_mid_dom : forall i p, pt_mid t !! i = Some p -> 0 <= i < 256;
  wf_low_dom : forall i j q, pt_low t !! (i, j) = Some q -> is_Some (pt_mid t !! i) /\ 0 <= j < 512
}.

(** The address of the entry for [va], 0 when its level-0 table does not exist. *)
Definition slot (t : ptree) (va : Z) : Z :=
  match pt_low t !! (PX 2 va, PX 1 va) with Some p => pte_addr p (PX 0 va) | None => 0 end.

(** The entry for [va], 0 when there is none. *)
Definition pte_at (m : memory) (t : ptree) (va : Z) : Z :=
  match pt_low t !! (PX 2 va, PX 1 va) with Some p => rd64 m (pte_addr p (PX 0 va)) | None => 0 end.

(** The allocator and the page table are consistent: table pages have one owner. *)
Record vm_ok (a : alloc_spec) (t : ptree) (k : kernel) : Prop := {
  vo_rep : represents a k;
  vo_all : complete a;
  vo_wf : pt_wf (mem k) t;
  vo_own : forall p, p ∈ pt_pages t -> a_ref a p = 1
}.

(** The tables of [t] are also in [t']. *)
Definition pt_sub (t t' : ptree) : Prop :=
  pt_root t = pt_root t' /\ pt_mid t ⊆ pt_mid t' /\ pt_low t ⊆ pt_low t'.

(** Pages that had an owner and are not tables of [t] keep their contents and
    count; the tables of [t'] that are new had none. *)
Record vm_frame (a a' : alloc_spec) (t t' : ptree) (k k' : kernel) : Prop := {
  vf_sub : pt_sub t t';
  vf_new : forall p, p ∈ pt_pages t' -> p ∈ pt_pages t \/ a_ref a p = 0;
  vf_ref : forall p, page_ok p -> a_ref a p <> 0 -> a_ref a' p = a_ref a p;
  vf_acc : forall p, a_ref a' p <> 0 -> a_ref a p <> 0 \/ p ∈ pt_pages t';
  vf_mem : forall p x, page_ok p -> a_ref a p <> 0 -> p ∉ pt_pages t -> p <= x < p + PGSIZE ->
    rd8 (mem k') x = rd8 (mem k) x;
  vf_kernel : only_pages k k'
}.

End vm_spec.

Section vm_lemmas.
Context {LK : Linker} {LKO : LinkerOk}.
Implicit Types (c : cpu) (k : kernel) (m : memory) (t : ptree).

Lemma pt_root_in t : pt_root t ∈ pt_pages t.
Proof. by left. Qed.
Lemma pt_mid_in t i p : pt_mid t !! i = Some p -> p ∈ pt_pages t.
Proof.
  intros. right. apply elem_of_app. left. apply list_elem_of_fmap. exists (i, p).
  split; [done|]. by apply elem_of_map_to_list.
Qed.
Lemma pt_low_in t ij p : pt_low t !! ij = Some p -> p ∈ pt_pages t.
Proof.
  intros. right. apply elem_of_app. right. apply list_elem_of_fmap. exists (ij, p).
  split; [done|]. by apply elem_of_map_to_list.
Qed.

Lemma pt_pages_inv t p :
  p ∈ pt_pages t -> p = pt_root t \/ (exists i, pt_mid t !! i = Some p) \/ (exists ij, pt_low t !! ij = Some p).
Proof.
  intros [->|[([i q] & -> & Hin)%list_elem_of_fmap|([i q] & -> & Hin)%list_elem_of_fmap]%elem_of_app]%elem_of_cons;
    [by left|right; left|right; right]; exists i; by apply elem_of_map_to_list.
Qed.

(** Adding a table. *)
Definition add_mid (t : ptree) (i p : Z) : ptree := mkptree (pt_root t) (<[i := p]> (pt_mid t)) (pt_low t).
Definition add_low (t : ptree) (i j p : Z) : ptree :=
  mkptree (pt_root t) (pt_mid t) (<[(i, j) := p]> (pt_low t)).

Lemma add_mid_pages t i p : pt_mid t !! i = None -> pt_pages (add_mid t i p) ≡ₚ p :: pt_pages t.
Proof.
  intros Hn. unfold pt_pages, add_mid. cbn [pt_root pt_mid pt_low].
  rewrite map_to_list_insert by done. cbn [fmap list_fmap]. cbn. apply Permutation_swap.
Qed.

Lemma add_low_pages t i j p : pt_low t !! (i, j) = None -> pt_pages (add_low t i j p) ≡ₚ p :: pt_pages t.
Proof.
  intros Hn. unfold pt_pages, add_low. cbn [pt_root pt_mid pt_low].
  rewrite map_to_list_insert by done. cbn [fmap list_fmap]. cbn.
  rewrite <- Permutation_middle. apply Permutation_swap.
Qed.

Lemma pte_addr_in p i : page_ok p -> 0 <= i < 512 -> p <= pte_addr p i /\ pte_addr p i + 8 <= p + PGSIZE.
Proof. unfold pte_addr. lia. Qed.

(** Two distinct entries do not overlap. *)
Lemma pte_addr_sep p i q j :
  page_ok p -> page_ok q -> 0 <= i < 512 -> 0 <= j < 512 -> (p, i) <> (q, j) ->
  pte_addr p i + 8 <= pte_addr q j \/ pte_addr q j + 8 <= pte_addr p i.
Proof.
  intros [? ?]%page_ok_range [? ?]%page_ok_range Hi Hj Hne. unfold pte_addr.
  destruct (decide (p = q)) as [->|Hpq].
  - assert (i <> j) by congruence. lia.
  - destruct (page_disjoint p q) as [|]; try lia.
Qed.

Lemma rd64_entry m p i v q j :
  page_ok p -> page_ok q -> 0 <= i < 512 -> 0 <= j < 512 ->
  rd64 (wr64 m (pte_addr p i) v) (pte_addr q j) =
  if decide (p = q /\ i = j) then u64 v else rd64 m (pte_addr q j).
Proof.
  intros Hp Hq Hi Hj. destruct (decide _) as [[-> ->]|Hne]; [apply rd64_wr64_eq|].
  apply rdn_wrn_out. destruct (pte_addr_sep p i q j); try done; try lia.
  intros [= -> ->]. by apply Hne.
Qed.

(** The entry of a table points to it. *)
Lemma table_pte_range o : (forall p, o = Some p -> page_ok p) -> 0 <= table_pte o < 2 ^ 64.
Proof.
  intros Ho. destruct o as [p|]; simpl; [|lia]. destruct (page_ok_range p (Ho p eq_refl)).
  change PTE_V with 1. rewrite PTE_make_eq by lia. zlia.
Qed.

Lemma table_pte_flag o : (forall p, o = Some p -> page_ok p) -> flag (table_pte o) PTE_V = bool_decide (is_Some o).
Proof.
  intros Ho. destruct o as [p|]; simpl; [|done]. destruct (page_ok_range p (Ho p eq_refl)).
  change PTE_V with 1. by rewrite flag_make by lia.
Qed.

Lemma table_pte_pa p : page_ok p -> PTE2PA (table_pte (Some p)) = p.
Proof. intros [? ?]%page_ok_range. simpl. change PTE_V with 1. apply PTE2PA_make; lia. Qed.

Lemma wf_page_ok m t p : pt_wf m t -> p ∈ pt_pages t -> page_ok p.
Proof. intros Hw. pose proof (wf_pages _ _ Hw) as Hf. rewrite Forall_forall in Hf. auto. Qed.

Lemma wf_mid_ok m t i p : pt_wf m t -> pt_mid t !! i = Some p -> page_ok p.
Proof. intros Hw Hi. eapply wf_page_ok, pt_mid_in; done. Qed.
Lemma wf_low_ok m t ij p : pt_wf m t -> pt_low t !! ij = Some p -> page_ok p.
Proof. intros Hw Hi. eapply wf_page_ok, pt_low_in; done. Qed.

(** Only the entries of its own tables matter to a page table. *)
Lemma pt_wf_frame m m' t :
  pt_wf m t ->
  (forall p i, p = pt_root t \/ (exists j, pt_mid t !! j = Some p) -> 0 <= i < 512 ->
    rd64 m' (pte_addr p i) = rd64 m (pte_addr p i)) ->
  pt_wf m' t.
Proof.
  intros [] Hs. split; try done.
  - intros i Hi. rewrite Hs by auto. auto.
  - intros i p Hp j Hj. rewrite Hs by eauto. eauto.
Qed.

Lemma pte_at_frame m m' t va :
  (forall p, pt_low t !! (PX 2 va, PX 1 va) = Some p -> rd64 m' (pte_addr p (PX 0 va)) = rd64 m (pte_addr p (PX 0 va))) ->
  pte_at m' t va = pte_at m t va.
Proof. intros Hs. unfold pte_at. destruct (pt_low t !! _) eqn:E; [auto|done]. Qed.

(** The tables are distinct pages. *)
Lemma map_values_inj {K} `{Countable K} (m : gmap K Z) i j p :
  NoDup (map_to_list m).*2 -> m !! i = Some p -> m !! j = Some p -> i = j.
Proof.
  intros Hnd Hi Hj. apply elem_of_map_to_list, list_elem_of_lookup_1 in Hi as [x Hx].
  apply elem_of_map_to_list, list_elem_of_lookup_1 in Hj as [y Hy].
  assert (x = y) as ->; [|congruence].
  eapply (NoDup_lookup _ _ _ p Hnd); rewrite list_lookup_fmap; [by rewrite Hx|by rewrite Hy].
Qed.

Lemma map_values_in {K} `{Countable K} (m : gmap K Z) i p : m !! i = Some p -> p ∈ (map_to_list m).*2.
Proof. intros Hi. apply list_elem_of_fmap. exists (i, p). split; [done|]. by apply elem_of_map_to_list. Qed.

Lemma wf_distinct m t :
  pt_wf m t ->
  (forall i, pt_mid t !! i <> Some (pt_root t)) /\ (forall ij, pt_low t !! ij <> Some (pt_root t)) /\
  (forall i ij p, pt_mid t !! i = Some p -> pt_low t !! ij <> Some p) /\
  (forall i j p, pt_mid t !! i = Some p -> pt_mid t !! j = Some p -> i = j) /\
  (forall ij ij' p, pt_low t !! ij = Some p -> pt_low t !! ij' = Some p -> ij = ij').
Proof.
  intros Hw. pose proof (wf_nodup _ _ Hw) as Hn. apply NoDup_cons in Hn as [Hr Hn].
  apply NoDup_app in Hn as (Hm & Hd & Hl). split; [|split; [|split; [|split]]].
  - intros i Hi. apply Hr, elem_of_app. left. by eapply map_values_in.
  - intros i Hi. apply Hr, elem_of_app. right. by eapply map_values_in.
  - intros i ij p Hi Hij. apply (Hd p); by eapply map_values_in.
  - intros i j p. by apply map_values_inj.
  - intros ij ij' p. by apply map_values_inj.
Qed.

(** ** [walk] *)

Lemma walk_mid t va l alloc c k :
  pt_wf (mem k) t -> pt_mid t !! PX 2 va = Some l ->
  walk_loop 2 (pt_root t) va alloc c k = walk_loop 1 l va alloc c k.
Proof.
  intros Hw Hl. cbn [walk_loop]. change (Z.of_nat 2) with 2.
  erewrite bind_done by done. rewrite (wf_root _ _ Hw), table_pte_flag, Hl, bool_decide_true, table_pte_pa;
    try done; [by eapply wf_mid_ok|intros; by eapply wf_mid_ok|apply PX_range; lia].
Qed.

Lemma walk_low t va l q alloc c k :
  pt_wf (mem k) t -> pt_mid t !! PX 2 va = Some l -> pt_low t !! (PX 2 va, PX 1 va) = Some q ->
  walk_loop 1 l va alloc c k = Done (pte_addr q (PX 0 va)) c k.
Proof.
  intros Hw Hl Hq. cbn [walk_loop]. change (Z.of_nat 1) with 1.
  erewrite bind_done by done. rewrite (wf_mid _ _ Hw _ _ Hl), table_pte_flag, Hq, bool_decide_true, table_pte_pa;
    try done; [by eapply wf_low_ok|intros; by eapply wf_low_ok|apply PX_range; lia].
Qed.

(** The state in which [walk] finds an invalid entry. *)
Lemma walk_none n tbl va alloc c k :
  rd64 (mem k) (pte_addr tbl (PX (Z.of_nat (S n)) va)) = 0 ->
  walk_loop (S n) tbl va alloc c k =
  (if negb alloc then ret 0 else
   p <- kalloc ;;
   if p =? 0 then ret 0 else
   kmemset p 0 PGSIZE ;;
   store64 (pte_addr tbl (PX (Z.of_nat (S n)) va)) (Z.lor (PA2PTE p) PTE_V) ;;
   walk_loop n p va alloc) c k.
Proof. intros E. cbn [walk_loop]. erewrite bind_done by done. by rewrite E. Qed.

Lemma wf_root_none m t i : pt_wf m t -> 0 <= i < 512 -> pt_mid t !! i = None -> rd64 m (pte_addr (pt_root t) i) = 0.
Proof. intros Hw Hi E. by rewrite (wf_root _ _ Hw), E. Qed.

Lemma wf_mid_none m t i p j :
  pt_wf m t -> pt_mid t !! i = Some p -> 0 <= j < 512 -> pt_low t !! (i, j) = None -> rd64 m (pte_addr p j) = 0.
Proof. intros Hw Hi Hj E. by rewrite (wf_mid _ _ Hw _ _ Hi), E. Qed.

Lemma wf_low_none m t i j : pt_wf m t -> pt_mid t !! i = None -> pt_low t !! (i, j) = None.
Proof.
  intros Hw Hi. destruct (pt_low t !! (i, j)) as [q|] eqn:E; [|done].
  destruct (wf_low_dom _ _ Hw _ _ _ E) as [[? ?] _]. congruence.
Qed.

(** Without [alloc], [walk] only reads, and finds the entry of the page. *)
Lemma walk_lookup t va c k :
  pt_wf (mem k) t -> 0 <= va < MAXVA -> walk (pt_root t) va false c k = Done (slot t va) c k.
Proof.
  intros Hw Hva. unfold walk, slot. destruct (Z.leb_spec MAXVA va); [lia|].
  destruct (pt_mid t !! PX 2 va) as [l|] eqn:El.
  - erewrite walk_mid by done. destruct (pt_low t !! _) as [q|] eqn:Eq; [by eapply walk_low|].
    rewrite walk_none; [done|]. eapply wf_mid_none; try done. apply PX_range; lia.
  - rewrite (wf_low_none (mem k)) by done.
    rewrite walk_none; [done|]. eapply wf_root_none; try done. apply PX_range; lia.
Qed.

(** *** Adding a table *)

(** The new table [p] is zeroed and entry [i] of table [s] points to it. *)
Definition link_table (m : memory) (p s i : Z) : memory :=
  wr64 (memset m p 0 PGSIZE) (pte_addr s i) (Z.lor (PA2PTE p) PTE_V).

Lemma link_new m p s i j :
  page_ok p -> page_ok s -> p <> s -> 0 <= i < 512 -> 0 <= j < 512 -> rd64 (link_table m p s i) (pte_addr p j) = 0.
Proof.
  intros Hp Hs Hne Hi Hj. unfold link_table. rewrite rd64_entry by done.
  rewrite decide_False by (intros []; done). apply rd64_memset_0; unfold pte_addr; lia.
Qed.

Lemma link_other m p s i q j :
  page_ok p -> page_ok s -> page_ok q -> q <> p -> 0 <= i < 512 -> 0 <= j < 512 ->
  rd64 (link_table m p s i) (pte_addr q j) =
  if decide (s = q /\ i = j) then table_pte (Some p) else rd64 m (pte_addr q j).
Proof.
  intros Hp Hs Hq Hne Hi Hj. unfold link_table. rewrite rd64_entry by done.
  destruct (decide _).
  - apply u64_small, (table_pte_range (Some p)). by intros ? [= <-].
  - apply rdn_memset_out; [lia|]. pose proof (pte_addr_in q j Hq Hj).
    destruct (page_disjoint p q); try lia; by apply page_ok_range.
Qed.

Lemma link_byte m p s i x :
  page_ok s -> 0 <= i < 512 -> ~ (p <= x < p + PGSIZE) -> ~ (s <= x < s + PGSIZE) ->
  rd8 (link_table m p s i) x = rd8 m x.
Proof.
  intros Hs Hi Hp Hx. unfold link_table. pose proof (pte_addr_in s i Hs Hi).
  rewrite rd8_wrn_out by lia. by apply rd8_memset_out.
Qed.

Lemma link_mem_ok m p s i : mem_ok m -> mem_ok (link_table m p s i).
Proof. intros. unfold link_table. by apply mem_ok_wrn, mem_ok_memset. Qed.

(** Writing to pages that have an owner keeps the allocator's state. *)
Lemma represents_write a k m' :
  represents a k -> mem_ok m' ->
  (forall q x, q ∈ a_free a -> q <= x < q + 8 -> rd8 m' x = rd8 (mem k) x) ->
  represents a (k <| mem := m' |>).
Proof.
  intros [] Hm Hs. split; try done. kred. eapply free_list_frame; [done|].
  intros p Hp. apply rdn_ext. intros. apply (Hs p); [done|lia].
Qed.

Lemma vm_free_ok a t k p l :
  vm_ok a t k -> a_free a = p :: l -> page_ok p /\ (p ∉ pt_pages t) /\ a_ref a p = 0.
Proof.
  intros Hv E. destruct (represents_free_page _ _ _ _ (vo_rep _ _ _ Hv) E) as (_ & Hp & _).
  assert (a_ref a p = 0) by (apply (rep_free0 _ _ (vo_rep _ _ _ Hv)); rewrite E; by left).
  split; [done|]. split; [|done]. intros Hin. rewrite (vo_own _ _ _ Hv) in H by done. lia.
Qed.

(** A page with an owner is apart from the free ones. *)
Lemma owned_not_free a k q p : represents a k -> a_ref a p <> 0 -> q ∈ a_free a -> q <> p.
Proof. intros Hr Hp Hq ->. by rewrite (rep_free0 _ _ Hr) in Hp. Qed.

Lemma page_apart p q x : page_ok p -> page_ok q -> p <> q -> q <= x < q + PGSIZE -> ~ (p <= x < p + PGSIZE).
Proof. intros [? ?]%page_ok_range [? ?]%page_ok_range ? ?. destruct (page_disjoint p q); lia. Qed.

(** [kalloc] followed by linking the page into table [s]. *)
Definition linked (k : kernel) (p s i : Z) : kernel := k <| mem := link_table (mem k) p s i |>.

Lemma kalloc_link_represents a t k c p l s i :
  vm_ok a t k -> LKmem ∉ held c -> LRef ∉ held c -> LPr ∉ held c ->
  a_free a = p :: l -> s ∈ pt_pages t -> 0 <= i < 512 ->
  exists k', kalloc c k = Done p c k' /\
    represents (mkalloc l (upd_ref p 1 (a_ref a))) (linked k' p s i) /\ only_pages k (linked k' p s i) /\
    (forall q j, page_ok q -> q <> p -> 0 <= j < 512 -> rd64 (mem (linked k' p s i)) (pte_addr q j) =
      if decide (s = q /\ i = j) then table_pte (Some p) else rd64 (mem k) (pte_addr q j)) /\
    (forall j, 0 <= j < 512 -> rd64 (mem (linked k' p s i)) (pte_addr p j) = 0) /\
    (forall q x, page_ok q -> q <> p -> q <> s -> q <= x < q + PGSIZE ->
      rd8 (mem (linked k' p s i)) x = rd8 (mem k) x).
Proof.
  intros Hv H1 H2 H3 E Hs Hi. destruct (vm_free_ok _ _ _ _ _ Hv E) as (Hp & Hnt & Hz).
  pose proof (wf_page_ok _ _ _ (vo_wf _ _ _ Hv) Hs) as Hsok.
  destruct (kalloc_represents a k c) as (k' & Ek & Hr & Ho & Hm); [apply Hv|done..|].
  unfold spec_kalloc in *. rewrite E in *. simpl in *.
  assert (Hps : p <> s) by congruence.
  exists k'. split; [done|]. split; [|split; [|split; [|split]]].
  - apply represents_write; [done|apply link_mem_ok, Hr|].
    intros q x Hq Hx. simpl in Hq. destruct (represents_free_page _ _ _ _ (vo_rep _ _ _ Hv) E) as (_ & _ & Hl & Hn & _).
    pose proof (free_list_pages _ _ _ Hl) as Hok. rewrite Forall_forall in Hok. specialize (Hok q Hq).
    apply link_byte; [done|done|apply (page_apart p q); [done|done|by intros ->|lia]|].
    apply (page_apart s q); try done; [|lia]. apply not_eq_sym. eapply (owned_not_free a k q s); [apply Hv| |].
    + by rewrite (vo_own _ _ _ Hv) by done.
    + rewrite E. by apply list_elem_of_further.
  - eapply only_pages_trans; [done|]. unfold only_pages, linked. kdone.
  - intros q j Hq Hne Hj. unfold linked. kred. rewrite link_other by done. destruct (decide _); [done|].
    apply rdn_ext. intros x Hx. apply Hm. right. apply (page_apart p q); try done.
    pose proof (pte_addr_in q j Hq Hj). lia.
  - intros j Hj. unfold linked. kred. by apply link_new.
  - intros q x Hq Hne Hqs Hx. unfold linked. kred. rewrite link_byte; [|done..|by apply (page_apart p q)|by apply (page_apart s q)].
    apply Hm. right. by apply (page_apart p q).
Qed.

(** The frame of linking page [p] into table [s] of [t], giving [t']. *)
Lemma link_frame a t t' k k2 p l s :
  vm_ok a t k -> a_free a = p :: l -> s ∈ pt_pages t -> pt_sub t t' -> pt_pages t' ≡ₚ p :: pt_pages t ->
  only_pages k k2 ->
  (forall q x, page_ok q -> q <> p -> q <> s -> q <= x < q + PGSIZE -> rd8 (mem k2) x = rd8 (mem k) x) ->
  vm_frame a (mkalloc l (upd_ref p 1 (a_ref a))) t t' k k2.
Proof.
  intros Hv E Hs Hsub Hp Ho Hb. destruct (vm_free_ok _ _ _ _ _ Hv E) as (Hpo & Hnt & Hz).
  split; try done.
  - intros q Hq. rewrite Hp in Hq. apply elem_of_cons in Hq as [->|?]; auto.
  - intros q Hq Hne. apply upd_ref_ne. by intros ->.
  - intros q. cbn [a_ref]. destruct (decide (q = p)) as [->|Hne]; [|rewrite upd_ref_ne by done; by left].
    intros _. right. rewrite Hp. by left.
  - intros q x Hq Hne Hnq Hx. apply (Hb q); [done| | |done]; by intros ->.
Qed.

Lemma link_own a t t' k p l :
  vm_ok a t k -> a_free a = p :: l -> pt_pages t' ≡ₚ p :: pt_pages t ->
  (Forall page_ok (pt_pages t') /\ NoDup (pt_pages t')) /\
  forall q, q ∈ pt_pages t' -> upd_ref p 1 (a_ref a) q = 1.
Proof.
  intros Hv E Hp. destruct (vm_free_ok _ _ _ _ _ Hv E) as (Hpo & Hnt & Hz). split; [split|].
  - rewrite Hp. apply Forall_cons. split; [done|apply (vo_wf _ _ _ Hv)].
  - rewrite Hp. apply NoDup_cons. split; [done|apply (vo_wf _ _ _ Hv)].
  - intros q Hq. rewrite Hp in Hq. apply elem_of_cons in Hq as [->|Hq]; [apply upd_ref_eq|].
    rewrite upd_ref_ne by (by intros ->). by apply (vo_own _ _ _ Hv).
Qed.

Lemma add_mid_wf m m' t i p :
  pt_wf m t -> pt_mid t !! i = None -> 0 <= i < 256 -> p ∉ pt_pages t ->
  Forall page_ok (pt_pages (add_mid t i p)) -> NoDup (pt_pages (add_mid t i p)) ->
  (forall q j, page_ok q -> q <> p -> 0 <= j < 512 -> rd64 m' (pte_addr q j) =
     if decide (pt_root t = q /\ i = j) then table_pte (Some p) else rd64 m (pte_addr q j)) ->
  (forall j, 0 <= j < 512 -> rd64 m' (pte_addr p j) = 0) ->
  pt_wf m' (add_mid t i p) /\ forall va, pte_at m' (add_mid t i p) va = pte_at m t va.
Proof.
  intros Hw En Hi Hnt Hf Hnd Hoth Hnew. destruct (wf_distinct _ _ Hw) as (Hrm & Hrl & _).
  assert (Hne : forall q, q ∈ pt_pages t -> page_ok q /\ q <> p).
  { intros q Hq. split; [by eapply wf_page_ok|]. by intros ->. }
  split; [split; [done|done|..]; cbn [add_mid pt_root pt_mid pt_low]|].
  - intros j Hj. destruct (Hne _ (pt_root_in t)). rewrite Hoth by done. destruct (decide _) as [[_ ->]|Hd].
    + by rewrite lookup_insert_eq.
    + rewrite lookup_insert_ne by tauto. by apply (wf_root _ _ Hw).
  - intros j q Hq jj Hjj. apply lookup_insert_Some in Hq as [[-> ->]|[Hij Hq]].
    + rewrite Hnew by done. by rewrite (wf_low_none m).
    + destruct (Hne q (pt_mid_in _ _ _ Hq)) as [Hqo Hqp]. rewrite Hoth by done. rewrite decide_False.
      { by apply (wf_mid _ _ Hw). }
      intros [<- _]. by apply (Hrm j).
  - intros j q [[-> ->]|[Hij Hq]]%lookup_insert_Some; [done|]. by eapply wf_mid_dom.
  - intros j jj q Hq. destruct (wf_low_dom _ _ Hw _ _ _ Hq) as [Hs Hj]. split; [|done].
    destruct (decide (i = j)) as [->|]; [by rewrite lookup_insert_eq|by rewrite lookup_insert_ne].
  - intros va. change (pte_at m' (add_mid t i p) va) with (pte_at m' t va). apply pte_at_frame. intros q Hq.
    destruct (Hne q (pt_low_in _ _ _ Hq)) as [Hqo Hqp]. rewrite Hoth; [|done..|apply PX_range; lia].
    rewrite decide_False; [done|]. intros [<- _]. by apply (Hrl _ Hq).
Qed.

(** The number of free pages. *)
Definition nfree (a : alloc_spec) : Z := Z.of_nat (length (a_free a)).

Lemma nfree_nonneg a : 0 <= nfree a.
Proof. unfold nfree. lia. Qed.

Lemma nfree_nil a : a_free a = [] -> nfree a = 0.
Proof. unfold nfree. by intros ->. Qed.

Lemma nfree_take a p l g : a_free a = p :: l -> nfree a = nfree (mkalloc l g) + 1.
Proof. unfold nfree. intros ->. cbn [a_free length]. lia. Qed.

Lemma add_mid_ok a t k c p l i :
  vm_ok a t k -> LKmem ∉ held c -> LRef ∉ held c -> LPr ∉ held c ->
  a_free a = p :: l -> pt_mid t !! i = None -> 0 <= i < 256 ->
  exists k' a', kalloc c k = Done p c k' /\ nfree a = nfree a' + 1 /\ vm_ok a' (add_mid t i p) (linked k' p (pt_root t) i) /\
    vm_frame a a' t (add_mid t i p) k (linked k' p (pt_root t) i) /\
    forall va, pte_at (mem (linked k' p (pt_root t) i)) (add_mid t i p) va = pte_at (mem k) t va.
Proof.
  intros Hv H1 H2 H3 E En Hi. destruct (vm_free_ok _ _ _ _ _ Hv E) as (Hpo & Hnt & Hz).
  destruct (kalloc_link_represents a t k c p l (pt_root t) i Hv H1 H2 H3 E (pt_root_in t) ltac:(lia))
    as (k' & Ek & Hr & Ho & Hoth & Hnew & Hb).
  pose proof (add_mid_pages t i p En) as Hp.
  destruct (link_own a t _ k p l Hv E Hp) as [[Hf Hnd] Hown].
  destruct (add_mid_wf (mem k) (mem (linked k' p (pt_root t) i)) t i p (vo_wf _ _ _ Hv) En Hi Hnt Hf Hnd Hoth Hnew)
    as [Hw' Hpte].
  exists k', (mkalloc l (upd_ref p 1 (a_ref a))). split; [exact Ek|]. split; [by apply (nfree_take _ p)|].
  split; [split; try assumption; eapply complete_kalloc; [apply Hv|done|done]|].
  split; [|exact Hpte].
  apply (link_frame a t _ k _ p l (pt_root t) Hv E (pt_root_in t)); try assumption.
  split; [reflexivity|]. split; [by apply insert_subseteq|reflexivity].
Qed.

Lemma add_low_wf m m' t i j s p :
  pt_wf m t -> pt_mid t !! i = Some s -> pt_low t !! (i, j) = None -> 0 <= j < 512 -> p ∉ pt_pages t ->
  Forall page_ok (pt_pages (add_low t i j p)) -> NoDup (pt_pages (add_low t i j p)) ->
  (forall q jj, page_ok q -> q <> p -> 0 <= jj < 512 -> rd64 m' (pte_addr q jj) =
     if decide (s = q /\ j = jj) then table_pte (Some p) else rd64 m (pte_addr q jj)) ->
  (forall jj, 0 <= jj < 512 -> rd64 m' (pte_addr p jj) = 0) ->
  pt_wf m' (add_low t i j p) /\ forall va, pte_at m' (add_low t i j p) va = pte_at m t va.
Proof.
  intros Hw Es En Hj Hnt Hf Hnd Hoth Hnew. destruct (wf_distinct _ _ Hw) as (Hrm & _ & Hml & Hmi & _).
  assert (Hne : forall q, q ∈ pt_pages t -> page_ok q /\ q <> p).
  { intros q Hq. split; [by eapply wf_page_ok|]. by intros ->. }
  split; [split; [done|done|..]; cbn [add_low pt_root pt_mid pt_low]|].
  - intros jj Hjj. destruct (Hne _ (pt_root_in t)). rewrite Hoth by done. rewrite decide_False.
    { by apply (wf_root _ _ Hw). }
    intros [-> _]. by apply (Hrm i).
  - intros ii q Hq jj Hjj. destruct (Hne q (pt_mid_in _ _ _ Hq)) as [Hqo Hqp]. rewrite Hoth by done.
    destruct (decide _) as [[-> ->]|Hd].
    + rewrite (Hmi _ _ _ Es Hq). by rewrite lookup_insert_eq.
    + rewrite lookup_insert_ne; [by apply (wf_mid _ _ Hw)|]. intros [= -> ->]. apply Hd. split; congruence.
  - apply (wf_mid_dom _ _ Hw).
  - intros ii jj q [[[= -> ->] ->]|[Hij Hq]]%lookup_insert_Some; [by split; [exists s|]|]. by eapply wf_low_dom.
  - intros va. unfold pte_at. cbn [add_low pt_low]. destruct (decide ((i, j) = (PX 2 va, PX 1 va))) as [E|E].
    + rewrite <- E, lookup_insert_eq, En. apply Hnew, PX_range. lia.
    + rewrite lookup_insert_ne by done. destruct (pt_low t !! (PX 2 va, PX 1 va)) as [q|] eqn:Eq; [|done].
      destruct (Hne q (pt_low_in _ _ _ Eq)) as [Hqo Hqp]. rewrite Hoth; [|done..|apply PX_range; lia].
      rewrite decide_False; [done|]. intros [-> _]. by apply (Hml _ _ _ Es Eq).
Qed.

Lemma add_low_ok a t k c p l i j s :
  vm_ok a t k -> LKmem ∉ held c -> LRef ∉ held c -> LPr ∉ held c ->
  a_free a = p :: l -> pt_mid t !! i = Some s -> pt_low t !! (i, j) = None -> 0 <= j < 512 ->
  exists k' a', kalloc c k = Done p c k' /\ nfree a = nfree a' + 1 /\ vm_ok a' (add_low t i j p) (linked k' p s j) /\
    vm_frame a a' t (add_low t i j p) k (linked k' p s j) /\
    forall va, pte_at (mem (linked k' p s j)) (add_low t i j p) va = pte_at (mem k) t va.
Proof.
  intros Hv H1 H2 H3 E Es En Hj. destruct (vm_free_ok _ _ _ _ _ Hv E) as (Hpo & Hnt & Hz).
  destruct (kalloc_link_represents a t k c p l s j Hv H1 H2 H3 E (pt_mid_in _ _ _ Es) Hj)
    as (k' & Ek & Hr & Ho & Hoth & Hnew & Hb).
  pose proof (add_low_pages t i j p En) as Hp.
  destruct (link_own a t _ k p l Hv E Hp) as [[Hf Hnd] Hown].
  destruct (add_low_wf (mem k) (mem (linked k' p s j)) t i j s p (vo_wf _ _ _ Hv) Es En Hj Hnt Hf Hnd Hoth Hnew)
    as [Hw' Hpte].
  exists k', (mkalloc l (upd_ref p 1 (a_ref a))). split; [exact Ek|]. split; [by apply (nfree_take _ p)|].
  split; [split; try assumption; eapply complete_kalloc; [apply Hv|done|done]|].
  split; [|exact Hpte].
  apply (link_frame a t _ k _ p l s Hv E (pt_mid_in _ _ _ Es)); try assumption.
  split; [reflexivity|]. split; [reflexivity|by apply insert_subseteq].
Qed.

Lemma pt_sub_refl t : pt_sub t t.
Proof. done. Qed.
Lemma pt_sub_trans t1 t2 t3 : pt_sub t1 t2 -> pt_sub t2 t3 -> pt_sub t1 t3.
Proof. intros (? & ? & ?) (? & ? & ?). split; [congruence|]. split; by etrans. Qed.
Lemma pt_sub_pages t t' p : pt_sub t t' -> p ∈ pt_pages t -> p ∈ pt_pages t'.
Proof.
  intros (Hr & Hm & Hl) [->|[[i Hi]|[ij Hij]]]%pt_pages_inv.
  - rewrite Hr. apply pt_root_in.
  - eapply pt_mid_in, lookup_weaken; done.
  - eapply pt_low_in, lookup_weaken; done.
Qed.

Lemma vm_frame_refl a t k : vm_frame a a t t k k.
Proof. split; auto using pt_sub_refl, only_pages_refl. Qed.

Lemma vm_frame_trans a1 a2 a3 t1 t2 t3 k1 k2 k3 :
  Forall page_ok (pt_pages t3) ->
  vm_frame a1 a2 t1 t2 k1 k2 -> vm_frame a2 a3 t2 t3 k2 k3 -> vm_frame a1 a3 t1 t3 k1 k3.
Proof.
  intros Hok F1 F2. rewrite Forall_forall in Hok. split.
  - eapply pt_sub_trans; [apply F1|apply F2].
  - intros p Hp. destruct (vf_new _ _ _ _ _ _ F2 p Hp) as [Hin|Hz]; [by apply (vf_new _ _ _ _ _ _ F1)|].
    right. destruct (decide (a_ref a1 p = 0)); [done|].
    rewrite (vf_ref _ _ _ _ _ _ F1) in Hz; auto.
  - intros p Hp Hz. rewrite (vf_ref _ _ _ _ _ _ F2); [by apply (vf_ref _ _ _ _ _ _ F1)|done|].
    by rewrite (vf_ref _ _ _ _ _ _ F1).
  - intros p Hz. destruct (vf_acc _ _ _ _ _ _ F2 p Hz) as [Hz'|]; [|by right].
    destruct (vf_acc _ _ _ _ _ _ F1 p Hz') as [|Hin]; [by left|right]. eapply pt_sub_pages; [apply F2|done].
  - intros p x Hp Hz Hn Hx. rewrite (vf_mem _ _ _ _ _ _ F2 p x); [by apply (vf_mem _ _ _ _ _ _ F1 p)|done| | |done].
    + by rewrite (vf_ref _ _ _ _ _ _ F1).
    + intros Hin. by destruct (vf_new _ _ _ _ _ _ F1 p Hin).
  - eapply only_pages_trans; [apply F1|apply F2].
Qed.

(** [kalloc] when memory is exhausted. *)
Lemma kalloc_none_ok a t k c :
  vm_ok a t k -> LKmem ∉ held c -> LRef ∉ held c -> LPr ∉ held c -> a_free a = [] ->
  exists k', kalloc c k = Done 0 c k' /\ vm_ok a t k' /\ vm_frame a a t t k k' /\
    forall va, pte_at (mem k') t va = pte_at (mem k) t va.
Proof.
  intros Hv H1 H2 H3 E. destruct (kalloc_represents a k c (vo_rep _ _ _ Hv) H1 H2 H3) as (k' & Ek & Hr & Ho & Hm).
  unfold spec_kalloc in *. rewrite E in *. cbn [fst snd] in *.
  assert (Hrd : forall x, rd64 (mem k') x = rd64 (mem k) x) by (intros; apply rdn_ext; auto).
  exists k'. split; [exact Ek|]. split; [|split].
  - split; [done|apply Hv| |apply Hv]. eapply pt_wf_frame; [apply Hv|]. auto.
  - split; auto using pt_sub_refl.
  - intros va. by apply pte_at_frame.
Qed.

(** What [walk] with [alloc] does: it returns the entry of [va] in a page table that has
    the tables it needs and stands for the same function, or 0 when memory ran out.  It takes
    at most [n] pages, and [n] are always enough. *)
Definition walk_post (n : Z) (a : alloc_spec) (t : ptree) (c : cpu) (k : kernel) (va : Z) (o : outcome Z) : Prop :=
  exists a' t' k', o = Done (slot t' va) c k' /\ vm_ok a' t' k' /\ vm_frame a a' t t' k k' /\
    (forall va', pte_at (mem k') t' va' = pte_at (mem k) t va') /\
    nfree a <= nfree a' + n /\ (slot t' va = 0 -> a_free a' = [] /\ nfree a < n).

Lemma slot_some t va q : pt_low t !! (PX 2 va, PX 1 va) = Some q -> slot t va = pte_addr q (PX 0 va).
Proof. intros E. unfold slot. by rewrite E. Qed.

Lemma slot_nonzero m t va q : pt_wf m t -> pt_low t !! (PX 2 va, PX 1 va) = Some q -> slot t va <> 0.
Proof.
  intros Hw E. rewrite (slot_some _ _ _ E). destruct (page_ok_range q (wf_low_ok _ _ _ _ Hw E)).
  pose proof (PX_range 0 va). unfold pte_addr. lia.
Qed.

Lemma slot_none t va : pt_low t !! (PX 2 va, PX 1 va) = None -> slot t va = 0.
Proof. intros E. unfold slot. by rewrite E. Qed.

Lemma walk_alloc_1 a t k c va s :
  vm_ok a t k -> LKmem ∉ held c -> LRef ∉ held c -> LPr ∉ held c ->
  pt_mid t !! PX 2 va = Some s -> walk_post 1 a t c k va (walk_loop 1 s va true c k).
Proof.
  intros Hv H1 H2 H3 Es. destruct (pt_low t !! (PX 2 va, PX 1 va)) as [q|] eqn:Eq.
  - exists a, t, k. rewrite (slot_some _ _ _ Eq). split; [eapply walk_low; [apply Hv|done..]|].
    split; [done|]. split; [apply vm_frame_refl|]. split; [done|]. split; [lia|].
    pose proof (slot_nonzero _ _ _ _ (vo_wf _ _ _ Hv) Eq) as Hs. by rewrite (slot_some _ _ _ Eq) in Hs.
  - pose proof (PX_range 1 va ltac:(lia)) as Hj.
    rewrite walk_none by (by eapply wf_mid_none; [apply Hv|..]). cbn [negb]. change (Z.of_nat 1) with 1.
    destruct (a_free a) as [|p l] eqn:E.
    + destruct (kalloc_none_ok a t k c Hv H1 H2 H3 E) as (k' & Ek & Hv' & F & Hp).
      exists a, t, k'. erewrite bind_done by exact Ek. rewrite (slot_none _ _ Eq), (nfree_nil _ E). auto 10 with lia.
    + destruct (vm_free_ok _ _ _ _ _ Hv E) as ([Hpr _]%page_ok_range & _).
      destruct (add_low_ok a t k c p l (PX 2 va) (PX 1 va) s Hv H1 H2 H3 E Es Eq Hj) as (k' & a' & Ek & Hl & Hv' & F & Hp).
      exists a', (add_low t (PX 2 va) (PX 1 va) p), (linked k' p s (PX 1 va)).
      assert (Hs : pt_low (add_low t (PX 2 va) (PX 1 va) p) !! (PX 2 va, PX 1 va) = Some p) by apply lookup_insert_eq.
      split; [|split; [done|split; [done|split; [done|split; [lia|]]]]].
      * erewrite bind_done by exact Ek. destruct (Z.eqb_spec p 0); [lia|].
        erewrite bind_done by reflexivity. erewrite bind_done by reflexivity.
        rewrite (slot_some _ _ _ Hs). reflexivity.
      * intros Hz. by apply (slot_nonzero _ _ _ _ (vo_wf _ _ _ Hv') Hs) in Hz.
Qed.

Lemma walk_alloc a t k c va :
  vm_ok a t k -> LKmem ∉ held c -> LRef ∉ held c -> LPr ∉ held c -> 0 <= va < MAXVA ->
  walk_post 2 a t c k va (walk (pt_root t) va true c k).
Proof.
  intros Hv H1 H2 H3 Hva. unfold walk. destruct (Z.leb_spec MAXVA va); [lia|].
  pose proof (PX_range 2 va ltac:(lia)) as Hi.
  destruct (pt_mid t !! PX 2 va) as [s|] eqn:Es.
  - rewrite (walk_mid t va s) by (done || apply Hv).
    destruct (walk_alloc_1 a t k c va s Hv H1 H2 H3 Es) as (a2 & t2 & k2 & E2 & Hv2 & F2 & Hp2 & Hl2 & Hz2).
    exists a2, t2, k2. repeat (split; [done|]). split; [lia|]. intros Hs. destruct (Hz2 Hs). split; [done|lia].
  - rewrite walk_none by (by eapply wf_root_none; [apply Hv|..]). cbn [negb]. change (Z.of_nat 2) with 2.
    destruct (a_free a) as [|p l] eqn:E.
    + destruct (kalloc_none_ok a t k c Hv H1 H2 H3 E) as (k' & Ek & Hv' & F & Hp).
      exists a, t, k'. erewrite bind_done by exact Ek.
      rewrite (slot_none t va (wf_low_none _ _ _ _ (vo_wf _ _ _ Hv) Es)), (nfree_nil _ E). auto 10 with lia.
    + destruct (vm_free_ok _ _ _ _ _ Hv E) as ([Hpr _]%page_ok_range & _).
      destruct (add_mid_ok a t k c p l (PX 2 va) Hv H1 H2 H3 E Es (PX_root va Hva)) as (k' & a' & Ek & Hl & Hv' & F & Hp).
      destruct (walk_alloc_1 a' (add_mid t (PX 2 va) p) (linked k' p (pt_root t) (PX 2 va)) c va p Hv' H1 H2 H3)
        as (a2 & t2 & k2 & E2 & Hv2 & F2 & Hp2 & Hl2 & Hz2); [apply lookup_insert_eq|].
      exists a2, t2, k2. split; [|split; [done|split; [|split; [|split; [lia|intros Hs; destruct (Hz2 Hs); split; [done|lia]]]]]].
      * erewrite bind_done by exact Ek. destruct (Z.eqb_spec p 0); [lia|].
        erewrite bind_done by reflexivity. erewrite bind_done by reflexivity. exact E2.
      * eapply vm_frame_trans; [apply Hv2|exact F|exact F2].
      * intros va'. by rewrite Hp2, Hp.
Qed.

(** ** Reading and writing one entry *)

Lemma PX_page va va' :
  0 <= va < MAXVA -> 0 <= va' < MAXVA ->
  (PX 2 va = PX 2 va' /\ PX 1 va = PX 1 va' /\ PX 0 va = PX 0 va') <-> va / PGSIZE = va' / PGSIZE.
Proof.
  intros H H'. rewrite !PX_eq by lia.
  change (12 + 9 * 2) with 30. change (12 + 9 * 1) with 21. change (12 + 9 * 0) with 12. zlia.
Qed.

Lemma pte_at_page m t va va' :
  0 <= va < MAXVA -> 0 <= va' < MAXVA -> va / PGSIZE = va' / PGSIZE -> pte_at m t va = pte_at m t va'.
Proof.
  intros H H' E. apply PX_page in E as (E2 & E1 & E0); [|done..]. unfold pte_at. by rewrite E2, E1, E0.
Qed.

Lemma pte_at_range m t va : mem_ok m -> 0 <= pte_at m t va < 2 ^ 64.
Proof. intros. unfold pte_at. case_match; [|lia]. by apply (rdn_range 8). Qed.

Lemma slot_load t va c k : slot t va <> 0 -> load64 (slot t va) c k = Done (pte_at (mem k) t va) c k.
Proof. unfold slot, pte_at. intros Hs. case_match; done. Qed.

Lemma slot_inv t va : slot t va <> 0 -> exists q, pt_low t !! (PX 2 va, PX 1 va) = Some q /\ slot t va = pte_addr q (PX 0 va).
Proof. unfold slot. intros Hs. case_match; [eauto|done]. Qed.

Lemma pte_at_slot_0 m t va : slot t va = 0 -> pt_wf m t -> pte_at m t va = 0.
Proof.
  intros Hs Hw. destruct (pt_low t !! (PX 2 va, PX 1 va)) eqn:E; [by apply (slot_nonzero m t va) in E|].
  unfold pte_at. by rewrite E.
Qed.

(** Writing the entry of [va]. *)
Definition set_pte (t : ptree) (va v : Z) (k : kernel) : kernel := k <| mem ::= fun m => wr64 m (slot t va) v |>.

Lemma set_pte_entry t va v k q j :
  pt_wf (mem k) t -> slot t va <> 0 -> page_ok q -> 0 <= j < 512 ->
  rd64 (mem (set_pte t va v k)) (pte_addr q j) =
  if decide (pt_low t !! (PX 2 va, PX 1 va) = Some q /\ PX 0 va = j) then u64 v else rd64 (mem k) (pte_addr q j).
Proof.
  intros Hw Hs Hq Hj. destruct (slot_inv _ _ Hs) as (l & El & _). unfold set_pte. kred. rewrite (slot_some _ _ _ El).
  rewrite rd64_entry; [|by eapply wf_low_ok|done|apply PX_range; lia|done].
  rewrite El. apply decide_ext. split; [by intros [-> ->]|by intros [[= ->] ->]].
Qed.

Lemma set_pte_ok a t k va v :
  vm_ok a t k -> slot t va <> 0 ->
  vm_ok a t (set_pte t va v k) /\ vm_frame a a t t k (set_pte t va v k).
Proof.
  intros Hv Hs. pose proof (vo_wf _ _ _ Hv) as Hw. destruct (slot_inv _ _ Hs) as (l & El & Esl).
  destruct (wf_distinct _ _ Hw) as (_ & Hrl & Hml & _).
  pose proof (pte_addr_in l (PX 0 va) (wf_low_ok _ _ _ _ Hw El) (PX_range 0 va ltac:(lia))) as Hin.
  pose proof (vo_own _ _ _ Hv l (pt_low_in _ _ _ El)) as Ho.
  assert (Hb : forall q x, page_ok q -> q <> l -> q <= x < q + PGSIZE -> rd8 (mem (set_pte t va v k)) x = rd8 (mem k) x).
  { intros q x Hq Hne Hx. unfold set_pte. kred. rewrite Esl. apply rd8_wrn_out.
    pose proof (page_apart l q x (wf_low_ok _ _ _ _ Hw El) Hq ltac:(done) Hx). lia. }
  split; [split|split; auto using pt_sub_refl].
  - apply represents_write; [apply Hv|apply mem_ok_wrn, (vo_rep _ _ _ Hv)|]. intros q x Hq Hx. kred.
    pose proof (free_list_pages _ _ _ (rep_list _ _ (vo_rep _ _ _ Hv))) as Hok. rewrite Forall_forall in Hok.
    apply (Hb q x); [auto| |lia]. intros ->. rewrite (rep_free0 _ _ (vo_rep _ _ _ Hv)) in Ho by done. lia.
  - apply Hv.
  - eapply pt_wf_frame; [apply Hw|]. intros p i Hp Hi. rewrite set_pte_entry; [|done|done| |done].
    + rewrite decide_False; [done|]. rewrite El. intros [[= ->] _]. destruct Hp as [->|[j Hj]]; [by apply (Hrl _ El)|].
      by apply (Hml _ _ _ Hj El).
    + destruct Hp as [->|[j Hj]]; [eapply wf_page_ok; [done|apply pt_root_in]|by eapply wf_mid_ok].
  - apply Hv.
  - intros p x Hp _ Hn Hx. apply (Hb p x); [done| |done]. intros ->. apply Hn. by eapply pt_low_in.
  - unfold only_pages, set_pte. kdone.
Qed.

Lemma set_pte_at t va v k va' :
  pt_wf (mem k) t -> slot t va <> 0 -> 0 <= va < MAXVA -> 0 <= va' < MAXVA ->
  pte_at (mem (set_pte t va v k)) t va' =
  if decide (va' / PGSIZE = va / PGSIZE) then u64 v else pte_at (mem k) t va'.
Proof.
  intros Hw Hs Hva Hva'. destruct (slot_inv _ _ Hs) as (l & El & Esl).
  destruct (wf_distinct _ _ Hw) as (_ & _ & _ & _ & Hli).
  destruct (decide _) as [E|E].
  - apply PX_page in E as (E2 & E1 & E0); [|done..]. unfold pte_at. rewrite E2, E1, E0, El.
    rewrite set_pte_entry; [|done|done|by eapply wf_low_ok|apply PX_range; lia]. by rewrite decide_True.
  - unfold pte_at. destruct (pt_low t !! (PX 2 va', PX 1 va')) as [q|] eqn:Eq; [|done].
    rewrite set_pte_entry; [|done|done|by eapply wf_low_ok|apply PX_range; lia].
    rewrite decide_False; [done|]. intros [Eq' E0]. pose proof (Hli _ _ _ Eq Eq') as [= E2 E1].
    apply E, PX_page; auto.
Qed.

(** ** [mappages] *)

Definition leaf_pte (pa perm : Z) : Z := Z.lor (Z.lor (PA2PTE pa) perm) PTE_V.

Lemma perm_v_range perm : 0 <= perm < 1024 -> 0 <= Z.lor perm PTE_V < 1024.
Proof. intros. apply (lor_range _ _ 10); [lia|done|done]. Qed.

Lemma leaf_pte_eq pa perm : leaf_pte pa perm = Z.lor (PA2PTE pa) (Z.lor perm PTE_V).
Proof. symmetry. apply Z.lor_assoc. Qed.

Lemma leaf_pte_range pa perm : 0 <= pa < 2 ^ 56 -> 0 <= perm < 1024 -> 0 <= leaf_pte pa perm < 2 ^ 64.
Proof. intros. pose proof (perm_v_range perm). rewrite leaf_pte_eq, PTE_make_eq by lia. zlia. Qed.

Lemma leaf_pte_pa pa perm : 0 <= pa < 2 ^ 56 -> pa mod PGSIZE = 0 -> 0 <= perm < 1024 -> PTE2PA (leaf_pte pa perm) = pa.
Proof. intros. pose proof (perm_v_range perm). rewrite leaf_pte_eq. apply PTE2PA_make; lia. Qed.

Lemma leaf_pte_flags pa perm : 0 <= pa < 2 ^ 56 -> 0 <= perm < 1024 -> PTE_FLAGS (leaf_pte pa perm) = Z.lor perm PTE_V.
Proof. intros. pose proof (perm_v_range perm). rewrite leaf_pte_eq. apply PTE_FLAGS_make; lia. Qed.

Lemma leaf_pte_flag pa perm f :
  0 <= pa < 2 ^ 56 -> 0 <= perm < 1024 -> 0 <= f < 1024 -> flag (leaf_pte pa perm) f = flag (Z.lor perm PTE_V) f.
Proof. intros. pose proof (perm_v_range perm). rewrite leaf_pte_eq. apply flag_make; lia. Qed.

Lemma flag_lor x y f : flag (Z.lor x y) f = flag x f || flag y f.
Proof.
  unfold flag. rewrite Z.land_lor_distr_l. destruct (Z.eqb_spec (Z.lor (Z.land x f) (Z.land y f)) 0) as [E|E].
  - by apply Z.lor_eq_0_iff in E as [-> ->].
  - destruct (Z.eqb_spec (Z.land x f) 0) as [E1|]; [|done].
    destruct (Z.eqb_spec (Z.land y f) 0) as [E2|]; [|done]. by rewrite E1, E2 in E.
Qed.

(** The function after mapping [n] pages from [va] on to those from [pa] on. *)
Definition mapped (old : Z -> Z) (va pa perm n : Z) (va' : Z) : Z :=
  if decide (va <= va' < va + n * PGSIZE) then leaf_pte (pa + (va' - va) / PGSIZE * PGSIZE) perm else old va'.

Lemma mapped_cons old va pa perm n va' :
  va mod PGSIZE = 0 -> 0 <= n ->
  mapped (fun v => if decide (v / PGSIZE = va / PGSIZE) then leaf_pte pa perm else old v)
    (va + PGSIZE) (pa + PGSIZE) perm n va' = mapped old va pa perm (n + 1) va'.
Proof.
  intros Ha Hn. unfold mapped.
  destruct (decide (va + PGSIZE <= va' < _)), (decide (va <= va' < _)); try lia.
  - f_equal. zlia.
  - destruct (decide _); [|zlia]. f_equal. zlia.
  - destruct (decide _); [zlia|done].
Qed.

(** Entries below MAXVA are those [f] gives. *)
Definition pt_is (k : kernel) (t : ptree) (f : Z -> Z) : Prop :=
  forall va, 0 <= va < MAXVA -> pte_at (mem k) t va = f va.

Lemma mappages_loop_ok n pa perm c a t k va f :
  vm_ok a t k -> LKmem ∉ held c -> LRef ∉ held c -> LPr ∉ held c -> pt_is k t f ->
  (0 < n)%nat -> va mod PGSIZE = 0 -> 0 <= va -> va + Z.of_nat n * PGSIZE <= MAXVA ->
  0 <= pa -> pa + Z.of_nat n * PGSIZE <= 2 ^ 56 -> 0 <= perm < 1024 ->
  (forall va', va <= va' < va + Z.of_nat n * PGSIZE -> flag (f va') PTE_V = false) ->
  exists a' t' k' r j, mappages_loop n (pt_root t) va (u64 (va + Z.of_nat n * PGSIZE - PGSIZE)) pa perm c k = Done r c k' /\
    vm_ok a' t' k' /\ vm_frame a a' t t' k k' /\ pt_is k' t' (mapped f va pa perm j) /\
    nfree a <= nfree a' + 2 * Z.of_nat n /\
    ((r = 0 /\ j = Z.of_nat n) \/ (r = -1 /\ 0 <= j < Z.of_nat n /\ a_free a' = [] /\ nfree a < 2 * Z.of_nat n)).
Proof.
  intros Hv H1 H2 H3. revert pa a t k va f Hv. induction n as [|n IH]; [lia|].
  intros pa a t k va f Hv Hf Hn Ha Hva Hmax Hpa Hpmax Hperm Hinv.
  destruct (walk_alloc a t k c va Hv H1 H2 H3 ltac:(lia)) as (a1 & t1 & k1 & E1 & Hv1 & F1 & Hp1 & Hl1 & Hz1).
  assert (Hf1 : pt_is k1 t1 f) by (intros v Hvr; rewrite Hp1; auto).
  cbn [mappages_loop]. erewrite bind_done by exact E1. destruct (Z.eqb_spec (slot t1 va) 0) as [Hs|Hs].
  { destruct (Hz1 Hs). exists a1, t1, k1, (-1), 0. split; [done|]. split; [done|]. split; [done|]. split; [|split; [lia|right; auto with lia]].
    intros v Hvr. unfold mapped. rewrite decide_False by lia. auto. }
  erewrite bind_done by (by apply slot_load).
  rewrite Hf1, Hinv by lia. erewrite bind_done by reflexivity.
  destruct (set_pte_ok a1 t1 k1 va (leaf_pte pa perm) Hv1 Hs) as [Hv2 F2].
  pose proof (leaf_pte_range pa perm ltac:(lia) Hperm) as Hlr.
  assert (Hf2 : pt_is (set_pte t1 va (leaf_pte pa perm) k1) t1
    (fun v => if decide (v / PGSIZE = va / PGSIZE) then leaf_pte pa perm else f v)).
  { intros v Hvr. rewrite set_pte_at; [|apply Hv1|lia..]. rewrite u64_small by lia. destruct (decide _); auto. }
  assert (F12 : vm_frame a a1 t t1 k (set_pte t1 va (leaf_pte pa perm) k1)).
  { eapply vm_frame_trans; [apply (vo_wf _ _ _ Hv2)|exact F1|exact F2]. }
  destruct (Z.eqb_spec va (u64 (va + Z.of_nat (S n) * PGSIZE - PGSIZE))) as [El|El].
  - rewrite u64_small in El by lia. assert (n = 0%nat) as -> by lia.
    exists a1, t1, (set_pte t1 va (leaf_pte pa perm) k1), 0, 1. split; [reflexivity|]. split; [done|]. split; [done|].
    split; [|split; [lia|left; lia]]. intros v Hvr. rewrite Hf2 by done. unfold mapped.
    destruct (decide (v / PGSIZE = va / PGSIZE)), (decide (va <= v < _)); try done; try zlia. f_equal. zlia.
  - rewrite u64_small in El by lia. rewrite !(u64_small (_ + PGSIZE)) by lia.
    destruct (IH (pa + PGSIZE) _ _ _ (va + PGSIZE) _ Hv2 Hf2) as (a' & t' & k' & r & j & E' & Hv' & F' & Hf' & Hl & Hr);
      [lia|zlia|lia..| |].
    { intros v Hvr. destruct (decide _); [zlia|]. apply Hinv. lia. }
    assert (Hj : 0 <= j) by lia.
    exists a', t', k', r, (j + 1). split; [|split; [done|split; [|split; [|split; [lia|]]]]].
    + rewrite <- E'. f_equal; [apply F1|]. f_equal. lia.
    + eapply vm_frame_trans; [apply (vo_wf _ _ _ Hv')|exact F12|exact F'].
    + intros v Hvr. rewrite Hf' by done. by apply mapped_cons.
    + destruct Hr as [[-> ->]|(-> & ? & ? & ?)]; [left|right]; repeat split; try done; lia.
Qed.

Lemma mappages_ok n pa perm c a t k va f :
  vm_ok a t k -> LKmem ∉ held c -> LRef ∉ held c -> LPr ∉ held c -> pt_is k t f ->
  0 < n -> va mod PGSIZE = 0 -> 0 <= va -> va + n * PGSIZE <= MAXVA ->
  0 <= pa -> pa + n * PGSIZE <= 2 ^ 56 -> 0 <= perm < 1024 ->
  (forall va', va <= va' < va + n * PGSIZE -> flag (f va') PTE_V = false) ->
  exists a' t' k' r j, mappages (pt_root t) va (n * PGSIZE) pa perm c k = Done r c k' /\
    vm_ok a' t' k' /\ vm_frame a a' t t' k k' /\ pt_is k' t' (mapped f va pa perm j) /\
    nfree a <= nfree a' + 2 * n /\
    ((r = 0 /\ j = n) \/ (r = -1 /\ 0 <= j < n /\ a_free a' = [] /\ nfree a < 2 * n)).
Proof.
  intros Hv H1 H2 H3 Hf Hn Ha Hva Hmax Hpa Hpmax Hperm Hinv. unfold mappages. rewrite Ha.
  rewrite Z.mod_mul, Z.div_mul by lia. destruct (Z.eqb_spec (n * PGSIZE) 0); [lia|]. cbn [Z.eqb negb].
  destruct (mappages_loop_ok (Z.to_nat n) pa perm c a t k va f) as (a' & t' & k' & r & j & E & Hrest);
    rewrite ?Z2Nat.id by lia; try done; try lia.
  exists a', t', k', r, j. rewrite Z2Nat.id in E, Hrest by lia. done.
Qed.

(** A page of the range that has an entry already is an error of the caller. *)
Lemma mappages_remap pa perm c a t k va n f :
  vm_ok a t k -> LKmem ∉ held c -> LRef ∉ held c -> LPr ∉ held c -> pt_is k t f ->
  0 < n -> va mod PGSIZE = 0 -> 0 <= va < MAXVA -> flag (f va) PTE_V = true ->
  exists k', mappages (pt_root t) va (n * PGSIZE) pa perm c k = Panicked "mappages: remap" c k'.
Proof.
  intros Hv H1 H2 H3 Hf Hn Ha Hva Hinv. unfold mappages. rewrite Ha.
  rewrite Z.mod_mul, Z.div_mul by lia. destruct (Z.eqb_spec (n * PGSIZE) 0); [lia|]. cbn [Z.eqb negb].
  destruct (Z.to_nat n) as [|n'] eqn:En; [lia|]. cbn [mappages_loop].
  destruct (walk_alloc a t k c va Hv H1 H2 H3 Hva) as (a1 & t1 & k1 & E1 & Hv1 & F1 & Hp1 & Hz1).
  erewrite bind_done by exact E1. rewrite <- Hf, <- Hp1 in Hinv by done.
  destruct (Z.eqb_spec (slot t1 va) 0) as [Hs|Hs].
  { by rewrite (pte_at_slot_0 _ _ _ Hs (vo_wf _ _ _ Hv1)) in Hinv. }
  erewrite bind_done by (by apply slot_load). rewrite Hinv. by exists k1.
Qed.

End vm_lemmas.

#[global] Opaque walk mappages.
