(* ===== verification/Frame.v ===== *)
(** * What memory management leaves alone

    The kernel code that handles pages, page tables and user memory never
    gives up the CPU, gives back every lock it takes, and changes only
    physical memory, the allocator's variables and the console output.  The
    other components (pipes, files, processes) use this frame for the calls
    they make to [vm.c] and [kalloc.c]. *)

From S2P Require Import Prelude Riscv CString Kernel Printf Kalloc Vm.
From stdpp Require Import base numbers strings gmap list.
From Stdlib Require Import ZArith Lia.

#[local] Open Scope Z_scope.
#[local] Open Scope kernel_scope.

(** The part of the kernel state that memory management may change, blanked out. *)
Definition vmrest (k : kernel) : kernel :=
  k <| mem := ∅ |> <| freelist := 0 |> <| free_pages_count := 0 |> <| ref_counts := ∅ |> <| uart := [] |>.

(** [quiet p m q]: entered with the locks [p] on top of those of the caller,
    [m] does not give up the CPU, and if it returns it holds [q] instead and
    has changed only memory management's part of the state. *)
Definition quiet {A} (p : list lockid) (m : M A) (q : list lockid) : Prop :=
  forall c k h, held c = p ++ h -> NoDup (held c) ->
  match m c k with
  | Done _ c' k' => c' = c <| held := q ++ h |> /\ NoDup (q ++ h) /\ vmrest k' = vmrest k
  | Switch _ _ _ => False
  | _ => True
  end.

Create HintDb quiet.

Lemma quiet_bind {A B} p q r (m : M A) (f : A -> M B) : quiet p m q -> (forall a, quiet q (f a) r) -> quiet p (bind m f) r.
Proof.
  intros Hm Hf c k h Hh Hn. specialize (Hm c k h Hh Hn). unfold bind. destruct (m c k) as [a c1 k1| | |]; try done.
  destruct Hm as (->&Hn1&E1). specialize (Hf a (c <| held := q ++ h |>) k1 h eq_refl Hn1). cbn [continue].
  destruct (f a _ k1) as [b c2 k2| | |]; try done. destruct Hf as (->&Hn2&E2). split; [by destruct c|]. by rewrite E2.
Qed.

Lemma quiet_ret {A} p (a : A) : quiet p (ret a) p.
Proof. intros c k h Hh Hn. cbn. rewrite <- Hh. by destruct c. Qed.
Lemma quiet_gets {A} p (f : kernel -> A) : quiet p (gets f) p.
Proof. intros c k h Hh Hn. cbn. rewrite <- Hh. by destruct c. Qed.
Lemma quiet_panic {A} p q msg : quiet p (panic msg : M A) q.
Proof. done. Qed.
Lemma quiet_stuck {A} p q why : quiet p (stuck why : M A) q.
Proof. done. Qed.
Lemma quiet_modify p f : (forall k, vmrest (f k) = vmrest k) -> quiet p (modify f) p.
Proof. intros Hf c k h Hh Hn. cbn. rewrite <- Hh. by destruct c. Qed.
Lemma quiet_when p b m : quiet p m p -> quiet p (when b m) p.
Proof. destruct b; [done|]. intros _. apply quiet_ret. Qed.
Lemma quiet_deref {A} p (o : option A) : quiet p (deref o) p.
Proof. destruct o; [apply quiet_ret|apply quiet_stuck]. Qed.

Lemma quiet_acquire p lk : quiet p (acquire lk) (lk :: p).
Proof.
  intros c k h Hh Hn. unfold acquire. case_decide as E; [done|]. rewrite Hh in *. split; [done|]. split; [|done].
  cbn. by apply NoDup_cons.
Qed.

Lemma quiet_release p lk : quiet (lk :: p) (release lk) p.
Proof.
  intros c k h Hh Hn. unfold release. rewrite Hh in Hn. cbn in Hn. apply NoDup_cons in Hn as [Hl Hn]. rewrite Hh. cbn [app].
  rewrite decide_True by apply list_elem_of_here. split; [|done]. rewrite filter_cons_False by tauto. by rewrite filter_ne_notin.
Qed.

Lemma quiet_myproc p : quiet p myproc p.
Proof. intros c k h Hh Hn. cbn. rewrite <- Hh. by destruct c. Qed.

Lemma quiet_consputs p cs : quiet p (consputs cs) p.
Proof. intros c k h Hh Hn. rewrite consputs_done. rewrite <- Hh. by destruct c. Qed.

#[export] Hint Resolve quiet_ret quiet_gets quiet_panic quiet_stuck quiet_when quiet_deref quiet_acquire quiet_release
  quiet_myproc quiet_consputs : quiet.

(** Follows the control flow; calls are left to the database. *)
Ltac quiet_step :=
  match goal with
  | |- forall _, _ => intro
  | |- quiet _ (let _ := _ in _) _ => cbv zeta
  | |- quiet _ (bind _ _) _ => eapply quiet_bind
  | |- quiet _ (modify _) _ => apply quiet_modify; reflexivity
  | |- quiet _ (when _ _) _ => apply quiet_when
  | |- quiet _ (match ?x with _ => _ end) _ => destruct x
  | |- quiet _ _ _ => solve [auto with quiet]
  end.
Ltac quiet := repeat quiet_step.

#[local] Transparent walk mappages.

Section Calls.
Context {LK : Linker}.

Lemma quiet_printf p fmt ap : quiet p (printf fmt ap) p.
Proof. unfold printf. quiet. Qed.
#[local] Hint Resolve quiet_printf : quiet.

Lemma quiet_ref_get p i : quiet p (ref_get i) p.
Proof. unfold ref_get. quiet. Qed.
Lemma quiet_ref_set p i v : quiet p (ref_set i v) p.
Proof. unfold ref_set. quiet. Qed.
#[local] Hint Resolve quiet_ref_get quiet_ref_set : quiet.

Lemma quiet_load64 p a : quiet p (load64 a) p.
Proof. apply quiet_gets. Qed.
Lemma quiet_store64 p a v : quiet p (store64 a v) p.
Proof. unfold store64. quiet. Qed.
Lemma quiet_kmemset p a v n : quiet p (kmemset a v n) p.
Proof. unfold kmemset. quiet. Qed.
Lemma quiet_kmemmove p d s n : quiet p (kmemmove d s n) p.
Proof. unfold kmemmove. quiet. Qed.
#[local] Hint Resolve quiet_load64 quiet_store64 quiet_kmemset quiet_kmemmove : quiet.

Lemma quiet_kfree p a : quiet p (kfree a) p.
Proof. unfold kfree, kref_dec. quiet. Qed.
Lemma quiet_kalloc p : quiet p kalloc p.
Proof. unfold kalloc. quiet. Qed.
#[local] Hint Resolve quiet_kfree quiet_kalloc : quiet.

Lemma quiet_walk p t va al : quiet p (walk t va al) p.
Proof.
  unfold walk. destruct (_ <=? _); [quiet|]. revert t. generalize 2%nat. intros n. induction n as [|n IH]; intros t; cbn [walk_loop]; quiet.
Qed.
#[local] Hint Resolve quiet_walk : quiet.

Lemma quiet_walkaddr p t va : quiet p (walkaddr t va) p.
Proof. unfold walkaddr. quiet. Qed.
Lemma quiet_ismapped p t va : quiet p (ismapped t va) p.
Proof. unfold ismapped. quiet. Qed.
Lemma quiet_mappages p t va sz pa perm : quiet p (mappages t va sz pa perm) p.
Proof.
  unfold mappages. do 3 (destruct (_ : bool); [quiet|]). generalize (Z.to_nat (sz / PGSIZE)), (u64 (va + sz - PGSIZE)). intros n l.
  revert va pa. induction n as [|n IH]; intros va pa; cbn [mappages_loop]; quiet.
Qed.
#[local] Opaque walk mappages.
#[local] Hint Resolve quiet_walkaddr quiet_ismapped quiet_mappages : quiet.

Lemma quiet_curproc p : quiet p curproc p.
Proof. unfold curproc. quiet. Qed.
Lemma quiet_getproc p i : quiet p (getproc i) p.
Proof. unfold getproc. quiet. Qed.
#[local] Hint Resolve quiet_curproc quiet_getproc : quiet.

Lemma quiet_vmfault p t va rd : quiet p (vmfault t va rd) p.
Proof. unfold vmfault. quiet. Qed.
#[local] Hint Resolve quiet_vmfault : quiet.

Lemma quiet_loadp p a : quiet p (loadp a) p.
Proof. unfold loadp. quiet. Qed.
Lemma quiet_kwrbytes p a bs : quiet p (kwrbytes a bs) p.
Proof. unfold kwrbytes. quiet. Qed.
#[local] Hint Resolve quiet_loadp quiet_kwrbytes : quiet.

Lemma quiet_copyout p t va src len : quiet p (copyout t va src len) p.
Proof.
  unfold copyout. generalize (S (S (Z.to_nat (len / PGSIZE + 1)))). intros n. revert va src len.
  induction n as [|n IH]; intros va src len; cbn [copyout_loop]; quiet.
Qed.
Lemma quiet_copyin p t va len : quiet p (copyin t va len) p.
Proof.
  unfold copyin. generalize (S (S (Z.to_nat (len / PGSIZE + 1)))), (@nil Z). intros n. revert va len.
  induction n as [|n IH]; intros va len dst; cbn [copyin_loop]; quiet.
Qed.

End Calls.
#[export] Hint Resolve quiet_printf quiet_kfree quiet_kalloc quiet_walk quiet_copyout quiet_copyin quiet_curproc quiet_getproc : quiet.

(** A quiet call in code that runs under interference. *)
Lemma quiet_safe {A} (m : M A) I E (Q : A -> cpu -> kernel -> Prop) c k :
  quiet [] m [] -> NoDup (held c) -> (forall msg, E msg) -> (forall a k', vmrest k' = vmrest k -> Q a c k') -> safe I E Q (m c k).
Proof.
  intros Hm Hn HE HQ. specialize (Hm c k (held c) eq_refl Hn). destruct (m c k) as [a c' k'| | |]; cbn; try done.
  destruct Hm as (->&_&E'). destruct c. by apply HQ.
Qed.
