(* ===== verification/UserMem.v ===== *)
(** * User memory: the effect of the [uvm*] and [copy*] operations of [vm.c]

    What each operation does to the function from virtual pages to entries, to
    the bytes a process sees, and to the pages of everyone else. *)

From S2P Require Import Prelude Riscv CString Kernel Printf Kalloc Vm.
From stdpp Require Import base numbers strings gmap list.
From Stdlib Require Import ZArith Lia.

#[local] Open Scope Z_scope.
#[local] Open Scope kernel_scope.

Section usermem_spec.
Context {LK : Linker}.

(** The valid entries below [sz] give distinct pages with one owner, none of
    them a page table. *)
Record um_ok (a : alloc_spec) (t : ptree) (f : Z -> Z) (sz : Z) : Prop := {
  um_page : forall va, 0 <= va < sz -> flag (f va) PTE_V = true -> page_ok (PTE2PA (f va));
  um_ref : forall va, 0 <= va < sz -> flag (f va) PTE_V = true -> a_ref a (PTE2PA (f va)) = 1;
  um_table : forall va, 0 <= va < sz -> flag (f va) PTE_V = true -> PTE2PA (f va) ∉ pt_pages t;
  um_inj : forall va va', 0 <= va < sz -> 0 <= va' < sz -> flag (f va) PTE_V = true -> flag (f va') PTE_V = true ->
    PTE2PA (f va) = PTE2PA (f va') -> va / PGSIZE = va' / PGSIZE
}.

(** The pages in [P] keep their contents and count; nothing but memory, the
    allocator and the console changes. *)
Record keeps (P : Z -> Prop) (a a' : alloc_spec) (k k' : kernel) : Prop := {
  kp_ref : forall p, page_ok p -> P p -> a_ref a' p = a_ref a p;
  kp_mem : forall p x, page_ok p -> P p -> p <= x < p + PGSIZE -> rd8 (mem k') x = rd8 (mem k) x;
  kp_kernel : only_pages k k'
}.

(** [p] has an owner, is not a table of [t], and is not mapped between [va] and [stop]. *)
Definition outside (a : alloc_spec) (t : ptree) (f : Z -> Z) (va stop p : Z) : Prop :=
  a_ref a p <> 0 /\ (p ∉ pt_pages t) /\
  forall v, va <= v < stop -> flag (f v) PTE_V = true -> PTE2PA (f v) <> p.

(** The function after removing the entries from [va] up to [stop]. *)
Definition unmapped (f : Z -> Z) (va stop : Z) (v : Z) : Z :=
  if decide (va <= v < stop) then (if flag (f v) PTE_V then 0 else f v) else f v.

End usermem_spec.

Section unmap.
Context {LK : Linker} {LKO : LinkerOk}.
Context (c : cpu) (HK : LKmem ∉ held c) (HR : LRef ∉ held c) (HP : LPr ∉ held c).
Implicit Types (k : kernel) (m : memory) (t : ptree).

Lemma keeps_refl P a k : keeps P a a k k.
Proof. split; auto using only_pages_refl. Qed.

Lemma keeps_trans (P Q : Z -> Prop) a1 a2 a3 k1 k2 k3 :
  keeps P a1 a2 k1 k2 -> keeps Q a2 a3 k2 k3 ->
  (forall p, page_ok p -> P p -> a_ref a2 p = a_ref a1 p -> Q p) -> keeps P a1 a3 k1 k3.
Proof.
  intros K1 K2 HQ.
  assert (HQ' : forall p, page_ok p -> P p -> Q p) by (intros; apply HQ; [done..|by apply (kp_ref _ _ _ _ _ K1)]).
  split.
  - intros p Hp HPp. rewrite (kp_ref _ _ _ _ _ K2) by auto. by apply (kp_ref _ _ _ _ _ K1).
  - intros p x Hp HPp Hx. rewrite (kp_mem _ _ _ _ _ K2 p) by auto. by apply (kp_mem _ _ _ _ _ K1 p).
  - eapply only_pages_trans; [apply K1|apply K2].
Qed.

Lemma keeps_weaken (P Q : Z -> Prop) a a' k k' : (forall p, Q p -> P p) -> keeps P a a' k k' -> keeps Q a a' k k'.
Proof.
  intros HQ [K1 K2 K3]. split; [|intros p x Hp Hq Hx|done].
  - intros p Hp Hq. apply K1; auto.
  - apply (K2 p); auto.
Qed.

Lemma vm_frame_keeps a a' t t' k k' :
  vm_frame a a' t t' k k' -> keeps (fun p => a_ref a p <> 0 /\ p ∉ pt_pages t) a a' k k'.
Proof.
  intros F. split; [|intros p x Hp [Hz Hn] Hx|apply F].
  - intros p Hp [Hz Hn]. by apply (vf_ref _ _ _ _ _ _ F).
  - by apply (vf_mem _ _ _ _ _ _ F p).
Qed.

(** [kfree] of a page with one owner that is not a table. *)
Lemma kfree_ok a t k p f :
  vm_ok a t k -> pt_is k t f -> page_ok p -> a_ref a p = 1 -> p ∉ pt_pages t ->
  exists k', kfree p c k = Done tt c k' /\ vm_ok (spec_kfree p a) t k' /\ pt_is k' t f /\
    keeps (fun q => q <> p) a (spec_kfree p a) k k' /\ a_free (spec_kfree p a) = p :: a_free a.
Proof.
  intros Hv Hf Hp H1 Hn. destruct (kfree_represents a k c p) as (k' & E & Hr & Ho & Hm); [apply Hv|done..|lia|].
  assert (Hrd : forall q i, q ∈ pt_pages t -> 0 <= i < 512 -> rd64 (mem k') (pte_addr q i) = rd64 (mem k) (pte_addr q i)).
  { intros q i Hq Hi. apply rdn_ext. intros x Hx. apply Hm. pose proof (wf_page_ok _ _ _ (vo_wf _ _ _ Hv) Hq) as Hqo.
    apply (page_apart p q); [done|done|congruence|]. pose proof (pte_addr_in q i Hqo Hi). lia. }
  exists k'. split; [done|]. split; [|split; [|split]].
  - split; [done|by apply complete_kfree; [apply Hv|]| |].
    + eapply pt_wf_frame; [apply Hv|]. intros q i Hq Hi. apply Hrd; [|done].
      destruct Hq as [->|[j Hj]]; [apply pt_root_in|by eapply pt_mid_in].
    + intros q Hq. unfold spec_kfree. cbn [a_ref]. rewrite upd_ref_ne by congruence. by apply (vo_own _ _ _ Hv).
  - intros va Hva. rewrite <- Hf by done. apply pte_at_frame. intros q Hq. apply Hrd; [by eapply pt_low_in|].
    apply PX_range; lia.
  - split; [|intros q x Hq Hne Hx|done].
    + intros q Hq Hne. unfold spec_kfree. cbn [a_ref]. by apply upd_ref_ne.
    + apply Hm. apply (page_apart p q); [done|done|congruence|done].
  - unfold spec_kfree. rewrite H1. done.
Qed.

Lemma pt_is_page k t f v v' :
  pt_is k t f -> 0 <= v < MAXVA -> 0 <= v' < MAXVA -> v / PGSIZE = v' / PGSIZE -> f v = f v'.
Proof. intros Hf Hv Hv' E. rewrite <- !Hf by done. by apply pte_at_page. Qed.

Lemma pt_is_ext k t f g : pt_is k t f -> (forall v, 0 <= v < MAXVA -> f v = g v) -> pt_is k t g.
Proof. intros Hf E v Hv. rewrite Hf by done. auto. Qed.

(** An entry that is not valid is left alone. *)
Lemma uvmunmap_page_invalid t k va f do_free :
  pt_wf (mem k) t -> pt_is k t f -> 0 <= va < MAXVA -> flag (f va) PTE_V = false ->
  uvmunmap_page (pt_root t) va do_free c k = Done tt c k.
Proof.
  intros Hw Hf Hva Hnv. unfold uvmunmap_page. erewrite bind_done by (by apply walk_lookup).
  destruct (Z.eqb_spec (slot t va) 0) as [|Hs]; [done|].
  erewrite bind_done by (by apply slot_load). by rewrite Hf, Hnv.
Qed.

(** A valid one is cleared; with [do_free] its page is freed. *)
Lemma set_pte_0_is t k va f :
  pt_wf (mem k) t -> pt_is k t f -> slot t va <> 0 -> 0 <= va < MAXVA -> va mod PGSIZE = 0 ->
  flag (f va) PTE_V = true -> pt_is (set_pte t va 0 k) t (unmapped f va (va + PGSIZE)).
Proof.
  intros Hw Hf Hs Hva Ha HV v Hv. rewrite set_pte_at by done. unfold unmapped.
  destruct (decide (v / PGSIZE = va / PGSIZE)) as [E|E], (decide (va <= v < va + PGSIZE)); try zlia; [|auto].
  rewrite (pt_is_page k t f v va) by (try done; lia). by rewrite HV.
Qed.

Lemma valid_slot t k va f :
  pt_wf (mem k) t -> pt_is k t f -> 0 <= va < MAXVA -> flag (f va) PTE_V = true -> slot t va <> 0.
Proof.
  intros Hw Hf Hva HV Hs. rewrite <- Hf in HV by done. by rewrite (pte_at_slot_0 _ _ _ Hs Hw) in HV.
Qed.

Lemma uvmunmap_page_valid a t k va f :
  vm_ok a t k -> pt_is k t f -> 0 <= va < MAXVA -> va mod PGSIZE = 0 -> flag (f va) PTE_V = true ->
  page_ok (PTE2PA (f va)) -> a_ref a (PTE2PA (f va)) = 1 -> PTE2PA (f va) ∉ pt_pages t ->
  exists k', uvmunmap_page (pt_root t) va true c k = Done tt c k' /\ vm_ok (spec_kfree (PTE2PA (f va)) a) t k' /\
    pt_is k' t (unmapped f va (va + PGSIZE)) /\
    keeps (fun q => q <> PTE2PA (f va) /\ a_ref a q <> 0 /\ q ∉ pt_pages t) a (spec_kfree (PTE2PA (f va)) a) k k' /\
    a_free (spec_kfree (PTE2PA (f va)) a) = PTE2PA (f va) :: a_free a.
Proof.
  intros Hv Hf Hva Ha HV Hp H1 Hn. pose proof (valid_slot t k va f (vo_wf _ _ _ Hv) Hf Hva HV) as Hs.
  destruct (kfree_ok a t k (PTE2PA (f va)) f Hv Hf Hp H1 Hn) as (k1 & E1 & Hv1 & Hf1 & K1 & Ef).
  destruct (set_pte_ok _ t k1 va 0 Hv1 Hs) as [Hv2 F2].
  exists (set_pte t va 0 k1). split; [|split; [done|split; [|split; [|done]]]].
  - unfold uvmunmap_page. erewrite bind_done by (by apply walk_lookup; [apply Hv|]).
    destruct (Z.eqb_spec (slot t va) 0); [done|].
    erewrite bind_done by (by apply slot_load). rewrite Hf, HV by done. cbn [negb when].
    erewrite bind_done by exact E1. reflexivity.
  - apply set_pte_0_is; try done. apply Hv1.
  - eapply keeps_trans; [eapply keeps_weaken; [|exact K1]; tauto|apply (vm_frame_keeps _ _ _ _ _ _ F2)|].
    intros p _ (Hpp & Hz & Hpt) Er. rewrite Er. done.
Qed.

(** Removing more pages. *)
Lemma unmapped_app f va mid stop v :
  va <= mid <= stop -> unmapped (unmapped f va mid) mid stop v = unmapped f va stop v.
Proof.
  intros Hm. unfold unmapped.
  destruct (decide (mid <= v < stop)), (decide (va <= v < mid)), (decide (va <= v < stop)); try lia; done.
Qed.

Lemma unmapped_valid f va stop v :
  flag (unmapped f va stop v) PTE_V = true -> flag (f v) PTE_V = true /\ ~ (va <= v < stop) /\ unmapped f va stop v = f v.
Proof.
  unfold unmapped. destruct (decide _); [|done]. destruct (flag (f v) PTE_V) eqn:E; [done|]. rewrite E. done.
Qed.

(** One page: what [uvmunmap] has done when the loop goes on. *)
Lemma unmap_step a t k va f sz :
  vm_ok a t k -> pt_is k t f -> um_ok a t f sz -> va mod PGSIZE = 0 -> 0 <= va -> va + PGSIZE <= sz -> sz <= MAXVA ->
  exists a' k', uvmunmap_page (pt_root t) va true c k = Done tt c k' /\ vm_ok a' t k' /\
    pt_is k' t (unmapped f va (va + PGSIZE)) /\ um_ok a' t (unmapped f va (va + PGSIZE)) sz /\
    keeps (outside a t f va (va + PGSIZE)) a a' k k' /\
    (forall p, p ∈ a_free a' <-> p ∈ a_free a \/ exists v, va <= v < va + PGSIZE /\ flag (f v) PTE_V = true /\ PTE2PA (f v) = p).
Proof.
  intros Hv Hf Hu Ha Hva Hsz Hmax.
  assert (Hpg : forall v, va <= v < va + PGSIZE -> f v = f va).
  { intros v Hvr. apply (pt_is_page k t f); [done|lia|lia|zlia]. }
  destruct (flag (f va) PTE_V) eqn:HV.
  - destruct (uvmunmap_page_valid a t k va f) as (k' & E & Hv' & Hf' & K & Ef); try done; try lia; try (apply Hu; lia || done).
    exists (spec_kfree (PTE2PA (f va)) a), k'. split; [done|]. split; [done|]. split; [done|]. split; [|split].
    + assert (Hold : forall v, 0 <= v < sz -> flag (unmapped f va (va + PGSIZE) v) PTE_V = true ->
        flag (f v) PTE_V = true /\ unmapped f va (va + PGSIZE) v = f v /\ PTE2PA (f v) <> PTE2PA (f va)).
      { intros v Hvr (H1 & H2 & H3)%unmapped_valid. split; [done|]. split; [done|]. intros E'.
        apply (um_inj _ _ _ _ Hu) in E'; [zlia|lia..|done|done]. }
      split.
      * intros v Hvr Hfl. destruct (Hold v Hvr Hfl) as (H1 & -> & _). by apply Hu.
      * intros v Hvr Hfl. destruct (Hold v Hvr Hfl) as (H1 & -> & H3). unfold spec_kfree. cbn [a_ref].
        rewrite upd_ref_ne by done. by apply Hu.
      * intros v Hvr Hfl. destruct (Hold v Hvr Hfl) as (H1 & -> & _). by apply (um_table _ _ _ _ Hu).
      * intros v v' Hvr Hvr' Hfl Hfl'. destruct (Hold v Hvr Hfl) as (H1 & -> & _).
        destruct (Hold v' Hvr' Hfl') as (H1' & -> & _). by apply (um_inj _ _ _ _ Hu).
    + eapply keeps_weaken; [|exact K]. intros p (Hz & Hpt & Hne). split; [|done]. apply not_eq_sym, Hne; [lia|done].
    + intros p. rewrite Ef, elem_of_cons. split.
      * intros [->|?]; [right; exists va; split; [lia|done]|by left].
      * intros [?|(v & Hvr & _ & <-)]; [by right|]. left. by rewrite Hpg.
  - exists a, k. assert (Hun : forall v, unmapped f va (va + PGSIZE) v = f v).
    { intros v. unfold unmapped. destruct (decide _); [|done]. by rewrite Hpg, HV by done. }
    split; [eapply uvmunmap_page_invalid; [apply Hv|done|lia|done]|]. split; [done|].
    split; [eapply pt_is_ext; [done|]; intros; by rewrite Hun|]. split; [|split; [apply keeps_refl|]].
    + destruct Hu as [U1 U2 U3 U4]. split; intros v; rewrite ?Hun; [apply U1|apply U2|apply U3|].
      intros v'. rewrite !Hun. apply U4.
    + intros p. split; [by left|]. intros [?|(v & Hvr & Hfl & _)]; [done|]. rewrite Hpg in Hfl by done. congruence.
Qed.

(** Removing nothing. *)
Lemma um_ok_ext a t f g sz : (forall v, 0 <= v < sz -> f v = g v) -> um_ok a t f sz -> um_ok a t g sz.
Proof.
  intros E [U1 U2 U3 U4]. split.
  - intros v Hv. rewrite <- (E v Hv). by apply U1.
  - intros v Hv. rewrite <- (E v Hv). by apply U2.
  - intros v Hv. rewrite <- (E v Hv). by apply U3.
  - intros v v' Hv Hv'. rewrite <- (E v Hv), <- (E v' Hv'). by apply U4.
Qed.

(** What removing the entries from [va] up to [stop] gives. *)
Definition unmap_post (a : alloc_spec) (t : ptree) (k : kernel) (f : Z -> Z) (sz va stop : Z) (a' : alloc_spec) (k' : kernel) : Prop :=
  vm_ok a' t k' /\ pt_is k' t (unmapped f va stop) /\ um_ok a' t (unmapped f va stop) sz /\
  keeps (outside a t f va stop) a a' k k' /\
  (forall p, p ∈ a_free a' <-> p ∈ a_free a \/ exists v, va <= v < stop /\ flag (f v) PTE_V = true /\ PTE2PA (f v) = p).

Lemma unmap_post_nil a t k f sz va stop :
  vm_ok a t k -> pt_is k t f -> um_ok a t f sz -> stop <= va -> unmap_post a t k f sz va stop a k.
Proof.
  intros Hv Hf Hu Hle.
  assert (Hun : forall v, unmapped f va stop v = f v) by (intros; unfold unmapped; rewrite decide_False; [done|lia]).
  split; [done|]. split; [eapply pt_is_ext; [done|]; intros; by rewrite Hun|].
  split; [eapply um_ok_ext; [|done]; intros; by rewrite Hun|]. split; [apply keeps_refl|].
  intros p. split; [by left|]. intros [?|(v & Hvr & _)]; [done|lia].
Qed.

Lemma unmap_post_app a t k f sz va mid stop a1 k1 a2 k2 :
  va <= mid <= stop -> unmap_post a t k f sz va mid a1 k1 ->
  unmap_post a1 t k1 (unmapped f va mid) sz mid stop a2 k2 -> unmap_post a t k f sz va stop a2 k2.
Proof.
  intros Hm (_ & _ & _ & K1 & Fr1) (Hv2 & Hf2 & Hu2 & K2 & Fr2).
  assert (Hun : forall v, unmapped (unmapped f va mid) mid stop v = unmapped f va stop v) by (intros; by apply unmapped_app).
  split; [done|]. split; [eapply pt_is_ext; [exact Hf2|]; auto|].
  split; [eapply um_ok_ext; [|exact Hu2]; auto|]. split.
  - eapply keeps_trans; [eapply keeps_weaken; [|exact K1]|exact K2|].
    + intros p (Hz & Hpt & Hne). split; [done|]. split; [done|]. intros v Hvr. apply Hne. lia.
    + intros p _ (Hz & Hpt & Hne) Er. split; [by rewrite Er|]. split; [done|]. intros v Hvr (Hfl & _ & ->)%unmapped_valid.
      apply Hne; [lia|done].
  - intros p. rewrite Fr2, Fr1. split.
    + intros [[?|(v & Hvr & Hrest)]|(v & Hvr & (Hfl & _ & Ev)%unmapped_valid & Hp)].
      * by left.
      * right. exists v. split; [lia|done].
      * right. exists v. rewrite Ev in Hp. split; [lia|done].
    + intros [?|(v & Hvr & Hfl & Hp)]; [by left; left|].
      destruct (decide (v < mid)); [left; right; exists v; split; [lia|done]|right; exists v].
      split; [lia|]. unfold unmapped. by rewrite decide_False by lia.
Qed.

Lemma uvmunmap_loop_ok n a t k va f sz :
  vm_ok a t k -> pt_is k t f -> um_ok a t f sz -> va mod PGSIZE = 0 -> 0 <= va ->
  va + Z.of_nat n * PGSIZE <= sz -> sz <= MAXVA ->
  exists a' k', uvmunmap_loop (S n) (pt_root t) va (va + Z.of_nat n * PGSIZE) true c k = Done tt c k' /\
    unmap_post a t k f sz va (va + Z.of_nat n * PGSIZE) a' k'.
Proof.
  revert a k va f. induction n as [|n IH]; intros a k va f Hv Hf Hu Ha Hva Hsz Hmax.
  - exists a, k. split; [|apply unmap_post_nil; try done; lia].
    cbn [uvmunmap_loop]. destruct (Z.leb_spec (va + Z.of_nat 0 * PGSIZE) va); [done|lia].
  - destruct (unmap_step a t k va f sz) as (a1 & k1 & E1 & Hv1 & Hf1 & Hu1 & K1 & Fr1); try done; [lia|].
    destruct (IH a1 k1 (va + PGSIZE) (unmapped f va (va + PGSIZE))) as (a2 & k2 & E2 & Hpost);
      try done; try lia; [zlia|].
    replace (va + PGSIZE + Z.of_nat n * PGSIZE) with (va + Z.of_nat (S n) * PGSIZE) in * by lia.
    exists a2, k2. split; [|eapply (unmap_post_app _ _ _ _ _ va (va + PGSIZE)); [lia|done|done]].
    change (uvmunmap_loop (S (S n)) ?p ?v ?s ?d) with
      (if s <=? v then ret tt else uvmunmap_page p v d ;; uvmunmap_loop (S n) p (u64 (v + PGSIZE)) s d).
    destruct (Z.leb_spec (va + Z.of_nat (S n) * PGSIZE) va); [lia|].
    erewrite bind_done by exact E1. rewrite u64_small by lia. exact E2.
Qed.

(** [uvmunmap] with [do_free]: the entries are gone, their pages free, nothing else changes. *)
Lemma uvmunmap_ok n a t k va f sz :
  vm_ok a t k -> pt_is k t f -> um_ok a t f sz -> va mod PGSIZE = 0 -> 0 <= va -> 0 <= n ->
  va + n * PGSIZE <= sz -> sz <= MAXVA ->
  exists a' k', uvmunmap (pt_root t) va n true c k = Done tt c k' /\ unmap_post a t k f sz va (va + n * PGSIZE) a' k'.
Proof.
  intros Hv Hf Hu Ha Hva Hn Hsz Hmax. unfold uvmunmap. rewrite Ha. cbn [Z.eqb negb].
  destruct (uvmunmap_loop_ok (Z.to_nat n) a t k va f sz) as (a' & k' & E & Hrest);
    rewrite ?Z2Nat.id by lia; try done.
  exists a', k'. rewrite Z2Nat.id in E, Hrest by lia. by rewrite u64_small by lia.
Qed.

Lemma uvmdealloc_ok a t k f sz oldsz newsz :
  vm_ok a t k -> pt_is k t f -> um_ok a t f sz -> 0 <= newsz <= oldsz -> oldsz <= MAXVA -> PGROUNDUP oldsz <= sz ->
  sz <= MAXVA ->
  exists a' k', uvmdealloc (pt_root t) oldsz newsz c k = Done newsz c k' /\
    unmap_post a t k f sz (PGROUNDUP newsz) (PGROUNDUP oldsz) a' k'.
Proof.
  intros Hv Hf Hu Hsz Hold Hsz' Hmax. unfold uvmdealloc.
  destruct (PGROUNDUP_bounds newsz) as [Hn Hna]; [lia|]. destruct (PGROUNDUP_bounds oldsz) as [Ho Hoa]; [lia|].
  destruct (Z.leb_spec oldsz newsz) as [Hle|Hlt].
  { assert (oldsz = newsz) as -> by lia. exists a, k. split; [done|]. apply unmap_post_nil; try done; lia. }
  destruct (Z.ltb_spec (PGROUNDUP newsz) (PGROUNDUP oldsz)) as [Hr|Hr].
  - cbn [when]. rewrite i32_small, u64_small by zlia.
    destruct (uvmunmap_ok ((PGROUNDUP oldsz - PGROUNDUP newsz) / PGSIZE) a t k (PGROUNDUP newsz) f sz)
      as (a' & k' & E & Hpost); try done; try zlia.
    replace (PGROUNDUP newsz + (PGROUNDUP oldsz - PGROUNDUP newsz) / PGSIZE * PGSIZE) with (PGROUNDUP oldsz) in Hpost by zlia.
    exists a', k'. by erewrite bind_done by exact E.
  - exists a, k. split; [done|]. apply unmap_post_nil; try done; lia.
Qed.

(** ** One new page *)

(** Writing inside one page that has an owner and is not a table. *)
Lemma write_page_ok a t k f p m' :
  vm_ok a t k -> pt_is k t f -> page_ok p -> a_ref a p <> 0 -> p ∉ pt_pages t -> mem_ok m' ->
  (forall x, ~ (p <= x < p + PGSIZE) -> rd8 m' x = rd8 (mem k) x) ->
  vm_ok a t (k <| mem := m' |>) /\ pt_is (k <| mem := m' |>) t f /\ keeps (fun q => q <> p) a a k (k <| mem := m' |>).
Proof.
  intros Hv Hf Hp Hz Hn Hm Hout. pose proof (vo_wf _ _ _ Hv) as Hw.
  assert (Hrd : forall q i, q ∈ pt_pages t -> 0 <= i < 512 -> rd64 m' (pte_addr q i) = rd64 (mem k) (pte_addr q i)).
  { intros q i Hq Hi. apply rdn_ext. intros x Hx. apply Hout. pose proof (wf_page_ok _ _ _ Hw Hq) as Hqo.
    apply (page_apart p q); [done|done|congruence|]. pose proof (pte_addr_in q i Hqo Hi). lia. }
  split; [split|split].
  - apply represents_write; [apply Hv|done|]. intros q x Hq Hx. apply Hout.
    pose proof (free_list_pages _ _ _ (rep_list _ _ (vo_rep _ _ _ Hv))) as Hok. rewrite Forall_forall in Hok.
    apply (page_apart p q); [done|auto| |lia]. apply not_eq_sym. by eapply owned_not_free; [apply Hv|..].
  - apply Hv.
  - eapply pt_wf_frame; [done|]. intros q i Hq Hi. apply Hrd; [|done].
    destruct Hq as [->|[j Hj]]; [apply pt_root_in|by eapply pt_mid_in].
  - apply Hv.
  - intros va Hva. rewrite <- Hf by done. apply pte_at_frame. intros q Hq. apply Hrd; [by eapply pt_low_in|].
    apply PX_range; lia.
  - split; [done|intros q x Hq Hne Hx|unfold only_pages; kdone]. apply Hout. apply (page_apart p q); [done|done|congruence|done].
Qed.

(** [kalloc] gives a page that nobody had. *)
Lemma kalloc_ok a t k f :
  vm_ok a t k -> pt_is k t f ->
  exists p k', kalloc c k = Done p c k' /\
    ((p = 0 /\ a_free a = [] /\ vm_ok a t k' /\ pt_is k' t f /\ keeps (fun _ => True) a a k k') \/
     (p <> 0 /\ exists l, a_free a = p :: l /\ page_ok p /\ a_ref a p = 0 /\ (p ∉ pt_pages t) /\
      vm_ok (mkalloc l (upd_ref p 1 (a_ref a))) t k' /\ pt_is k' t f /\
      keeps (fun q => q <> p) a (mkalloc l (upd_ref p 1 (a_ref a))) k k')).
Proof.
  intros Hv Hf. destruct (kalloc_represents a k c (vo_rep _ _ _ Hv) HK HR HP) as (k' & E & Hr & Ho & Hm).
  unfold spec_kalloc in *. destruct (a_free a) as [|p l] eqn:Ea; cbn [fst snd] in *.
  - destruct (kalloc_none_ok a t k c Hv HK HR HP Ea) as (k2 & E2 & Hv2 & F2 & Hp2).
    exists 0, k'. split; [done|]. left. rewrite E in E2. injection E2 as <-.
    split; [done|]. split; [done|]. split; [done|]. split; [intros v Hvr; rewrite Hp2; auto|].
    split; [done|auto|done].
  - destruct (vm_free_ok _ _ _ _ _ Hv Ea) as (Hp & Hn & Hz).
    exists p, k'. split; [done|]. right. split; [apply page_ok_range in Hp; lia|].
    exists l. do 4 (split; [done|]). split; [split; [done|by eapply complete_kalloc; [apply Hv|..]| |]|split; [|split; [| |done]]].
    + eapply pt_wf_frame; [apply Hv|]. intros q i Hq Hi. apply rdn_ext. intros x Hx. apply Hm. right.
      assert (Hin : q ∈ pt_pages t) by (destruct Hq as [->|[j Hj]]; [apply pt_root_in|by eapply pt_mid_in]).
      pose proof (wf_page_ok _ _ _ (vo_wf _ _ _ Hv) Hin) as Hqo.
      apply (page_apart p q); [done|done|congruence|]. pose proof (pte_addr_in q i Hqo Hi). lia.
    + intros q Hq. cbn [a_ref]. rewrite upd_ref_ne by congruence. by apply (vo_own _ _ _ Hv).
    + intros va Hva. rewrite <- Hf by done. apply pte_at_frame. intros q Hq. apply rdn_ext. intros x Hx. apply Hm. right.
      pose proof (wf_low_ok _ _ _ _ (vo_wf _ _ _ Hv) Hq) as Hqo. pose proof (pt_low_in _ _ _ Hq).
      apply (page_apart p q); [done|done|congruence|]. pose proof (pte_addr_in q (PX 0 va) Hqo (PX_range 0 va ltac:(lia))). lia.
    + intros q Hq Hne. cbn [a_ref]. by apply upd_ref_ne.
    + intros q x Hq Hne Hx. apply Hm. right. apply (page_apart p q); [done|done|congruence|done].
Qed.

Lemma um_ok_frame a a' t t' k k' f sz : um_ok a t f sz -> vm_frame a a' t t' k k' -> um_ok a' t' f sz.
Proof.
  intros Hu F. split.
  - apply Hu.
  - intros v Hv Hfl. rewrite (vf_ref _ _ _ _ _ _ F); [by apply Hu|by apply Hu|]. rewrite (um_ref _ _ _ _ Hu) by done. done.
  - intros v Hv Hfl Hin. destruct (vf_new _ _ _ _ _ _ F _ Hin) as [Hin'|Hz].
    + by apply (um_table _ _ _ _ Hu) in Hin'.
    + by rewrite (um_ref _ _ _ _ Hu) in Hz.
  - apply Hu.
Qed.

Lemma mapped_1 f va p perm v :
  mapped f va p perm 1 v = if decide (va <= v < va + PGSIZE) then leaf_pte p perm else f v.
Proof.
  unfold mapped. destruct (decide (va <= v < va + 1 * PGSIZE)), (decide (va <= v < va + PGSIZE)); try done; try lia.
  f_equal. zlia.
Qed.

Lemma um_ok_map a t f sz va p perm :
  um_ok a t f sz -> page_ok p -> a_ref a p = 1 -> p ∉ pt_pages t -> va mod PGSIZE = 0 -> 0 <= perm < 1024 ->
  (forall v, 0 <= v < sz -> flag (f v) PTE_V = true -> PTE2PA (f v) <> p) ->
  um_ok a t (mapped f va p perm 1) sz.
Proof.
  intros Hu Hp H1 Hn Ha Hperm Hnew. destruct (page_ok_range p Hp) as [Hr Hal].
  assert (Hpa : PTE2PA (leaf_pte p perm) = p) by (apply leaf_pte_pa; lia).
  split.
  - intros v Hv. rewrite mapped_1. destruct (decide _); [by rewrite Hpa|by apply Hu].
  - intros v Hv. rewrite mapped_1. destruct (decide _); [by rewrite Hpa|by apply Hu].
  - intros v Hv. rewrite mapped_1. destruct (decide _); [by rewrite Hpa|by apply (um_table _ _ _ _ Hu)].
  - intros v v' Hv Hv'. rewrite !mapped_1. destruct (decide _), (decide _); rewrite ?Hpa.
    + zlia.
    + intros _ Hfl E. by destruct (Hnew v' Hv' Hfl).
    + intros Hfl _ E. by destruct (Hnew v Hv Hfl).
    + by apply (um_inj _ _ _ _ Hu).
Qed.

Lemma PTE_FLAGS_range e : 0 <= PTE_FLAGS e < 1024.
Proof. unfold PTE_FLAGS. change 0x3FF with (Z.ones 10). rewrite Z.land_ones by lia. apply Z.mod_pos_bound. lia. Qed.

Lemma leaf_pte_valid p fl : page_ok p -> 0 <= fl < 1024 -> flag (leaf_pte p fl) PTE_V = true /\ PTE2PA (leaf_pte p fl) = p.
Proof.
  intros [? ?]%page_ok_range Hfl. split; [|apply leaf_pte_pa; lia].
  rewrite leaf_pte_flag, flag_lor by (done || lia). by rewrite orb_true_r.
Qed.

(** Growing a page table keeps the pages of everyone: those that had an owner
    and were not tables of [t]; tables that are new had no owner. *)
Record grow_frame (a a' : alloc_spec) (t t' : ptree) (k k' : kernel) : Prop := {
  gf_root : pt_root t' = pt_root t;
  gf_sub : forall p, p ∈ pt_pages t -> p ∈ pt_pages t';
  gf_new : forall p, p ∈ pt_pages t' -> p ∈ pt_pages t \/ a_ref a p = 0;
  gf_keeps : keeps (fun p => a_ref a p <> 0 /\ p ∉ pt_pages t) a a' k k'
}.

Lemma grow_frame_refl a t k : grow_frame a a t t k k.
Proof. split; auto using keeps_refl. Qed.

Lemma vm_frame_grow a a' t t' k k' : vm_frame a a' t t' k k' -> grow_frame a a' t t' k k'.
Proof. intros F. split; [symmetry; apply F| |apply F|by eapply vm_frame_keeps]. intros p. apply pt_sub_pages, F. Qed.

(** If [a1] kept the owned pages of [a], a later step that keeps those of [a1] does too. *)
Lemma grow_frame_keeps a a1 a2 t t1 k k1 k2 (Q : Z -> Prop) :
  grow_frame a a1 t t1 k k1 -> keeps Q a1 a2 k1 k2 ->
  (forall p, page_ok p -> a_ref a p <> 0 -> p ∉ pt_pages t -> a_ref a1 p <> 0 -> p ∉ pt_pages t1 -> Q p) ->
  keeps (fun p => a_ref a p <> 0 /\ p ∉ pt_pages t) a a2 k k2.
Proof.
  intros [_ _ G2 G3] K HQ. eapply keeps_trans; [exact G3|exact K|]. intros p Hp [Hz Hn] Er.
  apply HQ; auto; [congruence|]. intros Hin. by destruct (G2 p Hin).
Qed.

Lemma grow_frame_trans a a1 a2 t t1 t2 k k1 k2 :
  grow_frame a a1 t t1 k k1 -> grow_frame a1 a2 t1 t2 k1 k2 -> Forall page_ok (pt_pages t2) ->
  grow_frame a a2 t t2 k k2.
Proof.
  intros G1 G2 Hok. rewrite Forall_forall in Hok. split.
  - rewrite (gf_root _ _ _ _ _ _ G2). apply G1.
  - intros p Hp. by apply G2, G1.
  - intros p Hp. destruct (gf_new _ _ _ _ _ _ G2 p Hp) as [Hin|Hz]; [by apply (gf_new _ _ _ _ _ _ G1)|].
    destruct (decide (a_ref a p = 0)) as [|Hne]; [by right|]. destruct (decide (p ∈ pt_pages t)) as [|Hn]; [by left|].
    right. rewrite (kp_ref _ _ _ _ _ (gf_keeps _ _ _ _ _ _ G1)) in Hz; auto.
  - eapply grow_frame_keeps; [exact G1|apply (gf_keeps _ _ _ _ _ _ G2)|]. by intros.
Qed.

(** A page without an owner had none before. *)
Lemma grow_frame_fresh a a' t t' k k' p :
  grow_frame a a' t t' k k' -> vm_ok a' t' k' -> page_ok p -> a_ref a' p = 0 -> a_ref a p = 0.
Proof.
  intros G Hv Hp Hz. destruct (decide (a_ref a p = 0)) as [|Hne]; [done|].
  destruct (decide (p ∈ pt_pages t)) as [Hin|Hn].
  - apply (gf_sub _ _ _ _ _ _ G), (vo_own _ _ _ Hv) in Hin. lia.
  - by rewrite (kp_ref _ _ _ _ _ (gf_keeps _ _ _ _ _ _ G)) in Hz.
Qed.

(** [p] is mapped below [sz]. *)
Definition user_page (g : Z -> Z) (sz p : Z) : Prop :=
  exists v, 0 <= v < sz /\ flag (g v) PTE_V = true /\ PTE2PA (g v) = p.

(** Every page with an owner had one before, or is a table, or is mapped: none leaks. *)
Definition accounted (a a' : alloc_spec) (t' : ptree) (g : Z -> Z) (sz : Z) : Prop :=
  forall p, page_ok p -> a_ref a' p <> 0 -> a_ref a p <> 0 \/ p ∈ pt_pages t' \/ user_page g sz p.

(** [a'], [t'], [k'] extend [a], [t], [k] so that [t'] stands for [g]. *)
Definition grown (a a' : alloc_spec) (t t' : ptree) (k k' : kernel) (g : Z -> Z) (sz : Z) : Prop :=
  vm_ok a' t' k' /\ pt_is k' t' g /\ um_ok a' t' g sz /\ grow_frame a a' t t' k k' /\ accounted a a' t' g sz.

Lemma accounted_trans a a1 a2 t1 t2 g1 g2 sz :
  accounted a a1 t1 g1 sz -> accounted a1 a2 t2 g2 sz -> (forall p, p ∈ pt_pages t1 -> p ∈ pt_pages t2) ->
  (forall p, page_ok p -> user_page g1 sz p -> a_ref a2 p <> 0 -> user_page g2 sz p) -> accounted a a2 t2 g2 sz.
Proof.
  intros A1 A2 Ht Hg p Hp Hz. destruct (A2 p Hp Hz) as [Hz1|]; [|by right].
  destruct (A1 p Hp Hz1) as [|[Hin|Hu]]; [by left|right; left; auto|right; right; auto].
Qed.

Lemma accounted_refl a t g sz : accounted a a t g sz.
Proof. intros p Hp Hz. by left. Qed.

Lemma accounted_frame a a' t t' k k' g sz : vm_frame a a' t t' k k' -> accounted a a' t' g sz.
Proof. intros F p Hp Hz. destruct (vf_acc _ _ _ _ _ _ F p Hz); auto. Qed.

Lemma accounted_unmap a t k g sz va stop a' k' :
  vm_ok a t k -> 0 <= va -> unmap_post a t k g sz va stop a' k' ->
  accounted a a' t (unmapped g va stop) sz /\
  forall p, user_page g sz p -> a_ref a' p <> 0 -> user_page (unmapped g va stop) sz p.
Proof.
  intros Hv H0 (Hv' & _ & _ & _ & Hfr). split.
  - intros p Hp Hz. left. intros Ha. apply Hz, (rep_free0 _ _ (vo_rep _ _ _ Hv')), Hfr. left. by apply (vo_all _ _ _ Hv).
  - intros p (v & Hvr & Hfl & Hp) Hz. exists v. split; [done|].
    destruct (decide (va <= v < stop)) as [Hin|Hout].
    + exfalso. apply Hz, (rep_free0 _ _ (vo_rep _ _ _ Hv')), Hfr. right. exists v. auto.
    + unfold unmapped. by rewrite decide_False.
Qed.

(** [kalloc], filling the page, mapping it at [va]; when the mapping fails, freeing it. *)
Lemma new_page a t k f sz va perm (init : memory -> Z -> memory) :
  vm_ok a t k -> pt_is k t f -> um_ok a t f sz -> va mod PGSIZE = 0 -> 0 <= va -> va + PGSIZE <= sz -> sz <= MAXVA ->
  0 <= perm < 1024 -> flag (f va) PTE_V = false ->
  (forall m p x, mem_ok m -> ~ (p <= x < p + PGSIZE) -> rd8 (init m p) x = rd8 m x) -> (forall m p, mem_ok m -> mem_ok (init m p)) ->
  exists p k1, kalloc c k = Done p c k1 /\
    ((p = 0 /\ nfree a < 3 /\ exists a', grown a a' t t k k1 f sz) \/
     (p <> 0 /\ exists r k2, mappages (pt_root t) va PGSIZE p perm c (k1 <| mem ::= fun m => init m p |>) = Done r c k2 /\
      ((r = 0 /\ page_ok p /\ a_ref a p = 0 /\ keeps (fun q => q <> p) a (mkalloc (tail (a_free a)) (upd_ref p 1 (a_ref a))) k k1 /\ mem_ok (mem k1) /\
        (forall x, p <= x < p + PGSIZE -> rd8 (mem k2) x = rd8 (init (mem k1) p) x) /\
        exists a' t', nfree a <= nfree a' + 3 /\ grown a a' t t' k k2 (mapped f va p perm 1) sz) \/
       (r = -1 /\ nfree a < 3 /\ exists k3 a' t', kfree p c k2 = Done tt c k3 /\ grown a a' t t' k k3 f sz)))).
Proof.
  intros Hv Hf Hu Ha Hva Hsz Hmax Hperm Hinv Hout Hok.
  destruct (kalloc_ok a t k f Hv Hf) as (p & k1 & E & [(-> & Ea & Hv1 & Hf1 & K1)|(Hnz & l & Ea & Hp & Hz & Hn & Hv1 & Hf1 & K1)]).
  { exists 0, k1. split; [done|]. left. split; [done|]. split; [by rewrite (nfree_nil _ Ea)|]. exists a. split; [done|]. split; [done|]. split; [done|].
    split; [|apply accounted_refl]. split; auto. eapply keeps_weaken; [|exact K1]. done. }
  set (a1 := mkalloc l (upd_ref p 1 (a_ref a))) in *.
  assert (Hl1 : nfree a = nfree a1 + 1) by by apply (nfree_take _ p).
  assert (H1 : a_ref a1 p = 1) by apply upd_ref_eq.
  destruct (write_page_ok a1 t k1 f p (init (mem k1) p)) as (Hv1' & Hf1' & K1');
    [done|done|done|by rewrite H1|done|apply Hok, Hv1|intros x; apply Hout, Hv1|].
  assert (Hfresh : forall v, 0 <= v < sz -> flag (f v) PTE_V = true -> PTE2PA (f v) <> p).
  { intros v Hvr Hfl Ep. pose proof (um_ref _ _ _ _ Hu v Hvr Hfl) as Er. rewrite Ep in Er. lia. }
  assert (Hu1 : um_ok a1 t f sz).
  { split; try apply Hu. intros v Hvr Hfl. unfold a1. cbn [a_ref]. rewrite upd_ref_ne by auto. by apply Hu. }
  assert (G1 : grow_frame a a1 t t k (k1 <| mem ::= fun m => init m p |>)).
  { split; auto. eapply keeps_trans; [eapply keeps_weaken; [|exact K1]|exact K1'|].
    - intros q [Hq _] ->. done.
    - intros q _ [Hq _] _ ->. done. }
  destruct (mappages_ok 1 p perm c a1 t _ va f Hv1' HK HR HP Hf1') as (a2 & t2 & k2 & r & j & E2 & Hv2 & F2 & Hf2 & Hl2 & Hr);
    [lia|done|lia|lia|apply page_ok_range in Hp; lia|apply page_ok_range in Hp; lia|done| |].
  { intros v Hvr. rewrite (pt_is_page k t f v va); [done|done|lia|lia|zlia]. }
  assert (Hu2 : um_ok a2 t2 f sz) by (by eapply um_ok_frame).
  assert (Hp2 : a_ref a2 p = 1 /\ p ∉ pt_pages t2).
  { split; [rewrite (vf_ref _ _ _ _ _ _ F2); [done|done|lia]|]. intros Hin.
    destruct (vf_new _ _ _ _ _ _ F2 p Hin); [done|lia]. }
  assert (G2 : grow_frame a a2 t t2 k k2).
  { eapply grow_frame_trans; [exact G1|by apply vm_frame_grow|apply (vo_wf _ _ _ Hv2)]. }
  exists p, k1. split; [done|]. right. split; [done|]. exists r, k2. split; [exact E2|].
  destruct Hr as [[-> ->]|(-> & Hj & _ & Hlt)]; [left|right].
  - split; [done|]. split; [done|]. split; [done|]. split; [rewrite Ea; exact K1|]. split; [apply Hv1|]. split.
    + intros x Hx. rewrite (vf_mem _ _ _ _ _ _ F2 p x); [done|done|lia|done|done].
    + exists a2, t2. split; [lia|]. split; [done|]. split; [done|]. split; [apply um_ok_map; try done; tauto|]. split; [done|].
      intros q Hq Hqz. destruct (vf_acc _ _ _ _ _ _ F2 q Hqz) as [Hq1|]; [|by right; left].
      unfold a1 in Hq1. cbn [a_ref] in Hq1. destruct (decide (q = p)) as [->|Hne]; [|rewrite upd_ref_ne in Hq1 by done; by left].
      right; right. exists va. rewrite mapped_1, decide_True by lia. split; [lia|]. by apply leaf_pte_valid.
  - split; [done|]. split; [lia|]. assert (j = 0) as -> by lia.
    assert (Hf2' : pt_is k2 t2 f).
    { eapply pt_is_ext; [exact Hf2|]. intros v Hvr. unfold mapped. by rewrite decide_False by lia. }
    destruct (kfree_ok a2 t2 k2 p f Hv2 Hf2' Hp) as (k3 & E3 & Hv3 & Hf3 & K3 & _); [tauto..|].
    exists k3, (spec_kfree p a2), t2. split; [done|]. split; [done|]. split; [done|]. split.
    + split; try apply Hu2. intros v Hvr Hfl. rewrite (kp_ref _ _ _ _ _ K3); [by apply Hu2|by apply Hu2|by auto].
    + split; [split; [apply G2..|]|].
      * eapply grow_frame_keeps; [exact G2|exact K3|]. intros q _ Hq _ _ _ ->. done.
      * intros q Hq. unfold spec_kfree. cbn [a_ref]. destruct (decide (q = p)) as [->|Hne].
        { rewrite upd_ref_eq. destruct Hp2 as [-> _]. done. }
        rewrite upd_ref_ne by done. intros Hqz. destruct (vf_acc _ _ _ _ _ _ F2 q Hqz) as [Hq1|]; [|by right; left].
        left. unfold a1 in Hq1. cbn [a_ref] in Hq1. by rewrite upd_ref_ne in Hq1.
Qed.

(** ** [uvmalloc] *)

(** The pages from [lo] to [va] are new, zeroed and mapped with [perm]; the
    other entries are those of [f]. *)
Definition zeroed (a0 : alloc_spec) (k : kernel) (f g : Z -> Z) (lo va perm : Z) : Prop :=
  (forall v, 0 <= v < MAXVA -> ~ (lo <= v < va) -> g v = f v) /\
  (forall v, lo <= v < va -> exists p, g v = leaf_pte p perm /\ page_ok p /\ a_ref a0 p = 0 /\
    forall x, p <= x < p + PGSIZE -> rd8 (mem k) x = 0).

(** The new pages that hold the addresses from [lo] on stay when another page is added. *)
Lemma zeroed_step a0 a k1 k2 t f g lo va perm p sz :
  zeroed a0 k1 f g lo va perm -> um_ok a t g sz -> lo <= va -> 0 <= lo -> va <= sz -> va mod PGSIZE = 0 -> 0 <= perm < 1024 ->
  (forall q x, page_ok q -> a_ref a q <> 0 -> q ∉ pt_pages t -> q <= x < q + PGSIZE -> rd8 (mem k2) x = rd8 (mem k1) x) ->
  page_ok p -> a_ref a0 p = 0 -> (forall x, p <= x < p + PGSIZE -> rd8 (mem k2) x = 0) ->
  zeroed a0 k2 f (mapped g va p perm 1) lo (va + PGSIZE) perm.
Proof.
  intros [Z1 Z2] Hu Hlo H0 Hsz Ha Hperm Hmem Hp Hz Hx0.
  split.
  - intros v Hv Hn. rewrite mapped_1. destruct (decide _); [lia|]. apply Z1; lia.
  - intros v Hv. rewrite mapped_1. destruct (decide _) as [Hd|Hd]; [eauto|].
    destruct (Z2 v) as (q & Eq & Hq & Hqz & Hqx); [lia|]. exists q. split; [done|]. split; [done|]. split; [done|].
    assert (HV : flag (g v) PTE_V = true).
    { rewrite Eq. apply page_ok_range in Hq. rewrite leaf_pte_flag by (done || lia). rewrite flag_lor. by rewrite orb_true_r. }
    assert (Epa : PTE2PA (g v) = q).
    { rewrite Eq. apply page_ok_range in Hq. apply leaf_pte_pa; lia. }
    intros x Hx. rewrite (Hmem q x); [by apply Hqx|done| | |done]; rewrite <- Epa.
    + rewrite (um_ref _ _ _ _ Hu v) by (done || lia). done.
    + apply (um_table _ _ _ _ Hu); [lia|done].
Qed.

Definition uvmalloc_post (a0 : alloc_spec) (t0 : ptree) (k0 : kernel) (f : Z -> Z) (lo hi perm sz newsz r : Z) (k' : kernel) : Prop :=
  exists a' t' g, grown a0 a' t0 t' k0 k' g sz /\
    ((r = newsz /\ zeroed a0 k' f g lo hi perm) \/
     (r = 0 /\ PGSIZE * nfree a0 < 3 * (hi - lo) /\ (forall v, 0 <= v < MAXVA -> ~ (lo <= v < hi) -> g v = f v) /\
      forall v, lo <= v < hi -> flag (g v) PTE_V = false)).

(** The failure exits: the pages mapped so far are given back. *)
Lemma uvmalloc_undo a0 t0 k0 a t k f g lo va hi perm sz :
  grown a0 a t0 t k0 k g sz -> zeroed a0 k f g lo va perm -> 0 <= perm < 1024 -> 0 <= lo <= va -> va <= hi -> hi <= sz -> sz <= MAXVA ->
  va mod PGSIZE = 0 -> lo mod PGSIZE = 0 -> (forall v, va <= v < hi -> flag (f v) PTE_V = false) ->
  PGSIZE * nfree a0 < 3 * (hi - lo) ->
  exists k', uvmdealloc (pt_root t) va lo c k = Done lo c k' /\ forall newsz, uvmalloc_post a0 t0 k0 f lo hi perm sz newsz 0 k'.
Proof.
  intros (Hv & Hf & Hu & G & A) [Z1 Z2] Hperm Hlo Hhi Hsz Hmax Ha Hal Hinv Hfew.
  destruct (uvmdealloc_ok a t k g sz va lo) as (a' & k' & E & Hpost); try done; try lia.
  { rewrite PGROUNDUP_aligned by lia. lia. }
  rewrite !PGROUNDUP_aligned in * by lia. pose proof Hpost as (Hv' & Hf' & Hu' & K' & _).
  destruct (accounted_unmap a t k g sz lo va a' k' Hv ltac:(lia) Hpost) as [A' Up].
  assert (A2 : accounted a0 a' t (unmapped g lo va) sz) by (eapply accounted_trans; eauto).
  exists k'. split; [done|]. intros newsz. exists a', t, (unmapped g lo va).
  split; [split; [done|split; [done|split; [done|split; [|done]]]]|right].
  - split; [apply G..|]. eapply grow_frame_keeps; [exact G|exact K'|].
    intros p Hp Hz0 Hn0 Hz Hn. split; [done|]. split; [done|]. intros v Hvr Hfl Ep.
    destruct (Z2 v Hvr) as (q & Eq & Hq & Hqz & _). rewrite Eq, leaf_pte_pa in Ep;
      [congruence|apply page_ok_range in Hq; lia|by apply page_ok_range|done].
  - split; [done|]. split; [done|]. split; intros v Hvr.
    + intros Hn. unfold unmapped. rewrite decide_False by lia. apply Z1; lia.
    + unfold unmapped. destruct (decide (lo <= v < va)) as [|Hd]; [by destruct (flag (g v) PTE_V) eqn:Efl|].
      rewrite Z1 by lia. apply Hinv. lia.
Qed.

Lemma grown_trans a a1 a2 t t1 t2 k k1 k2 g1 g2 sz :
  grown a a1 t t1 k k1 g1 sz -> grown a1 a2 t1 t2 k1 k2 g2 sz ->
  (forall p, user_page g1 sz p -> user_page g2 sz p) -> grown a a2 t t2 k k2 g2 sz.
Proof.
  intros (_ & _ & _ & G1 & A1) (Hv & Hf & Hu & G2 & A2) Hup. split; [done|]. split; [done|]. split; [done|]. split.
  - eapply grow_frame_trans; [exact G1|exact G2|apply (vo_wf _ _ _ Hv)].
  - eapply accounted_trans; [exact A1|exact A2|apply G2|auto].
Qed.

(** Mapping a page that was not mapped keeps the others mapped. *)
Lemma user_page_mapped g va p perm sz q :
  flag (g va) PTE_V = false -> (forall v, va <= v < va + PGSIZE -> g v = g va) ->
  user_page g sz q -> user_page (mapped g va p perm 1) sz q.
Proof.
  intros Hinv Hpg (v & Hv & Hfl & Hq). exists v. split; [done|]. rewrite mapped_1. destruct (decide _) as [Hd|Hd]; [|done].
  rewrite Hpg in Hfl by done. congruence.
Qed.

Lemma zeroed_ext a0 a a' k1 k2 t t' f g lo va perm sz :
  grown a a' t t' k1 k2 g sz -> um_ok a t g sz -> zeroed a0 k1 f g lo va perm -> 0 <= lo -> va <= sz -> 0 <= perm < 1024 ->
  zeroed a0 k2 f g lo va perm.
Proof.
  intros (_ & _ & _ & G & _) Hu [Z1 Z2] Hlo Hsz Hperm. split; [done|]. intros v Hv.
  destruct (Z2 v Hv) as (q & Eq & Hq & Hqz & Hqx). exists q. split; [done|]. split; [done|]. split; [done|].
  destruct (page_ok_range q Hq). intros x Hx.
  assert (HV : flag (g v) PTE_V = true) by (rewrite Eq, leaf_pte_flag, flag_lor by (done || lia); by rewrite orb_true_r).
  assert (Epa : PTE2PA (g v) = q) by (rewrite Eq; apply leaf_pte_pa; lia).
  rewrite (kp_mem _ _ _ _ _ (gf_keeps _ _ _ _ _ _ G) q x); [by apply Hqx|done| |done]. rewrite <- Epa. split.
  - rewrite (um_ref _ _ _ _ Hu v) by (done || lia). done.
  - apply (um_table _ _ _ _ Hu); [lia|done].
Qed.

Lemma uvmalloc_loop_ok n xperm perm a0 t0 k0 a t k f g lo va newsz sz :
  perm = Z.lor (Z.lor PTE_R PTE_U) xperm ->
  grown a0 a t0 t k0 k g sz -> zeroed a0 k f g lo va perm -> 0 <= perm < 1024 -> 0 <= lo <= va -> va <= sz ->
  sz = PGROUNDUP newsz -> 0 <= newsz -> sz <= MAXVA -> newsz <= MAXVA -> va mod PGSIZE = 0 -> lo mod PGSIZE = 0 ->
  (forall v, va <= v < sz -> flag (f v) PTE_V = false) -> sz <= va + Z.of_nat n * PGSIZE ->
  PGSIZE * nfree a0 <= PGSIZE * nfree a + 3 * (va - lo) ->
  exists r k', uvmalloc_loop (S n) (pt_root t) va lo newsz xperm c k = Done r c k' /\
    uvmalloc_post a0 t0 k0 f lo sz perm sz newsz r k'.
Proof.
  intros Ep. revert a t k g va. induction n as [|n IH]; intros a t k g va Hg Hz Hperm Hlo Hsz Es Hn Hmax Hnm Ha Hal Hinv Hfuel Hfree.
  - exists newsz, k. destruct (PGROUNDUP_bounds newsz); [lia|]. cbn [uvmalloc_loop].
    destruct (Z.leb_spec newsz va); [|lia]. split; [done|]. exists a, t, g. split; [done|]. left. split; [done|].
    assert (va = sz) as <- by lia. done.
  - destruct (PGROUNDUP_bounds newsz) as [Hb Hba]; [lia|]. rewrite <- Es in Hb, Hba.
    remember (S n) as m eqn:Em. cbn [uvmalloc_loop]. rewrite <- Ep. destruct (Z.leb_spec newsz va) as [Hge|Hlt].
    { exists newsz, k. split; [done|]. exists a, t, g. split; [done|]. left. split; [done|].
      assert (va = sz) as <- by zlia. done. }
    assert (Hstep : va + PGSIZE <= sz) by zlia.
    pose proof Hg as (Hv & Hf & Hu & G & _). pose proof Hz as [Z1 Z2].
    assert (Hgva : flag (g va) PTE_V = false) by (rewrite Z1 by lia; apply Hinv; lia).
    destruct (new_page a t k g sz va perm (fun m p => memset m p 0 PGSIZE)) as (p & k1 & E1 & Hcase);
      [done|done|done|done|lia|done|done|done|done|
       intros; by apply rd8_memset_out|intros; by apply mem_ok_memset|].
    erewrite bind_done by exact E1.
    destruct Hcase as [(-> & Hfew & a1 & Hg1)|(Hnz & r & k2 & E2 & Hcase)].
    + destruct (uvmalloc_undo a0 t0 k0 a1 t k1 f g lo va sz perm sz) as (k' & E' & Hpost); try done; try lia.
      * eapply grown_trans; [exact Hg|exact Hg1|done].
      * eapply zeroed_ext; [exact Hg1|done|done|lia|lia|done].
      * exists 0, k'. cbn [Z.eqb]. by erewrite bind_done by exact E'.
    + destruct (Z.eqb_spec p 0); [done|]. erewrite bind_done by reflexivity.
      erewrite bind_done by exact E2.
      destruct Hcase as [(-> & Hp & Hpz & _ & _ & Hx0 & a2 & t2 & Hl2 & Hg2)|(-> & Hfew & k3 & a2 & t2 & E3 & Hg2)]; cbn [Z.eqb negb].
      * assert (Er : pt_root t2 = pt_root t) by apply Hg2.
        destruct (IH a2 t2 k2 (mapped g va p perm 1) (va + PGSIZE)) as (r & k' & E' & Hpost); try done; try lia.
        { eapply grown_trans; [exact Hg|exact Hg2|]. intros q. apply user_page_mapped; [exact Hgva|].
          intros v Hvr. apply (pt_is_page k t g); [done|lia|lia|zlia]. }
        { eapply (zeroed_step a0 a k k2 t); try done; try lia.
          - intros q x Hq Hqz Hqt Hx. apply (kp_mem _ _ _ _ _ (gf_keeps _ _ _ _ _ _ (proj1 (proj2 (proj2 (proj2 Hg2))))) q x); done.
          - eapply grow_frame_fresh; [apply G|done..].
          - intros x Hx. rewrite Hx0 by done. rewrite rd8_memset by lia. by rewrite decide_True. }
        { zlia. }
        { intros v Hvr. apply Hinv. lia. }
        exists r, k'. rewrite Er in E'. rewrite u64_small by lia. done.
      * erewrite bind_done by exact E3.
        assert (Er : pt_root t2 = pt_root t) by apply Hg2.
        destruct (uvmalloc_undo a0 t0 k0 a2 t2 k3 f g lo va sz perm sz) as (k' & E' & Hpost); try done; try lia.
        { eapply grown_trans; [exact Hg|exact Hg2|done]. }
        { eapply zeroed_ext; [exact Hg2|done|done|lia|lia|done]. }
        exists 0, k'. rewrite Er in E'. by erewrite bind_done by exact E'.
Qed.

Lemma uvmalloc_ok a t k f oldsz newsz xperm :
  vm_ok a t k -> pt_is k t f -> um_ok a t f (PGROUNDUP newsz) -> 0 <= oldsz <= newsz -> newsz <= MAXVA ->
  0 <= xperm < 1024 -> (forall v, PGROUNDUP oldsz <= v < PGROUNDUP newsz -> flag (f v) PTE_V = false) ->
  exists r k', uvmalloc (pt_root t) oldsz newsz xperm c k = Done r c k' /\
    uvmalloc_post a t k f (PGROUNDUP oldsz) (PGROUNDUP newsz) (Z.lor (Z.lor PTE_R PTE_U) xperm) (PGROUNDUP newsz) newsz r k'.
Proof.
  intros Hv Hf Hu Hsz Hmax Hx Hinv. unfold uvmalloc. destruct (Z.ltb_spec newsz oldsz); [lia|].
  destruct (PGROUNDUP_bounds oldsz) as [Ho Hoa]; [lia|]. destruct (PGROUNDUP_bounds newsz) as [Hn Hna]; [lia|].
  apply (uvmalloc_loop_ok _ _ _ a t k a t k f f); try done; try zlia.
  - split; [done|]. split; [done|]. split; [done|]. split; [apply grow_frame_refl|apply accounted_refl].
  - split; [done|]. intros v Hvr. lia.
  - apply (lor_range _ _ 10); done.
Qed.

(** ** [uvmcopy] *)

(** Another page table [tp] standing for [fp], whose pages are apart from [t]. *)
Record parent_ok (a : alloc_spec) (t : ptree) (k : kernel) (tp : ptree) (fp : Z -> Z) (sz : Z) : Prop := {
  pr_wf : pt_wf (mem k) tp;
  pr_is : pt_is k tp fp;
  pr_own : forall p, p ∈ pt_pages tp -> a_ref a p <> 0 /\ p ∉ pt_pages t;
  pr_page : forall v, 0 <= v < sz -> flag (fp v) PTE_V = true -> page_ok (PTE2PA (fp v));
  pr_user : forall v, 0 <= v < sz -> flag (fp v) PTE_V = true ->
    a_ref a (PTE2PA (fp v)) <> 0 /\ PTE2PA (fp v) ∉ pt_pages t
}.

Lemma parent_keeps a a' t t' k k' tp fp sz :
  parent_ok a t k tp fp sz -> grow_frame a a' t t' k k' -> parent_ok a' t' k' tp fp sz.
Proof.
  intros [P1 P2 P3 P4 P5] [_ _ G3 [K1 K2 K3]].
  assert (Hrd : forall q i, q ∈ pt_pages tp -> 0 <= i < 512 -> rd64 (mem k') (pte_addr q i) = rd64 (mem k) (pte_addr q i)).
  { intros q i Hq Hi. apply rdn_ext. intros x Hx. pose proof (wf_page_ok _ _ _ P1 Hq) as Hqo.
    apply (K2 q x); [done|by apply P3|]. pose proof (pte_addr_in q i Hqo Hi). lia. }
  assert (Hkeep : forall q, page_ok q -> a_ref a q <> 0 -> q ∉ pt_pages t -> a_ref a' q <> 0 /\ q ∉ pt_pages t').
  { intros q Hq Hz Hn. rewrite K1 by done. split; [done|]. intros Hin. by destruct (G3 q Hin). }
  split.
  - eapply pt_wf_frame; [done|]. intros q i Hq Hi. apply Hrd; [|done].
    destruct Hq as [->|[j Hj]]; [apply pt_root_in|by eapply pt_mid_in].
  - intros va Hva. rewrite <- P2 by done. apply pte_at_frame. intros q Hq. apply Hrd; [by eapply pt_low_in|].
    apply PX_range; lia.
  - intros q Hq. destruct (P3 q Hq). apply Hkeep; try done. by eapply wf_page_ok.
  - done.
  - intros v Hv Hfl. destruct (P5 v Hv Hfl). apply Hkeep; auto.
Qed.

(** The valid pages of [fp] below [va] are copied to new pages, with the same flags. *)
Definition copied (a0 : alloc_spec) (k0 k : kernel) (fp f g : Z -> Z) (va : Z) : Prop :=
  (forall v, 0 <= v < MAXVA -> ~ (v < va /\ flag (fp v) PTE_V = true) -> g v = f v) /\
  (forall v, 0 <= v < va -> flag (fp v) PTE_V = true ->
    exists p, g v = leaf_pte p (PTE_FLAGS (fp v)) /\ page_ok p /\ a_ref a0 p = 0 /\
      forall x, 0 <= x < PGSIZE -> rd8 (mem k) (p + x) = rd8 (mem k0) (PTE2PA (fp v) + x)).

Lemma copied_ext a0 k0 a a' k1 k2 t t' fp f g g' va sz :
  grow_frame a a' t t' k1 k2 -> um_ok a t g sz -> copied a0 k0 k1 fp f g va -> va <= sz ->
  (forall v, 0 <= v < MAXVA -> g v = g' v) -> sz <= MAXVA -> copied a0 k0 k2 fp f g' va.
Proof.
  intros G Hu [Z1 Z2] Hsz Hg Hmax. split; [intros v Hv Hn; rewrite <- Hg by done; auto|]. intros v Hv Hfl.
  destruct (Z2 v Hv Hfl) as (q & Eq & Hq & Hqz & Hqx). exists q. rewrite <- Hg by lia.
  split; [done|]. split; [done|]. split; [done|].
  destruct (leaf_pte_valid q _ Hq (PTE_FLAGS_range (fp v))) as [HV Epa]. rewrite <- Eq in HV, Epa.
  intros x Hx. rewrite (kp_mem _ _ _ _ _ (gf_keeps _ _ _ _ _ _ G) q (q + x)); [by apply Hqx|done| |lia].
  rewrite <- Epa. split.
  - rewrite (um_ref _ _ _ _ Hu v) by (done || lia). done.
  - apply (um_table _ _ _ _ Hu); [lia|done].
Qed.

Lemma copied_step a0 k0 a t k k2 fp f g va hi p :
  copied a0 k0 k fp f g va -> um_ok a t g hi -> va mod PGSIZE = 0 -> 0 <= va -> va + PGSIZE <= hi -> hi <= MAXVA ->
  (forall v, va <= v < va + PGSIZE -> fp v = fp va) -> flag (fp va) PTE_V = true ->
  (forall q x, page_ok q -> a_ref a q <> 0 -> q ∉ pt_pages t -> q <= x < q + PGSIZE -> rd8 (mem k2) x = rd8 (mem k) x) ->
  page_ok p -> a_ref a0 p = 0 -> (forall x, 0 <= x < PGSIZE -> rd8 (mem k2) (p + x) = rd8 (mem k0) (PTE2PA (fp va) + x)) ->
  copied a0 k0 k2 fp f (mapped g va p (PTE_FLAGS (fp va)) 1) (va + PGSIZE).
Proof.
  intros [Z1 Z2] Hu Ha Hva Hhi Hmax Hpg HV Hmem Hp Hz Hx0. split.
  - intros v Hv Hn. rewrite mapped_1. destruct (decide _) as [Hd|Hd].
    + exfalso. apply Hn. rewrite (Hpg v) by done. split; [lia|done].
    + apply Z1; [done|]. intros [? ?]. apply Hn. split; [lia|done].
  - intros v Hv Hfl. rewrite mapped_1. destruct (decide _) as [Hd|Hd].
    + exists p. rewrite (Hpg v) by done. auto.
    + destruct (Z2 v) as (q & Eq & Hq & Hqz & Hqx); [lia|done|]. exists q. split; [done|]. split; [done|]. split; [done|].
      destruct (leaf_pte_valid q _ Hq (PTE_FLAGS_range (fp v))) as [HVq Epa]. rewrite <- Eq in HVq, Epa.
      intros x Hx. rewrite (Hmem q (q + x)); [by apply Hqx|done| | |lia]; rewrite <- Epa.
      * rewrite (um_ref _ _ _ _ Hu v) by (done || lia). done.
      * apply (um_table _ _ _ _ Hu); [lia|done].
Qed.

(** An invalid page is skipped. *)
Lemma copied_skip a0 k0 k fp f g va :
  copied a0 k0 k fp f g va -> (forall v, va <= v < va + PGSIZE -> flag (fp v) PTE_V = false) ->
  copied a0 k0 k fp f g (va + PGSIZE).
Proof.
  intros [Z1 Z2] Hinv. split.
  - intros v Hv Hn. apply Z1; [done|]. intros [? ?]. apply Hn. split; [lia|done].
  - intros v Hv Hfl. apply Z2; [|done]. destruct (decide (v < va)); [lia|]. rewrite Hinv in Hfl; [done|lia].
Qed.

Definition uvmcopy_post (a0 : alloc_spec) (t0 : ptree) (k0 : kernel) (fp f : Z -> Z) (hi r : Z) (k' : kernel) : Prop :=
  exists a' t' g, grown a0 a' t0 t' k0 k' g hi /\
    ((r = 0 /\ copied a0 k0 k' fp f g hi) \/
     (r = -1 /\ forall v, 0 <= v < MAXVA -> flag (g v) PTE_V = flag (f v) PTE_V /\ (hi <= v -> g v = f v))).

(** The label [err]. *)
Lemma uvmcopy_undo a0 t0 k0 a t k fp f g va hi :
  grown a0 a t0 t k0 k g hi -> copied a0 k0 k fp f g va -> 0 <= va <= hi -> hi <= MAXVA -> va mod PGSIZE = 0 ->
  (forall v, 0 <= v < hi -> flag (f v) PTE_V = false) ->
  exists k', uvmunmap (pt_root t) 0 (va / PGSIZE) true c k = Done tt c k' /\ uvmcopy_post a0 t0 k0 fp f hi (-1) k'.
Proof.
  intros (Hv & Hf & Hu & G & A) [Z1 Z2] Hva Hmax Ha Hinv.
  destruct (uvmunmap_ok (va / PGSIZE) a t k 0 g hi) as (a' & k' & E & Hpost); try done; try zlia.
  replace (0 + va / PGSIZE * PGSIZE) with va in * by zlia. pose proof Hpost as (Hv' & Hf' & Hu' & K' & _).
  destruct (accounted_unmap a t k g hi 0 va a' k' Hv ltac:(lia) Hpost) as [A' Up].
  assert (A2 : accounted a0 a' t (unmapped g 0 va) hi) by (eapply accounted_trans; eauto).
  exists k'. split; [done|]. exists a', t, (unmapped g 0 va).
  split; [split; [done|split; [done|split; [done|split; [|done]]]]|right].
  - split; [apply G..|]. eapply grow_frame_keeps; [exact G|exact K'|].
    intros p Hp Hz0 Hn0 Hz Hn. split; [done|]. split; [done|]. intros v Hvr Hfl Ep.
    destruct (flag (fp v) PTE_V) eqn:Efp.
    + destruct (Z2 v Hvr Efp) as (q & Eq & Hq & Hqz & _).
      destruct (leaf_pte_valid q _ Hq (PTE_FLAGS_range (fp v))) as [_ Epa]. rewrite <- Eq in Epa. congruence.
    + rewrite Z1, Hinv in Hfl; [done|lia|lia|]. intros [_ ?]. congruence.
  - split; [done|]. intros v Hvr. unfold unmapped. destruct (decide (0 <= v < va)) as [Hd|Hd].
    + split; [|lia]. rewrite Hinv by lia. by destruct (flag (g v) PTE_V) eqn:Efl.
    + rewrite Z1 by lia. done.
Qed.

(** What [uvmcopy] sees of the parent's entry for [va]. *)
Lemma uvmcopy_skip n t tp k fp va sz :
  pt_wf (mem k) tp -> pt_is k tp fp -> 0 <= va < sz -> va + PGSIZE <= MAXVA -> flag (fp va) PTE_V = false ->
  uvmcopy_loop (S n) (pt_root tp) (pt_root t) va sz c k = uvmcopy_loop n (pt_root tp) (pt_root t) (va + PGSIZE) sz c k.
Proof.
  intros Hw Hf Hva Hmax Hinv. cbn [uvmcopy_loop]. destruct (Z.leb_spec sz va); [lia|].
  erewrite bind_done by (by apply walk_lookup; [|lia]). rewrite u64_small by lia.
  destruct (Z.eqb_spec (slot tp va) 0) as [|Hs]; [done|].
  erewrite bind_done by (by apply slot_load). by rewrite Hf, Hinv by lia.
Qed.

Lemma uvmcopy_entry n t tp k fp va sz :
  pt_wf (mem k) tp -> pt_is k tp fp -> 0 <= va < sz -> va + PGSIZE <= MAXVA -> flag (fp va) PTE_V = true ->
  uvmcopy_loop (S n) (pt_root tp) (pt_root t) va sz c k =
  (mem <- kalloc ;;
   if mem =? 0 then uvmunmap (pt_root t) 0 (va / PGSIZE) true ;; ret (-1) else
   kmemmove mem (PTE2PA (fp va)) PGSIZE ;;
   r <- mappages (pt_root t) va PGSIZE mem (PTE_FLAGS (fp va)) ;;
   if negb (r =? 0) then kfree mem ;; uvmunmap (pt_root t) 0 (va / PGSIZE) true ;; ret (-1)
   else uvmcopy_loop n (pt_root tp) (pt_root t) (va + PGSIZE) sz) c k.
Proof.
  intros Hw Hf Hva Hmax HV. cbn [uvmcopy_loop]. destruct (Z.leb_spec sz va); [lia|].
  erewrite bind_done by (by apply walk_lookup; [|lia]). rewrite u64_small by lia.
  pose proof (valid_slot tp k va fp Hw Hf ltac:(lia) HV) as Hs.
  destruct (Z.eqb_spec (slot tp va) 0); [done|].
  erewrite bind_done by (by apply slot_load). rewrite Hf, HV by lia. cbn [negb].
  pose proof (PTE_FLAGS_range (fp va)). by rewrite u32_small, i32_small by lia.
Qed.

(** The new page has the contents the parent's page had at the start. *)
Lemma uvmcopy_contents a0 a1 a t0 t k0 k k1 k2 tp fp va hi p :
  parent_ok a0 t0 k0 tp fp hi -> grow_frame a0 a t0 t k0 k -> vm_ok a t k -> 0 <= va < hi -> flag (fp va) PTE_V = true ->
  page_ok p -> a_ref a p = 0 -> keeps (fun q => q <> p) a a1 k k1 -> mem_ok (mem k1) ->
  (forall x, p <= x < p + PGSIZE -> rd8 (mem k2) x = rd8 (memmove (mem k1) p (PTE2PA (fp va)) PGSIZE) x) ->
  forall x, 0 <= x < PGSIZE -> rd8 (mem k2) (p + x) = rd8 (mem k0) (PTE2PA (fp va) + x).
Proof.
  intros Hpar G Hv Hva HV Hp Hz K1 Hm Hx0 x Hx. rewrite Hx0 by lia. rewrite rd8_memmove by (done || lia).
  rewrite decide_True by lia. replace (PTE2PA (fp va) + (p + x - p)) with (PTE2PA (fp va) + x) by lia.
  pose proof (pr_page _ _ _ _ _ _ Hpar va Hva HV) as Hpo. destruct (pr_user _ _ _ _ _ _ Hpar va Hva HV) as [Hz0 Hn0].
  assert (Hne : PTE2PA (fp va) <> p).
  { intros <-. by rewrite (kp_ref _ _ _ _ _ (gf_keeps _ _ _ _ _ _ G)) in Hz. }
  rewrite (kp_mem _ _ _ _ _ K1 (PTE2PA (fp va))) by (done || lia).
  apply (kp_mem _ _ _ _ _ (gf_keeps _ _ _ _ _ _ G) (PTE2PA (fp va))); [done|done|lia].
Qed.

Lemma uvmcopy_loop_ok n a0 t0 k0 a t k tp fp f g va sz hi :
  grown a0 a t0 t k0 k g hi -> parent_ok a0 t0 k0 tp fp hi -> copied a0 k0 k fp f g va -> 0 <= va <= hi ->
  hi = PGROUNDUP sz -> 0 <= sz -> hi <= MAXVA -> sz <= MAXVA -> va mod PGSIZE = 0 ->
  (forall v, 0 <= v < hi -> flag (f v) PTE_V = false) -> hi <= va + Z.of_nat n * PGSIZE ->
  exists r k', uvmcopy_loop (S n) (pt_root tp) (pt_root t) va sz c k = Done r c k' /\ uvmcopy_post a0 t0 k0 fp f hi r k'.
Proof.
  intros Hg Hpar. revert a t k g va Hg.
  induction n as [|n IH]; intros a t k g va Hg Hc Hva Es Hs0 Hmax Hsm Ha Hinv Hfuel; destruct (PGROUNDUP_bounds sz) as [Hb Hba];
    try lia; rewrite <- Es in Hb, Hba.
  - exists 0, k. cbn [uvmcopy_loop]. destruct (Z.leb_spec sz va); [|lia]. split; [done|].
    exists a, t, g. split; [done|]. left. assert (va = hi) as <- by lia. done.
  - destruct (decide (sz <= va)) as [Hge|Hlt].
    { exists 0, k. remember (S n) as m. cbn [uvmcopy_loop]. destruct (Z.leb_spec sz va); [|lia]. split; [done|].
      exists a, t, g. split; [done|]. left. assert (va = hi) as <- by zlia. done. }
    assert (Hstep : va + PGSIZE <= hi) by zlia.
    pose proof Hg as (Hv & Hf & Hu & G & _). pose proof (parent_keeps _ _ _ _ _ _ _ _ _ Hpar G) as Hpar'.
    assert (Hpg : forall v, va <= v < va + PGSIZE -> fp v = fp va).
    { intros v Hvr. apply (pt_is_page k tp fp); [apply Hpar'|lia|lia|zlia]. }
    destruct (flag (fp va) PTE_V) eqn:HV.
    2: { rewrite uvmcopy_skip with (fp := fp); [|apply Hpar'|apply Hpar'|lia|lia|done].
         apply (IH a t k g); try done; try lia; [|zlia]. apply copied_skip; [done|]. intros v Hvr. by rewrite Hpg. }
    rewrite uvmcopy_entry with (fp := fp); [|apply Hpar'|apply Hpar'|lia|lia|done].
    pose proof Hc as [Z1 Z2].
    assert (Hgva : flag (g va) PTE_V = false) by (rewrite Z1; [apply Hinv; lia|lia|intros [? _]; lia]).
    destruct (new_page a t k g hi va (PTE_FLAGS (fp va)) (fun m p => memmove m p (PTE2PA (fp va)) PGSIZE))
      as (p & k1 & E1 & Hcase); [done|done|done|done|lia|done|done|apply PTE_FLAGS_range| | | |].
    { done. }
    { intros m p x Hm Hx. rewrite rd8_memmove by (done || lia). by rewrite decide_False. }
    { intros m p Hm. by apply mem_ok_memmove. }
    erewrite bind_done by exact E1.
    destruct Hcase as [(-> & _ & a1 & Hg1)|(Hnz & r & k2 & E2 & Hcase)].
    + destruct (uvmcopy_undo a0 t0 k0 a1 t k1 fp f g va hi) as (k' & E' & Hpost); try done.
      * eapply grown_trans; [exact Hg|exact Hg1|done].
      * eapply copied_ext; [apply Hg1|done|done|lia|done|done].
      * exists (-1), k'. cbn [Z.eqb]. by erewrite bind_done by exact E'.
    + destruct (Z.eqb_spec p 0); [done|]. erewrite bind_done by reflexivity.
      erewrite bind_done by exact E2.
      destruct Hcase as [(-> & Hp & Hpz & K1 & Hm1 & Hx0 & a2 & t2 & _ & Hg2)|(-> & _ & k3 & a2 & t2 & E3 & Hg2)]; cbn [Z.eqb negb].
      * assert (Er : pt_root t2 = pt_root t) by apply Hg2. rewrite <- Er.
        apply (IH a2 t2 k2 (mapped g va p (PTE_FLAGS (fp va)) 1)); try done; try lia; [|..|zlia].
        { eapply grown_trans; [exact Hg|exact Hg2|]. intros q. apply user_page_mapped; [exact Hgva|].
          intros v Hvr. apply (pt_is_page k t g); [done|lia|lia|zlia]. }
        eapply (copied_step a0 k0 a t k k2); try done; try lia.
        -- intros q x Hq Hqz Hqt Hx. apply (kp_mem _ _ _ _ _ (gf_keeps _ _ _ _ _ _ (proj1 (proj2 (proj2 (proj2 Hg2))))) q x); done.
        -- eapply grow_frame_fresh; [apply G|done..].
        -- eapply uvmcopy_contents; [done|done|exact Hv|lia|done|done|done|exact K1|done|done].
      * erewrite bind_done by exact E3.
        assert (Er : pt_root t2 = pt_root t) by apply Hg2. rewrite <- Er.
        destruct (uvmcopy_undo a0 t0 k0 a2 t2 k3 fp f g va hi) as (k' & E' & Hpost); try done.
        { eapply grown_trans; [exact Hg|exact Hg2|done]. }
        { eapply copied_ext; [apply Hg2|done|done|lia|done|done]. }
        exists (-1), k'. by erewrite bind_done by exact E'.
Qed.

Lemma uvmcopy_ok a t k tp fp f sz :
  vm_ok a t k -> pt_is k t f -> um_ok a t f (PGROUNDUP sz) -> parent_ok a t k tp fp (PGROUNDUP sz) ->
  0 <= sz <= MAXVA -> (forall v, 0 <= v < PGROUNDUP sz -> flag (f v) PTE_V = false) ->
  exists r k', uvmcopy (pt_root tp) (pt_root t) sz c k = Done r c k' /\ uvmcopy_post a t k fp f (PGROUNDUP sz) r k'.
Proof.
  intros Hv Hf Hu Hpar Hsz Hinv. destruct (PGROUNDUP_bounds sz) as [Hn Hna]; [lia|]. unfold uvmcopy.
  apply (uvmcopy_loop_ok _ a t k a t k tp fp f f); try done; try zlia.
  - split; [done|]. split; [done|]. split; [done|]. split; [apply grow_frame_refl|apply accounted_refl].
  - split; [done|]. intros v Hvr. lia.
Qed.

(** ** Copies between user and kernel *)

(** The byte a process sees at [va]. *)
Definition ubyte (m : memory) (f : Z -> Z) (va : Z) : Z := rd8 m (PTE2PA (f va) + va mod PGSIZE).

Definition ubytes (m : memory) (f : Z -> Z) (va : Z) (n : nat) : list Z :=
  (fun i => ubyte m f (va + Z.of_nat i)) <$> seq 0 n.

(** The process may access [va]. *)
Definition user_ok (f : Z -> Z) (va : Z) : bool := flag (f va) PTE_V && flag (f va) PTE_U.

Lemma walkaddr_ok t k f va :
  pt_wf (mem k) t -> pt_is k t f -> 0 <= va < MAXVA ->
  walkaddr (pt_root t) va c k = Done (if user_ok f va then PTE2PA (f va) else 0) c k.
Proof.
  intros Hw Hf Hva. unfold walkaddr, user_ok. destruct (Z.leb_spec MAXVA va); [lia|].
  erewrite bind_done by (by apply walk_lookup). destruct (Z.eqb_spec (slot t va) 0) as [Hs|Hs].
  - rewrite <- Hf by done. rewrite (pte_at_slot_0 _ _ _ Hs Hw). done.
  - erewrite bind_done by (by apply slot_load). rewrite Hf by done.
    destruct (flag (f va) PTE_V), (flag (f va) PTE_U); done.
Qed.

Lemma ubytes_app m f va n1 n2 : ubytes m f va (n1 + n2) = ubytes m f va n1 ++ ubytes m f (va + Z.of_nat n1) n2.
Proof.
  unfold ubytes. rewrite seq_app, fmap_app. f_equal. rewrite Nat.add_0_l.
  replace (seq n1 n2) with (Nat.add n1 <$> seq 0 n2) by (rewrite fmap_add_seq; f_equal; lia).
  rewrite <- list_fmap_compose. apply list_fmap_ext. intros i x _. simpl. f_equal. lia.
Qed.

(** The part of a user region inside one page is contiguous in memory. *)
Lemma ubytes_page m k t f va n :
  pt_is k t f -> 0 <= va -> va mod PGSIZE + Z.of_nat n <= PGSIZE -> va + Z.of_nat n <= MAXVA -> 
  ubytes m f va n = rdbytes m (PTE2PA (f va) + va mod PGSIZE) n.
Proof.
  intros Hf Hva Hn Hmax. unfold ubytes, rdbytes. apply list_fmap_ext. intros i x Hi.
  apply lookup_seq in Hi as [-> Hi]. unfold ubyte. rewrite (pt_is_page k t f (va + Z.of_nat (0 + i)) va);
    [|done|lia|lia|zlia]. f_equal. zlia.
Qed.

Lemma copyin_loop_ok n t k f dst srcva len :
  pt_wf (mem k) t -> pt_is k t f -> 0 <= srcva -> 0 <= len -> srcva + len <= MAXVA ->
  (forall v, srcva <= v < srcva + len -> user_ok f v = true /\ PTE2PA (f v) <> 0) ->
  srcva mod PGSIZE + len <= Z.of_nat n * PGSIZE ->
  copyin_loop (S n) (pt_root t) dst srcva len c k = Done (0, dst ++ ubytes (mem k) f srcva (Z.to_nat len)) c k.
Proof.
  intros Hw Hf. revert dst srcva len. induction n as [|n IH]; intros dst srcva len Hs Hl Hmax Hacc Hfuel.
  - assert (len = 0) as -> by zlia. cbn [copyin_loop Z.eqb]. by rewrite app_nil_r.
  - remember (S n) as m eqn:Em. cbn [copyin_loop]. destruct (Z.eqb_spec len 0) as [->|Hnz].
    { by rewrite app_nil_r. }
    rewrite PGROUNDDOWN_eq. set (va0 := PGSIZE * (srcva / PGSIZE)).
    assert (Hoff : srcva - va0 = srcva mod PGSIZE) by (unfold va0; zlia).
    assert (Hva0 : 0 <= va0 <= srcva) by (unfold va0; zlia).
    assert (Epg : f va0 = f srcva) by (apply (pt_is_page k t f); [done|lia|lia|unfold va0; zlia]).
    destruct (Hacc srcva) as [HU Hp0]; [lia|]. unfold user_ok in HU. rewrite <- Epg in HU, Hp0.
    erewrite bind_done by (by apply walkaddr_ok; [..|lia]). unfold user_ok. rewrite HU.
    destruct (Z.eqb_spec (PTE2PA (f va0)) 0) as [|_]; [done|]. erewrite bind_done by reflexivity.
    destruct (Z.eqb_spec (PTE2PA (f va0)) 0) as [|_]; [done|]. rewrite Hoff.
    set (w := if PGSIZE - srcva mod PGSIZE >? len then len else PGSIZE - srcva mod PGSIZE).
    assert (Hn1 : 0 < w <= len /\ srcva mod PGSIZE + w <= PGSIZE /\ (w = len \/ va0 + PGSIZE = srcva + w)).
    { unfold w. destruct (Z.gtb_spec (PGSIZE - srcva mod PGSIZE) len); zlia. }
    clearbody w. erewrite bind_done by reflexivity. rewrite u64_small by lia.
    rewrite Epg, <- (ubytes_page (mem k) k t f) by (done || lia).
    destruct (decide (w = len)) as [->|Hne].
    + subst m. rewrite Z.sub_diag. cbn [copyin_loop Z.eqb]. done.
    + destruct Hn1 as (Hn1 & Hn2 & [|Hn3]); [done|]. rewrite IH; [|unfold va0; lia|lia|lia| |].
      * rewrite <- app_assoc, Hn3. do 3 f_equal.
        replace (Z.to_nat len) with (Z.to_nat w + Z.to_nat (len - w))%nat by lia.
        rewrite ubytes_app. do 2 f_equal. lia.
      * intros v Hv. apply Hacc. lia.
      * unfold va0. zlia.
Qed.

Lemma ubyte_page_keep m m' a t f sz v q :
  um_ok a t f sz -> 0 <= v < sz -> flag (f v) PTE_V = true -> page_ok q -> PTE2PA (f v) <> q ->
  (forall x, ~ (q <= x < q + PGSIZE) -> rd8 m' x = rd8 m x) -> ubyte m' f v = ubyte m f v.
Proof.
  intros Hu Hv HV Hq Hne Hout. unfold ubyte. apply Hout. pose proof (um_page _ _ _ _ Hu v Hv HV) as Hp.
  apply (page_apart q (PTE2PA (f v))); [done|done|congruence|]. zlia.
Qed.

(** Bytes [src] written at [va], inside one page. *)
Lemma write_user_ok a t k f sz va bs :
  vm_ok a t k -> pt_is k t f -> um_ok a t f sz -> 0 <= va < sz -> sz <= MAXVA -> flag (f va) PTE_V = true ->
  va mod PGSIZE + Z.of_nat (length bs) <= PGSIZE -> va + Z.of_nat (length bs) <= sz ->
  let k' := k <| mem ::= fun m => wrbytes m (PTE2PA (f va) + va mod PGSIZE) bs |> in
  vm_ok a t k' /\ pt_is k' t f /\ keeps (fun q => q <> PTE2PA (f va)) a a k k' /\
  forall v, 0 <= v < sz -> flag (f v) PTE_V = true -> ubyte (mem k') f v =
    if decide (va <= v < va + Z.of_nat (length bs)) then u8 (nthd 0 bs (v - va)) else ubyte (mem k) f v.
Proof.
  intros Hv Hf Hu Hva Hmax HV Hpg Hsz k'. pose proof (um_page _ _ _ _ Hu va Hva HV) as Hp.
  assert (Hout : forall x, ~ (PTE2PA (f va) <= x < PTE2PA (f va) + PGSIZE) ->
    rd8 (wrbytes (mem k) (PTE2PA (f va) + va mod PGSIZE) bs) x = rd8 (mem k) x).
  { intros x Hx. rewrite rd8_wrbytes, decide_False; [done|]. zlia. }
  destruct (write_page_ok a t k f (PTE2PA (f va)) (wrbytes (mem k) (PTE2PA (f va) + va mod PGSIZE) bs)) as (Hv' & Hf' & K').
  - done.
  - done.
  - done.
  - rewrite (um_ref _ _ _ _ Hu) by done. done.
  - by apply (um_table _ _ _ _ Hu).
  - apply mem_ok_wrbytes, Hv.
  - done.
  - split; [done|]. split; [done|]. split; [done|]. intros v Hvr HVv.
    destruct (decide (v / PGSIZE = va / PGSIZE)) as [E|E].
    + assert (Efv : f v = f va) by (apply (pt_is_page k t f); [done|lia|lia|done]).
      unfold ubyte, k'. kred. rewrite Efv, rd8_wrbytes.
      destruct (decide (PTE2PA (f va) + va mod PGSIZE <= _ < _)), (decide (va <= v < _)); try done; try zlia.
      do 2 f_equal. zlia.
    + rewrite decide_False by zlia. eapply (ubyte_page_keep _ _ a t f sz v (PTE2PA (f va))); try done.
      intros Eq. apply E. by eapply um_inj.
Qed.

Lemma copyout_loop_ok n a t k f sz dstva src len :
  vm_ok a t k -> pt_is k t f -> um_ok a t f sz -> 0 <= dstva -> 0 <= len -> dstva + len <= sz -> sz <= MAXVA ->
  len <= Z.of_nat (length src) ->
  (forall v, dstva <= v < dstva + len -> user_ok f v = true /\ flag (f v) PTE_W = true) ->
  dstva mod PGSIZE + len <= Z.of_nat n * PGSIZE ->
  exists k', copyout_loop (S n) (pt_root t) dstva src len c k = Done 0 c k' /\ vm_ok a t k' /\ pt_is k' t f /\
    keeps (fun q => forall v, dstva <= v < dstva + len -> PTE2PA (f v) <> q) a a k k' /\
    forall v, 0 <= v < sz -> flag (f v) PTE_V = true -> ubyte (mem k') f v =
      if decide (dstva <= v < dstva + len) then u8 (nthd 0 src (v - dstva)) else ubyte (mem k) f v.
Proof.
  intros Hv Hf Hu. revert k dstva src len Hv Hf. induction n as [|n IH]; intros k dstva src len Hv Hf Hd Hl Hsz Hmax Hsrc Hacc Hfuel.
  - assert (len = 0) as -> by zlia. exists k. cbn [copyout_loop Z.eqb]. split; [done|]. split; [done|]. split; [done|].
    split; [apply keeps_refl|]. intros v Hvr HV. by rewrite decide_False by lia.
  - remember (S n) as m eqn:Em. cbn [copyout_loop]. destruct (Z.eqb_spec len 0) as [->|Hnz].
    { exists k. split; [done|]. split; [done|]. split; [done|].
      split; [apply keeps_refl|]. intros v Hvr HV. by rewrite decide_False by lia. }
    rewrite PGROUNDDOWN_eq. set (va0 := PGSIZE * (dstva / PGSIZE)).
    assert (Hoff : dstva - va0 = dstva mod PGSIZE) by (unfold va0; zlia).
    assert (Hva0 : 0 <= va0 <= dstva) by (unfold va0; zlia).
    assert (Epg : f va0 = f dstva) by (apply (pt_is_page k t f); [done|lia|lia|unfold va0; zlia]).
    destruct (Hacc dstva) as [HU HW]; [lia|]. pose proof HU as HU'. unfold user_ok in HU'. apply andb_prop in HU' as [HV _].
    destruct (page_ok_range _ (um_page _ _ _ _ Hu dstva ltac:(lia) HV)) as [Hpr _].
    destruct (Z.leb_spec MAXVA va0); [lia|].
    erewrite bind_done by (apply walkaddr_ok; [apply Hv|done|lia]).
    assert (EU : user_ok f va0 = true) by (unfold user_ok in *; by rewrite Epg). rewrite EU, Epg.
    destruct (Z.eqb_spec (PTE2PA (f dstva)) 0) as [|_]; [lia|]. erewrite bind_done by reflexivity.
    destruct (Z.eqb_spec (PTE2PA (f dstva)) 0) as [|_]; [lia|].
    erewrite bind_done by (apply walk_lookup; [apply Hv|lia]).
    assert (Hs : slot t va0 <> 0) by (eapply (valid_slot t k va0 f); [apply Hv|done|lia|by rewrite Epg]).
    unfold loadp. destruct (Z.eqb_spec (slot t va0) 0) as [|_]; [done|].
    erewrite bind_done by (by apply slot_load). rewrite Hf, Epg, HW by lia. cbn [negb]. rewrite Hoff.
    set (w := if PGSIZE - dstva mod PGSIZE >? len then len else PGSIZE - dstva mod PGSIZE).
    assert (Hw : 0 < w <= len /\ dstva mod PGSIZE + w <= PGSIZE /\ (w = len \/ va0 + PGSIZE = dstva + w)).
    { unfold w. destruct (Z.gtb_spec (PGSIZE - dstva mod PGSIZE) len); zlia. }
    clearbody w. assert (Hlen : Z.of_nat (length (take (Z.to_nat w) src)) = w) by (rewrite length_take; lia).
    destruct (write_user_ok a t k f sz dstva (take (Z.to_nat w) src)) as (Hv1 & Hf1 & K1 & Hb1); try done; try lia.
    rewrite Hlen in Hb1.
    set (k1 := k <| mem ::= fun m => wrbytes m (PTE2PA (f dstva) + dstva mod PGSIZE) (take (Z.to_nat w) src) |>) in *.
    erewrite bind_done by reflexivity. fold k1. rewrite u64_small by lia.
    destruct (decide (w = len)) as [->|Hne].
    { exists k1. subst m. rewrite Z.sub_diag. cbn [copyout_loop Z.eqb]. split; [done|]. split; [done|]. split; [done|]. split.
      - eapply keeps_weaken; [|exact K1]. intros q Hq. apply not_eq_sym, Hq. lia.
      - intros v Hvr HVv. rewrite Hb1 by done. destruct (decide _); [|done]. by rewrite nthd_take by lia. }
    destruct (IH k1 (va0 + PGSIZE) (drop (Z.to_nat w) src) (len - w)) as (k2 & E2 & Hv2 & Hf2 & K2 & Hb2);
      [done|done|lia..|rewrite length_drop; lia|intros v Hvr; apply Hacc; lia|unfold va0; zlia|].
    exists k2. subst m. split; [exact E2|]. split; [done|]. split; [done|]. split.
    + eapply keeps_trans; [eapply keeps_weaken; [|exact K1]|exact K2|].
      * intros q Hq. apply not_eq_sym, Hq. lia.
      * intros q _ Hq _ v Hvr. apply Hq. lia.
    + intros v Hvr HVv. rewrite Hb2, Hb1 by done.
      destruct (decide (va0 + PGSIZE <= v < _)), (decide (dstva <= v < dstva + w)), (decide (dstva <= v < dstva + len)); try lia.
      * rewrite nthd_drop by lia. do 2 f_equal. lia.
      * by rewrite nthd_take by lia.
Qed.

Lemma copyout_ok a t k f sz dstva src len :
  vm_ok a t k -> pt_is k t f -> um_ok a t f sz -> 0 <= dstva -> 0 <= len -> dstva + len <= sz -> sz <= MAXVA ->
  len <= Z.of_nat (length src) ->
  (forall v, dstva <= v < dstva + len -> user_ok f v = true /\ flag (f v) PTE_W = true) ->
  exists k', copyout (pt_root t) dstva src len c k = Done 0 c k' /\ vm_ok a t k' /\ pt_is k' t f /\
    keeps (fun q => forall v, dstva <= v < dstva + len -> PTE2PA (f v) <> q) a a k k' /\
    forall v, 0 <= v < sz -> flag (f v) PTE_V = true -> ubyte (mem k') f v =
      if decide (dstva <= v < dstva + len) then u8 (nthd 0 src (v - dstva)) else ubyte (mem k) f v.
Proof. intros. apply copyout_loop_ok; try done. zlia. Qed.

Lemma copyin_ok t k f srcva len :
  pt_wf (mem k) t -> pt_is k t f -> 0 <= srcva -> 0 <= len -> srcva + len <= MAXVA ->
  (forall v, srcva <= v < srcva + len -> user_ok f v = true /\ PTE2PA (f v) <> 0) ->
  copyin (pt_root t) srcva len c k = Done (0, ubytes (mem k) f srcva (Z.to_nat len)) c k.
Proof. intros. unfold copyin. rewrite (copyin_loop_ok _ t k f); try done. zlia. Qed.

(** The inner loop of [copyinstr] stops after the first 0. *)
Lemma copyinstr_inner_nul n m p dst max l :
  (l < n)%nat -> (forall i, (i < l)%nat -> rd8 m (p + Z.of_nat i) <> 0) -> rd8 m (p + Z.of_nat l) = 0 ->
  copyinstr_inner n m p dst max = (dst ++ rdbytes m p (S l), true, max - Z.of_nat l).
Proof.
  revert p dst max l. induction n as [|n IH]; intros p dst max l Hl Hnz Hz; [lia|]. cbn [copyinstr_inner].
  rewrite rdbytes_cons. destruct l as [|l].
  - rewrite Z.add_0_r in Hz. rewrite Hz, Z.sub_0_r. done.
  - specialize (Hnz 0%nat) as H0. rewrite Z.add_0_r in H0. destruct (Z.eqb_spec (rd8 m p) 0); [lia|].
    rewrite (IH _ _ _ l); [|lia| |rewrite <- Hz; f_equal; lia].
    + rewrite <- app_assoc. f_equal. lia.
    + intros i Hi. specialize (Hnz (S i)). replace (p + 1 + Z.of_nat i) with (p + Z.of_nat (S i)) by lia. apply Hnz. lia.
Qed.

Lemma copyinstr_inner_all n m p dst max :
  (forall i, (i < n)%nat -> rd8 m (p + Z.of_nat i) <> 0) ->
  copyinstr_inner n m p dst max = (dst ++ rdbytes m p n, false, max - Z.of_nat n).
Proof.
  revert p dst max. induction n as [|n IH]; intros p dst max Hnz; cbn [copyinstr_inner].
  - rewrite app_nil_r. f_equal. lia.
  - specialize (Hnz 0%nat) as H0. rewrite Z.add_0_r in H0. destruct (Z.eqb_spec (rd8 m p) 0); [lia|].
    rewrite IH, rdbytes_cons.
    + rewrite <- app_assoc. f_equal. lia.
    + intros i Hi. specialize (Hnz (S i)). replace (p + 1 + Z.of_nat i) with (p + Z.of_nat (S i)) by lia. apply Hnz. lia.
Qed.

(** Bytes of one page. *)
Lemma ubyte_page m k t f va i :
  pt_is k t f -> 0 <= va -> 0 <= i -> va mod PGSIZE + i < PGSIZE -> va + i < MAXVA ->
  rd8 m (PTE2PA (f va) + va mod PGSIZE + i) = ubyte m f (va + i).
Proof.
  intros Hf Hva Hi Hpg Hmax. unfold ubyte. rewrite (pt_is_page k t f (va + i) va); [|done|lia|lia|zlia].
  f_equal. zlia.
Qed.

(** One round of the outer loop: the bytes of the page [srcva] is in. *)
Lemma copyinstr_round n t k f dst srcva max :
  pt_wf (mem k) t -> pt_is k t f -> 0 <= srcva < MAXVA -> 0 < max -> user_ok f srcva = true -> PTE2PA (f srcva) <> 0 ->
  copyinstr_loop (S n) (pt_root t) dst srcva max c k =
  (let w := Z.min max (PGSIZE - srcva mod PGSIZE) in
   '(dst, got_null, max) <-
     gets (fun k => copyinstr_inner (Z.to_nat w) (mem k) (PTE2PA (f srcva) + srcva mod PGSIZE) dst max) ;;
   if (got_null : bool) then ret (0, dst)
   else copyinstr_loop n (pt_root t) dst (srcva - srcva mod PGSIZE + PGSIZE) max) c k.
Proof.
  intros Hw Hf Hva Hmax HU Hp0. cbn [copyinstr_loop]. destruct (Z.eqb_spec max 0); [lia|].
  rewrite PGROUNDDOWN_eq.
  assert (E0 : PGSIZE * (srcva / PGSIZE) = srcva - srcva mod PGSIZE) by zlia. rewrite E0.
  assert (Epg : f (srcva - srcva mod PGSIZE) = f srcva) by (apply (pt_is_page k t f); [done|zlia|lia|zlia]).
  erewrite bind_done by (apply walkaddr_ok; [done|done|zlia]). unfold user_ok in *. rewrite Epg, HU.
  destruct (Z.eqb_spec (PTE2PA (f srcva)) 0); [done|].
  replace (srcva - (srcva - srcva mod PGSIZE)) with (srcva mod PGSIZE) by lia. rewrite u64_small by zlia.
  replace (if PGSIZE - srcva mod PGSIZE >? max then max else PGSIZE - srcva mod PGSIZE)
    with (Z.min max (PGSIZE - srcva mod PGSIZE)) by (destruct (Z.gtb_spec (PGSIZE - srcva mod PGSIZE) max); lia).
  reflexivity.
Qed.

Lemma copyinstr_loop_nul n t k f dst srcva max l :
  pt_wf (mem k) t -> pt_is k t f -> 0 <= srcva -> 0 <= l < max -> srcva + l < MAXVA ->
  (forall v, srcva <= v <= srcva + l -> user_ok f v = true /\ PTE2PA (f v) <> 0) ->
  (forall i, 0 <= i < l -> ubyte (mem k) f (srcva + i) <> 0) -> ubyte (mem k) f (srcva + l) = 0 ->
  srcva mod PGSIZE + l < Z.of_nat n * PGSIZE ->
  copyinstr_loop n (pt_root t) dst srcva max c k = Done (0, dst ++ ubytes (mem k) f srcva (S (Z.to_nat l))) c k.
Proof.
  intros Hw Hf. revert dst srcva max l. induction n as [|n IH]; intros dst srcva max l Hs Hl Hmax Hacc Hnz Hz Hfuel; [zlia|].
  destruct (Hacc srcva) as [HU Hp0]; [lia|]. rewrite (copyinstr_round n t k f) by (done || lia). cbv zeta.
  set (w := Z.min max (PGSIZE - srcva mod PGSIZE)). assert (Hwb : 0 < w /\ srcva mod PGSIZE + w <= PGSIZE) by (unfold w; zlia).
  destruct (decide (l < w)) as [Hlt|Hge].
  - erewrite bind_done by reflexivity. rewrite (copyinstr_inner_nul _ _ _ _ _ (Z.to_nat l)); [|lia| |].
    + unfold ret. do 3 f_equal. symmetry. apply (ubytes_page (mem k) k t f); done || lia.
    + intros i Hi. rewrite (ubyte_page _ k t f) by (done || lia). apply Hnz. lia.
    + rewrite (ubyte_page _ k t f) by (done || lia). rewrite <- Hz. f_equal. lia.
  - assert (Ew : w = PGSIZE - srcva mod PGSIZE) by (unfold w in *; lia).
    erewrite bind_done by reflexivity. rewrite copyinstr_inner_all.
    2: { intros i Hi. rewrite (ubyte_page _ k t f) by (done || lia). apply Hnz. lia. }
    rewrite <- (ubytes_page (mem k) k t f) by (done || lia).
    assert (En : srcva - srcva mod PGSIZE + PGSIZE = srcva + w) by lia. rewrite En, Z2Nat.id by lia.
    rewrite (IH _ _ _ (l - w)); try lia.
    + rewrite <- app_assoc. do 3 f_equal.
      replace (S (Z.to_nat l)) with (Z.to_nat w + S (Z.to_nat (l - w)))%nat by lia.
      rewrite ubytes_app. do 2 f_equal. lia.
    + intros v Hv. apply Hacc. lia.
    + intros i Hi. replace (srcva + w + i) with (srcva + (w + i)) by lia. apply Hnz. lia.
    + rewrite <- Hz. f_equal. lia.
    + zlia.
Qed.

Lemma copyinstr_loop_long n t k f dst srcva max :
  pt_wf (mem k) t -> pt_is k t f -> 0 <= srcva -> 0 <= max -> srcva + max <= MAXVA ->
  (forall v, srcva <= v < srcva + max -> user_ok f v = true /\ PTE2PA (f v) <> 0) ->
  (forall i, 0 <= i < max -> ubyte (mem k) f (srcva + i) <> 0) ->
  srcva mod PGSIZE + max <= Z.of_nat n * PGSIZE ->
  copyinstr_loop (S n) (pt_root t) dst srcva max c k = Done (-1, dst ++ ubytes (mem k) f srcva (Z.to_nat max)) c k.
Proof.
  intros Hw Hf. revert dst srcva max. induction n as [|n IH]; intros dst srcva max Hs Hl Hmax Hacc Hnz Hfuel.
  { assert (max = 0) as -> by zlia. cbn [copyinstr_loop Z.eqb]. by rewrite app_nil_r. }
  destruct (decide (max = 0)) as [->|Hpos].
  { remember (S n) as m. cbn [copyinstr_loop Z.eqb]. by rewrite app_nil_r. }
  destruct (Hacc srcva) as [HU Hp0]; [lia|]. rewrite (copyinstr_round _ t k f) by (done || lia). cbv zeta.
  set (w := Z.min max (PGSIZE - srcva mod PGSIZE)). assert (Hwb : 0 < w <= max /\ srcva mod PGSIZE + w <= PGSIZE) by (unfold w; zlia).
  erewrite bind_done by reflexivity. rewrite copyinstr_inner_all.
  2: { intros i Hi. rewrite (ubyte_page _ k t f) by (done || lia). apply Hnz. lia. }
  rewrite <- (ubytes_page (mem k) k t f) by (done || lia). rewrite Z2Nat.id by lia.
  destruct (decide (w = max)) as [->|Hne].
  { rewrite Z.sub_diag. cbn [copyinstr_loop Z.eqb]. done. }
  assert (En : srcva - srcva mod PGSIZE + PGSIZE = srcva + w) by (unfold w in *; lia). rewrite En.
  rewrite IH; try lia.
  - rewrite <- app_assoc. do 3 f_equal. replace (Z.to_nat max) with (Z.to_nat w + Z.to_nat (max - w))%nat by lia.
    rewrite ubytes_app. do 2 f_equal. lia.
  - intros v Hv. apply Hacc. lia.
  - intros i Hi. replace (srcva + w + i) with (srcva + (w + i)) by lia. apply Hnz. lia.
  - unfold w in *. zlia.
Qed.

(** ** Page faults *)

Lemma ismapped_ok t k f va :
  pt_wf (mem k) t -> pt_is k t f -> 0 <= va < MAXVA -> ismapped (pt_root t) va c k = Done (flag (f va) PTE_V) c k.
Proof.
  intros Hw Hf Hva. unfold ismapped. erewrite bind_done by (by apply walk_lookup).
  rewrite <- Hf by done. destruct (Z.eqb_spec (slot t va) 0) as [Hs|Hs].
  - by rewrite (pte_at_slot_0 _ _ _ Hs Hw).
  - by erewrite bind_done by (by apply slot_load).
Qed.

(** [vmfault] maps nothing at an address that is not below [p->sz] or that is mapped. *)
Lemma vmfault_refuses t k f i p va rd :
  pt_wf (mem k) t -> pt_is k t f -> cpu_proc c = Some i -> procs k !! i = Some p -> 0 <= va -> p_sz p <= MAXVA ->
  p_sz p <= va \/ flag (f va) PTE_V = true -> vmfault (pt_root t) va rd c k = Done 0 c k.
Proof.
  intros Hw Hf Hi Hp Hva Hmax Hno. destruct (PGROUNDDOWN_bounds va) as [Hd Hda]. unfold vmfault.
  erewrite bind_done by (by apply curproc_done). erewrite bind_done by (by apply getproc_done).
  destruct (Z.leb_spec (p_sz p) va) as [|Hlt]; [done|]. destruct Hno as [|HV]; [lia|].
  assert (Epg : f (PGROUNDDOWN va) = f va) by (apply (pt_is_page k t f); [done|zlia|lia|zlia]).
  erewrite bind_done by (apply ismapped_ok; [done|done|zlia]). by rewrite Epg, HV.
Qed.

Definition vmfault_perm : Z := Z.lor (Z.lor PTE_W PTE_U) PTE_R.

Lemma vmfault_ok a t k f i p va rd :
  vm_ok a t k -> pt_is k t f -> um_ok a t f (PGROUNDUP (p_sz p)) -> cpu_proc c = Some i -> procs k !! i = Some p ->
  p_pagetable p = pt_root t -> 0 <= va < p_sz p -> p_sz p <= MAXVA -> flag (f va) PTE_V = false ->
  exists r k' a' t', vmfault (pt_root t) va rd c k = Done r c k' /\
    ((r = 0 /\ nfree a < 3 /\ grown a a' t t' k k' f (PGROUNDUP (p_sz p))) \/
     (page_ok r /\ a_ref a r = 0 /\ (forall x, r <= x < r + PGSIZE -> rd8 (mem k') x = 0) /\
      grown a a' t t' k k' (mapped f (PGROUNDDOWN va) r vmfault_perm 1) (PGROUNDUP (p_sz p)))).
Proof.
  intros Hv Hf Hu Hi Hp Hpt Hva Hmax Hinv. destruct (PGROUNDUP_bounds (p_sz p)) as [Hb Hba]; [lia|].
  destruct (PGROUNDDOWN_bounds va) as [Hd Hda]. unfold vmfault.
  erewrite bind_done by (by apply curproc_done). erewrite bind_done by (by apply getproc_done).
  destruct (Z.leb_spec (p_sz p) va); [lia|]. set (va0 := PGROUNDDOWN va) in *.
  assert (Epg : f va0 = f va) by (apply (pt_is_page k t f); [done|zlia|lia|zlia]).
  erewrite bind_done by (apply ismapped_ok; [apply Hv|done|zlia]). rewrite Epg, Hinv, Hpt.
  destruct (new_page a t k f (PGROUNDUP (p_sz p)) va0 vmfault_perm (fun m p => memset m p 0 PGSIZE)) as (q & k1 & E1 & Hcase);
    [done|done|done|done|zlia|zlia|zlia|by vm_compute|by rewrite Epg|intros; by apply rd8_memset_out|intros; by apply mem_ok_memset|].
  erewrite bind_done by exact E1.
  destruct Hcase as [(-> & Hfew & a1 & Hg1)|(Hnz & r & k2 & E2 & Hcase)].
  { exists 0, k1, a1, t. split; [done|]. by left. }
  destruct (Z.eqb_spec q 0); [done|]. erewrite bind_done by reflexivity. erewrite bind_done by exact E2.
  destruct Hcase as [(-> & Hq & Hqz & _ & _ & Hx0 & a2 & t2 & _ & Hg2)|(-> & Hfew & k3 & a2 & t2 & E3 & Hg2)]; cbn [Z.eqb negb].
  - exists q, k2, a2, t2. split; [done|]. right. split; [done|]. split; [done|]. split; [|done].
    intros x Hx. rewrite Hx0 by done. rewrite rd8_memset by lia. by rewrite decide_True.
  - exists 0, k3, a2, t2. split; [|by left]. by erewrite bind_done by exact E3.
Qed.

End unmap.

(** ** Theorems *)

Section usermem_theorems.
Context {LK : Linker} {LKO : LinkerOk}.
Context (c : cpu) (HK : LKmem ∉ held c) (HR : LRef ∉ held c) (HP : LPr ∉ held c).
Implicit Types (k : kernel) (t : ptree) (f : Z -> Z).

(** [mappages] of [n] pages that are not mapped yet, allocating the page-table pages it
    needs: on success exactly the entries of the range are new, and point to consecutive
    physical pages with the permissions asked for; when memory runs out it returns -1 and a
    prefix of the range is mapped.  No other entry changes, and no page that belongs to
    anyone else is written. *)
Theorem mappages_installs a t k f va n pa perm :
  vm_ok a t k -> pt_is k t f -> 0 < n -> va mod PGSIZE = 0 -> 0 <= va -> va + n * PGSIZE <= MAXVA ->
  0 <= pa -> pa + n * PGSIZE <= 2 ^ 56 -> 0 <= perm < 1024 ->
  (forall v, va <= v < va + n * PGSIZE -> flag (f v) PTE_V = false) ->
  exists a' t' k' r j, mappages (pt_root t) va (n * PGSIZE) pa perm c k = Done r c k' /\ vm_ok a' t' k' /\
    ((r = 0 /\ j = n) \/ (r = -1 /\ 0 <= j < n /\ a_free a' = [])) /\
    (forall v, 0 <= v < MAXVA -> pte_at (mem k') t' v =
      if decide (va <= v < va + j * PGSIZE) then leaf_pte (pa + (v - va) / PGSIZE * PGSIZE) perm else f v) /\
    keeps (fun p => a_ref a p <> 0 /\ p ∉ pt_pages t) a a' k k'.
Proof using LKO HK HR HP.
  intros Hv Hf Hn Ha Hva Hmax Hpa Hpm Hperm Hinv.
  destruct (mappages_ok n pa perm c a t k va f) as (a' & t' & k' & r & j & E & Hv' & F & Hf' & _ & Hr); try done.
  exists a', t', k', r, j. split; [done|]. split; [done|]. split; [naive_solver|]. split; [exact Hf'|]. by eapply vm_frame_keeps.
Qed.

(** [uvmunmap] with [do_free] never panics on a well-formed page table; afterwards no entry
    of the range is valid, the other entries are as before, the pages that were mapped in the
    range are exactly the ones added to the free list, and every page outside the range keeps
    its contents and count. *)
Theorem uvmunmap_frees a t k f sz va n :
  vm_ok a t k -> pt_is k t f -> um_ok a t f sz -> va mod PGSIZE = 0 -> 0 <= va -> 0 <= n ->
  va + n * PGSIZE <= sz -> sz <= MAXVA ->
  exists a' k', uvmunmap (pt_root t) va n true c k = Done tt c k' /\ vm_ok a' t k' /\ um_ok a' t (unmapped f va (va + n * PGSIZE)) sz /\
    (forall v, 0 <= v < MAXVA -> pte_at (mem k') t v =
       if decide (va <= v < va + n * PGSIZE) then (if flag (f v) PTE_V then 0 else f v) else f v) /\
    (forall p, p ∈ a_free a' <-> p ∈ a_free a \/
      exists v, va <= v < va + n * PGSIZE /\ flag (f v) PTE_V = true /\ PTE2PA (f v) = p) /\
    keeps (outside a t f va (va + n * PGSIZE)) a a' k k'.
Proof using LKO HK HR.
  intros Hv Hf Hu Ha Hva Hn Hsz Hmax.
  destruct (uvmunmap_ok c HK HR n a t k va f sz) as (a' & k' & E & Hv' & Hf' & Hu' & K' & Hfr); try done.
  exists a', k'. split; [done|]. split; [done|]. split; [done|]. split; [exact Hf'|]. done.
Qed.

(** The bytes of a mapped page are kept. *)
Lemma ubyte_keeps (P : Z -> Prop) a a' t f sz k k' v :
  um_ok a t f sz -> keeps P a a' k k' -> 0 <= v < sz -> flag (f v) PTE_V = true -> P (PTE2PA (f v)) ->
  ubyte (mem k') f v = ubyte (mem k) f v.
Proof.
  intros Hu K Hv HV HPp. unfold ubyte. apply (kp_mem _ _ _ _ _ K (PTE2PA (f v))); [by apply Hu|done|zlia].
Qed.

(** [uvmalloc] from [oldsz] to [newsz]: on success every page between the two sizes is
    mapped readable and user-accessible with [xperm], reads as zero, and comes from pages that
    had no owner; on failure (0) none of them is mapped.  In both cases the rest of the address
    space and its bytes are unchanged and no page is lost: each page with an owner had one
    before, or is a page-table page, or is mapped. *)
Theorem uvmalloc_grows a t k f oldsz newsz xperm :
  vm_ok a t k -> pt_is k t f -> um_ok a t f (PGROUNDUP newsz) -> 0 <= oldsz <= newsz -> newsz <= MAXVA ->
  0 <= xperm < 1024 -> (forall v, PGROUNDUP oldsz <= v < PGROUNDUP newsz -> flag (f v) PTE_V = false) ->
  exists r k' a' t' g, uvmalloc (pt_root t) oldsz newsz xperm c k = Done r c k' /\
    vm_ok a' t' k' /\ pt_is k' t' g /\ um_ok a' t' g (PGROUNDUP newsz) /\
    (forall v, 0 <= v < MAXVA -> ~ (PGROUNDUP oldsz <= v < PGROUNDUP newsz) -> g v = f v) /\
    (forall v, 0 <= v < PGROUNDUP newsz -> flag (f v) PTE_V = true -> ubyte (mem k') f v = ubyte (mem k) f v) /\
    accounted a a' t' g (PGROUNDUP newsz) /\
    ((r = newsz /\ forall v, PGROUNDUP oldsz <= v < PGROUNDUP newsz ->
       PTE_FLAGS (g v) = Z.lor (Z.lor (Z.lor PTE_R PTE_U) xperm) PTE_V /\ a_ref a (PTE2PA (g v)) = 0 /\
       ubyte (mem k') g v = 0) \/
     (r = 0 /\ PGSIZE * nfree a < 3 * (PGROUNDUP newsz - PGROUNDUP oldsz) /\
      forall v, PGROUNDUP oldsz <= v < PGROUNDUP newsz -> flag (g v) PTE_V = false)).
Proof using LKO HK HR HP.
  intros Hv Hf Hu Hsz Hmax Hx Hinv.
  destruct (uvmalloc_ok c HK HR HP a t k f oldsz newsz xperm) as (r & k' & E & a' & t' & g & Hg & Hpost); try done.
  pose proof Hg as (Hv' & Hf' & Hu' & G' & A').
  exists r, k', a', t', g. split; [done|]. split; [done|]. split; [done|]. split; [done|]. split; [|split; [|split; [done|]]].
  - destruct Hpost as [[_ [Z1 _]]|(_ & _ & Z1 & _)]; exact Z1.
  - intros v Hvr HV. eapply ubyte_keeps; [done|apply G'|done|done|]. split.
    + by rewrite (um_ref _ _ _ _ Hu).
    + by apply (um_table _ _ _ _ Hu).
  - destruct Hpost as [[-> [Z1 Z2]]|(-> & Hfew & Z1 & Z2)]; [left|right]; split; try done.
    intros v Hvr. destruct (Z2 v Hvr) as (p & Ep & Hp & Hz & Hb).
    assert (Hperm : 0 <= Z.lor (Z.lor PTE_R PTE_U) xperm < 1024) by (apply (lor_range _ _ 10); done).
    destruct (leaf_pte_valid p _ Hp Hperm) as [_ Epa]. destruct (page_ok_range p Hp). unfold ubyte. rewrite Ep, Epa.
    split; [apply leaf_pte_flags; lia|]. split; [done|]. apply Hb. zlia.
Qed.

(** [uvmcopy] gives the child a private copy of the parent's memory: on success every page
    valid in the parent is valid in the child with the same flags and the same bytes, on a page
    that had no owner, and no other entry of the child changes; on failure (-1) the child maps
    what it mapped before.  The parent's page table and memory are untouched, and no page is lost. *)
Theorem uvmcopy_copies a t k tp fp f sz :
  vm_ok a t k -> pt_is k t f -> um_ok a t f (PGROUNDUP sz) -> parent_ok a t k tp fp (PGROUNDUP sz) ->
  0 <= sz <= MAXVA -> (forall v, 0 <= v < PGROUNDUP sz -> flag (f v) PTE_V = false) ->
  exists r k' a' t' g, uvmcopy (pt_root tp) (pt_root t) sz c k = Done r c k' /\
    vm_ok a' t' k' /\ pt_is k' t' g /\ um_ok a' t' g (PGROUNDUP sz) /\
    parent_ok a' t' k' tp fp (PGROUNDUP sz) /\
    (forall v, 0 <= v < PGROUNDUP sz -> flag (fp v) PTE_V = true -> ubyte (mem k') fp v = ubyte (mem k) fp v) /\
    accounted a a' t' g (PGROUNDUP sz) /\
    ((r = 0 /\ (forall v, 0 <= v < MAXVA -> ~ (v < PGROUNDUP sz /\ flag (fp v) PTE_V = true) -> g v = f v) /\
      forall v, 0 <= v < PGROUNDUP sz -> flag (fp v) PTE_V = true ->
        PTE_FLAGS (g v) = Z.lor (PTE_FLAGS (fp v)) PTE_V /\ a_ref a (PTE2PA (g v)) = 0 /\
        ubyte (mem k') g v = ubyte (mem k) fp v) \/
     (r = -1 /\ forall v, 0 <= v < MAXVA -> flag (g v) PTE_V = flag (f v) PTE_V)).
Proof using LKO HK HR HP.
  intros Hv Hf Hu Hpar Hsz Hinv.
  destruct (uvmcopy_ok c HK HR HP a t k tp fp f sz) as (r & k' & E & a' & t' & g & Hg & Hpost); try done.
  pose proof Hg as (Hv' & Hf' & Hu' & G' & A').
  exists r, k', a', t', g. split; [done|]. split; [done|]. split; [done|]. split; [done|].
  split; [by eapply parent_keeps|]. split; [|split; [done|]].
  - intros v Hvr HV. unfold ubyte. apply (kp_mem _ _ _ _ _ (gf_keeps _ _ _ _ _ _ G') (PTE2PA (fp v)));
      [by apply Hpar|by apply (pr_user _ _ _ _ _ _ Hpar)|zlia].
  - destruct Hpost as [[-> [Z1 Z2]]|[-> Z1]]; [left|right]; split; try done; [|intros v Hvr; apply Z1; done].
    split; [done|]. intros v Hvr HV. destruct (Z2 v Hvr HV) as (p & Ep & Hp & Hz & Hb).
    destruct (leaf_pte_valid p _ Hp (PTE_FLAGS_range (fp v))) as [_ Epa]. destruct (page_ok_range p Hp).
    unfold ubyte. rewrite Ep, Epa. split; [apply leaf_pte_flags; [lia|apply PTE_FLAGS_range]|]. split; [done|]. apply Hb. zlia.
Qed.

(** C21. What [copyout] writes at a user address, [copyin] reads back: on a range the process may
    write, [copyout] succeeds, changes exactly those bytes of the address space, and [copyin]
    of the range then returns the bytes written. *)
Theorem copyout_copyin a t k f sz dstva src :
  vm_ok a t k -> pt_is k t f -> um_ok a t f sz -> 0 <= dstva -> dstva + Z.of_nat (length src) <= sz -> sz <= MAXVA ->
  (forall v, dstva <= v < dstva + Z.of_nat (length src) -> user_ok f v = true /\ flag (f v) PTE_W = true) ->
  Forall (fun b => 0 <= b < 2 ^ 8) src ->
  exists k', copyout (pt_root t) dstva src (Z.of_nat (length src)) c k = Done 0 c k' /\ vm_ok a t k' /\ pt_is k' t f /\
    (forall v, 0 <= v < sz -> flag (f v) PTE_V = true -> ~ (dstva <= v < dstva + Z.of_nat (length src)) ->
      ubyte (mem k') f v = ubyte (mem k) f v) /\
    copyin (pt_root t) dstva (Z.of_nat (length src)) c k' = Done (0, src) c k'.
Proof using LKO.
  intros Hv Hf Hu Hd Hsz Hmax Hacc Hbytes.
  destruct (copyout_ok c a t k f sz dstva src (Z.of_nat (length src))) as (k' & E & Hv' & Hf' & K' & Hb); try done; try lia.
  exists k'. split; [done|]. split; [done|]. split; [done|]. split.
  { intros v Hvr HV Hn. rewrite Hb by done. by rewrite decide_False. }
  rewrite (copyin_ok c t k' f); [|apply Hv'|done|lia..|].
  - do 2 f_equal. apply list_eq. intros i. rewrite Nat2Z.id. unfold ubytes. rewrite list_lookup_fmap.
    destruct (decide (i < length src)%nat) as [Hi|Hi].
    + rewrite lookup_seq_lt by done. simpl. destruct (lookup_lt_is_Some_2 src i Hi) as [b Eb]. rewrite Eb. f_equal.
      destruct (Hacc (dstva + Z.of_nat i)) as [HU _]; [lia|]. unfold user_ok in HU. apply andb_prop in HU as [HV _].
      rewrite Hb, decide_True by (done || lia). replace (dstva + Z.of_nat i - dstva) with (Z.of_nat i) by lia.
      unfold nthd. destruct (Z.ltb_spec (Z.of_nat i) 0); [lia|]. rewrite Nat2Z.id, Eb. apply u8_small.
      by apply (Forall_lookup_1 _ _ _ _ Hbytes Eb).
    + rewrite lookup_seq_ge by lia. symmetry. apply lookup_ge_None_2. lia.
  - intros v Hvr. destruct (Hacc v Hvr) as [HU _]. split; [done|]. unfold user_ok in HU. apply andb_prop in HU as [HV _].
    destruct (page_ok_range _ (um_page _ _ _ _ Hu v ltac:(lia) HV)). lia.
Qed.

(** [copyinstr] copies a user string with its terminating 0 when the string ends within [max]
    bytes of accessible memory, whatever follows it; when the first [max] bytes hold no 0 it
    copies them and returns -1. *)
Theorem copyinstr_string t k f srcva max :
  pt_wf (mem k) t -> pt_is k t f -> 0 <= srcva -> 0 <= max -> srcva + max <= MAXVA ->
  (forall l, 0 <= l < max -> (forall v, srcva <= v <= srcva + l -> user_ok f v = true /\ PTE2PA (f v) <> 0) ->
    (forall i, 0 <= i < l -> ubyte (mem k) f (srcva + i) <> 0) -> ubyte (mem k) f (srcva + l) = 0 ->
    copyinstr (pt_root t) srcva max c k = Done (0, ubytes (mem k) f srcva (S (Z.to_nat l))) c k) /\
  ((forall v, srcva <= v < srcva + max -> user_ok f v = true /\ PTE2PA (f v) <> 0) ->
    (forall i, 0 <= i < max -> ubyte (mem k) f (srcva + i) <> 0) ->
    copyinstr (pt_root t) srcva max c k = Done (-1, ubytes (mem k) f srcva (Z.to_nat max)) c k).
Proof using LKO.
  intros Hw Hf Hs Hm Hmax. unfold copyinstr. split.
  - intros l Hl Hacc Hnz Hz. rewrite (copyinstr_loop_nul c _ t k f [] srcva max l); try done; [lia|zlia].
  - intros Hacc Hnz. rewrite (copyinstr_loop_long c _ t k f []); try done. zlia.
Qed.

(** C22. A fault on a page below [p->sz] that is not mapped (memory [sbrk] granted lazily) maps a
    fresh page there, zeroed, readable and writable, and returns its address.  [vmfault] returns 0,
    with the address space as before, only if the address is not below [p->sz], if it is mapped
    already, or if fewer than three pages are free (one for the page and two for page tables).
    No page is lost. *)
Theorem vmfault_maps a t k f i p va rd :
  vm_ok a t k -> pt_is k t f -> um_ok a t f (PGROUNDUP (p_sz p)) -> cpu_proc c = Some i -> procs k !! i = Some p ->
  p_pagetable p = pt_root t -> 0 <= va -> p_sz p <= MAXVA ->
  exists r k' a' t' g, vmfault (pt_root t) va rd c k = Done r c k' /\ vm_ok a' t' k' /\ pt_is k' t' g /\
    um_ok a' t' g (PGROUNDUP (p_sz p)) /\ accounted a a' t' g (PGROUNDUP (p_sz p)) /\
    (forall v, 0 <= v < MAXVA -> v / PGSIZE <> va / PGSIZE -> g v = f v) /\
    ((r = 0 /\ g va = f va /\ (p_sz p <= va \/ flag (f va) PTE_V = true \/ nfree a < 3)) \/
     (va < p_sz p /\ flag (f va) PTE_V = false /\ r = PTE2PA (g va) /\ r <> 0 /\ a_ref a r = 0 /\
      user_ok g va = true /\ flag (g va) PTE_R = true /\ flag (g va) PTE_W = true /\
      forall v, v / PGSIZE = va / PGSIZE -> ubyte (mem k') g v = 0)).
Proof using LKO HK HR HP.
  intros Hv Hf Hu Hi Hp Hpt Hva Hmax. destruct (PGROUNDDOWN_bounds va) as [Hd Hda].
  destruct (decide (p_sz p <= va \/ flag (f va) PTE_V = true)) as [Hno|Hno].
  { exists 0, k, a, t, f. rewrite (vmfault_refuses c t k f i p va rd) by (done || apply Hv).
    repeat (split; [done|]). split; [apply accounted_refl|]. split; [done|]. left. split; [done|]. split; [done|]. tauto. }
  apply Decidable.not_or in Hno as [Hlt Hinv%not_true_is_false].
  destruct (vmfault_ok c HK HR HP a t k f i p va rd) as (r & k' & a' & t' & E & Hcase); try done; [lia|].
  destruct Hcase as [(-> & Hfew & Hv' & Hf' & Hu' & _ & A')|(Hr & Hz & Hx & Hv' & Hf' & Hu' & _ & A')].
  - exists 0, k', a', t', f. repeat (split; [done|]). left. auto.
  - exists r, k', a', t', (mapped f (PGROUNDDOWN va) r vmfault_perm 1). do 5 (split; [done|]). split.
    { intros v Hvr Hne. rewrite mapped_1. rewrite decide_False; [done|]. zlia. }
    right. split; [lia|]. split; [done|]. destruct (leaf_pte_valid r vmfault_perm Hr) as [HV Epa]; [done|].
    assert (Em : forall v, v / PGSIZE = va / PGSIZE -> mapped f (PGROUNDDOWN va) r vmfault_perm 1 v = leaf_pte r vmfault_perm).
    { intros v Ev. rewrite mapped_1, decide_True; [done|zlia]. }
    destruct (page_ok_range r Hr). unfold user_ok. rewrite Em, Epa, !leaf_pte_flag by (done || lia).
    split; [done|]. split; [lia|]. do 4 (split; [done|]). intros v Ev. unfold ubyte. rewrite Em, Epa by done. apply Hx. zlia.
Qed.

End usermem_theorems.
