(* ===== verification/VmFree.v ===== *)
(** * Freeing an address space: [freewalk] and [uvmfree] of [vm.c]

    [freewalk] returns every page of a page table whose entries are all invalid, the tables before
    the table that points to them; [uvmfree] removes the memory of the process first.  What is
    freed is given as the list of the pages, so that the callers in [proc.c] and [exec.c] can
    account for all of them. *)

From S2P Require Import Prelude Riscv CString Kernel Printf Kalloc Vm UserMem.
From stdpp Require Import base numbers strings gmap list.
From Stdlib Require Import ZArith Lia.

#[local] Open Scope Z_scope.
#[local] Open Scope kernel_scope.

Section vmfree_spec.
Context {LK : Linker}.

(** The pages [ps] were returned to the allocator; of the others that have an owner only [ds] may
    have other contents. *)
Record freed (ps ds : list Z) (a a' : alloc_spec) (k k' : kernel) : Prop := {
  fr_rep : represents a' k';
  fr_all : complete a';
  fr_ref : forall q, page_ok q -> a_ref a' q = if decide (q ∈ ps) then 0 else a_ref a q;
  fr_mem : forall q x, page_ok q -> a_ref a q <> 0 -> q ∉ ps -> q ∉ ds -> q <= x < q + PGSIZE -> rd8 (mem k') x = rd8 (mem k) x;
  fr_kernel : only_pages k k'
}.

(** The pages [ps] were taken from the allocator, with one owner each; the pages that had one are unchanged. *)
Record took (ps : list Z) (a a' : alloc_spec) (k k' : kernel) : Prop := {
  tk_rep : represents a' k';
  tk_all : complete a';
  tk_new : forall q, q ∈ ps -> page_ok q /\ a_ref a q = 0;
  tk_ref : forall q, page_ok q -> a_ref a' q = if decide (q ∈ ps) then 1 else a_ref a q;
  tk_mem : forall q x, page_ok q -> a_ref a q <> 0 -> q <= x < q + PGSIZE -> rd8 (mem k') x = rd8 (mem k) x;
  tk_kernel : only_pages k k'
}.

(** The pages of [k] and the rest of [s]: a call to the memory management takes [k] to [over k' k]. *)
Definition over (k s : kernel) : kernel :=
  s <| mem := mem k |> <| freelist := freelist k |> <| free_pages_count := free_pages_count k |>
    <| ref_counts := ref_counts k |> <| uart := uart k |>.

(** Both memories hold the same bytes in the pages [ps]. *)
Definition same_pages (ps : list Z) (m m' : memory) : Prop :=
  forall q x, q ∈ ps -> q <= x < q + PGSIZE -> rd8 m' x = rd8 m x.

(** [f] returns the pages [ps], when they are as in memory [m] and have one owner each. *)
Definition frees (c : cpu) (m : memory) (ps : list Z) (f : M unit) : Prop :=
  NoDup ps -> Forall page_ok ps -> forall a k, represents a k -> complete a -> (forall q, q ∈ ps -> a_ref a q = 1) ->
    same_pages ps m (mem k) -> exists a' k', f c k = Done tt c k' /\ freed ps [] a a' k k'.

(** The pages of the tables below one entry of the root, the children first. *)
Definition low_pages (t : ptree) (i j : Z) : list Z := option_list (pt_low t !! (i, j)).
Definition mid_pages (t : ptree) (i : Z) : list Z :=
  match pt_mid t !! i with Some p => (seqZ 0 512 ≫= low_pages t i) ++ [p] | None => [] end.
Definition tree_pages (t : ptree) : list Z := (seqZ 0 512 ≫= mid_pages t) ++ [pt_root t].

End vmfree_spec.

Section vmtree.
Context {LK : Linker} {LKO : LinkerOk}.
Implicit Types (k : kernel) (m : memory) (t : ptree).

(** ** The tables of a process *)

Lemma elem_of_low_pages t i j p : p ∈ low_pages t i j <-> pt_low t !! (i, j) = Some p.
Proof. unfold low_pages. destruct (pt_low t !! (i, j)); set_solver. Qed.

Lemma elem_of_mid_pages t i p :
  p ∈ mid_pages t i <-> exists q, pt_mid t !! i = Some q /\ (p = q \/ exists j, 0 <= j < 512 /\ pt_low t !! (i, j) = Some p).
Proof.
  unfold mid_pages. destruct (pt_mid t !! i) as [q|]; [|set_solver].
  rewrite elem_of_app, list_elem_of_bind, list_elem_of_singleton. setoid_rewrite elem_of_seqZ.
  setoid_rewrite elem_of_low_pages. split.
  - intros [(j & Hp & Hj)| ->]; exists q; split; try done; [right; exists j; split; [lia|done]|by left].
  - intros (q' & [= <-] & [->|(j & Hj & Hp)]); [by right|]. left. exists j. split; [done|lia].
Qed.

(** [freewalk] visits every page of the page table. *)
Lemma elem_of_tree_pages m t p : pt_wf m t -> p ∈ tree_pages t <-> p ∈ pt_pages t.
Proof.
  intros Hw. unfold tree_pages. rewrite elem_of_app, list_elem_of_bind, list_elem_of_singleton. split.
  - intros [(i & (q & Hq & [->|(j & Hj & Hp)])%elem_of_mid_pages & _)| ->];
      [by eapply pt_mid_in|by eapply pt_low_in|apply pt_root_in].
  - intros [->|[[i Hp]|[[i j] Hp]]]%pt_pages_inv; [by right|left; exists i|left; exists i].
    + pose proof (wf_mid_dom _ _ Hw _ _ Hp). rewrite elem_of_mid_pages, elem_of_seqZ. split; [exists p; auto|lia].
    + destruct (wf_low_dom _ _ Hw _ _ _ Hp) as [[q Hq] Hj]. pose proof (wf_mid_dom _ _ Hw _ _ Hq).
      rewrite elem_of_mid_pages, elem_of_seqZ. split; [|lia]. exists q. split; [done|]. right. exists j. done.
Qed.

Lemma mid_pages_nodup m t i : pt_wf m t -> NoDup (mid_pages t i).
Proof.
  intros Hw. destruct (wf_distinct _ _ Hw) as (_ & _ & Hml & _ & Hli). unfold mid_pages.
  destruct (pt_mid t !! i) as [q|] eqn:Eq; [|constructor]. apply NoDup_app. split; [|split; [|apply NoDup_singleton]].
  - apply NoDup_bind; [|intros j _; unfold low_pages; destruct (pt_low t !! (i, j)); [apply NoDup_singleton|constructor]|apply NoDup_seqZ].
    intros j j' p _ _ Hj%elem_of_low_pages Hj'%elem_of_low_pages. by injection (Hli _ _ _ Hj Hj').
  - intros p (j & Hj%elem_of_low_pages & _)%list_elem_of_bind ->%list_elem_of_singleton. by apply (Hml _ _ _ Eq Hj).
Qed.

Lemma tree_pages_nodup m t : pt_wf m t -> NoDup (tree_pages t).
Proof.
  intros Hw. destruct (wf_distinct _ _ Hw) as (Hrm & Hrl & Hml & Hmi & Hli). apply NoDup_app.
  split; [|split; [|apply NoDup_singleton]].
  - apply NoDup_bind; [|intros; by eapply mid_pages_nodup|apply NoDup_seqZ].
    intros i i' p _ _ (q & Hq & Hp)%elem_of_mid_pages (q' & Hq' & Hp')%elem_of_mid_pages.
    destruct Hp as [->|(j & _ & Hp)], Hp' as [->|(j' & _ & Hp')].
    + by eapply Hmi.
    + by destruct (Hml _ _ _ Hq Hp').
    + by destruct (Hml _ _ _ Hq' Hp).
    + by injection (Hli _ _ _ Hp Hp').
  - intros p (i & (q & Hq & [->|(j & _ & Hp)])%elem_of_mid_pages & _)%list_elem_of_bind ->%list_elem_of_singleton;
      [by apply (Hrm i)|by apply (Hrl (i, j))].
Qed.

(** The pages mapped below [sz]. *)
Definition user_pages (f : Z -> Z) (sz : Z) : list Z :=
  seqZ 0 (sz / PGSIZE) ≫= fun i => if flag (f (i * PGSIZE)) PTE_V then [PTE2PA (f (i * PGSIZE))] else [].

Lemma elem_of_user_pages k t f sz p :
  pt_is k t f -> sz mod PGSIZE = 0 -> 0 <= sz <= MAXVA -> p ∈ user_pages f sz <-> user_page f sz p.
Proof.
  intros Hf Ha Hsz. unfold user_pages, user_page. rewrite list_elem_of_bind. setoid_rewrite elem_of_seqZ. split.
  - intros (i & Hp & Hi). destruct (flag _ PTE_V) eqn:HV; [|by apply elem_of_nil in Hp].
    apply list_elem_of_singleton in Hp as ->. exists (i * PGSIZE). split; [zlia|done].
  - intros (v & Hv & HV & <-). exists (v / PGSIZE).
    rewrite (pt_is_page k t f (v / PGSIZE * PGSIZE) v) by (done || zlia). rewrite HV.
    split; [apply list_elem_of_here|zlia].
Qed.

(** ** Freeing and taking pages *)

Lemma freed_nil a k ds : represents a k -> complete a -> freed [] ds a a k k.
Proof. intros Hr Hc. split; auto using only_pages_refl. Qed.

Lemma freed_app ps qs ds a1 a2 a3 k1 k2 k3 :
  freed ps ds a1 a2 k1 k2 -> freed qs ds a2 a3 k2 k3 -> freed (ps ++ qs) ds a1 a3 k1 k3.
Proof.
  intros F1 F2. split; [apply F2|apply F2| | |eapply only_pages_trans; [apply F1|apply F2]].
  - intros q Hq. rewrite (fr_ref _ _ _ _ _ _ F2), (fr_ref _ _ _ _ _ _ F1) by done.
    repeat destruct (decide _); set_solver.
  - intros q x Hq Hz [Hn1 Hn2]%not_elem_of_app Hd Hx.
    rewrite (fr_mem _ _ _ _ _ _ F2 q) by (rewrite ?(fr_ref _ _ _ _ _ _ F1), ?decide_False by done; done). by apply (fr_mem _ _ _ _ _ _ F1 q).
Qed.

Lemma freed_dirty ps ds es a a' k k' : (forall q, q ∈ ds -> q ∈ ps \/ q ∈ es) -> freed ps ds a a' k k' -> freed ps es a a' k k'.
Proof.
  intros Hd [F1 F2 F3 F4 F5]. split; try done. intros q x Hq Hz Hn He Hx. apply (F4 q); try done. intros [?|?]%Hd; done.
Qed.

(** Only which pages are freed matters. *)
Lemma freed_perm ps qs ds a a' k k' : (forall q, q ∈ ps <-> q ∈ qs) -> freed ps ds a a' k k' -> freed qs ds a a' k k'.
Proof.
  intros E [F1 F2 F3 F4 F5]. split; try done.
  - intros q Hq. rewrite F3 by done. specialize (E q). repeat destruct (decide _); tauto.
  - intros q x Hq Hz Hn Hd Hx. apply (F4 q); try done. by rewrite E.
Qed.

(** The pages that stay have their count. *)
Lemma freed_keeps ps a a' k k' : freed ps [] a a' k k' -> keeps (fun q => a_ref a q <> 0 /\ q ∉ ps) a a' k k'.
Proof.
  intros F. split; [|intros q x Hq [Hz Hn] Hx; apply (fr_mem _ _ _ _ _ _ F q); set_solver|apply F].
  intros q Hq [_ Hn]. rewrite (fr_ref _ _ _ _ _ _ F) by done. by rewrite decide_False.
Qed.

(** Clearing an entry of a table that has an owner. *)
Lemma clear_entry a k tbl i :
  represents a k -> complete a -> page_ok tbl -> a_ref a tbl = 1 -> 0 <= i < 512 ->
  freed [] [tbl] a a k (k <| mem ::= fun m => wr64 m (pte_addr tbl i) 0 |>).
Proof.
  intros Hr Ha Ht H1 Hi. pose proof (pte_addr_in tbl i Ht Hi) as Hin.
  assert (Hout : forall q x, page_ok q -> q <> tbl -> q <= x < q + PGSIZE -> rd8 (wr64 (mem k) (pte_addr tbl i) 0) x = rd8 (mem k) x).
  { intros q x Hq Hne Hx. apply rd8_wrn_out. pose proof (page_apart tbl q x Ht Hq (not_eq_sym Hne) Hx). lia. }
  split; [|done|done| |unfold only_pages; kdone].
  - change (k <| mem ::= _ |>) with (k <| mem := wr64 (mem k) (pte_addr tbl i) 0 |>).
    apply represents_write; [done|apply mem_ok_wrn, Hr|]. intros q x Hq Hx.
    pose proof (free_list_pages _ _ _ (rep_list _ _ Hr)) as Hok. rewrite Forall_forall in Hok.
    apply (Hout q); [auto| |lia]. intros ->. pose proof (rep_free0 _ _ Hr _ Hq). lia.
  - intros q x Hq _ _ Hd Hx. apply (Hout q); try done. set_solver.
Qed.

Lemma took_nil a k : represents a k -> complete a -> took [] a a k k.
Proof. intros Hr Ha. split; auto using only_pages_refl. by intros q ?%elem_of_nil. Qed.

Lemma took_same ps qs a a' k k' : (forall q, q ∈ ps <-> q ∈ qs) -> took ps a a' k k' -> took qs a a' k k'.
Proof.
  intros E [T1 T2 T3 T4 T5 T6]. split; try done; [intros q Hq; by apply T3, E|].
  intros q Hq. rewrite T4 by done. specialize (E q). repeat destruct (decide _); tauto.
Qed.

Lemma took_app ps qs a1 a2 a3 k1 k2 k3 :
  took ps a1 a2 k1 k2 -> took qs a2 a3 k2 k3 -> took (ps ++ qs) a1 a3 k1 k3.
Proof.
  intros T1 T2. split; [apply T2|apply T2| | | |eapply only_pages_trans; [apply T1|apply T2]].
  - intros q [Hq|Hq]%elem_of_app; [by apply (tk_new _ _ _ _ _ T1)|]. destruct (tk_new _ _ _ _ _ T2 q Hq) as [Hp Hz].
    split; [done|]. rewrite (tk_ref _ _ _ _ _ T1) in Hz by done. by destruct (decide _).
  - intros q Hq. rewrite (tk_ref _ _ _ _ _ T2), (tk_ref _ _ _ _ _ T1) by done. repeat destruct (decide _); set_solver.
  - intros q x Hq Hz Hx. rewrite (tk_mem _ _ _ _ _ T2 q); [by apply (tk_mem _ _ _ _ _ T1 q)|done| |done].
    rewrite (tk_ref _ _ _ _ _ T1) by done. by destruct (decide _).
Qed.

(** Returning what was taken: no page is lost, none that had an owner changed. *)
Lemma took_freed ps qs ds a1 a2 a3 k1 k2 k3 :
  took (ps ++ qs) a1 a2 k1 k2 -> freed qs ds a2 a3 k2 k3 -> (forall q, q ∈ ps -> q ∉ qs) ->
  (forall q, q ∈ ds -> q ∈ ps ++ qs) -> took ps a1 a3 k1 k3.
Proof.
  intros T F Hdis Hds. assert (Hz0 : forall q, page_ok q -> a_ref a1 q <> 0 -> q ∉ ps ++ qs).
  { intros q _ Hz Hin. by destruct (tk_new _ _ _ _ _ T q Hin). }
  split; [apply F|apply F| | | |eapply only_pages_trans; [apply T|apply F]].
  - intros q Hq. apply (tk_new _ _ _ _ _ T). apply elem_of_app. by left.
  - intros q Hq. rewrite (fr_ref _ _ _ _ _ _ F), (tk_ref _ _ _ _ _ T) by done.
    destruct (decide (q ∈ qs)) as [Hin|Hin].
    + rewrite decide_False by (intros H; by apply (Hdis q)). symmetry. apply (tk_new _ _ _ _ _ T), elem_of_app. by right.
    + destruct (decide (q ∈ ps)) as [Hp|Hp]; [by rewrite decide_True by (apply elem_of_app; by left)|].
      by rewrite decide_False by (intros [?|?]%elem_of_app; done).
  - intros q x Hq Hz Hx. specialize (Hz0 q Hq Hz). rewrite (fr_mem _ _ _ _ _ _ F q); [by apply (tk_mem _ _ _ _ _ T q)|done| | |auto|done].
    + rewrite (tk_ref _ _ _ _ _ T) by done. by destruct (decide _).
    + intros Hin. apply Hz0, elem_of_app. by right.
Qed.

Lemma took_freed_all ps a1 a2 a3 k1 k2 k3 : took ps a1 a2 k1 k2 -> freed ps [] a2 a3 k2 k3 -> took [] a1 a3 k1 k3.
Proof. intros T F. eapply (took_freed [] ps []); [exact T|exact F|by intros q ?%elem_of_nil..]. Qed.

(** Writing pages that were taken. *)
Lemma took_write ps ds a1 a2 a3 k1 k2 k3 :
  took ps a1 a2 k1 k2 -> freed [] ds a2 a3 k2 k3 -> (forall q, q ∈ ds -> q ∈ ps) -> took ps a1 a3 k1 k3.
Proof.
  intros T F Hds. eapply (took_freed ps [] ds); rewrite ?app_nil_r; [exact T|exact F|by intros q _ ?%elem_of_nil|done].
Qed.

(** Growing a page table that was just taken. *)
Lemma took_frame ps a a1 a2 t t2 k k1 k2 :
  took (ps ++ pt_pages t) a a1 k k1 -> (forall q, q ∈ ps -> q ∉ pt_pages t) -> vm_frame a1 a2 t t2 k1 k2 -> vm_ok a2 t2 k2 ->
  took (ps ++ pt_pages t2) a a2 k k2 /\ (forall q, q ∈ ps -> q ∉ pt_pages t2).
Proof.
  intros T Hd F Hv. pose proof (fun q => pt_sub_pages _ _ q (vf_sub _ _ _ _ _ _ F)) as Hsub.
  assert (Hnew : forall q, q ∈ pt_pages t2 -> q ∉ pt_pages t -> a_ref a1 q = 0).
  { intros q Hq Hn. by destruct (vf_new _ _ _ _ _ _ F q Hq). }
  assert (Hps : forall q, q ∈ ps -> page_ok q /\ a_ref a1 q = 1).
  { intros q Hq. destruct (tk_new _ _ _ _ _ T q) as [Hp _]; [apply elem_of_app; by left|]. split; [done|].
    rewrite (tk_ref _ _ _ _ _ T), decide_True by (done || (apply elem_of_app; by left)). done. }
  assert (Hd2 : forall q, q ∈ ps -> q ∉ pt_pages t2).
  { intros q Hq Hin. destruct (Hps q Hq). rewrite Hnew in *; [done|done|by apply Hd]. }
  split; [|done]. split; [apply Hv|apply Hv| | | |eapply only_pages_trans; [apply T|apply F]].
  - intros q [Hq|Hq]%elem_of_app; [apply (tk_new _ _ _ _ _ T), elem_of_app; by left|].
    assert (Hp : page_ok q) by (by eapply wf_page_ok; [apply Hv|]). split; [done|].
    destruct (decide (q ∈ pt_pages t)) as [Hin|Hin]; [apply (tk_new _ _ _ _ _ T), elem_of_app; by right|].
    pose proof (Hnew q Hq Hin) as Hz. rewrite (tk_ref _ _ _ _ _ T) in Hz by done. by destruct (decide _).
  - intros q Hq. destruct (decide _) as [[Hin|Hin]%elem_of_app|[Hn1 Hn2]%not_elem_of_app].
    + destruct (Hps q Hin) as [_ E]. rewrite (vf_ref _ _ _ _ _ _ F) by (done || lia). done.
    + by apply (vo_own _ _ _ Hv).
    + pose proof (tk_ref _ _ _ _ _ T q Hq) as E.
      rewrite decide_False in E by (intros [?|?%Hsub]%elem_of_app; done). rewrite <- E.
      destruct (decide (a_ref a1 q = 0)) as [Hz|Hz]; [|by apply (vf_ref _ _ _ _ _ _ F)]. rewrite Hz.
      destruct (decide (a_ref a2 q = 0)) as [|Hz2]; [done|]. by destruct (vf_acc _ _ _ _ _ _ F q Hz2).
  - intros q x Hq Hz Hx. rewrite (vf_mem _ _ _ _ _ _ F q); [by apply (tk_mem _ _ _ _ _ T q)|done| | |done].
    + rewrite (tk_ref _ _ _ _ _ T) by done. by destruct (decide _).
    + intros Hin. apply Hz. apply (tk_new _ _ _ _ _ T), elem_of_app. by right.
Qed.

(** ** The rest of the kernel *)

Lemma over_same k k' : only_pages k k' -> over k' k = k'.
Proof. intros E. symmetry. exact E. Qed.

Lemma over_id k : over k k = k.
Proof. by destruct k. Qed.

Lemma over_over k s s' : over (over k s) s' = over k s'.
Proof. reflexivity. Qed.

Lemma only_pages_over k k' s : only_pages k k' -> only_pages (over k s) (over k' s).
Proof. intros _. reflexivity. Qed.

Lemma represents_over a k s : represents a k -> represents a (over k s).
Proof. intros [R1 R2 R3 R4 R5 R6]. split; assumption. Qed.

Lemma freed_over ps ds a a' k k' s : freed ps ds a a' k k' -> freed ps ds a a' (over k s) (over k' s).
Proof. intros [F1 F2 F3 F4 F5]. split; [by apply represents_over|assumption..|by apply only_pages_over]. Qed.

Lemma took_over ps a a' k k' s : took ps a a' k k' -> took ps a a' (over k s) (over k' s).
Proof. intros [T1 T2 T3 T4 T5 T6]. split; [by apply represents_over|assumption..|by apply only_pages_over]. Qed.

(** The effect of a call is the same whatever the rest of the kernel is. *)
Lemma took_lift ps a a' k s k' : took ps a a' (over k s) k' -> k' = over (over k' k) s /\ took ps a a' k (over k' k).
Proof.
  intros T. split; [rewrite over_over; symmetry; exact (over_same _ k' (tk_kernel _ _ _ _ _ T))|].
  pose proof (took_over _ _ _ _ _ k T) as T'. by rewrite over_over, over_id in T'.
Qed.

Lemma freed_lift ps ds a a' k s k' : freed ps ds a a' (over k s) k' -> k' = over (over k' k) s /\ freed ps ds a a' k (over k' k).
Proof.
  intros F. split; [rewrite over_over; symmetry; exact (over_same _ k' (fr_kernel _ _ _ _ _ _ F))|].
  pose proof (freed_over _ _ _ _ _ _ k F) as F'. by rewrite over_over, over_id in F'.
Qed.

(** One call after the other, with other changes of the kernel between them. *)
Lemma freed_via ps qs a a1 a2 k k1 k2 s :
  freed ps [] a a1 k k1 -> freed qs [] a1 a2 (over k1 s) k2 -> freed (ps ++ qs) [] a a2 k (over k2 k).
Proof.
  intros F1 F2. eapply freed_app; [exact F1|]. pose proof (freed_over _ _ _ _ _ _ k F2) as F. rewrite over_over in F.
  by rewrite (over_same k k1 (fr_kernel _ _ _ _ _ _ F1)) in F.
Qed.

Lemma took_via ps qs a a1 a2 k k1 k2 s :
  took ps a a1 k k1 -> took qs a1 a2 (over k1 s) k2 -> took (ps ++ qs) a a2 k (over k2 k).
Proof.
  intros T1 T2. eapply took_app; [exact T1|]. pose proof (took_over _ _ _ _ _ k T2) as T. rewrite over_over in T.
  by rewrite (over_same k k1 (tk_kernel _ _ _ _ _ T1)) in T.
Qed.

Lemma took_freed_via ps qs a a1 a2 k k1 k2 s :
  took (ps ++ qs) a a1 k k1 -> freed qs [] a1 a2 (over k1 s) k2 -> (forall q, q ∈ ps -> q ∉ qs) -> took ps a a2 k (over k2 k).
Proof.
  intros T F Hd. pose proof (freed_over _ _ _ _ _ _ k F) as F'. rewrite over_over in F'.
  rewrite (over_same k k1 (tk_kernel _ _ _ _ _ T)) in F'. eapply took_freed; [exact T|exact F'|done|]. by intros q ?%elem_of_nil.
Qed.

End vmtree.

Section vmfree.
Context {LK : Linker} {LKO : LinkerOk}.
Context (c : cpu) (HK : LKmem ∉ held c) (HR : LRef ∉ held c) (HP : LPr ∉ held c).
Implicit Types (k : kernel) (m : memory) (t : ptree).

Lemma kfree_frees m p : frees c m [p] (kfree p).
Proof.
  intros _ Hp a k Hr Ha H1 _. rewrite Forall_singleton in Hp. specialize (H1 p (list_elem_of_here _ _)).
  destruct (kfree_represents a k c p) as (k' & E & Hr' & Ho & Hm); [done..|lia|].
  exists (spec_kfree p a), k'. split; [done|]. split; [done|by apply complete_kfree| |intros q x Hq _ Hn _ Hx|done].
  - intros q Hq. unfold spec_kfree. cbn [a_ref]. rewrite H1. unfold upd_ref.
    destruct (Z.eqb_spec q p) as [->|Hne]; [by rewrite decide_True by set_solver|by rewrite decide_False by set_solver].
  - apply Hm. apply (page_apart p q); try done. set_solver.
Qed.

(** One call after the other, the pages apart. *)
Lemma frees_seq m ps qs f g : frees c m ps f -> frees c m qs g -> frees c m (ps ++ qs) (f ;; g).
Proof.
  intros Hf Hg (Hn1 & Hdis & Hn2)%NoDup_app [Hp1 Hp2]%Forall_app a k Hr Ha H1 Hs.
  destruct (Hf Hn1 Hp1 a k) as (a1 & k1 & E1 & F1); [done|done|set_solver|intros q x Hq; apply Hs; set_solver|].
  rewrite Forall_forall in Hp2.
  destruct (Hg Hn2 ltac:(by rewrite Forall_forall) a1 k1) as (a2 & k2 & E2 & F2); [apply F1|apply F1| | |].
  - intros q Hq. rewrite (fr_ref _ _ _ _ _ _ F1) by auto. rewrite decide_False by set_solver. apply H1. set_solver.
  - intros q x Hq Hx. rewrite (fr_mem _ _ _ _ _ _ F1 q); [apply (Hs q); set_solver|auto|rewrite H1; set_solver|set_solver|set_solver|done].
  - exists a2, k2. erewrite bind_done by exact E1. split; [done|]. by eapply freed_app.
Qed.

(** One entry: a table is freed and the entry cleared, an invalid entry is left alone. *)
Definition entry_frees (m : memory) (fw : Z -> M unit) (tbl : Z) (sub : Z -> list Z) (j : Z) : Prop :=
  (exists p, page_ok p /\ rd64 m (pte_addr tbl j) = table_pte (Some p) /\ frees c m (sub j) (fw p)) \/
  (flag (rd64 m (pte_addr tbl j)) PTE_V = false /\ sub j = []).

Lemma table_pte_plain p : page_ok p -> flag (table_pte (Some p)) (Z.lor (Z.lor PTE_R PTE_W) PTE_X) = false.
Proof.
  intros [? ?]%page_ok_range. cbn [table_pte]. change PTE_V with 1. by rewrite flag_make by (lia || by vm_compute).
Qed.

(** The part of the table that is not visited yet is as in [m]. *)
Definition rest_of (m m' : memory) (tbl i : Z) : Prop :=
  forall j, i <= j < 512 -> rd64 m' (pte_addr tbl j) = rd64 m (pte_addr tbl j).

Lemma freed_rest m ps a a' k k' tbl i :
  freed ps [] a a' k k' -> page_ok tbl -> a_ref a tbl = 1 -> tbl ∉ ps -> 0 <= i -> rest_of m (mem k) tbl i -> rest_of m (mem k') tbl i.
Proof.
  intros F Ht H1 Hn Hi Hrest j Hj. rewrite <- (Hrest j Hj). apply rdn_ext. intros x Hx.
  pose proof (pte_addr_in tbl j Ht ltac:(lia)). apply (fr_mem _ _ _ _ _ _ F tbl); [done|lia|done|set_solver|lia].
Qed.

Lemma freewalk_entry m fw tbl sub i a k :
  page_ok tbl -> 0 <= i < 512 -> entry_frees m fw tbl sub i -> NoDup (sub i) -> Forall page_ok (sub i) -> tbl ∉ sub i ->
  represents a k -> complete a -> (forall q, q ∈ sub i -> a_ref a q = 1) -> a_ref a tbl = 1 ->
  same_pages (sub i) m (mem k) -> rest_of m (mem k) tbl i ->
  exists a' k', (forall n, freewalk_loop fw (S n) tbl i c k = freewalk_loop fw n tbl (i + 1) c k') /\
    freed (sub i) [tbl] a a' k k' /\ rest_of m (mem k') tbl (i + 1).
Proof.
  intros Ht Hi He Hnd Hok Hn Hr Ha H1 Ht1 Hs Hrest.
  destruct He as [(p & Hp & Ep & Hf)|[Hinv ->]].
  - destruct (Hf Hnd Hok a k Hr Ha H1 Hs) as (a1 & k1 & E1 & F1).
    assert (Ht1' : a_ref a1 tbl = 1) by (by rewrite (fr_ref _ _ _ _ _ _ F1), decide_False).
    pose proof (clear_entry a1 k1 tbl i (fr_rep _ _ _ _ _ _ F1) (fr_all _ _ _ _ _ _ F1) Ht Ht1' Hi) as F2.
    eexists a1, _. split; [|split].
    + intros n. cbn [freewalk_loop]. erewrite bind_done by reflexivity. rewrite Hrest, Ep by lia.
      rewrite table_pte_flag by (intros ? [= <-]; done). rewrite bool_decide_true by done.
      rewrite table_pte_plain, table_pte_pa by done. cbn [andb negb].
      erewrite bind_done; [reflexivity|]. by erewrite bind_done by exact E1.
    + rewrite <- (app_nil_r (sub i)). eapply freed_app; [|exact F2]. eapply freed_dirty; [|exact F1]. set_solver.
    + intros j Hj. cbn. rewrite rdn_wrn_out by (unfold pte_addr; lia).
      apply (freed_rest m _ _ _ _ _ _ _ F1 Ht Ht1 Hn (proj1 Hi) Hrest). lia.
  - exists a, k. split; [|split; [by apply freed_nil|intros j Hj; apply Hrest; lia]].
    intros n. cbn [freewalk_loop]. erewrite bind_done by reflexivity. rewrite Hrest, Hinv by lia. reflexivity.
Qed.

Lemma freewalk_loop_ok m fw tbl sub n i a k :
  page_ok tbl -> 0 <= i -> i + Z.of_nat n = 512 -> (forall j, i <= j < 512 -> entry_frees m fw tbl sub j) ->
  NoDup (seqZ i (Z.of_nat n) ≫= sub) -> Forall page_ok (seqZ i (Z.of_nat n) ≫= sub) -> tbl ∉ (seqZ i (Z.of_nat n) ≫= sub) ->
  represents a k -> complete a -> (forall q, q ∈ (seqZ i (Z.of_nat n) ≫= sub) -> a_ref a q = 1) -> a_ref a tbl = 1 ->
  same_pages (seqZ i (Z.of_nat n) ≫= sub) m (mem k) -> rest_of m (mem k) tbl i ->
  exists a' k', freewalk_loop fw n tbl i c k = Done tt c k' /\ freed (seqZ i (Z.of_nat n) ≫= sub) [tbl] a a' k k'.
Proof.
  intros Ht. revert i a k. induction n as [|n IH]; intros i a k Hi Hn He Hnd Hok Hnt Hr Ha H1 Ht1 Hs Hrest.
  { exists a, k. split; [done|]. by apply freed_nil. }
  assert (Eq : seqZ i (Z.of_nat (S n)) ≫= sub = sub i ++ (seqZ (i + 1) (Z.of_nat n) ≫= sub)).
  { rewrite seqZ_cons by lia. cbn [mbind list_bind]. do 3 f_equal; lia. }
  rewrite Eq in *. apply NoDup_app in Hnd as (Hn1 & Hdis & Hn2). apply Forall_app in Hok as [Hok1 Hok2].
  apply not_elem_of_app in Hnt as [Hnt1 Hnt2].
  destruct (freewalk_entry m fw tbl sub i a k) as (a1 & k1 & E1 & F1 & Hrest1); try done; try lia.
  { apply He. lia. } { intros q Hq. apply H1, elem_of_app. by left. } { intros q x Hq. apply Hs, elem_of_app. by left. }
  pose proof Hok2 as Hok2'. rewrite Forall_forall in Hok2'.
  destruct (IH (i + 1) a1 k1) as (a2 & k2 & E2 & F2); try done; try lia; try apply F1.
  - intros j Hj. apply He. lia.
  - intros q Hq. rewrite (fr_ref _ _ _ _ _ _ F1) by auto. rewrite decide_False by (intros Hq'; by apply (Hdis q)). apply H1, elem_of_app. by right.
  - rewrite (fr_ref _ _ _ _ _ _ F1), decide_False by done. done.
  - intros q x Hq Hx. rewrite (fr_mem _ _ _ _ _ _ F1 q); [apply (Hs q); [apply elem_of_app; by right|done]|auto|rewrite H1; [lia|apply elem_of_app; by right]|intros Hq'; by apply (Hdis q)| |done].
    intros ->%list_elem_of_singleton. done.
  - exists a2, k2. rewrite E1. split; [done|]. by eapply freed_app.
Qed.

(** [freewalk] of a table, given what it does to the tables of the next level. *)
Lemma freewalk_frees m levels tbl sub :
  page_ok tbl -> (forall j, 0 <= j < 512 -> entry_frees m (freewalk levels) tbl sub j) ->
  frees c m ((seqZ 0 512 ≫= sub) ++ [tbl]) (freewalk (S levels) tbl).
Proof.
  intros Ht He Hnd Hok a k Hr Ha H1 Hs. pose proof (freewalk_loop_ok m (freewalk levels) tbl sub 512 0 a k Ht) as L.
  change (Z.of_nat 512) with 512 in L. revert L Hnd Hok H1 Hs. generalize (seqZ 0 512 ≫= sub) as ps.
  intros ps L (Hn1 & Hdis & Hn2)%NoDup_app [Hok1 _]%Forall_app H1 Hs.
  assert (Hl : forall q, q ∈ ps -> q ∈ ps ++ [tbl]) by (intros; apply elem_of_app; by left).
  assert (Ht0 : tbl ∈ ps ++ [tbl]) by (apply elem_of_app; right; apply list_elem_of_here).
  assert (Hnt : tbl ∉ ps) by (intros Hin; apply (Hdis _ Hin), list_elem_of_here).
  destruct L as (a1 & k1 & E1 & F1); auto; [lia|by intros q x Hq; apply Hs, Hl| |].
  - intros j Hj. apply rdn_ext. intros x Hx. pose proof (pte_addr_in tbl j Ht Hj). apply (Hs tbl); [done|lia].
  - assert (Ht1 : a_ref a1 tbl = 1) by (rewrite (fr_ref _ _ _ _ _ _ F1), decide_False; auto).
    destruct (kfree_frees (mem k1) tbl) with (a := a1) (k := k1) as (a2 & k2 & E2 & F2); try done; try apply F1.
    { by apply Forall_singleton. } { by intros q ->%list_elem_of_singleton. }
    exists a2, k2. change (freewalk (S levels) tbl) with (freewalk_loop (freewalk levels) 512 tbl 0 ;; kfree tbl).
    erewrite bind_done by exact E1. split; [done|]. apply (freed_dirty _ [tbl]); [intros q Hq; left; apply elem_of_app; by right|].
    eapply freed_app; [exact F1|]. eapply freed_dirty; [|exact F2]. by intros q ?%elem_of_nil.
Qed.

(** No entry of a level-0 table is valid. *)
Definition no_leaves (m : memory) (t : ptree) : Prop :=
  forall i j q, pt_low t !! (i, j) = Some q -> forall l, 0 <= l < 512 -> flag (rd64 m (pte_addr q l)) PTE_V = false.

Lemma freewalk_low m t i j q :
  pt_wf m t -> no_leaves m t -> pt_low t !! (i, j) = Some q -> frees c m (low_pages t i j) (freewalk 1 q).
Proof.
  intros Hw Hno Hq. pose proof (freewalk_frees m 0 q (fun _ => []) (wf_page_ok _ _ _ Hw (pt_low_in _ _ _ Hq))) as L.
  assert (Hnil : seqZ 0 512 ≫= (fun _ => @nil Z) = []) by (generalize (seqZ 0 512); intros l; induction l; done).
  rewrite Hnil in L. unfold low_pages. rewrite Hq. cbn [option_list]. apply L. intros l Hl. right. split; [by eapply Hno|done].
Qed.

Lemma freewalk_mid m t i p :
  pt_wf m t -> no_leaves m t -> pt_mid t !! i = Some p -> frees c m (mid_pages t i) (freewalk 2 p).
Proof.
  intros Hw Hno Hp. unfold mid_pages. rewrite Hp. apply (freewalk_frees m 1 p (low_pages t i)).
  { by eapply wf_page_ok, pt_mid_in. }
  intros j Hj. pose proof (wf_mid _ _ Hw _ _ Hp j Hj) as Ej. unfold entry_frees.
  destruct (pt_low t !! (i, j)) as [q|] eqn:Eq; [left; exists q|right].
  - split; [by eapply wf_page_ok, pt_low_in|]. split; [done|]. by eapply freewalk_low.
  - split; [by rewrite Ej|]. unfold low_pages. by rewrite Eq.
Qed.

(** [freewalk] returns every page of a page table without leaves, and does not panic. *)
Lemma freewalk_tree m t : pt_wf m t -> no_leaves m t -> frees c m (tree_pages t) (freewalk 3 (pt_root t)).
Proof.
  intros Hw Hno. apply (freewalk_frees m 2 (pt_root t) (mid_pages t)); [by eapply wf_page_ok, pt_root_in|].
  intros i Hi. pose proof (wf_root _ _ Hw i Hi) as Ei. unfold entry_frees.
  destruct (pt_mid t !! i) as [p|] eqn:Ep; [left; exists p|right].
  - split; [by eapply wf_page_ok, pt_mid_in|]. split; [done|]. by eapply freewalk_mid.
  - split; [by rewrite Ei|]. unfold mid_pages. by rewrite Ep.
Qed.

(** ** The memory of a process *)

(** [uvmunmap] of the memory, as a set of pages freed: the tables change. *)
Lemma unmap_freed a t k f sz a' k' :
  vm_ok a t k -> pt_is k t f -> um_ok a t f sz -> sz mod PGSIZE = 0 -> 0 <= sz <= MAXVA ->
  unmap_post a t k f sz 0 sz a' k' -> freed (user_pages f sz) (pt_pages t) a a' k k'.
Proof.
  intros Hv Hf Hu Ha Hsz (Hv' & _ & _ & K & Hfr). split; [apply Hv'|apply Hv'| | |apply K].
  - intros q Hq. destruct (decide _) as [Hin|Hn].
    + apply (elem_of_user_pages k t) in Hin as (v & Hvr & HV & Hp); try done.
      apply (rep_free0 _ _ (vo_rep _ _ _ Hv')), Hfr. right. by exists v.
    + destruct (decide (a_ref a q = 0)) as [Hz|Hz].
      { rewrite Hz. apply (rep_free0 _ _ (vo_rep _ _ _ Hv')), Hfr. left. by apply (vo_all _ _ _ Hv). }
      destruct (decide (q ∈ pt_pages t)) as [Ht|Ht]; [rewrite (vo_own _ _ _ Hv'), (vo_own _ _ _ Hv); done|].
      apply (kp_ref _ _ _ _ _ K); [done|]. split; [done|]. split; [done|]. intros v Hvr HV Hp.
      apply Hn, (elem_of_user_pages k t); try done. by exists v.
  - intros q x Hq Hz Hn Ht Hx. apply (kp_mem _ _ _ _ _ K q); [done| |done]. split; [done|]. split; [done|].
    intros v Hvr HV Hp. apply Hn, (elem_of_user_pages k t); try done. by exists v.
Qed.

(** Every entry of a level-0 table is the entry of some address. *)
Lemma no_leaves_of k t f :
  pt_wf (mem k) t -> pt_is k t f -> (forall v, 0 <= v < MAXVA -> flag (f v) PTE_V = false) -> no_leaves (mem k) t.
Proof.
  intros Hw Hf Hno i j q Hq l Hl. destruct (wf_low_dom _ _ Hw _ _ _ Hq) as [[p Hp] Hj]. pose proof (wf_mid_dom _ _ Hw _ _ Hp) as Hi.
  set (v := i * 2 ^ 30 + j * 2 ^ 21 + l * 2 ^ 12). assert (Hv : 0 <= v < MAXVA) by (unfold v; zlia).
  specialize (Hno v Hv). rewrite <- Hf in Hno by done. unfold pte_at in Hno. rewrite !PX_eq in Hno by lia.
  change (12 + 9 * 2) with 30 in Hno. change (12 + 9 * 1) with 21 in Hno. change (12 + 9 * 0) with 12 in Hno.
  replace (v / 2 ^ 30 mod 512) with i in Hno by (unfold v; zlia). replace (v / 2 ^ 21 mod 512) with j in Hno by (unfold v; zlia).
  replace (v / 2 ^ 12 mod 512) with l in Hno by (unfold v; zlia). by rewrite Hq in Hno.
Qed.

(** When [a] and [k] come from freeing [ps] and changing only tables, [freewalk] frees the tables too. *)
Lemma freewalk_freed ps a0 k0 a t k f :
  freed ps (pt_pages t) a0 a k0 k -> vm_ok a t k -> pt_is k t f -> (forall v, 0 <= v < MAXVA -> flag (f v) PTE_V = false) ->
  exists a' k', freewalk 3 (pt_root t) c k = Done tt c k' /\ freed (ps ++ tree_pages t) [] a0 a' k0 k'.
Proof.
  intros F Hv Hf Hno. pose proof (vo_wf _ _ _ Hv) as Hw.
  destruct (freewalk_tree (mem k) t Hw (no_leaves_of k t f Hw Hf Hno)) with (a := a) (k := k) as (a' & k' & E & F').
  - by eapply tree_pages_nodup.
  - apply Forall_forall. intros q Hq%(elem_of_tree_pages _ _ _ Hw). by eapply wf_page_ok.
  - apply Hv.
  - apply Hv.
  - intros q Hq%(elem_of_tree_pages _ _ _ Hw). by apply (vo_own _ _ _ Hv).
  - done.
  - exists a', k'. split; [done|]. apply (freed_dirty _ (pt_pages t)).
    { intros q Hq. left. apply elem_of_app. right. by rewrite (elem_of_tree_pages _ _ _ Hw). }
    eapply freed_app; [exact F|]. eapply freed_dirty; [|exact F']. by intros q ?%elem_of_nil.
Qed.

(** [uvmfree] returns the memory and the tables of a process: nothing of it keeps an owner, no
    other page changes, and the call never panics. *)
Lemma uvmfree_ok a t k f sz :
  vm_ok a t k -> pt_is k t f -> um_ok a t f (PGROUNDUP sz) -> 0 <= sz <= MAXVA ->
  (forall v, PGROUNDUP sz <= v < MAXVA -> flag (f v) PTE_V = false) ->
  exists a' k', uvmfree (pt_root t) sz c k = Done tt c k' /\
    freed (user_pages f (PGROUNDUP sz) ++ tree_pages t) [] a a' k k'.
Proof.
  intros Hv Hf Hu Hsz Hhi. destruct (PGROUNDUP_bounds sz) as [Hn Hna]; [lia|].
  assert (Hmax : PGROUNDUP sz <= MAXVA) by zlia. unfold uvmfree. destruct (Z.ltb_spec 0 sz) as [H0|H0]; cbn [when].
  - destruct (uvmunmap_ok c HK HR (PGROUNDUP sz / PGSIZE) a t k 0 f (PGROUNDUP sz)) as (a1 & k1 & E1 & Hpost); try done; try zlia.
    replace (0 + PGROUNDUP sz / PGSIZE * PGSIZE) with (PGROUNDUP sz) in Hpost by zlia.
    erewrite bind_done by exact E1. apply (freewalk_freed _ _ _ a1 t k1 (unmapped f 0 (PGROUNDUP sz))); try apply Hpost.
    + apply (unmap_freed _ _ _ _ (PGROUNDUP sz)); try done; lia.
    + intros v Hvr. destruct (flag _ PTE_V) eqn:HV; [|done]. apply unmapped_valid in HV as (HV & Hout & _).
      rewrite Hhi in HV; [done|lia].
  - assert (sz = 0) as -> by lia. change (PGROUNDUP 0) with 0 in *. erewrite bind_done by reflexivity.
    change (user_pages f 0) with (@nil Z). apply (freewalk_freed _ _ _ a t k f); [|done|done|auto].
    apply freed_nil; apply Hv.
Qed.

(** [kalloc]: nothing, when the list is empty, or a page that had no owner. *)
Lemma kalloc_took a k :
  represents a k -> complete a ->
  exists p k', kalloc c k = Done p c k' /\ ((p = 0 /\ a_free a = [] /\ took [] a a k k') \/ exists a', p <> 0 /\ page_ok p /\ took [p] a a' k k').
Proof.
  intros Hr Ha. destruct (kalloc_represents a k c Hr HK HR HP) as (k' & E & Hr' & Ho & Hm). unfold spec_kalloc in *.
  destruct (a_free a) as [|p l] eqn:Ea; cbn [fst snd] in *; eexists _, k'; (split; [exact E|]).
  - left. split; [done|]. split; [done|]. split; try done; [by intros q ?%elem_of_nil|]. intros q x _ _ _. apply Hm. by left.
  - right. destruct (represents_free_page _ _ _ _ Hr Ea) as (_ & Hp & _).
    assert (Hz : a_ref a p = 0) by (apply (rep_free0 _ _ Hr); rewrite Ea; apply list_elem_of_here). destruct (page_ok_range p Hp) as [Hpr _].
    eexists. split; [lia|]. split; [done|]. split; [done|by eapply complete_kalloc| | | |done].
    + intros q ->%list_elem_of_singleton. done.
    + intros q Hq. cbn [a_ref]. unfold upd_ref.
      destruct (Z.eqb_spec q p) as [->|Hne]; [by rewrite decide_True by apply list_elem_of_here|].
      rewrite decide_False; [done|]. by intros ?%list_elem_of_singleton.
    + intros q x Hq Hzq Hx. apply Hm. right. apply (page_apart p q); try done. by intros ->.
Qed.

End vmfree.
