(* ===== verification/UserMemEx.v ===== *)
(** * A small address space

    A concrete kernel state with twelve allocatable pages, a process that has
    one page of memory, and the empty page table of a child: the theorems of
    UserMem.v are applied to it. *)

From S2P Require Import Prelude Riscv CString Kernel Printf Kalloc Vm UserMem.
From stdpp Require Import base numbers strings gmap list.
From Stdlib Require Import ZArith Lia.

#[local] Open Scope Z_scope.
#[local] Open Scope kernel_scope.

(** All the members of a concrete list. *)
Ltac wcases H :=
  revert H; match goal with |- ?i ∈ _ -> _ => revert i end; refine (proj1 (Forall_forall _ _) _);
  repeat match goal with |- Forall _ (_ :: _) => apply Forall_cons; split end; [..|by apply Forall_nil].

Section usermem_witnesses.
#[local] Existing Instance small_linker.
#[local] Existing Instance small_linker_ok.

(** The [i]-th of the twelve pages. *)
Definition wpage (i : Z) : Z := PHYSTOP - (12 - i) * PGSIZE.

(** Page 0 is the root table of the process, 1 and 2 its lower tables, 3 its memory, which
    starts with the string "hi"; page 4 is the root table of the child; the others are free. *)
Definition wmem : memory :=
  let m := wr64 ∅ (wpage 5) (wpage 6) in
  let m := wr64 m (wpage 6) (wpage 7) in
  let m := wr64 m (wpage 7) (wpage 8) in
  let m := wr64 m (wpage 8) (wpage 9) in
  let m := wr64 m (wpage 9) (wpage 10) in
  let m := wr64 m (wpage 10) (wpage 11) in
  let m := wr64 m (wpage 0) (table_pte (Some (wpage 1))) in
  let m := wr64 m (wpage 1) (table_pte (Some (wpage 2))) in
  let m := wr64 m (wpage 2) (leaf_pte (wpage 3) 0x16) in
  wrbytes m (wpage 3) [104; 105; 0; 7].

Definition wrefs : gmap Z Z :=
  list_to_map [(wpage 0 / PGSIZE, 1); (wpage 1 / PGSIZE, 1); (wpage 2 / PGSIZE, 1); (wpage 3 / PGSIZE, 1); (wpage 4 / PGSIZE, 1)].

Definition wkernel : kernel :=
  kernel_0 <| mem := wmem |> <| freelist := wpage 5 |> <| free_pages_count := 7 |> <| ref_counts := wrefs |>
    <| procs ::= <[0%nat := proc_0 <| p_sz := 2 * PGSIZE |> <| p_pagetable := wpage 0 |>]> |>.

Definition wcpu : cpu := mkcpu (Some 0%nat) [] csrs_0.

Definition walloc : alloc_spec :=
  mkalloc (wpage <$> [5; 6; 7; 8; 9; 10; 11]) (fun p => if p <=? wpage 4 then 1 else 0).

Definition wtree : ptree := mkptree (wpage 0) {[0 := wpage 1]} {[(0, 0) := wpage 2]}.
Definition wchild : ptree := mkptree (wpage 4) ∅ ∅.
Definition wfun (v : Z) : Z := if v <? PGSIZE then leaf_pte (wpage 3) 0x16 else 0.

Lemma wpage_cases p : page_ok p -> exists i, p = wpage i /\ i ∈ [0; 1; 2; 3; 4; 5; 6; 7; 8; 9; 10; 11].
Proof.
  intros [Ha Hr]. change end_ with (PHYSTOP - 12 * PGSIZE - 8) in Hr.
  exists ((p - wpage 0) / PGSIZE). split; [unfold wpage; zlia|].
  assert (0 <= (p - wpage 0) / PGSIZE < 12) by (unfold wpage; zlia).
  rewrite !elem_of_cons. lia.
Qed.

Lemma wrepresents : represents walloc wkernel.
Proof.
  split.
  - vm_compute. repeat split; congruence.
  - apply (bool_decide_unpack _). vm_compute. exact I.
  - reflexivity.
  - intros p (i & -> & Hi)%wpage_cases. wcases Hi; vm_compute; reflexivity.
  - intros p (i & -> & Hi)%list_elem_of_fmap. wcases Hi; vm_compute; reflexivity.
  - unfold wkernel, wmem. kred. apply mem_ok_wrbytes. repeat apply mem_ok_wrn. apply mem_ok_empty.
Qed.

Lemma wcomplete : complete walloc.
Proof.
  intros p (i & -> & Hi)%wpage_cases. wcases Hi; intros Hz; first [discriminate Hz|apply (bool_decide_unpack _); vm_compute; exact I].
Qed.

(** Checks of all the entries of a table. *)
Definition entries_are (m : memory) (p : Z) (g : Z -> Z) : bool :=
  forallb (fun i => rd64 m (pte_addr p i) =? g i) (Z.of_nat <$> seq 0 512).

Lemma entries_are_spec m p g i : entries_are m p g = true -> 0 <= i < 512 -> rd64 m (pte_addr p i) = g i.
Proof.
  unfold entries_are. rewrite forallb_forall. intros He Hi. apply Z.eqb_eq, He.
  apply list_elem_of_In, list_elem_of_fmap. exists (Z.to_nat i). split; [lia|]. apply elem_of_seq. lia.
Qed.

Lemma wtree_wf : pt_wf (mem wkernel) wtree.
Proof.
  split.
  - apply (bool_decide_unpack _). vm_compute. exact I.
  - apply (bool_decide_unpack _). vm_compute. exact I.
  - intros i Hi. apply (entries_are_spec _ _ (fun i => table_pte (pt_mid wtree !! i))); [vm_compute; reflexivity|done].
  - intros i p Hp j Hj. unfold wtree in Hp. cbn [pt_mid] in Hp. apply lookup_singleton_Some in Hp as [<- <-].
    apply (entries_are_spec _ _ (fun j => table_pte (pt_low wtree !! (0, j)))); [vm_compute; reflexivity|done].
  - intros i p Hp. unfold wtree in Hp. cbn [pt_mid] in Hp. by apply lookup_singleton_Some in Hp as [<- _].
  - intros i j q Hq. unfold wtree in Hq. cbn [pt_low] in Hq. apply lookup_singleton_Some in Hq as [[= <- <-] _]. by split; [exists (wpage 1)|].
Qed.

Lemma wchild_wf : pt_wf (mem wkernel) wchild.
Proof.
  split.
  - apply (bool_decide_unpack _). vm_compute. exact I.
  - apply (bool_decide_unpack _). vm_compute. exact I.
  - intros i Hi. apply (entries_are_spec _ _ (fun i => table_pte (pt_mid wchild !! i))); [vm_compute; reflexivity|done].
  - done.
  - done.
  - done.
Qed.

Lemma wtree_ok : vm_ok walloc wtree wkernel.
Proof.
  split; [apply wrepresents|apply wcomplete|apply wtree_wf|].
  refine (proj1 (Forall_forall _ _) _). apply (bool_decide_unpack _). vm_compute. exact I.
Qed.

Lemma wchild_ok : vm_ok walloc wchild wkernel.
Proof.
  split; [apply wrepresents|apply wcomplete|apply wchild_wf|].
  refine (proj1 (Forall_forall _ _) _). apply (bool_decide_unpack _). vm_compute. exact I.
Qed.

Lemma wtree_is : pt_is wkernel wtree wfun.
Proof.
  intros va Hva. unfold pte_at, wfun.
  assert (Hj : rd64 (mem wkernel) (pte_addr (wpage 2) (PX 0 va)) = if PX 0 va =? 0 then leaf_pte (wpage 3) 0x16 else 0).
  { apply (entries_are_spec _ _ (fun j => if j =? 0 then leaf_pte (wpage 3) 0x16 else 0)); [vm_compute; reflexivity|].
    apply PX_range. lia. }
  destruct (decide ((PX 2 va, PX 1 va) = (0, 0))) as [E|E].
  - rewrite E. cbn [wtree pt_low]. rewrite lookup_singleton_eq, Hj.
    injection E. rewrite !PX_eq by lia. change (12 + 9 * 2) with 30. change (12 + 9 * 1) with 21. change (12 + 9 * 0) with 12.
    intros E1 E2. destruct (Z.eqb_spec (va / 2 ^ 12 mod 512) 0), (Z.ltb_spec va PGSIZE); try done; zlia.
  - cbn [wtree pt_low]. rewrite lookup_singleton_ne by done. destruct (Z.ltb_spec va PGSIZE); [|done].
    exfalso. apply E. rewrite !PX_eq by lia. change (12 + 9 * 2) with 30. change (12 + 9 * 1) with 21. f_equal; zlia.
Qed.

Lemma wchild_is : pt_is wkernel wchild (fun _ => 0).
Proof. intros va Hva. unfold pte_at. cbn [wchild pt_low]. by rewrite lookup_empty. Qed.

Lemma wfun_valid v : 0 <= v -> flag (wfun v) PTE_V = true -> v < PGSIZE /\ wfun v = leaf_pte (wpage 3) 0x16.
Proof. unfold wfun. destruct (Z.ltb_spec v PGSIZE); [done|]. intros _ [=]. Qed.

Lemma wpage_3 : PTE2PA (leaf_pte (wpage 3) 0x16) = wpage 3.
Proof. vm_compute. reflexivity. Qed.

Lemma wtree_um sz : um_ok walloc wtree wfun sz.
Proof.
  split.
  - intros v [? _] [_ ->]%wfun_valid; [|done]. rewrite wpage_3. by vm_compute.
  - intros v [? _] [_ ->]%wfun_valid; [|done]. rewrite wpage_3. by vm_compute.
  - intros v [? _] [_ ->]%wfun_valid; [|done]. rewrite wpage_3. apply (bool_decide_unpack _). vm_compute. exact I.
  - intros v v' [? _] [? _] [? _]%wfun_valid [? _]%wfun_valid _; [zlia|done..].
Qed.

Lemma wchild_um sz : um_ok walloc wchild (fun _ => 0) sz.
Proof. split; intros v; intros; done. Qed.

Lemma wparent : parent_ok walloc wchild wkernel wtree wfun PGSIZE.
Proof.
  split.
  - apply wtree_wf.
  - apply wtree_is.
  - refine (proj1 (Forall_forall _ _) _). apply (bool_decide_unpack _). vm_compute. exact I.
  - intros v [? _] [_ ->]%wfun_valid; [|done]. rewrite wpage_3. by vm_compute.
  - intros v [? _] [_ ->]%wfun_valid; [|done]. rewrite wpage_3. apply (bool_decide_unpack _). vm_compute. exact I.
Qed.

Lemma wunlocked lk : lk ∉ held wcpu.
Proof. apply not_elem_of_nil. Qed.

Lemma mappages_installs_witness :
  exists a' t' k' r j, mappages (pt_root wtree) PGSIZE (2 * PGSIZE) (wpage 7) 6 wcpu wkernel = Done r wcpu k' /\ vm_ok a' t' k' /\
    ((r = 0 /\ j = 2) \/ (r = -1 /\ 0 <= j < 2 /\ a_free a' = [])).
Proof.
  destruct (mappages_installs wcpu (wunlocked _) (wunlocked _) (wunlocked _) walloc wtree wkernel wfun PGSIZE 2 (wpage 7) 6)
    as (a' & t' & k' & r & j & E & Hv & Hr & _); [apply wtree_ok|apply wtree_is|done|done|done|done|done|done|done| |].
  - intros v Hv. unfold wfun. destruct (Z.ltb_spec v PGSIZE); [lia|done].
  - exists a', t', k', r, j. auto.
Defined.

Lemma uvmunmap_frees_witness :
  exists a' k', uvmunmap (pt_root wtree) 0 2 true wcpu wkernel = Done tt wcpu k' /\ vm_ok a' wtree k' /\ wpage 3 ∈ a_free a'.
Proof.
  destruct (uvmunmap_frees wcpu (wunlocked _) (wunlocked _) walloc wtree wkernel wfun (2 * PGSIZE) 0 2)
    as (a' & k' & E & Hv & _ & _ & Hfr & _); [apply wtree_ok|apply wtree_is|apply wtree_um|done|done|done|done|done|].
  exists a', k'. split; [done|]. split; [done|]. apply Hfr. right. exists 0. split; [lia|]. split; vm_compute; reflexivity.
Defined.

Lemma uvmalloc_grows_witness :
  exists r k' g, uvmalloc (pt_root wtree) 100 (2 * PGSIZE + 5) PTE_W wcpu wkernel = Done r wcpu k' /\
    ((r = 2 * PGSIZE + 5 /\ ubyte (mem k') g (PGSIZE + 17) = 0) \/ r = 0).
Proof.
  destruct (uvmalloc_grows wcpu (wunlocked _) (wunlocked _) (wunlocked _) walloc wtree wkernel wfun 100 (2 * PGSIZE + 5) PTE_W)
    as (r & k' & a' & t' & g & E & _ & _ & _ & _ & _ & _ & Hr);
    [apply wtree_ok|apply wtree_is|apply wtree_um|done|done|done| |].
  - change (PGROUNDUP 100) with PGSIZE. intros v Hv. unfold wfun. destruct (Z.ltb_spec v PGSIZE); [lia|done].
  - exists r, k', g. split; [done|]. destruct Hr as [[-> Hr]|[-> _]]; [left|by right]. split; [done|].
    apply Hr. vm_compute. split; congruence.
Defined.

Lemma uvmcopy_copies_witness :
  exists r k' g, uvmcopy (pt_root wtree) (pt_root wchild) 1000 wcpu wkernel = Done r wcpu k' /\
    ((r = 0 /\ ubyte (mem k') g 1 = 105) \/ r = -1).
Proof.
  destruct (uvmcopy_copies wcpu (wunlocked _) (wunlocked _) (wunlocked _) walloc wchild wkernel wtree wfun (fun _ => 0) 1000)
    as (r & k' & a' & t' & g & E & _ & _ & _ & _ & _ & _ & Hr);
    [apply wchild_ok|apply wchild_is|apply wchild_um|apply wparent|done|done|].
  exists r, k', g. split; [done|]. destruct Hr as [(-> & _ & Hr)|[-> _]]; [left|by right]. split; [done|].
  destruct (Hr 1) as (_ & _ & ->); [vm_compute; split; congruence|vm_compute; reflexivity..].
Defined.

Lemma copyout_copyin_witness :
  exists k', copyout (pt_root wtree) 100 [1; 2; 3] 3 wcpu wkernel = Done 0 wcpu k' /\
    copyin (pt_root wtree) 100 3 wcpu k' = Done (0, [1; 2; 3]) wcpu k'.
Proof.
  destruct (copyout_copyin wcpu walloc wtree wkernel wfun PGSIZE 100 [1; 2; 3]) as (k' & E & _ & _ & _ & E');
    [apply wtree_ok|apply wtree_is|apply wtree_um|done|done|done| | |].
  - cbn [length Z.of_nat]. intros v Hv. unfold user_ok, wfun. destruct (Z.ltb_spec v PGSIZE); [split; vm_compute; congruence|lia].
  - by repeat (apply Forall_cons; split).
  - change (Z.of_nat (length [1; 2; 3])) with 3 in E, E'. exists k'. split; [exact E|exact E'].
Defined.

Lemma copyinstr_string_witness :
  copyinstr (pt_root wtree) 0 128 wcpu wkernel = Done (0, [104; 105; 0]) wcpu wkernel.
Proof.
  destruct (copyinstr_string wcpu wtree wkernel wfun 0 128) as [Hs _]; [apply wtree_wf|apply wtree_is|done|done|done|].
  rewrite (Hs 2); [vm_compute; reflexivity|lia| | |vm_compute; reflexivity].
  - intros v Hv. unfold user_ok, wfun. destruct (Z.ltb_spec v PGSIZE); [split; vm_compute; congruence|lia].
  - intros i Hi. assert (i = 0 \/ i = 1) as [-> | ->] by lia; vm_compute; congruence.
Defined.

Lemma vmfault_maps_witness :
  exists r k' g, vmfault (pt_root wtree) (PGSIZE + 9) true wcpu wkernel = Done r wcpu k' /\
    r <> 0 /\ user_ok g (PGSIZE + 9) = true /\ ubyte (mem k') g (PGSIZE + 100) = 0.
Proof.
  destruct (vmfault_maps wcpu (wunlocked _) (wunlocked _) (wunlocked _) walloc wtree wkernel wfun 0%nat
      (proc_0 <| p_sz := 2 * PGSIZE |> <| p_pagetable := wpage 0 |>) (PGSIZE + 9) true)
    as (r & k' & a' & t' & g & E & _ & _ & _ & _ & _ & Hr);
    [apply wtree_ok|apply wtree_is|apply wtree_um|done|done|done|done|done|].
  exists r, k', g. split; [exact E|]. destruct Hr as [(_ & _ & [Hr|[Hr|Hr]])|(_ & _ & _ & Hr & _ & Hu & _ & _ & Hb)].
  - exfalso. revert Hr. cbn. lia.
  - exfalso. revert Hr. vm_compute. discriminate.
  - exfalso. revert Hr. vm_compute. discriminate.
  - split; [exact Hr|]. split; [exact Hu|]. apply Hb. vm_compute. reflexivity.
Defined.

End usermem_witnesses.
