(* ===== verification/Sched.v ===== *)
(** * Scheduling: [sched], [yield], [sleep], [wakeup], [kkill] and the
    priority scheduler of [proc.c]

    A call that gives up the CPU is a [Switch]: the process holds its own lock
    and nothing else, and the rest of the call runs when a scheduler, holding
    that lock, resumes it.  The scheduler's scan of the process table is
    modelled lock by lock. *)

From S2P Require Import Prelude Riscv CString Kernel Printf.
From stdpp Require Import base numbers strings gmap list.
From Stdlib Require Import ZArith Lia.

#[local] Open Scope Z_scope.
#[local] Open Scope kernel_scope.

(** ** Giving up the CPU *)

(** [swtch(&p->context, &mycpu()->context)]: what is left is to return. *)
Definition swtch : M unit := fun c k => Switch c k (fun c k => Done tt c k).

(** [mycpu()->noff] is the number of spinlocks held; interrupts are off while
    it is not 0, so the last test of [sched] never fires. *)
Definition sched : M unit :=
  i <- curproc ;;
  h <- holding (LProc i) ;;
  if negb h then panic "sched p->lock" else
  c <- mycpu ;;
  if negb (Z.of_nat (length (held c)) =? 1) then panic "sched locks" else
  p <- getproc i ;;
  if decide (p_state p = RUNNING) then panic "sched RUNNING" else
  swtch.

Definition yield : M unit :=
  i <- curproc ;;
  acquire (LProc i) ;;
  modproc i (fun p => p <| p_state := RUNNABLE |>) ;;
  sched ;;
  release (LProc i).

Definition sleep (ch : chan) (lk : lockid) : M unit :=
  i <- curproc ;;
  acquire (LProc i) ;;
  release lk ;;
  modproc i (fun p => p <| p_chan := ch |>) ;;
  modproc i (fun p => p <| p_state := SLEEPING |>) ;;
  sched ;;
  modproc i (fun p => p <| p_chan := CNull |>) ;;
  release (LProc i) ;;
  acquire lk.

(** [for(p = proc; p < &proc[NPROC]; p++)], [n] processes left. *)
Fixpoint wakeup_loop (n i : nat) (ch : chan) : M unit :=
  match n with
  | O => ret tt
  | S n =>
      me <- myproc ;;
      (if decide (me = Some i) then ret tt else
       acquire (LProc i) ;;
       p <- getproc i ;;
       when (bool_decide (p_state p = SLEEPING) && bool_decide (p_chan p = ch))
         (modproc i (fun p => p <| p_state := RUNNABLE |>)) ;;
       release (LProc i)) ;;
      wakeup_loop n (S i) ch
  end.

Definition wakeup (ch : chan) : M unit := wakeup_loop 64 0 ch.

(** ** Killing *)

Fixpoint kkill_loop (n i : nat) (pid : Z) : M Z :=
  match n with
  | O => ret (-1)
  | S n =>
      acquire (LProc i) ;;
      p <- getproc i ;;
      if p_pid p =? pid then
        modproc i (fun p => p <| p_killed := 1 |>) ;;
        when (bool_decide (p_state p = SLEEPING)) (modproc i (fun p => p <| p_state := RUNNABLE |>)) ;;
        release (LProc i) ;;
        ret 0
      else
        release (LProc i) ;;
        kkill_loop n (S i) pid
  end.

Definition kkill (pid : Z) : M Z := kkill_loop 64 0 pid.

Definition setkilled (i : nat) : M unit :=
  acquire (LProc i) ;;
  modproc i (fun p => p <| p_killed := 1 |>) ;;
  release (LProc i).

Definition killed (i : nat) : M Z :=
  acquire (LProc i) ;;
  p <- getproc i ;;
  release (LProc i) ;;
  ret (p_killed p).

(** ** The scheduler *)

(** The selection phase, from process [i] on; [high_p] is the candidate, whose
    lock is held. *)
Fixpoint select_loop (n i : nat) (high_p : option nat) : M (option nat) :=
  match n with
  | O => ret high_p
  | S n =>
      acquire (LProc i) ;;
      p <- getproc i ;;
      if decide (p_state p = RUNNABLE) then
        match high_p with
        | None => select_loop n (S i) (Some i)
        | Some h =>
            hp <- getproc h ;;
            if p_priority p >? p_priority hp then
              release (LProc h) ;;
              select_loop n (S i) (Some i)
            else
              release (LProc i) ;;
              select_loop n (S i) (Some h)
        end
      else
        release (LProc i) ;;
        select_loop n (S i) high_p
  end.

Definition scheduler_select : M (option nat) := select_loop 64 0 None.

(** The execution phase up to [swtch]. *)
Definition scheduler_start (i : nat) : M unit :=
  modproc i (fun p => p <| p_state := RUNNING |>) ;;
  setcpu (fun c => c <| cpu_proc := Some i |>) ;;
  p <- getproc i ;;
  when (p_priority p >? 5)
    (printf ("SCHEDULER: VIP Process PID %d (Priority %d) is running" +:+ nl) [VInt (p_pid p); VInt (p_priority p)]).

(** What it does when the process has switched back. *)
Definition scheduler_finish (i : nat) : M unit :=
  setcpu (fun c => c <| cpu_proc := None |>) ;;
  release (LProc i).

(** A process that is not running is the rest of its last call. *)
Definition thread := M unit.

(** One iteration of [for(;;)] of [scheduler]: select, run the chosen process
    until it gives up the CPU, and return the process that ran with what is
    left of it; [None] when nothing is runnable ([wfi]). *)
Definition scheduler_round (threads : nat -> thread) : M (option (nat * thread)) :=
  high_p <- scheduler_select ;;
  match high_p with
  | None => ret None
  | Some i =>
      scheduler_start i ;;
      rest <- (fun c k =>
        match threads i c k with
        | Switch c k resume => Done resume c k
        | Done _ _ _ => Stuck "thread returned"
        | Panicked msg c k => Panicked msg c k
        | Stuck why => Stuck why
        end) ;;
      scheduler_finish i ;;
      ret (Some (i, rest))
  end.

(** [n] iterations; the processes run, in order. *)
Fixpoint scheduler_rounds (n : nat) (threads : nat -> thread) : M (list (option nat)) :=
  match n with
  | O => ret []
  | S n =>
      r <- scheduler_round threads ;;
      match r with
      | None => rs <- scheduler_rounds n threads ;; ret (None :: rs)
      | Some (i, rest) =>
          rs <- scheduler_rounds n (fun j => if decide (j = i) then rest else threads j) ;;
          ret (Some i :: rs)
      end
  end.

(** ** Lemmas *)

Lemma modproc_done i f c k : modproc i f c k = Done tt c (k <| procs ::= alter f i |>).
Proof. done. Qed.

(** Two updates of one process. *)
Lemma lalter_lalter {A} (f g : A -> A) i (l : list A) : alter f i (alter g i l) = alter (fun x => f (g x)) i l.
Proof.
  apply list_eq. intros j. destruct (decide (i = j)) as [->|].
  - rewrite !list_lookup_alter_eq. by destruct (l !! j).
  - by rewrite !list_lookup_alter_ne.
Qed.

Lemma lalter_ext {A} (f g : A -> A) i (l : list A) : (forall x, f x = g x) -> alter f i l = alter g i l.
Proof. intros E. apply list_alter_ext; [|done]. intros x _. apply E. Qed.

Lemma lalter_id {A} (f : A -> A) i (l : list A) : (forall x, l !! i = Some x -> f x = x) -> alter f i l = l.
Proof.
  intros E. apply list_eq. intros j. destruct (decide (i = j)) as [<-|]; [|by rewrite list_lookup_alter_ne].
  rewrite list_lookup_alter_eq. destruct (l !! i) eqn:El; [|done]. simpl. by rewrite E.
Qed.

(** [sched] hands the CPU over when the process holds exactly its own lock and is not
    marked running. *)
Lemma sched_ok i p c k :
  cpu_proc c = Some i -> held c = [LProc i] -> procs k !! i = Some p -> p_state p <> RUNNING ->
  sched c k = Switch c k (fun c k => Done tt c k).
Proof.
  intros Hi Hh Hp Hs. unfold sched. erewrite bind_done by (by apply curproc_done).
  unfold holding. erewrite bind_done by done. rewrite Hh, bool_decide_true by (by apply list_elem_of_here). cbn [negb].
  unfold mycpu. erewrite bind_done by done. rewrite Hh. cbn [length].
  change (Z.of_nat 1 =? 1) with true. cbn [negb].
  erewrite bind_done by (by apply getproc_done). by rewrite decide_False.
Qed.

Lemma sched_none i c k :
  cpu_proc c = Some i -> held c = [LProc i] -> procs k !! i = None -> sched c k = Stuck "null".
Proof.
  intros Hi Hh Hp. unfold sched. erewrite bind_done by (by apply curproc_done).
  unfold holding. erewrite bind_done by done. rewrite Hh, bool_decide_true by (by apply list_elem_of_here). cbn [negb].
  unfold mycpu. erewrite bind_done by done. rewrite Hh. cbn [length]. change (Z.of_nat 1 =? 1) with true. cbn [negb].
  by erewrite bind_stuck by (by apply getproc_none).
Qed.

(** With another spinlock held it panics. *)
Lemma sched_locks i c k :
  cpu_proc c = Some i -> LProc i ∈ held c -> (1 < length (held c))%nat -> sched c k = Panicked "sched locks" c k.
Proof.
  intros Hi Hh Hl. unfold sched. erewrite bind_done by (by apply curproc_done).
  unfold holding. erewrite bind_done by done. rewrite bool_decide_true by done. cbn [negb].
  unfold mycpu. erewrite bind_done by done. destruct (Z.eqb_spec (Z.of_nat (length (held c))) 1); [lia|done].
Qed.

(** *** Sleeping *)

(** The state [sleep] leaves behind: its process asleep on [ch]. *)
Definition asleep (i : nat) (ch : chan) (k : kernel) : kernel :=
  k <| procs ::= alter (fun p => p <| p_chan := ch |> <| p_state := SLEEPING |>) i |>.

Lemma asleep_lookup i ch k p :
  procs k !! i = Some p -> procs (asleep i ch k) !! i = Some (p <| p_chan := ch |> <| p_state := SLEEPING |>).
Proof. intros E. unfold asleep. kred. rewrite list_lookup_alter_eq, E. done. Qed.

Lemma filter_own (lk own : lockid) : lk <> own -> filter (fun l => l <> lk) [own; lk] = [own].
Proof. intros. rewrite filter_cons_True by congruence. rewrite filter_cons_False by tauto. done. Qed.

(** [sleep] with only [lk] held: [lk] is released, the process sleeps on [ch] holding its own
    lock, and when it is resumed it clears its channel and takes [lk] back. *)
Lemma sleep_switches i ch lk c k p :
  cpu_proc c = Some i -> procs k !! i = Some p -> held c = [lk] -> lk <> LProc i ->
  exists resume, sleep ch lk c k = Switch (c <| held := [LProc i] |>) (asleep i ch k) resume /\
    forall c' k', cpu_proc c' = Some i -> held c' = [LProc i] ->
      resume c' k' = Done tt (c' <| held := [lk] |>) (k' <| procs ::= alter (fun p => p <| p_chan := CNull |>) i |>).
Proof.
  intros Hi Hp Hh Hne. unfold sleep.
  erewrite bind_done by (by apply curproc_done).
  erewrite bind_done by (apply acquire_ok; rewrite Hh; intros ?%list_elem_of_singleton; congruence).
  rewrite Hh.
  erewrite bind_done by (apply release_done; kred; apply list_elem_of_further, list_elem_of_here). kred.
  rewrite filter_own by done.
  erewrite bind_done by done. erewrite bind_done by done. kred. rewrite lalter_lalter.
  erewrite bind_switch by (eapply (sched_ok i); [done|done|by apply asleep_lookup|done]).
  eexists. split; [reflexivity|]. intros c' k' Hi' Hh'. cbn [continue].
  erewrite bind_done by done.
  erewrite bind_done by (apply release_done; rewrite Hh'; apply list_elem_of_here). rewrite Hh'. kred.
  rewrite filter_cons_False by tauto.
  rewrite acquire_ok by apply not_elem_of_nil. kred. reflexivity.
Qed.

(** [sleep] while a second spinlock is held stops the kernel. *)
Lemma sleep_second_lock i ch lk lk' c k p :
  cpu_proc c = Some i -> procs k !! i = Some p -> held c = [lk; lk'] -> lk <> LProc i -> lk' <> LProc i -> lk <> lk' ->
  exists c' k', sleep ch lk c k = Panicked "sched locks" c' k'.
Proof.
  intros Hi Hp Hh Hne Hne' Hd. unfold sleep.
  erewrite bind_done by (by apply curproc_done).
  erewrite bind_done by (apply acquire_ok; rewrite Hh; by intros [?|?%list_elem_of_singleton]%elem_of_cons).
  rewrite Hh.
  erewrite bind_done by (apply release_done; kred; apply list_elem_of_further, list_elem_of_here). kred.
  rewrite filter_cons_True by congruence. rewrite filter_cons_False by tauto. rewrite filter_cons_True by congruence.
  erewrite bind_done by done. erewrite bind_done by done. kred.
  do 2 eexists. erewrite bind_panic; [reflexivity|]. apply (sched_locks i); [done|apply list_elem_of_here|simpl; lia].
Qed.

(** *** Waking up *)

(** What [wakeup(ch)] by process [me] does to process [j]. *)
Definition woken (ch : chan) (me : option nat) (j : nat) (p : proc) : proc :=
  if bool_decide (me <> Some j) && bool_decide (p_state p = SLEEPING) && bool_decide (p_chan p = ch)
  then p <| p_state := RUNNABLE |> else p.

(** The process locks are free on this CPU. *)
Definition procs_unlocked (c : cpu) : Prop := forall j, LProc j ∉ held c.

Lemma wakeup_loop_ok n i ch c k :
  procs_unlocked c -> (i + n = length (procs k))%nat ->
  exists ps, wakeup_loop n i ch c k = Done tt c (k <| procs := ps |>) /\
    forall j, ps !! j = (if decide (i <= j)%nat then woken ch (cpu_proc c) j else id) <$> procs k !! j.
Proof.
  intros Hu. revert i k. induction n as [|n IH]; intros i k Hn.
  - exists (procs k). split; [by destruct k|]. intros j. destruct (decide _); [|by destruct (procs k !! j)].
    rewrite lookup_ge_None_2 by lia. done.
  - cbn [wakeup_loop]. unfold myproc, mycpu. erewrite bind_done by done.
    destruct (lookup_lt_is_Some_2 (procs k) i) as [p Hp]; [lia|].
    assert (Hbody : (if decide (cpu_proc c = Some i) then ret tt else
       acquire (LProc i) ;; p <- getproc i ;;
       when (bool_decide (p_state p = SLEEPING) && bool_decide (p_chan p = ch)) (modproc i (fun p => p <| p_state := RUNNABLE |>)) ;;
       release (LProc i)) c k = Done tt c (k <| procs ::= alter (woken ch (cpu_proc c) i) i |>)).
    { destruct (decide (cpu_proc c = Some i)) as [E|E].
      - kred. rewrite lalter_id; [by destruct k|]. intros q _. unfold woken. by rewrite bool_decide_false by tauto.
      - erewrite bind_done by (by apply acquire_ok). erewrite bind_done by (by apply getproc_done).
        destruct (bool_decide (p_state p = SLEEPING) && bool_decide (p_chan p = ch)) eqn:Eb; cbn [when].
        + erewrite bind_done by done. rewrite release_ok by done. f_equal. kred. f_equal.
          apply list_eq. intros j. destruct (decide (i = j)) as [<-|Hne].
          * rewrite !list_lookup_alter_eq, Hp. cbn. unfold woken. by rewrite bool_decide_true, andb_true_l, Eb by done.
          * by rewrite !list_lookup_alter_ne.
        + erewrite bind_done by done. rewrite release_ok by done. f_equal.
          kred. rewrite lalter_id; [by destruct k|]. intros q Hq. unfold woken. assert (q = p) as -> by congruence.
          by rewrite bool_decide_true, andb_true_l, Eb by done. }
    erewrite bind_done by exact Hbody.
    destruct (IH (S i) (k <| procs ::= alter (woken ch (cpu_proc c) i) i |>)) as (ps & E & Hps).
    { kred. rewrite length_alter. lia. }
    exists ps. split; [rewrite E; f_equal|]. intros j. rewrite Hps. kred.
    destruct (decide (i = j)) as [<-|Hne].
    + rewrite list_lookup_alter_eq, Hp. rewrite decide_False, decide_True by lia. done.
    + rewrite list_lookup_alter_ne by done. destruct (decide (S i <= j)%nat), (decide (i <= j)%nat); try done; lia.
Qed.

Lemma wakeup_ok ch c k :
  procs_unlocked c -> length (procs k) = 64%nat ->
  wakeup ch c k = Done tt c (k <| procs ::= imap (woken ch (cpu_proc c)) |>).
Proof.
  intros Hu Hn. destruct (wakeup_loop_ok 64 0 ch c k Hu) as (ps & E & Hps); [lia|].
  unfold wakeup. rewrite E. f_equal. kred. f_equal. apply list_eq. intros j. rewrite Hps, list_lookup_imap. done.
Qed.

(** *** The scheduler *)

Definition runnable (k : kernel) (j : nat) (pr : Z) : Prop :=
  exists p, procs k !! j = Some p /\ p_state p = RUNNABLE /\ p_priority p = pr.

(** Among the processes below [i], [high_p] is the first of those of highest priority. *)
Definition best (k : kernel) (i : nat) (high_p : option nat) : Prop :=
  match high_p with
  | None => forall j pr, (j < i)%nat -> ~ runnable k j pr
  | Some h => exists ph, (h < i)%nat /\ runnable k h ph /\
      forall j pr, (j < i)%nat -> runnable k j pr -> pr <= ph /\ ((j < h)%nat -> pr < ph)
  end.

Definition lock_of (high_p : option nat) : list lockid :=
  match high_p with Some h => [LProc h] | None => [] end.

(** The scan keeps the lock of the candidate and of nobody else. *)
Lemma release_new i high b c k :
  (forall j, LProc j ∉ b) -> (forall h, high = Some h -> h <> i) -> held c = LProc i :: lock_of high ++ b ->
  release (LProc i) c k = Done tt (c <| held := lock_of high ++ b |>) k.
Proof.
  intros Hb Hh E. rewrite release_done by (rewrite E; apply list_elem_of_here). rewrite E.
  rewrite filter_cons_False by tauto. rewrite filter_ne_notin; [done|]. intros [Hin|Hin]%elem_of_app; [|by apply (Hb i)].
  destruct high as [h|]; [|by apply not_elem_of_nil in Hin]. apply list_elem_of_singleton in Hin as [= ->]. by apply (Hh h).
Qed.

Lemma release_old i h b c k :
  (forall j, LProc j ∉ b) -> h <> i -> held c = LProc i :: LProc h :: b ->
  release (LProc h) c k = Done tt (c <| held := LProc i :: b |>) k.
Proof.
  intros Hb Hh E. rewrite release_done by (rewrite E; apply list_elem_of_further, list_elem_of_here). rewrite E.
  rewrite filter_cons_True by congruence. rewrite filter_cons_False by tauto. by rewrite filter_ne_notin.
Qed.

Lemma best_skip k i high p :
  best k i high -> procs k !! i = Some p ->
  (p_state p <> RUNNABLE \/ exists h hp, high = Some h /\ procs k !! h = Some hp /\ p_priority p <= p_priority hp) ->
  best k (S i) high.
Proof.
  intros Hb Hp Hs. destruct high as [h|]; simpl in *.
  - destruct Hb as (ph & Hh & (hp & Ehp & Ehs & Epr) & Hmax). exists ph. split; [lia|]. split; [by exists hp|].
    intros j pr Hj Hr. destruct (decide (j = i)) as [->|Hne]; [|apply Hmax; [lia|done]].
    destruct Hr as (p' & Hp' & Hst & <-). assert (p' = p) as -> by congruence.
    destruct Hs as [?|(h' & hp' & [= <-] & Ehp' & Hle)]; [done|]. assert (hp' = hp) as -> by congruence. split; [lia|lia].
  - intros j pr Hj Hr. destruct (decide (j = i)) as [->|Hne]; [|apply (Hb j pr); [lia|done]].
    destruct Hr as (p' & Hp' & Hst & <-). assert (p' = p) as -> by congruence.
    destruct Hs as [?|(h' & hp' & [=] & _)]; done.
Qed.

Lemma best_new k i high p :
  best k i high -> procs k !! i = Some p -> p_state p = RUNNABLE ->
  (forall h hp, high = Some h -> procs k !! h = Some hp -> p_priority hp < p_priority p) ->
  best k (S i) (Some i).
Proof.
  intros Hb Hp Hs Hgt. exists (p_priority p). split; [lia|]. split; [by exists p|]. intros j pr Hj Hr.
  destruct (decide (j = i)) as [->|Hne].
  - destruct Hr as (p' & Hp' & _ & <-). assert (p' = p) as -> by congruence. split; [lia|lia].
  - assert (pr < p_priority p); [|split; [lia|done]]. destruct high as [h|]; simpl in Hb.
    + destruct Hb as (ph & Hh & (hp & Ehp & _ & Epr) & Hmax). destruct (Hmax j pr) as [Hle _]; [lia|done|].
      specialize (Hgt h hp eq_refl Ehp). lia.
    + exfalso. apply (Hb j pr); [lia|done].
Qed.

Lemma best_lookup k i h : best k i (Some h) -> (h < i)%nat /\ exists hp, procs k !! h = Some hp.
Proof. intros (ph & Hh & (hp & Ehp & _) & _). split; [done|]. by exists hp. Qed.

Lemma select_loop_ok n i high b c k :
  (i + n = length (procs k))%nat -> (forall j, LProc j ∉ b) -> held c = lock_of high ++ b -> best k i high ->
  exists high', select_loop n i high c k = Done high' (c <| held := lock_of high' ++ b |>) k /\
    best k (length (procs k)) high'.
Proof.
  intros Hn Hb. revert i high c Hn. induction n as [|n IH]; intros i high c Hn Hh Hbest.
  { exists high. split; [cbn [select_loop]; unfold ret; rewrite <- Hh; by destruct c|]. by replace (length (procs k)) with i by lia. }
  destruct (lookup_lt_is_Some_2 (procs k) i) as [p Hp]; [lia|].
  assert (Hlt : forall h, high = Some h -> h <> i) by (intros h ->; apply best_lookup in Hbest as [? _]; lia).
  cbn [select_loop]. erewrite bind_done.
  2: { apply acquire_ok. rewrite Hh. intros [Hin|Hin]%elem_of_app; [|by apply (Hb i)].
       destruct high as [h|]; [|by apply not_elem_of_nil in Hin]. apply list_elem_of_singleton in Hin as [= ->]. by apply (Hlt h). }
  erewrite bind_done by (by apply getproc_done). rewrite Hh.
  set (c1 := c <| held := LProc i :: lock_of high ++ b |>).
  assert (Hskip : (p_state p <> RUNNABLE \/ exists h hp, high = Some h /\ procs k !! h = Some hp /\ p_priority p <= p_priority hp) ->
    exists high', (release (LProc i) ;; select_loop n (S i) high) c1 k = Done high' (c <| held := lock_of high' ++ b |>) k /\
      best k (length (procs k)) high').
  { intros Hs. erewrite bind_done by (by apply (release_new i high b)).
    destruct (IH (S i) high (c <| held := lock_of high ++ b |>)) as (high' & E & Hb'); [lia|done|by eapply best_skip|].
    exists high'. split; [exact E|done]. }
  assert (Hnew : p_state p = RUNNABLE -> (forall h hp, high = Some h -> procs k !! h = Some hp -> p_priority hp < p_priority p) ->
    exists high', select_loop n (S i) (Some i) (c <| held := LProc i :: b |>) k =
      Done high' (c <| held := lock_of high' ++ b |>) k /\ best k (length (procs k)) high').
  { intros Hs Hgt. destruct (IH (S i) (Some i) (c <| held := LProc i :: b |>)) as (high' & E & Hb'); [lia|done|by eapply best_new|].
    exists high'. split; [exact E|done]. }
  destruct (decide (p_state p = RUNNABLE)) as [Hs|Hs]; [|apply Hskip; by left].
  destruct high as [h|]; [|apply Hnew; done].
  destruct (best_lookup _ _ _ Hbest) as [Hhi [hp Hhp]].
  erewrite bind_done by (by apply getproc_done).
  destruct (Z.gtb_spec (p_priority p) (p_priority hp)) as [Hgt|Hle].
  - erewrite bind_done by (by apply (release_old i h b); [|auto|]). apply Hnew; [done|].
    intros h' hp' [= <-] Hhp'. assert (hp' = hp) as -> by congruence. done.
  - apply Hskip. right. eauto.
Qed.

Lemma best_unique k n h h' : best k n (Some h) -> best k n (Some h') -> h = h'.
Proof.
  intros (ph & Hh & Hr & Hmax) (ph' & Hh' & Hr' & Hmax').
  destruct (Hmax h' ph') as [Hle Hlt]; [done|done|]. destruct (Hmax' h ph) as [Hle' Hlt']; [done|done|].
  destruct (decide (h < h')%nat); [specialize (Hlt' l); lia|]. destruct (decide (h' < h)%nat); [specialize (Hlt l); lia|lia].
Qed.

(** *** A process that only yields *)

Fixpoint spin (n : nat) : M unit :=
  match n with
  | O => ret tt
  | S n => yield ;; spin n
  end.

(** The message of the execution phase. *)
Definition vip_msg (pid pr : Z) : list Z :=
  str "SCHEDULER: VIP Process PID " ++ printint (i32 pid) 10 true ++ str " (Priority " ++ printint (i32 pr) 10 true ++
  str (") is running" +:+ nl).

Lemma format_vip_msg pid pr :
  format (str ("SCHEDULER: VIP Process PID %d (Priority %d) is running" +:+ nl)) [VInt pid; VInt pr] = Some (vip_msg pid pr).
Proof. reflexivity. Qed.

(** What the execution phase prints. *)
Definition vip_log (p : proc) (o : list Z) : list Z :=
  if p_priority p >? 5 then o ++ out (vip_msg (p_pid p) (p_priority p)) else o.

Lemma scheduler_start_ok i p c k :
  procs k !! i = Some p -> LPr ∉ held c ->
  scheduler_start i c k = Done tt (c <| cpu_proc := Some i |>)
    (k <| procs ::= alter (fun p => p <| p_state := RUNNING |>) i |> <| uart ::= vip_log p |>).
Proof.
  intros Hp Hh. unfold scheduler_start. erewrite bind_done by done. erewrite bind_done by done.
  erewrite bind_done. 2: { apply getproc_done. kred. rewrite list_lookup_alter_eq, Hp. reflexivity. }
  unfold vip_log. cbn [p_priority p_pid update]. destruct (p_priority p >? 5); cbn [when].
  - rewrite (printf_done _ _ (vip_msg (p_pid p) (p_priority p))); [kdone|done|apply format_vip_msg].
  - unfold ret. kdone.
Qed.

(** Resuming a process that only yields: it yields again. *)
Lemma spin_switches i p n c k :
  cpu_proc c = Some i -> held c = [LProc i] -> procs k !! i = Some p ->
  exists rest, (release (LProc i) ;; spin (S n)) c k =
      Switch c (k <| procs ::= alter (fun p => p <| p_state := RUNNABLE |>) i |>) rest /\
    forall c k, rest c k = (release (LProc i) ;; spin n) c k.
Proof.
  intros Hi Hh Hp. erewrite bind_done by (apply release_done; rewrite Hh; apply list_elem_of_here).
  rewrite Hh. rewrite filter_cons_False by tauto. cbn [spin]. unfold yield.
  erewrite bind_switch.
  2: { erewrite bind_done by (by apply curproc_done). erewrite bind_done by (apply acquire_ok, not_elem_of_nil).
       erewrite bind_done by done. erewrite bind_switch; [reflexivity|].
       eapply (sched_ok i); [done|reflexivity| |].
       - kred. rewrite list_lookup_alter_eq, Hp. reflexivity.
       - done. }
  eexists. split; [|intros; reflexivity]. f_equal. destruct c. simpl in Hh. by subst.
Qed.

(** One round with a process that only yields at the front. *)
Lemma round_spin i p n threads c k :
  length (procs k) = 64%nat -> held c = [] -> cpu_proc c = None -> procs k !! i = Some p -> p_state p = RUNNABLE ->
  best k 64 (Some i) -> (forall c k, threads i c k = (release (LProc i) ;; spin (S n)) c k) ->
  exists rest, scheduler_round threads c k = Done (Some (i, rest)) c (k <| uart ::= vip_log p |>) /\
    forall c k, rest c k = (release (LProc i) ;; spin n) c k.
Proof.
  intros Hl Hh Hc Hp Hs Hb Ht. unfold scheduler_round, scheduler_select.
  destruct (select_loop_ok 64 0 None [] c k) as (h & E & Hb'); [done|intros; apply not_elem_of_nil|done|intros j pr Hj; lia|].
  rewrite Hl in Hb'. destruct h as [h|].
  2: { exfalso. destruct Hb as (ph & Hlt & Hr & _). apply (Hb' i ph Hlt Hr). }
  assert (h = i) as -> by (by eapply best_unique). erewrite bind_done by exact E. cbv beta iota.
  erewrite bind_done by (apply scheduler_start_ok; [done|kred; by intros ?%list_elem_of_singleton]).
  destruct (spin_switches i (p <| p_state := RUNNING |>) n (c <| held := lock_of (Some i) ++ [] |> <| cpu_proc := Some i |>)
    (k <| procs ::= alter (fun p => p <| p_state := RUNNING |>) i |> <| uart ::= vip_log p |>)) as (rest & Er & Hrest);
    [done|done|kred; by rewrite list_lookup_alter_eq, Hp|].
  erewrite bind_done by (rewrite Ht, Er; reflexivity).
  exists rest. split; [|done]. unfold scheduler_finish. erewrite bind_done.
  2: { erewrite bind_done by done. apply release_done. apply list_elem_of_here. }
  unfold ret. f_equal.
  - kred. cbn [lock_of app]. rewrite filter_cons_False by tauto. destruct c as [pr hl rg]. cbn in Hh, Hc. by subst.
  - kred. rewrite lalter_lalter, lalter_id; [done|]. intros q Hq. assert (q = p) as -> by congruence. rewrite <- Hs. by destruct p.
Qed.

(** ** Theorems *)

(** C25. The selection phase of the scheduler returns, among the RUNNABLE processes, one of highest
    priority, and the first of those in the table; it returns none only when no process is
    RUNNABLE.  When it is done this CPU holds the lock of the process it chose and no other
    process lock, and it has changed nothing. *)
Theorem scheduler_selects_highest c k :
  length (procs k) = 64%nat -> procs_unlocked c ->
  exists high_p, scheduler_select c k = Done high_p (c <| held := lock_of high_p ++ held c |>) k /\
    match high_p with
    | None => forall j pr, ~ runnable k j pr
    | Some h => exists ph, runnable k h ph /\
        forall j pr, runnable k j pr -> pr <= ph /\ ((j < h)%nat -> pr < ph)
    end.
Proof.
  intros Hl Hu. destruct (select_loop_ok 64 0 None (held c) c k) as (h & E & Hb); [done|done|done|intros j pr Hj; lia|].
  exists h. split; [exact E|]. rewrite Hl in Hb.
  assert (Hin : forall j pr, runnable k j pr -> (j < 64)%nat).
  { intros j pr (p & Hp & _). apply lookup_lt_Some in Hp. lia. }
  destruct h as [h|]; simpl in Hb.
  - destruct Hb as (ph & Hh & Hr & Hmax). exists ph. split; [done|]. eauto.
  - intros j pr Hr. apply (Hb j pr); eauto.
Qed.

(** C26. The scheduler starves processes of the same priority: as long as process [i] does nothing
    but give up the CPU, it is chosen in every round over every RUNNABLE process of the same
    priority behind it in the table, however many rounds pass. *)
Theorem scheduler_starves n i p threads c k :
  length (procs k) = 64%nat -> held c = [] -> cpu_proc c = None ->
  procs k !! i = Some p -> p_state p = RUNNABLE ->
  (forall j q, procs k !! j = Some q -> p_state q = RUNNABLE -> p_priority q <= p_priority p /\
    ((j < i)%nat -> p_priority q < p_priority p)) ->
  (forall c k, threads i c k = (release (LProc i) ;; spin n) c k) ->
  exists o, scheduler_rounds n threads c k = Done (replicate n (Some i)) c (k <| uart := o |>).
Proof.
  intros Hl Hh Hc Hp Hs Hmax. revert threads k Hl Hp Hmax.
  induction n as [|n IH]; intros threads k Hl Hp Hmax Ht.
  { exists (uart k). by destruct k. }
  assert (Hb : best k 64 (Some i)).
  { exists (p_priority p). split; [apply lookup_lt_Some in Hp; lia|]. split; [by exists p|].
    intros j pr _ (q & Hq & Hqs & <-). by apply Hmax. }
  destruct (round_spin i p n threads c k Hl Hh Hc Hp Hs Hb Ht) as (rest & E & Hrest).
  cbn [scheduler_rounds replicate]. erewrite bind_done by exact E. cbv beta iota.
  destruct (IH (fun j => if decide (j = i) then rest else threads j) (k <| uart ::= vip_log p |>)) as (o & E'); [done|done|done| |].
  { intros c' k'. by rewrite decide_True. }
  erewrite bind_done by exact E'. exists o. done.
Qed.

(** C27. [sleep] and [wakeup] lose no wakeup: [sleep(ch, lk)] by a process that holds only [lk]
    gives up the CPU with [lk] released, asleep on [ch], holding its own lock, so that a
    [wakeup(ch)] that runs after [lk] was released and that lock was let go by the scheduler
    makes it RUNNABLE; it returns with [lk] held again and its channel cleared. *)
Theorem sleep_then_wakeup i ch lk c k p c2 :
  cpu_proc c = Some i -> procs k !! i = Some p -> length (procs k) = 64%nat -> held c = [lk] -> lk <> LProc i ->
  procs_unlocked c2 -> cpu_proc c2 <> Some i ->
  exists c1 k1 resume k2, sleep ch lk c k = Switch c1 k1 resume /\ held c1 = [LProc i] /\
    procs k1 !! i = Some (p <| p_chan := ch |> <| p_state := SLEEPING |>) /\
    (forall j, j <> i -> procs k1 !! j = procs k !! j) /\
    wakeup ch c2 k1 = Done tt c2 k2 /\ procs k2 !! i = Some (p <| p_chan := ch |> <| p_state := RUNNABLE |>) /\
    forall c3 k3, cpu_proc c3 = Some i -> held c3 = [LProc i] ->
      resume c3 k3 = Done tt (c3 <| held := [lk] |>) (k3 <| procs ::= alter (fun p => p <| p_chan := CNull |>) i |>).
Proof.
  intros Hi Hp Hl Hh Hne Hu Hn. destruct (sleep_switches i ch lk c k p Hi Hp Hh Hne) as (resume & E & Hr).
  do 4 eexists. split; [exact E|]. split; [done|]. split; [by apply asleep_lookup|].
  split; [intros j Hj; unfold asleep; kred; by apply list_lookup_alter_ne|].
  split; [apply wakeup_ok; [done|unfold asleep; kred; by rewrite length_alter]|].
  split; [|done]. kred. rewrite list_lookup_imap, (asleep_lookup _ _ _ _ Hp). cbn. unfold woken.
  rewrite !bool_decide_true; done.
Qed.

(** [wakeup(ch)] makes RUNNABLE exactly the processes asleep on [ch], except the caller, and
    changes nothing else. *)
Theorem wakeup_exactly ch c k :
  procs_unlocked c -> length (procs k) = 64%nat ->
  exists k', wakeup ch c k = Done tt c k' /\ k' = k <| procs := procs k' |> /\ length (procs k') = 64%nat /\
    forall j p, procs k !! j = Some p ->
      procs k' !! j = Some (if bool_decide (cpu_proc c <> Some j /\ p_state p = SLEEPING /\ p_chan p = ch)
                            then p <| p_state := RUNNABLE |> else p).
Proof.
  intros Hu Hl. eexists. split; [by apply wakeup_ok|]. split; [kdone|]. split; [kred; by rewrite length_imap|].
  intros j p Hp. kred. rewrite list_lookup_imap, Hp. cbn. unfold woken. f_equal.
  repeat case_bool_decide; try done; tauto.
Qed.

(** C28. Sleeping while a second spinlock is held is caught: the kernel stops in
    [panic("sched locks")]. *)
Theorem sleep_with_two_locks_panics i ch lk lk' c k p :
  cpu_proc c = Some i -> procs k !! i = Some p -> held c = [lk; lk'] -> lk <> LProc i -> lk' <> LProc i -> lk <> lk' ->
  exists c' k', sleep ch lk c k = Panicked "sched locks" c' k'.
Proof. intros. by eapply sleep_second_lock. Qed.

(** ** Witnesses *)

(** Processes 2 and 5 are runnable with priority 10, process 3 with priority 1; process 7 sleeps
    on the ticks. *)
Definition sched_kernel : kernel :=
  kernel_0 <| procs ::= fun ps =>
    <[2%nat := proc_0 <| p_state := RUNNABLE |> <| p_priority := 10 |> <| p_pid := 4 |>]> (
    <[3%nat := proc_0 <| p_state := RUNNABLE |> <| p_priority := 1 |>]> (
    <[5%nat := proc_0 <| p_state := RUNNABLE |> <| p_priority := 10 |>]> (
    <[7%nat := proc_0 <| p_state := SLEEPING |> <| p_chan := CTicks |>]> ps))) |>.

Lemma scheduler_selects_highest_witness :
  scheduler_select cpu_0 sched_kernel = Done (Some 2%nat) (cpu_0 <| held := [LProc 2] |>) sched_kernel.
Proof.
  destruct (scheduler_selects_highest cpu_0 sched_kernel) as (h & E & _); [done|intros j; apply not_elem_of_nil|].
  rewrite E. vm_compute in E. injection E as <-. done.
Defined.

Lemma scheduler_starves_witness :
  exists o, scheduler_rounds 3 (fun i => release (LProc i) ;; spin 3) cpu_0 sched_kernel =
    Done [Some 2; Some 2; Some 2]%nat cpu_0 (sched_kernel <| uart := o |>).
Proof.
  eapply (scheduler_starves 3 2); [done|done|done|reflexivity|done| |done].
  assert (Hall : Forall (fun jq : nat * proc => p_state (snd jq) = RUNNABLE ->
    p_priority (snd jq) <= 10 /\ ((fst jq < 2)%nat -> p_priority (snd jq) < 10)) (imap pair (procs sched_kernel))).
  { apply (bool_decide_unpack _). vm_compute. exact I. }
  rewrite Forall_forall in Hall. intros j q Hq. apply (Hall (j, q)).
  apply list_elem_of_lookup. exists j. by rewrite list_lookup_imap, Hq.
Defined.

Definition sleep_cpu : cpu := mkcpu (Some 2%nat) [LTicks] csrs_0.

Lemma sleep_then_wakeup_witness :
  exists c1 k1 resume k2, sleep CTicks LTicks sleep_cpu sched_kernel = Switch c1 k1 resume /\
    wakeup CTicks cpu_0 k1 = Done tt cpu_0 k2 /\ p_state <$> procs k2 !! 2%nat = Some RUNNABLE.
Proof.
  edestruct (fun p => sleep_then_wakeup 2 CTicks LTicks sleep_cpu sched_kernel p cpu_0) as (c1 & k1 & r & k2 & E & _ & _ & _ & Ew & Ep & _);
    [done|reflexivity|done|done|done|intros j; apply not_elem_of_nil|done|].
  exists c1, k1, r, k2. split; [exact E|]. split; [exact Ew|]. by rewrite Ep.
Defined.

Lemma wakeup_exactly_witness :
  exists k', wakeup CTicks cpu_0 sched_kernel = Done tt cpu_0 k' /\ p_state <$> procs k' !! 7%nat = Some RUNNABLE.
Proof.
  destruct (wakeup_exactly CTicks cpu_0 sched_kernel) as (k' & E & _ & _ & H); [intros j; apply not_elem_of_nil|done|].
  exists k'. split; [done|]. by rewrite (H 7%nat _ eq_refl).
Defined.

Lemma sleep_with_two_locks_panics_witness :
  exists c' k', sleep CTicks LTicks (mkcpu (Some 2%nat) [LTicks; LCons] csrs_0) sched_kernel = Panicked "sched locks" c' k'.
Proof. by eapply (sleep_with_two_locks_panics 2). Defined.
