(* ===== verification/UserProc.v ===== *)
(** * A process and its memory, as code that copies to and from it sees them

    [uproc] collects what the calls of [copyin] and [copyout] by pipes, the
    console and files need; single bytes are read and written. *)

From S2P Require Import Prelude Riscv CString Kernel Printf Kalloc Vm Frame UserMem Sched.
From stdpp Require Import base numbers strings gmap list.
From Stdlib Require Import ZArith Lia.

#[local] Open Scope Z_scope.
#[local] Open Scope kernel_scope.

Lemma nthd_cons (b : Z) l j : 0 < j -> nthd 0 (b :: l) j = nthd 0 l (j - 1).
Proof.
  intros Hj. unfold nthd. destruct (Z.ltb_spec j 0), (Z.ltb_spec (j - 1) 0); try lia.
  by replace (Z.to_nat j) with (S (Z.to_nat (j - 1))) by lia.
Qed.

Section UserProc.
Context {LK : Linker} {LKO : LinkerOk}.
Context (a : alloc_spec) (t : ptree) (f : Z -> Z) (sz : Z) (i : nat).

(** Process [i], not killed, has the memory that [t] and [f] describe. *)
Record uproc (k : kernel) : Prop := {
  up_vm : vm_ok a t k;
  up_pt : pt_is k t f;
  up_um : um_ok a t f sz;
  up_sz : sz <= MAXVA;
  up_proc : exists q, procs k !! i = Some q /\ p_pagetable q = pt_root t /\ p_killed q = 0;
  up_len : length (procs k) = 64%nat
}.

(** The [n] bytes at [va] can be read, or written, by the process. *)
Definition ureads (va : Z) (n : nat) : Prop :=
  0 <= va /\ va + Z.of_nat n <= sz /\ forall v, va <= v < va + Z.of_nat n -> user_ok f v = true.
Definition uwrites (va : Z) (n : nat) : Prop :=
  ureads va n /\ forall v, va <= v < va + Z.of_nat n -> flag (f v) PTE_W = true.

Lemma ureads_cons va n : ureads va (S n) -> user_ok f va = true /\ ureads (va + 1) n.
Proof. intros (?&?&Hr). split; [apply Hr; lia|]. repeat split; [lia..|]. intros v Hv. apply Hr. lia. Qed.

Lemma uproc_frame k k' :
  uproc k -> mem k' = mem k -> freelist k' = freelist k -> free_pages_count k' = free_pages_count k -> ref_counts k' = ref_counts k ->
  procs k' = procs k -> uproc k'.
Proof.
  intros [Hv Hp ? ? ? ?] Em Ef Ec Er Epr. split; rewrite ?Epr; try done; [|intros va; unfold pt_is in Hp; rewrite Em; apply Hp].
  destruct Hv as [Hr ? ? ?]. split; rewrite ?Em; try done. destruct Hr as [? ? ? Hrf ? ?]. split; rewrite ?Em, ?Ef, ?Ec; try done.
  intros p. unfold refc. rewrite Er. apply Hrf.
Qed.

Lemma uproc_pipes k pp : uproc k -> uproc (k <| pipes := pp |>).
Proof. intros H. by apply (uproc_frame k). Qed.

Lemma killed_done q c k : LProc i ∉ held c -> procs k !! i = Some q -> killed i c k = Done (p_killed q) c k.
Proof.
  intros Hl Hq. unfold killed. erewrite bind_done by (by apply acquire_ok). erewrite bind_done by (by apply getproc_done).
  by erewrite bind_done by (by apply release_ok).
Qed.

Lemma read_byte k va c : uproc k -> ureads va 1 -> copyin (pt_root t) va 1 c k = Done (0, [ubyte (mem k) f va]) c k.
Proof.
  intros [[? ? ?] ? Hu ? _ _] (?&?&Hr). rewrite (copyin_ok c t k f); [|done|done|lia..|].
  - do 2 f_equal. unfold ubytes. change (Z.to_nat 1) with 1%nat. cbn [seq fmap list_fmap]. do 2 f_equal. lia.
  - intros v Hv. assert (HU : user_ok f v = true) by (apply Hr; lia). split; [done|]. unfold user_ok in HU. apply andb_prop in HU as [HV _].
    destruct (page_ok_range _ (um_page _ _ _ _ Hu v ltac:(lia) HV)). lia.
Qed.

Lemma uproc_wakeup ch k : uproc k -> uproc (k <| procs ::= imap (woken ch (Some i)) |>).
Proof.
  intros [Hv ? ? ? (q&Hq&?&?) ?]. split; try done.
  - destruct Hv as [Hr ? ? ?]. split; try done. destruct Hr. by split.
  - exists q. split; [|done]. kred. rewrite list_lookup_imap, Hq. cbn. unfold woken. by rewrite bool_decide_false by tauto.
  - kred. by rewrite length_imap.
Qed.

(** Byte [v] of user memory after the bytes [bs] were copied to [va]. *)
Definition copied_byte (bs : list Z) (va : Z) (k : kernel) (v : Z) : Z :=
  if decide (va <= v < va + Z.of_nat (length bs)) then u8 (nthd 0 bs (v - va)) else ubyte (mem k) f v.

Lemma write_byte k va b c : uproc k -> uwrites va 1 ->
  exists k', copyout (pt_root t) va [b] 1 c k = Done 0 c k' /\ uproc k' /\ vmrest k' = vmrest k /\
    forall v, 0 <= v < sz -> flag (f v) PTE_V = true -> ubyte (mem k') f v = copied_byte [b] va k v.
Proof.
  intros [Hv Hf Hu Hs Hq Hn] [(?&?&Hr) Hw].
  destruct (copyout_ok c a t k f sz va [b] 1) as (k' & E & Hv' & Hf' & K & Hb); try done; try lia.
  - intros v Hvr. split; [apply Hr|apply Hw]; lia.
  - exists k'. split; [done|]. pose proof (kp_kernel _ _ _ _ _ K) as Hk. split; [|split; [by rewrite Hk; destruct k, k'|done]].
    split; try done; by rewrite Hk.
Qed.


Lemma copied_byte_nil va k v : copied_byte [] va k v = ubyte (mem k) f v.
Proof. unfold copied_byte. cbn [length]. case_decide; [lia|done]. Qed.

Lemma copied_byte_cons b bs va k k1 v :
  ubyte (mem k1) f v = copied_byte [b] va k v -> copied_byte bs (va + 1) k1 v = copied_byte (b :: bs) va k v.
Proof.
  intros E. unfold copied_byte at 1. rewrite E. unfold copied_byte. cbn [length]. repeat case_decide; try lia; try done.
  - f_equal. rewrite (nthd_cons _ _ (v - va)) by lia. f_equal. lia.
  - f_equal. by replace (v - va) with 0 by lia.
Qed.

(** All the bytes copied, read back. *)
Lemma copied_bytes bs va k k' :
  uwrites va (length bs) -> Forall (fun b => 0 <= b < 2 ^ 8) bs ->
  (forall v, 0 <= v < sz -> flag (f v) PTE_V = true -> ubyte (mem k') f v = copied_byte bs va k v) ->
  ubytes (mem k') f va (length bs) = bs.
Proof.
  intros [(?&?&Hu) _] Hall Hb. apply list_eq. intros x. unfold ubytes. rewrite list_lookup_fmap.
  destruct (decide (x < length bs)%nat) as [Hx|Hx].
  - destruct (lookup_lt_is_Some_2 _ _ Hx) as [b Eb]. rewrite lookup_seq_lt by done. rewrite Eb. cbn [fmap option_fmap option_map Nat.add]. f_equal.
    assert (HU : user_ok f (va + Z.of_nat x) = true) by (apply Hu; lia). unfold user_ok in HU. apply andb_prop in HU as [HV _].
    rewrite Hb by (done || lia). unfold copied_byte. rewrite decide_True by lia.
    unfold nthd. destruct (Z.ltb_spec (va + Z.of_nat x - va) 0); [lia|]. replace (Z.to_nat (va + Z.of_nat x - va)) with x by lia.
    rewrite Eb. apply u8_small. by apply (Forall_lookup_1 _ _ _ _ Hall Eb).
  - rewrite lookup_seq_ge by lia. symmetry. apply lookup_ge_None_2. lia.
Qed.

End UserProc.
