(* ===== verification/Spinlock.v ===== *)
(** * Spin locks: [spinlock.c]

    The code of [acquire], [release], [push_off] and [pop_off], run by several
    harts whose instructions interleave.  The other files use the locks through
    [Kernel.acquire] and [Kernel.release], which only look at the locks the
    running CPU holds; the theorems here show that this is what the code
    implements. *)

From S2P Require Import Prelude Riscv CString Kernel.
From stdpp Require Import base numbers strings gmap functions list.
From Stdlib Require Import ZArith Lia.

#[local] Open Scope Z_scope.

(** ** Locks and harts *)

(** [struct spinlock]; the hart number stands for [cpu]. *)
Record spinlock := mkspin { locked : bool; lk_cpu : option nat }.

(** Where a hart is inside [acquire] or [release]. *)
Inductive pc :=
  | Idle                        (** not in lock code *)
  | AcqCheck (l : lockid)       (** after [push_off] *)
  | AcqSpin (l : lockid)        (** in the [while] loop *)
  | AcqGot (l : lockid)         (** out of the loop *)
  | RelChecked (l : lockid)     (** after [if(!holding(lk))] *)
  | RelCleared (l : lockid)     (** after [lk->cpu = 0] *)
  | RelUnlocked (l : lockid)    (** after [__sync_lock_release] *)
  | Panic (msg : string).

(** [struct cpu]'s [noff] and [intena], the interrupt-enable bit of [sstatus],
    the program counter, the locks acquired and not yet released, most recent
    first, and the [push_off]s called outside lock code. *)
Record hart := mkhart {
  noff : Z;
  intena : bool;
  intr : bool;
  hpc : pc;
  hheld : list lockid;
  hpush : nat
}.

#[export] Instance hart_expand : Expand hart := fun r =>
  mkhart (noff r) (intena r) (intr r) (hpc r) (hheld r) (hpush r).

Definition push_off (h : hart) : hart :=
  let old := intr h in
  let h := h <| intr := false |> in
  let h := if noff h =? 0 then h <| intena := old |> else h in
  h <| noff ::= fun n => i32 (n + 1) |>.

Definition pop_off (h : hart) : hart :=
  if intr h then h <| hpc := Panic "pop_off - interruptible" |> else
  if noff h <? 1 then h <| hpc := Panic "pop_off" |> else
  let h := h <| noff ::= fun n => i32 (n - 1) |> in
  if (noff h =? 0) && intena h then h <| intr := true |> else h.

(** [holding(lk)] on hart [me]. *)
Definition holding (lk : spinlock) (me : nat) : bool := locked lk && bool_decide (lk_cpu lk = Some me).

(** ** The machine *)

Record machine := mkmachine { lks : lockid -> spinlock; harts : nat -> hart }.

(** [initlock] of every lock; each hart idle. *)
Definition init_machine (m : machine) : Prop :=
  (forall l, lks m l = mkspin false None) /\
  (forall i, noff (harts m i) = 0 /\ hpc (harts m i) = Idle /\ hheld (harts m i) = [] /\ hpush (harts m i) = 0%nat).

Definition set_hart (m : machine) (i : nat) (h : hart) : machine := mkmachine (lks m) (<[i := h]> (harts m)).
Definition set_lock (m : machine) (l : lockid) (lk : spinlock) : machine := mkmachine (<[l := lk]> (lks m)) (harts m).

(** The depth of nesting a hart reaches is far below the width of [noff]. *)
Definition shallow (h : hart) : Prop := noff h < 2 ^ 31 - 1.

(** One instruction of hart [i]. *)
Inductive step (i : nat) : machine -> machine -> Prop :=
  (** [acquire(lk)]: [push_off();] *)
  | step_acquire m l : hpc (harts m i) = Idle -> shallow (harts m i) ->
      step i m (set_hart m i ((push_off (harts m i)) <| hpc := AcqCheck l |>))
  (** [if(holding(lk)) panic("acquire");] *)
  | step_check m l : hpc (harts m i) = AcqCheck l ->
      step i m (set_hart m i ((harts m i) <| hpc := if holding (lks m l) i then Panic "acquire" else AcqSpin l |>))
  (** [while(__sync_lock_test_and_set(&lk->locked, 1) != 0);] *)
  | step_spin m l : hpc (harts m i) = AcqSpin l -> locked (lks m l) = true ->
      step i m (set_lock m l (mkspin true (lk_cpu (lks m l))))
  | step_swap m l : hpc (harts m i) = AcqSpin l -> locked (lks m l) = false ->
      step i m (set_hart (set_lock m l (mkspin true (lk_cpu (lks m l)))) i ((harts m i) <| hpc := AcqGot l |>))
  (** [lk->cpu = mycpu();] *)
  | step_got m l : hpc (harts m i) = AcqGot l ->
      step i m (set_hart (set_lock m l (mkspin (locked (lks m l)) (Some i))) i
        ((harts m i) <| hpc := Idle |> <| hheld ::= cons l |>))
  (** [release(lk)]: [if(!holding(lk)) panic("release");] *)
  | step_release m l : hpc (harts m i) = Idle ->
      step i m (set_hart m i ((harts m i) <| hpc := if holding (lks m l) i then RelChecked l else Panic "release" |>))
  (** [lk->cpu = 0;] *)
  | step_clear m l : hpc (harts m i) = RelChecked l ->
      step i m (set_hart (set_lock m l (mkspin (locked (lks m l)) None)) i
        ((harts m i) <| hpc := RelCleared l |> <| hheld ::= filter (fun x => x <> l) |>))
  (** [__sync_lock_release(&lk->locked);] *)
  | step_unlock m l : hpc (harts m i) = RelCleared l ->
      step i m (set_hart (set_lock m l (mkspin false (lk_cpu (lks m l)))) i ((harts m i) <| hpc := RelUnlocked l |>))
  (** [pop_off();] *)
  | step_pop m l : hpc (harts m i) = RelUnlocked l ->
      step i m (set_hart m i (pop_off ((harts m i) <| hpc := Idle |>)))
  (** [push_off] and [pop_off] outside lock code, as in [myproc] *)
  | step_push_off m : hpc (harts m i) = Idle -> shallow (harts m i) ->
      step i m (set_hart m i ((push_off (harts m i)) <| hpush ::= S |>))
  | step_pop_off m n : hpc (harts m i) = Idle -> hpush (harts m i) = S n ->
      step i m (set_hart m i ((pop_off (harts m i)) <| hpush := n |>))
  (** [intr_on] and [intr_off] where nothing is nested *)
  | step_intr m b : hpc (harts m i) = Idle -> noff (harts m i) = 0 ->
      step i m (set_hart m i ((harts m i) <| intr := b |>)).

(** Any interleaving of the harts' instructions. *)
Inductive reachable : machine -> Prop :=
  | reach_init m : init_machine m -> reachable m
  | reach_step m m' i : reachable m -> step i m m' -> reachable m'.

(** ** The invariant *)

(** Hart [i] has the lock: from the successful swap to the release store. *)
Definition has (h : hart) (l : lockid) : Prop := l ∈ hheld h \/ hpc h = AcqGot l \/ hpc h = RelCleared l.

(** The [push_off]s of the lock operation under way. *)
Definition pending (p : pc) : Z :=
  match p with
  | AcqCheck _ | AcqSpin _ | AcqGot _ | RelCleared _ | RelUnlocked _ => 1
  | _ => 0
  end.

Definition panicked (p : pc) : bool := match p with Panic _ => true | _ => false end.

Record inv (m : machine) : Prop := {
  inv_locked : forall i l, has (harts m i) l -> locked (lks m l) = true;
  inv_excl : forall i j l, has (harts m i) l -> has (harts m j) l -> i = j;
  inv_cpu : forall i l, lk_cpu (lks m l) = Some i <-> l ∈ hheld (harts m i);
  inv_nodup : forall i, NoDup (hheld (harts m i));
  inv_apart : forall i l, hpc (harts m i) = AcqGot l \/ hpc (harts m i) = RelCleared l -> l ∉ hheld (harts m i);
  inv_rel : forall i l, hpc (harts m i) = RelChecked l -> l ∈ hheld (harts m i);
  inv_noff : forall i, panicked (hpc (harts m i)) = false ->
    noff (harts m i) = Z.of_nat (length (hheld (harts m i)) + hpush (harts m i)) + pending (hpc (harts m i)) /\ noff (harts m i) < 2 ^ 31;
  inv_intr : forall i, panicked (hpc (harts m i)) = false -> 0 < noff (harts m i) -> intr (harts m i) = false
}.

(** ** Lemmas *)

Lemma harts_set m i h j : harts (set_hart m i h) j = if decide (i = j) then h else harts m j.
Proof. unfold set_hart. cbn. destruct (decide _) as [->|]; [apply fn_lookup_insert|by apply fn_lookup_insert_ne]. Qed.
Lemma lks_set m l lk l' : lks (set_lock m l lk) l' = if decide (l = l') then lk else lks m l'.
Proof. unfold set_lock. cbn. destruct (decide _) as [->|]; [apply fn_lookup_insert|by apply fn_lookup_insert_ne]. Qed.

(** The fields of a hart that satisfy the per-hart part of the invariant. *)
Record hart_ok (h : hart) : Prop := {
  ho_nodup : NoDup (hheld h);
  ho_apart : forall l, hpc h = AcqGot l \/ hpc h = RelCleared l -> l ∉ hheld h;
  ho_rel : forall l, hpc h = RelChecked l -> l ∈ hheld h;
  ho_noff : panicked (hpc h) = false ->
    noff h = Z.of_nat (length (hheld h) + hpush h) + pending (hpc h) /\ noff h < 2 ^ 31;
  ho_intr : panicked (hpc h) = false -> 0 < noff h -> intr h = false
}.

Lemma inv_hart_ok m i : inv m -> hart_ok (harts m i).
Proof. intros []. split; auto. Qed.

(** A step of hart [i] that touches no lock and neither gains nor loses one. *)
Lemma inv_set_hart m i h :
  inv m -> hheld h = hheld (harts m i) -> (forall l, has h l <-> has (harts m i) l) -> hart_ok h -> inv (set_hart m i h).
Proof.
  intros Hi Eh Hh [].
  assert (E : forall j l, has (harts (set_hart m i h) j) l <-> has (harts m j) l).
  { intros j l. rewrite harts_set. destruct (decide _) as [<-|]; [apply Hh|done]. }
  split.
  - intros j l Hj. apply E in Hj. by apply (inv_locked _ Hi j).
  - intros j j' l Hj Hj'. apply E in Hj, Hj'. by eapply inv_excl.
  - intros j l. rewrite harts_set. destruct (decide _) as [<-|]; [rewrite Eh|]; apply (inv_cpu _ Hi).
  - intros j. rewrite harts_set. destruct (decide _); [done|by apply (inv_nodup _ Hi)].
  - intros j l. rewrite harts_set. destruct (decide _); [by auto|by apply (inv_apart _ Hi)].
  - intros j l. rewrite harts_set. destruct (decide _); [by auto|by apply (inv_rel _ Hi)].
  - intros j. rewrite harts_set. destruct (decide _); [by auto|by apply (inv_noff _ Hi)].
  - intros j. rewrite harts_set. destruct (decide _); [by auto|by apply (inv_intr _ Hi)].
Qed.

Lemma push_off_fields h :
  shallow h -> 0 <= noff h -> noff (push_off h) = noff h + 1 /\ intr (push_off h) = false /\ hpc (push_off h) = hpc h /\
  hheld (push_off h) = hheld h /\ hpush (push_off h) = hpush h.
Proof.
  intros Hs H0. unfold shallow, push_off in *. cbn [update noff intena intr hpc hheld hpush].
  destruct (Z.eqb_spec (noff h) 0); cbn [update noff intena intr hpc hheld hpush]; rewrite i32_small by lia; done.
Qed.

Lemma pop_off_fields h :
  intr h = false -> 1 <= noff h < 2 ^ 31 -> noff (pop_off h) = noff h - 1 /\ hpc (pop_off h) = hpc h /\
  hheld (pop_off h) = hheld h /\ hpush (pop_off h) = hpush h /\ (1 < noff h -> intr (pop_off h) = false) /\
  (noff h = 1 -> intr (pop_off h) = intena h).
Proof.
  intros Hi Hn. unfold pop_off. rewrite Hi. destruct (Z.ltb_spec (noff h) 1); [lia|].
  cbn [update noff intena intr hpc hheld hpush]. rewrite i32_small by lia.
  destruct (Z.eqb_spec (noff h - 1) 0), (intena h) eqn:Ei; cbn [andb update noff intena intr hpc hheld hpush]; rewrite ?Hi, ?Ei;
    repeat split; try done; lia.
Qed.

Lemma has_pc h p l :
  has (h <| hpc := p |>) l <-> l ∈ hheld h \/ p = AcqGot l \/ p = RelCleared l.
Proof. done. Qed.

Lemma length_filter_ne (l : lockid) (ls : list lockid) :
  NoDup ls -> l ∈ ls -> length ls = S (length (filter (fun x => x <> l) ls)).
Proof.
  induction ls as [|x ls IH]; intros Hn Hin; [by apply not_elem_of_nil in Hin|].
  apply NoDup_cons in Hn as [Hx Hn]. destruct (decide (x = l)) as [->|Hne].
  - rewrite filter_cons_False by tauto. by rewrite filter_ne_notin.
  - rewrite filter_cons_True by done. simpl. rewrite <- IH; [done|done|]. by apply elem_of_cons in Hin as [->|].
Qed.

(** A lock whose state is free of owners. *)
Lemma unlocked_no_owner m l : inv m -> locked (lks m l) = false -> forall i, ~ has (harts m i) l.
Proof. intros Hi Hl i Hh. apply (inv_locked _ Hi) in Hh. congruence. Qed.

Lemma hart_noff m i : inv m -> panicked (hpc (harts m i)) = false ->
  0 <= noff (harts m i) /\ noff (harts m i) = Z.of_nat (length (hheld (harts m i)) + hpush (harts m i)) + pending (hpc (harts m i)).
Proof. intros Hi Hp. destruct (inv_noff _ Hi i Hp) as [-> _]. split; [|done]. destruct (hpc (harts m i)); simpl; lia. Qed.

(** A step of hart [i] that writes lock [l]. *)
Lemma inv_set_both m i l lk h :
  inv m -> hart_ok h ->
  (forall l', l' <> l -> (has h l' -> has (harts m i) l') /\ (l' ∈ hheld h <-> l' ∈ hheld (harts m i))) ->
  (has h l -> locked lk = true /\ forall j, j <> i -> ~ has (harts m j) l) ->
  (forall j, j <> i -> has (harts m j) l -> locked lk = true) ->
  (lk_cpu lk = Some i <-> l ∈ hheld h) ->
  (forall j, j <> i -> lk_cpu lk = Some j <-> l ∈ hheld (harts m j)) ->
  inv (set_hart (set_lock m l lk) i h).
Proof.
  intros Hi [] Hother Hhas Hlocked Hcpu Hcpu'. set (m' := set_hart _ _ _).
  assert (Eh : forall j, harts m' j = if decide (i = j) then h else harts m j) by (intros; apply (harts_set (set_lock m l lk))).
  assert (El : forall l', lks m' l' = if decide (l = l') then lk else lks m l') by (intros; apply (lks_set m l lk)).
  split.
  - intros j l'. rewrite Eh, El. destruct (decide (l = l')) as [<-|Hl], (decide (i = j)) as [<-|Hj]; intros Hh.
    + by apply Hhas.
    + by apply (Hlocked j).
    + apply (inv_locked _ Hi i), Hother; done.
    + by apply (inv_locked _ Hi j).
  - intros j j' l'. rewrite !Eh. destruct (decide (i = j)) as [<-|Hj], (decide (i = j')) as [<-|Hj']; intros Hh Hh'; try done.
    + destruct (decide (l' = l)) as [->|Hl]; [|apply (inv_excl _ Hi i j' l'); [by apply Hother|done]].
      destruct (Hhas Hh) as [_ Hn]. by destruct (Hn j').
    + destruct (decide (l' = l)) as [->|Hl]; [|apply (inv_excl _ Hi j i l'); [done|by apply Hother]].
      destruct (Hhas Hh') as [_ Hn]. by destruct (Hn j).
    + by apply (inv_excl _ Hi j j' l').
  - intros j l'. rewrite Eh, El. destruct (decide (l = l')) as [<-|Hl], (decide (i = j)) as [<-|Hj]; auto; [|apply (inv_cpu _ Hi)].
    rewrite (inv_cpu _ Hi). symmetry. by apply Hother.
  - intros j. rewrite Eh. destruct (decide _); [done|apply (inv_nodup _ Hi)].
  - intros j l'. rewrite Eh. destruct (decide _) as [<-|]; [auto|apply (inv_apart _ Hi)].
  - intros j l'. rewrite Eh. destruct (decide _) as [<-|]; [auto|apply (inv_rel _ Hi)].
  - intros j. rewrite Eh. destruct (decide _) as [<-|]; [auto|apply (inv_noff _ Hi)].
  - intros j. rewrite Eh. destruct (decide _) as [<-|]; [auto|apply (inv_intr _ Hi)].
Qed.

Lemma inv_swap m i l :
  inv m -> hpc (harts m i) = AcqSpin l -> locked (lks m l) = false ->
  inv (set_hart (set_lock m l (mkspin true (lk_cpu (lks m l)))) i ((harts m i) <| hpc := AcqGot l |>)).
Proof.
  intros Hi Hp Hl. pose proof (inv_hart_ok m i Hi) as []. rewrite Hp in *.
  assert (Hno : forall j, ~ has (harts m j) l) by (by apply unlocked_no_owner).
  apply inv_set_both; try done.
  - split; try done; cbn [update hpc hheld noff hpush intr]; auto. intros l' [[= <-]|[=]] Hin. apply (Hno i). by left.
  - intros l' Hne. split; [|done]. intros [Hin|[[= ->]|[=]]]; [by left|done].
  - apply (inv_cpu _ Hi).
  - intros j _. apply (inv_cpu _ Hi).
Qed.

Lemma inv_got m i l :
  inv m -> hpc (harts m i) = AcqGot l ->
  inv (set_hart (set_lock m l (mkspin (locked (lks m l)) (Some i))) i ((harts m i) <| hpc := Idle |> <| hheld ::= cons l |>)).
Proof.
  intros Hi Hp. pose proof (inv_hart_ok m i Hi) as []. rewrite Hp in *.
  assert (Hhas : has (harts m i) l) by (right; by left).
  apply inv_set_both; try done.
  - split; cbn [update hpc hheld noff hpush intr].
    + apply NoDup_cons. split; [apply ho_apart0; by left|done].
    + intros l' [Hf|Hf]; discriminate Hf.
    + discriminate.
    + intros _. destruct ho_noff0 as [-> ?]; [done|]. simpl. split; [lia|done].
    + auto.
  - intros l' Hne. cbn [update hheld]. split.
    + intros [Hin|[[=]|[=]]]. left. cbn [update hheld] in Hin. by apply elem_of_cons in Hin as [->|].
    + rewrite elem_of_cons. naive_solver.
  - intros _. split; [by apply (inv_locked _ Hi i)|]. intros j Hne Hj. by apply Hne, (inv_excl _ Hi j i l).
  - intros j _. apply (inv_locked _ Hi j).
  - cbn [update hheld lk_cpu]. split; [intros _; apply list_elem_of_here|done].
  - intros j Hne. cbn. split; [intros [= ->]; done|]. intros Hin. exfalso. apply Hne, (inv_excl _ Hi j i l); [by left|done].
Qed.

Lemma inv_clear m i l :
  inv m -> hpc (harts m i) = RelChecked l ->
  inv (set_hart (set_lock m l (mkspin (locked (lks m l)) None)) i
    ((harts m i) <| hpc := RelCleared l |> <| hheld ::= filter (fun x => x <> l) |>)).
Proof.
  intros Hi Hp. pose proof (inv_hart_ok m i Hi) as []. rewrite Hp in *.
  assert (Hin : l ∈ hheld (harts m i)) by (by apply ho_rel0).
  assert (Hhas : has (harts m i) l) by (by left).
  apply inv_set_both; try done.
  - split; cbn [update hpc hheld noff hpush intr].
    + by apply NoDup_filter.
    + intros l' [[=]|[= <-]] Hl. apply list_elem_of_filter in Hl as [? _]. done.
    + intros l' [=].
    + intros _. destruct ho_noff0 as [-> ?]; [done|]. split; [|done]. simpl.
      rewrite (length_filter_ne l (hheld (harts m i))) by done. lia.
    + auto.
  - intros l' Hne. cbn [update hheld]. split.
    + intros [Hl|[[=]|[= ->]]]; [|done]. left. cbn [update hheld] in Hl. by apply list_elem_of_filter in Hl as [_ ?].
    + rewrite list_elem_of_filter. naive_solver.
  - intros _. split; [by apply (inv_locked _ Hi i)|]. intros j Hne Hj. by apply Hne, (inv_excl _ Hi j i l).
  - intros j _. apply (inv_locked _ Hi j).
  - cbn [update hheld lk_cpu]. rewrite list_elem_of_filter. naive_solver.
  - intros j Hne. cbn. split; [done|]. intros Hj. exfalso. apply Hne, (inv_excl _ Hi j i l); [by left|done].
Qed.

Lemma inv_unlock m i l :
  inv m -> hpc (harts m i) = RelCleared l ->
  inv (set_hart (set_lock m l (mkspin false (lk_cpu (lks m l)))) i ((harts m i) <| hpc := RelUnlocked l |>)).
Proof.
  intros Hi Hp. pose proof (inv_hart_ok m i Hi) as []. rewrite Hp in *.
  assert (Hhas : has (harts m i) l) by (right; by right).
  assert (Hnl : l ∉ hheld (harts m i)) by (apply ho_apart0; by right).
  apply inv_set_both; try done.
  - split; try done; cbn [update hpc hheld noff hpush intr]; auto. intros l' [[=]|[=]].
  - intros l' Hne. split; [|done]. intros [Hl|[[=]|[=]]]. by left.
  - intros [Hl|[[=]|[=]]]. done.
  - intros j Hne Hj. exfalso. by apply Hne, (inv_excl _ Hi j i l).
  - apply (inv_cpu _ Hi).
  - intros j _. apply (inv_cpu _ Hi).
Qed.

Lemma inv_spin m l : inv m -> locked (lks m l) = true -> inv (set_lock m l (mkspin true (lk_cpu (lks m l)))).
Proof.
  intros Hi Hl.
  assert (E : forall l', lks (set_lock m l (mkspin true (lk_cpu (lks m l)))) l' = lks m l').
  { intros l'. rewrite lks_set. destruct (decide _) as [<-|]; [|done]. destruct (lks m l). simpl in *. by rewrite Hl. }
  destruct Hi. split; try done; intros *; rewrite E; eauto.
Qed.

(** Steps that move hart [i] without touching a lock. *)
Lemma inv_move m i h :
  inv m -> hheld h = hheld (harts m i) -> (forall l, hpc h <> AcqGot l /\ hpc h <> RelCleared l) ->
  (forall l, hpc (harts m i) <> AcqGot l /\ hpc (harts m i) <> RelCleared l) ->
  (forall l, hpc h = RelChecked l -> l ∈ hheld h) ->
  (panicked (hpc h) = false ->
    noff h = Z.of_nat (length (hheld h) + hpush h) + pending (hpc h) /\ noff h < 2 ^ 31 /\ (0 < noff h -> intr h = false)) ->
  inv (set_hart m i h).
Proof.
  intros Hi Eh Hp Hp0 Hr Hn. apply inv_set_hart; try done.
  - intros l. unfold has. rewrite Eh. destruct (Hp l), (Hp0 l). tauto.
  - split; try done; try (by intros Hh; destruct (Hn Hh) as (?&?&?)).
    + rewrite Eh. apply (inv_nodup _ Hi).
    + intros l [E|E]; by destruct (Hp l).
Qed.

Lemma pcs_differ p : (forall l, p <> AcqGot l /\ p <> RelCleared l) <-> match p with AcqGot _ | RelCleared _ => False | _ => True end.
Proof. split; [intros H; destruct p; try done; by destruct (H l) as [? ?]|intros H l; split; intros ->; done]. Qed.

Lemma inv_step m m' i : inv m -> step i m m' -> inv m'.
Proof.
  intros Hi Hs. pose proof (inv_hart_ok m i Hi) as [_ _ Hrel Hnoff Hintr].
  destruct Hs as [m l Hp Hsh|m l Hp|m l Hp Hl|m l Hp Hl|m l Hp|m l Hp|m l Hp|m l Hp|m l Hp|m Hp Hsh|m n Hp Hn|m b Hp H0];
    try (by eauto using inv_spin, inv_swap, inv_got, inv_clear, inv_unlock);
    rewrite Hp in Hrel, Hnoff, Hintr; destruct Hnoff as [En Hlt]; try done; cbn [pending] in En.
  - destruct (push_off_fields (harts m i)) as (E1&E2&E3&E4&E5); [done|lia|]. unfold shallow in Hsh.
    apply inv_move; try done; cbn [update hpc hheld noff hpush intr]; rewrite ?pcs_differ, ?Hp, ?E1, ?E2, ?E4, ?E5; try done.
    cbn [pending]. intros _. split; [lia|]. split; [lia|done].
  - apply inv_move; try done; cbn [update hpc hheld noff hpush intr]; rewrite ?pcs_differ, ?Hp; try destruct (holding (lks m l) i); try done.
    cbn [pending]. intros _. auto.
  - assert (Hh : holding (lks m l) i = true -> l ∈ hheld (harts m i)).
    { unfold holding. intros [_ E%bool_decide_eq_true]%andb_true_iff. by apply (inv_cpu _ Hi). }
    apply inv_move; try done; cbn [update hpc hheld noff hpush intr]; rewrite ?pcs_differ, ?Hp; try destruct (holding (lks m l) i) eqn:Eh; try done.
    + intros l' [= <-]. auto.
    + cbn [pending]. intros _. auto.
  - destruct (pop_off_fields ((harts m i) <| hpc := Idle |>)) as (E1&E2&E3&E4&E5&_); cbn [update hpc hheld noff hpush intr] in *.
    { apply Hintr; [done|lia]. } { lia. }
    apply inv_move; rewrite ?pcs_differ, ?Hp, ?E1, ?E2, ?E3, ?E4; try done. cbn [pending]. intros _.
    split; [lia|]. split; [lia|]. intros. apply E5. lia.
  - destruct (push_off_fields (harts m i)) as (E1&E2&E3&E4&E5); [done|lia|]. unfold shallow in Hsh.
    apply inv_move; cbn [update hpc hheld noff hpush intr]; rewrite ?pcs_differ, ?Hp, ?E1, ?E2, ?E3, ?E4, ?E5, ?Hp; try done.
    cbn [pending]. intros _. split; [lia|]. split; [lia|done].
  - destruct (pop_off_fields (harts m i)) as (E1&E2&E3&E4&E5&_). { apply Hintr; [done|lia]. } { lia. }
    apply inv_move; cbn [update hpc hheld noff hpush intr]; rewrite ?pcs_differ, ?Hp, ?E1, ?E2, ?E3, ?E4, ?Hp; try done.
    cbn [pending]. intros _. split; [lia|]. split; [lia|]. intros. apply E5. lia.
  - apply inv_move; cbn [update hpc hheld noff hpush intr]; rewrite ?pcs_differ, ?Hp; try done. cbn [pending]. intros _. split; [lia|]. split; lia.
Qed.

Lemma inv_init m : init_machine m -> inv m.
Proof.
  intros [Hl Hh].
  assert (Hn : forall i l, ~ has (harts m i) l).
  { intros i l Hin. unfold has in Hin. destruct (Hh i) as (_&E'&E''&_). rewrite E', E'', elem_of_nil in Hin. naive_solver. }
  split; try (by intros i **; exfalso; eapply Hn; eauto).
  - intros i l. rewrite Hl. split; [done|]. intros Hin. destruct (Hn i l). by left.
  - intros i. destruct (Hh i) as (_&_&->&_). apply NoDup_nil_2.
  - intros i l [E|E]; destruct (Hh i) as (_&E'&_); congruence.
  - intros i l E. destruct (Hh i) as (_&E'&_); congruence.
  - intros i _. destruct (Hh i) as (->&->&->&->). done.
  - intros i _ E. destruct (Hh i) as (E'&_). lia.
Qed.

Lemma inv_reachable m : reachable m -> inv m.
Proof. induction 1; eauto using inv_init, inv_step. Qed.

(** [holding] is exact on a hart outside lock code. *)
Lemma holding_exact m i l :
  inv m -> holding (lks m l) i = bool_decide (l ∈ hheld (harts m i)).
Proof.
  intros Hi. unfold holding. rewrite (bool_decide_ext _ _ (inv_cpu _ Hi i l)). destruct (bool_decide_reflect (l ∈ hheld (harts m i))) as [Hin|].
  - rewrite (inv_locked _ Hi i) by (by left). done.
  - apply andb_false_r.
Qed.

(** Steps of one hart. *)
Inductive steps (i : nat) : machine -> machine -> Prop :=
  | steps_refl m : steps i m m
  | steps_step m m' m'' : step i m m' -> steps i m' m'' -> steps i m m''.

Lemma harts_set_same m i h : harts (set_hart m i h) i = h.
Proof. rewrite harts_set. by rewrite decide_True. Qed.

Lemma acquire_free m i l :
  hpc (harts m i) = Idle -> shallow (harts m i) -> holding (lks m l) i = false -> locked (lks m l) = false ->
  exists m', steps i m m' /\ hpc (harts m' i) = Idle /\ hheld (harts m' i) = l :: hheld (harts m i).
Proof.
  intros Hp Hs Hh Hl. eexists. split.
  - eapply steps_step; [by apply (step_acquire i m l)|].
    eapply steps_step; [apply (step_check _ _ l); rewrite harts_set_same; done|]. cbn [set_hart lks]. rewrite Hh.
    eapply steps_step; [apply (step_swap _ _ l); [by rewrite harts_set_same|done]|].
    eapply steps_step; [apply (step_got _ _ l); by rewrite harts_set_same|]. apply steps_refl.
  - rewrite !harts_set_same. cbn [update hpc hheld]. split; [done|]. cbn. unfold push_off. cbn. by destruct (noff (harts m i) =? 0).
Qed.

Lemma acquire_again m i l :
  hpc (harts m i) = Idle -> shallow (harts m i) -> holding (lks m l) i = true ->
  exists m', steps i m m' /\ hpc (harts m' i) = Panic "acquire".
Proof.
  intros Hp Hs Hh. eexists. split.
  - eapply steps_step; [by apply (step_acquire i m l)|].
    eapply steps_step; [apply (step_check _ _ l); rewrite harts_set_same; done|]. apply steps_refl.
  - rewrite !harts_set_same. cbn [update hpc set_hart lks]. by rewrite Hh.
Qed.

Lemma pop_off_held h : hheld (pop_off h) = hheld h.
Proof. unfold pop_off. destruct (intr h); [done|]. destruct (_ <? _); [done|]. by destruct (_ && _). Qed.

Lemma release_held m i l :
  inv m -> hpc (harts m i) = Idle -> l ∈ hheld (harts m i) ->
  exists m', steps i m m' /\ hpc (harts m' i) = Idle /\ hheld (harts m' i) = filter (fun x => x <> l) (hheld (harts m i)) /\
    locked (lks m' l) = false.
Proof.
  intros Hi Hp Hin. assert (Hh : holding (lks m l) i = true) by (rewrite holding_exact by done; by apply bool_decide_eq_true).
  destruct (inv_noff _ Hi i) as [En Hlt]; [by rewrite Hp|]. rewrite Hp in En. cbn [pending] in En.
  assert (Hl0 : (0 < length (hheld (harts m i)))%nat). { destruct (hheld (harts m i)); [by apply not_elem_of_nil in Hin|simpl; lia]. }
  pose proof (inv_intr _ Hi i ltac:(by rewrite Hp) ltac:(lia)) as Hoff.
  eexists. split; [|split; [|split]].
  - eapply steps_step; [by apply (step_release i m l)|]. rewrite Hh.
    eapply steps_step; [apply (step_clear _ _ l); by rewrite harts_set_same|].
    eapply steps_step; [apply (step_unlock _ _ l); by rewrite harts_set_same|].
    eapply steps_step; [apply (step_pop _ _ l); by rewrite harts_set_same|]. apply steps_refl.
  - rewrite !harts_set_same.
    match goal with |- hpc (pop_off ?h) = _ => destruct (pop_off_fields h) as (_&E2&_); [done|cbn [update noff]; lia|] end. by rewrite E2.
  - rewrite !harts_set_same. by rewrite pop_off_held.
  - cbn [set_hart lks]. by rewrite lks_set, decide_True.
Qed.

Lemma release_other m i l :
  inv m -> hpc (harts m i) = Idle -> l ∉ hheld (harts m i) ->
  exists m', steps i m m' /\ hpc (harts m' i) = Panic "release".
Proof.
  intros Hi Hp Hin. assert (Hh : holding (lks m l) i = false) by (rewrite holding_exact by done; by apply bool_decide_eq_false).
  eexists. split.
  - eapply steps_step; [by apply (step_release i m l)|]. apply steps_refl.
  - rewrite !harts_set_same. cbn [update hpc]. by rewrite Hh.
Qed.

(** ** Theorems *)

(** C23. Mutual exclusion: however the instructions of the harts interleave, no
    two harts are between a successful [acquire] and the [release] of the same
    lock, and [lk->cpu] names the holder. *)
Theorem spinlock_mutual_exclusion m i j l :
  reachable m -> l ∈ hheld (harts m i) -> has (harts m j) l -> i = j /\ locked (lks m l) = true /\ lk_cpu (lks m l) = Some i.
Proof.
  intros Hr%inv_reachable Hi Hj. split; [|split].
  - by apply (inv_excl _ Hr i j l); [left|].
  - by apply (inv_locked _ Hr j).
  - by apply (inv_cpu _ Hr).
Qed.

(** Interrupts are off on a hart that holds a lock or is inside lock code,
    [noff] is the number of [push_off]s not yet undone, and undoing the last of
    them gives interrupts back as they were. *)
Theorem interrupts_off_while_held m i :
  reachable m -> panicked (hpc (harts m i)) = false ->
  noff (harts m i) = Z.of_nat (length (hheld (harts m i)) + hpush (harts m i)) + pending (hpc (harts m i)) /\
  (hheld (harts m i) <> [] \/ 0 < pending (hpc (harts m i)) -> intr (harts m i) = false) /\
  (shallow (harts m i) ->
    intr (pop_off (push_off (harts m i))) = intr (harts m i) /\ noff (pop_off (push_off (harts m i))) = noff (harts m i)).
Proof.
  intros Hr%inv_reachable Hp. destruct (inv_noff _ Hr i Hp) as [En Hlt]. pose proof (inv_intr _ Hr i Hp) as Hin.
  destruct (hart_noff m i Hr Hp) as [H0 _]. split; [done|split].
  - intros H. apply Hin. destruct H as [H|H]; [|lia].
    destruct (hheld (harts m i)) eqn:E; [done|]. rewrite En. simpl. destruct (hpc (harts m i)); simpl; lia.
  - intros Hs. destruct (push_off_fields (harts m i)) as (E1&E2&_); [done..|].
    destruct (pop_off_fields (push_off (harts m i))) as (E3&_&_&_&E5&E6); [done|unfold shallow in Hs; lia|].
    split; [|lia]. destruct (decide (noff (harts m i) = 0)) as [Hz|].
    + rewrite E6 by lia. unfold push_off. cbn [update noff]. rewrite Hz. done.
    + rewrite E5 by lia. symmetry. apply Hin. lia.
Qed.

(** C24. [Kernel.acquire] and [Kernel.release], which only look at the locks the
    CPU holds, are what the instructions of [spinlock.c] do: on a hart outside
    lock code they panic when and as the code does, and otherwise the code (for
    [acquire], once the lock is free) returns with the same locks held. *)
Theorem lock_calls_refine m i l c k :
  reachable m -> hpc (harts m i) = Idle -> shallow (harts m i) -> held c = hheld (harts m i) ->
  match Kernel.acquire l c k with
  | Done _ c' k' => k' = k /\ (locked (lks m l) = false ->
      exists m', steps i m m' /\ hpc (harts m' i) = Idle /\ hheld (harts m' i) = held c')
  | Panicked msg _ _ => exists m', steps i m m' /\ hpc (harts m' i) = Panic msg
  | _ => False
  end /\
  match Kernel.release l c k with
  | Done _ c' k' => k' = k /\
      exists m', steps i m m' /\ hpc (harts m' i) = Idle /\ hheld (harts m' i) = held c' /\ locked (lks m' l) = false
  | Panicked msg _ _ => exists m', steps i m m' /\ hpc (harts m' i) = Panic msg
  | _ => False
  end.
Proof.
  intros Hr%inv_reachable Hp Hs Hc. unfold acquire, release. rewrite Hc.
  pose proof (holding_exact m i l Hr) as Hh. destruct (decide (l ∈ hheld (harts m i))) as [Hin|Hin].
  - rewrite bool_decide_eq_true_2 in Hh by done. split; [by apply acquire_again with l|]. split; [done|]. by apply release_held.
  - rewrite bool_decide_eq_false_2 in Hh by done. split; [split; [done|]; intros; by apply acquire_free|]. by apply release_other with l.
Qed.

(** *** A machine to apply them to: hart 0 in [acquire] of a lock hart 1 waits for *)

Definition machine_0 : machine := mkmachine (fun _ => mkspin false None) (fun _ => mkhart 0 false true Idle [] 0).

Lemma machine_0_held : exists m, reachable m /\ hheld (harts m 0%nat) = [LKmem] /\ hpc (harts m 0%nat) = Idle /\ noff (harts m 0%nat) = 1 /\ hpush (harts m 0%nat) = 0%nat.
Proof.
  eexists. split.
  - eapply reach_step; [eapply reach_step; [eapply reach_step; [eapply reach_step; [apply (reach_init machine_0)|]|]|]|].
    + done.
    + by apply (step_acquire 0 _ LKmem).
    + by apply (step_check 0%nat _ LKmem).
    + by apply (step_swap 0%nat _ LKmem).
    + by apply (step_got 0%nat _ LKmem).
  - done.
Qed.

Lemma spinlock_mutual_exclusion_witness : exists m, reachable m /\ lk_cpu (lks m LKmem) = Some 0%nat.
Proof.
  destruct machine_0_held as (m&Hr&Hh&_). exists m. split; [done|].
  apply (spinlock_mutual_exclusion m 0 0 LKmem Hr); [|left]; rewrite Hh; apply list_elem_of_here.
Defined.

Lemma interrupts_off_while_held_witness : exists m, reachable m /\ hheld (harts m 0%nat) = [LKmem] /\ intr (harts m 0%nat) = false.
Proof.
  destruct machine_0_held as (m&Hr&Hh&Hp&_). exists m. split; [done|]. split; [done|].
  apply (interrupts_off_while_held m 0 Hr); [by rewrite Hp|left; by rewrite Hh].
Defined.

Lemma lock_calls_refine_witness : exists m, reachable m /\ exists m', steps 0 m m' /\ hpc (harts m' 0%nat) = Panic "acquire".
Proof.
  destruct machine_0_held as (m&Hr&Hh&Hp&Hn&_). exists m. split; [done|].
  pose proof (lock_calls_refine m 0 LKmem (mkcpu None [LKmem] csrs_0) kernel_0 Hr Hp) as H.
  destruct H as [H _]; [unfold shallow; rewrite Hn; lia|by rewrite Hh|]. exact H.
Defined.
