(* ===== verification/Args.v ===== *)
(** * Copies between the kernel and the current process: [either_copyout] and
    [either_copyin] of [proc.c], and the argument access of [syscall.c]

    The trapframe is read and written in the page [p->trapframe] points to. *)

From S2P Require Import Prelude Riscv CString Kernel Printf Kalloc Vm.
From stdpp Require Import base numbers strings gmap list.
From Stdlib Require Import ZArith Lia.

#[local] Open Scope Z_scope.
#[local] Open Scope kernel_scope.

(** ** [struct trapframe] *)

Inductive tfreg :=
  | kernel_satp | kernel_sp | kernel_trap | epc | kernel_hartid
  | tf_ra | tf_sp | tf_gp | tf_tp | tf_t0 | tf_t1 | tf_t2 | tf_s0 | tf_s1
  | tf_a0 | tf_a1 | tf_a2 | tf_a3 | tf_a4 | tf_a5 | tf_a6 | tf_a7
  | tf_s2 | tf_s3 | tf_s4 | tf_s5 | tf_s6 | tf_s7 | tf_s8 | tf_s9 | tf_s10 | tf_s11
  | tf_t3 | tf_t4 | tf_t5 | tf_t6.

(** The offset of a field, as the struct's comments have it. *)
Definition tf_off (r : tfreg) : Z :=
  match r with
  | kernel_satp => 0 | kernel_sp => 8 | kernel_trap => 16 | epc => 24 | kernel_hartid => 32
  | tf_ra => 40 | tf_sp => 48 | tf_gp => 56 | tf_tp => 64 | tf_t0 => 72 | tf_t1 => 80 | tf_t2 => 88 | tf_s0 => 96 | tf_s1 => 104
  | tf_a0 => 112 | tf_a1 => 120 | tf_a2 => 128 | tf_a3 => 136 | tf_a4 => 144 | tf_a5 => 152 | tf_a6 => 160 | tf_a7 => 168
  | tf_s2 => 176 | tf_s3 => 184 | tf_s4 => 192 | tf_s5 => 200 | tf_s6 => 208 | tf_s7 => 216 | tf_s8 => 224 | tf_s9 => 232
  | tf_s10 => 240 | tf_s11 => 248 | tf_t3 => 256 | tf_t4 => 264 | tf_t5 => 272 | tf_t6 => 280
  end.

Abbreviation TFSIZE := 288%Z (only parsing).

(** [p->trapframe->r] for process [i]. *)
Definition tf_get (i : nat) (r : tfreg) : M Z :=
  p <- getproc i ;;
  if p_trapframe p =? 0 then stuck "null" else load64 (p_trapframe p + tf_off r).
Definition tf_set (i : nat) (r : tfreg) (v : Z) : M unit :=
  p <- getproc i ;;
  if p_trapframe p =? 0 then stuck "null" else store64 (p_trapframe p + tf_off r) v.

Section args.
Context {LK : Linker}.

(** ** Copies to and from either space *)

(** Where bytes go: a user address, a physical page, or a local variable of the
    caller, whose new bytes the callee returns. *)
Inductive iodst := ToUser (va : Z) | ToPhys (pa : Z) | ToLocal.
(** Where they come from. *)
Inductive iosrc := FromUser (va : Z) | FromPhys (pa : Z) | FromLocal (bs : list Z).

Definition either_copyout (dst : iodst) (src : list Z) (len : Z) : M Z :=
  match dst with
  | ToUser va =>
      i <- curproc ;;
      p <- getproc i ;;
      copyout (p_pagetable p) va src len
  | ToPhys pa => kwrbytes pa (take (Z.to_nat len) src) ;; ret 0
  | ToLocal => ret 0
  end.

(** The bytes read come with the result, also when the copy stops early. *)
Definition either_copyin (src : iosrc) (len : Z) : M (Z * list Z) :=
  match src with
  | FromUser va =>
      i <- curproc ;;
      p <- getproc i ;;
      copyin (p_pagetable p) va len
  | FromPhys pa => bs <- gets (fun k => rdbytes (mem k) pa (Z.to_nat len)) ;; ret (0, bs)
  | FromLocal bs => ret (0, take (Z.to_nat len) bs)
  end.

(** ** Arguments of system calls *)

Definition fetchaddr (addr : Z) : M (Z * Z) :=
  i <- curproc ;;
  p <- getproc i ;;
  if (p_sz p <=? addr) || (u64 (addr + 8) >? p_sz p) then ret (-1, 0) else
  '(r, bs) <- copyin (p_pagetable p) addr 8 ;;
  if negb (r =? 0) then ret (-1, 0) else
  ret (0, le_val bs).

(** The bytes copied into [buf] (up to and with the 0) come with the length. *)
Definition fetchstr (addr max : Z) : M (Z * list Z) :=
  i <- curproc ;;
  p <- getproc i ;;
  '(r, buf) <- copyinstr (p_pagetable p) addr max ;;
  if r <? 0 then ret (-1, buf) else
  match strlen (S (length buf)) (nthd 0 buf) with
  | Some n => ret (n, buf)
  | None => stuck "strlen"
  end.

Definition argraw (n : Z) : M Z :=
  i <- curproc ;;
  if n =? 0 then tf_get i tf_a0 else
  if n =? 1 then tf_get i tf_a1 else
  if n =? 2 then tf_get i tf_a2 else
  if n =? 3 then tf_get i tf_a3 else
  if n =? 4 then tf_get i tf_a4 else
  if n =? 5 then tf_get i tf_a5 else
  panic "argraw".

Definition argint (n : Z) : M Z := x <- argraw n ;; ret (i32 x).
Definition argaddr (n : Z) : M Z := argraw n.

Definition argstr (n max : Z) : M (Z * list Z) :=
  addr <- argaddr n ;;
  fetchstr addr max.

End args.
