(* ===== verification/Sleeplock.v ===== *)
(** * Sleep locks: [sleeplock.c]

    The locks of the buffers and of the in-memory inodes.  Each has a spinlock
    of its own, which the code holds while it looks at [locked] and [pid]. *)

From S2P Require Import Prelude Riscv CString Kernel Printf Sched.
From stdpp Require Import base numbers strings gmap list.
From Stdlib Require Import ZArith Lia.

#[local] Open Scope Z_scope.
#[local] Open Scope kernel_scope.

(** The sleep locks there are: [bcache.buf[i].lock] and [itable.inode[i].lock]. *)
Inductive slid := SBuf (i : nat) | SInode (i : nat).

Definition sl_spin (s : slid) : lockid := match s with SBuf i => LSleepBuf i | SInode i => LSleepInode i end.
Definition sl_chan (s : slid) : chan := match s with SBuf i => CSleepBuf i | SInode i => CSleepInode i end.

Definition getsl (s : slid) : M sleeplock :=
  match s with
  | SBuf i => b <- getbuf i ;; ret (b_lock b)
  | SInode i => ip <- getinode i ;; ret (i_lock ip)
  end.

Definition modsl (s : slid) (f : sleeplock -> sleeplock) : M unit :=
  match s with
  | SBuf i => modbuf i (fun b => b <| b_lock ::= f |>)
  | SInode i => modinode i (fun ip => ip <| i_lock ::= f |>)
  end.

Definition initsleeplock (s : slid) : M unit :=
  initlock (sl_spin s) ;;
  modsl s (fun l => l <| sl_locked := false |>) ;;
  modsl s (fun l => l <| sl_pid := 0 |>).

Section Fueled.
Context `{Fuel}.

(** [while (lk->locked) sleep(lk, &lk->lk);] *)
Fixpoint acquiresleep_loop (n : nat) (s : slid) : M unit :=
  match n with
  | O => stuck "acquiresleep"
  | S n =>
      l <- getsl s ;;
      if sl_locked l then
        sleep (sl_chan s) (sl_spin s) ;;
        acquiresleep_loop n s
      else ret tt
  end.

Definition acquiresleep (s : slid) : M unit :=
  acquire (sl_spin s) ;;
  acquiresleep_loop (S fuel) s ;;
  modsl s (fun l => l <| sl_locked := true |>) ;;
  i <- curproc ;;
  p <- getproc i ;;
  modsl s (fun l => l <| sl_pid := p_pid p |>) ;;
  release (sl_spin s).

End Fueled.

Definition releasesleep (s : slid) : M unit :=
  acquire (sl_spin s) ;;
  modsl s (fun l => l <| sl_locked := false |>) ;;
  modsl s (fun l => l <| sl_pid := 0 |>) ;;
  wakeup (sl_chan s) ;;
  release (sl_spin s).

Definition holdingsleep (s : slid) : M bool :=
  acquire (sl_spin s) ;;
  l <- getsl s ;;
  r <- (if sl_locked l then
          i <- curproc ;;
          p <- getproc i ;;
          ret (sl_pid l =? p_pid p)
        else ret false) ;;
  release (sl_spin s) ;;
  ret r.

(** ** Lemmas *)

(** The sleep lock [s] in a kernel, and the kernel after an update of it. *)
Definition sl_of (s : slid) (k : kernel) : option sleeplock :=
  match s with SBuf i => b_lock <$> bufs k !! i | SInode i => i_lock <$> inodes k !! i end.
Definition upd_sl (s : slid) (f : sleeplock -> sleeplock) (k : kernel) : kernel :=
  match s with
  | SBuf i => k <| bufs ::= alter (fun b => b <| b_lock ::= f |>) i |>
  | SInode i => k <| inodes ::= alter (fun ip => ip <| i_lock ::= f |>) i |>
  end.

(** What [wakeup(ch)] does to the kernel. *)
Definition wake (ch : chan) (me : option nat) (k : kernel) : kernel := k <| procs ::= imap (woken ch me) |>.

Lemma getsl_done s l c k : sl_of s k = Some l -> getsl s c k = Done l c k.
Proof.
  destruct s; simpl; intros E; apply fmap_Some in E as (x & E & ->).
  - by erewrite bind_done by (by apply getbuf_done).
  - by erewrite bind_done by (by apply getinode_done).
Qed.

Lemma modsl_done s f c k : modsl s f c k = Done tt c (upd_sl s f k).
Proof. by destruct s. Qed.

Lemma upd_sl_upd s f g k : upd_sl s f (upd_sl s g k) = upd_sl s (fun l => f (g l)) k.
Proof. destruct s; unfold upd_sl; kred; by rewrite lalter_lalter. Qed.

Lemma upd_sl_ext s f g k : (forall l, f l = g l) -> upd_sl s f k = upd_sl s g k.
Proof.
  intros E. destruct s; unfold upd_sl; kred; f_equal; apply lalter_ext; intros x; cbn [update]; by rewrite E.
Qed.

Lemma sl_of_upd s f k : sl_of s (upd_sl s f k) = f <$> sl_of s k.
Proof.
  destruct s; unfold upd_sl, sl_of; kred; rewrite list_lookup_alter_eq.
  - by destruct (bufs k !! i).
  - by destruct (inodes k !! i).
Qed.

Lemma procs_upd_sl s f k : procs (upd_sl s f k) = procs k.
Proof. by destruct s. Qed.

Section Free.
Context `{Fuel}.

(** A free lock is taken at once. *)
Lemma acquiresleep_free s l i p c k :
  sl_of s k = Some l -> sl_locked l = false -> sl_spin s ∉ held c -> cpu_proc c = Some i -> procs k !! i = Some p ->
  acquiresleep s c k = Done tt c (upd_sl s (fun _ => mksleeplock true (p_pid p)) k).
Proof.
  intros Hs Hl Hh Hi Hp. unfold acquiresleep.
  erewrite bind_done by (by apply acquire_ok). cbn [acquiresleep_loop].
  assert (El : acquiresleep_loop (S fuel) s (c <| held := sl_spin s :: held c |>) k = Done tt (c <| held := sl_spin s :: held c |>) k).
  { cbn [acquiresleep_loop]. erewrite bind_done by (by apply getsl_done). by rewrite Hl. }
  cbn [acquiresleep_loop] in El. erewrite bind_done by exact El.
  erewrite bind_done by apply modsl_done. erewrite bind_done by (by apply curproc_done).
  erewrite bind_done by (apply getproc_done; by rewrite procs_upd_sl).
  erewrite bind_done by apply modsl_done. rewrite upd_sl_upd, release_ok by done. f_equal.
Qed.

(** Asleep while it is held by someone. *)
Lemma acquiresleep_held s l i p c k :
  sl_of s k = Some l -> sl_locked l = true -> held c = [] -> cpu_proc c = Some i -> procs k !! i = Some p -> sl_spin s <> LProc i ->
  exists resume, acquiresleep s c k = Switch (c <| held := [LProc i] |>) (asleep i (sl_chan s) k) resume.
Proof.
  intros Hs Hl Hh Hi Hp Hne. unfold acquiresleep.
  erewrite bind_done by (apply acquire_ok; rewrite Hh; apply not_elem_of_nil). rewrite Hh.
  destruct (sleep_switches i (sl_chan s) (sl_spin s) (c <| held := [sl_spin s] |>) k p) as (r&Er&_); [done..|].
  eexists. erewrite bind_switch; [reflexivity|]. cbn [acquiresleep_loop].
  erewrite bind_done by (by apply getsl_done). rewrite Hl. by erewrite bind_switch by exact Er.
Qed.

End Free.

Lemma releasesleep_ok s c k :
  sl_spin s ∉ held c -> procs_unlocked c -> length (procs k) = 64%nat ->
  releasesleep s c k = Done tt c (wake (sl_chan s) (cpu_proc c) (upd_sl s (fun _ => sleeplock_0) k)).
Proof.
  intros Hh Hu Hn. unfold releasesleep.
  erewrite bind_done by (by apply acquire_ok). erewrite bind_done by apply modsl_done. erewrite bind_done by apply modsl_done.
  rewrite upd_sl_upd. erewrite bind_done.
  2: { apply wakeup_ok; [|by rewrite procs_upd_sl]. intros j. kred. intros [E|Hj]%elem_of_cons; [by destruct s|by apply (Hu j)]. }
  rewrite release_ok by done. f_equal.
Qed.

(** Whether the current process holds [s]. *)
Definition held_by (p : proc) (l : sleeplock) : bool := sl_locked l && (sl_pid l =? p_pid p).

Lemma holdingsleep_ok s l i p c k :
  sl_of s k = Some l -> sl_spin s ∉ held c -> cpu_proc c = Some i -> procs k !! i = Some p ->
  holdingsleep s c k = Done (held_by p l) c k.
Proof.
  intros Hs Hh Hi Hp. unfold holdingsleep, held_by.
  erewrite bind_done by (by apply acquire_ok). erewrite bind_done by (by apply getsl_done).
  destruct (sl_locked l) eqn:El.
  - erewrite bind_done; [by erewrite bind_done by (by apply release_ok)|].
    erewrite bind_done by (by apply curproc_done). by erewrite bind_done by (by apply getproc_done).
  - erewrite bind_done by done. by erewrite bind_done by (by apply release_ok).
Qed.

(** ** Under interference *)

(** An invariant that does not look at the process table or at the lock [s]. *)
Class StableFor (I : kernel -> Prop) (s : slid) := {
  stable_procs : forall k ps, I k -> I (k <| procs := ps |>);
  stable_lock : forall k f, I k -> I (upd_sl s f k)
}.

Section Interference.
Context `{Fuel}.

Lemma sleep_safe (I : kernel -> Prop) E i ch lk c k :
  (forall k ps, I k -> I (k <| procs := ps |>)) ->
  I k -> cpu_proc c = Some i -> held c = [lk] -> lk <> LProc i ->
  safe I E (fun _ c' k' => I k' /\ held c' = [lk] /\ cpu_proc c' = Some i) (sleep ch lk c k).
Proof.
  intros Hst HI Hi Hh Hne. destruct (procs k !! i) as [p|] eqn:Hp.
  - destruct (sleep_switches i ch lk c k p) as (r&->&Hr); [done..|]. cbn [safe]. split; [by apply (Hst k)|].
    intros c' k' Hc' Hh' HI'. rewrite Hr by (rewrite ?Hc'; done). cbn [safe]. split; [by apply (Hst k')|]. split; [done|]. kred. rewrite Hc'. exact Hi.
  - unfold sleep. erewrite bind_done by (by apply curproc_done).
    erewrite bind_done by (apply acquire_ok; rewrite Hh; intros ?%list_elem_of_singleton; congruence). rewrite Hh.
    erewrite bind_done by (apply release_done; kred; apply list_elem_of_further, list_elem_of_here). kred. rewrite filter_own by done.
    erewrite bind_done by done. erewrite bind_done by done. kred. rewrite lalter_lalter.
    by erewrite bind_stuck by (apply (sched_none i); [done|done|kred; by rewrite list_lookup_alter_eq, Hp]).
Qed.

Lemma acquiresleep_loop_safe I `{!StableFor I s} E n i c k :
  I k -> cpu_proc c = Some i -> held c = [sl_spin s] ->
  safe I E (fun _ c' k' => I k' /\ held c' = [sl_spin s] /\ cpu_proc c' = Some i) (acquiresleep_loop n s c k).
Proof.
  intros HI Hi Hh. revert c k HI Hi Hh. induction n as [|n IH]; intros c k HI Hi Hh; [done|]. cbn [acquiresleep_loop].
  destruct (sl_of s k) as [l|] eqn:Hs.
  - erewrite bind_done by (by apply getsl_done). destruct (sl_locked l); [|done].
    eapply safe_bind; [eapply (sleep_safe I); [apply stable_procs|done|done|done|by destruct s]|]. intros _ c' k' (?&?&?). by apply IH.
  - destruct s; simpl in Hs; apply fmap_None in Hs; unfold bind, getsl, getbuf, getinode, gets, bind, deref; cbn; by rewrite Hs.
Qed.

Lemma acquiresleep_safe I `{!StableFor I s} E i c k :
  I k -> cpu_proc c = Some i -> held c = [] ->
  safe I E (fun _ c' k' => I k' /\ held c' = [] /\ cpu_proc c' = Some i) (acquiresleep s c k).
Proof.
  intros HI Hi Hh. unfold acquiresleep.
  erewrite bind_done by (apply acquire_ok; rewrite Hh; apply not_elem_of_nil). rewrite Hh.
  eapply safe_bind; [by apply (acquiresleep_loop_safe I)|]. intros _ c' k' (HI'&Hh'&Hi').
  erewrite bind_done by apply modsl_done. erewrite bind_done by (by apply curproc_done).
  destruct (procs k' !! i) as [p|] eqn:Hp.
  - erewrite bind_done by (apply getproc_done; rewrite procs_upd_sl; exact Hp).
    erewrite bind_done by apply modsl_done. rewrite release_done by (rewrite Hh'; apply list_elem_of_here). rewrite Hh'. cbn.
    rewrite decide_False by tauto. rewrite upd_sl_upd. split; [by apply stable_lock|]. by destruct c'.
  - unfold bind at 1, getproc, gets, bind, deref. cbn. by rewrite procs_upd_sl, Hp.
Qed.

End Interference.
