(* ===== verification/SleepMutex.v ===== *)
(** * Sleep locks exclude each other

    Any number of processes call [acquiresleep] and [releasesleep] on one lock.
    A process runs until it returns or gives up the CPU (its own spinlock makes
    this atomic for the lock); it may be resumed at any time, woken or not, in
    whatever state the kernel is then.  The theorem is about every interleaving
    of such steps. *)

From S2P Require Import Prelude Riscv CString Kernel Printf Sched Sleeplock.
From stdpp Require Import base numbers strings gmap list relations.
From Stdlib Require Import ZArith Lia.

#[local] Open Scope Z_scope.
#[local] Open Scope kernel_scope.

(** The process ids, which neither lock operation changes. *)
Definition pids (k : kernel) : list Z := p_pid <$> procs k.

(** [atomic s i Q k0 o]: the run [o] of process [i], whose current stretch on
    the CPU began in [k0], leaves lock [s] and the process ids alone whenever
    it gives up the CPU, however it is resumed, and if it returns, the stretch
    in which it does satisfies [Q]. *)
Fixpoint atomic {A} (s : slid) (i : nat) (Q : kernel -> A -> cpu -> kernel -> Prop) (k0 : kernel) (o : outcome A) : Prop :=
  match o with
  | Done a c k => Q k0 a c k
  | Switch c k resume => sl_of s k = sl_of s k0 /\ pids k = pids k0 /\
      forall c' k', cpu_proc c' = Some i -> held c' = [LProc i] -> atomic s i Q k' (resume c' k')
  | Panicked _ _ _ | Stuck _ => True
  end.

Lemma atomic_continue {A B} s i (Q : kernel -> A -> cpu -> kernel -> Prop) (Q' : kernel -> B -> cpu -> kernel -> Prop) k0 o (f : A -> M B) :
  atomic s i Q k0 o -> (forall k1 a c k, Q k1 a c k -> atomic s i Q' k1 (f a c k)) -> atomic s i Q' k0 (continue o f).
Proof.
  intros H Hf. revert k0 H. induction o as [a c k|msg c k|c k r IH|why]; intros k0 H; cbn in *; auto.
  destruct H as (H1&H2&H3). split; [done|]. split; [done|]. intros. by apply IH, H3.
Qed.

Section Mutex.
Context `{Fu : Fuel} (s : slid).

(** Where a process is: not in a critical section, waiting in [acquiresleep], or inside. *)
Inductive status := Outside | Waiting (resume : cpu -> kernel -> outcome unit) | Inside.

Record world := mkworld { w_kernel : kernel; w_status : nat -> status }.

Definition set_status (i : nat) (x : status) (st : nat -> status) (j : nat) : status := if decide (j = i) then x else st j.

(** The state after process [i] ran up to outcome [o]. *)
Definition settle (i : nat) (o : outcome unit) (st : nat -> status) : option world :=
  match o with
  | Done _ _ k => Some (mkworld k (set_status i Inside st))
  | Switch _ k r => Some (mkworld k (set_status i (Waiting r) st))
  | _ => None
  end.

Inductive wstep : world -> world -> Prop :=
  | w_enter i c k st w : st i = Outside -> cpu_proc c = Some i -> held c = [] ->
      settle i (acquiresleep s c k) st = Some w -> wstep (mkworld k st) w
  | w_resume i r c k st w : st i = Waiting r -> cpu_proc c = Some i -> held c = [LProc i] ->
      settle i (r c k) st = Some w -> wstep (mkworld k st) w
  | w_leave i c c' k k' st : st i = Inside -> cpu_proc c = Some i -> held c = [] -> releasesleep s c k = Done tt c' k' ->
      wstep (mkworld k st) (mkworld k' (set_status i Outside st))
  | w_other k k' st : sl_of s k' = sl_of s k -> pids k' = pids k -> wstep (mkworld k st) (mkworld k' st).

(** A call of [acquiresleep] by process [i] that returns finds the lock free and takes it. *)
Definition took (i : nat) (k0 : kernel) (_ : unit) (_ : cpu) (k : kernel) : Prop :=
  pids k = pids k0 /\ exists l pid, sl_of s k0 = Some l /\ sl_locked l = false /\ pids k0 !! i = Some pid /\ sl_of s k = Some (mksleeplock true pid).

Lemma pids_alter (f : proc -> proc) i k : (forall p, p_pid (f p) = p_pid p) -> pids (k <| procs ::= alter f i |>) = pids k.
Proof.
  intros Hf. unfold pids. kred. apply list_eq. intros j. rewrite !list_lookup_fmap. destruct (decide (i = j)) as [<-|].
  - rewrite list_lookup_alter_eq. destruct (procs k !! i); cbn; [by rewrite Hf|done].
  - by rewrite list_lookup_alter_ne.
Qed.
Lemma pids_wake ch me k : pids (wake ch me k) = pids k.
Proof.
  unfold pids, wake. kred. apply list_eq. intros j. rewrite !list_lookup_fmap, list_lookup_imap. destruct (procs k !! j); [|done].
  cbn. unfold woken. by destruct (_ && _).
Qed.
Lemma sl_of_procs g k : sl_of s (k <| procs ::= g |>) = sl_of s k.
Proof. by destruct s. Qed.
Lemma pids_upd_sl f k : pids (upd_sl s f k) = pids k.
Proof. unfold pids. by rewrite procs_upd_sl. Qed.

(** The lock seen free, with its spinlock held. *)
Definition saw_free (i : nat) (k0 : kernel) (_ : unit) (c : cpu) (k : kernel) : Prop :=
  sl_of s k = sl_of s k0 /\ pids k = pids k0 /\ held c = [sl_spin s] /\ cpu_proc c = Some i /\
  exists l, sl_of s k = Some l /\ sl_locked l = false.

Lemma spin_not_proc i : sl_spin s <> LProc i.
Proof. by destruct s. Qed.

Lemma getsl_none c k : sl_of s k = None -> getsl s c k = Stuck "null".
Proof.
  destruct s; simpl; intros E; apply fmap_None in E; unfold getbuf, getinode, gets, bind; simpl; by rewrite E.
Qed.

(** A loop that was resumed: [k1] is what the kernel was when the stretch began. *)
Lemma loop_atomic n i c k k1 :
  sl_of s k = sl_of s k1 -> pids k = pids k1 -> held c = [sl_spin s] -> cpu_proc c = Some i ->
  atomic s i (saw_free i) k1 (acquiresleep_loop n s c k).
Proof.
  revert c k k1. induction n as [|n IH]; intros c k k1 Es Ep Hh Hi; [done|]. cbn [acquiresleep_loop].
  destruct (sl_of s k) as [l|] eqn:El; [|by erewrite bind_stuck by (by apply getsl_none)].
  erewrite bind_done by (by apply getsl_done). destruct (sl_locked l) eqn:Hl.
  - destruct (procs k !! i) as [p|] eqn:Hp.
    + destruct (sleep_switches i (sl_chan s) (sl_spin s) c k p) as (r&Er&Hr); [done|done|done|apply spin_not_proc|].
      erewrite bind_switch by exact Er. cbn [atomic]. split; [unfold asleep; by rewrite sl_of_procs, El|].
      split; [unfold asleep; rewrite pids_alter by done; done|]. intros c' k' Hi' Hh'. rewrite Hr by done. cbn [continue].
      apply IH; [apply sl_of_procs|by apply pids_alter|done|done].
    + assert (Hpid : exists why, sleep (sl_chan s) (sl_spin s) c k = Stuck why); [|destruct Hpid as [why E]; by erewrite bind_stuck by exact E].
      unfold sleep. erewrite bind_done by (by apply curproc_done).
      erewrite bind_done by (apply acquire_ok; rewrite Hh; intros ?%list_elem_of_singleton; by destruct s). rewrite Hh.
      erewrite bind_done by (apply release_done; kred; apply list_elem_of_further, list_elem_of_here). kred. rewrite filter_own by apply spin_not_proc.
      erewrite bind_done by done. erewrite bind_done by done. kred. rewrite lalter_lalter.
      eexists. erewrite bind_stuck; [done|]. apply (sched_none i); [done|done|kred; by rewrite list_lookup_alter_eq, Hp].
  - cbn [atomic ret]. split; [by rewrite El, <- Es|]. split; [done|]. split; [done|]. split; [done|]. by exists l.
Qed.

Lemma acquiresleep_atomic i c k :
  held c = [] -> cpu_proc c = Some i -> atomic s i (took i) k (acquiresleep s c k).
Proof.
  intros Hh Hi. unfold acquiresleep. erewrite bind_done by (apply acquire_ok; rewrite Hh; apply not_elem_of_nil). rewrite Hh.
  eapply atomic_continue; [by apply loop_atomic|]. clear c k Hh Hi. intros k1 [] c k (Es&Ep&Hh&Hi&l&El&Hl).
  erewrite bind_done by apply modsl_done. erewrite bind_done by (by apply curproc_done).
  destruct (procs k !! i) as [p|] eqn:Hp; [|by erewrite bind_stuck by (apply getproc_none; by rewrite procs_upd_sl)].
  erewrite bind_done by (apply getproc_done; by rewrite procs_upd_sl). erewrite bind_done by apply modsl_done.
  rewrite release_done by (rewrite Hh; apply list_elem_of_here). cbn [atomic]. rewrite upd_sl_upd. split; [by rewrite pids_upd_sl|].
  exists l, (p_pid p). split; [by rewrite <- Es|]. split; [done|]. split; [rewrite <- Ep; unfold pids; by rewrite list_lookup_fmap, Hp|].
  rewrite sl_of_upd, El. by destruct l.
Qed.

(** ** The invariant of the processes *)

Record excl (w : world) (l : sleeplock) : Prop := {
  ex_lock : sl_of s (w_kernel w) = Some l;
  ex_len : length (pids (w_kernel w)) = 64%nat;
  ex_wait : forall i r, w_status w i = Waiting r ->
    forall c k, cpu_proc c = Some i -> held c = [LProc i] -> atomic s i (took i) k (r c k);
  ex_in : forall i, w_status w i = Inside -> sl_locked l = true /\ pids (w_kernel w) !! i = Some (sl_pid l);
  ex_locked : sl_locked l = true -> exists i, w_status w i = Inside;
  ex_one : forall i j, w_status w i = Inside -> w_status w j = Inside -> i = j
}.

Lemma set_status_eq i x st : set_status i x st i = x.
Proof. unfold set_status. by rewrite decide_True. Qed.
Lemma set_status_ne i j x st : j <> i -> set_status i x st j = st j.
Proof. intros. unfold set_status. by rewrite decide_False. Qed.

(** The end of a stretch of process [i], which is not inside. *)
Lemma settle_excl i o k st w l :
  excl (mkworld k st) l -> st i <> Inside -> atomic s i (took i) k o -> settle i o st = Some w -> exists l', excl w l'.
Proof.
  intros [Hl Hn Hw Hin Hlk H1] Hi Ha E. cbn in *. destruct o as [[] c k'|msg c k'|c k' r|why]; [| | |]; cbn in E; try done; injection E as <-.
  - destruct Ha as (Hp&l0&pid&El&Hf&Hpid&El'). assert (l0 = l) as -> by congruence. exists (mksleeplock true pid).
    assert (Hno : forall j, st j <> Inside) by (intros j Hj; destruct (Hin j Hj); congruence).
    split; cbn; [done|by rewrite Hp| | |by exists i; rewrite set_status_eq|].
    + intros j r. unfold set_status. case_decide; [done|]. apply Hw.
    + intros j. unfold set_status. case_decide as Ej; [subst j; by rewrite Hp|]. by intros ?%Hno.
    + intros j j'. unfold set_status. do 2 case_decide; try congruence; by intros ?%Hno || (intros _ ?%Hno).
  - destruct Ha as (El&Hp&Hr). exists l. split; cbn; [by rewrite El|by rewrite Hp| | | |].
    + intros j r'. unfold set_status. case_decide as Ej; [|apply Hw]. intros [= <-]. by subst j.
    + intros j. unfold set_status. case_decide; [done|]. rewrite Hp. apply Hin.
    + intros (j&Hj)%Hlk. exists j. rewrite set_status_ne; [done|]. by intros ->.
    + intros j j'. unfold set_status. do 2 case_decide; try done. apply H1.
Qed.

Lemma wstep_excl w w' l : excl w l -> wstep w w' -> exists l', excl w' l'.
Proof.
  intros He Hs. destruct Hs as [i c k st w Hi Hc Hh E|i r c k st w Hi Hc Hh E|i c c' k k' st Hi Hc Hh E|k k' st El Hp].
  - eapply settle_excl; [exact He|by rewrite Hi|by apply acquiresleep_atomic|exact E].
  - eapply settle_excl; [exact He|by rewrite Hi|by apply (ex_wait _ _ He i r)|exact E].
  - destruct He as [Hl Hn Hw Hin Hlk H1]. cbn in *.
    rewrite releasesleep_ok in E; [|rewrite Hh; apply not_elem_of_nil|intros j; rewrite Hh; apply not_elem_of_nil|by unfold pids in Hn; rewrite length_fmap in Hn].
    injection E as <- <-. exists sleeplock_0. split; cbn [w_kernel w_status sl_locked sleeplock_0].
    + unfold wake. by rewrite sl_of_procs, sl_of_upd, Hl.
    + by rewrite pids_wake, pids_upd_sl.
    + intros j r. unfold set_status. case_decide; [done|]. apply Hw.
    + intros j. unfold set_status. case_decide as Ej; [done|]. intros Hj. by destruct Ej; apply H1.
    + done.
    + intros j j'. unfold set_status. do 2 case_decide; try done. apply H1.
  - destruct He as [Hl Hn Hw Hin Hlk H1]. exists l. cbn in *. split; cbn; [by rewrite El|by rewrite Hp|done| |done|done].
    intros j Hj. rewrite Hp. by apply Hin.
Qed.

(** C33. Sleep locks give mutual exclusion.  Start with the lock free and any number of processes
    that call [acquiresleep] and [releasesleep] on it, in any interleaving, with spurious wakeups
    and with any other kernel activity that leaves this lock and the process ids alone.  Then at
    every moment at most one process is between its [acquiresleep] and its [releasesleep]; the
    lock is marked as locked exactly when there is one; and the lock's [pid] is that process's. *)
Theorem sleeplock_exclusion w w' l :
  sl_of s (w_kernel w) = Some l -> sl_locked l = false -> length (procs (w_kernel w)) = 64%nat -> (forall i, w_status w i = Outside) ->
  rtc wstep w w' ->
  exists l', sl_of s (w_kernel w') = Some l' /\
    (forall i j, w_status w' i = Inside -> w_status w' j = Inside -> i = j) /\
    (sl_locked l' = true <-> exists i, w_status w' i = Inside) /\
    (forall i, w_status w' i = Inside -> p_pid <$> procs (w_kernel w') !! i = Some (sl_pid l')).
Proof.
  intros Hl Hf Hn Ho Hs. assert (He : exists l, excl w l).
  { exists l. split; [done|unfold pids; by rewrite length_fmap|intros i r; by rewrite Ho|intros i; by rewrite Ho|by rewrite Hf|intros i j; by rewrite Ho]. }
  clear l Hl Hf Hn Ho. assert (He' : exists l, excl w' l) by (induction Hs as [|w w1 w' Hs1 _ IH]; [done|]; destruct He as [l He]; eapply IH, wstep_excl; eauto).
  destruct He' as [l' [Hl Hn Hw Hin Hlk H1]]. exists l'. split; [done|]. split; [done|]. split.
  - split; [done|]. intros [i Hi]. by apply Hin in Hi as [? _].
  - intros i Hi. apply Hin in Hi as [_ Hi]. unfold pids in Hi. by rewrite list_lookup_fmap in Hi.
Qed.
End Mutex.

(** ** Two processes and one lock *)

Module SleepDemo.
#[local] Instance sleep_fuel : Fuel := 2%nat.

Definition cpu_of (i : nat) : cpu := mkcpu (Some i) [] csrs_0.
Definition w0 : world := mkworld kernel_0 (fun _ => Outside).

(** The first process is inside; the second one tried and waits. *)
Definition w2 : option world :=
  w1 ← settle 0 (acquiresleep (SBuf 0) (cpu_of 0) kernel_0) (w_status w0);
  settle 1 (acquiresleep (SBuf 0) (cpu_of 1) (w_kernel w1)) (w_status w1).

Lemma w2_reached w : w2 = Some w -> rtc (wstep (SBuf 0)) w0 w.
Proof.
  unfold w2. destruct (settle 0 _ _) as [w1|] eqn:E1; [|done]. cbn [mbind option_bind]. intros E2.
  eapply rtc_l; [|eapply rtc_l; [|apply rtc_refl]].
  - by apply (w_enter (SBuf 0) 0 (cpu_of 0)).
  - destruct w1 as [k1 st1]. apply (w_enter (SBuf 0) 1 (cpu_of 1)); [|done..]. by injection E1 as _ <-.
Qed.

Lemma sleeplock_exclusion_witness :
  exists w, w2 = Some w /\ w_status w 0%nat = Inside /\ (forall i, w_status w i = Inside -> i = 0%nat).
Proof.
  destruct w2 as [w|] eqn:E; [|discriminate E].
  destruct (sleeplock_exclusion (SBuf 0) w0 w sleeplock_0) as (l&_&H1&_); [reflexivity|reflexivity|reflexivity|reflexivity|by apply w2_reached|].
  assert (H0 : w_status w 0%nat = Inside) by (injection E as <-; reflexivity).
  exists w. split; [reflexivity|]. split; [exact H0|]. intros i Hi. exact (H1 i 0%nat Hi H0).
Defined.
End SleepDemo.
