(* ===== verification/Bio.v ===== *)
(** * The buffer cache: [bio.c]

    [bcache.buf[i]] is [bufs !! i]; in the list pointers 30 stands for
    [&bcache.head].  The disk driver is a parameter ([BlockDevice]), whose
    promise is that a transfer copies one block and prints the monitor's line;
    DiskRefine.v shows that the driver keeps it. *)

From S2P Require Import Prelude Riscv CString Kernel Printf Sched Sleeplock.
From stdpp Require Import base numbers strings gmap list.
From Stdlib Require Import ZArith Lia.

#[local] Open Scope Z_scope.
#[local] Open Scope kernel_scope.

Abbreviation BSIZE := 1024%Z (only parsing).
Abbreviation HEAD := 30%nat (only parsing).

(** ** The block device *)

(** The blocks of the disk image; one never written is zero. *)
Definition dblk (k : kernel) (bno : Z) : list Z := default (replicate 1024 0) (disk k !! bno).

(** The message of the disk monitor in [virtio_disk_rw]. *)
Definition monitor_msg (write : bool) (bno : Z) : list vararg :=
  [VStr (Some (str (if write then "WRITE" else "READ "))); VInt bno; VInt (i32 (u32 (bno * 2)))].
Definition monitor_fmt : string := "DISK MONITOR: Op=%s | Block=%d | Sector=%d" +:+ nl.

(** What a transfer does: the line on the console, and one block copied
    between the buffer and the disk. *)
Definition transfer (b : nat) (write : bool) (bf : buf) (k : kernel) : kernel :=
  let k := k <| uart ::= fun o => o ++ out (default [] (format (str monitor_fmt) (monitor_msg write (b_blockno bf)))) |> in
  if write
  then k <| disk ::= <[b_blockno bf := b_data bf]> |> <| writes ::= cons (b_blockno bf, b_data bf) |>
  else k <| bufs ::= alter (fun x => x <| b_data := dblk k (b_blockno bf) |>) b |>.

(** The driver, [virtio_disk_rw(b, write)], as its callers see it: called by a
    process with no spinlock held, it returns with the transfer done. *)
Class BlockDevice := {
  virtio_disk_rw : nat -> bool -> M unit;
  virtio_disk_rw_ok : forall b write bf c k,
    held c = [] -> is_Some (cpu_proc c) -> bufs k !! b = Some bf ->
    virtio_disk_rw b write c k = Done tt c (transfer b write bf k)
}.

(** A device that transfers at once. *)
Definition sync_disk_rw (b : nat) (write : bool) : M unit :=
  bf <- getbuf b ;;
  modify (transfer b write bf).

#[program] Definition sync_device : BlockDevice := {| virtio_disk_rw := sync_disk_rw |}.
Next Obligation. intros b write bf c k _ _ Hb. unfold sync_disk_rw. by erewrite bind_done by (by apply getbuf_done). Qed.

(** ** List pointers *)

Definition get_next (i : nat) : M nat :=
  if decide (i = HEAD) then gets head_next else b <- getbuf i ;; ret (b_next b).
Definition get_prev (i : nat) : M nat :=
  if decide (i = HEAD) then gets head_prev else b <- getbuf i ;; ret (b_prev b).
Definition set_next (i j : nat) : M unit :=
  if decide (i = HEAD) then modify (fun k => k <| head_next := j |>) else modbuf i (fun b => b <| b_next := j |>).
Definition set_prev (i j : nat) : M unit :=
  if decide (i = HEAD) then modify (fun k => k <| head_prev := j |>) else modbuf i (fun b => b <| b_prev := j |>).

(** ** Operations *)

(** [for(b = bcache.buf; b < bcache.buf+NBUF; b++)], [n] buffers left. *)
Fixpoint binit_loop (n b : nat) : M unit :=
  match n with
  | O => ret tt
  | S n =>
      h <- get_next HEAD ;;
      set_next b h ;;
      set_prev b HEAD ;;
      initsleeplock (SBuf b) ;;
      h <- get_next HEAD ;;
      set_prev h b ;;
      set_next HEAD b ;;
      binit_loop n (S b)
  end.

Definition binit : M unit :=
  initlock LBcache ;;
  set_prev HEAD HEAD ;;
  set_next HEAD HEAD ;;
  binit_loop 30 0.

(** The scan for the block, from [b] forward; a list of 30 buffers is left
    after 31 steps at most. *)
Fixpoint bget_find (n b : nat) (dev blockno : Z) : M (option nat) :=
  match n with
  | O => stuck "bcache list"
  | S n =>
      if decide (b = HEAD) then ret None else
      bf <- getbuf b ;;
      if (b_dev bf =? dev) && (b_blockno bf =? blockno) then ret (Some b) else
      bget_find n (b_next bf) dev blockno
  end.

(** The scan for an unused buffer, from [b] backward. *)
Fixpoint bget_recycle (n b : nat) : M (option nat) :=
  match n with
  | O => stuck "bcache list"
  | S n =>
      if decide (b = HEAD) then ret None else
      bf <- getbuf b ;;
      if b_refcnt bf =? 0 then ret (Some b) else
      bget_recycle n (b_prev bf)
  end.

(** No one is waiting for [b]: it goes to the front of the list. *)
Definition to_front (b : nat) : M unit :=
  n <- get_next b ;;
  p <- get_prev b ;;
  set_prev n p ;;
  n <- get_next b ;;
  p <- get_prev b ;;
  set_next p n ;;
  h <- get_next HEAD ;;
  set_next b h ;;
  set_prev b HEAD ;;
  h <- get_next HEAD ;;
  set_prev h b ;;
  set_next HEAD b.

Section Operations.
Context `{Fuel} `{BlockDevice}.

Definition bget (dev blockno : Z) : M nat :=
  acquire LBcache ;;
  b <- get_next HEAD ;;
  r <- bget_find 31 b dev blockno ;;
  match r with
  | Some b =>
      modbuf b (fun bf => bf <| b_refcnt ::= fun n => u32 (n + 1) |>) ;;
      release LBcache ;;
      acquiresleep (SBuf b) ;;
      ret b
  | None =>
      b <- get_prev HEAD ;;
      r <- bget_recycle 31 b ;;
      match r with
      | Some b =>
          modbuf b (fun bf => bf <| b_dev := dev |>) ;;
          modbuf b (fun bf => bf <| b_blockno := blockno |>) ;;
          modbuf b (fun bf => bf <| b_valid := false |>) ;;
          modbuf b (fun bf => bf <| b_refcnt := 1 |>) ;;
          release LBcache ;;
          acquiresleep (SBuf b) ;;
          ret b
      | None => panic "bget: no buffers"
      end
  end.

Definition bread (dev blockno : Z) : M nat :=
  b <- bget dev blockno ;;
  bf <- getbuf b ;;
  (if b_valid bf then ret tt else
   virtio_disk_rw b false ;;
   modbuf b (fun bf => bf <| b_valid := true |>)) ;;
  ret b.

Definition bwrite (b : nat) : M unit :=
  h <- holdingsleep (SBuf b) ;;
  if negb h then panic "bwrite" else
  virtio_disk_rw b true.

Definition brelse (b : nat) : M unit :=
  h <- holdingsleep (SBuf b) ;;
  if negb h then panic "brelse" else
  releasesleep (SBuf b) ;;
  acquire LBcache ;;
  modbuf b (fun bf => bf <| b_refcnt ::= fun n => u32 (n - 1) |>) ;;
  bf <- getbuf b ;;
  (if b_refcnt bf =? 0 then to_front b else ret tt) ;;
  release LBcache.

Definition bpin (b : nat) : M unit :=
  acquire LBcache ;;
  modbuf b (fun bf => bf <| b_refcnt ::= fun n => u32 (n + 1) |>) ;;
  release LBcache.

Definition bunpin (b : nat) : M unit :=
  acquire LBcache ;;
  modbuf b (fun bf => bf <| b_refcnt ::= fun n => u32 (n - 1) |>) ;;
  release LBcache.

End Operations.
