(* ===== verification/Bcache.v ===== *)
(** * The buffer cache's list

    The doubly linked list through [prev] and [next] with [bcache.head] (30)
    stands for a list of buffer numbers, the most recently released first.
    [bcache_ok] says so, and that no block is in two buffers; every operation
    of [bio.c] preserves it, whatever other processes do while it sleeps. *)

From S2P Require Import Prelude Riscv CString Kernel Printf Sched Sleeplock Bio.
From stdpp Require Import base numbers strings gmap list.
From Stdlib Require Import ZArith Lia.

#[local] Open Scope Z_scope.
#[local] Open Scope kernel_scope.

(** ** Circular lists, as two functions *)

(** From [a] on, [next] goes through [l] and back to the head, [prev] the other way. *)
Fixpoint links (nx pv : nat -> nat) (a : nat) (l : list nat) : Prop :=
  match l with
  | [] => nx a = HEAD /\ pv HEAD = a
  | b :: l => nx a = b /\ pv b = a /\ links nx pv b l
  end.

Definition upd (f : nat -> nat) (i v : nat) : nat -> nat := fun j => if decide (j = i) then v else f j.

Lemma upd_eq f i v : upd f i v i = v.
Proof. unfold upd. by rewrite decide_True. Qed.
Lemma upd_ne f i v j : j <> i -> upd f i v j = f j.
Proof. intros. unfold upd. by rewrite decide_False. Qed.

Lemma upd_ext f g i v x : f x = g x -> upd f i v x = upd g i v x.
Proof. intros E. unfold upd. by destruct (decide _). Qed.

(** The first element of a list, or the head. *)
Definition hd_ (l : list nat) : nat := match l with [] => HEAD | b :: _ => b end.

Lemma links_nx nx pv a l : links nx pv a l -> nx a = hd_ l.
Proof. destruct l; simpl; tauto. Qed.
Lemma links_pv nx pv a l : links nx pv a l -> pv (hd_ l) = a.
Proof. destruct l; simpl; tauto. Qed.

(** Only the links of the list matter. *)
Lemma links_ext nx pv nx' pv' a l :
  links nx pv a l -> (forall x, x ∈ a :: l -> nx' x = nx x) -> (forall x, x ∈ HEAD :: l -> pv' x = pv x) -> links nx' pv' a l.
Proof.
  revert a. induction l as [|b l IH]; intros a; simpl.
  - intros [? ?] Hn Hp. rewrite Hn, Hp by apply list_elem_of_here. done.
  - intros (En&Ep&Hl) Hn Hp. rewrite Hn by apply list_elem_of_here.
    rewrite Hp by (apply list_elem_of_further, list_elem_of_here). split; [done|]. split; [done|].
    apply IH; [done| |].
    + intros x Hx. apply Hn. by apply list_elem_of_further.
    + intros x [->|Hx]%elem_of_cons; apply Hp; [apply list_elem_of_here|]. by apply list_elem_of_further, list_elem_of_further.
Qed.

(** The last element of [a :: l]. *)
Fixpoint lastd (a : nat) (l : list nat) : nat := match l with [] => a | x :: l => lastd x l end.

Lemma lastd_in a l : lastd a l ∈ a :: l.
Proof.
  revert a. induction l as [|x l IH]; intros a; simpl; [apply list_elem_of_here|]. apply list_elem_of_further, IH.
Qed.

(** Where an element's links point. *)
Lemma links_at nx pv a l1 b l2 :
  links nx pv a (l1 ++ b :: l2) -> pv b = lastd a l1 /\ links nx pv b l2.
Proof.
  revert a. induction l1 as [|x l1 IH]; intros a; simpl; [tauto|].
  intros (_&_&Hl). by apply IH.
Qed.

(** Unlinking [b]: [b->next->prev = b->prev; b->prev->next = b->next]. *)
Lemma links_remove nx pv a l1 b l2 :
  NoDup (a :: l1 ++ b :: l2) -> HEAD ∉ l1 ++ b :: l2 -> links nx pv a (l1 ++ b :: l2) ->
  links (upd nx (pv b) (nx b)) (upd pv (nx b) (pv b)) a (l1 ++ l2).
Proof.
  revert a. induction l1 as [|x l1 IH]; intros a Hnd Hh Hl.
  - simpl in *. destruct Hl as (En&Ep&Hl). rewrite Ep, (links_nx _ _ _ _ Hl).
    apply NoDup_cons in Hnd as [Ha Hnd]. apply not_elem_of_cons in Ha as [Hab Ha].
    apply not_elem_of_cons in Hh as [Hhb Hh]. apply NoDup_cons in Hnd as [Hb Hnd].
    destruct l2 as [|y l2]; simpl in *.
    + by rewrite !upd_eq.
    + rewrite !upd_eq. split; [done|]. split; [done|]. destruct Hl as (E1&E2&Hl).
      apply (links_ext nx pv); [done| |].
      * intros z Hz. apply upd_ne. intros ->. done.
      * intros z Hz. apply upd_ne. intros ->. apply elem_of_cons in Hz as [->|Hz]; [by apply Hh, list_elem_of_here|].
        by apply NoDup_cons in Hnd as [? _].
  - simpl in *. destruct Hl as (En&Ep&Hl). apply NoDup_cons in Hnd as [Ha Hnd].
    apply not_elem_of_cons in Hh as [Hhx Hh]. specialize (IH x Hnd Hh Hl).
    destruct (links_at nx pv x l1 b l2 Hl) as [Epb Hb].
    assert (Hpb : pv b ∈ x :: l1) by (rewrite Epb; apply lastd_in).
    assert (Hnb : nx b = HEAD \/ nx b ∈ l2). { rewrite (links_nx _ _ _ _ Hb). destruct l2; [by left|right; apply list_elem_of_here]. }
    split; [|split; [|done]].
    + rewrite upd_ne; [done|]. intros ->. apply Ha. apply elem_of_cons in Hpb as [->|Hpb]; [apply list_elem_of_here|].
      apply list_elem_of_further, elem_of_app. by left.
    + rewrite upd_ne; [done|]. intros ->. destruct Hnb as [E|Hin]; [by apply Hhx|].
      apply NoDup_cons in Hnd as [Hx _]. apply Hx, elem_of_app. right. by apply list_elem_of_further.
Qed.

(** Putting [b] first: [b->next = head.next; b->prev = &head; head.next->prev = b; head.next = b]. *)
Lemma links_push nx pv l b :
  NoDup l -> b <> HEAD -> HEAD ∉ l -> b ∉ l -> links nx pv HEAD l ->
  links (upd (upd nx b (nx HEAD)) HEAD b) (upd (upd pv b HEAD) (nx HEAD) b) HEAD (b :: l).
Proof.
  intros Hnd Hb Hh Hbl Hl. rewrite (links_nx _ _ _ _ Hl). simpl. rewrite upd_eq. split; [done|].
  assert (Hhb : hd_ l <> b). { destruct l; simpl; [done|]. intros ->. by apply Hbl, list_elem_of_here. }
  rewrite upd_ne by congruence. rewrite upd_eq. split; [done|].
  destruct l as [|y l]; simpl in *.
  - rewrite upd_ne by done. by rewrite !upd_eq.
  - rewrite upd_ne by done. rewrite !upd_eq. split; [done|]. split; [done|]. destruct Hl as (E1&E2&Hl).
    apply NoDup_cons in Hnd as [Hy Hnd]. apply not_elem_of_cons in Hh as [Hhy Hh]. apply not_elem_of_cons in Hbl as [Hby Hbl].
    apply (links_ext nx pv); [done| |].
    + intros z Hz. assert (z <> HEAD) by (intros ->; apply elem_of_cons in Hz as [?|?]; done).
      assert (z <> b) by (intros ->; apply elem_of_cons in Hz as [?|?]; done). by rewrite !upd_ne.
    + intros z Hz. assert (z <> y) by (intros ->; apply elem_of_cons in Hz as [?|?]; done).
      assert (z <> b) by (intros ->; apply elem_of_cons in Hz as [?|?]; done). by rewrite !upd_ne.
Qed.

(** ** The list of the cache *)

Definition nx (k : kernel) (i : nat) : nat :=
  if decide (i = HEAD) then head_next k else default 0%nat (b_next <$> bufs k !! i).
Definition pv (k : kernel) (i : nat) : nat :=
  if decide (i = HEAD) then head_prev k else default 0%nat (b_prev <$> bufs k !! i).

(** [l] is the order of use, most recent first. *)
Definition lru (k : kernel) (l : list nat) : Prop := l ≡ₚ seq 0 30 /\ links (nx k) (pv k) HEAD l.

Lemma lru_elem k l i : lru k l -> i ∈ l <-> (i < 30)%nat.
Proof. intros [E _]. rewrite E, elem_of_seq. lia. Qed.

Lemma lru_nodup k l : lru k l -> NoDup l.
Proof. intros [E _]. rewrite E. apply NoDup_seq. Qed.

Lemma lru_length k l : lru k l -> length l = 30%nat.
Proof. intros [E _]. by rewrite E, length_seq. Qed.

(** Kernels that differ only outside the list. *)
Lemma lru_ext k k' l : lru k l -> (forall i, nx k' i = nx k i) -> (forall i, pv k' i = pv k i) -> lru k' l.
Proof. intros [E Hl] Hn Hp. split; [done|]. by eapply links_ext. Qed.

(** ** Reading and writing the links *)

Definition kset_nx (i j : nat) (k : kernel) : kernel :=
  if decide (i = HEAD) then k <| head_next := j |> else k <| bufs ::= alter (fun b => b <| b_next := j |>) i |>.
Definition kset_pv (i j : nat) (k : kernel) : kernel :=
  if decide (i = HEAD) then k <| head_prev := j |> else k <| bufs ::= alter (fun b => b <| b_prev := j |>) i |>.

(** A pointer into the list. *)
Definition node (k : kernel) (i : nat) : Prop := i = HEAD \/ (i < length (bufs k))%nat.

Lemma get_next_ok i c k : node k i -> get_next i c k = Done (nx k i) c k.
Proof.
  intros H. unfold get_next, nx. destruct (decide (i = HEAD)) as [->|]; [done|].
  destruct H as [|H]; [done|]. apply lookup_lt_is_Some in H as [b E]. erewrite bind_done by (by apply getbuf_done). by rewrite E.
Qed.
Lemma get_prev_ok i c k : node k i -> get_prev i c k = Done (pv k i) c k.
Proof.
  intros H. unfold get_prev, pv. destruct (decide (i = HEAD)) as [->|]; [done|].
  destruct H as [|H]; [done|]. apply lookup_lt_is_Some in H as [b E]. erewrite bind_done by (by apply getbuf_done). by rewrite E.
Qed.
Lemma set_next_ok i j c k : set_next i j c k = Done tt c (kset_nx i j k).
Proof. unfold set_next, kset_nx. by destruct (decide _). Qed.
Lemma set_prev_ok i j c k : set_prev i j c k = Done tt c (kset_pv i j k).
Proof. unfold set_prev, kset_pv. by destruct (decide _). Qed.

Lemma nx_kset_nx i j k x : node k i -> nx (kset_nx i j k) x = upd (nx k) i j x.
Proof.
  intros H. unfold nx, kset_nx, upd. destruct (decide (i = HEAD)) as [->|Hi].
  - kred. by destruct (decide (x = HEAD)).
  - destruct H as [|H]; [done|]. apply lookup_lt_is_Some in H as [b E]. kred. destruct (decide (x = HEAD)) as [->|].
    + by rewrite decide_False.
    + destruct (decide (x = i)) as [->|]; [by rewrite list_lookup_alter_eq, E|by rewrite list_lookup_alter_ne].
Qed.
Lemma pv_kset_pv i j k x : node k i -> pv (kset_pv i j k) x = upd (pv k) i j x.
Proof.
  intros H. unfold pv, kset_pv, upd. destruct (decide (i = HEAD)) as [->|Hi].
  - kred. by destruct (decide (x = HEAD)).
  - destruct H as [|H]; [done|]. apply lookup_lt_is_Some in H as [b E]. kred. destruct (decide (x = HEAD)) as [->|].
    + by rewrite decide_False.
    + destruct (decide (x = i)) as [->|]; [by rewrite list_lookup_alter_eq, E|by rewrite list_lookup_alter_ne].
Qed.

(** An update of the buffers that keeps the links. *)
Lemma nx_alter f b k x : (forall bf, b_next (f bf) = b_next bf) -> nx (k <| bufs ::= alter f b |>) x = nx k x.
Proof.
  intros E. unfold nx. kred. destruct (decide _); [done|]. destruct (decide (b = x)) as [->|]; [|by rewrite list_lookup_alter_ne].
  rewrite list_lookup_alter_eq. destruct (bufs k !! x); simpl; by rewrite ?E.
Qed.
Lemma pv_alter f b k x : (forall bf, b_prev (f bf) = b_prev bf) -> pv (k <| bufs ::= alter f b |>) x = pv k x.
Proof.
  intros E. unfold pv. kred. destruct (decide _); [done|]. destruct (decide (b = x)) as [->|]; [|by rewrite list_lookup_alter_ne].
  rewrite list_lookup_alter_eq. destruct (bufs k !! x); simpl; by rewrite ?E.
Qed.

Lemma pv_kset_nx i j k x : pv (kset_nx i j k) x = pv k x.
Proof. unfold kset_nx. destruct (decide _); [done|]. by apply pv_alter. Qed.
Lemma nx_kset_pv i j k x : nx (kset_pv i j k) x = nx k x.
Proof. unfold kset_pv. destruct (decide _); [done|]. by apply nx_alter. Qed.

(** The kernel without the links. *)
Definition core (b : buf) : buf := b <| b_prev := 0%nat |> <| b_next := 0%nat |>.
Definition linkless (k : kernel) : kernel := k <| bufs ::= fmap core |> <| head_prev := 0%nat |> <| head_next := 0%nat |>.
(** [k'] differs from [k] in the links only. *)
Definition relinked (k k' : kernel) : Prop := linkless k' = linkless k.

Lemma fmap_alter_core f i (bs : list buf) : (forall b, core (f b) = core b) -> core <$> alter f i bs = core <$> bs.
Proof.
  intros E. apply list_eq. intros j. rewrite !list_lookup_fmap. destruct (decide (i = j)) as [<-|].
  - rewrite list_lookup_alter_eq. destruct (bs !! i); simpl; by rewrite ?E.
  - by rewrite list_lookup_alter_ne.
Qed.

Lemma relinked_nx i j k : relinked k (kset_nx i j k).
Proof. unfold relinked, linkless, kset_nx. destruct (decide _); [done|]. kred. by rewrite fmap_alter_core. Qed.
Lemma relinked_pv i j k : relinked k (kset_pv i j k).
Proof. unfold relinked, linkless, kset_pv. destruct (decide _); [done|]. kred. by rewrite fmap_alter_core. Qed.
Lemma relinked_trans k1 k2 k3 : relinked k1 k2 -> relinked k2 k3 -> relinked k1 k3.
Proof. unfold relinked. congruence. Qed.
Lemma relinked_bufs k k' : relinked k k' -> core <$> bufs k' = core <$> bufs k.
Proof. intros E. apply (f_equal bufs) in E. exact E. Qed.
Lemma relinked_length k k' : relinked k k' -> length (bufs k') = length (bufs k).
Proof. intros E%relinked_bufs%(f_equal length). by rewrite !length_fmap in E. Qed.
Lemma relinked_lookup k k' i b : relinked k k' -> bufs k !! i = Some b -> exists b', bufs k' !! i = Some b' /\ core b' = core b.
Proof.
  intros E%relinked_bufs Hb. assert (H : (core <$> bufs k') !! i = Some (core b)) by (rewrite E, list_lookup_fmap, Hb; done).
  rewrite list_lookup_fmap in H. apply fmap_Some in H as (b'&?&?). eauto.
Qed.

(** *** Moving a buffer to the front *)

Definition kunlink (b : nat) (k : kernel) : kernel := kset_nx (pv k b) (nx k b) (kset_pv (nx k b) (pv k b) k).
Definition kpush (b : nat) (k : kernel) : kernel :=
  kset_nx HEAD b (kset_pv (nx k HEAD) b (kset_pv b HEAD (kset_nx b (nx k HEAD) k))).

Lemma relinked_unlink b k : relinked k (kunlink b k).
Proof. eapply relinked_trans; [apply relinked_pv|apply relinked_nx]. Qed.
Lemma relinked_push b k : relinked k (kpush b k).
Proof.
  eapply relinked_trans; [apply relinked_nx|]. eapply relinked_trans; [apply relinked_pv|].
  eapply relinked_trans; [apply relinked_pv|apply relinked_nx].
Qed.

Lemma node_relinked k k' i : relinked k k' -> node k i -> node k' i.
Proof. intros R [->|H]; [by left|right]. by rewrite (relinked_length _ _ R). Qed.

Lemma links_nodes k l : length (bufs k) = 30%nat -> (forall i, i ∈ l -> (i < 30)%nat) -> forall i, i ∈ HEAD :: l -> node k i.
Proof. intros Hn Hl i [->|Hi]%elem_of_cons; [by left|right]. rewrite Hn. auto. Qed.

(** The neighbours of a buffer in the list. *)
Lemma neighbours nxf pvf l1 b l2 :
  NoDup (l1 ++ b :: l2) -> b <> HEAD -> links nxf pvf HEAD (l1 ++ b :: l2) ->
  pvf b ∈ HEAD :: l1 ++ b :: l2 /\ nxf b ∈ HEAD :: l1 ++ b :: l2 /\ nxf b <> b.
Proof.
  intros Hnd Hb Hl. destruct (links_at _ _ _ _ _ _ Hl) as [Epv Hl2]. rewrite Epv, (links_nx _ _ _ _ Hl2). split; [|split].
  - pose proof (lastd_in HEAD l1) as [->|?]%elem_of_cons; [apply list_elem_of_here|].
    apply list_elem_of_further, elem_of_app. by left.
  - destruct l2 as [|y l2]; [apply list_elem_of_here|]. apply list_elem_of_further, elem_of_app. right.
    apply list_elem_of_further, list_elem_of_here.
  - destruct l2 as [|y l2]; simpl; [congruence|]. apply NoDup_app in Hnd as (_&_&Hnd).
    apply NoDup_cons in Hnd as [Hy _]. intros ->. apply Hy, list_elem_of_here.
Qed.

Lemma kunlink_links k l1 b l2 :
  length (bufs k) = 30%nat -> (forall i, i ∈ l1 ++ b :: l2 -> (i < 30)%nat) -> NoDup (l1 ++ b :: l2) ->
  links (nx k) (pv k) HEAD (l1 ++ b :: l2) -> links (nx (kunlink b k)) (pv (kunlink b k)) HEAD (l1 ++ l2).
Proof.
  intros Hn Hr Hnd Hl. assert (Hb : b <> HEAD). { intros ->. specialize (Hr HEAD). rewrite elem_of_app, elem_of_cons in Hr. naive_solver lia. }
  assert (Hh : HEAD ∉ l1 ++ b :: l2) by (intros Hx%Hr; lia).
  destruct (neighbours _ _ _ _ _ Hnd Hb Hl) as (Hpv&Hnx&_). unfold kunlink.
  eapply links_ext; [apply links_remove; [apply NoDup_cons; eauto|done|exact Hl]| |].
  - intros x _. rewrite nx_kset_nx; [|eapply node_relinked; [apply relinked_pv|by eapply links_nodes]].
    apply upd_ext, nx_kset_pv.
  - intros x _. rewrite pv_kset_nx. apply pv_kset_pv. by eapply links_nodes.
Qed.

Lemma kpush_links k b l :
  length (bufs k) = 30%nat -> (forall i, i ∈ b :: l -> (i < 30)%nat) -> NoDup (b :: l) ->
  links (nx k) (pv k) HEAD l -> links (nx (kpush b k)) (pv (kpush b k)) HEAD (b :: l).
Proof.
  intros Hn Hr Hnd Hl. apply NoDup_cons in Hnd as [Hb Hnd].
  assert (Hb30 : (b < 30)%nat) by (apply Hr, list_elem_of_here).
  assert (Hh : HEAD ∉ l) by (intros Hx; specialize (Hr HEAD (list_elem_of_further _ _ _ Hx)); lia).
  assert (Hnode : forall k', relinked k k' -> forall x, x = HEAD \/ x ∈ b :: l -> node k' x).
  { intros k' R x Hx. apply (node_relinked k); [done|]. destruct Hx as [->|Hx%Hr]; [by left|right; lia]. }
  assert (Hh1 : nx k HEAD = HEAD \/ nx k HEAD ∈ b :: l).
  { rewrite (links_nx _ _ _ _ Hl). destruct l; [by left|right; apply list_elem_of_further, list_elem_of_here]. }
  assert (Hbin : b ∈ b :: l) by apply list_elem_of_here.
  unfold kpush. eapply links_ext; [apply links_push; [done|lia|done|done|exact Hl]| |].
  - intros x _. rewrite nx_kset_nx by (by left). apply upd_ext.
    rewrite !nx_kset_pv. apply nx_kset_nx. by apply Hnode; [|right].
  - intros x _. rewrite pv_kset_nx. rewrite pv_kset_pv.
    2: { apply Hnode; [|done]. eapply relinked_trans; [apply relinked_nx|apply relinked_pv]. }
    apply upd_ext.
    rewrite pv_kset_pv by (apply Hnode; [apply relinked_nx|by right]). apply upd_ext, pv_kset_nx.
Qed.

Lemma to_front_done b c k l1 l2 :
  length (bufs k) = 30%nat -> (forall i, i ∈ l1 ++ b :: l2 -> (i < 30)%nat) -> NoDup (l1 ++ b :: l2) ->
  links (nx k) (pv k) HEAD (l1 ++ b :: l2) -> to_front b c k = Done tt c (kpush b (kunlink b k)).
Proof.
  intros Hn Hr Hnd Hl. assert (Hin : b ∈ l1 ++ b :: l2) by (apply elem_of_app; right; apply list_elem_of_here).
  assert (Hb : b <> HEAD) by (apply Hr in Hin; lia).
  destruct (neighbours _ _ _ _ _ Hnd Hb Hl) as (Hpv&Hnx&Hne).
  assert (Hnode : forall k', relinked k k' -> node k' b).
  { intros k' R. apply (node_relinked k); [done|]. right. rewrite Hn. by apply Hr. }
  assert (R0 : relinked k k) by done.
  unfold to_front. erewrite bind_done by (apply get_next_ok; auto). erewrite bind_done by (apply get_prev_ok; auto).
  erewrite bind_done by apply set_prev_ok.
  assert (R1 := relinked_pv (nx k b) (pv k b) k).
  erewrite bind_done by (apply get_next_ok; auto). erewrite bind_done by (apply get_prev_ok; auto).
  rewrite nx_kset_pv, pv_kset_pv, (upd_ne _ _ _ b) by (try congruence; by eapply links_nodes).
  erewrite bind_done by apply set_next_ok. fold (kunlink b k). assert (R2 := relinked_unlink b k).
  erewrite bind_done by (apply get_next_ok; by left). erewrite bind_done by apply set_next_ok.
  erewrite bind_done by apply set_prev_ok. erewrite bind_done by (apply get_next_ok; by left).
  rewrite nx_kset_pv, nx_kset_nx, upd_ne by auto.
  erewrite bind_done by apply set_prev_ok. apply set_next_ok.
Qed.

Lemma to_front_ok b c k l :
  length (bufs k) = 30%nat -> (b < 30)%nat -> lru k l ->
  exists k' l1 l2, to_front b c k = Done tt c k' /\ relinked k k' /\ l = l1 ++ b :: l2 /\ lru k' (b :: l1 ++ l2).
Proof.
  intros Hn Hb Hl. destruct (list_elem_of_split l b) as (l1&l2&->); [by apply (lru_elem k l)|].
  pose proof (lru_nodup _ _ Hl) as Hnd. pose proof (fun i => proj1 (lru_elem k _ i Hl)) as Hr. destruct Hl as [Hperm Hl].
  exists (kpush b (kunlink b k)), l1, l2. split; [by eapply to_front_done|]. split.
  { eapply relinked_trans; [apply relinked_unlink|apply relinked_push]. }
  split; [done|]. rewrite <- Permutation_middle in Hnd, Hperm. split; [done|]. apply kpush_links; try done.
  - by rewrite (relinked_length _ _ (relinked_unlink b k)).
  - intros i Hi. apply Hr. by rewrite <- Permutation_middle.
  - apply kunlink_links; try done. by rewrite <- Permutation_middle.
Qed.

(** *** The scans of [bget] *)

Definition is_block (k : kernel) (dev blockno : Z) (i : nat) : bool :=
  match bufs k !! i with Some b => (b_dev b =? dev) && (b_blockno b =? blockno) | None => false end.
Definition unused (k : kernel) (i : nat) : bool :=
  match bufs k !! i with Some b => b_refcnt b =? 0 | None => false end.

Lemma bget_find_ok n dev blockno a l c k :
  links (nx k) (pv k) a l -> length (bufs k) = 30%nat -> (forall i, i ∈ l -> (i < 30)%nat) -> (length l < n)%nat ->
  bget_find n (nx k a) dev blockno c k = Done (List.find (is_block k dev blockno) l) c k.
Proof.
  revert n a. induction l as [|b l IH]; intros n a Hl Hn Hr Hlt; (destruct n as [|n]; [simpl in Hlt; lia|]).
  - destruct Hl as [-> _]. done.
  - destruct Hl as (->&_&Hl). cbn [bget_find List.find].
    assert (Hb : (b < 30)%nat) by (apply Hr, list_elem_of_here). rewrite decide_False by lia.
    destruct (lookup_lt_is_Some_2 (bufs k) b) as [bf E]; [lia|]. erewrite bind_done by (by apply getbuf_done).
    unfold is_block at 1. rewrite E. destruct (_ && _); [done|].
    replace (b_next bf) with (nx k b) by (unfold nx; rewrite decide_False, E by lia; done).
    apply IH; try done; [|simpl in Hlt; lia]. intros i Hi. apply Hr. by apply list_elem_of_further.
Qed.

Lemma links_last nxf pvf a l : links nxf pvf a l -> pvf HEAD = lastd a l.
Proof. revert a. induction l as [|b l IH]; intros a; simpl; [tauto|]. intros (_&_&?). by apply IH. Qed.

Lemma lastd_snoc a l b : lastd a (l ++ [b]) = b.
Proof. revert a. induction l as [|x l IH]; intros a; [done|apply IH]. Qed.

Lemma bget_recycle_ok n l1 l2 c k :
  links (nx k) (pv k) HEAD (l1 ++ l2) -> length (bufs k) = 30%nat -> (forall i, i ∈ l1 -> (i < 30)%nat) -> (length l1 < n)%nat ->
  bget_recycle n (lastd HEAD l1) c k = Done (List.find (unused k) (rev l1)) c k.
Proof.
  revert n l2. induction l1 as [|b l1 IH] using rev_ind; intros n l2 Hl Hn Hr Hlt; (destruct n as [|n]; [simpl in Hlt; lia|]).
  - done.
  - rewrite lastd_snoc, rev_app_distr. cbn [bget_recycle List.find rev app].
    assert (Hb : (b < 30)%nat) by (apply Hr, elem_of_app; right; apply list_elem_of_here). rewrite decide_False by lia.
    destruct (lookup_lt_is_Some_2 (bufs k) b) as [bf E]; [lia|]. erewrite bind_done by (by apply getbuf_done).
    unfold unused at 1. rewrite E. destruct (_ =? _); [done|].
    rewrite <- app_assoc in Hl. destruct (links_at _ _ _ _ _ _ Hl) as [Ep _].
    replace (b_prev bf) with (pv k b) by (unfold pv; rewrite decide_False, E by lia; done). rewrite Ep.
    apply (IH n (b :: l2)); try done; [|rewrite length_app in Hlt; simpl in Hlt; lia]. intros i Hi. apply Hr, elem_of_app. by left.
Qed.

(** ** The invariant *)

(** A block of a device is in one buffer only. *)
Definition distinct (bs : list buf) : Prop :=
  forall i j bi bj, bs !! i = Some bi -> bs !! j = Some bj -> b_dev bi = b_dev bj -> b_blockno bi = b_blockno bj ->
    b_dev bi <> 0 -> i = j.

Record bcache_ok (k : kernel) : Prop := {
  bc_len : length (bufs k) = 30%nat;
  bc_lru : exists l, lru k l;
  bc_distinct : distinct (bufs k);
  bc_ref : forall i b, bufs k !! i = Some b -> 0 <= b_refcnt b < 2 ^ 32
}.

(** An update of one buffer that keeps its links, its block and a sane count. *)
Lemma bcache_alter f b k :
  (forall bf, b_next (f bf) = b_next bf /\ b_prev (f bf) = b_prev bf /\ b_dev (f bf) = b_dev bf /\ b_blockno (f bf) = b_blockno bf) ->
  (forall bf, bufs k !! b = Some bf -> 0 <= b_refcnt (f bf) < 2 ^ 32) ->
  bcache_ok k -> bcache_ok (k <| bufs ::= alter f b |>).
Proof.
  intros Hf Hrf [Hn [l Hl] Hd Hr].
  assert (E : forall i, exists g, (g = f /\ b = i \/ g = id) /\ alter f b (bufs k) !! i = g <$> bufs k !! i).
  { intros i. destruct (decide (b = i)) as [<-|]; [exists f; rewrite list_lookup_alter_eq; auto|].
    exists id. rewrite list_lookup_alter_ne by done. split; [by right|]. by destruct (bufs k !! i). }
  split.
  - kred. by rewrite length_alter.
  - exists l. eapply lru_ext; [exact Hl| |]; intros; [apply nx_alter|apply pv_alter]; apply Hf.
  - intros i j bi bj. kred. destruct (E i) as (g&Hg&->), (E j) as (g'&Hg'&->).
    intros (xi&Ei&->)%fmap_Some (xj&Ej&->)%fmap_Some.
    assert (Hx : forall h i bf, h = f /\ b = i \/ h = id -> b_dev (h bf) = b_dev bf /\ b_blockno (h bf) = b_blockno bf) by (intros h ? bf [[-> _] | ->]; [apply Hf|done]).
    destruct (Hx g i xi Hg) as [-> ->], (Hx g' j xj Hg') as [-> ->]. by apply Hd.
  - intros i bi. kred. destruct (E i) as (g&Hg&->). intros (xi&Ei&->)%fmap_Some.
    destruct Hg as [[-> <-] | ->]; [|by apply (Hr i)]. by apply Hrf.
Qed.

Lemma bcache_relinked k k' l : bcache_ok k -> relinked k k' -> lru k' l -> bcache_ok k'.
Proof.
  intros [Hn _ Hd Hr] R Hl. pose proof (relinked_bufs _ _ R) as E.
  assert (Hc : forall i b, bufs k' !! i = Some b -> exists b0, bufs k !! i = Some b0 /\ core b0 = core b).
  { intros i b Hb. apply (relinked_lookup k' k); [by symmetry|done]. }
  assert (Hf : forall b0 b, core b0 = core b -> b_dev b0 = b_dev b /\ b_blockno b0 = b_blockno b /\ b_refcnt b0 = b_refcnt b).
  { intros b0 b Hb. by apply (f_equal b_dev) in Hb as ?; apply (f_equal b_blockno) in Hb as ?; apply (f_equal b_refcnt) in Hb as ?. }
  split.
  - by rewrite (relinked_length _ _ R).
  - eauto.
  - intros i j bi bj Hi Hj Hdev Hbno H0. destruct (Hc i bi Hi) as (ci&Hci&Ei), (Hc j bj Hj) as (cj&Hcj&Ej).
    destruct (Hf _ _ Ei) as (?&?&?), (Hf _ _ Ej) as (?&?&?). eapply Hd; eauto; congruence.
  - intros i b Hb. destruct (Hc i b Hb) as (c0&Hc0&Ec). destruct (Hf _ _ Ec) as (_&_&<-). by apply (Hr i).
Qed.

(** Other parts of the kernel do not matter. *)
Lemma bcache_other k k' :
  bufs k' = bufs k -> head_next k' = head_next k -> head_prev k' = head_prev k -> bcache_ok k -> bcache_ok k'.
Proof.
  intros Eb En Ep [Hn [l Hl] Hd Hr]. split; rewrite ?Eb; try done. exists l. eapply lru_ext; [exact Hl| |]; intros; unfold nx, pv; by rewrite ?Eb, ?En, ?Ep.
Qed.

(** What [bget] finds: the buffer of the block, or the least recently released
    unreferenced buffer. *)
Lemma find_block k l dev blockno :
  bcache_ok k -> lru k l -> dev <> 0 ->
  (forall i bf, bufs k !! i = Some bf -> b_dev bf = dev -> b_blockno bf = blockno -> List.find (is_block k dev blockno) l = Some i) /\
  (forall i, List.find (is_block k dev blockno) l = Some i -> exists bf, bufs k !! i = Some bf /\ b_dev bf = dev /\ b_blockno bf = blockno).
Proof.
  intros Hk Hl Hd.
  assert (Hs : forall i, List.find (is_block k dev blockno) l = Some i -> exists bf, bufs k !! i = Some bf /\ b_dev bf = dev /\ b_blockno bf = blockno).
  { intros i [_ E]%find_some. unfold is_block in E. destruct (bufs k !! i) as [bf|] eqn:Eb; [|done].
    apply andb_true_iff in E as [?%Z.eqb_eq ?%Z.eqb_eq]. eauto. }
  split; [|done]. intros i bf Hi Hdev Hbno. destruct (List.find _ l) as [j|] eqn:E.
  - destruct (Hs j eq_refl) as (bj&Hj&?&?). f_equal. eapply (bc_distinct _ Hk); eauto; congruence.
  - exfalso. assert (Hin : In i l). { apply list_elem_of_In, (lru_elem k l); [done|]. apply lookup_lt_Some in Hi. by rewrite (bc_len _ Hk) in Hi. }
    apply (find_none _ _ E) in Hin. unfold is_block in Hin. rewrite Hi, Hdev, Hbno, !Z.eqb_refl in Hin. done.
Qed.

Lemma bget_scans dev blockno c k l :
  bcache_ok k -> lru k l ->
  get_next HEAD c k = Done (nx k HEAD) c k /\
  bget_find 31 (nx k HEAD) dev blockno c k = Done (List.find (is_block k dev blockno) l) c k /\
  get_prev HEAD c k = Done (pv k HEAD) c k /\
  bget_recycle 31 (pv k HEAD) c k = Done (List.find (unused k) (rev l)) c k.
Proof.
  intros Hk Hl. pose proof (lru_length _ _ Hl) as Hlen. pose proof (fun i => proj1 (lru_elem k l i Hl)) as Hr. destruct Hl as [Hp Hl].
  split; [apply get_next_ok; by left|]. split; [apply bget_find_ok; try done; [apply (bc_len _ Hk)|lia]|].
  split; [apply get_prev_ok; by left|]. rewrite (links_last _ _ _ _ Hl). apply (bget_recycle_ok _ l []); [by rewrite app_nil_r|apply (bc_len _ Hk)|done|lia].
Qed.

(** ** Every operation preserves the invariant *)

Definition recycled (dev blockno : Z) (bf : buf) : buf :=
  bf <| b_dev := dev |> <| b_blockno := blockno |> <| b_valid := false |> <| b_refcnt := 1 |>.

Lemma bcache_recycle k l b dev blockno :
  bcache_ok k -> lru k l -> List.find (is_block k dev blockno) l = None -> bcache_ok (k <| bufs ::= alter (recycled dev blockno) b |>).
Proof.
  intros [Hn Hl' Hd Hr] Hl Hf.
  assert (Hno : forall i bf, bufs k !! i = Some bf -> b_dev bf = dev -> b_blockno bf = blockno -> False).
  { intros i bf Hi Hdev Hbno. assert (Hin : In i l). { apply list_elem_of_In, (lru_elem k l); [done|]. apply lookup_lt_Some in Hi. by rewrite Hn in Hi. }
    apply (find_none _ _ Hf) in Hin. unfold is_block in Hin. rewrite Hi, Hdev, Hbno, !Z.eqb_refl in Hin. done. }
  split.
  - kred. by rewrite length_alter.
  - exists l. eapply lru_ext; [exact Hl| |]; intros; [by apply nx_alter|by apply pv_alter].
  - intros i j bi bj. kred. destruct (decide (b = i)) as [<-|Hi], (decide (b = j)) as [<-|Hj]; try done.
    + rewrite list_lookup_alter_eq, list_lookup_alter_ne by done. intros (x&Hx&->)%fmap_Some Hbj. cbn. intros. exfalso. by apply (Hno j bj).
    + rewrite list_lookup_alter_eq, list_lookup_alter_ne by done. intros Hbi (x&Hx&->)%fmap_Some. cbn. intros. exfalso. by apply (Hno i bi).
    + rewrite !list_lookup_alter_ne by done. apply Hd.
  - intros i bi. kred. destruct (decide (b = i)) as [<-|Hi].
    + rewrite list_lookup_alter_eq. intros (x&Hx&->)%fmap_Some. cbn. lia.
    + rewrite list_lookup_alter_ne by done. apply Hr.
Qed.

#[export] Instance bcache_stable i : StableFor bcache_ok (SBuf i).
Proof.
  split.
  - intros k ps. by apply bcache_other.
  - intros k f H. apply bcache_alter; [done| |done]. intros bf Hb. exact (bc_ref _ H i bf Hb).
Qed.

(** The operations of [bio.c], with their arguments. *)
Inductive bio_op :=
  | OGet (dev blockno : Z) | ORead (dev blockno : Z) | OWrite (b : nat) | ORelse (b : nat) | OPin (b : nat) | OUnpin (b : nat).

(** The device number 0 is that of a buffer never used. *)
Definition op_ok (op : bio_op) : Prop := match op with OGet dev _ | ORead dev _ => dev <> 0 | _ => True end.

(** The panics of [bio.c]. *)
Definition bio_panic (msg : string) : Prop := msg = "bget: no buffers" \/ msg = "bwrite" \/ msg = "brelse".

Section Preserve.
Context `{Fuel} `{BlockDevice}.

Definition bio_run (op : bio_op) : M unit :=
  match op with
  | OGet dev blockno => bget dev blockno ;; ret tt
  | ORead dev blockno => bread dev blockno ;; ret tt
  | OWrite b => bwrite b
  | ORelse b => brelse b
  | OPin b => bpin b
  | OUnpin b => bunpin b
  end.

(** What every operation keeps: the invariant, no spinlock held, the process. *)
Definition kept {A} (i : nat) (_ : A) (c : cpu) (k : kernel) : Prop := bcache_ok k /\ held c = [] /\ cpu_proc c = Some i.

Lemma bget_safe dev blockno i c k :
  kept i tt c k -> dev <> 0 -> safe bcache_ok bio_panic (kept i) (bget dev blockno c k).
Proof.
  intros (Hk&Hh&Hi) Hd. destruct (bc_lru _ Hk) as [l Hl]. unfold bget.
  erewrite bind_done by (apply acquire_ok; rewrite Hh; apply not_elem_of_nil). rewrite Hh.
  destruct (bget_scans dev blockno (c <| held := [LBcache] |>) k l Hk Hl) as (E1&E2&E3&E4).
  erewrite bind_done by exact E1. erewrite bind_done by exact E2.
  destruct (List.find (is_block k dev blockno) l) as [b|] eqn:Ef.
  - erewrite bind_done by done. erewrite bind_done by (apply release_done, list_elem_of_here). kred. cbn [filter list_filter]. rewrite decide_False by tauto.
    eapply safe_bind.
    + apply (acquiresleep_safe bcache_ok _ i); [|exact Hi|done]. apply bcache_alter; [done| |done]. intros bf _. apply u32_range.
    + intros _ c' k' (?&?&?). done.
  - erewrite bind_done by exact E3. erewrite bind_done by exact E4.
    destruct (List.find (unused k) (rev l)) as [b|]; [|by left].
    do 4 (erewrite bind_done by done). kred. rewrite !lalter_lalter.
    erewrite bind_done by (apply release_done, list_elem_of_here). kred. cbn [filter list_filter]. rewrite decide_False by tauto.
    eapply safe_bind.
    + apply (acquiresleep_safe bcache_ok _ i); [|exact Hi|done]. by apply (bcache_recycle k l b dev blockno).
    + intros _ c' k' (?&?&?). done.
Qed.

Lemma getbuf_safe {B} (I : kernel -> Prop) E (Q : B -> cpu -> kernel -> Prop) b (f : buf -> M B) c k :
  (forall bf, bufs k !! b = Some bf -> safe I E Q (f bf c k)) -> safe I E Q (bind (getbuf b) f c k).
Proof.
  intros Hf. destruct (bufs k !! b) as [bf|] eqn:E1; [erewrite bind_done by (by apply getbuf_done); auto|].
  unfold bind, getbuf, gets, bind, deref. cbn. by rewrite E1.
Qed.

Lemma transfer_ok b write bf k : bcache_ok k -> bcache_ok (transfer b write bf k).
Proof.
  intros Hk. unfold transfer. destruct write; [by apply (bcache_other k)|].
  apply bcache_alter; [done| |by apply (bcache_other k)]. intros x Hx. exact (bc_ref _ Hk b x Hx).
Qed.

Lemma bread_safe dev blockno i c k :
  kept i tt c k -> dev <> 0 -> safe bcache_ok bio_panic (kept i) (bread dev blockno c k).
Proof.
  intros Hk Hd. unfold bread. eapply safe_bind; [by apply (bget_safe _ _ i)|]. intros b c' k' (Hk'&Hh'&Hi').
  apply getbuf_safe. intros bf Hb. destruct (b_valid bf).
  - by erewrite bind_done by done.
  - erewrite bind_done; [|erewrite bind_done; [reflexivity|apply virtio_disk_rw_ok; [done|by rewrite Hi'|done]]].
    change (kept i b c' ((transfer b false bf k') <| bufs ::= alter (fun bf => bf <| b_valid := true |>) b |>)).
    split; [|done]. apply bcache_alter; [done| |by apply transfer_ok]. intros x Hx. exact (bc_ref _ (transfer_ok b false bf k' Hk') b x Hx).
Qed.

Lemma holdingsleep_safe s i (Q : bool -> cpu -> kernel -> Prop) E c k :
  held c = [] -> cpu_proc c = Some i -> (forall r, (r = true -> is_Some (sl_of s k)) -> Q r c k) ->
  safe bcache_ok E Q (holdingsleep s c k).
Proof.
  intros Hh Hi HQ. assert (Hs : sl_spin s ∉ held c) by (rewrite Hh; apply not_elem_of_nil).
  destruct (sl_of s k) as [l|] eqn:El; [destruct (procs k !! i) as [p|] eqn:Ep|].
  - rewrite (holdingsleep_ok s l i p) by done. apply HQ. eauto.
  - unfold holdingsleep. erewrite bind_done by (by apply acquire_ok). erewrite bind_done by (by apply getsl_done). destruct (sl_locked l).
    + erewrite bind_stuck; [done|]. erewrite bind_done by (by apply curproc_done). by erewrite bind_stuck by (by apply getproc_none).
    + erewrite bind_done by done. erewrite bind_done by (by apply release_ok). by apply HQ.
  - unfold holdingsleep. erewrite bind_done by (by apply acquire_ok). erewrite bind_stuck; [done|].
    destruct s; simpl in El; apply fmap_None in El; unfold getsl, bind, getbuf, getinode, gets, bind, deref; cbn; by rewrite El.
Qed.
Lemma wakeup_safe I E i ch (Q : unit -> cpu -> kernel -> Prop) c k :
  procs_unlocked c -> cpu_proc c = Some i ->
  (forall ps, Q tt c (k <| procs := ps |>)) -> safe I E Q (wakeup ch c k).
Proof.
  intros Hu Hi HQ. unfold wakeup. assert (Hg : forall n j k, (forall ps, Q tt c (k <| procs := ps |>)) -> safe I E Q (wakeup_loop n j ch c k)).
  { clear k HQ. induction n as [|n IH]; intros j k HQ; cbn [wakeup_loop].
    - cbn. specialize (HQ (procs k)). by destruct k.
    - unfold myproc, mycpu. erewrite bind_done by done.
      destruct (decide (cpu_proc c = Some j)) as [|Hne]; [erewrite bind_done by done; by apply IH|].
      destruct (procs k !! j) as [p|] eqn:Ep.
      + eapply safe_bind with (Q := fun _ c' k' => c' = c /\ exists ps, k' = k <| procs := ps |>).
        * erewrite bind_done by (by apply acquire_ok). erewrite bind_done by (by apply getproc_done).
          destruct (_ && _); cbn [when]; (erewrite bind_done by done); rewrite release_ok by done; cbn; (split; [done|]); eexists; [done|].
          instantiate (1 := procs k). by destruct k.
        * intros _ c' k' [-> [ps ->]]. apply IH. intros ps'. apply (HQ ps').
      + erewrite bind_stuck; [done|]. erewrite bind_done by (by apply acquire_ok). by erewrite bind_stuck by (by apply getproc_none). }
  by apply Hg.
Qed.

Lemma releasesleep_safe E b i c k :
  kept i tt c k -> safe bcache_ok E (kept i) (releasesleep (SBuf b) c k).
Proof.
  intros (Hk&Hh&Hi). unfold releasesleep.
  erewrite bind_done by (apply acquire_ok; rewrite Hh; apply not_elem_of_nil). rewrite Hh.
  erewrite bind_done by apply modsl_done. erewrite bind_done by apply modsl_done. rewrite upd_sl_upd.
  eapply safe_bind with (Q := fun _ c' k' => c' = c <| held := [LSleepBuf b] |> /\ bcache_ok k').
  - apply (wakeup_safe _ _ i); [|done|].
    + intros j. kred. by intros ?%list_elem_of_singleton.
    + intros ps. split; [done|]. by apply (@stable_procs _ (SBuf b) _), stable_lock.
  - intros _ c' k' [-> Hk']. rewrite release_done by apply list_elem_of_here. cbn. by rewrite decide_False by tauto.
Qed.

Lemma brelse_safe b i c k : kept i tt c k -> safe bcache_ok bio_panic (kept i) (brelse b c k).
Proof.
  intros Hk. unfold brelse. pose proof Hk as (_&Hh&Hi).
  eapply safe_bind with (Q := fun _ c' k' => c' = c /\ k' = k); [by apply (holdingsleep_safe _ i)|].
  intros r _ _ [-> ->]. destruct r; cbn [negb]; [|by right; right].
  eapply safe_bind; [by apply releasesleep_safe|]. clear c k Hk Hh Hi. intros _ c k (Hk&Hh&Hi).
  erewrite bind_done by (apply acquire_ok; rewrite Hh; apply not_elem_of_nil). rewrite Hh. erewrite bind_done by done.
  set (k1 := k <| bufs ::= _ |>). assert (Hk1 : bcache_ok k1) by (apply bcache_alter; [done|intros; apply u32_range|done]).
  apply getbuf_safe. intros bf Hb. assert (Hlt : (b < 30)%nat) by (apply lookup_lt_Some in Hb; by rewrite (bc_len _ Hk1) in Hb).
  destruct (bc_lru _ Hk1) as [l Hl]. destruct (_ =? 0).
  - destruct (to_front_ok b (c <| held := [LBcache] |>) k1 l (bc_len _ Hk1) Hlt Hl) as (k2&l1&l2&E&R&_&Hl2).
    erewrite bind_done by exact E. rewrite release_done by apply list_elem_of_here. cbn. rewrite decide_False by tauto.
    split; [by eapply bcache_relinked|done].
  - erewrite bind_done by done. rewrite release_done by apply list_elem_of_here. cbn. by rewrite decide_False by tauto.
Qed.

Lemma bpin_safe b f i c k :
  kept i tt c k -> safe bcache_ok bio_panic (kept i)
    ((acquire LBcache ;; modbuf b (fun bf => bf <| b_refcnt ::= fun n => u32 (f n) |>) ;; release LBcache) c k).
Proof.
  intros (Hk&Hh&Hi). erewrite bind_done by (apply acquire_ok; rewrite Hh; apply not_elem_of_nil). rewrite Hh. erewrite bind_done by done.
  rewrite release_done by apply list_elem_of_here. change (held (c <| held := [LBcache] |>)) with [LBcache].
  cbn [safe filter list_filter]. rewrite decide_False by tauto. split; [|done].
  apply (bcache_alter (fun bf => bf <| b_refcnt ::= fun n => u32 (f n) |>) b k); [done|intros; apply u32_range|done].
Qed.

(** C20. The buffer cache keeps its invariant: its links form one list of all 30 buffers, and no
    block of a device is in two buffers.  Every operation of [bio.c] preserves it up to each point
    where it sleeps, whatever the other processes do there that preserves it, until it returns;
    the only panics are its own three. *)
Theorem bcache_invariant op i c k :
  bcache_ok k -> op_ok op -> held c = [] -> cpu_proc c = Some i ->
  safe bcache_ok bio_panic (fun _ c' k' => bcache_ok k' /\ held c' = [] /\ cpu_proc c' = Some i) (bio_run op c k).
Proof.
  intros Hk Hop Hh Hi. assert (Hkept : kept i tt c k) by done. destruct op; simpl in *.
  - eapply safe_bind; [by apply (bget_safe _ _ i)|]. by intros.
  - eapply safe_bind; [by apply (bread_safe _ _ i)|]. by intros.
  - unfold bwrite. eapply safe_bind with (Q := fun r c' k' => (r = true -> is_Some (sl_of (SBuf b) k)) /\ c' = c /\ k' = k).
    { by apply (holdingsleep_safe _ i). }
    intros r _ _ (Hr&->&->). destruct r; cbn [negb]; [|by right; left].
    destruct (Hr eq_refl) as [x Hx]. apply fmap_Some in Hx as (bf&Hb&_).
    rewrite (virtio_disk_rw_ok b true bf) by (rewrite ?Hi; done). split; [by apply transfer_ok|done].
  - by apply brelse_safe.
  - by apply (bpin_safe b (fun n => n + 1)).
  - by apply (bpin_safe b (fun n => n - 1)).
Qed.

End Preserve.
