(* ===== verification/Log.v ===== *)
(** * The log: [log.c]

    [log] holds [struct log]; the header block on disk is [struct logheader] in
    little-endian order: [n], then 30 block numbers. *)

From S2P Require Import Prelude Riscv CString Kernel Printf Sched Sleeplock Bio.
From stdpp Require Import base numbers strings gmap list.
From Stdlib Require Import ZArith Lia.

#[local] Open Scope Z_scope.
#[local] Open Scope kernel_scope.

Definition modlog (f : log_t -> log_t) : M unit := modify (fun k => k <| log ::= f |>).

(** [log.lh.block[i]]; [block] has LOGBLOCKS elements. *)
Definition get_block (i : Z) : M Z := lg <- gets log ;; deref (l_block lg !! Z.to_nat i).
Definition set_block (i v : Z) : M unit :=
  lg <- gets log ;;
  if bool_decide (0 <= i < Z.of_nat (length (l_block lg)))
  then modlog (fun lg => lg <| l_block ::= fun l => setz l i (i32 v) |>)
  else stuck "log.lh.block".

(** Fields of [struct logheader] in a block: [lh->n] and [lh->block[i]]. *)
Definition lh_n (data : list Z) : Z := i32 (lget 4 data 0).
Definition lh_block (data : list Z) (i : Z) : Z := i32 (lget 4 data (4 + 4 * i)).
Definition put_n (n : Z) (data : list Z) : list Z := splice data 0 (le_bytes 4 n).
Definition put_block (i v : Z) (data : list Z) : list Z := splice data (4 + 4 * i) (le_bytes 4 v).

(** [b->data] of buffer [b], and a store to it. *)
Definition bdata (b : nat) : M (list Z) := bf <- getbuf b ;; ret (b_data bf).
Definition moddata (b : nat) (f : list Z -> list Z) : M unit := modbuf b (fun bf => bf <| b_data ::= f |>).

Section Operations.
Context `{Fuel} `{BlockDevice}.

(** [for (tail = 0; tail < log.lh.n; tail++)], [n] iterations left. *)
Fixpoint install_trans_loop (n : nat) (tail : Z) (recovering : bool) : M unit :=
  match n with
  | O => ret tt
  | S n =>
      lg <- gets log ;;
      (if recovering then
         d <- get_block tail ;;
         printf ("recovering tail %d dst %d" +:+ nl) [VInt tail; VInt d]
       else ret tt) ;;
      lbuf <- bread (u32 (l_dev lg)) (u32 (l_start lg + tail + 1)) ;;
      d <- get_block tail ;;
      dbuf <- bread (u32 (l_dev lg)) (u32 d) ;;
      data <- bdata lbuf ;;
      moddata dbuf (fun _ => data) ;;
      bwrite dbuf ;;
      (if recovering then ret tt else bunpin dbuf) ;;
      brelse lbuf ;;
      brelse dbuf ;;
      install_trans_loop n (tail + 1) recovering
  end.

Definition install_trans (recovering : bool) : M unit :=
  lg <- gets log ;;
  install_trans_loop (Z.to_nat (l_n lg)) 0 recovering.

Fixpoint read_head_loop (n : nat) (i : Z) (b : nat) : M unit :=
  match n with
  | O => ret tt
  | S n =>
      data <- bdata b ;;
      set_block i (lh_block data i) ;;
      read_head_loop n (i + 1) b
  end.

Definition read_head : M unit :=
  lg <- gets log ;;
  b <- bread (u32 (l_dev lg)) (u32 (l_start lg)) ;;
  data <- bdata b ;;
  modlog (fun lg => lg <| l_n := lh_n data |>) ;;
  read_head_loop (Z.to_nat (lh_n data)) 0 b ;;
  brelse b.

Fixpoint write_head_loop (n : nat) (i : Z) (b : nat) : M unit :=
  match n with
  | O => ret tt
  | S n =>
      d <- get_block i ;;
      moddata b (put_block i d) ;;
      write_head_loop n (i + 1) b
  end.

Definition write_head : M unit :=
  lg <- gets log ;;
  b <- bread (u32 (l_dev lg)) (u32 (l_start lg)) ;;
  moddata b (put_n (l_n lg)) ;;
  write_head_loop (Z.to_nat (l_n lg)) 0 b ;;
  bwrite b ;;
  brelse b.

Definition recover_from_log : M unit :=
  read_head ;;
  install_trans true ;;
  modlog (fun lg => lg <| l_n := 0 |>) ;;
  write_head.

(** [sizeof(struct logheader)] is 124, so the first test never panics. *)
Definition initlog (dev : Z) : M unit :=
  (if 4 * (1 + LOGBLOCKS) >=? BSIZE then panic "initlog: too big logheader" else ret tt) ;;
  initlock LLog ;;
  s <- gets sb ;;
  modlog (fun lg => lg <| l_start := i32 (sb_logstart s) |>) ;;
  modlog (fun lg => lg <| l_dev := dev |>) ;;
  recover_from_log.

(** [while(1)] of [begin_op]. *)
Fixpoint begin_op_loop (n : nat) : M unit :=
  match n with
  | O => stuck "begin_op"
  | S n =>
      lg <- gets log ;;
      if l_committing lg then
        sleep CLog LLog ;;
        begin_op_loop n
      else if i32 (l_n lg + i32 (i32 (l_outstanding lg + 1) * MAXOPBLOCKS)) >? LOGBLOCKS then
        sleep CLog LLog ;;
        begin_op_loop n
      else
        modlog (fun lg => lg <| l_outstanding ::= fun n => i32 (n + 1) |>) ;;
        release LLog
  end.

Definition begin_op : M unit :=
  acquire LLog ;;
  begin_op_loop (S fuel).

Fixpoint write_log_loop (n : nat) (tail : Z) : M unit :=
  match n with
  | O => ret tt
  | S n =>
      lg <- gets log ;;
      to <- bread (u32 (l_dev lg)) (u32 (l_start lg + tail + 1)) ;;
      d <- get_block tail ;;
      from <- bread (u32 (l_dev lg)) (u32 d) ;;
      data <- bdata from ;;
      moddata to (fun _ => data) ;;
      bwrite to ;;
      brelse from ;;
      brelse to ;;
      write_log_loop n (tail + 1)
  end.

Definition write_log : M unit :=
  lg <- gets log ;;
  write_log_loop (Z.to_nat (l_n lg)) 0.

Definition commit : M unit :=
  lg <- gets log ;;
  if l_n lg >? 0 then
    write_log ;;
    write_head ;;
    install_trans false ;;
    modlog (fun lg => lg <| l_n := 0 |>) ;;
    write_head
  else ret tt.

Definition end_op : M unit :=
  acquire LLog ;;
  modlog (fun lg => lg <| l_outstanding ::= fun n => i32 (n - 1) |>) ;;
  lg <- gets log ;;
  if l_committing lg then panic "log.committing" else
  let do_commit := l_outstanding lg =? 0 in
  (if do_commit then modlog (fun lg => lg <| l_committing := true |>)
   else wakeup CLog) ;;
  release LLog ;;
  if do_commit then
    commit ;;
    acquire LLog ;;
    modlog (fun lg => lg <| l_committing := false |>) ;;
    wakeup CLog ;;
    release LLog
  else ret tt.

(** The index at which the block is, or [n]. *)
Fixpoint absorb_loop (n : nat) (i blockno : Z) : M Z :=
  match n with
  | O => ret i
  | S n =>
      d <- get_block i ;;
      if u32 d =? blockno then ret i else absorb_loop n (i + 1) blockno
  end.

Definition log_write (b : nat) : M unit :=
  acquire LLog ;;
  lg <- gets log ;;
  if l_n lg >=? LOGBLOCKS then panic "too big a transaction" else
  if l_outstanding lg <? 1 then panic "log_write outside of trans" else
  bf <- getbuf b ;;
  i <- absorb_loop (Z.to_nat (l_n lg)) 0 (b_blockno bf) ;;
  set_block i (b_blockno bf) ;;
  (if i =? l_n lg then
     bpin b ;;
     modlog (fun lg => lg <| l_n ::= fun n => i32 (n + 1) |>)
   else ret tt) ;;
  release LLog.

End Operations.
