(* ===== verification/FsView.v ===== *)
(** * Blocks as a file-system operation sees them

    A process that runs a file-system operation and is not interrupted sees,
    through the buffer cache and the log, a disk [B] from block numbers to
    contents.  [fsok] relates the kernel to that view: [H] are the blocks whose
    buffers the process has locked, [P] the blocks the log has pinned, [D] the
    locked blocks changed since they were read.  The lemmas give [bread], [brelse], [log_write] and their relatives in terms of
    it. *)

From S2P Require Import Prelude Riscv CString Fields Kernel Printf Sched Sleeplock Bio Bcache Log.
From stdpp Require Import base numbers strings gmap list.
From Stdlib Require Import ZArith Lia.

#[local] Open Scope Z_scope.
#[local] Open Scope kernel_scope.

(** ** The view *)

Definition block_ok (l : list Z) : Prop := length l = 1024%nat /\ Forall byte_ok l.

Lemma zeros_ok : block_ok (replicate 1024 0).
Proof. split; [done|]. apply Forall_replicate. unfold byte_ok. lia. Qed.

Definition mem_in (x : Z) (l : list Z) : Z := if decide (x ∈ l) then 1 else 0.

Record fsok (i : nat) (B : Z -> list Z) (H P D : list Z) (k : kernel) : Prop := {
  fo_cache : bcache_ok k;
  fo_procs : length (procs k) = 64%nat;
  fo_me : (i < 64)%nat;
  fo_held : NoDup H;
  fo_pinned : NoDup P;
  fo_dev : forall j b, bufs k !! j = Some b -> b_dev b = 0 \/ b_dev b = 1;
  fo_ref : forall j b, bufs k !! j = Some b ->
    b_refcnt b = if decide (b_dev b = 1) then mem_in (b_blockno b) H + mem_in (b_blockno b) P else 0;
  fo_lock : forall j b, bufs k !! j = Some b ->
    if decide (b_dev b = 1 /\ b_blockno b ∈ H)
    then exists p, procs k !! i = Some p /\ b_lock b = mksleeplock true (p_pid p)
    else sl_locked (b_lock b) = false;
  fo_here : forall bno, bno ∈ H \/ bno ∈ P -> exists j b, bufs k !! j = Some b /\ b_dev b = 1 /\ b_blockno b = bno /\ b_valid b = true;
  fo_blk : forall j b, bufs k !! j = Some b -> b_dev b = 1 -> b_valid b = true -> b_data b = B (b_blockno b);
  fo_dirty : forall bno, bno ∈ D -> bno ∈ H;
  fo_disk : forall bno, bno ∉ P -> bno ∉ D -> dblk k bno = B bno;
  fo_block : forall bno, block_ok (B bno)
}.

(** Buffer [j] holds block [bno]. *)
Definition at_buf (k : kernel) (j : nat) (bno : Z) : Prop :=
  exists b, bufs k !! j = Some b /\ b_dev b = 1 /\ b_blockno b = bno.

Definition unstate (p : proc) : proc := p <| p_state := UNUSED |>.

(** What the buffer cache leaves alone: everything but the cache, the console
    output, and which processes are asleep. *)
Definition crest (k : kernel) : kernel :=
  k <| bufs := [] |> <| head_prev := 0%nat |> <| head_next := 0%nat |> <| uart := [] |> <| procs ::= fmap unstate |>.
Definition cframe (k k' : kernel) : Prop := crest k' = crest k.

(** What a transaction leaves alone: also the blocks in the log may change. *)
Definition fsrest (k : kernel) : kernel := (crest k) <| log ::= fun l => l <| l_n := 0 |> <| l_block := [] |> |>.
Definition fsframe (k k' : kernel) : Prop := fsrest k' = fsrest k.

(** The same processes, some of them woken. *)
Definition procs_like (k k' : kernel) : Prop := unstate <$> procs k' = unstate <$> procs k.

Lemma cframe_refl k : cframe k k.
Proof. done. Qed.
Lemma cframe_trans k1 k2 k3 : cframe k1 k2 -> cframe k2 k3 -> cframe k1 k3.
Proof. unfold cframe. congruence. Qed.
Lemma cframe_fs k k' : cframe k k' -> fsframe k k'.
Proof. unfold cframe, fsframe, fsrest. by intros ->. Qed.
Lemma fsframe_refl k : fsframe k k.
Proof. done. Qed.
Lemma fsframe_trans k1 k2 k3 : fsframe k1 k2 -> fsframe k2 k3 -> fsframe k1 k3.
Proof. unfold fsframe. congruence. Qed.

Lemma fsframe_procs k k' : fsframe k k' -> procs_like k k'.
Proof. intros E. exact (f_equal procs E). Qed.
Lemma fsframe_dblk k k' x : fsframe k k' -> dblk k' x = dblk k x.
Proof. intros E%(f_equal disk). unfold dblk. f_equal. exact (f_equal (.!! x) E). Qed.
Lemma cframe_log k k' : cframe k k' -> log k' = log k.
Proof. intros E. exact (f_equal log E). Qed.

Lemma cframe_wake ch me k : cframe k (wake ch me k).
Proof.
  unfold cframe, crest, wake. kred. f_equal. apply list_eq. intros j. rewrite !list_lookup_fmap, list_lookup_imap.
  destruct (procs k !! j) as [p|]; [|done]. cbn. unfold woken. by destruct (_ && _).
Qed.

Lemma procs_like_lookup k k' i p : procs_like k k' -> procs k !! i = Some p -> exists p', procs k' !! i = Some p' /\ p_pid p' = p_pid p.
Proof.
  intros E Hp. assert (Hl : (unstate <$> procs k') !! i = Some (unstate p)) by (rewrite E, list_lookup_fmap, Hp; done).
  rewrite list_lookup_fmap in Hl. apply fmap_Some in Hl as (p'&Hp'&Ep). exists p'. split; [done|]. by apply (f_equal p_pid) in Ep.
Qed.

Lemma fsok_perm i B H H' P D k : H ≡ₚ H' -> fsok i B H P D k -> fsok i B H' P D k.
Proof.
  intros E []. assert (Em : forall x, mem_in x H' = mem_in x H) by (intros x; unfold mem_in; by rewrite (decide_ext (x ∈ H') (x ∈ H)) by (by rewrite E)).
  split; try done.
  - by rewrite <- E.
  - intros j b Hb. rewrite Em. by apply (fo_ref0 j).
  - intros j b Hb. specialize (fo_lock0 j b Hb). destruct (decide (b_dev b = 1 /\ b_blockno b ∈ H)) as [Hd|Hd].
    + rewrite decide_True by (by rewrite <- E). done.
    + rewrite decide_False by (by rewrite <- E). done.
  - intros bno. rewrite <- E. apply fo_here0.
  - intros bno. rewrite <- E. apply fo_dirty0.
Qed.

(** The buffer of a held or pinned block. *)
Lemma at_buf_here i B H P D k bno : fsok i B H P D k -> bno ∈ H \/ bno ∈ P -> exists j, at_buf k j bno.
Proof. intros Hf Hb. destruct (fo_here _ _ _ _ _ _ Hf bno Hb) as (j&b&?&?&?&_). exists j, b. done. Qed.

Lemma at_buf_unique k j j' bno : bcache_ok k -> at_buf k j bno -> at_buf k j' bno -> j = j'.
Proof. intros Hk (b&Hb&Hd&Hn) (b'&Hb'&Hd'&Hn'). eapply (bc_distinct _ Hk); eauto; congruence. Qed.

Lemma at_buf_valid i B H P D k j bno :
  fsok i B H P D k -> bno ∈ H \/ bno ∈ P -> at_buf k j bno ->
  exists b, bufs k !! j = Some b /\ b_dev b = 1 /\ b_blockno b = bno /\ b_valid b = true /\ b_data b = B bno.
Proof.
  intros Hf Hb Ha. destruct (fo_here _ _ _ _ _ _ Hf bno Hb) as (j'&b&Hj&Hd&Hn&Hv).
  assert (j = j') as -> by (eapply (at_buf_unique k); [apply Hf|exact Ha|by exists b]).
  exists b. repeat (split; [done|]). rewrite (fo_blk _ _ _ _ _ _ Hf j' b) by done. by rewrite Hn.
Qed.

(** *** One buffer changes *)

(** Buffer [j] becomes [b'], which keeps the place in the list. *)
Lemma bcache_insert k j b b' :
  bcache_ok k -> bufs k !! j = Some b -> b_next b' = b_next b -> b_prev b' = b_prev b -> 0 <= b_refcnt b' < 2 ^ 32 ->
  (forall j' x, bufs k !! j' = Some x -> j' <> j -> b_dev x = b_dev b' -> b_blockno x = b_blockno b' -> b_dev b' = 0) ->
  bcache_ok (k <| bufs := <[j := b']> (bufs k) |>).
Proof.
  intros [Hn [l Hl] Hd Hr] Hj En Ep Hrc Hno. assert (Hlt := lookup_lt_Some _ _ _ Hj).
  assert (El : forall x, <[j := b']> (bufs k) !! x = if decide (x = j) then Some b' else bufs k !! x).
  { intros x. destruct (decide (x = j)) as [->|]; [by rewrite list_lookup_insert_eq|by rewrite list_lookup_insert_ne]. }
  split; kred.
  - by rewrite length_insert.
  - exists l. eapply lru_ext; [exact Hl| |]; intros x; unfold nx, pv; kred; (destruct (decide (x = HEAD)); [done|]); rewrite El;
      destruct (decide (x = j)) as [->|]; rewrite ?Hj; cbn; congruence.
  - intros x y bx by_. rewrite !El. destruct (decide (x = j)) as [->|], (decide (y = j)) as [->|]; try done.
    + intros [= <-] Hy Ed Eb H0. exfalso. eapply H0, (Hno y by_); done.
    + intros Hx [= <-] Ed Eb H0. exfalso. apply H0. rewrite Ed. by eapply (Hno x bx).
    + apply Hd.
  - intros x bx. rewrite El. destruct (decide (x = j)) as [->|]; [by intros [= <-]|apply Hr].
Qed.

(** The view after buffer [j] has become [b'], the buffer of block [bno]: it was
    that already, or it was unreferenced and [bno] was not cached. *)
Lemma fsok_at i B B' H H' P P' D D' k k' j b b' bno :
  fsok i B H P D k -> bufs k !! j = Some b ->
  bufs k' = <[j := b']> (bufs k) -> head_next k' = head_next k -> head_prev k' = head_prev k -> procs_like k k' ->
  (forall x, x <> bno -> dblk k' x = dblk k x) ->
  b_next b' = b_next b -> b_prev b' = b_prev b -> b_dev b' = 1 -> b_blockno b' = bno -> b_valid b' = true ->
  b_data b' = B' bno -> block_ok (B' bno) ->
  (b_dev b = 1 /\ b_blockno b = bno \/
   b_refcnt b = 0 /\ forall j' x, bufs k !! j' = Some x -> b_dev x = 1 -> b_blockno x <> bno) ->
  (forall x, x <> bno -> B' x = B x /\ (x ∈ H' <-> x ∈ H) /\ (x ∈ P' <-> x ∈ P) /\ (x ∈ D' <-> x ∈ D)) -> NoDup H' -> NoDup P' ->
  b_refcnt b' = mem_in bno H' + mem_in bno P' ->
  (if decide (bno ∈ H') then exists p, procs k !! i = Some p /\ b_lock b' = mksleeplock true (p_pid p) else sl_locked (b_lock b') = false) ->
  (bno ∈ D' -> bno ∈ H') -> (bno ∉ P' -> bno ∉ D' -> dblk k' bno = B' bno) ->
  fsok i B' H' P' D' k'.
Proof.
  intros Hf Hj Eb En Ep Hfr Edisk En' Ep' Hd Hbn Hv Hda Hok Hold Hother HndH HndP Hrc Hlk Hdh Hdk.
  pose proof (fo_cache _ _ _ _ _ _ Hf) as Hk. assert (Hlt := lookup_lt_Some _ _ _ Hj).
  assert (Huniq : forall j' x, bufs k !! j' = Some x -> j' <> j -> b_dev x = 1 -> b_blockno x <> bno).
  { intros j' x Hx Hne Hdx Hbx. destruct Hold as [[H1 H2]|[_ H2]]; [|by eapply H2]. apply Hne. eapply (bc_distinct _ Hk); eauto; congruence. }
  assert (El : forall x, bufs k' !! x = if decide (x = j) then Some b' else bufs k !! x).
  { intros x. rewrite Eb. destruct (decide (x = j)) as [->|]; [by rewrite list_lookup_insert_eq|by rewrite list_lookup_insert_ne]. }
  assert (Eprocs : length (procs k') = length (procs k)) by (apply (f_equal length) in Hfr; by rewrite !length_fmap in Hfr).
  assert (Hmem : forall x, x <> bno -> mem_in x H' = mem_in x H /\ mem_in x P' = mem_in x P).
  { intros x Hx. destruct (Hother x Hx) as (_&?&?&_). split; unfold mem_in; by apply decide_ext. }
  assert (Hproc : forall p, procs k !! i = Some p -> exists p', procs k' !! i = Some p' /\ p_pid p' = p_pid p) by (intros p; by apply procs_like_lookup).
  split; try done.
  - eapply (bcache_other (k <| bufs := <[j := b']> (bufs k) |>)); [done..|]. apply (bcache_insert k j b b'); try done.
    + rewrite Hrc. unfold mem_in. repeat case_decide; lia.
    + intros j' x Hx Hne Ed Eb'. exfalso. apply (Huniq j' x); congruence.
  - by rewrite Eprocs, (fo_procs _ _ _ _ _ _ Hf).
  - apply Hf.
  - intros x bx. rewrite El. destruct (decide (x = j)); [injection 1 as <-; by right|apply (fo_dev _ _ _ _ _ _ Hf)].
  - intros x bx. rewrite El. destruct (decide (x = j)) as [->|Hx]; [intros [= <-]; by rewrite Hbn, decide_True|].
    intros Hbx. rewrite (fo_ref _ _ _ _ _ _ Hf x bx Hbx). destruct (decide (b_dev bx = 1)) as [Hdx|]; [|done].
    destruct (Hmem (b_blockno bx)) as [-> ->]; [by eapply Huniq|done].
  - intros x bx. rewrite El. destruct (decide (x = j)) as [->|Hx].
    + intros [= <-]. rewrite Hbn, Hd. destruct (decide (bno ∈ H')) as [Hin|Hin].
      * destruct Hlk as (p&Hp&->). destruct (Hproc p Hp) as (p'&?&E'). rewrite decide_True by done. exists p'. by rewrite E'.
      * rewrite decide_False by tauto. done.
    + intros Hbx. pose proof (fo_lock _ _ _ _ _ _ Hf x bx Hbx) as Hlx. destruct (decide (b_dev bx = 1 /\ b_blockno bx ∈ H)) as [[Hdx Hin]|Hn].
      * rewrite decide_True by (split; [done|]; apply Hother; [by eapply Huniq|done]). destruct Hlx as (p&Hp&->).
        destruct (Hproc p Hp) as (p'&?&E'). exists p'. by rewrite E'.
      * destruct (decide (b_dev bx = 1)) as [Hdx|Hdx]; [|by rewrite decide_False by tauto].
        rewrite decide_False; [done|]. intros [_ Hin]. apply Hn. split; [done|]. apply Hother; [by eapply Huniq|done].
  - intros bn Hbn'. destruct (decide (bn = bno)) as [->|Hne]; [exists j, b'; rewrite El, decide_True; done|].
    destruct (fo_here _ _ _ _ _ _ Hf bn) as (x&bx&Hx&Hdx&Hnx&Hvx); [destruct (Hother bn Hne) as (_&?&?&_); tauto|].
    exists x, bx. rewrite El. rewrite decide_False; [done|]. intros ->. assert (bx = b) as -> by congruence.
    destruct Hold as [[_ E]|[E _]]; [congruence|]. rewrite (fo_ref _ _ _ _ _ _ Hf j b Hj), decide_True in E by done. unfold mem_in in E.
    destruct (Hother bn Hne) as (_&?&?&_). rewrite Hnx in E. repeat case_decide; try lia; tauto.
  - intros x bx. rewrite El. destruct (decide (x = j)) as [->|Hx]; [intros [= <-]; by rewrite Hbn|].
    intros Hbx Hdx Hvx. rewrite (fo_blk _ _ _ _ _ _ Hf x bx Hbx Hdx Hvx). symmetry. apply Hother. by eapply Huniq.
  - intros bn Hn. destruct (decide (bn = bno)) as [->|Hne]; [by apply Hdh|].
    destruct (Hother bn Hne) as (_&Hh&_&Hdd). apply Hh, (fo_dirty _ _ _ _ _ _ Hf). tauto.
  - intros bn Hn Hnd. destruct (decide (bn = bno)) as [->|Hne]; [by apply Hdk|].
    destruct (Hother bn Hne) as (->&_&Hp&Hdd). rewrite Edisk by done. apply (fo_disk _ _ _ _ _ _ Hf); tauto.
  - intros bn. destruct (decide (bn = bno)) as [->|Hne]; [done|]. destruct (Hother bn Hne) as (->&_). apply (fo_block _ _ _ _ _ _ Hf).
Qed.

(** With fewer than 30 blocks held and pinned there is an unreferenced buffer. *)
Lemma free_buffer i B H P D k l :
  fsok i B H P D k -> lru k l -> (length H + length P < 30)%nat -> exists j, List.find (unused k) (rev l) = Some j.
Proof.
  intros Hf Hl Hlt. destruct (List.find (unused k) (rev l)) as [j|] eqn:E; [eauto|exfalso].
  pose proof (fo_cache _ _ _ _ _ _ Hf) as Hk.
  assert (Hall : forall j b, bufs k !! j = Some b -> b_dev b = 1 /\ b_blockno b ∈ H ++ P).
  { intros j b Hb. assert (Hin : In j (rev l)).
    { apply in_rev. rewrite rev_involutive. apply list_elem_of_In, (lru_elem k l); [done|]. apply lookup_lt_Some in Hb. by rewrite (bc_len _ Hk) in Hb. }
    apply (find_none _ _ E) in Hin. unfold unused in Hin. rewrite Hb in Hin. apply Z.eqb_neq in Hin.
    rewrite (fo_ref _ _ _ _ _ _ Hf j b Hb) in Hin. destruct (decide (b_dev b = 1)); [|done]. split; [done|]. rewrite elem_of_app. unfold mem_in in Hin.
    repeat case_decide; auto; lia. }
  assert (Hsub : b_blockno <$> bufs k ⊆+ H ++ P).
  { apply NoDup_submseteq.
    - apply NoDup_alt. intros x y n. rewrite !list_lookup_fmap. intros (bx&Hx&Ex)%fmap_Some (by_&Hy&Ey)%fmap_Some.
      destruct (Hall x bx Hx) as [Dx _], (Hall y by_ Hy) as [Dy _]. eapply (bc_distinct _ Hk); eauto; congruence.
    - intros x (b&->&(j&Hj)%list_elem_of_lookup)%list_elem_of_fmap. by apply (Hall j b). }
  apply submseteq_length in Hsub. rewrite length_fmap, length_app, (bc_len _ Hk) in Hsub. lia.
Qed.

Section Runs.
Context `{Fu : Fuel} `{Bd : BlockDevice}.

(** A process that runs with no spinlock held. *)
Definition user (i : nat) (c : cpu) : Prop := cpu_proc c = Some i /\ held c = [].

(** The buffers locked before stay where they are. *)
Definition keep_bufs (bs : list Z) (k k' : kernel) : Prop := forall j bno, bno ∈ bs -> at_buf k j bno -> at_buf k' j bno.

(** After [bget] and the read: the block's buffer [j] with a count more, locked. *)
Lemma take_fs i B H P D k k' j b bno p (rc : Z) :
  fsok i B H P D k -> bno ∉ H -> bufs k !! j = Some b -> procs k !! i = Some p ->
  (b_dev b = 1 /\ b_blockno b = bno \/
   b_refcnt b = 0 /\ forall j' x, bufs k !! j' = Some x -> b_dev x = 1 -> b_blockno x <> bno) ->
  bufs k' = <[j := mkbuf true (b_disk b) 1 bno (mksleeplock true (p_pid p)) (1 + mem_in bno P) (b_prev b) (b_next b) (B bno)]> (bufs k) ->
  head_next k' = head_next k -> head_prev k' = head_prev k -> cframe k k' ->
  fsok i B (bno :: H) P D k' /\ at_buf k' j bno /\ keep_bufs H k k'.
Proof.
  intros Hf Hn Hj Hp Hold Eb En Ep Hfr. split; [|split].
  - eapply (fsok_at i B B H (bno :: H) P P D D k k' j b); try done.
    + by apply fsframe_procs, cframe_fs.
    + intros. by apply fsframe_dblk, cframe_fs.
    + apply (fo_block _ _ _ _ _ _ Hf).
    + intros x Hx. split; [done|]. rewrite elem_of_cons. tauto.
    + apply NoDup_cons. split; [done|apply Hf].
    + apply Hf.
    + cbn. unfold mem_in at 2. rewrite decide_True by apply list_elem_of_here. done.
    + rewrite decide_True by apply list_elem_of_here. cbn. eauto.
    + intros _. apply list_elem_of_here.
    + intros. rewrite (fsframe_dblk k) by (by apply cframe_fs). by apply (fo_disk _ _ _ _ _ _ Hf).
  - eexists. rewrite Eb, list_lookup_insert_eq by (by eapply lookup_lt_Some). done.
  - intros j' bn Hin (x&Hx&Hd&Hbx). exists x. rewrite Eb, list_lookup_insert_ne; [done|]. intros ->. assert (x = b) as -> by congruence.
    destruct Hold as [[_ E]|[E _]]; [congruence|]. rewrite (fo_ref _ _ _ _ _ _ Hf j' b Hx), decide_True, Hbx in E by done. unfold mem_in in E.
    rewrite decide_True in E by done. case_decide; lia.
Qed.

Lemma linsert_alter {A} (f : A -> A) (l : list A) j x : l !! j = Some x -> alter f j l = <[j := f x]> l.
Proof.
  intros E. apply list_eq. intros y. destruct (decide (j = y)) as [<-|].
  - rewrite list_lookup_alter_eq, E, list_lookup_insert_eq by (by eapply lookup_lt_Some). done.
  - by rewrite list_lookup_alter_ne, list_lookup_insert_ne.
Qed.

Lemma not_held c lk : held c = [] -> lk ∉ held c.
Proof. intros ->. apply not_elem_of_nil. Qed.

Lemma release_own lk c : held c = [] -> (c <| held := lk :: held c |>) <| held := filter (fun l => l <> lk) (lk :: held c) |> = c.
Proof. intros Hh. destruct c as [b hl d]. cbn in *. subst. rewrite decide_False by tauto. done. Qed.

Lemma alter_buf f k j b : bufs k !! j = Some b -> k <| bufs ::= alter f j |> = k <| bufs := <[j := f b]> (bufs k) |>.
Proof. intros E. change (k <| bufs := alter f j (bufs k) |> = k <| bufs := <[j := f b]> (bufs k) |>). by rewrite (linsert_alter f _ j b). Qed.

Lemma alter_alter_buf f g k j : k <| bufs ::= alter f j |> <| bufs ::= alter g j |> = k <| bufs ::= alter (fun b => g (f b)) j |>.
Proof. kred. f_equal. apply (lalter_lalter g f). Qed.

(** The end of [bget]: the sleep lock of buffer [j], which is free. *)
Lemma bget_tail f i c k j b p :
  user i c -> bufs k !! j = Some b -> sl_locked (b_lock (f b)) = false -> procs k !! i = Some p ->
  (acquiresleep (SBuf j) ;; ret j) c (k <| bufs ::= alter f j |>) =
  Done j c (k <| bufs := <[j := (f b) <| b_lock := mksleeplock true (p_pid p) |>]> (bufs k) |>).
Proof.
  intros [Hi Hh] Hj Hl Hp. rewrite (alter_buf _ _ _ b) by done. assert (Hlt := lookup_lt_Some _ _ _ Hj).
  erewrite bind_done; [|eapply (acquiresleep_free (SBuf j) (b_lock (f b))); [|done|by apply not_held|exact Hi|exact Hp]].
  - unfold ret. f_equal. unfold upd_sl. rewrite (alter_buf _ _ _ (f b)) by (by apply list_lookup_insert_eq).
    kred. by rewrite list_insert_insert_eq.
  - cbn. by rewrite list_lookup_insert_eq.
Qed.

(** [bget] of a block in the cache. *)
Lemma bget_cached i B H P D c k j b bno p :
  fsok i B H P D k -> bno ∉ H -> user i c -> bufs k !! j = Some b -> b_dev b = 1 -> b_blockno b = bno -> procs k !! i = Some p ->
  bget 1 bno c k = Done j c (k <| bufs := <[j := mkbuf (b_valid b) (b_disk b) 1 bno (mksleeplock true (p_pid p)) (1 + mem_in bno P) (b_prev b) (b_next b) (b_data b)]> (bufs k) |>).
Proof.
  intros Hf Hn [Hi Hh] Hj Hd Hb Hp. pose proof (fo_cache _ _ _ _ _ _ Hf) as Hk. destruct (bc_lru _ Hk) as [l Hl]. unfold bget.
  erewrite bind_done by (by apply acquire_ok, not_held).
  destruct (bget_scans 1 bno (c <| held := LBcache :: held c |>) k l Hk Hl) as (E1&E2&_).
  erewrite bind_done by exact E1. erewrite bind_done by exact E2.
  rewrite (proj1 (find_block k l 1 bno Hk Hl ltac:(done)) j b Hj Hd Hb).
  erewrite bind_done by done. erewrite bind_done by (by apply release_ok, not_held).
  assert (Hr : b_refcnt b = mem_in bno P).
  { rewrite (fo_ref _ _ _ _ _ _ Hf j b Hj), decide_True, Hb by done. unfold mem_in at 1. rewrite decide_False by done. lia. }
  rewrite (bget_tail _ i c k j b p); [|done..| |done].
  - assert (Eu : u32 (b_refcnt b + 1) = 1 + mem_in bno P) by (rewrite Hr; unfold mem_in; by case_decide).
    cbn. by rewrite Eu, Hd, Hb.
  - pose proof (fo_lock _ _ _ _ _ _ Hf j b Hj) as Hlk. by rewrite decide_False in Hlk by (rewrite Hb; tauto).
Qed.

(** [bget] of a block that is not in the cache: it recycles an unreferenced buffer. *)
Lemma bget_fresh i B H P D c k bno p :
  fsok i B H P D k -> user i c -> procs k !! i = Some p -> (length H + length P < 30)%nat ->
  (forall j x, bufs k !! j = Some x -> b_dev x = 1 -> b_blockno x <> bno) ->
  exists j b, bufs k !! j = Some b /\ b_refcnt b = 0 /\
  bget 1 bno c k = Done j c (k <| bufs := <[j := mkbuf false (b_disk b) 1 bno (mksleeplock true (p_pid p)) 1 (b_prev b) (b_next b) (b_data b)]> (bufs k) |>).
Proof.
  intros Hf [Hi Hh] Hp Hlt Hno. pose proof (fo_cache _ _ _ _ _ _ Hf) as Hk. destruct (bc_lru _ Hk) as [l Hl].
  destruct (free_buffer _ _ _ _ _ _ _ Hf Hl Hlt) as [j Ej]. pose proof (find_some _ _ Ej) as [_ Hu]. unfold unused in Hu.
  destruct (bufs k !! j) as [b|] eqn:Hj; [|done]. apply Z.eqb_eq in Hu. exists j, b. split; [done|]. split; [done|].
  unfold bget. erewrite bind_done by (by apply acquire_ok, not_held).
  destruct (bget_scans 1 bno (c <| held := LBcache :: held c |>) k l Hk Hl) as (E1&E2&E3&E4).
  erewrite bind_done by exact E1. erewrite bind_done by exact E2.
  destruct (List.find (is_block k 1 bno) l) as [j'|] eqn:Ef.
  { destruct (proj2 (find_block k l 1 bno Hk Hl ltac:(done)) j' Ef) as (x&Hx&Hdx&Hbx). by destruct (Hno j' x). }
  erewrite bind_done by exact E3. erewrite bind_done by exact E4. rewrite Ej.
  do 4 (erewrite bind_done by done). erewrite bind_done by (by apply release_ok, not_held).
  rewrite !alter_alter_buf, (bget_tail _ i c k j b p); [done|done..| |done].
  pose proof (fo_lock _ _ _ _ _ _ Hf j b Hj) as Hlk. pose proof (fo_ref _ _ _ _ _ _ Hf j b Hj) as Hr.
  rewrite decide_False in Hlk; [done|]. intros [Hd Hin]. rewrite decide_True in Hr by done. unfold mem_in in Hr. rewrite decide_True in Hr by done. case_decide; lia.
Qed.

(** What [bread] and its relatives return with: the view [X] and nothing else
    changed but the cache; the buffers of [bs] stay where they are. *)
Definition fspost {A} (c : cpu) (k : kernel) (bs : list Z) (X : A -> kernel -> Prop) (a : A) (c' : cpu) (k' : kernel) : Prop :=
  c' = c /\ X a k' /\ keep_bufs bs k k' /\ cframe k k'.

Lemma at_buf_dec k bno : (exists j, at_buf k j bno) \/ forall j x, bufs k !! j = Some x -> b_dev x = 1 -> b_blockno x <> bno.
Proof.
  destruct (decide (Exists (fun b => b_dev b = 1 /\ b_blockno b = bno) (bufs k))) as [(b&(j&Hj)%list_elem_of_lookup&?)%Exists_exists|Hno].
  - left. by exists j, b.
  - right. intros j x Hx Hd Hb. apply Hno, Exists_exists. exists x. split; [by eapply list_elem_of_lookup_2|done].
Qed.

Lemma bget_fs i B H P D c k bno p :
  fsok i B H P D k -> bno ∉ H -> user i c -> bno ∈ P \/ (length H + length P < 30)%nat -> procs k !! i = Some p ->
  exists j b v d, bget 1 bno c k = Done j c (k <| bufs := <[j := mkbuf v (b_disk b) 1 bno (mksleeplock true (p_pid p)) (1 + mem_in bno P) (b_prev b) (b_next b) d]> (bufs k) |>) /\
    bufs k !! j = Some b /\ (v = true -> d = B bno) /\ (v = false -> bno ∉ P) /\
    (b_dev b = 1 /\ b_blockno b = bno \/ b_refcnt b = 0 /\ forall j' x, bufs k !! j' = Some x -> b_dev x = 1 -> b_blockno x <> bno).
Proof.
  intros Hf Hn Hu Hlt Hp. destruct (at_buf_dec k bno) as [(j&b&Hj&Hd&Hb)|Hno].
  - exists j, b, (b_valid b), (b_data b). rewrite (bget_cached i B H P D c k j b bno p) by done. split; [done|]. split; [done|]. split; [|split; [|by left]].
    + intros Hv. by rewrite (fo_blk _ _ _ _ _ _ Hf j b), Hb.
    + intros Hv Hin. destruct (at_buf_valid i B H P D k j bno) as (b'&Hj'&_&_&Hv'&_); [done|by right|by exists b|]. congruence.
  - assert (HnP : bno ∉ P) by (intros Hin; destruct (at_buf_here i B H P D k bno Hf) as (j&b&Hj&Hd&Hb); [by right|by apply (Hno j b)]).
    destruct (bget_fresh i B H P D c k bno p) as (j&b&Hj&Hr&->); [done|done|done|by destruct Hlt|done|].
    exists j, b, false, (b_data b). unfold mem_in. rewrite (decide_False (P := bno ∈ P)) by done. split; [done|]. split; [done|]. split; [done|]. split; [done|by right].
Qed.

Lemma fsok_proc i B H P D k : fsok i B H P D k -> exists p, procs k !! i = Some p.
Proof. intros Hf. apply lookup_lt_is_Some. rewrite (fo_procs _ _ _ _ _ _ Hf). apply Hf. Qed.

Lemma bread_fs i B H P D c k bno :
  fsok i B H P D k -> bno ∉ H -> user i c -> bno ∈ P \/ (length H + length P < 30)%nat ->
  runs (bread 1 bno) c k (fspost c k H (fun j k' => fsok i B (bno :: H) P D k' /\ at_buf k' j bno)).
Proof.
  intros Hf Hn Hu Hlt. destruct (fsok_proc _ _ _ _ _ _ Hf) as [p Hp].
  destruct (bget_fs i B H P D c k bno p) as (j&b&v&d&Eg&Hj&Hv&Hnv&Hold); [done..|]. assert (Hlt' := lookup_lt_Some _ _ _ Hj).
  set (nb := mkbuf true (b_disk b) 1 bno (mksleeplock true (p_pid p)) (1 + mem_in bno P) (b_prev b) (b_next b) (B bno)).
  assert (Hend : exists u, bread 1 bno c k = Done j c (k <| uart := u |> <| bufs := <[j := nb]> (bufs k) |>)).
  { unfold bread. erewrite bind_done by exact Eg. erewrite bind_done by (apply getbuf_done, list_lookup_insert_eq; done). cbn [b_valid].
    destruct v; [exists (uart k); unfold nb; rewrite <- Hv by done; done|]. eexists. erewrite bind_done; [reflexivity|].
    erewrite bind_done by (apply virtio_disk_rw_ok; [apply Hu|by rewrite (proj1 Hu)|by apply list_lookup_insert_eq]).
    unfold transfer. cbn. unfold modbuf, modify. f_equal. kred. rewrite !lalter_lalter, (linsert_alter _ _ _ _ (list_lookup_insert_eq _ _ _ Hlt')), list_insert_insert_eq.
    unfold nb. rewrite <- (fo_disk _ _ _ _ _ _ Hf bno); [done|by apply Hnv|]. intros Hin. apply Hn, (fo_dirty _ _ _ _ _ _ Hf), Hin. }
  destruct Hend as [u E]. apply runs_done. do 3 eexists. split; [exact E|]. split; [done|].
  destruct (take_fs i B H P D k (k <| uart := u |> <| bufs := <[j := nb]> (bufs k) |>) j b bno p 0) as (?&?&?); done.
Qed.

(** Moving a buffer in the list changes nothing of the view. *)
Lemma fsok_relinked i B H P D k k' l : fsok i B H P D k -> relinked k k' -> lru k' l -> fsok i B H P D k'.
Proof.
  intros Hf Hr Hl. assert (Ep : procs k' = procs k) by exact (f_equal procs Hr). assert (Ed : disk k' = disk k) by exact (f_equal disk Hr).
  assert (Hb : forall j b', bufs k' !! j = Some b' -> exists b, bufs k !! j = Some b /\ core b = core b').
  { intros j b'. apply relinked_lookup. unfold relinked in *. congruence. }
  destruct Hf. split; try done; rewrite ?Ep; try done.
  - by eapply bcache_relinked.
  - intros j b' (b&E&Eb)%Hb. injection Eb as ?? <- ????. by eapply fo_dev0.
  - intros j b' (b&E&Eb)%Hb. injection Eb as ?? <- <- ? <- ?. by eapply fo_ref0.
  - intros j b' (b&E&Eb)%Hb. injection Eb as ?? <- <- <- ??. by eapply fo_lock0.
  - intros bno Hin. destruct (fo_here0 bno Hin) as (j&b&E&?&?&?). destruct (relinked_lookup k k' j b Hr E) as (b'&E'&Eb). exists j, b'.
    injection Eb as ???????. split; [done|]. split; [congruence|]. split; congruence.
  - intros j b' (b&E&Eb)%Hb. injection Eb as <- ? <- <- ?? <-. by eapply fo_blk0.
  - intros bno. unfold dblk. rewrite Ed. apply fo_disk0.
Qed.

Lemma keep_bufs_relinked bs k k' : relinked k k' -> keep_bufs bs k k'.
Proof.
  intros Hr j bno _ (b&E&?&?). destruct (relinked_lookup k k' j b Hr E) as (b'&E'&Eb). injection Eb as ???????. exists b'. split; [done|]. split; congruence.
Qed.

Lemma relinked_cframe k k' : relinked k k' -> cframe k k'.
Proof. intros Hr. exact (f_equal crest Hr). Qed.

Lemma keep_bufs_trans bs k1 k2 k3 : keep_bufs bs k1 k2 -> keep_bufs bs k2 k3 -> keep_bufs bs k1 k3.
Proof. intros H1 H2 j bno Hin Ha. auto. Qed.

Lemma keep_bufs_insert bs k k' j b b' : 
  bufs k !! j = Some b -> bufs k' = <[j := b']> (bufs k) -> b_dev b' = b_dev b -> b_blockno b' = b_blockno b -> keep_bufs bs k k'.
Proof.
  intros Hj E Ed Eb x bno _ (bx&Hx&?&?). destruct (decide (x = j)) as [->|Hne].
  - exists b'. rewrite E, list_lookup_insert_eq by (by eapply lookup_lt_Some). assert (bx = b) as -> by congruence. split; [done|]. split; congruence.
  - exists bx. by rewrite E, list_lookup_insert_ne.
Qed.

(** The buffer of [bno] after [brelse]. *)
Lemma drop_fs i B H P D k k' j b bno :
  fsok i B (bno :: H) P D k -> bufs k !! j = Some b -> b_dev b = 1 -> b_blockno b = bno -> bno ∉ D ->
  bufs k' = <[j := b <| b_lock := sleeplock_0 |> <| b_refcnt := mem_in bno P |>]> (bufs k) ->
  head_next k' = head_next k -> head_prev k' = head_prev k -> cframe k k' -> fsok i B H P D k'.
Proof.
  intros Hf Hj Hd Hb HnD Eb En Ep Hcf%cframe_fs. assert (Hnd := fo_held _ _ _ _ _ _ Hf). apply NoDup_cons in Hnd as [HnH Hnd].
  destruct (at_buf_valid i B (bno :: H) P D k j bno) as (bb&Hbb&_&_&Hv&Hda); [done|left; apply list_elem_of_here|by exists b|].
  assert (bb = b) as -> by congruence.
  eapply (fsok_at i B B (bno :: H) H P P D D k _ j b _ bno); try done.
  - by apply fsframe_procs.
  - intros. by apply fsframe_dblk.
  - apply Hf.
  - by left.
  - intros x Hx. split; [done|]. rewrite elem_of_cons. tauto.
  - apply Hf.
  - cbn. unfold mem_in at 2. by rewrite decide_False.
  - by rewrite decide_False.
  - intros HnP _. rewrite (fsframe_dblk k) by done. by apply (fo_disk _ _ _ _ _ _ Hf).
Qed.

Lemma held_ref i B H P D k j b bno :
  fsok i B H P D k -> bno ∈ H -> bufs k !! j = Some b -> b_dev b = 1 -> b_blockno b = bno ->
  b_refcnt b = 1 + mem_in bno P /\ exists p, procs k !! i = Some p /\ b_lock b = mksleeplock true (p_pid p).
Proof.
  intros Hf Hin Hj Hd Hb. split.
  - rewrite (fo_ref _ _ _ _ _ _ Hf j b Hj), decide_True, Hb by done. unfold mem_in at 1. by rewrite decide_True.
  - pose proof (fo_lock _ _ _ _ _ _ Hf j b Hj) as Hlk. by rewrite decide_True in Hlk by (by rewrite Hb).
Qed.

Lemma brelse_fs i B H P D c k j bno :
  fsok i B (bno :: H) P D k -> user i c -> at_buf k j bno -> bno ∉ D ->
  runs (brelse j) c k (fspost c k (bno :: H) (fun _ k' => fsok i B H P D k')).
Proof.
  intros Hf [Hi Hh] (b&Hj&Hd&Hb) HnD. assert (Hlt := lookup_lt_Some _ _ _ Hj).
  destruct (held_ref i B (bno :: H) P D k j b bno) as (Hr&p&Hp&Hlk); [done|apply list_elem_of_here|done..|]. unfold brelse.
  eapply runs_at; [eapply (holdingsleep_ok (SBuf j) (b_lock b)); [cbn; by rewrite Hj|by apply not_held|exact Hi|exact Hp]|].
  unfold held_by. rewrite Hlk, Z.eqb_refl. cbn [negb andb sl_locked].
  eapply runs_at; [apply releasesleep_ok; [by apply not_held|intros x; by apply not_held|apply Hf]|].
  eapply runs_at; [by apply acquire_ok, not_held|]. eapply runs_at; [done|].
  set (k1 := (wake _ _ _) <| bufs ::= _ |>). set (b' := b <| b_lock := sleeplock_0 |> <| b_refcnt := mem_in bno P |>).
  assert (Eb : bufs k1 = <[j := b']> (bufs k)).
  { cbn. rewrite lalter_lalter, (linsert_alter _ _ _ b) by done. do 2 f_equal.
    assert (Eu : u32 (b_refcnt b - 1) = mem_in bno P) by (rewrite Hr; unfold mem_in; by case_decide). unfold b'. cbn. by rewrite Eu. }
  assert (Hcf : cframe k k1) by exact (cframe_wake (sl_chan (SBuf j)) (cpu_proc c) (upd_sl (SBuf j) (fun _ => sleeplock_0) k)).
  assert (Hf1 : fsok i B H P D k1) by (by eapply (drop_fs i B H P D k k1 j b bno)).
  assert (Hkb : keep_bufs (bno :: H) k k1) by (by eapply (keep_bufs_insert _ k k1 j b)).
  clearbody k1. eapply runs_at; [apply getbuf_done; rewrite Eb; by apply list_lookup_insert_eq|].
  destruct (bc_lru _ (fo_cache _ _ _ _ _ _ Hf1)) as [l Hl]. destruct (b_refcnt b' =? 0).
  - destruct (to_front_ok j (c <| held := LBcache :: held c |>) k1 l) as (k2&l1&l2&E&Hrl&_&Hl2); [apply Hf1|rewrite <- (bc_len _ (fo_cache _ _ _ _ _ _ Hf)); done|done|].
    eapply runs_at; [exact E|]. eapply runs_intro; [by apply release_ok, not_held|].
    split; [done|]. split; [by eapply fsok_relinked|]. split; [eapply keep_bufs_trans; [done|by apply keep_bufs_relinked]|].
    eapply cframe_trans; [done|by apply relinked_cframe].
  - eapply runs_at; [done|]. by eapply runs_intro; [by apply release_ok, not_held|].
Qed.

(** ** The data of a held block *)

Definition bset (B : Z -> list Z) (bno : Z) (d : list Z) : Z -> list Z := fun x => if decide (x = bno) then d else B x.

Lemma bset_eq B bno d : bset B bno d bno = d.
Proof. unfold bset. by rewrite decide_True. Qed.
Lemma bset_ne B bno d x : x <> bno -> bset B bno d x = B x.
Proof. intros. unfold bset. by rewrite decide_False. Qed.

Lemma bdata_fs i B H P D c k j bno :
  fsok i B H P D k -> bno ∈ H \/ bno ∈ P -> at_buf k j bno -> bdata j c k = Done (B bno) c k.
Proof.
  intros Hf Hin Ha. destruct (at_buf_valid _ _ _ _ _ _ _ _ Hf Hin Ha) as (b&Hj&_&_&_&E). unfold bdata.
  erewrite bind_done by (by apply getbuf_done). by rewrite E.
Qed.

(** The buffer of a held block gets new data, and possibly another pin count. *)
Lemma change_fs i B H P P' D D' k k' j b bno d :
  fsok i B H P D k -> bufs k !! j = Some b -> b_dev b = 1 -> b_blockno b = bno -> bno ∈ H -> block_ok d ->
  bufs k' = <[j := b <| b_data := d |> <| b_refcnt := 1 + mem_in bno P' |>]> (bufs k) ->
  head_next k' = head_next k -> head_prev k' = head_prev k -> procs_like k k' -> (forall x, x <> bno -> dblk k' x = dblk k x) ->
  (forall x, x <> bno -> (x ∈ P' <-> x ∈ P) /\ (x ∈ D' <-> x ∈ D)) -> NoDup P' ->
  (bno ∉ P' -> bno ∉ D' -> dblk k' bno = d) ->
  fsok i (bset B bno d) H P' D' k' /\ keep_bufs H k k'.
Proof.
  intros Hf Hj Hd Hb Hin Hok Eb En Ep Hpl Hdk Hother Hnd Hdisk.
  destruct (at_buf_valid i B H P D k j bno) as (bb&Hbb&_&_&Hv&Hda); [done|by left|by exists b|]. assert (bb = b) as -> by congruence.
  destruct (held_ref i B H P D k j b bno Hf Hin Hj Hd Hb) as (Hr&p&Hp&Hlk).
  split; [|by eapply (keep_bufs_insert _ k k' j b)].
  eapply (fsok_at i B _ H H P P' D D' k k' j b _ bno); try done; rewrite ?bset_eq; try done.
  - by left.
  - intros x Hx. rewrite bset_ne by done. split; [done|]. split; [done|]. by apply Hother.
  - apply Hf.
  - cbn. unfold mem_in at 2. by rewrite decide_True.
  - rewrite decide_True by done. cbn. eauto.
Qed.

Lemma moddata_fs i B H P D c k j bno f :
  fsok i B H P D k -> bno ∈ H -> at_buf k j bno -> block_ok (f (B bno)) ->
  runs (moddata j f) c k (fspost c k H (fun _ k' => fsok i (bset B bno (f (B bno))) H P (bno :: D) k')).
Proof.
  intros Hf Hin Ha Hok. pose proof Ha as (b&Hj&Hd&Hb). destruct (at_buf_valid i B H P D k j bno) as (bb&Hbb&_&_&_&Hda); [done|by left|done|].
  assert (bb = b) as -> by congruence. destruct (held_ref i B H P D k j b bno Hf Hin Hj Hd Hb) as (Hr&_).
  eapply runs_intro; [done|].
  destruct (change_fs i B H P P D (bno :: D) k (k <| bufs ::= alter (fun bf => bf <| b_data ::= f |>) j |>) j b bno (f (B bno))) as [H1 H2]; try done.
  - cbn. rewrite (linsert_alter _ _ _ b) by done. f_equal. cbn. rewrite Hda, <- Hr. done.
  - intros x Hx. rewrite elem_of_cons. tauto.
  - apply Hf.
  - intros _ Hn. destruct Hn. apply list_elem_of_here.
Qed.

(** Only the membership in [D] matters. *)
Lemma fsok_dirty i B H P D D' k : (forall x, x ∈ D' <-> x ∈ D) -> fsok i B H P D k -> fsok i B H P D' k.
Proof. intros E []. split; try done; intros bno; rewrite E; auto. Qed.

Lemma fsok_ext i B B' H P D k : (forall x, B' x = B x) -> fsok i B H P D k -> fsok i B' H P D k.
Proof. intros E []. split; try done; intros; rewrite E; eauto. Qed.

Lemma bset_id B bno x : bset B bno (B bno) x = B x.
Proof. unfold bset. case_decide; by subst. Qed.

Lemma fsok_other i B H P D k k' :
  bufs k' = bufs k -> head_next k' = head_next k -> head_prev k' = head_prev k -> procs k' = procs k -> disk k' = disk k ->
  fsok i B H P D k -> fsok i B H P D k'.
Proof.
  intros Eb En Ep Epr Ed []. split; rewrite ?Eb, ?Epr; try done; [by apply (bcache_other k)|]. intros bno. unfold dblk. rewrite Ed. apply fo_disk0.
Qed.

Lemma keep_bufs_other bs k k' : bufs k' = bufs k -> keep_bufs bs k k'.
Proof. intros E j bno _ (b&?&?). exists b. by rewrite E. Qed.

(** What [bwrite] leaves alone. *)
Definition wrest (k : kernel) : kernel := k <| disk := ∅ |> <| writes := [] |>.
Definition wframe (k k' : kernel) : Prop := cframe (wrest k) (wrest k').

Lemma bwrite_fs i B H P D D' c k j bno :
  fsok i B H P D k -> user i c -> bno ∈ H -> at_buf k j bno -> (forall x, x ∈ D' <-> x ∈ D /\ x <> bno) ->
  runs (bwrite j) c k (fun _ c' k' => c' = c /\ fsok i B H P D' k' /\ disk k' = <[bno := B bno]> (disk k) /\
    writes k' = (bno, B bno) :: writes k /\ keep_bufs H k k' /\ bufs k' = bufs k /\ wframe k k').
Proof.
  intros Hf [Hi Hh] Hin Ha HD. pose proof Ha as (b&Hj&Hd&Hb). destruct (at_buf_valid i B H P D k j bno) as (bb&Hbb&_&_&_&Hda); [done|by left|done|].
  assert (bb = b) as -> by congruence. destruct (held_ref i B H P D k j b bno Hf Hin Hj Hd Hb) as (Hr&p&Hp&Hlk). unfold bwrite.
  eapply runs_at; [eapply (holdingsleep_ok (SBuf j) (b_lock b)); [cbn; by rewrite Hj|by apply not_held|exact Hi|exact Hp]|].
  unfold held_by. rewrite Hlk, Z.eqb_refl. cbn [negb andb sl_locked].
  eapply runs_intro; [apply (virtio_disk_rw_ok j true b); [done|by rewrite Hi|done]|]. cbn. rewrite Hb, Hda.
  split; [done|]. destruct (change_fs i B H P P D D' k (transfer j true b k) j b bno (B bno)) as [H1 H2]; try done.
  - apply Hf.
  - cbn. rewrite list_insert_id; [done|]. rewrite Hj. f_equal. destruct b; cbn in *. by subst.
  - intros x Hx. unfold dblk. cbn. rewrite Hb. by rewrite lookup_insert_ne.
  - intros x Hx. rewrite HD. tauto.
  - apply Hf.
  - intros _ _. unfold dblk. cbn. rewrite Hb, lookup_insert_eq. done.
  - split; [|done]. eapply fsok_ext; [|cbn in H1; rewrite Hb, Hda in H1; exact H1]. intros. by rewrite bset_id.
Qed.
End Runs.
