(* ===== verification/Wal.v ===== *)
(** * The write-ahead log

    [log_write] in the block view; [commit] and the recovery at boot, with
    every order in which the machine can stop: a crash leaves the blocks of
    some prefix of the writes that reached the disk. *)

From S2P Require Import Prelude Riscv CString Fields Kernel Printf Sched Sleeplock Bio Bcache Log FsView.
From stdpp Require Import base numbers strings gmap list.
From Stdlib Require Import ZArith Lia.

#[local] Open Scope Z_scope.
#[local] Open Scope kernel_scope.

(** ** [log_write] *)

Definition bno_ok (x : Z) : Prop := 0 <= x < 2 ^ 31.

(** The log header in memory lists the blocks [P]; the log is on device 1 from
    block [start]. *)
Record logat (start : Z) (P : list Z) (k : kernel) : Prop := {
  lo_n : l_n (log k) = Z.of_nat (length P);
  lo_len : length (l_block (log k)) = 30%nat;
  lo_take : take (length P) (l_block (log k)) = P;
  lo_range : Forall bno_ok P;
  lo_dev : l_dev (log k) = 1;
  lo_start : l_start (log k) = start
}.

(** In a transaction. *)
Definition logok (start : Z) (P : list Z) (k : kernel) : Prop := logat start P k /\ 1 <= l_outstanding (log k).

Lemma logat_log start P k k' : log k' = log k -> logat start P k -> logat start P k'.
Proof. intros E []. split; by rewrite ?E. Qed.
Lemma logok_log start P k k' : log k' = log k -> logok start P k -> logok start P k'.
Proof. intros E []. split; [by eapply logat_log|by rewrite E]. Qed.
Lemma logat_block start P k t p : logat start P k -> P !! t = Some p -> l_block (log k) !! t = Some p.
Proof.
  intros [] Hp. assert (Hlt := lookup_lt_Some _ _ _ Hp). pose proof (lookup_take_lt (l_block (log k)) (length P) t Hlt) as E. rewrite lo_take0 in E. congruence.
Qed.

Lemma get_block_ok t c k d : l_block (log k) !! t = Some d -> get_block (Z.of_nat t) c k = Done d c k.
Proof. intros E. unfold get_block. erewrite bind_done by done. rewrite Nat2Z.id. unfold deref. by rewrite E. Qed.

Lemma set_block_ok t v c k :
  (t < length (l_block (log k)))%nat -> bno_ok v ->
  set_block (Z.of_nat t) v c k = Done tt c (k <| log ::= fun lg => lg <| l_block ::= <[t := v]> |> |>).
Proof.
  intros Ht Hv. unfold set_block. erewrite bind_done by done. rewrite bool_decide_true by lia.
  unfold modlog, modify. f_equal. unfold setz. destruct (Z.ltb_spec (Z.of_nat t) 0); [lia|]. by rewrite Nat2Z.id, i32_small by (unfold bno_ok in Hv; lia).
Qed.

Lemma log_same k f : f (log k) = log k -> k <| log ::= f |> = k.
Proof. destruct k. cbn. congruence. Qed.
Lemma block_same lg f : f (l_block lg) = l_block lg -> lg <| l_block ::= f |> = lg.
Proof. destruct lg. cbn. congruence. Qed.

(** [log_write]'s scan: the first place of the block, or the end. *)
Definition place (bno : Z) (P : list Z) : nat := default (length P) (fst <$> list_find (eq bno) P).

Lemma absorb_ok bno n t c k P :
  take (t + n) (l_block (log k)) = P -> length P = (t + n)%nat -> Forall bno_ok P ->
  absorb_loop n (Z.of_nat t) bno c k = Done (Z.of_nat (t + place bno (drop t P))) c k.
Proof.
  revert t. induction n as [|n IH]; intros t HP Hl Hr; cbn [absorb_loop].
  - rewrite drop_ge by lia. cbn. unfold ret. by rewrite Nat.add_0_r.
  - destruct (lookup_lt_is_Some_2 P t) as [d Hd]; [lia|]. rewrite (drop_S P d t) by done. unfold place. cbn [list_find].
    assert (Hd' : l_block (log k) !! t = Some d) by (rewrite <- HP, lookup_take_lt in Hd by lia; done).
    erewrite bind_done by (by apply get_block_ok). rewrite u32_small by (eapply Forall_lookup_1 in Hr; [|exact Hd]; unfold bno_ok in Hr; lia).
    destruct (Z.eqb_spec d bno) as [->|Hne].
    + rewrite decide_True by done. cbn. unfold ret. by rewrite Nat.add_0_r.
    + rewrite decide_False by congruence. replace (Z.of_nat t + 1) with (Z.of_nat (S t)) by lia. rewrite IH by (try done; rewrite Nat.add_succ_l, <- Nat.add_succ_r; done).
      f_equal. unfold place. destruct (list_find (eq bno) (drop (S t) P)) as [[x y]|]; cbn; [lia|]. lia.
Qed.

Definition logged (bno : Z) (P : list Z) : list Z := if decide (bno ∈ P) then P else P ++ [bno].

Lemma place_in bno P : bno ∈ P -> P !! place bno P = Some bno.
Proof.
  intros Hin. unfold place. destruct (list_find (eq bno) P) as [[x y]|] eqn:E; cbn.
  - apply list_find_Some in E as (E&->&_). done.
  - apply list_find_None in E. rewrite Forall_forall in E. by destruct (E bno Hin).
Qed.

Lemma place_notin bno P : bno ∉ P -> place bno P = length P.
Proof.
  intros Hin. unfold place. destruct (list_find (eq bno) P) as [[x y]|] eqn:E; cbn; [|done].
  apply list_find_Some in E as (E&->&_). destruct Hin. by eapply list_elem_of_lookup_2.
Qed.

(** ** Writes to the disk *)

(** The disk after the writes [ws], oldest first. *)
Definition replay (ws : list (Z * list Z)) (B : Z -> list Z) : Z -> list Z := foldl (fun B w => bset B w.1 w.2) B ws.

Lemma replay_app ws1 ws2 B : replay (ws1 ++ ws2) B = replay ws2 (replay ws1 B).
Proof. apply foldl_app. Qed.
Lemma replay_ext ws B B' x : (forall x, B' x = B x) -> replay ws B' x = replay ws B x.
Proof.
  revert B B'. induction ws as [|w ws IH]; intros B B' E; [apply E|]. apply IH. intros y. unfold bset. by case_decide.
Qed.
Lemma replay_other ws B x : x ∉ ws.*1 -> replay ws B x = B x.
Proof.
  revert B. induction ws as [|w ws IH]; intros B Hx; [done|]. rewrite fmap_cons, not_elem_of_cons in Hx. destruct Hx as [Hne Hx].
  change (replay ws (bset B w.1 w.2) x = B x).
  rewrite IH by done. by apply bset_ne.
Qed.

(** From [k] to [k'] the disk has written [ws]; the cache may have changed. *)
Record wrote (ws : list (Z * list Z)) (k k' : kernel) : Prop := {
  wr_writes : writes k' = rev ws ++ writes k;
  wr_disk : forall x, dblk k' x = replay ws (dblk k) x;
  wr_frame : wframe k k'
}.

Lemma wrote_trans ws1 ws2 k1 k2 k3 : wrote ws1 k1 k2 -> wrote ws2 k2 k3 -> wrote (ws1 ++ ws2) k1 k3.
Proof.
  intros [W1 D1 F1] [W2 D2 F2]. split.
  - by rewrite W2, W1, rev_app_distr, app_assoc.
  - intros x. rewrite D2, replay_app. by apply replay_ext.
  - unfold wframe in *. by eapply cframe_trans.
Qed.

Lemma wrote_cframe k k' : cframe k k' -> wrote [] k k'.
Proof.
  intros E. split; [exact (f_equal writes E)| |].
  - intros x. by apply fsframe_dblk, cframe_fs.
  - exact (f_equal wrest E).
Qed.

Lemma wrote_one k k' bno d : disk k' = <[bno := d]> (disk k) -> writes k' = (bno, d) :: writes k -> wframe k k' -> wrote [(bno, d)] k k'.
Proof.
  intros Ed Ew Hw. split; [done| |done]. intros x. cbn. unfold dblk, bset. rewrite Ed. case_decide as Hx.
  - subst. by rewrite lookup_insert_eq.
  - by rewrite lookup_insert_ne.
Qed.

Lemma wrote_log ws k k' : wrote ws k k' -> log k' = log k.
Proof. intros [_ _ E]. exact (f_equal log E). Qed.

(** The same where the list of logged blocks in memory may have changed. *)
Record wrotel (ws : list (Z * list Z)) (k k' : kernel) : Prop := {
  wl_writes : writes k' = rev ws ++ writes k;
  wl_disk : forall x, dblk k' x = replay ws (dblk k) x;
  wl_frame : fsframe (wrest k) (wrest k')
}.

Lemma wrotel_trans ws1 ws2 k1 k2 k3 : wrotel ws1 k1 k2 -> wrotel ws2 k2 k3 -> wrotel (ws1 ++ ws2) k1 k3.
Proof.
  intros [W1 D1 F1] [W2 D2 F2]. split.
  - by rewrite W2, W1, rev_app_distr, app_assoc.
  - intros x. rewrite D2, replay_app. by apply replay_ext.
  - by eapply fsframe_trans.
Qed.
Lemma wrote_l ws k k' : wrote ws k k' -> wrotel ws k k'.
Proof. intros []. split; [done..|]. by apply cframe_fs. Qed.
Lemma wrotel_set k n bl : wrotel [] k (k <| log ::= fun lg => lg <| l_n := n |> <| l_block := bl |> |>).
Proof. by split. Qed.
Lemma wrotel_n k n : wrotel [] k (k <| log ::= fun lg => lg <| l_n := n |> |>).
Proof. by split. Qed.

(** The writes of [write_log] and of [install_trans]. *)
Fixpoint log_writes (start t : Z) (f : Z -> list Z) (P : list Z) : list (Z * list Z) :=
  match P with [] => [] | p :: P => (start + t + 1, f p) :: log_writes start (t + 1) f P end.
Fixpoint home_writes (start t : Z) (f : Z -> list Z) (P : list Z) : list (Z * list Z) :=
  match P with [] => [] | p :: P => (p, f (start + t + 1)) :: home_writes start (t + 1) f P end.

(** The log area: the header and 30 blocks. *)
Definition in_log (start x : Z) : Prop := start <= x <= start + 30.

Definition start_ok (start : Z) : Prop := 0 <= start < 2 ^ 30.
Definition off_log (start : Z) (P : list Z) : Prop := Forall (fun p => ~ in_log start p) P.

Lemma off_log_elem start P p x : off_log start P -> p ∈ P -> in_log start x -> p <> x.
Proof. unfold off_log. rewrite Forall_forall. intros H Hp Hx ->. by eapply H. Qed.

(** ** The header block *)

Fixpoint put_blocks (i : Z) (P : list Z) (d : list Z) : list Z :=
  match P with [] => d | p :: P => put_blocks (i + 1) P (put_block i p d) end.
Definition header (P : list Z) (d : list Z) : list Z := put_blocks 0 P (put_n (Z.of_nat (length P)) d).

Lemma put_block_ok i v d : block_ok d -> 0 <= i < 30 -> block_ok (put_block i v d).
Proof.
  intros [Hl Hb] Hi. unfold put_block. split; [rewrite length_splice; rewrite ?length_le_bytes; lia|]. apply splice_bytes; [done|apply le_bytes_ok].
Qed.
Lemma put_n_ok n d : block_ok d -> block_ok (put_n n d).
Proof. intros [Hl Hb]. unfold put_n. split; [rewrite length_splice; rewrite ?length_le_bytes; lia|]. apply splice_bytes; [done|apply le_bytes_ok]. Qed.
Lemma put_blocks_ok i P d : block_ok d -> 0 <= i -> i + Z.of_nat (length P) <= 30 -> block_ok (put_blocks i P d).
Proof. revert i d. induction P as [|p P IH]; intros i d Hd Hi Hl; [done|]. cbn in *. apply IH; [apply put_block_ok; [done|lia]|lia..]. Qed.
Lemma header_ok P d : block_ok d -> (length P <= 30)%nat -> block_ok (header P d).
Proof. intros. apply put_blocks_ok; [by apply put_n_ok|lia..]. Qed.

Lemma lh_n_put_block i v d : length d = 1024%nat -> 0 <= i < 30 -> lh_n (put_block i v d) = lh_n d.
Proof. intros Hd Hi. unfold lh_n, put_block. f_equal. apply lget_other; rewrite length_le_bytes; lia. Qed.
Lemma lh_block_put_block i j v d : length d = 1024%nat -> 0 <= i < 30 -> 0 <= j < 30 -> bno_ok v ->
  lh_block (put_block i v d) j = if decide (j = i) then v else lh_block d j.
Proof.
  intros Hd Hi Hj Hv. unfold lh_block, put_block. case_decide as E.
  - subst. rewrite lget_put by lia. unfold bno_ok in Hv. rewrite Z.mod_small by (cbn; lia). apply i32_small. lia.
  - f_equal. apply lget_other; rewrite length_le_bytes; lia.
Qed.

Lemma lh_n_put_blocks i P d : block_ok d -> 0 <= i -> i + Z.of_nat (length P) <= 30 -> lh_n (put_blocks i P d) = lh_n d.
Proof.
  revert i d. induction P as [|p P IH]; intros i d Hd Hi Hl; [done|]. cbn in *. rewrite IH by (try apply put_block_ok; try done; lia).
  apply lh_n_put_block; [apply Hd|lia].
Qed.
Lemma lh_block_put_blocks i P d j : block_ok d -> 0 <= i -> i + Z.of_nat (length P) <= 30 -> Forall bno_ok P -> 0 <= j < 30 ->
  lh_block (put_blocks i P d) j = if decide (i <= j < i + Z.of_nat (length P)) then nth (Z.to_nat (j - i)) P 0 else lh_block d j.
Proof.
  revert i d. induction P as [|p P IH]; intros i d Hd Hi Hl Hr Hj; cbn [put_blocks length] in *; [by rewrite decide_False by lia|].
  apply Forall_cons in Hr as [Hp Hr]. rewrite IH by (try apply put_block_ok; try done; lia). rewrite lh_block_put_block by (try apply Hd; try done; lia).
  destruct (decide (j = i)) as [->|Hne].
  - rewrite decide_False, decide_True by lia. by rewrite Z.sub_diag.
  - repeat case_decide; try lia; try done. replace (Z.to_nat (j - i)) with (S (Z.to_nat (j - (i + 1)))) by lia. done.
Qed.

(** The header read back. *)
Definition header_list (d : list Z) : list Z := (fun t => lh_block d (Z.of_nat t)) <$> seq 0 (Z.to_nat (lh_n d)).

Lemma header_n P d : block_ok d -> (length P <= 30)%nat -> lh_n (header P d) = Z.of_nat (length P).
Proof.
  intros Hd Hl. unfold header. rewrite lh_n_put_blocks by (try apply put_n_ok; try done; lia).
  unfold lh_n, put_n. rewrite lget_put by (destruct Hd; lia). rewrite Z.mod_small by (cbn; lia). apply i32_small. lia.
Qed.

Lemma header_list_header P d : block_ok d -> (length P <= 30)%nat -> Forall bno_ok P -> header_list (header P d) = P.
Proof.
  intros Hd Hl Hr. unfold header_list. rewrite header_n, Nat2Z.id by done. apply list_eq. intros t. rewrite list_lookup_fmap.
  destruct (decide (t < length P)%nat) as [Ht|Ht].
  - rewrite lookup_seq_lt by done. cbn. unfold header. rewrite lh_block_put_blocks by (try apply put_n_ok; try done; lia).
    rewrite decide_True by lia. replace (Z.to_nat (Z.of_nat t - 0)) with t by lia.
    destruct (lookup_lt_is_Some_2 P t Ht) as [p E]. by rewrite (nth_lookup_Some _ _ _ _ E).
  - rewrite lookup_seq_ge by lia. symmetry. apply lookup_ge_None. lia.
Qed.

(** What the log blocks hold after [write_log]. *)
Lemma log_writes_at start t f P B n p :
  P !! n = Some p -> replay (log_writes start t f P) B (start + (t + Z.of_nat n) + 1) = f p.
Proof.
  revert t B n. induction P as [|q P IH]; intros t B n Hp; [done|]. destruct n as [|n].
  - injection Hp as ->. change (replay (log_writes start (t + 1) f P) (bset B (start + t + 1) (f p)) (start + (t + 0) + 1) = f p).
    rewrite replay_other; [by rewrite Z.add_0_r, bset_eq|]. clear IH. intros Hin.
    assert (Hge : forall t P x, x ∈ (log_writes start t f P).*1 -> start + t + 1 <= x).
    { clear. intros t P. revert t. induction P as [|p P IH]; intros t x; [by rewrite elem_of_nil|]. cbn. rewrite elem_of_cons. intros [->|Hx]; [lia|].
      apply IH in Hx. lia. }
    apply Hge in Hin. lia.
  - change (replay (log_writes start (t + 1) f P) (bset B (start + t + 1) (f q)) (start + (t + Z.of_nat (S n)) + 1) = f p).
    replace (t + Z.of_nat (S n)) with ((t + 1) + Z.of_nat n) by lia. by apply IH.
Qed.

Lemma log_writes_in start t f P x : 0 <= t -> t + Z.of_nat (length P) <= 30 -> x ∈ (log_writes start t f P).*1 -> in_log start x /\ x <> start.
Proof.
  revert t. induction P as [|p P IH]; intros t Ht Hl; cbn in *; [by rewrite elem_of_nil|]. rewrite elem_of_cons. unfold in_log. intros [->|Hx]; [lia|].
  apply IH in Hx; unfold in_log in *; lia.
Qed.

Lemma home_writes_at start t f g P : (forall n p, P !! n = Some p -> f (start + (t + Z.of_nat n) + 1) = g p) ->
  home_writes start t f P = (fun p => (p, g p)) <$> P.
Proof.
  revert t. induction P as [|p P IH]; intros t Hf; [done|]. cbn. f_equal.
  - f_equal. rewrite <- (Hf 0%nat p) by done. f_equal. lia.
  - apply IH. intros n q Hq. rewrite <- (Hf (S n) q) by done. f_equal. lia.
Qed.

Lemma home_writes_dom start t f P : (home_writes start t f P).*1 = P.
Proof. revert t. induction P as [|p P IH]; intros t; cbn; f_equal; auto. Qed.

(** Writing a block's own contents changes nothing. *)
Lemma replay_home (f B : Z -> list Z) P x : (forall p, p ∈ P -> B p = f p) -> replay ((fun p => (p, f p)) <$> P) B x = B x.
Proof.
  induction P as [|p P IH] using rev_ind; intros HB; [done|]. rewrite fmap_app, replay_app. cbn. unfold bset. case_decide as E.
  - subst. symmetry. apply HB. rewrite elem_of_app. right. apply list_elem_of_here.
  - apply IH. intros q Hq. apply HB. rewrite elem_of_app. auto.
Qed.

Lemma bset_ext B B' bno d x : (forall x, B x = B' x) -> bset B bno d x = bset B' bno d x.
Proof. intros E. unfold bset. by case_decide. Qed.

(** The writes of a commit of the blocks [P], of a recovery. *)
Definition commit_writes (start : Z) (B : Z -> list Z) (P : list Z) : list (Z * list Z) :=
  log_writes start 0 B P ++ [(start, header P (B start))] ++ ((fun p => (p, B p)) <$> P) ++ [(start, header [] (header P (B start)))].
Definition recover_writes (start : Z) (B : Z -> list Z) : list (Z * list Z) :=
  home_writes start 0 B (header_list (B start)) ++ [(start, header [] (B start))].

Section Runs.
Context `{Fu : Fuel} `{Bd : BlockDevice}.

Lemma bpin_fs i B H P D c k j bno :
  fsok i B H P D k -> LBcache ∉ held c -> bno ∈ H -> at_buf k j bno -> bno ∉ P ->
  runs (bpin j) c k (fspost c k H (fun _ k' => fsok i B H (P ++ [bno]) (filter (fun x => x <> bno) D) k')).
Proof.
  intros Hf Hh Hin Ha HnP. pose proof Ha as (b&Hj&Hd&Hb). destruct (at_buf_valid i B H P D k j bno) as (bb&Hbb&_&_&_&Hda); [done|by left|done|].
  assert (bb = b) as -> by congruence. destruct (held_ref i B H P D k j b bno Hf Hin Hj Hd Hb) as (Hr&_). unfold bpin.
  eapply runs_at; [by apply acquire_ok|]. eapply runs_at; [done|]. eapply runs_intro; [by apply release_ok|].
  split; [done|]. set (k' := k <| bufs ::= _ |>). assert (bno ∈ P ++ [bno]) by (apply elem_of_app; right; apply list_elem_of_here).
  destruct (change_fs i B H P (P ++ [bno]) D (filter (fun x => x <> bno) D) k k' j b bno (B bno)) as [H1 H2]; try done.
  - apply Hf.
  - cbn. rewrite (linsert_alter _ _ _ b) by done. f_equal. unfold mem_in in *. rewrite decide_False in Hr by done. rewrite decide_True by done. rewrite Hr. destruct b. cbn in *. by subst.
  - intros x Hx. rewrite elem_of_app, list_elem_of_singleton, list_elem_of_filter. tauto.
  - apply NoDup_app. split; [apply Hf|]. split; [|apply NoDup_singleton]. intros x Hx ->%list_elem_of_singleton. done.
  - split; [|done]. eapply fsok_ext; [|exact H1]. intros. by rewrite bset_id.
Qed.

(** [log_write] of a block that is already in the log changes nothing. *)
Lemma log_write_absorb start i B H P D c k j bno :
  fsok i B H P D k -> logok start P k -> user i c -> bno ∈ H -> at_buf k j bno -> bno ∈ P -> (length P < 30)%nat ->
  log_write j c k = Done tt c k.
Proof.
  intros Hf Hl [Hi Hh] Hin (b&Hj&Hd&Hb) HP Hlt. pose proof Hl as [[Hn Hlen Ht Hr Hdv Hst] Hout]. unfold log_write.
  erewrite bind_done by (by apply acquire_ok, not_held). erewrite bind_done by done.
  rewrite Z.geb_leb. destruct (Z.leb_spec LOGBLOCKS (l_n (log k))); [lia|]. destruct (Z.ltb_spec (l_outstanding (log k)) 1); [lia|].
  erewrite bind_done by (by apply getbuf_done). rewrite Hn, Nat2Z.id, Hb.
  erewrite bind_done by (apply (absorb_ok _ _ 0 _ _ P); done). rewrite drop_0. cbn [Nat.add].
  pose proof (place_in bno P HP) as Hpl. assert (Hplt := lookup_lt_Some _ _ _ Hpl).
  erewrite bind_done by (apply set_block_ok; [lia|]; by eapply Forall_lookup_1 in Hr).
  destruct (Z.eqb_spec (Z.of_nat (place bno P)) (Z.of_nat (length P))); [lia|]. erewrite bind_done by done.
  rewrite release_ok by (by apply not_held). f_equal. apply log_same, block_same, list_insert_id.
  by eapply logat_block; [apply Hl|].
Qed.

Lemma log_write_new start i B H P D c k j bno :
  fsok i B H P D k -> logok start P k -> user i c -> bno ∈ H -> at_buf k j bno -> bno ∉ P -> (length P < 30)%nat -> bno_ok bno ->
  runs (log_write j) c k (fun _ c' k' => c' = c /\ fsok i B H (P ++ [bno]) (filter (fun x => x <> bno) D) k' /\ logok start (P ++ [bno]) k' /\
    keep_bufs H k k' /\ fsframe k k').
Proof.
  intros Hf Hl [Hi Hh] Hin (b&Hj&Hd&Hb) HP Hlt Hbok. pose proof Hl as [[Hn Hlen Ht Hr Hdv Hst] Hout]. unfold log_write.
  eapply runs_at; [by apply acquire_ok, not_held|]. eapply runs_at; [done|].
  rewrite Z.geb_leb. destruct (Z.leb_spec LOGBLOCKS (l_n (log k))); [lia|]. destruct (Z.ltb_spec (l_outstanding (log k)) 1); [lia|].
  eapply runs_at; [by apply getbuf_done|]. rewrite Hn, Nat2Z.id, Hb.
  eapply runs_at; [by apply (absorb_ok _ _ 0 _ _ P)|]. rewrite drop_0, place_notin by done. cbn [Nat.add].
  eapply runs_at; [by apply set_block_ok; [lia|]|]. rewrite Z.eqb_refl. set (k1 := k <| log ::= _ |>).
  eapply runs_bind, runs_bind, runs_mono; [eapply (bpin_fs i B H P D _ k1 j bno); try done|].
  - by eapply (fsok_other i B H P D k).
  - cbn. rewrite Hh. by intros ?%list_elem_of_singleton.
  - by exists b.
  - intros [] c2 k2 (->&Hf2&Hk2&Hc2). cbv beta. eapply runs_intro; [done|]. cbv beta. eapply runs_intro; [by apply release_ok, not_held|].
    split; [done|]. split; [by eapply fsok_other; [..|exact Hf2]|]. split; [|split; [exact Hk2|]].
    + split; [split|]; cbn; rewrite ?(cframe_log _ _ Hc2); cbn; rewrite ?length_insert, ?length_app; cbn; try done.
      * rewrite Hn, i32_small by lia. lia.
      * rewrite Nat.add_1_r. rewrite (take_S_r _ _ bno) by (apply list_lookup_insert_eq; lia). f_equal. by rewrite take_insert, decide_False by lia.
      * apply Forall_app. split; [done|]. by apply Forall_singleton.
    + exact (cframe_fs _ _ Hc2).
Qed.

Lemma log_write_fs start i B H P D D' c k j bno :
  fsok i B H P D k -> logok start P k -> user i c -> bno ∈ H -> at_buf k j bno -> (length P < 30)%nat -> bno_ok bno ->
  (forall x, x ∈ D' <-> x ∈ D /\ x <> bno) ->
  runs (log_write j) c k (fun _ c' k' => c' = c /\ fsok i B H (logged bno P) D' k' /\ logok start (logged bno P) k' /\
    keep_bufs H k k' /\ fsframe k k').
Proof.
  intros Hf Hl Hu Hin Ha Hlt Hbok HD. unfold logged. destruct (decide (bno ∈ P)) as [HP|HP].
  - eapply runs_intro; [by eapply log_write_absorb|]. split; [done|]. split; [|split; [done|split; [by apply keep_bufs_other|done]]].
    destruct Hf. split; try done.
    + intros x [Hx _]%HD. auto.
    + intros x HnP HnD. apply fo_disk; [done|]. intros Hx. apply HnD, HD. split; [done|]. by intros ->.
  - eapply runs_mono; [by eapply log_write_new|]. intros [] c' k' (->&Hf'&?). split; [done|]. split; [|done].
    eapply fsok_dirty; [|exact Hf']. intros x. rewrite HD, list_elem_of_filter. tauto.
Qed.

Lemma bunpin_fs i B H P P' c k j bno :
  fsok i B H P [] k -> LBcache ∉ held c -> bno ∈ H -> at_buf k j bno -> bno ∈ P -> dblk k bno = B bno ->
  NoDup P' -> (forall x, x ∈ P' <-> x ∈ P /\ x <> bno) ->
  runs (bunpin j) c k (fspost c k H (fun _ k' => fsok i B H P' [] k')).
Proof.
  intros Hf Hh Hin Ha HP Hdk Hnd HP'. pose proof Ha as (b&Hj&Hd&Hb). destruct (at_buf_valid i B H P [] k j bno) as (bb&Hbb&_&_&_&Hda); [done|by left|done|].
  assert (bb = b) as -> by congruence. destruct (held_ref i B H P [] k j b bno Hf Hin Hj Hd Hb) as (Hr&_). unfold bunpin.
  eapply runs_at; [by apply acquire_ok|]. eapply runs_at; [done|]. eapply runs_intro; [by apply release_ok|].
  split; [done|]. set (k' := k <| bufs ::= _ |>). assert (bno ∉ P') by (rewrite HP'; tauto).
  destruct (change_fs i B H P P' [] [] k k' j b bno (B bno)) as [H1 H2]; try done.
  - apply Hf.
  - cbn. rewrite (linsert_alter _ _ _ b) by done. f_equal. unfold mem_in in *. rewrite decide_True in Hr by done. rewrite decide_False by done. rewrite Hr. destruct b. cbn in *. by subst.
  - intros x Hx. rewrite HP'. tauto.
  - split; [|done]. eapply fsok_ext; [|exact H1]. intros. by rewrite bset_id.
Qed.

(** [bread] in a run of writes. *)
Lemma bread_w {A} i B H P D c k bno (f : nat -> M A) (Q : A -> cpu -> kernel -> Prop) :
  fsok i B H P D k -> bno ∉ H -> user i c -> bno ∈ P \/ (length H + length P < 30)%nat ->
  (forall j k', fsok i B (bno :: H) P D k' -> at_buf k' j bno -> keep_bufs H k k' -> wrote [] k k' -> runs (f j) c k' Q) ->
  runs (bind (bread 1 bno) f) c k Q.
Proof.
  intros Hf Hn Hu Hlt Hk. eapply runs_step; [by eapply bread_fs|]. intros j c' k' (->&(?&?)&?&?). apply Hk; auto using wrote_cframe.
Qed.

Lemma brelse_w {A} i B H P D c k j bno (f : unit -> M A) (Q : A -> cpu -> kernel -> Prop) :
  fsok i B (bno :: H) P D k -> user i c -> at_buf k j bno -> bno ∉ D ->
  (forall k', fsok i B H P D k' -> keep_bufs (bno :: H) k k' -> wrote [] k k' -> runs (f tt) c k' Q) ->
  runs (bind (brelse j) f) c k Q.
Proof.
  intros Hf Hu Ha HD Hk. eapply runs_step; [by eapply brelse_fs|]. intros [] c' k' (->&?&?&?). apply Hk; auto using wrote_cframe.
Qed.

(** New data for a held block, written at once. *)
Lemma write_w {A} i B H P c k j bno d (f : unit -> M A) (Q : A -> cpu -> kernel -> Prop) :
  fsok i B H P [] k -> user i c -> bno ∈ H -> at_buf k j bno -> block_ok d ->
  (forall k', fsok i (bset B bno d) H P [] k' -> keep_bufs H k k' -> wrote [(bno, d)] k k' -> runs (f tt) c k' Q) ->
  runs (moddata j (fun _ => d) ;; bind (bwrite j) f) c k Q.
Proof.
  intros Hf Hu Hin Ha Hd Hk. eapply runs_step; [by eapply (moddata_fs i B H P [] c k j bno (fun _ => d))|]. intros [] c' k1 (->&Hf1&Hk1&Hc1).
  eapply runs_step; [eapply (bwrite_fs i _ H P [bno] []); [exact Hf1|done|done|by eapply Hk1|]|].
  { intros x. rewrite elem_of_nil, list_elem_of_singleton. tauto. }
  intros [] c' k2 (->&Hf2&Ed&Ew&Hk2&_&Hw). rewrite bset_eq in *. apply Hk; [done|by eapply keep_bufs_trans|].
  apply (wrote_trans [] _ k k1 k2); [by apply wrote_cframe|by apply wrote_one].
Qed.

Lemma write_log_loop_fs start i B0 P1 P2 B c k :
  fsok i B [] (P1 ++ P2) [] k -> logat start (P1 ++ P2) k -> user i c -> (length (P1 ++ P2) <= 29)%nat -> start_ok start ->
  off_log start (P1 ++ P2) -> (forall p, p ∈ P2 -> B p = B0 p) ->
  runs (write_log_loop (length P2) (Z.of_nat (length P1))) c k (fun _ c' k' =>
    c' = c /\ fsok i (replay (log_writes start (Z.of_nat (length P1)) B0 P2) B) [] (P1 ++ P2) [] k' /\
    wrote (log_writes start (Z.of_nat (length P1)) B0 P2) k k').
Proof.
  revert P1 B k. induction P2 as [|p P2 IH]; intros P1 B k Hf Hl Hu Hlen Hs Hoff HB; cbn [length write_log_loop log_writes].
  { eapply runs_intro; [done|]. split; [done|]. split; [done|]. by apply wrote_cframe. }
  assert (Hp : p ∈ P1 ++ p :: P2) by (rewrite elem_of_app, elem_of_cons; auto). assert (Hlp : (length P1 < 30)%nat) by (rewrite length_app in Hlen; cbn in Hlen; lia).
  set (t := start + Z.of_nat (length P1) + 1). assert (Hpt : p <> t) by (eapply off_log_elem; [done|done|unfold in_log, t; lia]).
  eapply runs_at; [done|]. rewrite (lo_dev _ _ _ Hl), (lo_start _ _ _ Hl). unfold start_ok in Hs. rewrite (u32_small 1), (u32_small (_ + _)) by (unfold t in *; lia). fold t.
  eapply (bread_w i B [] _ [] c k t); [done|apply not_elem_of_nil|done|right; cbn; lia|]. intros jt k1 Hf1 Ht1 _ W1.
  eapply runs_at; [apply get_block_ok; rewrite (wrote_log _ _ _ W1); eapply logat_block; [done|by apply list_lookup_middle]|].
  rewrite (u32_small p) by (pose proof (lo_range _ _ _ Hl) as Hr; rewrite Forall_forall in Hr; specialize (Hr p Hp); unfold bno_ok in Hr; lia).
  eapply (bread_w i B [t] _ [] c k1 p); [done|by rewrite list_elem_of_singleton|done|by left|]. intros jf k2 Hf2 Ha2 Hk2 W2.
  eapply runs_at; [eapply bdata_fs; [exact Hf2|right; exact Hp|done]|].
  eapply (write_w i B [p; t] _ c k2 jt t (B p)); [done|done|rewrite !elem_of_cons; auto|apply Hk2; [apply list_elem_of_here|done]|apply Hf|]. intros k3 Hf3 Hk3 W3.
  eapply (brelse_w i _ [t] _ [] c k3 jf p); [done|done|apply Hk3; [apply list_elem_of_here|done]|apply not_elem_of_nil|]. intros k4 Hf4 Hk4 W4.
  eapply (brelse_w i _ [] _ [] c k4 jt t); [done|done| |apply not_elem_of_nil|].
  { apply Hk4, Hk3, Hk2; [rewrite !elem_of_cons; auto..|apply list_elem_of_here|done]. }
  intros k5 Hf5 _ W5. assert (W : wrote [(t, B p)] k k5).
  { change [(t, B p)] with ([] ++ [] ++ [(t, B p)] ++ [] ++ []). by repeat (eapply wrote_trans; [eassumption|]). }
  replace (Z.of_nat (length P1) + 1) with (Z.of_nat (length (P1 ++ [p]))) by (rewrite length_app; cbn; lia).
  rewrite (app_assoc P1 [p] P2 : P1 ++ p :: P2 = _) in *. rewrite <- (HB p) by apply list_elem_of_here.
  eapply runs_mono; [eapply (IH (P1 ++ [p]) (bset B t (B p)) k5); try done|].
  - eapply logat_log; [by eapply wrote_log|done].
  - intros q Hq. rewrite bset_ne; [apply HB, list_elem_of_further, Hq|]. eapply off_log_elem; [exact Hoff|rewrite !elem_of_app; auto|unfold in_log, t; lia].
  - intros [] c' k' (->&Hf'&W'). split; [done|]. split; [exact Hf'|]. exact (wrote_trans _ _ _ _ _ W W').
Qed.

Lemma moddata_w {A} i B H P D c k j bno g (f : unit -> M A) (Q : A -> cpu -> kernel -> Prop) :
  fsok i B H P D k -> bno ∈ H -> at_buf k j bno -> block_ok (g (B bno)) -> bno ∈ D \/ D = [] ->
  (forall k', fsok i (bset B bno (g (B bno))) H P (if decide (bno ∈ D) then D else [bno]) k' -> keep_bufs H k k' -> cframe k k' -> runs (f tt) c k' Q) ->
  runs (bind (moddata j g) f) c k Q.
Proof.
  intros Hf Hin Ha Hg HD Hk. eapply runs_step; [by eapply (moddata_fs i B H P D c k j bno g)|]. intros [] c' k1 (->&Hf1&Hk1&Hc1). apply Hk; [|done..].
  eapply fsok_dirty; [|exact Hf1]. intros x. case_decide as HD'.
  - rewrite elem_of_cons. split; [auto|]. by intros [->|].
  - destruct HD as [? | ->]; [done|]. done.
Qed.

Lemma bset_bset B bno d d' x : bset (bset B bno d) bno d' x = bset B bno d' x.
Proof. unfold bset. by case_decide. Qed.

Lemma write_head_loop_fs start i B P Q1 Q2 c k j d :
  fsok i (bset B start d) [start] P [start] k -> logat start (Q1 ++ Q2) k -> user i c -> at_buf k j start -> (length (Q1 ++ Q2) <= 30)%nat -> block_ok d ->
  runs (write_head_loop (length Q2) (Z.of_nat (length Q1)) j) c k (fun _ c' k' =>
    c' = c /\ fsok i (bset B start (put_blocks (Z.of_nat (length Q1)) Q2 d)) [start] P [start] k' /\ at_buf k' j start /\ cframe k k').
Proof.
  revert Q1 k d. induction Q2 as [|q Q2 IH]; intros Q1 k d Hf Hl Hu Ha Hlen Hd; cbn [length write_head_loop put_blocks]; [done|].
  assert (Hq : (length Q1 < 30)%nat) by (rewrite length_app in Hlen; cbn in Hlen; lia).
  eapply runs_at; [apply get_block_ok; eapply logat_block; [done|by apply list_lookup_middle]|].
  eapply (moddata_w i _ [start] P [start] c k j start); [done|apply list_elem_of_here|done|rewrite bset_eq; apply put_block_ok; [done|lia]|left; apply list_elem_of_here|].
  intros k1 Hf1 Hk1 Hc1. rewrite decide_True in Hf1 by apply list_elem_of_here. rewrite bset_eq in Hf1.
  replace (Z.of_nat (length Q1) + 1) with (Z.of_nat (length (Q1 ++ [q]))) by (rewrite length_app; cbn; lia).
  rewrite (app_assoc Q1 [q] Q2 : Q1 ++ q :: Q2 = _) in *.
  eapply runs_mono; [eapply (IH (Q1 ++ [q]) k1)|].
  - eapply fsok_ext; [|exact Hf1]. intros x. by rewrite bset_bset.
  - eapply logat_log; [by eapply cframe_log|done].
  - done.
  - by apply Hk1; [apply list_elem_of_here|].
  - done.
  - apply put_block_ok; [done|lia].
  - intros [] c' k' (->&?&?&?). split; [done|]. split; [done|]. split; [done|]. by eapply cframe_trans.
Qed.

Lemma write_head_fs start i B P Q c k :
  fsok i B [] P [] k -> logat start Q k -> user i c -> (length P <= 29)%nat -> (length Q <= 30)%nat -> start_ok start ->
  runs write_head c k (fun _ c' k' => c' = c /\ fsok i (bset B start (header Q (B start))) [] P [] k' /\ wrote [(start, header Q (B start))] k k').
Proof.
  intros Hf Hl Hu Hlen Hq Hs. unfold write_head. eapply runs_at; [done|]. rewrite (lo_dev _ _ _ Hl), (lo_start _ _ _ Hl), (lo_n _ _ _ Hl), Nat2Z.id.
  unfold start_ok in Hs. rewrite (u32_small 1), (u32_small start) by lia.
  eapply (bread_w i B [] _ [] c k start); [done|apply not_elem_of_nil|done|right; cbn; lia|]. intros j k1 Hf1 Ha1 _ W1.
  eapply (moddata_w i B [start] P [] c k1 j start); [done|apply list_elem_of_here|done|apply put_n_ok, Hf|by right|].
  intros k2 Hf2 Hk2 Hc2. rewrite decide_False in Hf2 by apply not_elem_of_nil.
  eapply runs_step; [eapply (write_head_loop_fs start i B P [] Q c k2 j); [exact Hf2| |done| |done|apply put_n_ok, Hf]|].
  { eapply logat_log; [|exact Hl]. rewrite (cframe_log _ _ Hc2). by eapply wrote_log. }
  { apply Hk2; [apply list_elem_of_here|done]. }
  intros [] c' k3 (->&Hf3&Ha3&Hc3). fold (header Q (B start)) in *.
  eapply runs_step; [eapply (bwrite_fs i _ [start] P [start] []); [exact Hf3|done|apply list_elem_of_here|done|]|].
  { intros x. rewrite elem_of_nil, list_elem_of_singleton. tauto. }
  intros [] c' k4 (->&Hf4&Ed&Ew&Hk4&_&Hw). rewrite bset_eq in *.
  eapply runs_mono; [eapply (brelse_fs i _ [] P [] c k4 j start); [done|done| |apply not_elem_of_nil]|].
  { apply Hk4; [apply list_elem_of_here|done]. }
  intros [] c' k5 (->&Hf5&_&Hc5). split; [done|]. split; [done|].
  assert (W4 : wrote [(start, header Q (B start))] k3 k4) by (by apply wrote_one).
  change [(start, header Q (B start))] with ([] ++ [] ++ [] ++ [(start, header Q (B start))] ++ []).
  repeat (eapply wrote_trans; [first [eassumption|by eapply wrote_cframe]|]). by apply wrote_cframe.
Qed.

Lemma recovering_msg t d : exists cs, format (str ("recovering tail %d dst %d" +:+ nl)) [VInt t; VInt d] = Some cs.
Proof. eexists. reflexivity. Qed.

Lemma install_commit_fs start i Q1 Q2 B c k :
  fsok i B [] Q2 [] k -> logat start (Q1 ++ Q2) k -> user i c -> (length (Q1 ++ Q2) <= 29)%nat -> start_ok start ->
  off_log start (Q1 ++ Q2) -> (forall n q, Q2 !! n = Some q -> B (start + Z.of_nat (length Q1 + n) + 1) = B q) ->
  runs (install_trans_loop (length Q2) (Z.of_nat (length Q1)) false) c k (fun _ c' k' =>
    c' = c /\ fsok i B [] [] [] k' /\ wrote (home_writes start (Z.of_nat (length Q1)) B Q2) k k').
Proof.
  revert Q1 k. induction Q2 as [|q Q2 IH]; intros Q1 k Hf Hl Hu Hlen Hs Hoff HB; cbn [length install_trans_loop home_writes].
  { eapply runs_intro; [done|]. split; [done|]. split; [done|]. by apply wrote_cframe. }
  assert (Hq : q ∈ Q1 ++ q :: Q2) by (rewrite elem_of_app, elem_of_cons; auto). assert (Hlq : (length Q1 + S (length Q2) <= 29)%nat) by (rewrite length_app in Hlen; cbn in Hlen; lia).
  set (t := start + Z.of_nat (length Q1) + 1). assert (Hqt : q <> t) by (eapply off_log_elem; [done|done|unfold in_log, t; lia]).
  assert (Et : B t = B q) by (rewrite <- (HB 0%nat q), Nat.add_0_r by done; done).
  eapply runs_at; [done|]. rewrite (lo_dev _ _ _ Hl), (lo_start _ _ _ Hl). unfold start_ok in Hs. rewrite (u32_small 1), (u32_small (_ + _)) by (unfold t in *; lia). fold t.
  eapply runs_at; [done|].
  eapply (bread_w i B [] _ [] c k t); [done|apply not_elem_of_nil|done|right; cbn; lia|]. intros jl k1 Hf1 Ht1 _ W1.
  eapply runs_at; [apply get_block_ok; rewrite (wrote_log _ _ _ W1); eapply logat_block; [done|by apply list_lookup_middle]|].
  rewrite (u32_small q) by (pose proof (lo_range _ _ _ Hl) as Hr; rewrite Forall_forall in Hr; specialize (Hr q Hq); unfold bno_ok in Hr; lia).
  eapply (bread_w i B [t] _ [] c k1 q); [done|by rewrite list_elem_of_singleton|done|left; apply list_elem_of_here|]. intros jd k2 Hf2 Ha2 Hk2 W2.
  eapply runs_at; [eapply (bdata_fs _ _ _ _ _ _ _ _ t); [exact Hf2|left; rewrite !elem_of_cons; auto|apply Hk2; [apply list_elem_of_here|done]]|].
  eapply (write_w i B [q; t] _ c k2 jd q (B t)); [done|done|apply list_elem_of_here|done|apply Hf|]. intros k3 Hf3 Hk3 W3.
  eapply fsok_ext in Hf3; [|intros x; symmetry; rewrite Et; apply bset_id].
  assert (Hnd := fo_pinned _ _ _ _ _ _ Hf). apply NoDup_cons in Hnd as [Hnq Hnd].
  eapply runs_step; [eapply (bunpin_fs i B [q; t] (q :: Q2) Q2 c k3 jd q); [done|by apply not_held, Hu|apply list_elem_of_here|apply Hk3; [apply list_elem_of_here|done]|apply list_elem_of_here| |done|]|].
  { rewrite (wr_disk _ _ _ W3). cbn. by rewrite bset_eq. }
  { intros x. rewrite elem_of_cons. split; [|tauto]. intros Hx. split; [auto|]. by intros ->. }
  intros [] c' k4 (->&Hf4&Hk4&Hc4). pose proof (wrote_cframe _ _ Hc4) as W4.
  eapply (brelse_w i B [q] Q2 [] c k4 jl t); [|done|apply Hk4, Hk3, Hk2; [rewrite !elem_of_cons; auto..|apply list_elem_of_here|done]|apply not_elem_of_nil|].
  { eapply fsok_perm; [|exact Hf4]. apply perm_swap. }
  intros k5 Hf5 Hk5 W5. eapply (brelse_w i B [] Q2 [] c k5 jd q); [done|done| |apply not_elem_of_nil|].
  { apply Hk5, Hk4, Hk3; [rewrite !elem_of_cons; auto..|done]. }
  intros k6 Hf6 _ W6. assert (W : wrote [(q, B t)] k k6).
  { change [(q, B t)] with ([] ++ [] ++ [(q, B t)] ++ [] ++ [] ++ []). by repeat (eapply wrote_trans; [eassumption|]). }
  replace (Z.of_nat (length Q1) + 1) with (Z.of_nat (length (Q1 ++ [q]))) by (rewrite length_app; cbn; lia).
  rewrite (app_assoc Q1 [q] Q2 : Q1 ++ q :: Q2 = _) in *.
  eapply runs_mono; [eapply (IH (Q1 ++ [q]) k6); try done|].
  - eapply logat_log; [by eapply wrote_log|done].
  - intros n x Hx. rewrite <- (HB (S n) x) by done. f_equal. rewrite length_app. cbn. lia.
  - intros [] c' k' (->&Hf'&W'). split; [done|]. split; [exact Hf'|]. exact (wrote_trans _ _ _ _ _ W W').
Qed.

Lemma install_recover_fs start i Q1 Q2 B0 B c k :
  fsok i B [] [] [] k -> logat start (Q1 ++ Q2) k -> user i c -> (length (Q1 ++ Q2) <= 30)%nat -> start_ok start ->
  off_log start (Q1 ++ Q2) -> (forall x, in_log start x -> B x = B0 x) ->
  runs (install_trans_loop (length Q2) (Z.of_nat (length Q1)) true) c k (fun _ c' k' =>
    c' = c /\ fsok i (replay (home_writes start (Z.of_nat (length Q1)) B0 Q2) B) [] [] [] k' /\ wrote (home_writes start (Z.of_nat (length Q1)) B0 Q2) k k').
Proof.
  revert Q1 B k. induction Q2 as [|q Q2 IH]; intros Q1 B k Hf Hl Hu Hlen Hs Hoff HB; cbn [length install_trans_loop home_writes].
  { eapply runs_intro; [done|]. split; [done|]. split; [done|]. by apply wrote_cframe. }
  assert (Hq : q ∈ Q1 ++ q :: Q2) by (rewrite elem_of_app, elem_of_cons; auto). assert (Hlq : (length Q1 < 30)%nat) by (rewrite length_app in Hlen; cbn in Hlen; lia).
  set (t := start + Z.of_nat (length Q1) + 1). assert (Hqt : q <> t) by (eapply off_log_elem; [done|done|unfold in_log, t; lia]).
  eapply runs_at; [done|]. rewrite (lo_dev _ _ _ Hl), (lo_start _ _ _ Hl). unfold start_ok in Hs. rewrite (u32_small 1), (u32_small (_ + _)) by (unfold t in *; lia). fold t.
  eapply runs_bind, runs_at; [apply get_block_ok; eapply logat_block; [done|by apply list_lookup_middle]|].
  destruct (recovering_msg (Z.of_nat (length Q1)) q) as [cs Hcs].
  eapply runs_intro; [apply (printf_done _ _ cs); [by apply not_held, Hu|exact Hcs]|]. cbv beta. set (k0 := k <| uart ::= _ |>).
  eapply (bread_w i B [] _ [] c k0 t); [by eapply (fsok_other i B [] [] [] k)|apply not_elem_of_nil|done|right; cbn; lia|]. intros jl k1 Hf1 Ht1 _ W1.
  eapply runs_at; [apply get_block_ok; rewrite (wrote_log _ _ _ W1); eapply (logat_block _ _ k); [done|by apply list_lookup_middle]|].
  rewrite (u32_small q) by (pose proof (lo_range _ _ _ Hl) as Hr; rewrite Forall_forall in Hr; specialize (Hr q Hq); unfold bno_ok in Hr; lia).
  eapply (bread_w i B [t] _ [] c k1 q); [done|by rewrite list_elem_of_singleton|done|right; cbn; lia|]. intros jd k2 Hf2 Ha2 Hk2 W2.
  eapply runs_at; [eapply (bdata_fs _ _ _ _ _ _ _ _ t); [exact Hf2|left; rewrite !elem_of_cons; auto|apply Hk2; [apply list_elem_of_here|done]]|].
  eapply (write_w i B [q; t] _ c k2 jd q (B t)); [done|done|apply list_elem_of_here|done|apply Hf|]. intros k3 Hf3 Hk3 W3. eapply runs_at; [done|].
  eapply (brelse_w i _ [q] [] [] c k3 jl t); [|done|apply Hk3, Hk2; [rewrite !elem_of_cons; auto..|apply list_elem_of_here|done]|apply not_elem_of_nil|].
  { eapply fsok_perm; [|exact Hf3]. apply perm_swap. }
  intros k4 Hf4 Hk4 W4. eapply (brelse_w i _ [] [] [] c k4 jd q); [done|done| |apply not_elem_of_nil|].
  { apply Hk4, Hk3; [rewrite !elem_of_cons; auto..|done]. }
  intros k5 Hf5 _ W5. assert (W : wrote [(q, B t)] k k5).
  { change [(q, B t)] with ([] ++ [] ++ [] ++ [(q, B t)] ++ [] ++ []). eapply wrote_trans; [apply (wrote_cframe k k0); done|]. by repeat (eapply wrote_trans; [eassumption|]). }
  replace (Z.of_nat (length Q1) + 1) with (Z.of_nat (length (Q1 ++ [q]))) by (rewrite length_app; cbn; lia).
  rewrite (app_assoc Q1 [q] Q2 : Q1 ++ q :: Q2 = _) in *. assert (Et : B0 t = B t) by (symmetry; apply HB; unfold in_log, t; lia). rewrite Et.
  eapply runs_mono; [eapply (IH (Q1 ++ [q]) (bset B q (B t)) k5); try done|].
  - eapply logat_log; [by eapply wrote_log|done].
  - intros x Hx. rewrite bset_ne; [by apply HB|]. intros ->. by eapply (off_log_elem _ _ q q).
  - intros [] c' k' (->&Hf'&W'). split; [done|]. split; [exact Hf'|]. exact (wrote_trans _ _ _ _ _ W W').
Qed.

Lemma read_head_loop_fs start i B c k j Q1 Q2 :
  fsok i B [start] [] [] k -> at_buf k j start -> (forall t q, (Q1 ++ Q2) !! t = Some q -> lh_block (B start) (Z.of_nat t) = q) ->
  (length (Q1 ++ Q2) <= 30)%nat -> Forall bno_ok (Q1 ++ Q2) -> length (l_block (log k)) = 30%nat -> take (length Q1) (l_block (log k)) = Q1 ->
  exists bl, length bl = 30%nat /\ take (length (Q1 ++ Q2)) bl = Q1 ++ Q2 /\
    read_head_loop (length Q2) (Z.of_nat (length Q1)) j c k = Done tt c (k <| log ::= fun lg => lg <| l_block := bl |> |>).
Proof.
  revert Q1 k. induction Q2 as [|q Q2 IH]; intros Q1 k Hf Ha HQ Hlen Hr Hbl Ht; cbn [length read_head_loop].
  { rewrite app_nil_r. exists (l_block (log k)). split; [done|]. split; [done|]. unfold ret. f_equal. symmetry. apply log_same. by destruct (log k). }
  assert (Hq : (length Q1 < 30)%nat) by (rewrite length_app in Hlen; cbn in Hlen; lia).
  erewrite bind_done by (eapply bdata_fs; [exact Hf|left; apply list_elem_of_here|done]).
  rewrite (HQ (length Q1) q) by (by apply list_lookup_middle).
  erewrite bind_done by (apply set_block_ok; [lia|]; rewrite Forall_forall in Hr; apply Hr; rewrite elem_of_app, elem_of_cons; auto).
  replace (Z.of_nat (length Q1) + 1) with (Z.of_nat (length (Q1 ++ [q]))) by (rewrite length_app; cbn; lia).
  set (k1 := k <| log ::= _ |>). rewrite (app_assoc Q1 [q] Q2 : Q1 ++ q :: Q2 = _) in *.
  destruct (IH (Q1 ++ [q]) k1) as (bl&?&?&E); try done.
  - by eapply (fsok_other i B [start] [] [] k).
  - cbn. by rewrite length_insert.
  - cbn. rewrite length_app, Nat.add_1_r. rewrite (take_S_r _ _ q) by (apply list_lookup_insert_eq; lia). by rewrite take_insert, decide_False, Ht by lia.
  - exists bl. split; [done|]. split; [done|]. exact E.
Qed.

Definition header_fits (start : Z) (d : list Z) : Prop :=
  0 <= lh_n d <= 30 /\ Forall bno_ok (header_list d) /\ off_log start (header_list d).

Lemma length_header_list d : length (header_list d) = Z.to_nat (lh_n d).
Proof. unfold header_list. by rewrite length_fmap, length_seq. Qed.

Lemma read_head_fs start i B P c k :
  fsok i B [] [] [] k -> logat start P k -> user i c -> start_ok start -> header_fits start (B start) ->
  runs read_head c k (fun _ c' k' => c' = c /\ fsok i B [] [] [] k' /\ logat start (header_list (B start)) k' /\ wrotel [] k k').
Proof.
  intros Hf Hl Hu Hs (Hn&Hr&Hoff). unfold read_head. eapply runs_at; [done|]. rewrite (lo_dev _ _ _ Hl), (lo_start _ _ _ Hl). unfold start_ok in Hs.
  rewrite (u32_small 1), (u32_small start) by lia. pose proof (length_header_list (B start)) as Hlh.
  eapply (bread_w i B [] _ [] c k start); [done|apply not_elem_of_nil|done|right; cbn; lia|]. intros j k1 Hf1 Ha1 _ W1.
  eapply runs_at; [eapply (bdata_fs i B [start]); [exact Hf1|left; apply list_elem_of_here|done]|].
  eapply runs_at; [done|]. set (k2 := k1 <| log ::= _ |>). rewrite <- Hlh.
  assert (El : log k1 = log k) by (by eapply wrote_log).
  destruct (read_head_loop_fs start i B c k2 j [] (header_list (B start))) as (bl&Hbl&Ht&E); [by eapply (fsok_other i B [start] [] [] k1)|done| |cbn; lia|done| |done|].
  { intros t q Hq. cbn in Hq. unfold header_list in Hq. rewrite list_lookup_fmap in Hq. apply fmap_Some in Hq as (x&Hx&->). by apply lookup_seq in Hx as [-> _]. }
  { cbn. rewrite El. apply Hl. }
  eapply runs_at; [exact E|]. set (k3 := k2 <| log ::= _ |>).
  eapply runs_mono; [eapply (brelse_fs i B [] [] [] c k3 j start); [by eapply (fsok_other i B [start] [] [] k1)|done|done|apply not_elem_of_nil]|].
  intros [] c' k4 (->&Hf4&_&Hc4). split; [done|]. split; [done|]. split.
  - eapply (logat_log _ _ k3); [by apply cframe_log|]. split; cbn; rewrite ?El; try done; [by rewrite Hlh, Z2Nat.id by lia|apply Hl..].
  - change [] with (([] ++ [] ++ []) : list (Z * list Z)). eapply wrotel_trans; [by apply wrote_l|].
    eapply wrotel_trans; [exact (wrotel_set k1 (lh_n (B start)) bl)|]. by apply wrote_l, wrote_cframe.
Qed.

Lemma logat_clear start P k : logat start P k -> logat start [] (k <| log ::= fun lg => lg <| l_n := 0 |> |>).
Proof. intros []. by split. Qed.

Lemma commit_fs start i B P c k :
  fsok i B [] P [] k -> logat start P k -> user i c -> (0 < length P <= 29)%nat -> start_ok start -> off_log start P ->
  runs commit c k (fun _ c' k' => c' = c /\ fsok i (replay (commit_writes start B P) B) [] [] [] k' /\ logat start [] k' /\
    wrotel (commit_writes start B P) k k').
Proof.
  intros Hf Hl Hu Hlen Hs Hoff. unfold commit. eapply runs_at; [done|]. rewrite (lo_n _ _ _ Hl). destruct (Z.gtb_spec (Z.of_nat (length P)) 0); [|lia].
  eapply runs_step; [unfold write_log; eapply runs_at; [done|]; rewrite (lo_n _ _ _ Hl), Nat2Z.id; eapply (write_log_loop_fs start i B [] P B c k); [done|done|done|cbn; lia|done..]|].
  intros [] c' k1 (->&Hf1&W1). cbn [app length] in *. set (B1 := replay _ B) in *.
  assert (EB1 : B1 start = B start). { apply replay_other. intros Hx%log_writes_in; [tauto|lia..]. }
  assert (Hl1 : logat start P k1) by (eapply logat_log; [by eapply wrote_log|done]).
  eapply runs_step; [eapply (write_head_fs start i B1 P P c k1); try done; lia|].
  intros [] c' k2 (->&Hf2&W2). rewrite EB1 in *. set (B2 := bset B1 start (header P (B start))) in *.
  assert (Hl2 : logat start P k2) by (eapply logat_log; [by eapply wrote_log|done]).
  assert (Hne : forall p, p ∈ P -> B2 p = B p).
  { intros p Hp. unfold B2. rewrite bset_ne by (eapply off_log_elem; [done|done|unfold in_log; lia]). apply replay_other.
    intros [Hx _]%log_writes_in; [|lia..]. exact (off_log_elem start P p p Hoff Hp Hx eq_refl). }
  assert (Hlog : forall n q, P !! n = Some q -> B2 (start + (0 + Z.of_nat n) + 1) = B q).
  { intros n q Hq. unfold B2. rewrite bset_ne by lia. by apply log_writes_at. }
  eapply runs_step; [unfold install_trans; eapply runs_at; [done|]; rewrite (lo_n _ _ _ Hl2), Nat2Z.id; eapply (install_commit_fs start i [] P B2 c k2); [done|done|done|cbn; lia|done|done|]|].
  { intros n q Hq. cbn. rewrite (Hne q) by (by eapply list_elem_of_lookup_2). by apply Hlog. }
  intros [] c' k3 (->&Hf3&W3). cbn [length] in W3. rewrite (home_writes_at _ _ _ B) in W3 by exact Hlog.
  eapply runs_at; [done|]. set (k4 := k3 <| log ::= _ |>).
  assert (Hl4 : logat start [] k4) by (eapply logat_clear, logat_log; [by eapply wrote_log|done]).
  eapply runs_mono; [eapply (write_head_fs start i B2 [] [] c k4); [by eapply (fsok_other i B2 [] [] [] k3)|done|done|cbn; lia|cbn; lia|done]|].
  intros [] c' k5 (->&Hf5&W5). unfold B2 in Hf5 at 2. unfold B2 in W5 at 1. rewrite bset_eq in Hf5, W5. split; [done|]. split; [|split].
  - eapply fsok_ext; [|exact Hf5]. intros x. unfold commit_writes. rewrite !replay_app.
    change (bset (replay ((fun p => (p, B p)) <$> P) B2) start (header [] (header P (B start))) x = bset B2 start (header [] (header P (B start))) x).
    apply bset_ext. intros y. by apply replay_home.
  - eapply logat_log; [by eapply wrote_log|done].
  - unfold commit_writes. eapply wrotel_trans; [by apply wrote_l|]. eapply wrotel_trans; [by apply wrote_l|]. eapply wrotel_trans; [by apply wrote_l|].
    apply (wrotel_trans [] _ k3 k4 k5); [apply wrotel_n|by apply wrote_l].
Qed.

Lemma recover_fs start i B P c k :
  fsok i B [] [] [] k -> logat start P k -> user i c -> start_ok start -> header_fits start (B start) ->
  runs recover_from_log c k (fun _ c' k' => c' = c /\ fsok i (replay (recover_writes start B) B) [] [] [] k' /\ logat start [] k' /\
    wrotel (recover_writes start B) k k').
Proof.
  intros Hf Hl Hu Hs Hfit. unfold recover_from_log. eapply runs_step; [by eapply (read_head_fs start i B)|]. intros [] c' k1 (->&Hf1&Hl1&W1).
  destruct Hfit as (Hn&Hr&Hoff). set (Q := header_list (B start)) in *. assert (HQ : (length Q <= 30)%nat) by (unfold Q; rewrite length_header_list; lia).
  eapply runs_step; [unfold install_trans; eapply runs_at; [done|]; rewrite (lo_n _ _ _ Hl1), Nat2Z.id; by eapply (install_recover_fs start i [] Q B B c k1); try done|].
  intros [] c' k2 (->&Hf2&W2). cbn [length app] in *. eapply runs_at; [done|]. set (k3 := k2 <| log ::= _ |>).
  assert (Hl3 : logat start [] k3) by (eapply logat_clear, logat_log; [by eapply wrote_log|done]).
  set (B2 := replay _ B) in *. assert (E2 : B2 start = B start).
  { apply replay_other. rewrite home_writes_dom. intros Hx. apply (off_log_elem start Q start start Hoff Hx); [unfold in_log; lia|done]. }
  eapply runs_mono; [eapply (write_head_fs start i B2 [] [] c k3); [by eapply (fsok_other i B2 [] [] [] k2)|done|done|cbn; lia|cbn; lia|done]|].
  intros [] c' k4 (->&Hf4&W4). rewrite E2 in *. split; [done|]. split; [|split].
  - unfold recover_writes. by rewrite replay_app.
  - eapply logat_log; [by eapply wrote_log|done].
  - unfold recover_writes. eapply (wrotel_trans [] _ k k1); [done|]. eapply wrotel_trans; [by apply wrote_l|].
    apply (wrotel_trans [] _ k2 k3 k4); [apply wrotel_n|by apply wrote_l].
Qed.
End Runs.
