(* ===== verification/Crash.v ===== *)
(** * Crashes

    [binit] at boot; then the two theorems on crashes.  A crash during [commit]
    leaves a disk with some prefix of the writes of [commit]; the recovery at
    the next boot makes it the disk before the transaction or the disk after it.
    A crash during the recovery is repaired by the next one. *)

From S2P Require Import Prelude Riscv CString Fields Kernel Printf Sched Sleeplock Bio Bcache Log FsView Wal.
From stdpp Require Import base numbers strings gmap list.
From Stdlib Require Import ZArith Lia.

#[local] Open Scope Z_scope.
#[local] Open Scope kernel_scope.

(** ** The cache at boot *)

(** The buffers after [binit]: 29 first, 0 last. *)
Definition boot_buf (b : nat) : buf :=
  buf_0 <| b_prev := if decide (b = 29)%nat then HEAD else S b |> <| b_next := if decide (b = 0)%nat then HEAD else pred b |>.
Definition boot_bufs : list buf := boot_buf <$> seq 0 30.

Definition boot_cache (k : kernel) : kernel := k <| bufs := boot_bufs |> <| head_prev := 0%nat |> <| head_next := 29%nat |>.

Lemma binit_done c k : held c = [] -> bufs k = replicate 30 buf_0 -> binit c k = Done tt c (boot_cache k).
Proof. destruct c, k. cbn. intros -> ->. vm_compute. reflexivity. Qed.

Lemma boot_lookup b x : boot_bufs !! b = Some x -> x = boot_buf b.
Proof. unfold boot_bufs. rewrite list_lookup_fmap. intros (y&Hy&->)%fmap_Some. by apply lookup_seq in Hy as [-> _]. Qed.

Lemma boot_bcache k : bcache_ok (boot_cache k).
Proof.
  split.
  - done.
  - exists (rev (seq 0 30)). split; [by rewrite <- Permutation_rev|]. vm_compute. repeat split.
  - intros i j bi bj ->%boot_lookup ->%boot_lookup. done.
  - intros i bi ->%boot_lookup. cbn. lia.
Qed.

Definition disk_ok (k : kernel) : Prop := forall x, block_ok (dblk k x).

Lemma boot_fsok i k : length (procs k) = 64%nat -> (i < 64)%nat -> disk_ok k -> fsok i (dblk k) [] [] [] (boot_cache k).
Proof.
  intros Hn Hi Hd. split; try done.
  - apply boot_bcache.
  - by apply NoDup_nil.
  - by apply NoDup_nil.
  - intros j b ->%boot_lookup. by left.
  - intros j b ->%boot_lookup. done.
  - intros j b ->%boot_lookup. done.
  - intros bno [H|H]; by apply not_elem_of_nil in H.
  - intros j b ->%boot_lookup. done.
Qed.

(** ** What recovery makes of a disk *)

Definition recovered (start : Z) (d : Z -> list Z) : Z -> list Z := replay (recover_writes start d) d.

(** [same start d d']: the disks agree outside the log. *)
Definition same (start : Z) (d d' : Z -> list Z) : Prop := forall x, ~ in_log start x -> d x = d' x.

Lemma header_nil_n d : block_ok d -> lh_n (header [] d) = 0.
Proof. intros Hd. by rewrite header_n by (try done; cbn; lia). Qed.
Lemma header_list_nil d : lh_n d = 0 -> header_list d = [].
Proof. intros E. unfold header_list. by rewrite E. Qed.
Lemma header_fits_nil start d : lh_n d = 0 -> header_fits start d.
Proof. intros E. unfold header_fits. rewrite header_list_nil, E by done. split; [lia|]. split; by apply Forall_nil. Qed.

(** With an empty header only the header is written. *)
Lemma recovered_nil start d : lh_n (d start) = 0 -> same start (recovered start d) d.
Proof.
  intros E x Hx. unfold recovered, recover_writes. rewrite header_list_nil by done. cbn. apply bset_ne. intros ->. apply Hx. unfold in_log. lia.
Qed.

(** A block that is written does not depend on what was there. *)
Lemma replay_dom ws d d' x : x ∈ ws.*1 -> replay ws d x = replay ws d' x.
Proof.
  induction ws as [|w ws IH] using rev_ind; cbn; [by rewrite elem_of_nil|]. rewrite fmap_app, elem_of_app. intros Hx. rewrite !replay_app. cbn. unfold bset.
  case_decide; [done|]. apply IH. destruct Hx as [|Hx]; [done|]. cbn in Hx. by apply list_elem_of_singleton in Hx.
Qed.

Lemma home_value (f : Z -> list Z) P d p : p ∈ P -> replay ((fun p => (p, f p)) <$> P) d p = f p.
Proof.
  induction P as [|q P IH] using rev_ind; [by rewrite elem_of_nil|]. rewrite fmap_app, elem_of_app. intros Hp. rewrite replay_app. cbn. unfold bset.
  case_decide; [by subst|]. apply IH. destruct Hp as [|Hp]; [done|]. by apply list_elem_of_singleton in Hp.
Qed.

Lemma prefix_dom (ws ws' : list (Z * list Z)) x : ws `prefix_of` ws' -> x ∉ ws'.*1 -> x ∉ ws.*1.
Proof. intros [l ->]. rewrite fmap_app, elem_of_app. tauto. Qed.

Lemma home_dom (f : Z -> list Z) P : ((fun p => (p, f p)) <$> P).*1 = P.
Proof. rewrite <- list_fmap_compose. apply list_fmap_id. Qed.

(** *** Crash in [commit] *)

Section Commit.
Context (start : Z) (B d : Z -> list Z) (P : list Z).
Context (Hs : start_ok start) (HP : (length P <= 30)%nat) (Hr : Forall bno_ok P) (Hoff : off_log start P).
Context (HB : forall x, x ∉ P -> d x = B x) (Hok : block_ok (B start)) (H0 : lh_n (B start) = 0).

Lemma start_off : start ∉ P.
Proof. intros Hin. apply (off_log_elem start P start start Hoff Hin); [unfold in_log; lia|done]. Qed.

(** Before the header is written. *)
Lemma crash_before ws : ws `prefix_of` log_writes start 0 B P ->
  header_fits start (replay ws d start) /\ same start (recovered start (replay ws d)) d.
Proof.
  intros Hp. assert (Es : replay ws d start = B start).
  { rewrite replay_other; [apply HB, start_off|]. eapply prefix_dom; [exact Hp|]. intros [_ Hx]%log_writes_in; [done|lia..]. }
  split; [rewrite Es; by apply header_fits_nil|]. intros x Hx. rewrite recovered_nil by (try done; by rewrite Es).
  apply replay_other. eapply prefix_dom; [exact Hp|]. intros [Hi _]%log_writes_in; [done|lia..].
Qed.

(** Between the two writes of the header. *)
Lemma crash_after hs : hs `prefix_of` ((fun p => (p, B p)) <$> P) ->
  header_fits start (replay (log_writes start 0 B P ++ [(start, header P (B start))] ++ hs) d start) /\
  same start (recovered start (replay (log_writes start 0 B P ++ [(start, header P (B start))] ++ hs) d)) B.
Proof.
  intros Hp. rewrite !replay_app. set (d1 := replay (log_writes start 0 B P) d). set (d2 := replay [(start, header P (B start))] d1).
  assert (Hdom : forall x, x ∉ P -> x ∉ hs.*1) by (intros x Hx; eapply prefix_dom; [exact Hp|by rewrite home_dom]).
  assert (Es : replay hs d2 start = header P (B start)) by (rewrite replay_other by apply Hdom, start_off; apply bset_eq).
  assert (El : header_list (header P (B start)) = P) by (by apply header_list_header).
  split.
  - rewrite Es. unfold header_fits. rewrite El, header_n by done. split; [lia|done].
  - intros x Hx. unfold recovered, recover_writes. rewrite Es, El. rewrite (home_writes_at _ _ _ B).
    + rewrite replay_app. cbn. rewrite bset_ne by (intros ->; apply Hx; unfold in_log; lia).
      destruct (decide (x ∈ P)) as [Hin|Hin]; [by apply home_value|]. rewrite !replay_other by (rewrite ?home_dom; auto).
      unfold d2. cbn. rewrite bset_ne by (intros ->; apply Hx; unfold in_log; lia). unfold d1. rewrite replay_other; [by apply HB|].
      intros [Hi _]%log_writes_in; [done|lia..].
    + intros n p Hn. assert (Hlt := lookup_lt_Some _ _ _ Hn). rewrite replay_other.
      * unfold d2. cbn. rewrite bset_ne by lia. by apply log_writes_at.
      * apply Hdom. intros Hin. eapply (off_log_elem start P _ _ Hoff Hin); [|done]. unfold in_log. lia.
Qed.

(** After the last write. *)
Lemma crash_end :
  header_fits start (replay (commit_writes start B P) d start) /\
  (same start (recovered start (replay (commit_writes start B P) d)) d \/ same start (recovered start (replay (commit_writes start B P) d)) B).
Proof.
  unfold commit_writes. rewrite !app_assoc, replay_app, <- app_assoc. set (d3 := replay _ d).
  assert (E : lh_n (replay [(start, header [] (header P (B start)))] d3 start) = 0).
  { cbn. rewrite bset_eq. apply header_nil_n. by apply header_ok. }
  split; [by apply header_fits_nil|]. right. intros x Hx. rewrite recovered_nil by done.
  assert (Hne : x <> start) by (intros ->; apply Hx; unfold in_log; lia). cbn. rewrite bset_ne by done. unfold d3. rewrite !replay_app.
  destruct (decide (x ∈ P)) as [Hin|Hin]; [by apply home_value|]. rewrite replay_other by (by rewrite home_dom). cbn. rewrite bset_ne by done.
  rewrite replay_other; [by apply HB|]. intros [Hi _]%log_writes_in; [done|lia..].
Qed.

Lemma commit_result x : ~ in_log start x -> replay (commit_writes start B P) B x = B x.
Proof.
  intros Hx. assert (Hne : x <> start) by (intros ->; apply Hx; unfold in_log; lia).
  unfold commit_writes. rewrite !replay_app. cbn. rewrite bset_ne by done.
  destruct (decide (x ∈ P)) as [Hin|Hin]; [by apply home_value|]. rewrite replay_other by (by rewrite home_dom). rewrite bset_ne by done.
  apply replay_other. intros [Hi _]%log_writes_in; [done|lia..].
Qed.

Lemma crash_commit ws : ws `prefix_of` commit_writes start B P ->
  header_fits start (replay ws d start) /\ (same start (recovered start (replay ws d)) d \/ same start (recovered start (replay ws d)) B).
Proof.
  intros [l El]. unfold commit_writes in El.
  destruct (app_eq_app _ _ _ _ El) as (m&[[E1 E2]|[E1 E2]]).
  { destruct (crash_before ws) as [? ?]; [by exists m|]. auto. }
  destruct m as [|w m]; [rewrite app_nil_r in E1; subst; destruct (crash_before (log_writes start 0 B P)) as [? ?]; auto|].
  injection E2 as <- E2. destruct (app_eq_app _ _ _ _ E2) as (m'&[[E3 E4]|[E3 E4]]).
  { subst ws. destruct (crash_after m) as [? ?]; [by exists m'|]. auto. }
  destruct m' as [|w m']; [rewrite app_nil_r in E3; subst; destruct (crash_after ((fun p => (p, B p)) <$> P)) as [? ?]; auto|].
  injection E4 as <- E4. symmetry in E4. apply app_nil in E4 as [-> ->]. subst m ws. apply crash_end.
Qed.
End Commit.

(** *** Crash in the recovery *)

Lemma home_writes_ext start t f g P : (forall n p, P !! n = Some p -> f (start + (t + Z.of_nat n) + 1) = g (start + (t + Z.of_nat n) + 1)) ->
  home_writes start t f P = home_writes start t g P.
Proof.
  revert t. induction P as [|p P IH]; intros t Hf; [done|]. cbn. f_equal.
  - f_equal. specialize (Hf 0%nat p eq_refl). by rewrite Z.add_0_r in Hf.
  - apply IH. intros n q Hq. specialize (Hf (S n) q Hq). by replace (t + 1 + Z.of_nat n) with (t + Z.of_nat (S n)) by lia.
Qed.

Lemma recover_again_home start d rs :
  start_ok start -> header_fits start (d start) -> rs `prefix_of` home_writes start 0 d (header_list (d start)) ->
  header_fits start (replay rs d start) /\ same start (recovered start (replay rs d)) (recovered start d).
Proof.
  intros Hs Hfit Hp. pose proof Hfit as (Hn&Hr&Hoff). set (Q := header_list (d start)) in *.
  assert (HsQ : start ∉ Q) by (intros Hin; apply (off_log_elem start Q start start Hoff Hin); [unfold in_log; lia|done]).
  assert (Hdom : forall x, x ∉ Q -> replay rs d x = d x).
  { intros x Hx. apply replay_other. eapply prefix_dom; [exact Hp|by rewrite home_writes_dom]. }
  assert (Es : replay rs d start = d start) by (by apply Hdom). split; [by rewrite Es|]. intros x Hx. unfold recovered, recover_writes. rewrite Es. fold Q.
  assert (Hq : (length Q <= 30)%nat) by (unfold Q; rewrite length_header_list; lia).
  rewrite (home_writes_ext _ _ (replay rs d) d).
  2: { intros n p Hnp. assert (Hlt := lookup_lt_Some _ _ _ Hnp). apply Hdom. intros Hin. eapply (off_log_elem start Q); [exact Hoff|exact Hin| |done]. unfold in_log. lia. }
  rewrite !replay_app. cbn. assert (Hne : x <> start) by (intros ->; apply Hx; unfold in_log; lia). rewrite !bset_ne by done.
  destruct (decide (x ∈ Q)) as [Hin|Hin]; [by apply replay_dom; rewrite home_writes_dom|].
  rewrite !(replay_other (home_writes _ _ _ _)) by (by rewrite home_writes_dom). by apply Hdom.
Qed.

Lemma recover_again start d rs :
  start_ok start -> header_fits start (d start) -> block_ok (d start) -> rs `prefix_of` recover_writes start d ->
  header_fits start (replay rs d start) /\ same start (recovered start (replay rs d)) (recovered start d).
Proof.
  intros Hs Hfit Hok [l El]. unfold recover_writes in El.
  destruct (app_eq_app _ _ _ _ El) as (m&[[E1 E2]|[E1 E2]]); [apply recover_again_home; [done..|by exists m]|].
  destruct m as [|w m]; [rewrite app_nil_r in E1; subst rs; by apply recover_again_home|].
  injection E2 as <- E2. symmetry in E2. apply app_nil in E2 as [-> ->].
  change (rs = recover_writes start d) in E1. subst rs. fold (recovered start d).
  assert (E : lh_n (recovered start d start) = 0).
  { unfold recovered, recover_writes. rewrite replay_app. cbn. rewrite bset_eq. by apply header_nil_n. }
  split; [by apply header_fits_nil|by apply recovered_nil].
Qed.

(** ** The code *)

Section Code.
Context `{Fu : Fuel} `{Bd : BlockDevice}.

(** A machine that has booted from the disk [d], up to [recover_from_log]. *)
Definition booted (start : Z) (i : nat) (d : Z -> list Z) (k : kernel) : Prop := fsok i d [] [] [] k /\ logat start [] k.

Lemma recover_booted start i d c k :
  booted start i d k -> user i c -> start_ok start -> header_fits start (d start) ->
  runs recover_from_log c k (fun _ _ k' => exists ws, ws = recover_writes start d /\ writes k' = rev ws ++ writes k /\
    lh_n (dblk k' start) = 0 /\ forall x, dblk k' x = recovered start d x).
Proof.
  intros [Hf Hl] Hu Hs Hfit. eapply runs_mono; [by eapply (recover_fs start i d)|]. intros [] c' k' (->&Hf'&_&W).
  exists (recover_writes start d). split; [done|]. split; [apply W|].
  assert (E : forall x, dblk k' x = recovered start d x) by (intros x; by rewrite (fo_disk _ _ _ _ _ _ Hf') by apply not_elem_of_nil).
  split; [|done]. rewrite E. unfold recovered, recover_writes. rewrite replay_app. cbn. rewrite bset_eq. apply header_nil_n, Hf.
Qed.

(** C2. A commit is atomic under crashes.  [commit] of the pinned blocks [P], of which
    there is at least one and are at most 29, returns with every block outside the log on disk as the transaction made it
    ([B]).  If the machine stops after any number of the disk writes of [commit],
    then [recover_from_log] on a machine booted from that disk returns with an
    empty log and with all blocks as before the transaction, or all as after it. *)
Theorem commit_crash_atomic start i B P c k :
  fsok i B [] P [] k -> logat start P k -> user i c -> (0 < length P <= 29)%nat -> start_ok start -> off_log start P ->
  lh_n (B start) = 0 ->
  runs commit c k (fun _ c' k' => c' = c /\ same start (dblk k') B /\
    exists ws, writes k' = rev ws ++ writes k /\
    forall done_ws lost_ws, ws = done_ws ++ lost_ws ->
    forall j c1 k1, booted start j (replay done_ws (dblk k)) k1 -> user j c1 ->
    runs recover_from_log c1 k1 (fun _ _ kr => lh_n (dblk kr start) = 0 /\ (same start (dblk kr) (dblk k) \/ same start (dblk kr) B))).
Proof.
  intros Hf Hl Hu Hlen Hs Hoff H0. eapply runs_mono; [by eapply (commit_fs start i B P)|]. intros [] c' k' (->&Hf'&_&W). split; [done|].
  assert (HB : forall x, x ∉ P -> dblk k x = B x) by (intros x Hx; apply (fo_disk _ _ _ _ _ _ Hf); [done|apply not_elem_of_nil]).
  pose proof (fun ws => crash_commit start B (dblk k) P ltac:(lia) (lo_range _ _ _ Hl) Hoff HB (fo_block _ _ _ _ _ _ Hf start) H0 ws) as Hcrash.
  split.
  - intros x Hx. rewrite (fo_disk _ _ _ _ _ _ Hf') by apply not_elem_of_nil. apply commit_result; [lia|done..].
  - exists (commit_writes start B P). split; [apply W|]. intros ws1 ws2 E j c1 k1 Hb Hu1.
    destruct (Hcrash ws1) as [Hfit Hor]; [by exists ws2|].
    eapply runs_mono; [by eapply recover_booted|]. intros [] c2 k2 (ws&->&_&Hn&Ed). split; [done|].
    destruct Hor as [Ho|Ho]; [left|right]; intros x Hx; rewrite Ed; by apply Ho.
Qed.

(** C8. Recovery is idempotent.  [recover_from_log] on a machine booted from any
    disk with a sane log header returns; and if the machine stops after any number
    of its disk writes, a second recovery from that disk gives the same blocks
    outside the log as the first would have given. *)
Theorem recovery_idempotent start i d c k :
  booted start i d k -> user i c -> start_ok start -> header_fits start (d start) ->
  runs recover_from_log c k (fun _ _ k' => exists ws, writes k' = rev ws ++ writes k /\
    forall done_ws lost_ws, ws = done_ws ++ lost_ws ->
    forall j c1 k1, booted start j (replay done_ws d) k1 -> user j c1 ->
    runs recover_from_log c1 k1 (fun _ _ kr => same start (dblk kr) (dblk k'))).
Proof.
  intros Hb Hu Hs Hfit. eapply runs_mono; [by eapply recover_booted|]. intros [] c' k' (ws&->&W&_&Ed). exists (recover_writes start d). split; [done|].
  intros ws1 ws2 E j c1 k1 Hb1 Hu1. destruct (recover_again start d ws1) as [Hfit1 Hsame]; [done|done|apply Hb|by exists ws2|].
  eapply runs_mono; [by eapply recover_booted|]. intros [] c2 k2 (ws&->&_&_&Ed2) x Hx. rewrite Ed, Ed2. by apply Hsame.
Qed.
End Code.

(** ** An example *)

(** The state a call ends in. *)
Definition final {A} (m : M A) (c : cpu) (k : kernel) : kernel := match m c k with Done _ _ k' => k' | _ => k end.

Lemma runs_final {A} (m : M A) c k (Q : kernel -> Prop) : runs m c k (fun _ _ k' => Q k') -> Q (final m c k).
Proof. unfold runs, final. by destruct (m c k). Qed.

Module Demo.

#[local] Instance fuel : Fuel := 100%nat.
#[local] Existing Instance sync_device.

(** A machine after boot, its log at block 2, in a transaction of process 0. *)
Definition k0 : kernel := boot_cache (kernel_0 <| log := mklog 2 1 false 1 0 (replicate 30 0) |>).
Definition c0 : cpu := cpu_0 <| cpu_proc := Some 0%nat |>.

(** The transaction: the first byte of block 40 becomes 7. *)
Definition update : M unit :=
  b <- bread 1 40 ;;
  moddata b (fun d => splice d 0 [7]) ;;
  log_write b ;;
  brelse b.

Definition old (x : Z) : list Z := replicate 1024 0.
Definition new : Z -> list Z := bset old 40 (splice (old 40) 0 [7]).

Definition k1 : kernel := final update c0 k0.

Lemma k0_ok : fsok 0 old [] [] [] k0.
Proof. apply (fsok_ext _ (dblk k0)); [done|]. apply (boot_fsok 0); [done|lia|]. intros x. apply zeros_ok. Qed.

Lemma k0_booted : booted 2 0 old k0.
Proof. split; [apply k0_ok|]. by split. Qed.

Lemma update_runs : runs update c0 k0 (fun _ _ k => fsok 0 new [] [40] [] k /\ logok 2 [40] k).
Proof.
  assert (Hu : user 0 c0) by done. unfold update.
  eapply (bread_w 0 old [] [] [] c0 k0 40); [apply k0_ok|apply not_elem_of_nil|done|right; cbn; lia|]. intros j k Hf Ha _ W.
  eapply (moddata_w 0 old [40] [] [] c0 k j 40); [done|apply list_elem_of_here|done| |by right|].
  { split; [done|]. apply splice_bytes; [apply zeros_ok|]. apply Forall_singleton. unfold byte_ok. lia. }
  intros k2 Hf2 Hk2 Hc2. eapply runs_step; [eapply (log_write_fs 2 0 new [40] [] [40] [] c0 k2 j 40); [exact Hf2| |done|apply list_elem_of_here|..]|].
  - apply (logok_log _ _ k0); [by rewrite (cframe_log _ _ Hc2), (wrote_log _ _ _ W)|]. split; [apply k0_booted|done].
  - apply Hk2; [apply list_elem_of_here|done].
  - cbn. lia.
  - unfold bno_ok. lia.
  - intros x. rewrite elem_of_nil, list_elem_of_singleton. tauto.
  - intros [] c' k3 (->&Hf3&Hl3&Hk3&_). change (logged 40 []) with [40] in *.
    eapply runs_mono; [eapply (brelse_fs 0 new [] [40] [] c0 k3 j 40); [done|done| |apply not_elem_of_nil]|].
    { apply Hk3, Hk2; [apply list_elem_of_here..|done]. }
    intros [] c' k4 (->&Hf4&_&Hc4). split; [done|]. by eapply logok_log; [eapply cframe_log|].
Qed.

Lemma k1_ok : fsok 0 new [] [40] [] k1 /\ logat 2 [40] k1.
Proof. destruct (runs_final _ _ _ _ update_runs) as (?&?&?). done. Qed.

Lemma commit_crash_atomic_witness :
  runs commit c0 k1 (fun _ c' k' => c' = c0 /\ same 2 (dblk k') new /\
    exists ws, writes k' = rev ws ++ writes k1 /\
    forall done_ws lost_ws, ws = done_ws ++ lost_ws ->
    forall j c1 k2, booted 2 j (replay done_ws (dblk k1)) k2 -> user j c1 ->
    runs recover_from_log c1 k2 (fun _ _ kr => lh_n (dblk kr 2) = 0 /\ (same 2 (dblk kr) (dblk k1) \/ same 2 (dblk kr) new))).
Proof.
  apply (commit_crash_atomic 2 0 new [40] c0 k1); [apply k1_ok|apply k1_ok|done|cbn; lia|unfold start_ok; lia| |done].
  apply Forall_singleton. unfold in_log. lia.
Defined.

(** A machine booted from a disk whose log holds block 40. *)
Definition logged_40 : list Z := header [40] (old 2).
Definition d2 : Z -> list Z := bset old 2 logged_40.
Definition k2_ : kernel := kernel_0 <| log := mklog 2 1 false 1 0 (replicate 30 0) |> <| disk := {[2 := logged_40]} |>.
Definition k2 : kernel := boot_cache k2_.

Lemma logged_ok : block_ok logged_40.
Proof. apply header_ok; [apply zeros_ok|cbn; lia]. Qed.

Lemma k2_booted : booted 2 0 d2 k2.
Proof.
  assert (E : forall x, d2 x = dblk k2_ x).
  { intros x. unfold d2, bset, dblk, k2_. cbn. case_decide; [subst; by rewrite lookup_singleton_eq|by rewrite lookup_singleton_ne]. }
  split; [|by split]. apply (fsok_ext _ (dblk k2_)); [exact E|]. apply (boot_fsok 0 k2_); [done|lia|].
  intros x. rewrite <- E. unfold d2, bset. case_decide; [apply logged_ok|apply zeros_ok].
Qed.

Lemma recovery_idempotent_witness :
  runs recover_from_log c0 k2 (fun _ _ k' => exists ws, writes k' = rev ws ++ writes k2 /\
    forall done_ws lost_ws, ws = done_ws ++ lost_ws ->
    forall j c1 k3, booted 2 j (replay done_ws d2) k3 -> user j c1 ->
    runs recover_from_log c1 k3 (fun _ _ kr => same 2 (dblk kr) (dblk k'))).
Proof.
  apply (recovery_idempotent 2 0 d2 c0 k2); [apply k2_booted|done|unfold start_ok; lia|].
  unfold header_fits, d2. rewrite bset_eq. unfold logged_40. rewrite header_list_header, header_n; [|apply zeros_ok|cbn; lia|apply zeros_ok|cbn; lia|apply Forall_singleton; unfold bno_ok; lia].
  split; [cbn; lia|]. split; apply Forall_singleton; [unfold bno_ok|unfold in_log]; lia.
Defined.

Lemma bcache_invariant_witness :
  safe bcache_ok bio_panic (fun _ c' k' => bcache_ok k' /\ held c' = [] /\ cpu_proc c' = Some 0%nat) (bio_run (ORead 1 40) c0 k0).
Proof. apply (bcache_invariant (ORead 1 40) 0 c0 k0); [apply boot_bcache|done|done|done]. Defined.

End Demo.
