(* ===== verification/Fs.v ===== *)
(** * The file system: [fs.c]

    Blocks, inodes, file contents, directories and path names.  Pointers to
    [itable.inode[i]] are indices; null is [None].  On-disk structs are read
    and written as little-endian fields of the bytes of a block. *)

From S2P Require Import Prelude Riscv CString Kernel Printf Kalloc Vm Args Sched Sleeplock Bio Log.
From stdpp Require Import base numbers strings gmap list.
From Stdlib Require Import ZArith Lia.

#[local] Open Scope Z_scope.
#[local] Open Scope kernel_scope.

(** ** fs.h and stat.h *)
Abbreviation ROOTINO := 1%Z (only parsing).
Abbreviation FSMAGIC := 0x10203040%Z (only parsing).
Abbreviation NDIRECT := 12%Z (only parsing).
Abbreviation NINDIRECT := 256%Z (only parsing).
Abbreviation MAXFILE := 268%Z (only parsing).
Abbreviation IPB := 16%Z (only parsing).
Abbreviation BPB := 8192%Z (only parsing).
Abbreviation DIRSIZ := 14%Z (only parsing).
Abbreviation T_DIR := 1%Z (only parsing).
Abbreviation T_FILE := 2%Z (only parsing).
Abbreviation T_DEVICE := 3%Z (only parsing).

Definition IBLOCK (i : Z) (s : superblock) : Z := u32 (i / IPB + sb_inodestart s).
Definition BBLOCK (b : Z) (s : superblock) : Z := u32 (b / BPB + sb_bmapstart s).

(** [struct superblock] in the bytes of block 1. *)
Definition get_superblock (data : list Z) : superblock :=
  mksuperblock (lget 4 data 0) (lget 4 data 4) (lget 4 data 8) (lget 4 data 12)
    (lget 4 data 16) (lget 4 data 20) (lget 4 data 24) (lget 4 data 28).

(** [struct dinode]; inode [inum] is at byte [64 * (inum % IPB)] of its block. *)
Record dinode := mkdinode {
  di_type : Z;
  di_major : Z;
  di_minor : Z;
  di_nlink : Z;
  di_size : Z;
  di_addrs : list Z
}.

Definition dip_off (inum : Z) : Z := 64 * (inum mod IPB).

Definition get_dinode (data : list Z) (inum : Z) : dinode :=
  let o := dip_off inum in
  mkdinode (i16 (lget 2 data o)) (i16 (lget 2 data (o + 2))) (i16 (lget 2 data (o + 4))) (i16 (lget 2 data (o + 6)))
    (lget 4 data (o + 8)) ((fun j => lget 4 data (o + 12 + 4 * Z.of_nat j)) <$> seq 0 13).

Definition dinode_bytes (d : dinode) : list Z :=
  le_bytes 2 (di_type d) ++ le_bytes 2 (di_major d) ++ le_bytes 2 (di_minor d) ++ le_bytes 2 (di_nlink d) ++
  le_bytes 4 (di_size d) ++ List.concat (map (le_bytes 4) (di_addrs d)).

Definition put_dinode (inum : Z) (d : dinode) (data : list Z) : list Z := splice data (dip_off inum) (dinode_bytes d).

(** [struct dirent]: [inum], then 14 bytes of name. *)
Definition de_inum (de : list Z) : Z := lget 2 de 0.
Definition de_name (de : list Z) : list Z := drop 2 de.

(** ** Path elements *)

(** [while( *path == '/') path++;] *)
Fixpoint skip_slashes (path : list Z) : list Z :=
  match path with
  | c :: rest => if isc c "/" then skip_slashes rest else path
  | [] => []
  end.

(** [while( *path != '/' && *path != 0) path++;], with the bytes skipped. *)
Fixpoint skip_name (path : list Z) : list Z * list Z :=
  match path with
  | c :: rest =>
      if isc c "/" || (c =? 0) then ([], path)
      else let '(s, rest) := skip_name rest in (c :: s, rest)
  | [] => ([], [])
  end.

(** [path] is the string from the pointer on; [name] the 14-byte buffer.  The
    result is the rest of the path and the new contents of the buffer. *)
Definition skipelem (path name : list Z) : option (list Z * list Z) :=
  let path := skip_slashes path in
  if nthd 0 path 0 =? 0 then None else
  let '(s, path) := skip_name path in
  let len := Z.of_nat (length s) in
  let name :=
    if DIRSIZ <=? len then splice name 0 (take 14 s)
    else setz (splice name 0 s) len 0 in
  Some (skip_slashes path, name).

Definition namecmp (s t : list Z) : Z := strncmp (nthd 0 s) (nthd 0 t) DIRSIZ.

(** [min] of [fs.c] *)
Definition min (a b : Z) : Z := if a <? b then a else b.

(** The bit of block [bi] in a bitmap block: [data[bi/8] & (1 << (bi % 8))]. *)
Definition bit_get (data : list Z) (bi : Z) : bool := negb (Z.land (nthd 0 data (bi / 8)) (Z.shiftl 1 (bi mod 8)) =? 0).
Definition bit_set (bi : Z) (data : list Z) : list Z :=
  setz data (bi / 8) (u8 (Z.lor (nthd 0 data (bi / 8)) (Z.shiftl 1 (bi mod 8)))).
Definition bit_clear (bi : Z) (data : list Z) : list Z :=
  setz data (bi / 8) (u8 (Z.land (nthd 0 data (bi / 8)) (Z.lnot (Z.shiftl 1 (bi mod 8))))).

(** The scan of one bitmap block in [balloc]: the first clear bit from [bi]. *)
Fixpoint balloc_scan (n : nat) (data : list Z) (b bi size : Z) : option Z :=
  match n with
  | O => None
  | S n =>
      if (bi <? BPB) && (b + bi <? size) then
        if negb (bit_get data bi) then Some bi else balloc_scan n data b (bi + 1) size
      else None
  end.

Section Operations.
Context {LK : Linker} `{Fuel} `{BlockDevice}.

Definition readsb (dev : Z) : M unit :=
  bp <- bread (u32 dev) 1 ;;
  data <- bdata bp ;;
  modify (fun k => k <| sb := get_superblock data |>) ;;
  brelse bp.

(** ** Blocks *)

Definition bzero (dev bno : Z) : M unit :=
  bp <- bread (u32 dev) (u32 bno) ;;
  moddata bp (fun _ => replicate 1024 0) ;;
  log_write bp ;;
  brelse bp.

(** [for(b = 0; b < sb.size; b += BPB)]; one round more than there are bitmap
    blocks ends it. *)
Fixpoint balloc_loop (n : nat) (dev b : Z) : M Z :=
  match n with
  | O => stuck "balloc"
  | S n =>
      s <- gets sb ;;
      if b <? sb_size s then
        bp <- bread dev (BBLOCK b s) ;;
        data <- bdata bp ;;
        match balloc_scan (Z.to_nat BPB) data b 0 (sb_size s) with
        | Some bi =>
            moddata bp (bit_set bi) ;;
            log_write bp ;;
            brelse bp ;;
            bzero dev (b + bi) ;;
            ret (b + bi)
        | None =>
            brelse bp ;;
            balloc_loop n dev (b + BPB)
        end
      else
        printf ("balloc: out of blocks" +:+ nl) [] ;;
        ret 0
  end.

Definition balloc (dev : Z) : M Z :=
  s <- gets sb ;;
  balloc_loop (Z.to_nat (sb_size s / BPB + 2)) dev 0.

Definition bfree (dev b : Z) : M unit :=
  s <- gets sb ;;
  bp <- bread (u32 dev) (BBLOCK b s) ;;
  let bi := b mod BPB in
  data <- bdata bp ;;
  if negb (bit_get data bi) then panic "freeing free block" else
  moddata bp (bit_clear bi) ;;
  log_write bp ;;
  brelse bp.

(** ** Inodes *)

Fixpoint iinit_loop (n i : nat) : M unit :=
  match n with
  | O => ret tt
  | S n => initsleeplock (SInode i) ;; iinit_loop n (S i)
  end.

Definition iinit : M unit :=
  initlock LItable ;;
  iinit_loop 50 0.

(** The scan of [iget]: the entry found, else the first empty one. *)
Fixpoint iget_loop (n ip : nat) (dev inum : Z) (empty : option nat) : M (nat + option nat) :=
  match n with
  | O => ret (inr empty)
  | S n =>
      i <- getinode ip ;;
      if (i_ref i >? 0) && (i_dev i =? dev) && (i_inum i =? inum) then ret (inl ip) else
      iget_loop n (S ip) dev inum
        (if bool_decide (empty = None) && (i_ref i =? 0) then Some ip else empty)
  end.

Definition iget (dev inum : Z) : M nat :=
  acquire LItable ;;
  r <- iget_loop 50 0 dev inum None ;;
  match r with
  | inl ip =>
      modinode ip (fun i => i <| i_ref ::= fun n => i32 (n + 1) |>) ;;
      release LItable ;;
      ret ip
  | inr None => panic "iget: no inodes"
  | inr (Some ip) =>
      modinode ip (fun i => i <| i_dev := dev |>) ;;
      modinode ip (fun i => i <| i_inum := inum |>) ;;
      modinode ip (fun i => i <| i_ref := 1 |>) ;;
      modinode ip (fun i => i <| i_valid := false |>) ;;
      release LItable ;;
      ret ip
  end.

Definition dinode_0 : dinode := mkdinode 0 0 0 0 0 (replicate 13 0).

(** [for(inum = 1; inum < sb.ninodes; inum++)], [n] inodes left. *)
Fixpoint ialloc_loop (n : nat) (dev type inum : Z) : M (option nat) :=
  match n with
  | O => printf ("ialloc: no inodes" +:+ nl) [] ;; ret None
  | S n =>
      s <- gets sb ;;
      bp <- bread dev (IBLOCK inum s) ;;
      data <- bdata bp ;;
      if di_type (get_dinode data inum) =? 0 then
        moddata bp (put_dinode inum dinode_0) ;;
        moddata bp (fun data => splice data (dip_off inum) (le_bytes 2 type)) ;;
        log_write bp ;;
        brelse bp ;;
        ip <- iget dev inum ;;
        ret (Some ip)
      else
        brelse bp ;;
        ialloc_loop n dev type (inum + 1)
  end.

Definition ialloc (dev type : Z) : M (option nat) :=
  s <- gets sb ;;
  ialloc_loop (Z.to_nat (sb_ninodes s - 1)) dev type 1.

(** The fields of [*ip] that [iupdate] copies to the disk. *)
Definition to_dinode (i : inode) : dinode :=
  mkdinode (i_type i) (i_major i) (i_minor i) (i_nlink i) (i_size i) (i_addrs i).

Definition iupdate (ip : nat) : M unit :=
  i <- getinode ip ;;
  s <- gets sb ;;
  bp <- bread (i_dev i) (IBLOCK (i_inum i) s) ;;
  moddata bp (put_dinode (i_inum i) (to_dinode i)) ;;
  log_write bp ;;
  brelse bp.

Definition idup (ip : nat) : M nat :=
  acquire LItable ;;
  modinode ip (fun i => i <| i_ref ::= fun n => i32 (n + 1) |>) ;;
  release LItable ;;
  ret ip.

Definition from_dinode (d : dinode) (i : inode) : inode :=
  i <| i_type := di_type d |> <| i_major := di_major d |> <| i_minor := di_minor d |> <| i_nlink := di_nlink d |>
    <| i_size := di_size d |> <| i_addrs := di_addrs d |>.

Definition ilock (o : option nat) : M unit :=
  match o with
  | None => panic "ilock"
  | Some ip =>
      i <- getinode ip ;;
      if i_ref i <? 1 then panic "ilock" else
      acquiresleep (SInode ip) ;;
      i <- getinode ip ;;
      if i_valid i then ret tt else
      s <- gets sb ;;
      bp <- bread (i_dev i) (IBLOCK (i_inum i) s) ;;
      data <- bdata bp ;;
      let d := get_dinode data (i_inum i) in
      modinode ip (from_dinode d) ;;
      brelse bp ;;
      modinode ip (fun i => i <| i_valid := true |>) ;;
      if di_type d =? 0 then panic "ilock: no type" else ret tt
  end.

Definition iunlock (o : option nat) : M unit :=
  match o with
  | None => panic "iunlock"
  | Some ip =>
      h <- holdingsleep (SInode ip) ;;
      i <- getinode ip ;;
      if negb h || (i_ref i <? 1) then panic "iunlock" else
      releasesleep (SInode ip)
  end.

(** ** Inode content *)

Definition get_addr (ip : nat) (n : Z) : M Z := i <- getinode ip ;; ret (nthd 0 (i_addrs i) n).
Definition set_addr (ip : nat) (n v : Z) : M unit := modinode ip (fun i => i <| i_addrs ::= fun l => setz l n v |>).

(** [a[j]] of an indirect block. *)
Definition ind_get (data : list Z) (j : Z) : Z := lget 4 data (4 * j).
Definition ind_put (j v : Z) (data : list Z) : list Z := splice data (4 * j) (le_bytes 4 v).

Definition bmap (ip : nat) (bn : Z) : M Z :=
  i <- getinode ip ;;
  let dev := i_dev i in
  if bn <? NDIRECT then
    addr <- get_addr ip bn ;;
    if addr =? 0 then
      addr <- balloc dev ;;
      if addr =? 0 then ret 0 else
      set_addr ip bn addr ;;
      ret addr
    else ret addr
  else
  let bn := bn - NDIRECT in
  if bn <? NINDIRECT then
    addr <- get_addr ip NDIRECT ;;
    addr <- (if addr =? 0 then
               addr <- balloc dev ;;
               if addr =? 0 then ret 0 else
               set_addr ip NDIRECT addr ;;
               ret addr
             else ret addr) ;;
    if addr =? 0 then ret 0 else
    bp <- bread dev addr ;;
    data <- bdata bp ;;
    let addr := ind_get data bn in
    addr <- (if addr =? 0 then
               addr <- balloc dev ;;
               (if negb (addr =? 0) then
                  moddata bp (ind_put bn addr) ;;
                  log_write bp
                else ret tt) ;;
               ret addr
             else ret addr) ;;
    brelse bp ;;
    ret addr
  else panic "bmap: out of range".

(** [for(i = 0; i < NDIRECT; i++)], [n] entries left. *)
Fixpoint itrunc_direct (n : nat) (ip : nat) (i : Z) : M unit :=
  match n with
  | O => ret tt
  | S n =>
      addr <- get_addr ip i ;;
      (if negb (addr =? 0) then
         ino <- getinode ip ;;
         bfree (i_dev ino) addr ;;
         set_addr ip i 0
       else ret tt) ;;
      itrunc_direct n ip (i + 1)
  end.

Fixpoint itrunc_indirect (n : nat) (ip bp : nat) (j : Z) : M unit :=
  match n with
  | O => ret tt
  | S n =>
      data <- bdata bp ;;
      (if negb (ind_get data j =? 0) then
         ino <- getinode ip ;;
         bfree (i_dev ino) (ind_get data j)
       else ret tt) ;;
      itrunc_indirect n ip bp (j + 1)
  end.

Definition itrunc (ip : nat) : M unit :=
  itrunc_direct 12 ip 0 ;;
  addr <- get_addr ip NDIRECT ;;
  (if negb (addr =? 0) then
     i <- getinode ip ;;
     bp <- bread (i_dev i) addr ;;
     itrunc_indirect (Z.to_nat NINDIRECT) ip bp 0 ;;
     brelse bp ;;
     addr <- get_addr ip NDIRECT ;;
     bfree (i_dev i) addr ;;
     set_addr ip NDIRECT 0
   else ret tt) ;;
  modinode ip (fun i => i <| i_size := 0 |>) ;;
  iupdate ip.

Definition iput (ip : nat) : M unit :=
  acquire LItable ;;
  i <- getinode ip ;;
  (if (i_ref i =? 1) && i_valid i && (i_nlink i =? 0) then
     acquiresleep (SInode ip) ;;
     release LItable ;;
     itrunc ip ;;
     modinode ip (fun i => i <| i_type := 0 |>) ;;
     iupdate ip ;;
     modinode ip (fun i => i <| i_valid := false |>) ;;
     releasesleep (SInode ip) ;;
     acquire LItable
   else ret tt) ;;
  modinode ip (fun i => i <| i_ref ::= fun n => i32 (n - 1) |>) ;;
  release LItable.

Definition iunlockput (ip : nat) : M unit :=
  iunlock (Some ip) ;;
  iput ip.

Fixpoint ireclaim_loop (n : nat) (dev inum : Z) : M unit :=
  match n with
  | O => ret tt
  | S n =>
      s <- gets sb ;;
      bp <- bread (u32 dev) (IBLOCK inum s) ;;
      data <- bdata bp ;;
      let d := get_dinode data inum in
      ip <- (if negb (di_type d =? 0) && (di_nlink d =? 0) then
               printf ("ireclaim: orphaned inode %d" +:+ nl) [VInt inum] ;;
               ip <- iget (u32 dev) inum ;;
               ret (Some ip)
             else ret None) ;;
      brelse bp ;;
      (match ip with
       | Some ip =>
           begin_op ;;
           ilock (Some ip) ;;
           iunlock (Some ip) ;;
           iput ip ;;
           end_op
       | None => ret tt
       end) ;;
      ireclaim_loop n dev (inum + 1)
  end.

Definition ireclaim (dev : Z) : M unit :=
  s <- gets sb ;;
  ireclaim_loop (Z.to_nat (sb_ninodes s - 1)) dev 1.

Definition fsinit (dev : Z) : M unit :=
  readsb dev ;;
  s <- gets sb ;;
  if negb (sb_magic s =? FSMAGIC) then panic "invalid file system" else
  initlog dev ;;
  ireclaim dev.

(** [struct stat]: [dev], [ino], [type], [nlink], 4 bytes of padding (which
    [stati] does not write), [size]. *)
Definition stati (ip : nat) (st : list Z) : M (list Z) :=
  i <- getinode ip ;;
  ret (le_bytes 4 (i_dev i) ++ le_bytes 4 (i_inum i) ++ le_bytes 2 (i_type i) ++ le_bytes 2 (i_nlink i) ++
       take 4 (drop 12 st) ++ le_bytes 8 (i_size i)).

(** The loop of [readi]: [n - tot] bytes are left; each round copies at least
    one byte, up to the end of a block.  The bytes stored to a local variable
    come with the result. *)
Fixpoint readi_loop (fl : nat) (ip : nat) (dst : iodst) (off tot n : Z) (got : list Z) : M (Z * list Z) :=
  match fl with
  | O => stuck "readi"
  | S fl =>
      if tot <? n then
        addr <- bmap ip (off / BSIZE) ;;
        if addr =? 0 then ret (tot, got) else
        i <- getinode ip ;;
        bp <- bread (i_dev i) addr ;;
        let m := min (n - tot) (BSIZE - off mod BSIZE) in
        data <- bdata bp ;;
        let src := drop (Z.to_nat (off mod BSIZE)) data in
        r <- either_copyout dst src m ;;
        if r =? -1 then
          brelse bp ;;
          ret (u32 (-1), got)
        else
          brelse bp ;;
          readi_loop fl ip
            (match dst with ToUser va => ToUser (u64 (va + m)) | ToPhys pa => ToPhys (pa + m) | ToLocal => ToLocal end)
            (u32 (off + m)) (u32 (tot + m)) n (got ++ take (Z.to_nat m) src)
      else ret (tot, got)
  end.

Definition readi (ip : nat) (dst : iodst) (off n : Z) : M (Z * list Z) :=
  i <- getinode ip ;;
  if (off >? i_size i) || (u32 (off + n) <? off) then ret (0, []) else
  let n := if u32 (off + n) >? i_size i then i_size i - off else n in
  '(tot, got) <- readi_loop (Z.to_nat (n / BSIZE + 3)) ip dst off 0 n [] ;;
  ret (i32 tot, got).

Fixpoint writei_loop (fl : nat) (ip : nat) (src : iosrc) (off tot n : Z) : M (Z * Z) :=
  match fl with
  | O => stuck "writei"
  | S fl =>
      if tot <? n then
        addr <- bmap ip (off / BSIZE) ;;
        if addr =? 0 then ret (tot, off) else
        i <- getinode ip ;;
        bp <- bread (i_dev i) addr ;;
        let m := min (n - tot) (BSIZE - off mod BSIZE) in
        '(r, bs) <- either_copyin src m ;;
        moddata bp (fun data => splice data (off mod BSIZE) bs) ;;
        if r =? -1 then
          brelse bp ;;
          ret (tot, off)
        else
          log_write bp ;;
          brelse bp ;;
          writei_loop fl ip
            (match src with
             | FromUser va => FromUser (u64 (va + m)) | FromPhys pa => FromPhys (pa + m)
             | FromLocal bs => FromLocal (drop (Z.to_nat m) bs)
             end)
            (u32 (off + m)) (u32 (tot + m)) n
      else ret (tot, off)
  end.

Definition writei (ip : nat) (src : iosrc) (off n : Z) : M Z :=
  i <- getinode ip ;;
  if (off >? i_size i) || (u32 (off + n) <? off) then ret (-1) else
  if u32 (off + n) >? MAXFILE * BSIZE then ret (-1) else
  '(tot, off) <- writei_loop (Z.to_nat (n / BSIZE + 3)) ip src off 0 n ;;
  i <- getinode ip ;;
  (if off >? i_size i then modinode ip (fun i => i <| i_size := off |>) else ret tt) ;;
  iupdate ip ;;
  ret (i32 tot).

(** ** Directories *)

(** The scan from [off]; the entry's inode number and offset. *)
Fixpoint dirlookup_loop (fl : nat) (dp : nat) (name : list Z) (off : Z) : M (option (Z * Z)) :=
  match fl with
  | O => stuck "dirlookup"
  | S fl =>
      i <- getinode dp ;;
      if off <? i_size i then
        '(r, de) <- readi dp ToLocal off 16 ;;
        if negb (r =? 16) then panic "dirlookup read" else
        if de_inum de =? 0 then dirlookup_loop fl dp name (off + 16) else
        if namecmp name (de_name de) =? 0 then ret (Some (de_inum de, off)) else
        dirlookup_loop fl dp name (off + 16)
      else ret None
  end.

(** The inode, with [*poff]. *)
Definition dirlookup (dp : nat) (name : list Z) : M (option (nat * Z)) :=
  i <- getinode dp ;;
  if negb (i_type i =? T_DIR) then panic "dirlookup not DIR" else
  r <- dirlookup_loop (Z.to_nat (i_size i / 16 + 2)) dp name 0 ;;
  match r with
  | Some (inum, off) => ip <- iget (i_dev i) inum ;; ret (Some (ip, off))
  | None => ret None
  end.

(** The offset of the first empty entry, or the end of the directory. *)
Fixpoint dirlink_loop (fl : nat) (dp : nat) (off : Z) : M Z :=
  match fl with
  | O => stuck "dirlink"
  | S fl =>
      i <- getinode dp ;;
      if off <? i_size i then
        '(r, de) <- readi dp ToLocal off 16 ;;
        if negb (r =? 16) then panic "dirlink read" else
        if de_inum de =? 0 then ret off else dirlink_loop fl dp (off + 16)
      else ret off
  end.

(** The bytes of [de]: [strncpy] writes all of [de.name]. *)
Definition dirent_bytes (name : list Z) (inum : Z) : list Z :=
  le_bytes 2 inum ++ strncpy (replicate 14 0) (nthd 0 name) DIRSIZ.

Definition dirlink (dp : nat) (name : list Z) (inum : Z) : M Z :=
  r <- dirlookup dp name ;;
  match r with
  | Some (ip, _) => iput ip ;; ret (-1)
  | None =>
      i <- getinode dp ;;
      off <- dirlink_loop (Z.to_nat (i_size i / 16 + 2)) dp 0 ;;
      r <- writei dp (FromLocal (dirent_bytes name inum)) off 16 ;;
      if negb (r =? 16) then ret (-1) else ret 0
  end.

(** ** Paths *)

(** The loop of [namex]; [skipelem] takes at least a byte off the path.  With
    the inode comes the name buffer. *)
Fixpoint namex_loop (fl : nat) (ip : nat) (path name : list Z) (parent : bool) : M (option (nat * list Z)) :=
  match fl with
  | O => stuck "namex"
  | S fl =>
      match skipelem path name with
      | Some (path, name) =>
          ilock (Some ip) ;;
          i <- getinode ip ;;
          if negb (i_type i =? T_DIR) then iunlockput ip ;; ret None else
          if parent && (nthd 0 path 0 =? 0) then iunlock (Some ip) ;; ret (Some (ip, name)) else
          r <- dirlookup ip name ;;
          match r with
          | None => iunlockput ip ;; ret None
          | Some (next, _) => iunlockput ip ;; namex_loop fl next path name parent
          end
      | None =>
          if parent then iput ip ;; ret None else ret (Some (ip, name))
      end
  end.

Definition namex (path : list Z) (parent : bool) (name : list Z) : M (option (nat * list Z)) :=
  ip <- (if isc (nthd 0 path 0) "/" then iget ROOTDEV ROOTINO
         else i <- curproc ;; p <- getproc i ;; cwd <- deref (p_cwd p) ;; idup cwd) ;;
  namex_loop (S (length path)) ip path name parent.

(** The 14-byte buffer on the stack is not initialised; what it holds does not
    matter, and the model starts it with zeros. *)
Definition namei (path : list Z) : M (option nat) :=
  r <- namex path false (replicate 14 0) ;;
  ret (fst <$> r).

Definition nameiparent (path : list Z) : M (option (nat * list Z)) := namex path true (replicate 14 0).

End Operations.
