(* ===== verification/FsBlocks.v ===== *)
(** * Block allocation

    [balloc], [bfree] and [bzero] in the block view of a transaction: which
    block is allocated, what happens to the bitmap, and when there is none. *)

From S2P Require Import Prelude Riscv CString Fields Kernel Printf Sched Sleeplock Bio Bcache Log FsView Wal Crash Fs.
From stdpp Require Import base numbers strings gmap list.
From Stdlib Require Import ZArith Lia.

#[local] Open Scope Z_scope.
#[local] Open Scope kernel_scope.

(** ** The bitmap *)

Lemma bit_testbit x n : 0 <= n -> negb (Z.land x (Z.shiftl 1 n) =? 0) = Z.testbit x n.
Proof.
  intros Hn. destruct (Z.testbit x n) eqn:E.
  - apply negb_true_iff, Z.eqb_neq. intros E0. apply (f_equal (fun z => Z.testbit z n)) in E0. rewrite Z.land_spec, E, Z.shiftl_spec, Z.sub_diag, Z.bits_0 in E0 by done. done.
  - apply negb_false_iff, Z.eqb_eq. apply Z.bits_inj'. intros m Hm. rewrite Z.land_spec, Z.bits_0, Z.shiftl_1_l, Z.pow2_bits_eqb by done.
    destruct (Z.eqb_spec n m) as [->|]; [by rewrite E|apply andb_false_r].
Qed.

Lemma bit_get_testbit d bi : 0 <= bi -> bit_get d bi = Z.testbit (nthd 0 d (bi / 8)) (bi mod 8).
Proof. intros. unfold bit_get. apply bit_testbit, Z.mod_pos_bound. lia. Qed.

Lemma byte_bits x n : byte_ok x -> 8 <= n -> Z.testbit x n = false.
Proof. intros Hx Hn. destruct (Z.eq_dec x 0) as [->|]; [apply Z.bits_0|]. apply Z.bits_above_log2; [apply Hx|]. unfold byte_ok in Hx. assert (Z.log2 x < 8); [apply Z.log2_lt_pow2; lia|lia]. Qed.

Lemma byte_at d i : Forall byte_ok d -> byte_ok (nthd 0 d i).
Proof.
  intros Hd. unfold nthd. destruct (i <? 0); [unfold byte_ok; lia|]. destruct (d !! Z.to_nat i) as [x|] eqn:E; cbn.
  - by eapply Forall_lookup_1 in Hd.
  - unfold byte_ok. lia.
Qed.

Lemma u8_byte_id x : byte_ok x -> u8 x = x.
Proof. unfold byte_ok, u8. intros. by apply Z.mod_small. Qed.

(** A byte is determined by its bits below 8. *)
Lemma byte_of_bits x : (forall n, 8 <= n -> Z.testbit x n = false) -> 0 <= x -> byte_ok x.
Proof.
  intros H Hx. split; [done|]. destruct (Z.eq_dec x 0) as [->|]; [lia|]. apply Z.log2_lt_pow2; [lia|].
  destruct (Z.lt_ge_cases (Z.log2 x) 8); [done|]. exfalso. specialize (H (Z.log2 x) ltac:(lia)). by rewrite Z.bit_log2 in H by lia.
Qed.

Lemma setz_ok d i x : block_ok d -> byte_ok x -> block_ok (setz d i x).
Proof. intros [Hl Hb] Hx. split; [by rewrite length_setz|]. unfold setz. destruct (i <? 0); [done|]. by apply Forall_insert. Qed.

Lemma bit_set_ok bi d : block_ok d -> block_ok (bit_set bi d).
Proof. intros. apply setz_ok; [done|apply u8_byte]. Qed.
Lemma bit_clear_ok bi d : block_ok d -> block_ok (bit_clear bi d).
Proof. intros. apply setz_ok; [done|apply u8_byte]. Qed.

Lemma bit_pos bi bj : 0 <= bi -> 0 <= bj -> bi / 8 = bj / 8 -> bi mod 8 = bj mod 8 -> bi = bj.
Proof. intros. rewrite (Z.div_mod bi 8), (Z.div_mod bj 8) by lia. congruence. Qed.

Lemma bit_get_set bi bj d : block_ok d -> 0 <= bi < 8192 -> 0 <= bj < 8192 ->
  bit_get (bit_set bi d) bj = if decide (bj = bi) then true else bit_get d bj.
Proof.
  intros [Hl Hb] Hi Hj. rewrite !bit_get_testbit by lia. unfold bit_set. pose proof (Z.mod_pos_bound bi 8 ltac:(lia)) as Hm. pose proof (Z.mod_pos_bound bj 8 ltac:(lia)) as Hmj.
  assert (Hx : byte_ok (Z.lor (nthd 0 d (bi / 8)) (Z.shiftl 1 (bi mod 8)))).
  { apply byte_of_bits.
    - intros n Hn. rewrite Z.lor_spec, byte_bits, Z.shiftl_1_l, Z.pow2_bits_false by (try lia; by apply byte_at). done.
    - apply Z.lor_nonneg. split; [by apply (byte_at d (bi / 8))|apply Z.shiftl_nonneg; lia]. }
  rewrite u8_byte_id by done. destruct (decide (bi / 8 = bj / 8)) as [E|E].
  - rewrite <- E, nthd_setz_eq by (rewrite Hl; split; [apply Z.div_pos; lia|]; apply Z.div_lt_upper_bound; lia).
    rewrite Z.lor_spec, Z.shiftl_1_l, Z.pow2_bits_eqb by lia. destruct (Z.eqb_spec (bi mod 8) (bj mod 8)) as [Em|Em].
    + rewrite decide_True by (symmetry; by apply bit_pos; try lia). apply orb_true_r.
    + rewrite decide_False by congruence. apply orb_false_r.
  - rewrite nthd_setz_ne by done. rewrite decide_False by congruence. done.
Qed.

Lemma bit_get_clear bi bj d : block_ok d -> 0 <= bi < 8192 -> 0 <= bj < 8192 ->
  bit_get (bit_clear bi d) bj = if decide (bj = bi) then false else bit_get d bj.
Proof.
  intros [Hl Hb] Hi Hj. rewrite !bit_get_testbit by lia. unfold bit_clear. pose proof (Z.mod_pos_bound bi 8 ltac:(lia)) as Hm. pose proof (Z.mod_pos_bound bj 8 ltac:(lia)) as Hmj.
  assert (Hx : byte_ok (Z.land (nthd 0 d (bi / 8)) (Z.lnot (Z.shiftl 1 (bi mod 8))))).
  { apply byte_of_bits.
    - intros n Hn. rewrite Z.land_spec, byte_bits by (try lia; by apply byte_at). done.
    - apply Z.land_nonneg. left. by apply (byte_at d (bi / 8)). }
  rewrite u8_byte_id by done. destruct (decide (bi / 8 = bj / 8)) as [E|E].
  - rewrite <- E, nthd_setz_eq by (rewrite Hl; split; [apply Z.div_pos; lia|]; apply Z.div_lt_upper_bound; lia).
    rewrite Z.land_spec, Z.lnot_spec, Z.shiftl_1_l, Z.pow2_bits_eqb by lia. destruct (Z.eqb_spec (bi mod 8) (bj mod 8)) as [Em|Em].
    + rewrite decide_True by (symmetry; by apply bit_pos; try lia). apply andb_false_r.
    + rewrite decide_False by congruence. apply andb_true_r.
  - rewrite nthd_setz_ne by done. rewrite decide_False by congruence. done.
Qed.

(** The scan of a bitmap block stops at the first clear bit. *)
Lemma balloc_scan_spec n data b bi size :
  0 <= bi -> 8192 - bi <= Z.of_nat n ->
  match balloc_scan n data b bi size with
  | Some bj => bi <= bj < 8192 /\ b + bj < size /\ bit_get data bj = false /\ forall x, bi <= x < bj -> bit_get data x = true
  | None => forall x, bi <= x < 8192 -> b + x < size -> bit_get data x = true
  end.
Proof.
  revert bi. induction n as [|n IH]; intros bi Hbi Hn; cbn [balloc_scan]; [intros; lia|].
  destruct (Z.ltb_spec bi BPB), (Z.ltb_spec (b + bi) size); cbn [andb]; try (intros; lia).
  destruct (bit_get data bi) eqn:E; cbn [negb].
  - specialize (IH (bi + 1)). destruct (balloc_scan n data b (bi + 1) size) as [bj|].
    + destruct IH as (?&?&?&IH); [lia..|]. split; [lia|]. split; [done|]. split; [done|]. intros x Hx. destruct (Z.eq_dec x bi) as [->|]; [done|]. apply IH. lia.
    + intros x Hx Hs. destruct (Z.eq_dec x bi) as [->|]; [done|]. apply IH; lia.
  - split; [lia|]. split; [done|]. split; [done|]. intros; lia.
Qed.

(** ** In a transaction *)

(** The view [B] with the blocks [H] locked and [P] in the log, between
    [begin_op] and [end_op]. *)
Definition fsx (start : Z) (i : nat) (B : Z -> list Z) (H P : list Z) (k : kernel) : Prop :=
  fsok i B H P [] k /\ logok start P k.

Section Steps.
Context `{Fu : Fuel} `{Bd : BlockDevice}.

Lemma bread_x {A} start i B H P c k bno (f : nat -> M A) (Q : A -> cpu -> kernel -> Prop) :
  fsx start i B H P k -> user i c -> bno ∉ H -> bno ∈ P \/ (length H + length P < 30)%nat ->
  (forall j k', fsx start i B (bno :: H) P k' -> at_buf k' j bno -> keep_bufs H k k' -> fsframe k k' -> runs (f j) c k' Q) ->
  runs (bind (bread 1 bno) f) c k Q.
Proof.
  intros [Hf Hl] Hu Hn Hlt Hk. eapply runs_step; [by eapply bread_fs|]. intros j c' k' (->&(?&?)&?&Hc). apply Hk; [split; [done|]|done|done|by apply cframe_fs].
  eapply logok_log; [by apply cframe_log|done].
Qed.

Lemma bdata_x {A} start i B H P c k j bno (f : list Z -> M A) (Q : A -> cpu -> kernel -> Prop) :
  fsx start i B H P k -> bno ∈ H -> at_buf k j bno -> runs (f (B bno)) c k Q -> runs (bind (bdata j) f) c k Q.
Proof. intros [Hf _] Hin Ha Hk. eapply runs_at; [eapply bdata_fs; [exact Hf|by left|done]|done]. Qed.

Lemma brelse_x {A} start i B H P c k j bno (f : unit -> M A) (Q : A -> cpu -> kernel -> Prop) :
  fsx start i B (bno :: H) P k -> user i c -> at_buf k j bno ->
  (forall k', fsx start i B H P k' -> keep_bufs (bno :: H) k k' -> fsframe k k' -> runs (f tt) c k' Q) ->
  runs (bind (brelse j) f) c k Q.
Proof.
  intros [Hf Hl] Hu Ha Hk. eapply runs_step; [eapply brelse_fs; [done|done|done|apply not_elem_of_nil]|]. intros [] c' k' (->&?&?&Hc).
  apply Hk; [split; [done|]|done|by apply cframe_fs]. eapply logok_log; [by apply cframe_log|done].
Qed.

(** New data for a held block, logged. *)
Lemma update_x {A} start i B H P c k j bno g (f : unit -> M A) (Q : A -> cpu -> kernel -> Prop) :
  fsx start i B H P k -> user i c -> bno ∈ H -> at_buf k j bno -> block_ok (g (B bno)) -> (length P < 30)%nat -> bno_ok bno ->
  (forall k', fsx start i (bset B bno (g (B bno))) H (logged bno P) k' -> keep_bufs H k k' -> fsframe k k' -> runs (f tt) c k' Q) ->
  runs (moddata j g ;; bind (log_write j) f) c k Q.
Proof.
  intros [Hf Hl] Hu Hin Ha Hg HP Hb Hk. eapply runs_step; [by eapply moddata_fs|]. intros [] c' k1 (->&Hf1&Hk1&Hc1).
  eapply runs_step; [eapply (log_write_fs start i _ H P [bno] []); [exact Hf1|eapply logok_log; [by apply cframe_log|done]|done|done|by apply Hk1|done|done|]|].
  { intros x. rewrite elem_of_nil, list_elem_of_singleton. tauto. }
  intros [] c' k2 (->&Hf2&Hl2&Hk2&Hfr2). apply Hk; [done|by eapply keep_bufs_trans|]. eapply fsframe_trans; [by apply cframe_fs|done].
Qed.

Lemma length_logged bno P : (length (logged bno P) <= S (length P))%nat.
Proof. unfold logged. case_decide; [lia|]. rewrite length_app. cbn. lia. Qed.

Lemma elem_logged x bno P : x ∈ logged bno P <-> x = bno \/ x ∈ P.
Proof. unfold logged. case_decide; [split; [auto|by intros [->|]]|]. rewrite elem_of_app, list_elem_of_singleton. tauto. Qed.

Lemma fsx_ext start i B B' H P k : (forall x, B' x = B x) -> fsx start i B H P k -> fsx start i B' H P k.
Proof. intros E [Hf Hl]. split; [by eapply fsok_ext|done]. Qed.

Lemma bzero_x {A} start i B H P c k bno (f : unit -> M A) (Q : A -> cpu -> kernel -> Prop) :
  fsx start i B H P k -> user i c -> bno ∉ H -> (length H + length P < 30)%nat -> bno_ok bno ->
  (forall k', fsx start i (bset B bno (replicate 1024 0)) H (logged bno P) k' -> keep_bufs H k k' -> fsframe k k' -> runs (f tt) c k' Q) ->
  runs (bind (bzero 1 bno) f) c k Q.
Proof.
  intros Hf Hu Hn Hlen Hb Hk. unfold bzero. apply runs_bind. unfold bno_ok in Hb. rewrite !u32_small by lia.
  eapply (bread_x start i B H P c k bno); [done|done|done|right; lia|]. intros j k1 Hf1 Ha1 Hk1 Hr1.
  eapply (update_x start i B (bno :: H) P c k1 j bno (fun _ => replicate 1024 0)); [done|done|apply list_elem_of_here|done|apply zeros_ok|lia|done|].
  intros k2 Hf2 Hk2 Hr2. eapply runs_mono; [eapply (brelse_fs i _ H _ [] c k2 j bno); [apply Hf2|done|by apply Hk2; [apply list_elem_of_here|]|apply not_elem_of_nil]|].
  intros [] c' k3 (->&Hf3&Hk3&Hc3). cbv beta. apply Hk.
  - split; [done|]. eapply logok_log; [by apply cframe_log|apply Hf2].
  - intros x bn Hin Ha. apply Hk3, Hk2, Hk1; rewrite ?elem_of_cons; auto.
  - eapply fsframe_trans; [done|]. eapply fsframe_trans; [done|by apply cframe_fs].
Qed.
End Steps.

(** ** Free and used blocks *)

Definition used (s : superblock) (B : Z -> list Z) (b : Z) : bool := bit_get (B (BBLOCK b s)) (b mod BPB).

Lemma BBLOCK_small s b : 0 <= sb_bmapstart s -> sb_bmapstart s + b / 8192 < 2 ^ 32 -> 0 <= b -> BBLOCK b s = b / 8192 + sb_bmapstart s.
Proof. intros. unfold BBLOCK. apply u32_small. assert (0 <= b / 8192) by (apply Z.div_pos; lia). lia. Qed.

(** The bitmap covers the disk, and the boot block and the bitmap's own blocks are in use. *)
Record bitmap_ok (s : superblock) (B : Z -> list Z) : Prop := {
  bm_size : 0 < sb_size s < 2 ^ 31 - 8192;
  bm_start : 0 <= sb_bmapstart s < 2 ^ 30;
  bm_self : forall b, 0 <= b < sb_size s -> 0 <= BBLOCK b s < sb_size s /\ used s B (BBLOCK b s) = true;
  bm_boot : used s B 0 = true
}.

Lemma BBLOCK_ok s B b : bitmap_ok s B -> 0 <= b < sb_size s -> BBLOCK b s = b / 8192 + sb_bmapstart s /\ bno_ok (BBLOCK b s).
Proof.
  intros Hb Hr. pose proof (bm_size _ _ Hb). pose proof (bm_start _ _ Hb). assert (b / 8192 < 2 ^ 31) by (apply Z.div_lt_upper_bound; lia).
  assert (0 <= b / 8192) by (apply Z.div_pos; lia). assert (E : BBLOCK b s = b / 8192 + sb_bmapstart s) by (apply BBLOCK_small; lia).
  split; [done|]. unfold bno_ok. pose proof (bm_self _ _ Hb b Hr) as [? _]. lia.
Qed.

(** The allocated block: its bit is set, and it is zeroed. *)
Definition allocated (s : superblock) (B : Z -> list Z) (b : Z) : Z -> list Z :=
  bset (bset B (BBLOCK b s) (bit_set (b mod BPB) (B (BBLOCK b s)))) b (replicate 1024 0).

Lemma fsframe_sb k k' : fsframe k k' -> sb k' = sb k.
Proof. intros E. exact (f_equal sb E). Qed.

Section Balloc.
Context `{Fu : Fuel} `{Bd : BlockDevice}.
Context (start : Z) (i : nat) (s : superblock) (B : Z -> list Z) (H : list Z).
Context (Hbm : bitmap_ok s B).
Context (Hheld : forall x, x ∈ H -> (forall b, 0 <= b < sb_size s -> x <> BBLOCK b s) /\ (0 <= x < sb_size s -> used s B x = true)).

Definition balloc_post (P : list Z) (c : cpu) (k : kernel) (r : Z) (c' : cpu) (k' : kernel) : Prop :=
  c' = c /\ keep_bufs H k k' /\ fsframe k k' /\
  (r = 0 /\ (forall b, 0 <= b < sb_size s -> used s B b = true) /\ fsx start i B H P k' \/
   0 < r < sb_size s /\ used s B r = false /\ (forall b, 0 <= b < r -> used s B b = true) /\
   fsx start i (allocated s B r) H (logged r (logged (BBLOCK r s) P)) k').

Lemma balloc_loop_fs n b P c k :
  fsx start i B H P k -> user i c -> sb k = s -> (length H + length P + 2 < 30)%nat -> 0 <= b -> b mod 8192 = 0 -> sb_size s - b <= 8192 * (Z.of_nat n - 1) -> 0 < Z.of_nat n ->
  (forall x, 0 <= x < b -> x < sb_size s -> used s B x = true) ->
  runs (balloc_loop n 1 b) c k (balloc_post P c k).
Proof.
  revert b k. induction n as [|n IH]; intros b k Hf Hu Hs Hlen Hb Hmod Hn Hn0 Hall; [lia|]. cbn [balloc_loop]. eapply runs_at; [done|]. rewrite Hs.
  destruct (Z.ltb_spec b (sb_size s)) as [Hlt|Hge].
  2: { eapply runs_at; [by eapply printf_done; [apply not_held, Hu|reflexivity]|]. apply runs_ret. split; [done|]. split; [by apply keep_bufs_other|]. split; [done|].
       left. split; [done|]. split; [intros; apply Hall; lia|]. destruct Hf as [Hf Hl]. split; [by eapply fsok_other; [..|exact Hf]|]. by eapply logok_log; [|exact Hl]. }
  destruct (BBLOCK_ok s B b Hbm ltac:(lia)) as [EB Hbok]. set (bb := BBLOCK b s) in *.
  assert (Hsame : forall x, 0 <= x < 8192 -> b + x < sb_size s -> BBLOCK (b + x) s = bb /\ (b + x) mod BPB = x).
  { intros x Hx Hxs. rewrite (proj1 (BBLOCK_ok s B (b + x) Hbm ltac:(lia))), EB.
    assert (Eb : b = 8192 * (b / 8192)) by (rewrite (Z.div_mod b 8192) at 1 by lia; lia).
    rewrite <- (Z.div_unique_pos (b + x) 8192 (b / 8192) x) by lia. split; [done|]. symmetry. apply (Z.mod_unique_pos _ _ (b / 8192)); lia. }
  eapply (bread_x start i B H P c k bb); [done|done|intros Hin; by apply (proj1 (Hheld _ Hin) b); [lia|]|right; lia|]. intros j k1 Hf1 Ha1 Hk1 Hr1.
  eapply bdata_x; [done|apply list_elem_of_here|done|]. pose proof (balloc_scan_spec (Z.to_nat BPB) (B bb) b 0 (sb_size s) ltac:(lia) ltac:(lia)) as Hscan.
  destruct (balloc_scan (Z.to_nat BPB) (B bb) b 0 (sb_size s)) as [bi|].
  - destruct Hscan as (Hbi&Hbs&Hfree&Hbefore). destruct (Hsame bi ltac:(lia) Hbs) as [Ebb Emod].
    assert (Hr : used s B (b + bi) = false) by (unfold used; by rewrite Ebb, Emod).
    assert (HrH : b + bi ∉ H) by (intros Hin; destruct (Hheld _ Hin) as [_ Hx]; rewrite Hx in Hr by lia; done).
    eapply (update_x start i B (bb :: H) P c k1 j bb (bit_set bi)); [done|done|apply list_elem_of_here|done|apply bit_set_ok, Hf|lia|done|].
    intros k2 Hf2 Hk2 Hr2. pose proof (length_logged bb P) as Hlp.
    eapply (brelse_x start i _ H _ c k2 j bb); [done|done|by apply Hk2; [apply list_elem_of_here|]|]. intros k3 Hf3 Hk3 Hr3.
    eapply (bzero_x start i _ H _ c k3 (b + bi)); [done|done|done|lia|unfold bno_ok; pose proof (bm_size _ _ Hbm); lia|]. intros k4 Hf4 Hk4 Hr4.
    apply runs_ret. split; [done|]. split.
    { intros x bn Hin Ha. apply Hk4, Hk3, Hk2, Hk1; rewrite ?elem_of_cons; auto. }
    split; [by repeat (eapply fsframe_trans; [eassumption|])|]. right.
    assert (Hpos : b + bi <> 0). { intros E0. rewrite E0, (bm_boot _ _ Hbm) in Hr. done. }
    split; [lia|]. split; [done|]. split; [|unfold allocated; by rewrite Ebb, Emod].
    intros x Hx. destruct (Z.lt_ge_cases x b); [apply Hall; lia|]. unfold used. destruct (Hsame (x - b)) as [E1 E2]; [lia..|].
    replace (b + (x - b)) with x in * by lia. rewrite E1, E2. apply Hbefore. lia.
  - eapply (brelse_x start i B H P c k1 j bb); [done|done|done|]. intros k2 Hf2 Hk2 Hr2.
    assert (Hr12 : fsframe k k2) by (by eapply fsframe_trans).
    eapply runs_mono; [eapply (IH (b + BPB) k2); [done|done|by rewrite (fsframe_sb _ _ Hr12)|done|lia| |lia| |]|].
    + rewrite Z.add_mod, Hmod by lia. done.
    + lia.
    + intros x Hx Hxs. destruct (Z.lt_ge_cases x b); [apply Hall; lia|]. unfold used. destruct (Hsame (x - b)) as [E1 E2]; [lia..|].
      replace (b + (x - b)) with x in * by lia. rewrite E1, E2. apply Hscan; lia.
    + intros r c' k' (->&Hk'&Hr'&Hpost). split; [done|]. split; [|split; [by eapply fsframe_trans|done]].
      intros x bn Hin Ha. apply Hk', Hk2, Hk1; rewrite ?elem_of_cons; auto.
Qed.

Lemma balloc_fs P c k :
  fsx start i B H P k -> user i c -> sb k = s -> (length H + length P + 2 < 30)%nat -> runs (balloc 1) c k (balloc_post P c k).
Proof.
  intros Hf Hu Hs Hlen. unfold balloc. eapply runs_at; [done|]. rewrite Hs. pose proof (bm_size _ _ Hbm).
  assert (0 <= sb_size s / 8192) by (apply Z.div_pos; lia). pose proof (Z.mul_succ_div_gt (sb_size s) 8192 ltac:(lia)).
  apply balloc_loop_fs; try done; lia.
Qed.
End Balloc.

(** ** The bitmap after an allocation or a release *)

Lemma BBLOCK_mod s B b b' : bitmap_ok s B -> 0 <= b < sb_size s -> 0 <= b' < sb_size s -> BBLOCK b s = BBLOCK b' s -> b mod BPB = b' mod BPB -> b = b'.
Proof.
  intros Hb H1 H2. rewrite (proj1 (BBLOCK_ok s B b Hb H1)), (proj1 (BBLOCK_ok s B b' Hb H2)). intros E1 E2.
  rewrite (Z.div_mod b 8192), (Z.div_mod b' 8192) by lia. rewrite E2. f_equal. f_equal. lia.
Qed.

Lemma used_allocated s B r b :
  bitmap_ok s B -> (forall x, block_ok (B x)) -> 0 <= r < sb_size s -> used s B r = false -> 0 <= b < sb_size s ->
  used s (allocated s B r) b = if decide (b = r) then true else used s B b.
Proof.
  intros Hb Hok Hr Hfree Hbr. unfold used, allocated.
  rewrite (bset_ne _ r) by (intros E; destruct (bm_self _ _ Hb b Hbr) as [_ Hu]; rewrite E in Hu; unfold used in Hfree, Hu; congruence).
  unfold bset. case_decide as E.
  - rewrite bit_get_set by (try done; apply Z.mod_pos_bound; lia). destruct (decide (b mod BPB = r mod BPB)) as [Em|Em].
    + rewrite decide_True; [done|]. by apply (BBLOCK_mod s B).
    + rewrite decide_False by congruence. by rewrite E.
  - rewrite decide_False by congruence. done.
Qed.

(** The disk after [bfree b]. *)
Definition freed (s : superblock) (B : Z -> list Z) (b : Z) : Z -> list Z :=
  bset B (BBLOCK b s) (bit_clear (b mod BPB) (B (BBLOCK b s))).

Lemma used_freed s B r b :
  bitmap_ok s B -> (forall x, block_ok (B x)) -> 0 <= r < sb_size s -> 0 <= b < sb_size s ->
  used s (freed s B r) b = if decide (b = r) then false else used s B b.
Proof.
  intros Hb Hok Hr Hbr. unfold used, freed, bset. case_decide as E.
  - rewrite bit_get_clear by (try done; apply Z.mod_pos_bound; lia). destruct (decide (b mod BPB = r mod BPB)) as [Em|Em].
    + rewrite decide_True; [done|]. by apply (BBLOCK_mod s B).
    + rewrite decide_False by congruence. by rewrite E.
  - rewrite decide_False by congruence. done.
Qed.

(** An allocation keeps the bitmap well-formed. *)
Lemma bitmap_allocated s B r :
  bitmap_ok s B -> (forall x, block_ok (B x)) -> 0 <= r < sb_size s -> used s B r = false -> bitmap_ok s (allocated s B r).
Proof.
  intros Hb Hok Hr Hfree. pose proof Hb as [? ? Hself H0]. split; [done|done| |].
  - intros b Hbr. destruct (Hself b Hbr) as [? Hu]. split; [done|]. rewrite used_allocated by done. by case_decide.
  - rewrite used_allocated by (try done; lia). by case_decide.
Qed.

Section Bfree.
Context `{Fu : Fuel} `{Bd : BlockDevice}.

Lemma bfree_fs start i B H P c k b :
  fsx start i B H P k -> user i c -> bitmap_ok (sb k) B -> 0 <= b < sb_size (sb k) -> used (sb k) B b = true ->
  BBLOCK b (sb k) ∉ H -> (length H + length P < 30)%nat ->
  runs (bfree 1 b) c k (fun _ c' k' => c' = c /\ keep_bufs H k k' /\ fsframe k k' /\ fsx start i (freed (sb k) B b) H (logged (BBLOCK b (sb k)) P) k').
Proof.
  intros Hf Hu Hbm Hb Hused Hn Hlen. unfold bfree. eapply runs_at; [done|]. rewrite (u32_small 1) by lia. destruct (BBLOCK_ok _ _ b Hbm Hb) as [_ Hbok].
  eapply (bread_x start i B H P c k); [done|done|done|right; lia|]. intros j k1 Hf1 Ha1 Hk1 Hr1.
  eapply bdata_x; [done|apply list_elem_of_here|done|]. unfold used in Hused. rewrite Hused. cbn [negb].
  eapply (update_x start i B _ P c k1 j); [done|done|apply list_elem_of_here|done|apply bit_clear_ok, Hf|lia|done|]. intros k2 Hf2 Hk2 Hr2.
  eapply runs_mono; [eapply (brelse_fs i _ H _ [] c k2 j); [apply Hf2|done|by apply Hk2; [apply list_elem_of_here|]|apply not_elem_of_nil]|].
  intros [] c' k3 (->&Hf3&Hk3&Hc3). split; [done|]. split; [|split].
  - intros x bn Hin Ha. apply Hk3, Hk2, Hk1; rewrite ?elem_of_cons; auto.
  - eapply fsframe_trans; [done|]. eapply fsframe_trans; [done|by apply cframe_fs].
  - split; [done|]. eapply logok_log; [by apply cframe_log|apply Hf2].
Qed.

(** C19. [balloc] in a transaction finds the first free block of the disk: it marks exactly that
    block in the bitmap, zeroes it, and changes no other block; both changed blocks are in the
    log.  It returns 0 only when every block is in use, and then changes nothing. *)
Theorem balloc_allocates start i B H P c k :
  fsx start i B H P k -> user i c -> bitmap_ok (sb k) B -> (length H + length P + 2 < 30)%nat ->
  (forall x, x ∈ H -> (forall b, 0 <= b < sb_size (sb k) -> x <> BBLOCK b (sb k)) /\ (0 <= x < sb_size (sb k) -> used (sb k) B x = true)) ->
  runs (balloc 1) c k (fun r c' k' => c' = c /\ fsframe k k' /\ exists B' P', fsx start i B' H P' k' /\
    (r = 0 /\ (forall b, 0 <= b < sb_size (sb k) -> used (sb k) B b = true) /\ B' = B /\ P' = P \/
     0 < r < sb_size (sb k) /\ used (sb k) B r = false /\ (forall b, 0 <= b < r -> used (sb k) B b = true) /\
     B' r = replicate 1024 0 /\ r ∈ P' /\ BBLOCK r (sb k) ∈ P' /\ (forall x, x <> r -> x <> BBLOCK r (sb k) -> B' x = B x) /\
     (forall b, 0 <= b < sb_size (sb k) -> used (sb k) B' b = if decide (b = r) then true else used (sb k) B b))).
Proof.
  intros Hf Hu Hbm Hlen Hheld. eapply runs_mono; [by eapply (balloc_fs start i (sb k) B H)|]. intros r c' k' (->&_&Hfr&[(->&Hall&Hf')|(Hr&Hfree&Hall&Hf')]).
  - split; [done|]. split; [done|]. exists B, P. split; [done|]. by left.
  - split; [done|]. split; [done|]. eexists _, _. split; [exact Hf'|]. right. split; [done|]. split; [done|]. split; [done|].
    split; [apply bset_eq|]. split; [by apply elem_logged; left|]. split; [by apply elem_logged; right; apply elem_logged; left|]. split.
    + intros x H1 H2. unfold allocated. by rewrite !bset_ne.
    + intros b Hb. apply used_allocated; try done; [apply Hf|lia].
Qed.

(** [bfree] undoes [balloc]: allocating a block and freeing it leaves every bit of the bitmap
    as it was, and only the block itself and its bitmap block may differ. *)
Theorem balloc_bfree start i B P c k :
  fsx start i B [] P k -> user i c -> bitmap_ok (sb k) B -> (length P + 4 < 30)%nat ->
  runs (r <- balloc 1 ;; if r =? 0 then ret 0 else bfree 1 r ;; ret r) c k (fun r c' k' => c' = c /\ fsframe k k' /\
    exists B' P', fsx start i B' [] P' k' /\ (forall b, 0 <= b < sb_size (sb k) -> used (sb k) B' b = used (sb k) B b) /\
    (forall x, x <> r -> x <> BBLOCK r (sb k) -> B' x = B x)).
Proof.
  intros Hf Hu Hbm Hlen. eapply runs_step; [eapply (balloc_fs start i (sb k) B []); try done; [by intros x ?%elem_of_nil|cbn; lia]|].
  intros r c' k1 (->&_&Hr1&[(->&Hall&Hf1)|(Hr&Hfree&Hall&Hf1)]).
  - apply runs_ret. split; [done|]. split; [done|]. by exists B, P.
  - destruct (Z.eqb_spec r 0); [lia|]. assert (Es : sb k1 = sb k) by (by apply fsframe_sb). assert (Hok : forall x, block_ok (B x)) by apply Hf.
    assert (Hused : used (sb k) (allocated (sb k) B r) r = true) by (rewrite used_allocated by (try done; lia); by rewrite decide_True).
    assert (Hbm1 : bitmap_ok (sb k) (allocated (sb k) B r)) by (apply bitmap_allocated; try done; lia).
    pose proof (length_logged (BBLOCK r (sb k)) P). pose proof (length_logged r (logged (BBLOCK r (sb k)) P)).
    eapply runs_step; [eapply (bfree_fs start i _ [] _ c k1 r); rewrite ?Es; [exact Hf1|done|done|lia|done|apply not_elem_of_nil|cbn; lia]|].
    rewrite Es. intros [] c' k2 (->&_&Hr2&Hf2). apply runs_ret. split; [done|]. split; [by eapply fsframe_trans|]. eexists _, _. split; [exact Hf2|]. split.
    + intros b Hb. rewrite used_freed; [|done|apply Hf1|lia|done]. rewrite used_allocated by (try done; lia). case_decide; [by subst|done].
    + intros x H1 H2. unfold freed, allocated. by rewrite !bset_ne.
Qed.
End Bfree.

(** ** An example: a disk of 2000 blocks whose first 70 are in use *)

Module Disk.

#[local] Instance fuel : Fuel := 100%nat.
#[local] Existing Instance sync_device.

Definition super : superblock := mksuperblock FSMAGIC 2000 1930 200 31 2 33 45.
Definition bitmap : list Z := replicate 8 255 ++ [63] ++ replicate 1015 0.
Definition k_ : kernel :=
  kernel_0 <| log := mklog 2 1 false 1 0 (replicate 30 0) |> <| sb := super |> <| disk := {[45 := bitmap]} |>.
Definition k : kernel := boot_cache k_.
Definition B : Z -> list Z := dblk k_.
Definition c : cpu := cpu_0 <| cpu_proc := Some 0%nat |>.

Lemma blocks_ok x : block_ok (B x).
Proof.
  unfold B, dblk, k_. cbn [disk update]. destruct (decide (x = 45)) as [->|]; [rewrite lookup_singleton_eq|rewrite lookup_singleton_ne by done; apply zeros_ok].
  split; [done|]. unfold bitmap. cbn [default]. repeat apply Forall_app_2; [apply Forall_replicate|apply Forall_singleton|apply Forall_replicate]; unfold byte_ok; lia.
Qed.

Lemma disk_k_ok : fsx 2 0 B [] [] k.
Proof. split; [apply (boot_fsok 0 k_); [done|lia|exact blocks_ok]|]. split; [by split|done]. Qed.

Lemma k_bitmap : bitmap_ok (sb k) B.
Proof.
  assert (E : forall b, 0 <= b < 2000 -> BBLOCK b super = 45) by (intros b Hb; unfold BBLOCK; rewrite Z.div_small by lia; done).
  split; [cbn; lia|cbn; lia| |by vm_compute]. intros b Hb. cbn in *. rewrite E by done. split; [lia|by vm_compute].
Qed.

Lemma balloc_allocates_witness :
  runs (balloc 1) c k (fun r c' k' => c' = c /\ fsframe k k' /\ exists B' P', fsx 2 0 B' [] P' k' /\
    (r = 0 /\ (forall b, 0 <= b < sb_size (sb k) -> used (sb k) B b = true) /\ B' = B /\ P' = [] \/
     0 < r < sb_size (sb k) /\ used (sb k) B r = false /\ (forall b, 0 <= b < r -> used (sb k) B b = true) /\
     B' r = replicate 1024 0 /\ r ∈ P' /\ BBLOCK r (sb k) ∈ P' /\ (forall x, x <> r -> x <> BBLOCK r (sb k) -> B' x = B x) /\
     (forall b, 0 <= b < sb_size (sb k) -> used (sb k) B' b = if decide (b = r) then true else used (sb k) B b))).
Proof. apply (balloc_allocates 2 0 B [] [] c k); [apply disk_k_ok|done|apply k_bitmap|cbn; lia|by intros x ?%elem_of_nil]. Defined.

Lemma balloc_bfree_witness :
  runs (r <- balloc 1 ;; if r =? 0 then ret 0 else bfree 1 r ;; ret r) c k (fun r c' k' => c' = c /\ fsframe k k' /\
    exists B' P', fsx 2 0 B' [] P' k' /\ (forall b, 0 <= b < sb_size (sb k) -> used (sb k) B' b = used (sb k) B b) /\
    (forall x, x <> r -> x <> BBLOCK r (sb k) -> B' x = B x)).
Proof. apply (balloc_bfree 2 0 B [] c k); [apply disk_k_ok|done|apply k_bitmap|cbn; lia]. Defined.

End Disk.
