(* ===== verification/FsFile.v ===== *)
(** * The contents of a file

    [bmap], [writei] and [readi] in the block view: the file of an inode is the
    sequence of the blocks its addresses name, directly or through the indirect
    block.  Writing bytes and reading them back gives the bytes. *)

From S2P Require Import Prelude Riscv CString Fields Kernel Printf Sched Args Sleeplock Bio Bcache Log FsView Wal Crash Fs FsBlocks.
From stdpp Require Import base numbers strings gmap list.
From Stdlib Require Import ZArith Lia.

#[local] Open Scope Z_scope.
#[local] Open Scope kernel_scope.

(** ** The blocks of a file *)

Definition iaddr (ino : inode) : Z := nthd 0 (i_addrs ino) 12.

(** The address of block [n] of the file, 0 if there is none. *)
Definition faddr (B : Z -> list Z) (ino : inode) (n : Z) : Z :=
  if n <? 12 then nthd 0 (i_addrs ino) n
  else if iaddr ino =? 0 then 0 else ind_get (B (iaddr ino)) (n - 12).

(** Its contents; a block that is not there reads as zeros. *)
Definition fcont (B : Z -> list Z) (ino : inode) (n : Z) : list Z :=
  if faddr B ino n =? 0 then replicate 1024 0 else B (faddr B ino n).

(** A block that can belong to a file. *)
Definition datab (s : superblock) (B : Z -> list Z) (x : Z) : Prop :=
  0 < x < sb_size s /\ used s B x = true /\ forall b, 0 <= b < sb_size s -> x <> BBLOCK b s.

Definition inrange (n : Z) : Prop := 0 <= n < 268.

Record fileok (s : superblock) (B : Z -> list Z) (ino : inode) : Prop := {
  fi_dev : i_dev ino = 1;
  fi_len : length (i_addrs ino) = 13%nat;
  fi_data : forall n, inrange n -> faddr B ino n <> 0 -> datab s B (faddr B ino n);
  fi_ind : iaddr ino <> 0 -> datab s B (iaddr ino);
  fi_inj : forall n m, inrange n -> inrange m -> faddr B ino n <> 0 -> faddr B ino n = faddr B ino m -> n = m;
  fi_ni : forall n, inrange n -> iaddr ino <> 0 -> faddr B ino n <> iaddr ino
}.

(** The blocks of the file. *)
Definition owns (B : Z -> list Z) (ino : inode) (x : Z) : Prop := x = iaddr ino \/ exists n, inrange n /\ x = faddr B ino n.

(** What an allocation for the file does: the contents stay, and so do the
    blocks of everybody else. *)
Record fgrow (s : superblock) (B : Z -> list Z) (ino : inode) (B' : Z -> list Z) (ino' : inode) : Prop := {
  fg_file : fileok s B' ino';
  fg_bitmap : bitmap_ok s B';
  fg_blocks : forall x, block_ok (B' x);
  fg_cont : forall n, inrange n -> fcont B' ino' n = fcont B ino n;
  fg_addr : forall n, inrange n -> faddr B ino n <> 0 -> faddr B' ino' n = faddr B ino n;
  fg_used : forall x, 0 <= x < sb_size s -> used s B x = true -> used s B' x = true;
  fg_other : forall x, datab s B x -> ~ owns B ino x -> B' x = B x;
  fg_own : forall x, owns B' ino' x -> owns B ino x \/ 0 <= x < sb_size s /\ used s B x = false;
  fg_same : exists l, ino' = ino <| i_addrs := l |>
}.

Lemma datab_mono s B B' x : (forall x, 0 <= x < sb_size s -> used s B x = true -> used s B' x = true) -> datab s B x -> datab s B' x.
Proof. intros H (?&?&?). split; [done|]. split; [apply H; [lia|done]|done]. Qed.

Lemma fgrow_refl s B ino : fileok s B ino -> bitmap_ok s B -> (forall x, block_ok (B x)) -> fgrow s B ino B ino.
Proof. intros. split; try done; [intros x Hx; by left|]. exists (i_addrs ino). by destruct ino. Qed.

Lemma fgrow_trans s B1 i1 B2 i2 B3 i3 : fgrow s B1 i1 B2 i2 -> fgrow s B2 i2 B3 i3 -> fgrow s B1 i1 B3 i3.
Proof.
  intros G1 G2. pose proof (fg_used _ _ _ _ _ G1) as Hu. split; try apply G2.
  - intros n Hn. rewrite (fg_cont _ _ _ _ _ G2) by done. by apply (fg_cont _ _ _ _ _ G1).
  - intros n Hn H. assert (E : faddr B2 i2 n = faddr B1 i1 n) by (by apply (fg_addr _ _ _ _ _ G1)).
    rewrite (fg_addr _ _ _ _ _ G2) by (try done; congruence). done.
  - intros x Hx H. apply (fg_used _ _ _ _ _ G2); auto.
  - intros x Hx Hi. rewrite (fg_other _ _ _ _ _ G2); [by apply (fg_other _ _ _ _ _ G1)|by apply (datab_mono s B1)|].
    intros [H|[_ Hf]]%(fg_own _ _ _ _ _ G1); [done|]. destruct Hx as (_&?&_). congruence.
  - intros x [H|[Hr H]]%(fg_own _ _ _ _ _ G2); [by apply (fg_own _ _ _ _ _ G1)|]. right. split; [done|]. apply not_true_is_false. intros H'%Hu; [congruence|done].
  - destruct (fg_same _ _ _ _ _ G1) as [l1 ->], (fg_same _ _ _ _ _ G2) as [l2 ->]. by exists l2.
Qed.

(** *** A direct block *)

Lemma datab_ne s B x r : datab s B x -> used s B r = false -> x <> r.
Proof. intros (_&H&_) Hr ->. congruence. Qed.

(** An allocation leaves the blocks of files alone. *)
Lemma allocated_data s B r x : datab s B x -> used s B r = false -> 0 <= r < sb_size s -> allocated s B r x = B x.
Proof. intros Hx Hf Hr. unfold allocated. rewrite !bset_ne; [done|by apply Hx|by eapply datab_ne]. Qed.

Lemma used_mono s B r x : bitmap_ok s B -> (forall x, block_ok (B x)) -> 0 <= r < sb_size s -> used s B r = false ->
  0 <= x < sb_size s -> used s B x = true -> used s (allocated s B r) x = true.
Proof. intros. rewrite used_allocated by done. by case_decide. Qed.

Lemma allocated_ok s B r x : (forall x, block_ok (B x)) -> block_ok (allocated s B r x).
Proof. intros H. unfold allocated, bset. repeat case_decide; [apply zeros_ok|by apply bit_set_ok|done]. Qed.

(** The new block is a block of the disk that is no bitmap block. *)
Lemma datab_new s B r : bitmap_ok s B -> (forall x, block_ok (B x)) -> 0 < r < sb_size s -> used s B r = false -> datab s (allocated s B r) r.
Proof.
  intros Hb Hok Hr Hf. split; [done|]. split; [rewrite used_allocated by (try done; lia); by rewrite decide_True|].
  intros b Hbr E. destruct (bm_self _ _ Hb b Hbr) as [_ Hu]. congruence.
Qed.

Lemma le_val_zeros n : le_val (replicate n 0) = 0.
Proof. induction n; cbn [replicate le_val]; lia. Qed.
Lemma ind_get_zeros j : 0 <= j < 256 -> ind_get (replicate 1024 0) j = 0.
Proof.
  intros. unfold ind_get, lget. rewrite drop_replicate, take_replicate. apply le_val_zeros.
Qed.

Section Alloc.
Context (s : superblock) (B : Z -> list Z) (ino : inode) (r : Z).
Context (Hfile : fileok s B ino) (Hbm : bitmap_ok s B) (Hok : forall x, block_ok (B x)).
Context (Hr : 0 < r < sb_size s) (Hfree : used s B r = false).
#[local] Definition B1 := allocated s B r.

Lemma alloc_ind : iaddr ino <> 0 -> B1 (iaddr ino) = B (iaddr ino).
Proof. intros H. apply allocated_data; [by apply (fi_ind _ _ _ Hfile)|done|lia]. Qed.

Lemma alloc_faddr n : faddr B1 ino n = faddr B ino n.
Proof. unfold faddr. destruct (n <? 12); [done|]. destruct (Z.eqb_spec (iaddr ino) 0); [done|]. by rewrite alloc_ind. Qed.

Lemma alloc_datab x : datab s B x -> datab s B1 x.
Proof. apply datab_mono. intros y Hy. apply used_mono; try done. lia. Qed.

Lemma alloc_old n : inrange n -> faddr B ino n <> 0 -> B1 (faddr B ino n) = B (faddr B ino n).
Proof. intros Hn H. apply allocated_data; [by apply (fi_data _ _ _ Hfile)|done|lia]. Qed.

(** [ip->addrs[bn] = addr = balloc(...)] *)
Lemma grow_direct bn : 0 <= bn < 12 -> faddr B ino bn = 0 ->
  fgrow s B ino B1 (ino <| i_addrs ::= fun l => setz l bn r |>) /\ faddr B1 (ino <| i_addrs ::= fun l => setz l bn r |>) bn = r.
Proof.
  intros Hbn H0. set (ino' := ino <| i_addrs ::= _ |>). pose proof (fi_len _ _ _ Hfile) as Hl.
  assert (Ea : i_addrs ino' = setz (i_addrs ino) bn r) by done.
  assert (Ei : iaddr ino' = iaddr ino) by (unfold iaddr; rewrite Ea, nthd_setz_ne by lia; done).
  assert (Ef : forall n, faddr B1 ino' n = if decide (n = bn) then r else faddr B ino n).
  { intros n. unfold faddr. rewrite Ei. case_decide as E.
    - subst. destruct (Z.ltb_spec bn 12); [|lia]. by rewrite Ea, nthd_setz_eq by lia.
    - destruct (n <? 12); [by rewrite Ea, nthd_setz_ne by lia|]. destruct (Z.eqb_spec (iaddr ino) 0); [done|]. by rewrite alloc_ind. }
  assert (Hnew : forall n, inrange n -> faddr B ino n <> r).
  { intros n Hn E. destruct (Z.eq_dec (faddr B ino n) 0); [lia|]. by apply (datab_ne s B (faddr B ino n) r); [apply (fi_data _ _ _ Hfile)|..]. }
  assert (Hni : iaddr ino <> 0 -> iaddr ino <> r) by (intros H; apply (datab_ne s B); [by apply (fi_ind _ _ _ Hfile)|done]).
  split; [|by rewrite Ef, decide_True]. split.
  - split; rewrite ?Ei; try apply Hfile.
    + by rewrite Ea, length_setz.
    + intros n Hn. rewrite Ef. case_decide as E; [intros _; by apply datab_new|]. intros H. apply alloc_datab. by apply (fi_data _ _ _ Hfile).
    + intros H. by apply alloc_datab, (fi_ind _ _ _ Hfile).
    + intros n m Hn Hm. rewrite !Ef. repeat case_decide; try congruence; [intros _ E; by destruct (Hnew m Hm)|intros _ E; by destruct (Hnew n Hn)|].
      by apply (fi_inj _ _ _ Hfile).
    + intros n Hn H. rewrite Ef. case_decide as E; [intros E'; by apply Hni|]. by apply (fi_ni _ _ _ Hfile).
  - apply bitmap_allocated; try done. lia.
  - intros x. by apply allocated_ok.
  - intros n Hn. unfold fcont. rewrite Ef. case_decide as E.
    + subst. rewrite H0. destruct (Z.eqb_spec r 0); [lia|]. cbn. unfold B1, allocated. apply bset_eq.
    + destruct (Z.eqb_spec (faddr B ino n) 0); [done|]. by apply alloc_old.
  - intros n Hn H. rewrite Ef. by rewrite decide_False by congruence.
  - intros x Hx. apply used_mono; try done. lia.
  - intros x Hx _. apply allocated_data; [done..|lia].
  - intros x [->|(n&Hn&->)]; [left; left; by rewrite Ei|]. rewrite Ef. case_decide; [right; split; [lia|done]|]. left. right. eauto.
  - by eexists.
Qed.

(** [ip->addrs[NDIRECT] = addr = balloc(...)]: the indirect block has no entries yet. *)
Lemma grow_indirect : iaddr ino = 0 ->
  fgrow s B ino B1 (ino <| i_addrs ::= fun l => setz l 12 r |>) /\ iaddr (ino <| i_addrs ::= fun l => setz l 12 r |>) = r.
Proof.
  intros H0. set (ino' := ino <| i_addrs ::= _ |>). pose proof (fi_len _ _ _ Hfile) as Hl.
  assert (Ea : i_addrs ino' = setz (i_addrs ino) 12 r) by done. assert (Ei : iaddr ino' = r) by (unfold iaddr; by rewrite Ea, nthd_setz_eq by lia).
  assert (Ef : forall n, inrange n -> faddr B1 ino' n = faddr B ino n).
  { intros n Hn. unfold faddr. rewrite Ei, H0. destruct (Z.ltb_spec n 12); [by rewrite Ea, nthd_setz_ne by lia|]. destruct (Z.eqb_spec r 0); [lia|].
    unfold B1, allocated. rewrite bset_eq. cbn [Z.eqb]. apply ind_get_zeros. unfold inrange in Hn. lia. }
  assert (Hnew : forall n, inrange n -> faddr B ino n <> r).
  { intros n Hn E. destruct (Z.eq_dec (faddr B ino n) 0); [lia|]. by apply (datab_ne s B (faddr B ino n) r); [apply (fi_data _ _ _ Hfile)|..]. }
  split; [|done]. split.
  - split; rewrite ?Ei; try apply Hfile.
    + by rewrite Ea, length_setz.
    + intros n Hn. rewrite Ef by done. intros H. apply alloc_datab. by apply (fi_data _ _ _ Hfile).
    + intros _. by apply datab_new.
    + intros n m Hn Hm. rewrite !Ef by done. by apply (fi_inj _ _ _ Hfile).
    + intros n Hn _. rewrite Ef by done. by apply Hnew.
  - apply bitmap_allocated; try done. lia.
  - intros x. by apply allocated_ok.
  - intros n Hn. unfold fcont. rewrite Ef by done. destruct (Z.eqb_spec (faddr B ino n) 0); [done|]. by apply alloc_old.
  - intros n Hn _. by apply Ef.
  - intros x Hx. apply used_mono; try done. lia.
  - intros x Hx _. apply allocated_data; [done..|lia].
  - intros x [->|(n&Hn&->)]; [right; rewrite Ei; split; [lia|done]|]. rewrite Ef by done. left. right. eauto.
  - by eexists.
Qed.

(** [a[bn] = addr = balloc(...); log_write(bp)] *)
Definition entry_set (bn : Z) : Z -> list Z := bset B1 (iaddr ino) (ind_put (bn - 12) r (B1 (iaddr ino))).

Lemma grow_entry bn : 12 <= bn < 268 -> iaddr ino <> 0 -> faddr B ino bn = 0 ->
  fgrow s B ino (entry_set bn) ino /\ faddr (entry_set bn) ino bn = r.
Proof.
  intros Hbn Hi H0. pose proof (fi_ind _ _ _ Hfile Hi) as Hdi. pose proof (alloc_ind Hi) as Ei.
  assert (Eo : forall x, x <> iaddr ino -> entry_set bn x = B1 x) by (intros; by apply bset_ne).
  assert (Eu : forall x, 0 <= x < sb_size s -> used s (entry_set bn) x = used s B1 x).
  { intros x Hx. unfold used. rewrite Eo; [done|]. intros E. destruct Hdi as (_&_&Hd). by eapply Hd. }
  pose proof (Hok (iaddr ino)) as [Hlen Hbytes]. pose proof (bm_size _ _ Hbm) as Hsz.
  assert (Ef : forall n, inrange n -> faddr (entry_set bn) ino n = if decide (n = bn) then r else faddr B ino n).
  { intros n Hn. unfold faddr, inrange in *. case_decide as E.
    - subst. destruct (Z.ltb_spec bn 12); [lia|]. destruct (Z.eqb_spec (iaddr ino) 0); [done|]. unfold entry_set, ind_get, ind_put. rewrite bset_eq, Ei.
      rewrite lget_put by lia. apply Z.mod_small. cbn. lia.
    - destruct (Z.ltb_spec n 12); [done|]. destruct (Z.eqb_spec (iaddr ino) 0); [done|]. unfold entry_set, ind_get, ind_put. rewrite bset_eq, Ei.
      apply lget_other; rewrite length_le_bytes; lia. }
  assert (Hnew : forall n, inrange n -> faddr B ino n <> r).
  { intros n Hn E. destruct (Z.eq_dec (faddr B ino n) 0); [lia|]. by apply (datab_ne s B (faddr B ino n) r); [apply (fi_data _ _ _ Hfile)|..]. }
  assert (Hri : iaddr ino <> r) by (by apply (datab_ne s B)).
  assert (Hdat : forall x, datab s B1 x -> datab s (entry_set bn) x) by (intros x; apply datab_mono; intros y Hy; by rewrite Eu).
  split; [|rewrite Ef by (unfold inrange; lia); by rewrite decide_True]. split; try done.
  - split; try apply Hfile.
    + intros n Hn. rewrite Ef by done. case_decide as E; [intros _; by apply Hdat, datab_new|]. intros H. apply Hdat, alloc_datab. by apply (fi_data _ _ _ Hfile).
    + intros H. by apply Hdat, alloc_datab.
    + intros n m Hn Hm. rewrite !Ef by done. repeat case_decide; try congruence; [intros _ E; by destruct (Hnew m Hm)|intros _ E; by destruct (Hnew n Hn)|].
      by apply (fi_inj _ _ _ Hfile).
    + intros n Hn H. rewrite Ef by done. case_decide as E; [congruence|]. by apply (fi_ni _ _ _ Hfile).
  - assert (Hb1 : bitmap_ok s B1) by (apply bitmap_allocated; try done; lia). destruct Hb1 as [? ? Hself Hb0]. split; [done|done| |].
    + intros b Hb. destruct (Hself b Hb). split; [done|]. by rewrite Eu.
    + by rewrite Eu by lia.
  - intros x. unfold entry_set, bset. case_decide; [|by apply allocated_ok]. unfold ind_put. rewrite Ei. split.
    + rewrite length_splice; rewrite ?length_le_bytes; lia.
    + apply splice_bytes; [done|apply le_bytes_ok].
  - intros n Hn. unfold fcont. rewrite Ef by done. case_decide as E.
    + subst. rewrite H0. destruct (Z.eqb_spec r 0); [lia|]. cbn. rewrite Eo by done. apply bset_eq.
    + destruct (Z.eqb_spec (faddr B ino n) 0); [done|]. rewrite Eo by (by apply (fi_ni _ _ _ Hfile)). by apply alloc_old.
  - intros n Hn H. rewrite Ef by done. by rewrite decide_False by congruence.
  - intros x Hx. rewrite Eu by done. apply used_mono; try done. lia.
  - intros x Hx Hxi. rewrite Eo by (intros ->; apply Hxi; by left). apply allocated_data; [done..|lia].
  - intros x [->|(n&Hn&->)]; [left; by left|]. rewrite Ef by done. case_decide; [right; split; [lia|done]|]. left. right. eauto.
  - exists (i_addrs ino). by destruct ino.
Qed.
End Alloc.

(** ** The bytes of a file *)

Definition fbyte (B : Z -> list Z) (ino : inode) (p : Z) : Z := nthd 0 (fcont B ino (p / 1024)) (p mod 1024).

Lemma inrange_div p : 0 <= p < 274432 -> inrange (p / 1024).
Proof. intros. split; [apply Z.div_pos; lia|]. apply Z.div_lt_upper_bound; lia. Qed.

(** The bytes [ds] have been written at offset [off]; the other bytes and the
    blocks of other files are as before. *)
Record fwrote (s : superblock) (B : Z -> list Z) (ino : inode) (off : Z) (ds : list Z) (B' : Z -> list Z) (ino' : inode) : Prop := {
  fw_file : fileok s B' ino';
  fw_bitmap : bitmap_ok s B';
  fw_blocks : forall x, block_ok (B' x);
  fw_byte : forall p, 0 <= p < 274432 ->
    fbyte B' ino' p = if decide (off <= p < off + Z.of_nat (length ds)) then nthd 0 ds (p - off) else fbyte B ino p;
  fw_addr : forall n, inrange n -> faddr B ino n <> 0 -> faddr B' ino' n = faddr B ino n;
  fw_there : forall p, 0 <= p < 274432 -> off <= p < off + Z.of_nat (length ds) -> faddr B' ino' (p / 1024) <> 0;
  fw_used : forall x, 0 <= x < sb_size s -> used s B x = true -> used s B' x = true;
  fw_other : forall x, datab s B x -> ~ owns B ino x -> B' x = B x;
  fw_own : forall x, owns B' ino' x -> owns B ino x \/ 0 <= x < sb_size s /\ used s B x = false;
  fw_same : exists l, ino' = ino <| i_addrs := l |>
}.

Lemma fgrow_wrote s B ino off B' ino' : fgrow s B ino B' ino' -> fwrote s B ino off [] B' ino'.
Proof.
  intros []. split; try done.
  - intros p Hp. cbn. rewrite decide_False by lia. unfold fbyte. by rewrite fg_cont0 by (by apply inrange_div).
  - intros p _. cbn. lia.
Qed.

Lemma fwrote_trans s B1 i1 off ds1 B2 i2 ds2 B3 i3 :
  fwrote s B1 i1 off ds1 B2 i2 -> fwrote s B2 i2 (off + Z.of_nat (length ds1)) ds2 B3 i3 -> fwrote s B1 i1 off (ds1 ++ ds2) B3 i3.
Proof.
  intros G1 G2. pose proof (fw_used _ _ _ _ _ _ _ G1) as Hu. pose proof (fw_addr _ _ _ _ _ _ _ G2) as Ha2. split; try apply G2.
  - intros p Hp. rewrite (fw_byte _ _ _ _ _ _ _ G2), (fw_byte _ _ _ _ _ _ _ G1) by done. rewrite length_app. repeat case_decide; try lia; try done.
    + unfold nthd. destruct (Z.ltb_spec (p - (off + Z.of_nat (length ds1))) 0), (Z.ltb_spec (p - off) 0); try lia.
      rewrite lookup_app_r by lia. do 2 f_equal. lia.
    + unfold nthd. destruct (Z.ltb_spec (p - off) 0); [lia|]. by rewrite lookup_app_l by lia.
  - intros n Hn H. assert (E : faddr B2 i2 n = faddr B1 i1 n) by (by apply (fw_addr _ _ _ _ _ _ _ G1)). rewrite Ha2 by (try done; congruence). done.
  - intros p Hp Hr. rewrite length_app in Hr. destruct (decide (off + Z.of_nat (length ds1) <= p)); [apply (fw_there _ _ _ _ _ _ _ G2); [done|lia]|].
    assert (H2 : faddr B2 i2 (p / 1024) <> 0) by (apply (fw_there _ _ _ _ _ _ _ G1); [done|lia]). by rewrite Ha2 by (try done; by apply inrange_div).
  - intros x Hx H. apply (fw_used _ _ _ _ _ _ _ G2); auto.
  - intros x Hx Hi. rewrite (fw_other _ _ _ _ _ _ _ G2); [by apply (fw_other _ _ _ _ _ _ _ G1)|by apply (datab_mono s B1)|].
    intros [H|[_ Hf]]%(fw_own _ _ _ _ _ _ _ G1); [done|]. destruct Hx as (_&?&_). congruence.
  - intros x [H|[Hr H]]%(fw_own _ _ _ _ _ _ _ G2); [by apply (fw_own _ _ _ _ _ _ _ G1)|]. right. split; [done|]. apply not_true_is_false. intros H'%Hu; [congruence|done].
  - destruct (fw_same _ _ _ _ _ _ _ G1) as [l1 ->], (fw_same _ _ _ _ _ _ _ G2) as [l2 ->]. by exists l2.
Qed.

(** One block changes. *)
Lemma write_block s B ino bn o bs :
  fileok s B ino -> bitmap_ok s B -> (forall x, block_ok (B x)) -> inrange bn -> faddr B ino bn <> 0 ->
  0 <= o -> o + Z.of_nat (length bs) <= 1024 -> Forall byte_ok bs ->
  fwrote s B ino (bn * 1024 + o) bs (bset B (faddr B ino bn) (splice (B (faddr B ino bn)) o bs)) ino.
Proof.
  intros Hfile Hbm Hok Hbn Ha Ho Hob Hbs. set (a := faddr B ino bn) in *. set (B' := bset B a _).
  pose proof (fi_data _ _ _ Hfile bn Hbn Ha) as Hd. fold a in Hd. pose proof (Hok a) as [Hlen Hby].
  assert (Hia : iaddr ino <> 0 -> iaddr ino <> a) by (intros H; apply not_eq_sym, (fi_ni _ _ _ Hfile); done).
  assert (Ef : forall n, faddr B' ino n = faddr B ino n).
  { intros n. unfold faddr. destruct (n <? 12); [done|]. destruct (Z.eqb_spec (iaddr ino) 0); [done|]. unfold B'. by rewrite bset_ne by auto. }
  assert (Eu : forall x, 0 <= x < sb_size s -> used s B' x = used s B x).
  { intros x Hx. unfold used, B'. rewrite bset_ne; [done|]. intros E. destruct Hd as (_&_&Hd). by eapply Hd. }
  assert (Hdat : forall x, datab s B x -> datab s B' x) by (intros x; apply datab_mono; intros y Hy; by rewrite Eu).
  split; try done.
  - split; try apply Hfile.
    + intros n Hn. rewrite Ef. intros H. by apply Hdat, (fi_data _ _ _ Hfile).
    + intros H. by apply Hdat, (fi_ind _ _ _ Hfile).
    + intros n m Hn Hm. rewrite !Ef. by apply (fi_inj _ _ _ Hfile).
    + intros n Hn H. rewrite Ef. by apply (fi_ni _ _ _ Hfile).
  - destruct Hbm as [? ? Hself Hb0]. split; [done|done| |by rewrite Eu by lia].
    intros b Hb. destruct (Hself b Hb). split; [done|]. by rewrite Eu.
  - intros x. unfold B', bset. case_decide; [|done]. split; [rewrite length_splice; lia|by apply splice_bytes].
  - intros p Hp. pose proof (inrange_div p Hp) as Hpn. unfold fbyte, fcont. rewrite Ef. pose proof (Z.div_mod p 1024 ltac:(lia)) as Edm. pose proof (Z.mod_pos_bound p 1024 ltac:(lia)).
    destruct (decide (p / 1024 = bn)) as [E|E].
    + rewrite E. fold a. destruct (Z.eqb_spec a 0); [done|]. unfold B'. rewrite bset_eq. unfold nthd. destruct (Z.ltb_spec (p mod 1024) 0); [lia|].
      rewrite lookup_splice by lia. repeat case_decide; try lia; try done. destruct (Z.ltb_spec (p - (bn * 1024 + o)) 0); [lia|]. do 2 f_equal. lia.
    + rewrite decide_False by lia. destruct (Z.eqb_spec (faddr B ino (p / 1024)) 0); [done|]. unfold B'. rewrite bset_ne; [done|].
      intros E'. apply E. by apply (fi_inj _ _ _ Hfile).
  - intros p Hp Hr. rewrite Ef. replace (p / 1024) with bn; [done|]. pose proof (Z.div_mod p 1024 ltac:(lia)). pose proof (Z.mod_pos_bound p 1024 ltac:(lia)). lia.
  - intros x Hx. by rewrite Eu.
  - intros x Hx Hn. unfold B'. apply bset_ne. intros ->. apply Hn. right. by exists bn.
  - intros x [->|(n&Hn&->)]; left; [by left|]. rewrite Ef. right. eauto.
  - exists (i_addrs ino). by destruct ino.
Qed.

(** The [n] bytes from [off]. *)
Definition frange (B : Z -> list Z) (ino : inode) (off : Z) (n : nat) : list Z := (fun j => fbyte B ino (off + Z.of_nat j)) <$> seq 0 n.

Lemma frange_app B ino off n m : frange B ino off (n + m) = frange B ino off n ++ frange B ino (off + Z.of_nat n) m.
Proof.
  unfold frange. rewrite seq_app, fmap_app. f_equal. apply list_eq. intros x. rewrite !list_lookup_fmap.
  destruct (decide (x < m)%nat); [rewrite !lookup_seq_lt by lia; cbn; do 2 f_equal; lia|by rewrite !lookup_seq_ge by lia].
Qed.

(** The bytes within a block. *)
Lemma frange_block B ino off m :
  (forall x, block_ok (B x)) -> 0 <= off -> faddr B ino (off / 1024) <> 0 -> off mod 1024 + Z.of_nat m <= 1024 ->
  frange B ino off m = take m (drop (Z.to_nat (off mod 1024)) (B (faddr B ino (off / 1024)))).
Proof.
  intros Hok Hoff Ha Hm. destruct (Hok (faddr B ino (off / 1024))) as [Hl _]. apply list_eq. intros x. unfold frange. rewrite list_lookup_fmap.
  pose proof (Z.mod_pos_bound off 1024 ltac:(lia)). pose proof (Z.div_mod off 1024 ltac:(lia)).
  destruct (decide (x < m)%nat) as [Hx|Hx].
  - rewrite lookup_seq_lt, lookup_take_lt, lookup_drop by done. cbn. unfold fbyte, fcont.
    rewrite <- (Z.div_unique_pos (off + Z.of_nat x) 1024 (off / 1024) (off mod 1024 + Z.of_nat x)) by lia.
    rewrite <- (Z.mod_unique_pos (off + Z.of_nat x) 1024 (off / 1024) (off mod 1024 + Z.of_nat x)) by lia.
    destruct (Z.eqb_spec (faddr B ino (off / 1024)) 0); [done|]. unfold nthd. destruct (Z.ltb_spec (off mod 1024 + Z.of_nat x) 0); [lia|].
    replace (Z.to_nat (off mod 1024 + Z.of_nat x)) with (Z.to_nat (off mod 1024) + x)%nat by lia.
    destruct (lookup_lt_is_Some_2 (B (faddr B ino (off / 1024))) (Z.to_nat (off mod 1024) + x)) as [y ->]; [lia|done].
  - rewrite lookup_seq_ge, lookup_take_ge by lia. done.
Qed.

(** Reading back what was written. *)
Lemma frange_wrote s B ino off ds B' ino' :
  fwrote s B ino off ds B' ino' -> 0 <= off -> off + Z.of_nat (length ds) <= 274432 -> frange B' ino' off (length ds) = ds.
Proof.
  intros W Hoff Hl. apply list_eq. intros x. unfold frange. rewrite list_lookup_fmap. destruct (decide (x < length ds)%nat) as [Hx|Hx].
  - rewrite lookup_seq_lt by done. cbn. rewrite (fw_byte _ _ _ _ _ _ _ W) by lia. rewrite decide_True by lia. unfold nthd.
    destruct (Z.ltb_spec (off + Z.of_nat x - off) 0); [lia|]. replace (Z.to_nat (off + Z.of_nat x - off)) with x by lia.
    destruct (lookup_lt_is_Some_2 ds x Hx) as [y ->]. done.
  - rewrite lookup_seq_ge by lia. symmetry. apply lookup_ge_None. lia.
Qed.

(** ** [bmap] *)

(** What an operation on an inode leaves alone besides the inode table. *)
Definition iframe (k k' : kernel) : Prop := fsframe (k <| inodes := [] |>) (k' <| inodes := [] |>).

Lemma iframe_refl k : iframe k k.
Proof. done. Qed.
Lemma iframe_trans k1 k2 k3 : iframe k1 k2 -> iframe k2 k3 -> iframe k1 k3.
Proof. unfold iframe. apply fsframe_trans. Qed.
Lemma fsframe_i k k' : fsframe k k' -> iframe k k'.
Proof. intros E. exact (f_equal (fun k => k <| inodes := [] |>) E). Qed.
Lemma iframe_sb k k' : iframe k k' -> sb k' = sb k.
Proof. intros E. exact (f_equal sb E). Qed.
Lemma fsframe_inodes k k' : fsframe k k' -> inodes k' = inodes k.
Proof. intros E. exact (f_equal inodes E). Qed.

(** ** The inode on disk *)

Lemma length_addr_bytes l : length (List.concat (map (le_bytes 4) l)) = (4 * length l)%nat.
Proof. induction l as [|x l IH]; cbn [List.concat map]; [done|]. rewrite length_app, length_le_bytes, IH. cbn [length]. lia. Qed.

Lemma length_dinode_bytes d : length (di_addrs d) = 13%nat -> length (dinode_bytes d) = 64%nat.
Proof. intros Hl. unfold dinode_bytes. rewrite !length_app, !length_le_bytes, length_addr_bytes, Hl. done. Qed.

Lemma dinode_bytes_ok d : Forall byte_ok (dinode_bytes d).
Proof.
  unfold dinode_bytes. repeat apply Forall_app_2; try apply le_bytes_ok. induction (di_addrs d); cbn [List.concat map]; [by apply Forall_nil|].
  apply Forall_app_2; [apply le_bytes_ok|done].
Qed.

Lemma dip_off_range inum : 0 <= dip_off inum <= 960.
Proof. unfold dip_off. pose proof (Z.mod_pos_bound inum 16 ltac:(lia)). lia. Qed.

Lemma put_dinode_ok inum d data : length (di_addrs d) = 13%nat -> block_ok data -> block_ok (put_dinode inum d data).
Proof.
  intros Hl [H1 H2]. pose proof (dip_off_range inum). unfold put_dinode. split; [rewrite length_splice; rewrite ?length_dinode_bytes by done; lia|].
  apply splice_bytes; [done|apply dinode_bytes_ok].
Qed.

(** A dinode whose fields fit: [short], [uint]. *)
Definition dinode_fits (d : dinode) : Prop :=
  (forall x, x = di_type d \/ x = di_major d \/ x = di_minor d \/ x = di_nlink d -> - 2 ^ 15 <= x < 2 ^ 15) /\
  0 <= di_size d < 2 ^ 32 /\ length (di_addrs d) = 13%nat /\ Forall (fun a => 0 <= a < 2 ^ 32) (di_addrs d).

(** A field of the record within the block. *)
Lemma lget_record n l o x bs : (Z.to_nat o + length bs <= length l)%nat -> 0 <= o -> 0 <= x -> (Z.to_nat x + n <= length bs)%nat -> lget n (splice l o bs) (o + x) = lget n bs x.
Proof.
  intros Hl Ho Hx Hn. unfold lget. f_equal. apply list_eq. intros y. destruct (decide (y < n)%nat); [|by rewrite !lookup_take_ge by lia].
  rewrite !lookup_take_lt, !lookup_drop, lookup_splice by lia. rewrite decide_True by lia. f_equal. lia.
Qed.

Lemma lget_at n pre v post : lget n (pre ++ le_bytes n v ++ post) (Z.of_nat (length pre)) = v mod 2 ^ (8 * Z.of_nat n).
Proof.
  unfold lget. rewrite Nat2Z.id, drop_app_length. rewrite <- (length_le_bytes n v) at 1. rewrite take_app_length. apply le_val_bytes.
Qed.

Lemma i16_short x : - 2 ^ 15 <= x < 2 ^ 15 -> i16 (x mod 2 ^ (8 * Z.of_nat 2)) = x.
Proof. intros. unfold i16. change (2 ^ (8 * Z.of_nat 2)) with (2 ^ 16). rewrite Zplus_mod_idemp_l. by apply i16_small. Qed.

Lemma get_field inum d data n pre v post :
  length (di_addrs d) = 13%nat -> length data = 1024%nat -> dinode_bytes d = pre ++ le_bytes n v ++ post ->
  lget n (put_dinode inum d data) (dip_off inum + Z.of_nat (length pre)) = v mod 2 ^ (8 * Z.of_nat n).
Proof.
  intros Hl Hd E. pose proof (dip_off_range inum). pose proof (length_dinode_bytes d Hl) as H64. unfold put_dinode. rewrite lget_record; rewrite ?H64; try lia.
  - rewrite E. apply lget_at.
  - rewrite E, !length_app, length_le_bytes in H64. lia.
Qed.

(** Reading a dinode back, and the other dinodes of the block. *)
Lemma get_put_dinode inum d data : dinode_fits d -> length data = 1024%nat -> get_dinode (put_dinode inum d data) inum = d.
Proof.
  intros (Hs&Hz&Hl&Ha) Hd. unfold get_dinode. destruct d as [t mj mn nl sz ad]. cbn [di_type di_major di_minor di_nlink di_size di_addrs] in *.
  set (dd := mkdinode t mj mn nl sz ad). pose proof (get_field inum dd data) as G.
  assert (G0 := G 2%nat [] t _ Hl Hd eq_refl). cbn [length] in G0. rewrite Z.add_0_r in G0.
  assert (G1 := G 2%nat (le_bytes 2 t) mj _ Hl Hd eq_refl).
  assert (G2 := G 2%nat (le_bytes 2 t ++ le_bytes 2 mj) mn _ Hl Hd eq_refl).
  assert (G3 := G 2%nat (le_bytes 2 t ++ le_bytes 2 mj ++ le_bytes 2 mn) nl _ Hl Hd eq_refl).
  assert (G4 := G 4%nat (le_bytes 2 t ++ le_bytes 2 mj ++ le_bytes 2 mn ++ le_bytes 2 nl) sz _ Hl Hd eq_refl).
  cbn [app length le_bytes] in G1, G2, G3, G4. change (Z.of_nat 2) with 2 in G1 at 1. change (Z.of_nat 4) with 4 in G2 at 1. change (Z.of_nat 6) with 6 in G3 at 1.
  change (Z.of_nat 8) with 8 in G4 at 1. rewrite G0, G1, G2, G3, G4, !i16_short by (apply Hs; auto). f_equal; [by apply Z.mod_small|].
  apply list_eq. intros j. rewrite list_lookup_fmap. destruct (decide (j < 13)%nat) as [Hj|Hj].
  - rewrite lookup_seq_lt by done. destruct (lookup_lt_is_Some_2 ad j) as [x Hx]; [lia|]. cbn [fmap option_fmap option_map]. rewrite Hx. f_equal.
    pose proof (take_drop_middle ad j x Hx) as Esplit.
    assert (E : dinode_bytes dd = (le_bytes 2 t ++ le_bytes 2 mj ++ le_bytes 2 mn ++ le_bytes 2 nl ++ le_bytes 4 sz ++ List.concat (map (le_bytes 4) (take j ad))) ++
      le_bytes 4 x ++ List.concat (map (le_bytes 4) (drop (S j) ad))).
    { unfold dinode_bytes, dd. cbn [di_type di_major di_minor di_nlink di_size di_addrs]. rewrite <- Esplit at 1. rewrite map_app, concat_app. cbn [map List.concat]. by rewrite <- !app_assoc. }
    assert (G5 := G 4%nat _ x _ Hl Hd E). rewrite !length_app, !length_le_bytes, length_addr_bytes, length_take, Nat.min_l in G5 by lia.
    replace (dip_off inum + 12 + 4 * Z.of_nat (0 + j)) with (dip_off inum + Z.of_nat (2 + (2 + (2 + (2 + (4 + 4 * j)))))) by lia. rewrite G5.
    apply Z.mod_small. eapply Forall_lookup_1 in Ha; [|exact Hx]. done.
  - rewrite lookup_seq_ge by lia. symmetry. apply lookup_ge_None. lia.
Qed.

(** ** Where the bytes of a write come from *)

Section Source.
Context {LK : Linker}.

Definition advance (src : iosrc) (m : Z) : iosrc :=
  match src with
  | FromUser va => FromUser (u64 (va + m))
  | FromPhys pa => FromPhys (pa + m)
  | FromLocal bs => FromLocal (drop (Z.to_nat m) bs)
  end.

(** [either_copyin] reads the bytes [ds] from [src], whatever the file system does in between. *)
Record provides (src : iosrc) (ds : list Z) (c : cpu) (k : kernel) : Prop := {
  pv_id : advance src 0 = src;
  pv_read : forall a m k', mem k' = mem k -> procs_like k k' -> 0 <= a -> 0 <= m -> a + m <= Z.of_nat (length ds) ->
    either_copyin (advance src a) m c k' = Done (0, take (Z.to_nat m) (drop (Z.to_nat a) ds)) c k'
}.

Lemma advance_advance src a b : 0 <= a -> 0 <= b -> advance (advance src a) b = advance src (a + b).
Proof.
  intros. destruct src; cbn; f_equal; [|lia|].
  - unfold u64. rewrite Zplus_mod_idemp_l. f_equal. lia.
  - rewrite drop_drop. f_equal. lia.
Qed.

Lemma provides_advance src ds c k a : provides src ds c k -> 0 <= a <= Z.of_nat (length ds) -> provides (advance src a) (drop (Z.to_nat a) ds) c k.
Proof.
  intros [Hid Hr] Ha. split; [rewrite advance_advance by lia; f_equal; lia|]. intros b m k' Hm Hp Hb Hm0 Hl. rewrite length_drop in Hl.
  rewrite advance_advance, Hr by (try done; lia). do 3 f_equal. rewrite drop_drop. f_equal. lia.
Qed.

Lemma provides_frame src ds c k k' : provides src ds c k -> mem k' = mem k -> procs_like k k' -> provides src ds c k'.
Proof. intros [Hid Hr] Em Hp. split; [done|]. intros a m k'' Em' Hp' ???. apply Hr; try done; [congruence|]. unfold procs_like in *. congruence. Qed.

Lemma provides_local ds c k : provides (FromLocal ds) ds c k.
Proof. split; [by cbn; rewrite drop_0|]. done. Qed.

Lemma rdbytes_drop m a n x : rdbytes m (a + Z.of_nat x) (n - x) = drop x (rdbytes m a n).
Proof.
  unfold rdbytes. rewrite <- fmap_drop. apply list_eq. intros y. rewrite !list_lookup_fmap, lookup_drop.
  destruct (decide (y < n - x)%nat); [rewrite !lookup_seq_lt by lia; cbn; do 2 f_equal; lia|rewrite !lookup_seq_ge by lia; done].
Qed.
Lemma rdbytes_take m a n x : (x <= n)%nat -> rdbytes m a x = take x (rdbytes m a n).
Proof. intros. unfold rdbytes. rewrite <- fmap_take. f_equal. rewrite take_seq. f_equal. lia. Qed.

Lemma provides_phys pa n c k : provides (FromPhys pa) (rdbytes (mem k) pa n) c k.
Proof.
  split; [cbn; f_equal; lia|]. intros a m k' Em _ Ha Hm Hl. unfold either_copyin, advance. unfold rdbytes in Hl. rewrite length_fmap, length_seq in Hl.
  erewrite bind_done by done. unfold ret. rewrite Em. do 2 f_equal.
  rewrite <- (Z2Nat.id a) at 1 by lia. rewrite <- rdbytes_drop. apply rdbytes_take. lia.
Qed.

End Source.

Lemma iframe_mem k k' : iframe k k' -> mem k' = mem k.
Proof. intros E. exact (f_equal mem E). Qed.
Lemma iframe_procs k k' : iframe k k' -> procs_like k k'.
Proof. intros E. exact (f_equal procs E). Qed.

Section File.
Context {LK : Linker} `{Fu : Fuel} `{Bd : BlockDevice}.
Context (start : Z) (i : nat) (s : superblock) (ip : nat).

(** Inode [ip] is [ino]. *)
Definition ino_at (k : kernel) (ino : inode) : Prop := inodes k !! ip = Some ino.

Lemma fsx_inode B H P k f : fsx start i B H P k -> fsx start i B H P (k <| inodes ::= f |>).
Proof. intros [Hf Hl]. split; [by eapply fsok_other; [..|exact Hf]|]. by eapply logok_log; [|exact Hl]. Qed.

Record bmapped (B : Z -> list Z) (ino : inode) (P : list Z) (bn r : Z) (k : kernel) (B' : Z -> list Z) (ino' : inode) (P' : list Z) (k' : kernel) : Prop := {
  bd_fs : fsx start i B' [] P' k';
  bd_grow : fgrow s B ino B' ino';
  bd_ino : inodes k' = <[ip := ino']> (inodes k);
  bd_frame : iframe k k';
  bd_log : (length P' <= length P + 5)%nat;
  bd_addr : r <> 0 -> r = faddr B' ino' bn;
  bd_full : r = 0 -> forall b, 0 <= b < sb_size s -> used s B' b = true;
  bd_old : faddr B ino bn <> 0 -> r <> 0 /\ B' = B /\ ino' = ino /\ P' = P
}.

Definition bmap_post B ino P bn c k (r : Z) (c' : cpu) (k' : kernel) : Prop :=
  c' = c /\ exists B' ino' P', bmapped B ino P bn r k B' ino' P' k'.

Lemma list_insert_self {A} (l : list A) n x : l !! n = Some x -> l = <[n := x]> l.
Proof. intros. symmetry. by apply list_insert_id. Qed.

(** A direct block. *)
Lemma bmap_direct B ino P bn c k :
  fsx start i B [] P k -> user i c -> sb k = s -> ino_at k ino -> fileok s B ino -> bitmap_ok s B -> 0 <= bn < 12 -> (length P + 5 < 30)%nat ->
  runs (bmap ip bn) c k (bmap_post B ino P bn c k).
Proof.
  intros Hf Hu Hs Hi Hfile Hbm Hbn Hlen. unfold bmap. eapply runs_at; [by apply getinode_done|]. destruct (Z.ltb_spec bn NDIRECT); [|lia].
  eapply runs_at; [unfold get_addr; by erewrite bind_done by (by apply getinode_done)|].
  assert (Ef : faddr B ino bn = nthd 0 (i_addrs ino) bn) by (unfold faddr; destruct (Z.ltb_spec bn 12); [done|lia]). rewrite <- Ef.
  assert (Hok : forall x, block_ok (B x)) by apply Hf.
  destruct (Z.eqb_spec (faddr B ino bn) 0) as [E0|E0].
  - rewrite (fi_dev _ _ _ Hfile). eapply runs_step; [eapply (balloc_fs start i s B []); try done; [by intros x ?%elem_of_nil|cbn; lia]|].
    intros r c' k1 (->&_&Hr1&[(->&Hall&Hf1)|(Hr&Hfree&Hall&Hf1)]).
    + cbn [Z.eqb]. apply runs_ret. split; [done|]. exists B, ino, P. split; try done; [by apply fgrow_refl| |by apply fsframe_i|lia].
      rewrite (fsframe_inodes _ _ Hr1). by apply list_insert_self.
    + destruct (Z.eqb_spec r 0); [lia|]. eapply runs_at; [done|]. apply runs_ret. destruct (grow_direct s B ino r Hfile Hbm Hok Hr Hfree bn Hbn E0) as [Hg Ha].
      split; [done|]. eexists _, _, _. split; [by apply fsx_inode|exact Hg| | | |intros _; symmetry; exact Ha|lia|done].
      * cbn. by rewrite (linsert_alter _ _ _ ino) by (by rewrite (fsframe_inodes _ _ Hr1)); rewrite (fsframe_inodes _ _ Hr1).
      * exact (fsframe_i _ _ Hr1).
      * pose proof (length_logged (BBLOCK r s) P). pose proof (length_logged r (logged (BBLOCK r s) P)). lia.
  - apply runs_ret. split; [done|]. exists B, ino, P. split; try done; [by apply fgrow_refl|by apply list_insert_self|lia].
Qed.

(** The entry of the indirect block, which is there: the end of [bmap]. *)
Definition bmap_entry (dev addr bn : Z) : M Z :=
  bp <- bread dev addr ;;
  data <- bdata bp ;;
  addr <- (if ind_get data bn =? 0 then
             addr <- balloc dev ;;
             (if negb (addr =? 0) then moddata bp (ind_put bn addr) ;; log_write bp else ret tt) ;;
             ret addr
           else ret (ind_get data bn)) ;;
  brelse bp ;;
  ret addr.

Record entered (B : Z -> list Z) (ino : inode) (P : list Z) (bn r : Z) (k : kernel) (B' : Z -> list Z) (P' : list Z) (k' : kernel) : Prop := {
  en_fs : fsx start i B' [] P' k';
  en_grow : fgrow s B ino B' ino;
  en_frame : fsframe k k';
  en_log : (length P' <= length P + 3)%nat;
  en_addr : r <> 0 -> r = faddr B' ino bn;
  en_full : r = 0 -> forall b, 0 <= b < sb_size s -> used s B' b = true;
  en_old : faddr B ino bn <> 0 -> r <> 0 /\ B' = B /\ P' = P
}.

Lemma runs_ret_bind {A C} (a : A) (f : A -> M C) c k Q : runs (f a) c k Q -> runs (bind (ret a) f) c k Q.
Proof. done. Qed.

Lemma runs_assoc {A C D} (m : M A) (f : A -> M C) (g : C -> M D) c k Q :
  runs (bind m (fun x => bind (f x) g)) c k Q -> runs (bind (bind m f) g) c k Q.
Proof. unfold runs, bind. destruct (m c k) as [x c' k'| | |]; [|done..]. by destruct (f x c' k'). Qed.

Lemma bmap_entry_fs B ino P bn c k :
  fsx start i B [] P k -> user i c -> sb k = s -> fileok s B ino -> bitmap_ok s B -> 12 <= bn < 268 -> iaddr ino <> 0 -> (length P + 4 < 30)%nat ->
  runs (bmap_entry 1 (iaddr ino) (bn - 12)) c k (fun r c' k' => c' = c /\ exists B' P', entered B ino P bn r k B' P' k').
Proof.
  intros Hf Hu Hs Hfile Hbm Hbn Hia Hlen. unfold bmap_entry. assert (Hok : forall x, block_ok (B x)) by apply Hf. set (ia := iaddr ino) in *.
  assert (Hd : datab s B ia) by (by apply (fi_ind _ _ _ Hfile)).
  assert (Ef : faddr B ino bn = ind_get (B ia) (bn - 12)).
  { unfold faddr. destruct (Z.ltb_spec bn 12); [lia|]. fold ia. by destruct (Z.eqb_spec ia 0). }
  eapply (bread_x start i B [] P c k ia); [done|done|apply not_elem_of_nil|right; cbn; lia|]. intros j k1 Hf1 Ha1 _ Hr1.
  eapply bdata_x; [done|apply list_elem_of_here|done|]. rewrite <- Ef. destruct (Z.eqb_spec (faddr B ino bn) 0) as [E0|E0].
  - apply runs_assoc. eapply runs_step; [eapply (balloc_fs start i s B [ia]); [done| |done|done|by rewrite (fsframe_sb _ _ Hr1)|cbn; lia]|].
    { intros x ->%list_elem_of_singleton. split; [apply Hd|intros _; apply Hd]. }
    intros r c' k2 (->&Hk2&Hr2&[(->&Hall&Hf2)|(Hr&Hfree&Hall&Hf2)]); assert (Ha2 : at_buf k2 j ia) by (by apply Hk2; [apply list_elem_of_here|]).
    + cbn [Z.eqb negb]. apply runs_assoc. do 2 apply runs_ret_bind. eapply (brelse_x start i B [] P c k2 j ia); [done|done|done|]. intros k3 Hf3 _ Hr3.
      apply runs_ret. split; [done|]. exists B, P. split; try done; [by apply fgrow_refl|by repeat (eapply fsframe_trans; [eassumption|])|lia].
    + destruct (Z.eqb_spec r 0); [lia|]. cbn [negb]. destruct (grow_entry s B ino r Hfile Hbm Hok Hr Hfree bn Hbn Hia E0) as [Hg Ha].
      pose proof (length_logged (BBLOCK r s) P) as L1. pose proof (length_logged r (logged (BBLOCK r s) P)) as L2.
      pose proof (length_logged ia (logged r (logged (BBLOCK r s) P))) as L3.
      do 2 apply runs_assoc.
      eapply (update_x start i _ [ia] _ c k2 j ia (ind_put (bn - 12) r)); [exact Hf2|done|apply list_elem_of_here|done| |lia| |].
      { pose proof (fg_blocks _ _ _ _ _ Hg ia) as Hb. unfold entry_set in Hb. fold ia in Hb. by rewrite bset_eq in Hb. }
      { destruct Hd as (?&_). pose proof (bm_size _ _ Hbm). unfold bno_ok. lia. }
      intros k3 Hf3 Hk3 Hr3. apply runs_ret_bind. eapply (brelse_x start i _ [] _ c k3 j ia); [exact Hf3|done|by apply Hk3; [apply list_elem_of_here|]|]. intros k4 Hf4 _ Hr4.
      apply runs_ret. split; [done|]. eexists _, _. split; [exact Hf4|exact Hg| |lia|intros _; symmetry; exact Ha|lia|done].
      by repeat (eapply fsframe_trans; [eassumption|]).
  - apply runs_ret_bind. eapply (brelse_x start i B [] P c k1 j ia); [done|done|done|]. intros k2 Hf2 _ Hr2. apply runs_ret. split; [done|]. exists B, P.
    split; try done; [by apply fgrow_refl|by eapply fsframe_trans|lia].
Qed.

Lemma bmap_indirect B ino P bn c k :
  fsx start i B [] P k -> user i c -> sb k = s -> ino_at k ino -> fileok s B ino -> bitmap_ok s B -> 12 <= bn < 268 -> (length P + 7 < 30)%nat ->
  runs (bmap ip bn) c k (bmap_post B ino P bn c k).
Proof.
  intros Hf Hu Hs Hi Hfile Hbm Hbn Hlen. unfold bmap. eapply runs_at; [by apply getinode_done|]. destruct (Z.ltb_spec bn NDIRECT); [lia|].
  destruct (Z.ltb_spec (bn - NDIRECT) NINDIRECT); [|lia]. assert (Hok : forall x, block_ok (B x)) by apply Hf.
  eapply runs_at; [unfold get_addr; by erewrite bind_done by (by apply getinode_done)|]. fold (iaddr ino). rewrite (fi_dev _ _ _ Hfile).
  destruct (Z.eqb_spec (iaddr ino) 0) as [E0|E0].
  - apply runs_assoc. eapply runs_step; [eapply (balloc_fs start i s B []); try done; [by intros x ?%elem_of_nil|cbn; lia]|].
    intros r c' k1 (->&_&Hr1&[(->&Hall&Hf1)|(Hr&Hfree&Hall&Hf1)]).
    + cbn [Z.eqb]. apply runs_ret_bind, runs_ret. split; [done|]. exists B, ino, P. split; try done; [by apply fgrow_refl| |by apply fsframe_i|lia|].
      * rewrite (fsframe_inodes _ _ Hr1). by apply list_insert_self.
      * intros H1. destruct H1. unfold faddr. destruct (Z.ltb_spec bn 12); [lia|]. by rewrite E0.
    + destruct (Z.eqb_spec r 0); [lia|]. apply runs_assoc. eapply runs_at; [done|]. apply runs_ret_bind.
      destruct (grow_indirect s B ino r Hfile Hbm Hok Hr Hfree E0) as [Hg Hia]. set (ino1 := ino <| i_addrs ::= _ |>) in *. set (k2 := k1 <| inodes ::= _ |>).
      destruct (Z.eqb_spec r 0); [lia|]. pose proof (length_logged (BBLOCK r s) P) as L1. pose proof (length_logged r (logged (BBLOCK r s) P)) as L2.
      change (runs (bmap_entry 1 r (bn - 12)) c k2 (bmap_post B ino P bn c k)). rewrite <- Hia.
      eapply runs_mono; [eapply (bmap_entry_fs _ ino1 _ bn c k2); [by apply fsx_inode|done|cbn; by rewrite (fsframe_sb _ _ Hr1)|apply Hg|apply Hg|done|rewrite Hia; lia|lia]|].
      intros r2 c' k3 (->&B3&P3&[E1 E2 E3 E4 E5 E6 E7]). split; [done|]. exists B3, ino1, P3. split; [done|by eapply fgrow_trans| | |lia|done|done|].
      * rewrite (fsframe_inodes _ _ E3). cbn. by rewrite (linsert_alter _ _ _ ino), (fsframe_inodes _ _ Hr1) by (by rewrite (fsframe_inodes _ _ Hr1)).
      * apply (iframe_trans k k2 k3); [exact (fsframe_i _ _ Hr1)|by apply fsframe_i].
      * intros H1. destruct H1. unfold faddr. destruct (Z.ltb_spec bn 12); [lia|]. by rewrite E0.
  - apply runs_ret_bind. destruct (Z.eqb_spec (iaddr ino) 0); [done|].
    change (runs (bmap_entry 1 (iaddr ino) (bn - 12)) c k (bmap_post B ino P bn c k)).
    eapply runs_mono; [eapply (bmap_entry_fs B ino P bn c k); try done; lia|]. intros r2 c' k3 (->&B3&P3&[E1 E2 E3 E4 E5 E6 E7]). split; [done|]. exists B3, ino, P3.
    split; [done|done| |by apply fsframe_i|lia|done|done|].
    + rewrite (fsframe_inodes _ _ E3). by apply list_insert_self.
    + intros H1. destruct (E7 H1) as (?&?&?). done.
Qed.

Lemma bmap_fs B ino P bn c k :
  fsx start i B [] P k -> user i c -> sb k = s -> ino_at k ino -> fileok s B ino -> bitmap_ok s B -> inrange bn -> (length P + 7 < 30)%nat ->
  runs (bmap ip bn) c k (bmap_post B ino P bn c k).
Proof.
  intros. unfold inrange in *. destruct (Z.lt_ge_cases bn 12); [apply bmap_direct|apply bmap_indirect]; try done; lia.
Qed.

(** ** [writei] *)

Record written (B : Z -> list Z) (ino : inode) (P : list Z) (off : Z) (ds : list Z) (k : kernel) (extra : Z) (B' : Z -> list Z) (ino' : inode) (P' : list Z) (k' : kernel) : Prop := {
  wt_fs : fsx start i B' [] P' k';
  wt_wrote : fwrote s B ino off ds B' ino';
  wt_ino : inodes k' = <[ip := ino']> (inodes k);
  wt_frame : iframe k k';
  wt_log : Z.of_nat (length P') <= Z.of_nat (length P) + extra
}.

(** [nb] blocks at most are left to write. *)
Lemma writei_loop_fs fl B ino P src off tot n ds nb c k :
  fsx start i B [] P k -> user i c -> sb k = s -> ino_at k ino -> fileok s B ino -> bitmap_ok s B -> provides src ds c k -> Forall byte_ok ds ->
  0 <= off -> 0 <= tot <= n -> n < 2 ^ 31 -> off + (n - tot) <= 274432 -> Z.of_nat (length ds) = n - tot ->
  (tot < n -> off mod 1024 + (n - tot) <= 1024 * nb) -> 0 <= nb < Z.of_nat fl -> Z.of_nat (length P) + 6 * nb + 2 < 30 ->
  runs (writei_loop fl ip src off tot n) c k (fun r c' k' => c' = c /\ exists m B' ino' P', 0 <= m <= n - tot /\ r = (tot + m, off + m) /\
    written B ino P off (take (Z.to_nat m) ds) k (6 * nb) B' ino' P' k' /\
    (m < n - tot -> forall b, 0 <= b < sb_size s -> used s B' b = true)).
Proof.
  revert B ino P src off tot ds nb k. induction fl as [|fl IH]; intros B ino P src off tot ds nb k Hf Hu Hs Hi Hfile Hbm Hsrc Hds Hoff Htot Hn Hmax Hlds Hnb Hfl Hlog; [lia|].
  cbn [writei_loop]. assert (Hok : forall x, block_ok (B x)) by apply Hf. destruct (Z.ltb_spec tot n) as [Hlt|Hge].
  2: { apply runs_ret. split; [done|]. exists 0, B, ino, P. split; [lia|]. split; [f_equal; lia|]. split; [|lia].
       split; [done|by apply fgrow_wrote, fgrow_refl|by apply list_insert_self|done|lia]. }
  pose proof (Z.mod_pos_bound off 1024 ltac:(lia)) as Hmod. pose proof (Z.div_mod off 1024 ltac:(lia)) as Hdm. specialize (Hnb Hlt).
  assert (Hbn : inrange (off / 1024)) by (apply inrange_div; lia).
  eapply runs_step; [eapply (bmap_fs B ino P (off / BSIZE)); try done; lia|]. intros a c' k1 (->&B1&ino1&P1&[E1 E2 E3 E4 E5 E6 E7 E8]).
  destruct (Z.eqb_spec a 0) as [Ea|Ea].
  { apply runs_ret. split; [done|]. exists 0, B1, ino1, P1. split; [lia|]. split; [f_equal; lia|]. split; [|intros _; by apply E7].
    split; [done|by apply fgrow_wrote|done|done|lia]. }
  assert (Hi1 : inodes k1 !! ip = Some ino1) by (rewrite E3; apply list_lookup_insert_eq; by eapply lookup_lt_Some).
  eapply runs_at; [by apply getinode_done|]. rewrite (fi_dev _ _ _ (fg_file _ _ _ _ _ E2)).
  eapply (bread_x start i B1 [] P1 c k1 a); [done|done|apply not_elem_of_nil|right; cbn; lia|]. intros j k2 Hf2 Ha2 _ Hr2.
  set (m := Fs.min (n - tot) (BSIZE - off mod BSIZE)). assert (Hm : 0 < m /\ m <= n - tot /\ m <= 1024 - off mod 1024 /\ (m = n - tot \/ m = 1024 - off mod 1024)).
  { unfold m, Fs.min. destruct (Z.ltb_spec (n - tot) (BSIZE - off mod BSIZE)); lia. }
  assert (Hfr2 : iframe k k2) by (eapply iframe_trans; [done|by apply fsframe_i]).
  eapply runs_at; [rewrite <- (pv_id _ _ _ _ Hsrc); apply (pv_read _ _ _ _ Hsrc 0 m); [by apply iframe_mem|by apply iframe_procs|lia..]|]. rewrite drop_0. cbv beta iota. cbn [Z.eqb].
  pose proof (E6 Ea) as Eaddr. pose proof E2 as [G1 G2 G3 _ _ _ _ _ _].
  assert (Hlm : length (take (Z.to_nat m) ds) = Z.to_nat m) by (rewrite length_take; lia).
  assert (Hd : datab s B1 a) by (rewrite Eaddr; apply (fi_data _ _ _ G1); [done|congruence]).
  assert (Hw : fwrote s B1 ino1 off (take (Z.to_nat m) ds) (bset B1 a (splice (B1 a) (off mod 1024) (take (Z.to_nat m) ds))) ino1).
  { replace off with (off / 1024 * 1024 + off mod 1024) at 1 by lia. rewrite Eaddr. apply write_block; try done; [congruence|lia|rewrite Hlm; lia|by apply Forall_take]. }
  eapply (update_x start i B1 [a] P1 c k2 j a); [done|done|apply list_elem_of_here|done| |lia| |].
  { pose proof (fw_blocks _ _ _ _ _ _ _ Hw a) as Hb. by rewrite bset_eq in Hb. }
  { destruct Hd as (?&_). pose proof (bm_size _ _ G2). unfold bno_ok. lia. }
  intros k3 Hf3 Hk3 Hr3. eapply (brelse_x start i _ [] _ c k3 j a); [exact Hf3|done|by apply Hk3; [apply list_elem_of_here|]|]. intros k4 Hf4 _ Hr4.
  assert (Hr24 : fsframe k1 k4) by (eapply fsframe_trans; [exact Hr2|by eapply fsframe_trans]).
  assert (Hfr4 : iframe k k4) by (eapply iframe_trans; [exact E4|by apply fsframe_i]).
  assert (Hi4 : inodes k4 = <[ip := ino1]> (inodes k)) by (by rewrite (fsframe_inodes _ _ Hr24)).
  pose proof (length_logged a P1) as HlP. pose proof Hw as [W1 W2 _ _ _ _ _ _ _ _].
  change (match src with FromUser va => _ | FromPhys pa => _ | FromLocal bs => _ end) with (advance src m).
  rewrite (u32_small (off + m)), (u32_small (tot + m)) by lia.
  assert (Hmod' : tot + m < n -> (off + m) mod 1024 = 0).
  { intros Hlt'. replace (off + m) with ((off / 1024 + 1) * 1024) by lia. apply Z.mod_mul. lia. }
  eapply runs_mono; [eapply (IH _ ino1 (logged a P1) (advance src m) (off + m) (tot + m) (drop (Z.to_nat m) ds) (nb - 1) k4); [exact Hf4|done| | |exact W1|exact W2| | |lia|lia|lia|lia| | |lia|lia]|].
  - by rewrite (iframe_sb _ _ Hfr4).
  - unfold ino_at. rewrite Hi4. apply list_lookup_insert_eq. by eapply lookup_lt_Some.
  - apply provides_advance; [|lia]. eapply provides_frame; [exact Hsrc|by apply iframe_mem|by apply iframe_procs].
  - by apply Forall_drop.
  - rewrite length_drop. lia.
  - intros Hlt'. rewrite Hmod' by done. lia.
  - intros r c' k5 (->&m'&B'&ino'&P'&Hm'&->&[T1 T2 T3 T4 T5]&Hfull). split; [done|]. exists (m + m'), B', ino', P'. split; [lia|]. split; [f_equal; lia|].
    split; [|intros; apply Hfull; lia]. split; [done| |by rewrite T3, Hi4, list_insert_insert_eq|by eapply iframe_trans|lia].
    rewrite Z2Nat.inj_add, <- take_take_drop by lia. change (take (Z.to_nat m) ds) with ([] ++ take (Z.to_nat m) ds).
    eapply (fwrote_trans s B ino off _ (bset B1 a _) ino1); [eapply (fwrote_trans s B ino off [] B1 ino1); [by apply fgrow_wrote|]|].
    + cbn. by rewrite Z.add_0_r.
    + cbn. rewrite Hlm. by replace (off + Z.of_nat (Z.to_nat m)) with (off + m) by lia.
Qed.

(** ** [readi] *)

(** The file has a block for each of its first [n] bytes. *)
Definition filled (B : Z -> list Z) (ino : inode) (n : Z) : Prop := forall p, 0 <= p < n -> faddr B ino (p / 1024) <> 0.

Lemma readi_loop_fs fl B ino P off tot n got c k :
  fsx start i B [] P k -> user i c -> sb k = s -> ino_at k ino -> fileok s B ino -> bitmap_ok s B ->
  0 <= off -> 0 <= tot <= n -> n < 2 ^ 31 -> off + (n - tot) <= 274432 -> filled B ino (off + (n - tot)) ->
  (tot < n -> off mod 1024 + (n - tot) <= 1024 * (Z.of_nat fl - 1)) -> 0 < Z.of_nat fl -> (length P + 7 < 30)%nat ->
  runs (readi_loop fl ip ToLocal off tot n got) c k (fun r c' k' => c' = c /\ r = (n, got ++ frange B ino off (Z.to_nat (n - tot))) /\
    fsx start i B [] P k' /\ inodes k' = inodes k /\ iframe k k').
Proof.
  revert off tot got k. induction fl as [|fl IH]; intros off tot got k Hf Hu Hs Hi Hfile Hbm Hoff Htot Hn Hmax Hfill Hfl Hfl0 Hlog; [lia|].
  cbn [readi_loop]. assert (Hok : forall x, block_ok (B x)) by apply Hf. destruct (Z.ltb_spec tot n) as [Hlt|Hge].
  2: { apply runs_ret. split; [done|]. replace (Z.to_nat (n - tot)) with 0%nat by lia. rewrite app_nil_r. split; [f_equal; lia|done]. }
  pose proof (Z.mod_pos_bound off 1024 ltac:(lia)) as Hmod. pose proof (Z.div_mod off 1024 ltac:(lia)) as Hdm. specialize (Hfl Hlt).
  assert (Hbn : inrange (off / 1024)) by (apply inrange_div; lia). assert (Ha : faddr B ino (off / 1024) <> 0) by (apply Hfill; lia).
  eapply runs_step; [eapply (bmap_fs B ino P (off / BSIZE)); try done; lia|]. intros a c' k1 (->&B1&ino1&P1&[E1 E2 E3 E4 E5 E6 E7 E8]).
  destruct (E8 Ha) as (Ea&->&->&->). destruct (Z.eqb_spec a 0) as [|_]; [done|]. pose proof (E6 Ea) as Eaddr.
  assert (Ei : inodes k1 = inodes k) by (rewrite E3; symmetry; by apply list_insert_self).
  eapply runs_at; [apply getinode_done; by rewrite Ei|]. rewrite (fi_dev _ _ _ Hfile).
  eapply (bread_x start i B [] P c k1 a); [done|done|apply not_elem_of_nil|right; cbn; lia|]. intros j k2 Hf2 Ha2 _ Hr2.
  set (m := Fs.min (n - tot) (BSIZE - off mod BSIZE)). assert (Hm : 0 < m /\ m <= n - tot /\ m <= 1024 - off mod 1024 /\ (m = n - tot \/ m = 1024 - off mod 1024)).
  { unfold m, Fs.min. destruct (Z.ltb_spec (n - tot) (BSIZE - off mod BSIZE)); lia. }
  eapply bdata_x; [exact Hf2|apply list_elem_of_here|done|]. eapply runs_at; [done|]. cbn [Z.eqb].
  eapply (brelse_x start i B [] P c k2 j a); [done|done|done|]. intros k3 Hf3 _ Hr3.
  assert (Hr13 : fsframe k1 k3) by (by eapply fsframe_trans). assert (Hfr3 : iframe k k3) by (eapply iframe_trans; [exact E4|by apply fsframe_i]).
  rewrite (u32_small (off + m)), (u32_small (tot + m)) by lia.
  eapply runs_mono; [eapply (IH (off + m) (tot + m) _ k3); [done|done|by rewrite (iframe_sb _ _ Hfr3)| |done|done|lia|lia|lia|lia| | |lia|done]|].
  - unfold ino_at. by rewrite (fsframe_inodes _ _ Hr13), Ei.
  - by replace (off + m + (n - (tot + m))) with (off + (n - tot)) by lia.
  - intros Hlt'. replace (off + m) with ((off / 1024 + 1) * 1024) by lia. rewrite Z.mod_mul by lia. lia.
  - intros r c' k4 (->&->&Hf4&Hi4&Hfr4). split; [done|]. split; [|split; [done|split; [by rewrite Hi4, (fsframe_inodes _ _ Hr13), Ei|by eapply iframe_trans]]].
    f_equal. rewrite <- app_assoc. f_equal. replace (Z.to_nat (n - tot)) with (Z.to_nat m + Z.to_nat (n - (tot + m)))%nat by lia.
    rewrite frange_app. f_equal; [|f_equal; lia]. rewrite frange_block by (try done; lia). by rewrite <- Eaddr.
Qed.

Lemma readi_fs B ino P off n c k :
  fsx start i B [] P k -> user i c -> sb k = s -> ino_at k ino -> fileok s B ino -> bitmap_ok s B ->
  0 <= off <= i_size ino -> i_size ino <= 274432 -> 0 <= n < 2 ^ 31 -> filled B ino (i_size ino) -> (length P + 7 < 30)%nat ->
  let m := Z.min n (i_size ino - off) in
  runs (readi ip ToLocal off n) c k (fun r c' k' => c' = c /\ r = (m, frange B ino off (Z.to_nat m)) /\
    fsx start i B [] P k' /\ inodes k' = inodes k /\ iframe k k').
Proof.
  intros Hf Hu Hs Hi Hfile Hbm Hoff Hsz Hn Hfill Hlog m. unfold readi. eapply runs_at; [by apply getinode_done|].
  rewrite u32_small by lia. rewrite !Z.gtb_ltb. destruct (Z.ltb_spec (i_size ino) off), (Z.ltb_spec (off + n) off); try lia. cbn [orb].
  assert (Em : (if i_size ino <? off + n then i_size ino - off else n) = m) by (unfold m; destruct (Z.ltb_spec (i_size ino) (off + n)); lia). rewrite Em.
  pose proof (Z.mod_pos_bound off 1024 ltac:(lia)). pose proof (Z.mul_succ_div_gt m 1024 ltac:(lia)). assert (0 <= m / 1024) by (apply Z.div_pos; lia).
  eapply runs_step; [eapply (readi_loop_fs _ B ino P off 0 m []); try done; [lia..|intros p Hp; apply Hfill; lia|lia|lia]|].
  intros r c' k' (->&->&?&?&?). cbv beta iota. apply runs_ret. split; [done|]. rewrite i32_small by lia. rewrite Z.sub_0_r. done.
Qed.

Lemma iupdate_fs B ino P c k :
  fsx start i B [] P k -> user i c -> sb k = s -> ino_at k ino -> i_dev ino = 1 -> length (i_addrs ino) = 13%nat -> bno_ok (IBLOCK (i_inum ino) s) -> (length P < 30)%nat ->
  runs (iupdate ip) c k (fun _ c' k' => c' = c /\
    fsx start i (bset B (IBLOCK (i_inum ino) s) (put_dinode (i_inum ino) (to_dinode ino) (B (IBLOCK (i_inum ino) s)))) [] (logged (IBLOCK (i_inum ino) s) P) k' /\ fsframe k k').
Proof.
  intros Hf Hu Hs Hi Hd Hl Hb Hlog. unfold iupdate. eapply runs_at; [by apply getinode_done|]. eapply runs_at; [done|]. rewrite Hd, Hs.
  eapply (bread_x start i B [] P c k); [done|done|apply not_elem_of_nil|right; cbn; lia|]. intros j k1 Hf1 Ha1 _ Hr1.
  eapply (update_x start i B _ P c k1 j); [done|done|apply list_elem_of_here|done|apply put_dinode_ok; [done|apply Hf]|lia|done|]. intros k2 Hf2 Hk2 Hr2.
  eapply runs_mono; [eapply (brelse_fs i _ [] _ [] c k2 j); [apply Hf2|done|by apply Hk2; [apply list_elem_of_here|]|apply not_elem_of_nil]|].
  intros [] c' k3 (->&Hf3&_&Hc3). split; [done|]. split; [split; [done|]; eapply logok_log; [by apply cframe_log|apply Hf2]|].
  eapply fsframe_trans; [done|]. eapply fsframe_trans; [done|by apply cframe_fs].
Qed.

(** A block that is not the file's, such as that of its inode on disk. *)
Definition foreign (B : Z -> list Z) (ino : inode) (x : Z) : Prop := datab s B x /\ ~ owns B ino x.

Lemma foreign_wrote B ino off ds B' ino' x : fwrote s B ino off ds B' ino' -> foreign B ino x -> foreign B' ino' x.
Proof.
  intros W [Hd Hn]. split; [apply (datab_mono s B); [apply (fw_used _ _ _ _ _ _ _ W)|done]|].
  intros [H|[_ H]]%(fw_own _ _ _ _ _ _ _ W); [done|]. destruct Hd as (_&?&_). congruence.
Qed.

Lemma used_foreign B ino x d y : foreign B ino x -> 0 <= y < sb_size s -> used s (bset B x d) y = used s B y.
Proof. intros [(_&_&Hx) _] Hy. unfold used. rewrite bset_ne; [done|]. intros E. by eapply Hx. Qed.

Lemma faddr_foreign B ino x d n : foreign B ino x -> faddr (bset B x d) ino n = faddr B ino n.
Proof.
  intros [_ Hx]. unfold faddr. destruct (n <? 12); [done|]. destruct (Z.eqb_spec (iaddr ino) 0); [done|]. rewrite bset_ne; [done|]. intros E. apply Hx. by left.
Qed.

Lemma fbyte_foreign B ino x d p : foreign B ino x -> 0 <= p < 274432 -> fbyte (bset B x d) ino p = fbyte B ino p.
Proof.
  intros Hx Hp. unfold fbyte, fcont. rewrite faddr_foreign by done. destruct (Z.eqb_spec (faddr B ino (p / 1024)) 0); [done|]. rewrite bset_ne; [done|].
  intros E. apply Hx. right. eexists. split; [by apply inrange_div|by symmetry].
Qed.

Lemma fileok_foreign B ino x d : fileok s B ino -> foreign B ino x -> fileok s (bset B x d) ino.
Proof.
  intros Hf Hx. assert (Ef : forall n, faddr (bset B x d) ino n = faddr B ino n) by (intros; by apply faddr_foreign).
  assert (Hd : forall y, datab s B y -> datab s (bset B x d) y) by (intros y; apply datab_mono; intros z Hz; by rewrite (used_foreign B ino)).
  split; try apply Hf.
  - intros n Hn. rewrite Ef. intros H. by apply Hd, (fi_data _ _ _ Hf).
  - intros H. by apply Hd, (fi_ind _ _ _ Hf).
  - intros n m Hn Hm. rewrite !Ef. by apply (fi_inj _ _ _ Hf).
  - intros n Hn H. rewrite Ef. by apply (fi_ni _ _ _ Hf).
Qed.

Lemma bitmap_foreign B ino x d : bitmap_ok s B -> foreign B ino x -> bitmap_ok s (bset B x d).
Proof.
  intros Hb Hx. pose proof Hb as [? ? Hself Hb0]. split; [done|done| |].
  - intros b Hbr. destruct (Hself b Hbr). split; [done|]. by rewrite (used_foreign B ino).
  - by rewrite (used_foreign B ino) by (try done; lia).
Qed.

Lemma fileok_size B ino n : fileok s B ino -> fileok s B (ino <| i_size := n |>).
Proof. intros []. by split. Qed.
Lemma foreign_size B ino n x : foreign B ino x -> foreign B (ino <| i_size := n |>) x.
Proof. done. Qed.

(** The size after writing up to [e]. *)
Definition grown (ino : inode) (e : Z) : inode := if e >? i_size ino then ino <| i_size := e |> else ino.

Lemma writei_fs B ino P src off n ds nb c k :
  fsx start i B [] P k -> user i c -> sb k = s -> ino_at k ino -> fileok s B ino -> bitmap_ok s B ->
  provides src ds c k -> Forall byte_ok ds -> Z.of_nat (length ds) = n -> foreign B ino (IBLOCK (i_inum ino) s) ->
  0 <= off <= i_size ino -> off + n <= 274432 -> off mod 1024 + n <= 1024 * nb -> 0 <= nb <= n / 1024 + 2 -> Z.of_nat (length P) + 6 * nb + 2 < 30 ->
  runs (writei ip src off n) c k (fun r c' k' => c' = c /\ exists m B' ino' P', 0 <= m <= n /\ r = m /\
    let ino2 := grown ino' (off + m) in
    fwrote s B ino off (take (Z.to_nat m) ds) B' ino' /\
    fsx start i (bset B' (IBLOCK (i_inum ino) s) (put_dinode (i_inum ino) (to_dinode ino2) (B' (IBLOCK (i_inum ino) s)))) [] P' k' /\
    inodes k' = <[ip := ino2]> (inodes k) /\ iframe k k' /\ Z.of_nat (length P') <= Z.of_nat (length P) + 6 * nb + 1 /\
    (m < n -> forall b, 0 <= b < sb_size s -> used s B' b = true)).
Proof.
  intros Hf Hu Hs Hi Hfile Hbm Hsrc Hds Hlds Hib Hoff Hmax Hnb Hnb0 Hlog. unfold writei. eapply runs_at; [by apply getinode_done|].
  rewrite u32_small by lia. rewrite !Z.gtb_ltb. destruct (Z.ltb_spec (i_size ino) off), (Z.ltb_spec (off + n) off); try lia. cbn [orb].
  destruct (Z.ltb_spec (MAXFILE * BSIZE) (off + n)); [lia|].
  eapply runs_step; [eapply (writei_loop_fs _ B ino P src off 0 n ds nb); try done; lia|].
  intros r c' k1 (->&m&B1&ino1&P1&Hm&->&[T1 T2 T3 T4 T5]&Hfull). cbv beta iota. rewrite !Z.add_0_l, Z.sub_0_r in *.
  assert (Hi1 : inodes k1 !! ip = Some ino1) by (rewrite T3; apply list_lookup_insert_eq; by eapply lookup_lt_Some).
  eapply runs_at; [by apply getinode_done|]. destruct (fw_same _ _ _ _ _ _ _ T2) as [l El]. pose proof (fw_file _ _ _ _ _ _ _ T2) as Hf1.
  set (ino2 := grown ino1 (off + m)).
  assert (Hset : exists k2, (if off + m >? i_size ino1 then modinode ip (fun i => i <| i_size := off + m |>) else ret tt) c k1 = Done tt c k2 /\
    inodes k2 = <[ip := ino2]> (inodes k) /\ iframe k1 k2 /\ fsx start i B1 [] P1 k2 /\ log k2 = log k1).
  { unfold ino2, grown. destruct (off + m >? i_size ino1).
    - eexists. split; [done|]. split; [cbn; by rewrite (linsert_alter _ _ _ ino1), T3, list_insert_insert_eq|]. split; [done|]. split; [by apply fsx_inode|done].
    - exists k1. done. }
  destruct Hset as (k2&E2&Hi2&Hfr2&Hf2&_). eapply runs_at; [exact E2|].
  assert (Ei : i_inum ino2 = i_inum ino /\ i_dev ino2 = 1 /\ length (i_addrs ino2) = 13%nat).
  { unfold ino2, grown. pose proof (fi_len _ _ _ Hf1). pose proof (fi_dev _ _ _ Hfile). subst ino1. destruct (_ >? _); done. }
  destruct Ei as (Ei1&Ei2&Ei3). pose proof (foreign_wrote _ _ _ _ _ _ _ T2 Hib) as Hib1. destruct Hib1 as [(Hr&_) _].
  assert (Hsk : sb k2 = s) by (rewrite (iframe_sb _ _ Hfr2), (iframe_sb _ _ T4); done).
  eapply runs_step; [eapply (iupdate_fs B1 ino2 P1 c k2); [done|done|done| |done|done| |lia]|].
  { unfold ino_at. rewrite Hi2. apply list_lookup_insert_eq. by eapply lookup_lt_Some. }
  { rewrite Ei1. pose proof (bm_size _ _ Hbm). unfold bno_ok. lia. }
  rewrite Ei1. intros [] c' k3 (->&Hf3&Hr3). apply runs_ret. split; [done|]. exists m, B1, ino1. eexists. split; [lia|]. split; [apply i32_small; lia|].
  split; [done|]. split; [exact Hf3|]. split; [by rewrite (fsframe_inodes _ _ Hr3)|].
  split; [eapply iframe_trans; [exact T4|]; eapply iframe_trans; [exact Hfr2|by apply fsframe_i]|]. split; [|done].
  pose proof (length_logged (IBLOCK (i_inum ino) s) P1). lia.
Qed.

(** Everything about the file after [writei], the update of its inode on disk included. *)
Lemma writei_after B ino off ds m B1 ino1 d :
  fwrote s B ino off (take (Z.to_nat m) ds) B1 ino1 -> 0 <= off -> 0 <= m <= Z.of_nat (length ds) -> foreign B ino (IBLOCK (i_inum ino) s) ->
  let ino2 := grown ino1 (off + m) in
  let B2 := bset B1 (IBLOCK (i_inum ino) s) d in
  fileok s B2 ino2 /\ bitmap_ok s B2 /\ i_size ino2 = Z.max (i_size ino) (off + m) /\
  (forall p, 0 <= p < 274432 -> fbyte B2 ino2 p = if decide (off <= p < off + m) then nthd 0 ds (p - off) else fbyte B ino p) /\
  (filled B ino (i_size ino) -> off <= i_size ino -> off + m <= 274432 -> i_size ino <= 274432 -> filled B2 ino2 (i_size ino2)) /\
  (forall x, datab s B x -> ~ owns B ino x -> x <> IBLOCK (i_inum ino) s -> B2 x = B x).
Proof.
  intros W Hoff Hm Hib ino2 B2. pose proof (foreign_wrote _ _ _ _ _ _ _ W Hib) as Hib1. destruct (fw_same _ _ _ _ _ _ _ W) as [l El].
  assert (Hlm : Z.of_nat (length (take (Z.to_nat m) ds)) = m) by (rewrite length_take; lia).
  assert (Esz : i_size ino1 = i_size ino) by (by subst). assert (Ea : i_addrs ino2 = i_addrs ino1) by (unfold ino2, grown; by destruct (_ >? _)).
  assert (Ef : forall n, faddr B2 ino2 n = faddr B1 ino1 n).
  { intros n. rewrite <- (faddr_foreign B1 ino1 (IBLOCK (i_inum ino) s) d n Hib1). unfold faddr, iaddr. by rewrite Ea. }
  split; [|split; [|split; [|split; [|split]]]].
  - unfold ino2, grown. pose proof (fileok_foreign _ _ _ d (fw_file _ _ _ _ _ _ _ W) Hib1). destruct (_ >? _); [by apply fileok_size|done].
  - eapply bitmap_foreign; [apply (fw_bitmap _ _ _ _ _ _ _ W)|exact Hib1].
  - unfold ino2, grown. rewrite Z.gtb_ltb. destruct (Z.ltb_spec (i_size ino1) (off + m)); cbn; lia.
  - intros p Hp. transitivity (fbyte B2 ino1 p); [unfold fbyte, fcont, faddr, iaddr; by rewrite Ea|]. unfold B2. rewrite fbyte_foreign by done.
    rewrite (fw_byte _ _ _ _ _ _ _ W), Hlm by done. case_decide; [|done]. apply nthd_take. lia.
  - intros Hfill Hos Hmx Hsz p Hp. rewrite Ef. destruct (decide (off <= p < off + m)) as [Hin|Hout].
    + apply (fw_there _ _ _ _ _ _ _ W); rewrite ?Hlm; lia.
    + assert (Hps : p < i_size ino). { unfold ino2, grown in Hp. rewrite Z.gtb_ltb in Hp. destruct (Z.ltb_spec (i_size ino1) (off + m)); cbn in Hp; lia. }
      rewrite (fw_addr _ _ _ _ _ _ _ W); [apply Hfill; lia|apply inrange_div; lia|apply Hfill; lia].
  - intros x Hx Hno Hne. unfold B2. rewrite bset_ne by done. by apply (fw_other _ _ _ _ _ _ _ W).
Qed.

(** C18. [writei] in a transaction writes [r] bytes at [off], [r] less than asked only when the disk
    is full: those bytes of the file are the source's, every other byte of the file and every block
    of other files is as before, the size covers the bytes, and the inode block on disk holds the
    inode. *)
Theorem writei_writes B ino P src off n ds nb c k :
  fsx start i B [] P k -> user i c -> sb k = s -> ino_at k ino -> fileok s B ino -> bitmap_ok s B ->
  provides src ds c k -> Forall byte_ok ds -> Z.of_nat (length ds) = n -> foreign B ino (IBLOCK (i_inum ino) s) ->
  0 <= off <= i_size ino -> off + n <= 274432 -> off mod 1024 + n <= 1024 * nb -> 0 <= nb <= n / 1024 + 2 -> Z.of_nat (length P) + 6 * nb + 2 < 30 ->
  runs (writei ip src off n) c k (fun r c' k' => c' = c /\ exists B' ino' P', 0 <= r <= n /\ fsx start i B' [] P' k' /\
    inodes k' = <[ip := ino']> (inodes k) /\ iframe k k' /\ fileok s B' ino' /\ bitmap_ok s B' /\ i_size ino' = Z.max (i_size ino) (off + r) /\
    (forall p, 0 <= p < 274432 -> fbyte B' ino' p = if decide (off <= p < off + r) then nthd 0 ds (p - off) else fbyte B ino p) /\
    (forall x, datab s B x -> ~ owns B ino x -> x <> IBLOCK (i_inum ino) s -> B' x = B x) /\
    (dinode_fits (to_dinode ino') -> get_dinode (B' (IBLOCK (i_inum ino) s)) (i_inum ino) = to_dinode ino') /\
    (r < n -> forall b, 0 <= b < sb_size s -> used s B' b = true)).
Proof.
  intros Hf Hu Hs Hi Hfile Hbm Hsrc Hds Hlds Hib Hoff Hmax Hnb Hnb0 Hlog.
  eapply runs_mono; [by eapply (writei_fs B ino P src off n ds nb c k)|]. intros r c' k' (->&m&B1&ino1&P1&Hm&->&W&Hf1&Hi1&Hfr&_&Hfull). split; [done|].
  destruct (writei_after B ino off ds m B1 ino1 (put_dinode (i_inum ino) (to_dinode (grown ino1 (off + m))) (B1 (IBLOCK (i_inum ino) s))) W) as (A1&A2&A3&A4&_&A6); [lia|lia|done|].
  eexists _, _, _. split; [done|]. split; [exact Hf1|]. split; [exact Hi1|]. split; [done|]. split; [done|]. split; [done|]. split; [done|]. split; [done|]. split; [done|]. split.
  - intros Hfit. rewrite bset_eq. apply get_put_dinode; [done|]. apply (fw_blocks _ _ _ _ _ _ _ W).
  - intros Hlt b Hb. rewrite (used_foreign B1 ino1) by (try done; by eapply foreign_wrote). by apply Hfull.
Qed.

(** C10. Reading back what was written: [writei] of the bytes [ds] at [off] that returns [r],
    followed by [readi] of [r] bytes at [off], gives the first [r] bytes of [ds]. *)
Theorem writei_readi B ino P src off n ds nb c k :
  fsx start i B [] P k -> user i c -> sb k = s -> ino_at k ino -> fileok s B ino -> bitmap_ok s B ->
  provides src ds c k -> Forall byte_ok ds -> Z.of_nat (length ds) = n -> foreign B ino (IBLOCK (i_inum ino) s) ->
  0 <= off <= i_size ino -> i_size ino <= 274432 -> filled B ino (i_size ino) -> off + n <= 274432 ->
  off mod 1024 + n <= 1024 * nb -> 0 <= nb <= n / 1024 + 2 -> Z.of_nat (length P) + 6 * nb + 8 < 30 ->
  runs (r <- writei ip src off n ;; '(t, got) <- readi ip ToLocal off r ;; ret (r, t, got)) c k (fun res c' _ =>
    c' = c /\ exists r, 0 <= r <= n /\ res = (r, r, take (Z.to_nat r) ds)).
Proof.
  intros Hf Hu Hs Hi Hfile Hbm Hsrc Hds Hlds Hib Hoff Hsz Hfill Hmax Hnb Hnb0 Hlog.
  eapply runs_step; [eapply (writei_fs B ino P src off n ds nb c k); try done; lia|]. intros r c' k1 (->&m&B1&ino1&P1&Hm&->&W&Hf1&Hi1&Hfr&HP1&Hfull).
  destruct (writei_after B ino off ds m B1 ino1 (put_dinode (i_inum ino) (to_dinode (grown ino1 (off + m))) (B1 (IBLOCK (i_inum ino) s))) W) as (A1&A2&A3&A4&A5&_); [lia|lia|done|].
  set (ino2 := grown ino1 (off + m)) in *. set (B2 := bset B1 _ _) in *.
  eapply runs_step; [eapply (readi_fs B2 ino2 P1 off m c k1); [done|done|by rewrite (iframe_sb _ _ Hfr)| |done|done|lia|lia|lia|apply A5; [done|lia..]|lia]|].
  { unfold ino_at. rewrite Hi1. apply list_lookup_insert_eq. by eapply lookup_lt_Some. }
  intros r c' k2 (->&->&_). cbv beta iota. apply runs_ret. split; [done|]. exists m. split; [done|]. rewrite Z.min_l by lia. f_equal.
  apply list_eq. intros x. unfold frange. rewrite list_lookup_fmap. destruct (decide (x < Z.to_nat m)%nat) as [Hx|Hx].
  - rewrite lookup_seq_lt, lookup_take_lt by lia. cbn [fmap option_fmap option_map]. rewrite A4, decide_True by lia. unfold nthd. destruct (Z.ltb_spec (off + Z.of_nat (0 + x) - off) 0); [lia|].
    replace (Z.to_nat (off + Z.of_nat (0 + x) - off)) with x by lia. destruct (lookup_lt_is_Some_2 ds x) as [y ->]; [lia|done].
  - rewrite lookup_seq_ge, lookup_take_ge by lia. done.
Qed.
End File.

(** ** An example: an empty file on the disk of [Disk] *)

Module NewFile.

#[local] Instance fuel : Fuel := 100%nat.
#[local] Existing Instance sync_device.
#[local] Existing Instance small_linker.

Definition ino : inode := inode_0 <| i_dev := 1 |> <| i_inum := 1 |> <| i_ref := 1 |> <| i_valid := true |> <| i_type := 2 |> <| i_nlink := 1 |>.
Definition k : kernel := Disk.k <| inodes ::= <[0%nat := ino]> |>.
Definition hello : list Z := str "hello".

Lemma hello_ok : Forall byte_ok hello.
Proof. change hello with [104; 101; 108; 108; 111]. repeat (apply Forall_cons; split; [unfold byte_ok; lia|]). by apply Forall_nil. Qed.

Lemma no_addr n : faddr Disk.B ino n = 0.
Proof.
  unfold faddr. destruct (Z.ltb_spec n 12); [|done]. unfold nthd. destruct (n <? 0); [done|]. assert (i_addrs ino = replicate 13 0) as -> by done.
  destruct (replicate 13 0 !! Z.to_nat n) as [x|] eqn:E; [|done]. by apply lookup_replicate in E as [-> _].
Qed.

Lemma file_ok : fileok (sb k) Disk.B ino.
Proof. split; try done; intros n; rewrite no_addr; done. Qed.

Lemma inode_block : foreign (sb k) Disk.B ino (IBLOCK (i_inum ino) (sb k)).
Proof.
  split; [split; [split; by vm_compute|]; split; [by vm_compute|]|].
  - intros b Hb. cbn in Hb. unfold BBLOCK. rewrite Z.div_small by lia. done.
  - intros [E|(n&_&E)]; [done|]. rewrite no_addr in E. done.
Qed.

Lemma newfile_k_ok : fsx 2 0 Disk.B [] [] k.
Proof. apply (fsx_inode 2 0), Disk.disk_k_ok. Qed.

Lemma writei_writes_witness :
  runs (writei 0 (FromLocal hello) 0 5) Disk.c k (fun r c' k' => c' = Disk.c /\ exists B' ino' P', 0 <= r <= 5 /\ fsx 2 0 B' [] P' k' /\
    inodes k' = <[0%nat := ino']> (inodes k) /\ iframe k k' /\ fileok (sb k) B' ino' /\ bitmap_ok (sb k) B' /\ i_size ino' = Z.max (i_size ino) (0 + r) /\
    (forall p, 0 <= p < 274432 -> fbyte B' ino' p = if decide (0 <= p < 0 + r) then nthd 0 hello (p - 0) else fbyte Disk.B ino p) /\
    (forall x, datab (sb k) Disk.B x -> ~ owns Disk.B ino x -> x <> IBLOCK (i_inum ino) (sb k) -> B' x = Disk.B x) /\
    (dinode_fits (to_dinode ino') -> get_dinode (B' (IBLOCK (i_inum ino) (sb k))) (i_inum ino) = to_dinode ino') /\
    (r < 5 -> forall b, 0 <= b < sb_size (sb k) -> used (sb k) B' b = true)).
Proof.
  apply (writei_writes 2 0 (sb k) 0 Disk.B ino [] (FromLocal hello) 0 5 hello 1 Disk.c k);
    [apply newfile_k_ok|done|done|done|apply file_ok|apply Disk.k_bitmap|apply provides_local| |done|apply inode_block|by split|lia|by vm_compute|by split|by vm_compute].
  apply hello_ok.
Defined.

Lemma writei_readi_witness :
  runs (r <- writei 0 (FromLocal hello) 0 5 ;; '(t, got) <- readi 0 ToLocal 0 r ;; ret (r, t, got)) Disk.c k (fun res c' _ =>
    c' = Disk.c /\ exists r, 0 <= r <= 5 /\ res = (r, r, take (Z.to_nat r) hello)).
Proof.
  apply (writei_readi 2 0 (sb k) 0 Disk.B ino [] (FromLocal hello) 0 5 hello 1 Disk.c k);
    [apply newfile_k_ok|done|done|done|apply file_ok|apply Disk.k_bitmap|apply provides_local| |done|apply inode_block|by split|by vm_compute| |lia|by vm_compute|by split|by vm_compute].
  - apply hello_ok.
  - intros p Hp. cbn in Hp. lia.
Defined.

End NewFile.
