(* ===== verification/FsDir.v ===== *)
(** * Directories

    [dirlookup] and [dirlink] against a directory as a list of entries. *)

From S2P Require Import Prelude Riscv CString Fields Kernel Printf Sched Args Sleeplock Bio Bcache Log FsView Wal Crash Fs FsBlocks FsFile.
From stdpp Require Import base numbers strings gmap list.
From Stdlib Require Import ZArith Lia.

#[local] Open Scope Z_scope.
#[local] Open Scope kernel_scope.

(** ** Entries *)

(** A name as [strncmp] with DIRSIZ compares it: up to 14 bytes, ended by a 0. *)
Definition dname (l : list Z) : list Z := cstr 14 (nthd 0 l).

(** Entry [j] of the directory: 16 bytes of its contents. *)
Definition dent (B : Z -> list Z) (ino : inode) (j : nat) : list Z := frange B ino (16 * Z.of_nat j) 16.

(** The entry names [name]. *)
Definition dmatch (name de : list Z) : bool := negb (de_inum de =? 0) && bool_decide (dname name = dname (de_name de)).

(** The first entry from [j] on, of [n], with a property. *)
Fixpoint dfind (B : Z -> list Z) (ino : inode) (f : list Z -> bool) (j n : nat) : option nat :=
  match n with
  | O => None
  | S n => if f (dent B ino j) then Some j else dfind B ino f (S j) n
  end.

Lemma dfind_Some B ino f j n x : dfind B ino f j n = Some x -> (j <= x < j + n)%nat /\ f (dent B ino x) = true /\ forall y, (j <= y < x)%nat -> f (dent B ino y) = false.
Proof.
  revert j. induction n as [|n IH]; intros j; cbn [dfind]; [done|]. destruct (f (dent B ino j)) eqn:E.
  - intros [= ->]. split; [lia|]. split; [done|]. intros; lia.
  - intros (?&?&Hb)%IH. split; [lia|]. split; [done|]. intros y Hy. destruct (decide (y = j)) as [->|]; [done|]. apply Hb. lia.
Qed.

Lemma dfind_None B ino f j n : dfind B ino f j n = None -> forall y, (j <= y < j + n)%nat -> f (dent B ino y) = false.
Proof.
  revert j. induction n as [|n IH]; intros j; cbn [dfind]; [intros; lia|]. destruct (f (dent B ino j)) eqn:E; [done|].
  intros H y Hy. destruct (decide (y = j)) as [->|]; [done|]. apply (IH (S j) H). lia.
Qed.

Lemma dfind_intro B ino f j n x : (j <= x < j + n)%nat -> f (dent B ino x) = true -> (forall y, (j <= y < x)%nat -> f (dent B ino y) = false) -> dfind B ino f j n = Some x.
Proof.
  revert j. induction n as [|n IH]; intros j Hx Hf Hb; [lia|]. cbn [dfind]. destruct (decide (x = j)) as [->|]; [by rewrite Hf|].
  rewrite Hb by lia. apply IH; [lia|done|]. intros y Hy. apply Hb. lia.
Qed.

Lemma bytes_at l : Forall byte_ok l -> bytes_ok (nthd 0 l).
Proof. intros Hl i. by apply byte_at. Qed.

Lemma namecmp_spec s t : Forall byte_ok s -> Forall byte_ok t -> (namecmp s t =? 0) = bool_decide (dname s = dname t).
Proof.
  intros Hs Ht. pose proof (strncmp_0 (nthd 0 s) (nthd 0 t) 14 (bytes_at s Hs) (bytes_at t Ht) ltac:(lia)) as E. unfold namecmp, dname.
  destruct (Z.eqb_spec (strncmp (nthd 0 s) (nthd 0 t) DIRSIZ) 0) as [E1|E1]; [rewrite bool_decide_true; [done|by apply E]|].
  rewrite bool_decide_false; [done|]. intros E2. by apply E1, E.
Qed.

Lemma fbyte_ok B ino p : (forall x, block_ok (B x)) -> byte_ok (fbyte B ino p).
Proof. intros H. unfold fbyte. apply byte_at. unfold fcont. destruct (_ =? 0); [apply zeros_ok|apply H]. Qed.

Lemma frange_ok B ino off n : (forall x, block_ok (B x)) -> Forall byte_ok (frange B ino off n).
Proof. intros H. unfold frange. apply Forall_fmap, Forall_forall. intros x _. by apply fbyte_ok. Qed.

(** A directory: a file of whole entries. *)
Record dirok (s : superblock) (B : Z -> list Z) (ino : inode) : Prop := {
  dr_file : fileok s B ino;
  dr_type : i_type ino = 1;
  dr_size : 0 <= i_size ino <= 274432;
  dr_whole : i_size ino mod 16 = 0;
  dr_fill : filled B ino (i_size ino)
}.

Definition nent (ino : inode) : nat := Z.to_nat (i_size ino / 16).

Lemma dirok_nent s B ino : dirok s B ino -> i_size ino = 16 * Z.of_nat (nent ino).
Proof.
  intros [_ _ Hs Hw _]. unfold nent. rewrite Z2Nat.id by (apply Z.div_pos; lia). pose proof (Z.div_mod (i_size ino) 16 ltac:(lia)). lia.
Qed.

(** ** [iget] *)

Definition is_inode (dev inum : Z) (i : inode) : bool := (i_ref i >? 0) && (i_dev i =? dev) && (i_inum i =? inum).
Definition is_unused (i : inode) : bool := i_ref i =? 0.

(** The index of the first element with a property, from [j] on. *)
Fixpoint ifind (f : inode -> bool) (j : nat) (l : list inode) : option nat :=
  match l with [] => None | i :: l => if f i then Some j else ifind f (S j) l end.

Lemma ifind_Some f j l x : ifind f j l = Some x -> exists i, (j <= x)%nat /\ l !! (x - j)%nat = Some i /\ f i = true.
Proof.
  revert j. induction l as [|i l IH]; intros j; cbn [ifind]; [done|]. destruct (f i) eqn:E.
  - intros [= ->]. exists i. rewrite Nat.sub_diag. done.
  - intros (i'&?&Hl&?)%IH. exists i'. split; [lia|]. replace (x - j)%nat with (S (x - S j)) by lia. done.
Qed.

Lemma ifind_None f j l : ifind f j l = None -> forall i, i ∈ l -> f i = false.
Proof.
  revert j. induction l as [|i l IH]; intros j; cbn [ifind]; [by intros _ i ?%elem_of_nil|]. destruct (f i) eqn:E; [done|].
  intros H i' [->|Hi']%elem_of_cons; [done|]. by eapply IH.
Qed.

Lemma inodes_alter_ext f g k x : (forall i, inodes k !! x = Some i -> f i = g i) -> k <| inodes ::= alter f x |> = k <| inodes ::= alter g x |>.
Proof. intros E. kred. f_equal. by apply list_alter_ext. Qed.

Lemma iget_loop_ok dev inum n ip e c k :
  iget_loop n ip dev inum e c k = Done (match ifind (is_inode dev inum) ip (take n (drop ip (inodes k))) with
    | Some x => inl x
    | None => inr (match e with Some x => Some x | None => ifind is_unused ip (take n (drop ip (inodes k))) end)
    end) c k \/ (length (inodes k) < ip + n)%nat.
Proof.
  revert ip e. induction n as [|n IH]; intros ip e; cbn [iget_loop]; [left; by destruct e|].
  destruct (inodes k !! ip) as [i|] eqn:E; [|right; apply lookup_ge_None in E; lia].
  erewrite bind_done by (by apply getinode_done). rewrite (drop_S _ i) by done. cbn [take ifind]. fold (is_inode dev inum i).
  destruct (is_inode dev inum i); [by left|]. destruct (IH (S ip) (if bool_decide (e = None) && (i_ref i =? 0) then Some ip else e)) as [->|]; [left|right; lia].
  do 2 f_equal. destruct (ifind (is_inode dev inum) (S ip) _); [done|]. f_equal. unfold is_unused. destruct e as [x|]; cbn; [done|].
  by destruct (i_ref i =? 0).
Qed.

(** The entry [iget] returns: the inode's, with a reference more, or a fresh one. *)
Definition igot (dev inum : Z) (i : inode) : inode :=
  if is_inode dev inum i then i <| i_ref ::= fun n => i32 (n + 1) |>
  else i <| i_dev := dev |> <| i_inum := inum |> <| i_ref := 1 |> <| i_valid := false |>.

Lemma iget_fs dev inum c k :
  LItable ∉ held c -> length (inodes k) = 50%nat -> (exists j i, inodes k !! j = Some i /\ (is_inode dev inum i || is_unused i) = true) ->
  exists ip i, inodes k !! ip = Some i /\ (is_inode dev inum i = true \/ is_unused i = true) /\
    iget dev inum c k = Done ip c (k <| inodes ::= alter (igot dev inum) ip |>).
Proof.
  intros Hh Hn Hex. unfold iget.
  destruct (iget_loop_ok dev inum 50 0 None (c <| held := LItable :: held c |>) k) as [E|]; [|lia]. rewrite drop_0, take_ge in E by lia.
  destruct (ifind (is_inode dev inum) 0 (inodes k)) as [x|] eqn:E1.
  - apply ifind_Some in E1 as (i&_&Hx&Hi). rewrite Nat.sub_0_r in Hx. exists x, i. split; [done|]. split; [by left|].
    erewrite bind_done by (by apply acquire_ok). erewrite bind_done by exact E. cbv beta iota. erewrite bind_done by done.
    erewrite bind_done by (by apply release_ok). unfold ret. f_equal. apply inodes_alter_ext. intros i' Hi'. assert (i' = i) as -> by congruence. unfold igot. by rewrite Hi.
  - destruct (ifind is_unused 0 (inodes k)) as [x|] eqn:E2.
    + assert (Hnone : forall i, i ∈ inodes k -> is_inode dev inum i = false). { apply (ifind_None _ 0), E1. }
      apply ifind_Some in E2 as (i&_&Hx&Hi). rewrite Nat.sub_0_r in Hx. exists x, i. split; [done|]. split; [by right|].
      erewrite bind_done by (by apply acquire_ok). erewrite bind_done by exact E. cbv beta iota. do 4 (erewrite bind_done by done).
      erewrite bind_done by (by apply release_ok). unfold ret. f_equal.
      transitivity (k <| inodes ::= alter (fun i => i <| i_dev := dev |> <| i_inum := inum |> <| i_ref := 1 |> <| i_valid := false |>) x |>).
      * kred. f_equal. by rewrite !lalter_lalter.
      * apply inodes_alter_ext. intros i' Hi'. unfold igot. by rewrite Hnone by (by eapply list_elem_of_lookup_2).
    + exfalso. destruct Hex as (j&i&Hj&Hor). apply list_elem_of_lookup_2 in Hj. rewrite (ifind_None _ _ _ E1 i Hj), (ifind_None _ _ _ E2 i Hj) in Hor. done.
Qed.

Section Dir.
Context {LK : Linker} `{Fu : Fuel} `{Bd : BlockDevice}.
Context (start : Z) (i : nat) (s : superblock) (dp : nat).

(** One entry is read. *)
Lemma read_entry B ino P j c k :
  fsx start i B [] P k -> user i c -> sb k = s -> ino_at dp k ino -> dirok s B ino -> bitmap_ok s B -> (j < nent ino)%nat -> (length P + 7 < 30)%nat ->
  runs (readi dp ToLocal (16 * Z.of_nat j) 16) c k (fun r c' k' => c' = c /\ r = (16, dent B ino j) /\
    fsx start i B [] P k' /\ inodes k' = inodes k /\ iframe k k').
Proof.
  intros Hf Hu Hs Hi Hd Hbm Hj Hlog. pose proof (dirok_nent _ _ _ Hd) as Hn. pose proof (dr_size _ _ _ Hd).
  eapply runs_mono; [eapply (readi_fs start i s dp B ino P (16 * Z.of_nat j) 16 c k); try done; [apply Hd|lia|lia|apply Hd]|].
  intros r c' k' (->&->&?&?&?). split; [done|]. rewrite Z.min_l by lia. done.
Qed.

Lemma dirlookup_loop_fs fl B ino P name j c k :
  fsx start i B [] P k -> user i c -> sb k = s -> ino_at dp k ino -> dirok s B ino -> bitmap_ok s B -> Forall byte_ok name ->
  (j <= nent ino)%nat -> (nent ino - j < fl)%nat -> (length P + 7 < 30)%nat ->
  runs (dirlookup_loop fl dp name (16 * Z.of_nat j)) c k (fun r c' k' => c' = c /\
    r = ((fun x => (de_inum (dent B ino x), 16 * Z.of_nat x)) <$> dfind B ino (dmatch name) j (nent ino - j)) /\
    fsx start i B [] P k' /\ inodes k' = inodes k /\ iframe k k').
Proof.
  revert j k. induction fl as [|fl IH]; intros j k Hf Hu Hs Hi Hd Hbm Hname Hj Hfl Hlog; [lia|]. cbn [dirlookup_loop].
  pose proof (dirok_nent _ _ _ Hd) as Hn. eapply runs_at; [by apply getinode_done|]. destruct (Z.ltb_spec (16 * Z.of_nat j) (i_size ino)) as [Hlt|Hge].
  2: { apply runs_ret. replace (nent ino - j)%nat with 0%nat by lia. done. }
  replace (nent ino - j)%nat with (S (nent ino - S j)) by lia. cbn [dfind].
  eapply runs_step; [eapply (read_entry B ino P j); try done; lia|]. intros r c' k1 (->&->&Hf1&Hi1&Hr1). cbv beta iota. cbn [Z.eqb negb].
  assert (Hok : forall x, block_ok (B x)) by apply Hf. assert (Hde : Forall byte_ok (dent B ino j)) by (by apply frange_ok).
  assert (Hnext : runs (dirlookup_loop fl dp name (16 * Z.of_nat j + 16)) c k1 (fun r c' k' => c' = c /\
    r = ((fun x => (de_inum (dent B ino x), 16 * Z.of_nat x)) <$> dfind B ino (dmatch name) (S j) (nent ino - S j)) /\
    fsx start i B [] P k' /\ inodes k' = inodes k /\ iframe k k')).
  { replace (16 * Z.of_nat j + 16) with (16 * Z.of_nat (S j)) by lia.
    eapply runs_mono; [eapply (IH (S j) k1); try done; [by rewrite (iframe_sb _ _ Hr1)|unfold ino_at; by rewrite Hi1|lia|lia]|].
    intros r c' k2 (->&->&?&?&?). split; [done|]. split; [done|]. split; [done|]. split; [congruence|by eapply iframe_trans]. }
  unfold dmatch at 1. destruct (de_inum (dent B ino j) =? 0); cbn [negb andb]; [done|].
  rewrite namecmp_spec by (try done; by apply Forall_drop). destruct (bool_decide (dname name = dname (de_name (dent B ino j)))); [|done].
  by apply runs_ret.
Qed.

(** The offset for a new entry: the first empty entry, or the end. *)
Definition slot (B : Z -> list Z) (ino : inode) (j : nat) : nat :=
  default (nent ino) (dfind B ino (fun de => de_inum de =? 0) j (nent ino - j)).

Lemma dirlink_loop_fs fl B ino P j c k :
  fsx start i B [] P k -> user i c -> sb k = s -> ino_at dp k ino -> dirok s B ino -> bitmap_ok s B ->
  (j <= nent ino)%nat -> (nent ino - j < fl)%nat -> (length P + 7 < 30)%nat ->
  runs (dirlink_loop fl dp (16 * Z.of_nat j)) c k (fun r c' k' => c' = c /\ r = 16 * Z.of_nat (slot B ino j) /\
    fsx start i B [] P k' /\ inodes k' = inodes k /\ iframe k k').
Proof.
  revert j k. induction fl as [|fl IH]; intros j k Hf Hu Hs Hi Hd Hbm Hj Hfl Hlog; [lia|]. cbn [dirlink_loop].
  pose proof (dirok_nent _ _ _ Hd) as Hn. eapply runs_at; [by apply getinode_done|]. destruct (Z.ltb_spec (16 * Z.of_nat j) (i_size ino)) as [Hlt|Hge].
  2: { apply runs_ret. unfold slot. replace (nent ino - j)%nat with 0%nat by lia. cbn. by replace (nent ino) with j by lia. }
  unfold slot. replace (nent ino - j)%nat with (S (nent ino - S j)) by lia. cbn [dfind].
  eapply runs_step; [eapply (read_entry B ino P j); try done; lia|]. intros r c' k1 (->&->&Hf1&Hi1&Hr1). cbv beta iota. cbn [Z.eqb negb].
  destruct (de_inum (dent B ino j) =? 0); [by apply runs_ret|].
  replace (16 * Z.of_nat j + 16) with (16 * Z.of_nat (S j)) by lia.
  eapply runs_mono; [eapply (IH (S j) k1); try done; [by rewrite (iframe_sb _ _ Hr1)|unfold ino_at; by rewrite Hi1|lia|lia]|].
  intros r c' k2 (->&->&?&?&?). split; [done|]. split; [done|]. split; [done|]. split; [congruence|by eapply iframe_trans].
Qed.

(** [dirlookup] is a search of the directory's entries: it returns the first entry in use whose
    name is [name] (up to DIRSIZ bytes), with its offset and the in-memory inode of its number, and
    null when there is none; it changes no block. *)
Theorem dirlookup_finds B ino P name c k :
  fsx start i B [] P k -> user i c -> sb k = s -> ino_at dp k ino -> dirok s B ino -> bitmap_ok s B -> Forall byte_ok name ->
  length (inodes k) = 50%nat -> (exists j it, inodes k !! j = Some it /\ is_unused it = true) -> (length P + 7 < 30)%nat ->
  runs (dirlookup dp name) c k (fun r c' k' => c' = c /\ fsx start i B [] P k' /\ iframe k k' /\
    match dfind B ino (dmatch name) 0 (nent ino) with
    | None => r = None /\ inodes k' = inodes k
    | Some x => exists ip it, r = Some (ip, 16 * Z.of_nat x) /\ inodes k' = alter (igot 1 (de_inum (dent B ino x))) ip (inodes k) /\
        inodes k' !! ip = Some it /\ i_dev it = 1 /\ i_inum it = de_inum (dent B ino x)
    end).
Proof.
  intros Hf Hu Hs Hi Hd Hbm Hname H50 Hfree Hlog. unfold dirlookup. eapply runs_at; [by apply getinode_done|]. rewrite (dr_type _ _ _ Hd). cbn [Z.eqb negb].
  pose proof (dirok_nent _ _ _ Hd) as Hn. assert (Hq : i_size ino / 16 = Z.of_nat (nent ino)) by (rewrite Hn, Z.mul_comm; by apply Z.div_mul).
  eapply runs_step; [eapply (dirlookup_loop_fs _ B ino P name 0); try done; lia|]. intros r c' k1 (->&->&Hf1&Hi1&Hr1). rewrite Nat.sub_0_r.
  destruct (dfind B ino (dmatch name) 0 (nent ino)) as [x|]; cbn [fmap option_fmap option_map]; [|by apply runs_ret].
  rewrite (fi_dev _ _ _ (dr_file _ _ _ Hd)). set (inum := de_inum (dent B ino x)). destruct (iget_fs 1 inum c k1) as (ip&it&Hip&Hor&E).
  { by apply not_held, Hu. }
  { by rewrite Hi1. }
  { destruct Hfree as (j&it&Hj&Hit). exists j, it. rewrite Hi1, Hit, orb_true_r. done. }
  eapply runs_at; [exact E|]. apply runs_ret. split; [done|]. split; [by apply fsx_inode|]. split; [exact Hr1|].
  exists ip, (igot 1 inum it). split; [done|]. split; [cbn; by rewrite Hi1|]. split; [cbn; by rewrite list_lookup_alter_eq, Hip|].
  unfold igot. destruct (is_inode 1 inum it) eqn:E1; [|done]. unfold is_inode in E1. apply andb_true_iff in E1 as [[_ ?%Z.eqb_eq]%andb_true_iff ?%Z.eqb_eq]. done.
Qed.

(** *** A new entry *)

Lemma length_dirent name inum : length (dirent_bytes name inum) = 16%nat.
Proof.
  unfold dirent_bytes. rewrite length_app, length_le_bytes, strncpy_spec by (rewrite length_replicate; lia). rewrite !length_app, length_replicate, length_drop, length_replicate.
  pose proof (length_cstr_from (Z.to_nat 14) (nthd 0 name) 0) as H. unfold cstr. lia.
Qed.

Lemma cstr_bytes n t j : bytes_ok t -> Forall byte_ok (cstr_from n t j).
Proof. intros Ht. revert j. induction n as [|n IH]; intros j; cbn [cstr_from]; [by apply Forall_nil|]. destruct (_ =? 0); [by apply Forall_nil|]. apply Forall_cons. split; [apply Ht|apply IH]. Qed.

Lemma zeros_bytes n : Forall byte_ok (replicate n 0).
Proof. apply Forall_replicate. unfold byte_ok. lia. Qed.

Lemma dirent_ok name inum : Forall byte_ok name -> Forall byte_ok (dirent_bytes name inum).
Proof.
  intros Hn. unfold dirent_bytes. apply Forall_app_2; [apply le_bytes_ok|]. rewrite strncpy_spec by (rewrite length_replicate; lia).
  repeat apply Forall_app_2; [by apply cstr_bytes, bytes_at|apply zeros_bytes|]. apply Forall_drop, zeros_bytes.
Qed.

Lemma dirent_inum name inum : 0 <= inum < 2 ^ 16 -> de_inum (dirent_bytes name inum) = inum.
Proof. intros H. unfold de_inum, dirent_bytes. rewrite (lget_at 2 [] inum _ : lget 2 (le_bytes 2 inum ++ _) 0 = _). by apply Z.mod_small. Qed.

Lemma dirent_name name inum : dname (de_name (dirent_bytes name inum)) = dname name.
Proof.
  unfold dname, de_name, dirent_bytes. rewrite (drop_app_length' (le_bytes 2 inum)) by (by rewrite length_le_bytes).
  apply (cstr_strncpy (replicate 14 0) (nthd 0 name) 14). rewrite length_replicate. lia.
Qed.

(** The entries after [ds] has been stored as entry [x]. *)
Lemma dent_after B ino B' ino' x ds y :
  (forall p, 0 <= p < 274432 -> fbyte B' ino' p = if decide (16 * Z.of_nat x <= p < 16 * Z.of_nat x + 16) then nthd 0 ds (p - 16 * Z.of_nat x) else fbyte B ino p) ->
  length ds = 16%nat -> 16 * Z.of_nat y + 16 <= 274432 ->
  dent B' ino' y = if decide (y = x) then ds else dent B ino y.
Proof.
  intros Hb Hl Hy. unfold dent, frange. apply list_eq. intros n. rewrite list_lookup_fmap. destruct (decide (n < 16)%nat) as [Hn|Hn].
  - rewrite lookup_seq_lt by done. cbn [fmap option_fmap option_map]. rewrite Hb by lia. case_decide as Hin; case_decide as Hyx; try lia.
    + subst. unfold nthd. destruct (Z.ltb_spec (16 * Z.of_nat x + Z.of_nat (0 + n) - 16 * Z.of_nat x) 0); [lia|].
      replace (Z.to_nat (16 * Z.of_nat x + Z.of_nat (0 + n) - 16 * Z.of_nat x)) with n by lia. destruct (lookup_lt_is_Some_2 ds n) as [z ->]; [lia|done].
    + rewrite list_lookup_fmap, lookup_seq_lt by done. done.
  - rewrite lookup_seq_ge by lia. case_decide; [symmetry; apply lookup_ge_None; lia|]. by rewrite list_lookup_fmap, lookup_seq_ge by lia.
Qed.

(** The number a name stands for. *)
Definition dlookup (B : Z -> list Z) (ino : inode) (name : list Z) : option Z :=
  (fun x => de_inum (dent B ino x)) <$> dfind B ino (dmatch name) 0 (nent ino).

Lemma dlookup_dname B ino name name' : dname name = dname name' -> dlookup B ino name = dlookup B ino name'.
Proof. intros E. unfold dlookup, dmatch. by rewrite E. Qed.

Lemma slot_spec B ino x : slot B ino 0 = x ->
  (x < nent ino)%nat /\ de_inum (dent B ino x) = 0 \/ x = nent ino.
Proof.
  unfold slot. rewrite Nat.sub_0_r. destruct (dfind B ino (fun de => de_inum de =? 0) 0 (nent ino)) as [y|] eqn:E; cbn; [|auto]. intros ->.
  apply dfind_Some in E as (?&?%Z.eqb_eq&_). left. split; [lia|done].
Qed.

Lemma dfind_ext B ino B' ino' f j n : (forall y, (j <= y < j + n)%nat -> f (dent B' ino' y) = f (dent B ino y)) -> dfind B' ino' f j n = dfind B ino f j n.
Proof.
  revert j. induction n as [|n IH]; intros j H; [done|]. cbn [dfind]. rewrite H by lia. destruct (f (dent B ino j)); [done|]. apply IH. intros y Hy. apply H. lia.
Qed.
Lemma dfind_snoc B ino f j n : f (dent B ino (j + n)) = false -> dfind B ino f j (S n) = dfind B ino f j n.
Proof.
  revert j. induction n as [|n IH]; intros j H; cbn [dfind] in *; [rewrite Nat.add_0_r in H; by rewrite H|].
  destruct (f (dent B ino j)); [done|]. apply IH. by replace (S j + n)%nat with (j + S n)%nat by lia.
Qed.

(** The directory after an entry has been stored in its slot. *)
Lemma dlookup_after B ino B' ino' x name inum :
  slot B ino 0 = x -> (forall y, 16 * Z.of_nat y + 16 <= 274432 -> dent B' ino' y = if decide (y = x) then dirent_bytes name inum else dent B ino y) ->
  nent ino' = Nat.max (nent ino) (S x) -> 16 * Z.of_nat (nent ino') <= 274432 -> 0 < inum < 2 ^ 16 -> dlookup B ino name = None ->
  dlookup B' ino' name = Some inum /\ forall name', dname name' <> dname name -> dlookup B' ino' name' = dlookup B ino name'.
Proof.
  intros Hx Hent Hn Hmax Hinum Hnone. pose proof (slot_spec _ _ _ Hx) as Hslot. unfold dlookup in *. apply fmap_None in Hnone.
  pose proof (dfind_None _ _ _ _ _ Hnone) as Hno.
  assert (Hde : dent B' ino' x = dirent_bytes name inum) by (rewrite Hent, decide_True by (try done; lia); done).
  split.
  - rewrite (dfind_intro B' ino' (dmatch name) 0 (nent ino') x); [cbn [fmap option_fmap option_map]; by rewrite Hde, dirent_inum by lia|lia| |].
    + unfold dmatch. rewrite Hde, dirent_inum, dirent_name by lia. rewrite bool_decide_true by done. destruct (Z.eqb_spec inum 0); [lia|done].
    + intros y Hy. rewrite Hent, decide_False by lia. apply Hno. lia.
  - intros name' Hne. assert (Hxf : dmatch name' (dent B' ino' x) = false).
    { unfold dmatch. rewrite Hde, dirent_name, bool_decide_false by done. apply andb_false_r. }
    assert (Hf : dfind B' ino' (dmatch name') 0 (nent ino') = dfind B ino (dmatch name') 0 (nent ino)).
    { destruct Hslot as [[Hlt H0]|Heq].
      - replace (nent ino') with (nent ino) by lia. apply dfind_ext. intros y Hy. destruct (decide (y = x)) as [->|]; [|by rewrite Hent, decide_False by lia].
        rewrite Hxf. unfold dmatch. by rewrite H0.
      - replace (nent ino') with (S (nent ino)) by lia. rewrite dfind_snoc by (by rewrite Nat.add_0_l, <- Heq). apply dfind_ext. intros y Hy. by rewrite Hent, decide_False by lia. }
    rewrite Hf. destruct (dfind B ino (dmatch name') 0 (nent ino)) as [y|] eqn:E; [|done]. apply dfind_Some in E as (Hy&Hm&_). cbn [fmap option_fmap option_map]. f_equal.
    destruct (decide (y = x)) as [->|]; [|by rewrite Hent, decide_False by lia]. exfalso. destruct Hslot as [[_ H0]|]; [|lia]. unfold dmatch in Hm. by rewrite H0 in Hm.
Qed.

Lemma dirlookup_none B ino P name c k :
  fsx start i B [] P k -> user i c -> sb k = s -> ino_at dp k ino -> dirok s B ino -> bitmap_ok s B -> Forall byte_ok name -> (length P + 7 < 30)%nat ->
  dlookup B ino name = None ->
  runs (dirlookup dp name) c k (fun r c' k' => c' = c /\ r = None /\ fsx start i B [] P k' /\ inodes k' = inodes k /\ iframe k k').
Proof.
  intros Hf Hu Hs Hi Hd Hbm Hname Hlog Hnone. apply fmap_None in Hnone. unfold dirlookup. eapply runs_at; [by apply getinode_done|]. rewrite (dr_type _ _ _ Hd). cbn [Z.eqb negb].
  pose proof (dirok_nent _ _ _ Hd) as Hn. assert (Hq : i_size ino / 16 = Z.of_nat (nent ino)) by (rewrite Hn, Z.mul_comm; by apply Z.div_mul).
  eapply runs_step; [eapply (dirlookup_loop_fs _ B ino P name 0); try done; lia|]. intros r c' k1 (->&->&Hf1&Hi1&Hr1). rewrite Nat.sub_0_r, Hnone. by apply runs_ret.
Qed.

Lemma grown_nent B ino B1 ino1 off ds x :
  fwrote s B ino off ds B1 ino1 -> i_size ino = 16 * Z.of_nat (nent ino) -> off = 16 * Z.of_nat x ->
  i_size (grown ino1 (off + 16)) = 16 * Z.of_nat (Nat.max (nent ino) (S x)) /\ nent (grown ino1 (off + 16)) = Nat.max (nent ino) (S x).
Proof.
  intros W Hn Hoff. destruct (fw_same _ _ _ _ _ _ _ W) as [l El]. assert (Esz : i_size ino1 = i_size ino) by (by subst).
  assert (E : i_size (grown ino1 (off + 16)) = 16 * Z.of_nat (Nat.max (nent ino) (S x))).
  { unfold grown. rewrite Z.gtb_ltb. destruct (Z.ltb_spec (i_size ino1) (off + 16)); cbn; lia. }
  split; [done|]. unfold nent at 1. rewrite E, Z.mul_comm, Z.div_mul by lia. by rewrite Nat2Z.id.
Qed.

(** [dirlink] of a new name adds the entry, or finds no free block. *)
Lemma dirlink_fs B ino P name inum c k :
  fsx start i B [] P k -> user i c -> sb k = s -> ino_at dp k ino -> dirok s B ino -> bitmap_ok s B -> Forall byte_ok name ->
  foreign s B ino (IBLOCK (i_inum ino) s) -> 0 < inum < 2 ^ 16 -> i_size ino + 16 <= 274432 -> (length P + 8 < 30)%nat -> dlookup B ino name = None ->
  runs (dirlink dp name inum) c k (fun r c' k' => c' = c /\ exists B' ino' P', fsx start i B' [] P' k' /\ inodes k' = <[dp := ino']> (inodes k) /\ iframe k k' /\ (length P' <= length P + 7)%nat /\
    (r = 0 /\ dirok s B' ino' /\ bitmap_ok s B' /\ dlookup B' ino' name = Some inum /\
       (forall name', dname name' <> dname name -> dlookup B' ino' name' = dlookup B ino name') \/
     r = -1 /\ forall b, 0 <= b < sb_size s -> used s B' b = true)).
Proof.
  intros Hf Hu Hs Hi Hd Hbm Hname Hib Hinum Hmax Hlog Hnone. unfold dirlink. pose proof (dirok_nent _ _ _ Hd) as Hn.
  eapply runs_step; [eapply (dirlookup_none B ino P name); try done; lia|]. intros r c' k1 (->&->&Hf1&Hi1&Hr1). cbv beta iota.
  assert (Hi1' : inodes k1 !! dp = Some ino) by (by rewrite Hi1). eapply runs_at; [by apply getinode_done|].
  assert (Hq : i_size ino / 16 = Z.of_nat (nent ino)) by (rewrite Hn, Z.mul_comm; by apply Z.div_mul).
  eapply runs_step; [eapply (dirlink_loop_fs _ B ino P 0 c k1); try done; [by rewrite (iframe_sb _ _ Hr1)|lia..]|]. intros r c' k2 (->&->&Hf2&Hi2&Hr2).
  set (x := slot B ino 0). assert (Hx : (x <= nent ino)%nat) by (destruct (slot_spec B ino x eq_refl) as [[? _]| ->]; lia).
  set (off := 16 * Z.of_nat x). assert (Hoff : 0 <= off <= i_size ino) by lia. assert (Hr12 : iframe k k2) by (by eapply iframe_trans).
  assert (Hmod : off mod 1024 + 16 <= 1024).
  { unfold off. replace 1024 with (16 * 64) by lia. rewrite Z.mul_mod_distr_l by lia. pose proof (Z.mod_pos_bound (Z.of_nat x) 64 ltac:(lia)). lia. }
  eapply runs_step; [eapply (writei_fs start i s dp B ino P _ off 16 (dirent_bytes name inum) 1 c k2); try done|].
  { by rewrite (iframe_sb _ _ Hr12). }
  { unfold ino_at. by rewrite Hi2, Hi1. }
  { apply Hd. }
  { by apply dirent_ok. }
  { by rewrite length_dirent. }
  { lia. }
  { lia. }
  intros r c' k3 (->&m&B1&ino1&P1&Hm&->&W&Hf3&Hi3&Hr3&HP1&Hfull). set (ino2 := grown ino1 (off + m)) in *. set (d := put_dinode _ _ _) in *.
  destruct (writei_after s B ino off (dirent_bytes name inum) m B1 ino1 d W) as (A1&A2&A3&A4&A5&_); [lia|rewrite length_dirent; lia|done|].
  fold ino2 in A1, A2, A3, A4, A5. set (B2 := bset B1 _ d) in *.
  assert (Hpost : forall r, (r = 0 /\ m = 16 \/ r = -1 /\ m < 16) -> c = c /\ exists B' ino' P', fsx start i B' [] P' k3 /\ inodes k3 = <[dp := ino']> (inodes k) /\ iframe k k3 /\ (length P' <= length P + 7)%nat /\
    (r = 0 /\ dirok s B' ino' /\ bitmap_ok s B' /\ dlookup B' ino' name = Some inum /\
       (forall name', dname name' <> dname name -> dlookup B' ino' name' = dlookup B ino name') \/
     r = -1 /\ forall b, 0 <= b < sb_size s -> used s B' b = true)).
  { intros r Hr. split; [done|]. exists B2, ino2, P1. split; [done|]. split; [by rewrite Hi3, Hi2, Hi1|]. split; [by eapply iframe_trans|]. split; [lia|].
    destruct Hr as [[-> ->]|[-> Hm16]].
    - left. split; [done|]. destruct (grown_nent B ino B1 ino1 off _ x W Hn eq_refl) as [Esz Ent]. fold ino2 in Esz, Ent.
      assert (Hmax2 : 16 * Z.of_nat (nent ino2) <= 274432) by lia.
      split; [|split; [done|]].
      + split; [done| |lia| |apply A5; [apply Hd|lia..]].
        * destruct (fw_same _ _ _ _ _ _ _ W) as [l El]. unfold ino2, grown. subst ino1. destruct (_ >? _); exact (dr_type _ _ _ Hd).
        * rewrite Esz, Z.mul_comm. by apply Z.mod_mul.
      + apply (dlookup_after B ino B2 ino2 x); try done. intros y Hy. apply dent_after; [exact A4|apply length_dirent|done].
    - right. split; [done|]. intros b Hb. unfold B2. rewrite (used_foreign s B1 ino1); [by apply Hfull|by eapply foreign_wrote|done]. }
  destruct (Z.eqb_spec m 16) as [->|Hne]; cbn [negb]; apply runs_ret, Hpost; [auto|right; split; [done|lia]].
Qed.

(** What [dirlookup] returns for a name that has the number [o] in the directory. *)
Definition looked_up (o : option Z) (r : option (nat * Z)) (k : kernel) : Prop :=
  match o with
  | None => r = None
  | Some inum => exists ip off it, r = Some (ip, off) /\ inodes k !! ip = Some it /\ i_dev it = 1 /\ i_inum it = inum
  end.

Lemma dirlookup_reads B ino P name c k :
  fsx start i B [] P k -> user i c -> sb k = s -> ino_at dp k ino -> dirok s B ino -> bitmap_ok s B -> Forall byte_ok name ->
  length (inodes k) = 50%nat -> (exists j it, inodes k !! j = Some it /\ is_unused it = true) -> (length P + 7 < 30)%nat ->
  runs (dirlookup dp name) c k (fun r c' k' => c' = c /\ fsx start i B [] P k' /\ looked_up (dlookup B ino name) r k').
Proof.
  intros. eapply runs_mono; [by eapply (dirlookup_finds B ino P name c k)|]. intros r c' k' (->&Hf'&_&Hr). split; [done|]. split; [done|].
  unfold dlookup, looked_up. destruct (dfind B ino (dmatch name) 0 (nent ino)) as [x|]; cbn.
  - destruct Hr as (ip&it&->&_&?&?&?). by exists ip, (16 * Z.of_nat x), it.
  - by destruct Hr as [-> _].
Qed.

(** C11. After [dirlink] of a new name the name is found: [dirlink] returns 0, and running
    [dirlookup] in the state it leaves then returns the in-memory inode with the number that was
    linked, while for every other name it returns what it returned before; or [dirlink] returns -1,
    and then no block is free.  The directory stays well-formed. *)
Theorem dirlink_then_found B ino P name inum c k :
  fsx start i B [] P k -> user i c -> sb k = s -> ino_at dp k ino -> dirok s B ino -> bitmap_ok s B -> Forall byte_ok name ->
  foreign s B ino (IBLOCK (i_inum ino) s) -> 0 < inum < 2 ^ 16 -> i_size ino + 16 <= 274432 -> (length P + 14 < 30)%nat -> dlookup B ino name = None ->
  length (inodes k) = 50%nat -> (exists j it, j <> dp /\ inodes k !! j = Some it /\ is_unused it = true) ->
  runs (dirlink dp name inum) c k (fun r c1 k1 => c1 = c /\ exists B' ino' P', fsx start i B' [] P' k1 /\ inodes k1 = <[dp := ino']> (inodes k) /\ iframe k k1 /\
    (r = 0 /\ dirok s B' ino' /\ bitmap_ok s B' /\
       (forall name', Forall byte_ok name' -> runs (dirlookup dp name') c k1 (fun r' c2 k2 => c2 = c /\ fsx start i B' [] P' k2 /\
          looked_up (if decide (dname name' = dname name) then Some inum else dlookup B ino name') r' k2)) \/
     r = -1 /\ forall b, 0 <= b < sb_size s -> used s B' b = true)).
Proof.
  intros Hf Hu Hs Hi Hd Hbm Hname Hib Hinum Hmax Hlog Hnone H50 (j&it&Hj&Hit&Hun).
  eapply runs_mono; [eapply (dirlink_fs B ino P name inum c k); try done; lia|].
  intros r c' k1 (->&B'&ino'&P'&Hf1&Hi1&Hr1&HP&Hcase). split; [done|]. exists B', ino', P'. do 3 (split; [done|]).
  destruct Hcase as [(->&Hd1&Hbm1&Hnew&Hold)|Hfull]; [left|by right]. do 3 (split; [done|]). intros name' Hn'.
  assert (E : dlookup B' ino' name' = if decide (dname name' = dname name) then Some inum else dlookup B ino name').
  { destruct (decide _) as [En|En]; [|by apply Hold]. by rewrite <- Hnew, (dlookup_dname B' ino' name' name). }
  rewrite <- E. assert (Hlt : (dp < length (inodes k))%nat) by (by eapply lookup_lt_Some).
  eapply (dirlookup_reads B' ino' P' name'); try done.
  - by rewrite (iframe_sb _ _ Hr1).
  - unfold ino_at. rewrite Hi1. by apply list_lookup_insert_eq.
  - by rewrite Hi1, length_insert.
  - exists j, it. by rewrite Hi1, list_lookup_insert_ne.
  - lia.
Qed.
End Dir.

(** ** An example: an empty directory on the disk of [Disk] *)

Module NewDir.

#[local] Instance fuel : Fuel := 100%nat.
#[local] Existing Instance sync_device.
#[local] Existing Instance small_linker.

Definition ino : inode := NewFile.ino <| i_type := 1 |>.
Definition k : kernel := Disk.k <| inodes ::= <[0%nat := ino]> |>.
Definition name : list Z := str "hello".

Lemma dir_ok : dirok (sb k) Disk.B ino.
Proof.
  split; [|done|by split|done|intros p Hp; cbn in Hp; lia]. destruct NewFile.file_ok. by split.
Qed.

Lemma newdir_k_ok : fsx 2 0 Disk.B [] [] k.
Proof. apply (fsx_inode 2 0), Disk.disk_k_ok. Qed.

Lemma dirlookup_finds_witness :
  runs (dirlookup 0 name) Disk.c k (fun r c' k' => c' = Disk.c /\ fsx 2 0 Disk.B [] [] k' /\ iframe k k' /\
    match dfind Disk.B ino (dmatch name) 0 (nent ino) with
    | None => r = None /\ inodes k' = inodes k
    | Some x => exists ip it, r = Some (ip, 16 * Z.of_nat x) /\ inodes k' = alter (igot 1 (de_inum (dent Disk.B ino x))) ip (inodes k) /\
        inodes k' !! ip = Some it /\ i_dev it = 1 /\ i_inum it = de_inum (dent Disk.B ino x)
    end).
Proof.
  apply (dirlookup_finds 2 0 (sb k) 0 Disk.B ino [] name Disk.c k); [apply newdir_k_ok|done|done|done|apply dir_ok|apply Disk.k_bitmap|apply NewFile.hello_ok|done| |cbn; lia].
  exists 1%nat, inode_0. done.
Defined.

(** The result of a computation that is done. *)
Lemma runs_result {A} (m : M A) c k Q d r : runs m c k Q -> match m c k with Done a _ _ => a | _ => d end = r ->
  exists c' k', m c k = Done r c' k' /\ Q r c' k'.
Proof. intros (a&c'&k'&E&H)%runs_done. rewrite E. intros <-. eauto. Qed.

Lemma newdir_links : match dirlink 0 name 5 Disk.c k with Done r _ _ => r | _ => 1 end = 0.
Proof. vm_compute. reflexivity. Qed.

Lemma dirlink_then_found_witness :
  exists c1 k1, dirlink 0 name 5 Disk.c k = Done 0 c1 k1 /\ runs (dirlookup 0 name) Disk.c k1 (fun r' c2 k2 => c2 = Disk.c /\ looked_up (Some 5) r' k2).
Proof.
  destruct (runs_result (dirlink 0 name 5) Disk.c k _ 1 0 (dirlink_then_found 2 0 (sb k) 0 Disk.B ino [] name 5 Disk.c k newdir_k_ok
      ltac:(done) ltac:(done) ltac:(done) dir_ok Disk.k_bitmap NewFile.hello_ok NewFile.inode_block ltac:(lia) ltac:(by vm_compute)
      ltac:(cbn; lia) ltac:(done) ltac:(done) ltac:(by exists 1%nat, inode_0)) newdir_links)
    as (c1&k1&E&_&B'&ino'&P'&_&_&_&Hr).
  exists c1, k1. split; [exact E|].
  destruct Hr as [(_&_&_&Hr)|[Hr _]]; [|discriminate Hr]. specialize (Hr name NewFile.hello_ok). rewrite decide_True in Hr by reflexivity.
  eapply runs_mono; [exact Hr|]. intros r' c2 k2 (->&_&Hl). split; [reflexivity|exact Hl].
Defined.

End NewDir.
