(* ===== verification/FsPath.v ===== *)
(** * Path names

    [skipelem], called until it returns 0, takes a path apart into the words
    between its slashes, each cut to DIRSIZ bytes. *)

From S2P Require Import Prelude Riscv CString Fields Kernel Printf Sched Args Sleeplock Bio Log Fs.
From stdpp Require Import base numbers strings gmap list.
From Stdlib Require Import ZArith Lia.

#[local] Open Scope Z_scope.

(** ** The words of a path *)

Definition slash (c : Z) : bool := isc c "/".

(** The non-empty words; [cur] is the word being read, last byte first. *)
Fixpoint words (cur path : list Z) : list (list Z) :=
  match path with
  | [] => match cur with [] => [] | _ => [rev cur] end
  | c :: path =>
      if slash c then match cur with [] => words [] path | _ => rev cur :: words [] path end
      else words (c :: cur) path
  end.

(** What [namex] gets from [skipelem]: the contents of the name buffer after
    each call, up to its end or a 0. *)
Fixpoint elems (n : nat) (path name : list Z) : option (list (list Z)) :=
  match n with
  | O => None
  | S n =>
      match skipelem path name with
      | None => Some []
      | Some (path, name) => (cons (cstr 14 (nthd 0 name))) <$> elems n path name
      end
  end.

(** ** [skipelem] *)

Definition path_ok (path : list Z) : Prop := Forall (fun c => 0 < c < 2 ^ 8) path.

Lemma skip_slashes_words cur path : cur = [] -> words cur (skip_slashes path) = words cur path.
Proof. intros ->. induction path as [|c path IH]; [done|]. cbn. unfold slash. destruct (isc c "/") eqn:E; [done|]. cbn. unfold slash. by rewrite E. Qed.

Lemma skip_slashes_length path : (length (skip_slashes path) <= length path)%nat.
Proof. induction path as [|c path IH]; [done|]. cbn. destruct (isc c "/"); [lia|done]. Qed.

Lemma skip_slashes_ok path : path_ok path -> path_ok (skip_slashes path).
Proof. induction 1 as [|c path Hc Hp IH]; cbn; [by apply Forall_nil|]. destruct (isc c "/"); [done|]. by apply Forall_cons. Qed.

Lemma skip_slashes_head path c rest : skip_slashes path = c :: rest -> slash c = false.
Proof. induction path as [|x path IH]; cbn; [done|]. destruct (isc x "/") eqn:E; [done|]. by intros [= -> ->]. Qed.

Lemma skip_name_words cur path s rest : path_ok path -> skip_name path = (s, rest) ->
  words cur path = words (rev s ++ cur) rest /\ path = s ++ rest /\ (rest = [] \/ exists c r, rest = c :: r /\ slash c = true).
Proof.
  intros Hp. revert cur s rest. induction Hp as [|c path Hc Hp IH]; intros cur s rest; cbn [skip_name]; [intros [= <- <-]; auto|].
  destruct (isc c "/") eqn:E; cbn [orb]; [intros [= <- <-]; split; [done|]; split; [done|]; right; eauto|].
  destruct (Z.eqb_spec c 0); [lia|]. destruct (skip_name path) as [s' r'] eqn:E'. intros [= <- <-].
  destruct (IH (c :: cur) s' r' eq_refl) as (Hw&->&Hr). split; [|done]. cbn [words]. unfold slash. rewrite E, Hw. f_equal. cbn. by rewrite <- app_assoc.
Qed.

Lemma words_word w rest : w <> [] -> rest = [] \/ (exists c r, rest = c :: r /\ slash c = true) -> words w rest = rev w :: words [] (skip_slashes rest).
Proof.
  intros Hw Hr. rewrite skip_slashes_words by done. destruct w as [|x w]; [done|]. destruct Hr as [->|(c&r&->&Hc)]; [done|]. cbn [words]. by rewrite Hc.
Qed.

(** The name buffer after [skipelem] has copied the word [s] to it. *)
Lemma name_buffer name s : length name = 14%nat -> Forall (fun c => c <> 0) s ->
  let name' := if DIRSIZ <=? Z.of_nat (length s) then splice name 0 (take 14 s) else setz (splice name 0 s) (Z.of_nat (length s)) 0 in
  cstr 14 (nthd 0 name') = take 14 s /\ length name' = 14%nat.
Proof.
  intros Hl Hs. destruct (Z.leb_spec 14 (Z.of_nat (length s))) as [Hge|Hlt]; cbn zeta.
  - assert (Ht : length (take 14 s) = 14%nat) by (rewrite length_take; lia). split; [|rewrite length_splice; rewrite ?Ht; cbn; lia].
    unfold splice. cbn [Z.to_nat take app]. apply (cstr_from_list 14 []); [by apply Forall_take|lia|by left].
  - destruct (drop (length s) name) as [|x r] eqn:E; [apply (f_equal length) in E; rewrite length_drop in E; cbn in E; lia|].
    assert (Es : setz (splice name 0 s) (Z.of_nat (length s)) 0 = s ++ 0 :: r).
    { unfold splice. change (Z.to_nat 0 + length s)%nat with (length s). rewrite E. cbn [Z.to_nat take app]. apply setz_middle. }
    rewrite Es, take_ge by lia. split; [|rewrite <- Es, length_setz, length_splice; cbn; lia].
    apply (cstr_from_list 14 [] s (0 :: r)); [done|lia|right; eauto].
Qed.

Lemma skipelem_step path name : path_ok path -> length name = 14%nat ->
  match skipelem path name with
  | None => words [] path = []
  | Some (rest, name') => exists w, words [] path = w :: words [] rest /\ cstr 14 (nthd 0 name') = take 14 w /\
      length name' = 14%nat /\ path_ok rest /\ (length rest < length path)%nat
  end.
Proof.
  intros Hp Hn. unfold skipelem. pose proof (skip_slashes_ok path Hp) as Hp1. pose proof (skip_slashes_length path) as Hl1. pose proof (skip_slashes_words [] path eq_refl) as Hw1.
  destruct (skip_slashes path) as [|c p] eqn:E1; [done|]. pose proof (skip_slashes_head _ _ _ E1) as Hc. unfold slash in Hc.
  apply Forall_cons in Hp1 as [Hc0 Hp1]. assert (Eh : nthd 0 (c :: p) 0 = c) by done. rewrite Eh.
  cbn [skip_name]. rewrite Hc. cbn [orb]. destruct (Z.eqb_spec c 0) as [|_]; [lia|]. destruct (skip_name p) as [s rest] eqn:E2.
  destruct (skip_name_words [c] p s rest Hp1 E2) as (Hw&Ep&Hr). exists (c :: s).
  assert (Hs : Forall (fun c => 0 < c < 2 ^ 8) (c :: s) /\ path_ok rest).
  { subst p. apply Forall_app in Hp1 as [? ?]. split; [by apply Forall_cons|done]. } destruct Hs as [Hs Hrest].
  destruct (name_buffer name (c :: s) Hn) as [Hb Hb']; [eapply Forall_impl; [exact Hs|]; cbn; lia|].
  split; [|split; [exact Hb|split; [exact Hb'|split; [by apply skip_slashes_ok|]]]].
  - rewrite <- Hw1. cbn [words]. unfold slash. rewrite Hc, Hw, (words_word _ rest); [|by destruct (rev s)|done]. f_equal. by rewrite rev_app_distr, rev_involutive.
  - pose proof (skip_slashes_length rest). subst p. cbn in Hl1. rewrite length_app in Hl1. lia.
Qed.

(** Calling [skipelem] until it returns 0, as [namex] does, ends within one call more than the
    path has bytes, and the name buffer holds in turn the non-empty words between the slashes of
    the path, each cut to DIRSIZ bytes, whatever the buffer held before. *)
Theorem skipelem_splits path name :
  path_ok path -> length name = 14%nat -> elems (S (length path)) path name = Some (take 14 <$> words [] path).
Proof.
  assert (H : forall n path name, path_ok path -> length name = 14%nat -> (length path < n)%nat -> elems n path name = Some (take 14 <$> words [] path)).
  { clear. induction n as [|n IH]; intros path name Hp Hn Hlt; [lia|]. cbn [elems]. pose proof (skipelem_step path name Hp Hn) as Hs.
    destruct (skipelem path name) as [[rest name']|]; [|by rewrite Hs]. destruct Hs as (w&->&Hw&Hn'&Hp'&Hl).
    rewrite (IH rest name') by (try done; lia). cbn [fmap option_fmap option_map list_fmap]. by rewrite Hw. }
  intros. apply H; [done|done|lia].
Qed.

Lemma skipelem_splits_witness :
  elems (S (length (str "//usr/../averylongfilename/"))) (str "//usr/../averylongfilename/") (replicate 14 7) =
  Some [str "usr"; str ".."; str "averylongfilen"].
Proof.
  apply (skipelem_splits (str "//usr/../averylongfilename/") (replicate 14 7)); [|done].
  change (path_ok (str "//usr/../averylongfilename/")). unfold path_ok. vm_compute. repeat (apply Forall_cons; split; [done|]). by apply Forall_nil.
Defined.
