(* ===== verification/Pipe.v ===== *)
(** * Pipes: [pipe.c]

    A pipe lives in a page from [kalloc]; the map [pipes] gives its fields by
    the address of the page.  [pipealloc] is in File.v, with the file table. *)

From S2P Require Import Prelude Riscv CString Kernel Printf Kalloc Vm Args Sched.
From stdpp Require Import base numbers strings gmap list.
From Stdlib Require Import ZArith Lia.

#[local] Open Scope Z_scope.
#[local] Open Scope kernel_scope.

Abbreviation PIPESIZE := 512%Z (only parsing).

Definition getpipe (pi : Z) : M pipe := p <- gets (fun k => pipes k !! pi) ;; deref p.
Definition modpipe (pi : Z) (f : pipe -> pipe) : M unit := modify (fun k => k <| pipes ::= alter f pi |>).

(** [kfree((char * )pi)]: the page is no pipe any more. *)
Definition free_pipe `{Linker} (pi : Z) : M unit :=
  modify (fun k => k <| pipes ::= delete pi |>) ;;
  kfree pi.

Section Operations.
Context {LK : Linker} `{Fuel}.

Definition pipeclose (pi : Z) (writable : bool) : M unit :=
  acquire (LPipe pi) ;;
  (if writable then
     modpipe pi (fun p => p <| pi_writeopen := false |>) ;;
     wakeup (CPipeR pi)
   else
     modpipe pi (fun p => p <| pi_readopen := false |>) ;;
     wakeup (CPipeW pi)) ;;
  p <- getpipe pi ;;
  if negb (pi_readopen p) && negb (pi_writeopen p) then
    release (LPipe pi) ;;
    free_pipe pi
  else release (LPipe pi).

(** [while(i < n)]: each round stores a byte or sleeps.  [inl] is an early
    [return], [inr i] the end of the loop. *)
Fixpoint pipewrite_loop (fl : nat) (pi addr n i : Z) : M (Z + Z) :=
  match fl with
  | O => stuck "pipewrite"
  | S fl =>
      if i <? n then
        pr <- curproc ;;
        p <- getpipe pi ;;
        dead <- (if negb (pi_readopen p) then ret true else x <- killed pr ;; ret (negb (x =? 0))) ;;
        if (dead : bool) then
          release (LPipe pi) ;;
          ret (inl (-1))
        else if pi_nwrite p =? u32 (pi_nread p + PIPESIZE) then
          wakeup (CPipeR pi) ;;
          sleep (CPipeW pi) (LPipe pi) ;;
          pipewrite_loop fl pi addr n i
        else
          q <- getproc pr ;;
          '(r, ch) <- copyin (p_pagetable q) (u64 (addr + i)) 1 ;;
          if r =? -1 then ret (inr i) else
          modpipe pi (fun p => p <| pi_data ::= fun d => setz d (pi_nwrite p mod PIPESIZE) (nthd 0 ch 0) |>
                                 <| pi_nwrite ::= fun w => u32 (w + 1) |>) ;;
          pipewrite_loop fl pi addr n (i + 1)
      else ret (inr i)
  end.

Definition pipewrite (pi addr n : Z) : M Z :=
  acquire (LPipe pi) ;;
  r <- pipewrite_loop (S (Z.to_nat n) + fuel) pi addr n 0 ;;
  match r with
  | inl r => ret r
  | inr i =>
      wakeup (CPipeR pi) ;;
      release (LPipe pi) ;;
      ret i
  end.

(** [while(pi->nread == pi->nwrite && pi->writeopen)]; false: return -1. *)
Fixpoint piperead_wait (fl : nat) (pi : Z) : M bool :=
  match fl with
  | O => stuck "piperead"
  | S fl =>
      p <- getpipe pi ;;
      if (pi_nread p =? pi_nwrite p) && pi_writeopen p then
        pr <- curproc ;;
        x <- killed pr ;;
        if negb (x =? 0) then
          release (LPipe pi) ;;
          ret false
        else
          sleep (CPipeR pi) (LPipe pi) ;;
          piperead_wait fl pi
      else ret true
  end.

(** [for(i = 0; i < n; i++)], [m] rounds left. *)
Fixpoint piperead_loop (m : nat) (pi addr i : Z) : M Z :=
  match m with
  | O => ret i
  | S m =>
      p <- getpipe pi ;;
      if pi_nread p =? pi_nwrite p then ret i else
      let ch := nthd 0 (pi_data p) (pi_nread p mod PIPESIZE) in
      pr <- curproc ;;
      q <- getproc pr ;;
      r <- copyout (p_pagetable q) (u64 (addr + i)) [ch] 1 ;;
      if r =? -1 then ret (if i =? 0 then -1 else i) else
      modpipe pi (fun p => p <| pi_nread ::= fun r => u32 (r + 1) |>) ;;
      piperead_loop m pi addr (i + 1)
  end.

Definition piperead (pi addr n : Z) : M Z :=
  acquire (LPipe pi) ;;
  ok <- piperead_wait (S fuel) pi ;;
  if negb ok then ret (-1) else
  i <- piperead_loop (Z.to_nat n) pi addr 0 ;;
  wakeup (CPipeW pi) ;;
  release (LPipe pi) ;;
  ret i.

End Operations.
