(* ===== verification/PipeFifo.v ===== *)
(** * The pipe as a bounded queue

    The buffer of a pipe is a ring of 512 bytes with two 32-bit counters that
    wrap around.  [contents] is the queue it stands for; the first theorem says
    that no interleaving of readers and writers makes it longer than the ring,
    the second that bytes come out in the order they were written. *)

From S2P Require Import Prelude Ring Riscv CString Kernel Printf Kalloc Vm Frame UserMem UserMemEx UserProc Sched Args Sleeplock Bcache Pipe.
From stdpp Require Import base numbers strings gmap list.
From Stdlib Require Import ZArith Lia.

#[local] Open Scope Z_scope.
#[local] Open Scope kernel_scope.

(** How many bytes are in the pipe: [nwrite - nread] in [uint] arithmetic. *)
Definition plen (p : pipe) : Z := rlen (pi_nread p) (pi_nwrite p).

(** The bytes written and not yet read, oldest first. *)
Definition contents (p : pipe) : list Z := seg PIPESIZE (pi_data p) (pi_nread p) (pi_nwrite p).

(** The type invariant of [struct pipe]. *)
Record pipe_ok (p : pipe) : Prop := {
  po_data : length (pi_data p) = 512%nat;
  po_read : u32_ok (pi_nread p);
  po_write : u32_ok (pi_nwrite p);
  po_len : plen p <= PIPESIZE
}.

(** [pi->data[pi->nwrite++ % PIPESIZE] = ch] *)
Definition push (ch : Z) (p : pipe) : pipe :=
  p <| pi_data ::= fun d => setz d (pi_nwrite p mod PIPESIZE) ch |> <| pi_nwrite ::= fun w => u32 (w + 1) |>.
(** [pi->nread++] *)
Definition pop (p : pipe) : pipe := p <| pi_nread ::= fun r => u32 (r + 1) |>.

Definition pipes_ok (k : kernel) : Prop := map_Forall (fun _ => pipe_ok) (pipes k).

(** ** The ring *)

Lemma length_contents p : Z.of_nat (length (contents p)) = plen p.
Proof. apply length_seg. Qed.

Lemma pipe_full p : pipe_ok p -> (pi_nwrite p =? u32 (pi_nread p + PIPESIZE)) = (plen p =? PIPESIZE).
Proof. intros [_ ? ? ?]. unfold plen, rlen, u32_ok, u32 in *. apply eq_true_iff_eq. rewrite !Z.eqb_eq. zlia. Qed.

Lemma pipe_empty p : pipe_ok p -> (pi_nread p =? pi_nwrite p) = (plen p =? 0).
Proof. intros [_ ? ? ?]. by apply rlen_eq. Qed.

Lemma plen_push ch p : pipe_ok p -> plen p < PIPESIZE -> plen (push ch p) = plen p + 1.
Proof. intros [_ ? ? ?] ?. apply (rlen_push (pi_nread p) (pi_nwrite p)); try done. unfold plen in *. lia. Qed.

Lemma plen_pop p : pipe_ok p -> 0 < plen p -> plen (pop p) = plen p - 1.
Proof. intros [_ ? ? ?] ?. by apply rlen_pop. Qed.

Lemma push_ok ch p : pipe_ok p -> plen p < PIPESIZE -> pipe_ok (push ch p).
Proof.
  intros Hp Hl. constructor; [cbn; rewrite length_setz; apply Hp|apply Hp|apply u32_range|rewrite plen_push by done; lia].
Qed.
Lemma pop_ok p : pipe_ok p -> 0 < plen p -> pipe_ok (pop p).
Proof.
  intros Hp Hl. constructor; [apply Hp|apply u32_range|apply Hp|]. rewrite plen_pop by done. destruct Hp. lia.
Qed.

Lemma contents_push ch p : pipe_ok p -> plen p < PIPESIZE -> contents (push ch p) = contents p ++ [ch].
Proof.
  intros [Hd ? ? ?] Hl. apply (seg_push PIPESIZE); [done|apply divide_512|done|done|done|done|by rewrite Hd].
Qed.

Lemma contents_pop p : pipe_ok p -> 0 < plen p -> contents p = nthd 0 (pi_data p) (pi_nread p mod PIPESIZE) :: contents (pop p).
Proof. intros [_ ? ? ?] Hl. apply (seg_pop PIPESIZE); [done|apply divide_512|done|done|done]. Qed.

(** ** Under interference *)

(** What the pipe code has while it runs: the pipe's lock and no other. *)
Definition inpipe (pi : Z) (i : nat) (c : cpu) (k : kernel) : Prop :=
  pipes_ok k /\ held c = [LPipe pi] /\ cpu_proc c = Some i.
Definition outpipe (i : nat) (c : cpu) (k : kernel) : Prop := pipes_ok k /\ held c = [] /\ cpu_proc c = Some i.

Lemma pipes_ok_eq k k' : pipes k' = pipes k -> pipes_ok k -> pipes_ok k'.
Proof. unfold pipes_ok. by intros ->. Qed.
Lemma vmrest_pipes k k' : vmrest k' = vmrest k -> pipes k' = pipes k.
Proof. intros E. exact (f_equal pipes E). Qed.
Lemma vmrest_procs k k' : vmrest k' = vmrest k -> procs k' = procs k.
Proof. intros E. exact (f_equal procs E). Qed.

Lemma quiet_killed p i : quiet p (killed i) p.
Proof. unfold killed. quiet. Qed.

Lemma getpipe_done pi p c k : pipes k !! pi = Some p -> getpipe pi c k = Done p c k.
Proof. intros E. unfold getpipe, gets, bind. simpl. by rewrite E. Qed.

Lemma modpipe_done pi g p c k : pipes k !! pi = Some p -> modpipe pi g c k = Done tt c (k <| pipes ::= <[pi := g p]> |>).
Proof.
  intros Hp. unfold modpipe, modify. f_equal. kred. f_equal. apply map_eq. intros j. destruct (decide (j = pi)) as [->|].
  - by rewrite lookup_alter_eq, lookup_insert_eq, Hp.
  - by rewrite lookup_alter_ne, lookup_insert_ne.
Qed.

Lemma getpipe_safe {B} I E (Q : B -> cpu -> kernel -> Prop) pi (f : pipe -> M B) c k :
  (forall p, pipes k !! pi = Some p -> safe I E Q (f p c k)) -> safe I E Q (bind (getpipe pi) f c k).
Proof.
  intros Hf. destruct (pipes k !! pi) as [p|] eqn:Ep; [erewrite bind_done by (by apply getpipe_done); by apply Hf|].
  unfold getpipe, gets, bind. simpl. by rewrite Ep.
Qed.

Section Safe.
Context {LK : Linker} `{Fu : Fuel}.
Let any : string -> Prop := fun _ => True.

(** A call of memory management, or of [killed], inside the pipe's lock. *)
Lemma quiet_inpipe {A B} (m : M A) (f : A -> M B) (Q : B -> cpu -> kernel -> Prop) pi i c k :
  quiet [] m [] -> inpipe pi i c k ->
  (forall a k', inpipe pi i c k' -> vmrest k' = vmrest k -> safe pipes_ok any Q (f a c k')) -> safe pipes_ok any Q (bind m f c k).
Proof.
  intros Hq (Hk&Hh&Hi) Hf. eapply safe_bind with (Q := fun a c' k' => c' = c /\ vmrest k' = vmrest k).
  - apply quiet_safe; [done|rewrite Hh; apply NoDup_singleton|done|done].
  - intros a c' k' [-> E]. apply Hf; [|done]. split; [|done]. by eapply pipes_ok_eq, Hk; apply vmrest_pipes.
Qed.

Lemma wakeup_pipe ch pi i c k : inpipe pi i c k -> safe pipes_ok any (fun _ => inpipe pi i) (wakeup ch c k).
Proof.
  intros (Hk&Hh&Hi). apply (wakeup_safe _ _ i); [intros j; rewrite Hh; by intros ?%list_elem_of_singleton|done|]. by intros ps.
Qed.

Lemma wakeup_inpipe {B} ch (f : unit -> M B) (Q : B -> cpu -> kernel -> Prop) pi i c k :
  inpipe pi i c k -> (forall c' k', inpipe pi i c' k' -> safe pipes_ok any Q (f tt c' k')) -> safe pipes_ok any Q (bind (wakeup ch) f c k).
Proof. intros Hin Hf. eapply safe_bind; [by apply (wakeup_pipe _ pi i)|]. intros [] c' k'. apply Hf. Qed.

Lemma sleep_inpipe {B} ch (f : unit -> M B) (Q : B -> cpu -> kernel -> Prop) pi i c k :
  inpipe pi i c k -> (forall c' k', inpipe pi i c' k' -> safe pipes_ok any Q (f tt c' k')) ->
  safe pipes_ok any Q (bind (sleep ch (LPipe pi)) f c k).
Proof.
  intros (Hk&Hh&Hi) Hf. eapply safe_bind; [by apply (sleep_safe pipes_ok _ i)|]. intros [] c' k' ?. by apply Hf.
Qed.

Lemma release_pipe pi i c k : inpipe pi i c k -> exists c', release (LPipe pi) c k = Done tt c' k /\ outpipe i c' k.
Proof.
  intros (Hk&Hh&Hi). eexists. split; [apply release_done; rewrite Hh; apply list_elem_of_here|].
  split; [done|]. cbn. rewrite Hh, filter_cons_False by tauto. done.
Qed.

Lemma release_inpipe {B} (f : unit -> M B) (Q : B -> cpu -> kernel -> Prop) pi i c k :
  inpipe pi i c k -> (forall c', outpipe i c' k -> safe pipes_ok any Q (f tt c' k)) -> safe pipes_ok any Q (bind (release (LPipe pi)) f c k).
Proof. intros Hin Hf. destruct (release_pipe _ _ _ _ Hin) as (c'&E&Ho). erewrite bind_done by exact E. by apply Hf. Qed.

Lemma modpipe_inpipe {B} g (f : unit -> M B) (Q : B -> cpu -> kernel -> Prop) pi i c k :
  inpipe pi i c k -> (forall p, pipes k !! pi = Some p -> pipe_ok p -> pipe_ok (g p)) ->
  (forall k', inpipe pi i c k' -> safe pipes_ok any Q (f tt c k')) -> safe pipes_ok any Q (bind (modpipe pi g) f c k).
Proof.
  intros (Hk&Hh&Hi) Hg Hf. erewrite bind_done by done. apply Hf. split; [|done].
  intros pj p. cbn. destruct (decide (pj = pi)) as [->|Hne].
  - rewrite lookup_alter_eq. intros (q & Eq & ->)%fmap_Some. by apply Hg, (Hk pi).
  - rewrite lookup_alter_ne by done. apply Hk.
Qed.

Definition wrote_safe (pi : Z) (i : nat) (r : Z + Z) (c : cpu) (k : kernel) : Prop :=
  match r with inl _ => outpipe i c k | inr _ => inpipe pi i c k end.

Lemma pipewrite_loop_safe fl pi addr n j i c k :
  inpipe pi i c k -> safe pipes_ok any (wrote_safe pi i) (pipewrite_loop fl pi addr n j c k).
Proof.
  revert j c k. induction fl as [|fl IH]; intros j c k Hin; [done|]. cbn [pipewrite_loop]. destruct (j <? n); [|done].
  eapply quiet_inpipe; [auto with quiet|exact Hin|]. intros pr k0 Hin0 _. clear k Hin. rename k0 into k, Hin0 into Hin. apply getpipe_safe. intros p Hp.
  eapply quiet_inpipe; [|exact Hin|].
  { destruct (negb _); [apply quiet_ret|]. eapply quiet_bind; [apply quiet_killed|]. intros x. apply quiet_ret. }
  intros dead k1 Hin1 E1. destruct dead.
  { eapply release_inpipe; [exact Hin1|]. done. }
  assert (Hok : pipe_ok p) by (by apply (proj1 Hin pi)). rewrite pipe_full by done. destruct (Z.eqb_spec (plen p) PIPESIZE) as [|Hne].
  - eapply wakeup_inpipe; [exact Hin1|]. intros c2 k2 Hin2. eapply sleep_inpipe; [exact Hin2|]. auto.
  - eapply quiet_inpipe; [apply quiet_getproc|exact Hin1|]. intros q k2 Hin2 E2.
    eapply quiet_inpipe; [apply quiet_copyin|exact Hin2|]. intros [r ch] k3 Hin3 E3. destruct (r =? -1); [done|].
    eapply modpipe_inpipe; [exact Hin3| |auto]. intros p' Hp' _.
    rewrite (vmrest_pipes _ _ E3), (vmrest_pipes _ _ E2), (vmrest_pipes _ _ E1), Hp in Hp'. injection Hp' as <-.
    apply (push_ok (nthd 0 ch 0)); [done|]. destruct Hok. lia.
Qed.

Lemma piperead_wait_safe fl pi i c k :
  inpipe pi i c k -> safe pipes_ok any (fun b c k => if b : bool then inpipe pi i c k else outpipe i c k) (piperead_wait fl pi c k).
Proof.
  revert c k. induction fl as [|fl IH]; intros c k Hin; [done|]. cbn [piperead_wait]. apply getpipe_safe. intros p Hp.
  destruct (_ && _); [|done]. eapply quiet_inpipe; [auto with quiet|exact Hin|]. intros pr k1 Hin1 _.
  eapply quiet_inpipe; [apply quiet_killed|exact Hin1|]. intros x k2 Hin2 _. destruct (negb _).
  - eapply release_inpipe; [exact Hin2|]. done.
  - eapply sleep_inpipe; [exact Hin2|]. auto.
Qed.

Lemma piperead_loop_safe m pi addr j i c k :
  inpipe pi i c k -> safe pipes_ok any (fun _ => inpipe pi i) (piperead_loop m pi addr j c k).
Proof.
  revert j k. induction m as [|m IH]; intros j k Hin; [done|]. cbn [piperead_loop]. apply getpipe_safe. intros p Hp.
  assert (Hok : pipe_ok p) by (by apply (proj1 Hin pi)). rewrite pipe_empty by done. destruct (Z.eqb_spec (plen p) 0) as [|Hne]; [done|].
  eapply quiet_inpipe; [auto with quiet|exact Hin|]. intros pr k1 Hin1 E1.
  eapply quiet_inpipe; [apply quiet_getproc|exact Hin1|]. intros q k2 Hin2 E2.
  eapply quiet_inpipe; [apply quiet_copyout|exact Hin2|]. intros r k3 Hin3 E3. destruct (r =? -1); [done|].
  eapply modpipe_inpipe; [exact Hin3| |auto]. intros p' Hp' _.
  rewrite (vmrest_pipes _ _ E3), (vmrest_pipes _ _ E2), (vmrest_pipes _ _ E1), Hp in Hp'. injection Hp' as <-.
  apply pop_ok; [done|]. pose proof (rlen_range (pi_nread p) (pi_nwrite p)). unfold plen in *. lia.
Qed.

Lemma acquire_inpipe {B} (f : unit -> M B) (Q : B -> cpu -> kernel -> Prop) pi i c k :
  outpipe i c k -> (forall c', inpipe pi i c' k -> safe pipes_ok any Q (f tt c' k)) -> safe pipes_ok any Q (bind (acquire (LPipe pi)) f c k).
Proof.
  intros (Hk&Hh&Hi) Hf. erewrite bind_done by (apply acquire_ok; rewrite Hh; apply not_elem_of_nil).
  apply Hf. split; [done|]. cbn. by rewrite Hh.
Qed.

Lemma free_pipe_safe pi i c k : outpipe i c k -> safe pipes_ok any (fun _ => outpipe i) (free_pipe pi c k).
Proof.
  intros (Hk&Hh&Hi). unfold free_pipe. erewrite bind_done by done. apply quiet_safe; [apply quiet_kfree|rewrite Hh; constructor|done|].
  intros _ k' E. split; [|done]. eapply pipes_ok_eq; [apply vmrest_pipes, E|]. by apply map_Forall_delete.
Qed.

(** C29. However readers and writers interleave, a pipe never holds more than its 512 bytes, also
    when its 32-bit counters wrap around: [pipewrite], [piperead] and [pipeclose] started with
    every pipe well formed leave every pipe well formed whenever they sleep and when they return,
    whatever the other processes do to the pipes meanwhile as long as they keep them well formed;
    and they return without any spinlock, holding only their own process's lock while they sleep. *)
Theorem pipe_bounded pi addr n w i c k :
  pipes_ok k -> held c = [] -> cpu_proc c = Some i ->
  safe pipes_ok any (fun _ => outpipe i) (pipewrite pi addr n c k) /\
  safe pipes_ok any (fun _ => outpipe i) (piperead pi addr n c k) /\
  safe pipes_ok any (fun _ => outpipe i) (pipeclose pi w c k).
Proof.
  intros Hk Hh Hi. assert (Ho : outpipe i c k) by done. repeat split.
  - eapply acquire_inpipe; [exact Ho|]. clear c Hh Hi Ho. intros c Hin. eapply safe_bind; [by apply pipewrite_loop_safe|].
    intros [r|r] c1 k1 H1; [done|]. eapply wakeup_inpipe; [exact H1|]. intros c2 k2 H2. eapply release_inpipe; [exact H2|]. done.
  - eapply acquire_inpipe; [exact Ho|]. clear c Hh Hi Ho. intros c Hin. eapply safe_bind; [by apply piperead_wait_safe|].
    intros [] c1 k1 H1; [|done]. eapply safe_bind; [by apply piperead_loop_safe|]. cbn beta. intros r c2 k2 H2.
    eapply wakeup_inpipe; [exact H2|]. intros c3 k3 H3. eapply release_inpipe; [exact H3|]. done.
  - eapply acquire_inpipe; [exact Ho|]. clear c Hh Hi Ho. intros c Hin.
    eapply safe_bind with (Q := fun _ => inpipe pi i).
    { destruct w; (eapply modpipe_inpipe; [exact Hin|by intros p _ []|]); clear k Hk Hin; intros k Hin;
        by apply wakeup_pipe. }
    clear c k Hk Hin. intros _ c k Hin. apply getpipe_safe. intros p Hp. destruct (_ && _).
    + eapply release_inpipe; [exact Hin|]. intros. by apply free_pipe_safe.
    + by destruct (release_pipe _ _ _ _ Hin) as (c'&->&?).
Qed.
End Safe.

(** ** First in, first out *)

Section Fifo.
Context {LK : Linker} {LKO : LinkerOk} `{Fu : Fuel}.
Context (a : alloc_spec) (t : ptree) (f : Z -> Z) (sz : Z) (i : nat).
Abbreviation uproc := (uproc a t f sz i).
Abbreviation ureads := (ureads f sz).
Abbreviation uwrites := (uwrites f sz).
Abbreviation copied_byte := (copied_byte f).

Lemma pipewrite_loop_room pi addr n m fl j p c k :
  uproc k -> cpu_proc c = Some i -> held c = [LPipe pi] -> pipes k !! pi = Some p -> pipe_ok p -> pi_readopen p = true ->
  n = j + Z.of_nat m -> (m < fl)%nat -> plen p + Z.of_nat m <= PIPESIZE -> 0 <= j -> 0 <= addr -> ureads (addr + j) m ->
  exists p', pipewrite_loop fl pi addr n j c k = Done (inr n) c (k <| pipes ::= <[pi := p']> |>) /\ pipe_ok p' /\
    contents p' = contents p ++ ubytes (mem k) f (addr + j) m /\ pi_readopen p' = true /\ pi_writeopen p' = pi_writeopen p.
Proof.
  intros Hup Hi Hh. revert fl j p k Hup. induction m as [|m IH]; intros fl j p k Hup Hp Hok Hro -> Hfl Hroom Hj Ha Hu.
  - destruct fl as [|fl]; [lia|]. cbn [pipewrite_loop]. destruct (Z.ltb_spec j (j + Z.of_nat 0)); [lia|].
    exists p. rewrite Z.add_0_r. split; [|by rewrite app_nil_r]. unfold ret. f_equal. kred. rewrite insert_id by done. by destruct k.
  - destruct fl as [|fl]; [lia|]. cbn [pipewrite_loop]. destruct (Z.ltb_spec j (j + Z.of_nat (S m))); [|lia].
    destruct (up_proc _ _ _ _ _ _ Hup) as (q & Hq & Hpt & Hkl).
    assert (Hul : LProc i ∉ held c) by (rewrite Hh; by intros ?%list_elem_of_singleton).
    erewrite bind_done by (by apply curproc_done). erewrite bind_done by (by apply getpipe_done). rewrite Hro. cbn [negb].
    erewrite bind_done by (erewrite bind_done by (by apply killed_done); by rewrite Hkl). cbn [negb Z.eqb].
    rewrite pipe_full by done. destruct (Z.eqb_spec (plen p) PIPESIZE); [lia|]. erewrite bind_done by (by apply getproc_done). rewrite Hpt.
    pose proof (ureads_cons _ _ _ _ Hu) as [Hu0 Hu1]. assert (Hmax : sz <= 2 ^ 38) by exact (up_sz _ _ _ _ _ _ Hup).
    erewrite bind_done; [|rewrite u64_small by (destruct Hu; lia); apply (read_byte a t f sz i); [done|]; repeat split; [destruct Hu; lia..|];
      intros v Hv; replace v with (addr + j) by lia; done].
    cbn [Z.eqb]. erewrite bind_done by (by apply (modpipe_done pi _ p)). cbn [nthd nth_default].
    change (_ <| pi_nwrite ::= _ |>) with (push (ubyte (mem k) f (addr + j)) p).
    set (k1 := k <| pipes ::= _ |>).
    destruct (IH fl (j + 1) (push (ubyte (mem k) f (addr + j)) p) k1) as (p' & E & Hok' & Ec & Hro' & Hwo').
    + apply uproc_pipes, Hup.
    + apply lookup_insert_eq.
    + apply push_ok; [done|lia].
    + done.
    + lia.
    + lia.
    + rewrite plen_push by (done || lia). lia.
    + lia.
    + done.
    + by replace (addr + (j + 1)) with (addr + j + 1) by lia.
    + exists p'. split; [|split; [done|split; [|done]]].
      * rewrite E. unfold k1. f_equal. kred. by rewrite insert_insert_eq.
      * rewrite Ec, contents_push by (done || lia). rewrite <- app_assoc. f_equal. change (S m) with (1 + m)%nat. rewrite ubytes_app.
        unfold ubytes at 2. cbn [seq fmap list_fmap]. rewrite Z.add_0_r. cbn [app]. do 2 f_equal. lia.
Qed.

Lemma piperead_loop_ok pi addr m j p c k :
  uproc k -> cpu_proc c = Some i -> pipes k !! pi = Some p -> pipe_ok p -> 0 <= j -> 0 <= addr ->
  let bs := take m (contents p) in
  uwrites (addr + j) (length bs) ->
  exists k' p', piperead_loop m pi addr j c k = Done (j + Z.of_nat (length bs)) c k' /\ uproc k' /\ pipes k' !! pi = Some p' /\ pipe_ok p' /\
    contents p' = drop m (contents p) /\
    forall v, 0 <= v < sz -> flag (f v) PTE_V = true -> ubyte (mem k') f v = copied_byte bs (addr + j) k v.
Proof.
  intros Hup Hi. revert j p k Hup. induction m as [|m IH]; intros j p k Hup Hp Hok Hj Ha bs Hu.
  - exists k, p. split; [cbn; by rewrite Z.add_0_r|]. split_and!; try done. intros v _ _. unfold bs. by rewrite take_0, copied_byte_nil.
  - cbn [piperead_loop]. erewrite bind_done by (by apply getpipe_done). rewrite pipe_empty by done.
    pose proof (length_contents p) as Hlen. destruct (Z.eqb_spec (plen p) 0) as [E0|Hne].
    + exists k, p. assert (En : contents p = []) by (apply length_zero_iff_nil; lia). unfold bs. rewrite En, take_nil, drop_nil. cbn [length].
      rewrite Z.add_0_r. split_and!; try done. intros v _ _. by rewrite copied_byte_nil.
    + assert (Hpos : 0 < plen p) by lia. pose proof (contents_pop p Hok Hpos) as Ec.
      set (b := nthd 0 (pi_data p) (pi_nread p mod PIPESIZE)) in *.
      assert (Ebs : bs = b :: take m (contents (pop p))) by (unfold bs; by rewrite Ec). clearbody bs. subst bs.
      destruct Hu as [(Hu1&Hu2&Hr) Hw]. cbn [length] in Hu2, Hr, Hw.
      assert (Hmax : sz <= 2 ^ 38) by exact (up_sz _ _ _ _ _ _ Hup).
      destruct (up_proc _ _ _ _ _ _ Hup) as (q & Hq & Hpt & Hkl). erewrite bind_done by (by apply curproc_done).
      erewrite bind_done by (by apply getproc_done). rewrite Hpt, u64_small by lia.
      destruct (write_byte a t f sz i k (addr + j) b c Hup) as (k1 & E1 & Hup1 & Ep1%vmrest_pipes & Hb1).
      { repeat split; [lia..|intros v Hv; apply Hr; lia|intros v Hv; apply Hw; lia]. }
      erewrite bind_done by exact E1. cbn [Z.eqb]. erewrite bind_done by (apply (modpipe_done pi _ p); by rewrite Ep1).
      change (p <| pi_nread ::= _ |>) with (pop p). set (k2 := k1 <| pipes ::= _ |>).
      destruct (IH (j + 1) (pop p) k2) as (k' & p' & E & Hup' & Hp' & Hok' & Ec' & Hb').
      * apply uproc_pipes, Hup1.
      * apply lookup_insert_eq.
      * by apply pop_ok.
      * lia.
      * done.
      * repeat split; [lia..|intros v Hv; apply Hr; lia|intros v Hv; apply Hw; lia].
      * exists k', p'. split; [rewrite E; f_equal; cbn [length]; lia|]. split_and!; try done; [by rewrite Ec', Ec|].
        intros v Hv HV. rewrite Hb' by done. replace (addr + (j + 1)) with (addr + j + 1) by lia. by apply copied_byte_cons, Hb1.
Qed.

Lemma pipewrite_ok src n pi p c k :
  uproc k -> cpu_proc c = Some i -> held c = [] -> pipes k !! pi = Some p -> pipe_ok p -> pi_readopen p = true ->
  plen p + Z.of_nat n <= PIPESIZE -> ureads src n ->
  exists k' p', pipewrite pi src (Z.of_nat n) c k = Done (Z.of_nat n) c k' /\ uproc k' /\ mem k' = mem k /\ pipes k' !! pi = Some p' /\ pipe_ok p' /\
    contents p' = contents p ++ ubytes (mem k) f src n.
Proof.
  intros Hup Hi Hh Hp Hok Hro Hroom Hr. assert (Hl : LPipe pi ∉ held c) by (rewrite Hh; apply not_elem_of_nil).
  unfold pipewrite. erewrite bind_done by (by apply acquire_ok).
  destruct (pipewrite_loop_room pi src (Z.of_nat n) n (S (Z.to_nat (Z.of_nat n)) + fuel) 0 p (c <| held := LPipe pi :: held c |>) k)
    as (p'&E&Hok'&Ec&_&_); try done; try lia; [by rewrite Hh|destruct Hr; lia|by rewrite Z.add_0_r|].
  erewrite bind_done by exact E. cbv beta iota. assert (Hup1 := uproc_pipes _ _ _ _ _ k (<[pi := p']> (pipes k)) Hup).
  erewrite bind_done by (apply wakeup_ok; [intros j; kred; rewrite Hh; by intros ?%list_elem_of_singleton|apply Hup]).
  change (cpu_proc (c <| held := _ |>)) with (cpu_proc c). rewrite Hi. erewrite bind_done by (by apply release_ok). eexists _, p'. split; [done|].
  split; [exact (uproc_wakeup _ _ _ _ _ _ _ Hup1)|]. kred. rewrite lookup_insert_eq. by rewrite Z.add_0_r in Ec.
Qed.

Lemma piperead_ok dst m pi p c k :
  uproc k -> cpu_proc c = Some i -> held c = [] -> pipes k !! pi = Some p -> pipe_ok p -> contents p <> [] ->
  let bs := take m (contents p) in uwrites dst (length bs) ->
  exists k' p', piperead pi dst (Z.of_nat m) c k = Done (Z.of_nat (length bs)) c k' /\ uproc k' /\ pipes k' !! pi = Some p' /\ pipe_ok p' /\
    contents p' = drop m (contents p) /\
    forall v, 0 <= v < sz -> flag (f v) PTE_V = true -> ubyte (mem k') f v = copied_byte bs dst k v.
Proof.
  intros Hup Hi Hh Hp Hok Hne bs Hw. assert (Hl : LPipe pi ∉ held c) by (rewrite Hh; apply not_elem_of_nil).
  unfold piperead. erewrite bind_done by (by apply acquire_ok). pose proof (length_contents p) as Hlen.
  assert (Hpos : plen p <> 0) by (intros E0; apply Hne, length_zero_iff_nil; lia).
  erewrite bind_done; [|cbn [piperead_wait]; erewrite bind_done by (by apply getpipe_done); rewrite pipe_empty by done;
    destruct (Z.eqb_spec (plen p) 0); [done|]; done].
  cbn [negb]. rewrite Nat2Z.id.
  destruct (piperead_loop_ok pi dst m 0 p (c <| held := LPipe pi :: held c |>) k) as (k'&p'&E&Hup'&Hp'&Hok'&Ec&Hb); try done.
  { destruct Hw as [[] _]. done. }
  { by rewrite Z.add_0_r. }
  erewrite bind_done by exact E.
  erewrite bind_done by (apply wakeup_ok; [intros j; kred; rewrite Hh; by intros ?%list_elem_of_singleton|apply Hup']).
  change (cpu_proc (c <| held := _ |>)) with (cpu_proc c). rewrite Hi. erewrite bind_done by (by apply release_ok). eexists _, p'. split; [done|].
  split; [exact (uproc_wakeup _ _ _ _ _ _ _ Hup')|]. rewrite Z.add_0_r in Hb. done.
Qed.

(** C30. A pipe is a first-in first-out queue of bytes.  When there is room for [n] bytes and the
    read end is open, [pipewrite] of [n] bytes of user memory returns [n]; a [piperead] of up to
    [m] bytes after it returns the [m] oldest bytes of the queue that now ends with the bytes
    written (all of them, if there are fewer), puts them at [dst] in this order and changes no
    other byte of the process's memory, and the pipe holds the rest. *)
Theorem pipe_fifo src n dst m pi p c k :
  uproc k -> cpu_proc c = Some i -> held c = [] -> pipes k !! pi = Some p -> pipe_ok p -> pi_readopen p = true ->
  Forall (fun b => 0 <= b < 2 ^ 8) (contents p) -> plen p + Z.of_nat n <= PIPESIZE -> ureads src n ->
  let q := contents p ++ ubytes (mem k) f src n in
  q <> [] -> uwrites dst (length (take m q)) ->
  exists k1 k2 p2, pipewrite pi src (Z.of_nat n) c k = Done (Z.of_nat n) c k1 /\
    piperead pi dst (Z.of_nat m) c k1 = Done (Z.of_nat (length (take m q))) c k2 /\
    ubytes (mem k2) f dst (length (take m q)) = take m q /\
    (forall v, 0 <= v < sz -> flag (f v) PTE_V = true -> ~ (dst <= v < dst + Z.of_nat (length (take m q))) ->
      ubyte (mem k2) f v = ubyte (mem k) f v) /\
    pipes k2 !! pi = Some p2 /\ contents p2 = drop m q /\ pipe_ok p2.
Proof.
  intros Hup Hi Hh Hp Hok Hro Hby Hroom Hr q Hq Hw.
  destruct (pipewrite_ok src n pi p c k) as (k1&p1&E1&Hup1&Em&Hp1&Hok1&Ec1); try done.
  destruct (piperead_ok dst m pi p1 c k1) as (k2&p2&E2&Hup2&Hp2&Hok2&Ec2&Hb); try done; [by rewrite Ec1..|].
  fold q in Ec1. rewrite Ec1 in *. exists k1, k2, p2. split_and!; try done.
  - apply (copied_bytes f sz _ _ k1); try done. apply Forall_take, Forall_app. split; [done|].
    apply Forall_fmap, Forall_true. intros y. apply (rep_mem _ _ (vo_rep _ _ _ (up_vm _ _ _ _ _ _ Hup))).
  - intros v Hv HV Hn. rewrite Hb by done. unfold UserProc.copied_byte. rewrite decide_False by done. by rewrite Em.
Qed.
End Fifo.

(** ** A pipe whose counters are about to wrap around *)

Module PipeDemo.
#[local] Existing Instance small_linker.
#[local] Existing Instance small_linker_ok.

(** It holds the byte 120; the writer's counter is 2^32 - 1. *)
Definition ring : pipe := mkpipe (replicate 510 0 ++ [120; 0]) (2 ^ 32 - 2) (2 ^ 32 - 1) true true.
Definition kpipe : kernel := wkernel <| pipes := {[wpage 11 := ring]} |>.

#[local] Instance pipe_fuel : Fuel := 3%nat.

Lemma ring_ok : pipe_ok ring.
Proof. by split; vm_compute. Qed.

Lemma pipe_bounded_witness :
  safe pipes_ok (fun _ => True) (fun _ => outpipe 0) (pipewrite (wpage 11) 0 2 wcpu kpipe).
Proof.
  assert (Hk : pipes_ok kpipe) by (apply map_Forall_singleton, ring_ok).
  exact (proj1 (pipe_bounded (wpage 11) 0 2 true 0 wcpu kpipe Hk eq_refl eq_refl)).
Defined.

Lemma kpipe_user : uproc walloc wtree wfun PGSIZE 0 kpipe.
Proof.
  apply uproc_pipes. split; [exact wtree_ok|exact wtree_is|apply wtree_um|lia| |vm_compute; reflexivity].
  eexists. split; [vm_compute; reflexivity|]. split; reflexivity.
Qed.

Lemma wfun_user v : 0 <= v < PGSIZE -> user_ok wfun v = true /\ flag (wfun v) PTE_W = true.
Proof. intros Hv. unfold user_ok, wfun. destruct (Z.ltb_spec v PGSIZE); [|lia]. by vm_compute. Qed.

Lemma kpipe_queue : contents ring ++ ubytes (mem kpipe) wfun 0 2 = [120; 104; 105].
Proof. by vm_compute. Qed.

Lemma pipe_fifo_witness :
  exists k1 k2, pipewrite (wpage 11) 0 2 wcpu kpipe = Done 2 wcpu k1 /\
    piperead (wpage 11) 100 10 wcpu k1 = Done 3 wcpu k2 /\ ubytes (mem k2) wfun 100 3 = [120; 104; 105].
Proof.
  pose proof (pipe_fifo walloc wtree wfun PGSIZE 0 0 2 100 10 (wpage 11) ring wcpu kpipe kpipe_user eq_refl eq_refl) as T.
  cbv zeta in T. rewrite kpipe_queue in T.
  destruct T as (k1&k2&p2&E1&E2&E3&_).
  - apply lookup_insert_eq.
  - apply ring_ok.
  - done.
  - by vm_compute; repeat constructor.
  - by vm_compute.
  - split; [lia|]. split; [lia|]. intros v Hv. apply wfun_user. lia.
  - done.
  - split; [split; [lia|split; [cbn; lia|]]|]; intros v Hv; apply wfun_user; cbn in Hv; lia.
  - exists k1, k2. split; [exact E1|]. split; [exact E2|exact E3].
Defined.
End PipeDemo.
