(* ===== verification/Console.v ===== *)
(** * The console and its UART: [console.c] and [uart.c]

    The UART is a device that takes bytes ([uart], what it has been sent) and
    gives the bytes typed ([uart_rx], what waits in it).  [consputc] and
    [uartputc_sync] are in Printf.v.  [procdump] of [proc.c] is here because
    control-p calls it. *)

From S2P Require Import Prelude Riscv CString Kernel Printf Kalloc Vm Args Sched.
From stdpp Require Import base numbers strings gmap list.
From Stdlib Require Import ZArith Lia.

#[local] Open Scope Z_scope.
#[local] Open Scope kernel_scope.

Abbreviation INPUT_BUF_SIZE := 128%Z (only parsing).

(** [C(x)]: control-x. *)
Definition C (x : string) : Z := chr x - chr "@".

Definition modcons (f : cons_t -> cons_t) : M unit := modify (fun k => k <| console ::= f |>).
Definition moddevs (f : dev_t -> dev_t) : M unit := modify (fun k => k <| devs ::= f |>).

(** [WriteReg(reg, v)] for the registers that set up the device. *)
Definition WriteReg (reg v : Z) : M unit := moddevs (fun d => d <| mmio_out ::= cons (UART0 + reg, v) |>).

Abbreviation IER := 1%Z (only parsing).
Abbreviation FCR := 2%Z (only parsing).
Abbreviation LCR := 3%Z (only parsing).

Definition uartinit : M unit :=
  WriteReg IER 0x00 ;;
  WriteReg LCR (Z.shiftl 1 7) ;;
  WriteReg 0 0x03 ;;
  WriteReg 1 0x00 ;;
  WriteReg LCR (Z.shiftl 3 0) ;;
  WriteReg FCR (Z.lor (Z.shiftl 1 0) (Z.shiftl 3 1)) ;;
  WriteReg IER (Z.lor (Z.shiftl 1 1) (Z.shiftl 1 0)) ;;
  initlock LTx.

(** [-1] when no byte waits. *)
Definition uartgetc : M Z :=
  d <- gets devs ;;
  match uart_rx d with
  | c :: rest => moddevs (fun d => d <| uart_rx := rest |>) ;; ret c
  | [] => ret (-1)
  end.

(** ** The process listing *)

Definition state_name (s : procstate) : string :=
  match s with
  | UNUSED => "unused" | USED => "used" | SLEEPING => "sleep " | RUNNABLE => "runble" | RUNNING => "run   "
  | ZOMBIE => "zombie"
  end.

(** A byte array as the string it holds. *)
Definition as_str (a : list Z) : list Z := cstr (length a) (nthd 0 a).

Fixpoint procdump_loop (n i : nat) : M unit :=
  match n with
  | O => ret tt
  | S n =>
      p <- getproc i ;;
      (if decide (p_state p = UNUSED) then ret tt else
       printf "%d %s %s" [VInt (p_pid p); VStr (Some (str (state_name (p_state p)))); VStr (Some (as_str (p_name p)))] ;;
       printf nl []) ;;
      procdump_loop n (S i)
  end.

Definition procdump : M unit :=
  printf nl [] ;;
  procdump_loop 64 0.

(** ** Input *)

(** [while(cons.e != cons.w && cons.buf[(cons.e-1) % INPUT_BUF_SIZE] != '\n')];
    at most the buffer's size rounds. *)
Fixpoint kill_line (fl : nat) : M unit :=
  match fl with
  | O => stuck "kill line"
  | S fl =>
      cn <- gets console ;;
      if negb (cn_e cn =? cn_w cn) && negb (nthd 0 (cn_buf cn) (u32 (cn_e cn - 1) mod INPUT_BUF_SIZE) =? 10) then
        modcons (fun cn => cn <| cn_e ::= fun e => u32 (e - 1) |>) ;;
        consputc BACKSPACE ;;
        kill_line fl
      else ret tt
  end.

Definition consoleintr (c : Z) : M unit :=
  acquire LCons ;;
  (if c =? C "P" then procdump
   else if c =? C "U" then kill_line 129
   else if (c =? C "H") || (c =? 0x7f) then
     cn <- gets console ;;
     if negb (cn_e cn =? cn_w cn) then
       modcons (fun cn => cn <| cn_e ::= fun e => u32 (e - 1) |>) ;;
       consputc BACKSPACE
     else ret tt
   else
     cn <- gets console ;;
     if negb (c =? 0) && (u32 (cn_e cn - cn_r cn) <? INPUT_BUF_SIZE) then
       let c := if c =? 13 then 10 else c in
       consputc c ;;
       modcons (fun cn => cn <| cn_buf ::= fun b => setz b (cn_e cn mod INPUT_BUF_SIZE) (u8 c) |>
                             <| cn_e ::= fun e => u32 (e + 1) |>) ;;
       cn <- gets console ;;
       if (c =? 10) || (c =? C "D") || (u32 (cn_e cn - cn_r cn) =? INPUT_BUF_SIZE) then
         modcons (fun cn => cn <| cn_w := cn_e cn |>) ;;
         wakeup CConsR
       else ret tt
     else ret tt) ;;
  release LCons.

Fixpoint uartintr_loop (fl : nat) : M unit :=
  match fl with
  | O => stuck "uartintr"
  | S fl =>
      c <- uartgetc ;;
      if c =? -1 then ret tt else
      consoleintr c ;;
      uartintr_loop fl
  end.

Definition uartintr : M unit :=
  acquire LTx ;;
  d <- gets devs ;;
  (if uart_txidle d then
     modify (fun k => k <| tx_busy := false |>) ;;
     wakeup CTx
   else ret tt) ;;
  release LTx ;;
  d <- gets devs ;;
  uartintr_loop (S (length (uart_rx d))).

Definition consoleinit : M unit :=
  initlock LCons ;;
  uartinit ;;
  modify (fun k => k <| devsw ::= alter (fun d => d <| dv_read := Some Console |>) 1%nat |>) ;;
  modify (fun k => k <| devsw ::= alter (fun d => d <| dv_write := Some Console |>) 1%nat |>).

Section Operations.
Context {LK : Linker} `{Fuel}.

(** ** Output *)

Fixpoint uart_wait (fl : nat) : M unit :=
  match fl with
  | O => stuck "uartwrite"
  | S fl =>
      busy <- gets tx_busy ;;
      if (busy : bool) then
        sleep CTx LTx ;;
        uart_wait fl
      else ret tt
  end.

Fixpoint uartwrite_loop (buf : list Z) : M unit :=
  match buf with
  | [] => ret tt
  | c :: buf =>
      uart_wait (S fuel) ;;
      modify (fun k => k <| uart ::= fun o => o ++ [u8 c] |>) ;;
      modify (fun k => k <| tx_busy := true |>) ;;
      uartwrite_loop buf
  end.

Definition uartwrite (buf : list Z) : M unit :=
  acquire LTx ;;
  uartwrite_loop buf ;;
  release LTx.

(** [src] is a user address when the file is written through [write]. *)
Definition src_at (src : iosrc) (i : Z) : iosrc :=
  match src with
  | FromUser va => FromUser (u64 (va + i)) | FromPhys pa => FromPhys (pa + i)
  | FromLocal bs => FromLocal (drop (Z.to_nat i) bs)
  end.

(** [while(i < n)], 32 bytes a round. *)
Fixpoint consolewrite_loop (fl : nat) (src : iosrc) (n i : Z) : M Z :=
  match fl with
  | O => stuck "consolewrite"
  | S fl =>
      if i <? n then
        let nn := if 32 >? n - i then n - i else 32 in
        '(r, buf) <- either_copyin (src_at src i) nn ;;
        if r =? -1 then ret i else
        uartwrite buf ;;
        consolewrite_loop fl src n (i + nn)
      else ret i
  end.

Definition consolewrite (src : iosrc) (n : Z) : M Z := consolewrite_loop (Z.to_nat (n / 32 + 2)) src n 0.

(** [while(cons.r == cons.w)]; false: return -1. *)
Fixpoint cons_wait (fl : nat) : M bool :=
  match fl with
  | O => stuck "consoleread"
  | S fl =>
      cn <- gets console ;;
      if cn_r cn =? cn_w cn then
        me <- curproc ;;
        x <- killed me ;;
        if negb (x =? 0) then
          release LCons ;;
          ret false
        else
          sleep CConsR LCons ;;
          cons_wait fl
      else ret true
  end.

(** [while(n > 0)], [m] rounds left; [inl] is an early [return], [inr n] the
    bytes still wanted at the end. *)
Fixpoint consoleread_loop (m : nat) (dst : iodst) (n target : Z) : M (Z + Z) :=
  match m with
  | O => ret (inr n)
  | S m =>
      ok <- cons_wait (S fuel) ;;
      if negb ok then ret (inl (-1)) else
      cn <- gets console ;;
      let c := nthd 0 (cn_buf cn) (cn_r cn mod INPUT_BUF_SIZE) in
      modcons (fun cn => cn <| cn_r ::= fun r => u32 (r + 1) |>) ;;
      if c =? C "D" then
        (if n <? target then modcons (fun cn => cn <| cn_r ::= fun r => u32 (r - 1) |>) else ret tt) ;;
        ret (inr n)
      else
        r <- either_copyout dst [c] 1 ;;
        if r =? -1 then ret (inr n) else
        if c =? 10 then ret (inr (n - 1)) else
        consoleread_loop m
          (match dst with ToUser va => ToUser (u64 (va + 1)) | ToPhys pa => ToPhys (pa + 1) | ToLocal => ToLocal end)
          (n - 1) target
  end.

Definition consoleread (dst : iodst) (n : Z) : M Z :=
  acquire LCons ;;
  r <- consoleread_loop (Z.to_nat n) dst n (u32 n) ;;
  match r with
  | inl r => ret r
  | inr n' =>
      release LCons ;;
      ret (i32 (u32 n - n'))
  end.

End Operations.
