(* ===== verification/ConsoleLine.v ===== *)
(** * The console's line editor

    The console keeps its input in a ring of 128 bytes: up to [cons.w] the lines
    that were entered, up to [cons.e] the line being edited.  [editor] is the
    pair of byte lists this stands for; typing is a function on it, and so is
    reading a line. *)

From S2P Require Import Prelude Ring Riscv CString Kernel Printf Kalloc Vm Frame UserMem UserMemEx Args Sched UserProc Console.
From stdpp Require Import base numbers strings gmap list.
From Stdlib Require Import ZArith Lia.

#[local] Open Scope Z_scope.
#[local] Open Scope kernel_scope.

(** ** The abstract editor *)

(** What was entered and not yet read, and the line being typed. *)
Record editor := mkeditor { ed_ready : list Z; ed_line : list Z }.

Definition ed_size (s : editor) : Z := Z.of_nat (length (ed_ready s)) + Z.of_nat (length (ed_line s)).

(** The effect of typing byte [c]. *)
Definition edit (s : editor) (c : Z) : editor :=
  if c =? C "P" then s
  else if c =? C "U" then mkeditor (ed_ready s) []
  else if (c =? C "H") || (c =? 0x7f) then mkeditor (ed_ready s) (removelast (ed_line s))
  else if (c =? 0) || (INPUT_BUF_SIZE <=? ed_size s) then s
  else
    let c := if c =? 13 then 10 else c in
    let l := ed_line s ++ [c] in
    if (c =? 10) || (c =? C "D") || (ed_size s + 1 =? INPUT_BUF_SIZE) then mkeditor (ed_ready s ++ l) [] else mkeditor (ed_ready s) l.

(** What [read] of [n] bytes takes from the entered lines: up to a newline, [n]
    bytes, or control-D, which stays in the queue unless it comes first;
    [None] when the queue runs out before that, and the reader waits. *)
Fixpoint read_line (n : nat) (ready : list Z) (first : bool) : option (list Z * list Z) :=
  match n with
  | O => Some ([], ready)
  | S n =>
      match ready with
      | [] => None
      | c :: r =>
          if c =? C "D" then Some ([], if first then r else ready)
          else if c =? 10 then Some ([c], r)
          else '(l, rest) ← read_line n r false; Some (c :: l, rest)
      end
  end.

(** ** The ring *)

Record ring_view (s : editor) (cn : cons_t) : Prop := {
  cv_buf : length (cn_buf cn) = 128%nat;
  cv_r : u32_ok (cn_r cn);
  cv_w : u32_ok (cn_w cn);
  cv_e : u32_ok (cn_e cn);
  cv_sum : rlen (cn_r cn) (cn_w cn) + rlen (cn_w cn) (cn_e cn) = rlen (cn_r cn) (cn_e cn);
  cv_max : rlen (cn_r cn) (cn_e cn) <= INPUT_BUF_SIZE;
  cv_ready : ed_ready s = seg INPUT_BUF_SIZE (cn_buf cn) (cn_r cn) (cn_w cn);
  cv_line : ed_line s = seg INPUT_BUF_SIZE (cn_buf cn) (cn_w cn) (cn_e cn)
}.

(** The console holds [s]; a line that has its newline is not edited any more. *)
Definition cons_view (s : editor) (cn : cons_t) : Prop := ring_view s cn /\ Forall (fun c => c <> 10) (ed_line s).

Lemma view_size s cn : ring_view s cn -> ed_size s = rlen (cn_r cn) (cn_e cn).
Proof. intros [_ _ _ _ E _ Er El]. unfold ed_size. rewrite Er, El, !length_seg. done. Qed.

Lemma view_empty s cn : ring_view s cn -> (cn_e cn =? cn_w cn) = bool_decide (ed_line s = []).
Proof.
  intros [_ _ Hw He _ _ _ El]. rewrite El, Z.eqb_sym, rlen_eq by done. case_bool_decide as E.
  - apply (f_equal length) in E. pose proof (length_seg INPUT_BUF_SIZE (cn_buf cn) (cn_w cn) (cn_e cn)) as Hl. rewrite E in Hl.
    by rewrite <- Hl.
  - destruct (Z.eqb_spec (rlen (cn_w cn) (cn_e cn)) 0) as [E0|]; [|done]. by rewrite seg_nil in E.
Qed.

(** One byte of the line is taken back. *)
Definition unpush (cn : cons_t) : cons_t := cn <| cn_e ::= fun e => u32 (e - 1) |>.
(** [cons.buf[cons.e++ % INPUT_BUF_SIZE] = c] *)
Definition cpush (c : Z) (cn : cons_t) : cons_t :=
  cn <| cn_buf ::= fun b => setz b (cn_e cn mod INPUT_BUF_SIZE) c |> <| cn_e ::= fun e => u32 (e + 1) |>.
(** [cons.w = cons.e] *)
Definition enter (cn : cons_t) : cons_t := cn <| cn_w := cn_e cn |>.

Lemma view_unpush ready l x cn : ring_view (mkeditor ready (l ++ [x])) cn ->
  ring_view (mkeditor ready l) (unpush cn) /\ nthd 0 (cn_buf cn) (u32 (cn_e cn - 1) mod INPUT_BUF_SIZE) = x.
Proof.
  intros [Hb Hr Hw He Es Hm Er El]. cbn in *.
  assert (Hp : 0 < rlen (cn_w cn) (cn_e cn)).
  { rewrite <- (length_seg INPUT_BUF_SIZE (cn_buf cn)), <- El, length_app. cbn. lia. }
  pose proof (rlen_range (cn_r cn) (cn_w cn)). pose proof (seg_unpush INPUT_BUF_SIZE ltac:(lia) divide_128 (cn_buf cn) _ _ Hw He Hp) as E.
  rewrite <- El in E. apply app_inj_tail in E as [E1 E2]. split; [|done].
  assert (Ew : rlen (cn_w cn) (u32 (cn_e cn - 1)) = rlen (cn_w cn) (cn_e cn) - 1) by (by apply rlen_unpush).
  assert (Ee : rlen (cn_r cn) (u32 (cn_e cn - 1)) = rlen (cn_r cn) (cn_e cn) - 1) by (apply rlen_unpush; try done; lia).
  split; cbn; try done; [apply u32_range|lia..].
Qed.

Lemma view_push ready l c cn : ring_view (mkeditor ready l) cn -> rlen (cn_r cn) (cn_e cn) < INPUT_BUF_SIZE ->
  ring_view (mkeditor ready (l ++ [c])) (cpush c cn).
Proof.
  intros [Hb Hr Hw He Es Hm Er El] Hlt. cbn in *.
  pose proof (rlen_range (cn_r cn) (cn_w cn)). pose proof (rlen_range (cn_w cn) (cn_e cn)).
  assert (Ew : rlen (cn_w cn) (u32 (cn_e cn + 1)) = rlen (cn_w cn) (cn_e cn) + 1) by (apply rlen_push; try done; lia).
  assert (Ee : rlen (cn_r cn) (u32 (cn_e cn + 1)) = rlen (cn_r cn) (cn_e cn) + 1) by (apply rlen_push; try done; lia).
  assert (Hbz : Z.of_nat (length (cn_buf cn)) = INPUT_BUF_SIZE) by lia.
  assert (S1 : forall lo, u32_ok lo -> rlen lo (cn_e cn) < INPUT_BUF_SIZE ->
    seg INPUT_BUF_SIZE (setz (cn_buf cn) (cn_e cn mod INPUT_BUF_SIZE) c) lo (u32 (cn_e cn + 1)) = seg INPUT_BUF_SIZE (cn_buf cn) lo (cn_e cn) ++ [c]).
  { intros lo Hlo Hrl. apply seg_push; try done. apply divide_128. }
  split; cbn; try done.
  - by rewrite length_setz.
  - apply u32_range.
  - lia.
  - lia.
  - pose proof (S1 _ Hr Hlt) as E. rewrite (seg_app INPUT_BUF_SIZE ltac:(lia) divide_128 _ _ (cn_w cn)) in E by (done || lia).
    rewrite (seg_app INPUT_BUF_SIZE ltac:(lia) divide_128 (cn_buf cn) _ (cn_w cn)) in E by (done || lia). rewrite S1 in E by (done || lia).
    rewrite <- app_assoc in E. apply app_inv_tail in E. by rewrite E.
  - rewrite S1 by (done || lia). by rewrite El.
Qed.

Lemma view_enter ready l cn : ring_view (mkeditor ready l) cn -> cons_view (mkeditor (ready ++ l) []) (enter cn).
Proof.
  intros [Hb Hr Hw He Es Hm Er El]. cbn in *. assert (E0 : rlen (cn_e cn) (cn_e cn) = 0) by (unfold rlen; by rewrite Z.sub_diag).
  split; [|done]. split; cbn; try done.
  - lia.
  - by rewrite Er, El, <- seg_app by (done || apply divide_128 || lia).
  - by rewrite seg_nil.
Qed.

(** ** Typing *)

(** All but the console, its output and the processes. *)
Definition cons_rest (k : kernel) : kernel := k <| console := mkcons [] 0 0 0 |> <| uart := [] |> <| procs := [] |>.

Lemma cons_rest_devs k k' : cons_rest k' = cons_rest k -> devs k' = devs k.
Proof. intros E. exact (f_equal devs E). Qed.

Lemma kill_line_ok ready l fl cp k :
  ring_view (mkeditor ready l) (console k) -> Forall (fun c => c <> 10) l -> (length l < fl)%nat ->
  exists k', kill_line fl cp k = Done tt cp k' /\ ring_view (mkeditor ready []) (console k') /\ cons_rest k' = cons_rest k /\ procs k' = procs k.
Proof.
  revert fl k. induction l as [|x l IH] using rev_ind; intros fl k Hv Hn Hfl; (destruct fl as [|fl]; [rewrite ?length_app in Hfl; cbn in Hfl; lia|]);
    cbn [kill_line]; (erewrite bind_done by done); rewrite (view_empty _ _ Hv).
  - rewrite bool_decide_true by done. by exists k.
  - cbn [ed_line]. rewrite bool_decide_false by (by intros [_ ?]%app_nil). destruct (view_unpush _ _ _ _ Hv) as [Hv' Ex]. rewrite Ex.
    apply Forall_app in Hn as [Hn Hx]. apply Forall_cons in Hx as [Hx _]. destruct (Z.eqb_spec x 10) as [E10|]; [by destruct (Hx E10)|]. cbn [negb andb].
    erewrite bind_done by done. erewrite bind_done by apply consputc_done. set (k1 := (k <| console ::= _ |>) <| uart ::= _ |>).
    destruct (IH fl k1) as (k'&E&Hk&Hr&Hp); [exact Hv'|done|rewrite length_app in Hfl; cbn in Hfl; lia|].
    exists k'. split; [done|]. split; [done|]. split; [exact Hr|exact Hp].
Qed.

Lemma procdump_ok cp k : LPr ∉ held cp -> length (procs k) = 64%nat -> exists o, procdump cp k = Done tt cp (k <| uart := o |>).
Proof.
  intros Hl Hn. unfold procdump. erewrite bind_done by (by eapply printf_done). set (k1 := k <| uart ::= _ |>).
  assert (Hg : forall n i k1, (i + n = 64)%nat -> procs k1 = procs k -> exists o, procdump_loop n i cp k1 = Done tt cp (k1 <| uart := o |>)).
  { clear k1. induction n as [|n IH]; intros i k1 Hi Hp; cbn [procdump_loop]; [exists (uart k1); by destruct k1|].
    destruct (lookup_lt_is_Some_2 (procs k1) i) as [p Ep]; [rewrite Hp; lia|]. erewrite bind_done by (by apply getproc_done).
    destruct (decide (p_state p = UNUSED)).
    - erewrite bind_done by done. apply IH; [lia|done].
    - erewrite bind_done by (erewrite bind_done by (eapply printf_done; [done|reflexivity]); eapply printf_done; [done|reflexivity]).
      match goal with |- context [procdump_loop n (S i) cp ?k2] => destruct (IH (S i) k2) as [o E]; [lia|exact Hp|exists o; exact E] end. }
  destruct (Hg 64%nat 0%nat k1) as [o E]; [done|done|]. exists o. exact E.
Qed.

(** The last case of the [switch]: a byte that is stored. *)
Lemma store_ok s c cp k :
  cons_view s (console k) -> held cp = [LCons] -> length (procs k) = 64%nat -> 0 <= c < 256 -> ed_size s < INPUT_BUF_SIZE ->
  let s' := let l := ed_line s ++ [c] in
    if (c =? 10) || (c =? C "D") || (ed_size s + 1 =? INPUT_BUF_SIZE) then mkeditor (ed_ready s ++ l) [] else mkeditor (ed_ready s) l in
  exists k', (consputc c ;;
     modcons (fun cn => cn <| cn_buf ::= fun b => setz b (cn_e cn mod INPUT_BUF_SIZE) (u8 c) |> <| cn_e ::= fun e => u32 (e + 1) |>) ;;
     cn <- gets console ;;
     if (c =? 10) || (c =? C "D") || (u32 (cn_e cn - cn_r cn) =? INPUT_BUF_SIZE) then
       modcons (fun cn => cn <| cn_w := cn_e cn |>) ;;
       wakeup CConsR
     else ret tt) cp k = Done tt cp k' /\ cons_view s' (console k') /\ cons_rest k' = cons_rest k /\ length (procs k') = 64%nat.
Proof.
  intros [Hv Hl] Hh Hn Hc Hsz. cbv zeta. erewrite bind_done by apply consputc_done. erewrite bind_done by done. erewrite bind_done by done.
  rewrite (view_size _ _ Hv) in *. rewrite u8_small by done. set (k1 := (k <| uart ::= _ |>) <| console ::= _ |>).
  destruct s as [ready l]. cbn [ed_ready ed_line] in *. assert (Hv1 := view_push ready l c _ Hv Hsz).
  change (console k1) with (cpush c (console k)).
  change (u32 (cn_e (cpush c (console k)) - cn_r (cpush c (console k)))) with (rlen (cn_r (console k)) (u32 (cn_e (console k) + 1))).
  rewrite (rlen_push (cn_r (console k)) (cn_e (console k))) by (apply Hv || lia).
  destruct ((c =? 10) || (c =? C "D") || (rlen (cn_r (console k)) (cn_e (console k)) + 1 =? INPUT_BUF_SIZE)) eqn:Ee.
  - erewrite bind_done by done. rewrite wakeup_ok; [|intros j; rewrite Hh; by intros ?%list_elem_of_singleton|done].
    eexists. split; [reflexivity|]. split; [exact (view_enter _ _ _ Hv1)|]. split; [reflexivity|]. kred. by rewrite length_imap.
  - exists k1. split; [done|]. split; [|done]. split; [exact Hv1|]. cbn [ed_line]. apply Forall_app. split; [done|].
    apply Forall_singleton. intros ->. discriminate.
Qed.

Lemma locked_done lk (m : M unit) (P : kernel -> Prop) cp k :
  lk ∉ held cp ->
  (exists k', m (cp <| held := lk :: held cp |>) k = Done tt (cp <| held := lk :: held cp |>) k' /\ P k') ->
  exists k', (acquire lk ;; m ;; release lk) cp k = Done tt cp k' /\ P k'.
Proof.
  intros Hl (k'&E&HP). exists k'. split; [|done]. erewrite bind_done by (by apply acquire_ok). erewrite bind_done by exact E. by apply release_ok.
Qed.

Lemma consoleintr_ok s c cp k :
  cons_view s (console k) -> held cp = [] -> length (procs k) = 64%nat -> 0 <= c < 256 ->
  exists k', consoleintr c cp k = Done tt cp k' /\ cons_view (edit s c) (console k') /\ cons_rest k' = cons_rest k /\ length (procs k') = 64%nat.
Proof.
  intros Hv Hh Hn Hc. unfold consoleintr. assert (Hlk : LCons ∉ held cp) by (rewrite Hh; apply not_elem_of_nil).
  apply locked_done; [done|]. set (cp1 := cp <| held := _ |>). assert (Hh1 : held cp1 = [LCons]) by (cbn; by rewrite Hh).
  unfold edit. destruct Hv as [Hv Hl]. destruct (c =? C "P").
  { destruct (procdump_ok cp1 k) as [o E]; [rewrite Hh1; by intros ?%list_elem_of_singleton|done|]. eexists. split; [exact E|]. done. }
  destruct (c =? C "U").
  { destruct s as [ready l]. assert (Hlen := view_size _ _ Hv). pose proof (cv_max _ _ Hv). unfold ed_size in Hlen. cbn in Hlen.
    destruct (kill_line_ok ready l 129 cp1 k Hv Hl) as (k'&E&Hk&Hr&Hp); [lia|]. exists k'. split; [done|]. split; [by split|]. split; [exact Hr|by rewrite Hp]. }
  destruct ((c =? C "H") || (c =? 127)).
  { erewrite bind_done by done. rewrite (view_empty _ _ Hv). destruct s as [ready l]. cbn [ed_line ed_ready] in *.
    destruct l as [|x l] using rev_ind; [rewrite bool_decide_true by done; by exists k|].
    rewrite bool_decide_false by (by intros [_ ?]%app_nil). cbn [negb]. erewrite bind_done by done. rewrite consputc_done.
    destruct (view_unpush _ _ _ _ Hv) as [Hv' _]. eexists. split; [reflexivity|]. rewrite removelast_last. split; [|done].
    split; [exact Hv'|]. by apply Forall_app in Hl as [Hl _]. }
  erewrite bind_done by done. change (u32 (cn_e (console k) - cn_r (console k))) with (rlen (cn_r (console k)) (cn_e (console k))).
  rewrite <- (view_size _ _ Hv), Z.ltb_antisym, <- negb_orb. destruct ((c =? 0) || (INPUT_BUF_SIZE <=? ed_size s)) eqn:Es; cbn [negb]; [by exists k|].
  apply orb_false_elim in Es as [_ Es%Z.leb_gt]. apply store_ok; try done. destruct (c =? 13); lia.
Qed.

(** Nothing waits in the UART. *)
Definition drained (k : kernel) : kernel := k <| devs ::= fun d => d <| uart_rx := [] |> |>.

(** Bytes typed one after the other. *)
Lemma uartintr_loop_ok fl s cp k :
  cons_view s (console k) -> held cp = [] -> length (procs k) = 64%nat -> Forall (fun c => 0 <= c < 256) (uart_rx (devs k)) ->
  (length (uart_rx (devs k)) < fl)%nat ->
  exists k', uartintr_loop fl cp k = Done tt cp k' /\ cons_view (foldl edit s (uart_rx (devs k))) (console k') /\
    cons_rest k' = cons_rest (drained k) /\ length (procs k') = 64%nat.
Proof.
  revert s k. induction fl as [|fl IH]; intros s k Hv Hh Hn Hr Hfl; [lia|]. cbn [uartintr_loop].
  destruct (uart_rx (devs k)) as [|c cs] eqn:Ec.
  - exists k. assert (E : uartgetc cp k = Done (-1) cp k) by (unfold uartgetc, gets, bind; cbn; by rewrite Ec).
    erewrite bind_done by exact E. split; [done|]. split; [done|]. split; [|done]. clear -Ec. destruct k, devs. cbn in Ec. by rewrite Ec.
  - apply Forall_cons in Hr as [Hc Hr]. set (k1 := k <| devs ::= fun d => d <| uart_rx := cs |> |>).
    assert (E : uartgetc cp k = Done c cp k1) by (unfold uartgetc, gets, bind; cbn; by rewrite Ec).
    erewrite bind_done by exact E. destruct (Z.eqb_spec c (-1)); [lia|].
    destruct (consoleintr_ok s c cp k1) as (k2&E2&Hv2&Hr2&Hn2); try done. erewrite bind_done by exact E2.
    assert (Ed : devs k2 = devs k1) by (by apply cons_rest_devs). assert (Ec2 : uart_rx (devs k2) = cs) by (by rewrite Ed).
    destruct (IH (edit s c) k2) as (k'&E'&Hv'&Hr'&Hn'); [done|done|done|by rewrite Ec2|rewrite Ec2; cbn in Hfl; lia|].
    exists k'. split; [done|]. rewrite Ec2 in Hv'. split; [done|]. split; [|done]. rewrite Hr'.
    exact (f_equal drained Hr2).
Qed.

(** No output is under way. *)
Definition idle_tx (k : kernel) : kernel := k <| tx_busy := false |>.

(** C32. The console is a line editor.  When the UART interrupts with the bytes [uart_rx] waiting,
    [uartintr] returns with all of them taken, and the lines entered and the line being edited are
    what typing them one after the other into the abstract editor gives: control-U deletes the
    line, control-H and delete its last byte, a newline (or carriage return), control-D or a full
    buffer enters it, and a byte that finds the buffer full is dropped.  This holds across
    wrap-around of the 32-bit indices.  Besides the console, its output, the states of processes
    and [tx_busy], nothing changes. *)
Theorem console_edits s cp k :
  cons_view s (console k) -> held cp = [] -> length (procs k) = 64%nat -> Forall (fun c => 0 <= c < 256) (uart_rx (devs k)) ->
  exists k', uartintr cp k = Done tt cp k' /\ cons_view (foldl edit s (uart_rx (devs k))) (console k') /\ uart_rx (devs k') = [] /\
    cons_rest (idle_tx k') = cons_rest (idle_tx (drained k)).
Proof.
  intros Hv Hh Hn Hr. unfold uartintr. assert (Hl : LTx ∉ held cp) by (rewrite Hh; apply not_elem_of_nil).
  assert (Hpu : procs_unlocked (cp <| held := LTx :: held cp |>)) by (intros j; kred; rewrite Hh; by intros ?%list_elem_of_singleton).
  assert (Ht : forall k1, console k1 = console k -> devs k1 = devs k -> length (procs k1) = 64%nat ->
    cons_rest (idle_tx k1) = cons_rest (idle_tx k) ->
    exists k', (d <- gets devs ;; uartintr_loop (S (length (uart_rx d)))) cp k1 = Done tt cp k' /\
      cons_view (foldl edit s (uart_rx (devs k))) (console k') /\ uart_rx (devs k') = [] /\
      cons_rest (idle_tx k') = cons_rest (idle_tx (drained k))).
  { intros k1 Ec Ed Hn1 Er. erewrite bind_done by done.
    destruct (uartintr_loop_ok (S (length (uart_rx (devs k1)))) s cp k1) as (k'&E&Hv'&Hr'&Hn'); [by rewrite Ec|done|done|by rewrite Ed|lia|].
    exists k'. split; [exact E|]. rewrite <- Ed. split; [exact Hv'|]. split; [by rewrite (cons_rest_devs _ _ Hr')|].
    etransitivity; [exact (f_equal idle_tx Hr')|exact (f_equal drained Er)]. }
  erewrite bind_done by (by apply acquire_ok). erewrite bind_done by done. destruct (uart_txidle (devs k)).
  - erewrite bind_done by (erewrite bind_done by done; by apply wakeup_ok). erewrite bind_done by (by apply release_ok).
    apply Ht; try done. kred. by rewrite length_imap.
  - erewrite bind_done by done. erewrite bind_done by (by apply release_ok). by apply Ht.
Qed.

(** ** Reading *)

(** [cons.r++] and [cons.r--] *)
Definition cpop (cn : cons_t) : cons_t := cn <| cn_r ::= fun r => u32 (r + 1) |>.
Definition cunpop (cn : cons_t) : cons_t := cn <| cn_r ::= fun r => u32 (r - 1) |>.

Lemma view_pop c ready l cn : cons_view (mkeditor (c :: ready) l) cn ->
  cons_view (mkeditor ready l) (cpop cn) /\ nthd 0 (cn_buf cn) (cn_r cn mod INPUT_BUF_SIZE) = c /\ cn_r cn <> cn_w cn /\ cunpop (cpop cn) = cn.
Proof.
  intros [[Hb Hr Hw He Es Hm Er El] Hn]. cbn in *.
  assert (Hp : 0 < rlen (cn_r cn) (cn_w cn)) by (rewrite <- (length_seg INPUT_BUF_SIZE (cn_buf cn)), <- Er; cbn; lia).
  pose proof (rlen_range (cn_w cn) (cn_e cn)). pose proof (seg_pop INPUT_BUF_SIZE ltac:(lia) divide_128 (cn_buf cn) _ _ Hr Hw Hp) as E.
  rewrite <- Er in E. injection E as E1 E2.
  assert (Ew : rlen (u32 (cn_r cn + 1)) (cn_w cn) = rlen (cn_r cn) (cn_w cn) - 1) by (by apply rlen_pop).
  assert (Ee : rlen (u32 (cn_r cn + 1)) (cn_e cn) = rlen (cn_r cn) (cn_e cn) - 1) by (apply rlen_pop; try done; lia).
  split; [|split; [done|split]].
  - split; [|done]. split; cbn; try done; [apply u32_range|lia..].
  - intros E0. pose proof (rlen_eq _ _ Hr Hw) as E3. rewrite E0, Z.eqb_refl in E3. rewrite E0 in Hp. symmetry in E3. apply Z.eqb_eq in E3. lia.
  - unfold cunpop, cpop. cbn. replace (u32 (u32 (cn_r cn + 1) - 1)) with (cn_r cn) by (unfold u32_ok, u32 in *; zlia). by destruct cn.
Qed.

Lemma read_line_spec n ready b l rest :
  read_line n ready b = Some (l, rest) -> (length l <= n)%nat /\ forall x, x ∈ l -> x ∈ ready.
Proof.
  revert ready b l. induction n as [|n IH]; intros ready b l E; cbn in E; [injection E as <- <-; split; [done|set_solver]|].
  destruct ready as [|c r]; [done|]. destruct (c =? C "D"); [injection E as <- <-; cbn; split; [lia|set_solver]|].
  destruct (c =? 10); [injection E as <- <-; cbn; split; [lia|set_solver]|].
  destruct (read_line n r false) as [[l' rest']|] eqn:E'; [|done]. injection E as <- ->. destruct (IH _ _ _ E'). cbn. split; [lia|set_solver].
Qed.

Section Reading.
Context {LK : Linker} {LKO : LinkerOk} `{Fu : Fuel}.
Context (a : alloc_spec) (t : ptree) (f : Z -> Z) (sz : Z) (i : nat).
Abbreviation uproc := (uproc a t f sz i).
Abbreviation uwrites := (uwrites f sz).
Abbreviation copied_byte := (copied_byte f).

Lemma uproc_console k cn : uproc k -> uproc (k <| console := cn |>).
Proof. intros H. by apply (uproc_frame _ _ _ _ _ k). Qed.

Lemma vmrest_console k k' : vmrest k' = vmrest k -> console k' = console k.
Proof. intros E. exact (f_equal console E). Qed.

Lemma cons_wait_ready c ready l cp k : cons_view (mkeditor (c :: ready) l) (console k) -> cons_wait (S fuel) cp k = Done true cp k.
Proof.
  intros Hv. apply view_pop in Hv as (_&_&Hne&_). cbn [cons_wait]. erewrite bind_done by done.
  by destruct (Z.eqb_spec (cn_r (console k)) (cn_w (console k))).
Qed.

Lemma consoleread_loop_ok m dst target ready line l rest cp k :
  uproc k -> cpu_proc cp = Some i -> cons_view (mkeditor ready line) (console k) ->
  read_line m ready (Z.of_nat m =? target) = Some (l, rest) -> Z.of_nat m <= target -> uwrites dst (length l) ->
  exists k', consoleread_loop m (ToUser dst) (Z.of_nat m) target cp k = Done (inr (Z.of_nat m - Z.of_nat (length l))) cp k' /\
    uproc k' /\ cons_view (mkeditor rest line) (console k') /\ cons_rest (vmrest k') = cons_rest (vmrest k) /\
    forall v, 0 <= v < sz -> flag (f v) PTE_V = true -> ubyte (mem k') f v = copied_byte l dst k v.
Proof.
  intros Hup Hi. revert dst ready l k Hup. induction m as [|m IH]; intros dst ready l k Hup Hv Hl Ht Hw.
  { cbn in Hl. injection Hl as <- <-. exists k. split_and!; try done. intros. by rewrite copied_byte_nil. }
  cbn [consoleread_loop]. destruct ready as [|c r]; [done|]. erewrite bind_done by (by eapply cons_wait_ready). cbn [negb].
  erewrite bind_done by done. destruct (view_pop _ _ _ _ Hv) as (Hv1&Ec&_&Eu). rewrite Ec. erewrite bind_done by done.
  set (k1 := k <| console ::= _ |>). change (console k1) with (cpop (console k)) in *.
  remember (Z.of_nat (S m) =? target) as first eqn:Ef. cbn [read_line] in Hl. destruct (c =? C "D").
  { injection Hl as <- Er. rewrite <- Er. cbn [length] in *. rewrite Z.sub_0_r. subst first. destruct (Z.eqb_spec (Z.of_nat (S m)) target) as [E|Hne].
    - destruct (Z.ltb_spec (Z.of_nat (S m)) target); [lia|]. erewrite bind_done by done. exists k1.
      split_and!; [done|by apply uproc_console|exact Hv1|done|intros; by rewrite copied_byte_nil].
    - destruct (Z.ltb_spec (Z.of_nat (S m)) target); [|lia]. erewrite bind_done by done. eexists. split_and!; [done| | | |].
      + apply uproc_console, uproc_console, Hup.
      + change (cons_view (mkeditor (c :: r) line) (cunpop (cpop (console k)))). by rewrite Eu.
      + done.
      + intros. by rewrite copied_byte_nil. }
  assert (Hup1 : uproc k1) by (by apply uproc_console). destruct (up_proc _ _ _ _ _ _ Hup1) as (q&Hq&Hpt&_).
  assert (El : exists l', l = c :: l') by (destruct (c =? 10); [|destruct (read_line m r false) as [[]|]]; simplify_eq/=; by eexists).
  destruct El as [l' ->]. destruct Hw as [(Hw1&Hw2&Hr) Hw]. cbn [length] in Hw2, Hr, Hw.
  destruct (write_byte a t f sz i k1 dst c cp Hup1) as (k2&E2&Hup2&Er2&Hb2).
  { split; [split; [lia|split; [lia|]]|]; intros v Hvr; [apply Hr|apply Hw]; lia. }
  erewrite bind_done by (unfold either_copyout; erewrite bind_done by (by apply curproc_done); erewrite bind_done by (by apply getproc_done);
    rewrite Hpt; exact E2). cbn [Z.eqb]. change (ubyte (mem k1) f) with (ubyte (mem k) f) in Hb2.
  assert (Hv2 : cons_view (mkeditor r line) (console k2)) by (by rewrite (vmrest_console _ _ Er2)).
  assert (Hr2 : cons_rest (vmrest k2) = cons_rest (vmrest k)) by (by rewrite Er2).
  destruct (c =? 10).
  { injection Hl as <- <-. exists k2. split_and!; try done. }
  destruct (read_line m r false) as [[l1 rest1]|] eqn:Em; [|done]. injection Hl as -> ->. rewrite u64_small by (pose proof (up_sz _ _ _ _ _ _ Hup); lia).
  replace (Z.of_nat (S m) - 1) with (Z.of_nat m) by lia.
  destruct (IH (dst + 1) r l' k2) as (k'&E'&Hup'&Hv'&Hr'&Hb').
  - done.
  - done.
  - destruct (Z.eqb_spec (Z.of_nat m) target); [lia|done].
  - lia.
  - split; [split; [lia|split; [lia|]]|]; intros v Hvr; [apply Hr|apply Hw]; lia.
  - exists k'. split_and!; [rewrite E'; do 2 f_equal; cbn [length]; lia|done|done|by rewrite Hr'|].
    intros v Hvr HV. rewrite Hb' by done. apply copied_byte_cons. by apply Hb2.
Qed.

(** [consoleread] of [n] bytes into user memory, when the entered lines hold enough for it,
    returns without waiting: it takes what [read_line] says (up to a newline, [n] bytes or
    control-D), puts these bytes at [dst] in order and changes no other byte of the process's
    memory, returns their number, and leaves the rest of the queue and the line being edited. *)
Theorem consoleread_line dst n s l rest cp k :
  uproc k -> cpu_proc cp = Some i -> held cp = [] -> cons_view s (console k) -> Forall (fun c => 0 <= c < 256) (ed_ready s) ->
  Z.of_nat n < 2 ^ 31 -> read_line n (ed_ready s) true = Some (l, rest) -> uwrites dst (length l) ->
  exists k', consoleread (ToUser dst) (Z.of_nat n) cp k = Done (Z.of_nat (length l)) cp k' /\
    cons_view (mkeditor rest (ed_line s)) (console k') /\ ubytes (mem k') f dst (length l) = l /\
    (forall v, 0 <= v < sz -> flag (f v) PTE_V = true -> ~ (dst <= v < dst + Z.of_nat (length l)) -> ubyte (mem k') f v = ubyte (mem k) f v) /\
    cons_rest (vmrest k') = cons_rest (vmrest k).
Proof.
  intros Hup Hi Hh Hv Hby Hn Hl Hw. assert (Hlk : LCons ∉ held cp) by (rewrite Hh; apply not_elem_of_nil). destruct s as [ready line].
  cbn [ed_ready ed_line] in *. unfold consoleread. erewrite bind_done by (by apply acquire_ok). rewrite Nat2Z.id, u32_small by lia.
  destruct (consoleread_loop_ok n dst (Z.of_nat n) ready line l rest (cp <| held := LCons :: held cp |>) k) as (k'&E&Hup'&Hv'&Hr'&Hb); try done.
  { by rewrite Z.eqb_refl. }
  erewrite bind_done by exact E. cbv iota beta. erewrite bind_done by (by apply release_ok). exists k'.
  pose proof (read_line_spec _ _ _ _ _ Hl) as [Hlen Hsub]. split.
  { unfold ret. f_equal. rewrite i32_small by lia. lia. }
  split; [done|]. split; [|split; [|done]].
  - apply (copied_bytes f sz l dst k); try done. rewrite Forall_forall in Hby |- *. intros x Hx. apply Hby. set_solver.
  - intros v Hvr HV Hno. rewrite Hb by done. unfold UserProc.copied_byte. by rewrite decide_False.
Qed.
End Reading.

(** ** Typing "hx", backspace, "i", return; the indices wrap around *)

Module ConsoleDemo.
#[local] Existing Instance small_linker.
#[local] Existing Instance small_linker_ok.
#[local] Instance console_fuel : Fuel := 1%nat.

Definition blank : cons_t := mkcons (replicate 128 0) (2 ^ 32 - 1) (2 ^ 32 - 1) (2 ^ 32 - 1).
Definition ktyped : kernel := wkernel <| console := blank |> <| devs ::= fun d => d <| uart_rx := [104; 120; 8; 105; 13] |> |>.

Lemma blank_view : cons_view (mkeditor [] []) (console ktyped).
Proof. split; [|constructor]. by split; vm_compute. Qed.

Lemma console_edits_witness :
  exists k', uartintr wcpu ktyped = Done tt wcpu k' /\ cons_view (mkeditor [104; 105; 10] []) (console k') /\ uart_rx (devs k') = [].
Proof.
  destruct (console_edits (mkeditor [] []) wcpu ktyped blank_view) as (k'&E&Hv&Hr&_);
    [reflexivity|reflexivity|by repeat (apply Forall_cons; split)|].
  exists k'. split; [exact E|]. split; [exact Hv|exact Hr].
Defined.

(** The line is in the ring at the indices 2^32 - 1, 0 and 1. *)
Definition entered : cons_t := mkcons (105 :: 10 :: replicate 125 0 ++ [104]) (2 ^ 32 - 1) 2 2.
Definition kentered : kernel := wkernel <| console := entered |>.

Lemma entered_view : cons_view (mkeditor [104; 105; 10] []) (console kentered).
Proof. split; [|constructor]. by split; vm_compute. Qed.

Lemma kentered_user : uproc walloc wtree wfun PGSIZE 0 kentered.
Proof.
  apply uproc_console. split; [exact wtree_ok|exact wtree_is|apply wtree_um|lia| |vm_compute; reflexivity].
  eexists. split; [vm_compute; reflexivity|]. split; reflexivity.
Qed.

Lemma consoleread_line_witness :
  exists k', consoleread (ToUser 100) 10 wcpu kentered = Done 3 wcpu k' /\ ubytes (mem k') wfun 100 3 = [104; 105; 10] /\
    cons_view (mkeditor [] []) (console k').
Proof.
  destruct (consoleread_line walloc wtree wfun PGSIZE 0 100 10 _ [104; 105; 10] [] wcpu kentered kentered_user eq_refl eq_refl entered_view)
    as (k'&E&Hv&Hb&_); [by repeat (apply Forall_cons; split)|lia|reflexivity| |].
  - cbn [length]. split; [split; [lia|split; [lia|]]|]; intros v Hv; unfold user_ok, wfun; (destruct (Z.ltb_spec v PGSIZE); [by vm_compute|lia]).
  - exists k'. split; [exact E|]. split; [exact Hb|exact Hv].
Defined.
End ConsoleDemo.
