(* ===== verification/File.v ===== *)
(** * The file table: [file.c], and [pipealloc] of [pipe.c]

    Pointers to [ftable.file[i]] are indices. *)

From S2P Require Import Prelude Riscv CString Kernel Printf Kalloc Vm Args Sched Sleeplock Bio Log Fs Pipe Console.
From stdpp Require Import base numbers strings gmap list.
From Stdlib Require Import ZArith Lia.

#[local] Open Scope Z_scope.
#[local] Open Scope kernel_scope.

Definition fileinit : M unit := initlock LFtable.

Fixpoint filealloc_loop (n f : nat) : M (option nat) :=
  match n with
  | O => release LFtable ;; ret None
  | S n =>
      fl <- getfile f ;;
      if f_ref fl =? 0 then
        modfile f (fun fl => fl <| f_ref := 1 |>) ;;
        release LFtable ;;
        ret (Some f)
      else filealloc_loop n (S f)
  end.

Definition filealloc : M (option nat) :=
  acquire LFtable ;;
  filealloc_loop 100 0.

Definition filedup (f : nat) : M nat :=
  acquire LFtable ;;
  fl <- getfile f ;;
  if f_ref fl <? 1 then panic "filedup" else
  modfile f (fun fl => fl <| f_ref ::= fun n => i32 (n + 1) |>) ;;
  release LFtable ;;
  ret f.

(** The bytes a local [struct stat] holds before [stati] fills it in. *)
Class Uninit := uninit : list Z.

Section Operations.
Context {LK : Linker} `{Fuel} `{BlockDevice} `{Uninit}.

Definition fileclose (f : nat) : M unit :=
  acquire LFtable ;;
  fl <- getfile f ;;
  if f_ref fl <? 1 then panic "fileclose" else
  modfile f (fun fl => fl <| f_ref ::= fun n => i32 (n - 1) |>) ;;
  ff <- getfile f ;;
  if f_ref ff >? 0 then release LFtable else
  modfile f (fun fl => fl <| f_ref := 0 |>) ;;
  modfile f (fun fl => fl <| f_type := FD_NONE |>) ;;
  release LFtable ;;
  match f_type ff with
  | FD_PIPE => pipeclose (f_pipe ff) (f_writable ff)
  | FD_INODE | FD_DEVICE =>
      begin_op ;;
      iput (f_ip ff) ;;
      end_op
  | FD_NONE => ret tt
  end.

Definition filestat (f : nat) (addr : Z) : M Z :=
  me <- curproc ;;
  fl <- getfile f ;;
  match f_type fl with
  | FD_INODE | FD_DEVICE =>
      ilock (Some (f_ip fl)) ;;
      st <- stati (f_ip fl) uninit ;;
      iunlock (Some (f_ip fl)) ;;
      p <- getproc me ;;
      r <- copyout (p_pagetable p) addr st 24 ;;
      if r <? 0 then ret (-1) else ret 0
  | _ => ret (-1)
  end.

Definition fileread (f : nat) (addr n : Z) : M Z :=
  fl <- getfile f ;;
  if negb (f_readable fl) then ret (-1) else
  match f_type fl with
  | FD_PIPE => piperead (f_pipe fl) addr n
  | FD_DEVICE =>
      if (f_major fl <? 0) || (f_major fl >=? NDEV) then ret (-1) else
      dv <- gets devsw ;;
      match dv !! Z.to_nat (f_major fl) with
      | Some d =>
          match dv_read d with
          | Some Console => consoleread (ToUser addr) n
          | None => ret (-1)
          end
      | None => stuck "devsw"
      end
  | FD_INODE =>
      ilock (Some (f_ip fl)) ;;
      fl <- getfile f ;;
      '(r, _) <- readi (f_ip fl) (ToUser addr) (f_off fl) (u32 n) ;;
      (if r >? 0 then modfile f (fun fl => fl <| f_off ::= fun o => u32 (o + r) |>) else ret tt) ;;
      iunlock (Some (f_ip fl)) ;;
      ret r
  | FD_NONE => panic "fileread"
  end.

(** [while(i < n)]: each round writes [max] bytes, or stops. *)
Fixpoint filewrite_loop (fl : nat) (f : nat) (addr n i : Z) : M Z :=
  match fl with
  | O => stuck "filewrite"
  | S fl =>
      if i <? n then
        let max := ((MAXOPBLOCKS - 1 - 1 - 2) / 2) * BSIZE in
        let n1 := if n - i >? max then max else n - i in
        begin_op ;;
        fd <- getfile f ;;
        ilock (Some (f_ip fd)) ;;
        fd <- getfile f ;;
        r <- writei (f_ip fd) (FromUser (u64 (addr + i))) (f_off fd) n1 ;;
        (if r >? 0 then modfile f (fun fl => fl <| f_off ::= fun o => u32 (o + r) |>) else ret tt) ;;
        iunlock (Some (f_ip fd)) ;;
        end_op ;;
        if negb (r =? n1) then ret i else filewrite_loop fl f addr n (i + r)
      else ret i
  end.

Definition filewrite (f : nat) (addr n : Z) : M Z :=
  fl <- getfile f ;;
  if negb (f_writable fl) then ret (-1) else
  match f_type fl with
  | FD_PIPE => pipewrite (f_pipe fl) addr n
  | FD_DEVICE =>
      if (f_major fl <? 0) || (f_major fl >=? NDEV) then ret (-1) else
      dv <- gets devsw ;;
      match dv !! Z.to_nat (f_major fl) with
      | Some d =>
          match dv_write d with
          | Some Console => consolewrite (FromUser addr) n
          | None => ret (-1)
          end
      | None => stuck "devsw"
      end
  | FD_INODE =>
      i <- filewrite_loop (Z.to_nat (n / 3072 + 2)) f addr n 0 ;;
      ret (if i =? n then n else -1)
  | FD_NONE => panic "filewrite"
  end.

(** ** [pipealloc] *)

(** The label [bad]. *)
Definition pipealloc_bad (pi : Z) (f0 f1 : option nat) : M (Z * option nat * option nat) :=
  (if negb (pi =? 0) then free_pipe pi else ret tt) ;;
  (match f0 with Some f => fileclose f | None => ret tt end) ;;
  (match f1 with Some f => fileclose f | None => ret tt end) ;;
  ret (-1, f0, f1).

(** The result, [*f0] and [*f1].  [kalloc] fills the page with 5s, which is
    what the new pipe's [data] holds. *)
Definition pipealloc : M (Z * option nat * option nat) :=
  f0 <- filealloc ;;
  match f0 with
  | None => pipealloc_bad 0 None None
  | Some r =>
      f1 <- filealloc ;;
      match f1 with
      | None => pipealloc_bad 0 f0 None
      | Some w =>
          pi <- kalloc ;;
          if pi =? 0 then pipealloc_bad 0 f0 f1 else
          modify (fun k => k <| pipes ::= <[pi := mkpipe (replicate 512 5) 0 0 true true]> |>) ;;
          initlock (LPipe pi) ;;
          modfile r (fun f => f <| f_type := FD_PIPE |> <| f_readable := true |> <| f_writable := false |> <| f_pipe := pi |>) ;;
          modfile w (fun f => f <| f_type := FD_PIPE |> <| f_readable := false |> <| f_writable := true |> <| f_pipe := pi |>) ;;
          ret (0, f0, f1)
      end
  end.

End Operations.
