(* ===== verification/Proc.v ===== *)
(** * Processes: the rest of [proc.c]

    Creation, [fork], [exit] and [wait].  The lock [proc[i].lock] is [LProc i].
    Scheduling is in Sched.v, [forkret] in Trap.v, [procdump] in Console.v. *)

From S2P Require Import Prelude Riscv CString Kernel Printf Kalloc Vm Args Sched Sleeplock Bio Log Fs Pipe Console File.
From stdpp Require Import base numbers strings gmap list.
From Stdlib Require Import ZArith Lia.

#[local] Open Scope Z_scope.
#[local] Open Scope kernel_scope.

Fixpoint procinit_loop (n i : nat) : M unit :=
  match n with
  | O => ret tt
  | S n =>
      initlock (LProc i) ;;
      modproc i (fun p => p <| p_state := UNUSED |>) ;;
      modproc i (fun p => p <| p_kstack := KSTACK (Z.of_nat i) |>) ;;
      procinit_loop n (S i)
  end.

Definition procinit : M unit :=
  initlock LPid ;;
  initlock LWait ;;
  procinit_loop 64 0.

Definition allocpid : M Z :=
  acquire LPid ;;
  pid <- gets nextpid ;;
  modify (fun k => k <| nextpid := i32 (nextpid k + 1) |>) ;;
  release LPid ;;
  ret pid.

(** The channel [p], as a pointer to a process that may be null. *)
Definition chan_of (o : option nat) : chan := match o with Some i => CProc i | None => CNull end.

Section Tables.
Context {LK : Linker}.

Definition proc_pagetable (trapframe : Z) : M Z :=
  pagetable <- uvmcreate ;;
  if pagetable =? 0 then ret 0 else
  r <- mappages pagetable TRAMPOLINE PGSIZE trampoline (Z.lor PTE_R PTE_X) ;;
  if r <? 0 then
    uvmfree pagetable 0 ;;
    ret 0
  else
  r <- mappages pagetable TRAPFRAME PGSIZE trapframe (Z.lor PTE_R PTE_W) ;;
  if r <? 0 then
    uvmunmap pagetable TRAMPOLINE 1 false ;;
    uvmfree pagetable 0 ;;
    ret 0
  else ret pagetable.

Definition proc_freepagetable (pagetable sz : Z) : M unit :=
  uvmunmap pagetable TRAMPOLINE 1 false ;;
  uvmunmap pagetable TRAPFRAME 1 false ;;
  uvmfree pagetable sz.

Definition freeproc (i : nat) : M unit :=
  p <- getproc i ;;
  (if negb (p_trapframe p =? 0) then kfree (p_trapframe p) else ret tt) ;;
  modproc i (fun p => p <| p_trapframe := 0 |>) ;;
  p <- getproc i ;;
  (if negb (p_pagetable p =? 0) then proc_freepagetable (p_pagetable p) (p_sz p) else ret tt) ;;
  modproc i (fun p => p <| p_pagetable := 0 |> <| p_sz := 0 |> <| p_pid := 0 |> <| p_parent := None |>
    <| p_name ::= fun s => setz s 0 0 |> <| p_chan := CNull |> <| p_killed := 0 |> <| p_xstate := 0 |>
    <| p_state := UNUSED |>).

(** The label [found], for process [i], whose lock is held. *)
Definition allocproc_found (i : nat) : M (option nat) :=
  pid <- allocpid ;;
  modproc i (fun p => p <| p_pid := pid |>) ;;
  modproc i (fun p => p <| p_state := USED |>) ;;
  modproc i (fun p => p <| p_priority := if Z.rem (p_pid p) 2 =? 0 then 10 else 1 |>) ;;
  tf <- kalloc ;;
  modproc i (fun p => p <| p_trapframe := tf |>) ;;
  if tf =? 0 then
    freeproc i ;;
    release (LProc i) ;;
    ret None
  else
  pt <- proc_pagetable tf ;;
  modproc i (fun p => p <| p_pagetable := pt |>) ;;
  if pt =? 0 then
    freeproc i ;;
    release (LProc i) ;;
    ret None
  else
  modproc i (fun p => p <| p_context := context_0 |>) ;;
  modproc i (fun p => p <| p_context ::= fun cx => cx <| cx_ra := forkret_pc |> |>) ;;
  modproc i (fun p => p <| p_context ::= fun cx => cx <| cx_sp := p_kstack p + PGSIZE |> |>) ;;
  ret (Some i).

Fixpoint allocproc_loop (n i : nat) : M (option nat) :=
  match n with
  | O => ret None
  | S n =>
      acquire (LProc i) ;;
      p <- getproc i ;;
      if decide (p_state p = UNUSED) then allocproc_found i
      else
        release (LProc i) ;;
        allocproc_loop n (S i)
  end.

Definition allocproc : M (option nat) := allocproc_loop 64 0.

Definition growproc (n : Z) : M Z :=
  i <- curproc ;;
  p <- getproc i ;;
  let sz := p_sz p in
  if n >? 0 then
    if u64 (sz + n) >? TRAPFRAME then ret (-1) else
    sz <- uvmalloc (p_pagetable p) sz (u64 (sz + n)) PTE_W ;;
    if sz =? 0 then ret (-1) else
    modproc i (fun p => p <| p_sz := sz |>) ;;
    ret 0
  else
    sz <- (if n <? 0 then uvmdealloc (p_pagetable p) sz (u64 (sz + n)) else ret sz) ;;
    modproc i (fun p => p <| p_sz := sz |>) ;;
    ret 0.

(** [for(pp = proc; pp < &proc[NPROC]; pp++)] of [reparent]. *)
Fixpoint reparent_loop (n pp : nat) (p : nat) : M unit :=
  match n with
  | O => ret tt
  | S n =>
      q <- getproc pp ;;
      (if decide (p_parent q = Some p) then
         ip <- gets initproc ;;
         modproc pp (fun q => q <| p_parent := ip |>) ;;
         wakeup (chan_of ip)
       else ret tt) ;;
      reparent_loop n (S pp) p
  end.

Definition reparent (p : nat) : M unit := reparent_loop 64 0 p.

(** The scan of [kwait]: [inl r] is an early [return r], [inr havekids] the end. *)
Fixpoint kwait_scan (n pp : nat) (p : nat) (addr : Z) (havekids : bool) : M (Z + bool) :=
  match n with
  | O => ret (inr havekids)
  | S n =>
      q <- getproc pp ;;
      if decide (p_parent q = Some p) then
        acquire (LProc pp) ;;
        q <- getproc pp ;;
        if decide (p_state q = ZOMBIE) then
          let pid := p_pid q in
          me <- getproc p ;;
          r <- (if addr =? 0 then ret 0 else copyout (p_pagetable me) addr (le_bytes 4 (p_xstate q)) 4) ;;
          if r <? 0 then
            release (LProc pp) ;;
            release LWait ;;
            ret (inl (-1))
          else
            freeproc pp ;;
            release (LProc pp) ;;
            release LWait ;;
            ret (inl pid)
        else
          release (LProc pp) ;;
          kwait_scan n (S pp) p addr true
      else kwait_scan n (S pp) p addr havekids
  end.

Section Waiting.
Context `{Fuel}.

Fixpoint kwait_loop (fl : nat) (p : nat) (addr : Z) : M Z :=
  match fl with
  | O => stuck "kwait"
  | S fl =>
      r <- kwait_scan 64 0 p addr false ;;
      match r with
      | inl r => ret r
      | inr havekids =>
          dead <- (if negb havekids then ret true else x <- killed p ;; ret (negb (x =? 0))) ;;
          if (dead : bool) then
            release LWait ;;
            ret (-1)
          else
            sleep (CProc p) LWait ;;
            kwait_loop fl p addr
      end
  end.

Definition kwait (addr : Z) : M Z :=
  p <- curproc ;;
  acquire LWait ;;
  kwait_loop (S fuel) p addr.

End Waiting.
End Tables.

Section Operations.
Context {LK : Linker} `{Fuel} `{BlockDevice}.

(** [p] is not tested for null. *)
Definition userinit : M unit :=
  o <- allocproc ;;
  modify (fun k => k <| initproc := o |>) ;;
  p <- deref o ;;
  cwd <- namei (str "/") ;;
  modproc p (fun q => q <| p_cwd := cwd |>) ;;
  modproc p (fun q => q <| p_state := RUNNABLE |>) ;;
  release (LProc p).

(** [for(i = 0; i < NOFILE; i++)] of [kfork], [n] descriptors left. *)
Fixpoint kfork_files (n i : nat) (p np : nat) : M unit :=
  match n with
  | O => ret tt
  | S n =>
      q <- getproc p ;;
      (match p_ofile q !! i with
       | Some (Some f) =>
           f <- filedup f ;;
           modproc np (fun q => q <| p_ofile ::= fun l => <[i := Some f]> l |>)
       | _ => ret tt
       end) ;;
      kfork_files n (S i) p np
  end.

Definition kfork : M Z :=
  p <- curproc ;;
  o <- allocproc ;;
  match o with
  | None => ret (-1)
  | Some np =>
      q <- getproc p ;;
      nq <- getproc np ;;
      r <- uvmcopy (p_pagetable q) (p_pagetable nq) (p_sz q) ;;
      if r <? 0 then
        freeproc np ;;
        release (LProc np) ;;
        ret (-1)
      else
      modproc np (fun x => x <| p_sz := p_sz q |>) ;;
      kmemmove (p_trapframe nq) (p_trapframe q) TFSIZE ;;
      tf_set np tf_a0 0 ;;
      kfork_files 16 0 p np ;;
      cwd <- deref (p_cwd q) ;;
      cwd <- idup cwd ;;
      modproc np (fun x => x <| p_cwd := Some cwd |>) ;;
      modproc np (fun x => x <| p_name ::= fun s => safestrcpy s (nthd 0 (p_name q)) 16 |>) ;;
      nq <- getproc np ;;
      let pid := p_pid nq in
      release (LProc np) ;;
      acquire LWait ;;
      modproc np (fun x => x <| p_parent := Some p |>) ;;
      release LWait ;;
      acquire (LProc np) ;;
      modproc np (fun x => x <| p_state := RUNNABLE |>) ;;
      release (LProc np) ;;
      ret pid
  end.

(** [for(int fd = 0; fd < NOFILE; fd++)] of [kexit]. *)
Fixpoint kexit_files (n fd : nat) (p : nat) : M unit :=
  match n with
  | O => ret tt
  | S n =>
      q <- getproc p ;;
      (match p_ofile q !! fd with
       | Some (Some f) =>
           fileclose f ;;
           modproc p (fun q => q <| p_ofile ::= fun l => <[fd := None]> l |>)
       | _ => ret tt
       end) ;;
      kexit_files n (S fd) p
  end.

(** It does not return. *)
Definition kexit {A} (status : Z) : M A :=
  p <- curproc ;;
  ip <- gets initproc ;;
  if decide (Some p = ip) then panic "init exiting" else
  kexit_files 16 0 p ;;
  begin_op ;;
  q <- getproc p ;;
  cwd <- deref (p_cwd q) ;;
  iput cwd ;;
  end_op ;;
  modproc p (fun q => q <| p_cwd := None |>) ;;
  acquire LWait ;;
  reparent p ;;
  q <- getproc p ;;
  wakeup (chan_of (p_parent q)) ;;
  acquire (LProc p) ;;
  modproc p (fun q => q <| p_xstate := status |>) ;;
  modproc p (fun q => q <| p_state := ZOMBIE |>) ;;
  release LWait ;;
  sched ;;
  panic "zombie exit".

End Operations.
