(* ===== verification/ProcMem.v ===== *)
(** * The memory of a process: [proc_pagetable], [proc_freepagetable] and [freeproc] of [proc.c]

    A new page table maps the trampoline and the trapframe or, when memory runs out, is given
    back; freeing a process returns its trapframe, its memory and its tables, and nothing else. *)

From S2P Require Import Prelude Riscv CString Kernel Printf Kalloc Vm UserMem VmFree Sched Proc.
From stdpp Require Import base numbers strings gmap list.
From Stdlib Require Import ZArith Lia.

#[local] Open Scope Z_scope.
#[local] Open Scope kernel_scope.

Lemma list_alter_alter {A} (f g : A -> A) (l : list A) i : alter g i (alter f i l) = alter (fun x => g (f x)) i l.
Proof. revert i. induction l as [|x l IH]; intros [|i]; try done. cbn. f_equal. apply IH. Qed.

Section procmem.
Context {LK : Linker} {LKO : LinkerOk}.
Context (c : cpu) (HK : LKmem ∉ held c) (HR : LRef ∉ held c) (HP : LPr ∉ held c).
Implicit Types (k : kernel) (t : ptree).

(** Writing a page that was taken. *)
Lemma took_set ps p m' a a' k k' :
  took ps a a' k k' -> p ∈ ps -> mem_ok m' -> (forall x, ~ p <= x < p + PGSIZE -> rd8 m' x = rd8 (mem k') x) ->
  took ps a a' k (k' <| mem := m' |>).
Proof.
  intros T Hin Hm Hx. destruct (tk_new _ _ _ _ _ T p Hin) as [Hp Hz].
  assert (Hout : forall q x, page_ok q -> q <> p -> q <= x < q + PGSIZE -> rd8 m' x = rd8 (mem k') x).
  { intros q x Hq Hne Hqx. apply Hx. by apply (page_apart p q). }
  split; try apply T.
  - apply represents_write; [apply T|done|]. intros q x Hq Hqx.
    pose proof (free_list_pages _ _ _ (rep_list _ _ (tk_rep _ _ _ _ _ T))) as Hok. rewrite Forall_forall in Hok.
    apply (Hout q); [auto| |lia]. intros ->. pose proof (rep_free0 _ _ (tk_rep _ _ _ _ _ T) _ Hq) as E.
    by rewrite (tk_ref _ _ _ _ _ T), decide_True in E.
  - intros q x Hq Hzq Hqx. rewrite <- (tk_mem _ _ _ _ _ T q x Hq Hzq Hqx). apply (Hout q); try done. by intros ->.
  - eapply only_pages_trans; [apply T|]. unfold only_pages. kdone.
Qed.

Lemma took_clear p a a' k k' : took [p] a a' k k' -> took [p] a a' k (k' <| mem := memset (mem k') p 0 PGSIZE |>).
Proof.
  intros T. apply (took_set [p] p); [done|apply list_elem_of_here|apply mem_ok_memset, (tk_rep _ _ _ _ _ T)|].
  intros x Hx. apply rd8_memset_out; [lia|done].
Qed.

Definition table_only (p : Z) : ptree := mkptree p ∅ ∅.

Lemma table_only_ok p a a' k k' :
  took [p] a a' k k' -> vm_ok a' (table_only p) (k' <| mem := memset (mem k') p 0 PGSIZE |>).
Proof.
  intros T. pose proof (took_clear p a a' k k' T) as T'. destruct (tk_new _ _ _ _ _ T p (list_elem_of_here _ _)) as [Hp Hz].
  split; [apply T'|apply T| |].
  - split; [by apply Forall_singleton|apply NoDup_singleton| | | |].
    2-3: intros i q Hq; cbn [table_only pt_mid] in Hq; destruct (lookup_empty_Some _ _ Hq).
    2: intros i j q Hq; cbn [table_only pt_low] in Hq; destruct (lookup_empty_Some _ _ Hq).
    intros i Hi. cbn [table_only pt_root pt_mid]. rewrite lookup_empty. apply rd64_memset_0; [lia|..]; pose proof (pte_addr_in p i Hp Hi); lia.
  - intros q ->%list_elem_of_singleton. by rewrite (tk_ref _ _ _ _ _ T), decide_True by (done || apply list_elem_of_here).
Qed.

(** [uvmcreate]: an empty page table, or 0 when there is no page. *)
Lemma uvmcreate_ok a k :
  represents a k -> complete a ->
  exists r k' a', uvmcreate c k = Done r c k' /\
    ((r = 0 /\ took [] a a' k k') \/
     (r <> 0 /\ took [r] a a' k k' /\ vm_ok a' (table_only r) k' /\ pt_is k' (table_only r) (fun _ => 0))).
Proof.
  intros Hr Ha. destruct (kalloc_took c HK HR HP a k Hr Ha) as (p & k1 & E & [(-> & _ & T)|(a1 & H0 & Hp & T)]); unfold uvmcreate.
  - exists 0, k1, a. erewrite bind_done by exact E. split; [done|]. by left.
  - exists p, (k1 <| mem := memset (mem k1) p 0 PGSIZE |>), a1. erewrite bind_done by exact E. destruct (Z.eqb_spec p 0); [done|].
    erewrite bind_done by reflexivity. split; [reflexivity|]. right. split; [done|].
    split; [by apply took_clear|]. split; [by eapply table_only_ok|]. done.
Qed.

(** Clearing a valid entry without freeing its page; an invalid one is left alone. *)
Lemma uvmunmap_page_keep a t k f va :
  vm_ok a t k -> pt_is k t f -> 0 <= va < MAXVA -> va mod PGSIZE = 0 ->
  exists k', uvmunmap_page (pt_root t) va false c k = Done tt c k' /\ vm_ok a t k' /\
    pt_is k' t (unmapped f va (va + PGSIZE)) /\ freed [] (pt_pages t) a a k k'.
Proof.
  intros Hv Hf Hva Ha. destruct (flag (f va) PTE_V) eqn:HV.
  - pose proof (valid_slot t k va f (vo_wf _ _ _ Hv) Hf Hva HV) as Hs. destruct (set_pte_ok _ t k va 0 Hv Hs) as [Hv2 F2].
    exists (set_pte t va 0 k). split; [|split; [done|split; [by apply set_pte_0_is; try done; apply Hv|]]].
    + unfold uvmunmap_page. erewrite bind_done by (by apply walk_lookup; [apply Hv|]).
      destruct (Z.eqb_spec (slot t va) 0); [done|].
      erewrite bind_done by (by apply slot_load). rewrite Hf, HV by done. cbn [negb when].
      erewrite bind_done by reflexivity. reflexivity.
    + split; [apply Hv2|apply Hv2|done| |apply F2]. intros q x Hq Hz _ Hn Hx. by apply (vf_mem _ _ _ _ _ _ F2 q).
  - exists k. split; [by apply (uvmunmap_page_invalid c t k va f); [apply Hv|..]|]. split; [done|].
    split; [|by apply freed_nil; apply Hv]. intros v Hvr. rewrite Hf by done. unfold unmapped.
    destruct (decide _) as [Hd|]; [|done]. rewrite (pt_is_page k t f v va) by (done || zlia). by rewrite HV.
Qed.

Lemma uvmunmap_keep a t k f va :
  vm_ok a t k -> pt_is k t f -> 0 <= va < MAXVA -> va mod PGSIZE = 0 ->
  exists k', uvmunmap (pt_root t) va 1 false c k = Done tt c k' /\ vm_ok a t k' /\
    pt_is k' t (unmapped f va (va + PGSIZE)) /\ freed [] (pt_pages t) a a k k'.
Proof.
  intros Hv Hf Hva Ha. destruct (uvmunmap_page_keep a t k f va Hv Hf Hva Ha) as (k' & E & Hrest).
  exists k'. split; [|done]. unfold uvmunmap. rewrite Ha. cbn [Z.eqb negb]. rewrite u64_small by lia.
  replace (va + 1 * PGSIZE) with (va + PGSIZE) by lia. change (Z.to_nat 1) with 1%nat. cbn [uvmunmap_loop].
  destruct (Z.leb_spec (va + PGSIZE) va); [lia|]. erewrite bind_done by exact E. rewrite u64_small by lia.
  by rewrite (proj2 (Z.leb_le _ _)) by lia.
Qed.

(** What a new process maps: the trampoline and its trapframe. *)
Definition proc_map (tf : Z) : Z -> Z :=
  mapped (mapped (fun _ => 0) TRAMPOLINE trampoline (Z.lor PTE_R PTE_X) 1) TRAPFRAME tf (Z.lor PTE_R PTE_W) 1.

Lemma mapped_0 f va pa perm v : mapped f va pa perm 0 v = f v.
Proof. unfold mapped. by rewrite decide_False by lia. Qed.

Lemma trampoline_valid : flag (leaf_pte trampoline (Z.lor PTE_R PTE_X)) PTE_V = true.
Proof.
  pose proof trampoline_range. pose proof etext_range. pose proof end_range. by rewrite leaf_pte_flag by (done || lia).
Qed.

(** [uvmfree(pagetable, 0)] of a page table that was just taken and has no entry. *)
Lemma undo_tables a a1 t k0 k1 f :
  took (pt_pages t) a a1 k0 k1 -> vm_ok a1 t k1 -> pt_is k1 t f -> (forall v, 0 <= v < MAXVA -> flag (f v) PTE_V = false) ->
  exists k' a', uvmfree (pt_root t) 0 c k1 = Done tt c k' /\ took [] a a' k0 k'.
Proof.
  intros T Hv Hf Hno. destruct (uvmfree_ok c HK HR HP a1 t k1 f 0 Hv Hf) as (a' & k' & E & F); try lia.
  - change (PGROUNDUP 0) with 0. split; intros; lia.
  - intros v Hvr. apply Hno. change (PGROUNDUP 0) with 0 in Hvr. lia.
  - exists k', a'. split; [done|]. eapply took_freed_all; [exact T|]. eapply freed_perm; [|exact F].
    intros q. change (user_pages f (PGROUNDUP 0)) with (@nil Z). by apply (elem_of_tree_pages (mem k1)), Hv.
Qed.

(** The page table of a new process, or 0 and the allocator as it was. *)
Lemma proc_pagetable_ok a k tf :
  represents a k -> complete a -> page_ok tf ->
  exists r k' a', proc_pagetable tf c k = Done r c k' /\
    ((r = 0 /\ took [] a a' k k') \/
     exists t, r <> 0 /\ r = pt_root t /\ vm_ok a' t k' /\ pt_is k' t (proc_map tf) /\ took (pt_pages t) a a' k k').
Proof.
  intros Hr Ha Htf. pose proof trampoline_range as Htr. pose proof trampoline_aligned as Hta. pose proof etext_range. pose proof end_range.
  destruct (page_ok_range tf Htf) as [Htf1 Htf2]. unfold proc_pagetable.
  destruct (uvmcreate_ok a k Hr Ha) as (p & k1 & a1 & E1 & [(-> & T)|(Hp0 & T & Hv1 & Hf1)]); erewrite bind_done by exact E1.
  { exists 0, k1, a1. split; [done|]. by left. }
  destruct (Z.eqb_spec p 0) as [|_]; [done|].
  destruct (mappages_ok 1 trampoline (Z.lor PTE_R PTE_X) c a1 (table_only p) k1 TRAMPOLINE _ Hv1 HK HR HP Hf1)
    as (a2 & t2 & k2 & r2 & j2 & E2 & Hv2 & F2 & Hf2 & _ & Hr2); [lia|done|done|done|lia|zlia|done|done|].
  destruct (took_frame [] a a1 a2 (table_only p) t2 k k1 k2) as [T2 _]; [exact T|by intros q ?%elem_of_nil|done|done|].
  pose proof (proj1 (vf_sub _ _ _ _ _ _ F2)) as R2. cbn [table_only pt_root] in R2, E2.
  change (1 * PGSIZE) with PGSIZE in E2. erewrite bind_done by exact E2. destruct Hr2 as [[-> ->]|(-> & Hj2 & _)]; cbn [Z.ltb Z.compare].
  2: { assert (j2 = 0) as -> by lia. destruct (undo_tables a a2 t2 k k2 (fun _ => 0)) as (k' & a' & E' & T'); try done.
       { intros v Hv. rewrite Hf2 by done. apply mapped_0. }
       exists 0, k', a'. rewrite R2. erewrite bind_done by exact E'. split; [done|]. by left. }
  destruct (mappages_ok 1 tf (Z.lor PTE_R PTE_W) c a2 t2 k2 TRAPFRAME _ Hv2 HK HR HP Hf2)
    as (a3 & t3 & k3 & r3 & j3 & E3 & Hv3 & F3 & Hf3 & _ & Hr3); [lia|done|done|done|lia|zlia|done| |].
  { intros v Hv. rewrite mapped_1. rewrite decide_False by lia. done. }
  destruct (took_frame [] a a2 a3 t2 t3 k k2 k3) as [T3 _]; [exact T2|by intros q ?%elem_of_nil|done|done|].
  pose proof (proj1 (vf_sub _ _ _ _ _ _ F3)) as R3. change (1 * PGSIZE) with PGSIZE in E3. rewrite <- R2 in E3.
  erewrite bind_done by exact E3. destruct Hr3 as [[-> ->]|(-> & Hj3 & _)]; cbn [Z.ltb Z.compare].
  { exists p, k3, a3. split; [done|]. right. exists t3. split; [done|]. split; [congruence|]. done. }
  assert (j3 = 0) as -> by lia. rewrite R2, R3.
  destruct (uvmunmap_keep a3 t3 k3 _ TRAMPOLINE Hv3 Hf3) as (k4 & E4 & Hv4 & Hf4 & F4); [done|done|].
  erewrite bind_done by exact E4. destruct (undo_tables a a3 t3 k k4 (fun _ => 0)) as (k' & a' & E' & T').
  - eapply took_write; [exact T3|exact F4|]. by intros q Hq.
  - exact Hv4.
  - intros v Hv. rewrite Hf4 by done. unfold unmapped. rewrite mapped_0, mapped_1.
    destruct (decide _) as [Hd|Hd]; [|done]. by rewrite trampoline_valid.
  - done.
  - exists 0, k', a'. erewrite bind_done by exact E'. split; [done|]. by left.
Qed.

(** ** Freeing *)

Lemma user_pages_ext f g sz :
  0 <= sz -> sz mod PGSIZE = 0 -> (forall v, 0 <= v < sz -> f v = g v) -> user_pages f sz = user_pages g sz.
Proof.
  intros Hsz Ha E. unfold user_pages.
  assert (Hl : forall i, i ∈ seqZ 0 (sz / PGSIZE) -> f (i * PGSIZE) = g (i * PGSIZE)).
  { intros i Hi%elem_of_seqZ. apply E. zlia. }
  revert Hl. generalize (seqZ 0 (sz / PGSIZE)) as l. induction l as [|i l IH]; intros Hl; [done|]. cbn [mbind list_bind].
  rewrite (Hl i (list_elem_of_here _ _)). f_equal. apply IH. intros j Hj. apply Hl. by right.
Qed.

(** The address space [f] of a process of size [sz]: its memory, nothing between that and the trapframe. *)
Record space (a : alloc_spec) (k : kernel) (t : ptree) (f : Z -> Z) (sz : Z) : Prop := {
  sp_vm : vm_ok a t k;
  sp_is : pt_is k t f;
  sp_um : um_ok a t f (PGROUNDUP sz);
  sp_sz : 0 <= sz <= TRAPFRAME;
  sp_hi : forall v, PGROUNDUP sz <= v < TRAPFRAME -> flag (f v) PTE_V = false
}.

(** The pages that belong to it. *)
Definition space_pages (t : ptree) (f : Z -> Z) (sz : Z) : list Z := user_pages f (PGROUNDUP sz) ++ pt_pages t.

Lemma space_pages_own a k t f sz q : space a k t f sz -> q ∈ space_pages t f sz -> page_ok q /\ a_ref a q = 1.
Proof.
  intros [Hv Hf Hu Hsz Hhi] Hq. destruct (PGROUNDUP_bounds sz) as [Hn Hna]; [lia|].
  apply elem_of_app in Hq as [Hq|Hq].
  - apply (elem_of_user_pages k t) in Hq as (v & Hvr & HV & <-); [split; by apply Hu|done|done|zlia].
  - split; [by eapply wf_page_ok; [apply Hv|]|by apply (vo_own _ _ _ Hv)].
Qed.

Lemma space_user_page a k t f sz v :
  space a k t f sz -> 0 <= v < PGROUNDUP sz -> flag (f v) PTE_V = true -> PTE2PA (f v) ∈ space_pages t f sz.
Proof.
  intros [Hv Hf Hu Hsz Hhi] Hvr HV. destruct (PGROUNDUP_bounds sz) as [Hn Hna]; [lia|]. apply elem_of_app. left.
  apply (elem_of_user_pages k t); [done|done|zlia|]. by exists v.
Qed.

(** A step that keeps the pages of the process keeps its address space. *)
Lemma space_keeps P a a' k k' t f sz :
  space a k t f sz -> keeps P a a' k k' -> represents a' k' -> complete a' -> (forall q, q ∈ space_pages t f sz -> P q) ->
  space a' k' t f sz.
Proof.
  intros Hs K Hr Ha HPq. pose proof (space_pages_own a k t f sz) as Hown. pose proof (space_user_page a k t f sz) as Hup.
  pose proof Hs as [Hv Hf Hu Hsz Hhi].
  assert (Hrd : forall q i, q ∈ pt_pages t -> 0 <= i < 512 -> rd64 (mem k') (pte_addr q i) = rd64 (mem k) (pte_addr q i)).
  { intros q i Hq Hi. apply rdn_ext. intros x Hx. pose proof (wf_page_ok _ _ _ (vo_wf _ _ _ Hv) Hq) as Hqo.
    apply (kp_mem _ _ _ _ _ K q); [done| |pose proof (pte_addr_in q i Hqo Hi); lia]. apply HPq, elem_of_app. by right. }
  assert (Href : forall q, q ∈ space_pages t f sz -> a_ref a' q = 1).
  { intros q Hq. destruct (Hown q Hs Hq). rewrite (kp_ref _ _ _ _ _ K); auto. }
  split; try done.
  - split; [done|done| |intros q Hq; apply Href, elem_of_app; by right].
    eapply pt_wf_frame; [apply Hv|]. intros q i Hq Hi. apply Hrd; [|done].
    destruct Hq as [->|[j Hj]]; [apply pt_root_in|by eapply pt_mid_in].
  - intros va Hva. rewrite <- Hf by done. apply pte_at_frame. intros q Hq. apply Hrd; [by eapply pt_low_in|]. apply PX_range; lia.
  - split; [apply Hu| |apply Hu|apply Hu]. intros v Hvr HV. apply Href. by apply Hup.
Qed.

(** Both pages above the memory of the process are unmapped and not freed, the rest is. *)
Lemma proc_freepagetable_ok a k t f sz :
  space a k t f sz ->
  exists a' k', proc_freepagetable (pt_root t) sz c k = Done tt c k' /\ freed (space_pages t f sz) [] a a' k k'.
Proof.
  intros [Hv Hf Hu Hsz Hhi]. destruct (PGROUNDUP_bounds sz) as [Hn Hna]; [lia|]. assert (Hmax : PGROUNDUP sz <= TRAPFRAME) by zlia.
  unfold proc_freepagetable.
  destruct (uvmunmap_keep a t k f TRAMPOLINE Hv Hf) as (k1 & E1 & Hv1 & Hf1 & F1); [done|done|].
  destruct (uvmunmap_keep a t k1 _ TRAPFRAME Hv1 Hf1) as (k2 & E2 & Hv2 & Hf2 & F2); [done|done|].
  set (g := unmapped (unmapped f _ _) _ _) in *.
  assert (Elow : forall v, 0 <= v < PGROUNDUP sz -> f v = g v).
  { intros v Hvr. unfold g, unmapped. by rewrite !decide_False by lia. }
  destruct (uvmfree_ok c HK HR HP a t k2 g sz Hv2 Hf2) as (a' & k' & E3 & F3); [by eapply um_ok_ext|lia| |].
  { intros v Hvr. destruct (flag (g v) PTE_V) eqn:HV; [|done]. apply unmapped_valid in HV as (HV & Hd1 & _).
    apply unmapped_valid in HV as (HV & Hd2 & _). rewrite Hhi in HV; [done|lia]. }
  exists a', k'. erewrite bind_done by exact E1. erewrite bind_done by exact E2. split; [exact E3|].
  unfold space_pages. rewrite (user_pages_ext f g) by (done || lia).
  assert (Eq : forall q, q ∈ user_pages g (PGROUNDUP sz) ++ tree_pages t <-> q ∈ user_pages g (PGROUNDUP sz) ++ pt_pages t).
  { intros q. rewrite !elem_of_app. by rewrite (elem_of_tree_pages (mem k) t q (vo_wf _ _ _ Hv)). }
  eapply freed_dirty; [|eapply (freed_perm _ _ _ _ _ _ _ Eq), (freed_app [] _ (pt_pages t)); [exact F1|];
    apply (freed_app [] _ (pt_pages t)) with a k2; [exact F2|]; eapply freed_dirty; [|exact F3]]; [|by intros q ?%elem_of_nil].
  intros q Hq. left. apply elem_of_app. by right.
Qed.

(** ** [freeproc] *)

(** The pages a slot of [proc[]] holds: none, a trapframe, or a trapframe and an address space. *)
Inductive holds (a : alloc_spec) (k : kernel) (p : proc) : list Z -> Prop :=
| holds_none : p_trapframe p = 0 -> p_pagetable p = 0 -> holds a k p []
| holds_frame :
    page_ok (p_trapframe p) -> a_ref a (p_trapframe p) = 1 -> p_pagetable p = 0 -> holds a k p [p_trapframe p]
| holds_space t f :
    page_ok (p_trapframe p) -> a_ref a (p_trapframe p) = 1 -> p_pagetable p = pt_root t -> space a k t f (p_sz p) ->
    p_trapframe p ∉ space_pages t f (p_sz p) -> holds a k p (p_trapframe p :: space_pages t f (p_sz p)).

(** The slot after [freeproc]; the priority, the context and the open files are not reset. *)
Definition wiped (p : proc) : proc :=
  p <| p_pagetable := 0 |> <| p_sz := 0 |> <| p_pid := 0 |> <| p_parent := None |>
    <| p_name ::= fun s => setz s 0 0 |> <| p_chan := CNull |> <| p_killed := 0 |> <| p_xstate := 0 |> <| p_state := UNUSED |>.

Definition cleared (p : proc) : proc := wiped (p <| p_trapframe := 0 |>).

Lemma space_over a k s t f sz : space a k t f sz -> space a (over k s) t f sz.
Proof. intros [[V1 V2 V3 V4] S2 S3 S4 S5]. split; [split; [by apply represents_over|assumption..]|assumption..]. Qed.

Lemma user_ok_valid f v : user_ok f v = true -> flag (f v) PTE_V = true.
Proof. unfold user_ok. by intros [? _]%andb_true_iff. Qed.

(** [copyout] to memory the process may write: only its pages change. *)
Lemma copyout_space (c1 : cpu) a k t f sz dst src len :
  space a k t f sz -> 0 <= dst -> 0 <= len -> dst + len <= PGROUNDUP sz -> len <= Z.of_nat (length src) ->
  (forall v, dst <= v < dst + len -> user_ok f v = true /\ flag (f v) PTE_W = true) ->
  exists k', copyout (pt_root t) dst src len c1 k = Done 0 c1 k' /\ space a k' t f sz /\
    keeps (fun q => q ∉ space_pages t f sz) a a k k' /\
    forall v, 0 <= v < PGROUNDUP sz -> flag (f v) PTE_V = true -> ubyte (mem k') f v =
      if decide (dst <= v < dst + len) then u8 (nthd 0 src (v - dst)) else ubyte (mem k) f v.
Proof.
  intros Hs Hd Hl Hsz Hlen Hacc. pose proof Hs as [Hv Hf Hu Hsz' Hhi]. destruct (PGROUNDUP_bounds sz) as [Hn Hna]; [lia|].
  destruct (copyout_ok c1 a t k f (PGROUNDUP sz) dst src len) as (k1 & E & Hv1 & Hf1 & K & Hb); try done; [zlia|].
  exists k1. split; [done|]. split; [by split|]. split; [|done]. eapply keeps_weaken; [|exact K]. intros q Hq v Hvr <-. apply Hq.
  apply (space_user_page a k); [done|lia|]. by apply user_ok_valid, Hacc.
Qed.

(** The two steps that free pages, on whatever the slot holds. *)
Lemma freeproc_frame p ps a k :
  represents a k -> complete a -> holds a k p ps ->
  exists a1 k1 qs, (if negb (p_trapframe p =? 0) then kfree (p_trapframe p) else ret tt) c k = Done tt c k1 /\
    freed (if p_trapframe p =? 0 then [] else [p_trapframe p]) [] a a1 k k1 /\
    ps = (if p_trapframe p =? 0 then [] else [p_trapframe p]) ++ qs /\
    ((p_pagetable p = 0 /\ qs = []) \/
     exists t f, p_pagetable p = pt_root t /\ p_pagetable p <> 0 /\ qs = space_pages t f (p_sz p) /\ space a1 k1 t f (p_sz p)).
Proof.
  intros Hr Ha Hh.
  assert (Htf : page_ok (p_trapframe p) -> a_ref a (p_trapframe p) = 1 ->
    exists a1 k1, (if negb (p_trapframe p =? 0) then kfree (p_trapframe p) else ret tt) c k = Done tt c k1 /\
      freed [p_trapframe p] [] a a1 k k1 /\ (p_trapframe p =? 0) = false).
  { intros Hp H1. destruct (page_ok_range _ Hp) as [Hrg _]. destruct (Z.eqb_spec (p_trapframe p) 0) as [|_]; [lia|]. cbn [negb].
    destruct (kfree_frees c HK HR HP (mem k) (p_trapframe p)) with (a := a) (k := k) as (a1 & k1 & E & F); try done.
    - apply NoDup_singleton.
    - by apply Forall_singleton.
    - by intros q ->%list_elem_of_singleton.
    - exists a1, k1. done. }
  destruct Hh as [E1 E2|Hp H1 E2|t f Hp H1 E2 Hs Hn].
  - exists a, k, []. rewrite E1. split; [done|]. split; [by apply freed_nil|]. split; [done|]. by left.
  - destruct (Htf Hp H1) as (a1 & k1 & E & F & E0). rewrite E0 in *. exists a1, k1, []. split; [done|]. split; [done|]. split; [done|]. by left.
  - destruct (Htf Hp H1) as (a1 & k1 & E & F & E0). rewrite E0 in *. exists a1, k1, (space_pages t f (p_sz p)). split; [done|]. split; [done|].
    split; [done|]. right. exists t, f. split; [done|]. split.
    + rewrite E2. destruct (page_ok_range (pt_root t)); [|lia]. eapply wf_page_ok; [apply (vo_wf _ _ _ (sp_vm _ _ _ _ _ Hs))|apply pt_root_in].
    + split; [done|]. eapply space_keeps; [exact Hs|by apply freed_keeps|apply F|apply F|]. intros q Hq.
      destruct (space_pages_own _ _ _ _ _ _ Hs Hq) as [_ Eq]. split; [lia|]. intros ->%list_elem_of_singleton. done.
Qed.

(** [freeproc] returns what the slot holds and makes it UNUSED; nothing else changes. *)
Lemma freeproc_ok i p ps a k :
  procs k !! i = Some p -> represents a k -> complete a -> holds a k p ps ->
  exists a' k', freeproc i c k = Done tt c (over k' (k <| procs ::= alter cleared i |>)) /\ freed ps [] a a' k k'.
Proof.
  intros Hi Hr Ha Hh. destruct (freeproc_frame p ps a k Hr Ha Hh) as (a1 & k1 & qs & E1 & F1 & -> & Hq).
  set (s := k <| procs ::= alter (fun p => p <| p_trapframe := 0 |>) i |>).
  assert (H2 : exists a' k2, (if negb (p_pagetable p =? 0) then proc_freepagetable (p_pagetable p) (p_sz p) else ret tt)
      c (over k1 s) = Done tt c k2 /\ freed qs [] a1 a' (over k1 s) k2).
  { destruct Hq as [[-> ->]|(t & f & -> & H0 & -> & Hs)].
    - exists a1, (over k1 s). split; [done|]. apply freed_nil; [apply represents_over, F1|apply F1].
    - destruct (Z.eqb_spec (pt_root t) 0) as [|_]; [done|]. cbn [negb]. by apply proc_freepagetable_ok, space_over. }
  destruct H2 as (a' & k2 & E2 & F2). exists a', (over k2 k). split; [|by eapply freed_via].
  unfold freeproc. erewrite bind_done by (by apply getproc_done). erewrite bind_done by exact E1.
  erewrite bind_done by (apply modproc_done).
  replace (k1 <| procs ::= alter _ i |>) with (over k1 s) by (rewrite <- (over_same k k1 (fr_kernel _ _ _ _ _ _ F1)); reflexivity).
  erewrite bind_done by (apply (getproc_done i (p <| p_trapframe := 0 |>));
    change (procs (over k1 s)) with (alter (fun p => p <| p_trapframe := 0 |>) i (procs k)); by rewrite list_lookup_alter_eq, Hi).
  erewrite bind_done by exact E2. etransitivity; [exact (modproc_done i wiped c k2)|]. f_equal.
  rewrite over_over, <- (over_same _ k2 (fr_kernel _ _ _ _ _ _ F2)), over_over.
  change (over k2 (over k1 s)) with (over k2 s). unfold s.
  transitivity (over k2 (k <| procs := alter wiped i (alter (fun p => p <| p_trapframe := 0 |>) i (procs k)) |>)); [reflexivity|].
  by rewrite list_alter_alter.
Qed.

End procmem.
