(* ===== verification/ProcLife.v ===== *)
(** * The life of a process: [allocproc], [kfork] and [kwait] of [proc.c]

    [allocproc] fills the first free slot or takes nothing; [kfork] makes the copy of the caller's
    memory, registers, files and directory that [fork] promises; [kwait] returns all of it. *)

From S2P Require Import Prelude Riscv CString Kernel Printf Kalloc Vm UserMem VmFree Args Sched Fs File Proc ProcMem.
From stdpp Require Import base numbers strings gmap list.
From Stdlib Require Import ZArith Lia.

#[local] Open Scope Z_scope.
#[local] Open Scope kernel_scope.

Lemma list_alter_insert {A} (f : A -> A) (l : list A) i x : alter f i (<[i := x]> l) = <[i := f x]> l.
Proof. revert i. induction l as [|y l IH]; intros [|i]; try done. cbn. f_equal. apply IH. Qed.

(** A slot that holds nothing, as [freeproc] leaves it. *)
Definition empty_slot (p : proc) : Prop := p_state p = UNUSED /\ p_trapframe p = 0 /\ p_pagetable p = 0 /\ p_sz p = 0.

Section alloc.
Context {LK : Linker} {LKO : LinkerOk}.
Implicit Types (k : kernel) (t : ptree).

(** The slot [p] after [allocproc] took it. *)
Definition new_proc (pid tf pt : Z) (p : proc) : proc :=
  p <| p_pid := pid |> <| p_state := USED |> <| p_priority := if Z.rem pid 2 =? 0 then 10 else 1 |>
    <| p_trapframe := tf |> <| p_pagetable := pt |>
    <| p_context := context_0 <| cx_ra := forkret_pc |> <| cx_sp := p_kstack p + PGSIZE |> |>.

(** The kernel with slot [i] replaced. *)
Definition with_slot (k : kernel) (i : nat) (q : proc) (n : Z) : kernel :=
  k <| procs := <[i := q]> (procs k) |> <| nextpid := n |>.

Lemma with_slot_get k i p q n : procs k !! i = Some p -> procs (with_slot k i q n) !! i = Some q.
Proof. intros Hi. apply list_lookup_insert_eq. by eapply lookup_lt_Some. Qed.

Lemma with_slot_id k i p : procs k !! i = Some p -> with_slot k i p (nextpid k) = k.
Proof. intros Hi. unfold with_slot. rewrite list_insert_id by done. by destruct k. Qed.

Lemma modproc_slot i f c kp k q n :
  modproc i f c (over kp (with_slot k i q n)) = Done tt c (over kp (with_slot k i (f q) n)).
Proof.
  rewrite modproc_done. f_equal. unfold with_slot. rewrite <- (list_alter_insert f (procs k) i q). reflexivity.
Qed.

Lemma getproc_slot i c kp k p q n :
  procs k !! i = Some p -> getproc i c (over kp (with_slot k i q n)) = Done q c (over kp (with_slot k i q n)).
Proof. intros Hi. apply getproc_done. exact (with_slot_get k i p q n Hi). Qed.

Lemma allocpid_ok c k :
  LPid ∉ held c -> allocpid c k = Done (nextpid k) c (k <| nextpid := i32 (nextpid k + 1) |>).
Proof.
  intros Hp. unfold allocpid. erewrite bind_done by (by apply acquire_ok). erewrite bind_done by reflexivity.
  erewrite bind_done by reflexivity. erewrite bind_done by (by apply release_ok). reflexivity.
Qed.

(** [freeproc] and [release] at the end of a failed [allocproc] or [kfork]. *)
Lemma give_back {A} i c kp k p q n ps a (r : A) :
  LKmem ∉ held c -> LRef ∉ held c -> LPr ∉ held c -> LProc i ∉ held c -> procs k !! i = Some p ->
  represents a kp -> complete a -> holds a kp q ps ->
  exists a' k', (freeproc i ;; release (LProc i) ;; ret r) (c <| held := LProc i :: held c |>) (over kp (with_slot k i q n)) =
      Done r c (over k' (with_slot k i (cleared q) n)) /\ freed ps [] a a' kp k'.
Proof.
  intros HK HR HP HL Hi Hr Ha Hh. set (c1 := c <| held := LProc i :: held c |>).
  assert (HK1 : LKmem ∉ held c1) by (by intros [?|?]%elem_of_cons).
  assert (HR1 : LRef ∉ held c1) by (by intros [?|?]%elem_of_cons).
  assert (HP1 : LPr ∉ held c1) by (by intros [?|?]%elem_of_cons).
  destruct (freeproc_ok c1 HK1 HR1 HP1 i q ps a (over kp (with_slot k i q n))) as (a' & k' & E & F).
  - exact (with_slot_get k i p q n Hi).
  - by apply represents_over.
  - done.
  - destruct Hh as [E1 E2|H1 H2 E2|t f H1 H2 E2 Hs Hn]; [by apply holds_none|by apply holds_frame|].
    apply holds_space; try done. by apply space_over.
  - destruct (freed_lift _ _ _ _ _ _ _ F) as [Ek F']. exists a', (over k' kp). split; [|done].
    erewrite bind_done by exact E. erewrite bind_done by (by apply release_ok).
    unfold ret. f_equal. unfold with_slot. rewrite <- (list_alter_insert cleared (procs k) i q). reflexivity.
Qed.

(** The label [found]: a trapframe and a page table, or nothing. *)
Lemma allocproc_found_ok i c k p a :
  LKmem ∉ held c -> LRef ∉ held c -> LPr ∉ held c -> LPid ∉ held c -> LProc i ∉ held c -> procs k !! i = Some p ->
  empty_slot p -> represents a k -> complete a ->
  exists (o : option nat) (q : proc) a' k', let c1 := c <| held := LProc i :: held c |> in
    allocproc_found i c1 k = Done o (match o with Some _ => c1 | None => c end) (over k' (with_slot k i q (i32 (nextpid k + 1)))) /\
    match o with
    | None => empty_slot q /\ took [] a a' k k'
    | Some j => j = i /\ exists t, page_ok (p_trapframe q) /\ q = new_proc (nextpid k) (p_trapframe q) (pt_root t) p /\
        vm_ok a' t k' /\ pt_is k' t (proc_map (p_trapframe q)) /\ (p_trapframe q ∉ pt_pages t) /\
        took (p_trapframe q :: pt_pages t) a a' k k'
    end.
Proof.
  intros HK HR HP HN HL Hi (Hst & Htf & Hpt & Hsz) Hr Ha. set (n := i32 (nextpid k + 1)). set (c1 := c <| held := LProc i :: held c |>).
  assert (HK1 : LKmem ∉ held c1) by (by intros [?|?]%elem_of_cons).
  assert (HR1 : LRef ∉ held c1) by (by intros [?|?]%elem_of_cons).
  assert (HP1 : LPr ∉ held c1) by (by intros [?|?]%elem_of_cons).
  assert (E0 : k <| nextpid := n |> = over k (with_slot k i p n)).
  { unfold with_slot. rewrite list_insert_id by done. by destruct k. }
  set (q3 := p <| p_pid := nextpid k |> <| p_state := USED |> <| p_priority := if Z.rem (nextpid k) 2 =? 0 then 10 else 1 |>).
  destruct (kalloc_took c1 HK1 HR1 HP1 a (over k (with_slot k i q3 n))) as (tf & k4 & E4 & H4); [by apply represents_over|done|].
  unfold allocproc_found. erewrite bind_done by (apply allocpid_ok; by intros [?|?]%elem_of_cons). fold n. rewrite E0.
  do 3 (erewrite bind_done by apply modproc_slot). fold q3. erewrite bind_done by exact E4.
  destruct H4 as [(-> & _ & T4)|(a4 & H0 & Hp4 & T4)]; destruct (took_lift _ _ _ _ _ _ T4) as [Ek4 T4']; rewrite Ek4; clear T4 Ek4;
    erewrite bind_done by apply modproc_slot.
  { destruct (give_back i c (over k4 k) k p (q3 <| p_trapframe := 0 |>) n [] a (@None nat)) as (a' & k' & E & F); try done; try apply T4'.
    { by apply holds_none. }
    exists None, (cleared (q3 <| p_trapframe := 0 |>)), a', k'. split; [exact E|]. split; [done|]. by eapply took_freed_all. }
  destruct (Z.eqb_spec tf 0) as [|_]; [done|]. set (kp := over k4 k) in *. set (q4 := q3 <| p_trapframe := tf |>).
  destruct (proc_pagetable_ok c1 HK1 HR1 HP1 a4 (over kp (with_slot k i q4 n)) tf) as (r & k5 & a5 & E5 & H5);
    [apply represents_over, T4'|apply T4'|done|]. erewrite bind_done by exact E5.
  destruct H5 as [(-> & T5)|(t & Hr5 & Er & Hv5 & Hf5 & T5)]; destruct (took_lift _ _ _ _ _ _ T5) as [Ek5 T5']; rewrite Ek5;
    erewrite bind_done by apply modproc_slot.
  { destruct (give_back i c (over k5 kp) k p (q4 <| p_pagetable := 0 |>) n [tf] a5 (@None nat)) as (a' & k' & E & F); try done; try apply T5'.
    { apply holds_frame; [done| |done]. cbn. rewrite (tk_ref _ _ _ _ _ T5'), (tk_ref _ _ _ _ _ T4') by done.
      by rewrite decide_False, decide_True by (apply not_elem_of_nil || apply list_elem_of_here). }
    exists None, (cleared (q4 <| p_pagetable := 0 |>)), a', k'. split; [exact E|]. split; [done|].
    eapply took_freed_all; [|exact F]. exact (took_app _ _ _ _ _ _ _ _ T4' T5'). }
  destruct (Z.eqb_spec r 0) as [|_]; [done|]. set (kp5 := over k5 kp) in *.
  do 3 (erewrite bind_done by apply modproc_slot). rewrite Er.
  exists (Some i), (new_proc (nextpid k) tf (pt_root t) p), a5, kp5. split; [reflexivity|]. split; [done|]. exists t.
  change (p_trapframe (new_proc (nextpid k) tf (pt_root t) p)) with tf. split; [done|]. split; [done|].
  destruct Hv5 as [V1 V2 V3 V4]. split; [split; [apply T5'|assumption..]|]. split; [exact Hf5|]. split.
  - intros Hin. destruct (tk_new _ _ _ _ _ T5 tf Hin) as [_ Hz]. rewrite (tk_ref _ _ _ _ _ T4') in Hz by done.
    by rewrite decide_True in Hz by apply list_elem_of_here.
  - exact (took_app _ _ _ _ _ _ _ _ T4' T5').
Qed.

(** Slots in use. *)
Definition in_use (k : kernel) (i : nat) : Prop := exists p, procs k !! i = Some p /\ p_state p <> UNUSED.

(** [allocproc]: the first free slot is filled and its lock held; without one, or without memory,
    nothing is taken. *)
Lemma allocproc_loop_ok m i c k a :
  LKmem ∉ held c -> LRef ∉ held c -> LPr ∉ held c -> LPid ∉ held c -> (forall j, LProc j ∉ held c) ->
  (i + m = length (procs k))%nat -> (forall j p, procs k !! j = Some p -> p_state p = UNUSED -> empty_slot p) ->
  represents a k -> complete a -> (forall j, (j < i)%nat -> in_use k j) ->
  (allocproc_loop m i c k = Done None c k /\ forall j, (j < length (procs k))%nat -> in_use k j) \/
  exists j p, procs k !! j = Some p /\ p_state p = UNUSED /\ (forall l, (l < j)%nat -> in_use k l) /\
    allocproc_loop m i c k = allocproc_found j (c <| held := LProc j :: held c |>) k.
Proof.
  intros HK HR HP HN HL. revert i. induction m as [|m IH]; intros i Hlen Hslot Hr Ha Huse.
  { left. split; [done|]. intros j Hj. apply Huse. lia. }
  destruct (lookup_lt_is_Some_2 (procs k) i) as [p Hi]; [lia|]. cbn [allocproc_loop].
  erewrite bind_done by (by apply acquire_ok). erewrite bind_done by (by apply getproc_done).
  destruct (decide (p_state p = UNUSED)) as [Hu|Hu].
  - right. exists i, p. done.
  - erewrite bind_done by (by apply release_ok). apply IH; try done; [lia|]. intros j Hj.
    destruct (decide (j = i)) as [->|]; [by exists p|]. apply Huse. lia.
Qed.

(** ** Copying the memory *)

Lemma took_ref_old ps a a' k k' q : took ps a a' k k' -> page_ok q -> a_ref a q <> 0 -> (q ∉ ps) /\ a_ref a' q = a_ref a q.
Proof.
  intros T Hq Hz. assert (Hn : q ∉ ps) by (intros Hin; by destruct (tk_new _ _ _ _ _ T q Hin)).
  split; [done|]. by rewrite (tk_ref _ _ _ _ _ T), decide_False.
Qed.

Lemma took_keeps ps a a' k k' : took ps a a' k k' -> keeps (fun q => a_ref a q <> 0) a a' k k'.
Proof.
  intros T. split; [|intros q x Hq Hz Hx; by apply (tk_mem _ _ _ _ _ T q)|apply T].
  intros q Hq Hz. by apply (took_ref_old ps a a' k k').
Qed.

Lemma vm_ok_over a t k s : vm_ok a t k -> vm_ok a t (over k s).
Proof. intros [V1 V2 V3 V4]. split; [by apply represents_over|assumption..]. Qed.

(** Growing an address space that was just taken: its new pages are taken too. *)
Lemma took_grown ps a a1 a2 t t2 k k1 k2 g hi :
  took (ps ++ pt_pages t) a a1 k k1 -> (forall q, q ∈ ps -> q ∉ pt_pages t) -> grown a1 a2 t t2 k1 k2 g hi ->
  hi mod PGSIZE = 0 -> 0 <= hi <= MAXVA -> (forall q, user_page g hi q -> a_ref a1 q = 0) ->
  took (ps ++ user_pages g hi ++ pt_pages t2) a a2 k k2.
Proof.
  intros T Hd (Hv & Hf & Hu & G & A) Hal Hhi Hfresh.
  assert (Hup : forall q, q ∈ user_pages g hi <-> user_page g hi q) by (intros q; by apply (elem_of_user_pages k2 t2)).
  assert (Hold : forall q, page_ok q -> a_ref a1 q = 0 -> a_ref a q = 0).
  { intros q Hq Hz. rewrite (tk_ref _ _ _ _ _ T) in Hz by done. by destruct (decide _). }
  assert (Hkeep : forall q, page_ok q -> a_ref a1 q <> 0 -> q ∉ pt_pages t -> a_ref a2 q = a_ref a1 q).
  { intros q Hq Hz Hn. by apply (kp_ref _ _ _ _ _ (gf_keeps _ _ _ _ _ _ G)). }
  assert (Hps : forall q, q ∈ ps -> page_ok q /\ a_ref a1 q = 1).
  { intros q Hq. assert (Hin : q ∈ ps ++ pt_pages t) by (apply elem_of_app; by left).
    destruct (tk_new _ _ _ _ _ T q Hin). split; [done|]. by rewrite (tk_ref _ _ _ _ _ T), decide_True. }
  split; [apply Hv|apply Hv| | | |eapply only_pages_trans; [apply T|apply (gf_keeps _ _ _ _ _ _ G)]].
  - intros q [Hq|[Hq|Hq]%elem_of_app]%elem_of_app.
    + apply (tk_new _ _ _ _ _ T), elem_of_app. by left.
    + apply Hup in Hq. pose proof (Hfresh q Hq) as Hz. destruct Hq as (v & Hvr & HV & <-). split; [by apply Hu|].
      apply Hold; [by apply Hu|done].
    + assert (Hqo : page_ok q) by (by eapply wf_page_ok; [apply Hv|]). split; [done|].
      destruct (gf_new _ _ _ _ _ _ G q Hq) as [Hin|Hz]; [apply (tk_new _ _ _ _ _ T), elem_of_app; by right|by apply Hold].
  - intros q Hq. destruct (decide _) as [[Hin|[Hin|Hin]%elem_of_app]%elem_of_app|Hn].
    + destruct (Hps q Hin) as [_ E]. rewrite Hkeep; [done|done|lia|by apply Hd].
    + apply Hup in Hin as (v & Hvr & HV & <-). by apply Hu.
    + by apply (vo_own _ _ _ Hv).
    + rewrite !elem_of_app in Hn. assert (Hn1 : q ∉ ps ++ pt_pages t).
      { intros [?|?%(gf_sub _ _ _ _ _ _ G)]%elem_of_app; tauto. }
      pose proof (tk_ref _ _ _ _ _ T q Hq) as E. rewrite decide_False in E by done. rewrite <- E.
      destruct (decide (a_ref a1 q = 0)) as [Hz|Hz]; [|apply Hkeep; [done..|]; intros ?; apply Hn1, elem_of_app; by right].
      rewrite Hz. destruct (decide (a_ref a2 q = 0)) as [|Hz2]; [done|]. destruct (A q Hq Hz2) as [|[?|?%Hup]]; tauto.
  - intros q x Hq Hz Hx. destruct (took_ref_old _ _ _ _ _ _ T Hq Hz) as [Hn E].
    rewrite (kp_mem _ _ _ _ _ (gf_keeps _ _ _ _ _ _ G) q); [by apply (tk_mem _ _ _ _ _ T q)|done| |done].
    split; [by rewrite E|]. intros ?. apply Hn, elem_of_app. by right.
Qed.

(** What a new page table maps. *)
Lemma proc_map_low tf v : 0 <= v < TRAPFRAME -> proc_map tf v = 0.
Proof. intros Hv. unfold proc_map. rewrite !mapped_1. by rewrite !decide_False by lia. Qed.

(** The child sees the memory of its parent. *)
Definition same_memory (m m' : memory) (fp g : Z -> Z) (tf sz : Z) : Prop :=
  (forall v, 0 <= v < PGROUNDUP sz -> flag (fp v) PTE_V = true ->
    PTE_FLAGS (g v) = Z.lor (PTE_FLAGS (fp v)) PTE_V /\ ubyte m' g v = ubyte m fp v) /\
  (forall v, 0 <= v < MAXVA -> ~ (v < PGROUNDUP sz /\ flag (fp v) PTE_V = true) -> g v = proc_map tf v).

Lemma grown_lift a1 a2 t t2 k1 s k2 g hi :
  grown a1 a2 t t2 (over k1 s) k2 g hi -> k2 = over (over k2 k1) s /\ grown a1 a2 t t2 k1 (over k2 k1) g hi.
Proof.
  intros (Hv & Hf & Hu & [G1 G2 G3 [K1 K2 K3]] & A). split; [rewrite over_over; symmetry; exact (over_same _ k2 K3)|].
  split; [by apply vm_ok_over|]. split; [exact Hf|]. split; [exact Hu|]. split; [|exact A].
  split; [exact G1|exact G2|exact G3|]. split; [exact K1|exact K2|reflexivity].
Qed.

Lemma parent_of_space a a1 k k1 t tp fp sz ps s :
  took (ps ++ pt_pages t) a a1 k k1 -> space a k tp fp sz -> parent_ok a1 t (over k1 s) tp fp (PGROUNDUP sz).
Proof.
  intros T Hs. assert (Hs1 : space a1 (over k1 s) tp fp sz).
  { apply space_over. eapply space_keeps; [exact Hs|by eapply took_keeps|apply T|apply T|]. intros q Hq.
    destruct (space_pages_own _ _ _ _ _ _ Hs Hq) as [_ E]. rewrite E. done. }
  assert (Hout : forall q, q ∈ space_pages tp fp sz -> a_ref a1 q <> 0 /\ q ∉ pt_pages t).
  { intros q Hq. destruct (space_pages_own _ _ _ _ _ _ Hs1 Hq) as [Hqo E1]. destruct (space_pages_own _ _ _ _ _ _ Hs Hq) as [_ E].
    split; [by rewrite E1|]. intros Hin. destruct (tk_new _ _ _ _ _ T q) as [_ Hz]; [apply elem_of_app; by right|congruence]. }
  pose proof (fun v => space_user_page _ _ _ _ _ v Hs1) as Hup. destruct Hs1 as [Hv Hf Hu Hsz Hhi]. split; [apply Hv|exact Hf| |apply Hu|].
  - intros q Hq. apply Hout, elem_of_app. by right.
  - intros v Hvr HV. apply Hout. by apply Hup.
Qed.

(** The trapframe is none of the pages [uvmcopy] adds. *)
Lemma fork_frame_apart a a1 a2 k k1 k2 t t2 tf g hi :
  took (tf :: pt_pages t) a a1 k k1 -> tf ∉ pt_pages t -> grown a1 a2 t t2 k1 k2 g hi -> (forall q, user_page g hi q -> a_ref a1 q = 0) ->
  (tf ∉ pt_pages t2) /\ ~ user_page g hi tf.
Proof.
  intros T Hn (_ & _ & _ & G & _) Hfresh.
  assert (E : a_ref a1 tf = 1).
  { destruct (tk_new _ _ _ _ _ T tf (list_elem_of_here _ _)) as [Hp _].
    by rewrite (tk_ref _ _ _ _ _ T), decide_True by (done || apply list_elem_of_here). }
  split; [intros Hin; destruct (gf_new _ _ _ _ _ _ G tf Hin); [done|congruence]|intros Hup%Hfresh; congruence].
Qed.

Lemma copied_fresh a1 k1 k2 fp tf g hi q :
  copied a1 k1 k2 fp (proc_map tf) g hi -> hi <= TRAPFRAME -> user_page g hi q -> a_ref a1 q = 0.
Proof.
  intros [Z1 Z2] Hhi (v & Hvr & HV & <-). destruct (flag (fp v) PTE_V) eqn:HVp.
  - destruct (Z2 v Hvr HVp) as (p & Ep & Hp & Hz & _). destruct (leaf_pte_valid p _ Hp (PTE_FLAGS_range (fp v))) as [_ Epa].
    by rewrite Ep, Epa.
  - rewrite Z1, proc_map_low in HV; [done|lia|lia|]. intros [_ ?]. congruence.
Qed.

Lemma copied_same a1 k1 k2 fp tf g sz :
  copied a1 k1 k2 fp (proc_map tf) g (PGROUNDUP sz) -> same_memory (mem k1) (mem k2) fp g tf sz.
Proof.
  intros [Z1 Z2]. split; [|done]. intros v Hvr HV. destruct (Z2 v Hvr HV) as (p & Ep & Hp & Hz & Hb).
  destruct (leaf_pte_valid p _ Hp (PTE_FLAGS_range (fp v))) as [_ Epa]. destruct (page_ok_range p Hp).
  unfold ubyte. rewrite Ep, Epa. split; [apply leaf_pte_flags; [lia|apply PTE_FLAGS_range]|]. apply Hb. zlia.
Qed.

(** The parent's bytes are where they were when the child was allocated. *)
Lemma same_memory_before a a1 ps k k1 k2 tp fp g tf sz :
  took ps a a1 k k1 -> space a k tp fp sz -> same_memory (mem k1) (mem k2) fp g tf sz -> same_memory (mem k) (mem k2) fp g tf sz.
Proof.
  intros T Hs [M1 M2]. split; [|done]. intros v Hvr HV. destruct (M1 v Hvr HV) as [-> ->]. split; [done|]. unfold ubyte.
  destruct (space_pages_own _ _ _ _ _ _ Hs (space_user_page _ _ _ _ _ _ Hs Hvr HV)) as [Hp E].
  apply (tk_mem _ _ _ _ _ T (PTE2PA (fp v))); [done|lia|zlia].
Qed.

Lemma fork_memory c a a1 k k1 s t tf tp fp sz :
  LKmem ∉ held c -> LRef ∉ held c -> LPr ∉ held c -> took (tf :: pt_pages t) a a1 k k1 -> tf ∉ pt_pages t ->
  vm_ok a1 t k1 -> pt_is k1 t (proc_map tf) -> space a k tp fp sz ->
  exists r sz' a2 k2 t2 g, uvmcopy (pt_root tp) (pt_root t) sz c (over k1 s) = Done r c (over k2 s) /\
    pt_root t2 = pt_root t /\ space a2 k2 t2 g sz' /\ took (tf :: space_pages t2 g sz') a a2 k k2 /\ (tf ∉ space_pages t2 g sz') /\
    ((r = 0 /\ sz' = sz /\ same_memory (mem k) (mem k2) fp g tf sz) \/ (r = -1 /\ sz' = 0)).
Proof.
  intros HK HR HP T Hn Hv Hf Hs. pose proof (sp_sz _ _ _ _ _ Hs) as Hsz. destruct (PGROUNDUP_bounds sz) as [Hb Hba]; [lia|].
  assert (Hmax : PGROUNDUP sz <= TRAPFRAME) by zlia.
  assert (Hlow : forall v, 0 <= v < TRAPFRAME -> flag (proc_map tf v) PTE_V = false) by (intros v Hvr; by rewrite proc_map_low).
  destruct (uvmcopy_ok c HK HR HP a1 t (over k1 s) tp fp (proc_map tf) sz) as (r & k2 & E & a2 & t2 & g & Hg & Hpost).
  { by apply vm_ok_over. } { exact Hf. } { split; intros v; intros; rewrite Hlow in * by lia; done. }
  { by eapply (parent_of_space a a1 k k1 t tp fp sz [tf]). } { lia. } { intros v Hvr. apply Hlow. lia. }
  destruct (grown_lift _ _ _ _ _ _ _ _ _ Hg) as [Ek Hg']. rewrite Ek in E. pose proof Hg' as (Hv2 & Hf2 & Hu2 & G2 & _).
  exists r. destruct Hpost as [(-> & Hc)|(-> & Hno)].
  - pose proof (fun q => copied_fresh _ _ _ _ _ _ _ q Hc Hmax) as Hfresh.
    destruct (fork_frame_apart _ _ _ _ _ _ _ _ _ _ _ T Hn Hg' Hfresh) as [A1 A2].
    exists sz, a2, (over k2 k1), t2, g. split; [done|]. split; [apply G2|]. split; [|split; [|split]].
    + split; try done. intros v Hvr. rewrite (proj1 Hc) by lia. apply Hlow. lia.
    + eapply (took_grown [tf]); [exact T|by intros q ->%list_elem_of_singleton|exact Hg'|done|lia|exact Hfresh].
    + intros [Hin|Hin]%elem_of_app; [|done]. apply A2. by apply (elem_of_user_pages (over k2 k1) t2); [|done|lia|].
    + left. split; [done|]. split; [done|]. eapply same_memory_before; [exact T|done|]. exact (copied_same _ (over k1 s) k2 _ _ _ _ Hc).
  - assert (Hnone : forall v, 0 <= v < TRAPFRAME -> flag (g v) PTE_V = false) by (intros v Hvr; rewrite (proj1 (Hno v ltac:(lia))); by apply Hlow).
    assert (Hfresh : forall q, user_page g (PGROUNDUP sz) q -> a_ref a1 q = 0).
    { intros q (v & Hvr & HV & _). rewrite Hnone in HV by lia. done. }
    destruct (fork_frame_apart _ _ _ _ _ _ _ _ _ _ _ T Hn Hg' Hfresh) as [A1 A2].
    exists 0, a2, (over k2 k1), t2, g. split; [done|]. split; [apply G2|]. split; [|split; [|split; [|by right]]].
    + split; [done|done|split; intros v; intros; change (PGROUNDUP 0) with 0 in *; lia|lia|intros v Hvr; apply Hnone; change (PGROUNDUP 0) with 0 in *; lia].
    + eapply took_same; [|eapply (took_grown [tf]); [exact T|by intros q ->%list_elem_of_singleton|exact Hg'|done|lia|exact Hfresh]]. intros q.
      change (space_pages t2 g 0) with (pt_pages t2). cbn [app]. rewrite !elem_of_cons, elem_of_app.
      rewrite (elem_of_user_pages (over k2 k1) t2) by (done || lia). split; [|tauto]. intros [?|[(v & Hvr & HV & _)|?]]; [by left| |by right].
      rewrite Hnone in HV by lia. done.
    + exact A1.
Qed.

End alloc.
