(* ===== verification/ProcFork.v ===== *)
(** * [kfork] of [proc.c]: the child is a copy of its parent

    The whole system call, with its two failures: the slot, the memory, the trapframe, the open
    files and the current directory of the child. *)

From S2P Require Import Prelude Riscv CString Kernel Printf Kalloc Vm UserMem VmFree Args Sched Fs File Proc ProcMem ProcLife.
From stdpp Require Import base numbers strings gmap list.
From Stdlib Require Import ZArith Lia.

#[local] Open Scope Z_scope.
#[local] Open Scope kernel_scope.

#[export] Instance tfreg_eq_dec : EqDecision tfreg.
Proof. solve_decision. Defined.

(** Equal bytes give equal words. *)
Lemma rdn_shift n m m' a b : (forall x, 0 <= x < Z.of_nat n -> rd8 m (a + x) = rd8 m' (b + x)) -> rdn n m a = rdn n m' b.
Proof.
  revert a b. induction n as [|n IH]; intros a b E; [done|]. cbn [rdn]. f_equal.
  - specialize (E 0 ltac:(lia)). by rewrite !Z.add_0_r in E.
  - f_equal. apply IH. intros x Hx. specialize (E (1 + x) ltac:(lia)). by rewrite !Z.add_assoc in E.
Qed.

(** ** The open files *)

(** One more reference to a file. *)
Definition dup_file (fl : file) : file := fl <| f_ref ::= fun n => i32 (n + 1) |>.

(** One more reference for each descriptor of [l]. *)
Definition dup_files (l : list (option nat)) (fs : list file) : list file :=
  foldl (fun fs o => match o with Some f => alter dup_file f fs | None => fs end) fs l.

(** A descriptor whose file has an owner, and room for [n] more. *)
Definition fd_ok (fs : list file) (n : Z) (o : option nat) : Prop :=
  match o with Some f => exists fl, fs !! f = Some fl /\ 1 <= f_ref fl /\ f_ref fl + n < 2 ^ 31 | None => True end.

Definition refs_to (f : nat) (l : list (option nat)) : Z := Z.of_nat (length (filter (fun o => o = Some f) l)).

Lemma refs_to_cons f o l : refs_to f (o :: l) = (if decide (o = Some f) then 1 else 0) + refs_to f l.
Proof. unfold refs_to. rewrite filter_cons. destruct (decide _); cbn [length]; lia. Qed.

Lemma refs_to_bound f l : 0 <= refs_to f l <= Z.of_nat (length l).
Proof. unfold refs_to. pose proof (length_filter (fun o => o = Some f) l). lia. Qed.

Lemma fd_ok_dup fs n f o : 0 <= n -> fd_ok fs (n + 1) (Some f) -> fd_ok fs (n + 1) o -> fd_ok (alter dup_file f fs) n o.
Proof.
  intros Hn (fl & Hf & H1 & H2) Ho. destruct o as [g|]; [|done]. destruct Ho as (gl & Hg & G1 & G2). destruct (decide (g = f)) as [->|Hne].
  - exists (dup_file fl). rewrite list_lookup_alter_eq, Hf. split; [done|]. change (f_ref (dup_file fl)) with (i32 (f_ref fl + 1)).
    rewrite i32_small by lia. lia.
  - exists gl. rewrite list_lookup_alter_ne by done. split; [done|lia].
Qed.

Lemma fd_ok_less fs n m o : n <= m -> fd_ok fs m o -> fd_ok fs n o.
Proof. intros Hn. destruct o as [f|]; [|done]. intros (fl & Hf & H1 & H2). exists fl. split; [done|lia]. Qed.

Lemma fds_ok_dup fs f l :
  Forall (fd_ok fs (Z.of_nat (length (Some f :: l)))) (Some f :: l) -> Forall (fd_ok (alter dup_file f fs) (Z.of_nat (length l))) l.
Proof.
  intros [Hf Hl]%Forall_cons. rewrite Forall_forall in *. intros o Ho. replace (Z.of_nat (length (Some f :: l))) with (Z.of_nat (length l) + 1) in * by (cbn [length]; lia).
  apply fd_ok_dup; [lia|done|auto].
Qed.

Lemma fds_ok_skip fs l :
  Forall (fd_ok fs (Z.of_nat (length (@None nat :: l)))) (None :: l) -> Forall (fd_ok fs (Z.of_nat (length l))) l.
Proof.
  intros [_ Hl]%Forall_cons. eapply Forall_impl; [exact Hl|]. intros o. apply fd_ok_less. cbn [length]. lia.
Qed.

(** Every file gets as many references as there are descriptors for it. *)
Lemma dup_files_lookup l fs f fl :
  Forall (fd_ok fs (Z.of_nat (length l))) l -> fs !! f = Some fl ->
  dup_files l fs !! f = Some (fl <| f_ref := f_ref fl + refs_to f l |>).
Proof.
  revert fs fl. induction l as [|o l IH]; intros fs fl Hl Hf.
  { change (refs_to f []) with 0. rewrite Z.add_0_r. cbn [dup_files foldl]. rewrite Hf. by destruct fl. }
  rewrite refs_to_cons. destruct o as [g|]; cbn [dup_files foldl]; fold (dup_files l).
  - pose proof (fds_ok_dup _ _ _ Hl) as Hl'. apply Forall_cons in Hl as [(gl & Hg & G1 & G2) _]. destruct (decide (Some g = Some f)) as [[= ->]|Hne].
    + replace gl with fl in * by congruence. change (foldl _ ?a l) with (dup_files l a). rewrite (IH _ (dup_file fl)); [|done|by rewrite list_lookup_alter_eq, Hf].
      f_equal. unfold dup_file. change (f_ref (fl <| f_ref ::= _ |>)) with (i32 (f_ref fl + 1)). cbn [length] in G2.
      rewrite i32_small by lia. destruct fl. unfold update. cbn. f_equal. lia.
    + change (foldl _ ?a l) with (dup_files l a). rewrite (IH _ fl); [by rewrite Z.add_0_l|done|]. rewrite list_lookup_alter_ne; [done|congruence].
  - rewrite decide_False by done. change (foldl _ ?a l) with (dup_files l a). rewrite Z.add_0_l. apply IH; [by apply fds_ok_skip|done].
Qed.

Section fork.
Context {LK : Linker} {LKO : LinkerOk}.
Implicit Types (k : kernel) (t : ptree).

Lemma filedup_ok f fl c k :
  LFtable ∉ held c -> files k !! f = Some fl -> 1 <= f_ref fl ->
  filedup f c k = Done f c (k <| files ::= alter dup_file f |>).
Proof.
  intros Hh Hf H1. unfold filedup. erewrite bind_done by (by apply acquire_ok).
  erewrite bind_done by (unfold getfile, gets, bind; cbn; rewrite Hf; reflexivity).
  destruct (Z.ltb_spec (f_ref fl) 1); [lia|]. erewrite bind_done by reflexivity. by erewrite bind_done by (by apply release_ok).
Qed.

(** The loop gives the child each descriptor that is left. *)
Lemma kfork_files_ok rest pre p np pq p0 q c kp k n :
  p <> np -> procs k !! p = Some pq -> procs k !! np = Some p0 -> LFtable ∉ held c ->
  p_ofile pq = pre ++ rest -> p_ofile q = pre ++ replicate (length rest) None ->
  Forall (fd_ok (files k) (Z.of_nat (length rest))) rest ->
  kfork_files (length rest) (length pre) p np c (over kp (with_slot k np q n)) =
    Done tt c (over kp (with_slot (k <| files := dup_files rest (files k) |>) np (q <| p_ofile := pre ++ rest |>) n)).
Proof.
  intros Hne Hp Hnp Hh. revert pre q k Hp Hnp. induction rest as [|o rest IH]; intros pre q k Hp Hnp Hpo Hqo Hok.
  { cbn [length replicate] in Hqo. rewrite <- Hqo. change (dup_files [] (files k)) with (files k). cbn [length kfork_files]. destruct k, q. reflexivity. }
  cbn [length kfork_files].
  erewrite bind_done.
  2: { apply getproc_done. change (procs (over kp (with_slot k np q n))) with (<[np := q]> (procs k)). rewrite list_lookup_insert_ne by done. exact Hp. }
  assert (Hlook : p_ofile pq !! length pre = Some o) by (rewrite Hpo; by apply list_lookup_middle). rewrite Hlook.
  assert (Hpo' : p_ofile pq = (pre ++ [o]) ++ rest) by (by rewrite <- app_assoc).
  replace (pre ++ o :: rest) with ((pre ++ [o]) ++ rest) by (by rewrite <- app_assoc).
  replace (S (length pre)) with (length (pre ++ [o])) by (rewrite length_app; cbn; lia).
  destruct o as [f|].
  - pose proof (fds_ok_dup _ _ _ Hok) as Hok'. apply Forall_cons in Hok as [(fl & Hf & H1 & _) _].
    set (k1 := k <| files := alter dup_file f (files k) |>). set (q1 := q <| p_ofile := pre ++ Some f :: replicate (length rest) None |>).
    rewrite (bind_done _ _ _ _ tt c (over kp (with_slot k1 np q1 n))).
    + rewrite (IH (pre ++ [Some f]) q1 k1); [reflexivity|exact Hp|exact Hnp|exact Hpo'| |exact Hok'].
      change (p_ofile q1) with (pre ++ Some f :: replicate (length rest) None). by rewrite <- app_assoc.
    + erewrite bind_done by (by eapply filedup_ok). rewrite modproc_done. f_equal.
      transitivity (over kp (with_slot k1 np (q <| p_ofile ::= fun l => <[length pre := Some f]> l |>) n)).
      * unfold with_slot at 2. rewrite <- list_alter_insert. reflexivity.
      * f_equal. f_equal. unfold q1. replace (pre ++ Some f :: replicate (length rest) None) with (<[length pre := Some f]> (p_ofile q)); [reflexivity|].
        rewrite Hqo. cbn [length replicate]. rewrite insert_app_r_alt, Nat.sub_diag by lia. reflexivity.
  - erewrite bind_done by reflexivity. rewrite (IH (pre ++ [None]) q k); try done.
    + rewrite Hqo. cbn [length replicate]. by rewrite <- app_assoc.
    + by apply fds_ok_skip.
Qed.

(** ** The trapframe *)

(** [*(np->trapframe) = *(p->trapframe); np->trapframe->a0 = 0;] *)
Definition fork_frame (m : memory) (tf ptf : Z) : memory := wr64 (memmove m tf ptf TFSIZE) (tf + tf_off tf_a0) 0.

Lemma tf_off_range r : 0 <= tf_off r /\ tf_off r + 8 <= TFSIZE /\ tf_off r mod 8 = 0.
Proof. by destruct r. Qed.

Lemma fork_frame_out m tf ptf x : mem_ok m -> ~ tf <= x < tf + PGSIZE -> rd8 (fork_frame m tf ptf) x = rd8 m x.
Proof.
  intros Hm Hx. unfold fork_frame. change (tf_off tf_a0) with 112. rewrite rd8_wrn_out by lia. rewrite rd8_memmove by (done || lia).
  by rewrite decide_False by lia.
Qed.

Lemma fork_frame_reg m tf ptf r :
  mem_ok m -> rd64 (fork_frame m tf ptf) (tf + tf_off r) = if decide (r = tf_a0) then 0 else rd64 m (ptf + tf_off r).
Proof.
  intros Hm. unfold fork_frame. destruct (decide (r = tf_a0)) as [->|Hne]; [apply rd64_wr64_eq|].
  rewrite rdn_wrn_out by (destruct r; cbn; try lia; done).
  pose proof (tf_off_range r) as (H1 & H2 & _). change rd64 with (rdn 8).
  assert (Hb : forall x, 0 <= x < 8 -> rd8 (memmove m tf ptf TFSIZE) (tf + tf_off r + x) = rd8 m (ptf + tf_off r + x)).
  { intros x Hx. rewrite rd8_memmove by (done || lia). rewrite decide_True by lia. f_equal. lia. }
  revert Hb. generalize (tf + tf_off r) (ptf + tf_off r). intros d e Hb. apply rdn_shift. intros x Hx. apply Hb. lia.
Qed.

(** ** The child *)

(** The slot of the child when [kfork] returns, [nq] being what [allocproc] made of it. *)
Definition child (p : nat) (q nq : proc) (w : nat) : proc :=
  nq <| p_sz := p_sz q |> <| p_ofile := p_ofile q |> <| p_cwd := Some w |>
    <| p_name ::= fun s => safestrcpy s (nthd 0 (p_name q)) 16 |> <| p_parent := Some p |> <| p_state := RUNNABLE |>.

Definition dup_inode (i : inode) : inode := i <| i_ref ::= fun n => i32 (n + 1) |>.

(** The rest of the kernel when [kfork] returns. *)
Definition forked_kernel (k : kernel) (np : nat) (ch q : proc) (w : nat) (n : Z) : kernel :=
  with_slot (k <| files := dup_files (p_ofile q) (files k) |> <| inodes := alter dup_inode w (inodes k) |>) np ch n.

Lemma idup_ok w c k : LItable ∉ held c -> idup w c k = Done w c (k <| inodes ::= alter dup_inode w |>).
Proof.
  intros Hh. unfold idup. erewrite bind_done by (by apply acquire_ok). erewrite bind_done by reflexivity.
  by erewrite bind_done by (by apply release_ok).
Qed.

Lemma tf_set_slot np r v c kp k q p0 n :
  procs k !! np = Some p0 -> p_trapframe q <> 0 ->
  tf_set np r v c (over kp (with_slot k np q n)) =
    Done tt c (over (kp <| mem := wr64 (mem kp) (p_trapframe q + tf_off r) v |>) (with_slot k np q n)).
Proof.
  intros Hnp H0. unfold tf_set. erewrite bind_done by (by eapply getproc_slot).
  destruct (Z.eqb_spec (p_trapframe q) 0); [done|]. reflexivity.
Qed.

#[local] Opaque memmove wrn over with_slot.

(** [kfork] when neither [allocproc] nor [uvmcopy] fails. *)
Lemma kfork_run p np q nq p0 w n c k k1 k2 :
  cpu_proc c = Some p -> held c = [] -> p <> np -> procs k !! p = Some q -> procs k !! np = Some p0 ->
  length (p_ofile q) = 16%nat -> p_ofile nq = replicate 16 None -> Forall (fd_ok (files k) 16) (p_ofile q) -> p_cwd q = Some w ->
  p_trapframe nq <> 0 ->
  allocproc c k = Done (Some np) (c <| held := [LProc np] |>) (over k1 (with_slot k np nq n)) ->
  uvmcopy (p_pagetable q) (p_pagetable nq) (p_sz q) (c <| held := [LProc np] |>) (over k1 (with_slot k np nq n)) =
    Done 0 (c <| held := [LProc np] |>) (over k2 (with_slot k np nq n)) ->
  kfork c k = Done (p_pid nq) c
    (over (k2 <| mem := fork_frame (mem k2) (p_trapframe nq) (p_trapframe q) |>) (forked_kernel k np (child p q nq w) q w n)).
Proof.
  intros Hc Hh Hne Hp Hnp Hlen Hnq Hfd Hw H0 Ea Eu. unfold kfork. set (c1 := c <| held := [LProc np] |>) in *.
  erewrite bind_done by (by apply curproc_done). erewrite bind_done by exact Ea. cbv beta iota.
  erewrite bind_done.
  2: { apply getproc_done. change (procs (over k1 (with_slot k np nq n))) with (<[np := nq]> (procs k)). rewrite list_lookup_insert_ne by done. exact Hp. }
  erewrite bind_done by (by eapply getproc_slot). erewrite bind_done by exact Eu. cbn [Z.ltb Z.compare].
  erewrite bind_done by apply modproc_slot. erewrite bind_done by reflexivity.
  change ((over k2 ?s) <| mem ::= _ |>) with (over (k2 <| mem := memmove (mem k2) (p_trapframe nq) (p_trapframe q) TFSIZE |>) s).
  set (k3 := k2 <| mem := _ |>). erewrite bind_done by (by eapply tf_set_slot).
  set (k4 := k3 <| mem := _ |>). set (q1 := nq <| p_sz := p_sz q |>).
  pose proof (kfork_files_ok (p_ofile q) [] p np q p0 q1 c1 k4 k n Hne Hp Hnp) as Ef. rewrite Hlen in Ef. cbn [length app] in Ef.
  erewrite bind_done by (apply Ef; [unfold c1; cbn; set_solver|done|exact Hnq|exact Hfd]). rewrite Hw. erewrite bind_done by reflexivity.
  erewrite bind_done by (apply idup_ok; unfold c1; cbn; set_solver).
  set (k5 := k <| files := dup_files (p_ofile q) (files k) |> <| inodes := alter dup_inode w (inodes k) |>).
  change ((over k4 ?s) <| inodes ::= _ |>) with (over k4 (with_slot k5 np (q1 <| p_ofile := p_ofile q |>) n)).
  do 2 (erewrite bind_done by apply modproc_slot). erewrite bind_done by (by eapply (getproc_slot np c1 k4 k5 p0)).
  assert (Er : forall lk k', release lk (c <| held := [lk] |>) k' = Done tt c k').
  { intros lk k'. pose proof (release_ok lk c k') as R. rewrite Hh in R. apply R, not_elem_of_nil. }
  assert (Eq : forall lk k', acquire lk c k' = Done tt (c <| held := [lk] |>) k').
  { intros lk k'. pose proof (acquire_ok lk c k') as R. rewrite Hh in R. apply R, not_elem_of_nil. }
  cbv zeta. erewrite bind_done by apply Er. erewrite bind_done by apply Eq. erewrite bind_done by apply modproc_slot.
  erewrite bind_done by apply Er. erewrite bind_done by apply Eq. erewrite bind_done by apply modproc_slot.
  erewrite bind_done by apply Er. reflexivity.
Qed.

(** ** The whole call *)

(** A running process with an address space, whose descriptors and directory are open. *)
Record fork_pre (c : cpu) (k : kernel) (a : alloc_spec) (p : nat) (q : proc) (w : nat) (tp : ptree) (fp : Z -> Z) : Prop := {
  fp_cpu : cpu_proc c = Some p;
  fp_held : held c = [];
  fp_proc : procs k !! p = Some q;
  fp_used : p_state q <> UNUSED;
  fp_len : length (procs k) = 64%nat;
  fp_slots : forall j s, procs k !! j = Some s -> p_state s = UNUSED -> empty_slot s /\ p_ofile s = replicate 16 None;
  fp_rep : represents a k;
  fp_all : complete a;
  fp_table : p_pagetable q = pt_root tp;
  fp_space : space a k tp fp (p_sz q);
  fp_frame : page_ok (p_trapframe q);
  fp_own : a_ref a (p_trapframe q) = 1;
  fp_files : length (p_ofile q) = 16%nat /\ Forall (fd_ok (files k) 16) (p_ofile q);
  fp_cwd : p_cwd q = Some w
}.

(** Nothing was taken; a slot that was free may have another stale content. *)
Definition fork_failed (a a' : alloc_spec) (k k' : kernel) : Prop :=
  took [] a a' k (over k' k) /\
  (k' = over k' k \/ exists j s s', procs k !! j = Some s /\ empty_slot s /\ empty_slot s' /\ k' = over k' (with_slot k j s' (i32 (nextpid k + 1)))).

(** Slot [np], which was free, holds the copy [ch] of [q]. *)
Record forked (a a' : alloc_spec) (k k' : kernel) (p : nat) (q : proc) (w : nat) (fp : Z -> Z) (np : nat) (ch : proc) (t : ptree) (g : Z -> Z) : Prop := {
  fk_slot : exists s, procs k !! np = Some s /\ p_state s = UNUSED;
  fk_rest : k' = over k' (forked_kernel k np ch q w (i32 (nextpid k + 1)));
  fk_state : p_state ch = RUNNABLE /\ p_parent ch = Some p /\ p_pid ch = nextpid k;
  fk_files : p_ofile ch = p_ofile q /\ p_cwd ch = Some w;
  fk_table : p_pagetable ch = pt_root t /\ p_sz ch = p_sz q;
  fk_space : space a' k' t g (p_sz q);
  fk_apart : p_trapframe ch ∉ space_pages t g (p_sz q);
  fk_memory : same_memory (mem k) (mem k') fp g (p_trapframe ch) (p_sz q);
  fk_regs : forall r, rd64 (mem k') (p_trapframe ch + tf_off r) =
    if decide (r = tf_a0) then 0 else rd64 (mem k) (p_trapframe q + tf_off r);
  fk_pages : took (p_trapframe ch :: space_pages t g (p_sz q)) a a' k (over k' k)
}.

Lemma allocproc_ok c k a p q w tp fp :
  fork_pre c k a p q w tp fp ->
  exists a' k1, let n := i32 (nextpid k + 1) in
    (allocproc c k = Done None c k /\ a' = a /\ k1 = k) \/
    exists np s ch, np <> p /\ procs k !! np = Some s /\ p_state s = UNUSED /\
      ((allocproc c k = Done None c (over k1 (with_slot k np ch n)) /\ empty_slot ch /\ took [] a a' k k1) \/
       (allocproc c k = Done (Some np) (c <| held := [LProc np] |>) (over k1 (with_slot k np ch n)) /\
        exists t, page_ok (p_trapframe ch) /\ ch = new_proc (nextpid k) (p_trapframe ch) (pt_root t) s /\ vm_ok a' t k1 /\
          pt_is k1 t (proc_map (p_trapframe ch)) /\ (p_trapframe ch ∉ pt_pages t) /\ took (p_trapframe ch :: pt_pages t) a a' k k1)).
Proof.
  intros P. pose proof (fp_held _ _ _ _ _ _ _ _ P) as Hh. assert (Hl : forall lk, lk ∉ held c) by (intros lk; rewrite Hh; apply not_elem_of_nil).
  assert (Hslots : forall j s, procs k !! j = Some s -> p_state s = UNUSED -> empty_slot s).
  { intros j s Hj Hs. by destruct (fp_slots _ _ _ _ _ _ _ _ P j s Hj Hs). }
  destruct (allocproc_loop_ok 64 0 c k a) as [[E _]|(j & s & Hj & Hs & _ & E)];
    [apply Hl|apply Hl|apply Hl|apply Hl|intros; apply Hl|by rewrite (fp_len _ _ _ _ _ _ _ _ P)|exact Hslots|apply P|apply P|intros j Hj; lia| |].
  - exists a, k. left. done.
  - destruct (allocproc_found_ok j c k s a) as (o & ch & a' & k' & Ef & Ho);
      [apply Hl|apply Hl|apply Hl|apply Hl|apply Hl|exact Hj|by apply (Hslots j)|apply P|apply P|].
    exists a', k'. right. exists j, s, ch. split; [|split; [done|split; [done|]]].
    { intros ->. rewrite (fp_proc _ _ _ _ _ _ _ _ P) in Hj. injection Hj as <-. by apply (fp_used _ _ _ _ _ _ _ _ P). }
    unfold allocproc. rewrite E. cbv zeta in Ef. rewrite Hh in Ef. rewrite Hh. rewrite Ef.
    destruct o as [i|]; [|by left]. destruct Ho as (-> & t & Hrest). right. split; [done|]. exists t. exact Hrest.
Qed.

Lemma flag_of_flags e x : Z.lor x PTE_V = PTE_FLAGS e -> flag e PTE_V = true.
Proof.
  intros E. unfold PTE_FLAGS in E. unfold flag. replace (Z.land e PTE_V) with (Z.land (Z.land e 0x3FF) PTE_V) by (by rewrite <- Z.land_assoc).
  rewrite <- E. change (negb (Z.land (Z.lor x PTE_V) PTE_V =? 0)) with (flag (Z.lor x PTE_V) PTE_V). rewrite flag_lor. by rewrite orb_true_r.
Qed.

(** Filling in the trapframe of the child leaves its memory alone. *)
Lemma fork_frame_ok a a2 k k2 t g fp tf ptf sz :
  took (tf :: space_pages t g sz) a a2 k k2 -> space a2 k2 t g sz -> tf ∉ space_pages t g sz ->
  same_memory (mem k) (mem k2) fp g tf sz -> page_ok ptf -> a_ref a ptf = 1 ->
  let k3 := k2 <| mem := fork_frame (mem k2) tf ptf |> in
  took (tf :: space_pages t g sz) a a2 k k3 /\ space a2 k3 t g sz /\ same_memory (mem k) (mem k3) fp g tf sz /\
  forall r, rd64 (mem k3) (tf + tf_off r) = if decide (r = tf_a0) then 0 else rd64 (mem k) (ptf + tf_off r).
Proof.
  intros T Hs Hn [M1 M2] Hp H1 k3. pose proof (rep_mem _ _ (tk_rep _ _ _ _ _ T)) as Hm.
  destruct (tk_new _ _ _ _ _ T tf (list_elem_of_here _ _)) as [Htf _].
  assert (Hout : forall q x, page_ok q -> q <> tf -> q <= x < q + PGSIZE -> rd8 (mem k3) x = rd8 (mem k2) x).
  { intros q x Hq Hne Hx. apply fork_frame_out; [done|]. by apply (page_apart tf q). }
  assert (T3 : took (tf :: space_pages t g sz) a a2 k k3).
  { apply (took_set _ tf); [done|apply list_elem_of_here| |intros x Hx; by apply fork_frame_out].
    unfold fork_frame. apply mem_ok_wrn, mem_ok_memmove, Hm. }
  split; [done|]. split; [|split].
  - eapply (space_keeps (fun q => q <> tf)); [exact Hs| |apply T3|apply T3|by intros q Hq ->].
    split; [done|intros q x Hq Hne Hx; by apply (Hout q)|unfold only_pages, k3; kdone].
  - split; [|done]. intros v Hvr HV. destruct (M1 v Hvr HV) as [Ef Eb]. split; [done|]. rewrite <- Eb. unfold ubyte.
    pose proof (space_user_page _ _ _ _ _ _ Hs Hvr (flag_of_flags _ _ (eq_sym Ef))) as Hin.
    destruct (space_pages_own _ _ _ _ _ _ Hs Hin) as [Hq _]. apply (Hout (PTE2PA (g v))); [done| |zlia]. by intros E; rewrite E in Hin.
  - intros r. change (mem k3) with (fork_frame (mem k2) tf ptf). rewrite fork_frame_reg by done. destruct (decide _); [done|].
    apply rdn_ext. intros x Hx. pose proof (tf_off_range r). apply (tk_mem _ _ _ _ _ T ptf); [done|lia|].
    destruct (page_ok_range ptf Hp). lia.
Qed.

Lemma over_self kp s : over kp s = over (over kp s) s.
Proof. by rewrite over_over. Qed.

Lemma took_self ps a a' k kp s : took ps a a' k kp -> took ps a a' k (over (over kp s) k).
Proof. intros T. rewrite over_over. by rewrite (over_same k kp (tk_kernel _ _ _ _ _ T)). Qed.

(** [uvmcopy] failed: the child is given up. *)
Lemma kfork_fails c k a p q w tp fp np s ch k1 k2 a2 t g n :
  fork_pre c k a p q w tp fp -> np <> p -> procs k !! np = Some s ->
  allocproc c k = Done (Some np) (c <| held := [LProc np] |>) (over k1 (with_slot k np ch n)) ->
  uvmcopy (p_pagetable q) (p_pagetable ch) (p_sz q) (c <| held := [LProc np] |>) (over k1 (with_slot k np ch n)) =
    Done (-1) (c <| held := [LProc np] |>) (over k2 (with_slot k np ch n)) ->
  page_ok (p_trapframe ch) -> p_sz ch = 0 -> p_pagetable ch = pt_root t -> space a2 k2 t g 0 -> (p_trapframe ch ∉ space_pages t g 0) ->
  took (p_trapframe ch :: space_pages t g 0) a a2 k k2 ->
  exists a' k', kfork c k = Done (-1) c (over k' (with_slot k np (cleared ch) n)) /\ took [] a a' k k'.
Proof.
  intros P Hne Hnp E Eu Htf Esz Ept Hs Hn T. pose proof (fp_held _ _ _ _ _ _ _ _ P) as Hh.
  assert (Hl : forall lk, lk ∉ held c) by (intros lk; rewrite Hh; apply not_elem_of_nil).
  destruct (give_back np c k2 k s ch n (p_trapframe ch :: space_pages t g (p_sz ch)) a2 (-1)) as (a' & k' & Eg & F); try done; try apply T.
  { apply holds_space; [done| |done|by rewrite Esz|by rewrite Esz].
    rewrite (tk_ref _ _ _ _ _ T), decide_True; [done|apply list_elem_of_here|done]. }
  rewrite Hh in Eg. rewrite Esz in F. exists a', k'. split; [|by eapply took_freed_all].
  unfold kfork. erewrite bind_done by (apply curproc_done, P). erewrite bind_done by exact E. cbv beta iota.
  erewrite bind_done.
  2: { apply getproc_done. change (procs (over k1 (with_slot k np ch n))) with (<[np := ch]> (procs k)). rewrite list_lookup_insert_ne by done. apply P. }
  erewrite bind_done by (by eapply getproc_slot). erewrite bind_done by exact Eu. exact Eg.
Qed.

(** [kfork] either fails with everything as it was, or makes a copy of the caller. *)
Lemma kfork_ok c k a p q w tp fp :
  fork_pre c k a p q w tp fp ->
  exists r a' k', kfork c k = Done r c k' /\
    ((r = -1 /\ fork_failed a a' k k') \/ exists np ch t g, r = nextpid k /\ forked a a' k k' p q w fp np ch t g).
Proof.
  intros P. destruct (allocproc_ok _ _ _ _ _ _ _ _ P) as (a1 & k1 & [(E & -> & ->)|(np & s & ch & Hne & Hnp & Hs & Hcase)]).
  { exists (-1), a, k. unfold kfork. erewrite bind_done by (apply curproc_done, P). erewrite bind_done by exact E. split; [done|].
    left. split; [done|]. unfold fork_failed. rewrite over_id. split; [apply took_nil; apply P|]. left. done. }
  destruct (fp_slots _ _ _ _ _ _ _ _ P np s Hnp Hs) as [Hempty Hof].
  destruct Hcase as [(E & Hch & T)|(E & t & Htf & Ech & Hv & Hf & Hn & T)].
  { eexists (-1), a1, _. unfold kfork. erewrite bind_done by (apply curproc_done, P). erewrite bind_done by exact E. split; [reflexivity|].
    left. split; [done|]. split; [by apply took_self|]. right. exists np, s, ch. split; [done|]. split; [done|]. split; [done|]. apply over_self. }
  set (c1 := c <| held := [LProc np] |>) in *. set (n := i32 (nextpid k + 1)) in *.
  assert (Hl : forall lk, (forall i, lk <> LProc i) -> lk ∉ held c1) by (intros lk Hlk ?%list_elem_of_singleton; by eapply Hlk).
  destruct (fork_memory c1 a a1 k k1 (with_slot k np ch n) t (p_trapframe ch) tp fp (p_sz q))
    as (r & sz & a2 & k2 & t2 & g & Eu & Hroot & Hsp & T2 & Hn2 & Hres); try (by apply Hl); try done; [apply P|].
  assert (Ept : p_pagetable ch = pt_root t2) by (rewrite Ech, Hroot; reflexivity).
  rewrite <- Hroot, <- Ept, <- (fp_table _ _ _ _ _ _ _ _ P) in Eu.
  assert (Esz : p_sz ch = 0) by (rewrite Ech; apply Hempty).
  destruct Hres as [(-> & -> & M)|(-> & ->)].
  - destruct (page_ok_range _ Htf) as [Hr0 _].
    destruct (fork_frame_ok a a2 k k2 t2 g fp (p_trapframe ch) (p_trapframe q) (p_sz q)) as (T3 & S3 & M3 & R3);
      [done|done|done|done|apply (fp_frame _ _ _ _ _ _ _ _ P)|apply (fp_own _ _ _ _ _ _ _ _ P)|].
    set (k3 := k2 <| mem := fork_frame (mem k2) (p_trapframe ch) (p_trapframe q) |>) in *. set (ch' := child p q ch w).
    exists (nextpid k), a2, (over k3 (forked_kernel k np ch' q w n)). split.
    + rewrite (kfork_run p np q ch s w n c k k1 k2); [by rewrite Ech at 1|apply P|apply P|congruence|apply P|done|apply P|by rewrite Ech|apply P|apply P|lia|done|done].
    + right. exists np, ch', t2, g. split; [done|]. split.
      * by exists s.
      * apply over_self.
      * split; [done|]. split; [done|]. unfold ch'. by rewrite Ech.
      * done.
      * done.
      * by apply space_over.
      * exact Hn2.
      * exact M3.
      * exact R3.
      * by apply took_self.
  - destruct (kfork_fails c k a p q w tp fp np s ch k1 k2 a2 t2 g n P Hne Hnp E Eu Htf Esz Ept Hsp Hn2 T2) as (a' & k' & Ek & T').
    eexists (-1), a', _. split; [exact Ek|]. left. split; [done|]. split; [by apply took_self|]. right. exists np, s, (cleared ch).
    split; [done|]. split; [done|]. split; [done|]. apply over_self.
Qed.

End fork.
