(* ===== verification/ProcWait.v ===== *)
(** * [kwait] of [proc.c]: a parent collects a child that has exited

    The scan for a child, the status copied to the parent, and the return of everything the child
    still holds; the case without children. *)

From S2P Require Import Prelude Riscv CString Kernel Printf Kalloc Vm UserMem VmFree Args Sched Proc ProcMem ProcLife.
From stdpp Require Import base numbers strings gmap list.
From Stdlib Require Import ZArith Lia.

#[local] Open Scope Z_scope.
#[local] Open Scope kernel_scope.

Section wait.
Context {LK : Linker} {LKO : LinkerOk} `{Fuel}.
Implicit Types (k : kernel) (t : ptree).

(** No slot from [pp] up to [j] holds a child of [p] that has exited. *)
Definition no_zombie (k : kernel) (p pp j : nat) : Prop :=
  forall i s, (pp <= i < j)%nat -> procs k !! i = Some s -> p_parent s = Some p -> p_state s <> ZOMBIE.

(** The scan passes over them; [havekids] is set if one is a child. *)
Lemma kwait_scan_skip n p addr c k pp hk :
  (forall i, LProc i ∉ held c) -> (pp + n <= length (procs k))%nat -> no_zombie k p pp (pp + n) ->
  forall m, kwait_scan (n + m) pp p addr hk c k =
    kwait_scan m (pp + n) p addr (hk || existsb (fun s => bool_decide (p_parent s = Some p)) (take n (drop pp (procs k)))) c k.
Proof.
  intros Hl. revert pp hk. induction n as [|n IH]; intros pp hk Hlen Hno m.
  { cbn [take existsb Nat.add]. by rewrite orb_false_r, Nat.add_0_r. }
  destruct (lookup_lt_is_Some_2 (procs k) pp) as [s Hs]; [lia|].
  rewrite (drop_S _ _ _ Hs). cbn [take existsb Nat.add kwait_scan].
  replace (pp + S n)%nat with (S pp + n)%nat by lia.
  assert (Hno' : no_zombie k p (S pp) (S pp + n)) by (intros i x Hi; apply Hno; lia).
  erewrite bind_done by (by apply getproc_done). destruct (decide (p_parent s = Some p)) as [Hp|Hp].
  - erewrite bind_done by (by apply acquire_ok). erewrite bind_done by (by apply getproc_done).
    rewrite decide_False by (apply (Hno pp s); [lia|done|done]). erewrite bind_done by (by apply release_ok).
    rewrite IH by (done || lia). rewrite bool_decide_true by done. by rewrite orb_true_r.
  - rewrite bool_decide_false by done. cbn [orb]. apply IH; [lia|done].
Qed.

(** [kwait] without children returns -1. *)
Lemma kwait_no_child p addr c k :
  cpu_proc c = Some p -> held c = [] -> length (procs k) = 64%nat ->
  (forall i s, procs k !! i = Some s -> p_parent s <> Some p) -> kwait addr c k = Done (-1) c k.
Proof.
  intros Hc Hh Hlen Hno. unfold kwait. erewrite bind_done by (by apply curproc_done).
  erewrite bind_done by (apply acquire_ok; rewrite Hh; apply not_elem_of_nil). rewrite Hh. cbn [kwait_loop].
  pose proof (kwait_scan_skip 64 p addr (c <| held := [LWait] |>) k 0 false) as E.
  rewrite drop_0, firstn_all2 in E by (rewrite Hlen; done).
  assert (Ex : existsb (fun s => bool_decide (p_parent s = Some p)) (procs k) = false).
  { apply not_true_iff_false. intros (s & [i Hi]%list_elem_of_In%list_elem_of_lookup & Hs%bool_decide_eq_true)%existsb_exists. by apply (Hno i s). }
  rewrite Ex in E. erewrite bind_done.
  2: { apply (E ltac:(intros i ?%list_elem_of_singleton; done) ltac:(lia) ltac:(intros i s _ Hi Hp; by destruct (Hno i s Hi)) 0%nat). }
  cbn [negb orb]. erewrite bind_done by reflexivity. cbv iota.
  pose proof (release_ok LWait c k) as R. rewrite Hh in R. erewrite bind_done by (apply R, not_elem_of_nil). done.
Qed.

(** Null, or the address of an [int] that the process may write. *)
Definition status_addr (fp : Z -> Z) (sz addr : Z) : Prop :=
  addr = 0 \/ 0 < addr /\ addr + 4 <= PGROUNDUP sz /\ forall v, addr <= v < addr + 4 -> user_ok fp v = true /\ flag (fp v) PTE_W = true.

(** Child [z] of the running process [me], in slot [j], has exited, and is the first such child. *)
Record wait_pre (c : cpu) (k : kernel) (a : alloc_spec) (p : nat) (me : proc) (j : nat) (z : proc) (ps : list Z)
    (tp : ptree) (fp : Z -> Z) (addr : Z) : Prop := {
  wp_cpu : cpu_proc c = Some p;
  wp_held : held c = [];
  wp_len : length (procs k) = 64%nat;
  wp_me : procs k !! p = Some me;
  wp_child : procs k !! j = Some z;
  wp_parent : p_parent z = Some p;
  wp_state : p_state z = ZOMBIE;
  wp_first : no_zombie k p 0 j;
  wp_rep : represents a k;
  wp_all : complete a;
  wp_holds : holds a k z ps;
  wp_table : p_pagetable me = pt_root tp;
  wp_space : space a k tp fp (p_sz me);
  wp_apart : forall q, q ∈ ps -> q ∉ space_pages tp fp (p_sz me);
  wp_addr : status_addr fp (p_sz me) addr
}.

(** What the parent sees at [v] after the status of [z] was stored at [addr]. *)
Definition status_byte (z : proc) (addr v old : Z) : Z :=
  if decide (addr <> 0 /\ addr <= v < addr + 4) then u8 (nthd 0 (le_bytes 4 (p_xstate z)) (v - addr)) else old.

Lemma status_copied c k a p me j z ps tp fp addr c1 :
  wait_pre c k a p me j z ps tp fp addr ->
  exists k1, (if addr =? 0 then ret 0 else copyout (p_pagetable me) addr (le_bytes 4 (p_xstate z)) 4) c1 k = Done 0 c1 k1 /\
    freed [] (space_pages tp fp (p_sz me)) a a k k1 /\ holds a k1 z ps /\ space a k1 tp fp (p_sz me) /\
    forall v, 0 <= v < PGROUNDUP (p_sz me) -> flag (fp v) PTE_V = true ->
      ubyte (mem k1) fp v = status_byte z addr v (ubyte (mem k) fp v).
Proof.
  intros P. pose proof (wp_space _ _ _ _ _ _ _ _ _ _ _ P) as Hs. pose proof (sp_sz _ _ _ _ _ Hs).
  destruct (PGROUNDUP_bounds (p_sz me)) as [Hn Hna]; [lia|].
  destruct (Z.eqb_spec addr 0) as [->|Hne].
  { exists k. split; [done|]. split; [apply freed_nil; apply P|]. split; [apply P|]. split; [done|]. intros v _ _. unfold status_byte. by rewrite decide_False by tauto. }
  destruct (wp_addr _ _ _ _ _ _ _ _ _ _ _ P) as [|(Ha & Hsz & Hacc)]; [done|].
  destruct (copyout_space c1 a k tp fp (p_sz me) addr (le_bytes 4 (p_xstate z)) 4) as (k1 & E & S1 & K & Hb); [done|lia|done|done|done|done|].
  rewrite (wp_table _ _ _ _ _ _ _ _ _ _ _ P). exists k1. split; [done|]. pose proof (sp_vm _ _ _ _ _ S1) as Hv1. split; [|split; [|split; [done|]]].
  - split; [apply Hv1|apply Hv1|done| |apply K]. intros q x Hq _ _ Hd Hx. by apply (kp_mem _ _ _ _ _ K q).
  - destruct (wp_holds _ _ _ _ _ _ _ _ _ _ _ P) as [E1 E2|H1 H2 E2|t f H1 H2 E2 Hs2 Hn2]; [by apply holds_none|by apply holds_frame|].
    apply holds_space; try done. eapply space_keeps; [exact Hs2|exact K|apply Hv1|apply Hv1|]. intros q Hq.
    apply (wp_apart _ _ _ _ _ _ _ _ _ _ _ P). by right.
  - intros v Hvr HV. rewrite Hb by done. unfold status_byte. destruct (decide (addr <= v < addr + 4)) as [Hd|Hd].
    + by rewrite decide_True.
    + by rewrite decide_False by tauto.
Qed.

(** The scan when it comes to the child. *)
Lemma kwait_scan_reap c k p me j z addr k1 kf n hk :
  held c = [] -> procs k !! j = Some z -> p_parent z = Some p -> p_state z = ZOMBIE -> procs k !! p = Some me ->
  (if addr =? 0 then ret 0 else copyout (p_pagetable me) addr (le_bytes 4 (p_xstate z)) 4) (c <| held := [LProc j; LWait] |>) k =
    Done 0 (c <| held := [LProc j; LWait] |>) k1 ->
  freeproc j (c <| held := [LProc j; LWait] |>) k1 = Done tt (c <| held := [LProc j; LWait] |>) kf ->
  kwait_scan (S n) j p addr hk (c <| held := [LWait] |>) k = Done (inl (p_pid z)) c kf.
Proof.
  intros Hh Hj Hp Hz Hme E1 E2. cbn [kwait_scan]. erewrite bind_done by (by apply getproc_done). rewrite decide_True by done.
  erewrite bind_done by (apply (acquire_ok (LProc j) (c <| held := [LWait] |>)); by intros ?%list_elem_of_singleton).
  change ((c <| held := [LWait] |>) <| held := LProc j :: held (c <| held := [LWait] |>) |>) with (c <| held := [LProc j; LWait] |>).
  erewrite bind_done by (by apply getproc_done). rewrite decide_True by done. cbv zeta.
  erewrite bind_done by (by apply getproc_done). erewrite bind_done by exact E1. cbn [Z.ltb Z.compare].
  erewrite bind_done by exact E2.
  assert (R1 : release (LProc j) (c <| held := [LProc j; LWait] |>) kf = Done tt (c <| held := [LWait] |>) kf).
  { refine (release_ok (LProc j) (c <| held := [LWait] |>) kf _). by intros ?%list_elem_of_singleton. }
  erewrite bind_done by exact R1.
  pose proof (release_ok LWait c kf) as R. rewrite Hh in R. by erewrite bind_done by (apply R, not_elem_of_nil).
Qed.

(** [kwait] collects the child: its pid is returned, its status stored, everything it held is
    given back, and its slot is free. *)
Lemma kwait_ok c k a p me j z ps tp fp addr :
  wait_pre c k a p me j z ps tp fp addr ->
  exists a' k', kwait addr c k = Done (p_pid z) c (over k' (k <| procs ::= alter cleared j |>)) /\
    freed ps (space_pages tp fp (p_sz me)) a a' k k' /\ space a' k' tp fp (p_sz me) /\
    forall v, 0 <= v < PGROUNDUP (p_sz me) -> flag (fp v) PTE_V = true ->
      ubyte (mem k') fp v = status_byte z addr v (ubyte (mem k) fp v).
Proof.
  intros P. pose proof (wp_held _ _ _ _ _ _ _ _ _ _ _ P) as Hh. set (c1 := c <| held := [LWait] |>).
  set (c2 := c <| held := [LProc j; LWait] |>).
  assert (Hl : forall lk, (forall i, lk <> LProc i) -> lk <> LWait -> lk ∉ held c2) by (intros lk H1 H2 [?|?%list_elem_of_singleton]%elem_of_cons; naive_solver).
  destruct (status_copied c k a p me j z ps tp fp addr c2 P) as (k1 & E1 & F1 & Hh1 & S1 & B1).
  assert (Ek1 : k1 = over k1 k) by (symmetry; apply over_same, F1).
  assert (Hj1 : procs k1 !! j = Some z) by (rewrite Ek1; apply P).
  destruct (freeproc_ok c2 ltac:(by apply Hl) ltac:(by apply Hl) ltac:(by apply Hl) j z ps a k1 Hj1 (fr_rep _ _ _ _ _ _ F1) (fr_all _ _ _ _ _ _ F1) Hh1)
    as (a' & k2 & E2 & F2).
  assert (Escan : kwait_scan 64 0 p addr false c1 k = Done (inl (p_pid z)) c (over k2 (k <| procs ::= alter cleared j |>))).
  { assert (Hjl : (j < 64)%nat) by (rewrite <- (wp_len _ _ _ _ _ _ _ _ _ _ _ P); eapply lookup_lt_Some, P).
    replace 64%nat with (j + S (63 - j))%nat by lia.
    rewrite (kwait_scan_skip j); [|by intros i ?%list_elem_of_singleton|rewrite (wp_len _ _ _ _ _ _ _ _ _ _ _ P); lia|apply P].
    apply (kwait_scan_reap c k p me j z addr k1); [done|apply P|apply P|apply P|apply P|exact E1|]. fold c2. rewrite E2. f_equal.
    rewrite Ek1. reflexivity. }
  exists a', k2. split.
  - unfold kwait. erewrite bind_done by (apply curproc_done, P). erewrite bind_done by (apply acquire_ok; rewrite Hh; apply not_elem_of_nil).
    rewrite Hh. fold c1. cbn [kwait_loop].
    erewrite bind_done by exact Escan. reflexivity.
  - assert (Hkeep : forall q, q ∈ space_pages tp fp (p_sz me) -> a_ref a q <> 0 /\ q ∉ ps).
    { intros q Hq. destruct (space_pages_own _ _ _ _ _ _ (wp_space _ _ _ _ _ _ _ _ _ _ _ P) Hq) as [_ Eq].
      split; [lia|]. intros Hin. by apply (wp_apart _ _ _ _ _ _ _ _ _ _ _ P q Hin). }
    split; [|split].
    + eapply (freed_app []); [exact F1|]. eapply freed_dirty; [|exact F2]. by intros q ?%elem_of_nil.
    + eapply space_keeps; [|by apply freed_keeps|apply F2|apply F2|exact Hkeep]. exact S1.
    + intros v Hvr HV. rewrite <- B1 by done. unfold ubyte.
      pose proof (space_user_page _ _ _ _ _ _ S1 Hvr HV) as Hin. destruct (space_pages_own _ _ _ _ _ _ S1 Hin) as [Hq _].
      destruct (Hkeep _ Hin). apply (fr_mem _ _ _ _ _ _ F2 (PTE2PA (fp v))); [done|done|done|apply not_elem_of_nil|zlia].
Qed.

End wait.
