(* ===== verification/ProcExit.v ===== *)
(** * [kexit] of [proc.c]: a process gives back what it shares

    The exit of a process whose open files and directory have other owners too, as those of a child
    after [fork] have: the references go, the parent is woken, and the process is a zombie when it
    gives up the CPU for the last time. *)

From S2P Require Import Prelude Riscv CString Kernel Printf Sched Sleeplock Bio Log Fs File Proc ProcLife ProcFork.
From stdpp Require Import base numbers strings gmap list.
From Stdlib Require Import ZArith Lia.

#[local] Open Scope Z_scope.
#[local] Open Scope kernel_scope.

(** ** The process table *)

(** In every slot but [np] nothing changed, except that a sleeping process may have been woken. *)
Definition stirred (np : nat) (ps ps' : list proc) : Prop :=
  length ps' = length ps /\
  forall j s, j <> np -> ps !! j = Some s ->
    exists s', ps' !! j = Some s' /\ (s' = s \/ p_state s = SLEEPING /\ s' = s <| p_state := RUNNABLE |>).

Lemma stirred_refl np ps : stirred np ps ps.
Proof. split; [done|]. intros j s _ Hs. exists s. auto. Qed.

Lemma stirred_trans np ps ps1 ps2 : stirred np ps ps1 -> stirred np ps1 ps2 -> stirred np ps ps2.
Proof.
  intros [L1 H1] [L2 H2]. split; [congruence|]. intros j s Hj Hs. destruct (H1 j s Hj Hs) as (s1 & Hs1 & [->|[Hz ->]]).
  - by apply H2.
  - destruct (H2 j _ Hj Hs1) as (s2 & Hs2 & [->|[E _]]); [|discriminate E]. eexists. split; [exact Hs2|]. by right.
Qed.

(** Seen from the new table. *)
Lemma stirred_back np ps ps' j s' :
  stirred np ps ps' -> j <> np -> ps' !! j = Some s' ->
  exists s, ps !! j = Some s /\ p_parent s = p_parent s' /\ (p_state s' = ZOMBIE -> p_state s = ZOMBIE).
Proof.
  intros [L H] Hj Hs'. destruct (lookup_lt_is_Some_2 ps j) as [s Hs]; [rewrite <- L; by eapply lookup_lt_Some|]. exists s. split; [done|].
  destruct (H j s Hj Hs) as (x & Hx & [->|[_ ->]]); rewrite Hs' in Hx; by injection Hx as ->.
Qed.

Lemma stirred_alter np ps f : stirred np ps (alter f np ps).
Proof. split; [apply length_alter|]. intros j s Hj Hs. exists s. rewrite list_lookup_alter_ne by done. auto. Qed.

Lemma stirred_insert np ps x : stirred np ps (<[np := x]> ps).
Proof. split; [apply length_insert|]. intros j s Hj Hs. exists s. rewrite list_lookup_insert_ne by done. auto. Qed.

Lemma stirred_woken np ch ps : stirred np ps (imap (woken ch (Some np)) ps).
Proof.
  split; [apply length_imap|]. intros j s Hj Hs. exists (woken ch (Some np) j s). rewrite list_lookup_imap, Hs. split; [done|]. unfold woken.
  destruct (bool_decide_reflect (p_state s = SLEEPING)); [|rewrite andb_false_r; by left].
  destruct (_ && _); [by right|by left].
Qed.

Lemma woken_self np ch ps : imap (woken ch (Some np)) ps !! np = ps !! np.
Proof. rewrite list_lookup_imap. destruct (ps !! np); [|done]. cbn. unfold woken. by rewrite bool_decide_false by tauto. Qed.

(** ** The files *)

(** The files [fs] with one more reference for each descriptor of [l]. *)
Definition extra (l : list (option nat)) (fs : list file) : list file :=
  imap (fun f fl => fl <| f_ref := f_ref fl + refs_to f l |>) fs.

Lemma extra_nil fs : extra [] fs = fs.
Proof. apply list_eq. intros f. unfold extra. rewrite list_lookup_imap. destruct (fs !! f) as [[]|]; [|done]. cbn. unfold update. cbn. by rewrite Z.add_0_r. Qed.

Lemma extra_none l fs : extra (None :: l) fs = extra l fs.
Proof. apply list_eq. intros f. unfold extra. rewrite !list_lookup_imap. by rewrite refs_to_cons. Qed.

Lemma dup_files_length l fs : length (dup_files l fs) = length fs.
Proof. unfold dup_files. revert fs. induction l as [|[g|] l IH]; intros fs; cbn [foldl]; [done| |apply IH]. rewrite IH. apply length_alter. Qed.

Lemma dup_files_extra l fs : Forall (fd_ok fs (Z.of_nat (length l))) l -> dup_files l fs = extra l fs.
Proof.
  intros Hl. apply list_eq. intros f. unfold extra. rewrite list_lookup_imap. destruct (fs !! f) as [fl|] eqn:Hf; cbn; [by apply dup_files_lookup|].
  apply lookup_ge_None in Hf. apply lookup_ge_None. by rewrite dup_files_length.
Qed.

(** The file of the first descriptor loses the reference for it. *)
Lemma extra_close f l fs fl :
  fs !! f = Some fl ->
  alter (fun x => x <| f_ref := f_ref fl + refs_to f l |>) f (extra (Some f :: l) fs) = extra l fs.
Proof.
  intros Hf. apply list_eq. intros g. destruct (decide (f = g)) as [<-|Hne].
  - rewrite list_lookup_alter_eq. unfold extra. rewrite !list_lookup_imap, Hf. done.
  - rewrite list_lookup_alter_ne by done. unfold extra. rewrite !list_lookup_imap, refs_to_cons. by rewrite decide_False by congruence.
Qed.

(** [fileclose] of a file that has another owner. *)
Lemma fileclose_shared `{Linker} `{Fuel} `{BlockDevice} f fl n c k :
  LFtable ∉ held c -> files k !! f = Some fl -> f_ref fl = n + 1 -> 1 <= n < 2 ^ 31 - 1 ->
  fileclose f c k = Done tt c (k <| files ::= alter (fun x => x <| f_ref := n |>) f |>).
Proof.
  intros Hh Hf En Hr. assert (Ei : i32 (f_ref fl - 1) = n) by (rewrite En, i32_small; lia). unfold fileclose. erewrite bind_done by (by apply acquire_ok).
  assert (Hg : forall c k fl, files k !! f = Some fl -> getfile f c k = Done fl c k) by (intros c0 k0 fl0 E; unfold getfile, gets, bind; by rewrite E).
  erewrite bind_done by (by apply Hg). destruct (Z.ltb_spec (f_ref fl) 1); [lia|]. erewrite bind_done by reflexivity.
  erewrite bind_done by (apply Hg; kred; by rewrite list_lookup_alter_eq, Hf).
  match goal with |- context [f_ref ?x >? 0] => replace (f_ref x >? 0) with true end.
  2: { symmetry. change ((i32 (f_ref fl - 1) >? 0) = true). rewrite Ei. lia. }
  rewrite release_ok by done. f_equal. kred. f_equal. apply list_eq. intros g. destruct (decide (f = g)) as [<-|]; [|by rewrite !list_lookup_alter_ne].
  rewrite !list_lookup_alter_eq, Hf. cbn. unfold update. cbn. by rewrite Ei.
Qed.

Section exit.
Context `{Linker} `{Fuel} `{BlockDevice}.

(** The loop that closes the descriptors from [fd] on; the ones below are gone. *)
Lemma kexit_files_ok n fd p z l fs c k :
  LFtable ∉ held c -> procs k !! p = Some z -> p_ofile z = replicate fd None ++ l -> length l = n ->
  files k = extra l fs -> Forall (fd_ok fs (Z.of_nat n)) l ->
  kexit_files n fd p c k =
    Done tt c (k <| files := fs |> <| procs ::= alter (fun z => z <| p_ofile := replicate (n + fd) None |>) p |>).
Proof.
  intros Hh. revert fd z l k. induction n as [|n IH]; intros fd z l k Hz Hl Hn Hfs Hok.
  { destruct l; [|done]. rewrite extra_nil in Hfs. rewrite app_nil_r in Hl. cbn [kexit_files]. unfold ret. f_equal. kred. rewrite lalter_id; [destruct k; cbn in *; by subst|].
    intros z' Hz'. replace z' with z by congruence. destruct z. cbn in Hl. subst. done. }
  destruct l as [|o l]; [done|]. injection Hn as Hn. cbn [kexit_files]. erewrite bind_done by (by apply getproc_done).
  assert (Hfd : p_ofile z !! fd = Some o) by (rewrite Hl, lookup_app_r by (rewrite length_replicate; lia); by rewrite length_replicate, Nat.sub_diag).
  assert (Hsnoc : replicate fd None ++ None :: l = replicate (S fd) None ++ l) by (rewrite replicate_S_end, <- app_assoc; done).
  rewrite Hfd. replace (S n + fd)%nat with (n + S fd)%nat by lia. apply Forall_cons in Hok as [Ho Hok].
  assert (Hok' : Forall (fd_ok fs (Z.of_nat n)) l) by (eapply Forall_impl; [exact Hok|]; intros x; apply fd_ok_less; lia).
  destruct o as [f|].
  - destruct Ho as (fl & Hf & H3 & H4). pose proof (refs_to_bound f l) as Hb.
    erewrite bind_done.
    2: { erewrite bind_done; [reflexivity|]. eapply (fileclose_shared f (fl <| f_ref := f_ref fl + refs_to f (Some f :: l) |>) (f_ref fl + refs_to f l)); [done| | |lia].
         - rewrite Hfs. unfold extra. by rewrite list_lookup_imap, Hf.
         - cbn. rewrite refs_to_cons, decide_True by done. lia. }
    set (k1 := k <| files ::= _ |>). rewrite (IH (S fd) (z <| p_ofile ::= fun l => <[fd := None]> l |>) l);
      [f_equal; unfold k1; kred; by rewrite lalter_lalter|unfold k1; kred; by rewrite list_lookup_alter_eq, Hz| |done| |done].
    + cbn. rewrite Hl. rewrite insert_app_r_alt by (rewrite length_replicate; lia). rewrite length_replicate, Nat.sub_diag. done.
    + unfold k1. kred. rewrite Hfs, <- (extra_close f l fs fl) by done. done.
  - erewrite bind_done by reflexivity. apply (IH (S fd) z l); [done|by rewrite Hl|done|by rewrite Hfs, extra_none|done].
Qed.

(** ** The transaction *)

(** The log takes another operation at once; when none is going on, everything is committed. *)
Definition log_room (lg : log_t) : Prop :=
  l_committing lg = false /\ 0 <= l_outstanding lg /\ 0 <= l_n lg /\ l_n lg + (l_outstanding lg + 1) * MAXOPBLOCKS <= LOGBLOCKS /\
  (l_outstanding lg = 0 -> l_n lg = 0).

Definition enter (lg : log_t) : log_t := lg <| l_outstanding := l_outstanding lg + 1 |>.

Lemma begin_op_ok c k : LLog ∉ held c -> log_room (log k) -> begin_op c k = Done tt c (k <| log ::= enter |>).
Proof.
  intros Hh (Hc & Ho & Hn & Hr & _). unfold begin_op. erewrite bind_done by (by apply acquire_ok). cbn [begin_op_loop].
  erewrite bind_done by reflexivity. rewrite Hc.
  rewrite (i32_small (l_outstanding _ + 1)), (i32_small (_ * 10)), (i32_small (l_n _ + _)) by lia.
  match goal with |- context [?x >? ?y] => replace (x >? y) with false by lia end.
  erewrite bind_done by reflexivity. rewrite release_ok by done. f_equal. kred. unfold enter, update. cbn. by rewrite i32_small by lia.
Qed.

(** [iput] of an inode that has another owner. *)
Lemma iput_shared w i c k :
  LItable ∉ held c -> inodes k !! w = Some i -> 2 <= i_ref i < 2 ^ 31 ->
  iput w c k = Done tt c (k <| inodes ::= alter (fun i => i <| i_ref ::= fun n => i32 (n - 1) |>) w |>).
Proof.
  intros Hh Hi Hr. unfold iput. erewrite bind_done by (by apply acquire_ok).
  erewrite bind_done by (unfold getinode, gets, bind; by rewrite Hi). destruct (Z.eqb_spec (i_ref i) 1); [lia|]. cbn [andb].
  erewrite bind_done by reflexivity. erewrite bind_done by reflexivity. by rewrite release_ok.
Qed.

(** The end of an operation in which nothing was written. *)
Lemma end_op_ok np lg c k :
  held c = [] -> cpu_proc c = Some np -> length (procs k) = 64%nat -> log_room lg -> log k = enter lg ->
  end_op c k = Done tt c (k <| log := lg |> <| procs ::= imap (woken CLog (Some np)) |>).
Proof.
  intros Hh Hp Hlen (Hc & Ho & Hn & Hr & Hz) El. unfold end_op. set (c1 := c <| held := [LLog] |>).
  assert (Ha : forall k, acquire LLog c k = Done tt c1 k) by (intros k0; rewrite acquire_ok by (rewrite Hh; apply not_elem_of_nil); by rewrite Hh).
  assert (Hrel : forall k, release LLog c1 k = Done tt c k).
  { intros k0. pose proof (release_ok LLog c k0) as R. rewrite Hh in R. apply R, not_elem_of_nil. }
  assert (Hw : forall k0, length (procs k0) = 64%nat -> wakeup CLog c1 k0 = Done tt c1 (k0 <| procs ::= imap (woken CLog (Some np)) |>)).
  { intros k0 L. rewrite wakeup_ok by (done || by intros j ?%list_elem_of_singleton). unfold c1. kred. by rewrite Hp. }
  erewrite bind_done by apply Ha. erewrite bind_done by reflexivity.
  replace (k <| log ::= _ |>) with (k <| log := lg |>).
  2: { unfold update. cbn. rewrite El. f_equal. cbn. rewrite i32_small by lia. replace (l_outstanding lg + 1 - 1) with (l_outstanding lg) by lia. by destruct lg. }
  erewrite (bind_done (gets log)) by reflexivity. kred. rewrite Hc. cbv zeta. destruct (Z.eqb_spec (l_outstanding lg) 0) as [E0|E0].
  - erewrite bind_done by reflexivity. erewrite bind_done by apply Hrel. erewrite bind_done.
    2: { unfold commit. erewrite bind_done by reflexivity. kred. cbn [l_n]. rewrite (Hz E0). reflexivity. }
    erewrite bind_done by apply Ha. erewrite bind_done by reflexivity. erewrite bind_done by (by apply Hw). rewrite Hrel.
    f_equal. specialize (Hz E0). clear -Hc Hz. destruct lg. cbn in Hc, Hz. subst. kdone.
  - erewrite bind_done by (apply Hw; exact Hlen). erewrite bind_done by apply Hrel. reflexivity.
Qed.

(** ** The exit *)

(** A process without children leaves none behind. *)
Lemma reparent_none np c k :
  length (procs k) = 64%nat -> (forall j s, procs k !! j = Some s -> p_parent s <> Some np) -> reparent np c k = Done tt c k.
Proof.
  intros Hlen Hno. unfold reparent. assert (L : forall n pp, (n + pp = 64)%nat -> reparent_loop n pp np c k = Done tt c k); [|by apply L].
  induction n as [|n IH]; intros pp Hn; [done|]. cbn [reparent_loop]. destruct (lookup_lt_is_Some_2 (procs k) pp) as [s Hs]; [lia|].
  erewrite bind_done by (by apply getproc_done). rewrite decide_False by (by apply (Hno pp)). erewrite bind_done by reflexivity. apply IH. lia.
Qed.

(** What is left of process [z] that called [exit(status)]. *)
Definition zombie (status : Z) (z : proc) : proc :=
  z <| p_ofile := replicate 16 None |> <| p_cwd := None |> <| p_xstate := status |> <| p_state := ZOMBIE |>.

(** Process [np] runs and may exit: its files and its directory have other owners, apart from which
    there are the files [fs] and the inodes [ins]. *)
Record exit_pre (c : cpu) (k : kernel) (np : nat) (z : proc) (w : nat) (fs : list file) (ins : list inode) : Prop := {
  ep_cpu : cpu_proc c = Some np;
  ep_held : held c = [];
  ep_len : length (procs k) = 64%nat;
  ep_proc : procs k !! np = Some z;
  ep_init : initproc k <> Some np;
  ep_leaf : forall j s, procs k !! j = Some s -> p_parent s <> Some np;
  ep_fds : length (p_ofile z) = 16%nat /\ Forall (fd_ok fs 16) (p_ofile z);
  ep_files : files k = extra (p_ofile z) fs;
  ep_cwd : p_cwd z = Some w;
  ep_dir : exists i, ins !! w = Some i /\ 1 <= i_ref i < 2 ^ 31 - 1;
  ep_inodes : inodes k = alter dup_inode w ins;
  ep_log : log_room (log k)
}.

Lemma idup_iput (w : nat) (ins : list inode) i : ins !! w = Some i -> 1 <= i_ref i < 2 ^ 31 - 1 -> alter (fun i => i <| i_ref ::= fun n => i32 (n - 1) |>) w (alter dup_inode w ins) = ins.
Proof.
  intros Hi Hr. rewrite lalter_lalter, lalter_id; [done|]. intros i' Hi'. replace i' with i by congruence.
  destruct i. unfold dup_inode, update. cbn in *. rewrite (i32_small (i_ref + 1)), i32_small by lia. f_equal. lia.
Qed.

(** The part of [kexit] that gives back the files and the directory. *)
Lemma kexit_gives_back c k np z w fs ins status {A} :
  exit_pre c k np z w fs ins ->
  exists ps k1, kexit (A := A) status c k = (
      acquire LWait ;; reparent np ;; q <- getproc np ;; wakeup (chan_of (p_parent q)) ;; acquire (LProc np) ;;
      modproc np (fun q => q <| p_xstate := status |>) ;; modproc np (fun q => q <| p_state := ZOMBIE |>) ;;
      release LWait ;; sched ;; panic "zombie exit") c k1 /\
    k1 = k <| procs := ps |> <| files := fs |> <| inodes := ins |> /\ stirred np (procs k) ps /\
    ps !! np = Some (z <| p_ofile := replicate 16 None |> <| p_cwd := None |>).
Proof.
  intros P. pose proof (ep_held _ _ _ _ _ _ _ P) as Hh. assert (Hl : forall lk, lk ∉ held c) by (intros lk; rewrite Hh; apply not_elem_of_nil).
  destruct (ep_dir _ _ _ _ _ _ _ P) as (i & Hi & Hr). destruct (ep_fds _ _ _ _ _ _ _ P) as [Hn Hok].
  unfold kexit. erewrite bind_done by (apply curproc_done, P). erewrite bind_done by reflexivity.
  rewrite decide_False by (intros E; by apply (ep_init _ _ _ _ _ _ _ P)).
  erewrite bind_done by (apply (kexit_files_ok 16 0 np z (p_ofile z) fs); [apply Hl|apply P|done|done|apply P|exact Hok]).
  set (z1 := z <| p_ofile := replicate 16 None |>). set (ps1 := alter (fun z => z <| p_ofile := replicate 16 None |>) np (procs k)).
  assert (Hz1 : ps1 !! np = Some z1) by (unfold ps1; by rewrite list_lookup_alter_eq, (ep_proc _ _ _ _ _ _ _ P)).
  erewrite bind_done by (apply begin_op_ok; [apply Hl|apply P]).
  erewrite bind_done by (apply getproc_done; exact Hz1). erewrite bind_done by (unfold z1; cbn [p_cwd update]; rewrite (ep_cwd _ _ _ _ _ _ _ P); reflexivity).
  erewrite bind_done.
  2: { apply (iput_shared w (dup_inode i)); [apply Hl|kred; by rewrite (ep_inodes _ _ _ _ _ _ _ P), list_lookup_alter_eq, Hi|].
       unfold dup_inode. cbn. rewrite i32_small by lia. lia. }
  erewrite bind_done.
  2: { apply (end_op_ok np (log k)); [done|apply P|kred; unfold ps1; rewrite length_alter; apply P|apply P|reflexivity]. }
  erewrite bind_done by reflexivity.
  exists (alter (fun q => q <| p_cwd := None |>) np (imap (woken CLog (Some np)) ps1)). eexists. split; [reflexivity|]. split; [|split].
  - pose proof (idup_iput w ins i Hi Hr) as Ei. rewrite <- (ep_inodes _ _ _ _ _ _ _ P) in Ei. rewrite <- Ei. unfold ps1. kred. destruct (log k). reflexivity.
  - eapply stirred_trans; [apply stirred_alter|]. eapply stirred_trans; [apply stirred_woken|apply stirred_alter].
  - by rewrite list_lookup_alter_eq, woken_self, Hz1.
Qed.

(** [kexit] gives back what the process shares, and the process is a zombie when it gives up the CPU,
    holding only its own lock. *)
Lemma kexit_ok c k np z w fs ins status {A} :
  exit_pre c k np z w fs ins ->
  exists ps rest, kexit (A := A) status c k =
      Switch (c <| held := [LProc np] |>) (k <| procs := ps |> <| files := fs |> <| inodes := ins |>) rest /\
    stirred np (procs k) ps /\ ps !! np = Some (zombie status z).
Proof.
  intros P. pose proof (ep_held _ _ _ _ _ _ _ P) as Hh. destruct (kexit_gives_back (A := A) _ _ _ _ _ _ _ status P) as (ps & k1 & -> & -> & S & Hz).
  assert (Hlen : length ps = 64%nat) by (rewrite (proj1 S); apply P).
  assert (Hleaf : forall j s, ps !! j = Some s -> p_parent s <> Some np).
  { intros j s Hj. destruct (decide (j = np)) as [->|Hne].
    - rewrite Hz in Hj. injection Hj as <-. change (p_parent z <> Some np). apply (ep_leaf _ _ _ _ _ _ _ P np), P.
    - destruct (stirred_back _ _ _ _ _ S Hne Hj) as (s0 & Hs0 & <- & _). apply (ep_leaf _ _ _ _ _ _ _ P j s0 Hs0). }
  set (z1 := z <| p_ofile := _ |> <| p_cwd := _ |>) in *. set (ps2 := imap (woken (chan_of (p_parent z1)) (Some np)) ps).
  assert (Hz2 : ps2 !! np = Some z1) by (unfold ps2; by rewrite woken_self).
  erewrite bind_done by (apply acquire_ok; rewrite Hh; apply not_elem_of_nil). rewrite Hh. set (c1 := c <| held := [LWait] |>).
  erewrite bind_done by (by apply reparent_none). erewrite bind_done by (by apply getproc_done).
  erewrite bind_done by (apply wakeup_ok; [by intros j ?%list_elem_of_singleton|done]).
  erewrite bind_done by (apply acquire_ok; by intros ?%list_elem_of_singleton). erewrite bind_done by reflexivity. erewrite bind_done by reflexivity.
  erewrite bind_done by (apply release_done; apply list_elem_of_further, list_elem_of_here).
  change (cpu_proc c1) with (cpu_proc c). rewrite (ep_cpu _ _ _ _ _ _ _ P). kred. fold ps2. rewrite lalter_lalter.
  set (ps3 := alter _ np ps2). assert (Hz3 : ps3 !! np = Some (zombie status z)) by (unfold ps3; by rewrite list_lookup_alter_eq, Hz2).
  exists ps3. eexists. split; [|split; [|done]].
  - erewrite bind_switch; [|eapply (sched_ok np); [apply P|unfold c1; kred; by apply filter_own|exact Hz3|done]].
    unfold c1. kred. rewrite filter_own by done. reflexivity.
  - eapply stirred_trans; [exact S|]. eapply stirred_trans; [apply stirred_woken|apply stirred_alter].
Qed.

End exit.
