(* ===== verification/ForkWait.v ===== *)
(** * [fork] and [wait]: the theorems

    The system calls of Proc.v that create and collect a process, on a running system, and what
    they come to together with [exit]: a child that was forked, ran, exited and was waited for leaves
    the machine as it was. *)

From S2P Require Import Prelude Riscv CString Kernel Printf Kalloc Vm UserMem VmFree UserMemEx Args Sched Sleeplock Bio Log Fs File Proc ProcMem ProcLife ProcFork ProcWait ProcExit.
From stdpp Require Import base numbers strings gmap list.
From Stdlib Require Import ZArith Lia.

#[local] Open Scope Z_scope.
#[local] Open Scope kernel_scope.

Section theorems.
Context {LK : Linker} {LKO : LinkerOk}.
Implicit Types (k : kernel) (t : ptree).

Lemma fork_not_self c k a p q w tp fp np s : fork_pre c k a p q w tp fp -> procs k !! np = Some s -> p_state s = UNUSED -> p <> np.
Proof.
  intros P Hs Hu ->. rewrite (fp_proc _ _ _ _ _ _ _ _ P) in Hs. injection Hs as <-. by apply (fp_used _ _ _ _ _ _ _ _ P).
Qed.

(** Output makes no difference to an address space. *)
Lemma space_output a k u t f sz : space a k t f sz -> space a (k <| uart := u |>) t f sz.
Proof. intros [[[R1 R2 R3 R4 R5 R6] V2 V3 V4] S2 S3 S4 S5]. split; [split; [split; assumption|assumption..]|assumption..]. Qed.

(** What the exit of a child of the process that forks relies on: the first process and the parent
    of every process are in use, the directory has an owner, and the log has room. *)
Record exit_world (k : kernel) (w : nat) : Prop := {
  ew_init : exists i s, initproc k = Some i /\ procs k !! i = Some s /\ p_state s <> UNUSED;
  ew_parents : forall j s i z, procs k !! j = Some s -> p_parent s = Some i -> procs k !! i = Some z -> p_state z <> UNUSED;
  ew_dir : exists i, inodes k !! w = Some i /\ 1 <= i_ref i < 2 ^ 31 - 1;
  ew_log : log_room (log k)
}.

(** The child is started by the scheduler of a CPU, which holds its lock; [forkret] lets go of the
    lock; the child exits. *)
Definition child_exits `{Fuel} `{BlockDevice} (np : nat) (status : Z) : M unit :=
  scheduler_start np ;;
  release (LProc np) ;;
  kexit status.

Lemma child_exits_ok `{Fuel} `{BlockDevice} c k a p q w tp fp a' k' np ch t g cs status :
  fork_pre c k a p q w tp fp -> forked a a' k k' p q w fp np ch t g -> exit_world k w -> held cs = [] ->
  exists ps u rest, child_exits np status (cs <| held := [LProc np] |>) k' =
      Switch (cs <| cpu_proc := Some np |> <| held := [LProc np] |>)
        (over (k' <| uart := u |>) (k <| procs := ps |> <| nextpid := i32 (nextpid k + 1) |>)) rest /\
    stirred np (procs k) ps /\ ps !! np = Some (zombie status ch).
Proof.
  intros P F W Hh. destruct (fk_slot _ _ _ _ _ _ _ _ _ _ _ _ F) as (s & Hs & Hu). pose proof (fork_not_self _ _ _ _ _ _ _ _ _ _ P Hs Hu) as Hne.
  destruct (fk_files _ _ _ _ _ _ _ _ _ _ _ _ F) as [Hof Hcwd]. destruct (fp_files _ _ _ _ _ _ _ _ P) as [Hlf Hok].
  pose proof (fk_rest _ _ _ _ _ _ _ _ _ _ _ _ F) as Ek. set (c1 := cs <| cpu_proc := Some np |> <| held := [] |>).
  assert (Hnp : procs k' !! np = Some ch) by (rewrite Ek; apply list_lookup_insert_eq; by eapply lookup_lt_Some).
  unfold child_exits. erewrite bind_done by (apply (scheduler_start_ok np ch); [done|by intros ?%list_elem_of_singleton]).
  assert (R : forall k, release (LProc np) (cs <| held := [LProc np] |> <| cpu_proc := Some np |>) k = Done tt c1 k).
  { intros k0. exact (release_ok (LProc np) c1 k0 (not_elem_of_nil _)). }
  erewrite bind_done by apply R. set (k1 := k' <| procs ::= _ |> <| uart ::= _ |>).
  assert (Ep : procs k1 = <[np := ch <| p_state := RUNNING |>]> (procs k)) by (unfold k1; rewrite Ek; exact (list_alter_insert _ _ _ _)).
  assert (Ef : files k1 = dup_files (p_ofile q) (files k)) by (unfold k1; kred; by rewrite Ek).
  assert (Ei : inodes k1 = alter dup_inode w (inodes k)) by (unfold k1; kred; by rewrite Ek).
  assert (Ex : forall ps, k1 <| procs := ps |> <| files := files k |> <| inodes := inodes k |> =
    over (k' <| uart := vip_log ch (uart k') |>) (k <| procs := ps |> <| nextpid := i32 (nextpid k + 1) |>)).
  { intros ps. unfold k1. rewrite Ek at 1. reflexivity. }
  assert (El : log k1 = log k) by (unfold k1; rewrite Ek; reflexivity).
  assert (Eip : initproc k1 = initproc k) by (unfold k1; rewrite Ek; reflexivity).
  clearbody k1. clear Ek.
  destruct (kexit_ok (A := unit) c1 k1 np (ch <| p_state := RUNNING |>) w (files k) (inodes k) status) as (ps & rest & E & S & Hz).
  - split; try done.
    + rewrite Ep, length_insert. apply P.
    + rewrite Ep. apply list_lookup_insert_eq. by eapply lookup_lt_Some.
    + destruct (ew_init _ _ W) as (i & z & Hi & Hz & Hzu). rewrite Eip. intros E. congruence.
    + intros j x. rewrite Ep. destruct (decide (j = np)) as [->|Hj].
      * rewrite list_lookup_insert_eq by (by eapply lookup_lt_Some). intros [= <-]. change (p_parent ch <> Some np).
        destruct (fk_state _ _ _ _ _ _ _ _ _ _ _ _ F) as (_ & -> & _). congruence.
      * rewrite list_lookup_insert_ne by done. intros Hx Hpx. by apply (ew_parents _ _ W j x np s).
    + cbn [p_ofile update]. by rewrite Hof.
    + cbn [p_ofile update]. rewrite Hof, Ef. apply dup_files_extra. by rewrite Hlf.
    + apply W.
    + rewrite El. apply W.
  - exists ps, (vip_log ch (uart k')), rest. split; [|split; [|done]].
    + rewrite E, Ex. reflexivity.
    + eapply stirred_trans; [|exact S]. rewrite Ep. apply stirred_insert.
Qed.

(** The parent can collect it. *)
Lemma forked_wait_pre c k a p q w tp fp a' k' np ch t g status addr ps u n :
  fork_pre c k a p q w tp fp -> forked a a' k k' p q w fp np ch t g -> no_zombie k p 0 64 -> p_state q = RUNNING -> status_addr fp (p_sz q) addr ->
  stirred np (procs k) ps -> ps !! np = Some (zombie status ch) ->
  wait_pre c (over (k' <| uart := u |>) (k <| procs := ps |> <| nextpid := n |>)) a' p q np (zombie status ch)
    (p_trapframe ch :: space_pages t g (p_sz q)) tp fp addr.
Proof.
  intros P F Hz Hrun Ha S Hch. set (k2 := over _ _).
  destruct (fk_slot _ _ _ _ _ _ _ _ _ _ _ _ F) as (s & Hs & Hu). pose proof (fork_not_self _ _ _ _ _ _ _ _ _ _ P Hs Hu) as Hne.
  pose proof (fk_pages _ _ _ _ _ _ _ _ _ _ _ _ F) as T. destruct (fk_state _ _ _ _ _ _ _ _ _ _ _ _ F) as (_ & Hpar & _).
  destruct (fk_table _ _ _ _ _ _ _ _ _ _ _ _ F) as [Hpt Hsz]. pose proof (fk_space _ _ _ _ _ _ _ _ _ _ _ _ F) as Hsp.
  assert (Hsp2 : forall t f sz, space a' k' t f sz -> space a' k2 t f sz) by (intros t0 f0 sz0 S0; by apply space_over, space_output).
  destruct (tk_new _ _ _ _ _ T (p_trapframe ch) (list_elem_of_here _ _)) as [Htf _].
  split; try done; try apply P.
  - change (length ps = 64%nat). rewrite (proj1 S). apply P.
  - destruct (proj2 S p q Hne (fp_proc _ _ _ _ _ _ _ _ P)) as (q' & Hq' & [->|[E _]]); [done|]. by rewrite Hrun in E.
  - intros i x Hi Hx Hpx Hxz. assert (Hni : i <> np) by lia. destruct (stirred_back _ _ _ _ _ S Hni Hx) as (x0 & Hx0 & Ep & Est).
    apply (Hz i x0); [|done|congruence|by apply Est]. apply lookup_lt_Some in Hx0. rewrite (fp_len _ _ _ _ _ _ _ _ P) in Hx0. lia.
  - apply (vo_rep _ _ _ (sp_vm _ _ _ _ _ (Hsp2 _ _ _ Hsp))).
  - apply T.
  - rewrite <- Hsz. apply (holds_space a' k2 (zombie status ch) t g); [done| |done|change (p_sz (zombie status ch)) with (p_sz ch); rewrite Hsz; by apply Hsp2|].
    + change (a_ref a' (p_trapframe ch) = 1). by rewrite (tk_ref _ _ _ _ _ T), decide_True by (done || apply list_elem_of_here).
    + change (p_trapframe ch ∉ space_pages t g (p_sz ch)). rewrite Hsz. apply F.
  - assert (S1 : space a' (over k' k) tp fp (p_sz q)).
    { eapply space_keeps; [apply P|by eapply took_keeps|apply T|apply T|]. intros x Hx.
      destruct (space_pages_own _ _ _ _ _ _ (fp_space _ _ _ _ _ _ _ _ P) Hx). lia. }
    apply (space_over a' (over k' k) k') in S1. rewrite over_over, over_id in S1. by apply Hsp2.
  - intros x Hx Hin. destruct (tk_new _ _ _ _ _ T x Hx) as [_ Hz0].
    destruct (space_pages_own _ _ _ _ _ _ (fp_space _ _ _ _ _ _ _ _ P) Hin). lia.
Qed.

(** C4. [kfork] on a running process with an address space, open files and a directory always
    returns.  Either it returns -1 and no page changed hands, no page that had an owner changed,
    and of the rest of the kernel only a free slot (and the next pid) differs; or it returns the
    next pid, and a slot that was free holds a RUNNABLE child of the caller: every byte of memory
    valid in the parent has the same value and permissions in the child, on pages that had no
    owner; the trapframe is the parent's but for a0, which is 0; the child has the parent's
    descriptors and directory, and each file has one more reference per descriptor; the parent's
    pages and everything else are unchanged. *)
Theorem fork_copies c k a p q w tp fp :
  fork_pre c k a p q w tp fp ->
  exists r a' k', kfork c k = Done r c k' /\
    ((r = -1 /\ fork_failed a a' k k') \/
     exists np ch t g, r = nextpid k /\ forked a a' k k' p q w fp np ch t g /\
       forall f fl, files k !! f = Some fl -> files k' !! f = Some (fl <| f_ref := f_ref fl + refs_to f (p_ofile q) |>)).
Proof.
  intros P. destruct (kfork_ok c k a p q w tp fp P) as (r & a' & k' & E & [Hf|(np & ch & t & g & Hr & F)]).
  - exists r, a', k'. split; [done|]. by left.
  - exists r, a', k'. split; [done|]. right. exists np, ch, t, g. split; [done|]. split; [done|]. intros f fl Hf.
    rewrite (fk_rest _ _ _ _ _ _ _ _ _ _ _ _ F). change (dup_files (p_ofile q) (files k) !! f = Some (fl <| f_ref := f_ref fl + refs_to f (p_ofile q) |>)).
    destruct (fp_files _ _ _ _ _ _ _ _ P) as [Hl Hfd]. apply dup_files_lookup; [|done]. by rewrite Hl.
Qed.

(** C6. [kwait] when the caller has a child that has exited: the first such child is collected.
    Its pid is returned, its exit status is at the address given (if any) and the rest of the
    caller's memory is unchanged; exactly the pages the child held (trapframe, tables, memory) get
    rid of their owner, no other page changes, and the child's slot is free. *)
Theorem wait_reaps c k a p me j z ps tp fp addr `{Fuel} :
  wait_pre c k a p me j z ps tp fp addr ->
  exists a' k', kwait addr c k = Done (p_pid z) c k' /\ represents a' k' /\ complete a' /\
    k' = over k' (k <| procs ::= alter cleared j |>) /\
    (forall x, page_ok x -> a_ref a' x = if decide (x ∈ ps) then 0 else a_ref a x) /\
    space a' k' tp fp (p_sz me) /\
    (forall v, 0 <= v < PGROUNDUP (p_sz me) -> flag (fp v) PTE_V = true ->
      ubyte (mem k') fp v = status_byte z addr v (ubyte (mem k) fp v)) /\
    (forall x y, page_ok x -> a_ref a x <> 0 -> x ∉ ps -> x ∉ space_pages tp fp (p_sz me) -> x <= y < x + PGSIZE ->
      rd8 (mem k') y = rd8 (mem k) y).
Proof.
  intros P. destruct (kwait_ok c k a p me j z ps tp fp addr P) as (a' & k' & E & F & S & B).
  exists a', (over k' (k <| procs ::= alter cleared j |>)). split; [exact E|]. split; [by apply represents_over, F|].
  split; [apply F|]. split; [by rewrite over_over|]. split; [apply F|]. split; [by apply space_over|]. split; [exact B|]. apply F.
Qed.

(** C7. A child that was forked, exited and was waited for leaves no trace.  After [kfork] succeeded,
    with room in the log, the child runs on some CPU: its scheduler starts it, [forkret] lets go of
    its lock, and it calls [kexit(status)], which does not panic and gives up the CPU for the last
    time, the child's lock being held.  The next [kwait] of the parent returns the child's pid.  Then
    every page of the machine has as many owners as before the [kfork], every page that had one and is
    not a table or page of the caller holds the same bytes, and the caller's memory is what it was but
    for the status, which is at the address given (if any).  All files, inodes (with their reference
    counts), buffers and the log are exactly as they were; so are the slots of all other processes,
    except that a sleeping one may have been woken; and the child's slot is free again, without
    descriptors, directory or parent. *)
Theorem fork_wait_balanced c k a p q w tp fp r k' status addr cs `{Fuel} `{BlockDevice} :
  fork_pre c k a p q w tp fp -> p_state q = RUNNING -> no_zombie k p 0 64 -> exit_world k w -> status_addr fp (p_sz q) addr ->
  kfork c k = Done r c k' -> r <> -1 -> held cs = [] ->
  exists np k2 rest a2 k3,
    child_exits np status (cs <| held := [LProc np] |>) k' = Switch (cs <| cpu_proc := Some np |> <| held := [LProc np] |>) k2 rest /\
    kwait addr c k2 = Done r c k3 /\ represents a2 k3 /\ complete a2 /\
    (forall x, page_ok x -> a_ref a2 x = a_ref a x) /\
    (forall v, 0 <= v < PGROUNDUP (p_sz q) -> flag (fp v) PTE_V = true ->
      ubyte (mem k3) fp v = if decide (addr <> 0 /\ addr <= v < addr + 4) then u8 (nthd 0 (le_bytes 4 status) (v - addr)) else ubyte (mem k) fp v) /\
    (forall x y, page_ok x -> a_ref a x <> 0 -> x ∉ space_pages tp fp (p_sz q) -> x <= y < x + PGSIZE -> rd8 (mem k3) y = rd8 (mem k) y) /\
    k3 = over k3 (k <| procs := procs k3 |> <| nextpid := i32 (nextpid k + 1) |>) /\
    stirred np (procs k) (procs k3) /\
    exists z, procs k3 !! np = Some z /\ empty_slot z /\ p_ofile z = replicate 16 None /\ p_cwd z = None /\ p_parent z = None.
Proof.
  intros P Hrun Hz W Ha E Hr Hcs. destruct (kfork_ok c k a p q w tp fp P) as (r' & a' & kf & E' & Hcase). rewrite E in E'. injection E' as <- <-.
  destruct Hcase as [[? _]|(np & ch & t & g & -> & F)]; [done|].
  destruct (child_exits_ok _ _ _ _ _ _ _ _ _ _ _ _ _ _ cs status P F W Hcs) as (ps & u & rest & Ex & S & Hch).
  pose proof (forked_wait_pre _ _ _ _ _ _ _ _ _ _ _ _ _ _ status addr ps u (i32 (nextpid k + 1)) P F Hz Hrun Ha S Hch) as Wp.
  set (k2 := over _ _) in *. destruct (kwait_ok _ _ _ _ _ _ _ _ _ _ _ Wp) as (a2 & k3 & Ew & F2 & S2 & B2).
  pose proof (fk_pages _ _ _ _ _ _ _ _ _ _ _ _ F) as T. destruct (fk_state _ _ _ _ _ _ _ _ _ _ _ _ F) as (_ & _ & Hpid).
  exists np, k2, rest, a2, (over k3 (k2 <| procs ::= alter cleared np |>)). split; [exact Ex|].
  split; [rewrite <- Hpid; exact Ew|]. split; [apply represents_over, F2|]. split; [apply F2|]. split; [|split; [|split; [|split; [reflexivity|split]]]].
  - intros x Hx. rewrite (fr_ref _ _ _ _ _ _ F2), (tk_ref _ _ _ _ _ T) by done. destruct (decide _) as [Hin|]; [|done].
    symmetry. by apply (tk_new _ _ _ _ _ T).
  - intros v Hv HV. etransitivity; [exact (B2 v Hv HV)|]. unfold status_byte. destruct (decide _); [done|].
    destruct (space_pages_own _ _ _ _ _ _ (fp_space _ _ _ _ _ _ _ _ P) (space_user_page _ _ _ _ _ _ (fp_space _ _ _ _ _ _ _ _ P) Hv HV)) as [Hp E1].
    unfold ubyte. apply (tk_mem _ _ _ _ _ T (PTE2PA (fp v))); [done|lia|zlia].
  - intros x y Hx Hx0 Hn Hy. destruct (took_ref_old _ _ _ _ _ _ T Hx Hx0) as [Hnp Er].
    etransitivity; [apply (fr_mem _ _ _ _ _ _ F2 x); [done|by rewrite Er|done|done|done]|by apply (tk_mem _ _ _ _ _ T x)].
  - eapply stirred_trans; [exact S|]. apply stirred_alter.
  - exists (cleared (zombie status ch)). split; [|done].
    change (alter cleared np ps !! np = Some (cleared (zombie status ch))). by rewrite list_lookup_alter_eq, Hch.
Qed.

End theorems.

(** ** A process that forks and waits *)

Section witnesses.
#[local] Existing Instance small_linker.
#[local] Existing Instance small_linker_ok.
#[local] Instance ffuel : Fuel := 2%nat.
#[local] Existing Instance sync_device.

(** The process of UserMemEx.v, its trapframe on page 4, with one file open. *)
Definition fproc : proc :=
  proc_0 <| p_state := RUNNING |> <| p_sz := 2 * PGSIZE |> <| p_pagetable := wpage 0 |> <| p_trapframe := wpage 4 |>
    <| p_ofile := Some 0%nat :: replicate 15 None |> <| p_cwd := Some 0%nat |>.

Definition fkernel : kernel :=
  wkernel <| procs := fproc :: replicate 63 proc_0 |> <| files := file_0 <| f_ref := 1 |> :: replicate 99 file_0 |>
    <| inodes := inode_0 <| i_ref := 1 |> :: replicate 49 inode_0 |> <| initproc := Some 0%nat |>.

Lemma fspace s : space walloc (over wkernel s) wtree wfun (2 * PGSIZE).
Proof.
  apply space_over. split; [apply wtree_ok|apply wtree_is|apply wtree_um|lia|]. intros v Hv. change (PGROUNDUP (2 * PGSIZE)) with (2 * PGSIZE) in Hv.
  unfold wfun. destruct (Z.ltb_spec v PGSIZE); [lia|done].
Qed.

Lemma fkernel_pages : over wkernel fkernel = fkernel.
Proof. reflexivity. Qed.

Lemma fkernel_slots j s : procs fkernel !! j = Some s -> s = fproc /\ j = 0%nat \/ s = proc_0.
Proof.
  change (procs fkernel) with (fproc :: replicate 63 proc_0). destruct j as [|j]; [intros [= <-]; by left|].
  intros [-> _]%lookup_replicate. by right.
Qed.

Lemma fpre : fork_pre wcpu fkernel walloc 0 fproc 0 wtree wfun.
Proof.
  split; try done.
  - intros j s [[-> _]| ->]%fkernel_slots; [intros [=]|done].
  - rewrite <- fkernel_pages. apply represents_over, wrepresents.
  - apply wcomplete.
  - rewrite <- fkernel_pages. apply fspace.
  - split; [done|]. apply Forall_cons. split; [|apply Forall_replicate; done]. exists (file_0 <| f_ref := 1 |>). done.
Qed.

Lemma fno_zombie : no_zombie fkernel 0 0 64.
Proof. intros i s _ [[-> _]| ->]%fkernel_slots; intros [=]. Qed.

Lemma fork_copies_witness :
  exists r k', kfork wcpu fkernel = Done r wcpu k' /\
    (r = -1 \/ r = 1 /\ exists g fl, ubyte (mem k') g 1 = 105 /\ files k' !! 0%nat = Some fl /\ f_ref fl = 2).
Proof.
  destruct (fork_copies wcpu fkernel walloc 0%nat fproc 0%nat wtree wfun fpre) as (r & a' & k' & E & [[-> _]|(np & ch & t & g & -> & F & Hf)]).
  - exists (-1), k'. split; [done|]. by left.
  - exists 1, k'. split; [done|]. right. split; [done|]. eexists g, _. split; [|split; [by apply (Hf 0%nat)|vm_compute; reflexivity]].
    destruct (proj1 (fk_memory _ _ _ _ _ _ _ _ _ _ _ _ F) 1) as [_ ->]; [vm_compute; split; congruence|vm_compute; reflexivity..].
Defined.

(** The fork succeeds here: there are just enough pages. *)
Lemma fork_succeeds : match kfork wcpu fkernel with Done r _ _ => r = 1 | _ => False end.
Proof. vm_compute. reflexivity. Qed.

Lemma fexit_world : exit_world fkernel 0.
Proof.
  split.
  - by exists 0%nat, fproc.
  - intros j s i z [[-> _]| ->]%fkernel_slots; intros [=].
  - by exists (inode_0 <| i_ref := 1 |>).
  - done.
Qed.

Lemma fstatus_addr : status_addr wfun (2 * PGSIZE) 100.
Proof. right. split; [done|]. split; [done|]. intros v Hv. unfold user_ok, wfun. destruct (Z.ltb_spec v PGSIZE); [split; vm_compute; congruence|lia]. Qed.

(** The child exits with 3, which the parent finds at address 100; the file has one reference again. *)
Lemma fork_wait_balanced_witness :
  exists k' np k2 rest k3, kfork wcpu fkernel = Done 1 wcpu k' /\
    child_exits np 3 (cpu_0 <| held := [LProc np] |>) k' = Switch (cpu_0 <| cpu_proc := Some np |> <| held := [LProc np] |>) k2 rest /\
    kwait 100 wcpu k2 = Done 1 wcpu k3 /\ ubyte (mem k3) wfun 1 = 105 /\ ubyte (mem k3) wfun 100 = 3 /\ f_ref <$> files k3 !! 0%nat = Some 1.
Proof.
  destruct (kfork_ok wcpu fkernel walloc 0%nat fproc 0%nat wtree wfun fpre) as (r & a' & k' & E & _).
  pose proof fork_succeeds as Hr. rewrite E in Hr. subst r.
  destruct (fork_wait_balanced wcpu fkernel walloc 0%nat fproc 0%nat wtree wfun 1 k' 3 100 cpu_0 fpre eq_refl fno_zombie fexit_world fstatus_addr E)
    as (np & k2 & rest & a2 & k3 & Ex & Ew & _ & _ & _ & B & _ & K & _); [lia|reflexivity|].
  exists k', np, k2, rest, k3. split; [exact E|]. split; [exact Ex|]. split; [exact Ew|].
  split; [|split]; [rewrite B; [vm_compute; reflexivity|vm_compute; split; congruence|vm_compute; reflexivity]..|]. rewrite K. reflexivity.
Defined.

(** A child that has exited, in slot 1; only its trapframe is left. *)
Definition zproc : proc :=
  proc_0 <| p_state := ZOMBIE |> <| p_parent := Some 0%nat |> <| p_pid := 7 |> <| p_xstate := 3 |> <| p_trapframe := wpage 4 |>.
Definition zkernel : kernel := wkernel <| procs := (fproc <| p_trapframe := 0 |>) :: zproc :: replicate 62 proc_0 |>.

Lemma wait_reaps_witness :
  exists k', kwait 100 wcpu zkernel = Done 7 wcpu k' /\ ubyte (mem k') wfun 100 = 3 /\ ubyte (mem k') wfun 1 = 105.
Proof.
  destruct (wait_reaps wcpu zkernel walloc 0%nat (fproc <| p_trapframe := 0 |>) 1%nat zproc [wpage 4] wtree wfun 100)
    as (a' & k' & E & _ & _ & _ & _ & _ & B & _).
  - split; try done.
    + intros [|i] s Hi; [|lia]. intros [= <-]. intros [=].
    + change zkernel with (over wkernel zkernel). apply represents_over, wrepresents.
    + apply wcomplete.
    + apply (holds_frame walloc zkernel zproc); by vm_compute.
    + change zkernel with (over wkernel zkernel). apply fspace.
    + intros q ->%list_elem_of_singleton. apply (bool_decide_unpack _). vm_compute. exact I.
    + apply fstatus_addr.
  - exists k'. split; [done|]. split; (rewrite B; [vm_compute; reflexivity|vm_compute; split; congruence|vm_compute; reflexivity]).
Defined.

End witnesses.
