(* ===== verification/Exec.v ===== *)
(** * Running a program: [exec.c]

    The path and the arguments are strings in the kernel: lists of bytes
    without the final 0. *)

From S2P Require Import Prelude Riscv CString Kernel Printf Kalloc Vm Args Sched Sleeplock Bio Log Fs Pipe Console File Proc.
From stdpp Require Import base numbers strings gmap list.
From Stdlib Require Import ZArith Lia.

#[local] Open Scope Z_scope.
#[local] Open Scope kernel_scope.

(** ** elf.h *)
Abbreviation ELF_MAGIC := 0x464C457F%Z (only parsing).
Abbreviation ELF_PROG_LOAD := 1%Z (only parsing).

(** The fields of [struct elfhdr] (64 bytes) that [kexec] reads. *)
Record elfhdr := mkelf { elf_magic : Z; elf_entry : Z; elf_phoff : Z; elf_phnum : Z }.
Definition get_elf (b : list Z) : elfhdr := mkelf (lget 4 b 0) (lget 8 b 24) (lget 8 b 32) (lget 2 b 56).

(** [struct proghdr] (56 bytes). *)
Record proghdr := mkph {
  ph_type : Z; ph_flags : Z; ph_off : Z; ph_vaddr : Z; ph_paddr : Z; ph_filesz : Z; ph_memsz : Z; ph_align : Z
}.
Definition get_ph (b : list Z) : proghdr :=
  mkph (lget 4 b 0) (lget 4 b 4) (lget 8 b 8) (lget 8 b 16) (lget 8 b 24) (lget 8 b 32) (lget 8 b 40) (lget 8 b 48).

Definition flags2perm (flags : Z) : Z :=
  let perm := if flag flags 0x1 then PTE_X else 0 in
  if flag flags 0x2 then Z.lor perm PTE_W else perm.

(** [for(last=s=path; *s; s++) if( *s == '/') last = s+1;] *)
Fixpoint last_elem (last s : list Z) : list Z :=
  match s with
  | [] => last
  | c :: s => last_elem (if isc c "/" then s else last) s
  end.

Section Operations.
Context {LK : Linker} `{Fuel} `{BlockDevice}.

(** [for(i = 0; i < sz; i += PGSIZE)] *)
Fixpoint loadseg_loop (n : nat) (pagetable va : Z) (ip : nat) (offset sz i : Z) : M Z :=
  match n with
  | O => stuck "loadseg"
  | S n =>
      if i <? sz then
        pa <- walkaddr pagetable (u64 (va + i)) ;;
        if pa =? 0 then panic "loadseg: address should exist" else
        let m := if sz - i <? PGSIZE then sz - i else PGSIZE in
        '(r, _) <- readi ip (ToPhys pa) (u32 (offset + i)) m ;;
        if negb (r =? m) then ret (-1) else
        loadseg_loop n pagetable va ip offset sz (u32 (i + PGSIZE))
      else ret 0
  end.

Definition loadseg (pagetable va : Z) (ip : nat) (offset sz : Z) : M Z :=
  loadseg_loop (Z.to_nat (sz / PGSIZE + 2)) pagetable va ip offset sz 0.

(** [for(i=0, off=elf.phoff; i<elf.phnum; i++, off+=sizeof(ph))], [n] headers
    left: whether all of them loaded, and the size reached. *)
Fixpoint kexec_load (n : nat) (ip : nat) (pagetable off sz : Z) : M (bool * Z) :=
  match n with
  | O => ret (true, sz)
  | S n =>
      '(r, b) <- readi ip ToLocal (u32 off) 56 ;;
      if negb (r =? 56) then ret (false, sz) else
      let ph := get_ph b in
      if negb (ph_type ph =? ELF_PROG_LOAD) then kexec_load n ip pagetable (i32 (off + 56)) sz else
      if ph_memsz ph <? ph_filesz ph then ret (false, sz) else
      if u64 (ph_vaddr ph + ph_memsz ph) <? ph_vaddr ph then ret (false, sz) else
      if negb (ph_vaddr ph mod PGSIZE =? 0) then ret (false, sz) else
      sz1 <- uvmalloc pagetable sz (u64 (ph_vaddr ph + ph_memsz ph)) (flags2perm (i32 (ph_flags ph))) ;;
      if sz1 =? 0 then ret (false, sz) else
      r <- loadseg pagetable (ph_vaddr ph) ip (u32 (ph_off ph)) (u32 (ph_filesz ph)) ;;
      if r <? 0 then ret (false, sz1) else
      kexec_load n ip pagetable (i32 (off + 56)) sz1
  end.

(** [for(argc = 0; argv[argc]; argc++)]: the addresses of the strings pushed
    and the stack pointer, or [None] for [goto bad]. *)
Fixpoint kexec_args (argv : list (list Z)) (pagetable stackbase sp : Z) (ustack : list Z) : M (option (list Z * Z)) :=
  match argv with
  | [] => ret (Some (ustack, sp))
  | s :: argv =>
      if Z.of_nat (length ustack) >=? MAXARG then ret None else
      let len := Z.of_nat (length s) + 1 in
      let sp := u64 (sp - len) in
      let sp := u64 (sp - sp mod 16) in
      if sp <? stackbase then ret None else
      r <- copyout pagetable sp (s ++ [0]) len ;;
      if r <? 0 then ret None else
      kexec_args argv pagetable stackbase sp (ustack ++ [sp])
  end.

(** The label [bad]. *)
Definition kexec_bad (pagetable sz : Z) (ip : option nat) : M Z :=
  (if negb (pagetable =? 0) then proc_freepagetable pagetable sz else ret tt) ;;
  (match ip with
   | Some ip => iunlockput ip ;; end_op
   | None => ret tt
   end) ;;
  ret (-1).

(** From [p->trapframe->a1 = sp] on. *)
Definition kexec_commit (path : list Z) (elf : elfhdr) (pagetable sz oldsz sp argc : Z) : M Z :=
  p <- curproc ;;
  tf_set p tf_a1 sp ;;
  modproc p (fun q => q <| p_name ::= fun s => safestrcpy s (nthd 0 (last_elem path path)) 16 |>) ;;
  q <- getproc p ;;
  let oldpagetable := p_pagetable q in
  modproc p (fun q => q <| p_pagetable := pagetable |>) ;;
  modproc p (fun q => q <| p_sz := sz |>) ;;
  tf_set p epc (elf_entry elf) ;;
  tf_set p tf_sp sp ;;
  proc_freepagetable oldpagetable oldsz ;;
  ret argc.

(** The pushes, with [sp = sz] at the start, up to the commit or the label [bad]. *)
Definition kexec_push (path : list Z) (argv : list (list Z)) (elf : elfhdr) (pagetable sz oldsz stackbase : Z) : M Z :=
  r <- kexec_args argv pagetable stackbase sz [] ;;
  match r with
  | None => kexec_bad pagetable sz None
  | Some (ustack, sp) =>
      let argc := Z.of_nat (length ustack) in
      if argc >=? MAXARG then stuck "ustack" else
      let sp := u64 (sp - (argc + 1) * 8) in
      let sp := u64 (sp - sp mod 16) in
      if sp <? stackbase then kexec_bad pagetable sz None else
      r <- copyout pagetable sp (List.concat (map (le_bytes 8) (ustack ++ [0]))) ((argc + 1) * 8) ;;
      if r <? 0 then kexec_bad pagetable sz None else
      kexec_commit path elf pagetable sz oldsz sp argc
  end.

(** From the stack pages on; [sz] is the size of the program. *)
Definition kexec_stack (path : list Z) (argv : list (list Z)) (elf : elfhdr) (pagetable sz : Z) : M Z :=
  p <- curproc ;;
  q <- getproc p ;;
  let oldsz := p_sz q in
  let sz := PGROUNDUP sz in
  sz1 <- uvmalloc pagetable sz (u64 (sz + (USERSTACK + 1) * PGSIZE)) PTE_W ;;
  if sz1 =? 0 then kexec_bad pagetable sz None else
  let sz := sz1 in
  uvmclear pagetable (u64 (sz - (USERSTACK + 1) * PGSIZE)) ;;
  kexec_push path argv elf pagetable sz oldsz (u64 (sz - USERSTACK * PGSIZE)).

Definition kexec (path : list Z) (argv : list (list Z)) : M Z :=
  p <- curproc ;;
  begin_op ;;
  o <- namei path ;;
  match o with
  | None => end_op ;; ret (-1)
  | Some ip =>
      ilock (Some ip) ;;
      '(r, b) <- readi ip ToLocal 0 64 ;;
      if negb (r =? 64) then kexec_bad 0 0 (Some ip) else
      let elf := get_elf b in
      if negb (elf_magic elf =? ELF_MAGIC) then kexec_bad 0 0 (Some ip) else
      q <- getproc p ;;
      pagetable <- proc_pagetable (p_trapframe q) ;;
      if pagetable =? 0 then kexec_bad 0 0 (Some ip) else
      '(ok, sz) <- kexec_load (Z.to_nat (elf_phnum elf)) ip pagetable (i32 (elf_phoff elf)) 0 ;;
      if negb ok then kexec_bad pagetable sz (Some ip) else
      iunlockput ip ;;
      end_op ;;
      kexec_stack path argv elf pagetable sz
  end.

End Operations.
