(* ===== verification/ExecStack.v ===== *)
(** * The new image of a process: the stack of [kexec] in [exec.c]

    From the stack pages on, [kexec] allocates the stack and its guard page, pushes the argument
    strings and the array of their addresses, and either commits the new image and frees the old
    one or frees the new one. *)

From S2P Require Import Prelude Riscv CString Kernel Printf Kalloc Vm UserMem VmFree Args Sched Bio Log Fs File Proc Exec ProcMem ProcLife ProcFork.
From stdpp Require Import base numbers strings gmap list.
From Stdlib Require Import ZArith Lia.

#[local] Open Scope Z_scope.
#[local] Open Scope kernel_scope.

Section resize.
Context {LK : Linker} {LKO : LinkerOk}.
Implicit Types (k : kernel) (t : ptree).

(** Someone who owned the pages [ps] owns the pages [qs] instead; the pages of the others are unchanged. *)
Record resized (ps qs : list Z) (a a' : alloc_spec) (k k' : kernel) : Prop := {
  rs_rep : represents a' k';
  rs_all : complete a';
  rs_new : forall x, x ∈ qs -> page_ok x /\ (x ∈ ps \/ a_ref a x = 0);
  rs_ref : forall x, page_ok x -> a_ref a' x = if decide (x ∈ qs) then 1 else if decide (x ∈ ps) then 0 else a_ref a x;
  rs_mem : forall x y, page_ok x -> a_ref a x <> 0 -> x ∉ ps -> x <= y < x + PGSIZE -> rd8 (mem k') y = rd8 (mem k) y;
  rs_kernel : only_pages k k'
}.

Lemma resized_trans ps qs rs a1 a2 a3 k1 k2 k3 :
  resized ps qs a1 a2 k1 k2 -> resized qs rs a2 a3 k2 k3 -> resized ps rs a1 a3 k1 k3.
Proof.
  intros R1 R2. split; [apply R2|apply R2| | | |eapply only_pages_trans; [apply R1|apply R2]].
  - intros x Hx. destruct (rs_new _ _ _ _ _ _ R2 x Hx) as [Hp Hz]. split; [done|]. destruct Hz as [Hin|Hz]; [by apply (rs_new _ _ _ _ _ _ R1)|].
    rewrite (rs_ref _ _ _ _ _ _ R1) in Hz by done. destruct (decide (x ∈ qs)); [done|]. destruct (decide (x ∈ ps)); [by left|by right].
  - intros x Hx. rewrite (rs_ref _ _ _ _ _ _ R2), (rs_ref _ _ _ _ _ _ R1) by done. destruct (decide (x ∈ rs)); [done|].
    destruct (decide (x ∈ qs)) as [Hq|]; [|done]. destruct (decide (x ∈ ps)) as [|Hn]; [done|].
    destruct (rs_new _ _ _ _ _ _ R1 x Hq) as [_ [| ->]]; done.
  - intros x y Hx Hz Hn Hy. assert (Hq : x ∉ qs) by (intros Hq; destruct (rs_new _ _ _ _ _ _ R1 x Hq) as [_ [ | ]]; done).
    rewrite (rs_mem _ _ _ _ _ _ R2 x); [by apply (rs_mem _ _ _ _ _ _ R1 x)|done| |done|done].
    by rewrite (rs_ref _ _ _ _ _ _ R1), !decide_False.
Qed.

Lemma resized_same ps qs rs a a' k k' : (forall x, x ∈ qs <-> x ∈ rs) -> resized ps qs a a' k k' -> resized ps rs a a' k k'.
Proof.
  intros E [R1 R2 R3 R4 R5 R6]. split; try done; [intros x Hx; by apply R3, E|].
  intros x Hx. rewrite R4 by done. specialize (E x). repeat destruct (decide _); tauto.
Qed.

Lemma resized_same_l ps qs rs a a' k k' : (forall x, x ∈ ps <-> x ∈ qs) -> resized ps rs a a' k k' -> resized qs rs a a' k k'.
Proof.
  intros E [R1 R2 R3 R4 R5 R6]. split; try done.
  - intros x Hx. destruct (R3 x Hx) as [Hp [Hi|Hz]]; (split; [done|]); [left; by apply E|by right].
  - intros x Hx. rewrite R4 by done. specialize (E x). repeat destruct (decide _); tauto.
  - intros x y Hx Hz Hn. apply R5; [done..|]. by rewrite E.
Qed.

(** Writing one's pages. *)
Lemma resized_write ps a k k' :
  represents a k' -> complete a -> (forall x, x ∈ ps -> page_ok x /\ a_ref a x = 1) -> keeps (fun q => a_ref a q <> 0 /\ q ∉ ps) a a k k' -> resized ps ps a a k k'.
Proof.
  intros Hr Ha Hown K. split; [done|done| | |intros x y Hx Hz Hn Hy; by apply (kp_mem _ _ _ _ _ K x)|apply K].
  - intros x Hx. split; [by apply Hown|by left].
  - intros x Hx. destruct (decide (x ∈ ps)) as [Hin|]; [by apply Hown|done].
Qed.

Lemma resized_freed ps a a' k k' : freed ps [] a a' k k' -> resized ps [] a a' k k'.
Proof.
  intros F. split; [apply F|apply F|by intros x ?%elem_of_nil| | |apply F].
  - intros x Hx. by rewrite (fr_ref _ _ _ _ _ _ F).
  - intros x y Hx Hz Hn Hy. apply (fr_mem _ _ _ _ _ _ F x); try done. apply not_elem_of_nil.
Qed.

(** Pages that are kept on the side. *)
Lemma resized_frame xs ps qs a a' k k' :
  resized ps qs a a' k k' -> (forall x, x ∈ xs -> page_ok x /\ a_ref a x = 1 /\ x ∉ ps) -> resized (xs ++ ps) (xs ++ qs) a a' k k'.
Proof.
  intros R Hxs. split; [apply R|apply R| | | |apply R].
  - intros x [Hx|Hx]%elem_of_app; [split; [by apply Hxs|left; apply elem_of_app; by left]|].
    destruct (rs_new _ _ _ _ _ _ R x Hx) as [Hp [ | ]]; (split; [done|]); [left; apply elem_of_app; by right|by right].
  - intros x Hx. rewrite (rs_ref _ _ _ _ _ _ R) by done. destruct (decide (x ∈ xs)) as [Hin|Hn].
    + destruct (Hxs x Hin) as (_ & E1 & Hp). rewrite (decide_True (P := x ∈ xs ++ qs)) by (apply elem_of_app; by left).
      destruct (decide (x ∈ qs)); [done|]. by rewrite decide_False.
    + destruct (decide (x ∈ qs)); [by rewrite decide_True by (apply elem_of_app; by right)|].
      rewrite (decide_False (P := x ∈ xs ++ qs)) by (by intros [?|?]%elem_of_app).
      destruct (decide (x ∈ ps)); [by rewrite decide_True by (apply elem_of_app; by right)|].
      by rewrite decide_False by (by intros [?|?]%elem_of_app).
  - intros x y Hx Hz [_ Hn]%not_elem_of_app Hy. by apply (rs_mem _ _ _ _ _ _ R x).
Qed.

Lemma resized_keeps ps qs a a' k k' : resized ps qs a a' k k' -> keeps (fun x => a_ref a x <> 0 /\ x ∉ ps) a a' k k'.
Proof.
  intros R. split; [|intros x y Hx [Hz Hn] Hy; by apply (rs_mem _ _ _ _ _ _ R x)|apply R].
  intros x Hx [Hz Hn]. rewrite (rs_ref _ _ _ _ _ _ R) by done. destruct (decide (x ∈ qs)) as [Hq|]; [|by rewrite decide_False].
  destruct (rs_new _ _ _ _ _ _ R x Hq) as [_ [ | ]]; done.
Qed.

Lemma resized_lift ps qs a a' k s k' : resized ps qs a a' (over k s) k' -> k' = over (over k' k) s /\ resized ps qs a a' k (over k' k).
Proof.
  intros R. split; [rewrite over_over; symmetry; exact (over_same _ k' (rs_kernel _ _ _ _ _ _ R))|].
  destruct R as [R1 R2 R3 R4 R5 R6]. split; [by apply represents_over|assumption..|reflexivity].
Qed.

(** The address space of another process, apart from the pages that change hands, is unchanged. *)
Lemma resized_space ps qs a a' k k' t f sz :
  resized ps qs a a' k k' -> space a k t f sz -> (forall x, x ∈ space_pages t f sz -> x ∉ ps) -> space a' k' t f sz.
Proof.
  intros R Hs Hd. eapply space_keeps; [exact Hs|by eapply resized_keeps|apply R|apply R|]. intros x Hx.
  destruct (space_pages_own _ _ _ _ _ _ Hs Hx). split; [lia|auto].
Qed.

End resize.

(** ** The stack pages *)

Section stack.
Context {LK : Linker} {LKO : LinkerOk}.
Implicit Types (k : kernel) (t : ptree).

(** Growing an address space. *)
Lemma grown_resized a a' k k' t t' f g sz hi :
  space a k t f sz -> grown a a' t t' k k' g hi -> hi mod PGSIZE = 0 -> PGROUNDUP sz <= hi -> hi <= TRAPFRAME ->
  (forall v, 0 <= v < PGROUNDUP sz -> g v = f v) ->
  (forall v, PGROUNDUP sz <= v < hi -> flag (g v) PTE_V = true -> a_ref a (PTE2PA (g v)) = 0) ->
  resized (space_pages t f sz) (user_pages g hi ++ pt_pages t') a a' k k'.
Proof.
  intros Hs (Hv & Hf & Hu & G & A) Hal Hlo Hhi Hold Hnew. pose proof (sp_sz _ _ _ _ _ Hs) as Hsz.
  destruct (PGROUNDUP_bounds sz) as [Hb Hba]; [lia|].
  assert (Hup : forall q, q ∈ user_pages g hi <-> user_page g hi q) by (intros q; apply (elem_of_user_pages k' t'); [done|done|lia]).
  assert (Hsub : forall q, q ∈ space_pages t f sz -> q ∈ user_pages g hi ++ pt_pages t').
  { intros q [Hq|Hq]%elem_of_app; apply elem_of_app; [left|right; by apply (gf_sub _ _ _ _ _ _ G)].
    apply (elem_of_user_pages k t) in Hq as (v & Hvr & HV & <-); [|apply Hs|done|lia]. apply Hup. exists v. rewrite Hold by done. split; [lia|done]. }
  split; [apply Hv|apply Hv| | | |apply (gf_keeps _ _ _ _ _ _ G)].
  - intros q [Hq|Hq]%elem_of_app.
    + apply Hup in Hq as (v & Hvr & HV & <-). split; [by apply Hu|]. destruct (decide (v < PGROUNDUP sz)) as [Hlt|Hge].
      * left. rewrite Hold in * by lia. apply (space_user_page a k); [done|lia|done].
      * right. apply Hnew; [lia|done].
    + split; [by eapply wf_page_ok; [apply Hv|]|]. destruct (gf_new _ _ _ _ _ _ G q Hq) as [Hin|]; [left|by right]. apply elem_of_app. by right.
  - intros q Hq. destruct (decide (q ∈ user_pages g hi ++ pt_pages t')) as [[Hin|Hin]%elem_of_app|Hn].
    + apply Hup in Hin as (v & Hvr & HV & <-). by apply Hu.
    + by apply (vo_own _ _ _ Hv).
    + rewrite decide_False by (intros ?; by apply Hn, Hsub). destruct (decide (a_ref a q = 0)) as [Hz|Hz].
      * rewrite Hz. destruct (decide (a_ref a' q = 0)) as [|Hz']; [done|]. exfalso. apply Hn, elem_of_app.
        destruct (A q Hq Hz') as [|[|Hup']]; [done|by right|left; by apply Hup].
      * apply (kp_ref _ _ _ _ _ (gf_keeps _ _ _ _ _ _ G)); [done|]. split; [done|]. intros Hin. apply Hn, Hsub, elem_of_app. by right.
  - intros q y Hq Hz Hn Hy. apply (kp_mem _ _ _ _ _ (gf_keeps _ _ _ _ _ _ G) q); [done| |done]. split; [done|].
    intros Hin. apply Hn, elem_of_app. by right.
Qed.

Lemma um_ok_less a t f hi lo : um_ok a t f hi -> lo <= hi -> um_ok a t f lo.
Proof.
  intros [U1 U2 U3 U4] Hle. split.
  - intros v Hv. apply U1. lia.
  - intros v Hv. apply U2. lia.
  - intros v Hv. apply U3. lia.
  - intros v v' Hv Hv'. apply U4; lia.
Qed.

Lemma space_um a k t f sz hi : space a k t f sz -> hi <= TRAPFRAME -> um_ok a t f hi.
Proof.
  intros [Hv Hf [U1 U2 U3 U4] Hsz Hhi] Hle.
  assert (Hlt : forall v, 0 <= v < hi -> flag (f v) PTE_V = true -> 0 <= v < PGROUNDUP sz).
  { intros v Hvr HV. destruct (decide (v < PGROUNDUP sz)); [lia|]. rewrite Hhi in HV; [done|lia]. }
  split; intros v; intros; eauto.
Qed.

(** [uvmalloc] for a process: its address space is grown by zeroed pages, or as it was. *)
Lemma uvmalloc_space c a k t f sz newsz perm :
  LKmem ∉ held c -> LRef ∉ held c -> LPr ∉ held c -> space a k t f sz -> sz <= newsz -> newsz <= TRAPFRAME -> 0 <= perm < 1024 ->
  exists r sz' a' k' t' g, uvmalloc (pt_root t) sz newsz perm c k = Done r c k' /\ pt_root t' = pt_root t /\
    space a' k' t' g sz' /\ resized (space_pages t f sz) (space_pages t' g sz') a a' k k' /\
    (forall v, 0 <= v < PGROUNDUP sz -> g v = f v) /\ (forall v, TRAPFRAME <= v < MAXVA -> g v = f v) /\
    (forall v, 0 <= v < PGROUNDUP sz -> flag (f v) PTE_V = true -> ubyte (mem k') f v = ubyte (mem k) f v) /\
    ((r = 0 /\ sz' = sz /\ PGSIZE * nfree a < 3 * (PGROUNDUP newsz - PGROUNDUP sz)) \/
     (r = newsz /\ sz' = newsz /\ forall v, PGROUNDUP sz <= v < PGROUNDUP newsz ->
       exists p, g v = leaf_pte p (Z.lor (Z.lor PTE_R PTE_U) perm) /\ page_ok p /\ forall x, p <= x < p + PGSIZE -> rd8 (mem k') x = 0)).
Proof.
  intros HK HR HP Hs Hle Hmax Hperm. pose proof Hs as [Hv Hf Hu Hsz Hhi]. destruct (PGROUNDUP_bounds sz) as [Hb Hba]; [lia|].
  destruct (PGROUNDUP_bounds newsz) as [Hb' Hba']; [lia|]. assert (Hle' : PGROUNDUP sz <= PGROUNDUP newsz) by zlia.
  assert (Hmax' : PGROUNDUP newsz <= TRAPFRAME) by zlia.
  destruct (uvmalloc_ok c HK HR HP a t k f sz newsz perm) as (r & k' & E & a' & t' & g & Hg & Hpost);
    [done|done|by eapply space_um|lia|lia|done|intros v Hvr; apply Hhi; lia|].
  assert (Hroot : pt_root t' = pt_root t) by apply Hg. pose proof Hg as (Hv' & Hf' & Hu' & G & _). exists r.
  assert (Hbytes : forall v, 0 <= v < PGROUNDUP sz -> flag (f v) PTE_V = true -> ubyte (mem k') f v = ubyte (mem k) f v).
  { intros v Hvr HV. unfold ubyte. apply (kp_mem _ _ _ _ _ (gf_keeps _ _ _ _ _ _ G) (PTE2PA (f v))); [by apply Hu| |zlia].
    split; [by rewrite (um_ref _ _ _ _ Hu)|by apply (um_table _ _ _ _ Hu)]. }
  destruct Hpost as [(-> & Z1 & Z2)|(-> & Hfew & Z1 & Z2)].
  - exists newsz, a', k', t', g. split; [done|]. split; [done|]. split; [|split; [|split; [|split; [|split; [done|]]]]].
    + split; [done|done|done|lia|]. intros v Hvr. rewrite Z1 by lia. apply Hhi. lia.
    + eapply grown_resized; try done; [intros v Hvr; apply Z1; lia|]. intros v Hvr HV. destruct (Z2 v Hvr) as (p & -> & Hp & Hz & _).
      assert (Hpe : 0 <= Z.lor (Z.lor PTE_R PTE_U) perm < 1024) by (apply (lor_range _ _ 10); done).
      by rewrite (proj2 (leaf_pte_valid p _ Hp Hpe)).
    + intros v Hvr. apply Z1; lia.
    + intros v Hvr. apply Z1; lia.
    + right. split; [done|]. split; [done|]. intros v Hvr. destruct (Z2 v Hvr) as (p & Ep & Hp & _ & Hx). by exists p.
  - assert (Hinv : forall v, PGROUNDUP sz <= v < TRAPFRAME -> flag (g v) PTE_V = false).
    { intros v Hvr. destruct (decide (v < PGROUNDUP newsz)); [apply Z2; lia|]. rewrite Z1 by lia. apply Hhi. lia. }
    exists sz, a', k', t', g. split; [done|]. split; [done|]. split; [|split; [|split; [|split; [|split; [done|by left]]]]].
    + split; [done|done|eapply um_ok_less; [exact Hu'|lia]|lia|done].
    + eapply resized_same; [|eapply grown_resized; try done]; [|intros v Hvr; apply Z1; lia|].
      * intros q. unfold space_pages. rewrite !elem_of_app. rewrite (elem_of_user_pages k' t' g (PGROUNDUP newsz)), (elem_of_user_pages k' t' g (PGROUNDUP sz)) by (done || lia).
        split; intros [(v & Hvr & HV & Hp)|]; [left|by right|left|by right]; exists v; [|split; [lia|done]].
        split; [|done]. destruct (decide (v < PGROUNDUP sz)); [lia|]. rewrite Hinv in HV; [done|lia].
      * intros v Hvr HV. rewrite Hinv in HV; [done|lia].
    + intros v Hvr. apply Z1; lia.
    + intros v Hvr. apply Z1; lia.
Qed.

(** The entries after [uvmclear] of the page of [va]. *)
Definition guarded (f : Z -> Z) (va v : Z) : Z := if decide (v / PGSIZE = va / PGSIZE) then Z.land (f v) (Z.lnot PTE_U) else f v.

Lemma land_not_u e : flag (Z.land e (Z.lnot PTE_U)) PTE_V = flag e PTE_V /\ PTE2PA (Z.land e (Z.lnot PTE_U)) = PTE2PA e.
Proof.
  split.
  - unfold flag. rewrite <- Z.land_assoc. by replace (Z.land (Z.lnot PTE_U) PTE_V) with PTE_V by (by vm_compute).
  - unfold PTE2PA. rewrite Z.shiftr_land. replace (Z.shiftr (Z.lnot PTE_U) 10) with (-1) by (by vm_compute). by rewrite Z.land_m1_r.
Qed.

Lemma land_not_range x y : 0 <= x -> 0 <= Z.land x (Z.lnot y) <= x.
Proof.
  intros Hx. rewrite <- Z.ldiff_land. assert (E : Z.ldiff x y + Z.land x y = x).
  { rewrite Z.add_nocarry_lor; [apply Z.lor_ldiff_and|]. apply Z.bits_inj'. intros n Hn.
    rewrite !Z.land_spec, Z.ldiff_spec, Z.bits_0. by destruct (Z.testbit x n), (Z.testbit y n). }
  pose proof (proj2 (Z.land_nonneg x y)). pose proof (proj2 (Z.ldiff_nonneg x y)). lia.
Qed.

Lemma guarded_same f va v : flag (guarded f va v) PTE_V = flag (f v) PTE_V /\ PTE2PA (guarded f va v) = PTE2PA (f v).
Proof. unfold guarded. destruct (decide _); [apply land_not_u|done]. Qed.

Lemma guarded_pages t f va sz : space_pages t (guarded f va) sz = space_pages t f sz.
Proof.
  unfold space_pages, user_pages. f_equal. generalize (seqZ 0 (PGROUNDUP sz / PGSIZE)) as l. induction l as [|i l IH]; [done|].
  cbn [mbind list_bind]. destruct (guarded_same f va (i * PGSIZE)) as [-> ->]. f_equal. exact IH.
Qed.

(** [uvmclear] takes the page from the user; it stays in the address space. *)
Lemma uvmclear_space c a k t f sz va :
  space a k t f sz -> 0 <= va < MAXVA -> flag (f va) PTE_V = true -> 0 <= f va < 2 ^ 64 ->
  exists k', uvmclear (pt_root t) va c k = Done tt c k' /\ space a k' t (guarded f va) sz /\
    resized (space_pages t f sz) (space_pages t f sz) a a k k' /\
    (forall v, 0 <= v < PGROUNDUP sz -> flag (f v) PTE_V = true -> ubyte (mem k') f v = ubyte (mem k) f v).
Proof.
  intros Hs Hva HV He. pose proof Hs as [Hv Hf Hu Hsz Hhi]. pose proof (valid_slot t k va f (vo_wf _ _ _ Hv) Hf Hva HV) as Hsl.
  set (e := Z.land (f va) (Z.lnot PTE_U)). assert (Hee : u64 e = e).
  { apply u64_small. pose proof (land_not_range (f va) PTE_U). unfold e. lia. }
  destruct (set_pte_ok a t k va e Hv Hsl) as [Hv' F']. exists (set_pte t va e k). split; [|split; [|split]].
  - unfold uvmclear. erewrite bind_done by (by apply walk_lookup; [apply Hv|]). destruct (Z.eqb_spec (slot t va) 0); [done|].
    erewrite bind_done by (by apply slot_load). rewrite Hf by done. reflexivity.
  - split; [done| | |done|].
    + intros v Hvr. rewrite set_pte_at by (done || apply Hv). unfold guarded. destruct (decide _) as [Hd|Hd]; [|by apply Hf].
      rewrite Hee. unfold e. by rewrite (pt_is_page k t f v va Hf).
    + destruct Hu as [U1 U2 U3 U4]. split.
      * intros v Hvr. destruct (guarded_same f va v) as [-> ->]. by apply U1.
      * intros v Hvr. destruct (guarded_same f va v) as [-> ->]. by apply U2.
      * intros v Hvr. destruct (guarded_same f va v) as [-> ->]. by apply U3.
      * intros v v' Hvr Hvr'. destruct (guarded_same f va v) as [-> ->]. destruct (guarded_same f va v') as [-> ->]. by apply U4.
    + intros v Hvr. rewrite (proj1 (guarded_same f va v)). by apply Hhi.
  - apply resized_write; [apply Hv'|apply Hv'|intros x Hx; by eapply space_pages_own|]. split; [done| |apply F'].
    intros q y Hq [Hz Hn] Hy. apply (vf_mem _ _ _ _ _ _ F' q); [done|done| |done]. intros Hin. apply Hn, elem_of_app. by right.
  - intros v Hvr HVv. unfold ubyte. apply (vf_mem _ _ _ _ _ _ F' (PTE2PA (f v))); [by apply Hu|rewrite (um_ref _ _ _ _ Hu); done| |zlia].
    by apply (um_table _ _ _ _ Hu).
Qed.

End stack.

(** ** The arguments *)

(** Where [len] more bytes go: below [sp], 16-byte aligned. *)
Definition push_addr (sp len : Z) : Z := (sp - len) - (sp - len) mod 16.

(** The addresses of the strings and the stack pointer after them, when they fit above [base]. *)
Fixpoint arg_layout (argv : list (list Z)) (base sp : Z) : option (list Z * Z) :=
  match argv with
  | [] => Some ([], sp)
  | s :: argv =>
      let sp := push_addr sp (Z.of_nat (length s) + 1) in
      if sp <? base then None else
      match arg_layout argv base sp with Some (us, sp') => Some (sp :: us, sp') | None => None end
  end.

Section args.
Context {LK : Linker} {LKO : LinkerOk}.
Implicit Types (k : kernel) (t : ptree).

Definition writable (g : Z -> Z) (lo hi : Z) : Prop := forall v, lo <= v < hi -> user_ok g v = true /\ flag (g v) PTE_W = true.
Definition bytes (l : list Z) : Prop := Forall (fun b => 0 <= b < 2 ^ 8) l.

Lemma ubytes_eq m f va l :
  (forall i b, l !! i = Some b -> ubyte m f (va + Z.of_nat i) = b) -> ubytes m f va (length l) = l.
Proof.
  intros Hb. apply list_eq. intros i. unfold ubytes. rewrite list_lookup_fmap. destruct (decide (i < length l)%nat) as [Hi|Hi].
  - rewrite lookup_seq_lt by done. destruct (lookup_lt_is_Some_2 l i Hi) as [b Eb]. rewrite Eb. cbn. by rewrite (Hb i b Eb).
  - rewrite lookup_seq_ge by lia. symmetry. apply lookup_ge_None_2. lia.
Qed.

Lemma ubytes_ext m m' f va n :
  (forall i, (i < n)%nat -> ubyte m f (va + Z.of_nat i) = ubyte m' f (va + Z.of_nat i)) -> ubytes m f va n = ubytes m' f va n.
Proof.
  intros E. unfold ubytes. apply list_eq. intros i. rewrite !list_lookup_fmap. destruct (decide (i < n)%nat) as [Hi|Hi].
  - rewrite lookup_seq_lt by done. cbn. by rewrite E.
  - by rewrite lookup_seq_ge by lia.
Qed.

(** Bytes written to the stack. *)
Lemma push_bytes c a k t g sz dst src :
  space a k t g sz -> 0 <= dst -> dst + Z.of_nat (length src) <= PGROUNDUP sz -> writable g dst (dst + Z.of_nat (length src)) -> bytes src ->
  exists k', copyout (pt_root t) dst src (Z.of_nat (length src)) c k = Done 0 c k' /\ space a k' t g sz /\
    resized (space_pages t g sz) (space_pages t g sz) a a k k' /\ ubytes (mem k') g dst (length src) = src /\
    (forall v, 0 <= v < PGROUNDUP sz -> flag (g v) PTE_V = true -> ~ dst <= v < dst + Z.of_nat (length src) -> ubyte (mem k') g v = ubyte (mem k) g v).
Proof.
  intros Hs Hd Hsz Hw Hsrc.
  destruct (copyout_space c a k t g sz dst src (Z.of_nat (length src))) as (k' & E & S' & K & Hb); try done; try lia.
  exists k'. split; [done|]. split; [done|]. split; [|split].
  - apply resized_write; [apply (sp_vm _ _ _ _ _ S')|apply (sp_vm _ _ _ _ _ S')|intros x Hx; by eapply space_pages_own|].
    eapply keeps_weaken; [|exact K]. tauto.
  - apply ubytes_eq. intros i b Hi. pose proof (lookup_lt_Some _ _ _ Hi). rewrite Hb; [|lia|apply user_ok_valid, Hw; lia].
    rewrite decide_True by lia. replace (dst + Z.of_nat i - dst) with (Z.of_nat i) by lia. unfold nthd.
    destruct (Z.ltb_spec (Z.of_nat i) 0); [lia|]. rewrite Nat2Z.id, Hi. apply u8_small. by apply (Forall_lookup_1 _ _ _ _ Hsrc Hi).
  - intros v Hv HV Hn. rewrite Hb by done. by rewrite decide_False.
Qed.

Lemma push_addr_range sp len : 0 <= len <= sp -> 0 <= push_addr sp len <= sp - len /\ push_addr sp len mod 16 = 0 /\ sp - len - 16 < push_addr sp len.
Proof. intros H. unfold push_addr. zlia. Qed.

Lemma resized_refl a k t g sz : space a k t g sz -> resized (space_pages t g sz) (space_pages t g sz) a a k k.
Proof.
  intros Hs. apply resized_write; [apply (sp_vm _ _ _ _ _ Hs)|apply (sp_vm _ _ _ _ _ Hs)|intros x Hx; by eapply space_pages_own|apply keeps_refl].
Qed.

(** String [s] is at the user address [u]. *)
Definition string_at (k : kernel) (g : Z -> Z) (s : list Z) (u : Z) : Prop := ubytes (mem k) g u (S (length s)) = s ++ [0].

(** The strings are placed as [arg_layout] says; nothing outside the stack is written. *)
Lemma kexec_args_ok c a t g sz base argv sp ustack k :
  space a k t g sz -> PGSIZE <= base -> base <= sp -> sp <= PGROUNDUP sz -> writable g base (PGROUNDUP sz) ->
  Forall (fun s => Z.of_nat (length s) < PGSIZE /\ bytes s) argv -> Z.of_nat (length ustack + length argv) < MAXARG ->
  exists k', kexec_args argv (pt_root t) base sp ustack c k =
      Done (match arg_layout argv base sp with Some (us, sp') => Some (ustack ++ us, sp') | None => None end) c k' /\
    space a k' t g sz /\ resized (space_pages t g sz) (space_pages t g sz) a a k k' /\
    (forall v, 0 <= v < PGROUNDUP sz -> flag (g v) PTE_V = true -> v < base \/ sp <= v -> ubyte (mem k') g v = ubyte (mem k) g v) /\
    match arg_layout argv base sp with
    | Some (us, sp') => base <= sp' <= sp /\ length us = length argv /\
        (forall i s u, argv !! i = Some s -> us !! i = Some u -> sp' <= u /\ u + Z.of_nat (length s) + 1 <= sp /\ u mod 16 = 0 /\ string_at k' g s u)
    | None => True
    end.
Proof.
  revert sp ustack k. induction argv as [|s argv IH]; intros sp ustack k Hs Hpg Hb Hsp Hw Hargs Hlen.
  { exists k. cbn [arg_layout kexec_args]. rewrite app_nil_r. split; [done|]. split; [done|].
    split; [by eapply resized_refl|].
    split; [done|]. split; [lia|]. split; [done|]. by intros [|i] s u. }
  apply Forall_cons in Hargs as [[Hs1 Hs2] Hargs]. set (u := push_addr sp (Z.of_nat (length s) + 1)).
  destruct (push_addr_range sp (Z.of_nat (length s) + 1)) as (Hu1 & Hu2 & Hu3); [lia|]. fold u in Hu1, Hu2, Hu3.
  assert (Hsz : PGROUNDUP sz <= MAXVA) by (pose proof (sp_sz _ _ _ _ _ Hs); destruct (PGROUNDUP_bounds sz); zlia).
  cbn [kexec_args arg_layout]. cbn [length] in Hlen. destruct (Z.geb_spec (Z.of_nat (length ustack)) MAXARG); [lia|].
  rewrite (u64_small (sp - (Z.of_nat (length s) + 1))) by lia. fold (push_addr sp (Z.of_nat (length s) + 1)). fold u. rewrite (u64_small u) by lia.
  destruct (Z.ltb_spec u base) as [Hlt|Hge].
  { exists k. split; [done|]. split; [done|].
    split; [by eapply resized_refl|]. done. }
  assert (El : Z.of_nat (length s) + 1 = Z.of_nat (length (s ++ [0]))) by (rewrite length_app; cbn [length]; lia).
  destruct (push_bytes c a k t g sz u (s ++ [0])) as (k1 & E1 & S1 & R1 & B1 & O1); [done|lia|lia|intros v Hv; apply Hw; lia|by apply Forall_app; split; [|by apply Forall_singleton]|].
  rewrite <- El in E1, O1. erewrite bind_done by exact E1. cbn [Z.ltb Z.compare].
  destruct (IH u (ustack ++ [u]) k1) as (k' & E' & S' & R' & O' & L'); try done; try lia; [rewrite length_app; cbn [length]; lia|].
  exists k'. rewrite E'. split; [destruct (arg_layout argv base u) as [[us sp']|]; [by rewrite <- app_assoc|done]|].
  split; [done|]. split; [by eapply resized_trans|].
  assert (Hkeep : forall v, 0 <= v < PGROUNDUP sz -> flag (g v) PTE_V = true -> v < base \/ sp <= v -> ubyte (mem k') g v = ubyte (mem k) g v).
  { intros v Hv HV Hout. rewrite O' by (done || lia). apply O1; [done|done|lia]. }
  split; [done|]. destruct (arg_layout argv base u) as [[us sp']|]; [|done]. destruct L' as (L1 & L2 & L3).
  split; [lia|]. split; [cbn [length]; lia|]. intros [|i] s0 u0; cbn.
  - intros [= <-] [= <-]. split; [lia|]. split; [lia|]. split; [done|]. unfold string_at.
    replace (S (length s)) with (length (s ++ [0])) by lia. rewrite <- B1 at 2. apply ubytes_ext. intros j Hj.
    apply O'; [lia| |lia]. apply user_ok_valid, Hw. lia.
  - intros Hi Hu0. destruct (L3 i s0 u0 Hi Hu0) as (? & ? & ? & ?). split; [done|]. split; [lia|done].
Qed.

End args.

(** ** The stack *)

(** Everything on the stack: the addresses of the strings, and the array of them at the stack pointer. *)
Definition stack_layout (argv : list (list Z)) (base top : Z) : option (list Z * Z) :=
  match arg_layout argv base top with
  | Some (us, sp) =>
      let sp := push_addr sp ((Z.of_nat (length us) + 1) * 8) in
      if sp <? base then None else Some (us, sp)
  | None => None
  end.

(** The bytes of [ustack]. *)
Definition pointers (us : list Z) : list Z := List.concat (map (le_bytes 8) (us ++ [0])).

Section image.
Context {LK : Linker} {LKO : LinkerOk}.
Implicit Types (k : kernel) (t : ptree).

Lemma space_roundup a k t f sz : space a k t f sz -> space a k t f (PGROUNDUP sz) /\ PGROUNDUP (PGROUNDUP sz) = PGROUNDUP sz.
Proof.
  intros [Hv Hf Hu Hsz Hhi]. destruct (PGROUNDUP_bounds sz) as [Hb Hba]; [lia|].
  assert (E : PGROUNDUP (PGROUNDUP sz) = PGROUNDUP sz) by (destruct (PGROUNDUP_bounds (PGROUNDUP sz)); zlia).
  split; [|done]. split; rewrite ?E; try done. zlia.
Qed.

Lemma stack_perm_ok p : page_ok p ->
  flag (leaf_pte p (Z.lor (Z.lor PTE_R PTE_U) PTE_W)) PTE_V = true /\ flag (leaf_pte p (Z.lor (Z.lor PTE_R PTE_U) PTE_W)) PTE_U = true /\
  flag (leaf_pte p (Z.lor (Z.lor PTE_R PTE_U) PTE_W)) PTE_W = true /\ 0 <= leaf_pte p (Z.lor (Z.lor PTE_R PTE_U) PTE_W) < 2 ^ 64.
Proof.
  intros [Hp _]%page_ok_range. rewrite !leaf_pte_flag by (lia || by vm_compute).
  split; [done|]. split; [done|]. split; [done|]. apply leaf_pte_range; [lia|by vm_compute].
Qed.

(** The two pages above the program: the guard page, which the process cannot use, and the stack. *)
Record with_stack (f g : Z -> Z) (lo : Z) : Prop := {
  ws_low : forall v, 0 <= v < lo -> g v = f v;
  ws_high : forall v, TRAPFRAME <= v < MAXVA -> g v = f v;
  ws_guard : forall v, lo <= v < lo + PGSIZE -> user_ok g v = false;
  ws_stack : writable g (lo + PGSIZE) (lo + 2 * PGSIZE)
}.

Lemma guarded_stack f g lo :
  (forall v, 0 <= v < lo -> g v = f v) -> (forall v, TRAPFRAME <= v < MAXVA -> g v = f v) -> lo mod PGSIZE = 0 -> 0 <= lo -> lo + 2 * PGSIZE <= TRAPFRAME ->
  (forall v, lo <= v < lo + 2 * PGSIZE -> exists p, g v = leaf_pte p (Z.lor (Z.lor PTE_R PTE_U) PTE_W) /\ page_ok p) ->
  with_stack f (guarded g lo) lo.
Proof.
  intros H1 H2 Ha Hlo Hmax Hnew. split.
  - intros v Hv. unfold guarded. rewrite decide_False by zlia. by apply H1.
  - intros v Hv. unfold guarded. rewrite decide_False by zlia. by apply H2.
  - intros v Hv. unfold user_ok, guarded. rewrite decide_True by zlia. unfold flag at 2. rewrite <- Z.land_assoc.
    replace (Z.land (Z.lnot PTE_U) PTE_U) with 0 by (by vm_compute). rewrite Z.land_0_r. by rewrite andb_false_r.
  - intros v Hv. unfold user_ok, guarded. rewrite decide_False by zlia. destruct (Hnew v) as (p & -> & Hp); [lia|].
    destruct (stack_perm_ok p Hp) as (-> & -> & -> & _). done.
Qed.

(** [uvmalloc] and [uvmclear] of [kexec]. *)
Lemma stack_pages c a k t f sz :
  LKmem ∉ held c -> LRef ∉ held c -> LPr ∉ held c -> space a k t f sz -> PGROUNDUP sz + 2 * PGSIZE <= TRAPFRAME ->
  let lo := PGROUNDUP sz in
  exists r a1 k1 t1 g1, uvmalloc (pt_root t) lo (lo + 2 * PGSIZE) PTE_W c k = Done r c k1 /\ pt_root t1 = pt_root t /\
    ((r = 0 /\ nfree a < 6 /\ space a1 k1 t1 g1 lo /\ resized (space_pages t f sz) (space_pages t1 g1 lo) a a1 k k1) \/
     (r = lo + 2 * PGSIZE /\ exists k2 g, uvmclear (pt_root t) lo c k1 = Done tt c k2 /\ space a1 k2 t1 g (lo + 2 * PGSIZE) /\
        resized (space_pages t f sz) (space_pages t1 g (lo + 2 * PGSIZE)) a a1 k k2 /\ with_stack f g lo /\
        forall v, 0 <= v < lo -> flag (f v) PTE_V = true -> ubyte (mem k2) g v = ubyte (mem k) f v)).
Proof.
  intros HK HR HP Hs0 Hmax lo. destruct (space_roundup _ _ _ _ _ Hs0) as [Hs Hr]. fold lo in Hs, Hr.
  pose proof (sp_sz _ _ _ _ _ Hs0) as Hsz. destruct (PGROUNDUP_bounds sz) as [Hb Hba]; [lia|]. fold lo in Hb, Hba, Hmax.
  assert (Hpg : PGROUNDUP (lo + 2 * PGSIZE) = lo + 2 * PGSIZE) by (destruct (PGROUNDUP_bounds (lo + 2 * PGSIZE)); zlia).
  destruct (uvmalloc_space c a k t f lo (lo + 2 * PGSIZE) PTE_W) as (r & sz' & a1 & k1 & t1 & g1 & E1 & Hroot & S1 & R1 & L1 & H1 & B1 & Hcase);
    [done|done|done|done|lia|done|done|].
  assert (Esp : space_pages t f lo = space_pages t f sz) by (unfold space_pages; by rewrite Hr). rewrite Esp in R1. rewrite Hr in L1, B1, Hcase.
  exists r, a1, k1, t1, g1. split; [done|]. split; [done|]. destruct Hcase as [(-> & -> & Hfew)|(-> & -> & Hnew)]; [left|right].
  { rewrite Hpg in Hfew. split; [done|]. split; [lia|done]. } split; [done|].
  rewrite Hpg in Hnew. destruct (Hnew lo) as (p & Ep & Hp & _); [lia|]. destruct (stack_perm_ok p Hp) as (HV & _ & _ & Hr64).
  destruct (uvmclear_space c a1 k1 t1 g1 (lo + 2 * PGSIZE) lo S1) as (k2 & E2 & S2 & R2 & B2); [lia|by rewrite Ep|by rewrite Ep|].
  exists k2, (guarded g1 lo). rewrite <- Hroot. split; [done|]. split; [done|]. rewrite guarded_pages. split; [by eapply resized_trans|].
  split; [apply guarded_stack; [done|done|done|lia|done|intros v Hv; destruct (Hnew v Hv) as (p' & ? & ? & _); by exists p']|].
  intros v Hv HVf. assert (Eg : guarded g1 lo v = f v) by (unfold guarded; rewrite decide_False by zlia; by apply L1).
  transitivity (ubyte (mem k2) g1 v); [unfold ubyte; by rewrite Eg, L1|]. rewrite B2; [|lia|by rewrite L1].
  rewrite <- B1 by done. unfold ubyte. by rewrite L1.
Qed.

Lemma word_bytes n v : length (le_bytes n v) = n /\ bytes (le_bytes n v).
Proof.
  revert v. induction n as [|n IH]; intros v; [split; [done|by apply Forall_nil]|]. cbn [le_bytes length]. destruct (IH (v / 2 ^ 8)) as [-> H]. split; [done|].
  apply Forall_cons. split; [unfold u8; zlia|done].
Qed.

Lemma pointers_ok us : Z.of_nat (length (pointers us)) = (Z.of_nat (length us) + 1) * 8 /\ bytes (pointers us).
Proof.
  unfold pointers. replace (Z.of_nat (length us) + 1) with (Z.of_nat (length (us ++ [0]))) by (rewrite length_app; cbn [length]; lia).
  generalize (us ++ [0]) as l. induction l as [|u l [IH1 IH2]]; [split; [done|by apply Forall_nil]|].
  cbn [map List.concat]. destruct (word_bytes 8 u) as [E H]. split; [rewrite length_app, E; cbn [length]; lia|]. by apply Forall_app.
Qed.

(** What the stack holds when everything fits. *)
Definition stack_holds (k : kernel) (g : Z -> Z) (argv : list (list Z)) (us : list Z) (base top sp : Z) : Prop :=
  base <= sp /\ sp + Z.of_nat (length (pointers us)) <= top /\ sp mod 16 = 0 /\ length us = length argv /\
  ubytes (mem k) g sp (length (pointers us)) = pointers us /\
  forall i s u, argv !! i = Some s -> us !! i = Some u ->
    sp + Z.of_nat (length (pointers us)) <= u /\ u + Z.of_nat (length s) + 1 <= top /\ u mod 16 = 0 /\ string_at k g s u.

Lemma stack_holds_ext k k' g argv us base top sp :
  (forall v, base <= v < top -> ubyte (mem k') g v = ubyte (mem k) g v) -> stack_holds k g argv us base top sp -> stack_holds k' g argv us base top sp.
Proof.
  intros E (H1 & H2 & H3 & H4 & H5 & H6). split; [done|]. split; [done|]. split; [done|]. split; [done|]. split.
  - rewrite <- H5 at 2. apply ubytes_ext. intros i Hi. apply E. lia.
  - intros i s u Hi Hu. destruct (H6 i s u Hi Hu) as (U1 & U2 & U3 & U4). split; [done|]. split; [done|]. split; [done|].
    unfold string_at in *. rewrite <- U4. apply ubytes_ext. intros j Hj. apply E. lia.
Qed.

Section push.
Context `{Fuel} `{BlockDevice}.

Lemma kexec_push_ok path argv elf oldsz c a k t g top base :
  space a k t g top -> PGROUNDUP top = top -> base = top - PGSIZE -> PGSIZE <= base -> writable g base top ->
  Forall (fun s => Z.of_nat (length s) < PGSIZE /\ bytes s) argv -> Z.of_nat (length argv) < MAXARG ->
  exists k', kexec_push path argv elf (pt_root t) top oldsz base c k =
      match stack_layout argv base top with
      | Some (us, sp) => kexec_commit path elf (pt_root t) top oldsz sp (Z.of_nat (length argv)) c k'
      | None => kexec_bad (pt_root t) top None c k'
      end /\
    space a k' t g top /\ resized (space_pages t g top) (space_pages t g top) a a k k' /\
    (forall v, 0 <= v < base -> flag (g v) PTE_V = true -> ubyte (mem k') g v = ubyte (mem k) g v) /\
    match stack_layout argv base top with Some (us, sp) => stack_holds k' g argv us base top sp | None => True end.
Proof.
  intros Hs Hr Eb Hb Hw Hargs Hlen. pose proof (sp_sz _ _ _ _ _ Hs) as Hsz.
  destruct (kexec_args_ok c a t g top base argv top [] k) as (k1 & E1 & S1 & R1 & O1 & L1); rewrite ?Hr; try done; try lia.
  rewrite Hr in O1. unfold kexec_push, stack_layout. erewrite bind_done by exact E1.
  destruct (arg_layout argv base top) as [[us sp]|]; cbn [app].
  2: { exists k1. split; [done|]. split; [done|]. split; [done|]. split; [|done]. intros v Hv HV. apply O1; [lia|done|lia]. }
  destruct L1 as (L1 & L2 & L3). rewrite L2. destruct (Z.geb_spec (Z.of_nat (length argv)) MAXARG); [lia|].
  set (n := (Z.of_nat (length argv) + 1) * 8). destruct (push_addr_range sp n) as (P1 & P2 & P3); [lia|].
  rewrite (u64_small (sp - n)) by lia. fold (push_addr sp n). rewrite (u64_small (push_addr sp n)) by lia.
  destruct (Z.ltb_spec (push_addr sp n) base) as [Hlt|Hge].
  { exists k1. split; [done|]. split; [done|]. split; [done|]. split; [|done]. intros v Hv HV. apply O1; [lia|done|lia]. }
  destruct (pointers_ok us) as [Ep Hp]. rewrite L2 in Ep. fold n in Ep.
  destruct (push_bytes c a k1 t g top (push_addr sp n) (pointers us)) as (k2 & E2 & S2 & R2 & B2 & O2); [done|lia|lia|intros v Hv; apply Hw; lia|done|].
  rewrite Ep in E2, O2. fold (pointers us). erewrite bind_done by exact E2. cbn [Z.ltb Z.compare]. rewrite Hr in O2.
  exists k2. split; [done|]. split; [done|]. split; [by eapply resized_trans|]. split.
  - intros v Hv HV. rewrite O2 by (done || lia). apply O1; [lia|done|lia].
  - split; [lia|]. split; [lia|]. split; [done|]. split; [done|]. split; [done|]. intros i s u Hi Hu. destruct (L3 i s u Hi Hu) as (U1 & U2 & U3 & U4).
    split; [lia|]. split; [lia|]. split; [done|]. unfold string_at in *. rewrite <- U4. apply ubytes_ext. intros j Hj.
    apply O2; [lia|apply user_ok_valid, Hw; lia|lia].
Qed.

End push.

(** ** The commit *)

Definition image_proc (path : list Z) (pagetable sz : Z) (q : proc) : proc :=
  q <| p_name ::= fun s => safestrcpy s (nthd 0 (last_elem path path)) 16 |> <| p_pagetable := pagetable |> <| p_sz := sz |>.

(** The trapframe of the new image. *)
Definition image_frame (m : memory) (tf sp entry : Z) : memory :=
  wr64 (wr64 (wr64 m (tf + tf_off tf_a1) sp) (tf + tf_off epc) entry) (tf + tf_off tf_sp) sp.

Lemma image_frame_out m tf sp entry x : ~ tf <= x < tf + PGSIZE -> rd8 (image_frame m tf sp entry) x = rd8 m x.
Proof.
  intros Hx. unfold image_frame. cbn [tf_off]. by rewrite !rd8_wrn_out by lia.
Qed.

Lemma image_frame_reg m tf sp entry r :
  rd64 (image_frame m tf sp entry) (tf + tf_off r) =
    if decide (r = tf_sp \/ r = tf_a1) then u64 sp else if decide (r = epc) then u64 entry else rd64 m (tf + tf_off r).
Proof.
  unfold image_frame. destruct (decide (r = tf_sp \/ r = tf_a1)) as [[->| ->]|Hn]; [apply rd64_wr64_eq|cbn [tf_off]..].
  - rewrite !rdn_wrn_out by lia. apply rd64_wr64_eq.
  - destruct (decide (r = epc)) as [->|Hn2]; [cbn [tf_off]; rewrite rdn_wrn_out by lia; apply rd64_wr64_eq|].
    rewrite !rdn_wrn_out; [done|..]; destruct r; cbn [tf_off]; try lia; exfalso; tauto.
Qed.

Lemma image_frame_writes a kp tf sp entry :
  represents a kp -> complete a -> page_ok tf -> a_ref a tf = 1 ->
  resized [tf] [tf] a a kp (kp <| mem := image_frame (mem kp) tf sp entry |>).
Proof.
  intros Hr Ha Hp H1. set (k' := kp <| mem := _ |>).
  assert (Hout : forall q x, page_ok q -> q <> tf -> q <= x < q + PGSIZE -> rd8 (mem k') x = rd8 (mem kp) x).
  { intros q x Hq Hne Hx. apply image_frame_out. by apply (page_apart tf q). }
  apply resized_write; [|done|by intros x ->%list_elem_of_singleton|].
  - apply represents_write; [done|unfold image_frame; repeat apply mem_ok_wrn; apply Hr|]. intros q x Hq Hx.
    pose proof (free_list_pages _ _ _ (rep_list _ _ Hr)) as Hok. rewrite Forall_forall in Hok. apply (Hout q); [auto| |lia].
    intros ->. pose proof (rep_free0 _ _ Hr _ Hq). lia.
  - split; [done| |unfold only_pages, k'; kdone]. intros q x Hq [_ Hn] Hx. apply (Hout q); [done| |done].
    intros ->. apply Hn, list_elem_of_here.
Qed.

#[local] Opaque wrn over with_slot.

(** The commit: the process gets the new image, and the old one is freed. *)
Lemma kexec_commit_ok path elf t g top sp argc c a k kp p q to fo :
  cpu_proc c = Some p -> procs k !! p = Some q -> LKmem ∉ held c -> LRef ∉ held c -> LPr ∉ held c ->
  space a kp t g top -> space a kp to fo (p_sz q) -> p_pagetable q = pt_root to -> page_ok (p_trapframe q) -> a_ref a (p_trapframe q) = 1 ->
  (p_trapframe q ∉ space_pages t g top) -> (p_trapframe q ∉ space_pages to fo (p_sz q)) ->
  (forall x, x ∈ space_pages t g top -> x ∉ space_pages to fo (p_sz q)) ->
  exists a' k', kexec_commit path elf (pt_root t) top (p_sz q) sp argc c (over kp k) =
      Done argc c (over k' (with_slot k p (image_proc path (pt_root t) top q) (nextpid k))) /\
    space a' k' t g top /\ resized (p_trapframe q :: space_pages to fo (p_sz q)) [p_trapframe q] a a' kp k' /\
    (forall v, 0 <= v < PGROUNDUP top -> flag (g v) PTE_V = true -> ubyte (mem k') g v = ubyte (mem kp) g v) /\
    forall r, rd64 (mem k') (p_trapframe q + tf_off r) = rd64 (image_frame (mem kp) (p_trapframe q) sp (elf_entry elf)) (p_trapframe q + tf_off r).
Proof.
  intros Hc Hp HK HR HP Hs Hso Hpt Htf H1 Hn Hno Hdis. set (tf := p_trapframe q) in *. pose proof (vo_rep _ _ _ (sp_vm _ _ _ _ _ Hs)) as Hr.
  destruct (page_ok_range tf Htf) as [Hr0 _].
  pose proof (image_frame_writes a kp tf sp (elf_entry elf) Hr (vo_all _ _ _ (sp_vm _ _ _ _ _ Hs)) Htf H1) as RA.
  set (k5 := kp <| mem := image_frame (mem kp) tf sp (elf_entry elf) |>) in *.
  assert (Hs5 : space a k5 t g top) by (eapply resized_space; [exact RA|done|]; intros x Hx ->%list_elem_of_singleton; done).
  assert (Hso5 : space a k5 to fo (p_sz q)) by (eapply resized_space; [exact RA|done|]; intros x Hx ->%list_elem_of_singleton; done).
  set (s' := with_slot k p (image_proc path (pt_root t) top q) (nextpid k)).
  destruct (proc_freepagetable_ok c HK HR HP a (over k5 s') to fo (p_sz q)) as (a' & k6 & E6 & F6); [by apply space_over|].
  destruct (freed_lift _ _ _ _ _ _ _ F6) as [Ek6 F6']. pose proof (resized_freed _ _ _ _ _ F6') as RB.
  exists a', (over k6 k5). split; [|split; [|split; [|split]]].
  - rewrite Ek6 in E6. assert (E0 : over kp k = over kp (with_slot k p q (nextpid k))) by (by rewrite with_slot_id). rewrite E0. unfold kexec_commit.
    erewrite bind_done by (by apply curproc_done). erewrite bind_done by (eapply tf_set_slot; [done|fold tf; lia]).
    erewrite bind_done by apply modproc_slot. erewrite bind_done by (by eapply getproc_slot). cbv zeta.
    do 2 (erewrite bind_done by apply modproc_slot). erewrite bind_done by (eapply tf_set_slot; [done|change (tf <> 0); lia]).
    erewrite bind_done by (eapply tf_set_slot; [done|change (tf <> 0); lia]).
    change (p_pagetable (q <| p_name ::= _ |>)) with (p_pagetable q). rewrite Hpt. by erewrite bind_done by exact E6.
  - eapply resized_space; [exact RB|done|exact Hdis].
  - eapply resized_trans.
    + eapply (resized_same_l (space_pages to fo (p_sz q) ++ [tf])); [intros x; rewrite elem_of_app, !elem_of_cons, elem_of_nil; tauto|].
      apply (resized_frame (space_pages to fo (p_sz q))); [exact RA|]. intros x Hx. destruct (space_pages_own _ _ _ _ _ _ Hso Hx).
      split; [done|]. split; [done|]. intros ->%list_elem_of_singleton. done.
    + eapply (resized_same_l ([tf] ++ space_pages to fo (p_sz q))); [intros x; rewrite !elem_of_app, list_elem_of_singleton; tauto|].
      apply (resized_frame [tf] _ []); [exact RB|]. by intros x ->%list_elem_of_singleton.
  - intros v Hv HV. pose proof (space_user_page _ _ _ _ _ _ Hs Hv HV) as Hin. destruct (space_pages_own _ _ _ _ _ _ Hs Hin) as [Hq E1].
    unfold ubyte. rewrite (rs_mem _ _ _ _ _ _ RB (PTE2PA (g v))); [|done|lia|auto|zlia].
    apply (rs_mem _ _ _ _ _ _ RA (PTE2PA (g v))); [done|lia| |zlia]. intros E%list_elem_of_singleton. rewrite E in Hin. done.
  - intros r. apply rdn_ext. intros x Hx. pose proof (tf_off_range r). apply (rs_mem _ _ _ _ _ _ RB tf); [done|lia|done|lia].
Qed.

End image.
