(* ===== verification/ExecImage.v ===== *)
(** * The image [kexec] builds: the theorem

    The part of [kexec] that follows the loading of the program, on a process that has an address
    space and a new one with the program in it. *)

From S2P Require Import Prelude Riscv CString Kernel Printf Kalloc Vm UserMem VmFree UserMemEx Args Sched Bio Log Fs File Proc Exec ProcMem ProcLife ProcFork ExecStack.
From stdpp Require Import base numbers strings gmap list.
From Stdlib Require Import ZArith Lia.

#[local] Open Scope Z_scope.
#[local] Open Scope kernel_scope.

Section image.
Context {LK : Linker} {LKO : LinkerOk} `{Fuel} `{BlockDevice}.
Implicit Types (k : kernel) (t : ptree).

(** The running process [q] has the image [fo]; the program is loaded below [sz] in the page table
    [t]; the arguments are strings of less than a page. *)
Record exec_pre (c : cpu) (k : kernel) (a : alloc_spec) (p : nat) (q : proc) (to : ptree) (fo : Z -> Z) (t : ptree) (f : Z -> Z) (sz : Z)
    (argv : list (list Z)) : Prop := {
  xp_cpu : cpu_proc c = Some p;
  xp_locks : (LKmem ∉ held c) /\ (LRef ∉ held c) /\ (LPr ∉ held c);
  xp_proc : procs k !! p = Some q;
  xp_table : p_pagetable q = pt_root to;
  xp_old : space a k to fo (p_sz q);
  xp_new : space a k t f sz;
  xp_room : PGROUNDUP sz + 2 * PGSIZE <= TRAPFRAME;
  xp_frame : page_ok (p_trapframe q);
  xp_own : a_ref a (p_trapframe q) = 1;
  xp_apart : (p_trapframe q ∉ space_pages t f sz) /\ (p_trapframe q ∉ space_pages to fo (p_sz q));
  xp_disj : forall x, x ∈ space_pages t f sz -> x ∉ space_pages to fo (p_sz q);
  xp_argv : Forall (fun s => Z.of_nat (length s) < PGSIZE /\ bytes s) argv;
  xp_argc : Z.of_nat (length argv) < MAXARG
}.

Lemma kexec_bad_ok c a k t g sz :
  LKmem ∉ held c -> LRef ∉ held c -> LPr ∉ held c -> space a k t g sz ->
  exists a' k', kexec_bad (pt_root t) sz None c k = Done (-1) c k' /\ resized (space_pages t g sz) [] a a' k k'.
Proof.
  intros HK HR HP Hs. destruct (proc_freepagetable_ok c HK HR HP a k t g sz Hs) as (a' & k' & E & F). exists a', k'.
  split; [|by apply resized_freed]. unfold kexec_bad.
  assert (Hp : page_ok (pt_root t)) by (eapply wf_page_ok; [apply (vo_wf _ _ _ (sp_vm _ _ _ _ _ Hs))|apply pt_root_in]).
  destruct (page_ok_range _ Hp). destruct (Z.eqb_spec (pt_root t) 0); [lia|]. cbn [negb]. by erewrite bind_done by exact E.
Qed.

(** The new image of the process. *)
Record image (a a' : alloc_spec) (k k' : kernel) (p : nat) (q : proc) (to : ptree) (fo : Z -> Z) (t : ptree) (f : Z -> Z) (sz : Z)
    (path : list Z) (argv : list (list Z)) (entry : Z) (us : list Z) (sp : Z) (t' : ptree) (g : Z -> Z) : Prop := {
  im_rest : k' = over k' (with_slot k p (image_proc path (pt_root t') (PGROUNDUP sz + 2 * PGSIZE) q) (nextpid k));
  im_space : space a' k' t' g (PGROUNDUP sz + 2 * PGSIZE);
  im_map : with_stack f g (PGROUNDUP sz);
  im_program : forall v, 0 <= v < PGROUNDUP sz -> flag (f v) PTE_V = true -> ubyte (mem k') g v = ubyte (mem k) f v;
  im_stack : stack_holds k' g argv us (PGROUNDUP sz + PGSIZE) (PGROUNDUP sz + 2 * PGSIZE) sp;
  im_regs : forall r, rd64 (mem k') (p_trapframe q + tf_off r) =
    if decide (r = tf_sp \/ r = tf_a1) then sp else if decide (r = epc) then u64 entry else rd64 (mem k) (p_trapframe q + tf_off r);
  im_pages : resized (p_trapframe q :: space_pages to fo (p_sz q) ++ space_pages t f sz)
    (p_trapframe q :: space_pages t' g (PGROUNDUP sz + 2 * PGSIZE)) a a' k (over k' k)
}.

Lemma resized_sum xs ps qs a a1 a2 k k1 k2 (y : Z) :
  resized ps qs a a1 k k1 -> resized (y :: xs) [y] a1 a2 k1 k2 ->
  (forall x, x ∈ y :: xs -> page_ok x /\ a_ref a x = 1 /\ x ∉ ps) -> (forall x, x ∈ qs -> page_ok x /\ a_ref a1 x = 1 /\ x ∉ y :: xs) ->
  resized (y :: xs ++ ps) (y :: qs) a a2 k k2.
Proof.
  intros R1 R2 H1 H2. pose proof (resized_frame (y :: xs) _ _ _ _ _ _ R1 H1) as F1. pose proof (resized_frame qs _ _ _ _ _ _ R2 H2) as F2.
  eapply resized_trans; [exact F1|]. eapply resized_same_l; [|eapply resized_same; [|exact F2]]; intros x;
    rewrite ?elem_of_app, ?elem_of_cons, ?elem_of_nil; tauto.
Qed.

Lemma over_only k k' : only_pages k k' -> k' = over k' k.
Proof. intros E. symmetry. by apply over_same. Qed.

(** The outcome of [kexec] after the program was loaded. *)
Definition exec_post (a a' : alloc_spec) (k k' : kernel) (p : nat) (q : proc) (to : ptree) (fo : Z -> Z) (t : ptree) (f : Z -> Z) (sz : Z)
    (path : list Z) (argv : list (list Z)) (elf : elfhdr) (r : Z) : Prop :=
  (r = -1 /\ (stack_layout argv (PGROUNDUP sz + PGSIZE) (PGROUNDUP sz + 2 * PGSIZE) = None \/ nfree a < 6) /\
   k' = over k' k /\ resized (space_pages t f sz) [] a a' k k') \/
  exists us sp t' g, r = Z.of_nat (length argv) /\ stack_layout argv (PGROUNDUP sz + PGSIZE) (PGROUNDUP sz + 2 * PGSIZE) = Some (us, sp) /\
    image a a' k k' p q to fo t f sz path argv (elf_entry elf) us sp t' g.

Lemma exec_finish c k a p q to fo t f sz path argv elf a1 k2 t1 g :
  exec_pre c k a p q to fo t f sz argv -> space a1 k2 t1 g (PGROUNDUP sz + 2 * PGSIZE) ->
  resized (space_pages t f sz) (space_pages t1 g (PGROUNDUP sz + 2 * PGSIZE)) a a1 k k2 -> with_stack f g (PGROUNDUP sz) ->
  (forall v, 0 <= v < PGROUNDUP sz -> flag (f v) PTE_V = true -> ubyte (mem k2) g v = ubyte (mem k) f v) ->
  exists r a' k', kexec_push path argv elf (pt_root t1) (PGROUNDUP sz + 2 * PGSIZE) (p_sz q) (PGROUNDUP sz + PGSIZE) c k2 = Done r c k' /\
    exec_post a a' k k' p q to fo t f sz path argv elf r.
Proof.
  intros P S2 R2 W2 B2. destruct (xp_locks _ _ _ _ _ _ _ _ _ _ _ P) as (HK & HR & HP). pose proof (xp_new _ _ _ _ _ _ _ _ _ _ _ P) as Hs.
  pose proof (xp_old _ _ _ _ _ _ _ _ _ _ _ P) as Hso. pose proof (xp_room _ _ _ _ _ _ _ _ _ _ _ P) as Hroom. pose proof (sp_sz _ _ _ _ _ Hs) as Hsz.
  destruct (xp_apart _ _ _ _ _ _ _ _ _ _ _ P) as [Hap Hapo]. destruct (PGROUNDUP_bounds sz) as [Hb Hba]; [lia|]. unfold exec_post.
  set (lo := PGROUNDUP sz) in *. set (top := lo + 2 * PGSIZE) in *.
  assert (Etop : PGROUNDUP top = top) by (destruct (PGROUNDUP_bounds top); unfold top in *; zlia).
  destruct (kexec_push_ok path argv elf (p_sz q) c a1 k2 t1 g top (lo + PGSIZE)) as (k3 & E3 & S3 & R3 & O3 & L3);
    [done|done|unfold top; lia|lia|apply W2|apply P|apply P|].
  pose proof (resized_trans _ _ _ _ _ _ _ _ _ R2 R3) as R. rewrite E3. destruct (stack_layout argv (lo + PGSIZE) top) as [[us sp]|] eqn:Elay.
  2: { destruct (kexec_bad_ok c a1 k3 t1 g top HK HR HP S3) as (a' & k' & E' & R'). exists (-1), a', k'. split; [exact E'|].
       left. split; [done|]. split; [by left|]. pose proof (resized_trans _ _ _ _ _ _ _ _ _ R R') as R0. split; [by apply over_only, R0|done]. }
  assert (Hown : forall x, page_ok x -> a_ref a x = 1 -> x ∉ space_pages t f sz -> a_ref a1 x = 1 /\ x ∉ space_pages t1 g top).
  { intros x Hx E1 Hn. split; [rewrite (kp_ref _ _ _ _ _ (resized_keeps _ _ _ _ _ _ R) x Hx); [done|split; [lia|done]]|].
    intros Hin. destruct (rs_new _ _ _ _ _ _ R x Hin) as [_ [|]]; [done|lia]. }
  destruct (Hown (p_trapframe q)) as [H1 Hn1]; [apply (xp_frame _ _ _ _ _ _ _ _ _ _ _ P)|apply (xp_own _ _ _ _ _ _ _ _ _ _ _ P)|done|].
  assert (Hso3 : space a1 k3 to fo (p_sz q)) by (eapply resized_space; [exact R|done|]; intros x Hx Hin; by apply (xp_disj _ _ _ _ _ _ _ _ _ _ _ P x)).
  assert (Hdis : forall x, x ∈ space_pages to fo (p_sz q) -> x ∉ space_pages t1 g top).
  { intros x Hx. destruct (space_pages_own _ _ _ _ _ _ Hso Hx). apply Hown; [done|done|]. intros Hin. by apply (xp_disj _ _ _ _ _ _ _ _ _ _ _ P x). }
  destruct (kexec_commit_ok path elf t1 g top sp (Z.of_nat (length argv)) c a1 k k3 p q to fo) as (a' & k' & E' & S' & R' & B' & G');
    [apply P|apply P|done|done|done|done|done|apply P|apply (xp_frame _ _ _ _ _ _ _ _ _ _ _ P)|done|done|done|intros x Hx Hin; by apply (Hdis x Hin)|].
  rewrite <- (over_only k k3 (rs_kernel _ _ _ _ _ _ R)) in E'. eexists _, a', _. split; [exact E'|].
  right. exists us, sp, t1, g. split; [done|]. split; [done|].
  split.
  - by rewrite over_over.
  - by apply space_over.
  - done.
  - intros v Hv HV. etransitivity; [apply B'; [lia|by rewrite (ws_low _ _ _ W2)]|]. rewrite O3 by (lia || by rewrite (ws_low _ _ _ W2)). by apply B2.
  - eapply stack_holds_ext; [|exact L3]. intros v Hv. apply B'; [lia|]. apply user_ok_valid, (ws_stack _ _ _ W2). lia.
  - intros r. etransitivity; [exact (G' r)|]. rewrite image_frame_reg. destruct L3 as (L3a & L3b & _). rewrite (u64_small sp) by lia.
    destruct (decide _); [done|]. destruct (decide _); [done|]. apply rdn_ext. intros x Hx. pose proof (tf_off_range r).
    apply (rs_mem _ _ _ _ _ _ R (p_trapframe q)); [apply (xp_frame _ _ _ _ _ _ _ _ _ _ _ P)|rewrite (xp_own _ _ _ _ _ _ _ _ _ _ _ P); done|done|lia].
  - rewrite over_over. rewrite <- (over_only k k'); [|eapply only_pages_trans; [apply R|apply R']].
    eapply resized_sum; [exact R|exact R'| |].
    + intros x [->|Hx]%elem_of_cons; [split; [apply (xp_frame _ _ _ _ _ _ _ _ _ _ _ P)|split; [apply (xp_own _ _ _ _ _ _ _ _ _ _ _ P)|done]]|].
      destruct (space_pages_own _ _ _ _ _ _ Hso Hx). split; [done|]. split; [done|]. intros Hin. by apply (xp_disj _ _ _ _ _ _ _ _ _ _ _ P x).
    + intros x Hx. destruct (space_pages_own _ _ _ _ _ _ S3 Hx). split; [done|]. split; [done|].
      intros [->|Hin]%elem_of_cons; [done|by apply (Hdis x)].
Qed.

(** C5. From the stack pages on, [kexec] returns -1 only if the arguments do not fit in the stack
    page or fewer than six pages are free (two for the stack and four for page tables), and then
    the pages of the new address space are given back and nothing else changed.  Otherwise it
    returns the number of arguments and the process has the new image: the program
    as it was loaded, a guard page it cannot access, a stack that holds each argument string at a
    16-byte aligned address and, at the stack pointer, the array of their addresses ended by 0;
    a1 and sp are the stack pointer, the program counter is the entry point, the other registers
    are unchanged; and the pages of the old address space are given back. *)
Theorem exec_builds_image c k a p q to fo t f sz path argv elf :
  exec_pre c k a p q to fo t f sz argv ->
  exists r a' k', kexec_stack path argv elf (pt_root t) sz c k = Done r c k' /\ exec_post a a' k k' p q to fo t f sz path argv elf r.
Proof.
  intros P. destruct (xp_locks _ _ _ _ _ _ _ _ _ _ _ P) as (HK & HR & HP). pose proof (xp_new _ _ _ _ _ _ _ _ _ _ _ P) as Hs.
  pose proof (xp_old _ _ _ _ _ _ _ _ _ _ _ P) as Hso. pose proof (xp_room _ _ _ _ _ _ _ _ _ _ _ P) as Hroom. pose proof (sp_sz _ _ _ _ _ Hs) as Hsz.
  destruct (xp_apart _ _ _ _ _ _ _ _ _ _ _ P) as [Hap Hapo]. destruct (PGROUNDUP_bounds sz) as [Hb Hba]; [lia|].
  destruct (stack_pages c a k t f sz HK HR HP Hs Hroom) as (r & a1 & k1 & t1 & g1 & E1 & Hroot & Hcase).
  set (lo := PGROUNDUP sz) in *. unfold kexec_stack.
  erewrite bind_done by (apply curproc_done, P). erewrite bind_done by (apply getproc_done, P). fold lo. cbv zeta.
  replace (u64 (lo + (USERSTACK + 1) * PGSIZE)) with (lo + 2 * PGSIZE) by (rewrite u64_small; lia).
  erewrite bind_done by exact E1. destruct Hcase as [(-> & Hfew & S1 & R1)|(-> & k2 & g & E2 & S2 & R2 & W2 & B2)].
  { destruct (kexec_bad_ok c a1 k1 t1 g1 lo HK HR HP S1) as (a' & k' & E' & R'). rewrite Hroot in E'. exists (-1), a', k'. split; [exact E'|].
    left. split; [done|]. split; [by right|]. pose proof (resized_trans _ _ _ _ _ _ _ _ _ R1 R') as R. split; [by apply over_only, R|done]. }
  destruct (Z.eqb_spec (lo + 2 * PGSIZE) 0) as [|_]; [lia|].
  replace (u64 (lo + 2 * PGSIZE - (USERSTACK + 1) * PGSIZE)) with lo by (rewrite u64_small; lia).
  replace (u64 (lo + 2 * PGSIZE - USERSTACK * PGSIZE)) with (lo + PGSIZE) by (rewrite u64_small; lia).
  erewrite bind_done by exact E2. rewrite <- Hroot. by eapply exec_finish.
Qed.

End image.

(** ** A process that runs a program *)

Section witness.
#[local] Existing Instance small_linker.
#[local] Existing Instance small_linker_ok.
#[local] Instance xfuel : Fuel := 2%nat.
#[local] Existing Instance sync_device.

(** The process of UserMemEx.v with its trapframe on page 5; the new page table, on page 4, is empty. *)
Definition xproc : proc := proc_0 <| p_state := RUNNING |> <| p_sz := 2 * PGSIZE |> <| p_pagetable := wpage 0 |> <| p_trapframe := wpage 5 |>.
Definition xkernel : kernel :=
  wkernel <| freelist := wpage 6 |> <| free_pages_count := 6 |> <| ref_counts ::= <[wpage 5 / PGSIZE := 1]> |> <| procs := xproc :: replicate 63 proc_0 |>.
Definition xalloc : alloc_spec := mkalloc (wpage <$> [6; 7; 8; 9; 10; 11]) (fun p => if p <=? wpage 5 then 1 else 0).
Definition xelf : elfhdr := mkelf ELF_MAGIC 0x100 64 0.

Lemma xrepresents : represents xalloc xkernel.
Proof.
  split.
  - vm_compute. repeat split; congruence.
  - apply (bool_decide_unpack _). vm_compute. exact I.
  - reflexivity.
  - intros p (i & -> & Hi)%wpage_cases. wcases Hi; vm_compute; reflexivity.
  - intros p (i & -> & Hi)%list_elem_of_fmap. wcases Hi; vm_compute; reflexivity.
  - unfold xkernel, wkernel, wmem. kred. apply mem_ok_wrbytes. repeat apply mem_ok_wrn. apply mem_ok_empty.
Qed.

Lemma xcomplete : complete xalloc.
Proof.
  intros p (i & -> & Hi)%wpage_cases. wcases Hi; intros Hz; first [discriminate Hz|apply (bool_decide_unpack _); vm_compute; exact I].
Qed.

Lemma xspace_old : space xalloc xkernel wtree wfun (2 * PGSIZE).
Proof.
  split; [split; [apply xrepresents|apply xcomplete|exact wtree_wf|]|exact wtree_is| |lia|].
  - refine (proj1 (Forall_forall _ _) _). apply (bool_decide_unpack _). vm_compute. exact I.
  - split.
    + intros v [? _] [_ ->]%wfun_valid; [|done]. rewrite wpage_3. by vm_compute.
    + intros v [? _] [_ ->]%wfun_valid; [|done]. rewrite wpage_3. by vm_compute.
    + intros v [? _] [_ ->]%wfun_valid; [|done]. rewrite wpage_3. apply (bool_decide_unpack _). vm_compute. exact I.
    + intros v v' [? _] [? _] [? _]%wfun_valid [? _]%wfun_valid _; [zlia|done..].
  - intros v Hv. change (PGROUNDUP (2 * PGSIZE)) with (2 * PGSIZE) in Hv. unfold wfun. destruct (Z.ltb_spec v PGSIZE); [lia|done].
Qed.

Lemma xspace_new : space xalloc xkernel wchild (fun _ => 0) 0.
Proof.
  split; [split; [apply xrepresents|apply xcomplete|exact wchild_wf|]|exact wchild_is| |lia|done].
  - refine (proj1 (Forall_forall _ _) _). apply (bool_decide_unpack _). vm_compute. exact I.
  - change (PGROUNDUP 0) with 0. split; intros; lia.
Qed.

Lemma exec_builds_image_witness :
  exists r k', kexec_stack (str "/init") [[104; 105]] xelf (wpage 4) 0 wcpu xkernel = Done r wcpu k' /\
    r = 1 /\ exists us sp g, stack_layout [[104; 105]] PGSIZE (2 * PGSIZE) = Some (us, sp) /\ stack_holds k' g [[104; 105]] us PGSIZE (2 * PGSIZE) sp.
Proof.
  destruct (exec_builds_image wcpu xkernel xalloc 0%nat xproc wtree wfun wchild (fun _ => 0) 0 (str "/init") [[104; 105]] xelf) as (r & a' & k' & E & Hr).
  - split; try done.
    + by repeat split; apply not_elem_of_nil.
    + apply xspace_old.
    + apply xspace_new.
    + split; apply (bool_decide_unpack _); vm_compute; exact I.
    + refine (proj1 (Forall_forall _ _) _). apply (bool_decide_unpack _). vm_compute. exact I.
    + apply Forall_singleton. split; [done|]. by repeat (apply Forall_cons; split).
  - exists r, k'. split; [exact E|]. destruct Hr as [(_ & [Hn|Hn] & _)|(us & sp & t' & g & -> & Hl & Him)].
    { exfalso. revert Hn. vm_compute. discriminate. }
    { exfalso. revert Hn. vm_compute. discriminate. }
    split; [done|]. exists us, sp, g. split; [exact Hl|exact (im_stack _ _ _ _ _ _ _ _ _ _ _ _ _ _ _ _ _ _ Him)].
Defined.

End witness.
