(* ===== verification/Sysfile.v ===== *)
(** * System calls: [sysfile.c], [sysproc.c] and the dispatch of [syscall.c] *)

From S2P Require Import Prelude Riscv CString Kernel Printf Kalloc Vm Args Sched Sleeplock Bio Log Fs Pipe Console File Proc Exec.
From stdpp Require Import base numbers strings gmap list.
From Stdlib Require Import ZArith Lia.

#[local] Open Scope Z_scope.
#[local] Open Scope kernel_scope.

(** ** fcntl.h *)
Abbreviation O_RDONLY := 0%Z (only parsing).
Abbreviation O_WRONLY := 1%Z (only parsing).
Abbreviation O_RDWR := 2%Z (only parsing).
Abbreviation O_CREATE := 0x200%Z (only parsing).
Abbreviation O_TRUNC := 0x400%Z (only parsing).
Abbreviation SBRK_EAGER := 1%Z (only parsing).

Section Operations.
Context {LK : Linker} `{Fuel} `{BlockDevice} `{Uninit}.

(** ** sysfile.c *)

(** The descriptor and the file, or [None] for -1. *)
Definition argfd (n : Z) : M (option (Z * nat)) :=
  fd <- argint n ;;
  if (fd <? 0) || (fd >=? NOFILE) then ret None else
  i <- curproc ;;
  p <- getproc i ;;
  match p_ofile p !! Z.to_nat fd with
  | Some (Some f) => ret (Some (fd, f))
  | _ => ret None
  end.

Fixpoint fdalloc_loop (n : nat) (i : nat) (f fd : nat) : M Z :=
  match n with
  | O => ret (-1)
  | S n =>
      p <- getproc i ;;
      match p_ofile p !! fd with
      | Some None =>
          modproc i (fun p => p <| p_ofile ::= fun l => <[fd := Some f]> l |>) ;;
          ret (Z.of_nat fd)
      | _ => fdalloc_loop n i f (S fd)
      end
  end.

Definition fdalloc (f : nat) : M Z :=
  i <- curproc ;;
  fdalloc_loop 16 i f 0.

Definition sys_dup : M Z :=
  o <- argfd 0 ;;
  match o with
  | None => ret (-1)
  | Some (_, f) =>
      fd <- fdalloc f ;;
      if fd <? 0 then ret (-1) else
      filedup f ;;
      ret fd
  end.

Definition sys_read : M Z :=
  p <- argaddr 1 ;;
  n <- argint 2 ;;
  o <- argfd 0 ;;
  match o with
  | None => ret (-1)
  | Some (_, f) => fileread f p n
  end.

Definition sys_write : M Z :=
  p <- argaddr 1 ;;
  n <- argint 2 ;;
  o <- argfd 0 ;;
  match o with
  | None => ret (-1)
  | Some (_, f) => filewrite f p n
  end.

(** [p->ofile[fd] = 0] for the current process. *)
Definition clear_fd (fd : Z) : M unit :=
  i <- curproc ;;
  modproc i (fun p => p <| p_ofile ::= fun l => setz l fd None |>).

Definition sys_close : M Z :=
  o <- argfd 0 ;;
  match o with
  | None => ret (-1)
  | Some (fd, f) =>
      clear_fd fd ;;
      fileclose f ;;
      ret 0
  end.

Definition sys_fstat : M Z :=
  st <- argaddr 1 ;;
  o <- argfd 0 ;;
  match o with
  | None => ret (-1)
  | Some (_, f) => filestat f st
  end.

(** [argstr] of a path: the string, or [None] for -1. *)
Definition argpath (n : Z) : M (option (list Z)) :=
  '(r, buf) <- argstr n MAXPATH ;;
  if r <? 0 then ret None else ret (Some (take (Z.to_nat r) buf)).

(** The label [bad] of [sys_link]. *)
Definition sys_link_bad (ip : nat) : M Z :=
  ilock (Some ip) ;;
  modinode ip (fun i => i <| i_nlink ::= fun n => i16 (n - 1) |>) ;;
  iupdate ip ;;
  iunlockput ip ;;
  end_op ;;
  ret (-1).

Definition sys_link : M Z :=
  old <- argpath 0 ;;
  match old with
  | None => ret (-1)
  | Some old =>
  new <- argpath 1 ;;
  match new with
  | None => ret (-1)
  | Some new =>
  begin_op ;;
  o <- namei old ;;
  match o with
  | None => end_op ;; ret (-1)
  | Some ip =>
  ilock (Some ip) ;;
  i <- getinode ip ;;
  if i_type i =? T_DIR then
    iunlockput ip ;;
    end_op ;;
    ret (-1)
  else
  modinode ip (fun i => i <| i_nlink ::= fun n => i16 (n + 1) |>) ;;
  iupdate ip ;;
  iunlock (Some ip) ;;
  o <- nameiparent new ;;
  match o with
  | None => sys_link_bad ip
  | Some (dp, name) =>
      ilock (Some dp) ;;
      d <- getinode dp ;;
      i <- getinode ip ;;
      bad <- (if negb (i_dev d =? i_dev i) then ret true
              else r <- dirlink dp name (i_inum i) ;; ret (r <? 0)) ;;
      if (bad : bool) then
        iunlockput dp ;;
        sys_link_bad ip
      else
        iunlockput dp ;;
        iput ip ;;
        end_op ;;
        ret 0
  end end end end.

(** [for(off=2*sizeof(de); off<dp->size; off+=sizeof(de))] *)
Fixpoint isdirempty_loop (fl : nat) (dp : nat) (off : Z) : M bool :=
  match fl with
  | O => stuck "isdirempty"
  | S fl =>
      d <- getinode dp ;;
      if off <? i_size d then
        '(r, de) <- readi dp ToLocal off 16 ;;
        if negb (r =? 16) then panic "isdirempty: readi" else
        if negb (de_inum de =? 0) then ret false else
        isdirempty_loop fl dp (off + 16)
      else ret true
  end.

Definition isdirempty (dp : nat) : M bool :=
  d <- getinode dp ;;
  isdirempty_loop (Z.to_nat (i_size d / 16 + 2)) dp (2 * 16).

(** The label [bad] of [sys_unlink]. *)
Definition sys_unlink_bad (dp : nat) : M Z :=
  iunlockput dp ;;
  end_op ;;
  ret (-1).

Definition sys_unlink : M Z :=
  path <- argpath 0 ;;
  match path with
  | None => ret (-1)
  | Some path =>
  begin_op ;;
  o <- nameiparent path ;;
  match o with
  | None => end_op ;; ret (-1)
  | Some (dp, name) =>
  ilock (Some dp) ;;
  if (namecmp name (str ".") =? 0) || (namecmp name (str "..") =? 0) then sys_unlink_bad dp else
  o <- dirlookup dp name ;;
  match o with
  | None => sys_unlink_bad dp
  | Some (ip, off) =>
  ilock (Some ip) ;;
  i <- getinode ip ;;
  if i_nlink i <? 1 then panic "unlink: nlink < 1" else
  full <- (if i_type i =? T_DIR then e <- isdirempty ip ;; ret (negb e) else ret false) ;;
  if (full : bool) then
    iunlockput ip ;;
    sys_unlink_bad dp
  else
  r <- writei dp (FromLocal (replicate 16 0)) off 16 ;;
  if negb (r =? 16) then panic "unlink: writei" else
  i <- getinode ip ;;
  (if i_type i =? T_DIR then
     modinode dp (fun d => d <| i_nlink ::= fun n => i16 (n - 1) |>) ;;
     iupdate dp
   else ret tt) ;;
  iunlockput dp ;;
  modinode ip (fun i => i <| i_nlink ::= fun n => i16 (n - 1) |>) ;;
  iupdate ip ;;
  iunlockput ip ;;
  end_op ;;
  ret 0
  end end end.

(** The label [fail] of [create]. *)
Definition create_fail (ip dp : nat) : M (option nat) :=
  modinode ip (fun i => i <| i_nlink := 0 |>) ;;
  iupdate ip ;;
  iunlockput ip ;;
  iunlockput dp ;;
  ret None.

Definition create (path : list Z) (type major minor : Z) : M (option nat) :=
  o <- nameiparent path ;;
  match o with
  | None => ret None
  | Some (dp, name) =>
  ilock (Some dp) ;;
  o <- dirlookup dp name ;;
  match o with
  | Some (ip, _) =>
      iunlockput dp ;;
      ilock (Some ip) ;;
      i <- getinode ip ;;
      if (type =? T_FILE) && ((i_type i =? T_FILE) || (i_type i =? T_DEVICE)) then ret (Some ip) else
      iunlockput ip ;;
      ret None
  | None =>
  d <- getinode dp ;;
  o <- ialloc (i_dev d) type ;;
  match o with
  | None => iunlockput dp ;; ret None
  | Some ip =>
  ilock (Some ip) ;;
  modinode ip (fun i => i <| i_major := major |>) ;;
  modinode ip (fun i => i <| i_minor := minor |>) ;;
  modinode ip (fun i => i <| i_nlink := 1 |>) ;;
  iupdate ip ;;
  i <- getinode ip ;;
  d <- getinode dp ;;
  bad <- (if type =? T_DIR then
            r <- dirlink ip (str ".") (i_inum i) ;;
            if r <? 0 then ret true else
            r <- dirlink ip (str "..") (i_inum d) ;;
            ret (r <? 0)
          else ret false) ;;
  if (bad : bool) then create_fail ip dp else
  r <- dirlink dp name (i_inum i) ;;
  if r <? 0 then create_fail ip dp else
  (if type =? T_DIR then
     modinode dp (fun d => d <| i_nlink ::= fun n => i16 (n + 1) |>) ;;
     iupdate dp
   else ret tt) ;;
  iunlockput dp ;;
  ret (Some ip)
  end end end.

(** From the test for a device on; [ip] is locked. *)
Definition sys_open_file (ip : nat) (omode : Z) : M Z :=
  i <- getinode ip ;;
  if (i_type i =? T_DEVICE) && ((i_major i <? 0) || (i_major i >=? NDEV)) then
    iunlockput ip ;;
    end_op ;;
    ret (-1)
  else
  o <- filealloc ;;
  fd <- (match o with Some f => fdalloc f | None => ret (-1) end) ;;
  match o with
  | None =>
      iunlockput ip ;;
      end_op ;;
      ret (-1)
  | Some f =>
  if fd <? 0 then
    fileclose f ;;
    iunlockput ip ;;
    end_op ;;
    ret (-1)
  else
  i <- getinode ip ;;
  (if i_type i =? T_DEVICE then
     modfile f (fun fl => fl <| f_type := FD_DEVICE |> <| f_major := i_major i |>)
   else
     modfile f (fun fl => fl <| f_type := FD_INODE |> <| f_off := 0 |>)) ;;
  modfile f (fun fl => fl <| f_ip := ip |>) ;;
  modfile f (fun fl => fl <| f_readable := negb (flag omode O_WRONLY) |>) ;;
  modfile f (fun fl => fl <| f_writable := flag omode O_WRONLY || flag omode O_RDWR |>) ;;
  (if flag omode O_TRUNC && (i_type i =? T_FILE) then itrunc ip else ret tt) ;;
  iunlock (Some ip) ;;
  end_op ;;
  ret fd
  end.

Definition sys_open : M Z :=
  omode <- argint 1 ;;
  path <- argpath 0 ;;
  match path with
  | None => ret (-1)
  | Some path =>
  begin_op ;;
  if flag omode O_CREATE then
    o <- create path T_FILE 0 0 ;;
    match o with
    | None => end_op ;; ret (-1)
    | Some ip => sys_open_file ip omode
    end
  else
    o <- namei path ;;
    match o with
    | None => end_op ;; ret (-1)
    | Some ip =>
        ilock (Some ip) ;;
        i <- getinode ip ;;
        if (i_type i =? T_DIR) && negb (omode =? O_RDONLY) then
          iunlockput ip ;;
          end_op ;;
          ret (-1)
        else sys_open_file ip omode
    end
  end.

(** [if(argstr(0, path, MAXPATH) < 0 || (ip = create(path, ...)) == 0)] *)
Definition create_arg (type major minor : Z) : M (option nat) :=
  path <- argpath 0 ;;
  match path with
  | None => ret None
  | Some path => create path type major minor
  end.

Definition sys_mkdir : M Z :=
  begin_op ;;
  o <- create_arg T_DIR 0 0 ;;
  match o with
  | None => end_op ;; ret (-1)
  | Some ip => iunlockput ip ;; end_op ;; ret 0
  end.

Definition sys_mknod : M Z :=
  begin_op ;;
  major <- argint 1 ;;
  minor <- argint 2 ;;
  o <- create_arg T_DEVICE (i16 major) (i16 minor) ;;
  match o with
  | None => end_op ;; ret (-1)
  | Some ip => iunlockput ip ;; end_op ;; ret 0
  end.

Definition sys_chdir : M Z :=
  p <- curproc ;;
  begin_op ;;
  path <- argpath 0 ;;
  o <- (match path with Some path => namei path | None => ret None end) ;;
  match o with
  | None => end_op ;; ret (-1)
  | Some ip =>
      ilock (Some ip) ;;
      i <- getinode ip ;;
      if negb (i_type i =? T_DIR) then
        iunlockput ip ;;
        end_op ;;
        ret (-1)
      else
      iunlock (Some ip) ;;
      q <- getproc p ;;
      cwd <- deref (p_cwd q) ;;
      iput cwd ;;
      end_op ;;
      modproc p (fun q => q <| p_cwd := Some ip |>) ;;
      ret 0
  end.

(** [for(i = 0; i < NELEM(argv) && argv[i] != 0; i++) kfree(argv[i]);] *)
Fixpoint free_args (argv : list Z) : M unit :=
  match argv with
  | [] => ret tt
  | a :: argv => kfree a ;; free_args argv
  end.

(** The pages [argv[0..i-1]] and the strings in them; false: [goto bad]. *)
Fixpoint fetch_args (n : nat) (uargv i : Z) (pages : list Z) (args : list (list Z)) : M (bool * list Z * list (list Z)) :=
  match n with
  | O => ret (false, pages, args)
  | S n =>
      '(r, uarg) <- fetchaddr (u64 (uargv + 8 * i)) ;;
      if r <? 0 then ret (false, pages, args) else
      if uarg =? 0 then ret (true, pages, args) else
      a <- kalloc ;;
      if a =? 0 then ret (false, pages, args) else
      '(r, buf) <- fetchstr uarg PGSIZE ;;
      kwrbytes a buf ;;
      if r <? 0 then ret (false, pages ++ [a], args) else
      fetch_args n uargv (i + 1) (pages ++ [a]) (args ++ [take (Z.to_nat r) buf])
  end.

Definition sys_exec : M Z :=
  uargv <- argaddr 1 ;;
  path <- argpath 0 ;;
  match path with
  | None => ret (-1)
  | Some path =>
      '(ok, pages, args) <- fetch_args (Z.to_nat MAXARG) uargv 0 [] [] ;;
      if negb ok then
        free_args pages ;;
        ret (-1)
      else
        r <- kexec path args ;;
        free_args pages ;;
        ret r
  end.

Definition sys_pipe : M Z :=
  p <- curproc ;;
  fdarray <- argaddr 0 ;;
  '(r, rf, wf) <- pipealloc ;;
  if r <? 0 then ret (-1) else
  rf <- deref rf ;;
  wf <- deref wf ;;
  fd0 <- fdalloc rf ;;
  fd1 <- (if fd0 <? 0 then ret (-1) else fdalloc wf) ;;
  if (fd0 <? 0) || (fd1 <? 0) then
    (if fd0 >=? 0 then clear_fd fd0 else ret tt) ;;
    fileclose rf ;;
    fileclose wf ;;
    ret (-1)
  else
  q <- getproc p ;;
  r <- copyout (p_pagetable q) fdarray (le_bytes 4 fd0) 4 ;;
  r <- (if r <? 0 then ret (-1) else copyout (p_pagetable q) (u64 (fdarray + 4)) (le_bytes 4 fd1) 4) ;;
  if r <? 0 then
    clear_fd fd0 ;;
    clear_fd fd1 ;;
    fileclose rf ;;
    fileclose wf ;;
    ret (-1)
  else ret 0.

(** ** sysproc.c *)

Definition sys_exit : M Z :=
  n <- argint 0 ;;
  kexit n.

Definition sys_getpid : M Z :=
  i <- curproc ;;
  p <- getproc i ;;
  ret (p_pid p).

Definition sys_fork : M Z := kfork.

Definition sys_wait : M Z :=
  p <- argaddr 0 ;;
  kwait p.

Definition sys_sbrk : M Z :=
  n <- argint 0 ;;
  t <- argint 1 ;;
  i <- curproc ;;
  p <- getproc i ;;
  let addr := p_sz p in
  if (t =? SBRK_EAGER) || (n <? 0) then
    r <- growproc n ;;
    if r <? 0 then ret (-1) else ret addr
  else
    if u64 (addr + n) <? addr then ret (-1) else
    if u64 (addr + n) >? TRAPFRAME then ret (-1) else
    modproc i (fun p => p <| p_sz ::= fun s => u64 (s + n) |>) ;;
    ret addr.

(** [while(ticks - ticks0 < n)]; false: return -1. *)
Fixpoint pause_loop (fl : nat) (ticks0 n : Z) : M bool :=
  match fl with
  | O => stuck "pause"
  | S fl =>
      t <- gets ticks ;;
      if u32 (t - ticks0) <? n then
        me <- curproc ;;
        x <- killed me ;;
        if negb (x =? 0) then
          release LTicks ;;
          ret false
        else
          sleep CTicks LTicks ;;
          pause_loop fl ticks0 n
      else ret true
  end.

Definition sys_pause : M Z :=
  n <- argint 0 ;;
  let n := if n <? 0 then 0 else n in
  acquire LTicks ;;
  ticks0 <- gets ticks ;;
  ok <- pause_loop (S fuel) ticks0 n ;;
  if negb ok then ret (-1) else
  release LTicks ;;
  ret 0.

Definition sys_kill : M Z :=
  pid <- argint 0 ;;
  kkill pid.

Definition sys_uptime : M Z :=
  acquire LTicks ;;
  xticks <- gets ticks ;;
  release LTicks ;;
  ret xticks.

(** ** syscall.c *)

(** [syscalls[]], by the numbers of [syscall.h]; entry 0 is null. *)
Definition syscalls : list (option (M Z)) :=
  [None; Some sys_fork; Some sys_exit; Some sys_wait; Some sys_pipe; Some sys_read; Some sys_kill; Some sys_exec;
   Some sys_fstat; Some sys_chdir; Some sys_dup; Some sys_getpid; Some sys_sbrk; Some sys_pause; Some sys_uptime;
   Some sys_open; Some sys_write; Some sys_mknod; Some sys_unlink; Some sys_link; Some sys_mkdir; Some sys_close].

Definition syscall : M unit :=
  i <- curproc ;;
  a7 <- tf_get i tf_a7 ;;
  let num := i32 a7 in
  match (if (num >? 0) && (num <? Z.of_nat (length syscalls)) then nthd None syscalls num else None) with
  | Some f =>
      r <- f ;;
      tf_set i tf_a0 r
  | None =>
      p <- getproc i ;;
      printf ("%d %s: unknown sys call %d" +:+ nl) [VInt (p_pid p); VStr (Some (as_str (p_name p))); VInt num] ;;
      tf_set i tf_a0 (-1)
  end.

End Operations.
