(* ===== verification/FdView.v ===== *)
(** * Open files and their reference counts: the accounting

    What the file table and the descriptor tables say about each other: the number of references of
    a file is the number of descriptors that name it, and exactly the files with references have a
    type.  Only a process on its way out may have a descriptor that does not count, since [kexit]
    closes the file, which may sleep, before it clears the descriptor.  This file has the part of the kernel state this is about, the invariant with its
    transitions, and the two judgements in which the calls are verified: [still] for code that
    neither gives up the CPU nor touches that part, [sound] for code that may sleep.  *)

From S2P Require Import Prelude Riscv CString Kernel Printf Sched Fs File Proc ProcFork.
From stdpp Require Import base numbers strings gmap list.
From Stdlib Require Import ZArith Lia.

#[local] Open Scope Z_scope.
#[local] Open Scope kernel_scope.

(** ** The view *)

(** A slot of the process table that no process runs in. *)
Definition dead (p : proc) : bool := bool_decide (p_state p = UNUSED \/ p_state p = ZOMBIE).

(** References and type of each file; descriptors of each process, and whether it is dead. *)
Record view := mkview { v_files : list (Z * fdtype); v_procs : list (list (option nat) * bool) }.

Definition file_view (fl : file) : Z * fdtype := (f_ref fl, f_type fl).
Definition proc_view (p : proc) : list (option nat) * bool := (p_ofile p, dead p).
Definition fview (k : kernel) : view := mkview (file_view <$> files k) (proc_view <$> procs k).

Definition refs (v : view) (f : nat) : Z := match v_files v !! f with Some (n, _) => n | None => 0 end.

Definition set_file (v : view) (f : nat) (e : Z * fdtype) : view := mkview (<[f := e]> (v_files v)) (v_procs v).
Definition set_proc (v : view) (i : nat) (p : list (option nat) * bool) : view := mkview (v_files v) (<[i := p]> (v_procs v)).

(** ** The invariant *)

(** The descriptors for [f] in the tables [ds]. *)
Definition count (ds : list (list (option nat))) (f : nat) : Z := foldr (fun l n => refs_to f l + n) 0 ds.

(** The processes that are in [kexit]. *)
Definition exiting : Type := nat -> bool.

(** The table [l] that counts, for the table of a process: all of it, but an exiting process may have
    closed one descriptor that it has not cleared yet.  Dead slots have no descriptors, and nothing in
    them is exiting. *)
Definition table_ok (exits : bool) (l : list (option nat)) (p : list (option nat) * bool) : Prop :=
  length p.1 = 16%nat /\ (l = p.1 \/ exits = true /\ exists fd, l = <[fd := None]> p.1) /\ (p.2 = true -> exits = false /\ p.1 = replicate 16 None).

(** [x] are the references of a call in progress that are in no table, [raw] the files it has
    allocated and not given a type yet. *)
Record counted (X : exiting) (ds : list (list (option nat))) (x : nat -> Z) (raw : list nat) (v : view) : Prop := {
  ct_procs : length (v_procs v) = 64%nat;
  ct_length : length ds = 64%nat;
  ct_table : forall i l p, ds !! i = Some l -> v_procs v !! i = Some p -> table_ok (X i) l p;
  ct_refs : forall f, refs v f = count ds f + x f;
  ct_type : forall f n, v_files v !! f = Some (n, FD_NONE) -> n = 0 \/ f ∈ raw;
  ct_free : forall f ty, v_files v !! f = Some (0, ty) -> ty = FD_NONE
}.

Definition none (_ : nat) : Z := 0.
Definition one (f g : nat) : Z := if decide (g = f) then 1 else 0.

(** ** Counting *)

Lemma count_cons l ds f : count (l :: ds) f = refs_to f l + count ds f.
Proof. done. Qed.

Lemma count_insert ds i l l' f : ds !! i = Some l -> count (<[i := l']> ds) f = count ds f - refs_to f l + refs_to f l'.
Proof.
  revert i. induction ds as [|d ds IH]; intros i Hi; [done|]. destruct i as [|i]; cbn in Hi.
  - injection Hi as ->. cbn. lia.
  - change (<[S i := l']> (d :: ds)) with (d :: <[i := l']> ds). rewrite !count_cons, (IH i Hi). lia.
Qed.

Lemma count_bound ds f n : Forall (fun l => length l = n) ds -> 0 <= count ds f <= Z.of_nat (n * length ds).
Proof.
  induction ds as [|d ds IH]; intros H; [cbn; lia|]. apply Forall_cons in H as [Hd Hds]. specialize (IH Hds).
  rewrite count_cons. pose proof (refs_to_bound f d). cbn [length]. lia.
Qed.

Lemma refs_to_app f l l' : refs_to f (l ++ l') = refs_to f l + refs_to f l'.
Proof. unfold refs_to. rewrite filter_app, length_app. lia. Qed.

Lemma refs_to_insert f l i o o' :
  l !! i = Some o ->
  refs_to f (<[i := o']> l) = refs_to f l - (if decide (o = Some f) then 1 else 0) + (if decide (o' = Some f) then 1 else 0).
Proof.
  intros Hi. pose proof (lookup_lt_Some _ _ _ Hi). rewrite insert_take_drop by done. rewrite <- (take_drop_middle l i o Hi) at 3.
  rewrite !refs_to_app, !refs_to_cons. lia.
Qed.

Lemma refs_to_pos f l i : l !! i = Some (Some f) -> 1 <= refs_to f l.
Proof.
  intros Hi. rewrite <- (take_drop_middle _ _ _ Hi), refs_to_app, refs_to_cons. rewrite decide_True by done.
  pose proof (refs_to_bound f (take i l)). pose proof (refs_to_bound f (drop (S i) l)). lia.
Qed.

Lemma count_pos ds i l f : ds !! i = Some l -> refs_to f l <= count ds f.
Proof.
  intros Hi. assert (Hall : forall ds, 0 <= count ds f).
  { induction ds0 as [|d ds0 IH]; [done|]. rewrite count_cons. pose proof (refs_to_bound f d). lia. }
  revert i Hi. induction ds as [|d ds IH]; intros i Hi; [done|]. rewrite count_cons. destruct i as [|i]; cbn in Hi.
  - injection Hi as ->. specialize (Hall ds). lia.
  - specialize (IH i Hi). pose proof (refs_to_bound f d). lia.
Qed.

Lemma refs_to_none f n : refs_to f (replicate n None) = 0.
Proof. induction n as [|n IH]; [done|]. cbn [replicate]. rewrite refs_to_cons, IH. by rewrite decide_False. Qed.

(** ** Transitions of the invariant *)

Section transitions.
Context {X : exiting}.
Implicit Types (v : view) (ds : list (list (option nat))).

Lemma counted_ext ds x y raw v : counted X ds x raw v -> (forall f, x f = y f) -> counted X ds y raw v.
Proof. intros [H1 H2 H3 H4 H5 H6] E. split; try done. intros f. by rewrite <- E. Qed.

(** The slot of a table that counts, and the table of a slot. *)
Lemma counted_slot ds x raw v i l : counted X ds x raw v -> ds !! i = Some l -> exists p, v_procs v !! i = Some p /\ table_ok (X i) l p.
Proof.
  intros C Hi. pose proof (lookup_lt_Some _ _ _ Hi) as Hlt. rewrite (ct_length _ _ _ _ _ C) in Hlt.
  destruct (lookup_lt_is_Some_2 (v_procs v) i) as [p Hp]; [by rewrite (ct_procs _ _ _ _ _ C)|]. exists p. split; [done|]. by eapply ct_table.
Qed.

Lemma counted_counts ds x raw v i p : counted X ds x raw v -> v_procs v !! i = Some p -> exists l, ds !! i = Some l /\ table_ok (X i) l p.
Proof.
  intros C Hp. pose proof (lookup_lt_Some _ _ _ Hp) as Hlt. rewrite (ct_procs _ _ _ _ _ C) in Hlt.
  destruct (lookup_lt_is_Some_2 ds i) as [l Hi]; [by rewrite (ct_length _ _ _ _ _ C)|]. exists l. split; [done|]. by eapply ct_table.
Qed.

(** There are at most 1024 descriptors: no count overflows. *)
Lemma counted_bound ds x raw v f : counted X ds x raw v -> x f <= refs v f <= 1024 + x f.
Proof.
  intros C. rewrite (ct_refs _ _ _ _ _ C). pose proof (count_bound ds f 16) as B. rewrite (ct_length _ _ _ _ _ C) in B.
  cut (0 <= count ds f <= Z.of_nat (16 * 64)); [lia|]. apply B, Forall_lookup_2. intros i l Hi.
  destruct (counted_slot _ _ _ _ _ _ C Hi) as (p & _ & H1 & H2 & _). destruct H2 as [->|(_ & fd & ->)]; [done|]. by rewrite length_insert.
Qed.

Lemma refs_set v f g e : is_Some (v_files v !! f) -> refs (set_file v f e) g = if decide (g = f) then e.1 else refs v g.
Proof.
  intros Hf%lookup_lt_is_Some. unfold refs. cbn. destruct (decide (g = f)) as [->|Hne].
  - rewrite list_lookup_insert_eq by done. by destruct e.
  - by rewrite list_lookup_insert_ne.
Qed.

Lemma refs_some v f : refs v f <> 0 -> exists ty, v_files v !! f = Some (refs v f, ty).
Proof. unfold refs. destruct (v_files v !! f) as [[n ty]|]; [|done]. by exists ty. Qed.

(** The entry of [f] becomes [(n, ty)]. *)
Lemma counted_file ds x raw v f n ty raw' :
  counted X ds x raw v -> is_Some (v_files v !! f) -> (n = 0 -> ty = FD_NONE) -> (ty = FD_NONE -> n = 0 \/ f ∈ raw') ->
  (forall g, g ∈ raw -> g = f \/ g ∈ raw') ->
  counted X ds (fun g => x g + (if decide (g = f) then n - refs v f else 0)) raw' (set_file v f (n, ty)).
Proof.
  intros C Hf H0 HN Hraw. pose proof (lookup_lt_is_Some_1 _ _ Hf) as Hlt. split; [apply C|apply C|apply C| | |].
  - intros g. rewrite refs_set by done. cbn [fst]. pose proof (ct_refs _ _ _ _ _ C g). destruct (decide (g = f)) as [->|]; lia.
  - intros g m Hg. cbn in Hg. destruct (decide (g = f)) as [->|Hne].
    + rewrite list_lookup_insert_eq in Hg by done. injection Hg as -> ->. auto.
    + rewrite list_lookup_insert_ne in Hg by done. destruct (ct_type _ _ _ _ _ C g m Hg) as [->|Hr]; [by left|].
      destruct (Hraw g Hr) as [->|]; [done|by right].
  - intros g ty' Hg. cbn in Hg. destruct (decide (g = f)) as [->|Hne].
    + rewrite list_lookup_insert_eq in Hg by done. injection Hg as -> ->. auto.
    + rewrite list_lookup_insert_ne in Hg by done. by apply (ct_free _ _ _ _ _ C g).
Qed.

(** Slot [i] becomes [p], of which [t] counts. *)
Lemma counted_proc ds x raw v i t0 t p :
  counted X ds x raw v -> ds !! i = Some t0 -> table_ok (X i) t p ->
  counted X (<[i := t]> ds) (fun f => x f + refs_to f t0 - refs_to f t) raw (set_proc v i p).
Proof.
  intros C Hi Ht. destruct (counted_slot _ _ _ _ _ _ C Hi) as (p0 & Hp0 & _).
  split; [cbn; by rewrite length_insert; apply C|by rewrite length_insert; apply C| | |apply C|apply C].
  { intros j l q Hj Hq. cbn in Hq. destruct (decide (j = i)) as [->|Hne].
    - rewrite list_lookup_insert_eq in Hj by (by apply lookup_lt_Some in Hi). rewrite list_lookup_insert_eq in Hq by (by apply lookup_lt_Some in Hp0).
      by simplify_eq.
    - rewrite list_lookup_insert_ne in Hj by done. rewrite list_lookup_insert_ne in Hq by done. by eapply ct_table. }
  intros f. rewrite (count_insert _ _ _ _ _ Hi). pose proof (ct_refs _ _ _ _ _ C f) as E. unfold refs in *. cbn. lia.
Qed.

Lemma counted_alloc ds x raw v f ty :
  counted X ds x raw v -> v_files v !! f = Some (0, ty) -> counted X ds (fun g => x g + one f g) (f :: raw) (set_file v f (1, FD_NONE)).
Proof.
  intros C Hf. eapply counted_ext; [apply (counted_file ds x raw v f 1 FD_NONE (f :: raw) C)|].
  - by rewrite Hf.
  - done.
  - intros _. right. apply list_elem_of_here.
  - intros g Hg. right. by apply list_elem_of_further.
  - intros g. unfold one, refs. rewrite Hf. cbn. by case_decide.
Qed.

Lemma counted_dup ds x raw v f n ty :
  counted X ds x raw v -> v_files v !! f = Some (n, ty) -> 1 <= n -> counted X ds (fun g => x g + one f g) raw (set_file v f (n + 1, ty)).
Proof.
  intros C Hf Hn. eapply counted_ext; [apply (counted_file ds x raw v f (n + 1) ty raw C)|].
  - by rewrite Hf.
  - lia.
  - intros ->. destruct (ct_type _ _ _ _ _ C f n Hf); [lia|by right].
  - by right.
  - intros g. unfold one, refs. rewrite Hf. case_decide; lia.
Qed.

(** The entry of a file after [fileclose]. *)
Definition closed (n : Z) (ty : fdtype) : Z * fdtype := if n =? 1 then (0, FD_NONE) else (n - 1, ty).

Lemma counted_close ds x raw v f n ty :
  counted X ds x raw v -> v_files v !! f = Some (n, ty) -> 1 <= n -> counted X ds (fun g => x g - one f g) raw (set_file v f (closed n ty)).
Proof.
  intros C Hf Hn. unfold closed. destruct (Z.eqb_spec n 1) as [->|Hne].
  - eapply counted_ext; [apply (counted_file ds x raw v f 0 FD_NONE raw C)|].
    + by rewrite Hf.
    + done.
    + by left.
    + by right.
    + intros g. unfold one, refs. rewrite Hf. case_decide; lia.
  - eapply counted_ext; [apply (counted_file ds x raw v f (n - 1) ty raw C)|].
    + by rewrite Hf.
    + lia.
    + intros ->. destruct (ct_type _ _ _ _ _ C f n Hf); [lia|by right].
    + by right.
    + intros g. unfold one, refs. rewrite Hf. case_decide; lia.
Qed.

Lemma counted_typed ds x raw v f n ty0 ty :
  counted X ds x (f :: raw) v -> v_files v !! f = Some (n, ty0) -> n <> 0 -> ty <> FD_NONE -> counted X ds x raw (set_file v f (n, ty)).
Proof.
  intros C Hf Hn Hty. eapply counted_ext; [apply (counted_file ds x (f :: raw) v f n ty raw C)|].
  - by rewrite Hf.
  - done.
  - done.
  - intros g [->|Hg]%elem_of_cons; auto.
  - intros g. unfold refs. rewrite Hf. case_decide; lia.
Qed.

(** Descriptor [fd] of process [i] becomes [o']. *)
Lemma counted_fd ds x raw v i l d fd o o' :
  counted X ds x raw v -> ds !! i = Some l -> v_procs v !! i = Some (l, d) -> l !! fd = Some o -> d = false \/ o' = None ->
  counted X (<[i := <[fd := o']> l]> ds)
    (fun f => x f + (if decide (o = Some f) then 1 else 0) - (if decide (o' = Some f) then 1 else 0)) raw (set_proc v i (<[fd := o']> l, d)).
Proof.
  intros C Hi Hp Hfd Hd. destruct (counted_slot _ _ _ _ _ _ C Hi) as (p & Hp' & H1 & _ & H3).
  replace p with (l, d) in * by congruence. eapply counted_ext; [eapply (counted_proc ds x raw v i l (<[fd := o']> l) (<[fd := o']> l, d) C Hi)|].
  - split; [cbn; by rewrite length_insert|]. split; [by left|]. cbn [fst snd]. intros ->. destruct Hd as [Hd|Hd]; [done|subst o']. cbn [fst snd] in *.
    destruct (H3 eq_refl) as [HX ->]. split; [done|]. apply insert_replicate.
  - intros f. cbn beta. rewrite (refs_to_insert f l fd o o' Hfd). lia.
Qed.

Lemma counted_raw ds x raw raw' v :
  counted X ds x raw v -> (forall f, f ∈ raw -> f ∈ raw' \/ refs v f = 0 \/ exists n ty, v_files v !! f = Some (n, ty) /\ ty <> FD_NONE) -> counted X ds x raw' v.
Proof.
  intros C H. split; try apply C. intros f n Hf. destruct (ct_type _ _ _ _ _ C f n Hf) as [|Hr]; [by left|].
  destruct (H f Hr) as [|[H0|(m & ty & Hm & Hty)]]; [by right| |congruence]. left. unfold refs in H0. by rewrite Hf in H0.
Qed.

End transitions.

(** ** The judgements *)

(** The panics that a wrong count or a missing type leads to. *)
Definition file_panics : list string := ["filedup"; "fileclose"; "fileread"; "filewrite"]%string.
Definition fine (msg : string) : Prop := bool_decide (msg ∈ file_panics) = false.

(** [nosw Q o]: it does not give up the CPU, if it returns [Q] holds, and it has none of these panics. *)
Definition nosw {A} (Q : A -> cpu -> kernel -> Prop) (o : outcome A) : Prop :=
  match o with
  | Done a c k => Q a c k
  | Panicked msg _ _ => fine msg
  | Switch _ _ _ => False
  | Stuck _ => True
  end.

(** Code that keeps the CPU, the process it runs and the view. *)
Definition still {A} (m : M A) : Prop :=
  forall c k, nosw (fun _ c' k' => cpu_proc c' = cpu_proc c /\ fview k' = fview k) (m c k).

(** The process [me] has the descriptors [l], of which [t] count; nothing is in progress. *)
Definition own (X : exiting) (me : nat) (t l : list (option nat)) (d : bool) (v : view) : Prop :=
  v_procs v !! me = Some (l, d) /\ exists ds, counted X ds none [] v /\ ds !! me = Some t.

(** [me] is exiting from now on, or no longer. *)
Definition leave (X : exiting) (me : nat) (b : bool) : exiting := fun j => if decide (j = me) then b else X j.

Lemma leave_me X me b : leave X me b me = b.
Proof. unfold leave. by rewrite decide_True. Qed.
Lemma leave_other X me b j : j <> me -> leave X me b j = X j.
Proof. intros Hj. unfold leave. by rewrite decide_False. Qed.

(** [me] may have become an exiting process, which it then stays until it is dead. *)
Definition leaves (X X1 : exiting) (me : nat) (d : bool) : Prop :=
  (forall j, j <> me -> X1 j = X j) /\ (d = false -> X me = true -> X1 me = true).

(** [sound X me Q o]: in every state in which process [me] gives up the CPU the invariant holds, with
    no other exiting process than those of [X] and possibly [me].  When it is resumed in any state in
    which it holds and the descriptors of [me] are as they were, whichever other processes are exiting
    then, this goes on; a dead process is not resumed.  [Q] is told who is exiting at the end. *)
Fixpoint sound {A} (X : exiting) (me : nat) (Q : exiting -> A -> cpu -> kernel -> Prop) (o : outcome A) : Prop :=
  match o with
  | Done a c k => Q X a c k
  | Panicked msg _ _ => fine msg
  | Switch c k resume =>
      cpu_proc c = Some me /\ exists X1 t l d, leaves X X1 me d /\ own X1 me t l d (fview k) /\
        forall X' c' k', X' me = X1 me -> cpu_proc c' = Some me -> d = false -> own X' me t l d (fview k') -> sound X' me Q (resume c' k')
  | Stuck _ => True
  end.

(** A result that comes without giving up the CPU. *)
Definition keep {A} (X : exiting) (Q : A -> cpu -> kernel -> Prop) (X' : exiting) (a : A) (c : cpu) (k : kernel) : Prop := X' = X /\ Q a c k.

(** The process is as it was, exiting or not, and has its descriptors. *)
Definition same {A} (X : exiting) (me : nat) (t l : list (option nat)) (X' : exiting) (_ : A) (c : cpu) (k : kernel) : Prop :=
  X' me = X me /\ cpu_proc c = Some me /\ own X' me t l false (fview k).

(** Code that may sleep and leaves the process its descriptors. *)
Definition steps {A} (m : M A) : Prop :=
  forall X me t l c k, cpu_proc c = Some me -> own X me t l false (fview k) -> sound X me (same X me t l) (m c k).

Lemma sound_mono {A} X me (Q Q' : exiting -> A -> cpu -> kernel -> Prop) o :
  sound X me Q o -> (forall X a c k, Q X a c k -> Q' X a c k) -> sound X me Q' o.
Proof.
  intros H HQ. revert X H. induction o as [a c k|msg c k|c k r IH|why]; intros X H; cbn in *; auto.
  destruct H as (Hc & X1 & t & l & d & HX & Ho & H). split; [done|]. exists X1, t, l, d. auto.
Qed.

Section rules.
Context {A B : Type}.
Implicit Types (c : cpu) (k : kernel) (o : outcome A).

Lemma nosw_mono (Q Q' : A -> cpu -> kernel -> Prop) o : nosw Q o -> (forall a c k, Q a c k -> Q' a c k) -> nosw Q' o.
Proof. destruct o; cbn; auto. Qed.

Lemma nosw_bind (Q : A -> cpu -> kernel -> Prop) Q' (m : M A) (f : A -> M B) c k :
  nosw Q (m c k) -> (forall a c k, Q a c k -> nosw Q' (f a c k)) -> nosw Q' (bind m f c k).
Proof. unfold bind. destruct (m c k); cbn; auto. Qed.

Lemma sound_bind X me (Q : exiting -> A -> cpu -> kernel -> Prop) Q' (m : M A) (f : A -> M B) c k :
  sound X me Q (m c k) -> (forall X a c k, Q X a c k -> sound X me Q' (f a c k)) -> sound X me Q' (bind m f c k).
Proof.
  unfold bind. intros H HQ. revert X H. induction (m c k) as [a c1 k1|msg c1 k1|c1 k1 r IH|why]; intros X H; cbn in *; auto.
  destruct H as (Hc & X1 & t & l & d & HX & Ho & H). split; [done|]. exists X1, t, l, d. auto.
Qed.

(** The same after code that does not give up the CPU. *)
Lemma sound_then X me (Q : A -> cpu -> kernel -> Prop) Q' (m : M A) (f : A -> M B) c k :
  sound X me (keep X Q) (m c k) -> (forall a c k, Q a c k -> sound X me Q' (f a c k)) -> sound X me Q' (bind m f c k).
Proof. intros H HQ. eapply sound_bind; [exact H|]. intros X' a c' k' [-> HQ']. auto. Qed.

Lemma sound_weaken X me (Q : A -> cpu -> kernel -> Prop) (Q' : exiting -> A -> cpu -> kernel -> Prop) o :
  sound X me (keep X Q) o -> (forall a c k, Q a c k -> Q' X a c k) -> sound X me Q' o.
Proof. intros H HQ. eapply sound_mono; [exact H|]. intros X' a c k [-> HQ']. auto. Qed.

Lemma nosw_sound X me (Q : exiting -> A -> cpu -> kernel -> Prop) o : nosw (Q X) o -> sound X me Q o.
Proof. destruct o; cbn; done. Qed.

(** What never returns may as well be on its way out from the start. *)
Lemma sound_leave X me (Q : exiting -> A -> cpu -> kernel -> Prop) o :
  sound (leave X me true) me (fun _ _ _ _ => False) o -> sound X me Q o.
Proof.
  destruct o as [a c k|msg c k|c k r|why]; cbn; [done..| |done]. intros (Hc & X1 & t & l & d & [HX1 HX2] & Ho & H). split; [done|].
  exists X1, t, l, d. split; [split; [|intros Hd _; apply HX2; [done|apply leave_me]]|split; [done|]].
  - intros j Hj. rewrite HX1 by done. by apply leave_other.
  - intros X' c' k' HX Hc' Hd Ho'. eapply sound_mono; [by apply H|]. done.
Qed.

Lemma still_steps (m : M A) : still m -> steps m.
Proof.
  intros H X me t l c k Hc Ho. apply nosw_sound. eapply nosw_mono; [apply H|]. intros a c' k' [E1 E2]. split; [done|]. by rewrite E1, E2.
Qed.

Lemma still_bind (m : M A) (f : A -> M B) : still m -> (forall a, still (f a)) -> still (bind m f).
Proof.
  intros Hm Hf c k. eapply nosw_bind; [apply Hm|]. intros a c' k' [E1 E2]. rewrite <- E1, <- E2. apply Hf.
Qed.

Lemma steps_bind (m : M A) (f : A -> M B) : steps m -> (forall a, steps (f a)) -> steps (bind m f).
Proof.
  intros Hm Hf X me t l c k Hc Ho. eapply sound_bind; [by apply Hm|]. intros X' a c' k' (EX & Hc' & Ho').
  eapply sound_mono; [by apply Hf|]. intros X2 b c2 k2 (EX2 & ? & ?). split; [congruence|done].
Qed.

Lemma still_ret (a : A) : still (ret a).
Proof. by repeat intro. Qed.
Lemma still_gets (f : kernel -> A) : still (gets f).
Proof. by repeat intro. Qed.
Lemma still_panic msg : fine msg -> still (panic msg : M A).
Proof. by repeat intro. Qed.
Lemma still_stuck why : still (stuck why : M A).
Proof. by repeat intro. Qed.
Lemma still_deref (o : option A) : still (deref o).
Proof. destruct o; by intros ??. Qed.

End rules.

Lemma still_modify f : (forall k, fview (f k) = fview k) -> still (modify f).
Proof. intros H c k. cbn. by rewrite H. Qed.
Lemma still_acquire lk : still (acquire lk).
Proof. intros c k. unfold acquire. by case_decide. Qed.
Lemma still_release lk : still (release lk).
Proof. intros c k. unfold release. by case_decide. Qed.
Lemma still_initlock lk : still (initlock lk).
Proof. intros c k. unfold initlock, ret. by cbn. Qed.
Lemma still_holding lk : still (holding lk).
Proof. by repeat intro. Qed.
Lemma still_mycpu : still mycpu.
Proof. by repeat intro. Qed.
Lemma still_myproc : still myproc.
Proof. by repeat intro. Qed.
Lemma still_curproc : still curproc.
Proof. apply still_bind; [apply still_myproc|apply still_deref]. Qed.
Lemma still_when b m : still m -> still (when b m).
Proof. by destruct b. Qed.
Lemma steps_when b m : steps m -> steps (when b m).
Proof. destruct b; [done|]. intros _. apply still_steps, still_ret. Qed.

Lemma list_fmap_alter_same {X Y} (g : X -> Y) h i (l : list X) : (forall x, l !! i = Some x -> g (h x) = g x) -> g <$> alter h i l = g <$> l.
Proof.
  intros H. apply list_eq. intros j. rewrite !list_lookup_fmap. destruct (decide (j = i)) as [->|Hne].
  - rewrite list_lookup_alter_eq. destruct (l !! i) as [x|] eqn:E; [|done]. cbn. by rewrite H.
  - by rewrite list_lookup_alter_ne.
Qed.

Lemma still_modproc i f : (forall p, proc_view (f p) = proc_view p) -> still (modproc i f).
Proof. intros H. apply still_modify. intros k. unfold fview. cbn. f_equal. apply list_fmap_alter_same. auto. Qed.
Lemma still_modfile i f : (forall x, file_view (f x) = file_view x) -> still (modfile i f).
Proof. intros H. apply still_modify. intros k. unfold fview. cbn. f_equal. apply list_fmap_alter_same. auto. Qed.
Lemma still_getproc i : still (getproc i).
Proof. apply still_bind; [apply still_gets|apply still_deref]. Qed.
Lemma still_getfile i : still (getfile i).
Proof. apply still_bind; [apply still_gets|apply still_deref]. Qed.
Lemma still_getbuf i : still (getbuf i).
Proof. apply still_bind; [apply still_gets|apply still_deref]. Qed.
Lemma still_getinode i : still (getinode i).
Proof. apply still_bind; [apply still_gets|apply still_deref]. Qed.

Create HintDb files.
#[export] Hint Resolve still_ret still_gets still_stuck still_deref still_acquire still_release still_initlock still_holding still_mycpu
  still_myproc still_curproc still_getproc still_getfile still_getbuf still_getinode : files.

(** Follows the control flow; calls are left to the database. *)
Ltac still_step :=
  match goal with
  | |- forall _, _ => intro
  | |- still (let _ := _ in _) => cbv zeta
  | |- still (bind _ _) => apply still_bind
  | |- still (modify _) => apply still_modify; reflexivity
  | |- still (modproc _ _) => apply still_modproc; reflexivity
  | |- still (modfile _ _) => apply still_modfile; reflexivity
  | |- still (panic _) => apply still_panic; reflexivity
  | |- still (when _ _) => apply still_when
  | |- still (match ?x with _ => _ end) => destruct x
  | |- still _ => solve [auto with files]
  end.
Ltac still := repeat still_step.

Ltac steps_step :=
  match goal with
  | |- forall _, _ => intro
  | |- steps (let _ := _ in _) => cbv zeta
  | |- steps (bind _ _) => apply steps_bind
  | |- steps (when _ _) => apply steps_when
  | |- steps (match ?x with _ => _ end) => destruct x
  | |- steps _ => solve [auto with files]
  | |- steps _ => apply still_steps; solve [still]
  end.
Ltac steps := repeat steps_step.
