(* ===== verification/FdStill.v ===== *)
(** * Code that keeps the CPU and leaves the open files alone

    Memory management, copies to and from user space, the locks, [wakeup], and the parts of the
    buffer cache, the log, the inodes, the pipes and the process table that never sleep. *)

From S2P Require Import Prelude Riscv CString Kernel Printf Kalloc Vm Args Sched Sleeplock Bio Log Fs Pipe Console File Proc Exec Sysfile FdView.
From stdpp Require Import base numbers strings gmap list.
From Stdlib Require Import ZArith Lia.

#[local] Open Scope Z_scope.
#[local] Open Scope kernel_scope.

#[local] Transparent walk mappages.

(** ** Output and memory *)

Lemma still_consputs cs : still (consputs cs).
Proof. induction cs as [|x cs IH]; cbn [consputs]; unfold consputc, uartputc_sync; still. Qed.
#[export] Hint Resolve still_consputs : files.

Lemma still_printf fmt ap : still (printf fmt ap).
Proof. unfold printf. still. Qed.
Lemma still_load64 a : still (load64 a).
Proof. apply still_gets. Qed.
Lemma still_loadp a : still (loadp a).
Proof. unfold loadp, load64. still. Qed.
Lemma still_store64 a v : still (store64 a v).
Proof. unfold store64. still. Qed.
Lemma still_kmemset a v n : still (kmemset a v n).
Proof. unfold kmemset. still. Qed.
Lemma still_kmemmove d s n : still (kmemmove d s n).
Proof. unfold kmemmove. still. Qed.
Lemma still_kwrbytes a bs : still (kwrbytes a bs).
Proof. unfold kwrbytes. still. Qed.
Lemma still_ref_get i : still (ref_get i).
Proof. unfold ref_get. still. Qed.
Lemma still_ref_set i v : still (ref_set i v).
Proof. unfold ref_set. still. Qed.
#[export] Hint Resolve still_printf still_load64 still_loadp still_store64 still_kmemset still_kmemmove still_kwrbytes still_ref_get still_ref_set : files.

Lemma still_kfree `{Linker} a : still (kfree a).
Proof. unfold kfree, kref_dec. still. Qed.
Lemma still_kalloc `{Linker} : still (kalloc).
Proof. unfold kalloc. still. Qed.
#[export] Hint Resolve still_kfree still_kalloc : files.

Lemma still_walk_loop `{Linker} n t va al : still (walk_loop n t va al).
Proof. revert t va al. induction n as [|n IH]; intros t va al; cbn [walk_loop]; still. Qed.
#[export] Hint Resolve still_walk_loop : files.

Lemma still_walk `{Linker} t va al : still (walk t va al).
Proof. unfold walk. still. Qed.
#[export] Hint Resolve still_walk : files.

Lemma still_walkaddr `{Linker} t va : still (walkaddr t va).
Proof. unfold walkaddr. still. Qed.
Lemma still_ismapped `{Linker} t va : still (ismapped t va).
Proof. unfold ismapped. still. Qed.
Lemma still_mappages_loop `{Linker} n t a e pa perm : still (mappages_loop n t a e pa perm).
Proof. revert t a e pa perm. induction n as [|n IH]; intros t a e pa perm; cbn [mappages_loop]; still. Qed.
#[export] Hint Resolve still_walkaddr still_ismapped still_mappages_loop : files.

Lemma still_mappages `{Linker} t va sz pa perm : still (mappages t va sz pa perm).
Proof. unfold mappages. still. Qed.
#[export] Hint Resolve still_mappages : files.

Lemma still_vmfault `{Linker} t va rd : still (vmfault t va rd).
Proof. unfold vmfault. still. Qed.
#[export] Hint Resolve still_vmfault : files.

Lemma still_copyout_loop `{Linker} n t va src len : still (copyout_loop n t va src len).
Proof. revert t va src len. induction n as [|n IH]; intros t va src len; cbn [copyout_loop]; still. Qed.
Lemma still_copyin_loop `{Linker} n t dst va len : still (copyin_loop n t dst va len).
Proof. revert t dst va len. induction n as [|n IH]; intros t dst va len; cbn [copyin_loop]; still. Qed.
Lemma still_copyinstr_loop `{Linker} n t dst va max : still (copyinstr_loop n t dst va max).
Proof. revert t dst va max. induction n as [|n IH]; intros t dst va max; cbn [copyinstr_loop]; still. Qed.
#[export] Hint Resolve still_copyout_loop still_copyin_loop still_copyinstr_loop : files.

Lemma still_copyout `{Linker} t va src len : still (copyout t va src len).
Proof. unfold copyout. still. Qed.
Lemma still_copyin `{Linker} t va len : still (copyin t va len).
Proof. unfold copyin. still. Qed.
Lemma still_copyinstr `{Linker} t va max : still (copyinstr t va max).
Proof. unfold copyinstr. still. Qed.
Lemma still_uvmunmap_page `{Linker} t a fr : still (uvmunmap_page t a fr).
Proof. unfold uvmunmap_page. still. Qed.
#[export] Hint Resolve still_copyout still_copyin still_copyinstr still_uvmunmap_page : files.

Lemma still_uvmunmap_loop `{Linker} n t a e fr : still (uvmunmap_loop n t a e fr).
Proof. revert t a e fr. induction n as [|n IH]; intros t a e fr; cbn [uvmunmap_loop]; still. Qed.
#[export] Hint Resolve still_uvmunmap_loop : files.

Lemma still_uvmunmap `{Linker} t va n fr : still (uvmunmap t va n fr).
Proof. unfold uvmunmap. still. Qed.
#[export] Hint Resolve still_uvmunmap : files.

Lemma still_uvmdealloc `{Linker} t a b : still (uvmdealloc t a b).
Proof. unfold uvmdealloc. still. Qed.
#[export] Hint Resolve still_uvmdealloc : files.

Lemma still_uvmalloc_loop `{Linker} n t a b e x : still (uvmalloc_loop n t a b e x).
Proof. revert t a b e x. induction n as [|n IH]; intros t a b e x; cbn [uvmalloc_loop]; still. Qed.
#[export] Hint Resolve still_uvmalloc_loop : files.

Lemma still_uvmalloc `{Linker} t a b x : still (uvmalloc t a b x).
Proof. unfold uvmalloc. still. Qed.
Lemma still_freewalk_loop fw n t i : (forall a, still (fw a)) -> still (freewalk_loop fw n t i).
Proof. intros Hfw. revert t i. induction n as [|n IH]; intros t i; cbn [freewalk_loop]; still. Qed.
#[export] Hint Resolve still_uvmalloc still_freewalk_loop : files.

Lemma still_freewalk `{Linker} n t : still (freewalk n t).
Proof. revert t. induction n as [|n IH]; intros t; cbn [freewalk]; still. Qed.
#[export] Hint Resolve still_freewalk : files.

Lemma still_uvmfree `{Linker} t sz : still (uvmfree t sz).
Proof. unfold uvmfree. still. Qed.
Lemma still_uvmcreate `{Linker} : still (uvmcreate).
Proof. unfold uvmcreate. still. Qed.
Lemma still_uvmcopy_loop `{Linker} n old new i sz : still (uvmcopy_loop n old new i sz).
Proof. revert old new i sz. induction n as [|n IH]; intros old new i sz; cbn [uvmcopy_loop]; still. Qed.
#[export] Hint Resolve still_uvmfree still_uvmcreate still_uvmcopy_loop : files.

Lemma still_uvmcopy `{Linker} old new sz : still (uvmcopy old new sz).
Proof. unfold uvmcopy. still. Qed.
Lemma still_uvmclear `{Linker} t va : still (uvmclear t va).
Proof. unfold uvmclear. still. Qed.
#[export] Hint Resolve still_uvmcopy still_uvmclear : files.

(** ** Arguments *)

Lemma still_tf_get i r : still (tf_get i r).
Proof. unfold tf_get. still. Qed.
Lemma still_tf_set i r v : still (tf_set i r v).
Proof. unfold tf_set. still. Qed.
#[export] Hint Resolve still_tf_get still_tf_set : files.

Lemma still_either_copyout `{Linker} dst src len : still (either_copyout dst src len).
Proof. unfold either_copyout. still. Qed.
Lemma still_either_copyin `{Linker} src len : still (either_copyin src len).
Proof. unfold either_copyin. still. Qed.
Lemma still_fetchaddr `{Linker} a : still (fetchaddr a).
Proof. unfold fetchaddr. still. Qed.
Lemma still_fetchstr `{Linker} a max : still (fetchstr a max).
Proof. unfold fetchstr. still. Qed.
Lemma still_argraw n : still (argraw n).
Proof. unfold argraw. still. Qed.
#[export] Hint Resolve still_either_copyout still_either_copyin still_fetchaddr still_fetchstr still_argraw : files.

Lemma still_argint n : still (argint n).
Proof. unfold argint. still. Qed.
Lemma still_argaddr n : still (argaddr n).
Proof. unfold argaddr. still. Qed.
#[export] Hint Resolve still_argint still_argaddr : files.

Lemma still_argstr `{Linker} n max : still (argstr n max).
Proof. unfold argstr. still. Qed.
#[export] Hint Resolve still_argstr : files.

Lemma still_argpath `{Linker} n : still (argpath n).
Proof. unfold argpath. still. Qed.
#[export] Hint Resolve still_argpath : files.
(** ** Waking up and killing *)

(** Only a live process is made runnable or put to sleep: no slot comes to life. *)
Lemma fview_state i p s k :
  procs k !! i = Some p -> dead p = false -> s <> UNUSED -> s <> ZOMBIE ->
  fview (k <| procs ::= alter (fun p => p <| p_state := s |>) i |>) = fview k.
Proof.
  intros Hp Hd H1 H2. unfold fview. cbn. f_equal. apply list_fmap_alter_same. intros x Hx. replace x with p by congruence.
  unfold proc_view. rewrite Hd. unfold dead. cbn. by rewrite bool_decide_eq_false_2 by tauto.
Qed.

Lemma sleeping_alive p : p_state p = SLEEPING -> dead p = false.
Proof. intros E. unfold dead. by rewrite E. Qed.

Lemma nosw_getproc i c k : nosw (fun p c' k' => c' = c /\ k' = k /\ procs k !! i = Some p) (getproc i c k).
Proof. unfold getproc, gets, bind, deref. cbn. by destruct (procs k !! i). Qed.

(** The part of [wakeup] and [kkill] that makes process [i] runnable if it sleeps. *)
Lemma nosw_rouse i p b c k :
  procs k !! i = Some p -> (b = true -> p_state p = SLEEPING) ->
  nosw (fun _ c' k' => cpu_proc c' = cpu_proc c /\ fview k' = fview k) (when b (modproc i (fun p => p <| p_state := RUNNABLE |>)) c k).
Proof.
  intros Hp Hb. destruct b; [|done]. cbn. split; [done|]. eapply fview_state; [done|by apply sleeping_alive, Hb|done|done].
Qed.

Lemma nosw_still {A B} (m : M A) (f : A -> M B) c k :
  nosw (fun a c' k' => cpu_proc c' = cpu_proc c /\ fview k' = fview k) (m c k) -> (forall a, still (f a)) ->
  nosw (fun _ c' k' => cpu_proc c' = cpu_proc c /\ fview k' = fview k) (bind m f c k).
Proof. intros Hm Hf. eapply nosw_bind; [exact Hm|]. intros a c' k' [E1 E2]. rewrite <- E1, <- E2. apply Hf. Qed.

Lemma still_wakeup_loop n i ch : still (wakeup_loop n i ch).
Proof. revert i. induction n as [|n IH]; intros i; cbn [wakeup_loop]; [still|]. apply still_bind; [still|]. intros me.
  apply still_bind; [|still]. destruct (decide _); [still|]. apply still_bind; [still|]. intros _ c k.
  eapply nosw_bind; [apply nosw_getproc|]. intros p c' k' (-> & -> & Hp). apply nosw_still; [|still].
  eapply nosw_rouse; [done|]. by intros [H%bool_decide_eq_true _]%andb_true_iff. Qed.
#[export] Hint Resolve still_wakeup_loop : files.

Lemma still_wakeup ch : still (wakeup ch).
Proof. unfold wakeup. still. Qed.
Lemma still_killed i : still (killed i).
Proof. unfold killed. still. Qed.
Lemma still_setkilled i : still (setkilled i).
Proof. unfold setkilled. still. Qed.
#[export] Hint Resolve still_wakeup still_killed still_setkilled : files.

Lemma still_kkill_loop n i pid : still (kkill_loop n i pid).
Proof.
  revert i. induction n as [|n IH]; intros i; cbn [kkill_loop]; [still|]. apply still_bind; [still|]. intros _ c k.
  eapply nosw_bind; [apply nosw_getproc|]. intros p c' k' (-> & -> & Hp).
  destruct (_ =? _); [|apply (still_bind (release (LProc i)) (fun _ => kkill_loop n (S i) pid)); still].
  set (k1 := k <| procs ::= alter (fun p => p <| p_killed := 1 |>) i |>).
  assert (E : fview k1 = fview k) by (unfold fview; cbn; f_equal; by apply list_fmap_alter_same). rewrite <- E.
  apply (nosw_still (when (bool_decide (p_state p = SLEEPING)) (modproc i (fun p => p <| p_state := RUNNABLE |>)))); [|still].
  apply (nosw_rouse i (p <| p_killed := 1 |>)); [unfold k1; cbn; by rewrite list_lookup_alter_eq, Hp|]. by intros H%bool_decide_eq_true.
Qed.
#[export] Hint Resolve still_kkill_loop : files.

Lemma still_kkill pid : still (kkill pid).
Proof. unfold kkill. still. Qed.
#[export] Hint Resolve still_kkill : files.

(** ** Sleeplocks and buffers *)

Lemma still_getsl s : still (getsl s).
Proof. unfold getsl. still. Qed.
Lemma still_modsl s f : still (modsl s f).
Proof. unfold modsl, modbuf, modinode. still. Qed.
#[export] Hint Resolve still_getsl still_modsl : files.

Lemma still_releasesleep s : still (releasesleep s).
Proof. unfold releasesleep. still. Qed.
Lemma still_holdingsleep s : still (holdingsleep s).
Proof. unfold holdingsleep. still. Qed.
#[export] Hint Resolve still_releasesleep still_holdingsleep : files.

Lemma still_modbuf b f : still (modbuf b f).
Proof. unfold modbuf. still. Qed.
Lemma still_modinode b f : still (modinode b f).
Proof. unfold modinode. still. Qed.
#[export] Hint Resolve still_modbuf still_modinode : files.

Lemma still_get_next i : still (get_next i).
Proof. unfold get_next. still. Qed.
Lemma still_get_prev i : still (get_prev i).
Proof. unfold get_prev. still. Qed.
Lemma still_set_next i j : still (set_next i j).
Proof. unfold set_next. still. Qed.
Lemma still_set_prev i j : still (set_prev i j).
Proof. unfold set_prev. still. Qed.
#[export] Hint Resolve still_get_next still_get_prev still_set_next still_set_prev : files.

Lemma still_bget_find n b dev blockno : still (bget_find n b dev blockno).
Proof. revert b dev blockno. induction n as [|n IH]; intros b dev blockno; cbn [bget_find]; still. Qed.
Lemma still_bget_recycle n b : still (bget_recycle n b).
Proof. revert b. induction n as [|n IH]; intros b; cbn [bget_recycle]; still. Qed.
Lemma still_to_front b : still (to_front b).
Proof. unfold to_front. still. Qed.
#[export] Hint Resolve still_bget_find still_bget_recycle still_to_front : files.

Lemma still_brelse b : still (brelse b).
Proof. unfold brelse. still. Qed.
Lemma still_bpin b : still (bpin b).
Proof. unfold bpin. still. Qed.
Lemma still_bunpin b : still (bunpin b).
Proof. unfold bunpin. still. Qed.
#[export] Hint Resolve still_brelse still_bpin still_bunpin : files.

(** ** The log, inodes and pipes *)

Lemma still_modlog f : still (modlog f).
Proof. unfold modlog. still. Qed.
Lemma still_bdata b : still (bdata b).
Proof. unfold bdata. still. Qed.
Lemma still_moddata b f : still (moddata b f).
Proof. unfold moddata. still. Qed.
Lemma still_get_block i : still (get_block i).
Proof. unfold get_block. still. Qed.
#[export] Hint Resolve still_modlog still_bdata still_moddata still_get_block : files.

Lemma still_set_block i v : still (set_block i v).
Proof. unfold set_block. still. Qed.
Lemma still_absorb_loop n i b : still (absorb_loop n i b).
Proof. revert i b. induction n as [|n IH]; intros i b; cbn [absorb_loop]; still. Qed.
#[export] Hint Resolve still_set_block still_absorb_loop : files.

Lemma still_log_write b : still (log_write b).
Proof. unfold log_write. still. Qed.
#[export] Hint Resolve still_log_write : files.

Lemma still_get_addr ip n : still (get_addr ip n).
Proof. unfold get_addr. still. Qed.
Lemma still_set_addr ip n v : still (set_addr ip n v).
Proof. unfold set_addr. still. Qed.
Lemma still_iget_loop n ip dev inum e : still (iget_loop n ip dev inum e).
Proof. revert ip dev inum e. induction n as [|n IH]; intros ip dev inum e; cbn [iget_loop]; still. Qed.
#[export] Hint Resolve still_get_addr still_set_addr still_iget_loop : files.

Lemma still_iget dev inum : still (iget dev inum).
Proof. unfold iget. still. Qed.
Lemma still_idup ip : still (idup ip).
Proof. unfold idup. still. Qed.
Lemma still_iunlock o : still (iunlock o).
Proof. unfold iunlock. still. Qed.
Lemma still_stati ip st : still (stati ip st).
Proof. unfold stati. still. Qed.
#[export] Hint Resolve still_iget still_idup still_iunlock still_stati : files.

Lemma still_getpipe pi : still (getpipe pi).
Proof. unfold getpipe. still. Qed.
Lemma still_modpipe pi f : still (modpipe pi f).
Proof. unfold modpipe. still. Qed.
Lemma still_free_pipe `{Linker} pi : still (free_pipe pi).
Proof. unfold free_pipe. still. Qed.
#[export] Hint Resolve still_getpipe still_modpipe still_free_pipe : files.

Lemma still_pipeclose `{Linker} pi w : still (pipeclose pi w).
Proof. unfold pipeclose. still. Qed.
Lemma still_piperead_loop `{Linker} n pi addr i : still (piperead_loop n pi addr i).
Proof. revert pi addr i. induction n as [|n IH]; intros pi addr i; cbn [piperead_loop]; still. Qed.
Lemma still_modcons f : still (modcons f).
Proof. unfold modcons. still. Qed.
#[export] Hint Resolve still_pipeclose still_piperead_loop still_modcons : files.

(** ** Processes *)

Lemma still_allocpid  : still (allocpid).
Proof. unfold allocpid. still. Qed.
Lemma still_proc_pagetable `{Linker} tf : still (proc_pagetable tf).
Proof. unfold proc_pagetable. still. Qed.
Lemma still_proc_freepagetable `{Linker} t sz : still (proc_freepagetable t sz).
Proof. unfold proc_freepagetable. still. Qed.
#[export] Hint Resolve still_allocpid still_proc_pagetable still_proc_freepagetable : files.

Lemma still_growproc `{Linker} n : still (growproc n).
Proof. unfold growproc. still. Qed.
Lemma still_reparent_loop n i p : still (reparent_loop n i p).
Proof. revert i p. induction n as [|n IH]; intros i p; cbn [reparent_loop]; still. Qed.
#[export] Hint Resolve still_growproc still_reparent_loop : files.

Lemma still_reparent p : still (reparent p).
Proof. unfold reparent. still. Qed.
#[export] Hint Resolve still_reparent : files.

Lemma still_kexec_args `{Linker} argv t sb sp us : still (kexec_args argv t sb sp us).
Proof. revert sp us. induction argv as [|s argv IH]; intros sp us; cbn [kexec_args]; still. Qed.
Lemma still_kexec_commit `{Linker} path elf t sz osz sp argc : still (kexec_commit path elf t sz osz sp argc).
Proof. unfold kexec_commit. still. Qed.
Lemma still_free_args `{Linker} argv : still (free_args argv).
Proof. induction argv as [|a argv IH]; cbn [free_args]; still. Qed.
Lemma still_fetch_args `{Linker} n ua i pages args : still (fetch_args n ua i pages args).
Proof. revert ua i pages args. induction n as [|n IH]; intros ua i pages args; cbn [fetch_args]; still. Qed.
#[export] Hint Resolve still_kexec_args still_kexec_commit still_free_args still_fetch_args : files.
