(* ===== verification/FdSteps.v ===== *)
(** * Code that may sleep and leaves the process its descriptors

    [sleep], and everything above it that opens and closes no files: sleeplocks, the buffer cache,
    the log, the file system, pipes, the console, [exec] and [wait]. *)

From S2P Require Import Prelude Riscv CString Kernel Printf Kalloc Vm Args Sched Sleeplock Bio Log Fs Pipe Console File Proc Exec Sysfile FdView FdStill.
From stdpp Require Import base numbers strings gmap list.
From Stdlib Require Import ZArith Lia.

#[local] Open Scope Z_scope.
#[local] Open Scope kernel_scope.

(** What the callers of the disk driver rely on, besides [virtio_disk_rw_ok]. *)
Class DeviceSteps `{BlockDevice} := device_steps : forall b write, steps (virtio_disk_rw b write).
#[export] Hint Resolve device_steps : files.

(** ** Sleeping *)

Lemma own_proc X me t l d k : own X me t l d (fview k) -> exists p, procs k !! me = Some p /\ p_ofile p = l /\ dead p = d.
Proof.
  intros [H _]. cbn in H. rewrite list_lookup_fmap in H. destruct (procs k !! me) as [p|]; [|done]. cbn in H. injection H as <- <-. by exists p.
Qed.

Lemma nosw_curproc me c k : cpu_proc c = Some me -> nosw (fun i c' k' => i = me /\ c' = c /\ k' = k) (curproc c k).
Proof. intros Hc. unfold curproc, myproc, mycpu, bind, deref. cbn. by rewrite Hc. Qed.

Lemma steps_curproc {A} (f : nat -> M A) :
  (forall X me t l c k, cpu_proc c = Some me -> own X me t l false (fview k) -> sound X me (same X me t l) (f me c k)) ->
  steps (i <- curproc ;; f i).
Proof.
  intros Hf X me t l c k Hc Ho. eapply (sound_then X me (fun i c' k' => i = me /\ c' = c /\ k' = k)).
  - apply nosw_sound. eapply nosw_mono; [by apply nosw_curproc|]. by intros.
  - intros i c' k' (-> & -> & ->). by apply Hf.
Qed.

Lemma sound_still {A B} X me t l (m : M A) (f : A -> M B) c k Q :
  still m -> cpu_proc c = Some me -> own X me t l false (fview k) ->
  (forall a c' k', cpu_proc c' = Some me -> own X me t l false (fview k') -> sound X me Q (f a c' k')) -> sound X me Q (bind m f c k).
Proof.
  intros Hm Hc Ho Hf. eapply (sound_then X me); [apply nosw_sound; eapply nosw_mono; [apply Hm|]; intros a c' k' H; split; [done|exact H]|].
  intros a c' k' [E1 E2]. apply Hf; [by rewrite E1|by rewrite E2].
Qed.

Lemma steps_swtch : steps swtch.
Proof.
  intros X me t l c k Hc Ho. cbn. split; [done|]. exists X, t, l, false. split; [by split|]. split; [done|]. intros X' c' k' HX Hc' _ Ho'. by split.
Qed.
#[export] Hint Resolve steps_swtch : files.

Lemma steps_sched : steps sched.
Proof. unfold sched. steps. Qed.
#[export] Hint Resolve steps_sched : files.

(** The running process is alive, so it may change its own state to another live one. *)
Lemma own_state X me t l s k :
  own X me t l false (fview k) -> s <> UNUSED -> s <> ZOMBIE ->
  own X me t l false (fview (k <| procs ::= alter (fun p => p <| p_state := s |>) me |>)).
Proof.
  intros Ho H1 H2. destruct (own_proc _ _ _ _ _ _ Ho) as (p & Hp & _ & Hd). by rewrite (fview_state me p).
Qed.

Lemma steps_sleep ch lk : steps (sleep ch lk).
Proof.
  unfold sleep. apply steps_curproc. intros X me t l c k Hc Ho. do 3 (eapply sound_still; [still|done|done|clear dependent c; clear dependent k; intros _ c k Hc Ho]).
  assert (S : steps (sched ;; modproc me (fun p => p <| p_chan := CNull |>) ;; release (LProc me) ;; acquire lk)) by steps.
  apply S; [done|]. by apply own_state.
Qed.
#[export] Hint Resolve steps_sleep : files.

(** ** Sleeplocks, buffers and the log *)

Lemma steps_acquiresleep_loop n s : steps (acquiresleep_loop n s).
Proof. revert s. induction n as [|n IH]; intros s; cbn [acquiresleep_loop]; steps. Qed.
#[export] Hint Resolve steps_acquiresleep_loop : files.

Lemma steps_acquiresleep `{Fuel} s : steps (acquiresleep s).
Proof. unfold acquiresleep. steps. Qed.
#[export] Hint Resolve steps_acquiresleep : files.

Lemma steps_bget `{Fuel} dev blockno : steps (bget dev blockno).
Proof. unfold bget. steps. Qed.
#[export] Hint Resolve steps_bget : files.

Lemma steps_bread `{Fuel} `{DeviceSteps} dev blockno : steps (bread dev blockno).
Proof. unfold bread. steps. Qed.
Lemma steps_bwrite `{DeviceSteps} b : steps (bwrite b).
Proof. unfold bwrite. steps. Qed.
#[export] Hint Resolve steps_bread steps_bwrite : files.

Lemma steps_install_trans_loop `{Fuel} `{DeviceSteps} n tail r : steps (install_trans_loop n tail r).
Proof. revert tail r. induction n as [|n IH]; intros tail r; cbn [install_trans_loop]; steps. Qed.
#[export] Hint Resolve steps_install_trans_loop : files.

Lemma steps_install_trans `{Fuel} `{DeviceSteps} r : steps (install_trans r).
Proof. unfold install_trans. steps. Qed.
#[export] Hint Resolve steps_install_trans : files.

Lemma steps_write_head_loop n i b : steps (write_head_loop n i b).
Proof. revert i b. induction n as [|n IH]; intros i b; cbn [write_head_loop]; steps. Qed.
#[export] Hint Resolve steps_write_head_loop : files.

Lemma steps_write_head `{Fuel} `{DeviceSteps} : steps (write_head).
Proof. unfold write_head. steps. Qed.
#[export] Hint Resolve steps_write_head : files.

Lemma steps_begin_op_loop n : steps (begin_op_loop n).
Proof. induction n as [|n IH]; cbn [begin_op_loop]; steps. Qed.
#[export] Hint Resolve steps_begin_op_loop : files.

Lemma steps_begin_op `{Fuel} : steps (begin_op).
Proof. unfold begin_op. steps. Qed.
#[export] Hint Resolve steps_begin_op : files.

Lemma steps_write_log_loop `{Fuel} `{DeviceSteps} n tail : steps (write_log_loop n tail).
Proof. revert tail. induction n as [|n IH]; intros tail; cbn [write_log_loop]; steps. Qed.
#[export] Hint Resolve steps_write_log_loop : files.

Lemma steps_write_log `{Fuel} `{DeviceSteps} : steps (write_log).
Proof. unfold write_log. steps. Qed.
#[export] Hint Resolve steps_write_log : files.

Lemma steps_commit `{Fuel} `{DeviceSteps} : steps (commit).
Proof. unfold commit. steps. Qed.
#[export] Hint Resolve steps_commit : files.

Lemma steps_end_op `{Fuel} `{DeviceSteps} : steps (end_op).
Proof. unfold end_op. steps. Qed.
#[export] Hint Resolve steps_end_op : files.

(** ** Blocks, inodes and directories *)

Lemma steps_bzero `{Fuel} `{DeviceSteps} dev b : steps (bzero dev b).
Proof. unfold bzero. steps. Qed.
#[export] Hint Resolve steps_bzero : files.

Lemma steps_balloc_loop `{Fuel} `{DeviceSteps} n dev b : steps (balloc_loop n dev b).
Proof. revert dev b. induction n as [|n IH]; intros dev b; cbn [balloc_loop]; steps. Qed.
#[export] Hint Resolve steps_balloc_loop : files.

Lemma steps_balloc `{Fuel} `{DeviceSteps} dev : steps (balloc dev).
Proof. unfold balloc. steps. Qed.
Lemma steps_bfree `{Fuel} `{DeviceSteps} dev b : steps (bfree dev b).
Proof. unfold bfree. steps. Qed.
#[export] Hint Resolve steps_balloc steps_bfree : files.

Lemma steps_ialloc_loop `{Fuel} `{DeviceSteps} n dev ty i : steps (ialloc_loop n dev ty i).
Proof. revert dev ty i. induction n as [|n IH]; intros dev ty i; cbn [ialloc_loop]; steps. Qed.
#[export] Hint Resolve steps_ialloc_loop : files.

Lemma steps_ialloc `{Fuel} `{DeviceSteps} dev ty : steps (ialloc dev ty).
Proof. unfold ialloc. steps. Qed.
Lemma steps_iupdate `{Fuel} `{DeviceSteps} ip : steps (iupdate ip).
Proof. unfold iupdate. steps. Qed.
Lemma steps_ilock `{Fuel} `{DeviceSteps} o : steps (ilock o).
Proof. unfold ilock. steps. Qed.
#[export] Hint Resolve steps_ialloc steps_iupdate steps_ilock : files.

Lemma steps_bmap `{Fuel} `{DeviceSteps} ip bn : steps (bmap ip bn).
Proof. unfold bmap. steps. Qed.
#[export] Hint Resolve steps_bmap : files.

Lemma steps_itrunc_direct `{Fuel} `{DeviceSteps} n ip i : steps (itrunc_direct n ip i).
Proof. revert ip i. induction n as [|n IH]; intros ip i; cbn [itrunc_direct]; steps. Qed.
Lemma steps_itrunc_indirect `{Fuel} `{DeviceSteps} n ip bp j : steps (itrunc_indirect n ip bp j).
Proof. revert ip bp j. induction n as [|n IH]; intros ip bp j; cbn [itrunc_indirect]; steps. Qed.
#[export] Hint Resolve steps_itrunc_direct steps_itrunc_indirect : files.

Lemma steps_itrunc `{Fuel} `{DeviceSteps} ip : steps (itrunc ip).
Proof. unfold itrunc. steps. Qed.
#[export] Hint Resolve steps_itrunc : files.

Lemma steps_iput `{Fuel} `{DeviceSteps} ip : steps (iput ip).
Proof. unfold iput. steps. Qed.
#[export] Hint Resolve steps_iput : files.

Lemma steps_iunlockput `{Fuel} `{DeviceSteps} ip : steps (iunlockput ip).
Proof. unfold iunlockput. steps. Qed.
#[export] Hint Resolve steps_iunlockput : files.

Lemma steps_readi_loop `{Linker} `{Fuel} `{DeviceSteps} n ip dst off tot m got : steps (readi_loop n ip dst off tot m got).
Proof. revert ip dst off tot m got. induction n as [|n IH]; intros ip dst off tot m got; cbn [readi_loop]; steps. Qed.
#[export] Hint Resolve steps_readi_loop : files.

Lemma steps_readi `{Linker} `{Fuel} `{DeviceSteps} ip dst off n : steps (readi ip dst off n).
Proof. unfold readi. steps. Qed.
#[export] Hint Resolve steps_readi : files.

Lemma steps_writei_loop `{Linker} `{Fuel} `{DeviceSteps} n ip src off tot m : steps (writei_loop n ip src off tot m).
Proof. revert ip src off tot m. induction n as [|n IH]; intros ip src off tot m; cbn [writei_loop]; steps. Qed.
#[export] Hint Resolve steps_writei_loop : files.

Lemma steps_writei `{Linker} `{Fuel} `{DeviceSteps} ip src off n : steps (writei ip src off n).
Proof. unfold writei. steps. Qed.
#[export] Hint Resolve steps_writei : files.

Lemma steps_dirlookup_loop `{Linker} `{Fuel} `{DeviceSteps} n dp name off : steps (dirlookup_loop n dp name off).
Proof. revert dp name off. induction n as [|n IH]; intros dp name off; cbn [dirlookup_loop]; steps. Qed.
#[export] Hint Resolve steps_dirlookup_loop : files.

Lemma steps_dirlookup `{Linker} `{Fuel} `{DeviceSteps} dp name : steps (dirlookup dp name).
Proof. unfold dirlookup. steps. Qed.
#[export] Hint Resolve steps_dirlookup : files.

Lemma steps_dirlink_loop `{Linker} `{Fuel} `{DeviceSteps} n dp off : steps (dirlink_loop n dp off).
Proof. revert dp off. induction n as [|n IH]; intros dp off; cbn [dirlink_loop]; steps. Qed.
#[export] Hint Resolve steps_dirlink_loop : files.

Lemma steps_dirlink `{Linker} `{Fuel} `{DeviceSteps} dp name inum : steps (dirlink dp name inum).
Proof. unfold dirlink. steps. Qed.
#[export] Hint Resolve steps_dirlink : files.

Lemma steps_namex_loop `{Linker} `{Fuel} `{DeviceSteps} n ip path name p : steps (namex_loop n ip path name p).
Proof. revert ip path name p. induction n as [|n IH]; intros ip path name p; cbn [namex_loop]; steps. Qed.
#[export] Hint Resolve steps_namex_loop : files.

Lemma steps_namex `{Linker} `{Fuel} `{DeviceSteps} path p name : steps (namex path p name).
Proof. unfold namex. steps. Qed.
#[export] Hint Resolve steps_namex : files.

Lemma steps_namei `{Linker} `{Fuel} `{DeviceSteps} path : steps (namei path).
Proof. unfold namei. steps. Qed.
Lemma steps_nameiparent `{Linker} `{Fuel} `{DeviceSteps} path : steps (nameiparent path).
Proof. unfold nameiparent. steps. Qed.
#[export] Hint Resolve steps_namei steps_nameiparent : files.

(** ** Pipes and the console *)

Lemma steps_pipewrite_loop `{Linker}  n pi addr m i : steps (pipewrite_loop n pi addr m i).
Proof. revert pi addr m i. induction n as [|n IH]; intros pi addr m i; cbn [pipewrite_loop]; steps. Qed.
#[export] Hint Resolve steps_pipewrite_loop : files.

Lemma steps_pipewrite `{Linker} `{Fuel} pi addr n : steps (pipewrite pi addr n).
Proof. unfold pipewrite. steps. Qed.
#[export] Hint Resolve steps_pipewrite : files.

Lemma steps_piperead_wait n pi : steps (piperead_wait n pi).
Proof. revert pi. induction n as [|n IH]; intros pi; cbn [piperead_wait]; steps. Qed.
#[export] Hint Resolve steps_piperead_wait : files.

Lemma steps_piperead `{Linker} `{Fuel} pi addr n : steps (piperead pi addr n).
Proof. unfold piperead. steps. Qed.
#[export] Hint Resolve steps_piperead : files.

Lemma steps_uart_wait n : steps (uart_wait n).
Proof. induction n as [|n IH]; cbn [uart_wait]; steps. Qed.
#[export] Hint Resolve steps_uart_wait : files.

Lemma steps_uartwrite_loop `{Fuel} buf : steps (uartwrite_loop buf).
Proof. induction buf as [|c buf IH]; cbn [uartwrite_loop]; steps. Qed.
#[export] Hint Resolve steps_uartwrite_loop : files.

Lemma steps_uartwrite `{Fuel} buf : steps (uartwrite buf).
Proof. unfold uartwrite. steps. Qed.
#[export] Hint Resolve steps_uartwrite : files.

Lemma steps_consolewrite_loop `{Linker} `{Fuel} n src m i : steps (consolewrite_loop n src m i).
Proof. revert src m i. induction n as [|n IH]; intros src m i; cbn [consolewrite_loop]; steps. Qed.
#[export] Hint Resolve steps_consolewrite_loop : files.

Lemma steps_consolewrite `{Linker} `{Fuel} src n : steps (consolewrite src n).
Proof. unfold consolewrite. steps. Qed.
#[export] Hint Resolve steps_consolewrite : files.

Lemma steps_cons_wait n : steps (cons_wait n).
Proof. induction n as [|n IH]; cbn [cons_wait]; steps. Qed.
#[export] Hint Resolve steps_cons_wait : files.

Lemma steps_consoleread_loop `{Linker} `{Fuel} n dst m target : steps (consoleread_loop n dst m target).
Proof. revert dst m target. induction n as [|n IH]; intros dst m target; cbn [consoleread_loop]; steps. Qed.
#[export] Hint Resolve steps_consoleread_loop : files.

Lemma steps_consoleread `{Linker} `{Fuel} dst n : steps (consoleread dst n).
Proof. unfold consoleread. steps. Qed.
#[export] Hint Resolve steps_consoleread : files.

(** ** [exec] and the calls on paths *)

Lemma steps_loadseg_loop `{Linker} `{Fuel} `{DeviceSteps} n t va ip off sz i : steps (loadseg_loop n t va ip off sz i).
Proof. revert t va ip off sz i. induction n as [|n IH]; intros t va ip off sz i; cbn [loadseg_loop]; steps. Qed.
#[export] Hint Resolve steps_loadseg_loop : files.

Lemma steps_loadseg `{Linker} `{Fuel} `{DeviceSteps} t va ip off sz : steps (loadseg t va ip off sz).
Proof. unfold loadseg. steps. Qed.
#[export] Hint Resolve steps_loadseg : files.

Lemma steps_kexec_load `{Linker} `{Fuel} `{DeviceSteps} n ip t off sz : steps (kexec_load n ip t off sz).
Proof. revert ip t off sz. induction n as [|n IH]; intros ip t off sz; cbn [kexec_load]; steps. Qed.
Lemma steps_kexec_bad `{Linker} `{Fuel} `{DeviceSteps} t sz ip : steps (kexec_bad t sz ip).
Proof. unfold kexec_bad. steps. Qed.
#[export] Hint Resolve steps_kexec_load steps_kexec_bad : files.

Lemma steps_kexec_push `{Linker} `{Fuel} `{DeviceSteps} path argv elf t sz osz sb : steps (kexec_push path argv elf t sz osz sb).
Proof. unfold kexec_push. steps. Qed.
#[export] Hint Resolve steps_kexec_push : files.

Lemma steps_kexec_stack `{Linker} `{Fuel} `{DeviceSteps} path argv elf t sz : steps (kexec_stack path argv elf t sz).
Proof. unfold kexec_stack. steps. Qed.
#[export] Hint Resolve steps_kexec_stack : files.

Lemma steps_kexec `{Linker} `{Fuel} `{DeviceSteps} path argv : steps (kexec path argv).
Proof. unfold kexec. steps. Qed.
#[export] Hint Resolve steps_kexec : files.

Lemma steps_sys_exec `{Linker} `{Fuel} `{DeviceSteps} : steps (sys_exec).
Proof. unfold sys_exec. steps. Qed.
Lemma steps_sys_link_bad `{Linker} `{Fuel} `{DeviceSteps} ip : steps (sys_link_bad ip).
Proof. unfold sys_link_bad. steps. Qed.
#[export] Hint Resolve steps_sys_link_bad : files.

Lemma steps_sys_link `{Linker} `{Fuel} `{DeviceSteps} : steps (sys_link).
Proof. unfold sys_link. steps. Qed.
Lemma steps_isdirempty_loop `{Linker} `{Fuel} `{DeviceSteps} n dp off : steps (isdirempty_loop n dp off).
Proof. revert dp off. induction n as [|n IH]; intros dp off; cbn [isdirempty_loop]; steps. Qed.
#[export] Hint Resolve steps_isdirempty_loop : files.

Lemma steps_isdirempty `{Linker} `{Fuel} `{DeviceSteps} dp : steps (isdirempty dp).
Proof. unfold isdirempty. steps. Qed.
Lemma steps_sys_unlink_bad `{Linker} `{Fuel} `{DeviceSteps} dp : steps (sys_unlink_bad dp).
Proof. unfold sys_unlink_bad. steps. Qed.
#[export] Hint Resolve steps_isdirempty steps_sys_unlink_bad : files.

Lemma steps_sys_unlink `{Linker} `{Fuel} `{DeviceSteps} : steps (sys_unlink).
Proof. unfold sys_unlink. steps. Qed.
Lemma steps_create_fail `{Linker} `{Fuel} `{DeviceSteps} ip dp : steps (create_fail ip dp).
Proof. unfold create_fail. steps. Qed.
#[export] Hint Resolve steps_create_fail : files.

Lemma steps_create `{Linker} `{Fuel} `{DeviceSteps} path ty ma mi : steps (create path ty ma mi).
Proof. unfold create. steps. Qed.
#[export] Hint Resolve steps_create : files.

Lemma steps_create_arg `{Linker} `{Fuel} `{DeviceSteps} ty ma mi : steps (create_arg ty ma mi).
Proof. unfold create_arg. steps. Qed.
#[export] Hint Resolve steps_create_arg : files.

Lemma steps_sys_mkdir `{Linker} `{Fuel} `{DeviceSteps} : steps (sys_mkdir).
Proof. unfold sys_mkdir. steps. Qed.
Lemma steps_sys_mknod `{Linker} `{Fuel} `{DeviceSteps} : steps (sys_mknod).
Proof. unfold sys_mknod. steps. Qed.
Lemma steps_sys_chdir `{Linker} `{Fuel} `{DeviceSteps} : steps (sys_chdir).
Proof. unfold sys_chdir. steps. Qed.
(** ** Processes and time *)

Lemma steps_sys_getpid  : steps (sys_getpid).
Proof. unfold sys_getpid. steps. Qed.
Lemma steps_sys_sbrk `{Linker} : steps (sys_sbrk).
Proof. unfold sys_sbrk. steps. Qed.
Lemma steps_sys_kill  : steps (sys_kill).
Proof. unfold sys_kill. steps. Qed.
Lemma steps_sys_uptime  : steps (sys_uptime).
Proof. unfold sys_uptime. steps. Qed.
Lemma steps_pause_loop n t0 m : steps (pause_loop n t0 m).
Proof. revert t0 m. induction n as [|n IH]; intros t0 m; cbn [pause_loop]; steps. Qed.
#[export] Hint Resolve steps_pause_loop : files.

Lemma steps_sys_pause `{Fuel} : steps (sys_pause).
Proof. unfold sys_pause. steps. Qed.
