(* ===== verification/FdCalls.v ===== *)
(** * Opening, duplicating and closing: [file.c] and the calls on descriptors

    What each operation on the file table and on a descriptor table does to the accounting of
    FdView.v, and the system calls made of them. *)

From S2P Require Import Prelude Riscv CString Kernel Printf Kalloc Vm Args Sched Sleeplock Bio Log Fs Pipe Console File Proc ProcFork Exec Sysfile FdView FdStill FdSteps.
From stdpp Require Import base numbers strings gmap list.
From Stdlib Require Import ZArith Lia.

#[local] Open Scope Z_scope.
#[local] Open Scope kernel_scope.

(** ** The view of a store *)

Lemma fmap_alter_at {X Y} (g : X -> Y) h i (l : list X) x : l !! i = Some x -> g <$> alter h i l = <[i := g (h x)]> (g <$> l).
Proof.
  intros Hi. pose proof (lookup_lt_Some _ _ _ Hi). apply list_eq. intros j. rewrite list_lookup_fmap. destruct (decide (j = i)) as [->|Hne].
  - rewrite list_lookup_alter_eq, Hi, list_lookup_insert_eq; [done|by rewrite length_fmap].
  - by rewrite list_lookup_alter_ne, list_lookup_insert_ne, list_lookup_fmap.
Qed.

Lemma fview_file k f fl g : files k !! f = Some fl -> fview (k <| files ::= alter g f |>) = set_file (fview k) f (file_view (g fl)).
Proof. intros Hf. unfold fview, set_file. cbn. f_equal. by apply fmap_alter_at. Qed.
Lemma fview_proc k i p g : procs k !! i = Some p -> fview (k <| procs ::= alter g i |>) = set_proc (fview k) i (proc_view (g p)).
Proof. intros Hf. unfold fview, set_proc. cbn. f_equal. by apply fmap_alter_at. Qed.

Lemma view_file k f n ty : v_files (fview k) !! f = Some (n, ty) <-> exists fl, files k !! f = Some fl /\ f_ref fl = n /\ f_type fl = ty.
Proof.
  cbn. rewrite list_lookup_fmap. destruct (files k !! f) as [fl|]; cbn; split.
  - intros [= <- <-]. by exists fl.
  - by intros (? & [= ->] & <- & <-).
  - done.
  - by intros (? & ? & _).
Qed.
Lemma view_proc k i l d : v_procs (fview k) !! i = Some (l, d) <-> exists p, procs k !! i = Some p /\ p_ofile p = l /\ dead p = d.
Proof.
  cbn. rewrite list_lookup_fmap. destruct (procs k !! i) as [p|]; cbn; split.
  - intros [= <- <-]. by exists p.
  - by intros (? & [= ->] & <- & <-).
  - done.
  - by intros (? & ? & _).
Qed.

Lemma set_file_same v f e : v_files v !! f = Some e -> set_file v f e = v.
Proof. intros Hf. unfold set_file. rewrite list_insert_id by done. by destruct v. Qed.
Lemma set_proc_same v i p : v_procs v !! i = Some p -> set_proc v i p = v.
Proof. intros Hf. unfold set_proc. rewrite list_insert_id by done. by destruct v. Qed.
Lemma set_file_twice v f e e' : set_file (set_file v f e) f e' = set_file v f e'.
Proof. unfold set_file. cbn. by rewrite list_insert_insert_eq. Qed.
Lemma set_proc_twice v i p p' : set_proc (set_proc v i p) i p' = set_proc v i p'.
Proof. unfold set_proc. cbn. by rewrite list_insert_insert_eq. Qed.

(** ** Steps of a call *)

Section rules.
Context {A B : Type} (X : exiting) (me : nat) (Q : exiting -> A -> cpu -> kernel -> Prop).
Implicit Types (c : cpu) (k : kernel).

Lemma sound_after (m : M B) (f : B -> M A) c k :
  still m -> (forall a c' k', cpu_proc c' = cpu_proc c -> fview k' = fview k -> sound X me Q (f a c' k')) -> sound X me Q (bind m f c k).
Proof. intros Hm Hf. eapply (sound_then X me); [apply nosw_sound; eapply nosw_mono; [apply Hm|]; intros a c' k' Ha; split; [done|exact Ha]|].
  intros a c' k' [E1 E2]. by apply Hf. Qed.

Lemma sound_acquire lk (f : unit -> M A) c k :
  (forall c', cpu_proc c' = cpu_proc c -> sound X me Q (f tt c' k)) -> sound X me Q (bind (acquire lk) f c k).
Proof. intros H. unfold bind, acquire. case_decide; [done|]. cbn [continue]. by apply H. Qed.

Lemma sound_release lk (f : unit -> M A) c k :
  (forall c', cpu_proc c' = cpu_proc c -> sound X me Q (f tt c' k)) -> sound X me Q (bind (release lk) f c k).
Proof. intros H. unfold bind, release. case_decide; [|done]. cbn [continue]. by apply H. Qed.

Lemma sound_getfile f (g : file -> M A) c k :
  (forall fl, files k !! f = Some fl -> sound X me Q (g fl c k)) -> sound X me Q (bind (getfile f) g c k).
Proof. intros H. unfold getfile, gets, bind, deref. cbn. destruct (files k !! f) as [fl|]; [|done]. by apply H. Qed.

Lemma sound_getproc i (g : proc -> M A) c k :
  (forall p, procs k !! i = Some p -> sound X me Q (g p c k)) -> sound X me Q (bind (getproc i) g c k).
Proof. intros H. unfold getproc, gets, bind, deref. cbn. destruct (procs k !! i) as [fl|]; [|done]. by apply H. Qed.

Lemma sound_modfile f h (g : unit -> M A) c k :
  (forall fl k', files k !! f = Some fl -> k' = k <| files ::= alter h f |> -> files k' !! f = Some (h fl) ->
     fview k' = set_file (fview k) f (file_view (h fl)) -> sound X me Q (g tt c k')) ->
  is_Some (files k !! f) -> sound X me Q (bind (modfile f h) g c k).
Proof.
  intros H [fl Hf]. apply (H fl _ Hf eq_refl); [cbn; by rewrite list_lookup_alter_eq, Hf|by apply fview_file].
Qed.

Lemma sound_modproc i h (g : unit -> M A) c k :
  (forall p k', procs k !! i = Some p -> k' = k <| procs ::= alter h i |> -> procs k' !! i = Some (h p) ->
     fview k' = set_proc (fview k) i (proc_view (h p)) -> sound X me Q (g tt c k')) ->
  is_Some (procs k !! i) -> sound X me Q (bind (modproc i h) g c k).
Proof.
  intros H [fl Hf]. apply (H fl _ Hf eq_refl); [cbn; by rewrite list_lookup_alter_eq, Hf|by apply fview_proc].
Qed.

Lemma sound_curproc (g : nat -> M A) c k : cpu_proc c = Some me -> sound X me Q (g me c k) -> sound X me Q (bind curproc g c k).
Proof. intros Hc H. unfold curproc, myproc, mycpu, bind, deref. cbn. rewrite Hc. exact H. Qed.

End rules.

Lemma sound_released X me (Q : exiting -> unit -> cpu -> kernel -> Prop) lk c k : (forall c', cpu_proc c' = cpu_proc c -> Q X tt c' k) -> sound X me Q (release lk c k).
Proof. intros H. unfold release. case_decide; [|done]. by apply H. Qed.

(** A call that keeps the process and makes the view [w]. *)
Definition makes (c : cpu) (w : view) (c' : cpu) (k' : kernel) : Prop := cpu_proc c' = cpu_proc c /\ fview k' = w.

(** ** [file.c] *)

(** The file [filealloc] finds and the view it makes. *)
Definition allocated (c : cpu) (v : view) (o : option nat) (c' : cpu) (k' : kernel) : Prop :=
  match o with
  | None => makes c v c' k'
  | Some f => exists ty, v_files v !! f = Some (0, ty) /\ makes c (set_file v f (1, ty)) c' k'
  end.

Lemma filealloc_loop_fd X me n f c k : sound X me (keep X (allocated c (fview k))) (filealloc_loop n f c k).
Proof.
  revert f. induction n as [|n IH]; intros f; cbn [filealloc_loop].
  - apply sound_release. intros c2 E2. by split.
  - apply sound_getfile. intros fl Hf. destruct (Z.eqb_spec (f_ref fl) 0) as [H0|]; [|apply IH].
    apply sound_modfile; [|done]. intros fl' k' Hf' _ _ Ev. replace fl' with fl in * by congruence.
    apply sound_release. intros c2 E2. split; [done|]. exists (f_type fl). split; [apply view_file; by exists fl|]. by split.
Qed.

Lemma filealloc_fd X me c k : sound X me (keep X (allocated c (fview k))) (filealloc c k).
Proof.
  unfold filealloc. apply sound_acquire. intros c1 E1. eapply sound_weaken; [apply filealloc_loop_fd|].
  intros o c2 k2. unfold keep, allocated, makes. by rewrite E1.
Qed.

Lemma filedup_fd X me f n ty c k :
  v_files (fview k) !! f = Some (n, ty) -> 1 <= n < 2 ^ 31 - 1 ->
  sound X me (keep X (fun g c' k' => g = f /\ makes c (set_file (fview k) f (n + 1, ty)) c' k')) (filedup f c k).
Proof.
  intros (fl & Hf & <- & <-)%view_file Hn. unfold filedup. apply sound_acquire. intros c1 E1. apply sound_getfile. intros fl' Hf'.
  replace fl' with fl by congruence. destruct (Z.ltb_spec (f_ref fl) 1); [lia|]. apply sound_modfile; [|done]. intros fl1 k1 Hf1 _ _ Ev. replace fl1 with fl in * by congruence.
  apply sound_release. intros c2 E2. split; [done|]. split; [done|]. split; [congruence|]. rewrite Ev. unfold file_view. cbn. by rewrite i32_small by lia.
Qed.

Section close.
Context `{Linker} `{Fuel} `{DeviceSteps}.

(** What [fileclose] does after the last reference is gone. *)
Definition close_tail (ff : file) : M unit :=
  match f_type ff with
  | FD_PIPE => pipeclose (f_pipe ff) (f_writable ff)
  | FD_INODE | FD_DEVICE => begin_op ;; iput (f_ip ff) ;; end_op
  | FD_NONE => ret tt
  end.

Lemma fileclose_fd X me f n ty c k Q :
  v_files (fview k) !! f = Some (n, ty) -> 1 <= n < 2 ^ 31 ->
  (forall c' k', makes c (set_file (fview k) f (closed n ty)) c' k' ->
     if n =? 1 then forall ff, f_type ff = ty -> sound X me Q (close_tail ff c' k') else Q X tt c' k') ->
  sound X me Q (fileclose f c k).
Proof.
  intros (fl & Hf & <- & <-)%view_file Hn HQ. unfold fileclose. apply sound_acquire. intros c1 E1. apply sound_getfile. intros fl' Hf'.
  replace fl' with fl by congruence. destruct (Z.ltb_spec (f_ref fl) 1); [lia|].
  apply sound_modfile; [|done]. intros fl1 k1 Hf1 _ Hk1 V1. replace fl1 with fl in * by congruence.
  apply sound_getfile. intros ff Hff. rewrite Hk1 in Hff. injection Hff as Eff.
  assert (Er : f_ref ff = f_ref fl - 1) by (rewrite <- Eff; cbn; rewrite i32_small; lia). assert (Et : f_type ff = f_type fl) by (by rewrite <- Eff).
  unfold file_view in V1. cbn [f_ref f_type update] in V1. rewrite i32_small in V1 by lia. rewrite Er. destruct (Z.gtb_spec (f_ref fl - 1) 0).
  - apply sound_released. intros c2 E2. assert (Hm : makes c (set_file (fview k) f (closed (f_ref fl) (f_type fl))) c2 k1).
    { split; [congruence|]. rewrite V1. unfold closed. by destruct (Z.eqb_spec (f_ref fl) 1); [lia|]. }
    specialize (HQ _ _ Hm). by destruct (Z.eqb_spec (f_ref fl) 1); [lia|].
  - assert (Hr : f_ref fl = 1) by lia. apply sound_modfile; [|by rewrite Hk1]. intros fl2 k2 _ _ Hk2 V2. apply sound_modfile; [|by rewrite Hk2]. intros fl3 k3 Hf3 _ _ V3.
    rewrite Hk2 in Hf3. injection Hf3 as <-. apply sound_release. intros c2 E2. refine (_ (HQ c2 k3 _)).
    + rewrite Hr. intros T. exact (T ff Et).
    + split; [congruence|]. rewrite V3, V2, V1, !set_file_twice. by rewrite Hr.
Qed.
Lemma close_tail_still ff : f_type ff = FD_NONE \/ f_type ff = FD_PIPE -> still (close_tail ff).
Proof. unfold close_tail. intros [-> | ->]; still. Qed.

Lemma close_tail_steps ff : steps (close_tail ff).
Proof. unfold close_tail. steps. Qed.

(** Closing a file without sleeping. *)
Lemma fileclose_makes X me f n ty c k :
  v_files (fview k) !! f = Some (n, ty) -> 1 <= n < 2 ^ 31 -> (n = 1 -> ty = FD_NONE \/ ty = FD_PIPE) ->
  sound X me (keep X (fun _ => makes c (set_file (fview k) f (closed n ty)))) (fileclose f c k).
Proof.
  intros Hf Hn Hty. eapply fileclose_fd; [done|done|]. intros c' k' [E V]. destruct (Z.eqb_spec n 1) as [H1'|]; [|by split].
  intros ff Hff. apply nosw_sound. eapply nosw_mono; [apply close_tail_still; rewrite Hff; auto|]. intros u c2 k2 [E2 V2].
  split; [done|]. split; [congruence|by rewrite V2].
Qed.

(** Closing the one reference that is in no table. *)
Lemma fileclose_own X me f t l ds c k :
  cpu_proc c = Some me -> v_procs (fview k) !! me = Some (l, false) -> ds !! me = Some t -> counted X ds (one f) [] (fview k) ->
  sound X me (same X me t l) (fileclose f c k).
Proof.
  intros Hc Hp Hds C. pose proof (counted_bound _ _ _ _ f C) as B. unfold one in B. rewrite decide_True in B by done.
  destruct (refs_some (fview k) f) as [ty Hf]; [lia|]. eapply fileclose_fd; [done|lia|]. intros c' k' [E V].
  assert (Ho : own X me t l false (fview k')).
  { rewrite V. split; [done|]. exists ds. split; [|done]. eapply counted_ext; [eapply counted_close; [done..|lia]|]. intros g. unfold none. cbn. lia. }
  rewrite Hc in E. destruct (_ =? _); [|done]. intros ff _. by apply close_tail_steps.
Qed.

End close.

(** ** Descriptors *)

(** The descriptor and the file that [argfd] finds. *)
Definition got_fd (c : cpu) (v : view) (l : list (option nat)) (o : option (Z * nat)) (c' : cpu) (k' : kernel) : Prop :=
  makes c v c' k' /\ match o with Some (fd, f) => 0 <= fd < 16 /\ l !! Z.to_nat fd = Some (Some f) | None => True end.

Lemma argfd_fd X me l d n c k :
  cpu_proc c = Some me -> v_procs (fview k) !! me = Some (l, d) -> sound X me (keep X (got_fd c (fview k) l)) (argfd n c k).
Proof.
  intros Hc Hp. unfold argfd. apply sound_after; [still|]. intros fd c1 k1 E1 V1. destruct (Z.ltb_spec fd 0); [by split|].
  cbn [orb]. destruct (fd >=? 16) eqn:E16; [by split|]. apply sound_curproc; [congruence|]. apply sound_getproc. intros p Hp1.
  rewrite <- V1 in Hp. apply view_proc in Hp as (q & Hq & <- & _). replace q with p in * by congruence.
  destruct (p_ofile p !! Z.to_nat fd) as [[f|]|] eqn:Hfd; [|by split..]. split; [done|]. split; [done|]. split; [lia|done].
Qed.

(** The lowest free descriptor gets [f]. *)
Definition installed (c : cpu) (v : view) (me : nat) (l : list (option nat)) (f : nat) (r : Z) (c' : cpu) (k' : kernel) : Prop :=
  (r = -1 /\ makes c v c' k') \/
  exists fd, r = Z.of_nat fd /\ l !! fd = Some None /\ (forall j, (j < fd)%nat -> l !! j <> Some None) /\
    makes c (set_proc v me (<[fd := Some f]> l, false)) c' k'.

Lemma fdalloc_loop_fd X me l f n fd c k :
  v_procs (fview k) !! me = Some (l, false) -> (forall j, (j < fd)%nat -> l !! j <> Some None) ->
  sound X me (keep X (installed c (fview k) me l f)) (fdalloc_loop n me f fd c k).
Proof.
  intros Hp. revert fd. induction n as [|n IH]; intros fd Hlow; cbn [fdalloc_loop]; [by split; [|left]|].
  apply sound_getproc. intros p Hk. pose proof Hp as (q & Hq & Hl & Hd)%view_proc. replace q with p in * by congruence. rewrite Hl.
  destruct (l !! fd) as [[g|]|] eqn:Hfd.
  - apply IH. intros j Hj. destruct (decide (j = fd)) as [->|]; [congruence|]. apply Hlow. lia.
  - apply sound_modproc; [|done]. intros p1 k1 Hp1 _ _ V. replace p1 with p in * by congruence. split; [done|]. right. exists fd.
    split; [done|]. split; [done|]. split; [done|]. split; [done|]. rewrite V. unfold proc_view. cbn [p_ofile update]. rewrite Hl.
    change (dead _) with (dead p). by rewrite Hd.
  - apply IH. intros j Hj. destruct (decide (j = fd)) as [->|]; [congruence|]. apply Hlow. lia.
Qed.

Lemma fdalloc_fd X me l f c k :
  cpu_proc c = Some me -> v_procs (fview k) !! me = Some (l, false) -> sound X me (keep X (installed c (fview k) me l f)) (fdalloc f c k).
Proof. intros Hc Hp. unfold fdalloc. apply sound_curproc; [done|]. apply fdalloc_loop_fd; [done|]. intros j Hj. lia. Qed.

Lemma setz_insert {A} (l : list A) i x : 0 <= i -> setz l i x = <[Z.to_nat i := x]> l.
Proof. intros Hi. unfold setz. by destruct (Z.ltb_spec i 0); [lia|]. Qed.

Lemma clear_fd_fd X me l d fd c k :
  cpu_proc c = Some me -> v_procs (fview k) !! me = Some (l, d) ->
  sound X me (keep X (fun _ => makes c (set_proc (fview k) me (setz l fd None, d)))) (clear_fd fd c k).
Proof.
  intros Hc (p & Hp & <- & <-)%view_proc. unfold clear_fd. apply sound_curproc; [done|]. split; [done|]. split; [done|]. by apply (fview_proc k me p).
Qed.

