(* ===== verification/FdSyscalls.v ===== *)
(** * Every system call keeps the accounting of open files

    The calls on descriptors, [fork], [exit] and [wait], and the dispatch. *)

From S2P Require Import Prelude Riscv CString Kernel Printf Kalloc Vm Args Sched Sleeplock Bio Log Fs Pipe Console File Proc ProcFork Exec Sysfile FdView FdStill FdSteps FdCalls.
From stdpp Require Import base numbers strings gmap list.
From Stdlib Require Import ZArith Lia.

#[local] Open Scope Z_scope.
#[local] Open Scope kernel_scope.

(** The process is not on its way out, has its descriptors and nothing is in progress, before and after. *)
Definition settled (X : exiting) (me : nat) (c : cpu) (k : kernel) : Prop :=
  X me = false /\ cpu_proc c = Some me /\ exists l, own X me l l false (fview k).

Definition call {A} (m : M A) : Prop := forall X me c k, settled X me c k -> sound X me (fun X' _ => settled X' me) (m c k).

Lemma steps_call {A} (m : M A) : steps m -> call m.
Proof.
  intros Hm X me c k (HX & Hc & l & Ho). eapply sound_mono; [by eapply Hm|]. intros X' a c' k' (EX & Hc' & Ho'). split; [congruence|].
  split; [done|by exists l].
Qed.

(** References add up. *)
Ltac tally := unfold none, one; cbn beta; repeat case_decide; simplify_eq; try lia.
Ltac flow := let g := fresh in intros g; tally.

Lemma settled_intro X me l ds x c k :
  cpu_proc c = Some me -> v_procs (fview k) !! me = Some (l, false) -> ds !! me = Some l -> counted X ds x [] (fview k) -> (forall f, x f = 0) ->
  X me = false -> settled X me c k.
Proof. intros Hc Hp Hd C Hx HX. split; [done|]. split; [done|]. exists l. split; [done|]. exists ds. split; [|done]. by eapply counted_ext. Qed.

(** A file that a descriptor names. *)
Lemma open_file {X} ds x raw v i l fd f :
  counted X ds x raw v -> ds !! i = Some l -> l !! fd = Some (Some f) -> 0 <= x f ->
  exists n ty, v_files v !! f = Some (n, ty) /\ 1 <= n <= 1024 + x f /\ (f ∉ raw -> ty <> FD_NONE).
Proof.
  intros C Hi Hfd Hx. pose proof (counted_bound _ _ _ _ f C) as B. pose proof (ct_refs _ _ _ _ _ C f) as E.
  pose proof (count_pos ds i l f Hi). pose proof (refs_to_pos f l fd Hfd). destruct (refs_some v f) as [ty Hf]; [lia|].
  exists (refs v f), ty. split; [done|]. split; [lia|]. intros Hr ->. destruct (ct_type _ _ _ _ _ C _ _ Hf); [lia|done].
Qed.

Section calls.
Context `{Linker} `{Fuel} `{DeviceSteps} `{Uninit}.

Lemma call_dup : call sys_dup.
Proof.
  intros X me c k (HX & Hc & l & Hp & ds & C & Hd). unfold sys_dup. eapply sound_then; [by eapply argfd_fd|].
  intros o c1 k1 [[E1 V1] Ho]. rewrite <- V1 in *. destruct o as [[fd f]|]; [|by eapply settled_intro; [congruence|done..]].
  destruct Ho as [_ Hfd]. eapply sound_then; [eapply fdalloc_fd; [congruence|done]|].
  intros r c2 k2 [[-> [E2 V2]]|(n & -> & Hn & _ & E2 & V2)]; [rewrite <- V2 in *; by eapply settled_intro; [congruence|done..]|].
  destruct (Z.ltb_spec (Z.of_nat n) 0); [lia|]. destruct (open_file _ _ _ _ _ _ _ _ C Hd Hfd) as (m & ty & Hf & Hm & _); [done|].
  eapply sound_then; [eapply filedup_fd; [rewrite V2; exact Hf|unfold none in Hm; lia]|]. intros _ c3 k3 [_ [E3 V3]].
  eapply (settled_intro X me (<[n := Some f]> l) (<[me := <[n := Some f]> l]> ds)); [congruence|..].
  - rewrite V3, V2. cbn. apply list_lookup_insert_eq. by apply lookup_lt_Some in Hp.
  - apply list_lookup_insert_eq. by apply lookup_lt_Some in Hd.
  - rewrite V3, V2. eapply counted_dup; [eapply counted_fd; [done..|by left]|done|lia].
  - flow.
  - done.
Qed.

(** A slot of a table of its own. *)
Lemma set_proc_at v i p q : v_procs v !! i = Some q -> v_procs (set_proc v i p) !! i = Some p.
Proof. intros Hi. cbn. apply list_lookup_insert_eq. by apply lookup_lt_Some in Hi. Qed.
Lemma table_at (ds : list (list (option nat))) i l l' : ds !! i = Some l -> <[i := l']> ds !! i = Some l'.
Proof. intros Hi. apply list_lookup_insert_eq. by apply lookup_lt_Some in Hi. Qed.

Lemma call_close : call sys_close.
Proof.
  intros X me c k (HX & Hc & l & Hp & ds & C & Hd). unfold sys_close. eapply sound_then; [by eapply argfd_fd|].
  intros o c1 k1 [[E1 V1] Ho]. rewrite <- V1 in *. destruct o as [[fd f]|]; [|by eapply settled_intro; [congruence|done..]].
  destruct Ho as [Hr Hfd]. eapply sound_then; [eapply clear_fd_fd; [congruence|done]|]. intros _ c2 k2 [E2 V2]. rewrite setz_insert in V2 by lia.
  eapply sound_bind; [eapply (fileclose_own X me f _ _ (<[me := <[Z.to_nat fd := None]> l]> ds)); [congruence| | |]|].
  - rewrite V2. by eapply set_proc_at.
  - by eapply table_at.
  - rewrite V2. eapply counted_ext; [eapply counted_fd; [done..|by left]|flow].
  - intros X' a c3 k3 (EX & E3 & Ho). split; [congruence|]. split; [done|by eexists].
Qed.

(** A call on the file of a descriptor, which has a type. *)
Lemma call_on_file (g : nat -> file -> M Z) :
  (forall f fl, f_type fl <> FD_NONE -> steps (g f fl)) ->
  call (o <- argfd 0 ;; match o with None => ret (-1) | Some (_, f) => fl <- getfile f ;; g f fl end).
Proof.
  intros Hg X me c k (HX & Hc & l & Hp & ds & C & Hd). eapply sound_then; [by eapply argfd_fd|].
  intros o c1 k1 [[E1 V1] Ho]. rewrite <- V1 in *. destruct o as [[fd f]|]; [|by eapply settled_intro; [congruence|done..]].
  destruct Ho as [Hr Hfd]. destruct (open_file _ _ _ _ _ _ _ _ C Hd Hfd) as (m & ty & (fl & Hf & _ & <-)%view_file & Hm & Hty); [done|].
  apply sound_getfile. intros fl' Hf'. replace fl' with fl by congruence. apply (steps_call (g f fl)); [|by eapply settled_intro; [congruence|done..]].
  apply Hg, Hty. apply not_elem_of_nil.
Qed.

Lemma call_after {A B} (m : M A) (f : A -> M B) : still m -> (forall a, call (f a)) -> call (bind m f).
Proof.
  intros Hm Hf X me c k (HX & Hc & l & Ho). apply sound_after; [done|]. intros a c1 k1 E1 V1. apply Hf. split; [done|]. split; [congruence|].
  exists l. by rewrite V1.
Qed.

Lemma steps_filewrite_loop n f addr m i : steps (filewrite_loop n f addr m i).
Proof. revert i. induction n as [|n IH]; intros i; cbn [filewrite_loop]; steps. Qed.
#[local] Hint Resolve steps_filewrite_loop : files.

(** [fileread] and [filewrite] do not reach their panics. *)
Lemma call_read : call sys_read.
Proof.
  unfold sys_read. do 2 (apply call_after; [still|intros ?]). unfold fileread. apply call_on_file. intros f fl Hty. steps_step; [steps|].
  destruct (f_type fl); [done|steps..].
Qed.
Lemma call_write : call sys_write.
Proof.
  unfold sys_write. do 2 (apply call_after; [still|intros ?]). unfold filewrite. apply call_on_file. intros f fl Hty. steps_step; [steps|].
  destruct (f_type fl); [done|steps..].
Qed.
Lemma call_fstat : call sys_fstat.
Proof. apply steps_call. unfold sys_fstat, argfd, filestat. steps. Qed.

Lemma call_seq {A B} (m : M A) (f : A -> M B) : steps m -> (forall a, call (f a)) -> call (bind m f).
Proof. intros Hm Hf X me c k S. eapply sound_bind; [by apply steps_call|]. intros X1 a c1 k1 S1. by apply Hf. Qed.

Lemma settled_view X me c k c' k' : settled X me c k -> makes c (fview k) c' k' -> settled X me c' k'.
Proof. intros (HX & Hc & l & Ho) [E V]. split; [done|]. split; [congruence|]. exists l. by rewrite V. Qed.

(** [fileclose] of a file that has just been allocated undoes the allocation. *)
Lemma fileclose_fresh X me f ty v c k :
  v_files v !! f = Some (0, FD_NONE) -> fview k = set_file v f (1, ty) -> ty = FD_NONE \/ ty = FD_PIPE ->
  sound X me (keep X (fun _ => makes c v)) (fileclose f c k).
Proof.
  intros Hf V Hty. eapply sound_weaken; [eapply (fileclose_makes X me f 1 ty); [|lia|done]|].
  - rewrite V. cbn. apply list_lookup_insert_eq. by apply lookup_lt_Some in Hf.
  - intros u c' k' [E V']. split; [done|]. split; [done|]. rewrite V', V, set_file_twice. by apply set_file_same.
Qed.

(** The file gets its type. *)
Lemma modfile_type X me f h v n ty0 ty c k :
  fview k = v -> v_files v !! f = Some (n, ty0) -> (forall fl, file_view (h fl) = (f_ref fl, ty)) ->
  sound X me (keep X (fun _ => makes c (set_file v f (n, ty)))) (modfile f h c k).
Proof.
  intros <- (fl & Hf & <- & _)%view_file Hh. split; [done|]. split; [done|]. rewrite <- Hh. by apply (fview_file k f fl).
Qed.

Lemma call_open_file ip omode : call (sys_open_file ip omode).
Proof.
  unfold sys_open_file. apply call_after; [still|]. intros i0. destruct (_ && _); [apply steps_call; steps|].
  intros X me c k S. pose proof S as (HX & Hc & l & Hp & ds & C & Hd). eapply sound_then; [apply filealloc_fd|].
  intros [f|] c1 k1 HA; [|apply (steps_call (_ <- ret (-1) ;; _)); [steps|by eapply settled_view]].
  destruct HA as (ty & Hf & E1 & V1). replace ty with FD_NONE in * by (symmetry; by eapply ct_free). pose proof (counted_alloc _ _ _ _ _ _ C Hf) as C1. rewrite <- V1 in C1.
  assert (Hp1 : v_procs (fview k1) !! me = Some (l, false)) by (by rewrite V1).
  eapply sound_then; [eapply fdalloc_fd; [congruence|done]|].
  intros r c2 k2 [[-> [E2 V2]]|(n & -> & Hn & _ & E2 & V2)].
  { eapply sound_then; [eapply (fileclose_fresh X me f FD_NONE (fview k)); [done|congruence|by left]|]. intros _ c3 k3 [E3 V3].
    apply (steps_call (iunlockput ip ;; end_op ;; ret (-1))); [steps|]. eapply settled_view; [done|]. split; congruence. }
  destruct (Z.ltb_spec (Z.of_nat n) 0); [lia|]. apply sound_after; [still|]. intros i1 c3 k3 E3 V3.
  pose proof (counted_fd _ _ _ _ _ _ _ _ _ (Some f) C1 Hd Hp1 Hn (or_introl eq_refl)) as C2. rewrite <- V2, <- V3 in C2.
  assert (Hf3 : v_files (fview k3) !! f = Some (1, FD_NONE)).
  { rewrite V3, V2, V1. cbn. apply list_lookup_insert_eq. by apply lookup_lt_Some in Hf. }
  eapply (sound_then X me (fun _ c' k' => exists ty, ty <> FD_NONE /\ makes c3 (set_file (fview k3) f (1, ty)) c' k')).
  { destruct (_ =? _); [eapply sound_weaken; [by apply (modfile_type X me f _ (fview k3) 1 FD_NONE FD_DEVICE)|]|eapply sound_weaken; [by apply (modfile_type X me f _ (fview k3) 1 FD_NONE FD_INODE)|]];
      intros ? c4 k4 Hm; (split; [done|]; eexists; split; [|exact Hm]; done). }
  intros _ c4 k4 (ty' & Hty & E4 & V4). match goal with |- sound _ _ _ (?m c4 k4) => apply (steps_call m); [steps|] end.
  eapply (settled_intro X me (<[n := Some f]> l) (<[me := <[n := Some f]> l]> ds)); [congruence| |by eapply table_at| | |done].
  - rewrite V4, V3, V2. by eapply set_proc_at.
  - rewrite V4. by eapply counted_typed.
  - flow.
Qed.

Lemma call_open : call sys_open.
Proof.
  unfold sys_open. apply call_after; [still|]. intros omode. apply call_after; [still|]. intros [path|]; [|apply steps_call; steps].
  apply call_seq; [steps|]. intros _. destruct (flag omode O_CREATE); (apply call_seq; [steps|]; intros [ip|]; [|apply steps_call; steps]).
  - apply call_open_file.
  - apply call_seq; [steps|]. intros _. apply call_after; [still|]. intros i. destruct (_ && _); [apply steps_call; steps|apply call_open_file].
Qed.

(** ** Pipes *)

Lemma set_file_comm v f g e e' : f <> g -> set_file (set_file v f e) g e' = set_file (set_file v g e') f e.
Proof. intros Hne. unfold set_file. cbn. by rewrite list_insert_insert_ne. Qed.
Lemma set_file_at v f e e' : v_files v !! f = Some e -> v_files (set_file v f e') !! f = Some e'.
Proof. intros Hf. cbn. apply list_lookup_insert_eq. by apply lookup_lt_Some in Hf. Qed.
Lemma set_file_ne v f g e : f <> g -> v_files (set_file v f e) !! g = v_files v !! g.
Proof. intros Hne. cbn. by apply list_lookup_insert_ne. Qed.

(** Two files of type [ty] that have just been allocated, in the view [v]. *)
Record two_files (v : view) (r w : nat) (ty : fdtype) (v' : view) : Prop := {
  tw_ne : r <> w;
  tw_r : v_files v !! r = Some (0, FD_NONE);
  tw_w : v_files v !! w = Some (0, FD_NONE);
  tw_view : v' = set_file (set_file v r (1, ty)) w (1, ty)
}.

(** Closing both undoes the allocation. *)
Lemma close_two {A} X me v r w ty (a : A) c k :
  two_files v r w ty (fview k) -> ty = FD_NONE \/ ty = FD_PIPE -> sound X me (keep X (fun x c' k' => x = a /\ makes c v c' k')) ((fileclose r ;; fileclose w ;; ret a) c k).
Proof.
  intros [Hne Hr Hw V] Hty. eapply sound_then; [eapply (fileclose_fresh X me r ty (set_file v w (1, ty)))|].
  - by rewrite set_file_ne.
  - by rewrite set_file_comm.
  - done.
  - intros _ c1 k1 [E1 V1]. eapply sound_then; [by eapply (fileclose_fresh X me w ty v)|]. intros u c2 k2 [E2 V2].
    split; [done|]. split; [done|]. split; [congruence|done].
Qed.

(** What [pipealloc] returns and makes. *)
Definition piped (c : cpu) (v : view) (x : Z * option nat * option nat) (c' : cpu) (k' : kernel) : Prop :=
  (x.1.1 = -1 /\ makes c v c' k') \/
  exists r w, x = (0, Some r, Some w) /\ cpu_proc c' = cpu_proc c /\ two_files v r w FD_PIPE (fview k').

Lemma pipealloc_fd X me c k :
  (forall f ty, v_files (fview k) !! f = Some (0, ty) -> ty = FD_NONE) -> sound X me (keep X (piped c (fview k))) (pipealloc c k).
Proof.
  intros H0'. unfold pipealloc. eapply sound_then; [apply filealloc_fd|]. intros [r|] c1 k1 HA; [|by split; [|left]].
  destruct HA as (ty & Hr & E1 & V1). replace ty with FD_NONE in * by (symmetry; by eapply H0').
  eapply sound_then; [apply filealloc_fd|]. intros [w|] c2 k2 HB.
  2: { destruct HB as [E2 V2]. unfold pipealloc_bad. apply sound_after; [still|]. intros _ c3 k3 E3 V3.
       eapply sound_then; [eapply (fileclose_fresh X me r FD_NONE (fview k)); [done|congruence|by left]|]. intros _ c4 k4 [E4 V4].
       apply sound_after; [still|]. intros _ c5 k5 E5 V5. split; [done|]. left. split; [done|]. split; congruence. }
  destruct HB as (ty' & Hw & E2 & V2). rewrite V1 in V2, Hw. assert (Hne : r <> w).
  { intros ->. by rewrite (set_file_at _ _ (0, FD_NONE)) in Hw. }
  rewrite set_file_ne in Hw by done. replace ty' with FD_NONE in * by (symmetry; by eapply H0').
  apply sound_after; [still|]. intros pi c3 k3 E3 V3. assert (T : two_files (fview k) r w FD_NONE (fview k3)) by (split; [done..|congruence]).
  destruct (pi =? 0).
  { unfold pipealloc_bad. apply sound_after; [still|]. intros _ c4 k4 E4 V4. rewrite <- V4 in T.
    eapply sound_weaken; [eapply (close_two X me (fview k) r w FD_NONE); [done|by left]|]. intros x c5 k5 [-> [E5 V5]]. split; [done|]. left. split; [done|]. split; congruence. }
  apply sound_after; [still|]. intros _ c4 k4 E4 V4. apply sound_after; [still|]. intros _ c5 k5 E5 V5.
  eapply sound_then; [eapply (modfile_type X me r _ _ 1 FD_NONE FD_PIPE); [reflexivity| |reflexivity]|].
  - rewrite V5, V4, (tw_view _ _ _ _ _ T), set_file_ne by done. by eapply set_file_at.
  - intros _ c6 k6 [E6 V6]. eapply sound_then; [eapply (modfile_type X me w _ _ 1 FD_NONE FD_PIPE); [reflexivity| |reflexivity]|].
    + rewrite V6, set_file_ne, V5, V4, (tw_view _ _ _ _ _ T) by done. eapply set_file_at. by rewrite set_file_ne.
    + intros u c7 k7 [E7 V7]. split; [done|]. right. exists r, w. split; [done|]. split; [congruence|]. split; [done..|].
      rewrite V7, V6, V5, V4, (tw_view _ _ _ _ _ T). rewrite (set_file_comm _ r w) by done. rewrite set_file_twice, (set_file_comm _ w r), set_file_twice by done.
      by rewrite set_file_comm.
Qed.

(** The descriptors are given back, and the files closed. *)
Lemma pipe_undo X me v r w l c k :
  cpu_proc c = Some me -> v_procs v !! me = Some (l, false) -> two_files v r w FD_PIPE (fview k) ->
  X me = false -> (exists l', own X me l' l' false v) -> sound X me (fun X' _ => settled X' me) ((fileclose r ;; fileclose w ;; ret (-1)) c k).
Proof.
  intros Hc Hp T HX [l' Ho]. eapply sound_weaken; [eapply (close_two X me v r w FD_PIPE (-1)); [done|by right]|]. intros x c1 k1 [_ [E1 V1]].
  split; [done|]. split; [congruence|]. exists l'. by rewrite V1.
Qed.

(** Clearing a descriptor that was free before. *)
Lemma clear_undo X me l n f v c k :
  cpu_proc c = Some me -> fview k = set_proc v me (<[n := Some f]> l, false) -> v_procs v !! me = Some (l, false) -> l !! n = Some None ->
  sound X me (keep X (fun _ => makes c v)) (clear_fd (Z.of_nat n) c k).
Proof.
  intros Hc V Hp Hn. eapply sound_weaken; [eapply clear_fd_fd; [done|rewrite V; by eapply set_proc_at]|]. intros u c1 k1 [E1 V1]. split; [done|]. split; [done|].
  rewrite V1, V, set_proc_twice, setz_insert, Nat2Z.id by lia. rewrite list_insert_insert_eq, list_insert_id by done. by apply set_proc_same.
Qed.

Lemma clear_both (l : list (option nat)) n m o o' :
  l !! n = Some None -> <[n := o]> l !! m = Some None -> <[m := None]> (<[n := None]> (<[m := o']> (<[n := o]> l))) = l.
Proof.
  intros Hn Hm. pose proof (lookup_lt_Some _ _ _ Hn). pose proof (lookup_lt_Some _ _ _ Hm) as Hl. rewrite length_insert in Hl.
  apply list_eq. intros j. destruct (decide (j = m)) as [->|Hj]; [|rewrite list_lookup_insert_ne by done; destruct (decide (j = n)) as [->|Hj']].
  - rewrite list_lookup_insert_eq by (by rewrite !length_insert). destruct (decide (m = n)) as [->|]; [done|]. by rewrite list_lookup_insert_ne in Hm.
  - by rewrite list_lookup_insert_eq by (by rewrite !length_insert).
  - by rewrite !list_lookup_insert_ne.
Qed.

Lemma set_two v r w ty v' i p : two_files v r w ty v' -> two_files (set_proc v i p) r w ty (set_proc v' i p).
Proof. intros [H1' H2' H3' ->]. by split. Qed.

Lemma counted_two {X} ds v r w v' : counted X ds none [] v -> two_files v r w FD_PIPE v' -> counted X ds (fun g => one r g + one w g) [] v'.
Proof.
  intros C [Hne Hr Hw ->]. pose proof (counted_alloc _ _ _ _ _ _ C Hr) as C1. assert (Hr1 := set_file_at _ _ _ (1, FD_NONE) Hr).
  pose proof (counted_typed _ _ _ _ _ _ _ FD_PIPE C1 Hr1 ltac:(lia) ltac:(done)) as C2. rewrite set_file_twice in C2.
  assert (Hw2 : v_files (set_file v r (1, FD_PIPE)) !! w = Some (0, FD_NONE)) by (by rewrite set_file_ne).
  pose proof (counted_alloc _ _ _ _ _ _ C2 Hw2) as C3. assert (Hw3 := set_file_at _ _ _ (1, FD_NONE) Hw2).
  pose proof (counted_typed _ _ _ _ _ _ _ FD_PIPE C3 Hw3 ltac:(lia) ltac:(done)) as C4. rewrite set_file_twice in C4.
  eapply counted_ext; [exact C4|]. flow.
Qed.

Lemma call_pipe : call sys_pipe.
Proof.
  intros X me c k (HX & Hc & l & Hp & ds & C & Hd). unfold sys_pipe. apply sound_curproc; [done|]. apply sound_after; [still|]. intros a c0 k0 E0 V0.
  rewrite <- V0 in *. assert (Ho : exists l', own X me l' l' false (fview k0)) by (exists l; split; [done|by exists ds]).
  eapply sound_then; [apply pipealloc_fd, C|]. intros [[x o0] o1] c1 k1 [[Hx [E1 V1]]|(r & w & [= -> -> ->] & E1 & T)].
  { cbn in Hx. subst x. split; [done|]. split; [congruence|]. by rewrite V1. }
  cbn [Z.ltb Z.compare]. do 2 erewrite bind_done by reflexivity. pose proof (counted_two _ _ _ _ _ C T) as C1.
  assert (Hp1 : v_procs (fview k1) !! me = Some (l, false)) by (by rewrite (tw_view _ _ _ _ _ T)).
  eapply sound_then; [eapply fdalloc_fd; [congruence|done]|]. intros ? c2 k2 [[-> [E2 V2]]|(n & -> & Hn & _ & E2 & V2)].
  { erewrite bind_done by reflexivity. cbn [Z.ltb Z.compare orb Z.geb]. erewrite bind_done by reflexivity. rewrite <- V2 in T.
    eapply pipe_undo; [congruence|exact Hp|done|done|done]. }
  set (l1 := <[n := Some r]> l) in *. assert (Hp2 : v_procs (fview k2) !! me = Some (l1, false)) by (rewrite V2; by eapply set_proc_at).
  pose proof (counted_fd _ _ _ _ _ _ _ _ _ (Some r) C1 Hd Hp1 Hn (or_introl eq_refl)) as C2. fold l1 in C2. rewrite <- V2 in C2.
  destruct (Z.ltb_spec (Z.of_nat n) 0); [lia|].
  eapply sound_then; [eapply fdalloc_fd; [congruence|done]|]. intros ? c3 k3 [[-> [E3 V3]]|(m & -> & Hm & _ & E3 & V3)].
  { cbn [Z.ltb Z.compare orb]. destruct (Z.geb_spec (Z.of_nat n) 0); [|lia].
    eapply sound_then; [eapply clear_undo; [congruence|rewrite V3; exact V2|done|done]|]. intros _ c4 k4 [E4 V4]. rewrite <- V4 in T.
    eapply pipe_undo; [congruence|exact Hp|done|done|done]. }
  set (l2 := <[m := Some w]> l1) in *. assert (Hp3 : v_procs (fview k3) !! me = Some (l2, false)) by (rewrite V3; by eapply set_proc_at).
  pose proof (counted_fd _ _ _ _ _ _ _ _ _ (Some w) C2 (table_at _ _ _ _ Hd) Hp2 Hm (or_introl eq_refl)) as C3. fold l2 in C3. rewrite <- V3 in C3.
  destruct (Z.ltb_spec (Z.of_nat m) 0); [lia|]. cbn [orb].
  apply sound_after; [still|]. intros q c4 k4 E4 V4. apply sound_after; [still|]. intros x c5 k5 E5 V5. apply sound_after; [still|]. intros y c6 k6 E6 V6.
  rewrite V4 in V5. rewrite V5 in V6. clear V4 V5. destruct (y <? 0).
  - eapply sound_then; [eapply clear_fd_fd; [congruence|by rewrite V6]|]. intros _ c7 k7 [E7 V7].
    eapply sound_then; [eapply clear_fd_fd; [congruence|rewrite V7, V6; by eapply set_proc_at]|]. intros _ c8 k8 [E8 V8].
    eapply pipe_undo; [congruence|exact Hp| |done|done]. replace (fview k8) with (fview k1); [done|].
    rewrite V8, V7, V6, set_proc_twice, !setz_insert, !Nat2Z.id by lia. rewrite V3, V2, !set_proc_twice. symmetry. rewrite set_proc_same; [done|]. 
    rewrite Hp1. unfold l2, l1. by rewrite (clear_both l n m (Some r) (Some w)).
  - eapply (settled_intro X me l2 (<[me := l2]> (<[me := l1]> ds))); [congruence|by rewrite V6|eapply table_at; by eapply table_at|by rewrite V6| |done]. flow.
Qed.

End calls.
