(* ===== verification/FdProcs.v ===== *)
(** * Open files across [fork], [exit] and [wait] *)

From S2P Require Import Prelude Riscv CString Kernel Printf Kalloc Vm Args Sched Sleeplock Bio Log Fs Pipe Console File Proc ProcFork Exec Sysfile FdView FdStill FdSteps FdCalls FdSyscalls.
From stdpp Require Import base numbers strings gmap list.
From Stdlib Require Import ZArith Lia.

#[local] Open Scope Z_scope.
#[local] Open Scope kernel_scope.

Section slots.
Context `{Linker}.

(** The state of slot [i] changes, and whether it is dead with it. *)
Lemma modproc_state X me i h l d d' c k :
  v_procs (fview k) !! i = Some (l, d) -> (forall p, proc_view (h p) = (p_ofile p, d')) ->
  sound X me (keep X (fun _ => makes c (set_proc (fview k) i (l, d')))) (modproc i h c k).
Proof. intros (p & Hp & <- & _)%view_proc Hh. split; [done|]. split; [done|]. rewrite <- Hh. by apply (fview_proc k i p). Qed.

Lemma freeproc_fd X me i l d c k :
  v_procs (fview k) !! i = Some (l, d) -> sound X me (keep X (fun _ => makes c (set_proc (fview k) i (l, true)))) (freeproc i c k).
Proof.
  intros Hi. unfold freeproc. apply sound_after; [still|]. intros p c1 k1 E1 V1. apply sound_after; [still|]. intros _ c2 k2 E2 V2.
  apply sound_after; [still|]. intros _ c3 k3 E3 V3. apply sound_after; [still|]. intros q c4 k4 E4 V4. apply sound_after; [still|].
  intros _ c5 k5 E5 V5. assert (V : fview k5 = fview k) by congruence. eapply sound_weaken; [eapply (modproc_state X me i _ l d true); [by rewrite V|done]|].
  intros u c6 k6 [E6 V6]. split; [done|]. split; congruence.
Qed.

(** The slot [allocproc] finds comes to life; if it fails, nothing has changed. *)
Definition spawned (c : cpu) (v : view) (o : option nat) (c' : cpu) (k' : kernel) : Prop :=
  match o with
  | None => makes c v c' k'
  | Some i => exists l, v_procs v !! i = Some (l, true) /\ makes c (set_proc v i (l, false)) c' k'
  end.

Lemma alloc_undo X me i l v c k :
  v_procs v !! i = Some (l, true) -> fview k = set_proc v i (l, false) ->
  sound X me (keep X (spawned c v)) ((freeproc i ;; release (LProc i) ;; ret None) c k).
Proof.
  intros Hi V. eapply sound_then; [eapply (freeproc_fd X me i l false); rewrite V; by eapply set_proc_at|]. intros _ c1 k1 [E1 V1].
  apply sound_release. intros c2 E2. split; [done|]. split; [congruence|]. rewrite V1, V, set_proc_twice. by apply set_proc_same.
Qed.

Lemma allocproc_found_fd X me i l c k :
  v_procs (fview k) !! i = Some (l, true) -> sound X me (keep X (spawned c (fview k))) (allocproc_found i c k).
Proof.
  intros Hi. unfold allocproc_found. apply sound_after; [still|]. intros pid c1 k1 E1 V1. apply sound_after; [still|]. intros _ c2 k2 E2 V2.
  rewrite V1 in V2. eapply sound_then; [eapply (modproc_state X me i _ l true false); [by rewrite V2|done]|]. intros _ c3 k3 [E3 V3].
  apply sound_after; [still|]. intros _ c4 k4 E4 V4. apply sound_after; [still|]. intros tf c5 k5 E5 V5. apply sound_after; [still|].
  intros _ c6 k6 E6 V6. assert (V : fview k6 = set_proc (fview k) i (l, false)) by congruence. destruct (tf =? 0).
  { eapply sound_weaken; [by apply (alloc_undo X me i l (fview k))|]. intros o c7 k7. unfold keep, spawned, makes. by rewrite E6, E5, E4, E3, E2, E1. }
  apply sound_after; [still|]. intros pt c7 k7 E7 V7. apply sound_after; [still|]. intros _ c8 k8 E8 V8. destruct (pt =? 0).
  { eapply sound_weaken; [apply (alloc_undo X me i l (fview k)); [done|congruence]|]. intros o c9 k9. unfold keep, spawned, makes.
    by rewrite E8, E7, E6, E5, E4, E3, E2, E1. }
  do 3 (apply sound_after; [still|]; intros _ ? ? ? ?). split; [done|]. exists l. split; [done|]. split; congruence.
Qed.

Lemma allocproc_fd X me c k : sound X me (keep X (spawned c (fview k))) (allocproc c k).
Proof.
  unfold allocproc. generalize 64%nat at 1. intros n. generalize 0%nat. revert c. induction n as [|n IH]; intros c i; cbn [allocproc_loop]; [by split|].
  apply sound_acquire. intros c1 E1. apply sound_getproc. intros p Hp. destruct (decide (p_state p = UNUSED)) as [Hu|].
  - eapply sound_weaken; [eapply (allocproc_found_fd X me i (p_ofile p)); apply view_proc; exists p; unfold dead; by rewrite Hu|].
    intros o c2 k2. unfold keep, spawned, makes. by rewrite E1.
  - apply sound_release. intros c2 E2. eapply sound_weaken; [apply IH|]. intros o c3 k3. unfold keep, spawned, makes. by rewrite E2, E1.
Qed.

(** [kwait] frees a slot that was dead already. *)
Lemma steps_kwait_scan n pp p addr hk : steps (kwait_scan n pp p addr hk).
Proof.
  revert pp hk. induction n as [|n IH]; intros pp hk; cbn [kwait_scan]; [steps|]. apply steps_bind; [steps|]. intros q0. destruct (decide _); [|apply IH].
  apply steps_bind; [steps|]. intros _ X me t l c k Hc Ho. apply sound_getproc. intros q Hq. destruct (decide (p_state q = ZOMBIE)) as [Hz|].
  2: { assert (S : steps (release (LProc pp) ;; kwait_scan n (S pp) p addr true)) by (steps; apply IH). by apply S. }
  cbv zeta. apply sound_after; [still|]. intros m c1 k1 E1 V1. apply sound_after; [still|]. intros r c2 k2 E2 V2.
  rewrite <- V1, <- V2 in Ho. assert (Hc2 : cpu_proc c2 = Some me) by congruence. destruct (r <? 0).
  { assert (S : steps (release (LProc pp) ;; release LWait ;; ret (@inl Z bool (-1)))) by steps. by apply S. }
  assert (Hd : v_procs (fview k2) !! pp = Some (p_ofile q, true)).
  { rewrite V2, V1. apply view_proc. exists q. unfold dead. by rewrite Hz. }
  eapply sound_then; [by eapply freeproc_fd|]. intros _ c3 k3 [E3 V3]. rewrite set_proc_same in V3 by done. rewrite <- V3 in Ho.
  assert (S : steps (release (LProc pp) ;; release LWait ;; ret (@inl Z bool (p_pid q)))) by steps. apply S; [congruence|done].
Qed.
#[local] Hint Resolve steps_kwait_scan : files.

Context `{Fuel}.

Lemma steps_kwait_loop n p addr : steps (kwait_loop n p addr).
Proof. induction n as [|n IH]; cbn [kwait_loop]; steps. Qed.
#[local] Hint Resolve steps_kwait_loop : files.

Lemma call_wait : call sys_wait.
Proof. apply steps_call. unfold sys_wait, kwait. steps. Qed.

End slots.

(** ** [fork] *)

(** The caller and the child, which has been given the descriptors below [i]. *)
Record family (X : exiting) (me np : nat) (l : list (option nat)) (i : nat) (v : view) : Prop := {
  fm_ne : me <> np;
  fm_me : v_procs v !! me = Some (l, false);
  fm_child : exists ds lc, v_procs v !! np = Some (lc, false) /\ counted X ds none [] v /\ ds !! me = Some l /\ ds !! np = Some lc /\
    forall j f, (i <= j)%nat -> lc !! j <> Some (Some f)
}.

(** The next step keeps the process and the view. *)
Ltac skip :=
  lazymatch goal with
  | |- sound _ _ _ (bind _ _ ?c ?k) =>
      apply sound_after; [still|]; let a := fresh "a" in let c' := fresh "c" in let k' := fresh "k" in let E := fresh "E" in let V := fresh "V" in
      intros a c' k' E V; try rewrite <- E in *; try rewrite <- V in *; clear E V
  end.

Section fork.
Context `{Linker} `{Fuel} `{DeviceSteps}.

(** One descriptor. *)
Lemma family_next X me np l i v : family X me np l i v -> (forall f, l !! i <> Some (Some f)) -> family X me np l (S i) v.
Proof.
  intros [Hne Hm (ds & lc & Hc & C & H1' & H2' & H3')] Hi. split; [done|done|]. exists ds, lc. do 4 (split; [done|]). intros j f Hj. apply H3'. lia.
Qed.

Lemma family_dup X me np l i f v n ty :
  family X me np l i v -> l !! i = Some (Some f) -> v_files v !! f = Some (n, ty) -> 1 <= n ->
  exists lc, v_procs v !! np = Some (lc, false) /\ family X me np l (S i) (set_proc (set_file v f (n + 1, ty)) np (<[i := Some f]> lc, false)).
Proof.
  intros [Hne Hm (ds & lc & Hc & C & H1' & H2' & H3')] Hi Hf Hn. exists lc. split; [done|]. split; [done|by cbn; rewrite list_lookup_insert_ne|].
  assert (Hlc : lc !! i = Some None).
  { destruct (counted_slot _ _ _ _ _ _ C H1') as (p & Hp & L1 & _). destruct (counted_slot _ _ _ _ _ _ C H2') as (q & Hq & L2 & _).
    replace p with (l, false) in * by congruence. replace q with (lc, false) in * by congruence. cbn in L1, L2.
    destruct (lookup_lt_is_Some_2 lc i) as [[g|] Hg]; [apply lookup_lt_Some in Hi; lia| |done]. by destruct (H3' i g ltac:(lia) Hg). }
  exists (<[np := <[i := Some f]> lc]> ds), (<[i := Some f]> lc). split; [cbn; apply list_lookup_insert_eq; by apply lookup_lt_Some in Hc|].
  split; [|split; [by rewrite list_lookup_insert_ne|split; [by eapply table_at|]]].
  - eapply counted_ext; [eapply (counted_fd ds _ [] (set_file v f (n + 1, ty)) np lc false i None (Some f)); [by eapply counted_dup|done..|by left]|]. flow.
  - intros j g Hj. rewrite list_lookup_insert_ne by lia. apply H3'. lia.
Qed.

Lemma kfork_files_fd X me np l n i c k :
  family X me np l i (fview k) ->
  sound X me (keep X (fun _ c' k' => cpu_proc c' = cpu_proc c /\ family X me np l (n + i) (fview k'))) (kfork_files n i me np c k).
Proof.
  revert i c k. induction n as [|n IH]; intros i c k F; cbn [kfork_files]; [by split|]. apply sound_getproc. intros p Hp.
  pose proof (fm_me _ _ _ _ _ _ F) as (q & Hq & Hl & _)%view_proc. replace q with p in * by congruence. rewrite Hl.
  eapply (sound_then X me (fun _ c' k' => cpu_proc c' = cpu_proc c /\ family X me np l (S i) (fview k'))).
  - destruct (l !! i) as [[f|]|] eqn:Hi; [|split; [done|]; split; [done|apply family_next; [done|congruence]]..].
    destruct (fm_child _ _ _ _ _ _ F) as (ds & lc & _ & C & Hd & _). destruct (open_file _ _ _ _ _ _ _ _ C Hd Hi) as (m & ty & Hf & Hm & _); [done|].
    destruct (family_dup _ _ _ _ _ _ _ _ _ F Hi Hf) as (lc' & Hlc & F'); [lia|].
    eapply sound_then; [eapply (filedup_fd X me f m ty); [done|unfold none in Hm; lia]|]. intros f' c1 k1 [-> [E1 V1]].
    rewrite <- V1 in F'. assert (Hlc1 : v_procs (fview k1) !! np = Some (lc', false)) by (by rewrite V1). apply view_proc in Hlc1 as (x & Hx & Hof & Hdd).
    split; [done|]. split; [done|]. rewrite (fview_proc k1 np x) by done. unfold proc_view. cbn [p_ofile update]. rewrite Hof. change (dead _) with (dead x). by rewrite Hdd.
  - intros _ c1 k1 [E1 F1]. eapply sound_weaken; [by apply IH|]. intros u c2 k2 [E2 F2]. split; [done|]. split; [congruence|]. by rewrite Nat.add_succ_r in F2.
Qed.

Lemma family_settled X me np l i c k : X me = false -> cpu_proc c = Some me -> family X me np l i (fview k) -> settled X me c k.
Proof. intros HX Hc [_ Hm (ds & lc & _ & C & Hd & _)]. split; [done|]. split; [done|]. exists l. split; [done|by exists ds]. Qed.

(** The new slot has no descriptors. *)
Lemma family_start X me np l l0 ds v :
  v_procs v !! me = Some (l, false) -> counted X ds none [] v -> ds !! me = Some l -> v_procs v !! np = Some (l0, true) ->
  family X me np l 0 (set_proc v np (l0, false)).
Proof.
  intros Hm C Hd Hnp. assert (Hne : me <> np) by (intros ->; congruence).
  destruct (counted_counts _ _ _ _ _ _ C Hnp) as (t & Ht & L & Hor & E). cbn [fst snd] in *. destruct (E eq_refl) as [HX El]. clear E.
  assert (Et : t = l0) by (destruct Hor as [->|(? & _)]; congruence).
  split; [done|by cbn; rewrite list_lookup_insert_ne|]. exists ds, l0. split; [by eapply set_proc_at|].
  split; [|split; [done|split; [congruence|]]].
  - rewrite <- (list_insert_id ds np l0) by congruence. eapply counted_ext; [eapply (counted_proc ds none [] v np t l0 (l0, false)); [done|done|]|].
    + split; [done|]. split; [by left|done].
    + intros f. cbn beta. rewrite Et. unfold none. lia.
  - intros j f _. rewrite El. by intros [? _]%lookup_replicate_1.
Qed.

Lemma call_fork : call sys_fork.
Proof.
  intros X me c k S. pose proof S as (HX & Hc & l & Hp & ds & C & Hd). unfold sys_fork, kfork. apply sound_curproc; [done|].
  eapply sound_then; [apply allocproc_fd|]. intros [np|] c1 k1 HA; [|by eapply settled_view]. destruct HA as (l0 & Hnp & E1 & V1).
  pose proof (family_start _ _ _ _ _ _ _ Hp C Hd Hnp) as F. rewrite <- V1 in F.
  apply sound_after; [still|]. intros q c2 k2 E2 V2. apply sound_after; [still|]. intros nq c3 k3 E3 V3. apply sound_after; [still|].
  intros r c4 k4 E4 V4. assert (V : fview k4 = fview k1) by congruence. assert (E : cpu_proc c4 = cpu_proc c) by congruence. destruct (r <? 0).
  { eapply sound_then; [eapply (freeproc_fd X me np l0 false); rewrite V, V1; by eapply set_proc_at|]. intros _ c5 k5 [E5 V5].
    apply sound_release. intros c6 E6. eapply settled_view; [done|]. split; [congruence|]. rewrite V5, V, V1, set_proc_twice. by apply set_proc_same. }
  rewrite <- V in F. rewrite <- E in Hc. clear dependent c1 c2 c3 k1 k2 k3 ds c. do 3 skip.
  eapply sound_then; [by apply kfork_files_fd|]. cbn beta. intros _ c8 k8 [E8 F8]. rewrite <- E8 in Hc. clear E8. do 10 skip.
  destruct (fm_child _ _ _ _ _ _ F8) as (ds & lc & Hlc & _). eapply sound_then; [by eapply (modproc_state X me np _ lc false false)|]. intros _ c20 k20 [E20 V20].
  rewrite set_proc_same in V20 by done. rewrite <- E20 in Hc. rewrite <- V20 in F8. skip. by eapply family_settled.
Qed.

(** ** [exit] *)

(** No descriptor below [n]. *)
Definition none_below (n : nat) (l : list (option nat)) : Prop := forall j f, (j < n)%nat -> l !! j <> Some (Some f).

(** An exiting process closes the file first and clears the descriptor afterwards. *)
Lemma exit_close X me l fd f v :
  X me = true -> own X me l l false v -> l !! fd = Some (Some f) ->
  exists ds, counted X ds (one f) [] v /\ ds !! me = Some (<[fd := None]> l).
Proof.
  intros HX [Hp (ds & C & Hd)] Hfd. exists (<[me := <[fd := None]> l]> ds). split; [|by eapply table_at].
  destruct (counted_slot _ _ _ _ _ _ C Hd) as (p & Hp' & L & _). replace p with (l, false) in * by congruence.
  rewrite <- (set_proc_same v me (l, false)) by done. eapply counted_ext; [eapply (counted_proc ds none [] v me l (<[fd := None]> l)); [done|done|]|].
  - split; [done|]. split; [right; split; [done|]; by exists fd|done].
  - intros g. cbn beta. rewrite (refs_to_insert g l fd (Some f) None Hfd). tally.
Qed.

Lemma exit_clear X me l fd v :
  own X me (<[fd := None]> l) l false v -> own X me (<[fd := None]> l) (<[fd := None]> l) false (set_proc v me (<[fd := None]> l, false)).
Proof.
  intros [Hp (ds & C & Hd)]. split; [by eapply set_proc_at|]. exists ds. split; [|done].
  destruct (counted_slot _ _ _ _ _ _ C Hd) as (p & Hp' & L & _). replace p with (l, false) in * by congruence.
  rewrite <- (list_insert_id ds me _ Hd). eapply counted_ext; [eapply (counted_proc ds none [] v me _ (<[fd := None]> l)); [done|done|]|].
  - split; [cbn; by rewrite length_insert|]. split; [by left|done].
  - intros g. unfold none. lia.
Qed.

(** The descriptors below [n] are gone. *)
Definition closed_below (me n : nat) (X : exiting) (_ : unit) (c : cpu) (k : kernel) : Prop :=
  X me = true /\ cpu_proc c = Some me /\ exists l, own X me l l false (fview k) /\ none_below n l.

Lemma kexit_files_fd X me n fd l c k :
  X me = true -> cpu_proc c = Some me -> own X me l l false (fview k) -> none_below fd l ->
  sound X me (closed_below me (n + fd)) (kexit_files n fd me c k).
Proof.
  revert X fd l c k. induction n as [|n IH]; intros X fd l c k HX Hc Ho Hb; cbn [kexit_files]; [split; [done|split; [done|by exists l]]|].
  apply sound_getproc. intros p Hp. pose proof Ho as [(q & Hq & Hl & _)%view_proc _]. replace q with p in * by congruence. rewrite Hl.
  eapply (sound_bind X me (closed_below me (S fd))).
  - assert (Hnext : (forall f, l !! fd <> Some (Some f)) -> closed_below me (S fd) X tt c k).
    { intros Hn. split; [done|]. split; [done|]. exists l. split; [done|]. intros j g Hj. destruct (decide (j = fd)) as [->|]; [apply Hn|apply Hb; lia]. }
    destruct (l !! fd) as [[f|]|] eqn:Hfd; [|apply Hnext; congruence..].
    destruct (exit_close _ _ _ _ _ _ HX Ho Hfd) as (ds & C & Hd). eapply sound_bind; [eapply (fileclose_own X me f _ l ds); [done|apply Ho|done|done]|].
    intros X1 _ c1 k1 (EX & Hc1 & Ho1). split; [congruence|]. split; [done|]. exists (<[fd := None]> l).
    destruct (own_proc _ _ _ _ _ _ Ho1) as (x & Hx & Hof & Hdd). split.
    + rewrite (fview_proc k1 me x) by done. unfold proc_view. cbn [p_ofile update]. rewrite Hof. change (dead _) with (dead x). rewrite Hdd. by apply exit_clear.
    + intros j g Hj. destruct (decide (j = fd)) as [->|]; [rewrite list_lookup_insert_eq by (by apply lookup_lt_Some in Hfd); done|].
      rewrite list_lookup_insert_ne by done. apply Hb. lia.
  - intros X1 _ c1 k1 (HX1 & Hc1 & l1 & Ho1 & Hb1). replace (S n + fd)%nat with (n + S fd)%nat by lia. by eapply IH.
Qed.

(** While all of its descriptors count, whether a process is exiting makes no difference. *)
Lemma own_agree X X' me l v : (forall j, j <> me -> X' j = X j) -> own X me l l false v -> own X' me l l false v.
Proof.
  intros HX [Hp (ds & C & Hd)]. split; [done|]. exists ds. split; [|done]. split; try apply C. intros i t p Hi Hq.
  destruct (decide (i = me)) as [->|Hne]; [|rewrite HX by done; by eapply ct_table].
  destruct (ct_table _ _ _ _ _ C me t p Hi Hq) as (Hlen & _ & _). replace p with (l, false) in * by congruence. split; [done|]. split; [left|done]. cbn. congruence.
Qed.

(** A process without descriptors may become a zombie, which is not exiting any more. *)
Lemma own_zombie X me l v : own X me l l false v -> none_below 16 l -> own (leave X me false) me l l true (set_proc v me (l, true)).
Proof.
  intros Ho Hb. apply (own_agree X (leave X me false)) in Ho as [Hp (ds & C & Hd)]; [|intros j Hj; by apply leave_other]. split; [by eapply set_proc_at|]. exists ds. split; [|done].
  destruct (counted_slot _ _ _ _ _ _ C Hd) as (p & Hp' & L & _). replace p with (l, false) in * by congruence. cbn in L.
  rewrite <- (list_insert_id ds me _ Hd). eapply counted_ext; [eapply (counted_proc ds none [] v me l l); [done|done|]|].
  - split; [done|]. split; [by left|]. intros _. split; [apply leave_me|]. cbn [fst]. symmetry. apply replicate_as_elem_of. split; [done|].
    intros o [j Hj]%list_elem_of_lookup. destruct o as [f|]; [|done]. apply lookup_lt_Some in Hj as Hlt. by destruct (Hb j f ltac:(lia) Hj).
  - intros g. unfold none. lia.
Qed.

Lemma zombie_sched X me l c k : cpu_proc c = Some me -> own (leave X me false) me l l true (fview k) -> sound X me (fun _ _ _ _ => False) (sched c k).
Proof.
  intros Hc Ho. unfold sched. apply sound_curproc; [done|]. skip. destruct (negb _); [done|]. skip. destruct (negb _); [done|]. skip.
  destruct (decide _); [done|]. cbn. split; [done|]. exists (leave X me false), l, l, true. split; [split; [intros j Hj; by apply leave_other|done]|]. by split.
Qed.

Lemma sound_steps {A B} X me t l (m : M A) (f : A -> M B) c k Q :
  steps m -> cpu_proc c = Some me -> own X me t l false (fview k) ->
  (forall X' a c' k', cpu_proc c' = Some me -> own X' me t l false (fview k') -> sound X' me Q (f a c' k')) -> sound X me Q (bind m f c k).
Proof. intros Hm Hc Ho Hf. eapply sound_bind; [by eapply Hm|]. intros X' a c' k' (_ & Hc' & Ho'). by apply Hf. Qed.

Lemma call_kexit {A} status : call (kexit status : M A).
Proof.
  intros X me c k (_ & Hc & l & Ho). apply sound_leave. apply (own_agree X (leave X me true)) in Ho; [|intros j Hj; by apply leave_other].
  pose proof (leave_me X me true) as HX. revert HX Ho. generalize (leave X me true).
  clear X. intros X HX Ho. unfold kexit. apply sound_curproc; [done|]. skip. destruct (decide _); [done|].
  eapply sound_bind; [eapply kexit_files_fd; [done|done|done|intros j f Hj; lia]|]. intros X1 _ c1 k1 (_ & Hc1 & l1 & Ho1 & Hb). clear Hc.
  do 12 (eapply sound_steps; [steps|done|done|]; clear dependent c1; clear dependent k1; clear X1; intros X1 ? c1 k1 Hc1 Ho1).
  eapply sound_then; [eapply (modproc_state X1 me me _ l1 false true); [apply Ho1|done]|]. intros _ c2 k2 [E2 V2]. rewrite <- E2 in Hc1.
  pose proof (own_zombie _ _ _ _ Ho1 Hb) as Hz. rewrite <- V2 in Hz. skip. eapply sound_bind; [by eapply zombie_sched|]. done.
Qed.

Lemma call_exit : call sys_exit.
Proof. unfold sys_exit. apply call_after; [still|]. intros n. apply call_kexit. Qed.

End fork.
