(* ===== verification/VirtioDisk.v ===== *)
(** * The disk driver: [virtio_disk.c]

    The descriptor table, the rings and the driver's book-keeping are [vdisk].
    What the device does with a request is an assumption of DiskRefine.v. *)

From S2P Require Import Prelude Riscv CString Kernel Printf Kalloc Sched Sleeplock Bio Console.
From stdpp Require Import base numbers strings gmap list.
From Stdlib Require Import ZArith Lia.

#[local] Open Scope Z_scope.
#[local] Open Scope kernel_scope.

Abbreviation NUM := 8%Z (only parsing).
Abbreviation VRING_DESC_F_NEXT := 1%Z (only parsing).
Abbreviation VRING_DESC_F_WRITE := 2%Z (only parsing).
Abbreviation VIRTIO_BLK_T_IN := 0%Z (only parsing).
Abbreviation VIRTIO_BLK_T_OUT := 1%Z (only parsing).

Definition modvd (f : vdisk_t -> vdisk_t) : M unit := modify (fun k => k <| vdisk ::= f |>).
Definition moddesc (i : Z) (f : virtq_desc -> virtq_desc) : M unit :=
  modvd (fun v => v <| vd_desc ::= fun l => setz l i (f (nthd desc_0 l i)) |>).

(** ** Descriptors *)

Fixpoint alloc_desc_loop (n : nat) (i : Z) : M Z :=
  match n with
  | O => ret (-1)
  | S n =>
      v <- gets vdisk ;;
      if nthd false (vd_free v) i then
        modvd (fun v => v <| vd_free ::= fun l => setz l i false |>) ;;
        ret i
      else alloc_desc_loop n (i + 1)
  end.

Definition alloc_desc : M Z := alloc_desc_loop 8 0.

Definition free_desc (i : Z) : M unit :=
  if i >=? NUM then panic "free_desc 1" else
  v <- gets vdisk ;;
  if nthd false (vd_free v) i then panic "free_desc 2" else
  moddesc i (fun d => d <| d_addr := ANull |>) ;;
  moddesc i (fun d => d <| d_len := 0 |>) ;;
  moddesc i (fun d => d <| d_flags := 0 |>) ;;
  moddesc i (fun d => d <| d_next := 0 |>) ;;
  modvd (fun v => v <| vd_free ::= fun l => setz l i true |>) ;;
  wakeup CDiskFree.

(** [while(1)]: a chain has at most NUM descriptors. *)
Fixpoint free_chain_loop (n : nat) (i : Z) : M unit :=
  match n with
  | O => stuck "free_chain"
  | S n =>
      v <- gets vdisk ;;
      let flags := d_flags (nthd desc_0 (vd_desc v) i) in
      let nxt := d_next (nthd desc_0 (vd_desc v) i) in
      free_desc i ;;
      if flag flags VRING_DESC_F_NEXT then free_chain_loop n nxt else ret tt
  end.

Definition free_chain (i : Z) : M unit := free_chain_loop 8 i.

Fixpoint free_descs (idx : list Z) : M unit :=
  match idx with
  | [] => ret tt
  | i :: idx => free_desc i ;; free_descs idx
  end.

(** [for(int i = 0; i < 3; i++)], with the descriptors got so far. *)
Fixpoint alloc3_loop (n : nat) (idx : list Z) : M (option (list Z)) :=
  match n with
  | O => ret (Some idx)
  | S n =>
      i <- alloc_desc ;;
      if i <? 0 then
        free_descs idx ;;
        ret None
      else alloc3_loop n (idx ++ [i])
  end.

Definition alloc3_desc : M (option (list Z)) := alloc3_loop 3 [].

(** ** Requests *)

Section Operations.
Context `{Fuel}.

(** [while(1)]: sleep until three descriptors are free. *)
Fixpoint wait_desc (fl : nat) : M (list Z) :=
  match fl with
  | O => stuck "alloc3_desc"
  | S fl =>
      o <- alloc3_desc ;;
      match o with
      | Some idx => ret idx
      | None => sleep CDiskFree LDisk ;; wait_desc fl
      end
  end.

(** [while(b->disk == 1)] *)
Fixpoint wait_done (fl : nat) (b : nat) : M unit :=
  match fl with
  | O => stuck "virtio_disk_rw"
  | S fl =>
      bf <- getbuf b ;;
      if b_disk bf then
        sleep (CBuf b) LDisk ;;
        wait_done fl b
      else ret tt
  end.

(** Formatting the three descriptors and telling the device. *)
Definition submit (b : nat) (write : bool) (sector i0 i1 i2 : Z) : M unit :=
  modvd (fun v => v <| vd_ops ::= fun l =>
    setz l i0 (mkreq (if write then VIRTIO_BLK_T_OUT else VIRTIO_BLK_T_IN) 0 sector) |>) ;;
  moddesc i0 (fun _ => mkdesc (AOp (Z.to_nat i0)) 16 VRING_DESC_F_NEXT i1) ;;
  moddesc i1 (fun _ => mkdesc (AData b) BSIZE
    (Z.lor (if write then 0 else VRING_DESC_F_WRITE) VRING_DESC_F_NEXT) i2) ;;
  modvd (fun v => v <| vd_info_status ::= fun l => setz l i0 0xff |>) ;;
  moddesc i2 (fun _ => mkdesc (AStatus (Z.to_nat i0)) 1 VRING_DESC_F_WRITE 0) ;;
  modbuf b (fun bf => bf <| b_disk := true |>) ;;
  modvd (fun v => v <| vd_info_b ::= fun l => setz l i0 (Some b) |>) ;;
  modvd (fun v => v <| vd_avail_ring ::= fun l => setz l (vd_avail_idx v mod NUM) i0 |>) ;;
  modvd (fun v => v <| vd_avail_idx ::= fun n => u16 (n + 1) |>) ;;
  moddevs (fun d => d <| mmio_out ::= cons (VIRTIO0 + 0x050, 0) |>).

Definition virtio_disk_rw (b : nat) (write : bool) : M unit :=
  bf <- getbuf b ;;
  let sector := u32 (b_blockno bf * (BSIZE / 512)) in
  acquire LDisk ;;
  printf monitor_fmt
    [VStr (Some (str (if write then "WRITE" else "READ "))); VInt (b_blockno bf); VInt (i32 sector)] ;;
  idx <- wait_desc (S fuel) ;;
  match idx with
  | [i0; i1; i2] =>
      submit b write sector i0 i1 i2 ;;
      wait_done (S fuel) b ;;
      modvd (fun v => v <| vd_info_b ::= fun l => setz l i0 None |>) ;;
      free_chain i0 ;;
      release LDisk
  | _ => stuck "idx"
  end.

End Operations.

(** [while(disk.used_idx != disk.used->idx)]: the device is at most NUM ahead. *)
Fixpoint virtio_disk_intr_loop (n : nat) : M unit :=
  match n with
  | O => stuck "virtio_disk_intr"
  | S n =>
      v <- gets vdisk ;;
      if vd_used_idx v =? vd_used_ridx v then ret tt else
      let id := nthd 0 (vd_used_ring v) (vd_used_idx v mod NUM) in
      if negb (nthd 0 (vd_info_status v) id =? 0) then panic "virtio_disk_intr status" else
      b <- deref (nthd None (vd_info_b v) id) ;;
      modbuf b (fun bf => bf <| b_disk := false |>) ;;
      wakeup (CBuf b) ;;
      modvd (fun v => v <| vd_used_idx ::= fun n => u16 (n + 1) |>) ;;
      virtio_disk_intr_loop n
  end.

(** The first lines acknowledge the interrupt at the device. *)
Definition virtio_disk_intr : M unit :=
  acquire LDisk ;;
  d <- gets devs ;;
  moddevs (fun d => d <| mmio_out ::= cons (VIRTIO0 + 0x064, Z.land (mmio_in d (VIRTIO0 + 0x060)) 0x3) |>) ;;
  virtio_disk_intr_loop 9 ;;
  release LDisk.

(** ** Initialisation *)

(** [*R(r)] read and written. *)
Definition R_get (r : Z) : M Z := d <- gets devs ;; ret (mmio_in d (VIRTIO0 + r)).
Definition R_set (r v : Z) : M unit := moddevs (fun d => d <| mmio_out ::= cons (VIRTIO0 + r, u32 v) |>).

Section Init.
Context {LK : Linker}.

(** [features &= ~(1 << bit)] for the bits the driver does not want. *)
Definition clear_bits (bits : list Z) (x : Z) : Z := fold_left (fun x b => Z.land x (Z.lnot (Z.shiftl 1 b))) bits x.

Definition virtio_disk_init : M unit :=
  initlock LDisk ;;
  magic <- R_get 0x000 ;;
  version <- R_get 0x004 ;;
  device_id <- R_get 0x008 ;;
  vendor <- R_get 0x00c ;;
  if negb (magic =? 0x74726976) || negb (version =? 2) || negb (device_id =? 2) || negb (vendor =? 0x554d4551)
  then panic "could not find virtio disk" else
  R_set 0x070 0 ;;
  R_set 0x070 1 ;;
  R_set 0x070 (Z.lor 1 2) ;;
  features <- R_get 0x010 ;;
  R_set 0x020 (clear_bits [5; 7; 11; 12; 27; 29; 28] features) ;;
  R_set 0x070 (Z.lor (Z.lor 1 2) 8) ;;
  status <- R_get 0x070 ;;
  if negb (flag status 8) then panic "virtio disk FEATURES_OK unset" else
  R_set 0x030 0 ;;
  ready <- R_get 0x044 ;;
  if negb (ready =? 0) then panic "virtio disk should not be ready" else
  max <- R_get 0x034 ;;
  if max =? 0 then panic "virtio disk has no queue 0" else
  if max <? NUM then panic "virtio disk max queue too short" else
  desc <- kalloc ;;
  avail <- kalloc ;;
  used <- kalloc ;;
  if (desc =? 0) || (avail =? 0) || (used =? 0) then panic "virtio disk kalloc" else
  kmemset desc 0 PGSIZE ;;
  kmemset avail 0 PGSIZE ;;
  kmemset used 0 PGSIZE ;;
  modvd (fun v => v <| vd_desc := replicate 8 desc_0 |> <| vd_avail_idx := 0 |> <| vd_avail_ring := replicate 8 0 |>
    <| vd_used_ridx := 0 |> <| vd_used_ring := replicate 8 0 |>) ;;
  R_set 0x038 NUM ;;
  R_set 0x080 desc ;;
  R_set 0x084 (Z.shiftr desc 32) ;;
  R_set 0x090 avail ;;
  R_set 0x094 (Z.shiftr avail 32) ;;
  R_set 0x0a0 used ;;
  R_set 0x0a4 (Z.shiftr used 32) ;;
  R_set 0x044 0x1 ;;
  modvd (fun v => v <| vd_free := replicate 8 true |>) ;;
  R_set 0x070 (Z.lor status 4).

End Init.
