(* ===== verification/DiskRefine.v ===== *)
(** * The disk driver keeps the promise of [BlockDevice]

    One request on an idle queue, from the call of [virtio_disk_rw] to its
    return: the driver queues a chain of three descriptors and sleeps, the
    device serves it, the interrupt handler wakes the driver, and the driver
    frees the chain.  The theorem says that this transfers the block as the
    file system's model of the disk ([transfer]) does. *)

From S2P Require Import Prelude Riscv CString Kernel Printf Kalloc Sched Sleeplock Bio Console VirtioDisk.
From stdpp Require Import base numbers strings gmap list.
From Stdlib Require Import ZArith Lia.

#[local] Open Scope Z_scope.
#[local] Open Scope kernel_scope.

(** No request is queued or being served: every descriptor is free, and the
    driver and the device have seen the same number of requests, [seen]. *)
Record vd_idle (seen : Z) (v : vdisk_t) : Prop := {
  vi_desc : length (vd_desc v) = 8%nat;
  vi_avail : length (vd_avail_ring v) = 8%nat;
  vi_used : length (vd_used_ring v) = 8%nat;
  vi_info : length (vd_info_b v) = 8%nat;
  vi_status : length (vd_info_status v) = 8%nat;
  vi_ops : length (vd_ops v) = 8%nat;
  vi_free : vd_free v = replicate 8 true;
  vi_seen : 0 <= seen < 2 ^ 16;
  vi_avail_idx : vd_avail_idx v = seen;
  vi_used_ridx : vd_used_ridx v = seen;
  vi_used_idx : vd_used_idx v = seen
}.

(** Only the state and the channel of processes differ. *)
Definition same_procs (ps ps' : list proc) : Prop :=
  Forall2 (fun q q' => q' <| p_state := p_state q |> <| p_chan := p_chan q |> = q) ps ps'.

(** Descriptors 0, 1 and 2 are taken. *)
Definition taken (v : vdisk_t) : vdisk_t := v <| vd_free := [false; false; false; true; true; true; true; true] |>.

(** The queue with one request in it: chain 0, 1, 2. *)
Definition queued (b : nat) (write : bool) (sector : Z) (v : vdisk_t) : vdisk_t :=
  v <| vd_ops ::= fun l => setz l 0 (mkreq (if write then VIRTIO_BLK_T_OUT else VIRTIO_BLK_T_IN) 0 sector) |>
    <| vd_desc ::= fun l => setz (setz (setz l 0 (mkdesc (AOp 0) 16 VRING_DESC_F_NEXT 1))
         1 (mkdesc (AData b) BSIZE (Z.lor (if write then 0 else VRING_DESC_F_WRITE) VRING_DESC_F_NEXT) 2))
         2 (mkdesc (AStatus 0) 1 VRING_DESC_F_WRITE 0) |>
    <| vd_info_status ::= fun l => setz l 0 0xff |>
    <| vd_info_b ::= fun l => setz l 0 (Some b) |>
    <| vd_avail_ring ::= fun l => setz l (vd_avail_idx v mod NUM) 0 |>
    <| vd_avail_idx ::= fun n => u16 (n + 1) |>.

(** The queue after the device served the request. *)
Definition served (v : vdisk_t) : vdisk_t :=
  v <| vd_info_status ::= fun l => setz l 0 0 |>
    <| vd_used_ring ::= fun l => setz l (vd_used_ridx v mod NUM) 0 |>
    <| vd_used_ridx ::= fun n => u16 (n + 1) |>.

Lemma alloc3_idle seen c k : vd_idle seen (vdisk k) ->
  alloc3_desc c k = Done (Some [0; 1; 2]) c (k <| vdisk ::= taken |>).
Proof.
  intros [_ _ _ _ _ _ Hf _ _ _ _]. destruct k. cbn in Hf. destruct vdisk. cbn in Hf. subst. reflexivity.
Qed.

Lemma submit_done b write sector c k :
  submit b write sector 0 1 2 c k = Done tt c (k <| vdisk ::= queued b write sector |>
    <| bufs ::= alter (fun bf => bf <| b_disk := true |>) b |> <| devs ::= fun d => d <| mmio_out ::= cons (VIRTIO0 + 0x050, 0) |> |>).
Proof. destruct k. destruct vdisk. reflexivity. Qed.

(** The chain of three descriptors, read back. *)
Lemma nthd_three {A} (d : A) l x y z : length l = 8%nat ->
  nthd d (setz (setz (setz l 0 x) 1 y) 2 z) 0 = x /\ nthd d (setz (setz (setz l 0 x) 1 y) 2 z) 1 = y /\
  nthd d (setz (setz (setz l 0 x) 1 y) 2 z) 2 = z.
Proof.
  intros Hl. assert (Hz : Z.of_nat (length l) = 8) by lia.
  split_and!; repeat (rewrite nthd_setz_ne by lia); apply nthd_setz_eq; rewrite ?length_setz; lia.
Qed.

(** ** The device *)

(** The device has served [seen] requests, and the available ring has another
    one: [head] starts a chain of three descriptors for a block request, whose
    parts are request [rq], the data of buffer [b] and status byte [s]. *)
Record request_at (seen : Z) (v : vdisk_t) (head : Z) (rq : virtio_blk_req) (b s : nat) : Prop := {
  ra_new : vd_avail_idx v <> seen;
  ra_head : nthd 0 (vd_avail_ring v) (seen mod NUM) = head;
  ra_op : exists o, nthd req_0 (vd_ops v) (Z.of_nat o) = rq /\
    let d0 := nthd desc_0 (vd_desc v) head in
    let d1 := nthd desc_0 (vd_desc v) (d_next d0) in
    let d2 := nthd desc_0 (vd_desc v) (d_next d1) in
    d0 = mkdesc (AOp o) 16 (d_flags d0) (d_next d0) /\ flag (d_flags d0) VRING_DESC_F_NEXT = true /\
    d1 = mkdesc (AData b) BSIZE (d_flags d1) (d_next d1) /\ flag (d_flags d1) VRING_DESC_F_NEXT = true /\
    flag (d_flags d1) VRING_DESC_F_WRITE = (rq_type rq =? VIRTIO_BLK_T_IN) /\
    d2 = mkdesc (AStatus s) 1 VRING_DESC_F_WRITE 0
}.

(** The transfer the request asks for: two sectors make a block. *)
Definition perform (rq : virtio_blk_req) (b : nat) (bf : buf) (k : kernel) : kernel :=
  let bno := rq_sector rq / 2 in
  if rq_type rq =? VIRTIO_BLK_T_OUT
  then k <| disk ::= <[bno := b_data bf]> |> <| writes ::= cons (bno, b_data bf) |>
  else k <| bufs ::= alter (fun x => x <| b_data := dblk k bno |>) b |>.

(** The status byte is written and the chain is added to the used ring. *)
Definition used (head : Z) (s : nat) (v : vdisk_t) : vdisk_t :=
  v <| vd_info_status ::= fun l => setz l (Z.of_nat s) 0 |>
    <| vd_used_ring ::= fun l => setz l (vd_used_ridx v mod NUM) head |>
    <| vd_used_ridx ::= fun n => u16 (n + 1) |>.

(** What the driver relies on (virtio 1.1, 2.6 and 5.2): the device serves such a request. *)
Definition virtio_device (device : Z -> kernel -> option kernel) : Prop :=
  forall seen k head rq b s bf, request_at seen (vdisk k) head rq b s -> bufs k !! b = Some bf ->
    rq_type rq = VIRTIO_BLK_T_IN \/ rq_type rq = VIRTIO_BLK_T_OUT -> Z.even (rq_sector rq) = true ->
    device seen k = Some ((perform rq b bf k) <| vdisk ::= used head s |>).

Lemma queued_request seen b write bno v :
  vd_idle seen v ->
  request_at seen (queued b write (bno * 2) (taken v)) 0 (mkreq (if write then VIRTIO_BLK_T_OUT else VIRTIO_BLK_T_IN) 0 (bno * 2)) b 0.
Proof.
  intros [Hd Ha Hu Hi Hs Ho Hf Hr Ea Eu Ei].
  destruct (nthd_three desc_0 (vd_desc v) (mkdesc (AOp 0) 16 VRING_DESC_F_NEXT 1)
    (mkdesc (AData b) BSIZE (Z.lor (if write then 0 else VRING_DESC_F_WRITE) VRING_DESC_F_NEXT) 2)
    (mkdesc (AStatus 0) 1 VRING_DESC_F_WRITE 0)) as (E0&E1&E2); [done|]. split.
  - change (u16 (vd_avail_idx v + 1) <> seen). rewrite Ea. unfold u16. zlia.
  - change (nthd 0 (setz (vd_avail_ring v) (vd_avail_idx v mod NUM) 0) (seen mod NUM) = 0). rewrite Ea. apply nthd_setz_eq. zlia.
  - exists 0%nat. split; [apply (nthd_setz_eq req_0 (vd_ops v) 0); lia|].
    change (vd_desc (queued b write (bno * 2) (taken v))) with (setz (setz (setz (vd_desc v) 0 (mkdesc (AOp 0) 16 VRING_DESC_F_NEXT 1))
         1 (mkdesc (AData b) BSIZE (Z.lor (if write then 0 else VRING_DESC_F_WRITE) VRING_DESC_F_NEXT) 2))
         2 (mkdesc (AStatus 0) 1 VRING_DESC_F_WRITE 0)).
    cbv zeta. rewrite E0. cbn [d_next d_flags]. rewrite E1. cbn [d_next d_flags]. rewrite E2. by destruct write.
Qed.

Lemma device_serves device seen b write bno bf v k :
  virtio_device device -> vd_idle seen v -> vdisk k = queued b write (bno * 2) (taken v) -> bufs k !! b = Some bf ->
  device seen k = Some ((if write then k <| disk ::= <[bno := b_data bf]> |> <| writes ::= cons (bno, b_data bf) |>
    else k <| bufs ::= alter (fun x => x <| b_data := dblk k bno |>) b |>) <| vdisk ::= served |>).
Proof.
  intros Hdev Hv Ev Hb. rewrite (Hdev seen k 0 (mkreq (if write then VIRTIO_BLK_T_OUT else VIRTIO_BLK_T_IN) 0 (bno * 2)) b 0%nat bf).
  - unfold perform. cbn [rq_sector rq_type]. rewrite Z.div_mul by done. by destruct write.
  - rewrite Ev. by apply queued_request.
  - done.
  - destruct write; auto.
  - cbn [rq_sector]. apply Z.even_spec. exists bno. lia.
Qed.

(** ** Processes *)

Lemma same_procs_refl ps : same_procs ps ps.
Proof. apply Forall_Forall2_diag, Forall_true. by intros []. Qed.
Lemma same_procs_trans ps1 ps2 ps3 : same_procs ps1 ps2 -> same_procs ps2 ps3 -> same_procs ps1 ps3.
Proof.
  intros H12. revert ps3. induction H12 as [|q1 q2 ps1 ps2 E1 _ IH]; intros ps3 H23; [done|].
  apply Forall2_cons_inv_l in H23 as (q3&ps3'&E2&H23&->). constructor; [|by apply IH]. by rewrite <- E1, <- E2.
Qed.
Lemma same_procs_woken ch me ps : same_procs ps (imap (woken ch me) ps).
Proof.
  apply Forall2_same_length_lookup_2; [by rewrite length_imap|]. intros j q q' Hq Hq'. rewrite list_lookup_imap, Hq in Hq'.
  injection Hq' as <-. unfold woken. destruct (_ && _); by destruct q.
Qed.
Lemma same_procs_alter (f : proc -> proc) i ps :
  (forall q, (f q) <| p_state := p_state q |> <| p_chan := p_chan q |> = q) -> same_procs ps (alter f i ps).
Proof.
  intros Hf. apply Forall2_same_length_lookup_2; [by rewrite length_alter|]. intros j q q' Hq Hq'. destruct (decide (i = j)) as [<-|].
  - rewrite list_lookup_alter_eq, Hq in Hq'. injection Hq' as <-. apply Hf.
  - rewrite list_lookup_alter_ne, Hq in Hq' by done. injection Hq' as <-. by destruct q.
Qed.

Lemma setz_setz {A} (l : list A) i x y : setz (setz l i x) i y = setz l i y.
Proof. unfold setz. destruct (i <? 0); [done|]. apply list_insert_insert_eq. Qed.

(** ** The interrupt *)

(** What the handler does for one entry of the used ring. *)
Definition acknowledged (b : nat) (me : option nat) (k : kernel) : kernel :=
  k <| bufs ::= alter (fun bf => bf <| b_disk := false |>) b |> <| procs ::= imap (woken (CBuf b) me) |>
    <| vdisk ::= fun v => v <| vd_used_idx ::= fun n => u16 (n + 1) |> |>.

Lemma intr_loop_step n b id c k :
  let v := vdisk k in
  vd_used_idx v <> vd_used_ridx v -> nthd 0 (vd_used_ring v) (vd_used_idx v mod NUM) = id -> nthd 0 (vd_info_status v) id = 0 ->
  nthd None (vd_info_b v) id = Some b -> procs_unlocked c -> length (procs k) = 64%nat ->
  virtio_disk_intr_loop (S n) c k = virtio_disk_intr_loop n c (acknowledged b (cpu_proc c) k).
Proof.
  intros v Hne Hid Hst Hb Hu Hn. cbn [virtio_disk_intr_loop]. erewrite bind_done by done. fold v.
  destruct (Z.eqb_spec (vd_used_idx v) (vd_used_ridx v)) as [|_]; [done|]. rewrite Hid, Hst, Hb. cbn [Z.eqb negb].
  erewrite bind_done by done. erewrite bind_done by done. erewrite bind_done by (by apply wakeup_ok). by erewrite bind_done by done.
Qed.

Lemma intr_loop_end n c k : vd_used_idx (vdisk k) = vd_used_ridx (vdisk k) -> virtio_disk_intr_loop (S n) c k = Done tt c k.
Proof. intros E. cbn [virtio_disk_intr_loop]. erewrite bind_done by done. by rewrite E, Z.eqb_refl. Qed.

Lemma intr_done b write bno seen v c k :
  vd_idle seen v -> vdisk k = served (queued b write (bno * 2) (taken v)) -> held c = [] -> length (procs k) = 64%nat ->
  exists d, virtio_disk_intr c k = Done tt c (acknowledged b (cpu_proc c) (k <| devs := d |>)).
Proof.
  intros [Hd Ha Hu Hi Hs Ho Hf Hr Ea Eu Ei] Hv Hh Hn. assert (Hl : LDisk ∉ held c) by (rewrite Hh; apply not_elem_of_nil).
  eexists. unfold virtio_disk_intr. erewrite bind_done by (by apply acquire_ok). erewrite bind_done by done. erewrite bind_done by done.
  erewrite bind_done; [by apply release_ok|]. set (k1 := k <| devs ::= _ |>). change 9%nat with (S (S 7)).
  rewrite (intr_loop_step _ b 0).
  - change (cpu_proc (c <| held := _ |>)) with (cpu_proc c). rewrite intr_loop_end; [reflexivity|].
    unfold acknowledged, k1. kred. rewrite Hv. cbn. by rewrite Ei, Eu.
  - unfold k1. kred. rewrite Hv. cbn. rewrite Ei, Eu. unfold u16. zlia.
  - unfold k1. kred. rewrite Hv. cbn. rewrite Ei, Eu. apply nthd_setz_eq. zlia.
  - change (vdisk k1) with (vdisk k). rewrite Hv. apply (nthd_setz_eq _ (setz (vd_info_status v) 0 0xff)). rewrite length_setz. lia.
  - change (vdisk k1) with (vdisk k). rewrite Hv. apply (nthd_setz_eq _ (vd_info_b v)). lia.
  - intros j. kred. rewrite Hh. by intros ?%list_elem_of_singleton.
  - done.
Qed.

(** ** Freeing the chain *)

Definition freed_desc (i : Z) (v : vdisk_t) : vdisk_t :=
  v <| vd_desc ::= fun l => setz l i desc_0 |> <| vd_free ::= fun l => setz l i true |>.

Lemma modvd_modvd {B} f g (h : unit -> M B) c k :
  (modvd f ;; x <- modvd g ;; h x) c k = (x <- modvd (fun v => g (f v)) ;; h x) c k.
Proof. reflexivity. Qed.
Lemma modvd_to f g c k : f (vdisk k) = g (vdisk k) -> modvd f c k = Done tt c (k <| vdisk ::= g |>).
Proof. intros E. unfold modvd, modify. cbn. by rewrite E. Qed.

Lemma free_desc_done i c k :
  0 <= i < NUM -> length (vd_desc (vdisk k)) = 8%nat -> nthd false (vd_free (vdisk k)) i = false -> procs_unlocked c ->
  length (procs k) = 64%nat ->
  free_desc i c k = Done tt c (k <| vdisk ::= freed_desc i |> <| procs ::= imap (woken CDiskFree (cpu_proc c)) |>).
Proof.
  intros Hi Hd Hf Hu Hn. unfold free_desc. rewrite Z.geb_leb. destruct (Z.leb_spec NUM i); [lia|]. erewrite bind_done by done. rewrite Hf.
  unfold moddesc. rewrite !modvd_modvd.
  erewrite bind_done; [by apply wakeup_ok|]. apply modvd_to. unfold freed_desc. cbn. f_equal.
  rewrite !setz_setz, !nthd_setz_eq by (rewrite ?length_setz; lia). reflexivity.
Qed.

(** [free_chain] for one descriptor. *)
Definition freed_k (i : Z) (me : option nat) (k : kernel) : kernel :=
  k <| vdisk ::= freed_desc i |> <| procs ::= imap (woken CDiskFree me) |>.

Lemma free_chain_step n i fl nx c k :
  0 <= i < NUM -> length (vd_desc (vdisk k)) = 8%nat -> nthd false (vd_free (vdisk k)) i = false -> procs_unlocked c ->
  length (procs k) = 64%nat -> d_flags (nthd desc_0 (vd_desc (vdisk k)) i) = fl -> d_next (nthd desc_0 (vd_desc (vdisk k)) i) = nx ->
  free_chain_loop (S n) i c k =
    (if flag fl VRING_DESC_F_NEXT then free_chain_loop n nx else ret tt) c (freed_k i (cpu_proc c) k).
Proof.
  intros Hi Hd Hf Hu Hn <- <-. cbn [free_chain_loop]. erewrite bind_done by done. cbv zeta. by erewrite bind_done by (by apply free_desc_done).
Qed.

(** The three descriptors of a chain that starts at 0. *)
Lemma free_chain_done x y z c k l :
  vd_desc (vdisk k) = setz (setz (setz l 0 x) 1 y) 2 z -> length l = 8%nat ->
  vd_free (vdisk k) = [false; false; false; true; true; true; true; true] ->
  flag (d_flags x) VRING_DESC_F_NEXT = true -> d_next x = 1 -> flag (d_flags y) VRING_DESC_F_NEXT = true -> d_next y = 2 ->
  flag (d_flags z) VRING_DESC_F_NEXT = false -> procs_unlocked c -> length (procs k) = 64%nat ->
  free_chain 0 c k = Done tt c (freed_k 2 (cpu_proc c) (freed_k 1 (cpu_proc c) (freed_k 0 (cpu_proc c) k))).
Proof.
  intros Hd Hl Hf Fx Nx Fy Ny Fz Hu Hn. destruct (nthd_three desc_0 l x y z Hl) as (E0&E1&E2). rewrite <- Hd in E0, E1, E2.
  assert (Hlen : length (vd_desc (vdisk k)) = 8%nat) by (by rewrite Hd, !length_setz).
  assert (Hz : Z.of_nat (length (vd_desc (vdisk k))) = 8) by lia.
  assert (D1 : vd_desc (vdisk (freed_k 0 (cpu_proc c) k)) = setz (vd_desc (vdisk k)) 0 desc_0) by done.
  assert (D2 : vd_desc (vdisk (freed_k 1 (cpu_proc c) (freed_k 0 (cpu_proc c) k))) = setz (setz (vd_desc (vdisk k)) 0 desc_0) 1 desc_0) by done.
  unfold free_chain. change 8%nat with (S (S (S 5))).
  rewrite (free_chain_step _ 0 (d_flags x) 1), Fx; [|lia|done|by rewrite Hf|done|done|by rewrite E0|by rewrite E0].
  rewrite (free_chain_step _ 1 (d_flags y) 2), Fy;
    [|lia|by rewrite D1, length_setz|unfold freed_k; kred; cbn; by rewrite Hf|done|unfold freed_k; kred; by rewrite length_imap|
     rewrite D1, nthd_setz_ne, E1 by lia; done..].
  rewrite (free_chain_step _ 2 (d_flags z) (d_next z)), Fz;
    [done|lia|by rewrite D2, !length_setz|unfold freed_k; kred; cbn; by rewrite Hf|done|unfold freed_k; kred; by rewrite !length_imap|
     rewrite D2, !nthd_setz_ne, E2 by lia; done..].
Qed.

(** ** The request *)

Lemma monitor_format write bno : exists cs, format (str monitor_fmt) (monitor_msg write bno) = Some cs.
Proof. destruct write; eexists; reflexivity. Qed.

Section Request.
Context `{Fu : Fuel}.

(** The kernel while the driver waits for its request. *)
Definition requested (i b : nat) (write : bool) (bf : buf) (k : kernel) : kernel :=
  asleep i (CBuf b) (k <| uart ::= fun o => o ++ out (default [] (format (str monitor_fmt) (monitor_msg write (b_blockno bf)))) |>
    <| vdisk ::= fun v => queued b write (b_blockno bf * 2) (taken v) |>
    <| bufs ::= alter (fun bf => bf <| b_disk := true |>) b |>
    <| devs ::= fun d => d <| mmio_out ::= cons (VIRTIO0 + 0x050, 0) |> |>).

(** The kernel when the driver returns, from the one in which it is resumed. *)
Definition finished (i : nat) (k : kernel) : kernel :=
  freed_k 2 (Some i) (freed_k 1 (Some i) (freed_k 0 (Some i)
    (k <| procs ::= alter (fun p => p <| p_chan := CNull |>) i |> <| vdisk ::= fun v => v <| vd_info_b ::= fun l => setz l 0 None |> |>))).

(** The chain of the request is in the descriptor table. *)
Definition chain_in (b : nat) (write : bool) (v : vdisk_t) : Prop :=
  vd_free v = [false; false; false; true; true; true; true; true] /\
  exists l, length l = 8%nat /\ vd_desc v = setz (setz (setz l 0 (mkdesc (AOp 0) 16 VRING_DESC_F_NEXT 1))
         1 (mkdesc (AData b) BSIZE (Z.lor (if write then 0 else VRING_DESC_F_WRITE) VRING_DESC_F_NEXT) 2))
         2 (mkdesc (AStatus 0) 1 VRING_DESC_F_WRITE 0).

Lemma free_chain_in b write c k :
  chain_in b write (vdisk k) -> procs_unlocked c -> length (procs k) = 64%nat ->
  free_chain 0 c k = Done tt c (freed_k 2 (cpu_proc c) (freed_k 1 (cpu_proc c) (freed_k 0 (cpu_proc c) k))).
Proof.
  intros (Hf&l&Hl&Hd) Hu Hn. eapply free_chain_done; [exact Hd|done|done|done|done| |done|done|done|done]. by destruct write.
Qed.

Lemma rw_sleeps seen i b write bf p c k :
  (0 < fuel)%nat -> vd_idle seen (vdisk k) -> held c = [] -> cpu_proc c = Some i -> procs k !! i = Some p ->
  bufs k !! b = Some bf -> 0 <= b_blockno bf < 2 ^ 31 ->
  exists resume, virtio_disk_rw b write c k = Switch (c <| held := [LProc i] |>) (requested i b write bf k) resume /\
    forall c' k' bf', cpu_proc c' = Some i -> held c' = [LProc i] -> bufs k' !! b = Some bf' -> b_disk bf' = false ->
      chain_in b write (vdisk k') -> length (procs k') = 64%nat ->
      resume c' k' = Done tt (c' <| held := [] |>) (finished i k').
Proof.
  intros Hfu Hv Hh Hi Hp Hb Hbno. assert (Hl : forall lk, lk ∉ held c) by (intros lk; rewrite Hh; apply not_elem_of_nil).
  destruct (monitor_format write (b_blockno bf)) as [cs Ecs].
  unfold virtio_disk_rw. erewrite bind_done by (by apply getbuf_done). cbv zeta. change (BSIZE / 512) with 2.
  rewrite (u32_small (b_blockno bf * 2)) by lia. erewrite bind_done by (by apply acquire_ok).
  erewrite bind_done by (eapply printf_done; [kred; rewrite Hh; by intros ?%list_elem_of_singleton|]; unfold monitor_msg in Ecs;
    rewrite (u32_small (b_blockno bf * 2)) in Ecs by lia; exact Ecs).
  set (k1 := k <| uart ::= _ |>).
  erewrite bind_done by (cbn [wait_desc]; erewrite bind_done by (by apply (alloc3_idle seen)); reflexivity).
  cbv iota beta. erewrite bind_done by apply submit_done.
  set (k2 := (k1 <| vdisk ::= taken |>) <| vdisk ::= _ |> <| bufs ::= _ |> <| devs ::= _ |>).
  assert (Hb2 : bufs k2 !! b = Some (bf <| b_disk := true |>)).
  { change (bufs k2) with (alter (fun bf => bf <| b_disk := true |>) b (bufs k)). by rewrite list_lookup_alter_eq, Hb. }
  destruct (sleep_switches i (CBuf b) LDisk (c <| held := LDisk :: held c |>) k2 p) as (r & Es & Hr); [done|done|by rewrite Hh|done|].
  cbn [wait_done]. erewrite bind_switch; [|erewrite bind_done by (by apply getbuf_done); change (b_disk (bf <| b_disk := true |>)) with true; cbv iota; by erewrite bind_switch by exact Es].
  eexists. split.
  { unfold requested. rewrite Ecs. reflexivity. }
  intros c' k' bf' Hi' Hh' Hb' Hd' Hch Hn'. cbv beta. rewrite Hr by done. cbn [continue].
  destruct fuel as [|fl]; [lia|]. cbn [wait_done]. erewrite bind_done by (by apply getbuf_done). rewrite Hd'. cbv iota. cbn [continue ret].
  erewrite bind_done by done. erewrite bind_done by (apply (free_chain_in b write); [exact Hch|
    intros j; kred; by intros ?%list_elem_of_singleton|kred; by rewrite length_alter]).
  rewrite release_done by (kred; apply list_elem_of_here). kred. rewrite filter_cons_False by tauto. rewrite Hi'. reflexivity.
Qed.

(** The scheduler lets process [i] run again. *)
Definition scheduled (i : nat) (k : kernel) : kernel := k <| procs ::= alter (fun p => p <| p_state := RUNNING |>) i |>.

(** What the device did, before the queue is updated. *)
Definition moved (b : nat) (write : bool) (bno : Z) (bf : buf) (k : kernel) : kernel :=
  if write then k <| disk ::= <[bno := b_data bf]> |> <| writes ::= cons (bno, b_data bf) |>
  else k <| bufs ::= alter (fun x => x <| b_data := dblk k bno |>) b |>.

Lemma moved_procs b write bno bf k f : procs ((moved b write bno bf k) <| vdisk ::= f |>) = procs k.
Proof. unfold moved. destruct write; cbn; reflexivity. Qed.

Lemma moved_buf b write bno bf bf1 k f : bufs k !! b = Some bf1 ->
  exists bf2, bufs ((moved b write bno bf k) <| vdisk ::= f |>) !! b = Some bf2.
Proof. intros Hb. unfold moved. destruct write; cbn; [by eexists|]. rewrite list_lookup_alter_eq, Hb. by eexists. Qed.

Lemma finished_idle i seen v k b write bno :
  vd_idle seen v ->
  vdisk k = (served (queued b write (bno * 2) (taken v))) <| vd_used_idx ::= fun n => u16 (n + 1) |> ->
  vd_idle (u16 (seen + 1)) (vdisk (finished i k)).
Proof.
  intros [Hd Ha Hu Hi Hs Ho Hf Hr Ea Eu Ei] Hv.
  assert (E : vdisk (finished i k) = freed_desc 2 (freed_desc 1 (freed_desc 0 ((vdisk k) <| vd_info_b ::= fun l => setz l 0 None |>)))) by done.
  rewrite E, Hv. split.
  - transitivity (length (vd_desc v)); [|done]. apply eq_trans with (length (setz (setz (setz (setz (setz (setz (vd_desc v)
      0 (mkdesc (AOp 0) 16 VRING_DESC_F_NEXT 1)) 1 (mkdesc (AData b) BSIZE (Z.lor (if write then 0 else VRING_DESC_F_WRITE) VRING_DESC_F_NEXT) 2))
      2 (mkdesc (AStatus 0) 1 VRING_DESC_F_WRITE 0)) 0 desc_0) 1 desc_0) 2 desc_0)); [done|by rewrite !length_setz].
  - transitivity (length (setz (vd_avail_ring v) (vd_avail_idx v mod NUM) 0)); [done|by rewrite length_setz].
  - transitivity (length (setz (vd_used_ring v) (vd_used_ridx v mod NUM) 0)); [done|by rewrite length_setz].
  - transitivity (length (setz (setz (vd_info_b v) 0 (Some b)) 0 None)); [done|by rewrite !length_setz].
  - transitivity (length (setz (setz (vd_info_status v) 0 0xff) 0 0)); [done|by rewrite !length_setz].
  - transitivity (length (setz (vd_ops v) 0 (mkreq (if write then VIRTIO_BLK_T_OUT else VIRTIO_BLK_T_IN) 0 (bno * 2)))); [done|by rewrite length_setz].
  - done.
  - unfold u16. zlia.
  - transitivity (u16 (vd_avail_idx v + 1)); [done|by rewrite Ea].
  - transitivity (u16 (vd_used_ridx v + 1)); [done|by rewrite Eu].
  - transitivity (u16 (vd_used_idx v + 1)); [done|by rewrite Ei].
Qed.

(** The buffers at the end: the flag [disk] is as it was. *)
Lemma bufs_back b bf (d : option (list Z)) (l : list buf) :
  l !! b = Some bf -> b_disk bf = false ->
  alter (fun x => x <| b_disk := false |>) b
    ((match d with Some ds => alter (fun x => x <| b_data := ds |>) b | None => id end) (alter (fun x => x <| b_disk := true |>) b l)) =
  (match d with Some ds => alter (fun x => x <| b_data := ds |>) b l | None => l end).
Proof.
  intros Hb Hd. destruct d as [ds|].
  - rewrite !lalter_lalter. apply list_eq. intros j. destruct (decide (j = b)) as [->|].
    + rewrite !list_lookup_alter_eq, Hb. destruct bf; cbn in *; by subst.
    + by rewrite !list_lookup_alter_ne.
  - unfold id. rewrite lalter_lalter. apply lalter_id. intros x Hx. assert (x = bf) as -> by congruence. destruct bf; cbn in *; by subst.
Qed.

Lemma finished_transfer i b write bf me d k :
  bufs k !! b = Some bf -> b_disk bf = false ->
  let k1 := requested i b write bf k in
  let k2 := (moved b write (b_blockno bf) bf k1) <| vdisk ::= served |> in
  let k4 := finished i (scheduled i (acknowledged b me (k2 <| devs := d |>))) in
  k4 <| vdisk := vdisk k |> <| procs := procs k |> <| devs := devs k |> = transfer b write bf k.
Proof.
  intros Hb Hd. cbv zeta. unfold transfer, moved. destruct write.
  - pose proof (bufs_back b bf None (bufs k) Hb Hd) as E. cbv iota in E. destruct k. cbn in *. rewrite E. reflexivity.
  - pose proof (bufs_back b bf (Some (dblk k (b_blockno bf))) (bufs k) Hb Hd) as E. cbv iota in E.
    destruct k. cbn in *. unfold dblk in *. cbn in *. rewrite E. reflexivity.
Qed.

Lemma finished_procs i b write bf me d k k2 :
  procs k2 = procs (requested i b write bf k) ->
  same_procs (procs k) (procs (finished i (scheduled i (acknowledged b me (k2 <| devs := d |>))))).
Proof.
  intros E.
  assert (E1 : procs (finished i (scheduled i (acknowledged b me (k2 <| devs := d |>)))) =
    imap (woken CDiskFree (Some i)) (imap (woken CDiskFree (Some i)) (imap (woken CDiskFree (Some i))
      (alter (fun p => p <| p_chan := CNull |>) i (alter (fun p => p <| p_state := RUNNING |>) i (imap (woken (CBuf b) me) (procs k2))))))) by done.
  rewrite E1, E. do 3 (eapply same_procs_trans; [|apply same_procs_woken]).
  do 2 (eapply same_procs_trans; [|apply same_procs_alter; by intros []]). eapply same_procs_trans; [|apply same_procs_woken].
  apply same_procs_alter. by intros [].
Qed.

Lemma requested_asleep i b write bf p k :
  procs k !! i = Some p -> procs (requested i b write bf k) !! i = Some (p <| p_chan := CBuf b |> <| p_state := SLEEPING |>).
Proof. intros Hp. unfold requested. by apply (asleep_lookup i (CBuf b) (k <| uart ::= _ |> <| vdisk ::= _ |> <| bufs ::= _ |> <| devs ::= _ |>)). Qed.

(** C31. The disk driver implements the block transfer the file system relies on.  On an idle queue,
    [virtio_disk_rw] queues a request and gives up the CPU asleep on the buffer; a device
    that keeps to the virtio specification then serves the request; the interrupt handler, on any CPU that holds no lock and runs another
    process, returns and makes the caller RUNNABLE; resumed, [virtio_disk_rw] returns without
    locks.  But for the driver's own tables, the states of processes and the device registers the
    kernel is then [transfer b write bf k]: the block copied from the buffer to the disk or back,
    and the monitor's line printed; and the queue is idle again, one request further, also when
    the 16-bit ring counters wrap around. *)
Theorem driver_transfers device seen i b write bf p c ci c' k :
  virtio_device device -> (0 < fuel)%nat -> vd_idle seen (vdisk k) -> held c = [] -> cpu_proc c = Some i -> procs k !! i = Some p -> length (procs k) = 64%nat ->
  bufs k !! b = Some bf -> b_disk bf = false -> 0 <= b_blockno bf < 2 ^ 31 ->
  held ci = [] -> cpu_proc ci <> Some i -> held c' = [LProc i] -> cpu_proc c' = Some i ->
  exists k1 resume k2 k3 k4,
    virtio_disk_rw b write c k = Switch (c <| held := [LProc i] |>) k1 resume /\
    p_state <$> procs k1 !! i = Some SLEEPING /\
    device seen k1 = Some k2 /\
    virtio_disk_intr ci k2 = Done tt ci k3 /\
    p_state <$> procs k3 !! i = Some RUNNABLE /\
    resume c' (scheduled i k3) = Done tt (c' <| held := [] |>) k4 /\
    k4 <| vdisk := vdisk k |> <| procs := procs k |> <| devs := devs k |> = transfer b write bf k /\
    same_procs (procs k) (procs k4) /\ vd_idle (u16 (seen + 1)) (vdisk k4).
Proof.
  intros Hdev Hfu Hv Hh Hi Hp Hn Hb Hd Hbno Hhi Hne Hh' Hi'.
  destruct (rw_sleeps seen i b write bf p c k) as (r & E1 & Hr); try done. set (k1 := requested i b write bf k) in *.
  set (k2 := (moved b write (b_blockno bf) bf k1) <| vdisk ::= served |>).
  assert (Hb1 : bufs k1 !! b = Some (bf <| b_disk := true |>)).
  { change (bufs k1) with (alter (fun bf => bf <| b_disk := true |>) b (bufs k)). by rewrite list_lookup_alter_eq, Hb. }
  assert (E2 : device seen k1 = Some k2).
  { rewrite (device_serves device seen b write (b_blockno bf) (bf <| b_disk := true |>) (vdisk k)) by done. by destruct write. }
  assert (Ev2 : vdisk k2 = served (queued b write (b_blockno bf * 2) (taken (vdisk k)))) by (by destruct write).
  assert (Ep2 : procs k2 = procs k1) by (apply moved_procs).
  assert (Hn2 : length (procs k2) = 64%nat) by (rewrite Ep2; unfold k1, requested, asleep; kred; by rewrite length_alter).
  destruct (intr_done b write (b_blockno bf) seen (vdisk k) ci k2) as (d & E3); try done.
  set (k3 := acknowledged b (cpu_proc ci) (k2 <| devs := d |>)) in *.
  pose proof (requested_asleep i b write bf p k Hp) as Hs.
  exists k1, r, k2, k3, (finished i (scheduled i k3)). split; [done|]. split; [by unfold k1; rewrite Hs|]. split; [done|]. split; [done|]. split.
  { change (procs k3) with (imap (woken (CBuf b) (cpu_proc ci)) (procs k2)). rewrite Ep2, list_lookup_imap. unfold k1. rewrite Hs.
    cbn [fmap option_fmap option_map]. unfold woken. by rewrite !bool_decide_true by done. }
  split.
  { assert (Hb3 : exists bf3, bufs (scheduled i k3) !! b = Some bf3 /\ b_disk bf3 = false).
    { change (bufs (scheduled i k3)) with (alter (fun bf => bf <| b_disk := false |>) b (bufs k2)). rewrite list_lookup_alter_eq.
      destruct (moved_buf b write (b_blockno bf) bf (bf <| b_disk := true |>) k1 served Hb1) as (bf2&Hb2). fold k2 in Hb2. rewrite Hb2. by eexists. }
    destruct Hb3 as (bf3&Hb3&Hd3). apply (Hr c' (scheduled i k3) bf3); [done|done|done|done| |].
    - change (vdisk (scheduled i k3)) with ((vdisk k2) <| vd_used_idx ::= fun n => u16 (n + 1) |>). rewrite Ev2.
      split; [done|]. exists (vd_desc (vdisk k)). split; [apply Hv|done].
    - change (procs (scheduled i k3)) with (alter (fun p => p <| p_state := RUNNING |>) i (imap (woken (CBuf b) (cpu_proc ci)) (procs k2))).
      by rewrite length_alter, length_imap. }
  split; [by apply finished_transfer|]. split; [by eapply finished_procs|].
  eapply finished_idle; [exact Hv|]. change (vdisk (scheduled i k3)) with ((vdisk k2) <| vd_used_idx ::= fun n => u16 (n + 1) |>). by rewrite Ev2.
Qed.
End Request.

(** ** A request that wraps the ring counters around *)

Module DiskDemo.

Definition qfull : vdisk_t :=
  mkvdisk (replicate 8 desc_0) 65535 (replicate 8 0) 65535 (replicate 8 0) (replicate 8 true) 65535 (replicate 8 None)
    (replicate 8 0) (replicate 8 req_0).
Definition block7 : buf := buf_0 <| b_blockno := 7 |> <| b_data := replicate 1024 9 |>.
Definition kq : kernel := kernel_0 <| vdisk := qfull |> <| bufs := [block7] |>.
Definition caller : cpu := mkcpu (Some 3%nat) [] csrs_0.
Definition other : cpu := mkcpu None [] (csrs_0 <| Riscv.tp := 1 |>).
#[local] Instance disk_fuel : Fuel := 1%nat.

(** A device that does what [virtio_device] asks for: it follows the chain. *)
Definition chain_device (seen : Z) (k : kernel) : option kernel :=
  let v := vdisk k in
  if decide (vd_avail_idx v = seen) then None else
  let head := nthd 0 (vd_avail_ring v) (seen mod NUM) in
  let d0 := nthd desc_0 (vd_desc v) head in
  let d1 := nthd desc_0 (vd_desc v) (d_next d0) in
  let d2 := nthd desc_0 (vd_desc v) (d_next d1) in
  match d_addr d0, d_addr d1, d_addr d2 with
  | AOp o, AData b, AStatus s =>
      bf ← bufs k !! b; Some ((perform (nthd req_0 (vd_ops v) (Z.of_nat o)) b bf k) <| vdisk ::= used head s |>)
  | _, _, _ => None
  end.

Lemma chain_device_ok : virtio_device chain_device.
Proof.
  intros seen k head rq b s bf [Hn Hh (o&Ho&E0&_&E1&_&_&E2)] Hb _ _. unfold chain_device. rewrite decide_False by done.
  cbv zeta. rewrite Hh, E2, E1, E0. cbn [d_addr]. rewrite Hb. cbn [mbind option_bind]. by rewrite Ho.
Qed.

Lemma qfull_idle : vd_idle 65535 (vdisk kq).
Proof. by split. Qed.

Lemma driver_transfers_witness :
  exists k1 resume k2 k3 k4, virtio_disk_rw 0 true caller kq = Switch (caller <| held := [LProc 3] |>) k1 resume /\
    chain_device 65535 k1 = Some k2 /\ virtio_disk_intr other k2 = Done tt other k3 /\
    resume (caller <| held := [LProc 3] |>) (scheduled 3 k3) = Done tt caller k4 /\
    k4 <| vdisk := vdisk kq |> <| procs := procs kq |> <| devs := devs kq |> = transfer 0 true block7 kq /\ vd_idle 0 (vdisk k4).
Proof.
  destruct (driver_transfers chain_device 65535 3 0 true block7 proc_0 caller other (caller <| held := [LProc 3] |>) kq)
    as (k1&r&k2&k3&k4&E1&_&E2&E3&_&E4&E5&_&E6); [exact chain_device_ok|by apply Nat.lt_0_1|exact qfull_idle|done|done|reflexivity|reflexivity|reflexivity|reflexivity|done|done|done|done|done|].
  exists k1, r, k2, k3, k4. split; [exact E1|]. split; [exact E2|]. split; [exact E3|]. split; [exact E4|]. split; [exact E5|exact E6].
Defined.
End DiskDemo.
