(* ===== verification/Trap.v ===== *)
(** * Traps, [forkret] and start-up: [trap.c], [plic.c], [main.c], [start.c]

    The control registers of the running hart are [regs] of [cpu].  The value
    the PLIC gives on a claim and the clock are inputs. *)

From S2P Require Import Prelude Riscv CString Kernel Printf Kalloc Vm Args Sched Sleeplock Bio Log Fs Pipe Console File Proc Exec Sysfile VirtioDisk.
From stdpp Require Import base numbers strings gmap list.
From Stdlib Require Import ZArith Lia.

#[local] Open Scope Z_scope.
#[local] Open Scope kernel_scope.

Abbreviation UART0_IRQ := 10%Z (only parsing).
Abbreviation VIRTIO0_IRQ := 1%Z (only parsing).

(** A read and a write of a control register of this hart. *)
Definition csrr (f : csrs -> Z) : M Z := c <- mycpu ;; ret (f (regs c)).
Definition csrw (f : csrs -> csrs) : M unit := setcpu (fun c => c <| regs ::= f |>).

Definition cpuid : M Z := id <- csrr r_tp ;; ret (i32 id).

(** ** plic.c *)

Definition PLIC_SENABLE (hart : Z) : Z := PLIC + 0x2080 + hart * 0x100.
Definition PLIC_SPRIORITY (hart : Z) : Z := PLIC + 0x201000 + hart * 0x2000.
Definition PLIC_SCLAIM (hart : Z) : Z := PLIC + 0x201004 + hart * 0x2000.

Definition mmio_write (a v : Z) : M unit := moddevs (fun d => d <| mmio_out ::= cons (a, v) |>).

Definition plicinit : M unit :=
  mmio_write (PLIC + UART0_IRQ * 4) 1 ;;
  mmio_write (PLIC + VIRTIO0_IRQ * 4) 1.

Definition plicinithart : M unit :=
  hart <- cpuid ;;
  mmio_write (PLIC_SENABLE hart) (Z.lor (Z.shiftl 1 UART0_IRQ) (Z.shiftl 1 VIRTIO0_IRQ)) ;;
  mmio_write (PLIC_SPRIORITY hart) 0.

(** The read of PLIC_SCLAIM(hart) claims the interrupt. *)
Definition plic_claim : M Z :=
  d <- gets devs ;;
  ret (plic_irq d).

Definition plic_complete (irq : Z) : M unit :=
  hart <- cpuid ;;
  mmio_write (PLIC_SCLAIM hart) irq.

(** ** trap.c *)

Definition trapinit : M unit := initlock LTicks.

Definition trapinithart `{Linker} : M unit := csrw (w_stvec kernelvec).

Definition clockintr : M unit :=
  id <- cpuid ;;
  (if id =? 0 then
     acquire LTicks ;;
     modify (fun k => k <| ticks ::= fun t => u32 (t + 1) |>) ;;
     wakeup CTicks ;;
     release LTicks
   else ret tt) ;;
  t <- csrr r_time ;;
  csrw (w_stimecmp (t + 1000000)).

Definition devintr : M Z :=
  scause <- csrr r_scause ;;
  if scause =? 0x8000000000000009 then
    irq <- plic_claim ;;
    (if irq =? UART0_IRQ then uartintr
     else if irq =? VIRTIO0_IRQ then virtio_disk_intr
     else if negb (irq =? 0) then printf ("unexpected interrupt irq=%d" +:+ nl) [VInt irq]
     else ret tt) ;;
    (if negb (irq =? 0) then plic_complete irq else ret tt) ;;
    ret 1
  else if scause =? 0x8000000000000005 then
    clockintr ;;
    ret 2
  else ret 0.

Section Operations.
Context {LK : Linker} `{Fuel} {BD : BlockDevice} `{Uninit}.

Definition prepare_return : M unit :=
  i <- curproc ;;
  csrw intr_off ;;
  csrw (w_stvec (TRAMPOLINE + (uservec - trampoline))) ;;
  satp <- csrr r_satp ;;
  tf_set i kernel_satp satp ;;
  p <- getproc i ;;
  tf_set i kernel_sp (p_kstack p + PGSIZE) ;;
  tf_set i kernel_trap usertrap_pc ;;
  tp <- csrr r_tp ;;
  tf_set i kernel_hartid tp ;;
  x <- csrr r_sstatus ;;
  let x := Z.land x (Z.lnot SSTATUS_SPP) in
  let x := Z.lor x SSTATUS_SPIE in
  csrw (w_sstatus x) ;;
  e <- tf_get i epc ;;
  csrw (w_sepc e).

(** [if(killed(p)) kexit(-1);] *)
Definition exit_if_killed (p : nat) : M unit :=
  x <- killed p ;;
  if negb (x =? 0) then kexit (-1) else ret tt.

(** The result is the [satp] for trampoline.S. *)
Definition usertrap : M Z :=
  sstatus <- csrr r_sstatus ;;
  if negb (Z.land sstatus SSTATUS_SPP =? 0) then panic "usertrap: not from user mode" else
  csrw (w_stvec kernelvec) ;;
  p <- curproc ;;
  sepc <- csrr r_sepc ;;
  tf_set p epc sepc ;;
  scause <- csrr r_scause ;;
  which_dev <-
    (if scause =? 8 then
       exit_if_killed p ;;
       e <- tf_get p epc ;;
       tf_set p epc (u64 (e + 4)) ;;
       csrw intr_on ;;
       syscall ;;
       ret 0
     else
       which_dev <- devintr ;;
       if negb (which_dev =? 0) then ret which_dev else
       scause <- csrr r_scause ;;
       stval <- csrr r_stval ;;
       q <- getproc p ;;
       r <- (if (scause =? 15) || (scause =? 13) then vmfault (p_pagetable q) stval (scause =? 13) else ret 0) ;;
       if negb (r =? 0) then ret 0 else
       printf ("usertrap(): unexpected scause 0x%lx pid=%d" +:+ nl) [VInt scause; VInt (p_pid q)] ;;
       sepc <- csrr r_sepc ;;
       printf ("            sepc=0x%lx stval=0x%lx" +:+ nl) [VInt sepc; VInt stval] ;;
       setkilled p ;;
       ret 0) ;;
  exit_if_killed p ;;
  (if which_dev =? 2 then yield else ret tt) ;;
  prepare_return ;;
  q <- getproc p ;;
  ret (MAKE_SATP (p_pagetable q)).

Definition kerneltrap : M unit :=
  sepc <- csrr r_sepc ;;
  sstatus <- csrr r_sstatus ;;
  scause <- csrr r_scause ;;
  if Z.land sstatus SSTATUS_SPP =? 0 then panic "kerneltrap: not from supervisor mode" else
  c <- mycpu ;;
  if intr_get (regs c) then panic "kerneltrap: interrupts enabled" else
  which_dev <- devintr ;;
  if which_dev =? 0 then
    stval <- csrr r_stval ;;
    printf ("scause=0x%lx sepc=0x%lx stval=0x%lx" +:+ nl) [VInt scause; VInt sepc; VInt stval] ;;
    panic "kerneltrap"
  else
  me <- myproc ;;
  (if (which_dev =? 2) && bool_decide (me <> None) then yield else ret tt) ;;
  csrw (w_sepc sepc) ;;
  csrw (w_sstatus sstatus).

(** [forkret] of [proc.c]: the result is the [satp] it jumps to user space with. *)
Definition forkret : M Z :=
  p <- curproc ;;
  release (LProc p) ;;
  f <- gets first ;;
  (if (f : bool) then
     fsinit ROOTDEV ;;
     modify (fun k => k <| first := false |>) ;;
     r <- kexec (str "/init") [str "/init"] ;;
     tf_set p tf_a0 r ;;
     a0 <- tf_get p tf_a0 ;;
     if a0 =? u64 (-1) then panic "exec" else ret tt
   else ret tt) ;;
  prepare_return ;;
  q <- getproc p ;;
  ret (MAKE_SATP (p_pagetable q)).

(** ** main.c *)

Definition printfinit : M unit := initlock LPr.

(** [sfence_vma] has no effect the model can see. *)
Definition kvminithart : M unit :=
  pt <- gets kernel_pagetable ;;
  csrw (w_satp (MAKE_SATP pt)).

(** [main] up to the call of [scheduler]; the other harts wait for [started]. *)
Definition main : M unit :=
  id <- cpuid ;;
  if id =? 0 then
    consoleinit ;;
    printfinit ;;
    printf nl [] ;;
    printf ("xv6 kernel is booting" +:+ nl) [] ;;
    printf nl [] ;;
    kinit ;;
    kvminit ;;
    kvminithart ;;
    procinit ;;
    trapinit ;;
    trapinithart ;;
    plicinit ;;
    plicinithart ;;
    binit ;;
    iinit ;;
    fileinit ;;
    virtio_disk_init ;;
    userinit ;;
    modify (fun k => k <| started := true |>)
  else
    s <- gets started ;;
    if negb s then stuck "started" else
    printf ("hart %d starting" +:+ nl) [VInt id] ;;
    kvminithart ;;
    trapinithart ;;
    plicinithart.

End Operations.

(** ** start.c *)

Definition timerinit (r : csrs) : csrs :=
  let r := w_mie (Z.lor (r_mie r) MIE_STIE) r in
  let r := w_menvcfg (Z.lor (r_menvcfg r) (Z.shiftl 1 63)) r in
  let r := w_mcounteren (Z.lor (r_mcounteren r) 2) r in
  w_stimecmp (r_time r + 1000000) r.

(** The registers when [mret] is executed. *)
Definition start `{Linker} (r : csrs) : csrs :=
  let x := r_mstatus r in
  let x := Z.land x (Z.lnot MSTATUS_MPP_MASK) in
  let x := Z.lor x MSTATUS_MPP_S in
  let r := w_mstatus x r in
  let r := w_mepc main_pc r in
  let r := w_satp 0 r in
  let r := w_medeleg 0xffff r in
  let r := w_mideleg 0xffff r in
  let r := w_sie (Z.lor (Z.lor (r_sie r) SIE_SEIE) SIE_STIE) r in
  let r := w_pmpaddr0 0x3fffffffffffff r in
  let r := w_pmpcfg0 0xf r in
  let r := timerinit r in
  let id := i32 (r_mhartid r) in
  w_tp id r.
