(* ===== verification/FileTable.v ===== *)
(** * The file table

    Every way a process enters the kernel keeps the counts of open files: the system calls by
    their number, and the trap handler, with the interrupts of the devices and the process being
    killed on the way. *)

From S2P Require Import Prelude Riscv CString Kernel Printf Kalloc Vm Args Sched Sleeplock Bio Log Fs Pipe Console File Proc ProcFork Exec Sysfile FdView FdStill FdSteps FdCalls FdSyscalls FdProcs VirtioDisk Trap.
From stdpp Require Import base numbers strings gmap list.
From Stdlib Require Import ZArith Lia.

#[local] Open Scope Z_scope.
#[local] Open Scope kernel_scope.

(** ** Interrupts *)

Lemma still_csrr f : still (csrr f).
Proof. by repeat intro. Qed.
Lemma still_csrw f : still (csrw f).
Proof. by repeat intro. Qed.
Lemma still_moddevs f : still (moddevs f).
Proof. unfold moddevs. still. Qed.
Lemma still_modvd f : still (modvd f).
Proof. unfold modvd. still. Qed.
Lemma still_consputc c : still (consputc c).
Proof. unfold consputc, uartputc_sync. still. Qed.
#[export] Hint Resolve still_csrr still_csrw still_moddevs still_modvd still_consputc : files.

Lemma still_procdump_loop n i : still (procdump_loop n i).
Proof. revert i. induction n as [|n IH]; intros i; cbn [procdump_loop]; still. Qed.
Lemma still_kill_line n : still (kill_line n).
Proof. induction n as [|n IH]; cbn [kill_line]; still. Qed.
#[export] Hint Resolve still_procdump_loop still_kill_line : files.

Lemma still_consoleintr c : still (consoleintr c).
Proof. unfold consoleintr, procdump. still. Qed.
#[export] Hint Resolve still_consoleintr : files.

Lemma still_uartintr_loop n : still (uartintr_loop n).
Proof. induction n as [|n IH]; cbn [uartintr_loop]; unfold uartgetc; still. Qed.
#[export] Hint Resolve still_uartintr_loop : files.

Lemma still_virtio_disk_intr_loop n : still (virtio_disk_intr_loop n).
Proof. induction n as [|n IH]; cbn [virtio_disk_intr_loop]; still. Qed.
#[export] Hint Resolve still_virtio_disk_intr_loop : files.

Lemma still_devintr : still devintr.
Proof. unfold devintr, plic_claim, plic_complete, cpuid, mmio_write, uartintr, virtio_disk_intr, clockintr, cpuid. still. Qed.
#[export] Hint Resolve still_devintr : files.

(** ** The disk driver *)

Lemma still_moddesc i f : still (moddesc i f).
Proof. unfold moddesc. still. Qed.
Lemma still_alloc_desc_loop n i : still (alloc_desc_loop n i).
Proof. revert i. induction n as [|n IH]; intros i; cbn [alloc_desc_loop]; still. Qed.
#[export] Hint Resolve still_moddesc still_alloc_desc_loop : files.
Lemma still_free_desc i : still (free_desc i).
Proof. unfold free_desc. still. Qed.
#[export] Hint Resolve still_free_desc : files.
Lemma still_free_chain_loop n i : still (free_chain_loop n i).
Proof. revert i. induction n as [|n IH]; intros i; cbn [free_chain_loop]; still. Qed.
Lemma still_free_descs idx : still (free_descs idx).
Proof. induction idx as [|i idx IH]; cbn [free_descs]; still. Qed.
#[export] Hint Resolve still_free_chain_loop still_free_descs : files.
Lemma still_alloc3_loop n idx : still (alloc3_loop n idx).
Proof. revert idx. induction n as [|n IH]; intros idx; cbn [alloc3_loop]; unfold alloc_desc; still. Qed.
#[export] Hint Resolve still_alloc3_loop : files.
Lemma steps_wait_desc n : steps (wait_desc n).
Proof. induction n as [|n IH]; cbn [wait_desc]; unfold alloc3_desc; steps. Qed.
Lemma steps_wait_done n b : steps (wait_done n b).
Proof. induction n as [|n IH]; cbn [wait_done]; steps. Qed.
Lemma still_submit b w s i0 i1 i2 : still (submit b w s i0 i1 i2).
Proof. unfold submit. still. Qed.
#[export] Hint Resolve steps_wait_desc steps_wait_done still_submit : files.

(** The driver has what [DeviceSteps] asks for, and so does a disk that transfers at once. *)
Lemma driver_steps `{Fuel} b write : steps (VirtioDisk.virtio_disk_rw b write).
Proof. unfold VirtioDisk.virtio_disk_rw, free_chain. steps. Qed.

#[export] Instance sync_steps : @DeviceSteps sync_device.
Proof. intros b write. cbn. unfold sync_disk_rw, transfer. apply still_steps. apply still_bind; [still|]. intros bf. apply still_modify. intros k. by destruct write. Qed.

(** ** Exact counts *)

(** Each file has as many references as there are descriptors for it in the tables of the processes. *)
Definition exact (k : kernel) : Prop := forall f fl, files k !! f = Some fl -> f_ref fl = count (p_ofile <$> procs k) f.

Lemma counted_exact X ds k : counted X ds none [] (fview k) -> (forall j, X j = false) -> exact k.
Proof.
  intros C HX. assert (Eds : ds = p_ofile <$> procs k).
  { apply list_eq_same_length with (n := 64%nat); [|apply C|].
    - pose proof (ct_procs _ _ _ _ _ C) as L. cbn in L. rewrite length_fmap in L. by rewrite length_fmap.
    - intros i t l _ Ht Hl. rewrite list_lookup_fmap in Hl. apply fmap_Some in Hl as (p & Hp & ->).
      assert (Hv : v_procs (fview k) !! i = Some (proc_view p)) by (cbn; by rewrite list_lookup_fmap, Hp).
      destruct (ct_table _ _ _ _ _ C i t _ Ht Hv) as (_ & [->|[E _]] & _); [done|]. by rewrite HX in E. }
  intros f fl Hf. pose proof (ct_refs _ _ _ _ _ C f) as R. rewrite <- Eds. unfold refs in R. cbn in R. rewrite list_lookup_fmap, Hf in R. cbn in R. unfold none in R. lia.
Qed.

Lemma settled_exact X me c k : settled X me c k -> (forall j, X j = false) -> exact k.
Proof. intros (_ & _ & l & _ & ds & C & _). by eapply counted_exact. Qed.

(** ** The calls *)

Section calls.
Context `{Linker} `{Fuel} `{DeviceSteps} `{Uninit}.

Lemma call_bind {A B} (m : M A) (f : A -> M B) : call m -> (forall a, call (f a)) -> call (bind m f).
Proof. intros Hm Hf X me c k S. eapply sound_bind; [by apply Hm|]. intros X1 a c1 k1 S1. by apply Hf. Qed.
Lemma call_still {A} (m : M A) : still m -> call m.
Proof. intros Hm. by apply steps_call, still_steps. Qed.

Lemma syscalls_call : Forall (fun o => match o with Some f => call f | None => True end) syscalls.
Proof.
  repeat constructor; first [apply call_fork|apply call_exit|apply call_wait|apply call_pipe|apply call_read|apply call_write|apply call_dup
    |apply call_open|apply call_close|apply call_fstat|apply steps_call].
  - apply steps_sys_kill.
  - apply steps_sys_exec.
  - apply steps_sys_chdir.
  - apply steps_sys_getpid.
  - apply steps_sys_sbrk.
  - apply steps_sys_pause.
  - apply steps_sys_uptime.
  - apply steps_sys_mknod.
  - apply steps_sys_unlink.
  - apply steps_sys_link.
  - apply steps_sys_mkdir.
Qed.

Lemma call_syscall : call syscall.
Proof.
  unfold syscall. apply call_after; [still|]. intros i. apply call_after; [still|]. intros a7. cbv zeta.
  assert (Hn : match nthd None syscalls (i32 a7) with Some f => call f | None => True end).
  { unfold nthd. destruct (_ <? 0); [done|]. destruct (syscalls !! _) as [o|] eqn:E; [|done]. exact (Forall_lookup_1 _ _ _ _ syscalls_call E). }
  destruct (_ && _); [destruct (nthd _ _ _)|]; [|apply call_still; still..].
  apply call_bind; [done|]. intros r. apply call_still. still.
Qed.

(** The process gives up the CPU at the end of its time slice. *)
Lemma steps_yield : steps yield.
Proof.
  unfold yield. apply steps_curproc. intros X me t l c k Hc Ho. eapply sound_still; [still|done|done|]. intros _ c1 k1 Hc1 Ho1.
  assert (S : steps (sched ;; release (LProc me))) by steps. apply S; [done|]. by apply own_state.
Qed.

Lemma call_exit_if_killed p : call (exit_if_killed p).
Proof. unfold exit_if_killed. apply call_after; [still|]. intros x. destruct (negb _); [apply call_kexit|apply call_still; still]. Qed.

Lemma still_prepare_return : still prepare_return.
Proof. unfold prepare_return. still. Qed.

Lemma call_usertrap : call usertrap.
Proof.
  unfold usertrap. apply call_after; [still|]. intros ss. destruct (negb _); [apply call_still; still|].
  do 5 (apply call_after; [still|]; intros ?). apply call_bind; [|intros w].
  - destruct (_ =? 8); [|apply call_still; still]. apply call_bind; [apply call_exit_if_killed|]. intros _.
    do 3 (apply call_after; [still|]; intros ?). apply call_bind; [apply call_syscall|]. intros _. apply call_still. still.
  - apply call_bind; [apply call_exit_if_killed|]. intros _. apply call_bind.
    + destruct (w =? 2); [apply steps_call, steps_yield|apply call_still; still].
    + intros _. apply call_after; [apply still_prepare_return|]. intros _. apply call_still. still.
Qed.

(** C3. The counts of open files are right whenever a process is in user mode or asleep.  Let the
    counts be right (each file's [ref] is the number of descriptors, over all processes, that name
    it, where a process in [kexit] may have one descriptor that it has closed and not cleared; exactly
    the files with references have a type; free slots and zombies have no descriptors) when process
    [me], which is not in [kexit], traps into the kernel.  Then they are right in every state in which
    [usertrap] gives up the CPU, whatever other processes do to the tables before it is resumed, as
    long as they keep the counts right and the descriptors of [me] alone; and they are right when it
    returns, which it does with [me] not in [kexit] and all of its descriptors counted.  When no
    process is in [kexit] then, each file's [ref] is exactly the number of descriptors for it in the
    tables of all processes.  On the way the kernel does not panic in [filedup], [fileclose],
    [fileread] or [filewrite].  This covers every system call with its failures ([dup], [open],
    [pipe], [close], [fork], [exit], [wait], [exec] and the others), interrupts, page faults, the end
    of the time slice and the process being killed. *)
Theorem usertrap_keeps_files X me c k :
  settled X me c k -> sound X me (fun X' _ c' k' => settled X' me c' k' /\ ((forall j, X' j = false) -> exact k')) (usertrap c k).
Proof. intros S. eapply sound_mono; [by apply call_usertrap|]. intros X' u c' k' S'. split; [done|]. exact (settled_exact _ _ _ _ S'). Qed.

End calls.

(** ** An instance *)

Lemma count_empty n f : count (replicate n (replicate 16 None)) f = 0.
Proof. induction n as [|n IH]; [done|]. change (replicate (S n) ?x) with (x :: replicate n x). by rewrite count_cons, IH, refs_to_none. Qed.

(** At boot nothing is open. *)
Lemma boot_counted : counted (fun _ => false) (replicate 64 (replicate 16 None)) none [] (fview kernel_0).
Proof.
  split.
  - done.
  - done.
  - intros i l p [-> _]%lookup_replicate_1 Hp. cbn [v_procs fview procs kernel_0] in Hp. rewrite fmap_replicate in Hp.
    apply lookup_replicate_1 in Hp as [-> _]. split; [done|]. split; [by left|done].
  - intros f. rewrite count_empty. unfold refs, none. cbn [v_files fview files kernel_0]. rewrite fmap_replicate.
    destruct (replicate _ _ !! f) as [x|] eqn:E; [|done]. by apply lookup_replicate_1 in E as [-> _].
  - intros f n E. cbn [v_files fview files kernel_0] in E. rewrite fmap_replicate in E. apply lookup_replicate_1 in E as [[= <-] _]. by left.
  - intros f ty E. cbn [v_files fview files kernel_0] in E. rewrite fmap_replicate in E. by apply lookup_replicate_1 in E as [[= <-] _].
Qed.

#[local] Existing Instance small_linker.
#[local] Instance tfuel : Fuel := 2%nat.
#[local] Existing Instance sync_device.
#[local] Instance tuninit : Uninit := replicate 24 0.

(** The console is open twice in process 0, which calls [dup(0)]. *)
Definition ttf : Z := PHYSTOP - PGSIZE.
Definition tfds : list (option nat) := Some 0%nat :: Some 0%nat :: replicate 14 None.
Definition tproc : proc := proc_0 <| p_state := RUNNING |> <| p_pid := 1 |> <| p_trapframe := ttf |> <| p_ofile := tfds |>.
Definition tkernel : kernel :=
  kernel_0 <| procs := tproc :: replicate 63 proc_0 |> <| files := file_0 <| f_ref := 2 |> <| f_type := FD_DEVICE |> :: replicate 99 file_0 |>
    <| mem := wr64 (wr64 ∅ (ttf + tf_off tf_a7) 10) (ttf + tf_off tf_a0) 0 |>.
Definition tcpu : cpu := cpu_0 <| cpu_proc := Some 0%nat |> <| regs ::= fun r => r <| scause := 8 |> |>.

Lemma tkernel_settled : settled (fun _ => false) 0 tcpu tkernel.
Proof.
  split; [done|]. split; [done|]. exists tfds. split; [done|]. exists (<[0%nat := tfds]> (replicate 64 (replicate 16 None))). split; [|done].
  replace (fview tkernel) with (set_proc (set_file (fview kernel_0) 0 (2, FD_DEVICE)) 0 (tfds, false)) by reflexivity.
  eapply counted_ext; [eapply (counted_proc _ _ _ _ 0 (replicate 16 None)); [eapply (counted_file _ _ _ _ 0 2 FD_DEVICE []); [apply boot_counted|by eexists|done|done|auto]|done|]|].
  - split; [done|]. split; [by left|done].
  - intros f. unfold none. change (refs (fview kernel_0) 0) with 0. pose proof (refs_to_none f 14) as H0. pose proof (refs_to_none f 16) as H1.
    rewrite H1. unfold tfds. rewrite !refs_to_cons, H0. destruct f as [|f]; [done|]. by rewrite !decide_False by done.
Qed.

(** The call returns 2, the lowest free descriptor, and the file has three references, one for each
    descriptor. *)
Lemma usertrap_keeps_files_witness :
  settled (fun _ => false) 0 tcpu tkernel /\ exists r c k, usertrap tcpu tkernel = Done r c k /\ settled (fun _ => false) 0 c k /\ exact k /\
    rd64 (mem k) (ttf + tf_off tf_a0) = 2 /\ f_ref <$> files k !! 0%nat = Some 3.
Proof.
  split; [apply tkernel_settled|]. pose proof (usertrap_keeps_files (fun _ => false) 0 tcpu tkernel tkernel_settled) as Hs.
  destruct (usertrap tcpu tkernel) as [r c k| | |] eqn:E; [|exfalso; revert E; vm_compute; discriminate..]. cbn [sound] in Hs. destruct Hs as [Hs Hx].
  exists r, c, k. split; [done|]. split; [exact Hs|]. split; [apply Hx; intros j; reflexivity|].
  assert (E' : match usertrap tcpu tkernel with Done _ _ k => rd64 (mem k) (ttf + tf_off tf_a0) = 2 /\ f_ref <$> files k !! 0%nat = Some 3 | _ => True end)
    by (vm_compute; split; reflexivity).
  rewrite E in E'. exact E'.
Defined.
