(* ===== verification/UserSys.v ===== *)
(** * User programs and their system calls: [usys.pl], [user.h]

    A user program is a tree: it returns, exits, or makes a system call and goes
    on with the answer.  The arguments that point to memory are given as the
    bytes there, and the bytes a call stores come with its answer.  Nothing is
    said here about what the calls do: a program is run against a [handler]. *)

From S2P Require Import Prelude.
From stdpp Require Import base numbers strings list.
From Stdlib Require Import ZArith Lia.

#[local] Open Scope Z_scope.

(** [struct stat]. *)
Record ustat := mkustat { st_dev : Z; st_ino : Z; st_type : Z; st_nlink : Z; st_size : Z }.

(** The system calls of [user.h], with their answers. *)
Inductive sys : Type -> Type :=
  | SFork : sys Z
  | SWait : sys (Z * Z) (** the process id and its exit status *)
  | SPipe : sys (Z * Z * Z) (** the result and the two descriptors *)
  | SRead (fd n : Z) : sys (Z * list Z) (** the result and the bytes read *)
  | SWrite (fd : Z) (bs : list Z) : sys Z
  | SClose (fd : Z) : sys Z
  | SKill (pid : Z) : sys Z
  | SExec (path : list Z) (argv : list (list Z)) : sys Z
  | SOpen (path : list Z) (mode : Z) : sys Z
  | SMknod (path : list Z) (major minor : Z) : sys Z
  | SUnlink (path : list Z) : sys Z
  | SFstat (fd : Z) : sys (Z * ustat)
  | SLink (old new : list Z) : sys Z
  | SMkdir (path : list Z) : sys Z
  | SChdir (path : list Z) : sys Z
  | SDup (fd : Z) : sys Z
  | SGetpid : sys Z
  | SSbrk (n t : Z) : sys Z
  | SPause (n : Z) : sys Z
  | SUptime : sys Z
  (** The same calls with a pointer given as a number, for programs that make pointers up. *)
  | SWriteAt (fd a n : Z) : sys Z
  | SReadAt (fd a n : Z) : sys Z
  | SOpenAt (a mode : Z) : sys Z
  | SUnlinkAt (a : Z) : sys Z
  | SLinkAt (a b : Z) : sys Z
  | SExecAt (a : Z) (argv : list (list Z)) : sys Z
  | SExecArgs (path : list Z) (argv : list Z) : sys Z (** the pointers in [argv] *)
  | SPipeAt (a : Z) : sys Z
  (** Accesses of one byte at such an address; a fault ends the process. *)
  | MLoad (a : Z) : sys (option Z)
  | MStore (a v : Z) : sys bool
  (** What an array of [n] elements holds that is not initialised. *)
  | MUninit (n : Z) : sys (list Z).

(** [UBad]: undefined behaviour, or a loop of the model that ran out of rounds. *)
Inductive prog (A : Type) : Type :=
  | URet (a : A)
  | UExit (status : Z)
  | UBad (why : string)
  | UCall {X : Type} (e : sys X) (k : X -> prog A).
Arguments URet {A} a.
Arguments UExit {A} status.
Arguments UBad {A} why.
Arguments UCall {A X} e k.

Fixpoint ubind {A B} (p : prog A) (f : A -> prog B) : prog B :=
  match p with
  | URet a => f a
  | UExit n => UExit n
  | UBad w => UBad w
  | UCall e k => UCall e (fun x => ubind (k x) f)
  end.

Definition call {X} (e : sys X) : prog X := UCall e URet.

Declare Scope user_scope.
Delimit Scope user_scope with user.
Notation "x <- m ;; f" := (ubind m (fun x => f))
  (at level 100, m at next level, f at level 200, right associativity) : user_scope.
Notation "' p <- m ;; f" := (ubind m (fun x => match x with p => f end))
  (at level 20, p pattern, m at level 99, f at level 200) : user_scope.
Notation "m ;; f" := (ubind m (fun _ => f)) (at level 100, f at level 200, right associativity) : user_scope.

(** ** Running a program *)

(** A kernel as a program sees it: what it answers, and its next state. *)
Definition handler (W : Type) : Type := forall X, sys X -> W -> X * W.

Inductive uend (A : Type) := Returned (a : A) | Exited (status : Z) | Wrong (why : string).
Arguments Returned {A} a.
Arguments Exited {A} status.
Arguments Wrong {A} why.

Fixpoint exec {A W} (h : handler W) (p : prog A) (w : W) : uend A * W :=
  match p with
  | URet a => (Returned a, w)
  | UExit n => (Exited n, w)
  | UBad why => (Wrong why, w)
  | UCall e k => let '(x, w') := h _ e w in exec h (k x) w'
  end.

Lemma exec_bind {A B W} (h : handler W) (p : prog A) (f : A -> prog B) w :
  exec h (ubind p f) w =
  match exec h p w with
  | (Returned a, w') => exec h (f a) w'
  | (Exited n, w') => (Exited n, w')
  | (Wrong why, w') => (Wrong why, w')
  end.
Proof.
  revert w. induction p as [a|n|why|X e k IH]; intros w; cbn; try done. destruct (h X e w) as [x w']. apply IH.
Qed.

(** ** Files as streams

    The kernel a filter such as [cat], [wc] or [grep] runs on: descriptor [fd]
    is a file or a pipe with the bytes [sv_in] to come, of which each [read]
    delivers at least one and as many as the next number in [sv_sizes] says (1
    and the request bound it); what is written to descriptor 1 is collected. *)
Record stream := mkstream { sv_in : list Z; sv_sizes : list nat; sv_out : list Z; sv_err : list Z }.

(** How many of the [n] bytes asked for the next read delivers. *)
Definition chunk (n : Z) (s : stream) : nat :=
  (Nat.min (Nat.min (S (default 0%nat (head (sv_sizes s)))) (Z.to_nat n)) (length (sv_in s)))%nat.

Definition stream_read (n : Z) (s : stream) : (Z * list Z) * stream :=
  let m := chunk n s in
  ((Z.of_nat m, take m (sv_in s)), mkstream (drop m (sv_in s)) (tail (sv_sizes s)) (sv_out s) (sv_err s)).

Definition stream_write (fd : Z) (bs : list Z) (s : stream) : Z * stream :=
  (Z.of_nat (length bs),
   if fd =? 1 then mkstream (sv_in s) (sv_sizes s) (sv_out s ++ bs) (sv_err s)
   else mkstream (sv_in s) (sv_sizes s) (sv_out s) (sv_err s ++ bs)).

(** Calls other than [read] and [write] answer -1. *)
Definition stream_handler : handler stream := fun X e =>
  match e in sys X return stream -> X * stream with
  | SRead fd n => stream_read n
  | SWrite fd bs => stream_write fd bs
  | SWait => fun s => ((-1, 0), s)
  | SPipe => fun s => ((-1, 0, 0), s)
  | SFstat fd => fun s => ((-1, mkustat 0 0 0 0 0), s)
  | MLoad a => fun s => (None, s)
  | MStore a v => fun s => (false, s)
  | MUninit n => fun s => (replicate (Z.to_nat n) 1, s)
  | _ => fun s => (-1, s)
  end.

Lemma chunk_bounds n s : 0 < n -> sv_in s <> [] -> (1 <= chunk n s <= Z.to_nat n)%nat /\ (chunk n s <= length (sv_in s))%nat.
Proof. intros Hn Hs. unfold chunk. destruct (sv_in s); [done|]. cbn [length]. lia. Qed.

(** A [read] of a stream that is not at its end. *)
Lemma stream_read_some n s : 0 < n -> sv_in s <> [] -> exists m, (1 <= m <= length (sv_in s))%nat /\ Z.of_nat m <= n /\
  stream_read n s = ((Z.of_nat m, take m (sv_in s)), mkstream (drop m (sv_in s)) (tail (sv_sizes s)) (sv_out s) (sv_err s)).
Proof. intros Hn Hs. exists (chunk n s). destruct (chunk_bounds n s Hn Hs). split; [lia|]. split; [lia|done]. Qed.

Lemma stream_read_end n s : sv_in s = [] -> stream_read n s = ((0, []), mkstream [] (tail (sv_sizes s)) (sv_out s) (sv_err s)).
Proof. intros E. unfold stream_read, chunk. rewrite E. cbn [length]. by rewrite Nat.min_0_r. Qed.

(** What a program has written to descriptor 1. *)
Definition emit (bs : list Z) (s : stream) : stream := mkstream (sv_in s) (sv_sizes s) (sv_out s ++ bs) (sv_err s).

Lemma emit_emit a b s : emit b (emit a s) = emit (a ++ b) s.
Proof. unfold emit. cbn. by rewrite app_assoc. Qed.

Lemma emit_nil s : emit [] s = s.
Proof. unfold emit. rewrite app_nil_r. by destruct s. Qed.

Lemma write_exec {A} bs (k : Z -> prog A) s :
  exec stream_handler (UCall (SWrite 1 bs) k) s = exec stream_handler (k (Z.of_nat (length bs))) (emit bs s).
Proof. reflexivity. Qed.
