(* ===== verification/Ulib.v ===== *)
(** * The user library: [ulib.c] and [printf.c] of [src/user/]

    A string that is only read is its accessor, as in CString.v; an array that
    is written is a list of bytes; [memmove] works on a byte memory, because
    its arguments may overlap.  Loops over a string take the number of bytes
    that may be looked at. *)

From S2P Require Import Prelude CString Printf UserSys.
From stdpp Require Import base numbers strings gmap list.
From Stdlib Require Import ZArith Lia.

#[local] Open Scope Z_scope.
#[local] Open Scope user_scope.

(** ** Strings *)

(** [while(( *s++ = *t++) != 0);] *)
Fixpoint strcpy (fuel : nat) (s : list Z) (t : Z -> Z) (i : Z) : option (list Z) :=
  match fuel with
  | O => None
  | S fuel =>
      let s := setz s i (t i) in
      if t i =? 0 then Some s else strcpy fuel s t (i + 1)
  end.

(** [while( *p && *p == *q) p++, q++;] *)
Fixpoint strcmp (fuel : nat) (p q : Z -> Z) (i : Z) : option Z :=
  match fuel with
  | O => None
  | S fuel =>
      if negb (p i =? 0) && (p i =? q i) then strcmp fuel p q (i + 1)
      else Some (u8 (p i) - u8 (q i))
  end.

Fixpoint strlen (fuel : nat) (s : Z -> Z) (n : Z) : option Z :=
  match fuel with
  | O => None
  | S fuel => if s n =? 0 then Some (u32 n) else strlen fuel s (n + 1)
  end.

(** The index of the first [c] before the end of the string. *)
Fixpoint strchr (s : list Z) (c : Z) : option nat :=
  match s with
  | [] => None
  | x :: s => if x =? 0 then None else if x =? c then Some 0%nat else S <$> strchr s c
  end.

Fixpoint atoi_loop (s : list Z) (n : Z) : Z :=
  match s with
  | [] => n
  | c :: s => if (chr "0" <=? c) && (c <=? chr "9") then atoi_loop s (i32 (n * 10 + c - chr "0")) else n
  end.

Definition atoi (s : list Z) : Z := atoi_loop s 0.

(** ** Memory *)

(** [for(i = 0; i < n; i++) cdst[i] = c;] *)
Fixpoint memset_loop (n : nat) (dst : list Z) (c i : Z) : list Z :=
  match n with
  | O => dst
  | S n => memset_loop n (setz dst i (u8 c)) c (i + 1)
  end.

Definition memset (dst : list Z) (c n : Z) : list Z := memset_loop (Z.to_nat (u32 n)) dst c 0.

(** Upwards when the source is above the destination, else downwards. *)
Definition memmove (m : memory) (vdst vsrc n : Z) : memory :=
  if vsrc >? vdst then copy_up (Z.to_nat n) m vdst vsrc
  else copy_down (Z.to_nat n) m (vdst + n) (vsrc + n).

Definition memcpy (m : memory) (dst src n : Z) : memory := memmove m dst src (i32 n).

Fixpoint memcmp_loop (n : nat) (s1 s2 : Z -> Z) (i : Z) : Z :=
  match n with
  | O => 0
  | S n => if negb (s1 i =? s2 i) then s1 i - s2 i else memcmp_loop n s1 s2 (i + 1)
  end.

Definition memcmp (s1 s2 : Z -> Z) (n : Z) : Z := memcmp_loop (Z.to_nat (u32 n)) s1 s2 0.

(** ** System calls in disguise *)

(** [for(i=0; i+1 < max; )], at most [fuel] rounds; the bytes stored so far are [buf]. *)
Fixpoint gets_loop (fuel : nat) (buf : list Z) (max : Z) : prog (list Z) :=
  match fuel with
  | O => UBad "gets"
  | S fuel =>
      if Z.of_nat (length buf) + 1 <? max then
        '(cc, bs) <- call (SRead 0 1) ;;
        if cc <? 1 then URet buf else
        let c := nthd 0 bs 0 in
        let buf := buf ++ [c] in
        if (c =? 10) || (c =? 13) then URet buf else gets_loop fuel buf max
      else URet buf
  end.

(** The string in the buffer, without the final 0 that is stored behind it. *)
Definition gets (max : Z) : prog (list Z) := gets_loop (S (Z.to_nat max)) [] max.

Definition O_RDONLY : Z := 0.
Definition O_WRONLY : Z := 1.
Definition O_RDWR : Z := 2.
Definition O_CREATE : Z := 0x200.
Definition O_TRUNC : Z := 0x400.

Definition stat (n : list Z) : prog (Z * ustat) :=
  fd <- call (SOpen n O_RDONLY) ;;
  if fd <? 0 then URet (-1, mkustat 0 0 0 0 0) else
  '(r, st) <- call (SFstat fd) ;;
  call (SClose fd) ;;
  URet (r, st).

Definition SBRK_EAGER : Z := 1.
Definition SBRK_LAZY : Z := 2.
Definition SBRK_ERROR : Z := 2 ^ 64 - 1.

Definition sbrk (n : Z) : prog Z := call (SSbrk n SBRK_EAGER).
Definition sbrklazy (n : Z) : prog Z := call (SSbrk n SBRK_LAZY).

Definition start (main : prog Z) : prog Z :=
  r <- main ;;
  UExit r.

(** ** printf.c *)

Definition digits : list Z := str "0123456789ABCDEF".

Definition putc (fd c : Z) : prog unit :=
  call (SWrite fd [u8 c]) ;;
  URet tt.

Fixpoint putall (fd : Z) (cs : list Z) : prog unit :=
  match cs with
  | [] => URet tt
  | c :: cs => putc fd c ;; putall fd cs
  end.

(** [do { buf[i++] = digits[x % base]; } while((x /= base) != 0);] *)
Fixpoint printint_loop (fuel : nat) (x base : Z) : list Z :=
  match fuel with
  | O => []
  | S fuel =>
      nthd 0 digits (x mod base) :: (if x / base =? 0 then [] else printint_loop fuel (x / base) base)
  end.

(** The characters [printint] writes: its buffer, backwards. *)
Definition printint (xx base : Z) (sgn : bool) : list Z :=
  let neg := sgn && (xx <? 0) in
  let x := u64 (if neg then - xx else xx) in
  rev (printint_loop 64 x base ++ (if neg then [chr "-"] else [])).

Fixpoint printptr_loop (n : nat) (x : Z) : list Z :=
  match n with
  | O => []
  | S n => nthd 0 digits (Z.shiftr x 60) :: printptr_loop n (u64 (Z.shiftl x 4))
  end.

Definition printptr (x : Z) : list Z := str "0x" ++ printptr_loop 16 x.

(** The characters [vprintf] writes; [None] when the arguments do not fit the format. *)
Fixpoint vformat (fmt : list Z) (ap : list vararg) : option (list Z) :=
  match fmt with
  | [] => Some []
  | c :: fmt =>
      if negb (isc c "%") then cons c <$> vformat fmt ap
      else match fmt with
      | [] => Some []
      | c0 :: fmt0 =>
          let c1 := nthd 0 fmt0 0 in
          let c2 := if c1 =? 0 then 0 else nthd 0 fmt0 1 in
          let num (conv : Z -> Z) base sgn rest :=
            match ap with
            | VInt z :: ap => app (printint (conv z) base sgn) <$> rest ap
            | _ => None
            end in
          let skip1 ap := match fmt0 with _ :: f => vformat f ap | [] => None end in
          let skip2 ap := match fmt0 with _ :: _ :: f => vformat f ap | _ => None end in
          if isc c0 "d" then num i32 10 true (vformat fmt0)
          else if isc c0 "l" && isc c1 "d" then num i64 10 true skip1
          else if isc c0 "l" && isc c1 "l" && isc c2 "d" then num i64 10 true skip2
          else if isc c0 "u" then num u32 10 false (vformat fmt0)
          else if isc c0 "l" && isc c1 "u" then num i64 10 false skip1
          else if isc c0 "l" && isc c1 "l" && isc c2 "u" then num i64 10 false skip2
          else if isc c0 "x" then num u32 16 false (vformat fmt0)
          else if isc c0 "l" && isc c1 "x" then num i64 16 false skip1
          else if isc c0 "l" && isc c1 "l" && isc c2 "x" then num i64 16 false skip2
          else if isc c0 "p" then
            match ap with
            | VInt z :: ap => app (printptr (u64 z)) <$> vformat fmt0 ap
            | _ => None
            end
          else if isc c0 "c" then
            match ap with
            | VInt z :: ap => cons (u8 z) <$> vformat fmt0 ap
            | _ => None
            end
          else if isc c0 "s" then
            match ap with
            | VStr s :: ap => app (default (str "(null)") s) <$> vformat fmt0 ap
            | _ => None
            end
          else if isc c0 "%" then cons (chr "%") <$> vformat fmt0 ap
          else (fun cs => chr "%" :: c0 :: cs) <$> vformat fmt0 ap
      end
  end.

Definition vprintf (fd : Z) (fmt : string) (ap : list vararg) : prog unit :=
  match vformat (str fmt) ap with
  | Some cs => putall fd cs
  | None => UBad "printf arguments"
  end.

Definition fprintf (fd : Z) (fmt : string) (ap : list vararg) : prog unit := vprintf fd fmt ap.
Definition printf (fmt : string) (ap : list vararg) : prog unit := vprintf 1 fmt ap.

(** ** Lemmas *)

(** [printf] to descriptor 1 of a stream writes its characters. *)
Lemma putall_exec cs s : exec stream_handler (putall 1 cs) s = (Returned tt, emit (u8 <$> cs) s).
Proof.
  revert s. induction cs as [|c cs IH]; intros s; cbn [putall]; [by rewrite emit_nil|]. rewrite exec_bind. cbn [putc exec ubind call stream_handler stream_write].
  change (if 1 =? 1 then _ else _) with (emit [u8 c] s). rewrite IH, emit_emit. done.
Qed.

Lemma printf_exec fmt ap cs s : vformat (str fmt) ap = Some cs -> exec stream_handler (printf fmt ap) s = (Returned tt, emit (u8 <$> cs) s).
Proof. intros E. unfold printf, vprintf. rewrite E. apply putall_exec. Qed.

Lemma decimal_digit d : 0 <= d < 10 -> nthd 0 digits d = 48 + d.
Proof.
  intros Hd. assert (Hc : d = 0 \/ d = 1 \/ d = 2 \/ d = 3 \/ d = 4 \/ d = 5 \/ d = 6 \/ d = 7 \/ d = 8 \/ d = 9) by lia.
  repeat (destruct Hc as [->|Hc]; [reflexivity|]). by subst d.
Qed.

Lemma atoi_printint_loop fuel x t : 0 <= x < 10 ^ Z.of_nat fuel -> x < 2 ^ 31 -> (0 < fuel)%nat ->
  atoi_loop (rev (printint_loop fuel x 10) ++ t) 0 = atoi_loop t x.
Proof.
  revert x t. induction fuel as [|fuel IH]; intros x t Hx Hb Hf; [lia|]. cbn [printint_loop rev].
  assert (Hstep : forall n, n * 10 + x mod 10 = x -> atoi_loop (nthd 0 digits (x mod 10) :: t) n = atoi_loop t x).
  { intros n En. assert (Hm : 0 <= x mod 10 < 10) by (apply Z.mod_pos_bound; lia). rewrite decimal_digit by done. cbn [atoi_loop].
    change (chr "0") with 48. change (chr "9") with 57. rewrite !(proj2 (Z.leb_le _ _)) by lia. cbn [andb]. f_equal.
    rewrite i32_small by lia. lia. }
  pose proof (Z.div_mod x 10) as Ed. destruct (Z.eqb_spec (x / 10) 0) as [E0|Hn].
  - cbn [rev app]. apply Hstep. lia.
  - rewrite <- app_assoc. cbn [app]. assert (0 <= x / 10) by (apply Z.div_pos; lia).
    assert (x / 10 < 10 ^ Z.of_nat fuel) by (apply Z.div_lt_upper_bound; [lia|]; rewrite Nat2Z.inj_succ, Z.pow_succ_r in Hx by lia; lia).
    assert (0 < fuel)%nat by (destruct fuel; [cbn in *; lia|lia]).
    assert (x / 10 <= x) by (pose proof (Z.mod_pos_bound x 10); lia). rewrite IH by (try done; lia). apply Hstep. lia.
Qed.

Lemma atoi_printint n : 0 <= n < 2 ^ 31 -> atoi (printint n 10 true) = n.
Proof.
  intros Hn. unfold atoi, printint. rewrite (proj2 (Z.ltb_ge n 0)) by lia. cbn [andb]. rewrite app_nil_r, u64_small by zlia.
  rewrite <- (app_nil_r (rev _)). rewrite atoi_printint_loop; [done| |lia|lia].
  assert (2 ^ 31 < 10 ^ Z.of_nat 64) by (by vm_compute). lia.
Qed.
