(* ===== verification/Grep.v ===== *)
(** * [grep.c]

    The pattern matcher against the language of the pattern, and the program
    against the lines of its input. *)

From S2P Require Import Prelude CString Printf UserSys Ulib.
From stdpp Require Import base numbers strings list.
From Stdlib Require Import ZArith Lia.

#[local] Open Scope Z_scope.
#[local] Open Scope user_scope.

(** ** The matcher

    Strings are lists of bytes without the final 0. *)

Section matchstar.
Variable matchhere : list Z -> bool.

(** [matchhere] is already applied to the rest of the pattern. *)
Fixpoint matchstar (c : Z) (text : list Z) : bool :=
  if matchhere text then true
  else match text with
       | [] => false
       | t :: text => if (t =? c) || (c =? chr ".") then matchstar c text else false
       end.
End matchstar.

Fixpoint matchhere (re : list Z) (text : list Z) : bool :=
  match re with
  | [] => true
  | c :: re1 =>
      if nthd 0 re1 0 =? chr "*"
      then match re1 with [] => false | _ :: re2 => matchstar (matchhere re2) c text end
      else if (c =? chr "$") && (nthd 0 re1 0 =? 0) then match text with [] => true | _ => false end
      else match text with
           | [] => false
           | t :: text => if (c =? chr ".") || (c =? t) then matchhere re1 text else false
           end
  end.

(** [do ... while( *text++ != 0)] *)
Fixpoint match_loop (re text : list Z) : bool :=
  if matchhere re text then true
  else match text with [] => false | _ :: text => match_loop re text end.

Definition match_ (re text : list Z) : bool :=
  match re with
  | c :: re1 => if c =? chr "^" then matchhere re1 text else match_loop re text
  | [] => match_loop re text
  end.

(** ** The program *)

Abbreviation GREPBUF := 1024%Z (only parsing).

(** [while((q = strchr(p, '\n')) != 0)]; the result is what is left at [p]. *)
Fixpoint grep_lines (fuel : nat) (pattern p : list Z) : prog (list Z) :=
  match fuel with
  | O => UBad "grep"
  | S fuel =>
      match strchr p 10 with
      | None => URet p
      | Some q =>
          (if match_ pattern (take q p) then call (SWrite 1 (take (S q) p)) ;; URet tt else URet tt) ;;
          grep_lines fuel pattern (drop (S q) p)
      end
  end.

(** [buf] is the first [m] bytes of the buffer, which a 0 follows. *)
Fixpoint grep_loop (fuel : nat) (pattern : list Z) (fd : Z) (buf : list Z) : prog unit :=
  match fuel with
  | O => UBad "grep"
  | S fuel =>
      '(n, bs) <- call (SRead fd (GREPBUF - Z.of_nat (length buf) - 1)) ;;
      if n >? 0 then
        let buf := buf ++ take (Z.to_nat n) bs in
        p <- grep_lines (S (length buf)) pattern buf ;;
        grep_loop fuel pattern fd p
      else URet tt
  end.

Definition grep (fuel : nat) (pattern : list Z) (fd : Z) : prog unit := grep_loop fuel pattern fd [].

Fixpoint grep_files (fuel : nat) (pattern : list Z) (files : list (list Z)) : prog Z :=
  match files with
  | [] => UExit 0
  | f :: files =>
      fd <- call (SOpen f O_RDONLY) ;;
      if fd <? 0 then
        printf ("grep: cannot open %s" +:+ nl) [VStr (Some f)] ;;
        UExit 1
      else
      grep fuel pattern fd ;;
      call (SClose fd) ;;
      grep_files fuel pattern files
  end.

Definition grep_main (fuel : nat) (argv : list (list Z)) : prog Z :=
  match argv with
  | [] | [_] =>
      fprintf 2 ("usage: grep pattern [file ...]" +:+ nl) [] ;;
      UExit 1
  | [_; pattern] =>
      grep fuel pattern 0 ;;
      UExit 0
  | _ :: pattern :: files => grep_files fuel pattern files
  end.

(** ** The language of a pattern *)

(** A pattern is a sequence of characters, some with a star, and maybe an end anchor. *)
Fixpoint items (re : list Z) : list (Z * bool) * bool :=
  match re with
  | [] => ([], false)
  | c :: re1 =>
      if nthd 0 re1 0 =? chr "*"
      then match re1 with [] => ([], false) | _ :: re2 => let '(l, e) := items re2 in ((c, true) :: l, e) end
      else if (c =? chr "$") && (nthd 0 re1 0 =? 0) then ([], true)
      else let '(l, e) := items re1 in ((c, false) :: l, e)
  end.

(** A character of the pattern stands for itself, the dot for any. *)
Definition atom (c x : Z) : Prop := c = chr "." \/ c = x.

Fixpoint words (l : list (Z * bool)) (w : list Z) : Prop :=
  match l with
  | [] => w = []
  | (c, false) :: l => exists x w', w = x :: w' /\ atom c x /\ words l w'
  | (c, true) :: l => exists u v, w = u ++ v /\ Forall (atom c) u /\ words l v
  end.

(** Some part of the text is a word of the pattern, at the start or the end of
    the text if the pattern is anchored there. *)
Definition anchored_prefix (re text : list Z) : Prop :=
  let '(l, e) := items re in
  exists w post, text = w ++ post /\ words l w /\ (e = true -> post = []).

Definition matches (re text : list Z) : Prop :=
  match re with
  | c :: re1 => if c =? chr "^" then anchored_prefix re1 text else exists pre rest, text = pre ++ rest /\ anchored_prefix re rest
  | [] => exists pre rest, text = pre ++ rest /\ anchored_prefix re rest
  end.

(** ** The matcher decides the language *)

Lemma matchstar_spec (P : list Z -> bool) c text :
  matchstar P c text = true <-> exists u v, text = u ++ v /\ Forall (atom c) u /\ P v = true.
Proof.
  induction text as [|t text IH]; cbn [matchstar].
  - destruct (P []) eqn:E; split; try done; [by exists [], []|]. intros (u&v&Eu&_&Ev). symmetry in Eu. apply app_nil in Eu as [-> ->]. congruence.
  - destruct (P (t :: text)) eqn:E; [split; [by exists [], (t :: text)|done]|].
    destruct ((t =? c) || (c =? chr ".")) eqn:Ea.
    + rewrite IH. split.
      * intros (u&v&->&Hu&Hv). exists (t :: u), v. split; [done|]. split; [|done]. constructor; [|done].
        apply orb_true_iff in Ea as [Ea|Ea]; apply Z.eqb_eq in Ea; [by right|by left].
      * intros (u&v&Eu&Hu&Hv). destruct u as [|x u]; cbn in Eu; [subst v; congruence|]. injection Eu as -> ->. apply Forall_cons in Hu as [_ Hu].
        by exists u, v.
    + split; [done|]. intros (u&v&Eu&Hu&Hv). destruct u as [|x u]; cbn in Eu; [subst v; congruence|]. injection Eu as -> ->.
      apply Forall_cons in Hu as [Ha _]. apply orb_false_elim in Ea as [E1%Z.eqb_neq E2%Z.eqb_neq]. by destruct Ha.
Qed.

Lemma matchhere_spec re text : matchhere re text = true <-> anchored_prefix re text.
Proof.
  revert text. assert (Hall : forall n re, (length re <= n)%nat -> forall text, matchhere re text = true <-> anchored_prefix re text).
  2: { intros text. by apply (Hall (length re)). }
  clear re. induction n as [|n IH]; intros re Hn text; unfold anchored_prefix.
  { destruct re; [|cbn in Hn; lia]. cbn. split; [|done]. intros _. by exists [], text. }
  destruct re as [|c re1]; [cbn; split; [|done]; intros _; by exists [], text|]. cbn [matchhere items length] in *.
  destruct (nthd 0 re1 0 =? chr "*") eqn:Es.
  - destruct re1 as [|s re2]; [done|]. cbn [length] in Hn. pose proof (IH re2 ltac:(lia)) as IH2. unfold anchored_prefix in IH2.
    destruct (items re2) as [l e]. rewrite matchstar_spec. split.
    + intros (u&v&->&Hu&(w&post&->&Hw&He)%IH2). exists (u ++ w), post. split; [by rewrite app_assoc|]. split; [|done]. by exists u, w.
    + intros (w&post&->&(u&v&->&Hu&Hv)&He). exists u, (v ++ post). split; [by rewrite app_assoc|]. split; [done|]. apply IH2. by exists v, post.
  - destruct ((c =? chr "$") && (nthd 0 re1 0 =? 0)).
    + split.
      * destruct text; [|done]. intros _. by exists [], [].
      * intros (w&post&->&->&He). by rewrite He.
    + pose proof (IH re1 ltac:(lia)) as IH1. unfold anchored_prefix in IH1. destruct (items re1) as [l e]. destruct text as [|t text].
      * split; [done|]. intros (w&post&E&(x&w'&->&_)&_). done.
      * destruct ((c =? chr ".") || (c =? t)) eqn:Ea.
        -- rewrite IH1. assert (Ha : atom c t) by (apply orb_true_iff in Ea as [Ea|Ea]; apply Z.eqb_eq in Ea; [by left|by right]). split.
           ++ intros (w&post&->&Hw&He). exists (t :: w), post. split; [done|]. split; [|done]. by exists t, w.
           ++ intros (w&post&E&(x&w'&->&_&Hw)&He). injection E as -> ->. by exists w', post.
        -- split; [done|]. intros (w&post&E&(x&w'&->&Ha&_)&_). injection E as <- ->.
           apply orb_false_elim in Ea as [E1%Z.eqb_neq E2%Z.eqb_neq]. by destruct Ha.
Qed.

Lemma match_loop_spec re text : match_loop re text = true <-> exists pre rest, text = pre ++ rest /\ anchored_prefix re rest.
Proof.
  induction text as [|t text IH]; cbn [match_loop]; destruct (matchhere re _) eqn:E.
  - split; [|done]. intros _. exists [], []. split; [done|]. by apply matchhere_spec.
  - split; [done|]. intros (pre&rest&Ep&Ha). symmetry in Ep. apply app_nil in Ep as [-> ->]. apply matchhere_spec in Ha. congruence.
  - split; [|done]. intros _. exists [], (t :: text). split; [done|]. by apply matchhere_spec.
  - rewrite IH. split.
    + intros (pre&rest&->&Ha). by exists (t :: pre), rest.
    + intros (pre&rest&Ep&Ha). destruct pre as [|x pre]; cbn in Ep; [subst rest; apply matchhere_spec in Ha; congruence|].
      injection Ep as -> ->. by exists pre, rest.
Qed.

(** C37. The matcher of [grep] decides the language of its pattern: [match] answers 1 exactly when
    some part of the text is a word of the pattern, where a character followed by a star stands
    for any number of it, a dot for any character, and [^] and [$] tie the part to the start and
    the end of the text. *)
Theorem match_decides re text : match_ re text = true <-> matches re text.
Proof.
  unfold match_, matches. destruct re as [|c re1]; [apply match_loop_spec|]. destruct (c =? chr "^"); [apply matchhere_spec|apply match_loop_spec].
Qed.

(** ** The lines of the input *)

(** The complete lines of [l], without their newlines, and what follows the last one. *)
Fixpoint cut (l : list Z) : list (list Z) * list Z :=
  match l with
  | [] => ([], [])
  | c :: l =>
      let '(ls, r) := cut l in
      if c =? 10 then ([] :: ls, r) else match ls with [] => ([], c :: r) | x :: ls => ((c :: x) :: ls, r) end
  end.

(** The lines that match, as they are printed. *)
Definition selected (pattern : list Z) (ls : list (list Z)) : list Z :=
  concat (map (fun l => l ++ [10]) (List.filter (match_ pattern) ls)).

(** No line is too long for the buffer. *)
Definition short_lines (l : list Z) : Prop :=
  Forall (fun x => (length x <= 1022)%nat) (fst (cut l)) /\ (length (snd (cut l)) <= 1022)%nat.

Lemma cut_app a b : cut (a ++ b) = (fst (cut a) ++ fst (cut (snd (cut a) ++ b)), snd (cut (snd (cut a) ++ b))).
Proof.
  induction a as [|c a IH]; cbn [app cut fst snd]; [by destruct (cut b)|]. rewrite IH. destruct (cut a) as [la ra]. cbn [fst snd].
  destruct (c =? 10) eqn:Ec; cbn [fst snd app]; [done|]. destruct la as [|x la]; cbn [fst snd app]; [|done].
  cbn [cut]. rewrite Ec. destruct (cut (ra ++ b)) as [[|y lb] rb]; done.
Qed.

Lemma cut_rest l : Forall (fun c => c <> 10) (snd (cut l)).
Proof.
  induction l as [|c l IH]; cbn [cut]; [done|]. destruct (cut l) as [[|x ls] r]; cbn in *; destruct (Z.eqb_spec c 10); cbn; try done.
  by constructor.
Qed.

Lemma cut_rest_all P l : Forall P l -> Forall P (snd (cut l)).
Proof.
  induction 1 as [|c l Hc _ IH]; cbn [cut]; [done|]. destruct (cut l) as [[|x ls] r]; cbn in *; destruct (c =? 10); cbn; try done.
  by constructor.
Qed.

Lemma selected_app pattern a b : selected pattern (a ++ b) = selected pattern a ++ selected pattern b.
Proof. unfold selected. by rewrite List.filter_app, map_app, concat_app. Qed.

Lemma cut_noline l : Forall (fun c => c <> 10) l -> cut l = ([], l).
Proof.
  induction 1 as [|c l Hc _ IH]; cbn [cut]; [done|]. rewrite IH. by destruct (Z.eqb_spec c 10).
Qed.

Lemma strchr_cut p : Forall (fun c => c <> 0) p ->
  match strchr p 10 with
  | None => cut p = ([], p)
  | Some q => cut p = (take q p :: fst (cut (drop (S q) p)), snd (cut (drop (S q) p))) /\ take (S q) p = take q p ++ [10] /\ (S q <= length p)%nat
  end.
Proof.
  induction 1 as [|c p Hc _ IH]; [done|]. cbn [strchr cut]. destruct (Z.eqb_spec c 0); [done|]. destruct (Z.eqb_spec c 10) as [->|Hn].
  - cbn [fst snd take drop length]. rewrite drop_0. split; [by destruct (cut p)|]. split; [done|lia].
  - destruct (strchr p 10) as [q|]; cbn [fmap option_fmap option_map].
    + destruct IH as (IH&IH2&IH3). rewrite IH. cbn [take drop length]. split; [done|]. split; [|lia]. cbn [app]. by rewrite <- IH2.
    + by rewrite IH.
Qed.

Lemma cut_head r b : Forall (fun c => c <> 10) r -> short_lines (r ++ b) -> (length r <= 1022)%nat.
Proof.
  intros Hr. unfold short_lines. rewrite cut_app, (cut_noline r Hr). cbn [fst snd app]. intros [Hl Hs]. revert Hl Hs.
  assert (Hh : forall r b, Forall (fun c => c <> 10) r -> (exists x ls, fst (cut (r ++ b)) = x :: ls /\ (length r <= length x)%nat) \/
    (fst (cut (r ++ b)) = [] /\ (length r <= length (snd (cut (r ++ b))))%nat)).
  { clear. induction r as [|c r IH]; intros b Hr; cbn [app length].
    - destruct (cut b) as [[|x ls] rb]; cbn; [right; split; [done|lia]|left; exists x, ls; split; [done|lia]].
    - apply Forall_cons in Hr as [Hc Hr]. cbn [cut]. destruct (IH b Hr) as [(x&ls&E&Hx)|[E Hx]]; destruct (cut (r ++ b)) as [ls' rb]; cbn in E, Hx; subst ls';
        (destruct (Z.eqb_spec c 10); [done|]); cbn; [left; exists (c :: x), ls; split; [done|cbn; lia]|right; split; [done|lia]]. }
  intros Hl Hs. destruct (Hh r b Hr) as [(x&ls&E&Hx)|[E Hx]]; [|lia]. rewrite E in Hl. apply Forall_cons in Hl as [Hl _]. lia.
Qed.

Lemma short_lines_app a b : short_lines (a ++ b) -> short_lines (snd (cut a) ++ b).
Proof.
  unfold short_lines. rewrite cut_app. cbn [fst snd]. intros [Hl Hs]. apply Forall_app in Hl as [_ Hl]. done.
Qed.

(** ** The program prints the lines that match *)

Lemma grep_lines_exec fuel pattern p s : Forall (fun c => c <> 0) p -> (length p < fuel)%nat ->
  exec stream_handler (grep_lines fuel pattern p) s = (Returned (snd (cut p)), emit (selected pattern (fst (cut p))) s).
Proof.
  revert p s. induction fuel as [|fuel IH]; intros p s Hp Hf; [lia|]. cbn [grep_lines]. pose proof (strchr_cut p Hp) as Hc.
  destruct (strchr p 10) as [q|].
  - destruct Hc as (Ec&Et&Hq). rewrite exec_bind, Ec. cbn [fst snd]. unfold selected. cbn [List.filter].
    assert (Hd : (length (drop (S q) p) < fuel)%nat) by (rewrite length_drop; lia).
    destruct (match_ pattern (take q p)) eqn:Em.
    + cbn [exec ubind call stream_handler stream_write]. rewrite IH by (done || by apply Forall_drop). f_equal.
      change (if 1 =? 1 then _ else _) with (emit (take (S q) p) s). rewrite emit_emit, Et. cbn [map concat]. done.
    + cbn [exec]. by rewrite IH by (done || by apply Forall_drop).
  - rewrite Hc. cbn. f_equal. by rewrite emit_nil.
Qed.

Lemma grep_loop_exec fuel pattern fd buf s :
  (length (sv_in s) < fuel)%nat -> Forall (fun c => c <> 0) (buf ++ sv_in s) -> Forall (fun c => c <> 10) buf -> short_lines (buf ++ sv_in s) ->
  exists sizes, exec stream_handler (grep_loop fuel pattern fd buf) s =
    (Returned tt, mkstream [] sizes (sv_out s ++ selected pattern (fst (cut (buf ++ sv_in s)))) (sv_err s)).
Proof.
  revert buf s. induction fuel as [|fuel IH]; intros buf s Hf Hz Hb Hs; [lia|]. cbn [grep_loop].
  pose proof (cut_head _ _ Hb Hs) as Hlen. set (n := GREPBUF - Z.of_nat (length buf) - 1).
  cbn [exec ubind call stream_handler]. destruct (decide (sv_in s = [])) as [Ei|Hne].
  - rewrite (stream_read_end n s Ei), Ei, (app_nil_r buf), (cut_noline buf Hb). cbn [exec Z.gtb Z.compare fst]. exists (tail (sv_sizes s)).
    unfold selected. cbn [List.filter map concat]. by rewrite app_nil_r.
  - destruct (stream_read_some n s) as (m&Hm&Hmn&->); [lia|done|]. cbn beta iota zeta.
    assert (Eg : (Z.of_nat m >? 0) = true) by (apply Z.gtb_lt; lia). rewrite Eg, Nat2Z.id, (take_ge (take m (sv_in s)) m) by (rewrite length_take; lia).
    set (buf1 := buf ++ take m (sv_in s)). assert (Esplit : buf ++ sv_in s = buf1 ++ drop m (sv_in s)) by (unfold buf1; by rewrite <- app_assoc, take_drop).
    rewrite Esplit in *. apply Forall_app in Hz as [Hz1 Hz2]. rewrite exec_bind, grep_lines_exec by (done || lia). set (s1 := emit _ _).
    destruct (IH (snd (cut buf1)) s1) as [sizes E].
    + cbn [s1 emit sv_in]. rewrite length_drop. lia.
    + apply Forall_app. split; [by apply cut_rest_all|done].
    + apply cut_rest.
    + by apply short_lines_app.
    + exists sizes. rewrite E. f_equal. cbn [sv_in sv_out sv_err s1 emit]. f_equal. rewrite (cut_app buf1). cbn [fst].
      by rewrite selected_app, app_assoc.
Qed.

(** C38. For an input without NUL bytes whose lines have at most 1022 bytes,
    however the kernel cuts it into reads, [grep] reads all of it and prints
    the complete lines the matcher accepts, whole, in order, and nothing else.
    It returns: one iteration per byte of input is enough. *)
Theorem grep_prints fuel pattern fd s :
  (length (sv_in s) < fuel)%nat -> Forall (fun c => c <> 0) (sv_in s) -> short_lines (sv_in s) ->
  exists sizes, exec stream_handler (grep fuel pattern fd) s =
    (Returned tt, mkstream [] sizes (sv_out s ++ selected pattern (fst (cut (sv_in s)))) (sv_err s)).
Proof. intros Hf Hz Hs. apply (grep_loop_exec fuel pattern fd [] s); done. Qed.

(** "ab\nc\nbb\n" read four, one and then the other bytes, and the pattern "^b*$". *)
Definition demo_stream : stream := mkstream [97; 98; 10; 99; 10; 98; 98; 10] [3; 0; 9]%nat [] [].

Lemma grep_prints_witness :
  (exists sizes, exec stream_handler (grep 9 [94; 98; 42; 36] 0) demo_stream = (Returned tt, mkstream [] sizes [98; 98; 10] [])) /\
  selected [94; 98; 42; 36] (fst (cut (sv_in demo_stream))) = [98; 98; 10].
Proof.
  split; [|vm_compute; reflexivity].
  apply (grep_prints 9 [94; 98; 42; 36] 0 demo_stream); [cbn; lia|repeat (apply Forall_cons; split; [lia|]); apply Forall_nil; exact I|].
  split; [cbn; repeat (apply Forall_cons; split; [cbn; lia|]); apply Forall_nil; exact I|cbn; lia].
Defined.

Lemma strchr_none p c : Forall (fun x => x <> c) p -> strchr p c = None.
Proof.
  induction 1 as [|x p Hx _ IH]; cbn; [done|]. destruct (x =? 0); [done|]. destruct (Z.eqb_spec x c); [done|]. by rewrite IH.
Qed.

(** A line that fills the buffer silences the program: once 1023 bytes
    without a newline are buffered, [read] is asked for 0 bytes and its answer
    0 is taken for the end of the file, so nothing of the rest of the input is
    read or printed, however many lines of it match. *)
Theorem grep_stops_at_long_line fuel pattern fd line rest sizes out err :
  length line = 1023%nat -> Forall (fun c => c <> 10) line -> (1024 < fuel)%nat ->
  exists sizes', exec stream_handler (grep fuel pattern fd) (mkstream (line ++ rest) sizes out err) =
    (Returned tt, mkstream rest sizes' out err).
Proof.
  intros Hl Hn Hf. unfold grep.
  assert (G : forall fuel x buf sizes, (length buf + length x = 1023)%nat -> Forall (fun c => c <> 10) (buf ++ x) -> (S (length x) < fuel)%nat ->
    exists sizes', exec stream_handler (grep_loop fuel pattern fd buf) (mkstream (x ++ rest) sizes out err) = (Returned tt, mkstream rest sizes' out err)).
  2: by apply (G fuel line [] sizes); [rewrite Hl|..]; [|done|lia].
  clear. induction fuel as [|fuel IH]; intros x buf sizes Hl Hn Hf; [lia|]. cbn [grep_loop exec ubind call stream_handler].
  set (s := mkstream _ _ _ _). set (n := GREPBUF - Z.of_nat (length buf) - 1). assert (Hx : n = Z.of_nat (length x)) by (unfold n; lia).
  destruct x as [|c x].
  - cbn [length] in Hx. rewrite Hx. cbn. by exists (tail sizes).
  - destruct (stream_read_some n s) as (m&Hm&Hmn&->); [cbn in Hx; lia|done|]. cbn beta iota zeta.
    assert (Eg : (Z.of_nat m >? 0) = true) by (apply Z.gtb_lt; lia). rewrite Eg, Nat2Z.id. cbn [s sv_in sv_sizes sv_out sv_err] in Hm |- *.
    rewrite (take_ge (take m _) m) by (rewrite length_take; lia). rewrite (take_app_le _ _ m), (drop_app_le _ _ m) by lia.
    assert (Hb : Forall (fun c => c <> 10) (buf ++ take m (c :: x))) by (apply Forall_app in Hn as [Hn1 Hn2]; apply Forall_app; split; [done|by apply Forall_take]).
    rewrite exec_bind. cbn [grep_lines]. rewrite (strchr_none _ _ Hb). cbn [exec]. apply IH.
    + rewrite length_app, length_take, length_drop. lia.
    + by rewrite <- app_assoc, take_drop.
    + rewrite length_drop. lia.
Qed.

Lemma grep_stops_at_long_line_witness : exists sizes',
  exec stream_handler (grep 1025 [97] 0) (mkstream (replicate 1023 98 ++ [10; 97; 10]) [1022%nat] [] []) = (Returned tt, mkstream [10; 97; 10] sizes' [] []).
Proof.
  apply (grep_stops_at_long_line 1025 [97] 0 (replicate 1023 98) [10; 97; 10]); [reflexivity| |lia].
  apply Forall_replicate. lia.
Defined.
