(* ===== verification/UserPrograms.v ===== *)
(** * The small user programs

    [cat.c], [wc.c], [echo.c], [ls.c], [kill.c], [ln.c], [mkdir.c], [rm.c],
    [zombie.c] and [init.c].  [argv] includes the name of the program; a loop that the code bounds by its input or not at all
    takes the number of rounds it may make. *)

From S2P Require Import Prelude CString Printf UserSys Ulib.
From stdpp Require Import base numbers strings list.
From Stdlib Require Import ZArith Lia.

#[local] Open Scope Z_scope.
#[local] Open Scope user_scope.

(** ** [cat.c] *)

Fixpoint cat (fuel : nat) (fd : Z) : prog unit :=
  match fuel with
  | O => UBad "cat"
  | S fuel =>
      '(n, buf) <- call (SRead fd 512) ;;
      if n >? 0 then
        r <- call (SWrite 1 (take (Z.to_nat n) buf)) ;;
        if negb (r =? n) then
          fprintf 2 ("cat: write error" +:+ nl) [] ;;
          UExit 1
        else cat fuel fd
      else if n <? 0 then
        fprintf 2 ("cat: read error" +:+ nl) [] ;;
        UExit 1
      else URet tt
  end.

Fixpoint cat_files (fuel : nat) (files : list (list Z)) : prog Z :=
  match files with
  | [] => UExit 0
  | f :: files =>
      fd <- call (SOpen f O_RDONLY) ;;
      if fd <? 0 then
        fprintf 2 ("cat: cannot open %s" +:+ nl) [VStr (Some f)] ;;
        UExit 1
      else
      cat fuel fd ;;
      call (SClose fd) ;;
      cat_files fuel files
  end.

Definition cat_main (fuel : nat) (argv : list (list Z)) : prog Z :=
  match argv with
  | [] | [_] =>
      cat fuel 0 ;;
      UExit 0
  | _ :: files => cat_files fuel files
  end.

(** ** [wc.c] *)

(** [l], [w], [c] and [inword]. *)
Record counts := mkcounts { wc_l : Z; wc_w : Z; wc_c : Z; wc_inword : bool }.

(** The string " \r\t\n\v". *)
Definition blanks : list Z := [32; 13; 9; 10; 11].

(** The body of [for(i=0; i<n; i++)]. *)
Definition wc_byte (b : Z) (k : counts) : counts :=
  let c := i32 (wc_c k + 1) in
  let l := if b =? 10 then i32 (wc_l k + 1) else wc_l k in
  if bool_decide (strchr blanks b <> None) then mkcounts l (wc_w k) c false
  else if negb (wc_inword k) then mkcounts l (i32 (wc_w k + 1)) c true
  else mkcounts l (wc_w k) c (wc_inword k).

Fixpoint wc_buf (buf : list Z) (k : counts) : counts :=
  match buf with
  | [] => k
  | b :: buf => wc_buf buf (wc_byte b k)
  end.

Fixpoint wc_loop (fuel : nat) (fd : Z) (name : list Z) (k : counts) : prog unit :=
  match fuel with
  | O => UBad "wc"
  | S fuel =>
      '(n, buf) <- call (SRead fd 512) ;;
      if n >? 0 then wc_loop fuel fd name (wc_buf (take (Z.to_nat n) buf) k)
      else if n <? 0 then
        printf ("wc: read error" +:+ nl) [] ;;
        UExit 1
      else printf ("%d %d %d %s" +:+ nl) [VInt (wc_l k); VInt (wc_w k); VInt (wc_c k); VStr (Some name)]
  end.

Definition wc (fuel : nat) (fd : Z) (name : list Z) : prog unit := wc_loop fuel fd name (mkcounts 0 0 0 false).

Fixpoint wc_files (fuel : nat) (files : list (list Z)) : prog Z :=
  match files with
  | [] => UExit 0
  | f :: files =>
      fd <- call (SOpen f O_RDONLY) ;;
      if fd <? 0 then
        printf ("wc: cannot open %s" +:+ nl) [VStr (Some f)] ;;
        UExit 1
      else
      wc fuel fd f ;;
      call (SClose fd) ;;
      wc_files fuel files
  end.

Definition wc_main (fuel : nat) (argv : list (list Z)) : prog Z :=
  match argv with
  | [] | [_] =>
      wc fuel 0 [] ;;
      UExit 0
  | _ :: files => wc_files fuel files
  end.

(** ** [echo.c] *)

Fixpoint echo_args (args : list (list Z)) : prog Z :=
  match args with
  | [] => UExit 0
  | a :: args =>
      call (SWrite 1 a) ;;
      (match args with
       | _ :: _ => call (SWrite 1 [32])
       | [] => call (SWrite 1 [10])
       end) ;;
      echo_args args
  end.

Definition echo_main (argv : list (list Z)) : prog Z := echo_args (tail argv).

(** ** [kill.c], [ln.c], [mkdir.c], [rm.c], [zombie.c] *)

Fixpoint kill_args (args : list (list Z)) : prog Z :=
  match args with
  | [] => UExit 0
  | a :: args =>
      call (SKill (atoi a)) ;;
      kill_args args
  end.

Definition kill_main (argv : list (list Z)) : prog Z :=
  if Z.of_nat (length argv) <? 2 then
    fprintf 2 ("usage: kill pid..." +:+ nl) [] ;;
    UExit 1
  else kill_args (tail argv).

Definition ln_main (argv : list (list Z)) : prog Z :=
  match argv with
  | [_; old; new] =>
      r <- call (SLink old new) ;;
      (if r <? 0 then fprintf 2 ("link %s %s: failed" +:+ nl) [VStr (Some old); VStr (Some new)] else URet tt) ;;
      UExit 0
  | _ =>
      fprintf 2 ("Usage: ln old new" +:+ nl) [] ;;
      UExit 1
  end.

Fixpoint mkdir_args (args : list (list Z)) : prog Z :=
  match args with
  | [] => UExit 0
  | a :: args =>
      r <- call (SMkdir a) ;;
      if r <? 0 then
        fprintf 2 ("mkdir: %s failed to create" +:+ nl) [VStr (Some a)] ;;
        UExit 0
      else mkdir_args args
  end.

Definition mkdir_main (argv : list (list Z)) : prog Z :=
  if Z.of_nat (length argv) <? 2 then
    fprintf 2 ("Usage: mkdir files..." +:+ nl) [] ;;
    UExit 1
  else mkdir_args (tail argv).

Fixpoint rm_args (args : list (list Z)) : prog Z :=
  match args with
  | [] => UExit 0
  | a :: args =>
      r <- call (SUnlink a) ;;
      if r <? 0 then
        fprintf 2 ("rm: %s failed to delete" +:+ nl) [VStr (Some a)] ;;
        UExit 0
      else rm_args args
  end.

Definition rm_main (argv : list (list Z)) : prog Z :=
  if Z.of_nat (length argv) <? 2 then
    fprintf 2 ("Usage: rm files..." +:+ nl) [] ;;
    UExit 1
  else rm_args (tail argv).

Definition zombie_main : prog Z :=
  pid <- call SFork ;;
  (if pid >? 0 then call (SPause 5) ;; URet tt else URet tt) ;;
  UExit 0.

(** ** [init.c] *)

Definition CONSOLE : Z := 1.

(** The inner [for(;;)]: wait until the shell [pid] has exited. *)
Fixpoint init_wait (fuel : nat) (pid : Z) : prog unit :=
  match fuel with
  | O => UBad "init"
  | S fuel =>
      '(wpid, _) <- call SWait ;;
      if wpid =? pid then URet tt
      else if wpid <? 0 then
        printf ("init: wait returned an error" +:+ nl) [] ;;
        UExit 1
      else init_wait fuel pid
  end.

(** The outer [for(;;)]: start a shell, again and again. *)
Fixpoint init_loop (fuel : nat) : prog Z :=
  match fuel with
  | O => UBad "init"
  | S fuel' =>
      printf ("init: starting sh" +:+ nl) [] ;;
      pid <- call SFork ;;
      if pid <? 0 then
        printf ("init: fork failed" +:+ nl) [] ;;
        UExit 1
      else if pid =? 0 then
        call (SExec (str "sh") [str "sh"]) ;;
        printf ("init: exec sh failed" +:+ nl) [] ;;
        UExit 1
      else
      init_wait fuel pid ;;
      init_loop fuel'
  end.

Definition init_main (fuel : nat) : prog Z :=
  fd <- call (SOpen (str "console") O_RDWR) ;;
  (if fd <? 0 then
     call (SMknod (str "console") CONSOLE 0) ;;
     call (SOpen (str "console") O_RDWR) ;;
     URet tt
   else URet tt) ;;
  call (SDup 0) ;;
  call (SDup 0) ;;
  init_loop fuel.

(** ** [ls.c] *)

Definition DIRSIZ : Z := 14.
Definition T_DIR : Z := 1.
Definition T_FILE : Z := 2.
Definition T_DEVICE : Z := 3.

(** [for(p=path+strlen(path); p >= path && *p != '/'; p--); p++;] from index [i]. *)
Fixpoint fmtname_scan (path : list Z) (i : nat) : nat :=
  if default 0 (path !! i) =? 47 then S i
  else match i with O => 0%nat | S i => fmtname_scan path i end.

(** The string returned: the name where it stands, or a static buffer with the
    name and blanks in all of its bytes up to the final 0. *)
Definition fmtname (path : list Z) : list Z :=
  let p := drop (fmtname_scan path (length path)) path in
  if Z.of_nat (length p) >=? DIRSIZ then p
  else p ++ memset (replicate (14 - length p) 0) 32 (DIRSIZ - Z.of_nat (length p)).

(** [struct dirent]: the inode number, and the name up to a 0. *)
Definition de_inum (de : list Z) : Z := nthd 0 de 0 + 256 * nthd 0 de 1.
Definition de_name (de : list Z) : list Z := cstr_from 14 (nthd 0 (take 14 (drop 2 de))) 0.

Definition ls_line (name : list Z) (st : ustat) : prog unit :=
  printf ("%s %d %d %d" +:+ nl)
    [VStr (Some (fmtname name)); VInt (st_type st); VInt (st_ino st); VInt (i32 (st_size st))].

(** [while(read(fd, &de, sizeof(de)) == sizeof(de))]; [dir] is the path with its slash. *)
Fixpoint ls_entries (fuel : nat) (fd : Z) (dir : list Z) : prog unit :=
  match fuel with
  | O => UBad "ls"
  | S fuel =>
      '(n, de) <- call (SRead fd 16) ;;
      if negb (n =? 16) then URet tt
      else if de_inum de =? 0 then ls_entries fuel fd dir
      else
      let buf := dir ++ de_name de in
      '(r, st) <- stat buf ;;
      (if r <? 0 then printf ("ls: cannot stat %s" +:+ nl) [VStr (Some buf)] else ls_line buf st) ;;
      ls_entries fuel fd dir
  end.

Definition ls (fuel : nat) (path : list Z) : prog unit :=
  fd <- call (SOpen path O_RDONLY) ;;
  if fd <? 0 then fprintf 2 ("ls: cannot open %s" +:+ nl) [VStr (Some path)]
  else
  '(r, st) <- call (SFstat fd) ;;
  if r <? 0 then
    fprintf 2 ("ls: cannot stat %s" +:+ nl) [VStr (Some path)] ;;
    call (SClose fd) ;;
    URet tt
  else
  (if (st_type st =? T_DEVICE) || (st_type st =? T_FILE) then ls_line path st
   else if st_type st =? T_DIR then
     if Z.of_nat (length path) + 1 + DIRSIZ + 1 >? 512 then printf ("ls: path too long" +:+ nl) []
     else ls_entries fuel fd (path ++ [47])
   else URet tt) ;;
  call (SClose fd) ;;
  URet tt.

Fixpoint ls_args (fuel : nat) (args : list (list Z)) : prog Z :=
  match args with
  | [] => UExit 0
  | a :: args => ls fuel a ;; ls_args fuel args
  end.

Definition ls_main (fuel : nat) (argv : list (list Z)) : prog Z :=
  if Z.of_nat (length argv) <? 2 then
    ls fuel (str ".") ;;
    UExit 0
  else ls_args fuel (tail argv).

(** ** [cat] copies its input *)

Lemma cat_exec fuel fd s : (length (sv_in s) < fuel)%nat ->
  exists sizes, exec stream_handler (cat fuel fd) s = (Returned tt, mkstream [] sizes (sv_out s ++ sv_in s) (sv_err s)).
Proof.
  revert s. induction fuel as [|fuel IH]; intros s Hf; [lia|]. cbn [cat exec ubind call stream_handler].
  destruct (decide (sv_in s = [])) as [Ei|Hne].
  - rewrite (stream_read_end 512 s Ei), Ei, app_nil_r. cbn. by eexists.
  - destruct (stream_read_some 512 s) as (m&Hm&_&->); [lia|done|]. cbn beta iota zeta.
    rewrite (proj2 (Z.gtb_lt (Z.of_nat m) 0)), Nat2Z.id, (take_ge (take m (sv_in s)) m) by (rewrite ?length_take; lia).
    cbn [exec ubind call stream_handler]. unfold stream_write. change (1 =? 1) with true. cbn beta iota zeta.
    rewrite length_take, Nat.min_l, Z.eqb_refl by lia. cbn [negb exec ubind sv_in sv_sizes sv_out sv_err].
    destruct (IH (mkstream (drop m (sv_in s)) (tail (sv_sizes s)) (sv_out s ++ take m (sv_in s)) (sv_err s))) as [sizes E].
    + cbn [sv_in]. rewrite length_drop. lia.
    + exists sizes. rewrite E. cbn [sv_in sv_out sv_err]. by rewrite <- app_assoc, take_drop.
Qed.

(** ** [wc] counts *)

Definition is_blank (b : Z) : bool := bool_decide (strchr blanks b <> None).

(** The pieces between blanks; a word is a piece that is not empty. *)
Fixpoint pieces (l : list Z) : list Z * list (list Z) :=
  match l with
  | [] => ([], [])
  | b :: l => let '(x, xs) := pieces l in if is_blank b then ([], x :: xs) else (b :: x, xs)
  end.

Definition nonempty (x : list Z) : bool := match x with [] => false | _ => true end.
Definition words_in (l : list Z) : nat := length (List.filter nonempty (fst (pieces l) :: snd (pieces l))).
Definition lines_in (l : list Z) : nat := length (List.filter (Z.eqb 10) l).

Lemma wc_buf_app a b k : wc_buf (a ++ b) k = wc_buf b (wc_buf a k).
Proof. revert k. induction a as [|x a IH]; intros k; cbn; auto. Qed.

(** The words of [l] that begin in it, when the byte before it is part of a word or not. *)
Definition words_after (inword : bool) (l : list Z) : Z :=
  Z.of_nat (length (List.filter nonempty (snd (pieces l)))) + (if negb inword && nonempty (fst (pieces l)) then 1 else 0).

Lemma words_after_cons inword b l : words_after inword (b :: l) =
  if is_blank b then words_after false l else (if inword then 0 else 1) + words_after true l.
Proof.
  unfold words_after. cbn [pieces]. destruct (pieces l) as [x xs]. destruct (is_blank b); cbn [fst snd nonempty List.filter negb andb].
  - destruct x; cbn [nonempty length]; rewrite ?andb_false_r; destruct inword; cbn; lia.
  - destruct inword; cbn; lia.
Qed.

Lemma length_filter_le {A} (f : A -> bool) l : (length (List.filter f l) <= length l)%nat.
Proof. induction l as [|x l IH]; cbn; [lia|]. destruct (f x); cbn; lia. Qed.

Lemma words_after_le inword l : 0 <= words_after inword l <= Z.of_nat (length l).
Proof.
  revert inword. induction l as [|b l IH]; intros inword; [destruct inword; unfold words_after; cbn; lia|]. rewrite words_after_cons. cbn [length].
  pose proof (IH true). pose proof (IH false). destruct (is_blank b), inword; lia.
Qed.

Lemma wc_buf_counts l k : 0 <= wc_l k -> 0 <= wc_w k -> 0 <= wc_c k -> wc_l k <= wc_c k -> wc_w k <= wc_c k -> wc_c k + Z.of_nat (length l) < 2 ^ 31 ->
  exists inword, wc_buf l k = mkcounts (wc_l k + Z.of_nat (lines_in l)) (wc_w k + words_after (wc_inword k) l) (wc_c k + Z.of_nat (length l)) inword.
Proof.
  revert k. induction l as [|b l IH]; intros k H1 H2 H3 H4 H5 Hb; cbn [wc_buf].
  - exists (wc_inword k). destruct k as [l w c i]. unfold words_after. cbn. rewrite andb_false_r. f_equal; lia.
  - cbn [length] in Hb. rewrite words_after_cons. unfold lines_in. cbn [List.filter]. unfold wc_byte. fold (is_blank b).
    rewrite (Z.eqb_sym 10 b). assert (El : (if b =? 10 then i32 (wc_l k + 1) else wc_l k) = wc_l k + (if b =? 10 then 1 else 0)).
    { destruct (b =? 10); [apply i32_small; zlia|lia]. }
    rewrite El, !i32_small by zlia. set (dl := if b =? 10 then 1 else 0) in *. assert (Hdl : 0 <= dl <= 1) by (unfold dl; destruct (b =? 10); lia).
    assert (En : Z.of_nat (length (if b =? 10 then b :: List.filter (Z.eqb 10) l else List.filter (Z.eqb 10) l)) = dl + Z.of_nat (lines_in l)).
    { unfold dl, lines_in. destruct (b =? 10); cbn [length]; lia. }
    rewrite En. assert (Hgo : forall w i, 0 <= w <= wc_c k + 1 -> exists inword, wc_buf l (mkcounts (wc_l k + dl) w (wc_c k + 1) i) =
        mkcounts (wc_l k + dl + Z.of_nat (lines_in l)) (w + words_after i l) (wc_c k + 1 + Z.of_nat (length l)) inword).
    { intros w i Hw. apply (IH (mkcounts (wc_l k + dl) w (wc_c k + 1) i)); cbn [wc_l wc_w wc_c]; lia. }
    destruct (is_blank b); [|destruct (wc_inword k)]; cbn [negb].
    + destruct (Hgo (wc_w k) false) as [i E]; [lia|]. exists i. rewrite E. f_equal; cbn [length]; lia.
    + destruct (Hgo (wc_w k) true) as [i E]; [lia|]. exists i. rewrite E. f_equal; cbn [length]; lia.
    + destruct (Hgo (wc_w k + 1) true) as [i E]; [lia|]. exists i. rewrite E. f_equal; cbn [length]; lia.
Qed.

(** A number as [%d] prints it. *)
Definition decimal (n : Z) : list Z := printint n 10 true.

Lemma u8_bytes l : Forall (fun b => 0 <= b < 256) l -> u8 <$> l = l.
Proof. induction 1 as [|b l Hb _ IH]; cbn; [done|]. by rewrite IH, u8_small by zlia. Qed.

Lemma printint_loop_bytes fuel x : Forall (fun b => 0 <= b < 256) (printint_loop fuel x 10).
Proof.
  revert x. induction fuel as [|fuel IH]; intros x; cbn [printint_loop]; constructor.
  - assert (0 <= x mod 10 < 10) by (apply Z.mod_pos_bound; lia). rewrite decimal_digit by done. lia.
  - destruct (x / 10 =? 0); [done|apply IH].
Qed.

Lemma decimal_bytes n : 0 <= n -> Forall (fun b => 0 <= b < 256) (decimal n).
Proof.
  intros Hn. unfold decimal, printint. rewrite (proj2 (Z.ltb_ge n 0)) by lia. cbn [andb]. rewrite app_nil_r. apply Forall_rev, printint_loop_bytes.
Qed.

(** The line [wc] prints for the bytes [l] of the file [name]. *)
Definition wc_line (l name : list Z) : list Z :=
  decimal (Z.of_nat (lines_in l)) ++ 32 :: decimal (Z.of_nat (words_in l)) ++ 32 :: decimal (Z.of_nat (length l)) ++ 32 :: name ++ [10].

Lemma wc_format a b c name : vformat (str ("%d %d %d %s" +:+ nl)) [VInt a; VInt b; VInt c; VStr (Some name)] =
  Some (decimal (i32 a) ++ 32 :: decimal (i32 b) ++ 32 :: decimal (i32 c) ++ 32 :: name ++ [10]).
Proof. reflexivity. Qed.

Lemma wc_loop_exec fuel fd name k s : (length (sv_in s) < fuel)%nat ->
  exists sizes, exec stream_handler (wc_loop fuel fd name k) s =
    exec stream_handler (printf ("%d %d %d %s" +:+ nl)
      (let k := wc_buf (sv_in s) k in [VInt (wc_l k); VInt (wc_w k); VInt (wc_c k); VStr (Some name)])) (mkstream [] sizes (sv_out s) (sv_err s)).
Proof.
  revert k s. induction fuel as [|fuel IH]; intros k s Hf; [lia|]. cbn [wc_loop exec ubind call stream_handler].
  destruct (decide (sv_in s = [])) as [Ei|Hne].
  - rewrite (stream_read_end 512 s Ei), Ei. by exists (tail (sv_sizes s)).
  - destruct (stream_read_some 512 s) as (m&Hm&_&->); [lia|done|]. cbn beta iota zeta.
    rewrite (proj2 (Z.gtb_lt (Z.of_nat m) 0)), Nat2Z.id, (take_ge (take m (sv_in s)) m) by (rewrite ?length_take; lia).
    set (s1 := mkstream _ _ _ _). destruct (IH (wc_buf (take m (sv_in s)) k) s1) as [sizes E].
    + cbn [s1 sv_in]. rewrite length_drop. lia.
    + exists sizes. rewrite E. cbn [s1 sv_in sv_out sv_err]. by rewrite <- wc_buf_app, take_drop.
Qed.

(** [wc] prints the number of lines, of words and of bytes of its input,
    however the kernel cuts the input into reads: a word is a maximal sequence
    of bytes that are not blanks.  The counters do not overflow below 2 GiB. *)
Theorem wc_counts fuel fd name s :
  (length (sv_in s) < fuel)%nat -> Z.of_nat (length (sv_in s)) < 2 ^ 31 -> Forall (fun b => 0 <= b < 256) name ->
  exists sizes, exec stream_handler (wc fuel fd name) s =
    (Returned tt, mkstream [] sizes (sv_out s ++ wc_line (sv_in s) name) (sv_err s)).
Proof.
  intros Hf Hl Hn. unfold wc. destruct (wc_loop_exec fuel fd name (mkcounts 0 0 0 false) s Hf) as [sizes E]. exists sizes. rewrite E.
  destruct (wc_buf_counts (sv_in s) (mkcounts 0 0 0 false)) as [inword Ek]; cbn [wc_l wc_w wc_c wc_inword] in *; try lia.
  rewrite Ek. cbn [wc_l wc_w wc_c]. rewrite (printf_exec _ _ _ _ (wc_format _ _ _ _)). rewrite !Z.add_0_l. unfold emit. cbn [sv_in sv_sizes sv_out sv_err].
  pose proof (length_filter_le (Z.eqb 10) (sv_in s)) as Hll. pose proof (words_after_le false (sv_in s)) as Hlw. fold (lines_in (sv_in s)) in Hll.
  assert (Ew : words_after false (sv_in s) = Z.of_nat (words_in (sv_in s))).
  { unfold words_after, words_in. cbn [negb andb List.filter]. destruct (nonempty (fst (pieces (sv_in s)))); cbn [length]; lia. }
  rewrite Ew in *. rewrite !i32_small by zlia. do 3 f_equal. rewrite u8_bytes; [done|].
  rewrite !Forall_app, !Forall_cons, !Forall_app, !Forall_cons, !Forall_app, !Forall_cons, Forall_app, Forall_singleton.
  repeat split; try done; try lia; apply decimal_bytes; lia.
Qed.

(** "a b\n\nc" read one byte and then the others. *)
Lemma wc_counts_witness :
  exists sizes, exec stream_handler (wc 7 0 [120]) (mkstream [97; 32; 98; 10; 10; 99] [0; 9]%nat [] []) =
    (Returned tt, mkstream [] sizes [50; 32; 51; 32; 54; 32; 120; 10] []).
Proof.
  apply (wc_counts 7 0 [120] (mkstream [97; 32; 98; 10; 10; 99] [0; 9]%nat [] [])); [cbn; lia|cbn; lia|].
  apply Forall_cons. split; [lia|apply Forall_nil; exact I].
Defined.

(** ** [echo] prints its arguments on a line, [fmtname] the last element of a path *)

Fixpoint joined (args : list (list Z)) : list Z :=
  match args with
  | [] => []
  | [a] => a ++ [10]
  | a :: args => a ++ 32 :: joined args
  end.

Lemma echo_exec name args s : exec stream_handler (echo_main (name :: args)) s = (Exited 0, emit (joined args) s).
Proof.
  unfold echo_main. cbn [tail]. revert s. induction args as [|a args IH]; intros s; [by rewrite emit_nil|].
  destruct args as [|b args]; cbn [echo_args ubind call]; do 2 rewrite write_exec.
  - cbn [exec]. by rewrite emit_emit.
  - cbn [echo_args ubind call] in IH. rewrite IH, !emit_emit. done.
Qed.

Lemma fmtname_scan_spec dir base : Forall (fun c => c <> 47) base ->
  fmtname_scan (dir ++ 47 :: base) (length (dir ++ 47 :: base)) = S (length dir) /\ fmtname_scan base (length base) = 0%nat.
Proof.
  intros Hb. split.
  - assert (G : forall n, (n <= length base)%nat -> fmtname_scan (dir ++ 47 :: base) (length dir + 1 + n) = S (length dir)).
    { assert (G0 : fmtname_scan (dir ++ 47 :: base) (length dir) = S (length dir)).
      { destruct (length dir) eqn:E; cbn [fmtname_scan]; rewrite <- E, list_lookup_middle by done; reflexivity. }
      induction n as [|n IH]; intros Hn.
      - rewrite Nat.add_0_r, Nat.add_1_r. cbn [fmtname_scan]. rewrite lookup_app_r, lookup_cons_ne_0 by lia.
        replace (pred (S (length dir) - length dir)) with 0%nat by lia. destruct base as [|c base]; [exact G0|]. apply Forall_cons in Hb as [Hc _].
        cbn [lookup list_lookup default]. unfold default, id. cbn. destruct (Z.eqb_spec c 47); [done|exact G0].
      - replace (length dir + 1 + S n)%nat with (S (length dir + 1 + n)) by lia. cbn [fmtname_scan].
        rewrite lookup_app_r, lookup_cons_ne_0 by lia. destruct (base !! _) as [c|] eqn:E.
        + apply (Forall_lookup_1 _ _ _ _ Hb) in E. cbn. destruct (Z.eqb_spec c 47); [done|]. apply IH. lia.
        + cbn. apply IH. lia. }
    rewrite length_app. cbn [length]. replace (length dir + S (length base))%nat with (length dir + 1 + length base)%nat by lia. apply G. lia.
  - generalize (length base) as n. induction n as [|n IH]; cbn [fmtname_scan]; destruct (base !! _) as [c|] eqn:E; try (cbn; done);
      apply (Forall_lookup_1 _ _ _ _ Hb) in E; cbn; destruct (Z.eqb_spec c 47); done.
Qed.

Lemma memset_fill n c l : 0 <= c < 256 -> Z.of_nat n < 2 ^ 32 -> length l = n -> memset l c (Z.of_nat n) = replicate n c.
Proof.
  intros Hc Hn Hl. unfold memset. rewrite u32_small, Nat2Z.id by lia.
  assert (G : forall m pre l, length l = m -> memset_loop m (pre ++ l) c (Z.of_nat (length pre)) = pre ++ replicate m c).
  { clear -Hc. induction m as [|m IH]; intros pre l Hl; cbn [memset_loop replicate]; [by destruct l|]. destruct l as [|x l]; [done|].
    rewrite setz_middle, u8_small by zlia. replace (Z.of_nat (length pre) + 1) with (Z.of_nat (length (pre ++ [c]))) by (rewrite length_app; cbn; lia).
    replace (pre ++ c :: l) with ((pre ++ [c]) ++ l) by (by rewrite <- app_assoc). rewrite IH by (cbn in Hl; lia). by rewrite <- app_assoc. }
  by apply (G n [] l).
Qed.

(** The last element of a path, filled with blanks to the width of a directory entry. *)
Lemma fmtname_spec dir base : Forall (fun c => c <> 47) base ->
  fmtname (dir ++ 47 :: base) = base ++ replicate (14 - length base) 32 /\ fmtname base = base ++ replicate (14 - length base) 32.
Proof.
  intros Hb. destruct (fmtname_scan_spec dir base Hb) as [E1 E2]. unfold fmtname. rewrite E1, E2, drop_0.
  replace (drop (S (length dir)) (dir ++ 47 :: base)) with base
    by (replace (dir ++ 47 :: base) with ((dir ++ [47]) ++ base) by (by rewrite <- app_assoc); by rewrite drop_app_length' by (rewrite length_app; cbn; lia)).
  assert (G : (if Z.of_nat (length base) >=? DIRSIZ then base else base ++ memset (replicate (14 - length base) 0) 32 (DIRSIZ - Z.of_nat (length base))) =
    base ++ replicate (14 - length base) 32); [|by rewrite G]. unfold DIRSIZ.
  destruct (Z.geb_spec (Z.of_nat (length base)) 14); [by replace (14 - length base)%nat with 0%nat by lia; rewrite app_nil_r|].
  replace (14 - Z.of_nat (length base)) with (Z.of_nat (14 - length base)) by lia. rewrite memset_fill; [done|lia|lia|by rewrite length_replicate].
Qed.
