(* ===== verification/TestLib.v ===== *)
(** * What the test programs share

    The loops and the arrays of [usertests.c], [grind.c] and the other test programs, and the
    judgement in which they are verified: whatever the kernel answers, a program makes no access
    outside its arrays and gives [printf] the arguments its format asks for.

    An array is the list of its bytes; an access outside it is [UBad].  A loop that the code does
    not bound takes the number of rounds it may make, and [UBad] with the message [rounds] when it
    runs out of them. *)

From S2P Require Import Prelude CString Fields Printf UserSys Ulib.
From stdpp Require Import base numbers strings list.
From Stdlib Require Import ZArith Lia.

#[local] Open Scope Z_scope.
#[local] Open Scope user_scope.

(** ** Loops *)

Definition rounds : string := "rounds".

(** [for(i = a; i < b; i++) { body }], [n] rounds from [i] on, with the variables [x]. *)
Fixpoint for_upto {X} (n : nat) (i : Z) (body : Z -> X -> prog X) (x : X) : prog X :=
  match n with
  | O => URet x
  | S n => x <- body i x ;; for_upto n (i + 1) body x
  end.

Definition for_range {X} (a b : Z) (body : Z -> X -> prog X) (x : X) : prog X := for_upto (Z.to_nat (b - a)) a body x.

(** The same without variables. *)
Definition for_each (a b : Z) (body : Z -> prog unit) : prog unit := for_range a b (fun i _ => body i) tt.

(** [while(1) { body }]: [inl] goes on with new values of the variables, [inr] leaves the loop. *)
Fixpoint loop {X A} (n : nat) (body : X -> prog (X + A)) (x : X) : prog A :=
  match n with
  | O => UBad rounds
  | S n =>
      r <- body x ;;
      match r with
      | inl x => loop n body x
      | inr a => URet a
      end
  end.

(** ** Arrays *)

(** [char buf[n];] *)
Definition local (n : Z) : prog (list Z) := call (MUninit n).

(** A string constant, with its end. *)
Definition lit (s : string) : list Z := str s ++ [0].

(** [a[i]] and [a[i] = v] for an array of something other than bytes. *)
Definition get_at {A} (a : list A) (i : Z) : prog A :=
  match (if i <? 0 then None else a !! Z.to_nat i) with
  | Some v => URet v
  | None => UBad "load outside an array"
  end.

Definition set_at {A} (a : list A) (i : Z) (v : A) : prog (list A) :=
  if bool_decide (0 <= i < Z.of_nat (length a)) then URet (<[Z.to_nat i := v]> a) else UBad "store outside an array".

(** [buf[i]] *)
Definition get (buf : list Z) (i : Z) : prog Z :=
  if bool_decide (0 <= i < Z.of_nat (length buf)) then URet (nthd 0 buf i) else UBad "load outside an array".

(** [buf[i] = v] *)
Definition put (buf : list Z) (i v : Z) : prog (list Z) :=
  if bool_decide (0 <= i < Z.of_nat (length buf)) then URet (setz buf i (u8 v)) else UBad "store outside an array".

(** The string in an array, which has to end there. *)
Fixpoint cstring (buf : list Z) : prog (list Z) :=
  match buf with
  | [] => UBad "string not terminated"
  | c :: buf => if c =? 0 then URet [] else s <- cstring buf ;; URet (c :: s)
  end.

(** The arguments in an array of pointers, up to the null pointer, which has to be in the array. *)
Fixpoint args_of {A} (argv : list (option A)) : prog (list A) :=
  match argv with
  | [] => UBad "argv not terminated"
  | None :: _ => URet []
  | Some a :: argv => l <- args_of argv ;; URet (a :: l)
  end.

(** [memset(buf, c, n)] *)
Definition fill (buf : list Z) (c n : Z) : prog (list Z) :=
  if bool_decide (0 <= n <= Z.of_nat (length buf)) then URet (memset buf c n) else UBad "memset outside an array".

(** [write(fd, buf, n)] *)
Definition write_buf (fd : Z) (buf : list Z) (n : Z) : prog Z :=
  if bool_decide (0 <= n <= Z.of_nat (length buf)) then call (SWrite fd (take (Z.to_nat n) buf)) else UBad "write outside an array".

(** [read(fd, buf, n)]: the result and the array afterwards. *)
Definition read_buf (fd : Z) (buf : list Z) (n : Z) : prog (Z * list Z) :=
  if bool_decide (0 <= n <= Z.of_nat (length buf)) then
    '(r, bs) <- call (SRead fd n) ;;
    URet (r, splice buf 0 bs)
  else UBad "read outside an array".

(** [*(char * )a] and [*(char * )a = v] for a pointer made up by the program: a fault kills it. *)
Definition load (a : Z) : prog Z :=
  o <- call (MLoad a) ;;
  match o with Some v => URet v | None => UExit (-1) end.

Definition store (a v : Z) : prog unit :=
  ok <- call (MStore a (u8 v)) ;;
  if (ok : bool) then URet tt else UExit (-1).

(** The string at such an address. *)
Fixpoint string_at (n : nat) (a : Z) : prog (list Z) :=
  match n with
  | O => UBad rounds
  | S n =>
      c <- load a ;;
      if c =? 0 then URet [] else
      s <- string_at n (a + 1) ;;
      URet (c :: s)
  end.

(** [sbrk], and its answer as a pointer. *)
Definition psbrk (n : Z) : prog Z :=
  a <- sbrk n ;;
  URet (u64 a).

(** A system call whose answer is not looked at. *)
Definition run {X} (e : sys X) : prog unit :=
  call e ;;
  URet tt.

(** [printf(...); exit(1);] *)
Definition die {A} (fmt : string) (ap : list vararg) : prog A :=
  printf fmt ap ;;
  UExit 1.

(** ** Programs that keep to their arrays *)

(** What is assumed of an answer: [read] stores no more than it was asked for; an array has its size. *)
Definition answer_ok {X} (e : sys X) : X -> Prop :=
  match e in sys X return X -> Prop with
  | SRead fd n => fun x => (length x.2 <= Z.to_nat n)%nat /\ x.1 <= Z.max 0 n
  | MUninit n => fun x => length x = Z.to_nat n
  | _ => fun _ => True
  end.

(** [wp Q p]: whatever is answered, [p] does not go wrong, and if it returns [Q] holds. *)
Fixpoint wp {A} (Q : A -> Prop) (p : prog A) : Prop :=
  match p with
  | URet a => Q a
  | UExit _ => True
  | UBad why => why = rounds
  | UCall e k => forall x, answer_ok e x -> wp Q (k x)
  end.

Definition kernel_ok {W} (h : handler W) : Prop := forall X (e : sys X) w, answer_ok e (h X e w).1.

Lemma wp_exec {A W} (h : handler W) (Q : A -> Prop) p w :
  kernel_ok h -> wp Q p -> match (exec h p w).1 with Returned a => Q a | Exited _ => True | Wrong why => why = rounds end.
Proof.
  intros Hh. revert w. induction p as [a|n|why|X e k IH]; intros w Hp; [done..|]. cbn [exec]. destruct (h X e w) as [x w'] eqn:E.
  apply IH, Hp. specialize (Hh X e w). by rewrite E in Hh.
Qed.

Section rules.
Context {A B : Type}.

Lemma wp_mono (Q Q' : A -> Prop) p : wp Q p -> (forall a, Q a -> Q' a) -> wp Q' p.
Proof. intros H HQ. induction p as [a|n|why|X e k IH]; cbn in *; auto. Qed.

Lemma wp_bind (Q : B -> Prop) (p : prog A) (f : A -> prog B) : wp (fun a => wp Q (f a)) p -> wp Q (ubind p f).
Proof. intros H. induction p as [a|n|why|X e k IH]; cbn in *; auto. Qed.

Lemma wp_ret (Q : A -> Prop) a : Q a -> wp Q (URet a).
Proof. done. Qed.

Lemma wp_exit (Q : A -> Prop) n : wp Q (UExit n).
Proof. exact I. Qed.

Lemma wp_rounds (Q : A -> Prop) : wp Q (UBad rounds).
Proof. reflexivity. Qed.

Lemma wp_call (Q : A -> Prop) (e : sys A) : (forall x, answer_ok e x -> Q x) -> wp Q (call e).
Proof. done. Qed.
End rules.

Lemma wp_upto {X} (I : X -> Prop) n i body (x : X) (Q : X -> Prop) :
  I x -> (forall j x, i <= j < i + Z.of_nat n -> I x -> wp I (body j x)) -> (forall x, I x -> Q x) -> wp Q (for_upto n i body x).
Proof.
  intros Hx Hb HQ. revert i x Hx Hb. induction n as [|n IH]; intros i x Hx Hb; cbn [for_upto]; [by apply HQ|].
  apply wp_bind. eapply wp_mono; [apply Hb; [lia|done]|]. intros y Hy. apply IH; [done|]. intros j z Hj. apply Hb. lia.
Qed.

Lemma wp_for {X} (I : X -> Prop) a b body (x : X) (Q : X -> Prop) :
  I x -> (forall i x, a <= i < b -> I x -> wp I (body i x)) -> (forall x, I x -> Q x) -> wp Q (for_range a b body x).
Proof. intros Hx Hb HQ. apply (wp_upto I); [done| |done]. intros j y Hj. apply Hb. lia. Qed.

Lemma wp_each a b body (Q : unit -> Prop) : (forall i, a <= i < b -> wp (fun _ => True) (body i)) -> Q tt -> wp Q (for_each a b body).
Proof. intros Hb HQ. apply (wp_for (fun _ => True)); [done|auto|]. by intros []. Qed.

Lemma wp_loop {X A} (I : X -> Prop) n body (x : X) (Q : A -> Prop) :
  I x -> (forall x, I x -> wp (fun r => match r with inl x => I x | inr a => Q a end) (body x)) -> wp Q (loop n body x).
Proof.
  intros Hx Hb. revert x Hx. induction n as [|n IH]; intros x Hx; cbn [loop]; [done|]. apply wp_bind. eapply wp_mono; [by apply Hb|].
  intros [y|a] Hy; [by apply IH|done].
Qed.

Lemma wp_get buf i (Q : Z -> Prop) : 0 <= i < Z.of_nat (length buf) -> (forall v, Q v) -> wp Q (get buf i).
Proof. intros Hi HQ. unfold get. rewrite bool_decide_eq_true_2 by done. apply HQ. Qed.

Lemma wp_put buf i v (Q : list Z -> Prop) : 0 <= i < Z.of_nat (length buf) -> (forall b, length b = length buf -> Q b) -> wp Q (put buf i v).
Proof. intros Hi HQ. unfold put. rewrite bool_decide_eq_true_2 by done. apply HQ, length_setz. Qed.

Lemma length_memset_loop n buf c i : length (memset_loop n buf c i) = length buf.
Proof. revert buf i. induction n as [|n IH]; intros buf i; cbn [memset_loop]; [done|]. by rewrite IH, length_setz. Qed.

Lemma wp_fill buf c n (Q : list Z -> Prop) : 0 <= n <= Z.of_nat (length buf) -> (forall b, length b = length buf -> Q b) -> wp Q (fill buf c n).
Proof. intros Hn HQ. unfold fill. rewrite bool_decide_eq_true_2 by done. apply HQ, length_memset_loop. Qed.

Lemma wp_write fd buf n (Q : Z -> Prop) : 0 <= n <= Z.of_nat (length buf) -> (forall r, Q r) -> wp Q (write_buf fd buf n).
Proof. intros Hn HQ. unfold write_buf. rewrite bool_decide_eq_true_2 by done. intros r _. apply HQ. Qed.

Lemma wp_read fd buf n (Q : Z * list Z -> Prop) :
  0 <= n <= Z.of_nat (length buf) -> (forall r b, r <= n -> length b = length buf -> Q (r, b)) -> wp Q (read_buf fd buf n).
Proof.
  intros Hn HQ. unfold read_buf. rewrite bool_decide_eq_true_2 by done. apply wp_bind. intros [r bs] [H1 H2]. cbn in H1, H2. apply HQ; [lia|].
  apply length_splice. lia.
Qed.

Lemma wp_local n (Q : list Z -> Prop) : (forall b, length b = Z.to_nat n -> Q b) -> wp Q (local n).
Proof. intros HQ. exact HQ. Qed.

(** A byte stored: what is there, and that the others are as they were. *)
Lemma wp_put_at buf i v (Q : list Z -> Prop) : 0 <= i < Z.of_nat (length buf) ->
  (forall b, length b = length buf -> b !! Z.to_nat i = Some (u8 v) -> (forall j, j <> Z.to_nat i -> b !! j = buf !! j) -> Q b) -> wp Q (put buf i v).
Proof.
  intros Hi HQ. unfold put. rewrite bool_decide_eq_true_2 by done. assert (E : setz buf i (u8 v) = <[Z.to_nat i := u8 v]> buf).
  { unfold setz. by rewrite (proj2 (Z.ltb_ge i 0)) by lia. }
  rewrite E. apply HQ; [apply length_insert|apply list_lookup_insert_eq; lia|]. intros j Hj. by apply list_lookup_insert_ne.
Qed.

(** The end of a string stored. *)
Lemma wp_put_end buf i (Q : list Z -> Prop) :
  0 <= i < Z.of_nat (length buf) -> (forall b, length b = length buf -> 0 ∈ b -> Q b) -> wp Q (put buf i 0).
Proof. intros Hi HQ. apply wp_put_at; [done|]. intros b Hb E _. apply HQ; [done|]. exact (list_elem_of_lookup_2 _ _ _ E). Qed.

Lemma wp_cstring buf (Q : list Z -> Prop) : 0 ∈ buf -> (forall s, Q s) -> wp Q (cstring buf).
Proof.
  intros H0 HQ. revert Q HQ. induction buf as [|c buf IH]; intros Q HQ; [by apply elem_of_nil in H0|]. cbn [cstring].
  destruct (Z.eqb_spec c 0) as [|Hc]; [apply HQ|]. apply elem_of_cons in H0 as [|H0]; [done|]. apply wp_bind. apply IH; [done|]. intros s. apply HQ.
Qed.

Lemma wp_get_at {A} (a : list A) i (Q : A -> Prop) : 0 <= i < Z.of_nat (length a) -> (forall v, Q v) -> wp Q (get_at a i).
Proof.
  intros Hi HQ. unfold get_at. rewrite (proj2 (Z.ltb_ge i 0)) by lia. destruct (lookup_lt_is_Some_2 a (Z.to_nat i)) as [v E]; [lia|].
  rewrite E. apply HQ.
Qed.

Lemma wp_set_at {A} (a : list A) i v (Q : list A -> Prop) :
  0 <= i < Z.of_nat (length a) -> (length (<[Z.to_nat i := v]> a) = length a -> Q (<[Z.to_nat i := v]> a)) -> wp Q (set_at a i v).
Proof. intros Hi HQ. unfold set_at. rewrite bool_decide_eq_true_2 by done. apply HQ, length_insert. Qed.

Lemma wp_args_of {A} (argv : list (option A)) (Q : list A -> Prop) : None ∈ argv -> (forall l, Q l) -> wp Q (args_of argv).
Proof.
  intros H0 HQ. revert Q HQ. induction argv as [|[a|] argv IH]; intros Q HQ; cbn [args_of]; [by apply elem_of_nil in H0| |apply HQ].
  apply elem_of_cons in H0 as [|H0]; [done|]. apply wp_bind, IH; [done|]. intros l. apply HQ.
Qed.

Lemma wp_putall fd cs (Q : unit -> Prop) : Q tt -> wp Q (putall fd cs).
Proof. intros HQ. induction cs as [|c cs IH]; cbn [putall]; [done|]. apply wp_bind. intros r _. exact IH. Qed.

Lemma wp_fprintf fd fmt ap (Q : unit -> Prop) : is_Some (vformat (str fmt) ap) -> Q tt -> wp Q (fprintf fd fmt ap).
Proof. intros [cs E] HQ. unfold fprintf, vprintf. rewrite E. by apply wp_putall. Qed.

Lemma wp_printf fmt ap (Q : unit -> Prop) : is_Some (vformat (str fmt) ap) -> Q tt -> wp Q (printf fmt ap).
Proof. apply (wp_fprintf 1). Qed.

Lemma wp_die {A} fmt ap (Q : A -> Prop) : is_Some (vformat (str fmt) ap) -> wp Q (die fmt ap).
Proof. intros H. apply wp_bind. by apply wp_printf. Qed.

Lemma wp_load a (Q : Z -> Prop) : (forall v, Q v) -> wp Q (load a).
Proof. intros HQ. apply wp_bind. intros [v|] _; [apply HQ|done]. Qed.

Lemma wp_store a v (Q : unit -> Prop) : Q tt -> wp Q (store a v).
Proof. intros HQ. apply wp_bind. by intros [] _. Qed.

Lemma wp_string_at n a (Q : list Z -> Prop) : (forall s, Q s) -> wp Q (string_at n a).
Proof.
  intros HQ. revert a Q HQ. induction n as [|n IH]; intros a Q HQ; cbn [string_at]; [done|]. apply wp_bind, wp_load. intros v.
  destruct (_ =? _); [apply HQ|]. apply wp_bind, IH. intros s. apply HQ.
Qed.

Lemma wp_run {X} (e : sys X) (Q : unit -> Prop) : Q tt -> wp Q (run e).
Proof. intros HQ. by intros x _. Qed.

Lemma wp_sbrk n (Q : Z -> Prop) : (forall a, Q a) -> wp Q (sbrk n).
Proof. intros HQ a _. apply HQ. Qed.

Lemma wp_psbrk n (Q : Z -> Prop) : (forall a, Q a) -> wp Q (psbrk n).
Proof. intros HQ a _. apply HQ. Qed.

(** Follows the control flow of a program; calls of its own functions are left to the database. *)
Create HintDb tests discriminated.
#[export] Hint Constants Opaque : tests.
Ltac fits := eexists; reflexivity.
(** The lengths of the arrays a program declares. *)
Ltac lengths :=
  rewrite ?length_replicate in *;
  repeat match goal with
  | H : context [length (str ?s)] |- _ => let n := eval vm_compute in (length (str s)) in change (length (str s)) with n in H
  | |- context [length (str ?s)] => let n := eval vm_compute in (length (str s)) in change (length (str s)) with n
  | |- context [length (lit ?s)] => let n := eval vm_compute in (length (lit s)) in change (length (lit s)) with n
  end.
Ltac inside := first [lia | progress lengths; lia | cbn [length]; lia].
Ltac tame_step :=
  match goal with
  | |- forall _, _ => intro
  | |- wp _ (let _ := _ in _) => cbv zeta
  | |- wp _ (ubind _ _) => apply wp_bind
  | |- wp _ (URet _) => apply wp_ret; cbv beta
  | |- wp _ (UExit _) => apply wp_exit
  | |- wp _ (UBad rounds) => apply wp_rounds
  | |- wp _ (call (SRead _ _)) => apply wp_call; intros [? ?] [? ?]
  | |- wp _ (call _) => apply wp_call; intros ? _
  | |- wp _ (printf _ _) => apply wp_printf; [fits|]
  | |- wp _ (fprintf _ _ _) => apply wp_fprintf; [fits|]
  | |- wp _ (die _ _) => apply wp_die; fits
  | |- wp _ (get _ _) => apply wp_get; [inside|intros ?]
  | |- wp _ (put _ _ _) => apply wp_put; [inside|intros ? ?]
  | |- wp _ (local _) => apply wp_local; intros ? ?
  | |- wp _ (get_at _ _) => apply wp_get_at; [inside|intros ?]
  | |- wp _ (set_at _ _ _) => apply wp_set_at; [inside|intros ?]
  | |- wp _ (fill _ _ _) => apply wp_fill; [inside|intros ? ?]
  | |- wp _ (write_buf _ _ _) => apply wp_write; [inside|intros ?]
  | |- wp _ (read_buf _ _ _) => apply wp_read; [inside|intros ? ? ? ?]
  | |- wp _ (run _) => apply wp_run
  | |- wp _ (sbrk _) => apply wp_sbrk; intros ?
  | |- wp _ (psbrk _) => apply wp_psbrk; intros ?
  | |- wp _ (string_at _ _) => apply wp_string_at; intros ?
  | |- wp _ (load _) => apply wp_load; intros ?
  | |- wp _ (store _ _) => apply wp_store
  | |- wp _ (match ?x with _ => _ end) => destruct x
  | |- wp _ (for_each _ _ _) => apply wp_each; [intros ? ?|]
  | |- wp _ _ => solve [eauto with tests]
  end.
Ltac tame := repeat tame_step; try solve [done | congruence | lia | cbn [fst snd]; congruence].
