(* ===== verification/TestProgs.v ===== *)
(** * The small test programs: [forktest.c], [stressfs.c], [logstress.c], [forphan.c], [dorphan.c]

    Each program is the tree of its system calls, and is shown to keep to its arrays whatever the
    kernel answers, [logstress] excepted. *)

From S2P Require Import Prelude CString Fields Printf UserSys Ulib TestLib.
From stdpp Require Import base numbers strings list.
From Stdlib Require Import ZArith Lia.

#[local] Open Scope Z_scope.
#[local] Open Scope user_scope.

(** ** [forktest.c] *)

Definition print (s : string) : prog unit :=
  call (SWrite 1 (str s)) ;;
  URet tt.

(** [for(n=0; n<N; n++)]: the value of [n] when the loop is left. *)
Fixpoint fork_loop (m : nat) (n : Z) : prog Z :=
  match m with
  | O => URet n
  | S m =>
      pid <- call SFork ;;
      if pid <? 0 then URet n else
      if pid =? 0 then UExit 0 else
      fork_loop m (n + 1)
  end.

(** [for(; n > 0; n--)] *)
Fixpoint wait_loop (n : nat) : prog unit :=
  match n with
  | O => URet tt
  | S n =>
      '(pid, _) <- call SWait ;;
      if pid <? 0 then
        print ("wait stopped early" +:+ nl) ;;
        UExit 1
      else wait_loop n
  end.

Definition forktest : prog unit :=
  print ("fork test" +:+ nl) ;;
  n <- fork_loop 1000 0 ;;
  if n =? 1000 then
    print ("fork claimed to work N times!" +:+ nl) ;;
    UExit 1
  else
  wait_loop (Z.to_nat n) ;;
  '(pid, _) <- call SWait ;;
  if negb (pid =? -1) then
    print ("wait got too many" +:+ nl) ;;
    UExit 1
  else print ("fork test OK" +:+ nl).

Definition forktest_main : prog Z :=
  forktest ;;
  UExit 0.

(** ** [stressfs.c] *)

(** [for(i = 0; i < 4; i++) if(fork() > 0) break;]: the value of [i] afterwards. *)
Fixpoint stress_forks (m : nat) (i : Z) : prog Z :=
  match m with
  | O => URet i
  | S m =>
      pid <- call SFork ;;
      if pid >? 0 then URet i else stress_forks m (i + 1)
  end.

Definition stressfs_main : prog Z :=
  let path := str "stressfs0" in
  let data := replicate 512 0 in
  printf ("stressfs starting" +:+ nl) [] ;;
  data <- fill data 97 512 ;;
  i <- stress_forks 4 0 ;;
  printf ("write %d" +:+ nl) [VInt i] ;;
  c <- get path 8 ;;
  path <- put path 8 (c + i) ;;
  fd <- call (SOpen path (Z.lor O_CREATE O_RDWR)) ;;
  for_each 0 20 (fun _ => write_buf fd data 512 ;; URet tt) ;;
  call (SClose fd) ;;
  printf ("read" +:+ nl) [] ;;
  fd <- call (SOpen path O_RDONLY) ;;
  data <- for_range 0 20 (fun _ data => '(_, data) <- read_buf fd data 512 ;; URet data) data ;;
  call (SClose fd) ;;
  call SWait ;;
  UExit 0.

(** ** [logstress.c] *)

(** The child for the file [name], number [i] on the command line; [buf] has 500 bytes. *)
Definition logstress_child (prog0 name : list Z) (i : Z) (buf : list Z) : prog unit :=
  fd <- call (SOpen name (Z.lor O_CREATE O_RDWR)) ;;
  if fd <? 0 then die ("%s: create %s failed" +:+ nl) [VStr (Some prog0); VStr (Some name)] else
  buf <- fill buf (48 + i) 2000 ;;
  for_each 0 250 (fun _ =>
    n <- write_buf fd buf 2000 ;;
    if negb (n =? 2000) then die ("write failed %d" +:+ nl) [VInt n] else URet tt) ;;
  UExit 0.

(** [for (int i = 1; i < argc; i++)] *)
Fixpoint logstress_forks (prog0 : list Z) (names : list (list Z)) (i : Z) (buf : list Z) : prog unit :=
  match names with
  | [] => URet tt
  | name :: names =>
      pid1 <- call SFork ;;
      if pid1 <? 0 then die ("%s: fork failed" +:+ nl) [VStr (Some prog0)] else
      (if pid1 =? 0 then logstress_child prog0 name i buf else URet tt) ;;
      logstress_forks prog0 names (i + 1) buf
  end.

Fixpoint logstress_waits (names : list (list Z)) : prog unit :=
  match names with
  | [] => URet tt
  | _ :: names =>
      '(_, xstatus) <- call SWait ;;
      if negb (xstatus =? 0) then UExit xstatus else logstress_waits names
  end.

Definition logstress_main (argv : list (list Z)) : prog Z :=
  match argv with
  | [] => URet 0
  | prog0 :: names =>
      logstress_forks prog0 names 1 (replicate 500 0) ;;
      logstress_waits names ;;
      URet 0
  end.

(** ** [forphan.c] and [dorphan.c] *)

(** [for(;;) pause(1000);] *)
Definition sit_around {A} (n : nat) : prog A :=
  loop n (fun _ => call (SPause 1000) ;; URet (inl tt)) tt.

Definition forphan_main (n : nat) (s : list Z) : prog Z :=
  let ff := str "file0" in
  fd <- call (SOpen ff (Z.lor O_CREATE O_WRONLY)) ;;
  if fd <? 0 then die ("%s: open failed" +:+ nl) [VStr (Some s)] else
  '(r, st) <- call (SFstat fd) ;;
  if r <? 0 then
    fprintf 2 ("%s: cannot stat %s" +:+ nl) [VStr (Some s); VStr (Some (str "ff"))] ;;
    UExit 1
  else
  r <- call (SUnlink ff) ;;
  if r <? 0 then die ("%s: unlink failed" +:+ nl) [VStr (Some s)] else
  r <- call (SOpen ff O_RDONLY) ;;
  if negb (r =? -1) then die ("%s: open successed" +:+ nl) [VStr (Some s)] else
  printf ("wait for kill and reclaim %d" +:+ nl) [VInt (st_ino st)] ;;
  sit_around n.

Definition dorphan_main (n : nat) (s : list Z) : prog Z :=
  r <- call (SMkdir (str "dd")) ;;
  if negb (r =? 0) then die ("%s: mkdir dd failed" +:+ nl) [VStr (Some s)] else
  r <- call (SChdir (str "dd")) ;;
  if negb (r =? 0) then die ("%s: chdir dd failed" +:+ nl) [VStr (Some s)] else
  r <- call (SUnlink (str "../dd")) ;;
  if r <? 0 then die ("%s: unlink failed" +:+ nl) [VStr (Some s)] else
  printf ("wait for kill and reclaim" +:+ nl) [] ;;
  sit_around n.

(** ** [forktest] on a kernel with a process table *)

(** The processes there is room for, the children to wait for, and what was written. *)
Record table := mktable { tb_free : nat; tb_kids : nat; tb_out : list Z }.

(** [fork] fails only when the table is full, [wait] only when there is no child.  The children
    exit at once with status 0; pids are positive. *)
Definition table_handler : handler table := fun X e =>
  match e in sys X return table -> X * table with
  | SFork => fun t => match tb_free t with O => (-1, t) | S n => (2 + Z.of_nat (tb_kids t), mktable n (S (tb_kids t)) (tb_out t)) end
  | SWait => fun t => match tb_kids t with O => ((-1, 0), t) | S n => ((2 + Z.of_nat n, 0), mktable (S (tb_free t)) n (tb_out t)) end
  | SWrite fd bs => fun t => (Z.of_nat (length bs), mktable (tb_free t) (tb_kids t) (tb_out t ++ bs))
  | SPipe => fun t => ((-1, 0, 0), t)
  | SRead fd n => fun t => ((-1, []), t)
  | SFstat fd => fun t => ((-1, mkustat 0 0 0 0 0), t)
  | MLoad a => fun t => (None, t)
  | MStore a v => fun t => (false, t)
  | MUninit n => fun t => (replicate (Z.to_nat n) 1, t)
  | _ => fun t => (-1, t)
  end.

Lemma print_exec s t : exec table_handler (print s) t = (Returned tt, mktable (tb_free t) (tb_kids t) (tb_out t ++ str s)).
Proof. done. Qed.

Lemma fork_loop_exec m n free kids out :
  exec table_handler (fork_loop m n) (mktable free kids out) =
    (Returned (n + Z.of_nat (Nat.min m free)), mktable (free - Nat.min m free) (kids + Nat.min m free) out).
Proof.
  revert n free kids. induction m as [|m IH]; intros n free kids; cbn [fork_loop exec ubind call].
  - rewrite Z.add_0_r, Nat.sub_0_r, Nat.add_0_r. done.
  - destruct free as [|free]; cbn [table_handler tb_free tb_kids tb_out Nat.min].
    + rewrite Z.add_0_r, Nat.add_0_r. done.
    + destruct (Z.ltb_spec (2 + Z.of_nat kids) 0); [lia|]. destruct (Z.eqb_spec (2 + Z.of_nat kids) 0); [lia|].
      rewrite IH. f_equal; [f_equal; lia|f_equal; lia].
Qed.

Lemma wait_loop_exec n free kids out :
  (n <= kids)%nat -> exec table_handler (wait_loop n) (mktable free kids out) = (Returned tt, mktable (free + n) (kids - n) out).
Proof.
  revert free kids. induction n as [|n IH]; intros free kids Hn; cbn [wait_loop exec ubind call].
  - by rewrite Nat.add_0_r, Nat.sub_0_r.
  - destruct kids as [|kids]; [lia|]. cbn [table_handler tb_free tb_kids tb_out]. destruct (Z.ltb_spec (2 + Z.of_nat kids) 0); [lia|].
    rewrite IH by lia. f_equal. f_equal; lia.
Qed.

(** [forktest] decides whether [fork] fails before it has made 1000 processes: with room for fewer
    it collects every child, leaves the table as it was and reports success; with room for 1000 or
    more it exits with status 1. *)
Theorem forktest_decides free :
  exec table_handler forktest_main (mktable free 0 []) =
    if bool_decide (free < 1000)%nat
    then (Exited 0, mktable free 0 (str ("fork test" +:+ nl +:+ "fork test OK" +:+ nl)))
    else (Exited 1, mktable (free - 1000) 1000 (str ("fork test" +:+ nl +:+ "fork claimed to work N times!" +:+ nl))).
Proof.
  unfold forktest_main, forktest. repeat (rewrite exec_bind || rewrite print_exec). cbn [tb_free tb_kids tb_out app]. rewrite fork_loop_exec.
  destruct (bool_decide_reflect (free < 1000)%nat) as [Hf|Hf].
  - rewrite Nat.min_r, Nat.sub_diag by lia. destruct (Z.eqb_spec (0 + Z.of_nat free) 1000); [lia|]. rewrite exec_bind.
    rewrite wait_loop_exec by lia. replace (0 + free - Z.to_nat (0 + Z.of_nat free))%nat with 0%nat by lia.
    replace (0 + Z.to_nat (0 + Z.of_nat free))%nat with free by lia. done.
  - rewrite Nat.min_l by lia. done.
Qed.

(** ** The bug in [logstress] *)

(** [memset(buf, '0'+i, SZ)] stores 2000 bytes into an array of 500: every run that opens the file
    of a child writes outside the array. *)
Theorem logstress_overflows {W} (h : handler W) prog0 name i w :
  0 <= (h _ (SOpen name (Z.lor O_CREATE O_RDWR)) w).1 ->
  (exec h (logstress_child prog0 name i (replicate 500 0)) w).1 = Wrong "memset outside an array".
Proof.
  intros Hfd. unfold logstress_child. cbn [exec ubind call]. destruct (h _ _ w) as [fd w']. cbn in Hfd.
  destruct (Z.ltb_spec fd 0); [lia|]. done.
Qed.

(** A kernel on which every [open] succeeds. *)
Definition open_handler : handler unit := fun X e =>
  match e in sys X return unit -> X * unit with
  | SOpen path mode => fun w => (3, w)
  | SWait => fun w => ((-1, 0), w)
  | SPipe => fun w => ((-1, 0, 0), w)
  | SRead fd n => fun w => ((-1, []), w)
  | SFstat fd => fun w => ((-1, mkustat 0 0 0 0 0), w)
  | MLoad a => fun w => (None, w)
  | MStore a v => fun w => (false, w)
  | MUninit n => fun w => (replicate (Z.to_nat n) 1, w)
  | _ => fun w => (0, w)
  end.

Lemma logstress_overflows_witness :
  0 <= (open_handler _ (SOpen (str "f1") (Z.lor O_CREATE O_RDWR)) tt).1 /\
  (exec open_handler (logstress_child (str "logstress") (str "f1") 1 (replicate 500 0)) tt).1 = Wrong "memset outside an array".
Proof. split; [done|]. apply (logstress_overflows open_handler). done. Defined.

(** ** The others keep to their arrays *)

Lemma wp_print s (Q : unit -> Prop) : Q tt -> wp Q (print s).
Proof. intros HQ r _. exact HQ. Qed.

Lemma wp_fork_loop m n (Q : Z -> Prop) : (forall n, Q n) -> wp Q (fork_loop m n).
Proof. intros HQ. revert n. induction m as [|m IH]; intros n; cbn [fork_loop]; tame. Qed.

Lemma wp_wait_loop n (Q : unit -> Prop) : Q tt -> wp Q (wait_loop n).
Proof. intros HQ. induction n as [|n IH]; cbn [wait_loop]; [done|]. tame. Qed.

Lemma tame_forktest : wp (fun _ => True) forktest_main.
Proof.
  unfold forktest_main, forktest. do 2 apply wp_bind. apply wp_print. apply wp_bind, wp_fork_loop. intros n. destruct (_ =? _).
  - apply wp_bind. by apply wp_print.
  - apply wp_bind, wp_wait_loop. tame; apply wp_print; tame.
Qed.

Lemma wp_stress_forks m i (Q : Z -> Prop) : (forall i, Q i) -> wp Q (stress_forks m i).
Proof. intros HQ. revert i. induction m as [|m IH]; intros i; cbn [stress_forks]; tame. Qed.

Lemma tame_stressfs : wp (fun _ => True) stressfs_main.
Proof.
  unfold stressfs_main. cbv zeta. tame. apply wp_stress_forks. intros i. tame. apply (wp_for (fun d : list Z => length d = 512%nat)); tame.
Qed.

Lemma wp_sit_around {A} n (Q : A -> Prop) : wp Q (sit_around n).
Proof. apply (wp_loop (fun _ => True)); tame. Qed.
#[export] Hint Resolve wp_sit_around : tests.

Lemma tame_forphan n s : wp (fun _ => True) (forphan_main n s).
Proof. unfold forphan_main. tame. Qed.

Lemma tame_dorphan n s : wp (fun _ => True) (dorphan_main n s).
Proof. unfold dorphan_main. tame. Qed.
