(* ===== verification/Grind.v ===== *)
(** * [grind.c]

    The random number generator, and the program that runs random system calls for ever. *)

From S2P Require Import Prelude CString Fields Printf UserSys Ulib TestLib.
From stdpp Require Import base numbers strings list.
From Stdlib Require Import ZArith Lia.

#[local] Open Scope Z_scope.
#[local] Open Scope user_scope.

(** ** The random numbers *)

(** The result and the new value of [*ctx], an [unsigned long]. *)
Definition do_rand (ctx : Z) : Z * Z :=
  let x := i64 (ctx mod 0x7ffffffe + 1) in
  let hi := Z.quot x 127773 in
  let lo := Z.rem x 127773 in
  let x := i64 (i64 (16807 * lo) - i64 (2836 * hi)) in
  let x := if x <? 0 then i64 (x + 0x7fffffff) else x in
  let x := i64 (x - 1) in
  (i32 x, u64 x).

(** ** The calls *)

(** [if(pid == 0) child; else if(pid < 0) { printf("grind: fork failed\n"); exit(1); }] *)
Definition grind_fork (child : prog unit) : prog Z :=
  pid <- call SFork ;;
  if pid =? 0 then child ;; UExit 0 else
  if pid <? 0 then die ("grind: fork failed" +:+ nl) [] else
  URet pid.

(** [close(open(path, O_CREATE|O_RDWR));] *)
Definition touch (path : string) : prog unit :=
  fd <- call (SOpen (str path) (Z.lor O_CREATE O_RDWR)) ;;
  call (SClose fd) ;;
  URet tt.

(** [what == 19]: a pipe between the processes. *)
Definition grind_pipe : prog unit :=
  '(r, fds0, fds1) <- call SPipe ;;
  if r <? 0 then die ("grind: pipe failed" +:+ nl) [] else
  grind_fork (
    call SFork ;;
    call SFork ;;
    r <- call (SWrite fds1 (str "x")) ;;
    (if negb (r =? 1) then printf ("grind: pipe write failed" +:+ nl) [] else URet tt) ;;
    '(r, _) <- read_buf fds0 [0] 1 ;;
    (if negb (r =? 1) then printf ("grind: pipe read failed" +:+ nl) [] else URet tt)) ;;
  run (SClose fds0) ;;
  run (SClose fds1) ;;
  run SWait.

(** [what == 21]: there are free i-nodes, file descriptors and blocks. *)
Definition grind_create : prog unit :=
  run (SUnlink (str "c")) ;;
  fd1 <- call (SOpen (str "c") (Z.lor O_CREATE O_RDWR)) ;;
  if fd1 <? 0 then die ("grind: create c failed" +:+ nl) [] else
  r <- call (SWrite fd1 (str "x")) ;;
  if negb (r =? 1) then die ("grind: write c failed" +:+ nl) [] else
  '(r, st) <- call (SFstat fd1) ;;
  if negb (r =? 0) then die ("grind: fstat failed" +:+ nl) [] else
  if negb (st_size st =? 1) then die ("grind: fstat reports wrong size %d" +:+ nl) [VInt (i32 (st_size st))] else
  if st_ino st >? 200 then die ("grind: fstat reports crazy i-number %d" +:+ nl) [VInt (st_ino st)] else
  run (SClose fd1) ;;
  run (SUnlink (str "c")).

(** [fprintf(2, ...); exit(status);] *)
Definition complain {A} (fmt : string) (status : Z) : prog A :=
  fprintf 2 fmt [] ;;
  UExit status.

(** The first child of [what == 22]: [echo hi]. *)
Definition grind_echo (aa0 aa1 bb0 bb1 : Z) : prog unit :=
  run (SClose bb0) ;;
  run (SClose bb1) ;;
  run (SClose aa0) ;;
  run (SClose 1) ;;
  r <- call (SDup aa1) ;;
  if negb (r =? 1) then complain ("grind: dup failed" +:+ nl) 1 else
  run (SClose aa1) ;;
  run (SExec (str "grindir/../echo") [str "echo"; str "hi"]) ;;
  complain ("grind: echo: not found" +:+ nl) 2.

(** The second one: [cat]. *)
Definition grind_cat (aa0 aa1 bb0 bb1 : Z) : prog unit :=
  run (SClose aa1) ;;
  run (SClose bb0) ;;
  run (SClose 0) ;;
  r <- call (SDup aa0) ;;
  if negb (r =? 0) then complain ("grind: dup failed" +:+ nl) 4 else
  run (SClose aa0) ;;
  run (SClose 1) ;;
  r <- call (SDup bb1) ;;
  if negb (r =? 1) then complain ("grind: dup failed" +:+ nl) 5 else
  run (SClose bb1) ;;
  run (SExec (str "/cat") [str "cat"]) ;;
  complain ("grind: cat: not found" +:+ nl) 6.

(** [read(fd, buf+off, n)] *)
Definition read_at (fd : Z) (buf : list Z) (off n : Z) : prog (list Z) :=
  if bool_decide (0 <= off /\ 0 <= n /\ off + n <= Z.of_nat (length buf)) then
    '(_, bs) <- call (SRead fd n) ;;
    URet (splice buf off bs)
  else UBad "read outside an array".

(** A double quote, as in a C literal. *)
Definition dquote : string := String.String (Ascii.Ascii false true false false false true false false) EmptyString.

(** [what == 22]: [echo hi | cat]. *)
Definition grind_pipeline : prog unit :=
  '(r, aa0, aa1) <- call SPipe ;;
  if r <? 0 then complain ("grind: pipe failed" +:+ nl) 1 else
  '(r, bb0, bb1) <- call SPipe ;;
  if r <? 0 then complain ("grind: pipe failed" +:+ nl) 1 else
  pid1 <- call SFork ;;
  if pid1 =? 0 then grind_echo aa0 aa1 bb0 bb1 else
  if pid1 <? 0 then complain ("grind: fork failed" +:+ nl) 3 else
  pid2 <- call SFork ;;
  if pid2 =? 0 then grind_cat aa0 aa1 bb0 bb1 else
  if pid2 <? 0 then complain ("grind: fork failed" +:+ nl) 7 else
  run (SClose aa0) ;;
  run (SClose aa1) ;;
  run (SClose bb1) ;;
  buf <- read_at bb0 [0; 0; 0; 0] 0 1 ;;
  buf <- read_at bb0 buf 1 1 ;;
  buf <- read_at bb0 buf 2 1 ;;
  run (SClose bb0) ;;
  '(_, st1) <- call SWait ;;
  '(_, st2) <- call SWait ;;
  s <- cstring buf ;;
  if negb (st1 =? 0) || negb (st2 =? 0) || negb (bool_decide (s = str ("hi" +:+ nl))) then
    die ("grind: exec pipeline failed %d %d " +:+ dquote +:+ "%s" +:+ dquote +:+ nl) [VInt st1; VInt st2; VStr (Some s)]
  else URet tt.

(** The body of the loop of [go], with [what], [fd] and [buf]: [fd] and [buf] afterwards. *)
Definition grind_step (what fd break0 : Z) (buf : list Z) : prog (Z * list Z) :=
  let same := fun (p : prog unit) => p ;; URet (fd, buf) in
  if what =? 1 then same (touch "grindir/../a")
  else if what =? 2 then same (touch "grindir/../grindir/../b")
  else if what =? 3 then same (run (SUnlink (str "grindir/../a")))
  else if what =? 4 then same (
    r <- call (SChdir (str "grindir")) ;;
    if negb (r =? 0) then die ("grind: chdir grindir failed" +:+ nl) [] else
    run (SUnlink (str "../b")) ;;
    run (SChdir (str "/")))
  else if what =? 5 then
    run (SClose fd) ;;
    fd <- call (SOpen (str "/grindir/../a") (Z.lor O_CREATE O_RDWR)) ;;
    URet (fd, buf)
  else if what =? 6 then
    run (SClose fd) ;;
    fd <- call (SOpen (str "/./grindir/./../b") (Z.lor O_CREATE O_RDWR)) ;;
    URet (fd, buf)
  else if what =? 7 then same (write_buf fd buf 999 ;; URet tt)
  else if what =? 8 then
    '(_, buf) <- read_buf fd buf 999 ;;
    URet (fd, buf)
  else if what =? 9 then same (
    run (SMkdir (str "grindir/../a")) ;;
    touch "a/../a/./a" ;;
    run (SUnlink (str "a/a")))
  else if what =? 10 then same (
    run (SMkdir (str "/../b")) ;;
    touch "grindir/../b/b" ;;
    run (SUnlink (str "b/b")))
  else if what =? 11 then same (
    run (SUnlink (str "b")) ;;
    run (SLink (str "../grindir/./../a") (str "../b")))
  else if what =? 12 then same (
    run (SUnlink (str "../grindir/../a")) ;;
    run (SLink (str ".././b") (str "/grindir/../a")))
  else if what =? 13 then same (
    grind_fork (URet tt) ;;
    run SWait)
  else if what =? 14 then same (
    grind_fork (run SFork ;; run SFork) ;;
    run SWait)
  else if what =? 15 then same (sbrk 6011 ;; URet tt)
  else if what =? 16 then same (
    a <- sbrk 0 ;;
    if a >? break0 then
      a <- sbrk 0 ;;
      sbrk (i32 (- (a - break0))) ;;
      URet tt
    else URet tt)
  else if what =? 17 then same (
    pid <- grind_fork (touch "a") ;;
    r <- call (SChdir (str "../grindir/..")) ;;
    if negb (r =? 0) then die ("grind: chdir failed" +:+ nl) [] else
    run (SKill pid) ;;
    run SWait)
  else if what =? 18 then same (
    grind_fork (me <- call SGetpid ;; run (SKill me)) ;;
    run SWait)
  else if what =? 19 then same grind_pipe
  else if what =? 20 then same (
    grind_fork (
      run (SUnlink (str "a")) ;;
      run (SMkdir (str "a")) ;;
      run (SChdir (str "a")) ;;
      run (SUnlink (str "../a")) ;;
      run (SOpen (str "x") (Z.lor O_CREATE O_RDWR)) ;;
      run (SUnlink (str "x"))) ;;
    run SWait)
  else if what =? 21 then same grind_create
  else if what =? 22 then same grind_pipeline
  else URet (fd, buf).

(** The variables of the loop: [fd], [iters], [rand_next] and [buf]. *)
Record grinding := mkgrinding { gr_fd : Z; gr_iters : Z; gr_rand : Z; gr_buf : list Z }.

Definition go {A} (n : nat) (which_child rand_next : Z) : prog A :=
  break0 <- sbrk 0 ;;
  run (SMkdir (str "grindir")) ;;
  r <- call (SChdir (str "grindir")) ;;
  if negb (r =? 0) then die ("grind: chdir grindir failed" +:+ nl) [] else
  run (SChdir (str "/")) ;;
  loop n (fun g =>
    let iters := u64 (gr_iters g + 1) in
    (if iters mod 500 =? 0 then run (SWrite 1 (str (if negb (which_child =? 0) then "B" else "A"))) else URet tt) ;;
    let '(r, rand_next) := do_rand (gr_rand g) in
    '(fd, buf) <- grind_step (Z.rem r 23) (gr_fd g) break0 (gr_buf g) ;;
    URet (inl (mkgrinding fd iters rand_next buf))) (mkgrinding (-1) 0 rand_next (replicate 999 0)).

Definition iter {A} (n : nat) (rand_next : Z) : prog A :=
  run (SUnlink (str "a")) ;;
  run (SUnlink (str "b")) ;;
  pid1 <- call SFork ;;
  if pid1 <? 0 then die ("grind: fork failed" +:+ nl) [] else
  if pid1 =? 0 then go n 0 (Z.lxor rand_next 31) else
  pid2 <- call SFork ;;
  if pid2 <? 0 then die ("grind: fork failed" +:+ nl) [] else
  if pid2 =? 0 then go n 1 (Z.lxor rand_next 7177) else
  '(_, st1) <- call SWait ;;
  (if negb (st1 =? 0) then
     run (SKill pid1) ;;
     run (SKill pid2)
   else URet tt) ;;
  run SWait ;;
  UExit 0.

Definition grind_main (n : nat) : prog Z :=
  loop n (fun rand_next =>
    pid <- call SFork ;;
    if pid =? 0 then iter n rand_next else
    (if pid >? 0 then run SWait else URet tt) ;;
    run (SPause 20) ;;
    URet (inl (u64 (rand_next + 1)))) 1.

(** ** The generator *)

Lemma i64_small x : - 2 ^ 63 <= x < 2 ^ 63 -> i64 x = x.
Proof. intros Hx. unfold i64. rewrite Z.mod_small by lia. lia. Qed.

(** Schrage's method: no intermediate value leaves 32 bits. *)
Lemma schrage x :
  1 <= x <= 0x7ffffffe ->
  let y := 16807 * (x mod 127773) - 2836 * (x / 127773) in
  - 0x7fffffff < y < 0x7fffffff /\ (if y <? 0 then y + 0x7fffffff else y) = (16807 * x) mod 0x7fffffff.
Proof.
  intros Hx y. pose proof (Z.div_mod x 127773 ltac:(lia)) as E. pose proof (Z.mod_pos_bound x 127773 ltac:(lia)) as Hm.
  assert (Hq : 0 <= x / 127773 <= 16807) by (split; [apply Z.div_pos; lia|apply Z.lt_succ_r, Z.div_lt_upper_bound; lia]).
  assert (Ey : y = 16807 * x - 0x7fffffff * (x / 127773)) by (unfold y; lia). assert (Hy : - 0x7fffffff < y < 0x7fffffff) by (unfold y; lia).
  split; [done|]. destruct (Z.ltb_spec y 0).
  - apply (Z.mod_unique _ _ (x / 127773 - 1)); lia.
  - apply (Z.mod_unique _ _ (x / 127773)); lia.
Qed.

(** [do_rand] is the generator of Park and Miller: from every context it computes the next
    value 7^5 x mod (2^31 - 1) of x = context mod (2^31 - 2) + 1, less 1, without overflow; the
    result lies between 0 and 2^31 - 3, as its comment says, and is the new context. *)
Theorem do_rand_next ctx :
  0 <= ctx < 2 ^ 64 ->
  let r := (7 ^ 5 * (ctx mod (2 ^ 31 - 2) + 1)) mod (2 ^ 31 - 1) - 1 in do_rand ctx = (r, r) /\ 0 <= r <= 0x7ffffffd.
Proof.
  intros Hc. cbv zeta. change (2 ^ 31 - 2) with 0x7ffffffe. change (2 ^ 31 - 1) with 0x7fffffff. change (7 ^ 5) with 16807.
  pose proof (Z.mod_pos_bound ctx 0x7ffffffe ltac:(lia)) as Hm. set (x := ctx mod 0x7ffffffe + 1). assert (Hx : 1 <= x <= 0x7ffffffe) by lia.
  destruct (schrage x Hx) as [Hy E]. set (y := 16807 * (x mod 127773) - 2836 * (x / 127773)) in *.
  pose proof (Z.mod_pos_bound x 127773 ltac:(lia)). assert (0 <= x / 127773 <= 16807) by (split; [apply Z.div_pos; lia|apply Z.lt_succ_r, Z.div_lt_upper_bound; lia]).
  assert (Hr : 1 <= (16807 * x) mod 0x7fffffff).
  { pose proof (Z.mod_pos_bound (16807 * x) 0x7fffffff ltac:(lia)). destruct (Z.eq_dec ((16807 * x) mod 0x7fffffff) 0) as [E0|]; [|lia].
    exfalso. apply Z.mod_divide in E0; [|lia]. apply Z.gauss in E0; [|by vm_compute]. destruct E0 as [q Eq]. lia. }
  assert (Hd : do_rand ctx = ((if y <? 0 then y + 0x7fffffff else y) - 1, (if y <? 0 then y + 0x7fffffff else y) - 1)).
  { unfold do_rand. fold x. rewrite (i64_small x) by lia. rewrite Z.quot_div_nonneg, Z.rem_mod_nonneg by lia.
    rewrite (i64_small (16807 * _)), (i64_small (2836 * _)) by lia. fold y. rewrite (i64_small y) by lia.
    assert (Hz : 1 <= (if y <? 0 then y + 0x7fffffff else y) <= 0x7ffffffe) by (rewrite E; pose proof (Z.mod_pos_bound (16807 * x) 0x7fffffff); lia).
    destruct (y <? 0); [rewrite (i64_small (y + _)) by lia|]; rewrite i64_small, i32_small, u64_small by lia; done. }
  rewrite Hd, E. split; [done|]. pose proof (Z.mod_pos_bound (16807 * x) 0x7fffffff ltac:(lia)). lia.
Qed.

Lemma do_rand_next_witness : 0 <= 1 < 2 ^ 64 /\ do_rand 1 = ((7 ^ 5 * (1 mod (2 ^ 31 - 2) + 1)) mod (2 ^ 31 - 1) - 1, 33613).
Proof. split; [lia|]. exact (proj1 (do_rand_next 1 ltac:(lia))). Defined.

(** ** No access outside an array *)

Lemma wp_touch path (Q : unit -> Prop) : Q tt -> wp Q (touch path).
Proof. intros HQ. unfold touch. tame. Qed.

Lemma wp_grind_fork child (Q : Z -> Prop) : wp (fun _ => True) child -> (forall pid, Q pid) -> wp Q (grind_fork child).
Proof. intros Hc HQ. unfold grind_fork. tame. Qed.

Lemma wp_complain {A} fmt status (Q : A -> Prop) : is_Some (vformat (str fmt) []) -> wp Q (complain fmt status).
Proof. intros Hf. apply wp_bind. by apply wp_fprintf. Qed.

(** A read into part of an array leaves what is behind it alone. *)
Lemma wp_read_at fd buf off n (Q : list Z -> Prop) :
  0 <= off -> 0 <= n -> off + n <= Z.of_nat (length buf) ->
  (forall b, length b = length buf -> (forall j, off + n <= Z.of_nat j -> b !! j = buf !! j) -> Q b) -> wp Q (read_at fd buf off n).
Proof.
  intros H1 H2 H3 HQ. unfold read_at. rewrite bool_decide_eq_true_2 by done. apply wp_bind. intros [r bs] [Hl _]. cbn in Hl. apply HQ.
  - apply length_splice. lia.
  - intros j Hj. rewrite lookup_splice by lia. by rewrite decide_False by lia.
Qed.

Ltac grind_step :=
  match goal with
  | |- wp _ (touch _) => apply wp_touch
  | |- wp _ (grind_fork _) => apply wp_grind_fork; [|intros ?]
  | |- wp _ (complain _ _) => apply wp_complain; fits
  | |- _ => tame_step
  end.
Ltac grinds := repeat grind_step; try solve [done | congruence | lia | cbn [fst snd]; congruence].

Lemma tame_grind_pipe (Q : unit -> Prop) : Q tt -> wp Q grind_pipe.
Proof. intros HQ. unfold grind_pipe. grinds. Qed.

Lemma tame_grind_create (Q : unit -> Prop) : Q tt -> wp Q grind_create.
Proof. intros HQ. unfold grind_create. grinds. Qed.

Lemma tame_grind_pipeline (Q : unit -> Prop) : Q tt -> wp Q grind_pipeline.
Proof.
  intros HQ. unfold grind_pipeline, grind_echo, grind_cat. grinds.
  apply wp_read_at; [lia|lia|cbn; lia|]. intros b1 L1 E1. grinds. apply wp_read_at; [lia|lia|rewrite L1; cbn; lia|]. intros b2 L2 E2. grinds.
  apply wp_read_at; [lia|lia|rewrite L2, L1; cbn; lia|]. intros b3 L3 E3. grinds. apply wp_cstring; [|grinds].
  apply (list_elem_of_lookup_2 _ 3). rewrite E3, E2, E1 by lia. done.
Qed.
#[export] Hint Resolve tame_grind_pipe tame_grind_create tame_grind_pipeline : tests.

Lemma tame_grind_step what fd break0 buf :
  length buf = 999%nat -> wp (fun x => length x.2 = 999%nat) (grind_step what fd break0 buf).
Proof. intros Hb. unfold grind_step. cbv zeta. repeat (destruct (what =? _); [by grinds|]). grinds. Qed.

#[local] Opaque grind_step do_rand.

Lemma tame_go {A} n which rand_next (Q : A -> Prop) : wp Q (go n which rand_next).
Proof.
  unfold go. apply wp_bind, wp_sbrk. intros break0. apply wp_bind, wp_run, wp_bind, wp_call. intros r _. destruct (negb _); [apply wp_die; fits|].
  apply wp_bind, wp_run. apply (wp_loop (fun g => length (gr_buf g) = 999%nat)); [apply length_replicate|]. intros g Hg. cbv zeta. apply wp_bind.
  assert (Hstep : wp (fun r => match r with inl x => length (gr_buf x) = 999%nat | inr a => Q a end)
    (let '(r, rand_next) := do_rand (gr_rand g) in
     '(fd, buf) <- grind_step (Z.rem r 23) (gr_fd g) break0 (gr_buf g) ;;
     URet (inl (mkgrinding fd (u64 (gr_iters g + 1)) rand_next buf)))).
  { destruct (do_rand (gr_rand g)) as [x y]. apply wp_bind. eapply wp_mono; [by apply tame_grind_step|]. by intros [fd buf] Hb. }
  destruct (_ =? 0); [apply wp_run|apply wp_ret]; exact Hstep.
Qed.
#[export] Hint Resolve tame_go : tests.

Lemma tame_iter {A} n rand_next (Q : A -> Prop) : wp Q (iter n rand_next).
Proof. unfold iter. grinds. Qed.
#[export] Hint Resolve tame_iter : tests.

Lemma tame_grind n : wp (fun _ => True) (grind_main n).
Proof. apply (wp_loop (fun _ => True)); [done|]. intros r _. grinds. Qed.
