(* ===== verification/UserTestsA.v ===== *)
(** * [usertests.c]: pointers, truncation, directories and small files

    A test gets its name [s] and, where it uses it, the array [buf] of BUFSZ bytes.  Local arrays are
    lists of their size that start with whatever the stack holds ([local]); a string in an array is
    what is before its final 0, which has to be there ([cstring]).  The pair of descriptors
    [int fds[2]] is two variables. *)

From S2P Require Import Prelude CString Fields Printf UserSys Ulib TestLib.
From stdpp Require Import base numbers strings list.
From Stdlib Require Import ZArith Lia.

#[local] Open Scope Z_scope.
#[local] Open Scope user_scope.

Abbreviation BUFSZ := 12288%Z (only parsing).
Abbreviation vs s := (VStr (Some s)) (only parsing).

(** [printf("%s: ...", s); exit(1);] *)
Definition fail {A} (s : list Z) (msg : string) : prog A := die ("%s: " +:+ msg +:+ nl) [vs s].

(** [if(fork() < 0) { printf("%s: fork failed\n", s); exit(1); }] *)
Definition must_fork (s : list Z) : prog Z :=
  pid <- call SFork ;;
  if pid <? 0 then fail s "fork failed" else URet pid.

(** [wait(&xstatus); exit(xstatus);] *)
Definition exit_as_child {A} : prog A :=
  '(_, xstatus) <- call SWait ;;
  UExit xstatus.

Definition O_CREATE_WR : Z := Z.lor O_CREATE O_WRONLY.
Definition O_CREATE_RDWR : Z := Z.lor O_CREATE O_RDWR.

(** ** Pointers *)

(** The body of the loop of [copyin] for one address. *)
Definition copyin_addr (addr : Z) : prog unit :=
  fd <- call (SOpen (str "copyin1") O_CREATE_WR) ;;
  if fd <? 0 then die ("open(copyin1) failed" +:+ nl) [] else
  n <- call (SWriteAt fd addr 8192) ;;
  if n >=? 0 then die ("write(fd, %p, 8192) returned %d, not -1" +:+ nl) [VInt addr; VInt n] else
  run (SClose fd) ;;
  run (SUnlink (str "copyin1")) ;;
  n <- call (SWriteAt 1 addr 8192) ;;
  if n >? 0 then die ("write(1, %p, 8192) returned %d, not -1 or 0" +:+ nl) [VInt addr; VInt n] else
  '(r, fds0, fds1) <- call SPipe ;;
  if r <? 0 then die ("pipe() failed" +:+ nl) [] else
  n <- call (SWriteAt fds1 addr 8192) ;;
  if n >? 0 then die ("write(pipe, %p, 8192) returned %d, not -1 or 0" +:+ nl) [VInt addr; VInt n] else
  run (SClose fds0) ;;
  run (SClose fds1).

(** [for(int ai = 0; ai < sizeof(addrs)/sizeof(addrs[0]); ai++)] *)
Definition for_addrs (body : Z -> prog unit) (addrs : list Z) : prog unit :=
  for_each 0 (Z.of_nat (length addrs)) (fun ai =>
    addr <- get_at addrs ai ;;
    body addr).

Definition copyin (s : list Z) : prog unit :=
  for_addrs copyin_addr [0x80000000; 0x3fffffe000; 0x3ffffff000; 0x4000000000; 0xffffffffffffffff].

Definition copyout_addr (addr : Z) : prog unit :=
  fd <- call (SOpen (str "README") 0) ;;
  if fd <? 0 then die ("open(README) failed" +:+ nl) [] else
  n <- call (SReadAt fd addr 8192) ;;
  if n >? 0 then die ("read(fd, %p, 8192) returned %d, not -1 or 0" +:+ nl) [VInt addr; VInt n] else
  run (SClose fd) ;;
  '(r, fds0, fds1) <- call SPipe ;;
  if r <? 0 then die ("pipe() failed" +:+ nl) [] else
  n <- write_buf fds1 (lit "x") 1 ;;
  if negb (n =? 1) then die ("pipe write failed" +:+ nl) [] else
  n <- call (SReadAt fds0 addr 8192) ;;
  if n >? 0 then die ("read(pipe, %p, 8192) returned %d, not -1 or 0" +:+ nl) [VInt addr; VInt n] else
  run (SClose fds0) ;;
  run (SClose fds1).

Definition copyout (s : list Z) : prog unit :=
  for_addrs copyout_addr [0; 0x80000000; 0x3fffffe000; 0x3ffffff000; 0x4000000000; 0xffffffffffffffff].

Definition copyinstr1 (s : list Z) : prog unit :=
  for_addrs (fun addr =>
    fd <- call (SOpenAt addr O_CREATE_WR) ;;
    if fd >=? 0 then die ("open(%p) returned %d, not -1" +:+ nl) [VInt addr; VInt fd] else URet tt)
    [0x80000000; 0x3fffffe000; 0x3ffffff000; 0x4000000000; 0xffffffffffffffff].

(** [for(int i = 0; i < n; i++) b[i] = 'x'; b[n] = '\0';], and the string in [b]. *)
Definition all_x (b : list Z) (n : Z) : prog (list Z) :=
  b <- for_range 0 n (fun i b => put b i 120) b ;;
  b <- put b n 0 ;;
  cstring b.

Definition copyinstr2 (s : list Z) : prog unit :=
  b <- local (128 + 1) ;;
  b <- all_x b 128 ;;
  ret <- call (SUnlink b) ;;
  if negb (ret =? -1) then die ("unlink(%s) returned %d, not -1" +:+ nl) [vs b; VInt ret] else
  fd <- call (SOpen b O_CREATE_WR) ;;
  if negb (fd =? -1) then die ("open(%s) returned %d, not -1" +:+ nl) [vs b; VInt fd] else
  ret <- call (SLink b b) ;;
  if negb (ret =? -1) then die ("link(%s, %s) returned %d, not -1" +:+ nl) [vs b; vs b; VInt ret] else
  args <- args_of [Some (str "xx"); None] ;;
  ret <- call (SExec b args) ;;
  if negb (ret =? -1) then die ("exec(%s) returned %d, not -1" +:+ nl) [vs b; VInt fd] else
  pid <- call SFork ;;
  if pid <? 0 then die ("fork failed" +:+ nl) [] else
  if pid =? 0 then
    big <- all_x (replicate (Z.to_nat (4096 + 1)) 0) 4096 ;;
    args2 <- args_of [Some big; Some big; Some big; None] ;;
    ret <- call (SExec (str "echo") args2) ;;
    if negb (ret =? -1) then die ("exec(echo, BIG) returned %d, not -1" +:+ nl) [VInt fd] else
    UExit 747
  else
  '(_, st) <- call SWait ;;
  if negb (st =? 747) then die ("exec(echo, BIG) succeeded, should have failed" +:+ nl) [] else
  URet tt.

(** [b] is the last byte of memory; a message about the string there has to read it. *)
Definition copyinstr3 (n : nat) (s : list Z) : prog unit :=
  sbrk 8192 ;;
  top <- sbrk 0 ;;
  (if negb (top mod 4096 =? 0) then sbrk (4096 - top mod 4096) ;; URet tt else URet tt) ;;
  top <- sbrk 0 ;;
  if negb (top mod 4096 =? 0) then die ("oops" +:+ nl) [] else
  let b := u64 (top - 1) in
  store b 120 ;;
  ret <- call (SUnlinkAt b) ;;
  if negb (ret =? -1) then (x <- string_at n b ;; die ("unlink(%s) returned %d, not -1" +:+ nl) [vs x; VInt ret]) else
  fd <- call (SOpenAt b O_CREATE_WR) ;;
  if negb (fd =? -1) then (x <- string_at n b ;; die ("open(%s) returned %d, not -1" +:+ nl) [vs x; VInt fd]) else
  ret <- call (SLinkAt b b) ;;
  if negb (ret =? -1) then (x <- string_at n b ;; die ("link(%s, %s) returned %d, not -1" +:+ nl) [vs x; vs x; VInt ret]) else
  args <- args_of [Some (str "xx"); None] ;;
  ret <- call (SExecAt b args) ;;
  if negb (ret =? -1) then (x <- string_at n b ;; die ("exec(%s) returned %d, not -1" +:+ nl) [vs x; VInt fd]) else
  URet tt.

Definition rwsbrk (s : list Z) : prog unit :=
  a <- sbrk 8192 ;;
  if u64 a =? SBRK_ERROR then die ("sbrk(rwsbrk) failed" +:+ nl) [] else
  r <- sbrk (-8192) ;;
  if u64 r =? SBRK_ERROR then die ("sbrk(rwsbrk) shrink failed" +:+ nl) [] else
  fd <- call (SOpen (str "rwsbrk") O_CREATE_WR) ;;
  if fd <? 0 then die ("open(rwsbrk) failed" +:+ nl) [] else
  n <- call (SWriteAt fd (u64 (a + 4096)) 1024) ;;
  if n >=? 0 then die ("write(fd, %p, 1024) returned %d, not -1" +:+ nl) [VInt (u64 (a + 4096)); VInt n] else
  run (SClose fd) ;;
  run (SUnlink (str "rwsbrk")) ;;
  fd <- call (SOpen (str "README") O_RDONLY) ;;
  if fd <? 0 then die ("open(README) failed" +:+ nl) [] else
  n <- call (SReadAt fd (u64 (a + 4096)) 10) ;;
  if n >=? 0 then die ("read(fd, %p, 10) returned %d, not -1" +:+ nl) [VInt (u64 (a + 4096)); VInt n] else
  run (SClose fd) ;;
  UExit 0.

(** ** O_TRUNC *)

Definition truncate1 (s : list Z) : prog unit :=
  buf <- local 32 ;;
  run (SUnlink (str "truncfile")) ;;
  fd1 <- call (SOpen (str "truncfile") (Z.lor O_CREATE_WR O_TRUNC)) ;;
  write_buf fd1 (lit "abcd") 4 ;;
  run (SClose fd1) ;;
  fd2 <- call (SOpen (str "truncfile") O_RDONLY) ;;
  '(n, buf) <- read_buf fd2 buf 32 ;;
  if negb (n =? 4) then die ("%s: read %d bytes, wanted 4" +:+ nl) [vs s; VInt n] else
  fd1 <- call (SOpen (str "truncfile") (Z.lor O_WRONLY O_TRUNC)) ;;
  fd3 <- call (SOpen (str "truncfile") O_RDONLY) ;;
  '(n, buf) <- read_buf fd3 buf 32 ;;
  if negb (n =? 0) then
    printf ("aaa fd3=%d" +:+ nl) [VInt fd3] ;;
    die ("%s: read %d bytes, wanted 0" +:+ nl) [vs s; VInt n]
  else
  '(n, buf) <- read_buf fd2 buf 32 ;;
  if negb (n =? 0) then
    printf ("bbb fd2=%d" +:+ nl) [VInt fd2] ;;
    die ("%s: read %d bytes, wanted 0" +:+ nl) [vs s; VInt n]
  else
  write_buf fd1 (lit "abcdef") 6 ;;
  '(n, buf) <- read_buf fd3 buf 32 ;;
  if negb (n =? 6) then die ("%s: read %d bytes, wanted 6" +:+ nl) [vs s; VInt n] else
  '(n, buf) <- read_buf fd2 buf 32 ;;
  if negb (n =? 2) then die ("%s: read %d bytes, wanted 2" +:+ nl) [vs s; VInt n] else
  run (SUnlink (str "truncfile")) ;;
  run (SClose fd1) ;;
  run (SClose fd2) ;;
  run (SClose fd3).

Definition truncate2 (s : list Z) : prog unit :=
  run (SUnlink (str "truncfile")) ;;
  fd1 <- call (SOpen (str "truncfile") (Z.lor O_CREATE_WR O_TRUNC)) ;;
  write_buf fd1 (lit "abcd") 4 ;;
  fd2 <- call (SOpen (str "truncfile") (Z.lor O_TRUNC O_WRONLY)) ;;
  n <- write_buf fd1 (lit "x") 1 ;;
  if negb (n =? -1) then die ("%s: write returned %d, expected -1" +:+ nl) [vs s; VInt n] else
  run (SUnlink (str "truncfile")) ;;
  run (SClose fd1) ;;
  run (SClose fd2).

Definition truncate3 (s : list Z) : prog unit :=
  fd <- call (SOpen (str "truncfile") (Z.lor O_CREATE_WR O_TRUNC)) ;;
  run (SClose fd) ;;
  pid <- must_fork s ;;
  if pid =? 0 then
    for_each 0 100 (fun _ =>
      buf <- local 32 ;;
      fd <- call (SOpen (str "truncfile") O_WRONLY) ;;
      if fd <? 0 then fail s "open failed" else
      n <- write_buf fd (lit "1234567890") 10 ;;
      if negb (n =? 10) then die ("%s: write got %d, expected 10" +:+ nl) [vs s; VInt n] else
      run (SClose fd) ;;
      fd <- call (SOpen (str "truncfile") O_RDONLY) ;;
      read_buf fd buf 32 ;;
      run (SClose fd)) ;;
    UExit 0
  else
  for_each 0 150 (fun _ =>
    fd <- call (SOpen (str "truncfile") (Z.lor O_CREATE_WR O_TRUNC)) ;;
    if fd <? 0 then fail s "open failed" else
    n <- write_buf fd (lit "xxx") 3 ;;
    if negb (n =? 3) then die ("%s: write got %d, expected 3" +:+ nl) [vs s; VInt n] else
    run (SClose fd)) ;;
  '(_, xstatus) <- call SWait ;;
  run (SUnlink (str "truncfile")) ;;
  UExit xstatus.

(** ** [iput] in a transaction *)

Definition iputtest (s : list Z) : prog unit :=
  r <- call (SMkdir (str "iputdir")) ;;
  if r <? 0 then fail s "mkdir failed" else
  r <- call (SChdir (str "iputdir")) ;;
  if r <? 0 then fail s "chdir iputdir failed" else
  r <- call (SUnlink (str "../iputdir")) ;;
  if r <? 0 then fail s "unlink ../iputdir failed" else
  r <- call (SChdir (str "/")) ;;
  if r <? 0 then fail s "chdir / failed" else
  URet tt.

Definition exitiputtest (s : list Z) : prog unit :=
  pid <- must_fork s ;;
  if pid =? 0 then
    r <- call (SMkdir (str "iputdir")) ;;
    if r <? 0 then fail s "mkdir failed" else
    r <- call (SChdir (str "iputdir")) ;;
    if r <? 0 then fail s "child chdir failed" else
    r <- call (SUnlink (str "../iputdir")) ;;
    if r <? 0 then fail s "unlink ../iputdir failed" else
    UExit 0
  else exit_as_child.

Definition openiputtest (s : list Z) : prog unit :=
  r <- call (SMkdir (str "oidir")) ;;
  if r <? 0 then fail s "mkdir oidir failed" else
  pid <- must_fork s ;;
  if pid =? 0 then
    fd <- call (SOpen (str "oidir") O_RDWR) ;;
    if fd >=? 0 then fail s "open directory for write succeeded" else
    UExit 0
  else
  run (SPause 1) ;;
  r <- call (SUnlink (str "oidir")) ;;
  if negb (r =? 0) then fail s "unlink failed" else
  exit_as_child.

(** ** Simple file system tests *)

Definition opentest (s : list Z) : prog unit :=
  fd <- call (SOpen (str "echo") 0) ;;
  if fd <? 0 then fail s "open echo failed!" else
  run (SClose fd) ;;
  fd <- call (SOpen (str "doesnotexist") 0) ;;
  if fd >=? 0 then fail s "open doesnotexist succeeded!" else
  URet tt.

Definition writetest (buf s : list Z) : prog unit :=
  fd <- call (SOpen (str "small") O_CREATE_RDWR) ;;
  if fd <? 0 then fail s "error: creat small failed!" else
  for_each 0 100 (fun i =>
    r <- write_buf fd (lit "aaaaaaaaaa") 10 ;;
    if negb (r =? 10) then die ("%s: error: write aa %d new file failed" +:+ nl) [vs s; VInt i] else
    r <- write_buf fd (lit "bbbbbbbbbb") 10 ;;
    if negb (r =? 10) then die ("%s: error: write bb %d new file failed" +:+ nl) [vs s; VInt i] else
    URet tt) ;;
  run (SClose fd) ;;
  fd <- call (SOpen (str "small") O_RDONLY) ;;
  if fd <? 0 then fail s "error: open small failed!" else
  '(i, buf) <- read_buf fd buf 2000 ;;
  if negb (i =? 2000) then fail s "read failed" else
  run (SClose fd) ;;
  r <- call (SUnlink (str "small")) ;;
  if r <? 0 then fail s "unlink small failed" else
  URet tt.

(** [((int* )buf)[0] = i] and [((int* )buf)[0]]. *)
Definition put_int (buf : list Z) (i : Z) : prog (list Z) :=
  if bool_decide (4 <= Z.of_nat (length buf)) then URet (splice buf 0 (le_bytes 4 i)) else UBad "store outside an array".
Definition get_int (buf : list Z) : prog Z :=
  if bool_decide (4 <= Z.of_nat (length buf)) then URet (i32 (lget 4 buf 0)) else UBad "load outside an array".

(** MAXFILE is 268. *)
Definition writebig (n : nat) (buf s : list Z) : prog unit :=
  fd <- call (SOpen (str "big") O_CREATE_RDWR) ;;
  if fd <? 0 then fail s "error: creat big failed!" else
  buf <- for_range 0 268 (fun i buf =>
    buf <- put_int buf i ;;
    r <- write_buf fd buf 1024 ;;
    if negb (r =? 1024) then die ("%s: error: write big file failed i=%d" +:+ nl) [vs s; VInt i] else
    URet buf) buf ;;
  run (SClose fd) ;;
  fd <- call (SOpen (str "big") O_RDONLY) ;;
  if fd <? 0 then fail s "error: open big failed!" else
  loop n (fun '(n, buf) =>
    '(i, buf) <- read_buf fd buf 1024 ;;
    if i =? 0 then
      if negb (n =? 268) then die "%s: read only %d blocks from big" [vs s; VInt n] else
      URet (inr tt)
    else if negb (i =? 1024) then die ("%s: read failed %d" +:+ nl) [vs s; VInt i]
    else
    x <- get_int buf ;;
    if negb (x =? n) then die ("%s: read content of block %d is %d" +:+ nl) [vs s; VInt n; VInt x] else
    URet (inl (i32 (n + 1), buf))) (0, buf) ;;
  run (SClose fd) ;;
  r <- call (SUnlink (str "big")) ;;
  if r <? 0 then fail s "unlink big failed" else
  URet tt.

(** The names a0, a1, ..., with the bytes behind '9' for more of them. *)
Definition createtest (s : list Z) : prog unit :=
  name <- local 3 ;;
  name <- put name 0 97 ;;
  name <- put name 2 0 ;;
  name <- for_range 0 52 (fun i name =>
    name <- put name 1 (48 + i) ;;
    file <- cstring name ;;
    fd <- call (SOpen file O_CREATE_RDWR) ;;
    run (SClose fd) ;;
    URet name) name ;;
  name <- put name 0 97 ;;
  name <- put name 2 0 ;;
  for_range 0 52 (fun i name =>
    name <- put name 1 (48 + i) ;;
    file <- cstring name ;;
    run (SUnlink file) ;;
    URet name) name ;;
  URet tt.

Definition dirtest (s : list Z) : prog unit :=
  r <- call (SMkdir (str "dir0")) ;;
  if r <? 0 then fail s "mkdir failed" else
  r <- call (SChdir (str "dir0")) ;;
  if r <? 0 then fail s "chdir dir0 failed" else
  r <- call (SChdir (str "..")) ;;
  if r <? 0 then fail s "chdir .. failed" else
  r <- call (SUnlink (str "dir0")) ;;
  if r <? 0 then fail s "unlink dir0 failed" else
  URet tt.

Definition exectest (s : list Z) : prog unit :=
  buf <- local 3 ;;
  run (SUnlink (str "echo-ok")) ;;
  pid <- call SFork ;;
  if pid <? 0 then fail s "fork failed" else
  (if pid =? 0 then
     run (SClose 1) ;;
     fd <- call (SOpen (str "echo-ok") O_CREATE_WR) ;;
     if fd <? 0 then fail s "create failed" else
     if negb (fd =? 1) then fail s "wrong fd" else
     echoargv <- args_of [Some (str "echo"); Some (str "OK"); None] ;;
     r <- call (SExec (str "echo") echoargv) ;;
     if r <? 0 then fail s "exec echo failed" else
     URet tt
   else URet tt) ;;
  '(r, xstatus) <- call SWait ;;
  (if negb (r =? pid) then printf ("%s: wait failed!" +:+ nl) [vs s] else URet tt) ;;
  if negb (xstatus =? 0) then UExit xstatus else
  fd <- call (SOpen (str "echo-ok") O_RDONLY) ;;
  if fd <? 0 then fail s "open failed" else
  '(r, buf) <- read_buf fd buf 2 ;;
  if negb (r =? 2) then fail s "read failed" else
  run (SUnlink (str "echo-ok")) ;;
  b0 <- get buf 0 ;;
  b1 <- get buf 1 ;;
  if (b0 =? 79) && (b1 =? 75) then UExit 0 else fail s "wrong output".
