(* ===== verification/UserTestsB.v ===== *)
(** * [usertests.c]: pipes, processes, and many files *)

From S2P Require Import Prelude CString Fields Printf UserSys Ulib TestLib Grind UserTestsA.
From stdpp Require Import base numbers strings list.
From Stdlib Require Import ZArith Lia.

#[local] Open Scope Z_scope.
#[local] Open Scope user_scope.

(** ** Pipes and processes *)

(** [for(i = 0; i < SZ; i++) buf[i] = seq++;], with SZ = 1033. *)
Definition fill_seq (buf : list Z) (seq : Z) : prog (list Z * Z) :=
  for_range 0 1033 (fun i '(buf, seq) => buf <- put buf i seq ;; URet (buf, i32 (seq + 1))) (buf, seq).

(** The bytes [buf[0..n-1]] against [seq]: whether they agree, and [seq] afterwards. *)
Definition check_seq (buf : list Z) (n seq : Z) : prog (bool * Z) :=
  for_range 0 n (fun i '(ok, seq) =>
    if negb ok then URet (ok, seq) else
    b <- get buf i ;;
    URet (bool_decide (Z.land b 0xff = Z.land seq 0xff), i32 (seq + 1))) (true, seq).

Definition pipe1 (n : nat) (buf s : list Z) : prog unit :=
  '(r, fds0, fds1) <- call SPipe ;;
  if negb (r =? 0) then fail s "pipe() failed" else
  pid <- call SFork ;;
  if pid =? 0 then
    run (SClose fds0) ;;
    for_range 0 5 (fun _ '(buf, seq) =>
      '(buf, seq) <- fill_seq buf seq ;;
      r <- write_buf fds1 buf 1033 ;;
      if negb (r =? 1033) then fail s "pipe1 oops 1" else
      URet (buf, seq)) (buf, 0) ;;
    UExit 0
  else if pid >? 0 then
    run (SClose fds1) ;;
    total <- loop n (fun '(buf, seq, total, cc) =>
      '(n, buf) <- read_buf fds0 buf cc ;;
      if n >? 0 then
        '(ok, seq) <- check_seq buf n seq ;;
        if negb ok then
          printf ("%s: pipe1 oops 2" +:+ nl) [vs s] ;;
          URet (inr None)
        else
        let cc := cc * 2 in
        URet (inl (buf, seq, i32 (total + n), if cc >? BUFSZ then BUFSZ else cc))
      else URet (inr (Some total))) (buf, 0, 0, 1) ;;
    match total with
    | None => URet tt
    | Some total =>
        if negb (total =? 5 * 1033) then die ("%s: pipe1 oops 3 total %d" +:+ nl) [vs s; VInt total] else
        run (SClose fds0) ;;
        exit_as_child
    end
  else fail s "fork() failed".

(** [while(1) getpid();] *)
Definition getpid_forever {A} (n : nat) : prog A := loop n (fun _ => run SGetpid ;; URet (inl tt)) tt.

Definition killstatus (n : nat) (s : list Z) : prog unit :=
  for_each 0 100 (fun _ =>
    pid1 <- must_fork s ;;
    if pid1 =? 0 then getpid_forever n else
    run (SPause 1) ;;
    run (SKill pid1) ;;
    '(_, xst) <- call SWait ;;
    if negb (xst =? -1) then fail s "status should be -1" else
    URet tt) ;;
  UExit 0.

(** [for(;;) ;]: it only ends by being killed. *)
Definition spin_forever {A} (n : nat) : prog A := loop n (fun _ => URet (inl tt)) tt.

Definition preempt (n : nat) (buf s : list Z) : prog unit :=
  pid1 <- call SFork ;;
  if pid1 <? 0 then die "%s: fork failed" [vs s] else
  if pid1 =? 0 then spin_forever n else
  pid2 <- must_fork s ;;
  if pid2 =? 0 then spin_forever n else
  '(_, pfds0, pfds1) <- call SPipe ;;
  pid3 <- must_fork s ;;
  if pid3 =? 0 then
    run (SClose pfds0) ;;
    r <- write_buf pfds1 (lit "x") 1 ;;
    (if negb (r =? 1) then printf "%s: preempt write error" [vs s] else URet tt) ;;
    run (SClose pfds1) ;;
    spin_forever n
  else
  run (SClose pfds1) ;;
  '(r, buf) <- read_buf pfds0 buf BUFSZ ;;
  if negb (r =? 1) then printf "%s: preempt read error" [vs s] else
  run (SClose pfds0) ;;
  printf "kill... " [] ;;
  run (SKill pid1) ;;
  run (SKill pid2) ;;
  run (SKill pid3) ;;
  printf "wait... " [] ;;
  run SWait ;;
  run SWait ;;
  run SWait.

Definition exitwait (s : list Z) : prog unit :=
  for_each 0 100 (fun i =>
    pid <- must_fork s ;;
    if negb (pid =? 0) then
      '(r, xstate) <- call SWait ;;
      if negb (r =? pid) then fail s "wait wrong pid" else
      if negb (i =? xstate) then fail s "wait wrong exit status" else
      URet tt
    else UExit i).

Definition reparent (s : list Z) : prog unit :=
  master_pid <- call SGetpid ;;
  for_each 0 200 (fun _ =>
    pid <- must_fork s ;;
    if negb (pid =? 0) then
      '(r, _) <- call SWait ;;
      if negb (r =? pid) then fail s "wait wrong pid" else URet tt
    else
      pid2 <- call SFork ;;
      if pid2 <? 0 then
        run (SKill master_pid) ;;
        UExit 1
      else UExit 0) ;;
  UExit 0.

Definition twochildren (s : list Z) : prog unit :=
  for_each 0 1000 (fun _ =>
    pid1 <- must_fork s ;;
    if pid1 =? 0 then UExit 0 else
    pid2 <- must_fork s ;;
    if pid2 =? 0 then UExit 0 else
    run SWait ;;
    run SWait).

Definition forkfork (s : list Z) : prog unit :=
  for_each 0 2 (fun _ =>
    pid <- call SFork ;;
    if pid <? 0 then die "%s: fork failed" [vs s] else
    if pid =? 0 then
      for_each 0 200 (fun _ =>
        pid1 <- call SFork ;;
        if pid1 <? 0 then UExit 1 else
        if pid1 =? 0 then UExit 0 else
        run SWait) ;;
      UExit 0
    else URet tt) ;;
  for_each 0 2 (fun _ =>
    '(_, xstatus) <- call SWait ;;
    if negb (xstatus =? 0) then die "%s: fork in child failed" [vs s] else URet tt).

(** [close(open(path, mode));] *)
Definition open_close (path : list Z) (mode : Z) : prog unit :=
  fd <- call (SOpen path mode) ;;
  run (SClose fd).

Definition forkforkfork (n : nat) (s : list Z) : prog unit :=
  run (SUnlink (str "stopforking")) ;;
  pid <- call SFork ;;
  if pid <? 0 then die "%s: fork failed" [vs s] else
  if pid =? 0 then
    loop n (fun _ =>
      fd <- call (SOpen (str "stopforking") 0) ;;
      if fd >=? 0 then UExit 0 else
      r <- call SFork ;;
      (if r <? 0 then open_close (str "stopforking") O_CREATE_RDWR else URet tt) ;;
      URet (inl tt)) tt
  else
  run (SPause 20) ;;
  open_close (str "stopforking") O_CREATE_RDWR ;;
  run SWait ;;
  run (SPause 10).

Definition reparent2 (s : list Z) : prog unit :=
  for_each 0 800 (fun _ =>
    pid1 <- call SFork ;;
    if pid1 <? 0 then die ("fork failed" +:+ nl) [] else
    if pid1 =? 0 then
      run SFork ;;
      run SFork ;;
      UExit 0
    else run SWait) ;;
  UExit 0.

(** ** More file system tests *)

(** The letters c and p among the SZ = 10 bytes of [buf]. *)
Definition count_cp (buf : list Z) (nc np : Z) : prog (Z * Z) :=
  for_range 0 10 (fun i '(nc, np) =>
    b <- get buf i ;;
    let nc := if b =? 99 then i32 (nc + 1) else nc in
    let np := if b =? 112 then i32 (np + 1) else np in
    URet (nc, np)) (nc, np).

Definition sharedfd (n : nat) (s : list Z) : prog unit :=
  buf <- local 10 ;;
  run (SUnlink (str "sharedfd")) ;;
  fd <- call (SOpen (str "sharedfd") O_CREATE_RDWR) ;;
  if fd <? 0 then die "%s: cannot open sharedfd for writing" [vs s] else
  pid <- call SFork ;;
  buf <- fill buf (if pid =? 0 then 99 else 112) 10 ;;
  for_each 0 1000 (fun _ =>
    r <- write_buf fd buf 10 ;;
    if negb (r =? 10) then fail s "write sharedfd failed" else URet tt) ;;
  (if pid =? 0 then UExit 0 else
   '(_, xstatus) <- call SWait ;;
   if negb (xstatus =? 0) then UExit xstatus else URet tt) ;;
  run (SClose fd) ;;
  fd <- call (SOpen (str "sharedfd") 0) ;;
  if fd <? 0 then fail s "cannot open sharedfd for reading" else
  '(nc, np) <- loop n (fun '(buf, nc, np) =>
    '(n, buf) <- read_buf fd buf 10 ;;
    if n >? 0 then
      '(nc, np) <- count_cp buf nc np ;;
      URet (inl (buf, nc, np))
    else URet (inr (nc, np))) (buf, 0, 0) ;;
  run (SClose fd) ;;
  run (SUnlink (str "sharedfd")) ;;
  if (nc =? 1000 * 10) && (np =? 1000 * 10) then UExit 0 else fail s "nc/np test fails".

(** [char *names[]] *)
Definition names : list (list Z) := [str "f0"; str "f1"; str "f2"; str "f3"].

Definition fourfiles_child (pi : Z) (fname buf s : list Z) : prog unit :=
  fd <- call (SOpen fname O_CREATE_RDWR) ;;
  if fd <? 0 then fail s "create failed" else
  buf <- fill buf (48 + pi) 500 ;;
  for_each 0 12 (fun _ =>
    n <- write_buf fd buf 500 ;;
    if negb (n =? 500) then die ("write failed %d" +:+ nl) [VInt n] else URet tt) ;;
  UExit 0.

(** [while((n = read(fd, buf, sizeof(buf))) > 0)]: the total, and the array. *)
Definition fourfiles_read (n : nat) (i fd : Z) (buf s : list Z) : prog (list Z * Z) :=
  loop n (fun '(buf, total) =>
    '(n, buf) <- read_buf fd buf BUFSZ ;;
    if n >? 0 then
      for_each 0 n (fun j =>
        b <- get buf j ;;
        if negb (b =? 48 + i) then fail s "wrong char" else URet tt) ;;
      URet (inl (buf, i32 (total + n)))
    else URet (inr (buf, total))) (buf, 0).

Definition fourfiles (n : nat) (buf s : list Z) : prog unit :=
  for_each 0 4 (fun pi =>
    fname <- get_at names pi ;;
    run (SUnlink fname) ;;
    pid <- must_fork s ;;
    if pid =? 0 then fourfiles_child pi fname buf s else URet tt) ;;
  for_each 0 4 (fun _ =>
    '(_, xstatus) <- call SWait ;;
    if negb (xstatus =? 0) then UExit xstatus else URet tt) ;;
  for_range 0 4 (fun i buf =>
    fname <- get_at names i ;;
    fd <- call (SOpen fname 0) ;;
    '(buf, total) <- fourfiles_read n i fd buf s ;;
    run (SClose fd) ;;
    if negb (total =? 12 * 500) then die ("wrong length %d" +:+ nl) [VInt total] else
    run (SUnlink fname) ;;
    URet buf) buf ;;
  URet tt.

(** The child [pi] of [createdelete], from [name[0] = 'p' + pi;] on. *)
Definition createdelete_child (pi : Z) (name s : list Z) : prog unit :=
  name <- put name 0 (112 + pi) ;;
  name <- put name 2 0 ;;
  for_range 0 20 (fun i name =>
    name <- put name 1 (48 + i) ;;
    file <- cstring name ;;
    fd <- call (SOpen file O_CREATE_RDWR) ;;
    if fd <? 0 then fail s "create failed" else
    run (SClose fd) ;;
    if (i >? 0) && (Z.rem i 2 =? 0) then
      name <- put name 1 (48 + Z.quot i 2) ;;
      file <- cstring name ;;
      r <- call (SUnlink file) ;;
      if r <? 0 then fail s "unlink failed" else URet name
    else URet name) name ;;
  UExit 0.

(** One file of the second part: whether it exists. *)
Definition createdelete_check (i pi : Z) (name s : list Z) : prog (list Z) :=
  name <- put name 0 (112 + pi) ;;
  name <- put name 1 (48 + i) ;;
  file <- cstring name ;;
  fd <- call (SOpen file 0) ;;
  if ((i =? 0) || (i >=? 10)) && (fd <? 0) then
    die ("%s: oops createdelete %s didn't exist" +:+ nl) [vs s; vs file]
  else if (i >=? 1) && (i <? 10) && (fd >=? 0) then
    die ("%s: oops createdelete %s did exist" +:+ nl) [vs s; vs file]
  else
  (if fd >=? 0 then run (SClose fd) else URet tt) ;;
  URet name.

Definition createdelete (s : list Z) : prog unit :=
  name <- local 32 ;;
  for_each 0 4 (fun pi =>
    pid <- must_fork s ;;
    if pid =? 0 then createdelete_child pi name s else URet tt) ;;
  for_each 0 4 (fun _ =>
    '(_, xstatus) <- call SWait ;;
    if negb (xstatus =? 0) then UExit 1 else URet tt) ;;
  name <- put name 2 0 ;;
  name <- put name 1 0 ;;
  name <- put name 0 0 ;;
  name <- for_range 0 20 (fun i => for_range 0 4 (fun pi name => createdelete_check i pi name s)) name ;;
  for_range 0 20 (fun i => for_range 0 4 (fun pi name =>
    name <- put name 0 (112 + pi) ;;
    name <- put name 1 (48 + i) ;;
    file <- cstring name ;;
    run (SUnlink file) ;;
    URet name)) name ;;
  URet tt.

(** [if(bad(call)) { printf("%s: ...", s); exit(1); }] *)
Definition unless (s : list Z) (bad : Z -> bool) (e : sys Z) (msg : string) : prog unit :=
  r <- call e ;;
  if bad r then fail s msg else URet tt.

(** The conditions [!= 0], [== 0], [< 0] and [>= 0]. *)
Definition nonzero (r : Z) : bool := negb (r =? 0).
Definition zero (r : Z) : bool := r =? 0.
Definition negative (r : Z) : bool := r <? 0.
Definition nonnegative (r : Z) : bool := r >=? 0.

Definition unlinkread (buf s : list Z) : prog unit :=
  fd <- call (SOpen (str "unlinkread") O_CREATE_RDWR) ;;
  if fd <? 0 then fail s "create unlinkread failed" else
  write_buf fd (lit "hello") 5 ;;
  run (SClose fd) ;;
  fd <- call (SOpen (str "unlinkread") O_RDWR) ;;
  if fd <? 0 then fail s "open unlinkread failed" else
  unless s nonzero (SUnlink (str "unlinkread")) "unlink unlinkread failed" ;;
  fd1 <- call (SOpen (str "unlinkread") O_CREATE_RDWR) ;;
  write_buf fd1 (lit "yyy") 3 ;;
  run (SClose fd1) ;;
  '(r, buf) <- read_buf fd buf BUFSZ ;;
  if negb (r =? 5) then die "%s: unlinkread read failed" [vs s] else
  b0 <- get buf 0 ;;
  if negb (b0 =? 104) then fail s "unlinkread wrong data" else
  r <- write_buf fd buf 10 ;;
  if negb (r =? 10) then fail s "unlinkread write failed" else
  run (SClose fd) ;;
  run (SUnlink (str "unlinkread")).

Definition linktest (buf s : list Z) : prog unit :=
  run (SUnlink (str "lf1")) ;;
  run (SUnlink (str "lf2")) ;;
  fd <- call (SOpen (str "lf1") O_CREATE_RDWR) ;;
  if fd <? 0 then fail s "create lf1 failed" else
  r <- write_buf fd (lit "hello") 5 ;;
  if negb (r =? 5) then fail s "write lf1 failed" else
  run (SClose fd) ;;
  unless s negative (SLink (str "lf1") (str "lf2")) "link lf1 lf2 failed" ;;
  run (SUnlink (str "lf1")) ;;
  unless s nonnegative (SOpen (str "lf1") 0) "unlinked lf1 but it is still there!" ;;
  fd <- call (SOpen (str "lf2") 0) ;;
  if fd <? 0 then fail s "open lf2 failed" else
  '(r, buf) <- read_buf fd buf BUFSZ ;;
  if negb (r =? 5) then fail s "read lf2 failed" else
  run (SClose fd) ;;
  unless s nonnegative (SLink (str "lf2") (str "lf2")) "link lf2 lf2 succeeded! oops" ;;
  run (SUnlink (str "lf2")) ;;
  unless s nonnegative (SLink (str "lf2") (str "lf1")) "link non-existent succeeded! oops" ;;
  unless s nonnegative (SLink (str ".") (str "lf1")) "link . lf1 succeeded! oops".

(** One round of the first loop; [file] is the array. *)
Definition concreate_make (i : Z) (file0 : list Z) : prog (list Z) :=
  file0 <- put file0 1 (48 + i) ;;
  file <- cstring file0 ;;
  run (SUnlink file) ;;
  pid <- call SFork ;;
  (if negb (pid =? 0) && (Z.rem i 3 =? 1) then run (SLink (str "C0") file)
   else if (pid =? 0) && (Z.rem i 5 =? 1) then run (SLink (str "C0") file)
   else
     fd <- call (SOpen file O_CREATE_RDWR) ;;
     if fd <? 0 then die ("concreate create %s failed" +:+ nl) [vs file] else
     run (SClose fd)) ;;
  if pid =? 0 then UExit 0 else
  '(_, xstatus) <- call SWait ;;
  if negb (xstatus =? 0) then UExit 1 else URet file0.

(** One round of [while(read(fd, &de, sizeof(de)) > 0)]; [name] is at offset 2 of [de]. *)
Definition concreate_entry (s : list Z) (de fa : list Z) (n : Z) : prog (list Z * Z) :=
  i0 <- get de 0 ;;
  i1 <- get de 1 ;;
  if i0 + 256 * i1 =? 0 then URet (fa, n) else
  c0 <- get de 2 ;;
  c2 <- get de 4 ;;
  if (c0 =? 67) && (c2 =? 0) then
    c1 <- get de 3 ;;
    let i := c1 - 48 in
    if (i <? 0) || (i >=? 40) then
      name <- cstring (drop 2 de) ;;
      die ("%s: concreate weird file %s" +:+ nl) [vs s; vs name]
    else
    f <- get fa i ;;
    if negb (f =? 0) then
      name <- cstring (drop 2 de) ;;
      die ("%s: concreate duplicate file %s" +:+ nl) [vs s; vs name]
    else
    fa <- put fa i 1 ;;
    URet (fa, i32 (n + 1))
  else URet (fa, n).

Definition concreate_list (rs : nat) (s fa de : list Z) (fd : Z) : prog Z :=
  loop rs (fun '(de, fa, n) =>
    '(r, de) <- read_buf fd de 16 ;;
    if r >? 0 then
      '(fa, n) <- concreate_entry s de fa n ;;
      URet (inl (de, fa, n))
    else URet (inr n)) (de, fa, 0).

(** One round of the last loop. *)
Definition concreate_remove (s : list Z) (i : Z) (file0 : list Z) : prog (list Z) :=
  file0 <- put file0 1 (48 + i) ;;
  file <- cstring file0 ;;
  pid <- must_fork s ;;
  (if ((Z.rem i 3 =? 0) && (pid =? 0)) || ((Z.rem i 3 =? 1) && negb (pid =? 0)) then
     open_close file 0 ;; open_close file 0 ;; open_close file 0 ;;
     open_close file 0 ;; open_close file 0 ;; open_close file 0
   else
     run (SUnlink file) ;; run (SUnlink file) ;; run (SUnlink file) ;;
     run (SUnlink file) ;; run (SUnlink file) ;; run (SUnlink file)) ;;
  if pid =? 0 then UExit 0 else
  run SWait ;;
  URet file0.

Definition concreate (rs : nat) (s : list Z) : prog unit :=
  file <- local 3 ;;
  fa <- local 40 ;;
  de <- local 16 ;;
  file <- put file 0 67 ;;
  file <- put file 2 0 ;;
  file <- for_range 0 40 concreate_make file ;;
  fa <- fill fa 0 40 ;;
  fd <- call (SOpen (str ".") 0) ;;
  n <- concreate_list rs s fa de fd ;;
  run (SClose fd) ;;
  if negb (n =? 40) then fail s "concreate not enough files in directory listing" else
  for_range 0 40 (concreate_remove s) file ;;
  URet tt.

Definition linkunlink (s : list Z) : prog unit :=
  run (SUnlink (str "x")) ;;
  pid <- must_fork s ;;
  for_range 0 100 (fun _ x =>
    let x := u32 (x * 1103515245 + 12345) in
    (if x mod 3 =? 0 then open_close (str "x") (Z.lor O_RDWR O_CREATE)
     else if x mod 3 =? 1 then run (SLink (str "cat") (str "x"))
     else run (SUnlink (str "x"))) ;;
    URet x) (if negb (pid =? 0) then 1 else 97) ;;
  if negb (pid =? 0) then run SWait else UExit 0.
