(* ===== verification/UserTestsC.v ===== *)
(** * [usertests.c]: directories, large files and memory *)

From S2P Require Import Prelude CString Fields Printf UserSys Ulib TestLib TestProgs Grind Riscv UserTestsA UserTestsB.
From stdpp Require Import base numbers strings list.
From Stdlib Require Import ZArith Lia.

#[local] Open Scope Z_scope.
#[local] Open Scope user_scope.

(** ** Directories *)

(** [subdir] up to its first [chdir]: the array afterwards. *)
Definition subdir_make (buf s : list Z) : prog (list Z) :=
  run (SUnlink (str "ff")) ;;
  unless s nonzero (SMkdir (str "dd")) "mkdir dd failed" ;;
  fd <- call (SOpen (str "dd/ff") O_CREATE_RDWR) ;;
  if fd <? 0 then fail s "create dd/ff failed" else
  write_buf fd (lit "ff") 2 ;;
  run (SClose fd) ;;
  unless s nonnegative (SUnlink (str "dd")) "unlink dd (non-empty dir) succeeded!" ;;
  unless s nonzero (SMkdir (str "/dd/dd")) "subdir mkdir dd/dd failed" ;;
  fd <- call (SOpen (str "dd/dd/ff") O_CREATE_RDWR) ;;
  if fd <? 0 then fail s "create dd/dd/ff failed" else
  write_buf fd (lit "FF") 2 ;;
  run (SClose fd) ;;
  fd <- call (SOpen (str "dd/dd/../ff") 0) ;;
  if fd <? 0 then fail s "open dd/dd/../ff failed" else
  '(cc, buf) <- read_buf fd buf BUFSZ ;;
  b0 <- get buf 0 ;;
  if negb (cc =? 2) || negb (b0 =? 102) then fail s "dd/dd/../ff wrong content" else
  run (SClose fd) ;;
  unless s nonzero (SLink (str "dd/dd/ff") (str "dd/dd/ffff")) "link dd/dd/ff dd/dd/ffff failed" ;;
  unless s nonzero (SUnlink (str "dd/dd/ff")) "unlink dd/dd/ff failed" ;;
  unless s nonnegative (SOpen (str "dd/dd/ff") O_RDONLY) "open (unlinked) dd/dd/ff succeeded" ;;
  URet buf.

(** Its walk through the directories, and the link read back. *)
Definition subdir_walk (buf s : list Z) : prog unit :=
  unless s nonzero (SChdir (str "dd")) "chdir dd failed" ;;
  unless s nonzero (SChdir (str "dd/../../dd")) "chdir dd/../../dd failed" ;;
  unless s nonzero (SChdir (str "dd/../../../dd")) "chdir dd/../../../dd failed" ;;
  unless s nonzero (SChdir (str "./..")) "chdir ./.. failed" ;;
  fd <- call (SOpen (str "dd/dd/ffff") 0) ;;
  if fd <? 0 then fail s "open dd/dd/ffff failed" else
  '(cc, buf) <- read_buf fd buf BUFSZ ;;
  if negb (cc =? 2) then fail s "read dd/dd/ffff wrong len" else
  run (SClose fd).

(** What has to fail, and the removal of all it made. *)
Definition subdir_refused (s : list Z) : prog unit :=
  unless s nonnegative (SOpen (str "dd/dd/ff") O_RDONLY) "open (unlinked) dd/dd/ff succeeded!" ;;
  unless s nonnegative (SOpen (str "dd/ff/ff") O_CREATE_RDWR) "create dd/ff/ff succeeded!" ;;
  unless s nonnegative (SOpen (str "dd/xx/ff") O_CREATE_RDWR) "create dd/xx/ff succeeded!" ;;
  unless s nonnegative (SOpen (str "dd") O_CREATE) "create dd succeeded!" ;;
  unless s nonnegative (SOpen (str "dd") O_RDWR) "open dd rdwr succeeded!" ;;
  unless s nonnegative (SOpen (str "dd") O_WRONLY) "open dd wronly succeeded!" ;;
  unless s zero (SLink (str "dd/ff/ff") (str "dd/dd/xx")) "link dd/ff/ff dd/dd/xx succeeded!" ;;
  unless s zero (SLink (str "dd/xx/ff") (str "dd/dd/xx")) "link dd/xx/ff dd/dd/xx succeeded!" ;;
  unless s zero (SLink (str "dd/ff") (str "dd/dd/ffff")) "link dd/ff dd/dd/ffff succeeded!" ;;
  unless s zero (SMkdir (str "dd/ff/ff")) "mkdir dd/ff/ff succeeded!" ;;
  unless s zero (SMkdir (str "dd/xx/ff")) "mkdir dd/xx/ff succeeded!" ;;
  unless s zero (SMkdir (str "dd/dd/ffff")) "mkdir dd/dd/ffff succeeded!" ;;
  unless s zero (SUnlink (str "dd/xx/ff")) "unlink dd/xx/ff succeeded!" ;;
  unless s zero (SUnlink (str "dd/ff/ff")) "unlink dd/ff/ff succeeded!" ;;
  unless s zero (SChdir (str "dd/ff")) "chdir dd/ff succeeded!" ;;
  unless s zero (SChdir (str "dd/xx")) "chdir dd/xx succeeded!" ;;
  unless s nonzero (SUnlink (str "dd/dd/ffff")) "unlink dd/dd/ff failed" ;;
  unless s nonzero (SUnlink (str "dd/ff")) "unlink dd/ff failed" ;;
  unless s zero (SUnlink (str "dd")) "unlink non-empty dd succeeded!" ;;
  unless s negative (SUnlink (str "dd/dd")) "unlink dd/dd failed" ;;
  unless s negative (SUnlink (str "dd")) "unlink dd failed".

Definition subdir (buf s : list Z) : prog unit :=
  buf <- subdir_make buf s ;;
  subdir_walk buf s ;;
  subdir_refused s.

(** ** Large files *)

(** [for(sz = 499; sz < (MAXOPBLOCKS+2)*BSIZE; sz += 471)]: 26 rounds. *)
Definition bigwrite (buf s : list Z) : prog unit :=
  run (SUnlink (str "bigwrite")) ;;
  for_each 0 26 (fun k =>
    let sz := 499 + 471 * k in
    fd <- call (SOpen (str "bigwrite") O_CREATE_RDWR) ;;
    if fd <? 0 then fail s "cannot create bigwrite" else
    for_each 0 2 (fun _ =>
      cc <- write_buf fd buf sz ;;
      if negb (cc =? sz) then die ("%s: write(%d) ret %d" +:+ nl) [vs s; VInt sz; VInt cc] else URet tt) ;;
    run (SClose fd) ;;
    run (SUnlink (str "bigwrite"))).

(** [for(i = 0; ; i++)]: the bytes read. *)
Definition bigfile_read (n : nat) (fd : Z) (buf s : list Z) : prog Z :=
  loop n (fun '(buf, i, total) =>
    '(cc, buf) <- read_buf fd buf 300 ;;
    if cc <? 0 then fail s "read bigfile failed" else
    if cc =? 0 then URet (inr total) else
    if negb (cc =? 300) then fail s "short read bigfile" else
    b0 <- get buf 0 ;;
    b1 <- get buf 299 ;;
    if negb (b0 =? Z.quot i 2) || negb (b1 =? Z.quot i 2) then fail s "read bigfile wrong data" else
    URet (inl (buf, i32 (i + 1), i32 (total + cc)))) (buf, 0, 0).

Definition bigfile (n : nat) (buf s : list Z) : prog unit :=
  run (SUnlink (str "bigfile.dat")) ;;
  fd <- call (SOpen (str "bigfile.dat") O_CREATE_RDWR) ;;
  if fd <? 0 then die "%s: cannot create bigfile" [vs s] else
  buf <- for_range 0 20 (fun i buf =>
    buf <- fill buf i 600 ;;
    r <- write_buf fd buf 600 ;;
    if negb (r =? 600) then fail s "write bigfile failed" else
    URet buf) buf ;;
  run (SClose fd) ;;
  fd <- call (SOpen (str "bigfile.dat") 0) ;;
  if fd <? 0 then fail s "cannot open bigfile" else
  total <- bigfile_read n fd buf s ;;
  run (SClose fd) ;;
  if negb (total =? 20 * 600) then fail s "read bigfile wrong total" else
  run (SUnlink (str "bigfile.dat")).

(** ** Names *)

Definition fourteen (s : list Z) : prog unit :=
  unless s nonzero (SMkdir (str "12345678901234")) "mkdir 12345678901234 failed" ;;
  unless s nonzero (SMkdir (str "12345678901234/123456789012345")) "mkdir 12345678901234/123456789012345 failed" ;;
  fd <- call (SOpen (str "123456789012345/123456789012345/123456789012345") O_CREATE) ;;
  if fd <? 0 then fail s "create 123456789012345/123456789012345/123456789012345 failed" else
  run (SClose fd) ;;
  fd <- call (SOpen (str "12345678901234/12345678901234/12345678901234") 0) ;;
  if fd <? 0 then fail s "open 12345678901234/12345678901234/12345678901234 failed" else
  run (SClose fd) ;;
  unless s zero (SMkdir (str "12345678901234/12345678901234")) "mkdir 12345678901234/12345678901234 succeeded!" ;;
  unless s zero (SMkdir (str "123456789012345/12345678901234")) "mkdir 12345678901234/123456789012345 succeeded!" ;;
  run (SUnlink (str "123456789012345/12345678901234")) ;;
  run (SUnlink (str "12345678901234/12345678901234")) ;;
  run (SUnlink (str "12345678901234/12345678901234/12345678901234")) ;;
  run (SUnlink (str "123456789012345/123456789012345/123456789012345")) ;;
  run (SUnlink (str "12345678901234/123456789012345")) ;;
  run (SUnlink (str "12345678901234")).

Definition rmdot (s : list Z) : prog unit :=
  unless s nonzero (SMkdir (str "dots")) "mkdir dots failed" ;;
  unless s nonzero (SChdir (str "dots")) "chdir dots failed" ;;
  unless s zero (SUnlink (str ".")) "rm . worked!" ;;
  unless s zero (SUnlink (str "..")) "rm .. worked!" ;;
  unless s nonzero (SChdir (str "/")) "chdir / failed" ;;
  unless s zero (SUnlink (str "dots/.")) "unlink dots/. worked!" ;;
  unless s zero (SUnlink (str "dots/..")) "unlink dots/.. worked!" ;;
  unless s nonzero (SUnlink (str "dots")) "unlink dots failed!".

Definition dirfile (s : list Z) : prog unit :=
  fd <- call (SOpen (str "dirfile") O_CREATE) ;;
  if fd <? 0 then fail s "create dirfile failed" else
  run (SClose fd) ;;
  unless s zero (SChdir (str "dirfile")) "chdir dirfile succeeded!" ;;
  fd <- call (SOpen (str "dirfile/xx") 0) ;;
  if fd >=? 0 then fail s "create dirfile/xx succeeded!" else
  fd <- call (SOpen (str "dirfile/xx") O_CREATE) ;;
  if fd >=? 0 then fail s "create dirfile/xx succeeded!" else
  unless s zero (SMkdir (str "dirfile/xx")) "mkdir dirfile/xx succeeded!" ;;
  unless s zero (SUnlink (str "dirfile/xx")) "unlink dirfile/xx succeeded!" ;;
  unless s zero (SLink (str "README") (str "dirfile/xx")) "link to dirfile/xx succeeded!" ;;
  unless s nonzero (SUnlink (str "dirfile")) "unlink dirfile failed!" ;;
  fd <- call (SOpen (str ".") O_RDWR) ;;
  if fd >=? 0 then fail s "open . for writing succeeded!" else
  fd <- call (SOpen (str ".") 0) ;;
  r <- write_buf fd (lit "x") 1 ;;
  if r >? 0 then fail s "write . succeeded!" else
  run (SClose fd).

(** [fd = open(path, O_CREATE); if(fd >= 0) close(fd);] *)
Definition make_file (path : list Z) : prog unit :=
  fd <- call (SOpen path O_CREATE) ;;
  if fd >=? 0 then run (SClose fd) else URet tt.

Definition iref (s : list Z) : prog unit :=
  for_each 0 (NINODE + 1) (fun _ =>
    unless s nonzero (SMkdir (str "irefd")) "mkdir irefd failed" ;;
    unless s nonzero (SChdir (str "irefd")) "chdir irefd failed" ;;
    run (SMkdir []) ;;
    run (SLink (str "README") []) ;;
    make_file [] ;;
    make_file (str "xx") ;;
    run (SUnlink (str "xx"))) ;;
  for_each 0 (NINODE + 1) (fun _ =>
    run (SChdir (str "..")) ;;
    run (SUnlink (str "irefd"))) ;;
  run (SChdir (str "/")).

(** ** Memory *)

(** [for(n=0; n<N; n++)]: the number of children, and whether the loop went to its end. *)
Definition fork_children : prog Z :=
  '(n, _) <- for_range 0 1000 (fun _ '(n, failed) =>
    if (failed : bool) then URet (n, failed) else
    pid <- call SFork ;;
    if pid <? 0 then URet (n, true) else
    if pid =? 0 then UExit 0 else
    URet (n + 1, false)) (0, false) ;;
  URet n.

Definition forktest (s : list Z) : prog unit :=
  n <- fork_children ;;
  if n =? 0 then fail s "no fork at all!" else
  if n =? 1000 then fail s "fork claimed to work 1000 times!" else
  for_each 0 n (fun _ =>
    '(r, _) <- call SWait ;;
    if r <? 0 then fail s "wait stopped early" else URet tt) ;;
  '(r, _) <- call SWait ;;
  if negb (r =? -1) then fail s "wait got too many" else URet tt.

(** [for(b = a; b < e; b += PGSIZE) *b = 99;], with at most [n] pages. *)
Definition touch_pages (n : nat) (a e : Z) : prog unit :=
  loop n (fun b =>
    if b <? e then (store b 99 ;; URet (inl (u64 (b + 4096)))) else URet (inr tt)) a.

(** Five thousand times one byte: the end of the memory. *)
Definition sbrk_bytes (s : list Z) (a : Z) : prog Z :=
  for_range 0 5000 (fun i a =>
    b <- psbrk 1 ;;
    if negb (b =? a) then die ("%s: sbrk test failed %d %p %p" +:+ nl) [vs s; VInt i; VInt a; VInt b] else
    store b 1 ;;
    URet (u64 (b + 1))) a.

Definition sbrkbasic (n : nat) (s : list Z) : prog unit :=
  pid <- call SFork ;;
  if pid <? 0 then die ("fork failed in sbrkbasic" +:+ nl) [] else
  if pid =? 0 then
    a <- psbrk (1024 * 1024 * 1024) ;;
    if a =? SBRK_ERROR then UExit 0 else
    touch_pages n a (u64 (a + 1024 * 1024 * 1024)) ;;
    UExit 1
  else
  '(_, xstatus) <- call SWait ;;
  if xstatus =? 1 then fail s "too much memory allocated!" else
  a <- psbrk 0 ;;
  a <- sbrk_bytes s a ;;
  pid <- call SFork ;;
  if pid <? 0 then fail s "sbrk test fork failed" else
  c <- psbrk 1 ;;
  c <- psbrk 1 ;;
  if negb (c =? u64 (a + 1)) then fail s "sbrk test failed post-fork" else
  if pid =? 0 then UExit 0 else
  exit_as_child.

(** BIG is 100 * 1024 * 1024. *)
Definition sbrkmuch (s : list Z) : prog unit :=
  let lastaddr := 104857600 - 1 in
  oldbrk <- psbrk 0 ;;
  a <- psbrk 0 ;;
  let amt := u64 (104857600 - a) in
  p <- psbrk (i32 amt) ;;
  if negb (p =? a) then fail s "sbrk test failed to grow big address space; enough phys mem?" else
  store lastaddr 99 ;;
  a <- psbrk 0 ;;
  c <- psbrk (-4096) ;;
  if c =? SBRK_ERROR then fail s "sbrk could not deallocate" else
  c <- psbrk 0 ;;
  if negb (c =? u64 (a - 4096)) then
    die ("%s: sbrk deallocation produced wrong address, a %p c %p" +:+ nl) [vs s; VInt a; VInt c]
  else
  a <- psbrk 0 ;;
  c <- psbrk 4096 ;;
  same <- (if negb (c =? a) then URet false else (t <- psbrk 0 ;; URet (t =? u64 (a + 4096)))) ;;
  if negb same then die ("%s: sbrk re-allocation failed, a %p c %p" +:+ nl) [vs s; VInt a; VInt c] else
  v <- load lastaddr ;;
  if v =? 99 then fail s "sbrk de-allocation didn't really deallocate" else
  a <- psbrk 0 ;;
  t <- psbrk 0 ;;
  c <- psbrk (i32 (- (t - oldbrk))) ;;
  if negb (c =? a) then die ("%s: sbrk downsize failed, a %p c %p" +:+ nl) [vs s; VInt a; VInt c] else URet tt.

(** [wait(&xstatus); if(xstatus != -1) exit(1);]: the kernel has to kill the child. *)
Definition killed_child : prog unit :=
  '(_, xstatus) <- call SWait ;;
  if negb (xstatus =? -1) then UExit 1 else URet tt.

(** From KERNBASE, 40 addresses 50000 bytes apart. *)
Definition kernmem (s : list Z) : prog unit :=
  for_each 0 40 (fun k =>
    let a := KERNBASE + 50000 * k in
    pid <- must_fork s ;;
    if pid =? 0 then
      v <- load a ;;
      die ("%s: oops could read %p = %x" +:+ nl) [vs s; VInt a; VInt v]
    else killed_child).

(** [for( ; a != 0; a <<= 1)], from MAXVA = 2^38: 26 rounds. *)
Definition MAXVAplus (s : list Z) : prog unit :=
  for_each 0 26 (fun k =>
    let a := Z.shiftl MAXVA k in
    pid <- must_fork s ;;
    if pid =? 0 then
      store a 99 ;;
      die ("%s: oops wrote %p" +:+ nl) [vs s; VInt a]
    else killed_child).

(** The child of [sbrkfail]: it tells over the pipe whether its memory could grow, and waits to be killed. *)
Definition sbrkfail_child (n : nat) (fds1 : Z) : prog unit :=
  t <- psbrk 0 ;;
  a <- psbrk (i32 (u64 (104857600 - t))) ;;
  (if a =? SBRK_ERROR then write_buf fds1 (lit "0") 1 else write_buf fds1 (lit "1") 1) ;;
  sit_around n.

(** The first loop: the process ids, and [failed]; [scratch] is the byte the reads store into. *)
Definition sbrkfail_forks (n : nat) (fds0 fds1 : Z) (pids scratch : list Z) : prog (list Z * bool) :=
  '(pids, _, failed) <- for_range 0 10 (fun i '(pids, scratch, failed) =>
    pid <- call SFork ;;
    pids <- set_at pids i pid ;;
    (if pid =? 0 then sbrkfail_child n fds1 else URet tt) ;;
    pid <- get_at pids i ;;
    if pid =? -1 then URet (pids, scratch, failed) else
    '(_, scratch) <- read_buf fds0 scratch 1 ;;
    b <- get scratch 0 ;;
    URet (pids, scratch, if b =? 48 then true else failed)) (pids, scratch, false) ;;
  URet (pids, failed).

Definition sbrkfail (n : nat) (s : list Z) : prog unit :=
  scratch <- local 1 ;;
  pids <- local 10 ;;
  '(r, fds0, fds1) <- call SPipe ;;
  if negb (r =? 0) then fail s "pipe() failed" else
  '(pids, failed) <- sbrkfail_forks n fds0 fds1 pids scratch ;;
  (if negb failed then printf ("%s: no allocation failed; allocate more?" +:+ nl) [vs s] else URet tt) ;;
  c <- psbrk 4096 ;;
  for_each 0 10 (fun i =>
    pid <- get_at pids i ;;
    if pid =? -1 then URet tt else
    run (SKill pid) ;;
    run SWait) ;;
  if c =? SBRK_ERROR then fail s "failed sbrk leaked memory" else
  pid <- must_fork s ;;
  if pid =? 0 then
    a <- psbrk (10 * 104857600) ;;
    if a =? SBRK_ERROR then UExit 0 else
    die ("%s: allocate a lot of memory succeeded %d" +:+ nl) [vs s; VInt (10 * 104857600)]
  else
  '(_, xstatus) <- call SWait ;;
  if negb (xstatus =? 0) then UExit 1 else URet tt.

Definition sbrkarg (s : list Z) : prog unit :=
  a <- psbrk 4096 ;;
  fd <- call (SOpen (str "sbrk") O_CREATE_WR) ;;
  run (SUnlink (str "sbrk")) ;;
  if fd <? 0 then fail s "open sbrk failed" else
  n <- call (SWriteAt fd a 4096) ;;
  if n <? 0 then fail s "write sbrk failed" else
  run (SClose fd) ;;
  a <- psbrk 4096 ;;
  r <- call (SPipeAt a) ;;
  if negb (r =? 0) then fail s "pipe() failed" else URet tt.

(** [for(p = 0; p <= (uint)hi; p += PGSIZE)], with [hi = 1100*1024]: 276 rounds.  The first path is
    a string constant, at the address [nosuchfile]. *)
Definition validatetest (nosuchfile : Z) (s : list Z) : prog unit :=
  for_each 0 276 (fun k =>
    r <- call (SLinkAt nosuchfile (4096 * k)) ;;
    if negb (r =? -1) then fail s "link should not succeed" else URet tt).

Definition bsstest (uninit s : list Z) : prog unit :=
  for_each 0 10000 (fun i =>
    b <- get uninit i ;;
    if negb (b =? 0) then fail s "bss test failed" else URet tt).

(** [static char *args[MAXARG]] starts with null pointers. *)
Definition bigargtest (s : list Z) : prog unit :=
  run (SUnlink (str "bigarg-ok")) ;;
  pid <- call SFork ;;
  if pid =? 0 then
    big <- local 400 ;;
    big <- fill big 32 400 ;;
    big <- put big (400 - 1) 0 ;;
    big <- cstring big ;;
    args <- for_range 0 (MAXARG - 1) (fun i args => set_at args i (Some big)) (replicate (Z.to_nat MAXARG) None) ;;
    args <- set_at args (MAXARG - 1) None ;;
    args <- args_of args ;;
    run (SExec (str "echo") args) ;;
    fd <- call (SOpen (str "bigarg-ok") O_CREATE) ;;
    run (SClose fd) ;;
    UExit 0
  else if pid <? 0 then fail s "bigargtest: fork failed"
  else
  '(_, xstatus) <- call SWait ;;
  if negb (xstatus =? 0) then UExit xstatus else
  fd <- call (SOpen (str "bigarg-ok") 0) ;;
  if fd <? 0 then fail s "bigarg test failed!" else
  run (SClose fd).
