(* ===== verification/Umalloc.v ===== *)
(** * The user-level allocator: [umalloc.c]

    [malloc] and [free] on the byte memory of the process.  A block is a
    16-byte header, its [ptr] at offset 0 and its [size] in headers at offset
    8, and the bytes behind it.  The free blocks are a ring in the order of
    their addresses which starts at the static [base].

    [heap_inv] says which blocks are free and which are live; the theorems say
    that [malloc] hands out a block disjoint from the live ones, that [free]
    takes it back and merges it with its neighbours, that nothing is lost and
    that the bytes of the other live blocks do not change. *)

From S2P Require Import Prelude CString UserSys Ulib.
From stdpp Require Import base numbers strings gmap list sorting.
From Stdlib Require Import ZArith Lia.

#[local] Open Scope Z_scope.
#[local] Open Scope user_scope.

(** ** Headers *)

Definition ptr (m : memory) (a : Z) : Z := rd64 m a.
Definition size (m : memory) (a : Z) : Z := rdn 4 m (a + 8).
Definition setptr (m : memory) (a v : Z) : memory := wr64 m a v.
Definition setsize (m : memory) (a v : Z) : memory := wrn 4 m (a + 8) v.

(** The memory of the process and [freep]. *)
Record heap := mkheap { hmem : memory; freep : Z }.

(** ** The operations *)

Section umalloc.

(** The address of the static header [base]. *)
Variable base : Z.

(** [for(p = freep; ...; p = p->s.ptr)], at most [fuel] rounds. *)
Fixpoint free_loop (fuel : nat) (m : memory) (bp p : Z) : option Z :=
  match fuel with
  | O => None
  | S fuel =>
      if (bp >? p) && (bp <? ptr m p) then Some p
      else if (p >=? ptr m p) && ((bp >? p) || (bp <? ptr m p)) then Some p
      else free_loop fuel m bp (ptr m p)
  end.

(** The two merges: with the block above, then with the block below. *)
Definition join_upper (m : memory) (bp p : Z) : memory :=
  if bp + 16 * size m bp =? ptr m p then
    let m := setsize m bp (u32 (size m bp + size m (ptr m p))) in
    setptr m bp (ptr m (ptr m p))
  else setptr m bp (ptr m p).

Definition join_lower (m : memory) (bp p : Z) : memory :=
  if p + 16 * size m p =? bp then
    let m := setsize m p (u32 (size m p + size m bp)) in
    setptr m p (ptr m bp)
  else setptr m p bp.

Definition free (fuel : nat) (h : heap) (ap : Z) : option heap :=
  let bp := ap - 16 in
  match free_loop fuel (hmem h) bp (freep h) with
  | None => None
  | Some p => Some (mkheap (join_lower (join_upper (hmem h) bp p) bp p) p)
  end.

Definition morecore (fuel : nat) (h : heap) (nu : Z) : prog (Z * heap) :=
  let nu := if nu <? 4096 then 4096 else nu in
  p <- sbrk (i32 (nu * 16)) ;;
  if u64 p =? SBRK_ERROR then URet (0, h)
  else
  let hp := p in
  match free fuel (mkheap (setsize (hmem h) hp nu) (freep h)) (hp + 16) with
  | None => UBad "rounds"
  | Some h => URet (freep h, h)
  end.

(** [p->s.size >= nunits]: the whole block, or its tail. *)
Definition malloc_take (h : heap) (nunits prevp p : Z) : Z * heap :=
  let m := hmem h in
  if size m p =? nunits then (p + 16, mkheap (setptr m prevp (ptr m p)) prevp)
  else
    let m := setsize m p (u32 (size m p - nunits)) in
    let p := p + 16 * size m p in
    let m := setsize m p nunits in
    (p + 16, mkheap m prevp).

Fixpoint malloc_loop (rounds fuel : nat) (h : heap) (nunits prevp p : Z) : prog (Z * heap) :=
  match rounds with
  | O => UBad "rounds"
  | S rounds =>
      if size (hmem h) p >=? nunits then URet (malloc_take h nunits prevp p)
      else if p =? freep h then
        '(p, h) <- morecore fuel h nunits ;;
        if p =? 0 then URet (0, h)
        else malloc_loop rounds fuel h nunits p (ptr (hmem h) p)
      else malloc_loop rounds fuel h nunits p (ptr (hmem h) p)
  end.

(** [if((prevp = freep) == 0)]: the first call makes the ring of [base] alone. *)
Definition malloc_init (h : heap) : heap :=
  if freep h =? 0 then mkheap (setsize (setptr (hmem h) base base) base 0) base else h.

Definition malloc (rounds fuel : nat) (h : heap) (nbytes : Z) : prog (Z * heap) :=
  let nunits := u32 ((nbytes + 16 - 1) / 16 + 1) in
  let h := malloc_init h in
  malloc_loop rounds fuel h nunits (freep h) (ptr (hmem h) (freep h)).

End umalloc.

(** ** Lemmas: headers *)

(** Two headers at different places. *)
Definition far (a b : Z) : Prop := a + 16 <= b \/ b + 16 <= a.

Lemma ptr_setptr m a v : 0 <= v < 2 ^ 64 -> ptr (setptr m a v) a = v.
Proof. intros Hv. unfold ptr, setptr. rewrite rd64_wr64_eq. by apply u64_small. Qed.

Lemma size_setsize m a v : 0 <= v < 2 ^ 32 -> size (setsize m a v) a = v.
Proof. intros Hv. unfold size, setsize. rewrite rdn_wrn_eq. by apply Z.mod_small. Qed.

Lemma ptr_setsize m a v : ptr (setsize m a v) a = ptr m a.
Proof. unfold ptr, setsize. apply rdn_wrn_out. lia. Qed.

Lemma size_setptr m a v : size (setptr m a v) a = size m a.
Proof. unfold size, setptr. apply rdn_wrn_out. lia. Qed.

Lemma ptr_setptr_far m a v b : far a b -> ptr (setptr m a v) b = ptr m b.
Proof. unfold far. intros Hf. unfold ptr, setptr. apply rdn_wrn_out. lia. Qed.

Lemma ptr_setsize_far m a v b : far a b -> ptr (setsize m a v) b = ptr m b.
Proof. unfold far. intros Hf. unfold ptr, setsize. apply rdn_wrn_out. lia. Qed.

Lemma size_setptr_far m a v b : far a b -> size (setptr m a v) b = size m b.
Proof. unfold far. intros Hf. unfold size, setptr. apply rdn_wrn_out. lia. Qed.

Lemma size_setsize_far m a v b : far a b -> size (setsize m a v) b = size m b.
Proof. unfold far. intros Hf. unfold size, setsize. apply rdn_wrn_out. lia. Qed.

Lemma rd8_setptr m a v x : x < a \/ a + 16 <= x -> rd8 (setptr m a v) x = rd8 m x.
Proof. intros. apply rd8_wrn_out. lia. Qed.

Lemma rd8_setsize m a v x : x < a \/ a + 16 <= x -> rd8 (setsize m a v) x = rd8 m x.
Proof. intros. apply rd8_wrn_out. lia. Qed.

Create Rewrite HintDb header.
#[export] Hint Rewrite ptr_setptr size_setsize ptr_setsize size_setptr ptr_setptr_far ptr_setsize_far size_setptr_far size_setsize_far
  rd8_setptr rd8_setsize using (unfold far in *; lia) : header.

(** ** Blocks and the ring of free blocks *)

(** The address of a header and the number of headers it stands for. *)
Abbreviation block := (Z * Z)%type (only parsing).

Definition in_block (b : block) (x : Z) : Prop := fst b <= x < fst b + 16 * snd b.
Definition in_blocks (l : list block) (x : Z) : Prop := exists b, b ∈ l /\ in_block b x.

(** [b] ends below [c]; two free blocks do not touch. *)
Definition before (b c : block) : Prop := fst b + 16 <= fst c /\ fst b + 16 * snd b < fst c.
Definition apart (b c : block) : Prop := fst b + 16 * snd b <= fst c \/ fst c + 16 * snd c <= fst b.

Definition first (l : list block) (e : Z) : Z := match l with [] => e | b :: _ => fst b end.

(** The headers of [l] are linked in this order, the last one to [e]. *)
Fixpoint seg (m : memory) (l : list block) (e : Z) : Prop :=
  match l with
  | [] => True
  | b :: l => ptr m (fst b) = first l e /\ size m (fst b) = snd b /\ seg m l e
  end.

(** [fs] are the free blocks, [live] the blocks handed out, all between [base]
    and [top].  The bound on [top] keeps the sizes within 32 bits. *)
Record heap_inv (base : Z) (h : heap) (fs live : list block) (top : Z) : Prop := {
  hi_base : 0 < base /\ base + 16 <= top /\ top <= 2 ^ 36;
  hi_seg : seg (hmem h) ((base, 0) :: fs) base;
  hi_sorted : StronglySorted before ((base, 0) :: fs);
  hi_freep : exists n, (freep h, n) ∈ (base, 0) :: fs;
  hi_free : Forall (fun b => 1 <= snd b /\ fst b + 16 * snd b <= top) fs;
  hi_live : Forall (fun b => 1 <= snd b /\ base + 16 <= fst b /\ fst b + 16 * snd b <= top /\ size (hmem h) (fst b) = snd b) live;
  hi_live_apart : StronglySorted apart live;
  hi_apart : Forall (fun b => Forall (apart b) fs) live }.

Lemma hseg_app m l1 l2 e : seg m (l1 ++ l2) e <-> seg m l1 (first l2 e) /\ seg m l2 e.
Proof.
  induction l1 as [|b l1 IH]; cbn; [tauto|]. rewrite IH. assert (E : first (l1 ++ l2) e = first l1 (first l2 e)) by (by destruct l1). rewrite E. tauto.
Qed.

Lemma seg_ext m m' l e : Forall (fun b => ptr m' (fst b) = ptr m (fst b) /\ size m' (fst b) = size m (fst b)) l -> seg m l e -> seg m' l e.
Proof. induction 1 as [|b l [E1 E2] _ IH]; cbn; [done|]. rewrite E1, E2. intros (?&?&?). auto. Qed.

(** The ring as it is walked from the block [p]. *)
Lemma seg_rotate m l1 p l2 e : first (l1 ++ p :: l2) e = e -> seg m (l1 ++ p :: l2) e ->
  seg m (l2 ++ l1 ++ [p]) (first (l2 ++ l1 ++ [p]) e) /\ ptr m (fst p) = first (l2 ++ l1 ++ [p]) e.
Proof.
  intros He Hs. rewrite hseg_app in Hs. destruct Hs as [H1 H2]. cbn [first seg] in H1, H2. destruct H2 as (Hp&Hn&H2).
  assert (Ef : first (l2 ++ l1 ++ [p]) e = first l2 e) by (destruct l2; [destruct l1; cbn in *; congruence|done]).
  rewrite Ef. split; [|done]. rewrite !hseg_app. cbn [seg first].
  assert (Em : first (l1 ++ [p]) (first l2 e) = e) by (destruct l1; cbn in *; congruence). rewrite Em. by repeat split.
Qed.

(** ** Inserting a block in the sorted list of blocks *)

(** [b] goes behind [(p, pn)] in [xs ++ (p, pn) :: ys] and is merged with the
    block above, which leaves [(fst b, n1)] and [ys1], and with the block below. *)
Definition merged (b : block) (xs : list block) (p pn : Z) (ys bs' : list block) : Prop :=
  exists n1 ys1,
    ((ys1 = ys /\ n1 = snd b /\ Forall (fun y => fst b + 16 * snd b < fst y) ys) \/
     (exists y, ys = y :: ys1 /\ fst y = fst b + 16 * snd b /\ n1 = snd b + snd y)) /\
    ((p + 16 * pn < fst b /\ bs' = xs ++ (p, pn) :: (fst b, n1) :: ys1) \/
     (p + 16 * pn = fst b /\ bs' = xs ++ (p, pn + n1) :: ys1)).

Lemma in_blocks_app l1 l2 x : in_blocks (l1 ++ l2) x <-> in_blocks l1 x \/ in_blocks l2 x.
Proof. unfold in_blocks. set_solver. Qed.

Lemma in_blocks_cons c l x : in_blocks (c :: l) x <-> in_block c x \/ in_blocks l x.
Proof. unfold in_blocks. set_solver. Qed.

Section merged.
Context (b : block) (xs : list block) (p pn : Z) (ys bs' : list block).
Hypothesis Hm : merged b xs p pn ys bs'.
Hypothesis Hb : 1 <= snd b.
Hypothesis Hp : p + 16 <= fst b.

Lemma merged_sorted : StronglySorted before (xs ++ (p, pn) :: ys) -> StronglySorted before bs'.
Proof.
  rewrite StronglySorted_app, StronglySorted_cons, Forall_forall. intros (Hx&Sx&Hpy&Sy). destruct Hm as (n1&ys1&Hu&Hl).
  assert (S1 : StronglySorted before ys1 /\ Forall (before (fst b, n1)) ys1 /\ forall y, y ∈ ys1 -> y ∈ ys).
  { destruct Hu as [(->&->&Hf)|(y&->&Ey&->)].
    - split; [done|]. split; [|auto]. eapply Forall_impl; [exact Hf|]. intros y Hy. unfold before; cbn in *. lia.
    - apply StronglySorted_cons in Sy as [Hy Sy]. split; [done|]. split; [|by right]. eapply Forall_impl; [exact Hy|]. intros z [Hz1 Hz2]. unfold before; cbn. lia. }
  destruct S1 as (S1&F1&Hsub). rewrite Forall_forall in F1. destruct Hl as [[Hlt ->]|[Heq ->]].
  - rewrite StronglySorted_app, !StronglySorted_cons, !Forall_forall. split; [|split; [done|split; [|done]]].
    + intros x z Hxx Hz. pose proof (Hx x (p, pn) Hxx ltac:(left)) as [H1 H2]. cbn in H1, H2.
      apply elem_of_cons in Hz as [->|Hz]; [split; cbn; lia|]. apply elem_of_cons in Hz as [->|Hz]; [split; cbn; lia|].
      apply Hx; [done|]. right. auto.
    + intros z Hz. apply elem_of_cons in Hz as [->|Hz]; [split; cbn; lia|]. apply Hpy. auto.
  - rewrite StronglySorted_app, StronglySorted_cons, Forall_forall. split; [|split; [done|split; [|done]]].
    + intros x z Hxx Hz. apply elem_of_cons in Hz as [->|Hz].
      * pose proof (Hx x (p, pn) Hxx ltac:(left)) as [H1 H2]. split; cbn in *; lia.
      * apply Hx; [done|]. right. auto.
    + intros z Hz. pose proof (F1 z Hz) as [H1 H2]. split; cbn in *; lia.
Qed.

(** The merged list covers the same bytes and those of [b]. *)
Lemma merged_cells x : 0 <= pn -> Forall (fun c => 1 <= snd c) ys ->
  in_blocks bs' x <-> in_blocks (xs ++ (p, pn) :: ys) x \/ in_block b x.
Proof.
  intros Hpn Hys. destruct Hm as (n1&ys1&Hu&Hl). rewrite in_blocks_app, in_blocks_cons.
  assert (E : in_blocks ys x \/ in_block b x <-> in_block (fst b, n1) x \/ in_blocks ys1 x).
  { destruct Hu as [(->&->&Hf)|(y&->&Ey&->)]; [destruct b; cbn; tauto|]. rewrite in_blocks_cons. apply Forall_cons in Hys as [Hy _].
    assert (Ei : in_block (fst b, snd b + snd y) x <-> in_block y x \/ in_block b x) by (unfold in_block; cbn; lia). tauto. }
  assert (Hn1 : 1 <= n1) by (destruct Hu as [(_&->&_)|(y&->&_&->)]; [done|]; apply Forall_cons in Hys as [Hy _]; lia).
  destruct Hl as [[Hlt ->]|[Heq ->]]; rewrite in_blocks_app, !in_blocks_cons; [tauto|].
  assert (Ei : in_block (p, pn + n1) x <-> in_block (p, pn) x \/ in_block (fst b, n1) x) by (unfold in_block; cbn; lia). tauto.
Qed.

(** Every block of the merged list is an old one or has bytes, all below [top]. *)
Lemma merged_elem top c : 0 <= pn -> fst b + 16 * snd b <= top -> Forall (fun c => 1 <= snd c /\ fst c + 16 * snd c <= top) ys ->
  c ∈ bs' -> c ∈ xs ++ (p, pn) :: ys \/ (1 <= snd c /\ fst c + 16 * snd c <= top).
Proof.
  intros Hpn Htop Hy Hc. destruct Hm as (n1&ys1&Hu&Hl).
  assert (S1 : 1 <= n1 /\ fst b + 16 * n1 <= top /\ forall c, c ∈ ys1 -> c ∈ ys).
  { destruct Hu as [(->&->&_)|(y&->&Ey&->)]; [done|]. apply Forall_cons in Hy as [Hy _]. split; [lia|]. split; [lia|]. by right. }
  destruct S1 as (Sn&St&Sub). destruct Hl as [[Hlt ->]|[Heq ->]]; apply elem_of_app in Hc as [Hc|Hc]; try (left; set_solver);
    apply elem_of_cons in Hc as [->|Hc]; try (left; set_solver); [|right; cbn; lia].
  apply elem_of_cons in Hc as [->|Hc]; [right; cbn; lia|left; set_solver].
Qed.

Lemma merged_length : (length bs' <= S (length (xs ++ (p, pn) :: ys)))%nat.
Proof.
  destruct Hm as (n1&ys1&Hu&Hl). assert (length ys1 <= length ys)%nat by (destruct Hu as [(->&_)|(y&->&_)]; cbn; lia).
  destruct Hl as [[_ ->]|[_ ->]]; rewrite !length_app; cbn; lia.
Qed.

Lemma merged_contains : 0 <= pn -> Forall (fun c => 1 <= snd c) ys -> exists c, c ∈ bs' /\ snd b <= snd c.
Proof.
  intros Hpn Hys. destruct Hm as (n1&ys1&Hu&Hl).
  assert (snd b <= n1) by (destruct Hu as [(_&->&_)|(y&->&_&->)]; [lia|]; apply Forall_cons in Hys as [Hy _]; lia).
  destruct Hl as [[_ ->]|[_ ->]]; [exists (fst b, n1)|exists (p, pn + n1)]; (split; [set_solver|cbn; lia]).
Qed.
End merged.

(** ** [free] *)

(** Where the search of [free] ends. *)
Lemma free_loop_walk m bp p l e fuel : seg m l e -> p ∈ l.*1 -> (length l <= fuel)%nat ->
  (forall c, c ∈ l -> (bp >? fst c) && (bp <? ptr m (fst c)) || (fst c >=? ptr m (fst c)) && ((bp >? fst c) || (bp <? ptr m (fst c))) = bool_decide (fst c = p)) ->
  free_loop fuel m bp (first l e) = Some p.
Proof.
  revert fuel. induction l as [|c l IH]; intros fuel Hs Hp Hf Hc; [by apply elem_of_nil in Hp|]. destruct fuel as [|fuel]; [cbn in Hf; lia|].
  cbn [first free_loop]. pose proof (Hc c ltac:(left)) as E. cbn [seg] in Hs. destruct Hs as (Ep&_&Hs).
  case_bool_decide as Ec.
  - apply orb_true_iff in E as [->| ->]; [by rewrite Ec|]. case_match; by rewrite Ec.
  - apply orb_false_iff in E as [-> ->]. rewrite Ep. apply IH; [done| |cbn in Hf; lia|intros; apply Hc; by right].
    apply elem_of_cons in Hp as [->|Hp]; done.
Qed.

(** In the sorted ring it ends at the last block below [bp]. *)
Lemma free_stops m bp xs p pn ys base c :
  seg m (xs ++ (p, pn) :: ys) base -> StronglySorted before (xs ++ (p, pn) :: ys) ->
  Forall (fun c => base <= fst c) (xs ++ (p, pn) :: ys) -> base < bp -> p < bp -> Forall (fun y => bp < fst y) ys -> c ∈ xs ++ (p, pn) :: ys ->
  (bp >? fst c) && (bp <? ptr m (fst c)) || (fst c >=? ptr m (fst c)) && ((bp >? fst c) || (bp <? ptr m (fst c))) = bool_decide (fst c = p).
Proof.
  intros Hs So Hbase Hb Hp Hy Hc. apply hseg_app in Hs as [Hsx Hsy]. apply StronglySorted_app in So as (Sxy&Sx&Sy). apply StronglySorted_cons in Sy as [Spy Sy].
  rewrite Forall_forall in Hbase. cbn [seg first fst] in Hsx, Hsy. destruct Hsy as (Ep&_&Hsy).
  apply elem_of_app in Hc as [Hc|Hc]; [|apply elem_of_cons in Hc as [->|Hc]].
  - pose proof (Sxy c (p, pn) Hc ltac:(left)) as [Hcp _]. apply list_elem_of_split in Hc as (x1&x2&->). apply hseg_app in Hsx as [_ Hsx].
    destruct Hsx as (En&_&_). assert (Hn : fst c < ptr m (fst c) <= p).
    { rewrite En. destruct x2 as [|d x2]; cbn [first]; [cbn in Hcp; lia|]. apply StronglySorted_app in Sx as (_&_&Sx).
      apply StronglySorted_cons in Sx as [Sx _]. apply Forall_cons in Sx as [[Hcd _] _].
      pose proof (Sxy d (p, pn) ltac:(set_solver) ltac:(left)) as [Hdp _]. cbn in Hdp. lia. }
    rewrite bool_decide_false by lia. apply orb_false_iff. split; apply andb_false_iff; [right|left]; lia.
  - cbn [fst]. rewrite bool_decide_true by done. apply orb_true_iff. rewrite Ep. destruct ys as [|y ys]; cbn [first].
    + right. pose proof (Hbase (p, pn) ltac:(set_solver)) as Hbp. cbn in Hbp. rewrite andb_true_iff, orb_true_iff. lia.
    + left. apply Forall_cons in Hy as [Hy _]. rewrite andb_true_iff. lia.
  - rewrite Forall_forall in Hy. pose proof (Hy c Hc) as Hbc. rewrite bool_decide_false by lia.
    apply list_elem_of_split in Hc as (y1&y2&->). apply hseg_app in Hsy as [_ Hsy]. destruct Hsy as (En&_&_). apply orb_false_iff. split; apply andb_false_iff; [left; lia|].
    rewrite En. destruct y2 as [|d y2]; cbn [first]; [right; apply orb_false_iff; lia|]. left.
    apply StronglySorted_app in Sy as (_&_&Sy). apply StronglySorted_cons in Sy as [Sy _]. apply Forall_cons in Sy as [[Hcd _] _]. lia.
Qed.

(** The split of the sorted list at an address that no block covers. *)
Lemma sorted_split (l : list block) bp : l <> [] -> StronglySorted before l -> first l bp < bp ->
  exists xs p pn ys, l = xs ++ (p, pn) :: ys /\ p < bp /\ Forall (fun y => bp <= fst y) ys.
Proof.
  induction l as [|[a n] l IH]; intros Hne So Hf; [done|]. cbn in Hf. apply StronglySorted_cons in So as [Sa So].
  destruct l as [|[c k] l]; [by exists [], a, n, []|]. destruct (decide (c < bp)) as [Hc|Hc].
  - destruct IH as (xs&p&pn&ys&E&Hp&Hy); [done|done|done|]. exists ((a, n) :: xs), p, pn, ys. by rewrite E.
  - exists [], a, n, ((c, k) :: l). split; [done|]. split; [done|]. apply Forall_cons. split; [cbn; lia|].
    apply StronglySorted_cons in So as [Sc _]. eapply Forall_impl; [exact Sc|]. intros d [Hd _]. cbn in Hd. lia.
Qed.

Lemma join_rd8 m bp p x : ~ (bp <= x < bp + 16) -> ~ (p <= x < p + 16) -> rd8 (join_lower (join_upper m bp p) bp p) x = rd8 m x.
Proof.
  intros H1 H2. unfold join_lower, join_upper. repeat case_match; cbn zeta; by autorewrite with header.
Qed.
Section join.
Context (m : memory) (base bp n : Z) (xs : list block) (p pn : Z) (ys : list block).
Let ring := xs ++ (p, pn) :: ys.
Hypothesis Hseg : seg m ring base.
Hypothesis Hsorted : StronglySorted before ring.
Hypothesis Hbase : 0 < base < bp.
Hypothesis Hsize : size m bp = n.
Hypothesis Hn : 1 <= n /\ bp + 16 * n <= 2 ^ 36.
Hypothesis Hp : 0 < p /\ 0 <= pn /\ p + 16 <= bp /\ p + 16 * pn <= bp.
Hypothesis Hys : Forall (fun y => bp + 16 * n <= fst y /\ 1 <= snd y /\ fst y + 16 * snd y <= 2 ^ 36) ys.

Lemma join_far c : c ∈ xs ++ ys -> far p (fst c) /\ far bp (fst c).
Proof.
  intros Hc. apply StronglySorted_app in Hsorted as (Sxy&_&Sy). apply StronglySorted_cons in Sy as [Spy _]. rewrite Forall_forall in Spy, Hys.
  apply elem_of_app in Hc as [Hc|Hc].
  - pose proof (Sxy c (p, pn) Hc ltac:(left)) as [Hcp _]. cbn in Hcp. unfold far. lia.
  - pose proof (Spy c Hc) as [Hcp _]. pose proof (Hys c Hc). cbn in *. unfold far. lia.
Qed.

Lemma join_upper_ok : exists n1 ys1, let m1 := join_upper m bp p in
  ((ys1 = ys /\ n1 = n /\ Forall (fun y => bp + 16 * n < fst y) ys) \/ (exists y, ys = y :: ys1 /\ fst y = bp + 16 * n /\ n1 = n + snd y)) /\
  n1 < 2 ^ 32 /\ ptr m1 bp = first ys1 base /\ size m1 bp = n1 /\ seg m1 ys1 base /\ seg m1 xs p /\ ptr m1 p = ptr m p /\ size m1 p = pn /\
  0 < first ys1 base < 2 ^ 64.
Proof.
  unfold ring in *. apply hseg_app in Hseg as [Hsx Hsy]. cbn [seg first fst] in Hsx, Hsy. destruct Hsy as (Ep&En&Hsy).
  assert (Hfar : far bp p) by (unfold far; lia).
  assert (Hext : forall v w l, (forall c, c ∈ l -> c ∈ xs ++ ys) -> forall e, seg m l e -> seg (setptr (setsize m bp v) bp w) l e /\ seg (setptr m bp w) l e).
  { intros v w l Hl e Hs. assert (Hff : forall c, c ∈ l -> far bp (fst c)) by (intros c Hc; by apply join_far, Hl).
    split; (eapply seg_ext; [|exact Hs]; apply Forall_forall; intros c Hc; specialize (Hff c Hc); by autorewrite with header). }
  unfold join_upper. rewrite Hsize, Ep. destruct (Z.eqb_spec (bp + 16 * n) (first ys base)) as [E|Hne].
  - destruct ys as [|y ys1]; cbn [first] in *; [lia|]. apply Forall_cons in Hys as [Hy Hy1]. destruct Hsy as (Ey&Eyn&Hsy1).
    assert (Hnx : 0 < first ys1 base < 2 ^ 64) by (destruct ys1 as [|z ys1]; cbn [first]; [lia|]; apply Forall_cons in Hy1 as [Hz _]; lia).
    exists (n + snd y), ys1. rewrite Eyn, u32_small by lia. cbn zeta.
    assert (Hfy : far bp (fst y)) by (unfold far; lia).
    rewrite (ptr_setsize_far _ _ _ p), Ep, (ptr_setsize_far _ _ _ (fst y)), Ey by done. autorewrite with header.
    split; [right; by exists y|]. split; [lia|]. split; [done|]. split; [done|]. split; [|split; [|split; [done|split; [done|done]]]].
    + apply Hext; [set_solver|done].
    + apply Hext; [set_solver|done].
  - assert (Hnx : 0 < first ys base < 2 ^ 64) by (destruct ys as [|z ys1]; cbn [first]; [lia|]; apply Forall_cons in Hys as [Hz _]; lia).
    exists n, ys. cbn zeta. autorewrite with header. split; [left; split; [done|]; split; [done|]|].
    + destruct ys as [|y ys1]; [done|]. cbn [first] in Hne. apply Forall_cons in Hys as [Hy Hy1]. apply Forall_cons. split; [lia|].
      apply StronglySorted_app in Hsorted as (_&_&Sy). apply StronglySorted_cons in Sy as [_ Sy]. apply StronglySorted_cons in Sy as [Sy _].
      eapply Forall_impl; [exact Sy|]. intros z [Hz _]. lia.
    + split; [lia|]. split; [done|]. split; [done|]. split; [|split; [|split; [done|split; [done|done]]]].
      * apply (Hext 0); [set_solver|done].
      * apply (Hext 0); [set_solver|done].
Qed.

Lemma join_ok : exists ring', merged (bp, n) xs p pn ys ring' /\ seg (join_lower (join_upper m bp p) bp p) ring' base.
Proof.
  destruct join_upper_ok as (n1&ys1&Hu&Hn1&Eb&Ebn&Hsy&Hsx&Epp&Epn&Hnx). set (m1 := join_upper m bp p) in *. cbn zeta in *.
  assert (Hfar : far p bp) by (unfold far; lia).
  assert (Hsub : forall c, c ∈ xs ++ ys1 -> far p (fst c)) by (intros c Hc; apply join_far; destruct Hu as [(->&_)|(y&->&_)]; set_solver).
  assert (Hext : forall v w l, (forall c, c ∈ l -> c ∈ xs ++ ys1) -> forall e, seg m1 l e -> seg (setptr (setsize m1 p v) p w) l e /\ seg (setptr m1 p w) l e).
  { intros v w l Hl e Hs. assert (Hff : forall c, c ∈ l -> far p (fst c)) by (intros c Hc; by apply Hsub, Hl).
    split; (eapply seg_ext; [|exact Hs]; apply Forall_forall; intros c Hc; specialize (Hff c Hc); by autorewrite with header). }
  assert (Hn1' : n <= n1) by (destruct Hu as [(_&->&_)|(y&->&_&->)]; [lia|]; apply Forall_cons in Hys as [Hy _]; lia).
  unfold join_lower. rewrite Epn, Ebn. destruct (Z.eqb_spec (p + 16 * pn) bp) as [E|Hne].
  - exists (xs ++ (p, pn + n1) :: ys1). split; [exists n1, ys1; split; [exact Hu|]; right; split; [done|done]|].
    assert (pn + n1 < 2 ^ 32).
    { destruct Hu as [(_&->&_)|(y&->&Ey&->)]; [lia|]. apply Forall_cons in Hys as [Hy _]. cbn in Ey. lia. }
    rewrite u32_small by lia. apply hseg_app. cbn [seg first fst snd]. autorewrite with header. rewrite Eb. autorewrite with header.
    split; [apply Hext; [set_solver|done]|]. split; [done|]. split; [done|]. apply Hext; [set_solver|done].
  - exists (xs ++ (p, pn) :: (bp, n1) :: ys1). split; [exists n1, ys1; split; [exact Hu|]; left; split; [cbn; lia|done]|].
    apply hseg_app. cbn [seg first fst snd]. autorewrite with header. rewrite Eb, Ebn, Epn.
    split; [apply (Hext 0); [set_solver|done]|]. do 4 (split; [done|]). apply (Hext 0); [set_solver|done].
Qed.
End join.

Lemma seg_from m l1 p l2 e : first (l1 ++ p :: l2) e = e -> seg m (l1 ++ p :: l2) e -> seg m (p :: l2 ++ l1) (fst p).
Proof.
  intros He Hs. destruct (seg_rotate m l1 p l2 e He Hs) as [Hr Hp]. rewrite app_assoc, hseg_app in Hr. destruct Hr as [Hr1 Hr2]. cbn [first] in Hr1.
  apply hseg_app in Hs as [_ Hs]. cbn [seg] in Hs |- *. split; [|by split; [apply Hs|]].
  rewrite Hp. by destruct l2, l1.
Qed.

(** The ring of an invariant, split at an address above [base]. *)
Lemma heap_split base h fs live top bp : heap_inv base h fs live top -> base < bp ->
  exists xs p pn ys, (base, 0) :: fs = xs ++ (p, pn) :: ys /\ p < bp /\ Forall (fun y => bp <= fst y) ys /\ base <= p /\ 0 <= pn /\
    ((xs = [] /\ p = base /\ pn = 0 /\ ys = fs) \/ (exists xs', xs = (base, 0) :: xs' /\ fs = xs' ++ (p, pn) :: ys)).
Proof.
  intros I Hb. destruct (sorted_split ((base, 0) :: fs) bp) as (xs&p&pn&ys&E&Hp&Hy); [done|apply I|done|].
  exists xs, p, pn, ys. split; [done|]. split; [done|]. split; [done|]. destruct xs as [|c xs'].
  - cbn in E. injection E as E1 E2 E3. subst. split; [lia|]. split; [lia|]. left. done.
  - cbn in E. injection E as E1 E2. subst c fs. pose proof (hi_sorted _ _ _ _ _ I) as So. apply StronglySorted_cons in So as [So _].
    pose proof (hi_free _ _ _ _ _ I) as Hf. rewrite Forall_forall in So, Hf. pose proof (So (p, pn) ltac:(set_solver)) as [Hbp _].
    pose proof (Hf (p, pn) ltac:(set_solver)) as [Hpn _]. cbn in Hbp, Hpn. split; [lia|]. split; [lia|]. right. by exists xs'.
Qed.

Lemma size_of_bytes m m' a n : 1 <= n -> (forall x, in_block (a, n) x -> rd8 m' x = rd8 m x) -> size m' a = size m a.
Proof. intros Hn Hx. unfold size. apply rdn_ext. intros i Hi. apply Hx. unfold in_block. cbn. lia. Qed.

(** What [free] does with the block it is given. *)
Record freed (base : Z) (h h' : heap) (fs fs' live : list block) (b : block) (top : Z) : Prop := {
  fr_inv : heap_inv base h' fs' live top;
  fr_cells : forall x, in_blocks fs' x <-> in_blocks fs x \/ in_block b x;
  fr_live : forall c x, c ∈ live -> in_block c x -> rd8 (hmem h') x = rd8 (hmem h) x;
  fr_length : (length fs' <= S (length fs))%nat;
  fr_contains : exists c, c ∈ fs' /\ snd b <= snd c }.

Section free.
Context (base : Z) (h : heap) (fs live : list block) (bp n top : Z).
Hypothesis I : heap_inv base h fs ((bp, n) :: live) top.
Lemma free_block : 1 <= n /\ base + 16 <= bp /\ bp + 16 * n <= top /\ size (hmem h) bp = n /\ Forall (apart (bp, n)) fs /\ Forall (apart (bp, n)) live.
Proof.
  pose proof (hi_live _ _ _ _ _ I) as Hl. apply Forall_cons in Hl as [Hl _]. cbn in Hl. pose proof (hi_apart _ _ _ _ _ I) as Ha. apply Forall_cons in Ha as [Ha _].
  pose proof (hi_live_apart _ _ _ _ _ I) as Hla. apply StronglySorted_cons in Hla as [Hla _]. tauto.
Qed.

Context (xs : list block) (p pn : Z) (ys : list block).
Hypothesis Ering : (base, 0) :: fs = xs ++ (p, pn) :: ys.
Hypothesis Hpbp : p < bp.
Hypothesis Hys : Forall (fun y => bp <= fst y) ys.
Hypothesis Hpn : base <= p /\ 0 <= pn.
Hypothesis Hcase : (xs = [] /\ p = base /\ pn = 0 /\ ys = fs) \/ (exists xs', xs = (base, 0) :: xs' /\ fs = xs' ++ (p, pn) :: ys).

Lemma free_neighbours : p + 16 <= bp /\ p + 16 * pn <= bp /\ Forall (fun y => bp + 16 * n <= fst y /\ 1 <= snd y /\ fst y + 16 * snd y <= top) ys.
Proof.
  destruct free_block as (H1&H2&H3&_&Ha&_). pose proof (hi_free _ _ _ _ _ I) as Hf. rewrite Forall_forall in Ha, Hf, Hys.
  assert (Hy : Forall (fun y => bp + 16 * n <= fst y /\ 1 <= snd y /\ fst y + 16 * snd y <= top) ys).
  { apply Forall_forall. intros y Hy. assert (Hin : y ∈ fs) by (destruct Hcase as [(_&_&_&<-)|(xs'&_&->)]; set_solver).
    pose proof (Ha y Hin) as Hay. pose proof (Hf y Hin). pose proof (Hys y Hy). unfold apart in Hay. cbn in Hay. lia. }
  destruct Hcase as [(_&->&->&_)|(xs'&_&E)]; [split; [lia|split; [lia|done]]|].
  pose proof (Ha (p, pn) ltac:(rewrite E; set_solver)) as Hap. pose proof (Hf (p, pn) ltac:(rewrite E; set_solver)) as Hfp. unfold apart in Hap. cbn in Hap, Hfp.
  split; [lia|split; [lia|done]].
Qed.

Lemma free_search fuel : (length fs < fuel)%nat -> free_loop fuel (hmem h) bp (freep h) = Some p.
Proof.
  intros Hf. pose proof (hi_seg _ _ _ _ _ I) as Hs. pose proof (hi_sorted _ _ _ _ _ I) as So. destruct (hi_freep _ _ _ _ _ I) as [k Hk].
  destruct free_block as (Hn1&Hbb&_). destruct free_neighbours as (Hp1&Hp2&Hy2).
  assert (Hb : Forall (fun c => base <= fst c) ((base, 0) :: fs)).
  { apply Forall_cons. split; [done|]. apply StronglySorted_cons in So as [So' _]. eapply Forall_impl; [exact So'|]. intros c [Hc _]. cbn in Hc. lia. }
  apply list_elem_of_split in Hk as (l1&l2&Ek).
  assert (Hfrom : seg (hmem h) ((freep h, k) :: l2 ++ l1) (freep h)) by (apply (seg_from _ l1 (freep h, k) l2 base); rewrite <- Ek; done).
  assert (Hperm : forall c, c ∈ (freep h, k) :: l2 ++ l1 <-> c ∈ (base, 0) :: fs) by (rewrite Ek; set_solver).
  apply (free_loop_walk _ _ _ ((freep h, k) :: l2 ++ l1) (freep h)); [done| | |].
  - apply list_elem_of_fmap. exists (p, pn). split; [done|]. apply Hperm. rewrite Ering. set_solver.
  - assert (El : length ((base, 0) :: fs) = length (l1 ++ (freep h, k) :: l2)) by (by rewrite Ek). rewrite length_app in El. cbn in El |- *. rewrite length_app. lia.
  - intros c Hc. apply (free_stops _ _ xs p pn ys base); rewrite <- ?Ering; try done; try lia; [|by apply Hperm].
    eapply Forall_impl; [exact Hy2|]. cbn. intros y Hy. lia.
Qed.
End free.

Lemma in_blocks_base base fs x : in_blocks ((base, 0) :: fs) x <-> in_blocks fs x.
Proof. rewrite in_blocks_cons. unfold in_block. cbn. split; [intros [?|?]; [lia|done]|by right]. Qed.

(** The list that results starts with [base] again. *)
Lemma merged_base base fs xs p pn ys b ring' : merged b xs p pn ys ring' -> base + 16 <= fst b ->
  (xs = [] /\ p = base /\ pn = 0 /\ ys = fs) \/ (exists xs', xs = (base, 0) :: xs' /\ fs = xs' ++ (p, pn) :: ys) ->
  exists fs', ring' = (base, 0) :: fs'.
Proof.
  intros (n1&ys1&_&Hl) Hb [(->&->&->&_)|(xs'&->&_)].
  - destruct Hl as [[_ ->]|[E _]]; [cbn; by eexists|lia].
  - destruct Hl as [[_ ->]|[_ ->]]; cbn; by eexists.
Qed.

Lemma apart_sym b c : apart b c -> apart c b.
Proof. unfold apart. tauto. Qed.

(** Blocks apart from two pieces are apart from the free blocks these became. *)
Lemma apart_cells c fs : 1 <= snd c -> Forall (fun b => 1 <= snd b) fs -> (forall x, in_block c x -> ~ in_blocks fs x) -> Forall (apart c) fs.
Proof.
  intros Hc Hf Hx. apply Forall_forall. intros b Hb. rewrite Forall_forall in Hf. specialize (Hf b Hb). cbn in Hf.
  destruct (decide (apart c b)) as [?|Hn]; [done|]. exfalso. unfold apart in Hn.
  apply (Hx (Z.max (fst b) (fst c))); [|exists b; split; [done|]]; unfold in_block; lia.
Qed.

Lemma apart_disjoint c fs x : Forall (apart c) fs -> in_block c x -> ~ in_blocks fs x.
Proof.
  intros Ha Hx (b&Hb&Hbx). rewrite Forall_forall in Ha. specialize (Ha b Hb). unfold apart, in_block in *. lia.
Qed.

(** A byte of a live block is in no header of a free block and not in the block that is freed. *)
Lemma live_bytes base h fs live bp n top c x : heap_inv base h fs ((bp, n) :: live) top -> c ∈ live -> in_block c x ->
  ~ (bp <= x < bp + 16) /\ (forall b, b ∈ (base, 0) :: fs -> ~ (fst b <= x < fst b + 16)).
Proof.
  intros I Hc Hx. destruct (free_block _ _ _ _ _ _ _ I) as (Hn1&_&_&_&_&Hal). pose proof (hi_live _ _ _ _ _ I) as Hl. apply Forall_cons in Hl as [_ Hl].
  pose proof (hi_apart _ _ _ _ _ I) as Ha. apply Forall_cons in Ha as [_ Ha]. pose proof (hi_free _ _ _ _ _ I) as Hf. rewrite Forall_forall in Hal, Hl, Ha, Hf.
  specialize (Hal c Hc). specialize (Hl c Hc). specialize (Ha c Hc). unfold apart, in_block in *. cbn [fst snd] in *. split; [lia|].
  intros b Hb. apply elem_of_cons in Hb as [->|Hb]; [cbn; lia|]. rewrite Forall_forall in Ha. specialize (Ha b Hb). specialize (Hf b Hb). cbn in *. lia.
Qed.

(** The merged blocks other than [base] have bytes. *)
Lemma merged_free base fs xs p pn ys b fs' top : merged b xs p pn ys ((base, 0) :: fs') -> StronglySorted before ((base, 0) :: fs') ->
  (base, 0) :: fs = xs ++ (p, pn) :: ys -> 1 <= snd b -> p + 16 <= fst b -> fst b + 16 * snd b <= top -> 0 <= pn ->
  Forall (fun c => 1 <= snd c /\ fst c + 16 * snd c <= top) ys ->
  Forall (fun c => 1 <= snd c /\ fst c + 16 * snd c <= top) fs -> Forall (fun c => 1 <= snd c /\ fst c + 16 * snd c <= top) fs'.
Proof.
  intros Hm So Er Hb Hp Htop Hpn Hy Hf. apply StronglySorted_cons in So as [So _]. rewrite Forall_forall in So, Hf |- *. intros c Hc.
  destruct (merged_elem _ _ _ _ _ _ Hm Hb Hp top c) as [Hin|?]; [done|done|done|by right| |done]. rewrite <- Er in Hin.
  apply elem_of_cons in Hin as [->|Hin]; [|by apply Hf]. specialize (So _ Hc) as [H _]. cbn in H. lia.
Qed.

Lemma free_ok base h fs live bp n top fuel : heap_inv base h fs ((bp, n) :: live) top -> (length fs < fuel)%nat ->
  exists h' fs', free fuel h (bp + 16) = Some h' /\ freed base h h' fs fs' live (bp, n) top.
Proof.
  intros I Hf. destruct (free_block _ _ _ _ _ _ _ I) as (Hn1&Hbb&Htop&Hsz&Haf&Hal). pose proof (hi_base _ _ _ _ _ I) as Hbase.
  destruct (heap_split _ _ _ _ _ bp I) as (xs&p&pn&ys&Er&Hp&Hys&Hbp&Hpn&Hcase); [lia|].
  destruct (free_neighbours _ _ _ _ _ _ _ I xs p pn ys) as (Hp1&Hp2&Hy2); [done..|].
  destruct (join_ok (hmem h) base bp n xs p pn ys) as (ring'&Hm&Hs'); [rewrite <- Er; apply I|rewrite <- Er; apply I|lia|done|lia|lia| |].
  { eapply Forall_impl; [exact Hy2|]. cbn. lia. }
  destruct (merged_base _ _ _ _ _ _ _ _ Hm Hbb Hcase) as [fs' E']. subst ring'. set (m' := join_lower _ _ _) in *.
  assert (Hy1 : Forall (fun c => 1 <= snd c) ys) by (eapply Forall_impl; [exact Hy2|]; cbn; lia).
  exists (mkheap m' p), fs'. split.
  { unfold free. replace (bp + 16 - 16) with bp by lia. rewrite (free_search base h fs live bp n top I xs p pn ys); done. }
  assert (Hcells : forall x, in_blocks fs' x <-> in_blocks fs x \/ in_block (bp, n) x).
  { intros x. rewrite <- (in_blocks_base base fs'), <- (in_blocks_base base fs), Er. by apply (merged_cells (bp, n) xs p pn ys). }
  assert (Hbytes : forall c x, c ∈ live -> in_block c x -> rd8 m' x = rd8 (hmem h) x).
  { intros c x Hc Hx. destruct (live_bytes _ _ _ _ _ _ _ _ _ I Hc Hx) as [H1 H2]. apply join_rd8; [done|].
    destruct Hcase as [(_&->&_)|(xs'&_&->)]; [apply (H2 (base, 0)); set_solver|apply (H2 (p, pn)); set_solver]. }
  assert (So' : StronglySorted before ((base, 0) :: fs')) by (apply (merged_sorted _ _ _ _ _ _ Hm); [done|done|rewrite <- Er; apply I]).
  assert (Hfree' : Forall (fun b => 1 <= snd b /\ fst b + 16 * snd b <= top) fs').
  { apply (merged_free base fs xs p pn ys (bp, n)); try done; [|apply I]. eapply Forall_impl; [exact Hy2|]. cbn. lia. }
  split; cbn [hmem freep].
  - split; cbn [hmem freep]; [apply I|done|done| |done| |eapply StronglySorted_cons, (hi_live_apart _ _ _ _ _ I)|].
    + destruct Hm as (n1&ys1&_&[[_ ->]|[_ ->]]); [exists pn|exists (pn + n1)]; set_solver.
    + pose proof (hi_live _ _ _ _ _ I) as Hl. apply Forall_cons in Hl as [_ Hl]. rewrite Forall_forall in Hl |- *. intros c Hc. specialize (Hl c Hc).
      destruct c as [a k]. cbn [fst snd] in *. rewrite (size_of_bytes (hmem h) m' a k); [done|lia|]. intros x. by apply Hbytes.
    + pose proof (hi_live _ _ _ _ _ I) as Hl. apply Forall_cons in Hl as [_ Hl]. pose proof (hi_apart _ _ _ _ _ I) as Ha. apply Forall_cons in Ha as [_ Ha].
      rewrite Forall_forall in Hl, Ha, Hal |- *. intros c Hc. apply apart_cells; [apply Hl, Hc|eapply Forall_impl; [exact Hfree'|]; cbn; lia|].
      intros x Hx. rewrite Hcells. intros [Hi|Hi]; [by apply (apart_disjoint c fs x); [apply Ha|..]|].
      specialize (Hal c Hc). unfold apart, in_block in *. lia.
  - done.
  - done.
  - pose proof (merged_length _ _ _ _ _ _ Hm) as Hl. rewrite <- Er in Hl. cbn in Hl. lia.
  - destruct (merged_contains _ _ _ _ _ _ Hm) as (c&Hc&Hcn); [done..|]. exists c. split; [|done]. apply elem_of_cons in Hc as [->|Hc]; [cbn in Hcn; lia|done].
Qed.

(** ** [malloc] *)

(** [b], a part of a free block, becomes live. *)
Record taken (base : Z) (h h' : heap) (fs fs' live : list block) (b : block) (top : Z) : Prop := {
  tk_inv : heap_inv base h' fs' (b :: live) top;
  tk_cells : forall x, in_blocks fs' x \/ in_block b x <-> in_blocks fs x;
  tk_live : forall c x, c ∈ live -> in_block c x -> rd8 (hmem h') x = rd8 (hmem h) x }.

Lemma taken_intro base h h' fs fs' live b d top : heap_inv base h fs live top ->
  seg (hmem h') ((base, 0) :: fs') base -> StronglySorted before ((base, 0) :: fs') -> (exists n, (freep h', n) ∈ (base, 0) :: fs') ->
  (forall c, c ∈ fs' -> 1 <= snd c /\ exists e, e ∈ fs /\ fst c = fst e /\ snd c <= snd e) ->
  d ∈ fs -> fst d <= fst b -> fst b + 16 * snd b <= fst d + 16 * snd d -> 1 <= snd b -> Forall (apart b) fs' -> size (hmem h') (fst b) = snd b ->
  (forall x, in_blocks fs' x \/ in_block b x <-> in_blocks fs x) ->
  (forall x, ~ in_blocks fs x -> ~ (base <= x < base + 16) -> rd8 (hmem h') x = rd8 (hmem h) x) ->
  taken base h h' fs fs' live b top.
Proof.
  intros I Hs So Hfp Hsub Hd Hd1 Hd2 Hb Ha Hsz Hcells Hrd.
  pose proof (hi_free _ _ _ _ _ I) as Hf. pose proof (hi_live _ _ _ _ _ I) as Hl. pose proof (hi_apart _ _ _ _ _ I) as Hap. rewrite Forall_forall in Hf, Hl, Hap.
  assert (Hbytes : forall c x, c ∈ live -> in_block c x -> rd8 (hmem h') x = rd8 (hmem h) x).
  { intros c x Hc Hx. apply Hrd; [by apply (apart_disjoint c); [apply Hap|]|]. specialize (Hl c Hc). unfold in_block in Hx. lia. }
  assert (Hdb : base + 16 <= fst d).
  { pose proof (hi_sorted _ _ _ _ _ I) as S. apply StronglySorted_cons in S as [S _]. rewrite Forall_forall in S. apply (S d Hd). }
  assert (Hlb : forall c, c ∈ live -> apart b c).
  { intros c Hc. specialize (Hap c Hc). rewrite Forall_forall in Hap. specialize (Hap d Hd). unfold apart in *. lia. }
  specialize (Hf d Hd) as Hfd. split; [|done|done]. split; [apply I|done|done|done| | | |].
  - apply Forall_forall. intros c Hc. destruct (Hsub c Hc) as (Hc1&e&He&E1&E2). specialize (Hf e He). cbn in Hf. lia.
  - apply Forall_cons. split; [cbn in Hfd; split; [lia|split; [lia|split; [lia|done]]]|]. apply Forall_forall. intros [a k] Hc. specialize (Hl _ Hc). cbn [fst snd] in *.
    rewrite (size_of_bytes (hmem h) (hmem h') a k); [done|lia|]. intros x. by apply Hbytes.
  - apply StronglySorted_cons. split; [by apply Forall_forall|apply I].
  - apply Forall_cons. split; [done|]. apply Forall_forall. intros c Hc. apply Forall_forall. intros e He. destruct (Hsub e He) as (He1&e'&He'&E1&E2).
    specialize (Hap c Hc). rewrite Forall_forall in Hap. specialize (Hap e' He'). unfold apart in *. lia.
Qed.

Section take.
Context (base : Z) (h : heap) (fs live : list block) (top : Z).
Hypothesis I : heap_inv base h fs live top.
Context (prevp q p pn nunits : Z) (xs ys : list block).
Hypothesis Ering : (base, 0) :: fs = xs ++ (prevp, q) :: (p, pn) :: ys.
Hypothesis Hnu : 1 <= nunits <= pn.

Lemma take_facts : prevp + 16 <= p /\ 0 < prevp /\ (p, pn) ∈ fs /\ pn < 2 ^ 32 /\ 0 < first ys base < 2 ^ 64 /\ Forall (before (p, pn)) ys /\
  (forall c, c ∈ xs ++ ys -> far prevp (fst c) /\ far p (fst c) /\ (fst c + 16 <= p \/ p + 16 * pn < fst c)) /\
  (forall c, c ∈ xs ++ [(prevp, q)] -> before c (p, pn)).
Proof.
  pose proof (hi_sorted _ _ _ _ _ I) as So. pose proof (hi_free _ _ _ _ _ I) as Hf. pose proof (hi_base _ _ _ _ _ I) as Hb. rewrite Forall_forall in Hf.
  assert (Hin : forall c, c ∈ (p, pn) :: ys -> c ∈ fs) by (intros c Hc; destruct xs as [|x0 xs']; cbn in Ering; injection Ering as E1 E2; rewrite E2 || subst; set_solver).
  assert (Hbb : forall c, c ∈ (base, 0) :: fs -> base <= fst c).
  { pose proof So as So'. apply StronglySorted_cons in So' as [So' _]. rewrite Forall_forall in So'. intros c Hc. apply elem_of_cons in Hc as [->|Hc]; [done|].
    destruct (So' c Hc) as [H _]. cbn in H. lia. }
  pose proof (Hbb (prevp, q) ltac:(rewrite Ering; set_solver)) as Hbp. cbn in Hbp.
  pose proof (Hf (p, pn) (Hin _ ltac:(left))) as Hfp. cbn in Hfp.
  assert (Hy : forall y, y ∈ ys -> 0 < fst y < 2 ^ 64) by (intros y Hy; pose proof (Hf y (Hin y ltac:(by right))); pose proof (Hbb y ltac:(right; apply Hin; by right)); lia).
  rewrite Ering in So. apply StronglySorted_app in So as (Sx&_&So). apply StronglySorted_cons in So as [Spr So]. apply StronglySorted_cons in So as [Sp So].
  pose proof Spr as Spr'. apply Forall_cons in Spr' as [[Hpp _] _]. cbn in Hpp. rewrite Forall_forall in Spr. pose proof Sp as Sp'. rewrite Forall_forall in Sp'.
  split; [lia|]. split; [lia|]. split; [apply Hin; left|]. split; [lia|].
  split; [destruct ys as [|y ys']; cbn [first]; [lia|apply Hy; left]|]. split; [done|].
  split; intros c Hc; unfold far.
  - apply elem_of_app in Hc as [Hc|Hc].
    + pose proof (Sx c (prevp, q) Hc ltac:(left)) as [H1 _]. cbn in H1. lia.
    + pose proof (Sp' c Hc) as [H1 H2]. cbn in H1, H2. lia.
  - apply elem_of_app in Hc as [Hc|Hc]; [apply Sx; set_solver|]. apply list_elem_of_singleton in Hc as ->. apply Spr. left.
Qed.
(** The ring with another list behind the predecessor. *)
Lemma take_ring zs : exists fs', (base, 0) :: fs' = xs ++ (prevp, q) :: zs /\ (forall c, c ∈ fs' -> c ∈ fs \/ c ∈ zs) /\
  (forall c, c ∈ fs -> c ∈ fs' \/ c = (p, pn) \/ c ∈ ys).
Proof.
  destruct xs as [|x0 xs']; cbn in Ering; injection Ering as E1 E2.
  - subst. exists zs. split; [done|]. set_solver.
  - subst x0. exists (xs' ++ (prevp, q) :: zs). split; [done|]. rewrite E2. set_solver.
Qed.

Lemma take_in c : c ∈ (p, pn) :: ys -> c ∈ fs.
Proof. intros Hc. destruct xs as [|x0 xs']; cbn in Ering; [injection Ering as _ _ E2|injection Ering as _ E2]; rewrite E2; set_solver. Qed.

Lemma take_prev : prevp <> base -> (prevp, q) ∈ fs.
Proof. intros Hne. destruct xs as [|x0 xs']; cbn in Ering; [injection Ering as E1 _ _; congruence|injection Ering as _ E2]. rewrite E2. set_solver. Qed.

Lemma take_seg : seg (hmem h) xs prevp /\ ptr (hmem h) prevp = p /\ size (hmem h) prevp = q /\ ptr (hmem h) p = first ys base /\ size (hmem h) p = pn /\
  seg (hmem h) ys base.
Proof. pose proof (hi_seg _ _ _ _ _ I) as Hs. rewrite Ering in Hs. apply hseg_app in Hs as [Hs1 Hs2]. cbn in Hs1, Hs2. tauto. Qed.

Lemma take_sorted zs : StronglySorted before zs -> (forall z, z ∈ zs -> z ∈ ys \/ fst z = p) -> StronglySorted before (xs ++ (prevp, q) :: zs).
Proof.
  intros Sz Hz. pose proof (hi_sorted _ _ _ _ _ I) as So. rewrite Ering in So. apply StronglySorted_app in So as (Sx&Sxs&So). apply StronglySorted_cons in So as [Spr _].
  rewrite Forall_forall in Spr. assert (Hb : forall c z, z ∈ zs -> (forall y, y ∈ (p, pn) :: ys -> before c y) -> before c z).
  { intros c z Hin Hc. destruct (Hz z Hin) as [Hy|E]; [apply Hc; by right|]. pose proof (Hc (p, pn) ltac:(left)) as [H1 H2]. unfold before in *. cbn in *. lia. }
  apply StronglySorted_app. split; [|split; [done|]].
  - intros x z Hx Hin. apply elem_of_cons in Hin as [->|Hin]; [apply Sx; [done|left]|]. apply (Hb x z Hin). intros y Hy. apply Sx; [done|]. by right.
  - apply StronglySorted_cons. split; [|done]. apply Forall_forall. intros z Hin. by apply (Hb _ z Hin).
Qed.

Lemma take_whole : pn = nunits ->
  exists fs', taken base h (mkheap (setptr (hmem h) prevp (ptr (hmem h) p)) prevp) fs fs' live (p, nunits) top.
Proof.
  intros Epn. destruct take_facts as (H1&H2&Hin&H3&Hnx&Sp&Hfar&Hbef). destruct take_seg as (Gx&Gp&Gs&Gpp&Gps&Gy). destruct (take_ring ys) as (fs'&E'&Hsub&Hsup).
  pose proof (hi_sorted _ _ _ _ _ I) as So. pose proof (hi_free _ _ _ _ _ I) as Hf. rewrite Forall_forall in Hf, Sp.
  assert (Hext : forall l e v, (forall c, c ∈ l -> c ∈ xs ++ ys) -> seg (hmem h) l e -> seg (setptr (hmem h) prevp v) l e).
  { intros l e v Hl Hs. eapply seg_ext; [|exact Hs]. apply Forall_forall. intros c Hc. destruct (Hfar c (Hl c Hc)) as [Hc1 _]. by autorewrite with header. }
  assert (Sy : StronglySorted before ys) by (rewrite Ering in So; apply StronglySorted_app in So as (_&_&So); apply StronglySorted_cons in So as [_ So]; apply StronglySorted_cons in So as [_ So]; exact So).
  assert (So' : StronglySorted before ((base, 0) :: fs')) by (rewrite E'; apply take_sorted; [done|by left]).
  assert (Hin' : forall c, c ∈ fs' -> c ∈ xs ++ [(prevp, q)] \/ c ∈ ys) by (intros c Hc; assert (Hc2 : c ∈ (base, 0) :: fs') by (by right); rewrite E' in Hc2; set_solver).
  exists fs'. apply (taken_intro base h _ fs fs' live (p, nunits) (p, pn)); cbn [hmem freep fst snd]; try done; try lia.
  - rewrite E', Gpp. apply hseg_app. cbn [seg first fst snd]. autorewrite with header. split; [apply Hext; [set_solver|done]|]. split; [done|]. split; [done|].
    apply Hext; [set_solver|done].
  - exists q. rewrite E'. set_solver.
  - intros c Hc. assert (Hcf : c ∈ fs) by (destruct (Hsub c Hc) as [?|Hy]; [done|]; apply take_in; set_solver). split; [apply Hf, Hcf|]. exists c. split; [done|]. split; [done|lia].
  - apply Forall_forall. intros c Hc. unfold apart. cbn [fst snd]. destruct (Hin' c Hc) as [Hx|Hy]; [destruct (Hbef c Hx) as [? Hlt]; cbn in Hlt; lia|destruct (Sp c Hy) as [? Hlt]; cbn in Hlt; lia].
  - assert (far prevp p) by (unfold far; lia). autorewrite with header. lia.
  - intros x. rewrite <- (in_blocks_base base fs'), <- (in_blocks_base base fs), E', Ering, !in_blocks_app, !in_blocks_cons, <- Epn. tauto.
  - intros x Hx Hbx. apply rd8_setptr. destruct (decide (prevp = base)) as [E|Hne]; [subst; lia|].
    assert (Hpf : (prevp, q) ∈ fs) by (by apply take_prev). specialize (Hf _ Hpf). cbn in Hf. destruct (decide (prevp <= x < prevp + 16)); [|lia].
    exfalso. apply Hx. exists (prevp, q). split; [done|]. unfold in_block. cbn. lia.
Qed.

Lemma take_tail : nunits < pn -> let bp := p + 16 * (pn - nunits) in
  exists fs', taken base h (mkheap (setsize (setsize (hmem h) p (pn - nunits)) bp nunits) prevp) fs fs' live (bp, nunits) top.
Proof.
  intros Hlt bp. destruct take_facts as (H1&H2&Hin&H3&Hnx&Sp&Hfar&Hbef). destruct take_seg as (Gx&Gp&Gs&Gpp&Gps&Gy).
  destruct (take_ring ((p, pn - nunits) :: ys)) as (fs'&E'&Hsub&Hsup).
  pose proof (hi_sorted _ _ _ _ _ I) as So. pose proof (hi_free _ _ _ _ _ I) as Hf. rewrite Forall_forall in Hf. set (m' := setsize _ _ _).
  assert (Hbp : far bp p /\ far bp prevp /\ far p prevp) by (unfold far, bp; lia). destruct Hbp as (Hbp&Hbv&Hpv).
  assert (Hext : forall l e, (forall c, c ∈ l -> c ∈ xs ++ ys) -> seg (hmem h) l e -> seg m' l e).
  { intros l e Hl Hs. eapply seg_ext; [|exact Hs]. apply Forall_forall. intros c Hc. destruct (Hfar c (Hl c Hc)) as (_&Hc1&Hc2).
    assert (far bp (fst c)) by (unfold far, bp in *; lia). unfold m'. by autorewrite with header. }
  assert (Sz : StronglySorted before ((p, pn - nunits) :: ys)).
  { rewrite Ering in So. apply StronglySorted_app in So as (_&_&So). apply StronglySorted_cons in So as [_ So]. apply StronglySorted_cons in So as [_ So].
    apply StronglySorted_cons. split; [|done]. eapply Forall_impl; [exact Sp|]. intros y [Hy1 Hy2]. unfold before in *. cbn in *. lia. }
  assert (So' : StronglySorted before ((base, 0) :: fs')).
  { rewrite E'. apply take_sorted; [done|]. intros z Hz. apply elem_of_cons in Hz as [->|Hz]; [by right|by left]. }
  assert (Hin' : forall c, c ∈ fs' -> c ∈ xs ++ [(prevp, q)] \/ c = (p, pn - nunits) \/ c ∈ ys) by (intros c Hc; assert (Hc2 : c ∈ (base, 0) :: fs') by (by right); rewrite E' in Hc2; set_solver).
  rewrite Forall_forall in Sp. exists fs'. apply (taken_intro base h _ fs fs' live (bp, nunits) (p, pn)); cbn [hmem freep fst snd]; try done; try (unfold bp; lia).
  - rewrite E'. apply hseg_app. cbn [seg first fst snd]. split; [apply Hext; [set_solver|done]|]. unfold m' at 1 2 3 4. autorewrite with header. do 4 (split; [done|]). apply Hext; [set_solver|done].
  - exists q. rewrite E'. set_solver.
  - intros c Hc. destruct (Hsub c Hc) as [Hcf|Hy]; [split; [apply Hf, Hcf|]; exists c; split; [done|split; [done|lia]]|].
    apply elem_of_cons in Hy as [->|Hy]; [split; [cbn; lia|]; exists (p, pn); split; [done|split; [done|cbn; lia]]|].
    assert (Hcf : c ∈ fs) by (apply take_in; set_solver). split; [apply Hf, Hcf|]. exists c. split; [done|split; [done|lia]].
  - apply Forall_forall. intros c Hc. unfold apart, bp. cbn [fst snd].
    destruct (Hin' c Hc) as [Hx|[->|Hy]]; [destruct (Hbef c Hx) as [? Hl]; cbn in Hl; lia|cbn; lia|destruct (Sp c Hy) as [? Hl]; cbn in Hl; lia].
  - unfold m'. autorewrite with header. done.
  - intros x. rewrite <- (in_blocks_base base fs'), <- (in_blocks_base base fs), E', Ering, !in_blocks_app, !in_blocks_cons.
    assert (Ei : in_block (p, pn) x <-> in_block (p, pn - nunits) x \/ in_block (bp, nunits) x) by (unfold in_block, bp; cbn; lia). tauto.
  - intros x Hx _. assert (Hxp : ~ (p <= x < p + 16 * pn)) by (intros Hc; apply Hx; by exists (p, pn)). unfold m', bp. rewrite !rd8_setsize by lia. done.
Qed.

(** The block [malloc] selects. *)
Lemma malloc_take_ok : exists bp h' fs', malloc_take h nunits prevp p = (bp + 16, h') /\ freep h' = prevp /\ taken base h h' fs fs' live (bp, nunits) top.
Proof.
  destruct take_facts as (H1&H2&Hin&H3&_). destruct take_seg as (_&_&_&_&Gps&_). unfold malloc_take. rewrite Gps.
  destruct (Z.eqb_spec pn nunits) as [E|Hne].
  - destruct (take_whole E) as [fs' Ht]. by eexists p, _, fs'.
  - destruct take_tail as [fs' Ht]; [lia|]. cbn zeta. rewrite u32_small by lia. autorewrite with header. by eexists _, _, fs'.
Qed.
End take.

(** One walk around the ring finds a block, or comes back to [freep] where [morecore] is called. *)
Lemma malloc_walk h nunits fuel fn e l prevp r :
  seg (hmem h) (l ++ [(freep h, fn)]) e -> Forall (fun c => fst c <> freep h) l -> ptr (hmem h) prevp = first (l ++ [(freep h, fn)]) e ->
  let loop := malloc_loop (length l + S r) fuel h nunits prevp (first (l ++ [(freep h, fn)]) e) in
  (exists prevp' p, (prevp' = prevp \/ exists n, (prevp', n) ∈ l) /\ ptr (hmem h) prevp' = p /\ nunits <= size (hmem h) p /\ loop = URet (malloc_take h nunits prevp' p)) \/
  (Forall (fun c => snd c < nunits) (l ++ [(freep h, fn)]) /\
   loop = ('(p, h) <- morecore fuel h nunits ;; if p =? 0 then URet (0, h) else malloc_loop r fuel h nunits p (ptr (hmem h) p))).
Proof.
  revert prevp. induction l as [|[a n] l IH]; intros prevp Hs Hd Hp; cbn [app length Nat.add first fst malloc_loop seg] in *.
  - destruct Hs as (_&Hsz&_). cbn [fst snd] in Hsz. rewrite Hsz. destruct (Z.geb_spec fn nunits) as [Hge|Hlt].
    + left. exists prevp, (freep h). rewrite Hsz. auto.
    + right. rewrite Z.eqb_refl. split; [by apply Forall_singleton|done].
  - destruct Hs as (Ha&Hsz&Hs). cbn [fst snd] in Ha, Hsz. apply Forall_cons in Hd as [Hd1 Hd]. cbn [fst] in Hd1. rewrite Hsz.
    destruct (Z.geb_spec n nunits) as [Hge|Hlt].
    + left. exists prevp, a. rewrite Hsz. auto.
    + rewrite (proj2 (Z.eqb_neq _ _) Hd1), Ha. destruct (IH a Hs Hd Ha) as [(prevp'&p&Hin&Hpp&Hn&E)|[Hall E]].
      * left. exists prevp', p. rewrite E. split; [|done]. right. destruct Hin as [->|[k Hk]]; [exists n; left|exists k; by right].
      * right. rewrite E. split; [by apply Forall_cons|done].
Qed.

Lemma malloc_round base h fs live top nunits fuel r : heap_inv base h fs live top -> 1 <= nunits ->
  let loop := malloc_loop (S (length fs) + r) fuel h nunits (freep h) (ptr (hmem h) (freep h)) in
  (exists bp h' fs', loop = URet (bp + 16, h') /\ taken base h h' fs fs' live (bp, nunits) top) \/
  (Forall (fun c => snd c < nunits) fs /\
   loop = ('(p, h) <- morecore fuel h nunits ;; if p =? 0 then URet (0, h) else malloc_loop r fuel h nunits p (ptr (hmem h) p))).
Proof.
  intros I Hn. pose proof (hi_seg _ _ _ _ _ I) as Hs. pose proof (hi_sorted _ _ _ _ _ I) as So. destruct (hi_freep _ _ _ _ _ I) as [fn Hin].
  pose proof Hs as Hs0. cbn [seg fst snd] in Hs0. destruct Hs0 as (_&Hbs&_).
  apply list_elem_of_split in Hin as (l1&l2&Ek). rewrite Ek in Hs, So. destruct (seg_rotate _ _ _ _ base ltac:(by rewrite <- Ek) Hs) as [Hr Hp].
  set (l := l2 ++ l1). assert (El : l2 ++ l1 ++ [(freep h, fn)] = l ++ [(freep h, fn)]) by (unfold l; by rewrite <- app_assoc). rewrite El in Hr, Hp. cbn [fst] in Hp.
  assert (Hd : Forall (fun c => fst c <> freep h) l).
  { apply StronglySorted_app in So as (Sx&_&Sy). apply StronglySorted_cons in Sy as [Sy _]. rewrite Forall_forall in Sy. apply Forall_forall. intros c Hc.
    apply elem_of_app in Hc as [Hc|Hc]; [destruct (Sy c Hc) as [H _]|destruct (Sx c (freep h, fn) Hc ltac:(left)) as [H _]]; cbn in H; lia. }
  assert (Elen : length fs = length l) by (assert (E2 : length ((base, 0) :: fs) = length (l1 ++ (freep h, fn) :: l2)) by (by rewrite Ek); unfold l; rewrite length_app in *; cbn in E2; lia).
  assert (Hmem : forall c, c ∈ (base, 0) :: fs <-> c ∈ l ++ [(freep h, fn)]) by (rewrite Ek; unfold l; set_solver).
  rewrite Elen, Hp. replace (S (length l) + r)%nat with (length l + S r)%nat by lia.
  assert (Ef : first (l ++ [(freep h, fn)]) base = first (l ++ [(freep h, fn)]) (first (l ++ [(freep h, fn)]) base)) by (by destruct l).
  destruct (malloc_walk h nunits fuel fn _ l (freep h) r Hr Hd ltac:(by rewrite Hp, <- Ef)) as [(prevp&p&Hpi&Hpp&Hsz&E)|[Hall E]]; cbn zeta in E |- *; rewrite <- Ef in E.
  - left. assert (Hpi' : exists q, (prevp, q) ∈ (base, 0) :: fs) by (destruct Hpi as [->|[k Hk]]; [exists fn|exists k]; apply Hmem; set_solver).
    destruct Hpi' as [q Hq]. apply list_elem_of_split in Hq as (xs&ys&Er). assert (p <> base) by (intros ->; lia).
    assert (Hsr : seg (hmem h) (xs ++ (prevp, q) :: ys) base) by (rewrite <- Er; apply I). apply hseg_app in Hsr as [_ (Hn1&_&Hsy)]. cbn [fst] in Hn1.
    destruct ys as [|[p' pn] ys]; cbn [first fst] in Hn1; [congruence|]. assert (E3 : p' = p) by congruence. rewrite E3 in *. cbn [seg fst snd] in Hsy. destruct Hsy as (_&Hpn&_).
    destruct (malloc_take_ok base h fs live top I prevp q p pn nunits xs ys Er ltac:(lia)) as (bp&h'&fs'&Et&_&Ht). exists bp, h', fs'. split; [|done].
    etransitivity; [exact E|]. by rewrite Et.
  - right. split; [|exact E]. rewrite Forall_forall in Hall |- *. intros c Hc. apply Hall, Hmem. by right.
Qed.

(** Memory above [top] becomes a live block, whose size [morecore] sets. *)
Lemma heap_inv_grow base h fs live top nu : heap_inv base h fs live top -> 1 <= nu -> top + 16 * nu <= 2 ^ 36 ->
  heap_inv base (mkheap (setsize (hmem h) top nu) (freep h)) fs ((top, nu) :: live) (top + 16 * nu).
Proof.
  intros I Hn Ht. pose proof (hi_base _ _ _ _ _ I) as Hb. pose proof (hi_free _ _ _ _ _ I) as Hf. pose proof (hi_live _ _ _ _ _ I) as Hl.
  assert (Hfar : forall c, c ∈ (base, 0) :: fs -> far top (fst c)).
  { rewrite Forall_forall in Hf. intros c Hc. apply elem_of_cons in Hc as [->|Hc]; [unfold far; cbn; lia|]. specialize (Hf c Hc). unfold far. cbn in Hf. lia. }
  split; cbn [hmem freep]; [lia| |apply I|apply I| | | |].
  - eapply seg_ext; [|apply I]. apply Forall_forall. intros c Hc. specialize (Hfar c Hc). by autorewrite with header.
  - eapply Forall_impl; [exact Hf|]. cbn. lia.
  - apply Forall_cons. cbn [fst snd]. autorewrite with header. split; [lia|]. eapply Forall_impl; [exact Hl|]. cbn. intros c Hc.
    rewrite size_setsize_far by (unfold far; lia). lia.
  - apply StronglySorted_cons. split; [|apply I]. eapply Forall_impl; [exact Hl|]. unfold apart. cbn. lia.
  - apply Forall_cons. split; [|apply I]. eapply Forall_impl; [exact Hf|]. unfold apart. cbn. lia.
Qed.

Lemma heap_inv_freep base h fs live top : heap_inv base h fs live top -> 0 < freep h.
Proof.
  intros I. destruct (hi_freep _ _ _ _ _ I) as [n Hn]. pose proof (hi_base _ _ _ _ _ I). apply elem_of_cons in Hn as [E|Hn]; [injection E as -> _; lia|].
  pose proof (hi_sorted _ _ _ _ _ I) as S. apply StronglySorted_cons in S as [S _]. rewrite Forall_forall in S. destruct (S _ Hn) as [H1 _]. cbn in H1. lia.
Qed.

(** [freep] is 0 before the first call. *)
Definition heap_ok (base : Z) (h : heap) (fs live : list block) (top : Z) : Prop :=
  heap_inv base h fs live top \/ (freep h = 0 /\ fs = [] /\ live = [] /\ 0 < base /\ base + 16 <= top <= 2 ^ 36).

Lemma malloc_init_inv base h fs live top : heap_ok base h fs live top -> heap_inv base (malloc_init base h) fs live top.
Proof.
  intros [I|(E&->&->&Hb&Ht)]; unfold malloc_init.
  - pose proof (heap_inv_freep _ _ _ _ _ I) as Hp. by rewrite (proj2 (Z.eqb_neq _ _)) by lia.
  - rewrite E, Z.eqb_refl. split; cbn [hmem freep seg first fst snd]; try done.
    + rewrite ptr_setsize, ptr_setptr, size_setsize by lia. done.
    + apply StronglySorted_cons. split; [done|constructor].
    + exists 0. left.
    + constructor.
Qed.

Lemma malloc_init_live base h fs live top c x : heap_ok base h fs live top -> c ∈ live -> rd8 (hmem (malloc_init base h)) x = rd8 (hmem h) x.
Proof.
  intros [I|(_&_&->&_)] Hc; [|by apply elem_of_nil in Hc]. pose proof (heap_inv_freep _ _ _ _ _ I) as Hp. unfold malloc_init.
  by rewrite (proj2 (Z.eqb_neq _ _)) by lia.
Qed.

(** What [sbrk] does for a request of [n] bytes: it fails and changes nothing,
    or moves the end of the memory up and returns the old one.  Eager [sbrk]
    allocates physical pages, of which there are 128 MB. *)
Record sbrk_grows {W} (hd : handler W) (top : W -> Z) : Prop := {
  sg_limit : forall w, top w <= 2 ^ 36;
  sg_sbrk : forall w n, 0 <= n < 2 ^ 31 ->
    (exists w', hd _ (SSbrk n SBRK_EAGER) w = (-1, w') /\ top w' = top w) \/
    (exists w', hd _ (SSbrk n SBRK_EAGER) w = (top w, w') /\ top w' = top w + n) }.

(** What a call of [malloc] achieves: the block [b], or nothing. *)
Record allocated (base : Z) (h h' : heap) (fs fs' live : list block) (b : block) (top top' : Z) : Prop := {
  al_inv : heap_inv base h' fs' (b :: live) top';
  al_cells : forall x, in_blocks fs' x \/ in_block b x <-> in_blocks fs x \/ top <= x < top';
  al_live : forall c x, c ∈ live -> in_block c x -> rd8 (hmem h') x = rd8 (hmem h) x }.

Section malloc.
Context {W : Type} (hd : handler W) (top : W -> Z) (base : Z).
Hypothesis Hsbrk : sbrk_grows hd top.

Lemma morecore_exec h fs live nunits fuel w : heap_inv base h fs live (top w) -> 1 <= nunits -> nunits * 16 < 2 ^ 31 -> (length fs < fuel)%nat ->
  (exists w', exec hd (morecore fuel h nunits) w = (Returned (0, h), w') /\ top w' = top w) \/
  (exists h1 fs1 nu w', exec hd (morecore fuel h nunits) w = (Returned (freep h1, h1), w') /\ nunits <= nu /\ top w' = top w + 16 * nu /\
     freed base (mkheap (setsize (hmem h) (top w) nu) (freep h)) h1 fs fs1 live (top w, nu) (top w')).
Proof.
  intros I Hn Hb Hf. unfold morecore. set (nu := if nunits <? 4096 then 4096 else nunits).
  assert (Hnu : nunits <= nu /\ 1 <= nu /\ nu * 16 < 2 ^ 31) by (unfold nu; destruct (Z.ltb_spec nunits 4096); lia).
  rewrite i32_small by lia. cbn [sbrk exec ubind call]. unfold sbrk. cbn [exec ubind call]. pose proof (hi_base _ _ _ _ _ I) as Hbase.
  destruct (sg_sbrk _ _ Hsbrk w (nu * 16)) as [(w'&E&Et)|(w'&E&Et)]; [lia| |]; rewrite E.
  - left. exists w'. change (u64 (-1) =? SBRK_ERROR) with true. done.
  - right. pose proof (sg_limit _ _ Hsbrk w') as Hlim. rewrite (proj2 (Z.eqb_neq _ _)) by (rewrite u64_small by lia; unfold SBRK_ERROR; lia).
    assert (Et' : top w' = top w + 16 * nu) by lia.
    destruct (free_ok base (mkheap (setsize (hmem h) (top w) nu) (freep h)) fs live (top w) nu (top w') fuel) as (h1&fs1&E1&Hfr); [|done|].
    + rewrite Et'. apply heap_inv_grow; [done|lia|lia].
    + exists h1, fs1, nu, w'. rewrite E1. split; [done|]. split; [lia|]. split; [lia|]. done.
Qed.

Lemma malloc_loop_exec h fs live nunits rounds fuel w : heap_inv base h fs live (top w) -> 1 <= nunits -> nunits * 16 < 2 ^ 31 ->
  (2 * length fs + 3 <= rounds)%nat -> (length fs < fuel)%nat ->
  exists r h' w', exec hd (malloc_loop rounds fuel h nunits (freep h) (ptr (hmem h) (freep h))) w = (Returned (r, h'), w') /\
    ((r = 0 /\ h' = h /\ top w' = top w /\ Forall (fun c => snd c < nunits) fs) \/
     (exists fs', allocated base h h' fs fs' live (r - 16, nunits) (top w) (top w') /\ 0 < r)).
Proof.
  intros I Hn Hb Hr Hf. assert (Hpos : forall h' fs' live' bp t, heap_inv base h' fs' ((bp, nunits) :: live') t -> 0 < bp).
  { intros h' fs' live' bp t I'. pose proof (hi_base _ _ _ _ _ I'). pose proof (hi_live _ _ _ _ _ I') as Hl. apply Forall_cons in Hl as [Hl _]. cbn in Hl. lia. }
  replace rounds with (S (length fs) + (rounds - S (length fs)))%nat by lia. set (r := (rounds - S (length fs))%nat).
  destruct (malloc_round base h fs live (top w) nunits fuel r I Hn) as [(bp&h'&fs'&E&Ht)|[Hall E]]; cbn zeta in E; rewrite E; clear E.
  - exists (bp + 16), h', w. split; [done|]. right. exists fs'. replace (bp + 16 - 16) with bp by lia. split; [|pose proof (Hpos _ _ _ _ _ (tk_inv _ _ _ _ _ _ _ _ Ht)); lia].
    split; [apply Ht| |apply Ht]. intros x. rewrite (tk_cells _ _ _ _ _ _ _ _ Ht). split; [by left|intros [?|?]; [done|lia]].
  - rewrite exec_bind. destruct (morecore_exec h fs live nunits fuel w I Hn Hb Hf) as [(w'&E&Et)|(h1&fs1&nu&w'&E&Hnu&Et&Hfr)]; rewrite E; clear E.
    + exists 0, h, w'. split; [done|]. left. done.
    + pose proof (fr_inv _ _ _ _ _ _ _ _ Hfr) as I1. pose proof (heap_inv_freep _ _ _ _ _ I1) as Hfp. rewrite (proj2 (Z.eqb_neq (freep h1) 0)) by lia.
      pose proof (fr_length _ _ _ _ _ _ _ _ Hfr) as Hlen. replace r with (S (length fs1) + (r - S (length fs1)))%nat by (unfold r; lia).
      destruct (malloc_round base h1 fs1 live (top w') nunits fuel (r - S (length fs1)) I1 Hn) as [(bp&h'&fs'&E&Ht)|[Hall1 _]]; cbn zeta in *.
      * rewrite E. exists (bp + 16), h', w'. split; [done|]. right. exists fs'. replace (bp + 16 - 16) with bp by lia.
        split; [|pose proof (Hpos _ _ _ _ _ (tk_inv _ _ _ _ _ _ _ _ Ht)); lia]. split; [apply Ht| |].
        -- intros x. rewrite (tk_cells _ _ _ _ _ _ _ _ Ht), (fr_cells _ _ _ _ _ _ _ _ Hfr). unfold in_block. cbn. rewrite Et. done.
        -- intros c x Hc Hx. rewrite (tk_live _ _ _ _ _ _ _ _ Ht c x Hc Hx), (fr_live _ _ _ _ _ _ _ _ Hfr c x Hc Hx). cbn [hmem].
           apply rd8_setsize. pose proof (hi_live _ _ _ _ _ I) as Hl. rewrite Forall_forall in Hl. specialize (Hl c Hc). unfold in_block in Hx. lia.
      * destruct (fr_contains _ _ _ _ _ _ _ _ Hfr) as (c&Hc&Hcn). rewrite Forall_forall in Hall1. specialize (Hall1 c Hc). cbn in Hcn, Hall1. lia.
Qed.

End malloc.

(** ** Round trip *)

(** The free list is determined by the free bytes: blocks are sorted and never touch. *)
Lemma blocks_canonical l1 l2 : StronglySorted before l1 -> StronglySorted before l2 ->
  Forall (fun b => 1 <= snd b) l1 -> Forall (fun b => 1 <= snd b) l2 -> (forall x, in_blocks l1 x <-> in_blocks l2 x) -> l1 = l2.
Proof.
  assert (Hne : forall b l, 1 <= snd b -> (forall x, in_blocks [] x <-> in_blocks (b :: l) x) -> False).
  { intros b l Hb Hx. destruct (Hx (fst b)) as [_ H]. destruct H as (c&Hc&_); [|by apply elem_of_nil in Hc]. exists b. split; [left|]. unfold in_block. lia. }
  assert (Hhd : forall b c l1 l2, StronglySorted before (c :: l2) -> 1 <= snd b -> (forall x, in_blocks (b :: l1) x -> in_blocks (c :: l2) x) -> fst c <= fst b).
  { intros b c k1 k2 S Hb Hx. destruct (Hx (fst b)) as (d&Hd&Hdx); [exists b; split; [left|unfold in_block; lia]|]. apply StronglySorted_cons in S as [S _].
    rewrite Forall_forall in S. unfold in_block in Hdx. apply elem_of_cons in Hd as [->|Hd]; [lia|]. specialize (S d Hd) as [? _]. lia. }
  assert (Hsz : forall a n k l1 l2, StronglySorted before ((a, n) :: l1) -> 1 <= n -> (forall x, in_blocks ((a, k) :: l2) x -> in_blocks ((a, n) :: l1) x) -> k <= n).
  { intros a n k k1 k2 S Hn Hx. destruct (decide (k <= n)) as [?|Hlt]; [done|]. destruct (Hx (a + 16 * n)) as (d&Hd&Hdx); [exists (a, k); split; [left|unfold in_block; cbn; lia]|].
    apply StronglySorted_cons in S as [S _]. rewrite Forall_forall in S. unfold in_block in Hdx. apply elem_of_cons in Hd as [->|Hd]; [cbn in Hdx; lia|].
    specialize (S d Hd) as [_ H]. cbn in H. lia. }
  revert l2. induction l1 as [|[a n] l1 IH]; intros [|[c k] l2] S1 S2 F1 F2 Hx; [done| | |].
  - apply Forall_cons in F2 as [F2 _]. by destruct (Hne _ _ F2 Hx).
  - apply Forall_cons in F1 as [F1 _]. destruct (Hne _ _ F1 ltac:(intros x; symmetry; apply Hx)).
  - apply Forall_cons in F1 as [Fn F1]. apply Forall_cons in F2 as [Fk F2]. cbn in Fn, Fk.
    assert (Ea : a = c) by (pose proof (Hhd (a, n) (c, k) l1 l2 S2 Fn (fun x => proj1 (Hx x))); pose proof (Hhd (c, k) (a, n) l2 l1 S1 Fk (fun x => proj2 (Hx x))); cbn in *; lia). subst c.
    assert (En : n = k) by (pose proof (Hsz a n k l1 l2 S1 Fn (fun x => proj2 (Hx x))); pose proof (Hsz a k n l2 l1 S2 Fk (fun x => proj1 (Hx x))); lia). subst k.
    f_equal. apply StronglySorted_cons in S1 as [B1 S1]. apply StronglySorted_cons in S2 as [B2 S2]. apply IH; try done. intros x. rewrite Forall_forall in B1, B2.
    assert (Hout : forall l, (forall y, y ∈ l -> before (a, n) y) -> in_blocks l x -> ~ in_block (a, n) x).
    { intros l Hl (d&Hd&Hdx). destruct (Hl d Hd) as [_ H]. unfold in_block in *. cbn in *. lia. }
    pose proof (Hx x) as Hxx. rewrite !in_blocks_cons in Hxx. split; intros H; [pose proof (Hout l1 B1 H)|pose proof (Hout l2 B2 H)]; tauto.
Qed.

Lemma heap_inv_blocks base h fs live top : heap_inv base h fs live top -> StronglySorted before fs /\ Forall (fun b => 1 <= snd b) fs.
Proof.
  intros I. pose proof (hi_sorted _ _ _ _ _ I) as S. apply StronglySorted_cons in S as [_ S]. split; [done|].
  eapply Forall_impl; [apply (hi_free _ _ _ _ _ I)|]. cbn. lia.
Qed.

(** C36. [free] undoes [malloc]: a block that is allocated and freed again goes
    back to the free blocks and is merged with its neighbours.  The search
    ends, the bytes of the other blocks do not change, and when the memory of
    the process has not grown the list of free blocks is the one before the
    [malloc], block by block. *)
Theorem malloc_free_roundtrip {W} (hd : handler W) (top : W -> Z) base h fs live nbytes rounds fuel w r h1 w1 :
  sbrk_grows hd top -> heap_ok base h fs live (top w) -> 0 <= nbytes < 2 ^ 31 - 31 -> (2 * length fs + 3 <= rounds)%nat -> (length fs < fuel)%nat ->
  exec hd (malloc base rounds fuel h nbytes) w = (Returned (r, h1), w1) -> r <> 0 ->
  exists fuel2 h2 fs2, free fuel2 h1 r = Some h2 /\ heap_inv base h2 fs2 live (top w1) /\
    (forall x, in_blocks fs2 x <-> in_blocks fs x \/ top w <= x < top w1) /\ (top w1 = top w -> fs2 = fs) /\
    (forall c x, c ∈ live -> in_block c x -> rd8 (hmem h2) x = rd8 (hmem h) x).
Proof.
  intros Hs I Hn Hr Hf E Hne. pose proof (malloc_init_inv _ _ _ _ _ I) as I0. unfold malloc in E. set (nunits := u32 _) in E.
  assert (Hnu : nunits = (nbytes + 15) / 16 + 1) by (unfold nunits; rewrite u32_small by zlia; f_equal; f_equal; lia).
  destruct (malloc_loop_exec hd top base Hs _ _ _ nunits rounds fuel w I0) as (r'&h'&w'&E'&Hres); [zlia|zlia|done|done|].
  rewrite E' in E. injection E as -> -> ->. destruct Hres as [(?&_)|(fs1&Ha&Hr0)]; [done|].
  destruct (free_ok base h1 fs1 live (r - 16) nunits (top w1) (S (length fs1)) (al_inv _ _ _ _ _ _ _ _ _ Ha)) as (h2&fs2&E2&Hfr); [lia|].
  replace (r - 16 + 16) with r in E2 by lia. exists (S (length fs1)), h2, fs2.
  assert (Hc : forall x, in_blocks fs2 x <-> in_blocks fs x \/ top w <= x < top w1) by (intros x; rewrite (fr_cells _ _ _ _ _ _ _ _ Hfr); apply Ha).
  split; [done|]. split; [apply Hfr|]. split; [done|]. split.
  - intros Et. destruct (heap_inv_blocks _ _ _ _ _ (fr_inv _ _ _ _ _ _ _ _ Hfr)) as [S2 F2]. destruct (heap_inv_blocks _ _ _ _ _ I0) as [S0 F0].
    apply blocks_canonical; try done. intros x. rewrite Hc. split; [intros [?|?]; [done|lia]|by left].
  - intros c x Hcc Hx. rewrite (fr_live _ _ _ _ _ _ _ _ Hfr c x Hcc Hx), (al_live _ _ _ _ _ _ _ _ _ Ha c x Hcc Hx). by eapply malloc_init_live.
Qed.

(** ** An instance *)

Module MallocDemo.

(** A kernel that only knows [sbrk]: the state is the end of the memory. *)
Definition brk_handler : handler Z := fun X e =>
  match e in sys X return Z -> X * Z with
  | SSbrk n t => fun w => if w + n <=? 2 ^ 36 then (w, w + n) else (-1, w)
  | SRead fd n => fun w => ((-1, []), w)
  | SWait => fun w => ((-1, 0), w)
  | SPipe => fun w => ((-1, 0, 0), w)
  | SFstat fd => fun w => ((-1, mkustat 0 0 0 0 0), w)
  | MLoad a => fun w => (None, w)
  | MStore a v => fun w => (false, w)
  | MUninit n => fun w => (replicate (Z.to_nat n) 1, w)
  | _ => fun w => (-1, w)
  end.

Definition brk (w : Z) : Z := Z.min w (2 ^ 36).

Lemma brk_grows : sbrk_grows brk_handler brk.
Proof.
  split; [intros w; unfold brk; lia|]. intros w n Hn. unfold brk_handler, brk. destruct (Z.leb_spec (w + n) (2 ^ 36)); [right|left].
  - exists (w + n). split; [f_equal; lia|lia].
  - exists w. done.
Qed.

(** The first call of a program whose memory ends at 8192. *)
Definition fresh : heap := mkheap ∅ 0.

Lemma fresh_ok : heap_ok 4096 fresh [] [] (brk 8192).
Proof. right. unfold brk. cbn. repeat split; lia. Qed.


Definition first_call : uend (Z * heap) * Z := exec brk_handler (malloc 4096 3 1 fresh 100) 8192.

Definition result {A} (d : A) (e : uend A) : A := match e with Returned a => a | _ => d end.

Lemma malloc_free_roundtrip_witness : exists h1 fuel2 h2 fs2, first_call = (Returned (73616, h1), 73728) /\ free fuel2 h1 73616 = Some h2 /\
  heap_inv 4096 h2 fs2 [] 73728 /\ forall x, in_blocks fs2 x <-> 8192 <= x < 73728.
Proof.
  destruct (malloc_free_roundtrip brk_handler brk 4096 fresh [] [] 100 3 1 8192 73616 (snd (result (0, fresh) (fst first_call))) 73728
    brk_grows fresh_ok) as (fuel2&h2&fs2&E&I&Hc&_); [lia|cbn; lia|cbn; lia|vm_compute; reflexivity|lia|].
  exists (snd (result (0, fresh) (fst first_call))), fuel2, h2, fs2. split; [vm_compute; reflexivity|]. split; [exact E|]. split; [exact I|].
  intros x. split; intros H.
  - destruct (proj1 (Hc x) H) as [(b&Hb&_)|Hx]; [apply elem_of_nil in Hb; destruct Hb|exact Hx].
  - apply (proj2 (Hc x)). right. exact H.
Defined.

(** The size is passed to [sbrk] as an [int]: for 0xfffffff0 bytes 0 bytes are
    asked for, the end of the memory does not move, and [malloc] returns an
    address at the end of the memory all the same. *)
Lemma malloc_wraps : exists h1, exec brk_handler (malloc 4096 3 1 fresh 0xfffffff0) 8192 = (Returned (8192 + 16, h1), 8192).
Proof. eexists. vm_compute. reflexivity. Qed.

End MallocDemo.
