(* ===== verification/UserTestsD.v ===== *)
(** * [usertests.c]: wild pointers, lazily allocated memory, the slow tests and the driver *)

From S2P Require Import Prelude CString Fields Printf UserSys Ulib TestLib TestProgs Grind Riscv.
From S2P Require Import UserTestsA UserTestsB UserTestsC Umalloc.
From stdpp Require Import base numbers strings gmap list.
From Stdlib Require Import ZArith Lia.

#[local] Open Scope Z_scope.
#[local] Open Scope user_scope.

(** [*(char ** )a = v] and the like: the bytes one after the other. *)
Fixpoint store_bytes (a : Z) (bs : list Z) : prog unit :=
  match bs with
  | [] => URet tt
  | b :: bs => store a b ;; store_bytes (u64 (a + 1)) bs
  end.

Fixpoint load_bytes (n : nat) (a : Z) : prog (list Z) :=
  match n with
  | O => URet []
  | S n =>
      b <- load a ;;
      bs <- load_bytes n (u64 (a + 1)) ;;
      URet (b :: bs)
  end.

Definition store_int (a v : Z) : prog unit := store_bytes a (le_bytes 4 v).
Definition store_ptr (a v : Z) : prog unit := store_bytes a (le_bytes 8 v).
Definition load_ptr (a : Z) : prog Z := bs <- load_bytes 8 a ;; URet (le_val bs).

(** ** The file system runs out of blocks *)

(** [char name[64]] and its six bytes. *)
Definition fullname (nfiles : Z) : prog (list Z) :=
  name <- local 64 ;;
  name <- put name 0 102 ;;
  name <- put name 1 (48 + Z.quot nfiles 1000) ;;
  name <- put name 2 (48 + Z.quot (Z.rem nfiles 1000) 100) ;;
  name <- put name 3 (48 + Z.quot (Z.rem nfiles 100) 10) ;;
  name <- put name 4 (48 + Z.rem nfiles 10) ;;
  name <- put name 5 0 ;;
  cstring name.

(** [while(1)]: the bytes written to one file. *)
Definition fsfull_write (n : nat) (fd : Z) (buf : list Z) : prog Z :=
  loop n (fun total =>
    cc <- write_buf fd buf 1024 ;;
    if cc <? 1024 then URet (inr total) else URet (inl (i32 (total + cc)))) 0.

Definition fsfull (n : nat) (buf : list Z) : prog unit :=
  printf ("fsfull test" +:+ nl) [] ;;
  nfiles <- loop n (fun nfiles =>
    name <- fullname nfiles ;;
    printf ("writing %s" +:+ nl) [vs name] ;;
    fd <- call (SOpen name O_CREATE_RDWR) ;;
    if fd <? 0 then
      printf ("open %s failed" +:+ nl) [vs name] ;;
      URet (inr nfiles)
    else
    total <- fsfull_write n fd buf ;;
    printf ("wrote %d bytes" +:+ nl) [VInt total] ;;
    run (SClose fd) ;;
    if total =? 0 then URet (inr nfiles) else URet (inl (i32 (nfiles + 1)))) 0 ;;
  loop n (fun nfiles =>
    if nfiles >=? 0 then
      name <- fullname nfiles ;;
      run (SUnlink name) ;;
      URet (inl (i32 (nfiles - 1)))
    else URet (inr tt)) nfiles ;;
  printf ("fsfull test finished" +:+ nl) [].

(** ** Wild pointers *)

Definition argptest (s : list Z) : prog unit :=
  fd <- call (SOpen (str "init") O_RDONLY) ;;
  if fd <? 0 then fail s "open failed" else
  top <- psbrk 0 ;;
  run (SReadAt fd (u64 (top - 1)) (-1)) ;;
  run (SClose fd).

(** [sp] is the stack pointer; USERSTACK is 1. *)
Definition stacktest (sp : Z) (s : list Z) : prog unit :=
  pid <- call SFork ;;
  if pid =? 0 then
    v <- load (u64 (sp - 4096)) ;;
    die ("%s: stacktest: read below stack %d" +:+ nl) [vs s; VInt v]
  else if pid <? 0 then fail s "fork failed"
  else
  '(_, xstatus) <- call SWait ;;
  if xstatus =? -1 then UExit 0 else UExit xstatus.

Definition nowrite (s : list Z) : prog unit :=
  for_addrs (fun addr =>
    pid <- call SFork ;;
    if pid =? 0 then
      store_int addr 10 ;;
      printf ("%s: write to %p did not fail!" +:+ nl) [vs s; VInt addr] ;;
      UExit 0
    else if pid <? 0 then fail s "fork failed"
    else
    '(_, xstatus) <- call SWait ;;
    if xstatus =? 0 then UExit 1 else URet tt)
    [0; 0x80000000; 0x3fffffe000; 0x3ffffff000; 0x4000000000; 0xffffffffffffffff] ;;
  UExit 0.

Definition big : Z := 0xeaeb0b5b00002f5e.

(** [char *argv[1]]: a pointer that is not initialised is not null. *)
Definition pgbug (s : list Z) : prog unit :=
  argv <- set_at (replicate 1 (Some [])) 0 None ;;
  args <- args_of argv ;;
  run (SExecAt big args) ;;
  run (SPipeAt big) ;;
  UExit 0.

(** One of the three parts of [sbrkbugs]: a child that moves its break, and exits. *)
Definition sbrkbugs_child (move : prog unit) : prog unit :=
  pid <- call SFork ;;
  if pid <? 0 then die ("fork failed" +:+ nl) [] else
  if pid =? 0 then (move ;; UExit 0) else
  run SWait.

Definition sbrkbugs (s : list Z) : prog unit :=
  sbrkbugs_child (top <- psbrk 0 ;; psbrk (i32 (- i32 top)) ;; URet tt) ;;
  sbrkbugs_child (top <- psbrk 0 ;; psbrk (i32 (- (i32 (i32 top - 3500)))) ;; URet tt) ;;
  sbrkbugs_child (top <- psbrk 0 ;; psbrk (i32 (u64 (10 * 4096 + 2048 - top))) ;; psbrk (-10) ;; URet tt) ;;
  UExit 0.

Definition sbrklast (s : list Z) : prog unit :=
  top <- psbrk 0 ;;
  (if negb (top mod 4096 =? 0) then psbrk (4096 - top mod 4096) ;; URet tt else URet tt) ;;
  psbrk 4096 ;;
  psbrk 10 ;;
  psbrk (-20) ;;
  top <- psbrk 0 ;;
  let p := u64 (top - 64) in
  store p 120 ;;
  store (u64 (p + 1)) 0 ;;
  fd <- call (SOpenAt p (Z.lor O_RDWR O_CREATE)) ;;
  run (SWriteAt fd p 1) ;;
  run (SClose fd) ;;
  fd <- call (SOpenAt p O_RDWR) ;;
  store p 0 ;;
  run (SReadAt fd p 1) ;;
  v <- load p ;;
  if negb (v =? 120) then UExit 1 else URet tt.

Definition sbrk8000 (s : list Z) : prog unit :=
  psbrk (i32 0x80000004) ;;
  top <- psbrk 0 ;;
  v <- load (u64 (top - 1)) ;;
  store (u64 (top - 1)) (v + 1).

(** [char *argv[2]], here with the pointers as numbers. *)
Definition badarg (s : list Z) : prog unit :=
  for_each 0 50000 (fun _ =>
    let argv := replicate 2 (Some 1) in
    argv <- set_at argv 0 (Some 0xffffffff) ;;
    argv <- set_at argv 1 None ;;
    args <- args_of argv ;;
    run (SExecArgs (str "echo") args)) ;;
  UExit 0.

(** ** Lazily allocated memory *)

Definition REGION_SZ : Z := 1024 * 1024 * 1024.

Definition psbrklazy (n : Z) : prog Z :=
  a <- sbrklazy n ;;
  URet (u64 a).

(** [for (i = prev_end + PGSIZE; i < new_end; i += step)] *)
Definition for_region (n : nat) (prev_end step : Z) (body : Z -> prog unit) : prog unit :=
  loop n (fun i =>
    if i <? u64 (prev_end + REGION_SZ) then (body i ;; URet (inl (u64 (i + step)))) else URet (inr tt)) (u64 (prev_end + 4096)).

Definition lazy_alloc (n : nat) (s : list Z) : prog unit :=
  prev_end <- psbrklazy REGION_SZ ;;
  if prev_end =? SBRK_ERROR then die ("sbrklazy() failed" +:+ nl) [] else
  for_region n prev_end (64 * 4096) (fun i => store_ptr i i) ;;
  for_region n prev_end (64 * 4096) (fun i =>
    v <- load_ptr i ;;
    if negb (v =? i) then die ("failed to read value from memory" +:+ nl) [] else URet tt) ;;
  UExit 0.

Definition lazy_unmap (n : nat) (s : list Z) : prog unit :=
  prev_end <- psbrklazy REGION_SZ ;;
  if prev_end =? SBRK_ERROR then die ("sbrklazy() failed" +:+ nl) [] else
  for_region n prev_end (4096 * 4096) (fun i => store_ptr i i) ;;
  for_region n prev_end (4096 * 4096) (fun i =>
    pid <- call SFork ;;
    if pid <? 0 then die ("error forking" +:+ nl) [] else
    if pid =? 0 then
      psbrklazy (i32 (-1 * REGION_SZ)) ;;
      store_ptr i i ;;
      UExit 0
    else
    '(_, status) <- call SWait ;;
    if status =? 0 then die ("memory not unmapped" +:+ nl) [] else URet tt) ;;
  UExit 0.

Definition lazy_copy_addr (bad : Z) : prog unit :=
  fd <- call (SOpen (str "README") 0) ;;
  if fd <? 0 then die ("cannot open README" +:+ nl) [] else
  r <- call (SReadAt fd bad 512) ;;
  if r >=? 0 then die ("read succeeded" +:+ nl) [] else
  run (SClose fd) ;;
  fd <- call (SOpen (str "junk") (Z.lor O_CREATE_RDWR O_TRUNC)) ;;
  if fd <? 0 then die ("cannot open junk" +:+ nl) [] else
  r <- call (SWriteAt fd bad 512) ;;
  if r >=? 0 then die ("write succeeded" +:+ nl) [] else
  run (SClose fd).

Definition lazy_copy (s : list Z) : prog unit :=
  p <- psbrk 0 ;;
  psbrklazy (4 * 4096) ;;
  run (SOpenAt (u64 (p + 8192)) 0) ;;
  xx <- psbrk 0 ;;
  ret <- psbrk (i32 (u64 (- (xx + 1)))) ;;
  if negb (ret =? xx) then die ("sbrk(sbrk(0)+1) returned %p, not old sz" +:+ nl) [VInt ret] else
  for_addrs lazy_copy_addr [0x3fffffc000; 0x3fffffd000; 0x3fffffe000; 0x3ffffff000; 0x4000000000; 0x8000000000] ;;
  UExit 0.

(** [p < 0] for a pointer: never. *)
Definition below_zero (p : Z) : bool := u64 p <? 0.

(** [while ((uint64)p < MAXVA-(1<<30))] *)
Definition lazy_grow (n : nat) (p : Z) : prog Z :=
  loop n (fun p =>
    if p <? MAXVA - Z.shiftl 1 30 then
      p <- psbrklazy (Z.shiftl 1 30) ;;
      if below_zero p then die ("sbrklazy(%d) returned %p" +:+ nl) [VInt (Z.shiftl 1 30); VInt p] else
      p <- psbrklazy 0 ;;
      URet (inl p)
    else URet (inr p)) p.

Definition lazy_sbrk (n : nat) (s : list Z) : prog unit :=
  p <- psbrk 0 ;;
  p <- lazy_grow n p ;;
  let n := i32 (u64 (TRAPFRAME - 4096 - p)) in
  p1 <- psbrklazy n ;;
  if below_zero p1 || negb (p1 =? p) then
    die ("sbrklazy(%d) returned %p, not expected %p" +:+ nl) [VInt n; VInt p1; VInt p]
  else
  p <- psbrk 4096 ;;
  if below_zero p || negb (p =? TRAPFRAME - 4096) then
    die ("sbrk(%d) returned %p, not expected TRAPFRAME-PGSIZE" +:+ nl) [VInt 4096; VInt p]
  else
  store p 1 ;;
  v <- load (u64 (p + 1)) ;;
  if negb (v =? 0) then die ("sbrk() returned non-zero-filled memory" +:+ nl) [] else
  p <- psbrk 1 ;;
  if negb (p =? u64 (-1)) then die ("sbrk(1) returned %p, expected error" +:+ nl) [VInt p] else
  p <- psbrklazy 1 ;;
  if negb (p =? u64 (-1)) then die ("sbrklazy(1) returned %p, expected error" +:+ nl) [VInt p] else
  UExit 0.

(** ** The allocator of [umalloc.c] *)

(** The child of [mem]: all the memory as one list, freed, and a block once more. *)
Definition mem_child (rs fuel : nat) (base : Z) (h : heap) (s : list Z) : prog unit :=
  '(m1, h) <- loop rs (fun '(m1, h) =>
    '(m2, h) <- malloc base rs fuel h 10001 ;;
    if negb (m2 =? 0) then URet (inl (m2, mkheap (setptr (hmem h) m2 m1) (freep h))) else URet (inr (m1, h))) (0, h) ;;
  h <- loop rs (fun '(m1, h) =>
    if negb (m1 =? 0) then
      let m2 := ptr (hmem h) m1 in
      match free fuel h m1 with
      | None => UBad "rounds"
      | Some h => URet (inl (m2, h))
      end
    else URet (inr h)) (m1, h) ;;
  '(m1, h) <- malloc base rs fuel h (1024 * 20) ;;
  if m1 =? 0 then fail s "couldn't allocate mem?!!" else
  match free fuel h m1 with
  | None => UBad "rounds"
  | Some _ => UExit 0
  end.

Definition mem (rs fuel : nat) (base : Z) (h : heap) (s : list Z) : prog unit :=
  pid <- call SFork ;;
  if pid =? 0 then mem_child rs fuel base h s else
  '(_, xstatus) <- call SWait ;;
  if xstatus =? -1 then UExit 0 else UExit xstatus.

(** ** Tests that take a fair bit of time *)

(** [name[0] = 'x'; ... name[3] = '\0';], and the string in [name]. *)
Definition bdname (i : Z) (name : list Z) : prog (list Z * list Z) :=
  name <- put name 0 120 ;;
  name <- put name 1 (48 + Z.quot i 64) ;;
  name <- put name 2 (48 + Z.rem i 64) ;;
  name <- put name 3 0 ;;
  file <- cstring name ;;
  URet (name, file).

Definition bigdir (s : list Z) : prog unit :=
  name <- local 10 ;;
  run (SUnlink (str "bd")) ;;
  fd <- call (SOpen (str "bd") O_CREATE) ;;
  if fd <? 0 then fail s "bigdir create failed" else
  run (SClose fd) ;;
  name <- for_range 0 500 (fun i name =>
    '(name, file) <- bdname i name ;;
    r <- call (SLink (str "bd") file) ;;
    if negb (r =? 0) then die ("%s: bigdir i=%d link(bd, %s) failed" +:+ nl) [vs s; VInt i; vs file] else URet name) name ;;
  run (SUnlink (str "bd")) ;;
  for_range 0 500 (fun i name =>
    '(name, file) <- bdname i name ;;
    r <- call (SUnlink file) ;;
    if negb (r =? 0) then die "%s: bigdir unlink failed" [vs s] else URet name) name ;;
  URet tt.

Definition manywrites_child (ci : Z) (buf s : list Z) : prog unit :=
  name <- local 3 ;;
  name <- put name 0 98 ;;
  name <- put name 1 (97 + ci) ;;
  name <- put name 2 0 ;;
  name <- cstring name ;;
  run (SUnlink name) ;;
  for_each 0 30 (fun _ =>
    for_each 0 (ci + 1) (fun _ =>
      fd <- call (SOpen name O_CREATE_RDWR) ;;
      if fd <? 0 then die ("%s: cannot create %s" +:+ nl) [vs s; vs name] else
      cc <- write_buf fd buf BUFSZ ;;
      if negb (cc =? BUFSZ) then die ("%s: write(%d) ret %d" +:+ nl) [vs s; VInt BUFSZ; VInt cc] else
      run (SClose fd)) ;;
    run (SUnlink name)) ;;
  run (SUnlink name) ;;
  UExit 0.

Definition manywrites (buf s : list Z) : prog unit :=
  for_each 0 4 (fun ci =>
    pid <- call SFork ;;
    if pid <? 0 then die ("fork failed" +:+ nl) [] else
    if pid =? 0 then manywrites_child ci buf s else URet tt) ;;
  for_each 0 4 (fun _ =>
    '(_, st) <- call SWait ;;
    if negb (st =? 0) then UExit st else URet tt) ;;
  UExit 0.

Definition badwrite (s : list Z) : prog unit :=
  run (SUnlink (str "junk")) ;;
  for_each 0 600 (fun _ =>
    fd <- call (SOpen (str "junk") O_CREATE_WR) ;;
    if fd <? 0 then die ("open junk failed" +:+ nl) [] else
    run (SWriteAt fd 0xffffffffff 1) ;;
    run (SClose fd) ;;
    run (SUnlink (str "junk"))) ;;
  fd <- call (SOpen (str "junk") O_CREATE_WR) ;;
  if fd <? 0 then die ("open junk failed" +:+ nl) [] else
  r <- write_buf fd (lit "x") 1 ;;
  if negb (r =? 1) then die ("write failed" +:+ nl) [] else
  run (SClose fd) ;;
  run (SUnlink (str "junk")) ;;
  UExit 0.

(** [while(1)]: the child takes all of the memory. *)
Definition exhaust (n : nat) : prog unit :=
  loop n (fun _ =>
    a <- psbrk 4096 ;;
    if a =? SBRK_ERROR then URet (inr tt) else
    store (u64 (a + 4096 - 1)) 1 ;;
    URet (inl tt)) tt.

Definition execout (n : nat) (s : list Z) : prog unit :=
  for_each 0 15 (fun avail =>
    pid <- call SFork ;;
    if pid <? 0 then die ("fork failed" +:+ nl) [] else
    if pid =? 0 then
      exhaust n ;;
      for_each 0 avail (fun _ => psbrk (-4096) ;; URet tt) ;;
      run (SClose 1) ;;
      args <- args_of [Some (str "echo"); Some (str "x"); None] ;;
      run (SExec (str "echo") args) ;;
      UExit 0
    else run SWait) ;;
  UExit 0.

(** [char name[32]] and its bytes. *)
Definition bigname (fi : Z) : prog (list Z) :=
  name <- local 32 ;;
  name <- put name 0 98 ;;
  name <- put name 1 105 ;;
  name <- put name 2 103 ;;
  name <- put name 3 (48 + fi) ;;
  name <- put name 4 0 ;;
  cstring name.

Definition zzname (i : Z) : prog (list Z) :=
  name <- local 32 ;;
  name <- put name 0 122 ;;
  name <- put name 1 122 ;;
  name <- put name 2 (48 + Z.quot i 32) ;;
  name <- put name 3 (48 + Z.rem i 32) ;;
  name <- put name 4 0 ;;
  cstring name.

Definition O_CREATE_TRUNC : Z := Z.lor O_CREATE_RDWR O_TRUNC.

(** One file of MAXFILE = 268 blocks of an array that is not initialised: whether [done] is set. *)
Definition diskfull_file (s : list Z) (fi : Z) : prog bool :=
  name <- bigname fi ;;
  run (SUnlink name) ;;
  fd <- call (SOpen name O_CREATE_TRUNC) ;;
  if fd <? 0 then
    printf ("%s: could not create file %s" +:+ nl) [vs s; vs name] ;;
    URet true
  else
  full <- for_range 0 268 (fun _ full =>
    if (full : bool) then URet full else
    buf <- local 1024 ;;
    r <- write_buf fd buf 1024 ;;
    if negb (r =? 1024) then (run (SClose fd) ;; URet true) else URet false) false ;;
  run (SClose fd) ;;
  URet full.

(** [nzz] small files, until one cannot be created. *)
Definition zz_make (nzz : Z) : prog unit :=
  for_range 0 nzz (fun i stopped =>
    if (stopped : bool) then URet stopped else
    name <- zzname i ;;
    run (SUnlink name) ;;
    fd <- call (SOpen name O_CREATE_TRUNC) ;;
    if fd <? 0 then URet true else
    run (SClose fd) ;;
    URet false) false ;;
  URet tt.

Definition zz_remove (nzz : Z) : prog unit := for_each 0 nzz (fun i => name <- zzname i ;; run (SUnlink name)).

(** ['0' + fi < 0177]: 79 names. *)
Definition diskfull (s : list Z) : prog unit :=
  run (SUnlink (str "diskfulldir")) ;;
  for_range 0 79 (fun fi done => if (done : bool) then URet done else diskfull_file s fi) false ;;
  zz_make 128 ;;
  r <- call (SMkdir (str "diskfulldir")) ;;
  (if r =? 0 then printf ("%s: mkdir(diskfulldir) unexpectedly succeeded!" +:+ nl) [vs s] else URet tt) ;;
  run (SUnlink (str "diskfulldir")) ;;
  zz_remove 128 ;;
  for_each 0 79 (fun i => name <- bigname i ;; run (SUnlink name)).

Definition outofinodes (s : list Z) : prog unit :=
  zz_make (32 * 32) ;;
  zz_remove (32 * 32).
