(* ===== verification/UserTests.v ===== *)
(** * [usertests.c]: the tables of tests and the driver

    [main_verdict] shows when [usertests] exits with 0: exactly when every test gets a
    process and exits with 0 and no free page is lost. *)

From S2P Require Import Prelude CString Fields Printf UserSys Ulib TestLib TestProgs Grind Riscv.
From S2P Require Import UserTestsA UserTestsB UserTestsC Umalloc UserTestsD.
From stdpp Require Import base numbers strings gmap list.
From Stdlib Require Import ZArith Lia.

#[local] Open Scope Z_scope.
#[local] Open Scope user_scope.

(** What the tests find in their process: the arrays [buf] and [uninit], the stack pointer, the addresses of a string constant and of
    the header of the allocator, the heap; and the rounds of the loops. *)
Record image := mkimage {
  im_buf : list Z;
  im_uninit : list Z;
  im_sp : Z;
  im_nosuchfile : Z;
  im_base : Z;
  im_heap : heap;
  im_rounds : nat;
  im_fuel : nat;
}.

Record test := mktest { t_f : list Z -> prog unit; t_s : list Z }.

Definition quicktests (im : image) : list test :=
  let n := im_rounds im in
  let buf := im_buf im in
  [mktest copyin (str "copyin");
   mktest copyout (str "copyout");
   mktest copyinstr1 (str "copyinstr1");
   mktest copyinstr2 (str "copyinstr2");
   mktest (copyinstr3 n) (str "copyinstr3");
   mktest rwsbrk (str "rwsbrk");
   mktest truncate1 (str "truncate1");
   mktest truncate2 (str "truncate2");
   mktest truncate3 (str "truncate3");
   mktest openiputtest (str "openiput");
   mktest exitiputtest (str "exitiput");
   mktest iputtest (str "iput");
   mktest opentest (str "opentest");
   mktest (writetest buf) (str "writetest");
   mktest (writebig n buf) (str "writebig");
   mktest createtest (str "createtest");
   mktest dirtest (str "dirtest");
   mktest exectest (str "exectest");
   mktest (pipe1 n buf) (str "pipe1");
   mktest (killstatus n) (str "killstatus");
   mktest (preempt n buf) (str "preempt");
   mktest exitwait (str "exitwait");
   mktest reparent (str "reparent");
   mktest twochildren (str "twochildren");
   mktest forkfork (str "forkfork");
   mktest (forkforkfork n) (str "forkforkfork");
   mktest reparent2 (str "reparent2");
   mktest (mem n (im_fuel im) (im_base im) (im_heap im)) (str "mem");
   mktest (sharedfd n) (str "sharedfd");
   mktest (fourfiles n buf) (str "fourfiles");
   mktest createdelete (str "createdelete");
   mktest (unlinkread buf) (str "unlinkread");
   mktest (linktest buf) (str "linktest");
   mktest (concreate n) (str "concreate");
   mktest linkunlink (str "linkunlink");
   mktest (subdir buf) (str "subdir");
   mktest (bigwrite buf) (str "bigwrite");
   mktest (bigfile n buf) (str "bigfile");
   mktest fourteen (str "fourteen");
   mktest rmdot (str "rmdot");
   mktest dirfile (str "dirfile");
   mktest iref (str "iref");
   mktest forktest (str "forktest");
   mktest (sbrkbasic n) (str "sbrkbasic");
   mktest sbrkmuch (str "sbrkmuch");
   mktest kernmem (str "kernmem");
   mktest MAXVAplus (str "MAXVAplus");
   mktest (sbrkfail n) (str "sbrkfail");
   mktest sbrkarg (str "sbrkarg");
   mktest (validatetest (im_nosuchfile im)) (str "validatetest");
   mktest (bsstest (im_uninit im)) (str "bsstest");
   mktest bigargtest (str "bigargtest");
   mktest argptest (str "argptest");
   mktest (stacktest (im_sp im)) (str "stacktest");
   mktest nowrite (str "nowrite");
   mktest pgbug (str "pgbug");
   mktest sbrkbugs (str "sbrkbugs");
   mktest sbrklast (str "sbrklast");
   mktest sbrk8000 (str "sbrk8000");
   mktest badarg (str "badarg");
   mktest (lazy_alloc n) (str "lazy_alloc");
   mktest (lazy_unmap n) (str "lazy_unmap");
   mktest lazy_copy (str "lazy_copy");
   mktest (lazy_sbrk n) (str "lazy_sbrk")].

Definition slowtests (im : image) : list test :=
  [mktest bigdir (str "bigdir");
   mktest (manywrites (im_buf im)) (str "manywrites");
   mktest badwrite (str "badwrite");
   mktest (execout (im_rounds im)) (str "execout");
   mktest diskfull (str "diskfull");
   mktest outofinodes (str "outofinodes")].

(** [strcmp(s, t) == 0] *)
Definition same_string (s t : list Z) : bool :=
  bool_decide (strcmp (S (length s)) (nthd 0 s) (nthd 0 t) 0 = Some 0).

(** [run] of the source: a test in a process of its own, and whether it exits with 0. *)
Definition run_test (f : list Z -> prog unit) (s : list Z) : prog bool :=
  printf "test %s: " [vs s] ;;
  pid <- call SFork ;;
  if pid <? 0 then die ("runtest: fork error" +:+ nl) [] else
  if pid =? 0 then (f s ;; UExit 0) else
  '(_, xstatus) <- call SWait ;;
  (if negb (xstatus =? 0) then printf ("FAILED" +:+ nl) [] else printf ("OK" +:+ nl) []) ;;
  URet (xstatus =? 0).

(** [justone == 0 || strcmp(t->s, justone) == 0] *)
Definition wanted (justone : option (list Z)) (t : test) : bool :=
  match justone with None => true | Some j => same_string (t_s t) j end.

Fixpoint runtests_from (tests : list test) (justone : option (list Z)) (continuous ntests : Z) : prog Z :=
  match tests with
  | [] => URet ntests
  | t :: tests =>
      if wanted justone t then
        let ntests := ntests + 1 in
        ok <- run_test (t_f t) (t_s t) ;;
        if negb ok && negb (continuous =? 2) then
          printf ("SOME TESTS FAILED" +:+ nl) [] ;;
          URet (-1)
        else runtests_from tests justone continuous ntests
      else runtests_from tests justone continuous ntests
  end.

Definition runtests (tests : list test) (justone : option (list Z)) (continuous : Z) : prog Z :=
  runtests_from tests justone continuous 0.

Definition countfree (n : nat) : prog Z :=
  sz0 <- psbrk 0 ;;
  pages <- loop n (fun pages =>
    a <- psbrk 4096 ;;
    if a =? SBRK_ERROR then URet (inr pages) else URet (inl (i32 (pages + 1)))) 0 ;;
  sz <- psbrk 0 ;;
  psbrk (i32 (u64 (- (sz - sz0)))) ;;
  URet pages.

(** The second half of a round, with [ntests]: [Some 1] for [return 1]. *)
Definition drive_slow (im : image) (continuous : Z) (justone : option (list Z)) (quick : bool) (ntests : Z) : prog (option Z) :=
  if quick then URet (Some ntests) else
  match justone with None => printf ("usertests slow tests starting" +:+ nl) [] | Some _ => URet tt end ;;
  n <- runtests (slowtests im) justone continuous ;;
  if n <? 0 then URet (if negb (continuous =? 2) then None else Some ntests)
  else URet (Some (ntests + n)).

(** What a round ends with: the free pages compared, and whether a test was run. *)
Definition drive_end (n : nat) (continuous : Z) (justone : option (list Z)) (free0 ntests : Z) : prog bool :=
  free1 <- countfree n ;;
  lost <- (if free1 <? free0 then
      printf ("FAILED -- lost some free pages %d (out of %d)" +:+ nl) [VInt free1; VInt free0] ;;
      URet (negb (continuous =? 2))
    else URet false) ;;
  if (lost : bool) then URet false else
  match justone with
  | Some _ => if ntests =? 0 then (printf ("NO TESTS EXECUTED" +:+ nl) [] ;; URet false) else URet true
  | None => URet true
  end.

(** One round of the loop: [false] for [return 1]. *)
Definition drive_round (im : image) (quick : bool) (continuous : Z) (justone : option (list Z)) : prog bool :=
  printf ("usertests starting" +:+ nl) [] ;;
  free0 <- countfree (im_rounds im) ;;
  n <- runtests (quicktests im) justone continuous ;;
  if (n <? 0) && negb (continuous =? 2) then URet false else
  let ntests := if n <? 0 then 0 else n in
  o <- drive_slow im continuous justone quick ntests ;;
  match o with
  | None => URet false
  | Some ntests => drive_end (im_rounds im) continuous justone free0 ntests
  end.

(** [do { ... } while(continuous);] *)
Definition drivetests (im : image) (quick : bool) (continuous : Z) (justone : option (list Z)) : prog Z :=
  loop (im_rounds im) (fun _ =>
    ok <- drive_round im quick continuous justone ;;
    if negb ok then URet (inr 1) else
    if negb (continuous =? 0) then URet (inl tt) else URet (inr 0)) tt.

(** [main]; [args] is [argv] without the name of the program. *)
Definition usertests_main (im : image) (args : list (list Z)) : prog Z :=
  let go := fun quick continuous justone =>
    r <- drivetests im quick continuous justone ;;
    if negb (r =? 0) then UExit 1 else
    printf ("ALL TESTS PASSED" +:+ nl) [] ;;
    UExit 0 in
  match args with
  | [] => go false 0 None
  | [a] =>
      if same_string a (str "-q") then go true 0 None
      else if same_string a (str "-c") then go false 1 None
      else if same_string a (str "-C") then go false 2 None
      else if negb (nthd 0 a 0 =? 45) then go false 0 (Some a)
      else die ("Usage: usertests [-c] [-C] [-q] [testname]" +:+ nl) []
  | _ => die ("Usage: usertests [-c] [-C] [-q] [testname]" +:+ nl) []
  end.

(** ** The verdict of the driver *)

(** What becomes of a test: there is no process for it, or it exits with [s] and leaves [p] pages. *)
Inductive fate := NoProcess | Exits (s : Z) (p : nat).

Definition ok_fate (x : fate) : bool := match x with NoProcess => false | Exits s _ => s =? 0 end.
Definition pages_left (x : fate) : nat := match x with NoProcess => 0 | Exits _ p => p end.

(** What the driver sees of the kernel: how often it called [fork]; the child that was not waited for;
    how many calls of [sbrk(4096)] will succeed; the break; and how many of the pages below the break
    the driver got from such calls. *)
Record tview := mkview { v_forks : nat; v_child : option (Z * nat); v_pages : nat; v_brk : Z; v_grown : nat }.

(** A kernel that runs the driver, where call [i] of [fork] has the outcome [f i]: [fork] fails or
    gives a child, [wait] returns the child's status, and while there is no child [sbrk] takes the pages
    that are left one by one, refuses when there are none, and takes back what it gave. *)
Record test_kernel {W} (h : handler W) (f : nat -> fate) (view : W -> tview) : Prop := {
  tk_write w fd bs : view (h _ (SWrite fd bs) w).2 = view w;
  tk_fork w i p b g : view w = mkview i None p b g ->
    match f i with
    | NoProcess => exists w', h _ SFork w = (-1, w')
    | Exits s q => exists pid w' p', h _ SFork w = (pid, w') /\ 0 < pid /\ view w' = mkview (S i) (Some (s, q)) p' b g
    end;
  tk_wait w i s q p b g : view w = mkview i (Some (s, q)) p b g ->
    exists pid w', h _ SWait w = ((pid, s), w') /\ view w' = mkview i None q b g;
  tk_brk w : v_child (view w) = None -> exists w', h _ (SSbrk 0 SBRK_EAGER) w = (v_brk (view w), w') /\ view w' = view w;
  tk_grow w i p b g : view w = mkview i None (S p) b g ->
    exists w', h _ (SSbrk 4096 SBRK_EAGER) w = (b, w') /\ view w' = mkview i None p (b + 4096) (S g);
  tk_full w i b g : view w = mkview i None 0 b g ->
    exists w', h _ (SSbrk 4096 SBRK_EAGER) w = (-1, w') /\ view w' = mkview i None 0 b g;
  tk_shrink w i p b g k : view w = mkview i None p b (k + g) -> Z.of_nat k < 2 ^ 19 ->
    exists w', h _ (SSbrk (- (4096 * Z.of_nat k)) SBRK_EAGER) w = (b, w') /\
      view w' = mkview i None (p + k) (b - 4096 * Z.of_nat k) g;
}.

(** The [k] tests from [i] on exit with 0. *)
Definition passed (f : nat -> fate) (i k : nat) : bool := forallb (fun j => ok_fate (f j)) (seq i k).

Lemma passed_S f i k : passed f i (S k) = ok_fate (f i) && passed f (S i) k.
Proof. done. Qed.

Lemma passed_app f i a b : passed f i (a + b) = passed f i a && passed f (i + a) b.
Proof. unfold passed. by rewrite seq_app, forallb_app. Qed.

(** The pages left behind the [k] tests from [i] on. *)
Definition pages_after (f : nat -> fate) (p i k : nat) : nat := match k with O => p | S k => pages_left (f (i + k)%nat) end.

Lemma pages_after_app f p i a b : pages_after f (pages_after f p i a) (i + a) b = pages_after f p i (a + b).
Proof. destruct b as [|b]; [by rewrite Nat.add_0_r|]. rewrite Nat.add_succ_r. cbn. by rewrite Nat.add_assoc. Qed.

Lemma pages_after_ind f (P : nat -> Prop) p i k : P p -> (forall i, P (pages_left (f i))) -> P (pages_after f p i k).
Proof. intros Hp Hf. by destruct k; cbn. Qed.

Section driver.
Context {W : Type} (h : handler W) (f : nat -> fate) (view : W -> tview).
Context (K : test_kernel h f view).

Lemma printf_runs fmt ap w : is_Some (vformat (str fmt) ap) -> exists w', exec h (printf fmt ap) w = (Returned tt, w') /\ view w' = view w.
Proof.
  intros [cs E]. unfold printf, vprintf. rewrite E. clear E. revert w. induction cs as [|c cs IH]; intros w; [by exists w|].
  cbn [putall]. rewrite exec_bind. unfold putc. rewrite exec_bind. cbn [call exec]. pose proof (tk_write _ _ _ K w 1 [u8 c]) as Hw.
  destruct (h _ _ w) as [x w1] eqn:Ew. cbn. destruct (IH w1) as (w' & E' & Hv). exists w'. split; [done|]. by rewrite Hv, <- Hw.
Qed.

Lemma die_runs {A} fmt ap w : is_Some (vformat (str fmt) ap) -> exists w', exec h (die (A := A) fmt ap) w = (Exited 1, w').
Proof. intros H. destruct (printf_runs fmt ap w H) as (w' & E & _). exists w'. unfold die. by rewrite exec_bind, E. Qed.

Lemma run_test_runs t s w i p b g : view w = mkview i None p b g -> exists w',
  match f i with
  | NoProcess => exec h (run_test t s) w = (Exited 1, w')
  | Exits x q => exec h (run_test t s) w = (Returned (x =? 0), w') /\ view w' = mkview (S i) None q b g
  end.
Proof.
  intros Hv. unfold run_test. destruct (printf_runs "test %s: " [VStr (Some s)] w) as (w1 & E1 & V1); [fits|]. rewrite Hv in V1.
  pose proof (tk_fork _ _ _ K w1 _ _ _ _ V1) as Hf. rewrite exec_bind, E1. cbn [exec ubind call]. destruct (f i) as [|x q].
  - destruct Hf as (w2 & E2). rewrite E2. change (-1 <? 0) with true. by apply die_runs; fits.
  - destruct Hf as (pid & w2 & p' & E2 & Hpid & V2). rewrite E2.
    rewrite (proj2 (Z.ltb_ge pid 0)) by lia. rewrite (proj2 (Z.eqb_neq pid 0)) by lia. cbn [exec ubind call].
    destruct (tk_wait _ _ _ K w2 _ _ _ _ _ _ V2) as (p3 & w3 & E3 & V3). rewrite E3.
    assert (Hp : exists w4, exec h (if negb (x =? 0) then printf ("FAILED" +:+ nl) [] else printf ("OK" +:+ nl) []) w3 = (Returned tt, w4) /\
      view w4 = view w3) by (destruct (_ =? _); apply printf_runs; fits).
    destruct Hp as (w4 & E4 & V4). exists w4. rewrite exec_bind, E4. split; [done|congruence].
Qed.

(** The tests were stopped: there was no process for one of them, or the result is [x]. *)
Definition stopped {A} (x : A) (o : uend A) : Prop := o = Exited 1 \/ o = Returned x.

Lemma runtests_runs tests w n i p b g : view w = mkview i None p b g -> exists o w', exec h (runtests_from tests None 0 n) w = (o, w') /\
  if passed f i (length tests) then o = Returned (n + Z.of_nat (length tests)) /\
    view w' = mkview (i + length tests) None (pages_after f p i (length tests)) b g
  else stopped (-1) o.
Proof.
  revert w n i p. induction tests as [|t tests IH]; intros w n i p Hv; cbn [runtests_from wanted length].
  { eexists _, w. split; [done|]. cbn. by rewrite Z.add_0_r, Nat.add_0_r. }
  destruct (run_test_runs (t_f t) (t_s t) w i p b g Hv) as (w1 & H1). rewrite exec_bind, passed_S. destruct (f i) as [|x q] eqn:Ef; cbn [ok_fate].
  { rewrite H1. eexists _, _. split; [done|]. by left. }
  destruct H1 as [E1 V1]. rewrite E1. change (negb (0 =? 2)) with true. destruct (x =? 0) eqn:Ez; cbn [negb andb].
  - destruct (IH w1 (n + 1) (S i) q V1) as (o & w' & E' & H'). exists o, w'. split; [done|].
    destruct (passed f (S i) (length tests)); [|done]. destruct H' as [-> ->]. split; [f_equal; lia|]. f_equal; [lia|].
    destruct (length tests) as [|k]; cbn; [by rewrite Nat.add_0_r, Ef|]. by rewrite Nat.add_succ_r.
  - destruct (printf_runs ("SOME TESTS FAILED" +:+ nl) [] w1) as (w2 & E2 & _); [fits|]. eexists _, w2. rewrite exec_bind, E2. split; [done|]. by right.
Qed.

Lemma i32_u64 x : i32 (u64 x) = i32 x.
Proof. unfold i32, u64. f_equal. rewrite <- (Zplus_mod_idemp_l (x mod _)), <- (Zplus_mod_idemp_l x). by rewrite Z.mod_mod_divide by (exists (2 ^ 32); lia). Qed.

Lemma psbrk_exec n w a w' : h _ (SSbrk n SBRK_EAGER) w = (a, w') -> exec h (psbrk n) w = (Returned (u64 a), w').
Proof. intros E. unfold psbrk, sbrk. cbn [exec ubind call]. by rewrite E. Qed.

Lemma psbrk_0 w : v_child (view w) = None -> 0 <= v_brk (view w) < 2 ^ 64 ->
  exists w', exec h (psbrk 0) w = (Returned (v_brk (view w)), w') /\ view w' = view w.
Proof.
  intros Hc Hr. destruct (tk_brk _ _ _ K w Hc) as (w' & E & V). rewrite (psbrk_exec _ _ _ _ E). exists w'. by rewrite u64_small.
Qed.

(** [psbrk] 4096 until the pages are gone. *)
Lemma countfree_loop n w c i p b g : view w = mkview i None p b g -> (p < n)%nat -> 0 <= c -> c + Z.of_nat p < 2 ^ 31 ->
  0 <= b -> b + 4096 * Z.of_nat p < 2 ^ 63 -> exists w',
  exec h (loop n (fun pages => a <- psbrk 4096 ;; if a =? SBRK_ERROR then URet (inr pages) else URet (inl (i32 (pages + 1)))) c) w =
    (Returned (c + Z.of_nat p), w') /\ view w' = mkview i None 0 (b + 4096 * Z.of_nat p) (p + g).
Proof.
  revert w c p b g. induction n as [|n IH]; intros w c p b g Hv Hn Hc Hm Hb0 Hr; [lia|]. cbn [loop]. rewrite exec_bind, exec_bind.
  destruct p as [|p].
  - destruct (tk_full _ _ _ K w i b g Hv) as (w' & E & V). rewrite (psbrk_exec _ _ _ _ E). cbn. exists w'.
    rewrite Z.add_0_r. split; [done|]. rewrite V. by rewrite Z.add_0_r.
  - destruct (tk_grow _ _ _ K w i p b g Hv) as (w1 & E & V). rewrite (psbrk_exec _ _ _ _ E).
    rewrite u64_small by lia. rewrite (proj2 (Z.eqb_neq _ SBRK_ERROR)) by (unfold SBRK_ERROR; lia).
    cbn [exec]. rewrite i32_small by lia. destruct (IH w1 (c + 1) p (b + 4096) (S g) V) as (w' & E' & V'); [lia..|]. exists w'.
    rewrite E', V'. split; [do 2 f_equal; lia|]. f_equal; lia.
Qed.

Lemma countfree_runs n w i p b g : view w = mkview i None p b g -> 0 <= b < 2 ^ 38 -> (p < n)%nat -> Z.of_nat p < 2 ^ 19 ->
  exists w', exec h (countfree n) w = (Returned (Z.of_nat p), w') /\ view w' = view w.
Proof.
  intros Hv Hr Hn Hp. unfold countfree. destruct (psbrk_0 w) as (w1 & E1 & V1); [rewrite Hv; cbn; (done || lia)..|]. rewrite Hv in *. rewrite exec_bind, E1.
  destruct (countfree_loop n w1 0 i p b g) as (w2 & E2 & V2); [done|lia..|]. rewrite exec_bind, E2.
  destruct (psbrk_0 w2) as (w3 & E3 & V3); [rewrite V2; cbn; (done || lia)..|]. rewrite V2 in *. rewrite exec_bind, E3. cbn [v_brk].
  replace (i32 _) with (- (4096 * Z.of_nat p)) by (rewrite i32_u64; symmetry; rewrite i32_small; lia).
  destruct (tk_shrink _ _ _ K w3 i 0 _ g p V3 Hp) as (w4 & E4 & V4).
  rewrite exec_bind, (psbrk_exec _ _ _ _ E4). exists w4. split; [done|]. rewrite V4. f_equal; lia.
Qed.

(** The tests of a run, and what they have to do. *)
Definition all_tests (im : image) (quick : bool) : list test := quicktests im ++ (if quick then [] else slowtests im).

Definition verdict (v : tview) (k : nat) : bool :=
  passed f (v_forks v) k && (v_pages v <=? pages_after f (v_pages v) (v_forks v) k)%nat.

Lemma slow_runs im (quick : bool) n w i p b g (k := if quick then 0%nat else length (slowtests im)) : view w = mkview i None p b g -> 0 <= n ->
  exists o w', exec h (drive_slow im 0 None quick n) w = (o, w') /\
  if passed f i k then o = Returned (Some (n + Z.of_nat k)) /\ view w' = mkview (i + k) None (pages_after f p i k) b g else stopped None o.
Proof.
  intros Hv Hn. unfold drive_slow. destruct quick; subst k.
  { eexists _, w. split; [done|]. cbn. by rewrite Z.add_0_r, Nat.add_0_r. }
  destruct (printf_runs ("usertests slow tests starting" +:+ nl) [] w) as (w1 & E1 & V1); [fits|]. rewrite Hv in V1. rewrite exec_bind, E1.
  destruct (runtests_runs (slowtests im) w1 0 i p b g V1) as (o & w2 & E2 & H2). unfold runtests. rewrite exec_bind, E2.
  destruct (passed f i _); [destruct H2 as [-> V2]|destruct H2 as [->| ->]].
  - rewrite (proj2 (Z.ltb_ge _ 0)) by lia. by eexists _, w2.
  - eexists _, w2. split; [done|]. by left.
  - eexists _, w2. split; [done|]. by right.
Qed.

Lemma end_runs n free0 k w i p b g : view w = mkview i None p b g -> 0 <= b < 2 ^ 38 -> (p < n)%nat -> Z.of_nat p < 2 ^ 19 ->
  exists w', exec h (drive_end n 0 None free0 k) w = (Returned (free0 <=? Z.of_nat p), w').
Proof.
  intros Hv Hr Hn Hp. unfold drive_end. destruct (countfree_runs n w i p b g Hv Hr Hn Hp) as (w1 & E1 & _). rewrite exec_bind, E1. rewrite Z.leb_antisym.
  destruct (_ <? _); [|by exists w1]. destruct (printf_runs ("FAILED -- lost some free pages %d (out of %d)" +:+ nl) [VInt (Z.of_nat p); VInt free0] w1)
    as (w2 & E2 & _); [fits|]. exists w2. rewrite exec_bind, exec_bind, E2. done.
Qed.

Lemma round_runs im (quick : bool) w (k := length (all_tests im quick)) :
  (forall i, (pages_left (f i) < im_rounds im)%nat /\ Z.of_nat (pages_left (f i)) < 2 ^ 19) -> v_child (view w) = None ->
  0 <= v_brk (view w) < 2 ^ 38 -> (v_pages (view w) < im_rounds im)%nat -> Z.of_nat (v_pages (view w)) < 2 ^ 19 ->
  exists o w', exec h (drive_round im quick 0 None) w = (o, w') /\ if verdict (view w) k then o = Returned true else stopped false o.
Proof.
  intros Hst Hc Hr Hn Hp. destruct (view w) as [i ch p b g] eqn:Hv. cbn in Hc, Hr, Hn, Hp. subst ch. unfold verdict. cbn [v_forks v_pages].
  unfold drive_round. destruct (printf_runs ("usertests starting" +:+ nl) [] w) as (w1 & E1 & V1); [fits|]. rewrite Hv in V1.
  rewrite exec_bind, E1. destruct (countfree_runs (im_rounds im) w1 i p b g V1) as (w2 & E2 & V2); [done..|]. rewrite V1 in V2. rewrite exec_bind, E2.
  destruct (runtests_runs (quicktests im) w2 0 i p b g V2) as (o3 & w3 & E3 & H3). unfold runtests. rewrite exec_bind, E3.
  assert (Hk : k = (length (quicktests im) + (if quick then 0 else length (slowtests im)))%nat).
  { subst k. unfold all_tests. rewrite length_app. by destruct quick. }
  rewrite Hk, passed_app, <- pages_after_app. destruct (passed f i _); cbn [andb].
  2: { destruct H3 as [->| ->]; eexists _, w3; (split; [done|]); [by left|by right]. }
  destruct H3 as [-> V3]. rewrite (proj2 (Z.ltb_ge (0 + _) 0)) by lia. cbn [andb].
  destruct (slow_runs im quick (0 + Z.of_nat (length (quicktests im))) w3 _ _ _ _ V3) as (o4 & w4 & E4 & H4); [lia|]. rewrite exec_bind, E4.
  destruct (passed f (i + _) _); cbn [andb]; [|destruct H4 as [->| ->]; eexists _, w4; (split; [done|]); [by left|by right]].
  destruct H4 as [-> V4]. rewrite pages_after_app in *. set (m := pages_after f p i (_ + _)) in *.
  assert (Hm : (m < im_rounds im)%nat /\ Z.of_nat m < 2 ^ 19) by (by apply (pages_after_ind _ (fun m => (m < im_rounds im)%nat /\ Z.of_nat m < 2 ^ 19))).
  destruct (end_runs (im_rounds im) (Z.of_nat p) (0 + Z.of_nat (length (quicktests im)) + Z.of_nat (if quick then 0%nat else length (slowtests im))) w4 _ _ _ _ V4)
    as (w5 & E5); [exact Hr|apply Hm|apply Hm|].
  eexists _, w5. rewrite E5. split; [done|]. destruct (Nat.leb_spec p m); [by rewrite (proj2 (Z.leb_le _ _)) by lia|].
  right. by rewrite (proj2 (Z.leb_gt _ _)) by lia.
Qed.
End driver.

(** C35. The verdict of [usertests]: on any kernel that runs the driver's calls of [fork], [wait], [sbrk]
    and [write] as [test_kernel] says, whether or not it has a process for each test, [usertests] and
    [usertests -q] end, and exit with 0 exactly when each of their 70 (64) tests gets a process and exits
    with 0 and the last one leaves at least as many free pages as there were; otherwise they exit with 1. *)
Theorem main_verdict {W} (h : handler W) f view im (quick : bool) w :
  test_kernel h f view ->
  (forall i, (pages_left (f i) < im_rounds im)%nat /\ Z.of_nat (pages_left (f i)) < 2 ^ 19) -> v_child (view w) = None ->
  0 <= v_brk (view w) < 2 ^ 38 -> (v_pages (view w) < im_rounds im)%nat -> Z.of_nat (v_pages (view w)) < 2 ^ 19 ->
  (exec h (usertests_main im (if quick then [str "-q"] else [])) w).1 =
  Exited (if passed f (v_forks (view w)) (if quick then 64 else 70) &&
             (v_pages (view w) <=? pages_left (f (v_forks (view w) + (if quick then 63 else 69))%nat))%nat then 0 else 1).
Proof.
  intros K Hst Hc Hr Hn Hp. destruct (round_runs h f view K im quick w Hst Hc Hr Hn Hp) as (o & w1 & E1 & H1).
  set (go := fun quick => r <- drivetests im quick 0 None ;; if negb (r =? 0) then UExit 1 else printf ("ALL TESTS PASSED" +:+ nl) [] ;; (UExit 0 : prog Z)).
  transitivity ((exec h (go quick) w).1); [by destruct quick|]. unfold go, drivetests. rewrite exec_bind. destruct (im_rounds im) as [|n]; [lia|].
  cbn [loop]. rewrite exec_bind, exec_bind, E1.
  transitivity (Exited (A := Z) (if verdict f (view w) (length (all_tests im quick)) then 0 else 1)); [|by destruct quick].
  destruct (verdict _ _ _); [subst o|by destruct H1 as [->| ->]].
  change (negb (0 =? 0)) with false. cbn [exec]. change (negb (0 =? 0)) with false.
  destruct (printf_runs h f view K ("ALL TESTS PASSED" +:+ nl) [] w1) as (w2 & E2 & _); [fits|].
  cbn [negb exec]. change (negb (0 =? 0)) with false. cbv iota. by rewrite exec_bind, E2.
Qed.

(** A kernel of this kind: it keeps the view; a break below 0 is refused, as by [uvmdealloc]. *)
Definition sim (f : nat -> fate) : handler tview := fun X e =>
  match e in sys X return tview -> X * tview with
  | SFork => fun '(mkview i c p b g as w) =>
      match f i with NoProcess => (-1, w) | Exits s q => (4, mkview (S i) (Some (s, q)) p b g) end
  | SWait => fun '(mkview i c p b g as w) => match c with None => ((-1, 0), w) | Some (s, q) => ((4, s), mkview i None q b g) end
  | SSbrk n t => fun '(mkview i c p b g as w) =>
      if n =? 0 then (b, w) else
      if n >? 0 then match p with O => (-1, w) | S p => (b, mkview i c p (b + n) (S g)) end
      else let k := Z.to_nat (- n / 4096) in
        if (k <=? g)%nat then (b, mkview i c (p + k) (b + n) (g - k)) else (b, w)
  | SRead fd n => fun w => ((-1, []), w)
  | SPipe => fun w => ((-1, 0, 0), w)
  | SFstat fd => fun w => ((-1, mkustat 0 0 0 0 0), w)
  | MLoad a => fun w => (None, w)
  | MStore a v => fun w => (false, w)
  | MUninit n => fun w => (replicate (Z.to_nat n) 1, w)
  | _ => fun w => (-1, w)
  end.

Lemma sim_kernel f : test_kernel (sim f) f id.
Proof.
  split.
  - by intros [].
  - intros w i p b g [= ->]. cbn. destruct (f i) as [|s q]; [by eexists|]. by eexists 4, _, p.
  - intros w i s q p b g [= ->]. by eexists 4, _.
  - intros [i c p b g] _. by eexists.
  - intros w i p b g [= ->]. by eexists.
  - intros w i b g [= ->]. by eexists.
  - intros w i p b g k [= ->] Hk. unfold id. cbn [sim]. destruct (Z.eqb_spec (- (4096 * Z.of_nat k)) 0) as [E|E].
    { eexists. split; [done|]. assert (k = 0%nat) as -> by lia. rewrite Nat.add_0_r, Z.sub_0_r. done. }
    rewrite (Z.gtb_ltb _ 0), (proj2 (Z.ltb_ge 0 _)) by lia. rewrite Z.opp_involutive, Z.mul_comm, Z.div_mul, Nat2Z.id by lia.
    rewrite (proj2 (Nat.leb_le _ _)) by lia. eexists. split; [done|]. f_equal; lia.
Qed.

Definition idle_image : image := mkimage (replicate (Z.to_nat 12288) 0) (replicate (Z.to_nat 10000) 0) 4096 8192 4096 (mkheap ∅ 0) 100 100.

Definition idle_view : tview := mkview 0 None 7 12288 0.

(** All tests pass and leave the pages as they were: [usertests] exits with 0; test 12 fails, or there
    is no process for it: with 1. *)
Lemma main_verdict_witness :
  (exec (sim (fun _ => Exits 0 7)) (usertests_main idle_image []) idle_view).1 = Exited 0 /\
  (exec (sim (fun i => Exits (if (i =? 12)%nat then 1 else 0) 7)) (usertests_main idle_image []) idle_view).1 = Exited 1 /\
  (exec (sim (fun i => if (i =? 12)%nat then NoProcess else Exits 0 7)) (usertests_main idle_image []) idle_view).1 = Exited 1.
Proof.
  split; [|split]; (eapply eq_trans; [eapply (main_verdict _ _ _ idle_image false); [apply sim_kernel|..]|vm_compute; reflexivity]);
    first [cbn; lia|reflexivity|intros i; cbn; try destruct (i =? 12)%nat; cbn; lia].
Defined.

(** ** A check of [lazy_sbrk] that never fails *)

Lemma below_zero_false p : below_zero p = false.
Proof. unfold below_zero. apply Z.ltb_ge. pose proof (u64_range p). lia. Qed.

(** The loop of [lazy_sbrk] tests [p < 0] for a pointer: where [sbrklazy] refuses to grow, it does
    not report the error but goes on for ever, whatever rounds it is given. *)
Theorem lazy_sbrk_spins {W} (h : handler W) (brk : W -> Z) n s w :
  (forall t w, exists w', h _ (SSbrk 0 t) w = (brk w, w') /\ brk w' = brk w) ->
  (forall w, exists w', h _ (SSbrk (2 ^ 30) SBRK_LAZY) w = (-1, w') /\ brk w' = brk w) ->
  0 <= brk w < MAXVA - 2 ^ 30 ->
  (exec h (lazy_sbrk n s) w).1 = Wrong rounds.
Proof.
  intros H0 Hlazy Hb. unfold lazy_sbrk. rewrite exec_bind. unfold psbrk, sbrk. cbn [exec ubind call].
  destruct (H0 SBRK_EAGER w) as (w1 & E1 & Hb1). rewrite E1. cbn [exec]. rewrite exec_bind.
  assert (Hspin : forall w, 0 <= brk w < MAXVA - 2 ^ 30 -> (exec h (lazy_grow n (u64 (brk w))) w).1 = Wrong rounds); cycle 1.
  { rewrite <- Hb1 in *. specialize (Hspin w1 Hb). destruct (exec h (lazy_grow _ _) w1) as [[] w']; by simplify_eq/=. }
  clear w w1 E1 Hb Hb1. unfold lazy_grow. induction n as [|n IH]; intros w Hb; [done|]. cbn [loop]. rewrite exec_bind.
  rewrite (proj2 (Z.ltb_lt _ _)) by (rewrite u64_small by lia; exact (proj2 Hb)). unfold psbrklazy, sbrklazy. cbn [exec ubind call].
  destruct (Hlazy w) as (w1 & E1 & Hb1). change (Z.shiftl 1 30) with (2 ^ 30). rewrite E1. cbn [exec ubind call]. rewrite below_zero_false.
  cbn [exec ubind call]. destruct (H0 SBRK_LAZY w1) as (w2 & E2 & Hb2). rewrite E2. cbn [exec ubind call]. rewrite <- Hb2. apply IH. lia.
Qed.
