(* ===== verification/TestSafety.v ===== *)
(** * The test programs keep to their arrays

    Each of the tests of [usertests.c], whatever the kernel answers: no access outside an array, no
    string that does not end, and arguments that fit the formats. *)

From S2P Require Import Prelude CString Fields Printf UserSys Ulib TestLib TestProgs Grind Riscv.
From S2P Require Import UserTestsA UserTestsB UserTestsC Umalloc UserTestsD UserTests.
From stdpp Require Import base numbers strings gmap list.
From Stdlib Require Import ZArith Lia.

#[local] Open Scope Z_scope.
#[local] Open Scope user_scope.

Lemma wp_must_fork s (Q : Z -> Prop) : (forall pid, Q pid) -> wp Q (must_fork s).
Proof. intros HQ. unfold must_fork, fail. tame; auto. Qed.

Lemma wp_unless s bad e msg (Q : unit -> Prop) : is_Some (vformat (str ("%s: " +:+ msg +:+ nl)) [VStr (Some s)]) -> Q tt -> wp Q (unless s bad e msg).
Proof. intros Hm HQ. unfold unless, fail. apply wp_bind, wp_call. intros r _. destruct (bad r); [by apply wp_die|done]. Qed.

Lemma wp_addrs body addrs (Q : unit -> Prop) : (forall a, wp (fun _ => True) (body a)) -> Q tt -> wp Q (for_addrs body addrs).
Proof. intros Hb HQ. apply wp_each; [|done]. intros i Hi. apply wp_bind, wp_get_at; [lia|]. exact Hb. Qed.

Lemma wp_psbrklazy n (Q : Z -> Prop) : (forall a, Q a) -> wp Q (psbrklazy n).
Proof. intros HQ a _. apply HQ. Qed.

Lemma wp_store_bytes a bs (Q : unit -> Prop) : Q tt -> wp Q (store_bytes a bs).
Proof. intros HQ. revert a. induction bs as [|b bs IH]; intros a; cbn [store_bytes]; [done|]. apply wp_bind, wp_store, IH. Qed.

Lemma wp_load_bytes n a (Q : list Z -> Prop) : (forall bs, Q bs) -> wp Q (load_bytes n a).
Proof.
  intros HQ. revert a Q HQ. induction n as [|n IH]; intros a Q HQ; cbn [load_bytes]; [apply HQ|]. apply wp_bind, wp_load. intros v.
  apply wp_bind, IH. intros bs. apply HQ.
Qed.

Lemma wp_open_close path mode (Q : unit -> Prop) : Q tt -> wp Q (open_close path mode).
Proof. intros HQ. unfold open_close. tame. Qed.

Lemma wp_loop_any {X A} n (body : X -> prog (X + A)) x (Q : A -> Prop) :
  (forall x, wp (fun r => match r with inl _ => True | inr a => Q a end) (body x)) -> wp Q (loop n body x).
Proof. intros H. by apply (wp_loop (fun _ => True)). Qed.

Lemma wp_for_any {X} a b (body : Z -> X -> prog X) x (Q : X -> Prop) :
  (forall i x, a <= i < b -> wp (fun _ => True) (body i x)) -> (forall x, Q x) -> wp Q (for_range a b body x).
Proof. intros H HQ. apply (wp_for (fun _ => True)); auto. Qed.

Lemma wp_all_x b n (Q : list Z -> Prop) : 0 <= n < Z.of_nat (length b) -> (forall s, Q s) -> wp Q (all_x b n).
Proof.
  intros Hn HQ. unfold all_x. apply wp_bind, (wp_for (fun b' => length b' = length b)); [done| |].
  - intros i b' Hi Hb. apply wp_put; [lia|]. congruence.
  - intros b' Hb. apply wp_bind, wp_put_end; [lia|]. intros b2 _ H0. by apply wp_cstring.
Qed.

(** A byte stored into an array in which a string ends at [e]. *)
Lemma wp_put_ended e buf i v (Q : list Z -> Prop) : 0 <= i < Z.of_nat (length buf) -> buf !! e = Some 0 -> Z.to_nat i <> e ->
  (forall b, length b = length buf -> b !! e = Some 0 -> Q b) -> wp Q (put buf i v).
Proof. intros Hi He Hne HQ. apply wp_put_at; [done|]. intros b Hb _ Ho. apply HQ; [done|]. rewrite Ho by done. exact He. Qed.

(** The end of the string stored. *)
Lemma wp_put_ends e buf i (Q : list Z -> Prop) : 0 <= i < Z.of_nat (length buf) -> Z.to_nat i = e ->
  (forall b, length b = length buf -> b !! e = Some 0 -> Q b) -> wp Q (put buf i 0).
Proof. intros Hi He HQ. apply wp_put_at; [done|]. intros b Hb E _. apply HQ; [done|]. by rewrite <- He. Qed.

Lemma wp_cstring_at e buf (Q : list Z -> Prop) : buf !! e = Some 0 -> (forall s, Q s) -> wp Q (cstring buf).
Proof. intros He. apply wp_cstring. exact (list_elem_of_lookup_2 _ _ _ He). Qed.

Lemma wp_put_int buf i (Q : list Z -> Prop) : (4 <= length buf)%nat -> (forall b, length b = length buf -> Q b) -> wp Q (put_int buf i).
Proof.
  intros Hb HQ. unfold put_int. rewrite bool_decide_eq_true_2 by lia. apply wp_ret, HQ, length_splice. rewrite length_le_bytes. lia.
Qed.

Lemma wp_get_int buf (Q : Z -> Prop) : (4 <= length buf)%nat -> (forall v, Q v) -> wp Q (get_int buf).
Proof. intros Hb HQ. unfold get_int. rewrite bool_decide_eq_true_2 by lia. apply wp_ret, HQ. Qed.

#[local] Opaque wp.

(** The functions the tests share, the helpers of each, and loops without arrays. *)
Ltac test_step :=
  match goal with
  | |- wp _ (fail _ _) => unfold fail; apply wp_die; fits
  | |- wp _ (must_fork _) => apply wp_must_fork; intros ?
  | |- wp _ exit_as_child => unfold exit_as_child
  | |- wp _ (unless _ _ _ _) => apply wp_unless; [fits|]
  | |- wp _ (for_addrs _ _) => apply wp_addrs; [intros ?|]
  | |- wp _ (get_at names _) => apply wp_get_at; [change (length names) with 4%nat; lia|intros ?]
  | |- wp _ (all_x _ _) => apply wp_all_x; [inside|intros ?]
  | |- wp _ (args_of _) => apply wp_args_of; [apply (bool_decide_unpack _); vm_compute; exact I|intros ?]
  | H : 0 ∈ ?b |- wp _ (cstring ?b) => apply wp_cstring; [exact H|intros ?]
  | |- wp _ (put _ _ 0) => apply wp_put_end; [inside|intros ? ? ?]
  | |- wp _ (put_int _ _) => apply wp_put_int; [inside|intros ? ?]
  | |- wp _ (get_int _) => apply wp_get_int; [inside|intros ?]
  | |- wp _ (open_close _ _) => apply wp_open_close
  | |- wp _ (psbrklazy _) => apply wp_psbrklazy; intros ?
  | |- wp _ (store_ptr _ _) => apply wp_store_bytes
  | |- wp _ (store_int _ _) => apply wp_store_bytes
  | |- wp _ (load_bytes _ _) => apply wp_load_bytes; intros ?
  | |- wp _ (getpid_forever _) => unfold getpid_forever
  | |- wp _ (spin_forever _) => unfold spin_forever
  | |- wp _ (sit_around _) => unfold sit_around
  | |- wp _ killed_child => unfold killed_child
  | |- wp _ (make_file _) => unfold make_file
  | |- wp _ (loop _ _ _) => apply wp_loop_any
  | |- wp _ (for_range _ _ _ _) => apply wp_for_any
  | |- _ => tame_step
  | |- wp _ _ => eapply wp_mono; [solve [eauto with tests]|cbv beta; intros ? ?]
  end.
(** The same up to the loops. *)
Ltac flow_step :=
  lazymatch goal with
  | |- wp _ (loop _ _ _) => fail
  | |- wp _ (for_range _ _ _ _) => fail
  | |- _ => test_step
  end.
Ltac flow := repeat flow_step; try solve [done | congruence | lia | cbn [fst snd]; congruence].
Ltac test := repeat test_step; try solve [done | congruence | lia | cbn [fst snd]; congruence].

Lemma tame_copyin_addr addr : wp (fun _ => True) (copyin_addr addr).
Proof. unfold copyin_addr. test. Qed.
#[export] Hint Resolve tame_copyin_addr : tests.

Lemma tame_copyin s : wp (fun _ => True) (copyin s).
Proof. unfold copyin. test. Qed.
#[export] Hint Resolve tame_copyin : tests.

Lemma tame_copyout_addr addr : wp (fun _ => True) (copyout_addr addr).
Proof. unfold copyout_addr. test. Qed.
#[export] Hint Resolve tame_copyout_addr : tests.

Lemma tame_copyout s : wp (fun _ => True) (copyout s).
Proof. unfold copyout. test. Qed.
#[export] Hint Resolve tame_copyout : tests.

Lemma tame_copyinstr1 s : wp (fun _ => True) (copyinstr1 s).
Proof. unfold copyinstr1. test. Qed.
#[export] Hint Resolve tame_copyinstr1 : tests.

Lemma tame_copyinstr2 s : wp (fun _ => True) (copyinstr2 s).
Proof. unfold copyinstr2. test. Qed.
#[export] Hint Resolve tame_copyinstr2 : tests.

Lemma tame_copyinstr3 n s : wp (fun _ => True) (copyinstr3 n s).
Proof. unfold copyinstr3. test. Qed.
#[export] Hint Resolve tame_copyinstr3 : tests.

Lemma tame_rwsbrk s : wp (fun _ => True) (rwsbrk s).
Proof. unfold rwsbrk. test. Qed.
#[export] Hint Resolve tame_rwsbrk : tests.

Lemma tame_truncate1 s : wp (fun _ => True) (truncate1 s).
Proof. unfold truncate1. test. Qed.
#[export] Hint Resolve tame_truncate1 : tests.

Lemma tame_truncate2 s : wp (fun _ => True) (truncate2 s).
Proof. unfold truncate2. test. Qed.
#[export] Hint Resolve tame_truncate2 : tests.

Lemma tame_truncate3 s : wp (fun _ => True) (truncate3 s).
Proof. unfold truncate3. test. Qed.
#[export] Hint Resolve tame_truncate3 : tests.

Lemma tame_iputtest s : wp (fun _ => True) (iputtest s).
Proof. unfold iputtest. test. Qed.
#[export] Hint Resolve tame_iputtest : tests.

Lemma tame_exitiputtest s : wp (fun _ => True) (exitiputtest s).
Proof. unfold exitiputtest. test. Qed.
#[export] Hint Resolve tame_exitiputtest : tests.

Lemma tame_openiputtest s : wp (fun _ => True) (openiputtest s).
Proof. unfold openiputtest. test. Qed.
#[export] Hint Resolve tame_openiputtest : tests.

Lemma tame_opentest s : wp (fun _ => True) (opentest s).
Proof. unfold opentest. test. Qed.
#[export] Hint Resolve tame_opentest : tests.

Lemma tame_writetest buf s : length buf = Z.to_nat 12288 -> wp (fun _ => True) (writetest buf s).
Proof. intros Hbuf. unfold writetest. test. Qed.
#[export] Hint Resolve tame_writetest : tests.

Lemma tame_writebig n buf s : length buf = Z.to_nat 12288 -> wp (fun _ => True) (writebig n buf s).
Proof.
  intros Hbuf. unfold writebig. flow. apply (wp_for (fun b => length b = Z.to_nat 12288)); [done|flow|]. clear. intros b Hb. flow.
  apply (wp_loop (fun '(_, b) => length b = Z.to_nat 12288)); [done|]. intros [m c] Hc. flow.
Qed.
#[export] Hint Resolve tame_writebig : tests.

(** The string in an array of [n] bytes ends at [e]. *)
Definition ended (n e : nat) (b : list Z) : Prop := length b = n /\ b !! e = Some 0.

(** A byte stored into such an array, and the string taken. *)
Ltac ended_step :=
  match goal with
  | H : ended ?n ?e ?b |- wp _ (put ?b _ _) =>
      destruct H; apply (wp_put_ended e); [lia|assumption|lia|intros ? ? ?]
  | L : length ?b = ?n, H : ?b !! ?e = Some 0 |- wp _ (put ?b _ _) => apply (wp_put_ended e); [lia|assumption|lia|intros ? ? ?]
  | H : ?b !! ?e = Some 0 |- wp _ (cstring ?b) => apply (wp_cstring_at e); [exact H|intros ?]
  | |- ended _ _ _ => split; [congruence|assumption]
  | |- _ => flow_step
  end.
Ltac ends := repeat ended_step; try solve [done | congruence | lia].

Lemma tame_createtest s : wp (fun _ => True) (createtest s).
Proof.
  unfold createtest. do 4 flow_step. apply wp_bind, (wp_put_ends 2); [lia|done|]. intros b1 L1 E1.
  apply wp_bind, (wp_for (ended 3 2)); [split; [lia|done]|intros i x Hi Hx; ends|]. intros b2 [L2 E2]. flow_step.
  apply (wp_put_ended 2); [lia|done|done|]. intros b3 L3 E3. apply wp_bind, (wp_put_ends 2); [lia|done|]. intros b4 L4 E4.
  apply wp_bind, (wp_for (ended 3 2)); [split; [lia|done]|intros i x Hi Hx; ends|]. flow.
Qed.
#[export] Hint Resolve tame_createtest : tests.

Lemma tame_dirtest s : wp (fun _ => True) (dirtest s).
Proof. unfold dirtest. test. Qed.
#[export] Hint Resolve tame_dirtest : tests.

Lemma tame_exectest s : wp (fun _ => True) (exectest s).
Proof. unfold exectest. test. Qed.
#[export] Hint Resolve tame_exectest : tests.

Lemma wp_fill_seq buf seq (Q : list Z * Z -> Prop) :
  length buf = Z.to_nat 12288 -> (forall b x, length b = Z.to_nat 12288 -> Q (b, x)) -> wp Q (fill_seq buf seq).
Proof.
  intros Hb HQ. apply (wp_for (fun '(b, _) => length b = Z.to_nat 12288)); [done| |intros [b x]; apply HQ].
  intros i [b x] Hi Hb'. flow.
Qed.

Lemma wp_check_seq buf n seq (Q : bool * Z -> Prop) : n <= Z.of_nat (length buf) -> (forall r, Q r) -> wp Q (check_seq buf n seq).
Proof. intros Hn HQ. apply wp_for_any; [|done]. intros i [ok x] Hi. flow. Qed.

Lemma pipe1_reads n fd buf s : length buf = Z.to_nat 12288 ->
  wp (fun _ => True) (loop n (fun '(buf, seq, total, cc) =>
      '(n, buf) <- read_buf fd buf cc ;;
      if n >? 0 then
        '(ok, seq) <- check_seq buf n seq ;;
        if negb ok then
          printf ("%s: pipe1 oops 2" +:+ nl) [VStr (Some s)] ;;
          URet (inr None)
        else
        let cc := cc * 2 in
        URet (inl (buf, seq, i32 (total + n), if cc >? 12288 then 12288 else cc))
      else URet (inr (Some total))) (buf, 0, 0, 1)).
Proof.
  intros Hbuf. apply (wp_loop (fun '(b, _, _, cc) => length b = Z.to_nat 12288 /\ 0 <= cc <= 12288)); [done|].
  intros [[[b x] total] cc] [Hb Hcc]. do 2 flow_step. flow_step; [|flow]. apply wp_bind, wp_check_seq; [lia|]. intros [ok y]. flow_step; [flow|].
  apply wp_ret. split; [congruence|]. destruct (_ >? _) eqn:E; lia.
Qed.

Lemma tame_pipe1 n buf s : length buf = Z.to_nat 12288 -> wp (fun _ => True) (pipe1 n buf s).
Proof.
  intros Hbuf. unfold pipe1. flow.
  - apply (wp_for (fun '(b, _) => length b = Z.to_nat 12288)); [done| |flow]. intros i [b seq] Hi Hb. apply wp_bind, wp_fill_seq; [done|]. flow.
  - eapply wp_mono; [by apply pipe1_reads|]. flow.
Qed.
#[export] Hint Resolve tame_pipe1 : tests.

Lemma tame_killstatus n s : wp (fun _ => True) (killstatus n s).
Proof. unfold killstatus. test. Qed.
#[export] Hint Resolve tame_killstatus : tests.

Lemma tame_preempt n buf s : length buf = Z.to_nat 12288 -> wp (fun _ => True) (preempt n buf s).
Proof. intros Hbuf. unfold preempt. test. Qed.
#[export] Hint Resolve tame_preempt : tests.

Lemma tame_exitwait s : wp (fun _ => True) (exitwait s).
Proof. unfold exitwait. test. Qed.
#[export] Hint Resolve tame_exitwait : tests.

Lemma tame_reparent s : wp (fun _ => True) (reparent s).
Proof. unfold reparent. test. Qed.
#[export] Hint Resolve tame_reparent : tests.

Lemma tame_twochildren s : wp (fun _ => True) (twochildren s).
Proof. unfold twochildren. test. Qed.
#[export] Hint Resolve tame_twochildren : tests.

Lemma tame_forkfork s : wp (fun _ => True) (forkfork s).
Proof. unfold forkfork. test. Qed.
#[export] Hint Resolve tame_forkfork : tests.

Lemma tame_forkforkfork n s : wp (fun _ => True) (forkforkfork n s).
Proof. unfold forkforkfork. test. Qed.
#[export] Hint Resolve tame_forkforkfork : tests.

Lemma tame_reparent2 s : wp (fun _ => True) (reparent2 s).
Proof. unfold reparent2. test. Qed.
#[export] Hint Resolve tame_reparent2 : tests.

Lemma wp_count_cp buf nc np (Q : Z * Z -> Prop) : (10 <= length buf)%nat -> (forall r, Q r) -> wp Q (count_cp buf nc np).
Proof. intros Hb HQ. apply wp_for_any; [|done]. intros i [a b] Hi. flow. Qed.

Lemma tame_sharedfd n s : wp (fun _ => True) (sharedfd n s).
Proof.
  unfold sharedfd. flow. apply (wp_loop (fun '(c, _, _) => length c = 10%nat)); [lia|]. intros [[c nc] np] Hc.
  do 2 flow_step. flow_step; [|flow]. apply wp_bind, wp_count_cp; [lia|]. flow.
Qed.
#[export] Hint Resolve tame_sharedfd : tests.

Lemma tame_fourfiles_child pi fname buf s : length buf = Z.to_nat 12288 -> wp (fun _ => True) (fourfiles_child pi fname buf s).
Proof. intros Hbuf. unfold fourfiles_child. test. Qed.
#[export] Hint Resolve tame_fourfiles_child : tests.

Lemma wp_fourfiles_read n i fd buf s (Q : list Z * Z -> Prop) :
  length buf = Z.to_nat 12288 -> (forall b x, length b = Z.to_nat 12288 -> Q (b, x)) -> wp Q (fourfiles_read n i fd buf s).
Proof.
  intros Hb HQ. apply (wp_loop (fun '(b, _) => length b = Z.to_nat 12288)); [done|]. intros [b x] Hb'. flow. apply HQ. congruence.
Qed.

Lemma tame_fourfiles n buf s : length buf = Z.to_nat 12288 -> wp (fun _ => True) (fourfiles n buf s).
Proof.
  intros Hbuf. unfold fourfiles. flow. apply (wp_for (fun b => length b = Z.to_nat 12288)); [done| |flow].
  intros i b Hi Hb. do 4 flow_step. apply wp_bind, wp_fourfiles_read; [done|]. flow.
Qed.
#[export] Hint Resolve tame_fourfiles : tests.

Lemma tame_createdelete_child pi name s : length name = 32%nat -> wp (fun _ => True) (createdelete_child pi name s).
Proof.
  intros Hn. unfold createdelete_child. do 2 flow_step. apply wp_bind, (wp_put_ends 2); [lia|done|]. intros b1 L1 E1.
  apply wp_bind, (wp_for (ended 32 2)); [split; [lia|done]|intros i x Hi Hx; ends|]. flow.
Qed.
#[export] Hint Resolve tame_createdelete_child : tests.

Lemma tame_createdelete_check i pi name s : ended 32 2 name -> wp (ended 32 2) (createdelete_check i pi name s).
Proof. intros Hn. unfold createdelete_check. ends. Qed.

Lemma tame_createdelete s : wp (fun _ => True) (createdelete s).
Proof.
  unfold createdelete. do 2 flow_step. rename b into name. do 2 flow_step; [flow|]. do 2 flow_step; [flow|]. flow_step.
  apply (wp_put_ends 2); [lia|done|]. intros b1 L1 E1. do 2 ended_step. do 2 ended_step.
  apply wp_bind, (wp_for (ended 32 2)); [split; [lia|done]| |].
  - intros i x Hi Hx. apply (wp_for (ended 32 2)); [done| |done]. intros pi y _ Hy. by apply tame_createdelete_check.
  - intros x Hx. apply wp_bind, (wp_for (ended 32 2)); [done| |flow]. intros i y Hi Hy.
    apply (wp_for (ended 32 2)); [done| |done]. intros pi z _ Hz. ends.
Qed.
#[export] Hint Resolve tame_createdelete : tests.

Lemma tame_unlinkread buf s : length buf = Z.to_nat 12288 -> wp (fun _ => True) (unlinkread buf s).
Proof. intros Hbuf. unfold unlinkread. test. Qed.
#[export] Hint Resolve tame_unlinkread : tests.

Lemma tame_linktest buf s : length buf = Z.to_nat 12288 -> wp (fun _ => True) (linktest buf s).
Proof. intros Hbuf. unfold linktest. test. Qed.
#[export] Hint Resolve tame_linktest : tests.

Lemma tame_concreate_make i file : ended 3 2 file -> wp (ended 3 2) (concreate_make i file).
Proof. intros Hf. unfold concreate_make. ends. Qed.

Lemma tame_concreate_remove s i file : ended 3 2 file -> wp (ended 3 2) (concreate_remove s i file).
Proof. intros Hf. unfold concreate_remove. ends. Qed.

Lemma wp_get_val buf i (Q : Z -> Prop) : 0 <= i < Z.of_nat (length buf) -> (forall v, buf !! Z.to_nat i = Some v -> Q v) -> wp Q (get buf i).
Proof.
  intros Hi HQ. unfold get. rewrite bool_decide_eq_true_2 by done. apply wp_ret, HQ. unfold nthd. rewrite (proj2 (Z.ltb_ge i 0)) by lia.
  destruct (lookup_lt_is_Some_2 buf (Z.to_nat i)) as [v E]; [lia|]. by rewrite E.
Qed.

Lemma wp_concreate_entry s de fa n : length de = 16%nat -> length fa = 40%nat -> wp (fun '(fa, _) => length fa = 40%nat) (concreate_entry s de fa n).
Proof.
  intros Hde Hfa. unfold concreate_entry. do 5 flow_step; [by apply wp_ret|]. do 2 flow_step. apply wp_bind, wp_get_val; [lia|]. intros c2 H2.
  destruct (_ && _) eqn:E; [|by apply wp_ret]. assert (Hz : 0 ∈ drop 2 de).
  { apply list_elem_of_lookup. exists 2%nat. rewrite lookup_drop. apply andb_prop in E as [_ E]. apply Z.eqb_eq in E. by subst c2. }
  do 2 flow_step. destruct (_ || _) eqn:E'; [apply wp_bind, wp_cstring; [done|]; flow|]. apply orb_false_iff in E' as [E1 E2].
  apply Z.ltb_ge in E1. rewrite Z.geb_leb in E2. apply Z.leb_gt in E2.
  do 3 flow_step; [apply wp_bind, wp_cstring; [done|]; flow|]. flow.
Qed.

Lemma tame_concreate_list rs s fa de fd : length fa = 40%nat -> length de = 16%nat -> wp (fun _ => True) (concreate_list rs s fa de fd).
Proof.
  intros Hfa Hde. apply (wp_loop (fun '(de, fa, _) => length de = 16%nat /\ length fa = 40%nat)); [done|].
  clear. intros [[de fa] n] [Hde Hfa]. do 2 flow_step. flow_step; [|flow]. apply wp_bind. eapply wp_mono; [apply wp_concreate_entry; [congruence|done]|].
  intros [fa' n'] Hfa'. apply wp_ret. split; congruence.
Qed.

Lemma tame_concreate rs s : wp (fun _ => True) (concreate rs s).
Proof.
  unfold concreate. apply wp_bind, wp_local. intros file Lf. apply wp_bind, wp_local. intros fa La. apply wp_bind, wp_local. intros de Ld.
  do 2 flow_step. apply wp_bind, (wp_put_ends 2); [lia|done|]. intros b1 L1 E1.
  apply wp_bind, (wp_for (ended 3 2)); [split; [lia|done]|intros; by apply tame_concreate_make|]. intros b2 H2.
  do 4 flow_step. apply wp_bind. eapply wp_mono; [apply tame_concreate_list; lia|]. intros n _. do 3 flow_step; [flow|].
  apply wp_bind, (wp_for (ended 3 2)); [done|intros; by apply tame_concreate_remove|]. flow.
Qed.
#[export] Hint Resolve tame_concreate : tests.

Lemma tame_linkunlink s : wp (fun _ => True) (linkunlink s).
Proof. unfold linkunlink. test. Qed.
#[export] Hint Resolve tame_linkunlink : tests.

Lemma tame_subdir_walk buf s : length buf = Z.to_nat 12288 -> wp (fun _ => True) (subdir_walk buf s).
Proof. intros Hbuf. unfold subdir_walk. test. Qed.
#[export] Hint Resolve tame_subdir_walk : tests.

Lemma tame_subdir_refused s : wp (fun _ => True) (subdir_refused s).
Proof. unfold subdir_refused. test. Qed.
#[export] Hint Resolve tame_subdir_refused : tests.

Lemma tame_subdir buf s : length buf = Z.to_nat 12288 -> wp (fun _ => True) (subdir buf s).
Proof.
  intros Hbuf. unfold subdir. apply wp_bind. eapply (wp_mono (fun b => length b = Z.to_nat 12288)).
  - unfold subdir_make. test.
  - intros b Hb. test.
Qed.
#[export] Hint Resolve tame_subdir : tests.

Lemma tame_bigwrite buf s : length buf = Z.to_nat 12288 -> wp (fun _ => True) (bigwrite buf s).
Proof. intros Hbuf. unfold bigwrite. test. Qed.
#[export] Hint Resolve tame_bigwrite : tests.

Lemma tame_bigfile n buf s : length buf = Z.to_nat 12288 -> wp (fun _ => True) (bigfile n buf s).
Proof.
  intros Hbuf. unfold bigfile, bigfile_read. flow. apply (wp_for (fun b => length b = Z.to_nat 12288)); [done|flow|]. clear. intros b Hb. flow.
  apply (wp_loop (fun '(b, _, _) => length b = Z.to_nat 12288)); [done|]. intros [[c i] total] Hc. flow.
Qed.
#[export] Hint Resolve tame_bigfile : tests.

Lemma tame_fourteen s : wp (fun _ => True) (fourteen s).
Proof. unfold fourteen. test. Qed.
#[export] Hint Resolve tame_fourteen : tests.

Lemma tame_rmdot s : wp (fun _ => True) (rmdot s).
Proof. unfold rmdot. test. Qed.
#[export] Hint Resolve tame_rmdot : tests.

Lemma tame_dirfile s : wp (fun _ => True) (dirfile s).
Proof. unfold dirfile. test. Qed.
#[export] Hint Resolve tame_dirfile : tests.

Lemma tame_iref s : wp (fun _ => True) (iref s).
Proof. unfold iref. test. Qed.
#[export] Hint Resolve tame_iref : tests.

Lemma tame_forktest' s : wp (fun _ => True) (forktest s).
Proof. unfold forktest, fork_children. test. Qed.
#[export] Hint Resolve tame_forktest' : tests.

Lemma tame_touch_pages n a e : wp (fun _ => True) (touch_pages n a e).
Proof. unfold touch_pages. test. Qed.
#[export] Hint Resolve tame_touch_pages : tests.

Lemma tame_sbrkbasic n s : wp (fun _ => True) (sbrkbasic n s).
Proof. unfold sbrkbasic, touch_pages, sbrk_bytes. test. Qed.
#[export] Hint Resolve tame_sbrkbasic : tests.

Lemma tame_sbrkmuch s : wp (fun _ => True) (sbrkmuch s).
Proof. unfold sbrkmuch. test. Qed.
#[export] Hint Resolve tame_sbrkmuch : tests.

Lemma tame_kernmem s : wp (fun _ => True) (kernmem s).
Proof. unfold kernmem. test. Qed.
#[export] Hint Resolve tame_kernmem : tests.

Lemma tame_MAXVAplus s : wp (fun _ => True) (MAXVAplus s).
Proof. unfold MAXVAplus. test. Qed.
#[export] Hint Resolve tame_MAXVAplus : tests.

Lemma tame_sbrkfail_child n fds1 : wp (fun _ => True) (sbrkfail_child n fds1).
Proof. unfold sbrkfail_child. test. Qed.
#[export] Hint Resolve tame_sbrkfail_child : tests.

Lemma tame_sbrkfail_forks n fds0 fds1 pids scratch : length pids = 10%nat -> length scratch = 1%nat ->
  wp (fun x => length x.1 = 10%nat) (sbrkfail_forks n fds0 fds1 pids scratch).
Proof.
  intros Hp Hs. unfold sbrkfail_forks. apply wp_bind, (wp_for (fun '(p, c, _) => length p = 10%nat /\ length c = 1%nat)); [done| |].
  - intros i [[p c] failed] Hi [Hp' Hc]. flow.
  - intros [[p c] failed] [Hp' _]. flow.
Qed.

Lemma tame_sbrkfail n s : wp (fun _ => True) (sbrkfail n s).
Proof.
  unfold sbrkfail. apply wp_bind, wp_local. intros scratch Ls. apply wp_bind, wp_local. intros pids Lp. do 3 flow_step. do 2 flow_step; [flow|].
  apply wp_bind. eapply wp_mono; [apply tame_sbrkfail_forks; lia|]. intros [pids' failed] Hp. cbn in Hp. test.
Qed.
#[export] Hint Resolve tame_sbrkfail : tests.

Lemma tame_sbrkarg s : wp (fun _ => True) (sbrkarg s).
Proof. unfold sbrkarg. test. Qed.
#[export] Hint Resolve tame_sbrkarg : tests.

Lemma tame_validatetest nosuchfile s : wp (fun _ => True) (validatetest nosuchfile s).
Proof. unfold validatetest. test. Qed.
#[export] Hint Resolve tame_validatetest : tests.

Lemma tame_bsstest uninit s : length uninit = Z.to_nat 10000 -> wp (fun _ => True) (bsstest uninit s).
Proof. intros Hu. unfold bsstest. test. Qed.
#[export] Hint Resolve tame_bsstest : tests.

Lemma tame_bigargtest s : wp (fun _ => True) (bigargtest s).
Proof.
  unfold bigargtest. do 5 flow_step; [|flow]. repeat flow_step.
  apply (wp_for (fun a => length a = Z.to_nat MAXARG)); [apply length_replicate| |].
  - intros i a Hi Ha. flow.
  - intros a Ha. apply wp_bind, wp_set_at; [lia|]. intros _. apply wp_bind, wp_args_of; [|flow].
    apply (list_elem_of_lookup_2 _ (Z.to_nat (MAXARG - 1))). apply list_lookup_insert_eq. lia.
Qed.
#[export] Hint Resolve tame_bigargtest : tests.

Lemma wp_fullname i (Q : list Z -> Prop) : (forall s, Q s) -> wp Q (fullname i).
Proof. intros HQ. unfold fullname. flow; auto. Qed.

Lemma wp_bigname i (Q : list Z -> Prop) : (forall s, Q s) -> wp Q (bigname i).
Proof. intros HQ. unfold bigname. flow; auto. Qed.

Lemma wp_zzname i (Q : list Z -> Prop) : (forall s, Q s) -> wp Q (zzname i).
Proof. intros HQ. unfold zzname. flow; auto. Qed.

Ltac name_step :=
  match goal with
  | |- wp _ (fullname _) => apply wp_fullname; intros ?
  | |- wp _ (bigname _) => apply wp_bigname; intros ?
  | |- wp _ (zzname _) => apply wp_zzname; intros ?
  | |- _ => test_step
  end.
Ltac named := repeat name_step; try solve [done | congruence | lia].

Lemma tame_fsfull n buf : length buf = Z.to_nat 12288 -> wp (fun _ => True) (fsfull n buf).
Proof. intros Hbuf. unfold fsfull, fsfull_write. named. Qed.

Lemma tame_argptest s : wp (fun _ => True) (argptest s).
Proof. unfold argptest. test. Qed.
#[export] Hint Resolve tame_argptest : tests.

Lemma tame_stacktest sp s : wp (fun _ => True) (stacktest sp s).
Proof. unfold stacktest. test. Qed.
#[export] Hint Resolve tame_stacktest : tests.

Lemma tame_nowrite s : wp (fun _ => True) (nowrite s).
Proof. unfold nowrite. test. Qed.
#[export] Hint Resolve tame_nowrite : tests.

Lemma tame_pgbug s : wp (fun _ => True) (pgbug s).
Proof. unfold pgbug. test. Qed.
#[export] Hint Resolve tame_pgbug : tests.

Lemma tame_sbrkbugs s : wp (fun _ => True) (sbrkbugs s).
Proof. unfold sbrkbugs, sbrkbugs_child. test. Qed.
#[export] Hint Resolve tame_sbrkbugs : tests.

Lemma tame_sbrklast s : wp (fun _ => True) (sbrklast s).
Proof. unfold sbrklast. test. Qed.
#[export] Hint Resolve tame_sbrklast : tests.

Lemma tame_sbrk8000 s : wp (fun _ => True) (sbrk8000 s).
Proof. unfold sbrk8000. test. Qed.
#[export] Hint Resolve tame_sbrk8000 : tests.

Lemma tame_badarg s : wp (fun _ => True) (badarg s).
Proof. unfold badarg. test. Qed.
#[export] Hint Resolve tame_badarg : tests.

Lemma tame_lazy_alloc n s : wp (fun _ => True) (lazy_alloc n s).
Proof. unfold lazy_alloc, for_region, load_ptr. test. Qed.
#[export] Hint Resolve tame_lazy_alloc : tests.

Lemma tame_lazy_unmap n s : wp (fun _ => True) (lazy_unmap n s).
Proof. unfold lazy_unmap, for_region. test. Qed.
#[export] Hint Resolve tame_lazy_unmap : tests.

Lemma tame_lazy_copy_addr bad : wp (fun _ => True) (lazy_copy_addr bad).
Proof. unfold lazy_copy_addr. test. Qed.
#[export] Hint Resolve tame_lazy_copy_addr : tests.

Lemma tame_lazy_copy s : wp (fun _ => True) (lazy_copy s).
Proof. unfold lazy_copy. test. Qed.
#[export] Hint Resolve tame_lazy_copy : tests.

Lemma tame_lazy_sbrk n s : wp (fun _ => True) (lazy_sbrk n s).
Proof. unfold lazy_sbrk, lazy_grow. test. Qed.
#[export] Hint Resolve tame_lazy_sbrk : tests.

Lemma wp_morecore fuel h nu (Q : Z * heap -> Prop) : (forall r, Q r) -> wp Q (morecore fuel h nu).
Proof. intros HQ. unfold morecore. flow. Qed.

Lemma wp_malloc base rs fuel h n (Q : Z * heap -> Prop) : (forall r, Q r) -> wp Q (malloc base rs fuel h n).
Proof.
  intros HQ. unfold malloc. cbv zeta. generalize (malloc_init base h), (u32 ((n + 16 - 1) / 16 + 1)). intros h' nu.
  generalize (freep h') at 1, (ptr (hmem h') (freep h')). revert h'. induction rs as [|rs IH]; intros h' prevp p; cbn [malloc_loop]; [by apply wp_rounds|].
  flow. apply wp_morecore. flow.
Qed.

Lemma tame_mem_child rs fuel base h s : wp (fun _ => True) (mem_child rs fuel base h s).
Proof.
  unfold mem_child. apply wp_bind, wp_loop_any. intros [m1 h1]. apply wp_bind, wp_malloc. test; apply wp_malloc; test.
Qed.
#[export] Hint Resolve tame_mem_child : tests.

Lemma tame_mem rs fuel base h s : wp (fun _ => True) (mem rs fuel base h s).
Proof. unfold mem. test. Qed.
#[export] Hint Resolve tame_mem : tests.

Lemma tame_bdname i name : length name = 10%nat -> wp (fun x => length x.1 = 10%nat) (bdname i name).
Proof. intros Hn. unfold bdname. flow. Qed.

Lemma tame_bigdir s : wp (fun _ => True) (bigdir s).
Proof.
  unfold bigdir. apply wp_bind, wp_local. intros name Ln. flow. apply (wp_for (fun b => length b = 10%nat)); [lia| |].
  - intros i b _ Hb. apply wp_bind. eapply wp_mono; [by apply tame_bdname|]. intros [b' file] Hb'. flow.
  - intros b Hb. do 2 flow_step. apply wp_bind, (wp_for (fun b => length b = 10%nat)); [lia| |flow].
    intros i c _ Hc. apply wp_bind. eapply wp_mono; [by apply tame_bdname|]. intros [c' file] Hc'. flow.
Qed.
#[export] Hint Resolve tame_bigdir : tests.

Lemma tame_manywrites_child ci buf s : length buf = Z.to_nat 12288 -> wp (fun _ => True) (manywrites_child ci buf s).
Proof. intros Hbuf. unfold manywrites_child. test. Qed.
#[export] Hint Resolve tame_manywrites_child : tests.

Lemma tame_manywrites buf s : length buf = Z.to_nat 12288 -> wp (fun _ => True) (manywrites buf s).
Proof. intros Hbuf. unfold manywrites. test. Qed.
#[export] Hint Resolve tame_manywrites : tests.

Lemma tame_badwrite s : wp (fun _ => True) (badwrite s).
Proof. unfold badwrite. test. Qed.
#[export] Hint Resolve tame_badwrite : tests.

Lemma tame_exhaust n : wp (fun _ => True) (exhaust n).
Proof. unfold exhaust. test. Qed.
#[export] Hint Resolve tame_exhaust : tests.

Lemma tame_execout n s : wp (fun _ => True) (execout n s).
Proof. unfold execout. test. Qed.
#[export] Hint Resolve tame_execout : tests.

Lemma tame_zz_make nzz : wp (fun _ => True) (zz_make nzz).
Proof. unfold zz_make. named. Qed.
#[export] Hint Resolve tame_zz_make : tests.

Lemma tame_zz_remove nzz : wp (fun _ => True) (zz_remove nzz).
Proof. unfold zz_remove. named. Qed.
#[export] Hint Resolve tame_zz_remove : tests.

Lemma tame_diskfull s : wp (fun _ => True) (diskfull s).
Proof. unfold diskfull, diskfull_file. named. Qed.
#[export] Hint Resolve tame_diskfull : tests.

Lemma tame_outofinodes s : wp (fun _ => True) (outofinodes s).
Proof. unfold outofinodes. named. Qed.
#[export] Hint Resolve tame_outofinodes : tests.

(** ** All tests *)

(** The arrays of the process have the sizes the source declares. *)
Definition image_ok (im : image) : Prop :=
  length (im_buf im) = Z.to_nat 12288 /\ length (im_uninit im) = Z.to_nat 10000.

Definition tame_test (t : test) : Prop := forall s, wp (fun _ => True) (t_f t s).

Lemma quicktests_tame im : image_ok im -> Forall tame_test (quicktests im).
Proof.
  intros (Hbuf & Huninit). unfold quicktests. cbv zeta.
  repeat (apply Forall_cons_2; [intros s; cbn [t_f]; auto with tests|]). apply Forall_nil_2.
Qed.

Lemma slowtests_tame im : image_ok im -> Forall tame_test (slowtests im).
Proof.
  intros (Hbuf & Huninit). unfold slowtests.
  repeat (apply Forall_cons_2; [intros s; cbn [t_f]; auto with tests|]). apply Forall_nil_2.
Qed.

(** The driver on tests of this kind. *)
Lemma wp_run_test f s (Q : bool -> Prop) : wp (fun _ => True) (f s) -> (forall b, Q b) -> wp Q (run_test f s).
Proof.
  intros Hf HQ. unfold run_test. do 5 flow_step; [flow|]. flow_step; [|flow; auto].
  apply wp_bind. eapply wp_mono; [exact Hf|]. flow.
Qed.

Lemma wp_runtests tests justone continuous n (Q : Z -> Prop) :
  Forall tame_test tests -> (forall r, Q r) -> wp Q (runtests_from tests justone continuous n).
Proof.
  intros Ht HQ. revert n. induction Ht as [|t tests Ht _ IH]; intros n; cbn [runtests_from]; [apply wp_ret, HQ|].
  destruct (wanted _ _); [|apply IH]. apply wp_bind, wp_run_test; [apply Ht|]. intros ok. destruct (_ && _); [|apply IH]. flow; auto.
Qed.

Lemma wp_countfree n (Q : Z -> Prop) : (forall r, Q r) -> wp Q (countfree n).
Proof. intros HQ. unfold countfree. test; auto. Qed.

Lemma wp_drive_round im quick continuous justone (Q : bool -> Prop) : image_ok im -> (forall b, Q b) -> wp Q (drive_round im quick continuous justone).
Proof.
  intros Him HQ. unfold drive_round, runtests. do 2 flow_step. apply wp_bind, wp_countfree. intros free0. apply wp_bind, wp_runtests; [by apply quicktests_tame|].
  intros n. flow_step; [apply wp_ret, HQ|]. cbv zeta. apply wp_bind. eapply (wp_mono (fun _ => True)).
  - unfold drive_slow. flow_step; [flow|]. apply wp_bind. eapply (wp_mono (fun _ => True)); [destruct justone; flow|]. intros ? _.
    apply wp_bind, wp_runtests; [by apply slowtests_tame|]. flow.
  - intros [m|] _; [|apply wp_ret, HQ]. unfold drive_end. apply wp_bind, wp_countfree. intros free1. flow; auto.
Qed.

Lemma tame_usertests im args : image_ok im -> wp (fun _ => True) (usertests_main im args).
Proof.
  intros Him. assert (Hgo : forall quick continuous justone, wp (fun _ => True)
    (r <- drivetests im quick continuous justone ;; if negb (r =? 0) then UExit 1 else printf ("ALL TESTS PASSED" +:+ nl) [] ;; (UExit 0 : prog Z))).
  { intros quick continuous justone. unfold drivetests. apply wp_bind, wp_loop_any. intros _. apply wp_bind, wp_drive_round; [done|]. flow. }
  unfold usertests_main. cbv zeta. destruct args as [|a [|]]; [apply Hgo| |flow]. repeat (flow_step; [apply Hgo|]). flow.
Qed.

(** C34. [usertests] keeps to its arrays: on any kernel whose [read] stores no more bytes than it was
    asked for, and whatever uninitialised arrays hold, neither the driver nor any of its 70 tests, in
    the parent or in a child, accesses a local or global array of bytes, numbers or pointers out of
    bounds, uses a string or an argument vector that does not end in its array, or gives [printf]
    arguments that do not fit its format.  Whatever [usertests] is called with, it returns, exits, or
    its loops go on. *)
Theorem usertests_memory_safe {W} (h : handler W) im args w :
  kernel_ok h -> image_ok im ->
  match (exec h (usertests_main im args) w).1 with
  | Wrong why => why = rounds
  | _ => True
  end.
Proof. intros Hh Him. pose proof (wp_exec h _ _ w Hh (tame_usertests im args Him)) as H. by destruct (exec h _ w).1. Qed.

Lemma sim_ok f : kernel_ok (sim f).
Proof. intros X e [i c p b g]. destruct e; cbn; try done; [lia|]. apply length_replicate. Qed.

(** On the kernel [sim], the test [copyin] run by name. *)
Lemma usertests_memory_safe_witness :
  match (exec (sim (fun _ => Exits 0 7)) (usertests_main idle_image [str "copyin"]) idle_view).1 with
  | Wrong why => why = rounds
  | _ => True
  end.
Proof.
  apply (usertests_memory_safe (sim (fun _ => Exits 0 7)) idle_image [str "copyin"]); [apply sim_ok|]. vm_compute. done.
Defined.
