(* ===== verification/Sh.v ===== *)
(** * The shell: [sh.c]

    The line that was read is a list of bytes without its final 0.  A pointer
    into it is the list of the bytes from there to the end [es], so that [q]
    and [eq] of a token are two suffixes of the line.  The parser returns a
    command, or the message it panics with; what it writes into the buffer, the
    zeros of [nulterminate], goes to the offset of the suffix.

    [struct execcmd] is filled in after it has been wrapped in [struct
    redircmd]s; here the redirections are collected and the wrapping is done
    when the arguments are known. *)

From S2P Require Import Prelude CString Printf UserSys Ulib.
From stdpp Require Import base numbers strings list.
From Stdlib Require Import ZArith Lia.

#[local] Open Scope Z_scope.
#[local] Open Scope user_scope.

(** ** Commands *)

Abbreviation char_ptr := (list Z) (only parsing).

(** The fields [file], [efile], [mode] and [fd] of a [struct redircmd]. *)
Record redir := mkredir { r_file : char_ptr; r_efile : char_ptr; r_mode : Z; r_fd : Z }.

Inductive cmd :=
  | EXEC (argv : list (char_ptr * char_ptr)) (** [argv] and [eargv], without the final 0 *)
  | REDIR (c : cmd) (r : redir)
  | PIPE (left right : cmd)
  | LIST (left right : cmd)
  | BACK (c : cmd).

Abbreviation MAXARGS := 10%nat (only parsing).

(** ** Tokens *)

(** " \t\r\n\v" *)
Definition whitespace : list Z := [32; 9; 13; 10; 11].
Definition symbols : list Z := str "<|>&;()".

(** [strchr(set, c)], as a condition. *)
Definition among (set : list Z) (c : Z) : bool := match strchr set c with Some _ => true | None => false end.

(** [while(s < es && strchr(whitespace, *s)) s++;] *)
Fixpoint skip_ws (s : char_ptr) : char_ptr :=
  match s with
  | [] => []
  | c :: s' => if among whitespace c then skip_ws s' else s
  end.

(** [while(s < es && !strchr(whitespace, *s) && !strchr(symbols, *s)) s++;] *)
Fixpoint skip_word (s : char_ptr) : char_ptr :=
  match s with
  | [] => []
  | c :: s' => if negb (among whitespace c) && negb (among symbols c) then skip_word s' else s
  end.

(** The token, [q], [eq] and the new value of [*ps]. *)
Definition gettoken (ps : char_ptr) : Z * char_ptr * char_ptr * char_ptr :=
  let s := skip_ws ps in
  let q := s in
  let '(ret, s) :=
    match s with
    | [] => (0, s)
    | c :: s1 =>
        if c =? 0 then (0, s)
        else if among (str "|();&<") c then (c, s1)
        else if c =? chr ">" then
          match s1 with
          | d :: s2 => if d =? chr ">" then (chr "+", s2) else (c, s1)
          | [] => (c, s1)
          end
        else (chr "a", skip_word s)
    end in
  (ret, q, s, skip_ws s).

Definition peek (ps : char_ptr) (toks : string) : bool * char_ptr :=
  let s := skip_ws ps in
  (match s with
   | [] => false
   | c :: _ => negb (c =? 0) && among (str toks) c
   end, s).

(** ** The parser *)

(** [PFuel]: out of rounds, which does not happen. *)
Inductive presult (A : Type) := PDone (a : A) | PPanic (msg : string) | PFuel.
Arguments PDone {A} a.
Arguments PPanic {A} msg.
Arguments PFuel {A}.

Definition pbind {A B} (p : presult A) (f : A -> presult B) : presult B :=
  match p with
  | PDone a => f a
  | PPanic m => PPanic m
  | PFuel => PFuel
  end.

Declare Scope parse_scope.
Notation "' p <- m ;; f" := (pbind m (fun x => match x with p => f end))
  (at level 20, p pattern, m at level 99, f at level 200) : parse_scope.

#[local] Open Scope parse_scope.

(** The switch of [parseredirs]. *)
Definition redir_of (tok : Z) (q eq : char_ptr) : list redir :=
  if tok =? chr "<" then [mkredir q eq O_RDONLY 0]
  else if tok =? chr ">" then [mkredir q eq (Z.lor (Z.lor O_WRONLY O_CREATE) O_TRUNC) 1]
  else if tok =? chr "+" then [mkredir q eq (Z.lor O_WRONLY O_CREATE) 1]
  else [].

(** [while(peek(ps, es, "<>"))]: the redirections, the first one innermost. *)
Fixpoint redirs_loop (fuel : nat) (s : char_ptr) : presult (list redir * char_ptr) :=
  match fuel with
  | O => PFuel
  | S fuel =>
      let '(b, s) := peek s "<>" in
      if b then
        let '(tok, _, _, s) := gettoken s in
        let '(t, q, eq, s) := gettoken s in
        if negb (t =? chr "a") then PPanic "missing file for redirection"
        else
        '(rs, s) <- redirs_loop fuel s ;;
        PDone (redir_of tok q eq ++ rs, s)
      else PDone ([], s)
  end.

Definition parseredirs (s : char_ptr) : presult (list redir * char_ptr) := redirs_loop (S (length s)) s.

(** [cmd = redircmd(cmd, ...)] for each of them. *)
Definition redircmds (c : cmd) (rs : list redir) : cmd := fold_left REDIR rs c.

(** [while(!peek(ps, es, "|)&;"))]: the arguments and the redirections between them. *)
Fixpoint exec_loop (fuel : nat) (argc : nat) (s : char_ptr) : presult (list (char_ptr * char_ptr) * list redir * char_ptr) :=
  match fuel with
  | O => PFuel
  | S fuel =>
      let '(b, s) := peek s "|)&;" in
      if b then PDone ([], [], s)
      else
      let '(tok, q, eq, s) := gettoken s in
      if tok =? 0 then PDone ([], [], s)
      else if negb (tok =? chr "a") then PPanic "syntax"
      else if (MAXARGS <=? S argc)%nat then PPanic "too many args"
      else
      '(rs, s) <- parseredirs s ;;
      '(args, rs', s) <- exec_loop fuel (S argc) s ;;
      PDone ((q, eq) :: args, rs ++ rs', s)
  end.

(** [while(peek(ps, es, "&"))] *)
Fixpoint back_loop (fuel : nat) (c : cmd) (s : char_ptr) : presult (cmd * char_ptr) :=
  match fuel with
  | O => PFuel
  | S fuel =>
      let '(b, s) := peek s "&" in
      if b then
        let '(_, _, _, s) := gettoken s in
        back_loop fuel (BACK c) s
      else PDone (c, s)
  end.

Fixpoint parseline (fuel : nat) (s : char_ptr) : presult (cmd * char_ptr) :=
  match fuel with
  | O => PFuel
  | S fuel =>
      '(c, s) <- parsepipe fuel s ;;
      '(c, s) <- back_loop (S (length s)) c s ;;
      let '(b, s) := peek s ";" in
      if b then
        let '(_, _, _, s) := gettoken s in
        '(c2, s) <- parseline fuel s ;;
        PDone (LIST c c2, s)
      else PDone (c, s)
  end
with parsepipe (fuel : nat) (s : char_ptr) : presult (cmd * char_ptr) :=
  match fuel with
  | O => PFuel
  | S fuel =>
      '(c, s) <- parseexec fuel s ;;
      let '(b, s) := peek s "|" in
      if b then
        let '(_, _, _, s) := gettoken s in
        '(c2, s) <- parsepipe fuel s ;;
        PDone (PIPE c c2, s)
      else PDone (c, s)
  end
with parseexec (fuel : nat) (s : char_ptr) : presult (cmd * char_ptr) :=
  match fuel with
  | O => PFuel
  | S fuel =>
      let '(b, s) := peek s "(" in
      if b then parseblock fuel s
      else
      '(rs, s) <- parseredirs s ;;
      '(args, rs', s) <- exec_loop (S (length s)) 0 s ;;
      PDone (redircmds (EXEC args) (rs ++ rs'), s)
  end
with parseblock (fuel : nat) (s : char_ptr) : presult (cmd * char_ptr) :=
  match fuel with
  | O => PFuel
  | S fuel =>
      let '(b, s) := peek s "(" in
      if negb b then PPanic "parseblock"
      else
      let '(_, _, _, s) := gettoken s in
      '(c, s) <- parseline fuel s ;;
      let '(b, s) := peek s ")" in
      if negb b then PPanic "syntax - missing )"
      else
      let '(_, _, _, s) := gettoken s in
      '(rs, s) <- parseredirs s ;;
      PDone (redircmds c rs, s)
  end.

(** The rounds the nested calls can make. *)
Definition parse_fuel (s : char_ptr) : nat := (4 * length s + 4)%nat.

(** ** Zeros behind the strings *)

(** The buffer with a 0 at the place of the suffix [p]. *)
Definition zero_at (line : list Z) (p : char_ptr) (buf : list Z) : list Z := setz buf (Z.of_nat (length line - length p)) 0.

Fixpoint nulterminate (line : list Z) (c : cmd) (buf : list Z) : list Z :=
  match c with
  | EXEC argv => fold_left (fun buf a => zero_at line (snd a) buf) argv buf
  | REDIR c r => zero_at line (r_efile r) (nulterminate line c buf)
  | PIPE l r => nulterminate line r (nulterminate line l buf)
  | LIST l r => nulterminate line r (nulterminate line l buf)
  | BACK c => nulterminate line c buf
  end.

(** The string at a pointer into the line, once the buffer is [buf]. *)
Definition string_at (line buf : list Z) (p : char_ptr) : list Z :=
  cstr_from (length buf) (nthd 0 buf) (Z.of_nat (length line - length p)).

(** ** The program *)

Definition panic {A} (s : string) : prog A :=
  (fprintf 2 ("%s" +:+ nl) [VStr (Some (str s))] ;;
   UExit 1)%user.

Definition fork1 : prog Z :=
  (pid <- call SFork ;;
   if pid =? -1 then panic "fork" else URet pid)%user.

(** The command and the buffer in which its strings end in 0. *)
Definition parsecmd (s : list Z) : prog (cmd * list Z) :=
  match parseline (parse_fuel s) s with
  | PFuel => UBad "parse"
  | PPanic msg => panic msg
  | PDone (c, rest) =>
      let '(_, rest) := peek rest "" in
      match rest with
      | [] => URet (c, nulterminate s c (s ++ [0]))
      | _ => (fprintf 2 ("leftovers: %s" +:+ nl) [VStr (Some rest)] ;; panic "syntax")%user
      end
  end.

#[local] Close Scope parse_scope.

(** [line] and [buf] give the strings of the command. *)
Fixpoint runcmd (line buf : list Z) (c : cmd) : prog Z :=
  match c with
  | EXEC [] => UExit 1
  | EXEC (a :: _ as argv) =>
      call (SExec (string_at line buf (fst a)) (map (fun a => string_at line buf (fst a)) argv)) ;;
      fprintf 2 ("exec %s failed" +:+ nl) [VStr (Some (string_at line buf (fst a)))] ;;
      UExit 0
  | REDIR c r =>
      call (SClose (r_fd r)) ;;
      fd <- call (SOpen (string_at line buf (r_file r)) (r_mode r)) ;;
      if fd <? 0 then
        fprintf 2 ("open %s failed" +:+ nl) [VStr (Some (string_at line buf (r_file r)))] ;;
        UExit 1
      else runcmd line buf c
  | LIST l r =>
      pid <- fork1 ;;
      if pid =? 0 then runcmd line buf l
      else
      call SWait ;;
      runcmd line buf r
  | PIPE l r =>
      '(res, p0, p1) <- call SPipe ;;
      if res <? 0 then panic "pipe"
      else
      pid <- fork1 ;;
      if pid =? 0 then
        call (SClose 1) ;;
        call (SDup p1) ;;
        call (SClose p0) ;;
        call (SClose p1) ;;
        runcmd line buf l
      else
      pid <- fork1 ;;
      if pid =? 0 then
        call (SClose 0) ;;
        call (SDup p0) ;;
        call (SClose p0) ;;
        call (SClose p1) ;;
        runcmd line buf r
      else
      call (SClose p0) ;;
      call (SClose p1) ;;
      call SWait ;;
      call SWait ;;
      UExit 0
  | BACK c =>
      pid <- fork1 ;;
      if pid =? 0 then runcmd line buf c else UExit 0
  end.

(** The line read, or [None] at the end of the input. *)
Definition getcmd (nbuf : Z) : prog (option (list Z)) :=
  call (SWrite 2 (str "$ ")) ;;
  buf <- gets nbuf ;;
  if nthd 0 buf 0 =? 0 then URet None else URet (Some buf).

(** The string that starts a list of bytes. *)
Fixpoint cstring (l : list Z) : list Z :=
  match l with
  | [] => []
  | c :: l => if c =? 0 then [] else c :: cstring l
  end.

(** [while ( *cmd == ' ' || *cmd == '\t') cmd++;] *)
Fixpoint skip_blanks (s : list Z) : list Z :=
  match s with
  | c :: s' => if (c =? 32) || (c =? 9) then skip_blanks s' else s
  | [] => []
  end.

(** The part of the loop of [main] that runs one line. *)
Definition run_line (cmd : list Z) : prog unit :=
  if (nthd 0 cmd 0 =? chr "c") && (nthd 0 cmd 1 =? chr "d") && (nthd 0 cmd 2 =? chr " ") then
    let cmd := removelast cmd in
    r <- call (SChdir (drop 3 cmd)) ;;
    if r <? 0 then fprintf 2 ("cannot cd %s" +:+ nl) [VStr (Some (drop 3 cmd))] else URet tt
  else
  pid <- fork1 ;;
  if pid =? 0 then
    '(c, buf) <- parsecmd cmd ;;
    runcmd cmd buf c ;;
    URet tt
  else
  call SWait ;;
  URet tt.

Fixpoint sh_loop (fuel : nat) : prog Z :=
  match fuel with
  | O => UBad "sh"
  | S fuel =>
      line <- getcmd 100 ;;
      match line with
      | None => UExit 0
      | Some buf =>
          let cmd := skip_blanks (cstring buf) in
          if nthd 0 cmd 0 =? 10 then sh_loop fuel
          else
          run_line cmd ;;
          sh_loop fuel
      end
  end.

(** [while((fd = open("console", O_RDWR)) >= 0)] *)
Fixpoint sh_fds (fuel : nat) : prog unit :=
  match fuel with
  | O => UBad "sh"
  | S fuel =>
      fd <- call (SOpen (str "console") O_RDWR) ;;
      if fd >=? 0 then
        if fd >=? 3 then
          call (SClose fd) ;;
          URet tt
        else sh_fds fuel
      else URet tt
  end.

Definition sh_main (fuel : nat) : prog Z :=
  sh_fds fuel ;;
  sh_loop fuel.

(** ** Lemmas: [runcmd] does not return *)

(** No leaf of the program returns a value. *)
Fixpoint noreturn {A} (p : prog A) : Prop :=
  match p with
  | URet _ => False
  | UExit _ | UBad _ => True
  | UCall e k => forall x, noreturn (k x)
  end.

Lemma noreturn_bind {A B} (p : prog A) (f : A -> prog B) : (forall a, noreturn (f a)) -> noreturn (ubind p f).
Proof. intros Hf. induction p as [a|n|why|X e k IH]; cbn; auto. Qed.

Lemma noreturn_exec {A W} (h : handler W) (p : prog A) w a w' : noreturn p -> exec h p w <> (Returned a, w').
Proof.
  revert w. induction p as [x|n|why|X e k IH]; intros w Hp; cbn in *; [done|congruence|congruence|]. destruct (h X e w) as [x w1]. by apply IH.
Qed.

Lemma noreturn_panic {A} s : noreturn (panic (A := A) s).
Proof. apply noreturn_bind. by intros. Qed.

Lemma runcmd_noreturn line buf c : noreturn (runcmd line buf c).
Proof.
  induction c as [argv|c IH r|l IHl r IHr|l IHl r IHr|c IH]; cbn [runcmd].
  - destruct argv as [|a argv]; [done|]. repeat (apply noreturn_bind; intros). done.
  - repeat (apply noreturn_bind; intros). case_match; [|done]. by apply noreturn_bind.
  - apply noreturn_bind. intros [[res p0] p1]. case_match; [apply noreturn_panic|]. apply noreturn_bind. intros pid. case_match.
    + by repeat (apply noreturn_bind; intros).
    + apply noreturn_bind. intros pid2. case_match; by repeat (apply noreturn_bind; intros).
  - apply noreturn_bind. intros pid. case_match; [done|]. by apply noreturn_bind.
  - apply noreturn_bind. intros pid. by case_match.
Qed.
