(* ===== verification/ShGrammar.v ===== *)
(** * The language of the shell

    The tokens of a line and the grammar of its commands, written without
    regard to how [sh.c] parses, and the proof that the parser accepts exactly
    the sentences of the grammar and gives each the command it denotes, with
    every string cut out of the line by [nulterminate] being the word of the
    sentence.  The parser stops on every input. *)

From S2P Require Import Prelude CString Printf UserSys Ulib Sh.
From stdpp Require Import base numbers strings list sets.
From Stdlib Require Import ZArith Lia.

#[local] Open Scope Z_scope.

(** ** Tokens *)

(** A word, or a symbol; [>>] is the symbol 43, as in the code. *)
Inductive token := TWord (w : list Z) | TSym (c : Z).

Definition ws (c : Z) : bool := among whitespace c.
Definition symbol (c : Z) : bool := among symbols c.
Definition wordchar (c : Z) : bool := negb (ws c) && negb (symbol c).

Fixpoint lex (s : list Z) : list token :=
  match s with
  | [] => []
  | c :: s1 =>
      if ws c then lex s1
      else if c =? chr ">" then
        match s1 with
        | d :: s2 => if d =? chr ">" then TSym 43 :: lex s2 else TSym c :: lex s1
        | [] => [TSym c]
        end
      else if symbol c then TSym c :: lex s1
      else
        match s1 with
        | d :: _ =>
            if wordchar d then match lex s1 with TWord w :: ts => TWord (c :: w) :: ts | ts => TWord [c] :: ts end
            else TWord [c] :: lex s1
        | [] => [TWord [c]]
        end
  end.

(** ** The grammar *)

(** Commands with the strings themselves in place of pointers. *)
Inductive scmd :=
  | SEXEC (args : list (list Z))
  | SREDIR (c : scmd) (file : list Z) (mode fd : Z)
  | SPIPE (l r : scmd)
  | SLIST (l r : scmd)
  | SBACK (c : scmd).

Definition sym (s : string) : token := TSym (chr s).

(** File, mode and descriptor of a redirection. *)
Definition sredirs (c : scmd) (rs : list (list Z * Z * Z)) : scmd :=
  fold_left (fun c r => let '(file, mode, fd) := r in SREDIR c file mode fd) rs c.

Definition backs (n : nat) (c : scmd) : scmd := Nat.iter n SBACK c.

Inductive gredirs : list token -> list (list Z * Z * Z) -> Prop :=
  | gr_nil : gredirs [] []
  | gr_in w ts rs : gredirs ts rs -> gredirs (sym "<" :: TWord w :: ts) ((w, O_RDONLY, 0) :: rs)
  | gr_out w ts rs : gredirs ts rs -> gredirs (sym ">" :: TWord w :: ts) ((w, Z.lor (Z.lor O_WRONLY O_CREATE) O_TRUNC, 1) :: rs)
  | gr_append w ts rs : gredirs ts rs -> gredirs (sym "+" :: TWord w :: ts) ((w, Z.lor O_WRONLY O_CREATE, 1) :: rs).

(** Arguments, each with the redirections that follow it. *)
Inductive gargs : list token -> list (list Z) -> list (list Z * Z * Z) -> Prop :=
  | ga_nil : gargs [] [] []
  | ga_arg w ts rs ts' args rs' : gredirs ts rs -> gargs ts' args rs' -> gargs (TWord w :: ts ++ ts') (w :: args) (rs ++ rs').

Inductive gline : list token -> scmd -> Prop :=
  | gl_end ts c n : gpipe ts c -> gline (ts ++ replicate n (sym "&")) (backs n c)
  | gl_list ts c n ts' c' : gpipe ts c -> gline ts' c' -> gline (ts ++ replicate n (sym "&") ++ sym ";" :: ts') (SLIST (backs n c) c')
with gpipe : list token -> scmd -> Prop :=
  | gp_end ts c : gexec ts c -> gpipe ts c
  | gp_pipe ts c ts' c' : gexec ts c -> gpipe ts' c' -> gpipe (ts ++ sym "|" :: ts') (SPIPE c c')
with gexec : list token -> scmd -> Prop :=
  | ge_block ts c ts' rs : gline ts c -> gredirs ts' rs -> gexec (sym "(" :: ts ++ sym ")" :: ts') (sredirs c rs)
  | ge_simple ts rs ts' args rs' : gredirs ts rs -> gargs ts' args rs' -> (length args < MAXARGS)%nat -> gexec (ts ++ ts') (sredirs (SEXEC args) (rs ++ rs')).

Scheme gline_mut := Minimality for gline Sort Prop
with gpipe_mut := Minimality for gpipe Sort Prop
with gexec_mut := Minimality for gexec Sort Prop.
Combined Scheme grammar_ind from gline_mut, gpipe_mut, gexec_mut.

(** ** Lemmas: tokens *)

Definition nonul (s : list Z) : Prop := Forall (fun c => c <> 0) s.

(** [eq] begins where the word before it has ended. *)
Definition word_ends (eq : list Z) : Prop := match eq with [] => True | c :: _ => wordchar c = false end.

Lemma skip_ws_suffix s : exists pre, s = pre ++ skip_ws s.
Proof.
  induction s as [|c s [pre IH]]; cbn; [by exists []|]. destruct (among whitespace c); [exists (c :: pre); cbn; by rewrite <- IH|by exists []].
Qed.

Lemma skip_ws_head s : match skip_ws s with [] => True | c :: _ => ws c = false end.
Proof. induction s as [|c s IH]; cbn; [done|]. destruct (among whitespace c) eqn:E; [done|exact E]. Qed.

Lemma lex_skip_ws s : lex (skip_ws s) = lex s.
Proof. induction s as [|c s IH]; cbn; [done|]. unfold ws. by destruct (among whitespace c) eqn:E; [|cbn; unfold ws; rewrite E]. Qed.

Lemma skip_ws_idem s : skip_ws (skip_ws s) = skip_ws s.
Proof. pose proof (skip_ws_head s) as H. destruct (skip_ws s) as [|c r]; [done|]. cbn. unfold ws in H. by rewrite H. Qed.

(** A word is the longest sequence of word characters. *)
Lemma skip_word_spec s : exists w, s = w ++ skip_word s /\ Forall (fun c => wordchar c = true) w /\ word_ends (skip_word s).
Proof.
  induction s as [|c s (w&E&Hw&He)]; cbn [skip_word]; [by exists []|]. destruct (negb (among whitespace c) && negb (among symbols c)) eqn:Ec.
  - exists (c :: w). split; [by cbn; f_equal|]. split; [by constructor|done].
  - exists []. done.
Qed.

Lemma wordchar_spec c : wordchar c = true -> ws c = false /\ symbol c = false /\ (c =? chr ">") = false.
Proof.
  unfold wordchar. intros H. apply andb_true_iff in H as [H1 H2]. apply negb_true_iff in H1, H2. split; [done|]. split; [done|].
  destruct (Z.eqb_spec c (chr ">")) as [->|]; [|done]. discriminate H2.
Qed.

Lemma lex_wordchar c s : wordchar c = true -> lex (c :: s) =
  match s with
  | d :: _ => if wordchar d then match lex s with TWord w :: ts => TWord (c :: w) :: ts | ts => TWord [c] :: ts end else TWord [c] :: lex s
  | [] => [TWord [c]]
  end.
Proof. intros Hc. destruct (wordchar_spec c Hc) as (E1&E2&E3). cbn [lex]. rewrite E1, E3, E2. done. Qed.

Lemma lex_word c w eq : Forall (fun c => wordchar c = true) (c :: w) -> word_ends eq -> lex ((c :: w) ++ eq) = TWord (c :: w) :: lex eq.
Proof.
  revert c. induction w as [|d w IH]; intros c Hw He; apply Forall_cons in Hw as [Hc Hw]; cbn [app]; rewrite lex_wordchar by done.
  - destruct eq as [|d eq]; [done|]. cbn in He. by rewrite He.
  - pose proof Hw as Hw'. apply Forall_cons in Hw' as [Hd _]. rewrite Hd. pose proof (IH d Hw He) as E. cbn [app] in E. by rewrite E.
Qed.

(** What [gettoken] finds, as tokens. *)
Inductive got (s : list Z) : Z * list Z * list Z * list Z -> Prop :=
  | got_end : lex s = [] -> skip_ws s = [] -> got s (0, [], [], [])
  | got_word w q eq rest pre : s = pre ++ q -> q = w ++ eq -> w <> [] -> Forall (fun c => wordchar c = true) w -> word_ends eq ->
      rest = skip_ws eq -> lex s = TWord w :: lex rest -> got s (97, q, eq, rest)
  | got_sym t q eq rest pre : t <> 0 -> t <> 97 -> s = pre ++ rest -> pre <> [] -> lex s = TSym t :: lex rest -> got s (t, q, eq, rest).

Lemma among_elem set c : among set c = true -> c ∈ set.
Proof.
  unfold among. induction set as [|x set IH]; cbn [strchr]; [done|]. destruct (x =? 0); [done|]. destruct (Z.eqb_spec x c) as [->|]; [by left|].
  destruct (strchr set c); [|done]. intros _. right. by apply IH.
Qed.

Ltac each_char H := apply among_elem in H; repeat (apply elem_of_cons in H as [->|H]; [|]); try (by apply elem_of_nil in H).

Lemma simple_symbol c : among (str "|();&<") c = true -> ws c = false /\ symbol c = true /\ (c =? chr ">") = false /\ c <> 0 /\ c <> 97.
Proof. intros H. each_char H; vm_compute; repeat split; congruence. Qed.

Lemma other_wordchar c : ws c = false -> among (str "|();&<") c = false -> (c =? chr ">") = false -> wordchar c = true.
Proof.
  intros H1 H2 H3. unfold wordchar. rewrite H1. cbn [negb andb]. apply negb_true_iff. destruct (symbol c) eqn:E; [|done]. exfalso. unfold symbol in E.
  each_char E; try discriminate H2; discriminate H3.
Qed.

Lemma gettoken_got s : nonul s -> got s (gettoken s).
Proof.
  intros Hn. unfold gettoken. destruct (skip_ws_suffix s) as [pre E]. pose proof (skip_ws_head s) as Hh. pose proof (lex_skip_ws s) as El.
  destruct (skip_ws s) as [|c s1] eqn:Es; [by apply got_end|].
  assert (Hc : c <> 0) by (rewrite E in Hn; apply Forall_app in Hn as [_ Hn]; by apply Forall_cons in Hn as [Hn _]). rewrite (proj2 (Z.eqb_neq c 0) Hc).
  destruct (among (str "|();&<") c) eqn:Ea; [|destruct (c =? chr ">") eqn:Eg].
  - destruct (simple_symbol c Ea) as (_&Hs&Hg&_&H97). destruct (skip_ws_suffix s1) as [pre1 E1].
    apply (got_sym s c _ _ _ (pre ++ [c] ++ pre1)); [done|done| |by destruct pre|].
    + rewrite <- !app_assoc, <- E1. exact E.
    + rewrite <- El, lex_skip_ws. cbn [lex]. by rewrite Hh, Hg, Hs.
  - apply Z.eqb_eq in Eg. assert (Hone : forall s2, s1 = s2 -> lex (c :: s1) = TSym c :: lex s1 -> got s (c, c :: s1, s1, skip_ws s1)).
    { intros s2 _ El1. destruct (skip_ws_suffix s1) as [pre1 E1]. apply (got_sym s c _ _ _ (pre ++ [c] ++ pre1)); [done|by rewrite Eg| |by destruct pre|].
      - rewrite <- !app_assoc, <- E1. exact E.
      - by rewrite <- El, lex_skip_ws. }
    destruct s1 as [|d s2]; [apply (Hone []); [done|]; cbn [lex]; by rewrite Hh, Eg|]. destruct (d =? chr ">") eqn:Ed.
    + destruct (skip_ws_suffix s2) as [pre2 E2]. apply (got_sym s (chr "+") _ _ _ (pre ++ [c; d] ++ pre2)); [done|done| |by destruct pre|].
      * rewrite <- !app_assoc, <- E2. exact E.
      * rewrite <- El, lex_skip_ws. cbn [lex]. rewrite Hh, Eg, Ed. done.
    + apply (Hone (d :: s2)); [done|]. cbn [lex]. rewrite Hh, Eg, Ed. done.
  - pose proof (other_wordchar c Hh Ea Eg) as Hw. destruct (skip_word_spec (c :: s1)) as (w&Ew&Hall&He).
    destruct w as [|x w]; [cbn [app] in Ew; rewrite <- Ew in He; cbn in He; congruence|].
    apply (got_word s (x :: w) _ _ _ pre); try done. rewrite lex_skip_ws, <- El, Ew at 1. by apply lex_word.
Qed.

(** What [peek] sees: the character a symbol starts with. *)
Definition starts (ts : list token) (toks : string) : bool :=
  match ts with
  | TSym c :: _ => among (str toks) (if c =? 43 then 62 else c)
  | _ => false
  end.

Lemma peek_starts s toks : nonul s -> (forall c, among (str toks) c = true -> symbol c = true) -> peek s toks = (starts (lex s) toks, skip_ws s).
Proof.
  intros Hn Ht. unfold peek. f_equal. destruct (skip_ws_suffix s) as [pre E]. pose proof (skip_ws_head s) as Hh. rewrite <- (lex_skip_ws s).
  destruct (skip_ws s) as [|c s1]; [done|].
  assert (Hc : c <> 0) by (rewrite E in Hn; apply Forall_app in Hn as [_ Hn]; by apply Forall_cons in Hn as [Hn _]). rewrite (proj2 (Z.eqb_neq c 0) Hc). cbn [negb andb].
  destruct (symbol c) eqn:Es.
  - cbn [lex]. rewrite Hh, Es. destruct (c =? chr ">") eqn:Eg.
    + apply Z.eqb_eq in Eg. subst c. destruct s1 as [|d s2]; [done|]. by destruct (d =? chr ">").
    + cbn [starts]. destruct (Z.eqb_spec c 43) as [->|]; [discriminate Es|done].
  - assert (Hw : wordchar c = true) by (unfold wordchar; by rewrite Hh, Es). destruct (among (str toks) c) eqn:Ea; [apply Ht in Ea; congruence|].
    rewrite lex_wordchar by done. destruct s1 as [|d s2]; [done|]. destruct (wordchar d); [|done]. by destruct (lex (d :: s2)) as [|[]].
Qed.

(** The sets of symbols the parser peeks for. *)
Definition peeked : list string := ["<>"; "|)&;"; "&"; ";"; "|"; "("; ")"; ""]%string.

Lemma peek_lex s toks : nonul s -> toks ∈ peeked -> peek s toks = (starts (lex s) toks, skip_ws s).
Proof.
  intros Hn Ht. apply peek_starts; [done|]. intros c Hc. unfold peeked in Ht.
  repeat (apply elem_of_cons in Ht as [->|Ht]; [each_char Hc; reflexivity|]). by apply elem_of_nil in Ht.
Qed.

Lemma nonul_suffix r s : r `suffix_of` s -> nonul s -> nonul r.
Proof. intros [pre ->] H. by apply Forall_app in H as [_ H]. Qed.

Lemma skip_ws_suffix_of s : skip_ws s `suffix_of` s.
Proof. destruct (skip_ws_suffix s) as [pre E]. by exists pre. Qed.

Lemma nonul_skip_ws s : nonul s -> nonul (skip_ws s).
Proof. apply nonul_suffix, skip_ws_suffix_of. Qed.

(** The next token is a symbol. *)
Lemma gettoken_sym s t ts : nonul s -> lex s = TSym t :: ts -> exists q eq rest, gettoken s = (t, q, eq, rest) /\ lex rest = ts /\ rest `suffix_of` s /\ (length rest < length s)%nat.
Proof.
  intros Hn El. pose proof (gettoken_got s Hn) as G. inversion G as [H1 H2 H3|w q eq rest pre H1 H2 H3 H4 H5 H6 H7 H8|t' q eq rest pre H1 H2 H3 H4 H5 H6]; [congruence|congruence|].
  rewrite El in H5. injection H5 as -> ->. exists q, eq, rest. split; [done|]. split; [done|]. split; [by exists pre|]. rewrite H3, length_app. destruct pre; [done|cbn; lia].
Qed.

(** The pointers [q] and [eq] of a word of [line]. *)
Definition tok_ok (line : list Z) (a : list Z * list Z) : Prop :=
  fst a `suffix_of` line /\ exists w, fst a = w ++ snd a /\ w <> [] /\ Forall (fun c => wordchar c = true) w /\ word_ends (snd a).

Definition word_of (a : list Z * list Z) : list Z := take (length (fst a) - length (snd a)) (fst a).

Lemma word_of_app w eq : word_of (w ++ eq, eq) = w.
Proof. unfold word_of. cbn. rewrite length_app. replace (length w + length eq - length eq)%nat with (length w) by lia. by rewrite take_app_length. Qed.

Lemma tok_ok_suffix s line a : s `suffix_of` line -> tok_ok s a -> tok_ok line a.
Proof. intros Hs [H1 H2]. split; [by transitivity s|done]. Qed.

Lemma gettoken_word s w ts : nonul s -> lex s = TWord w :: ts ->
  exists q eq rest, gettoken s = (97, q, eq, rest) /\ word_of (q, eq) = w /\ tok_ok s (q, eq) /\ lex rest = ts /\ rest `suffix_of` s /\ (length rest < length s)%nat.
Proof.
  intros Hn El. pose proof (gettoken_got s Hn) as G. inversion G as [H1 H2 H3|w' q eq rest pre H1 H2 H3 H4 H5 H6 H7 H8|t' q eq rest pre H1 H2 H3 H4 H5 H6]; [congruence| |congruence].
  rewrite El in H7. injection H7 as -> ->. exists q, eq, rest. split; [done|]. subst q. rewrite word_of_app. split; [done|].
  assert (Hs : eq `suffix_of` s) by (exists (pre ++ w'); by rewrite <- app_assoc).
  split; [split; [by exists pre|by exists w']|]. split; [done|]. rewrite H6. split; [by etransitivity; [apply skip_ws_suffix_of|]|].
  pose proof (suffix_length _ _ (skip_ws_suffix_of eq)). rewrite H1, !length_app. destruct w'; [done|cbn; lia].
Qed.

Lemma gettoken_end s : nonul s -> lex s = [] -> gettoken s = (0, [], [], []).
Proof.
  intros Hn El. pose proof (gettoken_got s Hn) as G. inversion G as [H1 H2 H3|w' q eq rest pre H1 H2 H3 H4 H5 H6 H7 H8|t' q eq rest pre H1 H2 H3 H4 H5 H6]; congruence.
Qed.

(** A token other than a word is not the file of a redirection. *)
Lemma gettoken_class s : nonul s ->
  (lex s = [] /\ gettoken s = (0, [], [], [])) \/
  (exists w ts q eq rest, lex s = TWord w :: ts /\ gettoken s = (97, q, eq, rest) /\ word_of (q, eq) = w /\ tok_ok s (q, eq) /\ lex rest = ts /\
     rest `suffix_of` s /\ (length rest < length s)%nat) \/
  (exists t ts q eq rest, lex s = TSym t :: ts /\ gettoken s = (t, q, eq, rest) /\ t <> 0 /\ t <> 97).
Proof.
  intros Hn. destruct (lex s) as [|[w|t] ts] eqn:El; [left; split; [done|by apply gettoken_end]|right; left|right; right].
  - destruct (gettoken_word s w ts Hn El) as (q&eq&rest&H). exists w, ts, q, eq, rest. tauto.
  - pose proof (gettoken_got s Hn) as G. inversion G as [H1 H2 H3|w' q eq rest pre H1 H2 H3 H4 H5 H6 H7 H8|t' q eq rest pre H1 H2 H3 H4 H5 H6]; [congruence|congruence|].
    rewrite El in H5. injection H5 as -> E. by exists t', ts, q, eq, rest.
Qed.

(** ** The parser *)

(** A parser that succeeds has consumed a part of [s]; none runs out of fuel. *)
Definition pspec {A} (s : list Z) (P : A -> list Z -> Prop) (r : presult (A * list Z)) : Prop :=
  match r with
  | PDone (a, rest) => rest `suffix_of` s /\ P a rest
  | PPanic _ => True
  | PFuel => False
  end.

Definition rptr (r : redir) : list Z * list Z := (r_file r, r_efile r).
Definition rview (f : list Z * list Z -> list Z) (r : redir) : list Z * Z * Z := (f (rptr r), r_mode r, r_fd r).

(** A command with its strings read by [f]. *)
Fixpoint view (f : list Z * list Z -> list Z) (c : cmd) : scmd :=
  match c with
  | EXEC argv => SEXEC (map f argv)
  | REDIR c r => SREDIR (view f c) (f (rptr r)) (r_mode r) (r_fd r)
  | PIPE l r => SPIPE (view f l) (view f r)
  | LIST l r => SLIST (view f l) (view f r)
  | BACK c => SBACK (view f c)
  end.

(** The pointer pairs of a command. *)
Fixpoint ptrs (c : cmd) : list (list Z * list Z) :=
  match c with
  | EXEC argv => argv
  | REDIR c r => ptrs c ++ [rptr r]
  | PIPE l r => ptrs l ++ ptrs r
  | LIST l r => ptrs l ++ ptrs r
  | BACK c => ptrs c
  end.

Lemma view_redircmds f c rs : view f (redircmds c rs) = sredirs (view f c) (map (rview f) rs).
Proof. revert c. induction rs as [|r rs IH]; intros c; [done|]. cbn [redircmds fold_left map sredirs]. apply (IH (REDIR c r)). Qed.

Lemma ptrs_redircmds c rs : ptrs (redircmds c rs) = ptrs c ++ map rptr rs.
Proof.
  revert c. induction rs as [|r rs IH]; intros c; [by rewrite app_nil_r|]. cbn [redircmds fold_left map]. etransitivity; [apply (IH (REDIR c r))|].
  cbn [ptrs]. by rewrite <- app_assoc.
Qed.

Ltac peeks := rewrite peek_lex by (assumption || (unfold peeked; set_solver)); cbn beta iota zeta.

Lemma redirs_loop_spec fuel s : nonul s -> (length s < fuel)%nat ->
  pspec s (fun rs rest => exists ts, lex s = ts ++ lex rest /\ gredirs ts (map (rview word_of) rs) /\ Forall (tok_ok s) (map rptr rs)) (redirs_loop fuel s).
Proof.
  revert s. induction fuel as [|fuel IH]; intros s Hn Hf; [lia|]. cbn [redirs_loop]. rewrite peek_lex by (done || (unfold peeked; set_solver)).
  destruct (starts (lex s) "<>") eqn:Es; cbn beta iota zeta.
  - destruct (lex s) as [|[w|t] ts] eqn:El; [done|done|]. destruct (gettoken_sym (skip_ws s) t ts) as (q0&eq0&s1&->&El1&Hs1&Hl1); [by apply nonul_skip_ws|by rewrite lex_skip_ws|].
    assert (Hs1' : s1 `suffix_of` s) by (etransitivity; [exact Hs1|apply skip_ws_suffix_of]). pose proof (nonul_suffix _ _ Hs1' Hn) as Hn1.
    destruct (gettoken_class s1 Hn1) as [[_ ->]|[(w&ts2&q&eq&s2&El2&->&Hw&Hok&El3&Hs2&Hl2)|(t2&ts2&q&eq&s2&_&->&_&H97)]]; [done| |].
    + change (negb (97 =? chr "a")) with false. cbn beta iota zeta. assert (Hs2' : s2 `suffix_of` s) by (by etransitivity).
      pose proof (suffix_length _ _ Hs1') as Hls. specialize (IH s2 (nonul_suffix _ _ Hs2' Hn) ltac:(lia)).
      destruct (redirs_loop fuel s2) as [[rs rest]|msg|]; [|done|done]. destruct IH as (Hsuf&ts3&E3&G3&F3). cbn [pbind pspec].
      split; [by etransitivity|]. exists (TSym t :: TWord w :: ts3). rewrite <- El1, El2, <- El3, E3. split; [done|].
      assert (Fin : Forall (tok_ok s) (map rptr rs)) by (eapply Forall_impl; [exact F3|]; intros a; by apply tok_ok_suffix).
      assert (Hok' : tok_ok s (q, eq)) by exact (tok_ok_suffix s1 s _ Hs1' Hok). cbn [starts] in Es.
      assert (Ht : t = 60 \/ t = 62 \/ t = 43) by (destruct (Z.eqb_spec t 43); [tauto|]; each_char Es; vm_compute; tauto).
      rewrite map_app, map_app, Forall_app. destruct Ht as [->|[->| ->]]; (split; [|split; [by apply Forall_singleton|done]]).
      * rewrite <- Hw. by apply gr_in.
      * rewrite <- Hw. by apply gr_out.
      * rewrite <- Hw. by apply gr_append.
    + rewrite (proj2 (Z.eqb_neq t2 (chr "a")) H97). done.
  - split; [apply skip_ws_suffix_of|]. exists []. rewrite lex_skip_ws. split; [done|]. split; [constructor|done].
Qed.

Lemma parseredirs_spec s : nonul s ->
  pspec s (fun rs rest => exists ts, lex s = ts ++ lex rest /\ gredirs ts (map (rview word_of) rs) /\ Forall (tok_ok s) (map rptr rs)) (parseredirs s).
Proof. intros Hn. apply redirs_loop_spec; [done|lia]. Qed.

Lemma toks_suffix s line l : s `suffix_of` line -> Forall (tok_ok s) l -> Forall (tok_ok line) l.
Proof. intros Hs Hl. eapply Forall_impl; [exact Hl|]. intros a. by apply tok_ok_suffix. Qed.

Lemma exec_loop_spec fuel argc s : nonul s -> (length s < fuel)%nat -> (argc < MAXARGS)%nat ->
  pspec s (fun a rest => exists ts, lex s = ts ++ lex rest /\ gargs ts (map word_of (fst a)) (map (rview word_of) (snd a)) /\
    (argc + length (fst a) < MAXARGS)%nat /\ Forall (tok_ok s) (fst a) /\ Forall (tok_ok s) (map rptr (snd a))) (exec_loop fuel argc s).
Proof.
  revert argc s. induction fuel as [|fuel IH]; intros argc s Hn Hf Ha; [lia|]. cbn [exec_loop]. peeks. pose proof (nonul_skip_ws s Hn) as Hns.
  assert (Hnil : forall rest, rest `suffix_of` s -> lex s = lex rest -> pspec s (fun a rest => exists ts, lex s = ts ++ lex rest /\
    gargs ts (map word_of (fst a)) (map (rview word_of) (snd a)) /\ (argc + length (fst a) < MAXARGS)%nat /\ Forall (tok_ok s) (fst a) /\ Forall (tok_ok s) (map rptr (snd a)))
    (PDone ([], [], rest))).
  { intros rest Hs El. split; [done|]. exists []. split; [done|]. split; [constructor|]. cbn. split; [lia|done]. }
  destruct (starts (lex s) "|)&;"); [apply Hnil; [apply skip_ws_suffix_of|by rewrite lex_skip_ws]|].
  destruct (gettoken_class (skip_ws s) Hns) as [[El ->]|[(w&ts&q&eq&s1&El&->&Hw&Hok&El1&Hs1&Hl1)|(t&ts&q&eq&s1&_&->&H0&H97)]].
  - cbn beta iota zeta. rewrite lex_skip_ws in El. apply Hnil; [by exists s; rewrite app_nil_r|by rewrite El].
  - change (97 =? 0) with false. change (negb (97 =? chr "a")) with false. cbn beta iota zeta. destruct (Nat.leb_spec MAXARGS (S argc)) as [?|Hlt]; [done|].
    pose proof (suffix_length _ _ (skip_ws_suffix_of s)) as Hls. assert (Hs1' : s1 `suffix_of` s) by (etransitivity; [exact Hs1|apply skip_ws_suffix_of]).
    pose proof (nonul_suffix _ _ Hs1' Hn) as Hn1. pose proof (parseredirs_spec s1 Hn1) as Hr. destruct (parseredirs s1) as [[rs s2]|msg|]; [|done|done].
    destruct Hr as (Hs2&ts2&El2&G2&F2). cbn [pbind]. assert (Hs2' : s2 `suffix_of` s) by (by transitivity s1). pose proof (suffix_length _ _ Hs2).
    specialize (IH (S argc) s2 (nonul_suffix _ _ Hs2' Hn) ltac:(lia) Hlt). destruct (exec_loop fuel (S argc) s2) as [[[args rs'] s3]|msg|]; [|done|done].
    destruct IH as (Hs3&ts3&El3&G3&Hc&F3&F3'). cbn [pbind pspec fst snd] in *. split; [by transitivity s2|]. exists (TWord w :: ts2 ++ ts3).
    split; [rewrite <- (lex_skip_ws s), El, <- El1, El2, El3; cbn; by rewrite <- app_assoc|].
    rewrite !map_app. cbn [map length]. rewrite Hw. split; [by apply ga_arg|]. split; [lia|].
    split; [apply Forall_cons; split; [eapply tok_ok_suffix; [apply skip_ws_suffix_of|exact Hok]|by apply (toks_suffix s2)]|].
    apply Forall_app. split; [by apply (toks_suffix s1)|by apply (toks_suffix s2)].
  - rewrite (proj2 (Z.eqb_neq t 0) H0), (proj2 (Z.eqb_neq t (chr "a")) H97). done.
Qed.

Lemma back_loop_spec fuel c s : nonul s -> (length s < fuel)%nat ->
  exists n rest, back_loop fuel c s = PDone (Nat.iter n BACK c, rest) /\ rest `suffix_of` s /\ lex s = replicate n (sym "&") ++ lex rest.
Proof.
  revert c s. induction fuel as [|fuel IH]; intros c s Hn Hf; [lia|]. cbn [back_loop]. peeks. destruct (starts (lex s) "&") eqn:Es.
  - destruct (lex s) as [|[w|t] ts] eqn:El; [done|done|]. assert (Et : t = 38) by (cbn [starts] in Es; destruct (Z.eqb_spec t 43); [discriminate Es|]; each_char Es; reflexivity).
    destruct (gettoken_sym (skip_ws s) t ts) as (q0&eq0&s1&->&El1&Hs1&Hl1); [by apply nonul_skip_ws|by rewrite lex_skip_ws|]. pose proof (suffix_length _ _ (skip_ws_suffix_of s)).
    assert (Hs1' : s1 `suffix_of` s) by (etransitivity; [exact Hs1|apply skip_ws_suffix_of]).
    destruct (IH (BACK c) s1 (nonul_suffix _ _ Hs1' Hn) ltac:(lia)) as (n&rest&E&Hs&Er). exists (S n), rest. split; [rewrite E; by rewrite Nat.iter_succ_r|].
    split; [by transitivity s1|]. cbn [replicate app]. rewrite <- Er, El1, Et. done.
  - exists 0%nat, (skip_ws s). split; [done|]. split; [apply skip_ws_suffix_of|]. by rewrite lex_skip_ws.
Qed.

Lemma view_backs f n c : view f (Nat.iter n BACK c) = backs n (view f c).
Proof. induction n as [|n IH]; [done|]. cbn [Nat.iter nat_rect view]. unfold backs. cbn. f_equal. exact IH. Qed.

Lemma ptrs_backs n c : ptrs (Nat.iter n BACK c) = ptrs c.
Proof. induction n as [|n IH]; [done|]. exact IH. Qed.

(** A parsed command: what was consumed is a sentence for it, and its pointers are those of words. *)
Definition sentence (G : list token -> scmd -> Prop) (s : list Z) (c : cmd) (rest : list Z) : Prop :=
  exists ts, lex s = ts ++ lex rest /\ G ts (view word_of c) /\ Forall (tok_ok s) (ptrs c).

(** [peek] for one symbol, and [gettoken] that consumes it. *)
Lemma peek_one s (x : string) c : nonul s -> str x = [c] -> c <> 43 -> c <> 62 -> starts (lex s) x = true ->
  exists q eq s1, gettoken (skip_ws s) = (c, q, eq, s1) /\ lex s = TSym c :: lex s1 /\ s1 `suffix_of` s /\ (length s1 < length s)%nat.
Proof.
  intros Hn Ex H43 H62 Es. destruct (lex s) as [|[w|t] ts] eqn:El; [done|done|]. cbn [starts] in Es. rewrite Ex in Es. apply among_elem, list_elem_of_singleton in Es.
  assert (t = c) by (destruct (Z.eqb_spec t 43); [congruence|done]). subst t.
  destruct (gettoken_sym (skip_ws s) c ts) as (q0&eq0&s1&->&El1&Hs1&Hl1); [by apply nonul_skip_ws|by rewrite lex_skip_ws|]. pose proof (suffix_length _ _ (skip_ws_suffix_of s)).
  exists q0, eq0, s1. split; [done|]. split; [by rewrite El1|]. split; [etransitivity; [exact Hs1|apply skip_ws_suffix_of]|lia].
Qed.

Definition line_spec (fuel : nat) : Prop := forall s, nonul s -> (4 * length s + 4 <= fuel)%nat -> pspec s (sentence gline s) (parseline fuel s).
Definition pipe_spec (fuel : nat) : Prop := forall s, nonul s -> (4 * length s + 3 <= fuel)%nat -> pspec s (sentence gpipe s) (parsepipe fuel s).
Definition exec_spec (fuel : nat) : Prop := forall s, nonul s -> (4 * length s + 2 <= fuel)%nat -> pspec s (sentence gexec s) (parseexec fuel s).
Definition block_spec (fuel : nat) : Prop := forall s, nonul s -> (4 * length s + 1 <= fuel)%nat -> pspec s (sentence gexec s) (parseblock fuel s).

Lemma parseline_step fuel : pipe_spec fuel -> line_spec fuel -> line_spec (S fuel).
Proof.
  intros Hp Hl s Hn Hf. cbn [parseline]. specialize (Hp s Hn ltac:(lia)). destruct (parsepipe fuel s) as [[c s1]|msg|]; [|done|done].
  destruct Hp as (Hs1&ts&El&G&F). cbn [pbind]. pose proof (nonul_suffix _ _ Hs1 Hn) as Hn1.
  destruct (back_loop_spec (S (length s1)) c s1 Hn1 ltac:(lia)) as (n&s2&->&Hs2&El2). cbn [pbind]. pose proof (nonul_suffix _ _ Hs2 Hn1) as Hn2. peeks.
  assert (Hs2' : s2 `suffix_of` s) by (by transitivity s1). pose proof (suffix_length _ _ Hs2') as Hl2.
  destruct (starts (lex s2) ";") eqn:Es.
  - destruct (peek_one s2 ";" 59) as (q&eq&s3&->&El3&Hs3&Hl3); [done..|]. assert (Hs3' : s3 `suffix_of` s) by (by transitivity s2).
    specialize (Hl s3 (nonul_suffix _ _ Hs3' Hn) ltac:(lia)). destruct (parseline fuel s3) as [[c2 s4]|msg|]; [|done|done].
    destruct Hl as (Hs4&ts4&El4&G4&F4). cbn [pbind pspec]. split; [by transitivity s3|]. exists (ts ++ replicate n (sym "&") ++ sym ";" :: ts4).
    rewrite El, El2, El3, El4. split; [by rewrite <- !app_assoc|]. cbn [view ptrs]. rewrite view_backs, ptrs_backs. split; [by apply gl_list|].
    apply Forall_app. split; [done|by apply (toks_suffix s3)].
  - cbn [pspec]. split; [etransitivity; [apply skip_ws_suffix_of|done]|]. exists (ts ++ replicate n (sym "&")). rewrite lex_skip_ws, El, El2, app_assoc. split; [done|].
    rewrite view_backs, ptrs_backs. split; [by apply gl_end|done].
Qed.

Lemma parsepipe_step fuel : exec_spec fuel -> pipe_spec fuel -> pipe_spec (S fuel).
Proof.
  intros He Hp s Hn Hf. cbn [parsepipe]. specialize (He s Hn ltac:(lia)). destruct (parseexec fuel s) as [[c s1]|msg|]; [|done|done].
  destruct He as (Hs1&ts&El&G&F). cbn [pbind]. pose proof (nonul_suffix _ _ Hs1 Hn) as Hn1. peeks. pose proof (suffix_length _ _ Hs1) as Hl1.
  destruct (starts (lex s1) "|") eqn:Es.
  - destruct (peek_one s1 "|" 124) as (q&eq&s3&->&El3&Hs3&Hl3); [done..|]. assert (Hs3' : s3 `suffix_of` s) by (by transitivity s1).
    specialize (Hp s3 (nonul_suffix _ _ Hs3' Hn) ltac:(lia)). destruct (parsepipe fuel s3) as [[c2 s4]|msg|]; [|done|done].
    destruct Hp as (Hs4&ts4&El4&G4&F4). cbn [pbind pspec]. split; [by transitivity s3|]. exists (ts ++ sym "|" :: ts4).
    rewrite El, El3, El4. split; [by rewrite <- !app_assoc|]. cbn [view ptrs]. split; [by apply gp_pipe|].
    apply Forall_app. split; [done|by apply (toks_suffix s3)].
  - cbn [pspec]. split; [etransitivity; [apply skip_ws_suffix_of|done]|]. exists ts. rewrite lex_skip_ws. split; [done|]. split; [by apply gp_end|done].
Qed.

Lemma parseexec_step fuel : block_spec fuel -> exec_spec (S fuel).
Proof.
  intros Hb s Hn Hf. cbn [parseexec]. peeks. pose proof (nonul_skip_ws s Hn) as Hns. pose proof (skip_ws_suffix_of s) as Hsw. pose proof (suffix_length _ _ Hsw) as Hlw.
  destruct (starts (lex s) "(").
  - specialize (Hb (skip_ws s) Hns ltac:(lia)). destruct (parseblock fuel (skip_ws s)) as [[c s1]|msg|]; [|done|done]. destruct Hb as (Hs1&ts&El&G&F).
    split; [by transitivity (skip_ws s)|]. exists ts. rewrite lex_skip_ws in El. split; [done|]. split; [done|by apply (toks_suffix (skip_ws s))].
  - pose proof (parseredirs_spec (skip_ws s) Hns) as Hr. destruct (parseredirs (skip_ws s)) as [[rs s1]|msg|]; [|done|done]. destruct Hr as (Hs1&ts&El&G&F).
    cbn [pbind]. pose proof (nonul_suffix _ _ Hs1 Hns) as Hn1. pose proof (exec_loop_spec (S (length s1)) 0 s1 Hn1 ltac:(lia) ltac:(lia)) as Hx.
    destruct (exec_loop (S (length s1)) 0 s1) as [[[args rs'] s2]|msg|]; [|done|done]. destruct Hx as (Hs2&ts2&El2&G2&Hc&F2&F2'). cbn [pbind pspec fst snd] in *.
    assert (Hs1' : s1 `suffix_of` s) by (by transitivity (skip_ws s)).
    split; [by transitivity s1|]. exists (ts ++ ts2). rewrite lex_skip_ws in El. rewrite El, El2, app_assoc. split; [done|].
    rewrite view_redircmds, ptrs_redircmds, !map_app. cbn [view ptrs]. split; [apply ge_simple; try done; by rewrite length_map|].
    rewrite !Forall_app. split; [by apply (toks_suffix s1)|]. split; [by apply (toks_suffix (skip_ws s))|by apply (toks_suffix s1)].
Qed.

Lemma parseblock_step fuel : line_spec fuel -> block_spec (S fuel).
Proof.
  intros Hl s Hn Hf. cbn [parseblock]. peeks. destruct (starts (lex s) "(") eqn:Es; cbn [negb]; [|done].
  destruct (peek_one s "(" 40) as (q&eq&s1&->&El1&Hs1&Hl1); [done..|]. specialize (Hl s1 (nonul_suffix _ _ Hs1 Hn) ltac:(lia)).
  destruct (parseline fuel s1) as [[c s2]|msg|]; [|done|done]. destruct Hl as (Hs2&ts&El&G&F). cbn [pbind]. assert (Hs2' : s2 `suffix_of` s) by (by transitivity s1).
  pose proof (nonul_suffix _ _ Hs2' Hn) as Hn2. peeks. destruct (starts (lex s2) ")") eqn:Es2; cbn [negb]; [|done].
  destruct (peek_one s2 ")" 41) as (q3&eq3&s3&->&El3&Hs3&Hl3); [done..|]. assert (Hs3' : s3 `suffix_of` s) by (by transitivity s2).
  pose proof (nonul_suffix _ _ Hs3' Hn) as Hn3. pose proof (parseredirs_spec s3 Hn3) as Hr. destruct (parseredirs s3) as [[rs s4]|msg|]; [|done|done].
  destruct Hr as (Hs4&ts4&El4&G4&F4). cbn [pbind pspec]. split; [by transitivity s3|]. exists (sym "(" :: ts ++ sym ")" :: ts4).
  rewrite El1, El, El3, El4. split; [cbn; by rewrite <- app_assoc|]. rewrite view_redircmds, ptrs_redircmds. split; [by apply ge_block|].
  apply Forall_app. split; [by apply (toks_suffix s1)|by apply (toks_suffix s3)].
Qed.

Lemma parser_sound fuel : line_spec fuel /\ pipe_spec fuel /\ exec_spec fuel /\ block_spec fuel.
Proof.
  induction fuel as [|fuel (Hl&Hp&He&Hb)].
  - repeat split; intros s Hn Hf; lia.
  - split; [by apply parseline_step|]. split; [by apply parsepipe_step|]. split; [by apply parseexec_step|by apply parseblock_step].
Qed.

(** ** Every sentence is parsed *)

Lemma redirs_step fuel s t w ts : nonul s -> (length s < S fuel)%nat -> t = 60 \/ t = 62 \/ t = 43 -> lex s = TSym t :: TWord w :: ts ->
  exists q eq s2, word_of (q, eq) = w /\ lex s2 = ts /\ nonul s2 /\ (length s2 < fuel)%nat /\
    redirs_loop (S fuel) s = pbind (redirs_loop fuel s2) (fun x => match x with (rs, s) => PDone (redir_of t q eq ++ rs, s) end).
Proof.
  intros Hn Hf Ht El. cbn [redirs_loop]. peeks. assert (Es : starts (lex s) "<>" = true) by (rewrite El; by destruct Ht as [->|[->| ->]]). rewrite Es.
  destruct (gettoken_sym (skip_ws s) t (TWord w :: ts)) as (q0&eq0&s1&->&El1&Hs1&Hl1); [by apply nonul_skip_ws|by rewrite lex_skip_ws|].
  assert (Hs1' : s1 `suffix_of` s) by (etransitivity; [exact Hs1|apply skip_ws_suffix_of]). pose proof (nonul_suffix _ _ Hs1' Hn) as Hn1. pose proof (suffix_length _ _ Hs1').
  destruct (gettoken_word s1 w ts Hn1 El1) as (q&eq&s2&->&Hw&_&El2&Hs2&Hl2). exists q, eq, s2. split; [done|]. split; [done|]. split; [by eapply nonul_suffix|]. split; [lia|done].
Qed.

Lemma redirs_complete ts rs : gredirs ts rs -> forall fuel s ts', nonul s -> (length s < fuel)%nat -> lex s = ts ++ ts' -> starts ts' "<>" = false ->
  exists rs0 rest, redirs_loop fuel s = PDone (rs0, rest) /\ map (rview word_of) rs0 = rs /\ lex rest = ts'.
Proof.
  assert (Hstep : forall t w mode fd ts rs, t = 60 \/ t = 62 \/ t = 43 -> (forall q eq, redir_of t q eq = [mkredir q eq mode fd]) ->
    (forall fuel s ts', nonul s -> (length s < fuel)%nat -> lex s = ts ++ ts' -> starts ts' "<>" = false -> exists rs0 rest, redirs_loop fuel s = PDone (rs0, rest) /\ map (rview word_of) rs0 = rs /\ lex rest = ts') ->
    forall fuel s ts', nonul s -> (length s < fuel)%nat -> lex s = TSym t :: TWord w :: ts ++ ts' -> starts ts' "<>" = false ->
    exists rs0 rest, redirs_loop fuel s = PDone (rs0, rest) /\ map (rview word_of) rs0 = (w, mode, fd) :: rs /\ lex rest = ts').
  { intros t w mode fd ts0 rs0 Ht Hr IH fuel s ts' Hn Hf El Es. destruct fuel as [|fuel]; [lia|].
    destruct (redirs_step fuel s t w (ts0 ++ ts') Hn Hf Ht El) as (q&eq&s2&Hw&El2&Hn2&Hl2&->).
    destruct (IH fuel s2 ts' Hn2 Hl2 El2 Es) as (r1&rest&->&E2&E3). cbn [pbind]. exists (redir_of t q eq ++ r1), rest. split; [done|]. split; [|done].
    rewrite Hr. cbn [app map]. rewrite E2. unfold rview, rptr. cbn [r_file r_efile r_mode r_fd]. by rewrite Hw. }
  induction 1 as [|w ts rs G IH|w ts rs G IH|w ts rs G IH]; intros fuel s ts' Hn Hf El Es.
  - destruct fuel as [|fuel]; [lia|]. cbn [redirs_loop app] in *. peeks. rewrite El, Es. exists [], (skip_ws s). split; [done|]. split; [done|by rewrite lex_skip_ws].
  - eapply (Hstep 60); [tauto|done|exact IH|done|done|exact El|done].
  - eapply (Hstep 62); [tauto|done|exact IH|done|done|exact El|done].
  - eapply (Hstep 43); [tauto|done|exact IH|done|done|exact El|done].
Qed.

(** What may follow a simple command, a pipeline and a line. *)
Definition ends_exec (ts : list token) : Prop := ts = [] \/ starts ts "|)&;" = true.
Definition ends_pipe (ts : list token) : Prop := ts = [] \/ exists ts', ts = sym ")" :: ts' \/ ts = sym "&" :: ts' \/ ts = sym ";" :: ts'.
Definition ends_line (ts : list token) : Prop := ts = [] \/ exists ts', ts = sym ")" :: ts'.

Lemma ends_exec_cases ts : ends_exec ts -> ts = [] \/ exists c ts', ts = TSym c :: ts' /\ (c = 124 \/ c = 41 \/ c = 38 \/ c = 59).
Proof.
  intros [->|Hs]; [by left|]. right. destruct ts as [|[w|c] ts]; [done|done|]. exists c, ts. split; [done|]. cbn [starts] in Hs.
  destruct (Z.eqb_spec c 43); [discriminate Hs|]. each_char Hs; vm_compute; tauto.
Qed.

Lemma ends_exec_noredir ts : ends_exec ts -> starts ts "<>" = false /\ starts ts "(" = false.
Proof. intros H. destruct (ends_exec_cases ts H) as [->|(c&ts'&->&[->|[->|[->| ->]]])]; done. Qed.

Lemma gargs_noredir ts args rs ts' : gargs ts args rs -> ends_exec ts' -> starts (ts ++ ts') "<>" = false /\ starts (ts ++ ts') "(" = false.
Proof. intros G He. destruct G; [by apply ends_exec_noredir|done]. Qed.

Lemma redirs_suffix fuel s rs rest : nonul s -> (length s < fuel)%nat -> redirs_loop fuel s = PDone (rs, rest) -> rest `suffix_of` s.
Proof. intros Hn Hf E. pose proof (redirs_loop_spec fuel s Hn Hf) as H. rewrite E in H. apply H. Qed.

Lemma args_complete ts args rs : gargs ts args rs -> forall fuel argc s ts', nonul s -> (length s < fuel)%nat -> lex s = ts ++ ts' -> ends_exec ts' ->
  (argc + length args < MAXARGS)%nat ->
  exists args0 rs0 rest, exec_loop fuel argc s = PDone (args0, rs0, rest) /\ map word_of args0 = args /\ map (rview word_of) rs0 = rs /\ lex rest = ts'.
Proof.
  induction 1 as [|w ts rs ts1 args rs1 G G1 IH]; intros fuel argc s ts' Hn Hf El He Hc; (destruct fuel as [|fuel]; [lia|]); cbn [exec_loop]; peeks;
    pose proof (nonul_skip_ws s Hn) as Hns; pose proof (suffix_length _ _ (skip_ws_suffix_of s)) as Hlw.
  - cbn [app] in El. rewrite El. destruct He as [->|He]; [|rewrite He; exists [], [], (skip_ws s); by rewrite lex_skip_ws].
    cbn [starts]. rewrite (gettoken_end (skip_ws s) Hns) by (by rewrite lex_skip_ws). by exists [], [], [].
  - rewrite El. cbn [app starts]. cbn [app] in El. rewrite <- app_assoc in El.
    destruct (gettoken_word (skip_ws s) w (ts ++ ts1 ++ ts') Hns) as (q&eq&s1&->&Hw&_&El1&Hs1&Hl1); [by rewrite lex_skip_ws|].
    change (97 =? 0) with false. change (negb (97 =? chr "a")) with false. cbn beta iota zeta. cbn [length] in Hc. rewrite (proj2 (Nat.leb_gt MAXARGS (S argc))) by lia.
    pose proof (nonul_suffix _ _ Hs1 Hns) as Hn1. unfold parseredirs.
    destruct (redirs_complete ts rs G (S (length s1)) s1 (ts1 ++ ts') Hn1 ltac:(lia) El1) as (rs0&s2&E2&Hr&El2); [by eapply gargs_noredir|].
    rewrite E2. cbn [pbind]. pose proof (redirs_suffix (S (length s1)) _ _ _ Hn1 ltac:(lia) E2) as Hs2. pose proof (suffix_length _ _ Hs2).
    destruct (IH fuel (S argc) s2 ts' (nonul_suffix _ _ Hs2 Hn1) ltac:(lia) El2 He ltac:(lia)) as (args0&rs2&rest&->&Ha&Hr2&Er). cbn [pbind].
    exists ((q, eq) :: args0), (rs0 ++ rs2), rest. cbn [map]. rewrite map_app, Hw, Ha, Hr, Hr2. done.
Qed.

Lemma back_complete n : forall fuel c s ts', nonul s -> (length s < fuel)%nat -> lex s = replicate n (sym "&") ++ ts' -> starts ts' "&" = false ->
  exists rest, back_loop fuel c s = PDone (Nat.iter n BACK c, rest) /\ lex rest = ts' /\ rest `suffix_of` s.
Proof.
  induction n as [|n IH]; intros fuel c s ts' Hn Hf El Es; (destruct fuel as [|fuel]; [lia|]); cbn [back_loop]; peeks; rewrite El; cbn [replicate app].
  - rewrite Es. exists (skip_ws s). split; [done|]. rewrite lex_skip_ws. split; [done|apply skip_ws_suffix_of].
  - change (starts (sym "&" :: replicate n (sym "&") ++ ts') "&") with true. cbn beta iota.
    destruct (gettoken_sym (skip_ws s) 38 (replicate n (sym "&") ++ ts')) as (q&eq&s1&->&El1&Hs1&Hl1); [by apply nonul_skip_ws|by rewrite lex_skip_ws|].
    pose proof (suffix_length _ _ (skip_ws_suffix_of s)). assert (Hs1' : s1 `suffix_of` s) by (etransitivity; [exact Hs1|apply skip_ws_suffix_of]).
    destruct (IH fuel (BACK c) s1 ts' (nonul_suffix _ _ Hs1' Hn) ltac:(lia) El1 Es) as (rest&->&Er&Hs). exists rest. rewrite Nat.iter_succ_r.
    split; [done|]. split; [done|by transitivity s1].
Qed.

(** [parse] turns a text that starts with the tokens [ts] into [sc]. *)
Definition accepts (parse : nat -> list Z -> presult (cmd * list Z)) (k : nat) (follow : list token -> Prop) (ts : list token) (sc : scmd) : Prop :=
  forall fuel s ts', nonul s -> (4 * length s + k <= fuel)%nat -> lex s = ts ++ ts' -> follow ts' ->
    exists c rest, parse fuel s = PDone (c, rest) /\ view word_of c = sc /\ lex rest = ts' /\ rest `suffix_of` s.

Lemma ends_line_pipe ts : ends_line ts -> ends_pipe ts /\ starts ts "&" = false /\ starts ts ";" = false.
Proof. intros [->|[ts' ->]]; (split; [|done]); [by left|right; exists ts'; tauto]. Qed.

Lemma ends_pipe_exec ts : ends_pipe ts -> ends_exec ts /\ starts ts "|" = false.
Proof. intros [->|(ts'&[->|[->| ->]])]; (split; [|done]); [by left|by right..]. Qed.

Lemma ends_pipe_backs n ts : ends_line ts \/ (exists ts', ts = sym ";" :: ts') -> ends_pipe (replicate n (sym "&") ++ ts).
Proof.
  intros H. destruct n as [|n]; cbn [replicate app]; [|right; eexists; right; left; reflexivity].
  destruct H as [H|[ts' ->]]; [by apply ends_line_pipe|right; exists ts'; tauto].
Qed.

Lemma line_accepted ts c n fuel s ts' : accepts parsepipe 3 ends_pipe ts c -> nonul s -> (4 * length s + 4 <= S fuel)%nat ->
  lex s = ts ++ replicate n (sym "&") ++ ts' -> starts ts' "&" = false -> ends_line ts' \/ (exists ts1, ts' = sym ";" :: ts1) ->
  exists c0 s2, parsepipe fuel s = PDone (c0, s2) /\ exists s3, back_loop (S (length s2)) c0 s2 = PDone (Nat.iter n BACK c0, s3) /\
    view word_of (Nat.iter n BACK c0) = backs n c /\ lex s3 = ts' /\ s3 `suffix_of` s.
Proof.
  intros Hp Hn Hf El Es He. destruct (Hp fuel s _ Hn ltac:(lia) El ltac:(by apply ends_pipe_backs)) as (c0&s2&E&Hv&El2&Hs2). exists c0, s2. split; [done|].
  destruct (back_complete n (S (length s2)) c0 s2 ts' (nonul_suffix _ _ Hs2 Hn) ltac:(lia) El2 Es) as (s3&E3&El3&Hs3). exists s3. split; [done|].
  rewrite view_backs, Hv. split; [done|]. split; [done|by transitivity s2].
Qed.

Lemma peek_take s (x : string) c ts : nonul s -> str x = [c] -> c <> 43 -> c <> 62 -> x ∈ peeked -> lex s = TSym c :: ts ->
  peek s x = (true, skip_ws s) /\ exists q eq s1, gettoken (skip_ws s) = (c, q, eq, s1) /\ lex s1 = ts /\ s1 `suffix_of` s /\ (length s1 < length s)%nat.
Proof.
  intros Hn Ex H43 H62 Hx El. assert (Es : starts (lex s) x = true).
  { rewrite El. cbn [starts]. rewrite Ex, (proj2 (Z.eqb_neq c 43) H43). unfold among. cbn [strchr].
    destruct (Z.eqb_spec c 0) as [->|]; [|by rewrite Z.eqb_refl]. exfalso. pose proof (gettoken_got s Hn) as G. inversion G; congruence. }
  rewrite peek_lex, Es by done. split; [done|]. destruct (peek_one s x c Hn Ex H43 H62 Es) as (q&eq&s1&E&El1&Hs1&Hl). exists q, eq, s1. rewrite El in El1.
  split; [done|]. split; [by injection El1|done].
Qed.

Lemma line_end_accepted ts c n : accepts parsepipe 3 ends_pipe ts c -> accepts parseline 4 ends_line (ts ++ replicate n (sym "&")) (backs n c).
Proof.
  intros Hp fuel s ts' Hn Hf El He. destruct fuel as [|fuel]; [lia|]. destruct (ends_line_pipe ts' He) as (_&Hb&Hsc). rewrite <- app_assoc in El.
  destruct (line_accepted ts c n fuel s ts' Hp Hn Hf El Hb (or_introl He)) as (c0&s2&E&s3&E3&Hv&El3&Hs3). cbn [parseline]. rewrite E. cbn [pbind]. rewrite E3. cbn [pbind].
  pose proof (nonul_suffix _ _ Hs3 Hn) as Hn3. peeks. rewrite El3, Hsc. eexists _, _. split; [done|]. split; [done|]. rewrite lex_skip_ws. split; [done|].
  etransitivity; [apply skip_ws_suffix_of|done].
Qed.

Lemma line_list_accepted ts c n ts1 c1 : accepts parsepipe 3 ends_pipe ts c -> accepts parseline 4 ends_line ts1 c1 ->
  accepts parseline 4 ends_line (ts ++ replicate n (sym "&") ++ sym ";" :: ts1) (SLIST (backs n c) c1).
Proof.
  intros Hp Hl fuel s ts' Hn Hf El He. destruct fuel as [|fuel]; [lia|]. rewrite <- !app_assoc in El. cbn [app] in El.
  destruct (line_accepted ts c n fuel s (sym ";" :: ts1 ++ ts') Hp Hn Hf El ltac:(done) ltac:(right; by eexists)) as (c0&s2&E&s3&E3&Hv&El3&Hs3).
  cbn [parseline]. rewrite E. cbn [pbind]. rewrite E3. cbn [pbind]. pose proof (nonul_suffix _ _ Hs3 Hn) as Hn3.
  destruct (peek_take s3 ";" 59 _ Hn3 eq_refl ltac:(lia) ltac:(lia) ltac:(unfold peeked; set_solver) El3) as (->&q&eq&s4&->&El4&Hs4&Hl4). cbn beta iota zeta.
  pose proof (suffix_length _ _ Hs3). destruct (Hl fuel s4 ts' (nonul_suffix _ _ Hs4 Hn3) ltac:(lia) El4 He) as (c2&s5&->&Hv2&El5&Hs5). cbn [pbind].
  eexists _, _. split; [done|]. cbn [view]. rewrite Hv, Hv2. split; [done|]. split; [done|]. transitivity s4; [done|by transitivity s3].
Qed.

Lemma pipe_end_accepted ts c : accepts parseexec 2 ends_exec ts c -> accepts parsepipe 3 ends_pipe ts c.
Proof.
  intros Hx fuel s ts' Hn Hf El He. destruct fuel as [|fuel]; [lia|]. destruct (ends_pipe_exec ts' He) as [He2 Hb]. cbn [parsepipe].
  destruct (Hx fuel s ts' Hn ltac:(lia) El He2) as (c0&s2&->&Hv&El2&Hs2). cbn [pbind]. pose proof (nonul_suffix _ _ Hs2 Hn) as Hn2. peeks. rewrite El2, Hb.
  eexists _, _. split; [done|]. split; [done|]. rewrite lex_skip_ws. split; [done|]. etransitivity; [apply skip_ws_suffix_of|done].
Qed.

Lemma pipe_pipe_accepted ts c ts1 c1 : accepts parseexec 2 ends_exec ts c -> accepts parsepipe 3 ends_pipe ts1 c1 -> accepts parsepipe 3 ends_pipe (ts ++ sym "|" :: ts1) (SPIPE c c1).
Proof.
  intros Hx Hp fuel s ts' Hn Hf El He. destruct fuel as [|fuel]; [lia|]. rewrite <- app_assoc in El. cbn [app] in El. cbn [parsepipe].
  destruct (Hx fuel s _ Hn ltac:(lia) El ltac:(by right)) as (c0&s2&->&Hv&El2&Hs2). cbn [pbind]. pose proof (nonul_suffix _ _ Hs2 Hn) as Hn2.
  destruct (peek_take s2 "|" 124 _ Hn2 eq_refl ltac:(lia) ltac:(lia) ltac:(unfold peeked; set_solver) El2) as (->&q&eq&s4&->&El4&Hs4&Hl4). cbn beta iota zeta.
  pose proof (suffix_length _ _ Hs2). destruct (Hp fuel s4 ts' (nonul_suffix _ _ Hs4 Hn2) ltac:(lia) El4 He) as (c2&s5&->&Hv2&El5&Hs5). cbn [pbind].
  eexists _, _. split; [done|]. cbn [view]. rewrite Hv, Hv2. split; [done|]. split; [done|]. transitivity s4; [done|by transitivity s2].
Qed.

Lemma block_accepted ts c ts1 rs : accepts parseline 4 ends_line ts c -> gredirs ts1 rs -> accepts parseexec 2 ends_exec (sym "(" :: ts ++ sym ")" :: ts1) (sredirs c rs).
Proof.
  intros Hl Gr fuel s ts' Hn Hf El He. destruct fuel as [|fuel]; [lia|]. cbn [parseexec]. cbn [app] in El. rewrite <- app_assoc in El. cbn [app] in El.
  destruct (peek_take s "(" 40 _ Hn eq_refl ltac:(lia) ltac:(lia) ltac:(unfold peeked; set_solver) El) as (->&_). cbn beta iota zeta.
  destruct fuel as [|fuel]; [lia|]. cbn [parseblock]. pose proof (nonul_skip_ws s Hn) as Hns. pose proof (skip_ws_suffix_of s) as Hsw. pose proof (suffix_length _ _ Hsw).
  destruct (peek_take (skip_ws s) "(" 40 _ Hns eq_refl ltac:(lia) ltac:(lia) ltac:(unfold peeked; set_solver) ltac:(rewrite lex_skip_ws; exact El)) as (->&q&eq&s1&->&El1&Hs1&Hl1).
  cbn beta iota zeta. cbn [negb]. pose proof (nonul_suffix _ _ Hs1 Hns) as Hn1.
  destruct (Hl fuel s1 _ Hn1 ltac:(lia) El1 ltac:(right; by eexists)) as (c0&s2&->&Hv&El2&Hs2). cbn [pbind]. pose proof (nonul_suffix _ _ Hs2 Hn1) as Hn2.
  destruct (peek_take s2 ")" 41 _ Hn2 eq_refl ltac:(lia) ltac:(lia) ltac:(unfold peeked; set_solver) El2) as (->&q3&eq3&s3&->&El3&Hs3&Hl3). cbn beta iota zeta. cbn [negb].
  pose proof (nonul_suffix _ _ Hs3 Hn2) as Hn3. unfold parseredirs.
  destruct (redirs_complete ts1 rs Gr (S (length s3)) s3 ts' Hn3 ltac:(lia) El3) as (rs0&s4&E4&Hr&El4); [by apply ends_exec_noredir|].
  rewrite E4. cbn [pbind]. eexists _, _. split; [done|]. rewrite view_redircmds, Hv, Hr. split; [done|]. split; [done|].
  pose proof (redirs_suffix (S (length s3)) _ _ _ Hn3 ltac:(lia) E4). transitivity s3; [done|]. transitivity s2; [done|]. transitivity s1; [done|]. by transitivity (skip_ws s).
Qed.

Lemma simple_accepted ts rs ts1 args rs1 : gredirs ts rs -> gargs ts1 args rs1 -> (length args < MAXARGS)%nat ->
  accepts parseexec 2 ends_exec (ts ++ ts1) (sredirs (SEXEC args) (rs ++ rs1)).
Proof.
  intros Gr Ga Hc fuel s ts' Hn Hf El He. destruct fuel as [|fuel]; [lia|]. cbn [parseexec]. peeks. rewrite <- app_assoc in El.
  assert (Es : starts (lex s) "(" = false) by (rewrite El; destruct Gr; [exact (proj2 (gargs_noredir ts1 args rs1 ts' Ga He))|done..]). rewrite Es.
  pose proof (nonul_skip_ws s Hn) as Hns. unfold parseredirs.
  destruct (redirs_complete ts rs Gr (S (length (skip_ws s))) (skip_ws s) (ts1 ++ ts') Hns ltac:(lia)) as (rs0&s2&E2&Hr&El2); [by rewrite lex_skip_ws|by eapply gargs_noredir|].
  rewrite E2. cbn [pbind]. pose proof (redirs_suffix (S (length (skip_ws s))) _ _ _ Hns ltac:(lia) E2) as Hs2. pose proof (nonul_suffix _ _ Hs2 Hns) as Hn2.
  destruct (args_complete ts1 args rs1 Ga (S (length s2)) 0 s2 ts' Hn2 ltac:(lia) El2 He ltac:(lia)) as (args0&rs2&s3&E3&Ha&Hr2&El3). rewrite E3. cbn [pbind].
  eexists _, _. split; [done|]. rewrite view_redircmds, map_app, Hr, Hr2. cbn [view]. rewrite Ha. split; [done|]. split; [done|].
  pose proof (exec_loop_spec (S (length s2)) 0 s2 Hn2 ltac:(lia) ltac:(lia)) as Hx. rewrite E3 in Hx. destruct Hx as [Hs3 _].
  transitivity s2; [done|]. transitivity (skip_ws s); [done|apply skip_ws_suffix_of].
Qed.

Lemma parser_complete :
  (forall ts c, gline ts c -> accepts parseline 4 ends_line ts c) /\
  (forall ts c, gpipe ts c -> accepts parsepipe 3 ends_pipe ts c) /\
  (forall ts c, gexec ts c -> accepts parseexec 2 ends_exec ts c).
Proof.
  apply grammar_ind; intros.
  - by apply line_end_accepted.
  - by apply line_list_accepted.
  - by apply pipe_end_accepted.
  - by apply pipe_pipe_accepted.
  - by apply block_accepted.
  - by apply simple_accepted.
Qed.

(** ** The strings that [nulterminate] cuts out *)

Definition offset (line p : list Z) : Z := Z.of_nat (length line - length p).

Lemma nulterminate_fold line c buf : nulterminate line c buf = fold_left (fun buf a => zero_at line (snd a) buf) (ptrs c) buf.
Proof.
  revert buf. induction c as [argv|c IH r|l IHl r IHr|l IHl r IHr|c IH]; intros buf; cbn [nulterminate ptrs]; rewrite ?fold_left_app; [done| | | |apply IH].
  - by rewrite IH.
  - by rewrite IHl, IHr.
  - by rewrite IHl, IHr.
Qed.

Lemma length_zeros line (l : list (list Z * list Z)) buf : length (fold_left (fun buf a => zero_at line (snd a) buf) l buf) = length buf.
Proof. revert buf. induction l as [|a l IH]; intros buf; cbn [fold_left]; [done|]. rewrite IH. apply length_setz. Qed.

Lemma zeros_other line (l : list (list Z * list Z)) buf i : (forall a, a ∈ l -> offset line (snd a) <> i) ->
  nthd 0 (fold_left (fun buf a => zero_at line (snd a) buf) l buf) i = nthd 0 buf i.
Proof.
  revert buf. induction l as [|a l IH]; intros buf Ha; cbn [fold_left]; [done|]. rewrite IH by (intros; apply Ha; by right).
  apply nthd_setz_ne, Ha. left.
Qed.

Lemma zeros_at line (l : list (list Z * list Z)) buf a : a ∈ l -> offset line (snd a) < Z.of_nat (length buf) ->
  nthd 0 (fold_left (fun buf a => zero_at line (snd a) buf) l buf) (offset line (snd a)) = 0.
Proof.
  intros Ha Hl. apply list_elem_of_split in Ha as (l1&l2&->). rewrite fold_left_app. cbn [fold_left]. set (buf1 := fold_left _ l1 buf).
  assert (E1 : nthd 0 (zero_at line (snd a) buf1) (offset line (snd a)) = 0) by (apply nthd_setz_eq; unfold buf1; rewrite length_zeros; unfold offset in *; lia).
  revert E1. generalize (zero_at line (snd a) buf1). clear. induction l2 as [|b l IH]; intros buf E; cbn [fold_left]; [done|]. apply IH.
  destruct (decide (offset line (snd b) = offset line (snd a))) as [Eo|Hne]; [|unfold zero_at; by rewrite nthd_setz_ne].
  unfold zero_at. fold (offset line (snd b)). rewrite Eo. destruct (decide (offset line (snd a) < Z.of_nat (length buf))) as [Hlt|Hge].
  - apply nthd_setz_eq. unfold offset in *. lia.
  - unfold nthd. destruct (Z.ltb_spec (offset line (snd a)) 0); [done|]. rewrite lookup_ge_None_2; [done|]. rewrite length_setz. lia.
Qed.

Lemma cstr_from_word n f i w : (forall k c, w !! k = Some c -> f (i + Z.of_nat k) = c /\ c <> 0) -> f (i + Z.of_nat (length w)) = 0 -> (length w <= n)%nat -> cstr_from n f i = w.
Proof.
  revert i w. induction n as [|n IH]; intros i w Hw He Hn; cbn [cstr_from]; [destruct w; [done|cbn in Hn; lia]|]. destruct w as [|c w].
  - cbn in He. rewrite Z.add_0_r in He. by rewrite He.
  - destruct (Hw 0%nat c eq_refl) as [Hc Hc0]. rewrite Z.add_0_r in Hc. rewrite Hc, (proj2 (Z.eqb_neq c 0) Hc0). f_equal. apply IH; [| |cbn in Hn; lia].
    + intros k d Hk. destruct (Hw (S k) d Hk) as [H1 H2]. split; [|done]. rewrite <- H1. f_equal. lia.
    + rewrite <- He. f_equal. cbn [length]. lia.
Qed.

(** The zeros are behind words, never inside one. *)
Lemma offset_not_in_word line a b k c : tok_ok line a -> tok_ok line b -> word_of a !! k = Some c -> offset line (snd b) <> offset line (fst a) + Z.of_nat k.
Proof.
  intros [[pa Ea] (wa&Eqa&_&Hwa&_)] [[pb Eb] (wb&Eqb&_&_&Heb)] Hk E. destruct a as [q eq], b as [q2 eq2]. cbn [fst snd] in *. subst q q2.
  rewrite word_of_app in Hk. pose proof (lookup_lt_Some _ _ _ Hk) as Hlt. unfold offset in E.
  assert (Hla : length line = (length pa + length wa + length eq)%nat) by (rewrite Ea, !length_app; lia).
  assert (Hlb : length line = (length pb + length wb + length eq2)%nat) by (rewrite Eb, !length_app; lia).
  rewrite length_app in E. assert (Eo : (length pb + length wb = length pa + k)%nat) by lia.
  assert (El : line !! (length pa + k)%nat = Some c) by (rewrite Ea, lookup_app_r, lookup_app_l by lia; replace (length pa + k - length pa)%nat with k by lia; done).
  rewrite Eb, <- Eo, app_assoc, lookup_app_r in El by (rewrite length_app; lia). rewrite length_app, Nat.sub_diag in El.
  destruct eq2 as [|d eq2]; [done|]. cbn in El. injection El as ->. cbn in Heb. rewrite Forall_forall in Hwa. rewrite (Hwa c) in Heb; [done|]. by eapply list_elem_of_lookup_2.
Qed.

Lemma string_at_word line c a : nonul line -> Forall (tok_ok line) (ptrs c) -> a ∈ ptrs c -> string_at line (nulterminate line c (line ++ [0])) (fst a) = word_of a.
Proof.
  intros Hn Hall Ha. rewrite Forall_forall in Hall. pose proof (Hall a Ha) as Hok. pose proof Hok as [[pa Ea] (wa&Eqa&_&_&_)]. unfold string_at. rewrite nulterminate_fold, length_zeros.
  fold (offset line (fst a)). assert (Ew : word_of a = wa) by (destruct a as [q eq]; cbn in *; subst q; apply word_of_app).
  assert (Hl : length line = (length pa + length wa + length (snd a))%nat) by (rewrite Ea, Eqa, !length_app; lia).
  assert (Hq : length (fst a) = (length wa + length (snd a))%nat) by (rewrite Eqa, length_app; lia).
  apply cstr_from_word.
  - intros k x Hk. rewrite zeros_other by (intros b Hb; by eapply offset_not_in_word; [exact Hok|apply Hall|]).
    rewrite Ew in Hk. pose proof (lookup_lt_Some _ _ _ Hk). unfold offset. replace (Z.of_nat (length line - length (fst a)) + Z.of_nat k) with (Z.of_nat (length pa + k)) by lia.
    assert (El : line !! (length pa + k)%nat = Some x) by (rewrite Ea, Eqa, lookup_app_r, lookup_app_l by lia; replace (length pa + k - length pa)%nat with k by lia; done).
    split; [|unfold nonul in Hn; rewrite Forall_forall in Hn; apply Hn; by eapply list_elem_of_lookup_2]. unfold nthd. rewrite (proj2 (Z.ltb_ge _ _)) by lia.
    rewrite Nat2Z.id, lookup_app_l by lia. by rewrite El.
  - rewrite Ew. replace (offset line (fst a) + Z.of_nat (length wa)) with (offset line (snd a)) by (unfold offset; lia).
    apply zeros_at; [done|]. unfold offset. rewrite length_app. cbn. lia.
  - rewrite Ew, length_app. lia.
Qed.

Lemma view_ext f g c : (forall a, a ∈ ptrs c -> f a = g a) -> view f c = view g c.
Proof.
  induction c as [argv|c IH r|l IHl r IHr|l IHl r IHr|c IH]; cbn [view ptrs]; intros H.
  - f_equal. induction argv as [|a argv IH]; [done|]. cbn. rewrite H by left. f_equal. apply IH. intros; apply H; by right.
  - rewrite IH, (H (rptr r)); [done|set_solver|intros; apply H; set_solver].
  - rewrite IHl, IHr; [done| |]; intros; apply H; set_solver.
  - rewrite IHl, IHr; [done| |]; intros; apply H; set_solver.
  - by rewrite IH.
Qed.

(** ** The theorems *)

(** The command with the strings that [runcmd] will use. *)
Definition meaning (line : list Z) (c : cmd) (buf : list Z) : scmd := view (fun a => string_at line buf (fst a)) c.

Lemma noreturn_not_ret {A} (p : prog A) a : noreturn p -> p = URet a -> False.
Proof. by intros H ->. Qed.

Lemma parsecmd_sound s c buf : nonul s -> parsecmd s = URet (c, buf) -> gline (lex s) (meaning s c buf).
Proof.
  intros Hn E. unfold parsecmd in E. destruct (parser_sound (parse_fuel s)) as [Hl _]. specialize (Hl s Hn ltac:(unfold parse_fuel; lia)).
  destruct (parseline (parse_fuel s) s) as [[c0 rest]|msg|]; [|by destruct (noreturn_not_ret _ _ (noreturn_panic msg) E)|done].
  destruct Hl as (Hs&ts&El&G&F). unfold peek in E. destruct (skip_ws rest) as [|x r] eqn:Er.
  2: { destruct (noreturn_not_ret _ _ (noreturn_bind _ _ (fun _ => noreturn_panic _)) E). }
  injection E as -> <-.
  assert (Hrest : lex rest = []) by (by rewrite <- lex_skip_ws, Er). rewrite Hrest, app_nil_r in El. subst ts.
  unfold meaning. rewrite (view_ext _ word_of); [done|]. intros a Ha. by apply string_at_word.
Qed.

Lemma parsecmd_complete s sc : nonul s -> gline (lex s) sc -> exists c buf, parsecmd s = URet (c, buf).
Proof.
  intros Hn G. destruct parser_complete as [Hl _].
  destruct (Hl (lex s) sc G (parse_fuel s) s [] Hn) as (c&rest&E&_&El&Hs); [unfold parse_fuel; lia|by rewrite app_nil_r|by left|].
  unfold parsecmd. rewrite E. unfold peek. assert (Er : skip_ws rest = []).
  { pose proof (gettoken_got rest (nonul_suffix _ _ Hs Hn)) as Hg. inversion Hg; congruence. }
  rewrite Er. by eexists _, _.
Qed.

(** A sentence has one meaning. *)
Lemma gline_unique s sc1 sc2 : nonul s -> gline (lex s) sc1 -> (exists c buf, parsecmd s = URet (c, buf) /\ meaning s c buf = sc2) -> sc1 = sc2.
Proof.
  intros Hn G (c&buf&E&<-). destruct parser_complete as [Hl _].
  destruct (Hl (lex s) sc1 G (parse_fuel s) s [] Hn) as (c1&rest&E1&Hv&El&Hs); [unfold parse_fuel; lia|by rewrite app_nil_r|by left|].
  unfold parsecmd in E. rewrite E1 in E. unfold peek in E. destruct (skip_ws rest) as [|x r] eqn:Er.
  2: { destruct (noreturn_not_ret _ _ (noreturn_bind _ _ (fun _ => noreturn_panic _)) E). }
  injection E as -> <-. rewrite <- Hv. unfold meaning. symmetry. apply view_ext. intros a Ha. apply string_at_word; [done| |done].
  destruct (parser_sound (parse_fuel s)) as [Hl' _]. specialize (Hl' s Hn ltac:(unfold parse_fuel; lia)). rewrite E1 in Hl'. destruct Hl' as (_&ts&_&_&F). done.
Qed.

(** C12. The shell understands a line exactly when it is a sentence of the
    grammar, and then as the command the sentence denotes: the parser gives
    the command its structure, and the pointers into the line, once
    [nulterminate] has written its zeros there, are to strings equal to the
    words of the sentence. *)
Theorem sh_parses s sc : Forall (fun c => c <> 0) s ->
  (exists c buf, parsecmd s = URet (c, buf) /\ meaning s c buf = sc) <-> gline (lex s) sc.
Proof.
  intros Hn. split.
  - intros (c&buf&E&<-). by apply parsecmd_sound.
  - intros G. destruct (parsecmd_complete s sc Hn G) as (c&buf&E). exists c, buf. split; [done|]. symmetry. apply (gline_unique s); [done|done|by eexists _, _].
Qed.

(** "a>f;(b|c)&" *)
Lemma sh_parses_witness : exists c buf, parsecmd (str "a>f;(b|c)&") = URet (c, buf) /\
  meaning (str "a>f;(b|c)&") c buf = SLIST (SREDIR (SEXEC [str "a"]) (str "f") 0x601 1) (SBACK (SPIPE (SEXEC [str "b"]) (SEXEC [str "c"]))).
Proof.
  apply (sh_parses (str "a>f;(b|c)&")); [repeat (apply Forall_cons; split; [vm_compute; discriminate|]); apply Forall_nil; exact I|].
  assert (W : forall w, gexec [TWord [w]] (SEXEC [[w]])).
  { intros w. apply (ge_simple [] [] [TWord [w]] [[w]] []); [constructor|apply (ga_arg [w] [] [] [] [] []); constructor|cbn; lia]. }
  apply (gl_list [TWord (str "a"); sym ">"; TWord (str "f")] _ 0 [sym "("; TWord (str "b"); sym "|"; TWord (str "c"); sym ")"; sym "&"]).
  - apply gp_end. apply (ge_simple [] [] _ [str "a"] [(str "f", 0x601, 1)]); [constructor| |cbn; lia].
    apply (ga_arg (str "a") [sym ">"; TWord (str "f")] [(str "f", 0x601, 1)] [] [] []); [apply gr_out|]; constructor.
  - apply (gl_end [sym "("; TWord (str "b"); sym "|"; TWord (str "c"); sym ")"] _ 1). apply gp_end.
    apply (ge_block [TWord (str "b"); sym "|"; TWord (str "c")] _ [] []); [|constructor].
    apply (gl_end [TWord (str "b"); sym "|"; TWord (str "c")] _ 0). apply (gp_pipe [TWord (str "b")] _ [TWord (str "c")]); [apply W|apply gp_end, W].
Defined.

Lemma putall_returns {W} (h : handler W) fd cs w : exists w', exec h (putall fd cs) w = (Returned tt, w').
Proof.
  revert w. induction cs as [|c cs IH]; intros w; cbn [putall]; [by exists w|]. rewrite exec_bind. cbn [putc exec ubind call].
  destruct (h Z (SWrite fd [u8 c]) w) as [x w1]. apply IH.
Qed.

Lemma panic_exits {A W} (h : handler W) msg w : exists w', exec h (panic (A := A) msg) w = (Exited 1, w').
Proof.
  unfold panic, fprintf, vprintf. rewrite exec_bind. cbn [vformat]. change (vformat (str ("%s" +:+ nl)) [VStr (Some (str msg))]) with (Some (str msg ++ [10])).
  destruct (putall_returns h 2 (str msg ++ [10]) w) as [w' ->]. by exists w'.
Qed.

(** C39. The parser stops on every line: it returns a command, or the shell
    process prints a message and exits with status 1.  Nesting of calls four
    times the length of the line is enough. *)
Theorem sh_parser_total s {W} (h : handler W) w : Forall (fun c => c <> 0) s ->
  (exists c buf, parsecmd s = URet (c, buf)) \/ (exists w', exec h (parsecmd s) w = (Exited 1, w')).
Proof.
  intros Hn. unfold parsecmd. destruct (parser_sound (parse_fuel s)) as [Hl _]. specialize (Hl s Hn ltac:(unfold parse_fuel; lia)).
  destruct (parseline (parse_fuel s) s) as [[c rest]|msg|]; [|right; apply panic_exits|done]. unfold peek. destruct (skip_ws rest) as [|x r]; [left; by eexists _, _|right].
  rewrite exec_bind. unfold fprintf, vprintf. change (vformat (str ("leftovers: %s" +:+ nl)) [VStr (Some (x :: r))]) with (Some (str "leftovers: " ++ (x :: r) ++ [10])).
  destruct (putall_returns h 2 (str "leftovers: " ++ (x :: r) ++ [10]) w) as [w' ->]. apply panic_exits.
Qed.

Lemma sh_parser_total_witness : exists w', exec stream_handler (parsecmd (str "a b)")) (mkstream [] [] [] []) = (Exited 1, w').
Proof.
  destruct (sh_parser_total (str "a b)") stream_handler (mkstream [] [] [] [])) as [(c&buf&E)|H].
  - repeat (apply Forall_cons; split; [vm_compute; discriminate|]). apply Forall_nil. exact I.
  - exfalso. vm_compute in E. discriminate E.
  - exact H.
Defined.
