(* ===== verification/Asm.v ===== *)
(** * The assembly files: [entry.S], [swtch.S], [kernelvec.S], [trampoline.S]

    The instructions they use, executed on a hart with its registers, control
    registers, privilege mode and physical memory.  Addresses of loads and
    stores go through the page table of [satp], as the Sv39 scheme has it; the
    accessed and dirty bits are not kept.  The code of each file is a list of
    instructions; running it stops where control leaves it.  The length of an
    instruction (a pseudo-instruction can be several) is the assembler's. *)

From S2P Require Import Prelude Riscv CString Kernel.
From stdpp Require Import base numbers strings gmap list.
From Stdlib Require Import ZArith Lia.

#[local] Open Scope Z_scope.

(** ** A hart *)

Inductive reg :=
  | zero | ra | sp | gp | tp | t0 | t1 | t2 | s0 | s1 | a0 | a1 | a2 | a3 | a4 | a5 | a6 | a7
  | s2 | s3 | s4 | s5 | s6 | s7 | s8 | s9 | s10 | s11 | t3 | t4 | t5 | t6.

#[export] Instance reg_eq_dec : EqDecision reg.
Proof. solve_decision. Defined.

Inductive mode := UserMode | SupervisorMode | MachineMode.

Record hart := mkhart {
  xreg : reg -> Z;
  pc : Z;
  priv : mode;
  sscratch : Z;
  hcsr : csrs;
  hmem : memory
}.

#[export] Instance hart_expand : Expand hart := fun h => mkhart (xreg h) (pc h) (priv h) (sscratch h) (hcsr h) (hmem h).

Definition getr (h : hart) (r : reg) : Z := if decide (r = zero) then 0 else xreg h r.
Definition setr (h : hart) (r : reg) (v : Z) : hart := h <| xreg := fun r' => if decide (r' = r) then u64 v else xreg h r' |>.

(** ** Address translation *)

Inductive access := Load | Store.

(** The leaf entry for [va] and its level, from a table of [level] on. *)
Fixpoint hw_walk (level : nat) (m : memory) (table va : Z) : option (Z * nat) :=
  let pte := rd64 m (table + 8 * PX (Z.of_nat level) va) in
  if negb (flag pte PTE_V) || (flag pte PTE_W && negb (flag pte PTE_R)) then None
  else if flag pte PTE_R || flag pte PTE_X then Some (pte, level)
  else match level with O => None | S level => hw_walk level m (PTE2PA pte) va end.

(** Supervisor mode does not reach the pages of user mode. *)
Definition permitted (acc : access) (pte : Z) : bool :=
  negb (flag pte PTE_U) && flag pte (match acc with Load => PTE_R | Store => PTE_W end).

Definition sv39 (m : memory) (satp : Z) (acc : access) (va : Z) : option Z :=
  if (2 ^ 38 <=? va) && (va <? 2 ^ 64 - 2 ^ 38) then None
  else
    match hw_walk 2 m (satp mod 2 ^ 44 * PGSIZE) va with
    | None => None
    | Some (pte, level) =>
        let size := 2 ^ (12 + 9 * Z.of_nat level) in
        if permitted acc pte && (PTE2PA pte mod size =? 0) then Some (PTE2PA pte + va mod size) else None
    end.

Definition translate (h : hart) (acc : access) (va : Z) : option Z :=
  match priv h with
  | UserMode => None
  | SupervisorMode => if satp (hcsr h) / 2 ^ 60 =? 8 then sv39 (hmem h) (satp (hcsr h)) acc va else Some va
  | MachineMode => Some va
  end.

(** ** Instructions *)

Inductive csrname := Sscratch | Satp | Mhartid.

Inductive instr :=
  | Sd (rs : reg) (off : Z) (base : reg)
  | Ld (rd : reg) (off : Z) (base : reg)
  | Addi (rd rs : reg) (imm : Z)
  | Add (rd rs rt : reg)
  | Mul (rd rs rt : reg)
  | Li (rd : reg) (imm : Z)
  | La (rd : reg) (addr : Z)
  | Csrr (rd : reg) (csr : csrname)
  | Csrw (csr : csrname) (rs : reg)
  | Sfence_vma
  | Jalr (rs : reg)
  | Call (addr : Z)
  | Ret
  | Sret.

(** The bytes of an instruction. *)
Class Assembler := { isize : instr -> Z }.

Section asm.
Context {AS : Assembler} {LK : Linker}.

Definition code_size (code : list instr) : Z := fold_right (fun i n => isize i + n) 0 code.

Definition jumps (i : instr) : bool := match i with Jalr _ | Call _ | Ret | Sret => true | _ => false end.

(** An access of 8 bytes at an aligned address. *)
Definition access8 (h : hart) (acc : access) (va : Z) : option Z :=
  if va mod 8 =? 0 then translate h acc va else None.

(** The [sret] of a hart in supervisor mode: to [sepc], in the mode and with the
    interrupts from before the trap. *)
Definition sret (h : hart) : hart :=
  let s := sstatus (hcsr h) in
  let s' := Z.lor (if flag s SSTATUS_SPIE then Z.lor s SSTATUS_SIE else Z.land s (Z.lnot SSTATUS_SIE)) SSTATUS_SPIE in
  h <| pc := sepc (hcsr h) |> <| priv := if flag s SSTATUS_SPP then SupervisorMode else UserMode |>
    <| hcsr := (hcsr h) <| sstatus := Z.land s' (Z.lnot SSTATUS_SPP) |> |>.

(** What an instruction does apart from the program counter, [None] for an exception. *)
Definition effect (i : instr) (h : hart) : option hart :=
  match i with
  | Sd rs off base =>
      match access8 h Store (u64 (getr h base + off)) with
      | Some pa => Some (h <| hmem := wr64 (hmem h) pa (getr h rs) |>)
      | None => None
      end
  | Ld rd off base =>
      match access8 h Load (u64 (getr h base + off)) with
      | Some pa => Some (setr h rd (rd64 (hmem h) pa))
      | None => None
      end
  | Addi rd rs imm => Some (setr h rd (getr h rs + imm))
  | Add rd rs rt => Some (setr h rd (getr h rs + getr h rt))
  | Mul rd rs rt => Some (setr h rd (getr h rs * getr h rt))
  | Li rd imm => Some (setr h rd imm)
  | La rd addr => Some (setr h rd addr)
  | Csrr rd csr =>
      match csr, priv h with
      | _, UserMode | Mhartid, SupervisorMode => None
      | Sscratch, _ => Some (setr h rd (sscratch h))
      | Satp, _ => Some (setr h rd (satp (hcsr h)))
      | Mhartid, _ => Some (setr h rd (mhartid (hcsr h)))
      end
  | Csrw csr rs =>
      match csr, priv h with
      | _, UserMode | Mhartid, _ => None
      | Sscratch, _ => Some (h <| sscratch := getr h rs |>)
      | Satp, _ => Some (h <| hcsr := w_satp (getr h rs) (hcsr h) |>)
      end
  | Sfence_vma => match priv h with UserMode => None | _ => Some h end
  | Jalr rs => Some ((setr h ra (pc h + isize i)) <| pc := Z.land (getr h rs) (Z.lnot 1) |>)
  | Call addr => Some ((setr h ra (pc h + isize i)) <| pc := addr |>)
  | Ret => Some (h <| pc := Z.land (getr h ra) (Z.lnot 1) |>)
  | Sret => match priv h with UserMode => None | _ => Some (sret h) end
  end.

Definition exec1 (i : instr) (h : hart) : option hart :=
  match effect i h with
  | Some h' => Some (if jumps i then h' else h' <| pc := pc h + isize i |>)
  | None => None
  end.

(** Up to the first instruction that leaves the code. *)
Fixpoint run (code : list instr) (h : hart) : option hart :=
  match code with
  | [] => Some h
  | i :: code =>
      match exec1 i h with
      | None => None
      | Some h' => if jumps i then Some h' else run code h'
      end
  end.

(** ** [entry.S], up to the call of [start] *)

Definition entry_code (stack0 start : Z) : list instr :=
  [La sp stack0; Li a0 (1024 * 4); Csrr a1 Mhartid; Addi a1 a1 1; Mul a0 a0 a1; Add sp sp a0; Call start].

(** ** [swtch.S] *)

Definition swtch_code : list instr :=
  [Sd ra 0 a0; Sd sp 8 a0; Sd s0 16 a0; Sd s1 24 a0; Sd s2 32 a0; Sd s3 40 a0; Sd s4 48 a0;
   Sd s5 56 a0; Sd s6 64 a0; Sd s7 72 a0; Sd s8 80 a0; Sd s9 88 a0; Sd s10 96 a0; Sd s11 104 a0;
   Ld ra 0 a1; Ld sp 8 a1; Ld s0 16 a1; Ld s1 24 a1; Ld s2 32 a1; Ld s3 40 a1; Ld s4 48 a1;
   Ld s5 56 a1; Ld s6 64 a1; Ld s7 72 a1; Ld s8 80 a1; Ld s9 88 a1; Ld s10 96 a1; Ld s11 104 a1;
   Ret].

(** ** [kernelvec.S], before and after the call of [kerneltrap] *)

Definition kernelvec_entry (kerneltrap : Z) : list instr :=
  [Addi sp sp (-256);
   Sd ra 0 sp; Sd gp 16 sp; Sd tp 24 sp; Sd t0 32 sp; Sd t1 40 sp; Sd t2 48 sp;
   Sd a0 72 sp; Sd a1 80 sp; Sd a2 88 sp; Sd a3 96 sp; Sd a4 104 sp; Sd a5 112 sp; Sd a6 120 sp; Sd a7 128 sp;
   Sd t3 216 sp; Sd t4 224 sp; Sd t5 232 sp; Sd t6 240 sp;
   Call kerneltrap].

Definition kernelvec_exit : list instr :=
  [Ld ra 0 sp; Ld gp 16 sp; Ld t0 32 sp; Ld t1 40 sp; Ld t2 48 sp;
   Ld a0 72 sp; Ld a1 80 sp; Ld a2 88 sp; Ld a3 96 sp; Ld a4 104 sp; Ld a5 112 sp; Ld a6 120 sp; Ld a7 128 sp;
   Ld t3 216 sp; Ld t4 224 sp; Ld t5 232 sp; Ld t6 240 sp;
   Addi sp sp 256; Sret].

(** ** [trampoline.S] *)

Definition uservec_code : list instr :=
  [Csrw Sscratch a0; Li a0 TRAPFRAME;
   Sd ra 40 a0; Sd sp 48 a0; Sd gp 56 a0; Sd tp 64 a0; Sd t0 72 a0; Sd t1 80 a0; Sd t2 88 a0; Sd s0 96 a0; Sd s1 104 a0;
   Sd a1 120 a0; Sd a2 128 a0; Sd a3 136 a0; Sd a4 144 a0; Sd a5 152 a0; Sd a6 160 a0; Sd a7 168 a0;
   Sd s2 176 a0; Sd s3 184 a0; Sd s4 192 a0; Sd s5 200 a0; Sd s6 208 a0; Sd s7 216 a0; Sd s8 224 a0; Sd s9 232 a0;
   Sd s10 240 a0; Sd s11 248 a0; Sd t3 256 a0; Sd t4 264 a0; Sd t5 272 a0; Sd t6 280 a0;
   Csrr t0 Sscratch; Sd t0 112 a0;
   Ld sp 8 a0; Ld tp 32 a0; Ld t0 16 a0; Ld t1 0 a0;
   Sfence_vma; Csrw Satp t1; Sfence_vma; Jalr t0].

Definition userret_code : list instr :=
  [Sfence_vma; Csrw Satp a0; Sfence_vma; Li a0 TRAPFRAME;
   Ld ra 40 a0; Ld sp 48 a0; Ld gp 56 a0; Ld tp 64 a0; Ld t0 72 a0; Ld t1 80 a0; Ld t2 88 a0; Ld s0 96 a0; Ld s1 104 a0;
   Ld a1 120 a0; Ld a2 128 a0; Ld a3 136 a0; Ld a4 144 a0; Ld a5 152 a0; Ld a6 160 a0; Ld a7 168 a0;
   Ld s2 176 a0; Ld s3 184 a0; Ld s4 192 a0; Ld s5 200 a0; Ld s6 208 a0; Ld s7 216 a0; Ld s8 224 a0; Ld s9 232 a0;
   Ld s10 240 a0; Ld s11 248 a0; Ld t3 256 a0; Ld t4 264 a0; Ld t5 272 a0; Ld t6 280 a0;
   Ld a0 112 a0; Sret].
End asm.

(** ** Traps *)

(** A trap from user mode: the hardware's part, with its cause. *)
Definition user_trap (cause : Z) (h : hart) : hart :=
  let c := hcsr h in
  let s := sstatus c in
  let s1 := if flag s SSTATUS_SIE then Z.lor s SSTATUS_SPIE else Z.land s (Z.lnot SSTATUS_SPIE) in
  h <| hcsr := c <| sepc := pc h |> <| scause := cause |> <| sstatus := Z.land s1 (Z.lnot (Z.lor SSTATUS_SIE SSTATUS_SPP)) |> |>
    <| priv := SupervisorMode |> <| pc := stvec c |>.
