(* ===== verification/AsmRun.v ===== *)
(** * Running the assembly code

    Translation through a page table that the kernel has built (Vm.v), and what
    a sequence of stores or loads of registers does. *)

From S2P Require Import Prelude Riscv CString Kernel Kalloc Vm Asm.
From stdpp Require Import base numbers strings gmap list.
From Stdlib Require Import ZArith Lia.

#[local] Open Scope Z_scope.

(** ** Translation *)

(** Memories that differ only in the [n] bytes at [pa]. *)
Definition agree_out (m m' : memory) (pa n : Z) : Prop := forall x, ~ (pa <= x < pa + n) -> rd8 m' x = rd8 m x.

Lemma agree_refl m pa n : agree_out m m pa n.
Proof. done. Qed.

Lemma agree_trans m1 m2 m3 pa n : agree_out m1 m2 pa n -> agree_out m2 m3 pa n -> agree_out m1 m3 pa n.
Proof. intros H1 H2 x Hx. by rewrite H2, H1. Qed.

Lemma agree_wr64 m pa n o v : 0 <= o -> o + 8 <= n -> agree_out m (wr64 m (pa + o) v) pa n.
Proof. intros H1 H2 x Hx. apply rd8_wrn_out. lia. Qed.

(** The [n] bytes at [base] are the [n] bytes at [pa], whatever these hold. *)
Definition window (h : hart) (base pa n : Z) : Prop :=
  forall m acc o, agree_out (hmem h) m pa n -> 0 <= o -> o + 8 <= n -> o mod 8 = 0 -> access8 (h <| hmem := m |>) acc (u64 (base + o)) = Some (pa + o).

Lemma access8_ext h h' acc va : priv h' = priv h -> satp (hcsr h') = satp (hcsr h) -> hmem h' = hmem h -> access8 h' acc va = access8 h acc va.
Proof. intros E1 E2 E3. unfold access8, translate. by rewrite E1, E2, E3. Qed.

Lemma window_ext h h' base pa n : window h base pa n -> priv h' = priv h -> satp (hcsr h') = satp (hcsr h) -> agree_out (hmem h) (hmem h') pa n -> window h' base pa n.
Proof.
  intros W E1 E2 E3 m acc o Hm H1 H2 H3. rewrite <- (W m acc o (agree_trans _ _ _ _ _ E3 Hm) H1 H2 H3). by apply access8_ext.
Qed.

Lemma window_at h base pa n acc o : window h base pa n -> 0 <= o -> o + 8 <= n -> o mod 8 = 0 -> access8 h acc (u64 (base + o)) = Some (pa + o).
Proof. intros W H1 H2 H3. rewrite <- (W (hmem h) acc o (agree_refl _ _ _) H1 H2 H3). by apply access8_ext. Qed.

Section translation.
Context {LK : Linker} {LKO : LinkerOk}.

Lemma table_flags p : page_ok p -> flag (table_pte (Some p)) PTE_V = true /\ flag (table_pte (Some p)) PTE_R = false /\
  flag (table_pte (Some p)) PTE_W = false /\ flag (table_pte (Some p)) PTE_X = false.
Proof. intros [? ?]%page_ok_range. cbn [table_pte]. change PTE_V with 1. rewrite !flag_make by (try done; lia). done. Qed.

Lemma hw_step n m table va p : page_ok p -> rd64 m (table + 8 * PX (Z.of_nat (S n)) va) = table_pte (Some p) -> hw_walk (S n) m table va = hw_walk n m p va.
Proof.
  intros Hp E. cbn [hw_walk]. rewrite E. destruct (table_flags p Hp) as (->&->&->&->). cbn [negb orb andb]. by rewrite table_pte_pa.
Qed.

(** The hardware finds the entry that the kernel's [walk] finds. *)
Lemma hw_walk_wf m t va : pt_wf m t -> 0 <= va < MAXVA -> let e := pte_at m t va in
  flag e PTE_V = true -> flag e PTE_R = true -> hw_walk 2 m (pt_root t) va = Some (e, 0%nat).
Proof.
  intros Hw Hva e HV HR. unfold e, pte_at in *. destruct (pt_low t !! (PX 2 va, PX 1 va)) as [q|] eqn:Eq; [|done].
  destruct (wf_low_dom _ _ Hw _ _ _ Eq) as [[p Hp] _]. pose proof (PX_range 2 va ltac:(lia)). pose proof (PX_range 1 va ltac:(lia)).
  rewrite (hw_step 1 m _ va p); [|by eapply wf_mid_ok|rewrite <- Hp; by apply (wf_root _ _ Hw)].
  rewrite (hw_step 0 m _ va q); [|by eapply wf_low_ok|rewrite <- Eq; by apply (wf_mid _ _ Hw)].
  cbn [hw_walk]. change (q + 8 * PX (Z.of_nat 0) va) with (pte_addr q (PX 0 va)). by rewrite HV, HR, andb_false_r.
Qed.

Lemma satp_root p : page_ok p -> MAKE_SATP p / 2 ^ 60 = 8 /\ MAKE_SATP p mod 2 ^ 44 * PGSIZE = p /\ u64 (MAKE_SATP p) = MAKE_SATP p.
Proof.
  intros [Hr Ha]%page_ok_range. assert (E : MAKE_SATP p = 8 * 2 ^ 60 + p / 4096).
  { unfold MAKE_SATP. rewrite Z.shiftr_div_pow2 by lia. rewrite Z.lor_comm. unfold SATP_SV39. rewrite Z.lor_comm, lor_shiftl_add by (lia || zlia). reflexivity. }
  rewrite E. split; [zlia|]. split; [zlia|]. apply u64_small. zlia.
Qed.

Definition rw : Z := Z.lor PTE_R PTE_W.

(** Every page of the [n] bytes at [base] is mapped for the kernel, to the bytes
    at [pa], which are apart from the tables. *)
Record maps (m : memory) (t : ptree) (base pa n : Z) : Prop := {
  mp_wf : pt_wf m t;
  mp_base : 0 <= base /\ base + n <= MAXVA;
  mp_align : base mod 8 = 0;
  mp_pte : forall o, 0 <= o < n -> let e := pte_at m t (base + o) in
    flag e PTE_V = true /\ flag e PTE_R = true /\ flag e PTE_W = true /\ flag e PTE_U = false /\
    PTE2PA e mod PGSIZE = 0 /\ PTE2PA e + (base + o) mod PGSIZE = pa + o;
  mp_apart : forall p, p ∈ pt_pages t -> p + PGSIZE <= pa \/ pa + n <= p }.

Lemma agree_entry m m' pa n p j : agree_out m m' pa n -> page_ok p -> p + PGSIZE <= pa \/ pa + n <= p -> 0 <= j < 512 -> rd64 m' (pte_addr p j) = rd64 m (pte_addr p j).
Proof. intros Ha Hp Hd Hj. apply rdn_ext. intros x Hx. apply Ha. unfold pte_addr in Hx. lia. Qed.

(** A change apart from the tables leaves a mapping alone. *)
Lemma maps_other m m' t base pa n pa' n' : maps m t base pa n -> agree_out m m' pa' n' -> (forall p, p ∈ pt_pages t -> p + PGSIZE <= pa' \/ pa' + n' <= p) -> maps m' t base pa n.
Proof.
  intros [Hw Hb Hal Hpte Hap] Ha Hap'. pose proof (fun p j Hin => agree_entry m m' pa' n' p j Ha (wf_page_ok _ _ p Hw Hin) (Hap' p Hin)) as He. split; [|done|done| |done].
  - apply (pt_wf_frame m); [done|]. intros p i Hp Hi. apply He; [|done]. destruct Hp as [->|[j Hj]]; [apply pt_root_in|by eapply pt_mid_in].
  - intros o Ho. rewrite (pte_at_frame m m'); [by apply Hpte|]. intros p Hp. apply He; [by eapply pt_low_in|by apply PX_range].
Qed.

Lemma maps_agree m m' t base pa n : maps m t base pa n -> agree_out m m' pa n -> maps m' t base pa n.
Proof. intros Mp Ha. apply (maps_other m m' t base pa n pa n); [done|done|apply Mp]. Qed.

Lemma maps_window h t base pa n : maps (hmem h) t base pa n -> priv h = SupervisorMode -> satp (hcsr h) = MAKE_SATP (pt_root t) -> window h base pa n.
Proof.
  intros Mp Hp Hs m acc o Hm H1 H2 H3. pose proof (maps_agree _ _ _ _ _ _ Mp Hm) as [Hw Hb Hal Hpte _]. destruct (Hpte o ltac:(lia)) as (F1&F2&F3&F4&F5&F6).
  pose proof (wf_page_ok _ _ _ Hw (pt_root_in t)) as Hroot. destruct (satp_root _ Hroot) as (S1&S2&S3). unfold access8, translate. change (priv (h <| hmem := m |>)) with (priv h). change (hcsr (h <| hmem := m |>)) with (hcsr h). change (hmem (h <| hmem := m |>)) with m.
  rewrite u64_small by lia. rewrite (proj2 (Z.eqb_eq ((base + o) mod 8) 0)) by zlia. rewrite Hp, Hs, S1. cbn [Z.eqb]. unfold sv39.
  rewrite (proj2 (Z.leb_gt (2 ^ 38) (base + o))) by lia. cbn [andb]. rewrite S2, (hw_walk_wf m t) by (done || lia). change (2 ^ (12 + 9 * Z.of_nat 0)) with 4096.
  rewrite F5. unfold permitted. rewrite F4. destruct acc; rewrite ?F2, ?F3; cbn [negb andb Z.eqb]; by rewrite F6.
Qed.
End translation.

(** ** Sequences of stores and of loads *)

Section sequences.
Context {AS : Assembler}.

Definition saves (b : reg) (l : list (reg * Z)) : list instr := (fun x => Sd (fst x) (snd x) b) <$> l.
Definition loads (b : reg) (l : list (reg * Z)) : list instr := (fun x => Ld (fst x) (snd x) b) <$> l.

Fixpoint stored (l : list (reg * Z)) (f : reg -> Z) (pa : Z) (m : memory) : memory :=
  match l with [] => m | (r, o) :: l => stored l f pa (wr64 m (pa + o) (f r)) end.
Fixpoint loaded (l : list (reg * Z)) (m : memory) (pa : Z) (f : reg -> Z) : reg -> Z :=
  match l with [] => f | (r, o) :: l => loaded l m pa (fun r' => if decide (r' = r) then u64 (rd64 m (pa + o)) else f r') end.

(** The registers at offsets within [n] bytes. *)
Definition fits_in (n : Z) (l : list (reg * Z)) : Prop := Forall (fun x => 0 <= snd x /\ snd x + 8 <= n /\ snd x mod 8 = 0) l.

Lemma stored_agree n l f pa m : fits_in n l -> agree_out m (stored l f pa m) pa n.
Proof.
  revert m. induction l as [|[r o] l IH]; intros m H; [apply agree_refl|]. apply Forall_cons in H as [[H1 [H2 _]] H]. cbn [stored fst snd] in *.
  eapply agree_trans; [by apply agree_wr64|by apply IH].
Qed.

Lemma run_saves b l code : forall h base pa n, getr h b = base -> window h base pa n -> fits_in n l ->
  run (saves b l ++ code) h = run code (h <| hmem := stored l (getr h) pa (hmem h) |> <| pc := pc h + code_size (saves b l) |>).
Proof.
  induction l as [|[r o] l IH]; intros h base pa n Hb W Hl.
  - cbn [saves fmap list_fmap app stored code_size fold_right]. f_equal. destruct h; cbn. f_equal. lia.
  - apply Forall_cons in Hl as [(H1&H2&H3) Hl]. cbn [fst snd] in *. cbn [saves fmap list_fmap app fst snd run jumps]. unfold exec1. cbn [effect jumps].
    rewrite Hb, (window_at _ _ _ _ _ _ W) by done. set (h1 := (_ <| pc := _ |>)). etransitivity; [apply (IH h1 base pa n); [exact Hb| |done]|].
    + apply (window_ext h); [done|done|done|]. by apply agree_wr64.
    + f_equal. unfold h1. destruct h; cbn. f_equal. change (saves b ((r, o) :: l)) with (Sd r o b :: saves b l). cbn [code_size fold_right]. unfold code_size, saves. lia.
Qed.

Lemma run_loads b l code : b <> zero -> forall h base pa n, getr h b = base -> window h base pa n -> fits_in n l -> Forall (fun x => fst x <> b) l ->
  run (loads b l ++ code) h = run code (h <| xreg := loaded l (hmem h) pa (xreg h) |> <| pc := pc h + code_size (loads b l) |>).
Proof.
  intros Hbz. induction l as [|[r o] l IH]; intros h base pa n Hb W Hl Hne.
  - cbn [loads fmap list_fmap app loaded code_size fold_right]. f_equal. destruct h; cbn. f_equal. lia.
  - apply Forall_cons in Hl as [(H1&H2&H3) Hl]. apply Forall_cons in Hne as [Hr Hne]. cbn [fst snd] in *. cbn [loads fmap list_fmap app fst snd run jumps]. unfold exec1. cbn [effect jumps].
    rewrite Hb, (window_at _ _ _ _ _ _ W) by done. set (h1 := (_ <| pc := _ |>)). etransitivity; [apply (IH h1 base pa n); [| |done|done]|].
    + rewrite <- Hb. unfold getr, h1, setr. cbn. rewrite !(decide_False (P := b = zero)) by done. by rewrite decide_False by done.
    + by apply (window_ext h).
    + f_equal. unfold h1. destruct h; cbn. f_equal. change (loads b ((r, o) :: l)) with (Ld r o b :: loads b l). cbn [code_size fold_right]. unfold code_size, loads. lia.
Qed.

Lemma stored_other l f pa m a : (forall x, x ∈ l -> a + 8 <= pa + snd x \/ pa + snd x + 8 <= a) -> rd64 (stored l f pa m) a = rd64 m a.
Proof.
  revert m. induction l as [|[r o] l IH]; intros m H; [done|]. cbn [stored]. rewrite IH by (intros x Hx; apply H; by right).
  apply rdn_wrn_out. specialize (H (r, o) (list_elem_of_here _ _)). cbn [snd] in H. lia.
Qed.

(** Each register is in its place. *)
Lemma stored_at n l f pa m r o : NoDup (snd <$> l) -> fits_in n l -> (r, o) ∈ l -> rd64 (stored l f pa m) (pa + o) = u64 (f r).
Proof.
  revert m. induction l as [|[r' o'] l IH]; intros m Hnd Hl Hin; [by apply not_elem_of_nil in Hin|]. cbn [stored fmap list_fmap snd] in *.
  apply NoDup_cons in Hnd as [Hn Hnd]. apply Forall_cons in Hl as [(H1&H2&H3) Hl]. cbn [snd] in *. apply elem_of_cons in Hin as [[= -> ->]|Hin]; [|by apply IH].
  rewrite stored_other; [apply rd64_wr64_eq|]. intros [r2 o2] Hx. cbn [snd]. pose proof (proj1 (Forall_forall _ _) Hl _ Hx) as (G1&G2&G3). cbn [snd] in *.
  assert (o2 <> o') by (intros ->; apply Hn; apply list_elem_of_fmap; by exists (r2, o')). zlia.
Qed.

Lemma loaded_other l m pa f r : (forall x, x ∈ l -> fst x <> r) -> loaded l m pa f r = f r.
Proof.
  revert f. induction l as [|[r' o] l IH]; intros f H; [done|]. cbn [loaded]. rewrite IH by (intros x Hx; apply H; by right).
  rewrite decide_False; [done|]. intros ->. exact (H (r', o) (list_elem_of_here _ _) eq_refl).
Qed.

Lemma loaded_at l m pa f r o : NoDup (fst <$> l) -> (r, o) ∈ l -> loaded l m pa f r = u64 (rd64 m (pa + o)).
Proof.
  revert f. induction l as [|[r' o'] l IH]; intros f Hnd Hin; [by apply not_elem_of_nil in Hin|]. cbn [loaded fmap list_fmap fst] in *.
  apply NoDup_cons in Hnd as [Hn Hnd]. apply elem_of_cons in Hin as [[= -> ->]|Hin]; [|by apply IH].
  rewrite loaded_other; [by rewrite decide_True|]. intros [r2 o2] Hx <-. apply Hn. apply list_elem_of_fmap. by exists (r2, o2).
Qed.

Lemma code_size_app c1 c2 : code_size (c1 ++ c2) = code_size c1 + code_size c2.
Proof. induction c1 as [|i c1 IH]; [done|]. unfold code_size in *. cbn [fold_right app]. rewrite IH. lia. Qed.
End sequences.
