(* ===== verification/AsmTrap.v ===== *)
(** * What the assembly code does

    The registers of a user program survive a trap; the kernel is entered on its
    own stack and page table; a context switch resumes the other thread where it
    stopped; an interrupt in the kernel is not noticed; every hart starts with a
    stack of its own. *)

From S2P Require Import Prelude Riscv CString Kernel Kalloc Vm Args Asm AsmRun.
From stdpp Require Import base numbers strings gmap list.
From Stdlib Require Import ZArith Lia.

#[local] Open Scope Z_scope.

(** ** The trapframe *)

(** The field of [struct trapframe] for a register. *)
Definition reg_field (r : reg) : tfreg :=
  match r with
  | zero => epc
  | ra => tf_ra | sp => tf_sp | gp => tf_gp | tp => tf_tp | t0 => tf_t0 | t1 => tf_t1 | t2 => tf_t2 | s0 => tf_s0 | s1 => tf_s1
  | a0 => tf_a0 | a1 => tf_a1 | a2 => tf_a2 | a3 => tf_a3 | a4 => tf_a4 | a5 => tf_a5 | a6 => tf_a6 | a7 => tf_a7
  | s2 => tf_s2 | s3 => tf_s3 | s4 => tf_s4 | s5 => tf_s5 | s6 => tf_s6 | s7 => tf_s7 | s8 => tf_s8 | s9 => tf_s9
  | s10 => tf_s10 | s11 => tf_s11 | t3 => tf_t3 | t4 => tf_t4 | t5 => tf_t5 | t6 => tf_t6
  end.

(** The registers in the order in which the trampoline stores them. *)
Definition tf_regs : list (reg * Z) :=
  (fun r => (r, tf_off (reg_field r))) <$>
  [ra; sp; gp; tp; t0; t1; t2; s0; s1; a1; a2; a3; a4; a5; a6; a7; s2; s3; s4; s5; s6; s7; s8; s9; s10; s11; t3; t4; t5; t6].

Definition regs_ok (x : reg -> Z) : Prop := forall r, r <> zero -> 0 <= x r < 2 ^ 64.

Lemma tf_regs_fit : fits_in 288 tf_regs.
Proof. repeat apply Forall_cons_2; try apply Forall_nil_2; cbn; split; lia || done. Qed.

Lemma tf_regs_nodup : NoDup (fst <$> tf_regs) /\ NoDup (snd <$> tf_regs).
Proof. split; apply (bool_decide_unpack _); by vm_compute. Qed.

Lemma tf_regs_in r : r <> zero -> r <> a0 -> (r, tf_off (reg_field r)) ∈ tf_regs.
Proof. intros H1 H2. apply (bool_decide_unpack _). by destruct r. Qed.

Lemma tf_regs_base : Forall (fun x => fst x <> a0 /\ fst x <> zero /\ 40 <= snd x /\ snd x <> 112) tf_regs.
Proof. repeat apply Forall_cons_2; try apply Forall_nil_2; cbn; split; done || lia. Qed.

Lemma uservec_split {AS : Assembler} : uservec_code = [Csrw Sscratch a0; Li a0 TRAPFRAME] ++ saves a0 tf_regs ++ [Csrr t0 Sscratch] ++ saves a0 [(t0, 112)] ++
  loads a0 [(sp, 8); (tp, 32); (t0, 16); (t1, 0)] ++ [Sfence_vma; Csrw Satp t1; Sfence_vma; Jalr t0].
Proof. reflexivity. Qed.

Lemma userret_split {AS : Assembler} : userret_code = [Sfence_vma; Csrw Satp a0; Sfence_vma; Li a0 TRAPFRAME] ++ loads a0 tf_regs ++ [Ld a0 112 a0; Sret].
Proof. reflexivity. Qed.

Section trampoline.
Context {AS : Assembler} {LK : Linker} {LKO : LinkerOk}.

(** The kernel's fields of the trapframe, which the stores leave alone. *)
Lemma stored_kernel l f tf m o : Forall (fun x => 40 <= snd x) l -> 0 <= o <= 32 -> rd64 (stored l f tf m) (tf + o) = rd64 m (tf + o).
Proof. intros H Ho. apply stored_other. intros x Hx. pose proof (proj1 (Forall_forall _ _) H x Hx). cbn in *. lia. Qed.

(** [uservec] has stored the registers and entered the kernel. *)
Record saved (x : reg -> Z) (p : Z) (m : memory) (tf : Z) (h' : hart) : Prop := {
  sv_regs : forall r, r <> zero -> rd64 (hmem h') (tf + tf_off (reg_field r)) = x r;
  sv_mem : agree_out m (hmem h') (tf + 40) 248;
  sv_ok : mem_ok (hmem h');
  sv_sp : xreg h' sp = rd64 m (tf + tf_off kernel_sp);
  sv_tp : xreg h' tp = rd64 m (tf + tf_off kernel_hartid);
  sv_ra : xreg h' ra = u64 (p + code_size uservec_code) }.

Definition save_mem (x : reg -> Z) (tf : Z) (m : memory) : memory := wr64 (stored tf_regs x tf m) (tf + 112) (x a0).

Lemma save_mem_regs x tf m r : regs_ok x -> r <> zero -> rd64 (save_mem x tf m) (tf + tf_off (reg_field r)) = x r.
Proof.
  intros Hx Hr. unfold save_mem. destruct (decide (r = a0)) as [->|Ha]; [cbn [tf_off reg_field]; rewrite rd64_wr64_eq; by apply u64_small, Hx|].
  pose proof (proj1 (Forall_forall _ _) tf_regs_fit _ (tf_regs_in r Hr Ha)) as (?&?&?). pose proof (proj1 (Forall_forall _ _) tf_regs_base _ (tf_regs_in r Hr Ha)) as (_&_&_&?). cbn [snd] in *.
  rewrite rdn_wrn_out by zlia. rewrite (stored_at 288 tf_regs x tf m r); [by apply u64_small, Hx|apply tf_regs_nodup|apply tf_regs_fit|by apply tf_regs_in].
Qed.

Lemma stored_range l f pa m lo n : Forall (fun x => lo <= snd x /\ snd x + 8 <= lo + n) l -> agree_out m (stored l f pa m) (pa + lo) n.
Proof.
  revert m. induction l as [|[r o] l IH]; intros m H; [apply agree_refl|]. apply Forall_cons in H as [[H1 H2] H]. cbn [stored fst snd] in *.
  eapply agree_trans; [|by apply IH]. replace (pa + o) with (pa + lo + (o - lo)) by lia. apply agree_wr64; lia.
Qed.

Lemma save_mem_agree x tf m : agree_out m (save_mem x tf m) (tf + 40) 248.
Proof.
  unfold save_mem. eapply agree_trans; [apply stored_range|].
  - apply Forall_forall. intros y Hy. pose proof (proj1 (Forall_forall _ _) tf_regs_fit _ Hy) as (?&?&?). pose proof (proj1 (Forall_forall _ _) tf_regs_base _ Hy) as (_&_&?&_). lia.
  - replace (tf + 112) with (tf + 40 + 72) by lia. apply agree_wr64; lia.
Qed.

Lemma stored_ok l f pa m : mem_ok m -> mem_ok (stored l f pa m).
Proof. revert m. induction l as [|[r o] l IH]; intros m H; [done|]. by apply IH, mem_ok_wrn. Qed.

Lemma save_mem_kernel x tf m o : 0 <= o <= 32 -> rd64 (save_mem x tf m) (tf + o) = rd64 m (tf + o).
Proof.
  intros Ho. unfold save_mem. rewrite rdn_wrn_out by lia. apply stored_kernel; [|done]. eapply Forall_impl; [apply tf_regs_base|]. cbn. lia.
Qed.

Lemma run_next i code h h' : jumps i = false -> effect i h = Some h' -> run (i :: code) h = run code (h' <| pc := pc h + isize i |>).
Proof. intros Hj He. cbn [run]. unfold exec1. by rewrite He, Hj. Qed.

Lemma uservec_ok x p ss c m t tf : maps m t TRAPFRAME tf 288 -> satp c = MAKE_SATP (pt_root t) -> regs_ok x -> mem_ok m -> exists h',
  run uservec_code (mkhart x p SupervisorMode ss c m) = Some h' /\ saved x p m tf h' /\
  pc h' = Z.land (rd64 m (tf + tf_off kernel_trap)) (Z.lnot 1) /\ priv h' = SupervisorMode /\ hcsr h' = w_satp (rd64 m (tf + tf_off kernel_satp)) c.
Proof.
  intros Mp Hs Hx Hm. rewrite uservec_split. set (tail := [Sfence_vma; Csrw Satp t1; Sfence_vma; Jalr t0]).
  cbn [app]. erewrite run_next by done. erewrite run_next by done.
  set (h1 := (setr _ a0 _) <| pc := _ |>). assert (W1 : window h1 TRAPFRAME tf 288) by (by apply (maps_window h1 t)).
  rewrite (run_saves a0 tf_regs _ h1 TRAPFRAME tf 288) by (done || apply tf_regs_fit). set (h2 := _ <| pc := _ |>).
  cbn [app]. erewrite run_next by done. set (h3 := (setr _ t0 _) <| pc := _ |>).
  assert (W3 : window h3 TRAPFRAME tf 288) by (apply (window_ext h1); [done..|]; apply stored_agree, tf_regs_fit).
  rewrite (run_saves a0 [(t0, 112)] _ h3 TRAPFRAME tf 288) by (done || (apply Forall_singleton; vm_compute; repeat split; congruence)). set (h4 := _ <| pc := _ |>).
  assert (E4 : hmem h4 = save_mem x tf m).
  { unfold save_mem. change (hmem h4) with (wr64 (stored tf_regs (getr h1) tf m) (tf + 112) (u64 (x a0))). rewrite (u64_small (x a0)) by (by apply Hx). reflexivity. }
  assert (W4 : window h4 TRAPFRAME tf 288) by (apply (window_ext h3); [done..|]; apply (stored_agree 288 [(t0, 112)] (getr h3) tf (hmem h3)); apply Forall_singleton; vm_compute; repeat split; congruence).
  rewrite (run_loads a0 _ _ ltac:(done) h4 TRAPFRAME tf 288) by (done || (repeat apply Forall_cons_2; try apply Forall_nil_2; vm_compute; repeat split; congruence)). set (h5 := _ <| pc := _ |>).
  assert (Ek : forall r o, (r, o) ∈ [(sp, 8); (tp, 32); (t0, 16); (t1, 0)] -> xreg h5 r = rd64 m (tf + o)).
  { intros r o Hin. assert (0 <= o <= 32) by (repeat (apply elem_of_cons in Hin as [[= -> ->]|Hin]; [lia|]); by apply not_elem_of_nil in Hin).
    etransitivity; [apply (loaded_at [(sp, 8); (tp, 32); (t0, 16); (t1, 0)]); [apply (bool_decide_unpack _); by vm_compute|exact Hin]|].
    rewrite E4, save_mem_kernel by done. apply u64_small. by apply (rdn_range 8). }
  unfold tail. erewrite run_next by done. erewrite run_next by done. erewrite run_next by done. cbn [run]. unfold exec1. cbn [effect jumps]. eexists. split; [reflexivity|].
  split; [|split; [exact (f_equal (fun v => Z.land v (Z.lnot 1)) (Ek t0 16 ltac:(by apply (bool_decide_unpack _))))|split; [done|exact (f_equal (fun v => w_satp v c) (Ek t1 0 ltac:(by apply (bool_decide_unpack _))))]]].
  split.
  - intros r Hr. change (rd64 (hmem h4) (tf + tf_off (reg_field r)) = x r). rewrite E4. by apply save_mem_regs.
  - change (agree_out m (hmem h4) (tf + 40) 248). rewrite E4. apply save_mem_agree.
  - change (mem_ok (hmem h4)). rewrite E4. by apply mem_ok_wrn, stored_ok.
  - exact (Ek sp 8 ltac:(by apply (bool_decide_unpack _))).
  - exact (Ek tp 32 ltac:(by apply (bool_decide_unpack _))).
  - unfold h5, h4, h3, h2, h1, code_size. cbn. f_equal. lia.
Qed.

Lemma userret_ok x p ss c m t tf : maps m t TRAPFRAME tf 288 -> x a0 = MAKE_SATP (pt_root t) -> mem_ok m -> exists h',
  run userret_code (mkhart x p SupervisorMode ss c m) = Some h' /\ (forall r, r <> zero -> xreg h' r = rd64 m (tf + tf_off (reg_field r))) /\
  exists x' p', h' = sret (mkhart x' p' SupervisorMode ss (w_satp (x a0) c) m).
Proof.
  intros Mp Ha Hm. rewrite userret_split. set (tail := [Ld a0 112 a0; Sret]). cbn [app]. do 4 (erewrite run_next by done).
  set (h1 := (setr _ a0 _) <| pc := _ |>). pose proof (wf_page_ok _ _ _ (mp_wf _ _ _ _ _ Mp) (pt_root_in t)) as Hroot. destruct (satp_root _ Hroot) as (_&_&S3).
  assert (W1 : window h1 TRAPFRAME tf 288) by (apply (maps_window h1 t); [exact Mp|done|]; rewrite <- S3, <- Ha; reflexivity).
  rewrite (run_loads a0 tf_regs tail ltac:(done) h1 TRAPFRAME tf 288); [|done|done|apply tf_regs_fit|eapply Forall_impl; [apply tf_regs_base|cbn; tauto]]. set (h2 := _ <| pc := _ |>).
  assert (W2 : window h2 TRAPFRAME tf 288) by (by apply (window_ext h1)). assert (Ea : getr h2 a0 = TRAPFRAME) by reflexivity.
  unfold tail. erewrite run_next; [|done|cbn [effect]; rewrite Ea, (window_at _ _ _ _ _ _ W2) by done; reflexivity]. cbn [run]. unfold exec1. cbn [effect jumps].
  eexists. split; [reflexivity|]. split; [|do 2 eexists; reflexivity].
  intros r Hr. change (xreg (sret (?h <| pc := ?p |>)) r) with (xreg h r).
  change (xreg (setr h2 a0 (rd64 (hmem h2) (tf + 112))) r) with (if decide (r = a0) then u64 (rd64 m (tf + 112)) else loaded tf_regs m tf (xreg h1) r).
  destruct (decide (r = a0)) as [->|Hra]; [|rewrite (loaded_at tf_regs m tf (xreg h1) r (tf_off (reg_field r))) by (apply tf_regs_nodup || by apply tf_regs_in)];
    apply u64_small; by apply (rdn_range 8).
Qed.

(** The page table of a process as [proc_pagetable] makes it: [TRAPFRAME] leads
    to the page [tf], which is none of its tables. *)
Record utable (m : memory) (t : ptree) (tf : Z) : Prop := {
  ut_mem : mem_ok m;
  ut_wf : pt_wf m t;
  ut_page : page_ok tf;
  ut_apart : tf ∉ pt_pages t;
  ut_pte : pte_at m t TRAPFRAME = leaf_pte tf (Z.lor PTE_R PTE_W) }.

Lemma utable_maps m t tf : utable m t tf -> maps m t TRAPFRAME tf 288.
Proof.
  intros [Hm Hw Hp Ha Hpte]. pose proof (page_ok_range tf Hp) as [Hr Hal]. split; [done|lia|done| |].
  - intros o Ho. cbv zeta. rewrite (pte_at_page m t (TRAPFRAME + o) TRAPFRAME) by (lia || zlia). rewrite Hpte, !leaf_pte_flag, leaf_pte_pa by (done || lia).
    do 4 (split; [done|]). split; [zlia|]. zlia.
  - intros q Hq. pose proof (page_ok_range q (wf_page_ok _ _ q Hw Hq)) as [Hq1 Hq2]. assert (q <> tf) by (intros ->; done). zlia.
Qed.

Lemma uservec_trap u cause t tf : regs_ok (xreg u) -> satp (hcsr u) = MAKE_SATP (pt_root t) -> utable (hmem u) t tf ->
  exists h1, run uservec_code (user_trap cause u) = Some h1 /\ saved (xreg u) (stvec (hcsr u)) (hmem u) tf h1 /\
    pc h1 = Z.land (rd64 (hmem u) (tf + tf_off kernel_trap)) (Z.lnot 1) /\ satp (hcsr h1) = rd64 (hmem u) (tf + tf_off kernel_satp) /\
    sepc (hcsr h1) = pc u /\ scause (hcsr h1) = cause.
Proof.
  intros Hx Hs Ht. pose proof (utable_maps _ _ _ Ht) as Mp. destruct u as [x p pv ss c m]. cbn [priv xreg hcsr hmem pc] in *.
  destruct (uservec_ok x (stvec c) ss (hcsr (user_trap cause (mkhart x p pv ss c m))) m t tf Mp Hs Hx (ut_mem _ _ _ Ht)) as (h1&E1&S1&P1&V1&C1).
  exists h1. split; [exact E1|]. split; [exact S1|]. split; [exact P1|]. rewrite C1. split; [apply u64_small; apply (rdn_range 8), Ht|done].
Qed.

(** C15. The registers of a user program survive a trap.  When a program traps, [uservec] stores its
    registers in the fields of its trapframe, changes no other memory, and enters [usertrap] on the
    kernel stack and page table that the trapframe names, with the return address of [userret].  If
    the kernel then returns with the fields of the registers unchanged but for [a0], [userret]
    takes the program back to user mode, at [sepc], with its page table and with every register as
    it was, and [a0] from the trapframe. *)
Theorem trap_roundtrip u cause t tf :
  priv u = UserMode -> regs_ok (xreg u) -> satp (hcsr u) = MAKE_SATP (pt_root t) -> utable (hmem u) t tf ->
  exists h1, run uservec_code (user_trap cause u) = Some h1 /\ saved (xreg u) (stvec (hcsr u)) (hmem u) tf h1 /\
    pc h1 = Z.land (rd64 (hmem u) (tf + tf_off kernel_trap)) (Z.lnot 1) /\ satp (hcsr h1) = rd64 (hmem u) (tf + tf_off kernel_satp) /\ sepc (hcsr h1) = pc u /\
    forall h2 t2, priv h2 = SupervisorMode -> flag (sstatus (hcsr h2)) SSTATUS_SPP = false ->
      xreg h2 a0 = satp (hcsr u) -> pt_root t2 = pt_root t -> utable (hmem h2) t2 tf ->
      (forall r, r <> zero -> r <> a0 -> rd64 (hmem h2) (tf + tf_off (reg_field r)) = rd64 (hmem h1) (tf + tf_off (reg_field r))) ->
      exists h3, run userret_code h2 = Some h3 /\ (forall r, r <> zero -> r <> a0 -> xreg h3 r = xreg u r) /\
        xreg h3 a0 = rd64 (hmem h2) (tf + tf_off tf_a0) /\ pc h3 = sepc (hcsr h2) /\ priv h3 = UserMode /\ hmem h3 = hmem h2 /\ satp (hcsr h3) = satp (hcsr u).
Proof.
  intros Hu Hx Hs Ht. destruct (uservec_trap u cause t tf Hx Hs Ht) as (h1&E1&S1&P1&C1&C2&_). exists h1. do 5 (split; [done|]).
  intros h2 t2 Hp Hf Ha Hr Ht2 Hk. destruct h2 as [x2 p2 pv2 ss2 c2 m2]. cbn [priv xreg hcsr hmem pc] in *. subst pv2.
  destruct (userret_ok x2 p2 ss2 c2 m2 t2 tf (utable_maps _ _ _ Ht2)) as (h3&E3&R3&x'&p'&->); [by rewrite Ha, Hs, Hr|apply Ht2|].
  exists (sret (mkhart x' p' SupervisorMode ss2 (w_satp (x2 a0) c2) m2)). split; [exact E3|].
  split; [intros r H1 H2; rewrite (R3 r H1), (Hk r H1 H2); by apply S1|]. split; [by apply (R3 a0)|]. split; [done|].
  split; [unfold sret; cbn [priv hcsr]; change (sstatus (w_satp (x2 a0) c2)) with (sstatus c2); by rewrite Hf|]. split; [done|].
  change (u64 (x2 a0) = satp (hcsr u)). rewrite Ha, Hs. apply satp_root. eapply wf_page_ok; [apply Ht|apply pt_root_in].
Qed.
End trampoline.

(** ** The context switch *)

(** [struct context]. *)
Definition ctx_regs : list (reg * Z) :=
  [(ra, 0); (sp, 8); (s0, 16); (s1, 24); (s2, 32); (s3, 40); (s4, 48); (s5, 56); (s6, 64); (s7, 72); (s8, 80); (s9, 88); (s10, 96); (s11, 104)].

Lemma ctx_regs_ok : fits_in 112 ctx_regs /\ NoDup (fst <$> ctx_regs) /\ NoDup (snd <$> ctx_regs) /\ Forall (fun x => fst x <> a1 /\ fst x <> zero) ctx_regs.
Proof.
  split; [repeat apply Forall_cons_2; try apply Forall_nil_2; cbn; split; lia || done|]. split; [apply (bool_decide_unpack _); by vm_compute|].
  split; [apply (bool_decide_unpack _); by vm_compute|]. repeat apply Forall_cons_2; try apply Forall_nil_2; done.
Qed.

Section switch.
Context {AS : Assembler} {LK : Linker} {LKO : LinkerOk}.

Lemma swtch_split : swtch_code = saves a0 ctx_regs ++ loads a1 ctx_regs ++ [Ret].
Proof. reflexivity. Qed.

(** A thread calls [swtch(old, new)] in the kernel's address space. *)
Record switching (h : hart) (t : ptree) (old new : Z) : Prop := {
  sw_priv : priv h = SupervisorMode;
  sw_satp : satp (hcsr h) = MAKE_SATP (pt_root t);
  sw_regs : regs_ok (xreg h);
  sw_mem : mem_ok (hmem h);
  sw_args : xreg h a0 = old /\ xreg h a1 = new;
  sw_old : maps (hmem h) t old old 112;
  sw_new : maps (hmem h) t new new 112;
  sw_apart : old + 112 <= new \/ new + 112 <= old }.

Lemma swtch_ok h t old new : switching h t old new -> exists h',
  run swtch_code h = Some h' /\ (forall r o, (r, o) ∈ ctx_regs -> rd64 (hmem h') (old + o) = xreg h r) /\ agree_out (hmem h) (hmem h') old 112 /\ mem_ok (hmem h') /\
  (forall r o, (r, o) ∈ ctx_regs -> xreg h' r = rd64 (hmem h) (new + o)) /\ (forall r, r ∉ (fst <$> ctx_regs) -> xreg h' r = xreg h r) /\
  pc h' = Z.land (rd64 (hmem h) new) (Z.lnot 1) /\ priv h' = SupervisorMode /\ hcsr h' = hcsr h.
Proof.
  intros [Hp Hs Hx Hm [Ha0 Ha1] Mo Mn Hap]. destruct ctx_regs_ok as (Hfit&Hnd1&Hnd2&Hne). rewrite swtch_split.
  rewrite (run_saves a0 ctx_regs _ h old old 112); [|exact Ha0|by apply (maps_window h t)|done]. set (h1 := _ <| pc := _ |>).
  assert (Hag : agree_out (hmem h) (hmem h1) old 112) by (by apply stored_agree).
  assert (Hrd : forall r o, (r, o) ∈ ctx_regs -> rd64 (hmem h1) (new + o) = rd64 (hmem h) (new + o)).
  { intros r o Hin. pose proof (proj1 (Forall_forall _ _) Hfit _ Hin) as (?&?&?). cbn [snd] in *. apply rdn_ext. intros y Hy. apply Hag. lia. }
  assert (W1 : window h1 new new 112).
  { apply (maps_window h1 t); [|done|done]. apply (maps_other (hmem h) (hmem h1) t new new 112 old 112 Mn Hag), Mo. }
  rewrite (run_loads a1 ctx_regs _ ltac:(done) h1 new new 112); [|exact Ha1|done|done|eapply Forall_impl; [exact Hne|tauto]]. set (h2 := _ <| pc := _ |>).
  cbn [run]. unfold exec1. cbn [effect jumps]. eexists. split; [reflexivity|].
  assert (Hld : forall r o, (r, o) ∈ ctx_regs -> xreg h2 r = rd64 (hmem h) (new + o)).
  { intros r o Hin. etransitivity; [by apply (loaded_at ctx_regs (hmem h1) new (xreg h1) r o)|]. rewrite (Hrd r o Hin). apply u64_small. by apply (rdn_range 8). }
  split; [|split; [exact Hag|split; [by apply (stored_ok ctx_regs (getr h) old)|split; [exact Hld|split; [|split; [|done]]]]]].
  - intros r o Hin. etransitivity; [by apply (stored_at 112 ctx_regs (getr h) old (hmem h) r o)|]. unfold getr. pose proof (proj1 (Forall_forall _ _) Hne _ Hin) as [_ ?].
    rewrite decide_False by done. by apply u64_small, Hx.
  - intros r Hr. apply (loaded_other ctx_regs (hmem h1) new (xreg h1) r). intros y Hy <-. apply Hr. apply list_elem_of_fmap. by exists y.
  - rewrite <- (Z.add_0_r new). exact (f_equal (fun v => Z.land v (Z.lnot 1)) (Hld ra 0 (list_elem_of_here _ _))).
Qed.

(** C17. A context switch comes back where it left.  After [swtch(old, new)], whatever runs meanwhile,
    a [swtch(other, old)] with the context [old] unchanged continues at the return address of the
    first call, with its stack pointer and every callee-saved register as they were there. *)
Theorem swtch_roundtrip h t old new : switching h t old new -> Z.land (xreg h ra) (Z.lnot 1) = xreg h ra ->
  exists h1, run swtch_code h = Some h1 /\ pc h1 = Z.land (rd64 (hmem h) new) (Z.lnot 1) /\ xreg h1 sp = rd64 (hmem h) (new + 8) /\
    forall h2 t2 other, switching h2 t2 other old -> (forall x, old <= x < old + 112 -> rd8 (hmem h2) x = rd8 (hmem h1) x) ->
      exists h3, run swtch_code h2 = Some h3 /\ pc h3 = xreg h ra /\ xreg h3 sp = xreg h sp /\ forall r, r ∈ (fst <$> ctx_regs) -> xreg h3 r = xreg h r.
Proof.
  intros Sw Hra. destruct (swtch_ok h t old new Sw) as (h1&E1&Hsave&_&_&Hload&_&Hpc&_). exists h1. split; [done|]. split; [done|]. split; [apply (Hload sp 8); by right; left|].
  intros h2 t2 other Sw2 Hkeep. destruct (swtch_ok h2 t2 other old Sw2) as (h3&E3&_&_&_&Hload3&_&Hpc3&_). destruct ctx_regs_ok as (Hfit&_).
  assert (Hback : forall r o, (r, o) ∈ ctx_regs -> rd64 (hmem h2) (old + o) = xreg h r).
  { intros r o Hin. rewrite <- (Hsave r o Hin). pose proof (proj1 (Forall_forall _ _) Hfit _ Hin) as (?&?&?). cbn [snd] in *. apply rdn_ext. intros y Hy. apply Hkeep. lia. }
  assert (Hall : forall r o, (r, o) ∈ ctx_regs -> xreg h3 r = xreg h r) by (intros r o Hin; by rewrite (Hload3 r o Hin), (Hback r o Hin)).
  exists h3. split; [done|]. split; [by rewrite Hpc3, <- (Z.add_0_r old), (Hback ra 0 (list_elem_of_here _ _))|]. split; [apply (Hall sp 8); by right; left|].
  intros r ([r' o]&->&Hin)%list_elem_of_fmap. by apply (Hall r' o).
Qed.
End switch.

(** ** Interrupts in the kernel *)

(** The registers that [kernelvec] keeps on the stack, and those it loads back. *)
Definition kv_saved : list (reg * Z) :=
  [(ra, 0); (gp, 16); (tp, 24); (t0, 32); (t1, 40); (t2, 48); (a0, 72); (a1, 80); (a2, 88); (a3, 96); (a4, 104); (a5, 112); (a6, 120); (a7, 128);
   (t3, 216); (t4, 224); (t5, 232); (t6, 240)].
Definition kv_loaded : list (reg * Z) := filter (fun x => fst x <> tp) kv_saved.

(** The registers that a C function hands back as it got them. *)
Definition callee_saved : list reg := [sp; s0; s1; s2; s3; s4; s5; s6; s7; s8; s9; s10; s11].

Lemma kv_saved_ok : fits_in 256 kv_saved /\ NoDup (snd <$> kv_saved) /\ Forall (fun x => fst x <> zero /\ fst x <> sp) kv_saved.
Proof.
  split; [repeat apply Forall_cons_2; try apply Forall_nil_2; cbn; split; lia || done|]. split; [apply (bool_decide_unpack _); by vm_compute|].
  repeat apply Forall_cons_2; try apply Forall_nil_2; done.
Qed.

Lemma kv_loaded_ok : fits_in 256 kv_loaded /\ NoDup (fst <$> kv_loaded) /\ Forall (fun x => fst x <> sp) kv_loaded /\ forall x, x ∈ kv_loaded -> x ∈ kv_saved.
Proof.
  assert (Hin : forall x, x ∈ kv_loaded -> x ∈ kv_saved) by (intros x [_ Hx]%list_elem_of_filter; done). destruct kv_saved_ok as (Hf&_&Hn).
  split; [apply Forall_forall; intros x Hx; by apply (proj1 (Forall_forall _ _) Hf), Hin|]. split; [apply (bool_decide_unpack _); by vm_compute|].
  split; [|done]. apply Forall_forall. intros x Hx. by apply (proj1 (Forall_forall _ _) Hn), Hin.
Qed.

Lemma kv_complete r : r <> zero -> r <> tp -> (exists o, (r, o) ∈ kv_loaded) \/ r ∈ callee_saved.
Proof.
  intros H1 H2. assert (H : (bool_decide (r ∈ (fst <$> kv_loaded)) || bool_decide (r ∈ callee_saved)) = true) by (by destruct r).
  apply orb_true_iff in H as [H%bool_decide_eq_true|H%bool_decide_eq_true]; [left|by right]. apply list_elem_of_fmap in H as ([r' o]&->&?). by exists o.
Qed.

Lemma kv_callee r : r ∈ callee_saved -> (r ∉ (fst <$> kv_loaded)) /\ r <> tp /\ r <> ra.
Proof.
  intros H. assert (E : forallb (fun r => negb (bool_decide (r ∈ (fst <$> kv_loaded))) && negb (bool_decide (r = tp)) && negb (bool_decide (r = ra))) callee_saved = true) by (by vm_compute).
  rewrite forallb_forall in E. specialize (E r (proj1 (list_elem_of_In _ _) H)). apply andb_true_iff in E as [[E1 E2]%andb_true_iff E3].
  split; [by apply negb_true_iff, bool_decide_eq_false in E1|]. split; [by apply negb_true_iff, bool_decide_eq_false in E2|by apply negb_true_iff, bool_decide_eq_false in E3].
Qed.

Section kernelvec.
Context {AS : Assembler} {LK : Linker} {LKO : LinkerOk}.

Lemma kernelvec_split f : kernelvec_entry f = [Addi sp sp (-256)] ++ saves sp kv_saved ++ [Call f].
Proof. reflexivity. Qed.
Lemma kernelvec_exit_split : kernelvec_exit = loads sp kv_loaded ++ [Addi sp sp 256; Sret].
Proof. reflexivity. Qed.

(** An interrupt in the kernel is not noticed by the code it interrupts: [kernelvec] calls
    [kerneltrap] on the same stack; when that returns with the callee-saved registers, the 256
    bytes of the stack frame and the page table as they were, every register but [tp] is as before
    the interrupt and control goes to [sepc]. *)
Theorem kernelvec_transparent h t f pa :
  priv h = SupervisorMode -> satp (hcsr h) = MAKE_SATP (pt_root t) -> regs_ok (xreg h) -> 256 <= xreg h sp -> maps (hmem h) t (xreg h sp - 256) pa 256 ->
  exists h1, run (kernelvec_entry f) h = Some h1 /\ pc h1 = f /\ xreg h1 sp = xreg h sp - 256 /\ xreg h1 ra = u64 (pc h + code_size (kernelvec_entry f)) /\ agree_out (hmem h) (hmem h1) pa 256 /\
    forall h2 t2, priv h2 = SupervisorMode -> satp (hcsr h2) = MAKE_SATP (pt_root t2) -> maps (hmem h2) t2 (xreg h sp - 256) pa 256 -> mem_ok (hmem h2) ->
      (forall r, r ∈ callee_saved -> xreg h2 r = xreg h1 r) -> (forall x, pa <= x < pa + 256 -> rd8 (hmem h2) x = rd8 (hmem h1) x) ->
      exists h3, run kernelvec_exit h2 = Some h3 /\ (forall r, r <> zero -> r <> tp -> xreg h3 r = xreg h r) /\ xreg h3 tp = xreg h2 tp /\
        pc h3 = sepc (hcsr h2) /\ hmem h3 = hmem h2.
Proof.
  intros Hp Hs Hx Hsp Mp. destruct kv_saved_ok as (Hfit&Hnd&Hne). destruct kv_loaded_ok as (Lfit&Lnd&Lne&Lin). rewrite kernelvec_split. cbn [app]. erewrite run_next by done.
  set (h0 := (setr _ sp _) <| pc := _ |>). assert (Esp : getr h0 sp = xreg h sp - 256).
  { change (u64 (xreg h sp + -256) = xreg h sp - 256). rewrite u64_small; [lia|]. pose proof (Hx sp ltac:(done)). lia. }
  rewrite (run_saves sp kv_saved _ h0 (xreg h sp - 256) pa 256); [|exact Esp|by apply (maps_window h0 t)|done]. set (h1 := _ <| pc := _ |>).
  cbn [run]. unfold exec1. cbn [effect jumps]. eexists. split; [reflexivity|]. split; [done|]. split; [exact Esp|].
  split; [change (u64 (pc h + isize (Addi sp sp (-256)) + code_size (saves sp kv_saved) + isize (Call f)) = u64 (pc h + code_size (kernelvec_entry f))); rewrite kernelvec_split, !code_size_app; f_equal; cbn [code_size fold_right]; lia|].
  split; [by apply stored_agree|]. intros h2 t2 Hp2 Hs2 Mp2 Hm2 Hcs Hfr.
  assert (Esp2 : getr h2 sp = xreg h sp - 256) by (rewrite <- Esp; exact (Hcs sp (list_elem_of_here _ _))). rewrite kernelvec_exit_split.
  rewrite (run_loads sp kv_loaded _ ltac:(done) h2 (xreg h sp - 256) pa 256); [|done|by apply (maps_window h2 t2)|done|done]. set (h3 := _ <| pc := _ |>).
  assert (E3 : forall r o, (r, o) ∈ kv_loaded -> xreg h3 r = xreg h r).
  { intros r o Hin. etransitivity; [by apply (loaded_at kv_loaded (hmem h2) pa (xreg h2) r o)|]. pose proof (proj1 (Forall_forall _ _) Hfit _ (Lin _ Hin)) as (?&?&_).
    pose proof (proj1 (Forall_forall _ _) Hne _ (Lin _ Hin)) as [N1 N2]. cbn [fst snd] in *. rewrite u64_small by (by apply (rdn_range 8)).
    etransitivity; [apply rdn_ext; intros y Hy; apply Hfr; lia|]. etransitivity; [apply (stored_at 256 kv_saved (getr h0) pa (hmem h0) r o); [done|done|by apply Lin]|].
    unfold getr. rewrite decide_False by done. change (xreg h0 r) with (if decide (r = sp) then u64 (getr h sp + -256) else xreg h r). rewrite decide_False by done. by apply u64_small, Hx. }
  assert (E4 : forall r, r ∈ callee_saved -> r <> sp -> xreg h3 r = xreg h r).
  { intros r Hr N. destruct (kv_callee r Hr) as (K1&K2&K3). etransitivity; [apply (loaded_other kv_loaded (hmem h2) pa (xreg h2) r)|].
    - intros y Hy E. apply K1. apply list_elem_of_fmap. by exists y.
    - etransitivity; [exact (Hcs r Hr)|]. transitivity (if decide (r = ra) then u64 (pc h1 + isize (Call f)) else if decide (r = sp) then u64 (getr h sp + -256) else xreg h r); [reflexivity|].
      by rewrite !decide_False. }
  erewrite run_next by done. cbn [run]. unfold exec1. cbn [effect jumps]. set (h4 := (setr h3 sp _) <| pc := _ |>). change (priv h4) with (priv h2). rewrite Hp2. eexists. split; [reflexivity|].
  assert (E5 : forall r, xreg (sret h4) r = if decide (r = sp) then u64 (getr h3 sp + 256) else xreg h3 r) by done. split; [|split; [|done]].
  - intros r H1 H2. rewrite E5. destruct (kv_complete r H1 H2) as [[o Hin]|Hc].
    + pose proof (proj1 (Forall_forall _ _) Lne _ Hin). cbn [fst] in *. rewrite decide_False by done. by apply (E3 r o).
    + destruct (decide (r = sp)) as [->|N]; [|by apply E4]. change (getr h3 sp) with (loaded kv_loaded (hmem h2) pa (xreg h2) sp). 
      rewrite loaded_other by (intros y Hy; by apply (proj1 (Forall_forall _ _) Lne)). change (xreg h2 sp) with (getr h2 sp). rewrite Esp2. rewrite u64_small; [lia|]. pose proof (Hx sp ltac:(done)). lia.
  - rewrite E5, decide_False by done. apply (loaded_other kv_loaded (hmem h2) pa (xreg h2) tp). intros y Hy. by apply list_elem_of_filter in Hy as [? _].
Qed.
End kernelvec.

(** ** The first stack *)

Section entry.
Context {AS : Assembler}.

(** Hart [n] calls [start] with the stack pointer at the end of its own 4096 bytes of [stack0]. *)
Theorem entry_stack h stack0 start n : priv h = MachineMode -> mhartid (hcsr h) = n -> 0 <= n < 8 -> 0 <= stack0 < 2 ^ 63 ->
  exists h', run (entry_code stack0 start) h = Some h' /\ pc h' = start /\ xreg h' sp = stack0 + n * 4096 + 4096 /\ hmem h' = hmem h /\ hcsr h' = hcsr h.
Proof.
  intros Hp Hh Hn Hs. destruct h as [x p pv ss c m]. cbn [priv hcsr] in *. subst pv. eexists. split; [cbv -[u64 Z.add Z.mul isize mhartid]; reflexivity|]. split; [reflexivity|]. split; [|split; reflexivity].
  change (u64 (u64 stack0 + u64 (u64 (1024 * 4) * u64 (u64 (mhartid c) + 1))) = stack0 + n * 4096 + 4096). rewrite Hh, (u64_small n), (u64_small (n + 1)), (u64_small stack0) by lia.
  change (u64 (1024 * 4)) with 4096. rewrite (u64_small (4096 * _)), u64_small by lia. lia.
Qed.
End entry.
