(* ===== verification/TrapCycle.v ===== *)
(** * To user mode and back

    [prepare_return] of [trap.c] and the trampoline together: the process runs
    in user mode from its trapframe, and its next trap enters [usertrap] on its
    kernel stack.  Then concrete states to which the theorems of AsmTrap.v
    apply. *)

From S2P Require Import Prelude Riscv CString Kernel Printf Kalloc Vm UserMemEx Args Bio Trap Asm AsmRun AsmTrap.
From stdpp Require Import base numbers strings gmap list.
From Stdlib Require Import ZArith Lia.

#[local] Open Scope Z_scope.
#[local] Open Scope kernel_scope.

Section cycle.
Context {AS : Assembler} {LK : Linker} {LKO : LinkerOk}.

Lemma tf_set_done i r v p c k : procs k !! i = Some p -> p_trapframe p <> 0 ->
  tf_set i r v c k = Done tt c (k <| mem := wr64 (mem k) (p_trapframe p + tf_off r) v |>).
Proof. intros Hp Ht. unfold tf_set. erewrite bind_done by (by apply getproc_done). rewrite (proj2 (Z.eqb_neq _ 0)) by done. reflexivity. Qed.

Lemma tf_get_done i r p c k : procs k !! i = Some p -> p_trapframe p <> 0 -> tf_get i r c k = Done (rd64 (mem k) (p_trapframe p + tf_off r)) c k.
Proof. intros Hp Ht. unfold tf_get. erewrite bind_done by (by apply getproc_done). rewrite (proj2 (Z.eqb_neq _ 0)) by done. reflexivity. Qed.

(** What [prepare_return] stores in the trapframe. *)
Definition kernel_fields (m : memory) (tf : Z) (r : csrs) (kstack : Z) : memory :=
  let m := wr64 m (tf + 0) (satp r) in
  let m := wr64 m (tf + 8) (kstack + PGSIZE) in
  let m := wr64 m (tf + 16) usertrap_pc in
  wr64 m (tf + 32) (Riscv.tp r).

(** The control registers it returns with. *)
Definition return_regs (r : csrs) (e : Z) : csrs :=
  let r := w_stvec (TRAMPOLINE + (uservec - trampoline)) (intr_off r) in
  w_sepc e (w_sstatus (Z.lor (Z.land (sstatus r) (Z.lnot SSTATUS_SPP)) SSTATUS_SPIE) r).

Lemma kernel_fields_out m tf r ks a : tf + 40 <= a \/ a + 8 <= tf \/ a = tf + 24 -> rd64 (kernel_fields m tf r ks) a = rd64 m a.
Proof. intros H. unfold kernel_fields. rewrite !rdn_wrn_out by lia. done. Qed.

Lemma kernel_fields_agree m tf r ks : agree_out m (kernel_fields m tf r ks) tf 40.
Proof. unfold kernel_fields. do 3 (eapply agree_trans; [|apply agree_wr64; lia]). apply agree_wr64; lia. Qed.

Lemma kernel_fields_at m tf r ks : rd64 (kernel_fields m tf r ks) (tf + 0) = u64 (satp r) /\ rd64 (kernel_fields m tf r ks) (tf + 8) = u64 (ks + PGSIZE) /\
  rd64 (kernel_fields m tf r ks) (tf + 16) = u64 usertrap_pc /\ rd64 (kernel_fields m tf r ks) (tf + 32) = u64 (Riscv.tp r).
Proof.
  unfold kernel_fields. split; [rewrite !rdn_wrn_out by lia; apply rd64_wr64_eq|]. split; [do 2 (rewrite rdn_wrn_out by lia); apply rd64_wr64_eq|].
  split; [rewrite rdn_wrn_out by lia; apply rd64_wr64_eq|apply rd64_wr64_eq].
Qed.

Lemma reg_field_off tf r : r <> zero -> tf + 40 <= tf + tf_off (reg_field r).
Proof. intros Hr. destruct r; cbn [reg_field tf_off]; done || lia. Qed.

Lemma reg_field_a0 r : r <> a0 -> tf_off (reg_field r) + 8 <= 112 \/ 120 <= tf_off (reg_field r).
Proof. intros Hr. destruct r; cbn [reg_field tf_off]; lia || done. Qed.

Lemma prepare_return_ok i p c k : cpu_proc c = Some i -> procs k !! i = Some p -> p_trapframe p <> 0 ->
  prepare_return c k = Done tt (c <| regs := return_regs (regs c) (rd64 (mem k) (p_trapframe p + tf_off epc)) |>)
    (k <| mem := kernel_fields (mem k) (p_trapframe p) (regs c) (p_kstack p) |>).
Proof.
  intros Hc Hp Ht. unfold prepare_return. erewrite bind_done by (by apply curproc_done).
  erewrite bind_done by reflexivity. erewrite bind_done by reflexivity. erewrite bind_done by reflexivity.
  erewrite bind_done by (by apply (tf_set_done i _ _ p)). erewrite bind_done by (by apply (getproc_done i p)).
  erewrite bind_done by (by apply (tf_set_done i _ _ p)). erewrite bind_done by (by apply (tf_set_done i _ _ p)).
  erewrite bind_done by reflexivity. erewrite bind_done by (by apply (tf_set_done i _ _ p)).
  erewrite bind_done by reflexivity. erewrite bind_done by reflexivity. erewrite bind_done by (by apply (tf_get_done i _ p)).
  rewrite <- (kernel_fields_out (mem k) (p_trapframe p) (regs c) (p_kstack p) (p_trapframe p + tf_off epc)) by (cbn; lia). destruct c, k. reflexivity.
Qed.

Lemma utable_agree m m' t tf : utable m t tf -> agree_out m m' tf PGSIZE -> mem_ok m' -> utable m' t tf.
Proof.
  intros [Hm Hw Hp Ha Hpte] Hag Hm'. pose proof (page_ok_range tf Hp) as [Hr Hal].
  assert (He : forall q j, q ∈ pt_pages t -> 0 <= j < 512 -> rd64 m' (pte_addr q j) = rd64 m (pte_addr q j)).
  { intros q j Hq Hj. apply (agree_entry m m' tf PGSIZE); [done|by eapply wf_page_ok| |done]. pose proof (page_ok_range q (wf_page_ok _ _ q Hw Hq)) as [? ?]. assert (q <> tf) by (intros ->; done). zlia. }
  split; [done| |done|done|].
  - apply (pt_wf_frame m); [done|]. intros q j Hq Hj. apply He; [|done]. destruct Hq as [->|[n Hn]]; [apply pt_root_in|by eapply pt_mid_in].
  - rewrite (pte_at_frame m m'); [done|]. intros q Hq. apply He; [by eapply pt_low_in|by apply PX_range].
Qed.

Lemma kernel_fields_ok m tf r ks : mem_ok m -> mem_ok (kernel_fields m tf r ks).
Proof. intros H. unfold kernel_fields. by repeat apply mem_ok_wrn. Qed.

Lemma flag_u64 x f : 0 <= f < 2 ^ 64 -> flag (u64 x) f = flag x f.
Proof.
  intros Hf. unfold flag, u64. rewrite <- Z.land_ones by lia. rewrite <- Z.land_assoc, (Z.land_comm (Z.ones 64) f), (Z.land_ones f) by lia. by rewrite Z.mod_small.
Qed.

Lemma flag_clear x g f : Z.land (Z.lnot g) f = f -> flag (Z.land x (Z.lnot g)) f = flag x f.
Proof. intros E. unfold flag. by rewrite <- Z.land_assoc, E. Qed.

Lemma flag_cleared x g : flag (Z.land x (Z.lnot g)) g = false.
Proof. unfold flag. by rewrite <- Z.land_assoc, (Z.land_comm (Z.lnot g) g), Z.land_lnot_diag, Z.land_0_r. Qed.

Lemma return_flags r e : flag (sstatus (return_regs r e)) SSTATUS_SPP = false /\ flag (sstatus (return_regs r e)) SSTATUS_SPIE = true.
Proof.
  unfold return_regs. set (r1 := w_stvec _ _). change (sstatus (w_sepc e (w_sstatus ?y r1))) with (u64 y).
  change (sstatus (w_sepc e (w_sstatus (Z.lor (Z.land (sstatus r1) (Z.lnot SSTATUS_SPP)) SSTATUS_SPIE) r1))) with (u64 (Z.lor (Z.land (sstatus r1) (Z.lnot SSTATUS_SPP)) SSTATUS_SPIE)).
  rewrite !flag_u64, !flag_lor, flag_cleared by done. split; [done|]. by rewrite orb_true_r.
Qed.

Lemma sret_on h : flag (sstatus (hcsr h)) SSTATUS_SPIE = true -> flag (sstatus (hcsr (sret h))) SSTATUS_SIE = true.
Proof.
  intros H. unfold sret. rewrite H. change (hcsr (?x <| hcsr := ?y |>)) with y. change (sstatus (?x <| sstatus := ?y |>)) with y.
  rewrite flag_clear by done. rewrite !flag_lor. by rewrite orb_true_r.
Qed.

(** C16. A process leaves for user mode and comes back.  After [prepare_return], [userret] with the
    process's page table enters user mode at the saved [epc] with the registers of the trapframe and
    interrupts on; and when the program traps next, with the kernel's fields of the trapframe and
    the page table untouched meanwhile, [uservec] enters [usertrap] on the process's kernel stack,
    with the hart's number in [tp], in the kernel's page table, and the registers saved. *)
Theorem return_then_trap i p t c k :
  cpu_proc c = Some i -> procs k !! i = Some p -> p_pagetable p = pt_root t -> utable (mem k) t (p_trapframe p) ->
  0 <= satp (regs c) < 2 ^ 64 -> 0 <= Riscv.tp (regs c) < 2 ^ 64 -> 0 <= p_kstack p < 2 ^ 63 -> 0 <= usertrap_pc < 2 ^ 64 -> Z.land usertrap_pc (Z.lnot 1) = usertrap_pc ->
  exists c' k', prepare_return c k = Done tt c' k' /\
    forall x q ss, x a0 = MAKE_SATP (p_pagetable p) -> exists h, run userret_code (mkhart x q SupervisorMode ss (regs c') (mem k')) = Some h /\
      priv h = UserMode /\ hmem h = mem k' /\ pc h = rd64 (mem k) (p_trapframe p + tf_off epc) /\ flag (sstatus (hcsr h)) SSTATUS_SIE = true /\
      stvec (hcsr h) = u64 (TRAMPOLINE + (uservec - trampoline)) /\ (forall r, r <> zero -> xreg h r = rd64 (mem k) (p_trapframe p + tf_off (reg_field r))) /\
      forall u cause, priv u = UserMode -> hcsr u = hcsr h -> regs_ok (xreg u) -> utable (hmem u) t (p_trapframe p) ->
        (forall a, p_trapframe p <= a < p_trapframe p + 40 -> rd8 (hmem u) a = rd8 (hmem h) a) ->
        exists h', run uservec_code (user_trap cause u) = Some h' /\ pc h' = usertrap_pc /\ xreg h' sp = p_kstack p + PGSIZE /\ xreg h' tp = Riscv.tp (regs c) /\
          satp (hcsr h') = satp (regs c) /\ sepc (hcsr h') = pc u /\ scause (hcsr h') = cause /\
          forall r, r <> zero -> rd64 (hmem h') (p_trapframe p + tf_off (reg_field r)) = xreg u r.
Proof.
  intros Hc Hp Hpt Ht Hsat Htp Hks Hut Hev. set (tf := p_trapframe p) in *. pose proof (page_ok_range tf (ut_page _ _ _ Ht)) as [Hr _].
  eexists _, _. split; [apply (prepare_return_ok i p); [done|done|lia]|]. fold tf. set (m := kernel_fields (mem k) tf (regs c) (p_kstack p)). set (r := return_regs _ _).
  change (regs (c <| regs := r |>)) with r. change (mem (k <| mem := m |>)) with m. destruct (return_flags (regs c) (rd64 (mem k) (tf + tf_off epc))) as [F1 F2]. fold r in F1, F2.
  assert (Hm : mem_ok m) by (apply kernel_fields_ok, Ht).
  assert (Ht' : utable m t tf) by (apply (utable_agree (mem k)); [done| |done]; intros a Ha; apply kernel_fields_agree; lia).
  intros x q ss Hx. destruct (userret_ok x q ss r m t tf (utable_maps _ _ _ Ht') ltac:(by rewrite Hx, Hpt) Hm) as (h&E&Hregs&x'&q'&->). eexists. split; [exact E|].
  set (h0 := mkhart x' q' SupervisorMode ss (w_satp (x a0) r) m) in *. destruct (kernel_fields_at (mem k) tf (regs c) (p_kstack p)) as (K1&K2&K3&K4). fold m in K1, K2, K3, K4.
  split; [unfold sret; change (sstatus (hcsr h0)) with (sstatus r); by rewrite F1|]. split; [done|]. split; [apply u64_small; by apply (rdn_range 8), Ht|]. split; [by apply sret_on|]. split; [done|].
  split; [intros y Hy; rewrite (Hregs y Hy); apply kernel_fields_out; left; by apply reg_field_off|].
  intros u cause Hpu Hcu Hxu Htu Hkeep.
  assert (Hk : forall o, 0 <= o <= 32 -> rd64 (hmem u) (tf + o) = rd64 m (tf + o)) by (intros o Ho; apply rdn_ext; intros a Ha; apply Hkeep; lia).
  destruct (uservec_trap u cause t tf Hxu) as (h'&E'&S'&P'&C'&C2&C3); [|done|].
  { rewrite Hcu. change (u64 (x a0) = MAKE_SATP (pt_root t)). rewrite Hx, Hpt. apply satp_root. eapply wf_page_ok; [apply Ht|apply pt_root_in]. }
  exists h'. split; [exact E'|]. cbn [tf_off] in *. split; [rewrite P', Hk, K3, u64_small by lia; done|]. split; [rewrite (sv_sp _ _ _ _ _ S'); cbn [tf_off]; rewrite Hk, K2, u64_small by lia; done|].
  split; [rewrite (sv_tp _ _ _ _ _ S'); cbn [tf_off]; rewrite Hk, K4, u64_small by lia; done|].
  split; [rewrite C', Hk, K1, u64_small by lia; done|]. split; [done|]. split; [done|]. apply S'.
Qed.
End cycle.

(** ** Concrete states *)

Module TrapDemo.
#[local] Existing Instance small_linker.
#[local] Existing Instance small_linker_ok.

Definition asm4 : Assembler := {| isize := fun _ => 4 |}.
#[local] Existing Instance asm4.

(** Pages 0, 1 and 2 are the table of a process with its trapframe in page 3; pages 6, 7 and 8 are
    a kernel table that maps page 5, with two contexts, to itself. *)
Definition dmem : memory :=
  let m := wr64 ∅ (pte_addr (wpage 0) 255) (table_pte (Some (wpage 1))) in
  let m := wr64 m (pte_addr (wpage 1) 511) (table_pte (Some (wpage 2))) in
  let m := wr64 m (pte_addr (wpage 2) 510) (leaf_pte (wpage 3) (Z.lor PTE_R PTE_W)) in
  let m := wr64 m (pte_addr (wpage 6) 2) (table_pte (Some (wpage 7))) in
  let m := wr64 m (pte_addr (wpage 7) 63) (table_pte (Some (wpage 8))) in
  wr64 m (pte_addr (wpage 8) 505) (leaf_pte (wpage 5) (Z.lor PTE_R PTE_W)).

Definition utree : ptree := mkptree (wpage 0) {[255 := wpage 1]} {[(255, 511) := wpage 2]}.
Definition ktree : ptree := mkptree (wpage 6) {[2 := wpage 7]} {[(2, 63) := wpage 8]}.

Lemma one_path_wf m root mid low i j :
  Forall page_ok [root; mid; low] -> NoDup [root; mid; low] -> 0 <= i < 256 -> 0 <= j < 512 ->
  entries_are m root (fun n => table_pte (({[i := mid]} : gmap Z Z) !! n)) = true -> entries_are m mid (fun n => table_pte (({[(i, j) := low]} : gmap (Z * Z) Z) !! (i, n))) = true ->
  pt_wf m (mkptree root {[i := mid]} {[(i, j) := low]}).
Proof.
  intros Hok Hnd Hi Hj H1 H2. split; cbn [pt_root pt_mid pt_low].
  - unfold pt_pages. cbn [pt_root pt_mid pt_low]. by rewrite !map_to_list_singleton.
  - unfold pt_pages. cbn [pt_root pt_mid pt_low]. by rewrite !map_to_list_singleton.
  - intros n Hn. by apply (entries_are_spec _ _ _ n H1).
  - intros n p [<- <-]%lookup_singleton_Some l Hl. by apply (entries_are_spec _ _ _ l H2).
  - by intros n p [<- _]%lookup_singleton_Some.
  - intros n l q [[= <- <-] _]%lookup_singleton_Some. split; [|done]. exists mid. by rewrite lookup_singleton_eq.
Qed.

Lemma dmem_ok : mem_ok dmem.
Proof. unfold dmem. repeat apply mem_ok_wrn. apply mem_ok_empty. Qed.

Lemma utree_ok : utable dmem utree (wpage 3).
Proof.
  split; [apply dmem_ok| |by vm_compute|apply (bool_decide_unpack _); by vm_compute|by vm_compute].
  apply one_path_wf; [apply (bool_decide_unpack _); by vm_compute|apply (bool_decide_unpack _); by vm_compute|lia|lia|by vm_compute|by vm_compute].
Qed.

Lemma ktree_wf : pt_wf dmem ktree.
Proof.
  apply one_path_wf; [apply (bool_decide_unpack _); by vm_compute|apply (bool_decide_unpack _); by vm_compute|lia|lia|by vm_compute|by vm_compute].
Qed.

Lemma ktree_apart off : 0 <= off -> off + 112 <= PGSIZE -> forall p, p ∈ pt_pages ktree -> p + PGSIZE <= wpage 5 + off \/ wpage 5 + off + 112 <= p.
Proof.
  intros H1 H2 p Hp. unfold pt_pages, ktree in Hp. cbn [pt_root pt_mid pt_low] in Hp. rewrite !map_to_list_singleton in Hp. cbn in Hp.
  rewrite !elem_of_cons in Hp. unfold wpage in *. destruct Hp as [->|[->|[->|Hp]]]; [lia..|]. by apply not_elem_of_nil in Hp.
Qed.

Lemma ctx_maps off : 0 <= off -> off + 112 <= PGSIZE -> off mod 8 = 0 -> maps dmem ktree (wpage 5 + off) (wpage 5 + off) 112.
Proof.
  intros H1 H2 H3. split; [apply ktree_wf|unfold wpage; lia|unfold wpage; zlia| |by apply ktree_apart].
  intros o Ho. assert (E : pte_at dmem ktree (wpage 5 + off + o) = leaf_pte (wpage 5) (Z.lor PTE_R PTE_W)).
  { rewrite (pte_at_page dmem ktree _ (wpage 5)) by (unfold wpage; lia || zlia). by vm_compute. }
  cbv zeta. rewrite E. do 4 (split; [by vm_compute|]). split; [by vm_compute|]. change (PTE2PA (leaf_pte (wpage 5) (Z.lor PTE_R PTE_W))) with (wpage 5). unfold wpage. zlia.
Qed.

(** A user program whose registers hold 7. *)
Definition prog : hart := mkhart (fun _ => 7) 0x1000 UserMode 0 (csrs_0 <| satp := MAKE_SATP (wpage 0) |>) dmem.

(** The kernel's return from [usertrap], with 5 as the result of a system call. *)
Definition back (h : hart) : hart :=
  mkhart (fun _ => MAKE_SATP (wpage 0)) 0 SupervisorMode 0 csrs_0 (wr64 (hmem h) (wpage 3 + tf_off tf_a0) 5).

Lemma trap_roundtrip_witness : exists h1 h3, run uservec_code (user_trap 8 prog) = Some h1 /\ run userret_code (back h1) = Some h3 /\
  xreg h3 a0 = 5 /\ priv h3 = UserMode /\ forall r, r <> zero -> r <> a0 -> xreg h3 r = 7.
Proof.
  destruct (trap_roundtrip prog 8 utree (wpage 3)) as (h1&E1&S1&_&_&_&H); [done|intros r; cbn; lia|done|apply utree_ok|]. exists h1.
  assert (Ha : agree_out dmem (hmem (back h1)) (wpage 3) PGSIZE).
  { intros a Na. cbn [back hmem]. rewrite rd8_wrn_out by (cbn [tf_off]; lia). apply (sv_mem _ _ _ _ _ S1). lia. }
  destruct (H (back h1) utree) as (h3&E3&R3&A3&_&P3&_); [done|done|done|done|apply (utable_agree dmem); [apply utree_ok|exact Ha|apply mem_ok_wrn, S1]| |].
  - intros r Hr Hra. cbn [back hmem]. apply rdn_wrn_out. cbn [tf_off]. pose proof (reg_field_a0 r Hra). lia.
  - exists h3. split; [exact E1|]. split; [exact E3|]. split; [rewrite A3; cbn [back hmem]; apply rd64_wr64_eq|]. split; [exact P3|exact R3].
Defined.

(** The process of page table [utree] on hart 3. *)
Definition dproc : proc := proc_0 <| p_pagetable := wpage 0 |> <| p_trapframe := wpage 3 |> <| p_kstack := KSTACK 0 |>.
Definition dkernel : kernel := kernel_0 <| mem := dmem |> <| procs ::= <[0%nat := dproc]> |>.
Definition dcpu : cpu := mkcpu (Some 0%nat) [] (csrs_0 <| satp := MAKE_SATP (wpage 6) |> <| Riscv.tp := 3 |>).

Lemma return_then_trap_witness : exists c' k', prepare_return dcpu dkernel = Done tt c' k' /\
  exists h, run userret_code (mkhart (fun _ => MAKE_SATP (wpage 0)) 0 SupervisorMode 0 (regs c') (mem k')) = Some h /\ priv h = UserMode /\
    exists h', run uservec_code (user_trap 8 h) = Some h' /\ xreg h' sp = KSTACK 0 + PGSIZE /\ xreg h' tp = 3 /\ satp (hcsr h') = MAKE_SATP (wpage 6).
Proof.
  destruct (return_then_trap 0 dproc utree dcpu dkernel) as (c'&k'&E&H); [done|done|done|apply utree_ok|by vm_compute|by vm_compute|by vm_compute|by vm_compute|by vm_compute|].
  exists c', k'. split; [exact E|]. destruct (H (fun _ => MAKE_SATP (wpage 0)) 0 0) as (h&Eh&Pu&Mh&_&_&_&R&Hn); [done|]. exists h. split; [exact Eh|]. split; [exact Pu|].
  pose proof (prepare_return_ok 0 dproc dcpu dkernel eq_refl eq_refl ltac:(done)) as E2. rewrite E in E2.
  assert (Em : mem k' = kernel_fields dmem (wpage 3) (regs dcpu) (KSTACK 0)) by exact (f_equal (fun o => match o with Done _ _ k => mem k | _ => ∅ end) E2).
  assert (Ok : mem_ok (mem k')) by (rewrite Em; apply kernel_fields_ok, dmem_ok).
  assert (Ut : utable (hmem h) utree (wpage 3)) by (apply (utable_agree dmem); [apply utree_ok| |by rewrite Mh]; rewrite Mh, Em; intros a Na; apply kernel_fields_agree; lia).
  destruct (Hn h 8 Pu eq_refl) as (h'&E'&_&Sp&Tp&Sa&_); [|exact Ut|done|exists h'; split; [exact E'|]; split; [exact Sp|]; split; [exact Tp|exact Sa]].
  intros r Hr. rewrite (R r Hr). apply (rdn_range 8), dmem_ok.
Defined.

(** Two threads with their contexts in page 5. *)
Definition thread (old new : Z) (v : Z) (m : memory) : hart :=
  mkhart (fun r => if decide (r = a0) then old else if decide (r = a1) then new else v) 0 SupervisorMode 0 (csrs_0 <| satp := MAKE_SATP (wpage 6) |>) m.

Definition ctx (n : Z) : Z := wpage 5 + 256 * n.

Lemma switching_thread n n' v m : (n = 0 \/ n = 1) -> n' = 1 - n -> agree_out dmem m (ctx 0) 112 -> mem_ok m -> 0 <= v < 2 ^ 64 -> switching (thread (ctx n) (ctx n') v m) ktree (ctx n) (ctx n').
Proof.
  intros Hn Hn' Ha Hm Hv. assert (Mp : forall n, n = 0 \/ n = 1 -> maps m ktree (ctx n) (ctx n) 112).
  { intros l Hl. apply (maps_other dmem m ktree _ _ _ (ctx 0) 112); [apply ctx_maps; [lia|lia|zlia]|done|]. apply (ktree_apart 0); lia. }
  split; [done|done| |done|done|by apply Mp|apply Mp; lia|unfold ctx; lia].
  intros r _. cbn [thread xreg]. unfold ctx, wpage. repeat case_decide; lia.
Qed.

Lemma swtch_roundtrip_witness : exists h1 h3, run swtch_code (thread (ctx 0) (ctx 1) 8 dmem) = Some h1 /\
  run swtch_code (thread (ctx 1) (ctx 0) 9 (hmem h1)) = Some h3 /\ pc h3 = 8 /\ xreg h3 sp = 8.
Proof.
  assert (S1 : switching (thread (ctx 0) (ctx 1) 8 dmem) ktree (ctx 0) (ctx 1)) by (apply switching_thread; [lia|lia|apply agree_refl|apply dmem_ok|lia]).
  destruct (swtch_ok _ _ _ _ S1) as (h&E&_&Ag&Mo&_). destruct (swtch_roundtrip _ _ _ _ S1 eq_refl) as (h1&E1&_&_&H). exists h1. rewrite E1 in E. injection E as ->.
  destruct (H (thread (ctx 1) (ctx 0) 9 (hmem h)) ktree (ctx 1)) as (h3&E3&P3&Q3&_); [by apply switching_thread; [lia|lia|done|done|lia]|done|].
  exists h3. split; [exact E1|]. split; [exact E3|]. split; [exact P3|exact Q3].
Defined.
End TrapDemo.
