(* ===== verification/Mkfs.v ===== *)
(** * The program that makes the disk image: [mkfs.c]

    The image file is a map from block numbers to blocks; reading a block the
    file does not have fails, as [rsect] does.  [None] is the end of the program
    in [die] or in a failed [assert].  The other calls of the host system
    ([open], [lseek], [write] of the image) are taken to succeed; a file named
    on the command line is the list of what the calls of [read] on it return,
    or [None] when it cannot be opened.  The on-disk records are those of Fs.v,
    little-endian as [xshort] and [xint] make them. *)

From S2P Require Import Prelude CString Fields Kernel Printf Fs.
From stdpp Require Import base numbers strings gmap list.
From Stdlib Require Import ZArith Lia.

#[local] Open Scope Z_scope.

(** ** Layout *)

Definition FSSIZE : Z := 2000.
Definition NINODES : Z := 200.
Definition nbitmap : Z := FSSIZE / BPB + 1.
Definition ninodeblocks : Z := NINODES / IPB + 1.
Definition nlog : Z := 30 + 1.
Definition nmeta : Z := 2 + nlog + ninodeblocks + nbitmap.
Definition nblocks : Z := FSSIZE - nmeta.

(** The bytes of an integer in the order of the image, read as an integer. *)
Definition xshort (x : Z) : Z := le_val (le_bytes 2 x).
Definition xint (x : Z) : Z := le_val (le_bytes 4 x).

Definition mkfs_sb : superblock :=
  mksuperblock FSMAGIC (xint FSSIZE) (xint nblocks) (xint NINODES) (xint nlog) (xint 2) (xint (2 + nlog)) (xint (2 + nlog + ninodeblocks)).

Definition superblock_bytes (s : superblock) : list Z :=
  le_bytes 4 (sb_magic s) ++ le_bytes 4 (sb_size s) ++ le_bytes 4 (sb_nblocks s) ++ le_bytes 4 (sb_ninodes s) ++
  le_bytes 4 (sb_nlog s) ++ le_bytes 4 (sb_logstart s) ++ le_bytes 4 (sb_inodestart s) ++ le_bytes 4 (sb_bmapstart s).

(** ** The image *)

Definition zeroes : list Z := replicate 1024 0.

(** The file [fsfd], [freeinode] and [freeblock]. *)
Record mk := mkmk { img : gmap Z (list Z); freeinode : Z; freeblock : Z }.

Definition rsect (st : mk) (sec : Z) : option (list Z) := img st !! sec.
Definition wsect (st : mk) (sec : Z) (buf : list Z) : mk := mkmk (<[sec := buf]> (img st)) (freeinode st) (freeblock st).

Definition winode (st : mk) (inum : Z) (ip : dinode) : option mk :=
  let bn := IBLOCK inum mkfs_sb in
  match rsect st bn with
  | None => None
  | Some buf => Some (wsect st bn (put_dinode inum ip buf))
  end.

Definition rinode (st : mk) (inum : Z) : option dinode :=
  match rsect st (IBLOCK inum mkfs_sb) with
  | None => None
  | Some buf => Some (get_dinode buf inum)
  end.

Definition mkfs_ialloc (st : mk) (type : Z) : option (Z * mk) :=
  let inum := freeinode st in
  let st := mkmk (img st) (u32 (freeinode st + 1)) (freeblock st) in
  match winode st inum (mkdinode (xshort type) 0 0 (xshort 1) (xint 0) (replicate 13 0)) with
  | None => None
  | Some st => Some (inum, st)
  end.

(** [for(i = 0; i < used; i++)] from [i] on. *)
Fixpoint balloc_bits (n : nat) (i : Z) (buf : list Z) : list Z :=
  match n with
  | O => buf
  | S n => balloc_bits n (i + 1) (bit_set i buf)
  end.

Definition mkfs_balloc (st : mk) (used : Z) : option mk :=
  if used <? BPB then Some (wsect st (sb_bmapstart mkfs_sb) (balloc_bits (Z.to_nat used) 0 zeroes)) else None.

(** ** Appending to a file *)

Definition set_addr (d : dinode) (n x : Z) : dinode :=
  mkdinode (di_type d) (di_major d) (di_minor d) (di_nlink d) (di_size d) (setz (di_addrs d) n x).
Definition with_size (d : dinode) (n : Z) : dinode :=
  mkdinode (di_type d) (di_major d) (di_minor d) (di_nlink d) n (di_addrs d).

(** [xint(freeblock++)] *)
Definition newblock (st : mk) : Z * mk := (xint (freeblock st), mkmk (img st) (freeinode st) (u32 (freeblock st + 1))).

(** [if(xint(din.addrs[n]) == 0) din.addrs[n] = xint(freeblock++);] *)
Definition need_addr (st : mk) (din : dinode) (n : Z) : dinode * mk :=
  if xint (nthd 0 (di_addrs din) n) =? 0 then let '(b, st) := newblock st in (set_addr din n b, st) else (din, st).

(** The block of [fbn], which is allocated if it is not there. *)
Definition iappend_block (st : mk) (din : dinode) (fbn : Z) : option (Z * dinode * mk) :=
  if fbn <? NDIRECT then
    let '(din, st) := need_addr st din fbn in
    Some (xint (nthd 0 (di_addrs din) fbn), din, st)
  else
    let '(din, st) := need_addr st din NDIRECT in
    let ind := xint (nthd 0 (di_addrs din) NDIRECT) in
    match rsect st ind with
    | None => None
    | Some indirect =>
        let '(indirect, st) :=
          if ind_get indirect (fbn - NDIRECT) =? 0 then
            let '(b, st) := newblock st in
            let indirect := ind_put (fbn - NDIRECT) b indirect in
            (indirect, wsect st ind indirect)
          else (indirect, st) in
        Some (xint (ind_get indirect (fbn - NDIRECT)), din, st)
    end.

Definition mkfs_min (a b : Z) : Z := if a <? b then a else b.

(** [while(n > 0)], [p] being the bytes that are left. *)
Fixpoint iappend_loop (fuel : nat) (st : mk) (din : dinode) (off : Z) (p : list Z) : option (mk * dinode * Z) :=
  match p with
  | [] => Some (st, din, off)
  | _ =>
      match fuel with
      | O => None
      | S fuel =>
          let fbn := off / 1024 in
          if fbn <? MAXFILE then
            match iappend_block st din fbn with
            | None => None
            | Some (x, din, st) =>
                let n1 := mkfs_min (Z.of_nat (length p)) ((fbn + 1) * 1024 - off) in
                match rsect st x with
                | None => None
                | Some buf =>
                    let buf := splice buf (off - fbn * 1024) (take (Z.to_nat n1) p) in
                    iappend_loop fuel (wsect st x buf) din (off + n1) (drop (Z.to_nat n1) p)
                end
            end
          else None
      end
  end.

(** Each round appends a byte at least. *)
Definition iappend (st : mk) (inum : Z) (p : list Z) : option mk :=
  match rinode st inum with
  | None => None
  | Some din =>
      match iappend_loop (length p) st din (xint (di_size din)) p with
      | None => None
      | Some (st, din, off) => winode st inum (with_size din (xint off))
      end
  end.

Fixpoint iappend_all (st : mk) (inum : Z) (chunks : list (list Z)) : option mk :=
  match chunks with
  | [] => Some st
  | c :: chunks =>
      match iappend st inum c with
      | None => None
      | Some st => iappend_all st inum chunks
      end
  end.

(** ** [main] *)

(** A [struct dirent] with the name padded with zeros. *)
Definition dirent (inum : Z) (name : list Z) : list Z := le_bytes 2 (xshort inum) ++ name ++ replicate (14 - length name) 0.

(** The name a file gets, [None] when it contains a slash. *)
Definition shortname (arg : list Z) : option (list Z) :=
  let s := if bool_decide (take 5 arg = str "user/") then drop 5 arg else arg in
  if bool_decide (chr "/" ∈ s) then None
  else Some (match s with c :: s' => if c =? chr "_" then s' else s | [] => [] end).

Definition mkfs_file (st : mk) (f : list Z * option (list (list Z))) : option mk :=
  match shortname (fst f), snd f with
  | Some name, Some chunks =>
      if Z.of_nat (length name) <=? DIRSIZ then
        match mkfs_ialloc st T_FILE with
        | None => None
        | Some (inum, st) =>
            match iappend st ROOTINO (dirent inum name) with
            | None => None
            | Some st => iappend_all st inum chunks
            end
        end
      else None
  | _, _ => None
  end.

Fixpoint mkfs_files (st : mk) (fs : list (list Z * option (list (list Z)))) : option mk :=
  match fs with
  | [] => Some st
  | f :: fs =>
      match mkfs_file st f with
      | None => None
      | Some st => mkfs_files st fs
      end
  end.

(** [for(i = 0; i < FSSIZE; i++) wsect(i, zeroes);] *)
Fixpoint zero_image (n : nat) (i : Z) (st : mk) : mk :=
  match n with
  | O => st
  | S n => zero_image n (i + 1) (wsect st i zeroes)
  end.

(** The root directory with its first two entries. *)
Definition mkfs_root (st : mk) : option mk :=
  match mkfs_ialloc st T_DIR with
  | None => None
  | Some (rootino, st) =>
      if rootino =? ROOTINO then
        match iappend st rootino (dirent rootino (str ".")) with
        | None => None
        | Some st => iappend st rootino (dirent rootino (str ".."))
        end
      else None
  end.

(** The size of the root directory is rounded up to the next block. *)
Definition mkfs_fix_root (st : mk) : option mk :=
  match rinode st ROOTINO with
  | None => None
  | Some din =>
      let off := xint (di_size din) in
      let off := (off / 1024 + 1) * 1024 in
      winode st ROOTINO (with_size din (xint off))
  end.

Definition mkfs_init : mk :=
  let st := zero_image (Z.to_nat FSSIZE) 0 (mkmk ∅ 1 nmeta) in
  wsect st 1 (splice zeroes 0 (superblock_bytes mkfs_sb)).

(** The files named after the image on the command line. *)
Definition mkfs_main (files : list (list Z * option (list (list Z)))) : option mk :=
  match mkfs_root mkfs_init with
  | None => None
  | Some st =>
      match mkfs_files st files with
      | None => None
      | Some st =>
          match mkfs_fix_root st with
          | None => None
          | Some st => mkfs_balloc st (freeblock st)
          end
      end
  end.
