(* ===== verification/MkfsImage.v ===== *)
(** * The image that [mkfs] makes

    [core]: which blocks the files of an image have and what is in them, while
    it is being made; [iappend] keeps it and appends.  The theorem says what the
    kernel finds in the finished image. *)

From S2P Require Import Prelude CString Fields Kernel Printf Fs FsView FsBlocks FsFile Mkfs.
From stdpp Require Import base numbers strings gmap list.
From Stdlib Require Import ZArith Lia.

#[local] Open Scope Z_scope.

(** ** Blocks of the image *)

Definition blk (st : mk) (b : Z) : list Z := default [] (img st !! b).

Record disk_ok (st : mk) : Prop := {
  dk_all : forall b, 0 <= b < 2000 -> exists d, img st !! b = Some d /\ block_ok d;
  dk_only : forall b d, img st !! b = Some d -> 0 <= b < 2000 }.

Lemma rsect_ok st b : disk_ok st -> 0 <= b < 2000 -> rsect st b = Some (blk st b) /\ block_ok (blk st b).
Proof. intros D Hb. destruct (dk_all _ D b Hb) as (d&E&Hd). unfold rsect, blk. rewrite E. done. Qed.

Lemma blk_wsect st b d x : blk (wsect st b d) x = bset (blk st) b d x.
Proof.
  unfold blk, wsect, bset. cbn. destruct (decide (x = b)) as [->|]; [by rewrite lookup_insert_eq|by rewrite lookup_insert_ne].
Qed.

Lemma wsect_ok st b d : disk_ok st -> 0 <= b < 2000 -> block_ok d -> disk_ok (wsect st b d).
Proof.
  intros D Hb Hd. split; cbn.
  - intros x Hx. destruct (decide (x = b)) as [->|]; [exists d; by rewrite lookup_insert_eq|]. rewrite lookup_insert_ne by done. by apply D.
  - intros x e. destruct (decide (x = b)) as [->|]; [done|]. rewrite lookup_insert_ne by done. apply D.
Qed.

Lemma xint_small x : 0 <= x < 2 ^ 32 -> xint x = x.
Proof. intros Hx. unfold xint. rewrite le_val_bytes. by apply Z.mod_small. Qed.

Lemma xshort_small x : 0 <= x < 2 ^ 16 -> xshort x = x.
Proof. intros Hx. unfold xshort. rewrite le_val_bytes. by apply Z.mod_small. Qed.

(** ** Addresses *)

(** The block at slot [n] of a file: its block [n], or at 268 its indirect block. *)
Definition saddr (B : Z -> list Z) (a : list Z) (n : Z) : Z :=
  if n <? 12 then nthd 0 a n
  else if n =? 268 then nthd 0 a 12
  else if nthd 0 a 12 =? 0 then 0 else ind_get (B (nthd 0 a 12)) (n - 12).

(** Every slot of every file has a block of its own, between the metadata and [fb]. *)
Record layout (B : Z -> list Z) (fb : Z) (addrs : list (list Z)) : Prop := {
  lo_len : forall i a, addrs !! i = Some a -> length a = 13%nat;
  lo_fb : 47 <= fb <= 2000;
  lo_range : forall i a n, addrs !! i = Some a -> 0 <= n <= 268 -> saddr B a n <> 0 -> 47 <= saddr B a n < fb;
  lo_inj : forall i j a a' n m, addrs !! i = Some a -> addrs !! j = Some a' -> 0 <= n <= 268 -> 0 <= m <= 268 ->
    saddr B a n <> 0 -> saddr B a n = saddr B a' m -> i = j /\ n = m;
  lo_fresh : forall b, fb <= b < 2000 -> B b = zeroes }.

Lemma insert_cases {A} (l : list A) i x j y : <[i := x]> l !! j = Some y -> (j = i /\ y = x /\ (i < length l)%nat) \/ (j <> i /\ l !! j = Some y).
Proof. intros H. apply list_lookup_insert_Some in H as [(->&->&?)|[? ?]]; [by left|right; split; congruence]. Qed.

(** A new block for the slot [s] of file [i]. *)
Lemma layout_alloc B B' fb addrs i a a' s : layout B fb addrs -> addrs !! i = Some a -> length a' = 13%nat -> fb < 2000 -> 0 <= s <= 268 ->
  saddr B a s = 0 -> saddr B' a' s = fb -> (forall n, 0 <= n <= 268 -> n <> s -> saddr B' a' n = saddr B a n) ->
  (forall j c n, addrs !! j = Some c -> j <> i -> 0 <= n <= 268 -> saddr B' c n = saddr B c n) -> (forall b, fb < b < 2000 -> B' b = B b) ->
  layout B' (fb + 1) (<[i := a']> addrs).
Proof.
  intros L Ha Hl Hfb Hs H0 Hnew Hown Hoth Hfr.
  assert (Hold : forall j c n, <[i := a']> addrs !! j = Some c -> 0 <= n <= 268 -> saddr B' c n <> 0 ->
    (j = i /\ c = a' /\ n = s /\ saddr B' c n = fb) \/ (exists c0, addrs !! j = Some c0 /\ saddr B c0 n = saddr B' c n /\ saddr B c0 n < fb)).
  { intros j c n Hj Hn Hne. apply insert_cases in Hj as [(->&->&_)|[Hji Hj]].
    - destruct (decide (n = s)) as [->|Hns]; [left; by rewrite Hnew|]. right. exists a. rewrite (Hown n Hn Hns) in Hne |- *. split; [done|]. split; [done|].
      by apply (lo_range _ _ _ L i a n).
    - right. exists c. rewrite (Hoth j c n Hj Hji Hn) in Hne |- *. split; [done|]. split; [done|]. by apply (lo_range _ _ _ L j c n). }
  pose proof (lo_fb _ _ _ L) as Hfb0. split.
  - intros j c Hj. apply insert_cases in Hj as [(_&->&_)|[_ Hj]]; [done|]. by apply (lo_len _ _ _ L j).
  - lia.
  - intros j c n Hj Hn Hne. destruct (Hold j c n Hj Hn Hne) as [(_&_&_&E)|(c0&Hc0&E&Hlt)]; [lia|]. rewrite <- E in *. pose proof (lo_range _ _ _ L j c0 n Hc0 Hn Hne). lia.
  - intros j k c c' n m Hj Hk Hn Hm Hne E. assert (Hne' : saddr B' c' m <> 0) by congruence.
    destruct (Hold j c n Hj Hn Hne) as [(->&->&->&E1)|(c0&Hc0&E1&Hlt)]; destruct (Hold k c' m Hk Hm Hne') as [(->&->&->&E2)|(c1&Hc1&E2&Hlt2)]; [done|lia|lia|].
    apply (lo_inj _ _ _ L j k c0 c1); congruence.
  - intros b Hb. rewrite Hfr by lia. apply (lo_fresh _ _ _ L). lia.
Qed.

(** Writing a data block moves no block. *)
Lemma saddr_write B fb addrs i a n d j c m : layout B fb addrs -> addrs !! i = Some a -> 0 <= n < 268 -> saddr B a n <> 0 -> addrs !! j = Some c -> 0 <= m <= 268 ->
  saddr (bset B (saddr B a n) d) c m = saddr B c m.
Proof.
  intros L Ha Hn Hne Hc Hm. unfold saddr at 1 3. destruct (m <? 12) eqn:E1; [done|]. destruct (m =? 268) eqn:E2; [done|]. destruct (nthd 0 c 12 =? 0) eqn:E3; [done|].
  rewrite bset_ne; [done|]. intros E. assert (E4 : saddr B a n = saddr B c 268) by (symmetry; exact E).
  destruct (lo_inj _ _ _ L i j a c n 268 Ha Hc ltac:(lia) ltac:(lia) Hne E4). lia.
Qed.

Lemma layout_write B fb addrs i a n d : layout B fb addrs -> addrs !! i = Some a -> 0 <= n < 268 -> saddr B a n <> 0 -> layout (bset B (saddr B a n) d) fb addrs.
Proof.
  intros L Ha Hn Hne. pose proof (fun j c m => saddr_write B fb addrs i a n d j c m L Ha Hn Hne) as Hs. split.
  - apply L.
  - apply L.
  - intros j c m Hc Hm Hnz. rewrite (Hs j c m Hc Hm) in Hnz |- *. by apply (lo_range _ _ _ L j).
  - intros j k c c' m m' Hc Hc' Hm Hm' Hnz E. rewrite (Hs j), (Hs k) in E by done. rewrite (Hs j) in Hnz by done. by apply (lo_inj _ _ _ L j k c c').
  - intros b Hb. rewrite bset_ne; [by apply (lo_fresh _ _ _ L)|]. pose proof (lo_range _ _ _ L i a n Ha ltac:(lia) Hne). lia.
Qed.

(** ** Contents *)

(** The file has the blocks 0 to [nb - 1] and no others; they hold [data] and zeros behind it. *)
Record file_at (B : Z -> list Z) (a : list Z) (data : list Z) (nb : Z) : Prop := {
  fa_nb : 0 <= nb <= 268;
  fa_slot : forall n, 0 <= n < 268 -> (saddr B a n <> 0 <-> n < nb);
  fa_fits : Z.of_nat (length data) <= 1024 * nb;
  fa_bytes : forall n j, 0 <= n < nb -> 0 <= j < 1024 -> nthd 0 (B (saddr B a n)) j = nthd 0 data (1024 * n + j) }.

Lemma file_at_same B B' a data nb : file_at B a data nb -> (forall n, 0 <= n <= 268 -> saddr B' a n = saddr B a n) ->
  (forall n, 0 <= n < nb -> B' (saddr B a n) = B (saddr B a n)) -> file_at B' a data nb.
Proof.
  intros F Hs Hb. pose proof (fa_nb _ _ _ _ F). split; [done| |apply F|].
  - intros n Hn. rewrite Hs by lia. by apply F.
  - intros n j Hn Hj. rewrite Hs, Hb by lia. by apply F.
Qed.

(** A file with more than 12 blocks, and no other, has an indirect block. *)
Definition ind_at (B : Z -> list Z) (a : list Z) (nb : Z) : Prop := saddr B a 268 <> 0 <-> 12 < nb.

(** A change of a block of file [i] is none for file [j]. *)
Lemma other_file B fb addrs i a s d j c : layout B fb addrs -> addrs !! i = Some a -> 0 <= s <= 268 -> saddr B a s <> 0 -> addrs !! j = Some c -> j <> i ->
  (forall m, 0 <= m <= 268 -> saddr (bset B (saddr B a s) d) c m = saddr B c m) /\
  (forall data nb, file_at B c data nb -> file_at (bset B (saddr B a s) d) c data nb).
Proof.
  intros L Ha Hs Hne Hc Hji.
  assert (Hx : forall m, 0 <= m <= 268 -> saddr B c m <> 0 -> saddr B c m <> saddr B a s).
  { intros m Hm Hnz E. destruct (lo_inj _ _ _ L j i c a m s Hc Ha Hm Hs Hnz E). done. }
  assert (Hsame : forall m, 0 <= m <= 268 -> saddr (bset B (saddr B a s) d) c m = saddr B c m).
  { intros m Hm. unfold saddr at 1 3. destruct (m <? 12) eqn:E1; [done|]. destruct (m =? 268) eqn:E2; [done|]. destruct (Z.eqb_spec (nthd 0 c 12) 0) as [E3|E3]; [done|].
    rewrite bset_ne; [done|]. apply (Hx 268); [lia|exact E3]. }
  split; [done|]. intros data nb F. apply (file_at_same B); [done|done|]. intros n Hn. apply bset_ne. pose proof (fa_nb _ _ _ _ F). apply Hx; [lia|]. apply F; lia.
Qed.

Lemma nthd_beyond (l : list Z) i : Z.of_nat (length l) <= i -> nthd 0 l i = 0.
Proof. intros Hi. unfold nthd. destruct (Z.ltb_spec i 0); [done|]. by rewrite lookup_ge_None_2 by lia. Qed.

Lemma nthd_zeroes j : nthd 0 zeroes j = 0.
Proof.
  unfold nthd, zeroes. destruct (j <? 0); [done|]. destruct (decide (Z.to_nat j < 1024)%nat); [by rewrite lookup_replicate_2|by rewrite lookup_ge_None_2 by (rewrite length_replicate; lia)].
Qed.

(** The new block of a file, once its slot is there. *)
Lemma file_at_grow B B' a a' data nb fb : file_at B a data nb -> nb < 268 -> saddr B' a' nb = fb -> 0 < fb -> B' fb = zeroes ->
  (forall n, 0 <= n < 268 -> n <> nb -> saddr B' a' n = saddr B a n) -> (forall n, 0 <= n < nb -> B' (saddr B a n) = B (saddr B a n)) ->
  file_at B' a' data (nb + 1).
Proof.
  intros F Hnb Hnew Hfb Hz Hsl Hold. pose proof (fa_nb _ _ _ _ F) as Hr. pose proof (fa_fits _ _ _ _ F) as Hfit. split; [lia| |lia|].
  - intros n Hn. destruct (decide (n = nb)) as [->|Hne]; [rewrite Hnew; lia|]. rewrite Hsl by lia. rewrite (fa_slot _ _ _ _ F) by lia. lia.
  - intros n j Hn Hj. destruct (decide (n = nb)) as [->|Hne].
    + rewrite Hnew, Hz, nthd_zeroes. symmetry. apply nthd_beyond. lia.
    + rewrite Hsl, Hold by lia. apply F; lia.
Qed.

Section alloc.
Context (B : Z -> list Z) (fb : Z) (addrs : list (list Z)) (i : nat) (a data : list Z) (nb : Z).
Hypothesis L : layout B fb addrs.
Hypothesis Ha : addrs !! i = Some a.
Hypothesis F : file_at B a data nb.
Hypothesis Hfb : fb < 2000.

Lemma alloc_direct : nb < 12 -> layout B (fb + 1) (<[i := setz a nb fb]> addrs) /\ file_at B (setz a nb fb) data (nb + 1) /\ saddr B (setz a nb fb) nb = fb /\
  saddr B (setz a nb fb) 268 = saddr B a 268.
Proof.
  intros Hnb. pose proof (lo_len _ _ _ L i a Ha) as Hl. pose proof (fa_nb _ _ _ _ F) as Hr. pose proof (lo_fb _ _ _ L) as Hfb0.
  assert (Hnew : saddr B (setz a nb fb) nb = fb) by (unfold saddr; rewrite (proj2 (Z.ltb_lt nb 12)) by lia; apply nthd_setz_eq; lia).
  assert (Hold : forall n, 0 <= n <= 268 -> n <> nb -> saddr B (setz a nb fb) n = saddr B a n).
  { intros n Hn Hne. unfold saddr. rewrite !(nthd_setz_ne 0 a nb 12) by lia. destruct (n <? 12); [by rewrite nthd_setz_ne|done]. }
  assert (H0 : saddr B a nb = 0) by (destruct (decide (saddr B a nb = 0)) as [?|Hn]; [done|apply (fa_slot _ _ _ _ F) in Hn; lia]).
  split; [by apply (layout_alloc B B fb addrs i a _ nb); rewrite ?length_setz; try done; lia|]. split; [|split; [done|apply Hold; lia]].
  apply (file_at_grow B B a _ data nb fb); try done; try lia; [apply (lo_fresh _ _ _ L); lia|]. intros n Hn Hne. apply Hold; lia.
Qed.

Lemma layout_alloc_ind : saddr B a 268 = 0 -> nb <= 12 -> layout B (fb + 1) (<[i := setz a 12 fb]> addrs) /\ file_at B (setz a 12 fb) data nb /\ saddr B (setz a 12 fb) 268 = fb.
Proof.
  intros H0 Hnb. pose proof (lo_len _ _ _ L i a Ha) as Hl. pose proof (fa_nb _ _ _ _ F) as Hr. pose proof (lo_fb _ _ _ L) as Hfb0.
  assert (E12 : nthd 0 (setz a 12 fb) 12 = fb) by (apply nthd_setz_eq; lia). assert (E0 : nthd 0 a 12 = 0) by exact H0.
  assert (Hold : forall n, 0 <= n < 268 -> saddr B (setz a 12 fb) n = saddr B a n).
  { intros n Hn. unfold saddr. rewrite E12, E0. destruct (Z.ltb_spec n 12) as [?|?]; [by rewrite nthd_setz_ne by lia|]. rewrite (proj2 (Z.eqb_neq n 268)) by lia.
    rewrite (proj2 (Z.eqb_neq fb 0)), (lo_fresh _ _ _ L fb) by lia. cbn [Z.eqb]. apply ind_get_zeros. lia. }
  split; [|split; [|exact E12]].
  - apply (layout_alloc B B fb addrs i a _ 268); rewrite ?length_setz; try done; try lia. intros n Hn Hne. apply Hold. lia.
  - split; [done| |apply F|].
    + intros n Hn. rewrite Hold by done. by apply F.
    + intros n j Hn Hj. rewrite Hold by lia. by apply F.
Qed.

Lemma alloc_entry ind : saddr B a 268 = ind -> ind <> 0 -> 12 <= nb < 268 -> block_ok (B ind) ->
  let B' := bset B ind (ind_put (nb - 12) fb (B ind)) in
  layout B' (fb + 1) addrs /\ file_at B' a data (nb + 1) /\ saddr B' a nb = fb /\ saddr B' a 268 = ind.
Proof.
  intros Eind Hind Hnb [Hbl _] B'. pose proof (lo_len _ _ _ L i a Ha) as Hl. pose proof (lo_fb _ _ _ L) as Hfb0. assert (E12 : nthd 0 a 12 = ind) by exact Eind.
  assert (Hir : 47 <= ind < fb) by (rewrite <- Eind; apply (lo_range _ _ _ L i a 268); [done|lia|congruence]).
  assert (Hsl : forall n, 12 <= n < 268 -> saddr B' a n = if n =? nb then fb else saddr B a n).
  { intros n Hn. unfold saddr. rewrite E12, (proj2 (Z.ltb_ge n 12)), (proj2 (Z.eqb_neq n 268)), (proj2 (Z.eqb_neq ind 0)) by lia. unfold B'. rewrite bset_eq. unfold ind_get, ind_put.
    destruct (Z.eqb_spec n nb) as [->|Hne].
    - rewrite lget_put by lia. apply Z.mod_small. change (2 ^ (8 * Z.of_nat 4)) with 4294967296. lia.
    - apply lget_other; rewrite length_le_bytes; lia. }
  assert (Hlow : forall n, 0 <= n < 12 -> saddr B' a n = saddr B a n) by (intros n Hn; unfold saddr; by rewrite (proj2 (Z.ltb_lt n 12)) by lia).
  assert (Hnew : saddr B' a nb = fb) by (rewrite Hsl, Z.eqb_refl by lia; done). assert (H268 : saddr B' a 268 = ind) by exact E12.
  assert (Hold : forall n, 0 <= n <= 268 -> n <> nb -> saddr B' a n = saddr B a n).
  { intros n Hn Hne. destruct (decide (n < 12)) as [?|?]; [apply Hlow; lia|]. destruct (decide (n = 268)) as [->|?]; [congruence|]. rewrite Hsl by lia.
    by rewrite (proj2 (Z.eqb_neq n nb)). }
  assert (H0 : saddr B a nb = 0) by (destruct (decide (saddr B a nb = 0)) as [?|Hn]; [done|apply (fa_slot _ _ _ _ F) in Hn; lia]).
  assert (Hnot : forall n, 0 <= n < 268 -> saddr B a n <> 0 -> saddr B a n <> ind).
  { intros n Hn Hnz E. destruct (lo_inj _ _ _ L i i a a n 268 Ha Ha ltac:(lia) ltac:(lia) Hnz ltac:(congruence)). lia. }
  split; [|split; [|done]].
  - rewrite <- (list_insert_id addrs i a Ha). apply (layout_alloc B B' fb addrs i a a nb); try done; try lia.
    + intros j c n Hc Hji Hn. unfold B'. rewrite <- Eind. by apply (other_file B fb addrs i a 268 _ j c L Ha); [lia|congruence|..].
    + intros b Hb. apply bset_ne. lia.
  - apply (file_at_grow B B' a a data nb fb); try done; try lia; [|intros; apply Hold; lia|].
    + unfold B'. rewrite bset_ne by lia. apply (lo_fresh _ _ _ L). lia.
    + intros n Hn. apply bset_ne, Hnot; [lia|]. apply F; lia.
Qed.
End alloc.

(** ** Equal images *)

Lemma saddr_ext B B' a n : (forall x, B' x = B x) -> saddr B' a n = saddr B a n.
Proof. intros E. unfold saddr. by rewrite E. Qed.

Lemma layout_ext B B' fb addrs : (forall x, B' x = B x) -> layout B fb addrs -> layout B' fb addrs.
Proof.
  intros E L. split; [apply L|apply L| | |].
  - intros i a n. rewrite (saddr_ext B) by done. apply L.
  - intros i j a a' n m. rewrite !(saddr_ext B B') by done. apply L.
  - intros b Hb. rewrite E. by apply L.
Qed.

Lemma file_at_ext B B' a data nb : (forall x, B' x = B x) -> file_at B a data nb -> file_at B' a data nb.
Proof. intros E F. apply (file_at_same B); [done|intros; by apply saddr_ext|intros; apply E]. Qed.

(** ** Writing into the last block *)

Lemma nthd_app (l1 l2 : list Z) i : 0 <= i -> nthd 0 (l1 ++ l2) i = if i <? Z.of_nat (length l1) then nthd 0 l1 i else nthd 0 l2 (i - Z.of_nat (length l1)).
Proof.
  intros Hi. unfold nthd. rewrite (proj2 (Z.ltb_ge i 0)) by lia. destruct (Z.ltb_spec i (Z.of_nat (length l1))) as [Hlt|Hge].
  - by rewrite lookup_app_l by lia.
  - rewrite (proj2 (Z.ltb_ge _ 0)), lookup_app_r by lia. do 2 f_equal. lia.
Qed.

Lemma nthd_splice l off bs j : 0 <= off -> (Z.to_nat off + length bs <= length l)%nat -> 0 <= j ->
  nthd 0 (splice l off bs) j = if (off <=? j) && (j <? off + Z.of_nat (length bs)) then nthd 0 bs (j - off) else nthd 0 l j.
Proof.
  intros Ho Hl Hj. unfold nthd. rewrite (proj2 (Z.ltb_ge j 0)), lookup_splice by lia.
  destruct (Z.leb_spec off j), (Z.ltb_spec j (off + Z.of_nat (length bs))); cbn [andb]; try (rewrite decide_False by lia; done).
  rewrite decide_True, (proj2 (Z.ltb_ge (j - off) 0)) by lia. do 2 f_equal. lia.
Qed.

Lemma file_write B fb addrs i a data nb n c : layout B fb addrs -> addrs !! i = Some a -> file_at B a data nb -> block_ok (B (saddr B a n)) ->
  n = Z.of_nat (length data) / 1024 -> n < nb -> Z.of_nat (length data) + Z.of_nat (length c) <= 1024 * (n + 1) ->
  file_at (bset B (saddr B a n) (splice (B (saddr B a n)) (Z.of_nat (length data) - n * 1024) c)) a (data ++ c) nb.
Proof.
  intros L Ha F [Hbl _] Hn Hnb Hc. pose proof (fa_nb _ _ _ _ F) as Hr. pose proof (fa_fits _ _ _ _ F) as Hfit. set (len := Z.of_nat (length data)) in *.
  assert (Hn0 : 0 <= n /\ 1024 * n <= len < 1024 * (n + 1)) by (pose proof (Z.div_mod len 1024); pose proof (Z.mod_pos_bound len 1024); unfold len in *; lia).
  assert (Hnz : saddr B a n <> 0) by (apply F; lia). set (d := splice _ _ _). set (B' := bset B (saddr B a n) d).
  assert (Hs : forall m, 0 <= m <= 268 -> saddr B' a m = saddr B a m) by (intros m Hm; apply (saddr_write B fb addrs i a n d i a m L Ha); try done; lia).
  split; [done| | |].
  - intros m Hm. rewrite Hs by lia. by apply F.
  - rewrite length_app. lia.
  - intros m j Hm Hj. rewrite Hs, nthd_app by lia. fold len. destruct (decide (m = n)) as [->|Hne].
    + unfold B'. rewrite bset_eq. unfold d. rewrite nthd_splice by lia. rewrite (fa_bytes _ _ _ _ F) by lia.
      destruct (Z.ltb_spec (1024 * n + j) len) as [Hlt|Hge]; [by rewrite (proj2 (Z.leb_gt (len - n * 1024) j)) by lia|].
      rewrite (proj2 (Z.leb_le (len - n * 1024) j)) by lia. cbn [andb].
      destruct (Z.ltb_spec j (len - n * 1024 + Z.of_nat (length c))) as [Hin|Hout]; [f_equal; lia|].
      rewrite (nthd_beyond data), (nthd_beyond c) by lia. done.
    + unfold B'. rewrite bset_ne, (fa_bytes _ _ _ _ F) by (lia || (intros E; apply Hne; apply (lo_inj _ _ _ L i i a a); try done; try lia; apply F; lia)).
      destruct (Z.ltb_spec (1024 * m + j) len) as [Hlt|Hge]; [done|]. rewrite (nthd_beyond data), (nthd_beyond c) by lia. done.
Qed.

(** ** The image while it is made *)

Definition nblk (data : list Z) : Z := (Z.of_nat (length data) + 1023) / 1024.

(** The blocks a file takes. *)
Definition need (data : list Z) : Z := nblk data + (if 12 <? nblk data then 1 else 0).
Definition total (fs : list (list Z)) : Z := fold_right (fun data n => need data + n) 0 fs.

Definition good (B : Z -> list Z) (a data : list Z) (nb : Z) : Prop := file_at B a data nb /\ ind_at B a nb.

(** The files [fs] have their blocks at [addrs], one after the other from block 47 on. *)
Record core (st : mk) (addrs fs : list (list Z)) : Prop := {
  co_disk : disk_ok st;
  co_lay : layout (blk st) (freeblock st) addrs;
  co_len : length addrs = length fs;
  co_file : forall i a data, addrs !! i = Some a -> fs !! i = Some data -> good (blk st) a data (nblk data);
  co_fb : freeblock st = 47 + total fs }.

(** The block behind the end of the file [i] has been found or allocated. *)
Record ready (st : mk) (addrs : list (list Z)) (i : nat) (data : list Z) (fbn grow : Z) (st' : mk) (a' : list Z) : Prop := {
  rd_disk : disk_ok st';
  rd_lay : layout (blk st') (freeblock st') (<[i := a']> addrs);
  rd_file : good (blk st') a' data (fbn + 1);
  rd_other : forall j c d nb, j <> i -> addrs !! j = Some c -> good (blk st) c d nb -> good (blk st') c d nb;
  rd_fb : freeblock st' = freeblock st + grow;
  rd_low : forall b, b < 47 -> blk st' b = blk st b;
  rd_inode : freeinode st' = freeinode st }.

Definition with_addrs (d : dinode) (a : list Z) : dinode := mkdinode (di_type d) (di_major d) (di_minor d) (di_nlink d) (di_size d) a.

Lemma good_other B fb addrs i a s d j c data nb : layout B fb addrs -> addrs !! i = Some a -> 0 <= s <= 268 -> saddr B a s <> 0 -> addrs !! j = Some c -> j <> i ->
  good B c data nb -> good (bset B (saddr B a s) d) c data nb.
Proof.
  intros L Ha Hs Hne Hc Hji [F I]. destruct (other_file B fb addrs i a s d j c L Ha Hs Hne Hc Hji) as [Hsame Hf]. split; [by apply Hf|].
  unfold ind_at. by rewrite Hsame by lia.
Qed.

Lemma good_ext B B' a data nb : (forall x, B' x = B x) -> good B a data nb -> good B' a data nb.
Proof. intros E [F I]. split; [by apply (file_at_ext B)|]. unfold ind_at. by rewrite (saddr_ext B). Qed.

Lemma addr_small B fb addrs i a n : layout B fb addrs -> addrs !! i = Some a -> 0 <= n <= 12 -> xint (nthd 0 a n) = nthd 0 a n.
Proof.
  intros L Ha Hn. pose proof (lo_fb _ _ _ L). assert (E : nthd 0 a n = saddr B a (if n =? 12 then 268 else n)).
  { unfold saddr. destruct (Z.eqb_spec n 12) as [->|]; [done|]. by rewrite (proj2 (Z.ltb_lt n 12)) by lia. }
  rewrite E. destruct (decide (saddr B a (if n =? 12 then 268 else n) = 0)) as [->|Hne]; [done|].
  pose proof (lo_range _ _ _ L i a (if n =? 12 then 268 else n) Ha ltac:(destruct (n =? 12); lia) Hne). apply xint_small. lia.
Qed.

Section block.
Context (st : mk) (addrs : list (list Z)) (i : nat) (a data : list Z) (din : dinode).
Hypothesis Hdisk : disk_ok st.
Hypothesis L : layout (blk st) (freeblock st) addrs.
Hypothesis Ha : addrs !! i = Some a.
Hypothesis Hdin : di_addrs din = a.

(** The block is there. *)
Lemma iappend_block_old fbn : good (blk st) a data (fbn + 1) -> 0 <= fbn < 268 ->
  iappend_block st din fbn = Some (saddr (blk st) a fbn, din, st) /\ ready st addrs i data fbn 0 st a.
Proof.
  intros [F I] Hn. pose proof (lo_fb _ _ _ L) as Hfb. assert (Hnz : saddr (blk st) a fbn <> 0) by (apply F; lia).
  pose proof (lo_range _ _ _ L i a fbn Ha ltac:(lia) Hnz) as Hr. split.
  - unfold iappend_block, need_addr. rewrite Hdin. destruct (Z.ltb_spec fbn 12) as [Hlt|Hge].
    + assert (E : saddr (blk st) a fbn = nthd 0 a fbn) by (unfold saddr; by rewrite (proj2 (Z.ltb_lt fbn 12))). rewrite (addr_small _ _ _ _ _ fbn L Ha) by lia.
      rewrite <- E, (proj2 (Z.eqb_neq _ 0) Hnz), Hdin, <- E, xint_small by lia. done.
    + rewrite (addr_small _ _ _ _ _ 12 L Ha) by lia. assert (Hi : nthd 0 a 12 <> 0) by (apply I; lia). rewrite (proj2 (Z.eqb_neq _ 0) Hi), Hdin, (addr_small _ _ _ _ _ 12 L Ha) by lia.
      pose proof (lo_range _ _ _ L i a 268 Ha ltac:(lia) Hi) as Hir. change (saddr (blk st) a 268) with (nthd 0 a 12) in Hir.
      destruct (rsect_ok st (nthd 0 a 12) Hdisk) as [-> _]; [lia|].
      assert (E : saddr (blk st) a fbn = ind_get (blk st (nthd 0 a 12)) (fbn - 12))
        by (unfold saddr; by rewrite (proj2 (Z.ltb_ge fbn 12)), (proj2 (Z.eqb_neq fbn 268)), (proj2 (Z.eqb_neq _ 0) Hi) by lia).
      rewrite <- E, (proj2 (Z.eqb_neq _ 0) Hnz), <- E, xint_small by lia. done.
  - split; try done; [by rewrite list_insert_id|lia].
Qed.

(** [freeblock++] *)
Lemma newblock_ok : freeblock st < 2000 -> newblock st = (freeblock st, mkmk (img st) (freeinode st) (freeblock st + 1)).
Proof. intros Hfb. pose proof (lo_fb _ _ _ L). unfold newblock. by rewrite xint_small, u32_small by lia. Qed.

Lemma iappend_block_direct fbn : good (blk st) a data fbn -> 0 <= fbn < 12 -> freeblock st < 2000 ->
  let a' := setz a fbn (freeblock st) in
  exists st', iappend_block st din fbn = Some (saddr (blk st') a' fbn, with_addrs din a', st') /\ ready st addrs i data fbn 1 st' a'.
Proof.
  intros [F I] Hn Hfb a'. destruct (alloc_direct (blk st) (freeblock st) addrs i a data fbn L Ha F Hfb) as (L'&F'&Hnew&H268); [lia|]. fold a' in L', F', Hnew, H268.
  assert (H0 : nthd 0 a fbn = 0).
  { destruct (decide (saddr (blk st) a fbn = 0)) as [E|Hne]; [unfold saddr in E; by rewrite (proj2 (Z.ltb_lt fbn 12)) in E by lia|apply (fa_slot _ _ _ _ F) in Hne; lia]. }
  exists (mkmk (img st) (freeinode st) (freeblock st + 1)). change (blk (mkmk _ _ _)) with (blk st). split.
  - unfold iappend_block, need_addr. rewrite (proj2 (Z.ltb_lt fbn 12)), Hdin, H0 by lia. change (xint 0 =? 0) with true. rewrite newblock_ok by done. cbn beta iota zeta.
    unfold set_addr, with_addrs. cbn [di_addrs]. rewrite Hdin. fold a'. assert (E : nthd 0 a' fbn = freeblock st) by (apply nthd_setz_eq; pose proof (lo_len _ _ _ L i a Ha); lia).
    pose proof (lo_fb _ _ _ L). rewrite E, xint_small, Hnew by lia. done.
  - split; [split; apply Hdisk|done| |done|done|done|done]. split; [done|]. unfold ind_at in *. change (blk (mkmk _ _ _)) with (blk st). rewrite H268, I. lia.
Qed.

(** A new entry of the indirect block [ind]. *)
Lemma entry_ok fbn ind : saddr (blk st) a 268 = ind -> ind <> 0 -> 12 <= fbn < 268 -> file_at (blk st) a data fbn -> freeblock st < 2000 ->
  let st' := wsect (mkmk (img st) (freeinode st) (freeblock st + 1)) ind (ind_put (fbn - 12) (freeblock st) (blk st ind)) in
  ready st addrs i data fbn 1 st' a /\ saddr (blk st') a fbn = freeblock st.
Proof.
  intros Eind Hind Hn F Hfb st'. pose proof (lo_range _ _ _ L i a 268 Ha ltac:(lia) ltac:(congruence)) as Hir. pose proof (lo_fb _ _ _ L) as Hfb0. rewrite Eind in Hir.
  destruct (rsect_ok st ind Hdisk) as [_ Hbl]; [lia|].
  destruct (alloc_entry (blk st) (freeblock st) addrs i a data fbn L Ha F Hfb ind Eind Hind Hn Hbl) as (L'&F'&Hnew&H268).
  assert (E : forall x, blk st' x = bset (blk st) ind (ind_put (fbn - 12) (freeblock st) (blk st ind)) x) by (intros x; exact (blk_wsect (mkmk (img st) (freeinode st) (freeblock st + 1)) ind _ x)). split.
  - split; [| | | |done| |done].
    + apply wsect_ok; [|lia|]; [split; apply Hdisk|]. destruct Hbl as [Hb1 Hb2]. split; [unfold ind_put; rewrite length_splice; rewrite ?length_le_bytes; lia|].
      apply splice_bytes; [done|apply le_bytes_ok].
    + rewrite list_insert_id by done. by apply (layout_ext _ _ _ _ E).
    + apply (good_ext _ _ _ _ _ E). split; [done|]. unfold ind_at. rewrite H268. lia.
    + intros j c d nb Hji Hc G. apply (good_ext _ _ _ _ _ E). rewrite <- Eind. apply (good_other _ (freeblock st) addrs i a 268 _ j); try done; congruence.
    + intros b Hb. rewrite E. apply bset_ne. lia.
  - rewrite (saddr_ext _ _ _ _ E). exact Hnew.
Qed.

Lemma iappend_block_entry fbn : good (blk st) a data fbn -> 12 < fbn < 268 -> freeblock st < 2000 ->
  exists st', iappend_block st din fbn = Some (saddr (blk st') a fbn, din, st') /\ ready st addrs i data fbn 1 st' a.
Proof.
  intros [F I] Hn Hfb. assert (Hi : saddr (blk st) a 268 <> 0) by (apply I; lia). pose proof (lo_range _ _ _ L i a 268 Ha ltac:(lia) Hi) as Hir. pose proof (lo_fb _ _ _ L).
  destruct (entry_ok fbn _ eq_refl Hi ltac:(lia) F Hfb) as [Hr Hnew]. set (ind := saddr (blk st) a 268) in *. eexists. split; [|exact Hr]. rewrite Hnew.
  unfold iappend_block, need_addr. rewrite (proj2 (Z.ltb_ge fbn 12)), Hdin, (addr_small _ _ _ _ _ 12 L Ha) by lia. change (nthd 0 a 12) with ind.
  rewrite (proj2 (Z.eqb_neq ind 0) Hi), Hdin, (addr_small _ _ _ _ _ 12 L Ha) by lia. change (nthd 0 a 12) with ind. destruct (rsect_ok st ind Hdisk) as [-> Hbl]; [lia|].
  assert (E0 : ind_get (blk st ind) (fbn - 12) = 0).
  { destruct (decide (saddr (blk st) a fbn = 0)) as [E|Hne]; [|apply (fa_slot _ _ _ _ F) in Hne; lia]. unfold saddr in E.
    rewrite (proj2 (Z.ltb_ge fbn 12)), (proj2 (Z.eqb_neq fbn 268)) in E by lia. change (nthd 0 a 12) with ind in E. by rewrite (proj2 (Z.eqb_neq ind 0) Hi) in E. }
  rewrite E0. change (0 =? 0) with true. rewrite newblock_ok by done. cbn beta iota zeta. unfold ind_get, ind_put. destruct Hbl as [Hb1 _].
  rewrite lget_put by lia. rewrite Z.mod_small by (change (2 ^ (8 * Z.of_nat 4)) with 4294967296; lia). rewrite xint_small by lia. done.
Qed.
End block.

Lemma iappend_block_ind st addrs i a data din : disk_ok st -> layout (blk st) (freeblock st) addrs -> addrs !! i = Some a -> di_addrs din = a ->
  good (blk st) a data 12 -> freeblock st + 1 < 2000 -> let a' := setz a 12 (freeblock st) in
  exists st', iappend_block st din 12 = Some (saddr (blk st') a' 12, with_addrs din a', st') /\ ready st addrs i data 12 2 st' a'.
Proof.
  intros D L Ha Hdin [F I] Hfb a'. pose proof (lo_fb _ _ _ L) as Hfb0. pose proof (lookup_lt_Some _ _ _ Ha) as Hlt.
  assert (H0 : nthd 0 a 12 = 0) by (destruct (decide (nthd 0 a 12 = 0)) as [?|Hne]; [done|apply I in Hne; lia]).
  destruct (layout_alloc_ind (blk st) (freeblock st) addrs i a data 12 L Ha F ltac:(lia) H0 ltac:(lia)) as (L1&F1&H268). fold a' in L1, F1, H268.
  set (st1 := mkmk (img st) (freeinode st) (freeblock st + 1)).
  assert (Ha1 : <[i := a']> addrs !! i = Some a') by (by rewrite list_lookup_insert_eq).
  destruct (entry_ok st1 (<[i := a']> addrs) i a' data ltac:(split; apply D) L1 Ha1 12 (freeblock st) H268 ltac:(lia) ltac:(lia) F1 ltac:(cbn; lia)) as [Hr Hnew].
  cbn [freeblock st1] in Hr, Hnew. eexists. split; [rewrite Hnew|].
  - unfold iappend_block, need_addr. change (12 <? 12) with false. cbn iota. rewrite Hdin, H0. change (xint 0 =? 0) with true. rewrite (newblock_ok st addrs L) by lia. fold st1.
    cbn beta iota zeta. unfold set_addr. cbn [di_addrs]. rewrite Hdin. fold a'. change (nthd 0 a' 12) with (saddr (blk st) a' 268). rewrite H268, xint_small by lia.
    destruct (rsect_ok st1 (freeblock st)) as [-> Hbl]; [split; apply D|lia|].
    assert (E0 : ind_get (blk st1 (freeblock st)) 0 = 0) by (change (blk st1) with (blk st); rewrite (lo_fresh _ _ _ L) by lia; by apply ind_get_zeros).
    change (12 - 12) with 0. rewrite E0. change (0 =? 0) with true. rewrite (newblock_ok st1 _ L1) by (cbn; lia). cbn beta iota zeta. unfold ind_get, ind_put. destruct Hbl as [Hb1 _].
    rewrite lget_put by lia. rewrite Z.mod_small by (change (2 ^ (8 * Z.of_nat 4)) with 4294967296; cbn; lia). cbn [freeblock st1]. rewrite xint_small by lia. done.
  - split; try apply Hr.
    + pose proof (rd_lay _ _ _ _ _ _ _ _ Hr) as L2. by rewrite list_insert_insert_eq in L2.
    + intros j c d nb Hji Hc G. apply (rd_other _ _ _ _ _ _ _ _ Hr j c d nb); [done| |done]. by rewrite list_lookup_insert_ne.
    + rewrite (rd_fb _ _ _ _ _ _ _ _ Hr). cbn. lia.
Qed.

(** How many blocks the next byte of the file takes. *)
Definition grow_for (len : Z) : Z := if len mod 1024 =? 0 then if len / 1024 =? 12 then 2 else 1 else 0.

Lemma with_addrs_id d : with_addrs d (di_addrs d) = d.
Proof. by destruct d. Qed.

Lemma iappend_block_ok st addrs fs i a data din : core st addrs fs -> addrs !! i = Some a -> fs !! i = Some data -> di_addrs din = a ->
  let len := Z.of_nat (length data) in len < 268 * 1024 -> freeblock st + grow_for len <= 2000 ->
  exists a' st', iappend_block st din (len / 1024) = Some (saddr (blk st') a' (len / 1024), with_addrs din a', st') /\ ready st addrs i data (len / 1024) (grow_for len) st' a'.
Proof.
  intros C Ha Hd Hdin len Hlen Hfb. pose proof (co_file _ _ _ C i a data Ha Hd) as G. pose proof (co_disk _ _ _ C) as D. pose proof (co_lay _ _ _ C) as L.
  unfold nblk in G. fold len in G. assert (Hl0 : 0 <= len) by (unfold len; lia). assert (Hq : 0 <= len / 1024 < 268) by zlia.
  unfold grow_for in *. destruct (Z.eqb_spec (len mod 1024) 0) as [Hm|Hm].
  - replace ((len + 1023) / 1024) with (len / 1024) in G by zlia. destruct (Z.eqb_spec (len / 1024) 12) as [E12|H12].
    + rewrite E12 in *. destruct (iappend_block_ind st addrs i a data din D L Ha Hdin G ltac:(lia)) as (st'&E&R). by eexists _, _.
    + destruct (decide (len / 1024 < 12)) as [Hlt|Hge].
      * destruct (iappend_block_direct st addrs i a data din D L Ha Hdin (len / 1024) G ltac:(lia) ltac:(lia)) as (st'&E&R). by eexists _, _.
      * destruct (iappend_block_entry st addrs i a data din D L Ha Hdin (len / 1024) G ltac:(lia) ltac:(lia)) as (st'&E&R). exists a, st'. rewrite E, <- Hdin, with_addrs_id, Hdin. done.
  - replace ((len + 1023) / 1024) with (len / 1024 + 1) in G by zlia. destruct (iappend_block_old st addrs i a data din D L Ha Hdin (len / 1024) G Hq) as [E R].
    exists a, st. rewrite E, <- Hdin, with_addrs_id, Hdin. done.
Qed.

Lemma total_cons d fs : total (d :: fs) = need d + total fs.
Proof. done. Qed.

Lemma total_insert fs i d d' : fs !! i = Some d -> total (<[i := d']> fs) = total fs - need d + need d'.
Proof.
  revert i. induction fs as [|x fs IH]; intros [|i] Hi; try done.
  - injection Hi as ->. change (<[0%nat := d']> (d :: fs)) with (d' :: fs). rewrite !total_cons. lia.
  - change (<[S i := d']> (x :: fs)) with (x :: <[i := d']> fs). rewrite !total_cons, (IH i Hi). lia.
Qed.

Lemma need_append data c : let len := Z.of_nat (length data) in c <> [] -> len + Z.of_nat (length c) <= 1024 * (len / 1024 + 1) ->
  nblk (data ++ c) = len / 1024 + 1 /\ need (data ++ c) = need data + grow_for len.
Proof.
  intros len Hc Hl. assert (Hc1 : 1 <= Z.of_nat (length c)) by (destruct c; [done|cbn; lia]). assert (Hl0 : 0 <= len) by (unfold len; lia).
  assert (E : nblk (data ++ c) = len / 1024 + 1) by (unfold nblk; rewrite length_app, Nat2Z.inj_add; fold len; zlia). split; [done|]. unfold need. rewrite E. unfold grow_for, nblk. fold len.
  destruct (Z.eqb_spec (len mod 1024) 0) as [Hm|Hm].
  - replace ((len + 1023) / 1024) with (len / 1024) by zlia. destruct (Z.eqb_spec (len / 1024) 12), (Z.ltb_spec 12 (len / 1024 + 1)), (Z.ltb_spec 12 (len / 1024)); lia.
  - replace ((len + 1023) / 1024) with (len / 1024 + 1) by zlia. lia.
Qed.

Lemma need_mono d d' : (length d <= length d')%nat -> need d <= need d'.
Proof.
  intros Hl. unfold need, nblk. assert (H : (Z.of_nat (length d) + 1023) / 1024 <= (Z.of_nat (length d') + 1023) / 1024) by (apply Z.div_le_mono; lia).
  destruct (Z.ltb_spec 12 ((Z.of_nat (length d) + 1023) / 1024)), (Z.ltb_spec 12 ((Z.of_nat (length d') + 1023) / 1024)); lia.
Qed.

(** One round: the block is there and takes the bytes [c]. *)
Lemma core_write st addrs fs i a data st' a' c : core st addrs fs -> addrs !! i = Some a -> fs !! i = Some data -> let len := Z.of_nat (length data) in let n := len / 1024 in
  ready st addrs i data n (grow_for len) st' a' -> c <> [] -> Forall byte_ok c -> len + Z.of_nat (length c) <= 1024 * (n + 1) -> n < 268 ->
  let x := saddr (blk st') a' n in
  rsect st' x = Some (blk st' x) /\ core (wsect st' x (splice (blk st' x) (len - n * 1024) c)) (<[i := a']> addrs) (<[i := data ++ c]> fs) /\ 47 <= x.
Proof.
  intros C Ha Hd len n R Hc Hby Hl Hn x. pose proof (rd_lay _ _ _ _ _ _ _ _ R) as L. pose proof (rd_disk _ _ _ _ _ _ _ _ R) as D. destruct (rd_file _ _ _ _ _ _ _ _ R) as [F I].
  pose proof (lookup_lt_Some _ _ _ Ha) as Hlt. pose proof (lookup_lt_Some _ _ _ Hd) as Hltd. assert (Ha' : <[i := a']> addrs !! i = Some a') by (by rewrite list_lookup_insert_eq).
  assert (Hl0 : 0 <= len /\ 0 <= n /\ 1024 * n <= len < 1024 * (n + 1)) by (unfold n, len; zlia).
  assert (Hnz : x <> 0) by (apply F; lia). pose proof (lo_range _ _ _ L i a' n Ha' ltac:(lia) Hnz) as Hr. fold x in Hr. pose proof (lo_fb _ _ _ L) as Hfb.
  destruct (rsect_ok st' x D) as [Hrs Hbl]; [lia|]. split; [done|]. split; [|lia]. set (d := splice _ _ _). destruct (need_append data c Hc Hl) as [En Eneed].
  assert (E : forall y, blk (wsect st' x d) y = bset (blk st') x d y) by (intros; apply blk_wsect). split.
  - apply wsect_ok; [done|lia|]. destruct Hbl as [Hb1 Hb2]. split; [unfold d; rewrite length_splice by lia; done|by apply splice_bytes].
  - apply (layout_ext _ _ _ _ E). apply layout_write with (i := i); try done. lia.
  - rewrite !length_insert. apply C.
  - intros j b e Hj He. apply insert_cases in Hj as [(->&->&_)|[Hji Hj]].
    + rewrite list_lookup_insert_eq in He by done. injection He as <-. rewrite En. apply (good_ext _ _ _ _ _ E). split.
      * apply (file_write (blk st') (freeblock st') (<[i := a']> addrs) i a' data (n + 1) n c); try done; lia.
      * unfold ind_at. unfold x. rewrite (saddr_write _ _ _ i a' n d i a' 268 L Ha') by (try done; lia). exact I.
    + rewrite list_lookup_insert_ne in He by done. apply (good_ext _ _ _ _ _ E). apply (good_other _ (freeblock st') (<[i := a']> addrs) i a' n d j); try done; [lia|by rewrite list_lookup_insert_ne|].
      apply (rd_other _ _ _ _ _ _ _ _ R j b e (nblk e)); [done|done|]. by apply (co_file _ _ _ C j).
  - cbn. rewrite (rd_fb _ _ _ _ _ _ _ _ R), (co_fb _ _ _ C), (total_insert fs i data (data ++ c) Hd), Eneed. fold len. lia.
Qed.

Lemma iappend_loop_ok fuel : forall p st addrs fs i a data din, core st addrs fs -> addrs !! i = Some a -> fs !! i = Some data -> di_addrs din = a ->
  Forall byte_ok p -> (length p <= fuel)%nat -> Z.of_nat (length data) + Z.of_nat (length p) <= 268 * 1024 -> 47 + total (<[i := data ++ p]> fs) <= 2000 ->
  exists st' a', iappend_loop fuel st din (Z.of_nat (length data)) p = Some (st', with_addrs din a', Z.of_nat (length (data ++ p))) /\
    core st' (<[i := a']> addrs) (<[i := data ++ p]> fs) /\ (forall b, b < 47 -> blk st' b = blk st b) /\ freeinode st' = freeinode st.
Proof.
  induction fuel as [|fuel IH]; intros p st addrs fs i a data din C Ha Hd Hdin Hby Hf Hlen Htot.
  all: assert (Hnil : p = [] -> exists st' a', Some (st, din, Z.of_nat (length data)) = Some (st', with_addrs din a', Z.of_nat (length (data ++ p))) /\
    core st' (<[i := a']> addrs) (<[i := data ++ p]> fs) /\ (forall b, b < 47 -> blk st' b = blk st b) /\ freeinode st' = freeinode st)
    by (intros ->; exists st, a; rewrite app_nil_r, !list_insert_id, <- Hdin, with_addrs_id by congruence; done).
  { destruct p; [by apply Hnil|cbn in Hf; lia]. }
  destruct p as [|b0 p0] eqn:Ep; [by apply Hnil|]. rewrite <- Ep in *. clear Hnil. assert (Hne : p <> []) by (by rewrite Ep). cbn [iappend_loop].
  assert (Hp1 : 1 <= Z.of_nat (length p)) by (rewrite Ep; cbn; lia). set (len := Z.of_nat (length data)) in *. set (n := len / 1024).
  assert (Hl0 : 0 <= len /\ 0 <= n /\ 1024 * n <= len < 1024 * (n + 1)) by (unfold n, len; zlia). rewrite (proj2 (Z.ltb_lt n MAXFILE)) by lia.
  set (n1 := mkfs_min (Z.of_nat (length p)) ((n + 1) * 1024 - len)).
  assert (Hn1 : 1 <= n1 <= Z.of_nat (length p) /\ len + n1 <= 1024 * (n + 1)) by (unfold n1, mkfs_min; destruct (Z.ltb_spec (Z.of_nat (length p)) ((n + 1) * 1024 - len)); lia).
  set (c := take (Z.to_nat n1) p). assert (Hlc : Z.of_nat (length c) = n1) by (unfold c; rewrite length_take; lia).
  assert (Hc : c <> []) by (intros E; rewrite E in Hlc; cbn in Hlc; lia). destruct (need_append data c Hc) as [_ Eneed]; [fold len; rewrite Hlc; lia|]. fold len in Eneed.
  assert (Hneed : need (data ++ c) <= need (data ++ p)) by (apply need_mono; rewrite !length_app; unfold c; rewrite length_take; lia).
  pose proof (total_insert fs i data (data ++ p) Hd) as Et. pose proof (co_fb _ _ _ C) as Efb.
  destruct (iappend_block_ok st addrs fs i a data din C Ha Hd Hdin) as (a'&st1&E&R); [fold len; lia|fold len; lia|]. fold len in E, R. fold n in E, R. rewrite Ep, E, <- Ep. fold n1.
  destruct (core_write st addrs fs i a data st1 a' c C Ha Hd R Hc) as (Ers&C1&Hx); [by apply Forall_take|fold len n; lia|fold len n; lia|]. fold len n in Ers, C1, Hx. rewrite Ers.
  pose proof (lookup_lt_Some _ _ _ Ha) as Hlt. pose proof (lookup_lt_Some _ _ _ Hd) as Hltd.
  destruct (IH (drop (Z.to_nat n1) p) _ _ _ i a' (data ++ c) (with_addrs din a') C1) as (st2&a2&E2&C2&Hlow&Hfi); try done.
  - by rewrite list_lookup_insert_eq.
  - by rewrite list_lookup_insert_eq.
  - by apply Forall_drop.
  - rewrite length_drop. lia.
  - rewrite length_app, length_drop. fold len. lia.
  - rewrite list_insert_insert_eq, <- app_assoc. unfold c. by rewrite take_drop.
  - assert (El : Z.of_nat (length (data ++ c)) = len + n1) by (rewrite length_app; unfold len; lia). rewrite El in E2. exists st2, a2. rewrite E2.
    rewrite !list_insert_insert_eq in C2. rewrite <- !app_assoc in C2 |- *. unfold c in *. rewrite take_drop in *. split; [done|]. split; [done|]. split.
    + intros b Hb. rewrite Hlow, blk_wsect, bset_ne by lia. by apply R.
    + rewrite Hfi. apply R.
Qed.

(** ** Inodes *)

Lemma IBLOCK_small inum : 0 <= inum < 208 -> IBLOCK inum mkfs_sb = inum / 16 + 33 /\ 33 <= IBLOCK inum mkfs_sb < 46.
Proof. intros Hi. unfold IBLOCK. change (sb_inodestart mkfs_sb) with 33. rewrite u32_small by zlia. split; [done|zlia]. Qed.

Lemma get_put_other inum inum' d data : length (di_addrs d) = 13%nat -> length data = 1024%nat -> inum mod 16 <> inum' mod 16 ->
  get_dinode (put_dinode inum d data) inum' = get_dinode data inum'.
Proof.
  intros Hl Hd Hne. pose proof (length_dinode_bytes d Hl) as H64. unfold get_dinode, put_dinode, dip_off.
  pose proof (Z.mod_pos_bound inum 16 ltac:(lia)). pose proof (Z.mod_pos_bound inum' 16 ltac:(lia)).
  assert (G : forall n x, 0 <= x -> x + Z.of_nat n <= 64 -> lget n (splice data (64 * (inum mod 16)) (dinode_bytes d)) (64 * (inum' mod 16) + x) = lget n data (64 * (inum' mod 16) + x))
    by (intros n x Hx Hn; apply lget_other; lia).
  pose proof (G 2%nat 0 ltac:(lia) ltac:(lia)) as G0. rewrite Z.add_0_r in G0. rewrite G0, !G by lia. f_equal. apply list_fmap_ext. intros k x Hk.
  apply lookup_seq in Hk as [-> Hk]. replace (64 * (inum' mod 16) + 12 + 4 * Z.of_nat (0 + k)) with (64 * (inum' mod 16) + (12 + 4 * Z.of_nat k)) by lia. apply G; lia.
Qed.

Lemma same_slot inum inum' : IBLOCK inum mkfs_sb = IBLOCK inum' mkfs_sb -> 0 <= inum < 208 -> 0 <= inum' < 208 -> inum mod 16 = inum' mod 16 -> inum = inum'.
Proof. intros E H1 H2 Hm. rewrite (proj1 (IBLOCK_small inum H1)), (proj1 (IBLOCK_small inum' H2)) in E. zlia. Qed.

Definition dnode (st : mk) (inum : Z) : dinode := get_dinode (blk st (IBLOCK inum mkfs_sb)) inum.

Lemma rinode_ok st inum : disk_ok st -> 0 <= inum < 208 -> rinode st inum = Some (dnode st inum).
Proof. intros D Hi. unfold rinode. destruct (IBLOCK_small inum Hi). destruct (rsect_ok st (IBLOCK inum mkfs_sb) D) as [-> _]; [lia|done]. Qed.

Lemma winode_ok st inum d : disk_ok st -> 0 <= inum < 208 -> dinode_fits d -> exists st', winode st inum d = Some st' /\ disk_ok st' /\
  dnode st' inum = d /\ (forall j, 0 <= j < 208 -> j <> inum -> dnode st' j = dnode st j) /\ (forall b, b < 33 \/ 46 <= b -> blk st' b = blk st b) /\
  freeinode st' = freeinode st /\ freeblock st' = freeblock st.
Proof.
  intros D Hi Hd. destruct (IBLOCK_small inum Hi) as [_ Hb]. destruct (rsect_ok st (IBLOCK inum mkfs_sb) D) as [Er Hbl]; [lia|].
  unfold winode. rewrite Er. eexists. split; [done|]. pose proof Hd as (_&_&Hl&_). split; [apply wsect_ok; [done|lia|by apply put_dinode_ok]|].
  split; [unfold dnode; rewrite blk_wsect, bset_eq; apply get_put_dinode; [done|apply Hbl]|]. split; [|split; [|done]].
  - intros j Hj Hne. unfold dnode. rewrite blk_wsect. destruct (decide (IBLOCK j mkfs_sb = IBLOCK inum mkfs_sb)) as [E|Hd']; [|by rewrite bset_ne].
    rewrite E, bset_eq. apply get_put_other; [done|apply Hbl|]. intros Em. apply Hne. by apply same_slot.
  - intros b Hb'. rewrite blk_wsect. apply bset_ne. lia.
Qed.

(** [core] is about the blocks from 47 on. *)
Lemma saddr_high B B' fb addrs i a n : layout B fb addrs -> addrs !! i = Some a -> (forall b, 47 <= b -> B' b = B b) -> saddr B' a n = saddr B a n.
Proof.
  intros L Ha E. unfold saddr. destruct (n <? 12); [done|]. destruct (n =? 268); [done|]. destruct (Z.eqb_spec (nthd 0 a 12) 0) as [?|Hne]; [done|].
  rewrite E; [done|]. apply (lo_range _ _ _ L i a 268 Ha); [lia|exact Hne].
Qed.

Lemma core_high st st' addrs fs : core st addrs fs -> disk_ok st' -> (forall b, 47 <= b -> blk st' b = blk st b) -> freeblock st' = freeblock st -> core st' addrs fs.
Proof.
  intros C D E Efb. pose proof (co_lay _ _ _ C) as L. assert (Hs : forall i a n, addrs !! i = Some a -> saddr (blk st') a n = saddr (blk st) a n) by (intros; by eapply saddr_high).
  split; [done| |apply C| |rewrite Efb; apply C].
  - rewrite Efb. split; [apply L|apply L| | |].
    + intros i a n Ha. rewrite (Hs i) by done. by apply (lo_range _ _ _ L i).
    + intros i j a a' n m Ha Ha'. rewrite (Hs i), (Hs j) by done. by apply (lo_inj _ _ _ L i j).
    + intros b Hb. pose proof (lo_fb _ _ _ L). rewrite E by lia. by apply L.
  - intros i a data Ha Hd. destruct (co_file _ _ _ C i a data Ha Hd) as [F I]. split.
    + apply (file_at_same (blk st)); [done|intros; by apply (Hs i)|]. intros n Hn. apply E. pose proof (fa_nb _ _ _ _ F). apply (lo_range _ _ _ L i a n Ha); [lia|]. apply F; lia.
    + unfold ind_at. by rewrite (Hs i).
Qed.

(** The image with the inodes [ds] on it, inode 1 first, whose files are [fs]. *)
Record image (st : mk) (ds : list dinode) (fs : list (list Z)) : Prop := {
  im_core : core st (di_addrs <$> ds) fs;
  im_sync : forall i d, ds !! i = Some d -> dnode st (Z.of_nat i + 1) = d;
  im_count : freeinode st = Z.of_nat (length ds) + 1 /\ (length ds <= 199)%nat;
  im_size : forall i d data, ds !! i = Some d -> fs !! i = Some data -> di_size d = Z.of_nat (length data);
  im_kind : forall i d, ds !! i = Some d -> di_type d = (if decide (i = 0)%nat then 1 else 2) /\ di_major d = 0 /\ di_minor d = 0 /\ di_nlink d = 1;
  im_super : get_superblock (blk st 1) = mkfs_sb }.

Lemma saddr_low B a n : 0 <= n < 12 -> saddr B a n = nthd 0 a n.
Proof. intros Hn. unfold saddr. by rewrite (proj2 (Z.ltb_lt n 12)) by lia. Qed.

Lemma layout_addr B fb addrs i a : layout B fb addrs -> addrs !! i = Some a -> Forall (fun x => 0 <= x < 2 ^ 32) a.
Proof.
  intros L Ha. pose proof (lo_len _ _ _ L i a Ha) as Hl. pose proof (lo_fb _ _ _ L). apply Forall_lookup. intros n x Hx. pose proof (lookup_lt_Some _ _ _ Hx).
  assert (E : nthd 0 a (Z.of_nat n) = x) by (unfold nthd; rewrite (proj2 (Z.ltb_ge _ 0)), Nat2Z.id, Hx by lia; done).
  destruct (decide (n = 12)%nat) as [->|Hne].
  - destruct (decide (x = 0)) as [->|Hnz]; [done|]. pose proof (lo_range _ _ _ L i a 268 Ha ltac:(lia)) as Hr. change (saddr B a 268) with (nthd 0 a 12) in Hr.
    change (Z.of_nat 12) with 12 in E. rewrite E in Hr. specialize (Hr Hnz). lia.
  - destruct (decide (x = 0)) as [->|Hnz]; [done|]. pose proof (lo_range _ _ _ L i a (Z.of_nat n) Ha ltac:(lia)) as Hr. rewrite saddr_low, E in Hr by lia. specialize (Hr Hnz). lia.
Qed.

Lemma dinode_fits_kind d ty len a : di_type d = ty -> di_major d = 0 -> di_minor d = 0 -> di_nlink d = 1 -> 0 <= ty <= 3 -> 0 <= len < 2 ^ 32 -> length a = 13%nat ->
  Forall (fun x => 0 <= x < 2 ^ 32) a -> dinode_fits (with_size (with_addrs d a) len).
Proof.
  intros H1 H2 H3 H4 Hty Hlen Hl Ha. unfold dinode_fits, with_size, with_addrs. cbn [di_type di_major di_minor di_nlink di_size di_addrs]. split; [|done].
  intros x [->|[->|[->| ->]]]; lia.
Qed.

Definition fits (fs : list (list Z)) : Prop := 47 + total fs <= 2000.

(** [iappend] appends. *)
Lemma iappend_ok st ds fs i data p : image st ds fs -> fs !! i = Some data -> Forall byte_ok p -> Z.of_nat (length data) + Z.of_nat (length p) <= 268 * 1024 ->
  fits (<[i := data ++ p]> fs) -> exists st' d', iappend st (Z.of_nat i + 1) p = Some st' /\ image st' (<[i := d']> ds) (<[i := data ++ p]> fs).
Proof.
  intros M Hd Hby Hlen Hfit. pose proof (im_core _ _ _ M) as C. pose proof (co_len _ _ _ C) as Hl. rewrite length_fmap in Hl. destruct (im_count _ _ _ M) as [Hfi Hcnt].
  pose proof (lookup_lt_Some _ _ _ Hd) as Hlt. destruct (lookup_lt_is_Some_2 ds i ltac:(lia)) as [d Hds]. pose proof (im_sync _ _ _ M i d Hds) as Hsync.
  assert (Ha : (di_addrs <$> ds) !! i = Some (di_addrs d)) by (by rewrite list_lookup_fmap, Hds). pose proof (im_size _ _ _ M i d data Hds Hd) as Hsz.
  unfold iappend. rewrite (rinode_ok st (Z.of_nat i + 1) (co_disk _ _ _ C)), Hsync by lia. rewrite Hsz, xint_small by lia.
  destruct (iappend_loop_ok (length p) p st _ fs i _ data d C Ha Hd eq_refl Hby ltac:(lia) Hlen Hfit) as (st1&a'&E&C1&Hlow&Hfi1). rewrite E.
  assert (Ha1 : <[i := a']> (di_addrs <$> ds) !! i = Some a') by (rewrite list_lookup_insert_eq; [done|rewrite length_fmap; lia]).
  assert (Hlen2 : Z.of_nat (length (data ++ p)) <= 268 * 1024) by (rewrite length_app; lia). rewrite xint_small by lia.
  destruct (im_kind _ _ _ M i d Hds) as (Hk1&Hk2&Hk3&Hk4). set (d' := with_size (with_addrs d a') _).
  assert (Hfits : dinode_fits d').
  { apply (dinode_fits_kind d (di_type d)); try done; [rewrite Hk1; destruct (decide (i = 0)%nat); lia|lia|by apply (lo_len _ _ _ (co_lay _ _ _ C1) i)|by apply (layout_addr _ _ _ i _ (co_lay _ _ _ C1))]. }
  destruct (winode_ok st1 (Z.of_nat i + 1) d' (co_disk _ _ _ C1) ltac:(lia) Hfits) as (st2&E2&D2&Hnew&Hold&Hlow2&Hfi2&Hfb2). exists st2, d'. split; [exact E2|].
  assert (Hdn : forall j, 0 <= j < 208 -> dnode st1 j = dnode st j) by (intros j Hj; unfold dnode; destruct (IBLOCK_small j Hj); by rewrite Hlow by lia).
  split.
  - rewrite list_fmap_insert. apply (core_high st1); [exact C1|done|intros b Hb; apply Hlow2; lia|done].
  - intros j e Hj. apply insert_cases in Hj as [(->&->&_)|[Hji Hj]]; [done|]. pose proof (lookup_lt_Some _ _ _ Hj). rewrite Hold, Hdn by lia. by apply M.
  - rewrite length_insert, Hfi2, Hfi1. done.
  - intros j e x Hj Hx. apply insert_cases in Hj as [(->&->&_)|[Hji Hj]]; [rewrite list_lookup_insert_eq in Hx by done; by injection Hx as <-|].
    rewrite list_lookup_insert_ne in Hx by done. by apply (im_size _ _ _ M j).
  - intros j e Hj. apply insert_cases in Hj as [(->&->&_)|[Hji Hj]]; [done|]. by apply (im_kind _ _ _ M).
  - rewrite Hlow2, Hlow by lia. apply M.
Qed.

Lemma saddr_zeros B n : saddr B (replicate 13 0) n = 0.
Proof.
  assert (E : forall k, nthd 0 (replicate 13 0) k = 0).
  { intros k. unfold nthd. destruct (k <? 0); [done|]. destruct (decide (Z.to_nat k < 13)%nat); [by rewrite lookup_replicate_2|by rewrite lookup_ge_None_2 by (rewrite length_replicate; lia)]. }
  unfold saddr. rewrite !E. by destruct (n <? 12), (n =? 268).
Qed.

Lemma snoc_cases {A} (l : list A) x i y : (l ++ [x]) !! i = Some y -> l !! i = Some y \/ (i = length l /\ y = x).
Proof. intros H. apply lookup_app_Some in H as [?|[H1 H2]]; [by left|]. apply list_lookup_singleton_Some in H2 as [H2 <-]. right. split; [lia|done]. Qed.

Lemma total_snoc fs : total (fs ++ [[]]) = total fs.
Proof. induction fs as [|d fs IH]; [done|]. cbn [app]. by rewrite !total_cons, IH. Qed.

Lemma core_new st addrs fs : core st addrs fs -> core st (addrs ++ [replicate 13 0]) (fs ++ [[]]).
Proof.
  intros C. pose proof (co_lay _ _ _ C) as L. pose proof (co_len _ _ _ C) as Hl. split; [apply C| |rewrite !length_app; cbn; lia| |rewrite total_snoc; apply C].
  - split; [|apply L| | |apply L].
    + intros i a Ha. apply snoc_cases in Ha as [Ha|[_ ->]]; [by apply (lo_len _ _ _ L i)|by rewrite length_replicate].
    + intros i a n Ha Hn Hne. apply snoc_cases in Ha as [Ha|[_ ->]]; [by apply (lo_range _ _ _ L i)|by rewrite saddr_zeros in Hne].
    + intros i j a a' n m Ha Ha' Hn Hm Hne E. apply snoc_cases in Ha as [Ha|[_ ->]]; [|by rewrite saddr_zeros in Hne].
      apply snoc_cases in Ha' as [Ha'|[_ ->]]; [by apply (lo_inj _ _ _ L i j a a')|rewrite saddr_zeros in E; done].
  - intros i a data Ha Hd. apply snoc_cases in Ha as [Ha|[-> ->]]; apply snoc_cases in Hd as [Hd|[Hi Hd]].
    + by apply (co_file _ _ _ C i).
    + apply lookup_lt_Some in Ha. lia.
    + apply lookup_lt_Some in Hd. lia.
    + subst data. change (nblk []) with 0. split.
      * split; [lia| |cbn; lia|intros; lia]. intros n Hn. rewrite saddr_zeros. lia.
      * unfold ind_at. rewrite saddr_zeros. lia.
Qed.

Lemma ialloc_ok st ds fs ty : image st ds fs -> (length ds < 199)%nat -> ty = (if decide (length ds = 0)%nat then 1 else 2) ->
  exists st' d', mkfs_ialloc st ty = Some (Z.of_nat (length ds) + 1, st') /\ image st' (ds ++ [d']) (fs ++ [[]]).
Proof.
  intros M Hcnt Hty. pose proof (im_core _ _ _ M) as C. destruct (im_count _ _ _ M) as [Hfi _]. pose proof (co_len _ _ _ C) as Hl. rewrite length_fmap in Hl.
  unfold mkfs_ialloc. rewrite Hfi, u32_small by lia. set (st0 := mkmk _ _ _). set (d' := mkdinode _ _ _ _ _ _).
  assert (Hty2 : 0 <= ty <= 3) by (subst ty; destruct (decide (length ds = 0)%nat); lia). assert (Et : xshort ty = ty) by (apply xshort_small; lia).
  assert (Hfits : dinode_fits d').
  { apply (dinode_fits_kind d' ty 0 (replicate 13 0)); try done. apply Forall_replicate. lia. }
  destruct (winode_ok st0 (Z.of_nat (length ds) + 1) d') as (st2&E2&D2&Hnew&Hold&Hlow2&Hfi2&Hfb2); [split; apply C|lia|done|]. rewrite E2.
  exists st2, d'. split; [done|]. split.
  - rewrite fmap_app. apply core_new. apply (core_high st); [done|done|intros b Hb; apply Hlow2; lia|done].
  - intros j e Hj. apply snoc_cases in Hj as [Hj|[-> ->]]; [|done]. pose proof (lookup_lt_Some _ _ _ Hj). rewrite Hold by lia. by apply (im_sync _ _ _ M).
  - rewrite length_app, Hfi2. cbn. lia.
  - intros j e x Hj Hx. apply snoc_cases in Hj as [Hj|[-> ->]]; apply snoc_cases in Hx as [Hx|[Hi Hx]]; [by apply (im_size _ _ _ M j)| | |by subst x].
    + apply lookup_lt_Some in Hj. lia.
    + apply lookup_lt_Some in Hx. lia.
  - intros j e Hj. apply snoc_cases in Hj as [Hj|[-> ->]]; [by apply (im_kind _ _ _ M)|]. split; [exact (eq_trans Et Hty)|done].
  - rewrite Hlow2 by lia. apply M.
Qed.

(** ** The image before the first file *)

Lemma zero_image_ok n i st : 0 <= i -> (forall b, b < i -> img st !! b = if decide (0 <= b) then Some zeroes else None) -> (forall b, i <= b -> img st !! b = None) ->
  let st' := zero_image n i st in
  (forall b, img st' !! b = if decide (0 <= b < i + Z.of_nat n) then Some zeroes else None) /\ freeinode st' = freeinode st /\ freeblock st' = freeblock st.
Proof.
  revert i st. induction n as [|n IH]; intros i st Hi Hlo Hhi; cbn [zero_image].
  - split; [|done]. intros b. destruct (decide (b < i)).
    + rewrite Hlo by done. repeat case_decide; try done; lia.
    + rewrite Hhi by lia. rewrite decide_False by lia. done.
  - destruct (IH (i + 1) (wsect st i zeroes)) as (H1&H2&H3); [lia| | |].
    + intros b Hb. cbn. destruct (decide (b = i)) as [->|]; [rewrite lookup_insert_eq, decide_True by lia; done|]. rewrite lookup_insert_ne by done. apply Hlo. lia.
    + intros b Hb. cbn. rewrite lookup_insert_ne by lia. apply Hhi. lia.
    + split; [|done]. intros b. rewrite H1. apply decide_ext. lia.
Qed.

Definition super_block : list Z := splice zeroes 0 (superblock_bytes mkfs_sb).

Lemma super_block_ok : block_ok super_block /\ get_superblock super_block = mkfs_sb.
Proof.
  split; [|by vm_compute]. split; [by vm_compute|]. apply splice_bytes; [apply zeros_ok|]. repeat apply Forall_app_2; apply le_bytes_ok.
Qed.

Lemma zeroed_image st : (forall b, img st !! b = if decide (0 <= b < 2000) then Some zeroes else None) -> freeinode st = 1 -> freeblock st = nmeta ->
  image (wsect st 1 super_block) [] [].
Proof.
  intros H1 H2 H3. destruct super_block_ok as [Hok Hget].
  assert (D : disk_ok st) by (split; [intros b Hb; rewrite H1, decide_True by lia; exists zeroes; split; [done|apply zeros_ok]|intros b d; rewrite H1; by case_decide]).
  split; [| |cbn; split; [by rewrite H2|lia]| | |].
  - split; [apply wsect_ok; [done|lia|done]| |done|intros i a data Ha; by rewrite fmap_nil, lookup_nil in Ha|cbn; by rewrite H3].
    cbn [freeblock wsect]. rewrite H3. change nmeta with 47. split; [intros i a Ha|lia|intros i a n Ha|intros i j a a' n m Ha|]; [by rewrite fmap_nil, lookup_nil in Ha..|].
    intros b Hb. rewrite blk_wsect, bset_ne by lia. unfold blk. by rewrite H1, decide_True by lia.
  - intros i d Hd. by rewrite lookup_nil in Hd.
  - intros i d data Hd. by rewrite lookup_nil in Hd.
  - intros i d Hd. by rewrite lookup_nil in Hd.
  - by rewrite blk_wsect, bset_eq.
Qed.

Lemma init_image : image mkfs_init [] [].
Proof.
  unfold mkfs_init. destruct (zero_image_ok (Z.to_nat FSSIZE) 0 (mkmk ∅ 1 nmeta)) as (H1&H2&H3);
    [lia|intros b Hb; rewrite decide_False by lia; apply lookup_empty|intros; apply lookup_empty|].
  rewrite Z2Nat.id in H1 by done. change (0 + FSSIZE) with 2000 in H1. revert H1 H2 H3. generalize (zero_image (Z.to_nat FSSIZE) 0 (mkmk ∅ 1 nmeta)).
  intros st H1 H2 H3. by apply zeroed_image.
Qed.
