(* ===== verification/MkfsMain.v ===== *)
(** * What the kernel finds in the image that [mkfs] makes

    The files of the command line, put on the image one after the other, and the
    finished image in the terms of the kernel's file system (FsBlocks.v,
    FsFile.v, FsDir.v). *)

From stdpp Require Import base numbers strings gmap list.
From Stdlib Require Import ZArith Lia.
From S2P Require Import Prelude CString Fields Kernel Printf Fs FsView FsBlocks FsFile FsDir Mkfs MkfsImage.

#[local] Open Scope Z_scope.

(** ** The files *)

Definition hostfile : Type := list Z * option (list (list Z)).

Definition fname (f : hostfile) : list Z := default [] (shortname (fst f)).
Definition fdata (f : hostfile) : list Z := List.concat (default [] (snd f)).

Definition name_ok (name : list Z) : Prop := (length name <= 14)%nat /\ Forall (fun c => 0 < c < 256) name.

(** A file that [mkfs] can put on the image. *)
Record file_ok (f : hostfile) : Prop := {
  fo_name : exists name, shortname (fst f) = Some name /\ name_ok name;
  fo_open : exists chunks, snd f = Some chunks;
  fo_bytes : Forall byte_ok (fdata f);
  fo_size : Z.of_nat (length (fdata f)) <= 268 * 1024 }.

(** The entries of the root directory, its contents, and those of all the files. *)
Definition entries (files : list hostfile) : list (Z * list Z) :=
  (1, str ".") :: (1, str "..") :: imap (fun k f => (Z.of_nat k + 2, fname f)) files.
Definition root_dir (files : list hostfile) : list Z := List.concat ((fun e => dirent (fst e) (snd e)) <$> entries files).
Definition contents (files : list hostfile) : list (list Z) := root_dir files :: (fdata <$> files).

(** ** Directory entries *)

Lemma dname_short name : name_ok name -> dname name = name.
Proof.
  intros [Hl Hn]. unfold dname, cstr. assert (E : forall n s t i, (forall x, i <= x -> s x = t x) -> cstr_from n s i = cstr_from n t i).
  { intros n s t. induction n as [|n IH]; intros i Hx; [done|]. cbn [cstr_from]. rewrite (Hx i), (IH (i + 1)) by (intros; try apply Hx; lia). done. }
  rewrite (E _ _ (nthd 0 ([] ++ name ++ replicate 1 0))).
  - apply (cstr_from_list 14 []); [|done|right; by exists []]. eapply Forall_impl; [exact Hn|]. cbn. lia.
  - intros x Hx. cbn [app]. rewrite nthd_app by done. destruct (Z.ltb_spec x (Z.of_nat (length name))); [done|]. rewrite (nthd_beyond name) by lia.
    destruct (Z.eqb_spec (x - Z.of_nat (length name)) 0) as [->|]; [done|]. by rewrite nthd_beyond by (cbn; lia).
Qed.

Lemma dirent_kernel inum name : name_ok name -> 0 <= inum < 2 ^ 16 -> dirent inum name = dirent_bytes name inum.
Proof.
  intros Hn Hi. unfold dirent, dirent_bytes. rewrite xshort_small by done. f_equal. rewrite strncpy_spec by (rewrite length_replicate; lia).
  change (cstr (Z.to_nat DIRSIZ) (nthd 0 name)) with (dname name). rewrite (dname_short name Hn), drop_replicate. by rewrite app_nil_r.
Qed.

Lemma fname_ok f : file_ok f -> name_ok (fname f).
Proof. intros [(n&E&H) _ _ _]. unfold fname. by rewrite E. Qed.

Lemma dot_ok : name_ok (str ".") /\ name_ok (str "..").
Proof. split; (split; [cbn; lia|]); repeat constructor; cbn; lia. Qed.

Lemma dirent_len inum name : name_ok name -> length (dirent inum name) = 16%nat.
Proof. intros [Hl _]. unfold dirent. rewrite !length_app, length_le_bytes, length_replicate. lia. Qed.

Lemma dirent_all inum name : name_ok name -> Forall byte_ok (dirent inum name).
Proof.
  intros [_ Hn]. unfold dirent. repeat apply Forall_app_2; [apply le_bytes_ok| |apply zeros_bytes]. eapply Forall_impl; [exact Hn|]. unfold byte_ok. lia.
Qed.

Lemma root_dir_snoc files f : root_dir (files ++ [f]) = root_dir files ++ dirent (Z.of_nat (length files) + 2) (fname f).
Proof.
  unfold root_dir, entries. rewrite imap_app, !fmap_cons, fmap_app. cbn [List.concat]. rewrite List.concat_app, <- !app_assoc. do 3 f_equal.
  cbn [imap fmap list_fmap List.concat compose fst snd]. by rewrite Nat.add_0_r, app_nil_r.
Qed.

Lemma root_dir_len files : Forall file_ok files -> length (root_dir files) = (32 + 16 * length files)%nat.
Proof.
  induction files as [|f files IH] using rev_ind; intros H.
  - unfold root_dir, entries. cbn [imap fmap list_fmap List.concat fst snd]. rewrite !length_app, !dirent_len by apply dot_ok. done.
  - apply Forall_app in H as [H1 H2]. rewrite root_dir_snoc, !length_app, IH, dirent_len; [cbn; lia| |done]. apply fname_ok. by inversion H2.
Qed.

(** ** Appending the files *)

Lemma need_nonneg d : 0 <= need d.
Proof. unfold need, nblk. assert (0 <= (Z.of_nat (length d) + 1023) / 1024) by (apply Z.div_pos; lia). destruct (12 <? _); lia. Qed.

Lemma total_app a b : total (a ++ b) = total a + total b.
Proof. induction a as [|d a IH]; [done|]. cbn [app]. rewrite !total_cons, IH. lia. Qed.

Lemma total_nonneg a : 0 <= total a.
Proof. induction a as [|d a IH]; [done|]. rewrite total_cons. pose proof (need_nonneg d). lia. Qed.

Lemma fits_insert fs i d d' d0 : fs !! i = Some d0 -> fits (<[i := d']> fs) -> (length d <= length d')%nat -> fits (<[i := d]> fs).
Proof. unfold fits. intros Hi. rewrite !(total_insert fs i d0) by done. intros H Hl. pose proof (need_mono d d' Hl). lia. Qed.

Lemma iappend_all_ok chunks : forall st ds fs i data, image st ds fs -> fs !! i = Some data -> Forall byte_ok (List.concat chunks) ->
  Z.of_nat (length data) + Z.of_nat (length (List.concat chunks)) <= 268 * 1024 -> fits (<[i := data ++ List.concat chunks]> fs) ->
  exists st' ds', iappend_all st (Z.of_nat i + 1) chunks = Some st' /\ image st' ds' (<[i := data ++ List.concat chunks]> fs).
Proof.
  induction chunks as [|c chunks IH]; intros st ds fs i data M Hd Hby Hlen Hfit; cbn [List.concat iappend_all] in *.
  - exists st, ds. split; [done|]. rewrite app_nil_r. by rewrite list_insert_id.
  - apply Forall_app in Hby as [Hb1 Hb2]. rewrite length_app in Hlen.
    destruct (iappend_ok st ds fs i data c M Hd Hb1 ltac:(lia)) as (st1&d1&E&M1); [eapply fits_insert; [done|exact Hfit|rewrite !length_app; lia]|]. rewrite E.
    assert (Hd1 : <[i := data ++ c]> fs !! i = Some (data ++ c)) by (apply list_lookup_insert_eq; by eapply lookup_lt_Some).
    destruct (IH st1 _ _ i (data ++ c) M1 Hd1 Hb2) as (st2&ds2&E2&M2); [rewrite length_app; lia|rewrite list_insert_insert_eq, <- app_assoc; exact Hfit|].
    exists st2, ds2. split; [done|]. by rewrite list_insert_insert_eq, <- app_assoc in M2.
Qed.

Lemma contents_snoc files f : contents (files ++ [f]) = (root_dir files ++ dirent (Z.of_nat (length files) + 2) (fname f)) :: (fdata <$> files) ++ [fdata f].
Proof. unfold contents. by rewrite root_dir_snoc, fmap_app. Qed.

Lemma contents_mono files more : Forall file_ok (files ++ more) -> total (contents files) <= total (contents (files ++ more)).
Proof.
  intros H. unfold contents. rewrite fmap_app, !total_cons, total_app. pose proof (total_nonneg (fdata <$> more)).
  assert (need (root_dir files) <= need (root_dir (files ++ more))); [|lia]. apply need_mono. pose proof H as [H1 _]%Forall_app. rewrite !root_dir_len by done. rewrite length_app. lia.
Qed.

Lemma mkfs_file_ok st ds files f : image st ds (contents files) -> Forall file_ok (files ++ [f]) -> (length files < 198)%nat -> fits (contents (files ++ [f])) ->
  exists st' ds', mkfs_file st f = Some st' /\ image st' ds' (contents (files ++ [f])).
Proof.
  intros M Hok Hcnt Hfit. pose proof Hok as [Hok1 Hok2]%Forall_app. assert (Hf : file_ok f) by (by inversion Hok2). pose proof (fname_ok f Hf) as Hn.
  destruct (fo_name _ Hf) as (name&En&_). destruct (fo_open _ Hf) as (chunks&Ec). pose proof (fo_bytes _ Hf) as Hby. pose proof (fo_size _ Hf) as Hsz.
  assert (Hname : fname f = name) by (unfold fname; by rewrite En). assert (Hdata : fdata f = List.concat chunks) by (unfold fdata; by rewrite Ec).
  pose proof (co_len _ _ _ (im_core _ _ _ M)) as Hl. rewrite length_fmap in Hl. cbn [contents length] in Hl. rewrite length_fmap in Hl.
  unfold mkfs_file. rewrite En, Ec. rewrite Hname in Hn. rewrite (proj2 (Z.leb_le _ _)) by (destruct Hn; cbn; lia).
  destruct (ialloc_ok st ds (contents files) 2 M ltac:(lia)) as (st1&d1&E1&M1); [by rewrite decide_False by lia|]. change T_FILE with 2. rewrite E1.
  set (inum := Z.of_nat (length ds) + 1) in *. assert (Hi : inum = Z.of_nat (length files) + 2) by lia.
  assert (Hfit1 : fits ((root_dir files ++ dirent inum name) :: (fdata <$> files) ++ [[]])).
  { unfold fits in *. rewrite contents_snoc, Hname, <- Hi, total_cons, total_app in Hfit. rewrite total_cons, total_snoc. pose proof (total_nonneg [fdata f]). lia. }
  destruct (iappend_ok st1 (ds ++ [d1]) (contents files ++ [[]]) 0 (root_dir files) (dirent inum name) M1) as (st2&d2&E2&M2);
    [done|by apply dirent_all|rewrite root_dir_len, dirent_len by done; lia|done|]. change (Z.of_nat 0 + 1) with ROOTINO in E2. rewrite E2. cbn [contents app insert list_insert] in M2.
  assert (Hlast : ((root_dir files ++ dirent inum name) :: (fdata <$> files) ++ [[]]) !! S (length files) = Some []) by (change (((fdata <$> files) ++ [[]]) !! length files = Some []); rewrite lookup_app_r; rewrite length_fmap; [by rewrite Nat.sub_diag|done]).
  assert (Eins : <[S (length files) := [] ++ List.concat chunks]> ((root_dir files ++ dirent inum name) :: (fdata <$> files) ++ [[]]) = contents (files ++ [f])).
  { rewrite contents_snoc, Hname, <- Hi, Hdata. change ((root_dir files ++ dirent inum name) :: <[length files := List.concat chunks]> ((fdata <$> files) ++ [[]]) = (root_dir files ++ dirent inum name) :: (fdata <$> files) ++ [List.concat chunks]). f_equal. rewrite insert_app_r_alt by (by rewrite length_fmap). by rewrite length_fmap, Nat.sub_diag. }
  destruct (iappend_all_ok chunks st2 _ _ (S (length files)) [] M2 Hlast) as (st3&ds3&E3&M3); [by rewrite <- Hdata|rewrite <- Hdata; cbn; lia|by rewrite Eins|].
  rewrite Eins in M3. exists st3, ds3. split; [|done]. rewrite <- E3. f_equal. lia.
Qed.

Lemma mkfs_files_ok more : forall st ds files, image st ds (contents files) -> Forall file_ok (files ++ more) -> (length (files ++ more) <= 198)%nat -> fits (contents (files ++ more)) ->
  exists st' ds', mkfs_files st more = Some st' /\ image st' ds' (contents (files ++ more)).
Proof.
  induction more as [|f more IH]; intros st ds files M Hok Hcnt Hfit; cbn [mkfs_files].
  - exists st, ds. by rewrite app_nil_r.
  - assert (Ea : files ++ f :: more = (files ++ [f]) ++ more) by (by rewrite <- app_assoc). rewrite Ea in *. pose proof Hok as [Hok1 _]%Forall_app.
    destruct (mkfs_file_ok st ds files f M Hok1) as (st1&ds1&E1&M1); [rewrite !length_app in Hcnt; cbn in Hcnt; lia|unfold fits in *; pose proof (contents_mono _ _ Hok); lia|].
    rewrite E1. by apply (IH st1 ds1).
Qed.

Lemma mkfs_root_ok : exists st ds, mkfs_root mkfs_init = Some st /\ image st ds (contents []).
Proof.
  unfold mkfs_root. destruct (ialloc_ok mkfs_init [] [] 1 init_image) as (st1&d1&E1&M1); [cbn; lia|done|]. change T_DIR with 1. rewrite E1.
  change (Z.of_nat (length (@nil dinode)) + 1) with 1. change (1 =? ROOTINO) with true. cbv iota. cbn [app] in M1.
  destruct (iappend_ok st1 _ _ 0 [] (dirent 1 (str ".")) M1) as (st2&d2&E2&M2); [done|apply dirent_all, dot_ok|rewrite dirent_len by apply dot_ok; cbn; lia|by vm_compute|].
  change (Z.of_nat 0 + 1) with 1 in E2. rewrite E2. cbn [app insert list_insert] in M2.
  destruct (iappend_ok st2 _ _ 0 (dirent 1 (str ".")) (dirent 1 (str "..")) M2) as (st3&d3&E3&M3); [done|apply dirent_all, dot_ok|rewrite !dirent_len by apply dot_ok; cbn; lia|by vm_compute|].
  change (Z.of_nat 0 + 1) with 1 in E3. rewrite E3. eexists _, _. split; [done|]. exact M3.
Qed.

(** ** The end of [main] *)

Lemma balloc_bits_ok n : forall i buf, block_ok buf -> 0 <= i -> i + Z.of_nat n <= 8192 -> block_ok (balloc_bits n i buf) /\
  forall b, 0 <= b < 8192 -> bit_get (balloc_bits n i buf) b = (i <=? b) && (b <? i + Z.of_nat n) || bit_get buf b.
Proof.
  induction n as [|n IH]; intros i buf Hok Hi Hn; cbn [balloc_bits].
  - split; [done|]. intros b Hb. destruct (Z.leb_spec i b), (Z.ltb_spec b (i + Z.of_nat 0)); try done; lia.
  - destruct (IH (i + 1) (bit_set i buf) (bit_set_ok i buf Hok) ltac:(lia) ltac:(lia)) as [H1 H2]. split; [done|]. intros b Hb. rewrite H2, bit_get_set by (done || lia).
    destruct (Z.leb_spec (i + 1) b), (Z.leb_spec i b), (Z.ltb_spec b (i + 1 + Z.of_nat n)), (Z.ltb_spec b (i + Z.of_nat (S n))), (decide (i = b)), (decide (b = i)); cbn; try done; lia.
Qed.

(** The finished image: the root directory's size is that of whole blocks. *)
Record finished (st : mk) (ds : list dinode) (files : list hostfile) : Prop := {
  fn_core : core st (di_addrs <$> ds) (contents files);
  fn_node : forall i d, ds !! i = Some d -> dnode st (Z.of_nat i + 1) = d /\ di_type d = (if decide (i = 0)%nat then 1 else 2) /\ di_nlink d = 1;
  fn_root : forall d, ds !! 0%nat = Some d -> di_size d = (Z.of_nat (length (root_dir files)) / 1024 + 1) * 1024;
  fn_size : forall k f d, files !! k = Some f -> ds !! S k = Some d -> di_size d = Z.of_nat (length (fdata f));
  fn_map : blk st 46 = balloc_bits (Z.to_nat (freeblock st)) 0 zeroes;
  fn_super : get_superblock (blk st 1) = mkfs_sb }.

Lemma balloc_ok st : disk_ok st -> 0 <= freeblock st <= 2000 -> exists st', mkfs_balloc st (freeblock st) = Some st' /\ disk_ok st' /\ freeblock st' = freeblock st /\
  blk st' 46 = balloc_bits (Z.to_nat (freeblock st)) 0 zeroes /\ (forall b, b <> 46 -> blk st' b = blk st b) /\ forall i, 0 <= i < 208 -> dnode st' i = dnode st i.
Proof.
  intros D Hf. unfold mkfs_balloc. rewrite (proj2 (Z.ltb_lt _ _)) by (change BPB with 8192; lia). eexists. split; [done|]. change (sb_bmapstart mkfs_sb) with 46.
  assert (Hb : forall b, b <> 46 -> blk (wsect st 46 (balloc_bits (Z.to_nat (freeblock st)) 0 zeroes)) b = blk st b) by (intros b Hb; by rewrite blk_wsect, bset_ne).
  split; [apply wsect_ok; [done|lia|apply balloc_bits_ok; [apply zeros_ok|lia|lia]]|]. split; [done|]. split; [by rewrite blk_wsect, bset_eq|]. split; [exact Hb|].
  intros i Hi. unfold dnode. destruct (IBLOCK_small i Hi). by rewrite Hb by lia.
Qed.

Lemma mkfs_end st ds files : image st ds (contents files) -> Forall file_ok files -> exists st1 st2 ds2,
  mkfs_fix_root st = Some st1 /\ mkfs_balloc st1 (freeblock st1) = Some st2 /\ finished st2 ds2 files.
Proof.
  intros M Hok. pose proof (im_core _ _ _ M) as C. pose proof (co_len _ _ _ C) as Hl. rewrite length_fmap in Hl. cbn [contents length] in Hl. rewrite length_fmap in Hl.
  destruct (im_count _ _ _ M) as [Hfi Hcnt]. destruct (lookup_lt_is_Some_2 ds 0 ltac:(lia)) as [d Hd]. pose proof (im_sync _ _ _ M 0 d Hd) as Hsync. change (Z.of_nat 0 + 1) with 1 in Hsync.
  pose proof (im_size _ _ _ M 0 d _ Hd eq_refl) as Hsz. pose proof (root_dir_len files Hok) as Hrl. destruct (im_kind _ _ _ M 0 d Hd) as (K1&K2&K3&K4). cbn in K1.
  assert (Hq : 0 <= Z.of_nat (length (root_dir files)) / 1024 <= 4) by (split; [apply Z.div_pos; lia|apply Z.div_le_upper_bound; lia]).
  unfold mkfs_fix_root. change ROOTINO with 1. rewrite (rinode_ok st 1 (co_disk _ _ _ C)), Hsync, Hsz, (xint_small (Z.of_nat (length (root_dir files)))), xint_small by lia. set (d' := with_size d _).
  assert (Ha : (di_addrs <$> ds) !! 0%nat = Some (di_addrs d)) by (by rewrite list_lookup_fmap, Hd). pose proof (co_lay _ _ _ C) as L.
  assert (Hfits : dinode_fits d').
  { unfold d'. rewrite <- (with_addrs_id d). apply (dinode_fits_kind d 1); try done; [lia|by apply (lo_len _ _ _ L 0)|by apply (layout_addr _ _ _ 0 _ L)]. }
  destruct (winode_ok st 1 d' (co_disk _ _ _ C) ltac:(lia) Hfits) as (st1&E1&D1&Hnew&Hold&Hlow&_&Hfb). exists st1.
  assert (C1 : core st1 (di_addrs <$> ds) (contents files)) by (apply (core_high st); [done|done|intros b Hb; apply Hlow; lia|done]). pose proof (lo_fb _ _ _ (co_lay _ _ _ C1)) as Hr.
  destruct (balloc_ok st1 D1 ltac:(lia)) as (st2&E2&D2&Hfb2&Hmap&Hoth&Hdn). exists st2, (<[0%nat := d']> ds). split; [done|]. split; [done|]. split.
  - rewrite list_fmap_insert. change (di_addrs d') with (di_addrs d). rewrite list_insert_id by done. apply (core_high st1); [done|done|intros b Hb; apply Hoth; lia|done].
  - intros i e Hi. apply insert_cases in Hi as [(->&->&_)|[Hi0 Hi]]; [rewrite Hdn by lia; done|]. pose proof (lookup_lt_Some _ _ _ Hi). destruct (im_kind _ _ _ M i e Hi) as (?&_&_&?).
    rewrite Hdn, Hold by lia. split; [by apply M|done].
  - intros e He. apply insert_cases in He as [(_&->&_)|[? _]]; done.
  - intros k f e Hk He. apply insert_cases in He as [(?&_&_)|[_ He]]; [done|]. apply (im_size _ _ _ M (S k)); [done|]. change ((fdata <$> files) !! k = Some (fdata f)). by rewrite list_lookup_fmap, Hk.
  - by rewrite Hfb2.
  - rewrite Hoth, Hlow by lia. apply M.
Qed.

(** ** The kernel's view *)

(** The inode as [ilock] loads it. *)
Definition on_disk (B : Z -> list Z) (inum : Z) : inode :=
  from_dinode (get_dinode (B (IBLOCK inum mkfs_sb)) inum) (inode_0 <| i_dev := 1 |> <| i_inum := inum |>).

Lemma faddr_slot B ino n : inrange n -> faddr B ino n = saddr B (i_addrs ino) n.
Proof. intros [H1 H2]. unfold faddr, saddr, iaddr. destruct (n <? 12); [done|]. by rewrite (proj2 (Z.eqb_neq n 268)) by lia. Qed.

(** The bytes the kernel reads, up to the largest size of a file. *)
Lemma fbyte_at B ino data p : good B (i_addrs ino) data (nblk data) -> 0 <= p < 274432 -> fbyte B ino p = nthd 0 data p.
Proof.
  intros [F _] Hp. pose proof (inrange_div p Hp) as Hr. pose proof (fa_nb _ _ _ _ F). pose proof (Z.mod_pos_bound p 1024 ltac:(lia)). pose proof (Z.div_mod p 1024 ltac:(lia)).
  unfold fbyte, fcont. rewrite faddr_slot by done. pose proof (fa_slot _ _ _ _ F (p / 1024) Hr) as Hs. destruct (Z.eqb_spec (saddr B (i_addrs ino) (p / 1024)) 0) as [E|E].
  - rewrite nthd_zeroes. symmetry. apply nthd_beyond. pose proof (fa_fits _ _ _ _ F). destruct (decide (p / 1024 < nblk data)); [tauto|]. lia.
  - rewrite (fa_bytes _ _ _ _ F) by (try apply Hs in E; lia). f_equal. lia.
Qed.

(** *** Lists of entries *)

Lemma nthd_range (l : list Z) off n : (off + n <= length l)%nat -> (fun j => nthd 0 l (Z.of_nat off + Z.of_nat j)) <$> seq 0 n = take n (drop off l).
Proof.
  intros H. apply list_eq. intros i. rewrite list_lookup_fmap. destruct (decide (i < n)%nat) as [Hi|Hi].
  - rewrite lookup_seq_lt, lookup_take, decide_True, lookup_drop by done. cbn. destruct (lookup_lt_is_Some_2 l (off + i) ltac:(lia)) as [x Hx]. rewrite Hx. f_equal.
    unfold nthd. rewrite (proj2 (Z.ltb_ge _ 0)) by lia. replace (Z.to_nat (Z.of_nat off + Z.of_nat i)) with (off + i)%nat by lia. by rewrite Hx.
  - rewrite lookup_seq_ge by lia. rewrite lookup_ge_None_2; [done|]. rewrite length_take. lia.
Qed.

Lemma concat_entry (l : list (list Z)) j e : Forall (fun x => length x = 16%nat) l -> l !! j = Some e -> take 16 (drop (16 * j) (List.concat l)) = e.
Proof.
  revert j. induction l as [|x l IH]; intros j Hl He; [by rewrite lookup_nil in He|]. apply Forall_cons in Hl as [Hx Hl]. destruct j as [|j]; cbn [List.concat].
  - injection He as ->. rewrite Nat.mul_0_r, drop_0. by apply take_app_length'.
  - replace (16 * S j)%nat with (length x + 16 * j)%nat by lia. rewrite drop_app_add. by apply IH.
Qed.

Lemma entries_ok files : Forall file_ok files -> (length files <= 198)%nat -> Forall (fun e => 0 < fst e < 2 ^ 16 /\ name_ok (snd e)) (entries files).
Proof.
  intros H Hc. destruct dot_ok as [H1 H2]. unfold entries. apply Forall_cons. split; [by split|]. apply Forall_cons. split; [by split|].
  apply Forall_lookup_2. intros k e He. rewrite list_lookup_imap in He. destruct (files !! k) as [f|] eqn:Ef; [|done]. injection He as <-. cbn.
  pose proof (lookup_lt_Some _ _ _ Ef). split; [lia|]. apply fname_ok. by eapply Forall_lookup_1.
Qed.

Lemma length_entries files : length (entries files) = (2 + length files)%nat.
Proof. unfold entries. cbn [length]. by rewrite length_imap. Qed.

Lemma dmatch_dirent name e : name_ok name -> 0 < fst e < 2 ^ 16 -> name_ok (snd e) -> dmatch name (dirent (fst e) (snd e)) = bool_decide (snd e = name).
Proof.
  intros Hn Hi He. unfold dmatch. rewrite dirent_kernel, dirent_inum, dirent_name by (done || lia). rewrite (proj2 (Z.eqb_neq _ 0)) by lia. cbn [negb andb].
  rewrite !dname_short by done. apply bool_decide_ext. split; congruence.
Qed.

(** A name in the root directory: the number of its first entry. *)
Definition named (files : list hostfile) (name : list Z) : option Z :=
  (fun x => fst (snd x)) <$> list_find (fun e => snd e = name) (entries files).

(** A file of the image as the kernel sees it. *)
Record holds (B : Z -> list Z) (inum type size : Z) (data : list Z) : Prop := {
  ho_type : i_type (on_disk B inum) = type;
  ho_nlink : i_nlink (on_disk B inum) = 1;
  ho_size : i_size (on_disk B inum) = size;
  ho_ok : fileok mkfs_sb B (on_disk B inum);
  ho_filled : filled B (on_disk B inum) (Z.of_nat (length data));
  ho_holes : forall n, inrange n -> Z.of_nat (length data) <= 1024 * n -> faddr B (on_disk B inum) n = 0;
  ho_data : frange B (on_disk B inum) 0 (length data) = data }.

(** The image the kernel finds. *)
Record made (files : list hostfile) (B : Z -> list Z) : Prop := {
  ma_blocks : forall b, 0 <= b < 2000 -> block_ok (B b);
  ma_super : get_superblock (B 1) = mkfs_sb;
  ma_bitmap : bitmap_ok mkfs_sb B;
  ma_used : forall b, 0 <= b < 2000 -> used mkfs_sb B b = (b <? 47 + total (contents files));
  ma_file : forall k f, files !! k = Some f -> holds B (Z.of_nat k + 2) 2 (Z.of_nat (length (fdata f))) (fdata f);
  ma_root : holds B 1 1 ((Z.of_nat (length (root_dir files)) / 1024 + 1) * 1024) (root_dir files);
  ma_names : forall name, name_ok name -> dlookup B (on_disk B 1) name = named files name;
  ma_apart : forall i j x, 1 <= i <= Z.of_nat (length files) + 1 -> 1 <= j <= Z.of_nat (length files) + 1 -> x <> 0 ->
    owns B (on_disk B i) x -> owns B (on_disk B j) x -> i = j }.

Lemma BBLOCK_finished b : 0 <= b < 2000 -> BBLOCK b mkfs_sb = 46.
Proof. intros Hb. rewrite BBLOCK_small; change (sb_bmapstart mkfs_sb) with 46; rewrite ?Z.div_small by lia; lia. Qed.

Section finished.
Context (st : mk) (ds : list dinode) (files : list hostfile) (F : finished st ds files) (Hok : Forall file_ok files).

Lemma used_finished b : 0 <= b < 2000 -> used mkfs_sb (blk st) b = (b <? 47 + total (contents files)).
Proof.
  intros Hb. unfold used. pose proof (fn_core _ _ _ F) as C. pose proof (lo_fb _ _ _ (co_lay _ _ _ C)) as Hf. rewrite <- (co_fb _ _ _ C).
  change BPB with 8192. rewrite BBLOCK_finished, Z.mod_small, (fn_map _ _ _ F) by lia. destruct (balloc_bits_ok (Z.to_nat (freeblock st)) 0 zeroes zeros_ok ltac:(lia) ltac:(lia)) as [_ ->]; [|lia].
  rewrite (proj2 (Z.leb_le 0 b)), Z2Nat.id, Z.add_0_l by lia. cbn [andb]. rewrite bit_get_testbit, nthd_zeroes, Z.bits_0 by lia. by rewrite orb_false_r.
Qed.

Lemma bitmap_finished : bitmap_ok mkfs_sb (blk st).
Proof.
  pose proof (total_nonneg (contents files)). split; [change (sb_size mkfs_sb) with 2000; lia|change (sb_bmapstart mkfs_sb) with 46; lia| |].
  - intros b Hb. change (sb_size mkfs_sb) with 2000 in *. rewrite BBLOCK_finished by done. split; [lia|]. rewrite used_finished by lia. apply Z.ltb_lt. lia.
  - rewrite used_finished by lia. apply Z.ltb_lt. lia.
Qed.

Lemma datab_finished x : 47 <= x < freeblock st -> datab mkfs_sb (blk st) x.
Proof.
  intros Hx. pose proof (fn_core _ _ _ F) as C. pose proof (lo_fb _ _ _ (co_lay _ _ _ C)) as Hf. split; [change (sb_size mkfs_sb) with 2000; lia|]. split.
  - rewrite used_finished by lia. rewrite <- (co_fb _ _ _ C). apply Z.ltb_lt. lia.
  - intros b Hb. change (sb_size mkfs_sb) with 2000 in *. rewrite BBLOCK_finished by done. lia.
Qed.

(** Where inode [i + 1] has its addresses and what its file holds. *)
Lemma node_at i : (i <= length files)%nat -> exists d data, ds !! i = Some d /\ contents files !! i = Some data /\ (di_addrs <$> ds) !! i = Some (di_addrs d) /\
  on_disk (blk st) (Z.of_nat i + 1) = from_dinode d (inode_0 <| i_dev := 1 |> <| i_inum := Z.of_nat i + 1 |>) /\ good (blk st) (di_addrs d) data (nblk data).
Proof.
  intros Hi. pose proof (fn_core _ _ _ F) as C. pose proof (co_len _ _ _ C) as Hl. rewrite length_fmap in Hl.
  assert (Hc : length (contents files) = S (length files)) by (cbn [contents length]; by rewrite length_fmap).
  destruct (lookup_lt_is_Some_2 ds i ltac:(lia)) as [d Hd]. destruct (lookup_lt_is_Some_2 (contents files) i ltac:(lia)) as [data Hdata]. exists d, data.
  assert (Ha : (di_addrs <$> ds) !! i = Some (di_addrs d)) by (by rewrite list_lookup_fmap, Hd). destruct (fn_node _ _ _ F i d Hd) as [Hn _].
  split; [done|]. split; [done|]. split; [done|]. split; [|by apply (co_file _ _ _ C i)]. unfold on_disk. fold (dnode st (Z.of_nat i + 1)). by rewrite Hn.
Qed.

Lemma fileok_finished i d : (di_addrs <$> ds) !! i = Some (di_addrs d) -> fileok mkfs_sb (blk st) (from_dinode d (inode_0 <| i_dev := 1 |> <| i_inum := Z.of_nat i + 1 |>)).
Proof.
  intros Ha. set (ino := from_dinode _ _). pose proof (co_lay _ _ _ (fn_core _ _ _ F)) as L.
  assert (Es : forall n, inrange n -> faddr (blk st) ino n = saddr (blk st) (di_addrs d) n) by (intros n Hn; by rewrite faddr_slot). unfold inrange in *.
  split; [done|by apply (lo_len _ _ _ L i)| | | |].
  - intros n Hn Hne. rewrite Es in * by done. apply datab_finished. apply (lo_range _ _ _ L i); [done|unfold inrange in Hn; lia|done].
  - intros Hne. apply datab_finished. apply (lo_range _ _ _ L i (di_addrs d) 268); [done|lia|exact Hne].
  - intros n m Hn Hm Hne E. rewrite Es in Hne by done. rewrite !Es in E by done. unfold inrange in *. apply (lo_inj _ _ _ L i i (di_addrs d) (di_addrs d) n m); try done; lia.
  - intros n Hn Hne E. rewrite Es in E by done. unfold inrange in *.
    destruct (lo_inj _ _ _ L i i (di_addrs d) (di_addrs d) 268 n Ha Ha ltac:(lia) ltac:(lia) Hne (eq_sym E)). lia.
Qed.

Lemma holds_finished i : (i <= length files)%nat -> exists d data, ds !! i = Some d /\ contents files !! i = Some data /\
  holds (blk st) (Z.of_nat i + 1) (di_type d) (di_size d) data.
Proof.
  intros Hi. destruct (node_at i Hi) as (d&data&Hd&Hdata&Ha&E&G). exists d, data. split; [done|]. split; [done|]. pose proof (fn_node _ _ _ F i d Hd) as (_&_&Hn).
  pose proof G as [Fa _]. pose proof (fa_nb _ _ _ _ Fa). pose proof (fa_fits _ _ _ _ Fa). split; rewrite ?E; try done.
  - by apply fileok_finished.
  - intros p Hp. pose proof (inrange_div p ltac:(lia)) as Hr. rewrite faddr_slot by done. apply Fa; [done|]. unfold nblk in *. apply Z.div_lt_upper_bound; [lia|].
    pose proof (Z.mul_succ_div_gt (Z.of_nat (length data) + 1023) 1024 ltac:(lia)). zlia.
  - intros n Hn' Hle. rewrite faddr_slot by done. destruct (decide (saddr (blk st) (di_addrs d) n = 0)) as [|Hne]; [done|]. apply Fa in Hne; [|done]. unfold nblk in Hne. zlia.
  - unfold frange. etransitivity; [|apply (take_ge data (length data)); lia]. rewrite <- (drop_0 data) at 3. rewrite <- nthd_range by lia. apply list_fmap_ext. intros k x Hx. apply fbyte_at; [done|].
    apply lookup_seq in Hx. lia.
Qed.

Lemma owns_slot i d x : (di_addrs <$> ds) !! i = Some (di_addrs d) -> owns (blk st) (from_dinode d (inode_0 <| i_dev := 1 |> <| i_inum := Z.of_nat i + 1 |>)) x ->
  exists n, 0 <= n <= 268 /\ saddr (blk st) (di_addrs d) n = x.
Proof. intros Ha [->|(n&Hn&->)]; [exists 268; split; [lia|done]|]. exists n. rewrite faddr_slot by done. unfold inrange in Hn. split; [lia|done]. Qed.

Lemma apart_finished i j x : (i <= length files)%nat -> (j <= length files)%nat -> x <> 0 ->
  owns (blk st) (on_disk (blk st) (Z.of_nat i + 1)) x -> owns (blk st) (on_disk (blk st) (Z.of_nat j + 1)) x -> i = j.
Proof.
  intros Hi Hj Hx Oi Oj. destruct (node_at i Hi) as (d&?&_&_&Ha&E&_). destruct (node_at j Hj) as (d'&?&_&_&Ha'&E'&_). rewrite E in Oi. rewrite E' in Oj.
  apply owns_slot in Oi as (n&Hn&En); [|done]. apply owns_slot in Oj as (m&Hm&Em); [|done]. 
  by destruct (lo_inj _ _ _ (co_lay _ _ _ (fn_core _ _ _ F)) i j _ _ n m Ha Ha' Hn Hm ltac:(congruence) ltac:(congruence)).
Qed.

(** The entries of the root directory, and zeros behind them. *)
Lemma dent_finished j : (length files <= 198)%nat -> (j < 1000)%nat -> dent (blk st) (on_disk (blk st) 1) j =
  match entries files !! j with Some e => dirent (fst e) (snd e) | None => replicate 16 0 end.
Proof.
  intros Hc Hj. destruct (node_at 0 ltac:(lia)) as (d&data&_&[= <-]&_&E&G). change (Z.of_nat 0 + 1) with 1 in E. pose proof (entries_ok files Hok Hc) as He.
  pose proof (root_dir_len files Hok) as Hl. unfold dent, frange. etransitivity; [apply (list_fmap_ext _ (fun k => nthd 0 (root_dir files) (Z.of_nat (16 * j) + Z.of_nat k)))|].
  { intros k x Hx. apply lookup_seq in Hx as [-> Hx]. rewrite E. etransitivity; [apply fbyte_at; [exact G|lia]|]. f_equal. lia. }
  pose proof (length_entries files) as Hle. destruct (entries files !! j) as [e|] eqn:Ee.
  - pose proof (lookup_lt_Some _ _ _ Ee). rewrite nthd_range by lia. apply concat_entry; [|by rewrite list_lookup_fmap, Ee].
    apply Forall_fmap. eapply Forall_impl; [exact He|]. intros y [_ Hy]. by apply dirent_len.
  - apply lookup_ge_None in Ee. apply list_eq. intros k. rewrite list_lookup_fmap. destruct (decide (k < 16)%nat).
    + rewrite lookup_seq_lt, lookup_replicate_2 by done. cbn [fmap option_fmap option_map]. rewrite nthd_beyond by lia. done.
    + rewrite lookup_seq_ge, lookup_ge_None_2 by (rewrite ?length_replicate; lia). done.
Qed.

Lemma names_finished name : (length files <= 198)%nat -> name_ok name -> dlookup (blk st) (on_disk (blk st) 1) name = named files name.
Proof.
  intros Hc Hn. destruct (holds_finished 0 ltac:(lia)) as (d&data&Hd&[= <-]&H). change (Z.of_nat 0 + 1) with 1 in H. pose proof (ho_size _ _ _ _ _ H) as Hs. rewrite (fn_root _ _ _ F d Hd) in Hs.
  pose proof (root_dir_len files Hok) as Hl. pose proof (length_entries files) as Hle. pose proof (entries_ok files Hok Hc) as He.
  assert (Hne : (length (entries files) <= nent (on_disk (blk st) 1) <= 1000)%nat) by (unfold nent; rewrite Hs; zlia).
  assert (Hm : forall j, (j < nent (on_disk (blk st) 1))%nat -> dmatch name (dent (blk st) (on_disk (blk st) 1) j) = match entries files !! j with Some e => bool_decide (snd e = name) | None => false end).
  { intros j Hj. rewrite dent_finished by lia. destruct (entries files !! j) as [e|] eqn:Ee; [|done]. destruct (Forall_lookup_1 _ _ _ _ He Ee). by apply dmatch_dirent. }
  unfold dlookup, named. destruct (list_find _ (entries files)) as [[x e]|] eqn:Ef.
  - apply list_find_Some in Ef as (Ex&Een&Efirst). pose proof (lookup_lt_Some _ _ _ Ex). rewrite (dfind_intro _ _ _ _ _ x); [| |rewrite Hm, Ex by lia; by apply bool_decide_true|]; [|lia|].
    + cbn [fmap option_fmap option_map fst snd]. rewrite dent_finished, Ex by lia. destruct (Forall_lookup_1 _ _ _ _ He Ex). by rewrite dirent_kernel, dirent_inum by (done || lia).
    + intros y Hy. rewrite Hm by lia. destruct (entries files !! y) as [e'|] eqn:Ey; [|done]. apply bool_decide_false. apply (Efirst y e' Ey). lia.
  - apply list_find_None in Ef. destruct (dfind _ _ _ _ _) as [x|] eqn:Ed; [|done]. apply dfind_Some in Ed as (Hx&Hmx&_). rewrite Hm in Hmx by lia.
    destruct (entries files !! x) as [e|] eqn:Ex; [|done]. apply bool_decide_eq_true in Hmx. by apply (Forall_lookup_1 _ _ _ _ Ef Ex) in Hmx.
Qed.
End finished.

Lemma mkfs_main_ok files : Forall file_ok files -> (length files <= 198)%nat -> fits (contents files) ->
  exists st ds, mkfs_main files = Some st /\ finished st ds files.
Proof.
  intros Hok Hc Hfit. destruct mkfs_root_ok as (st0&ds0&E0&M0). destruct (mkfs_files_ok files st0 ds0 [] M0 Hok Hc Hfit) as (st1&ds1&E1&M1).
  destruct (mkfs_end st1 ds1 files M1 Hok) as (st2&st&ds&E2&E3&F). exists st, ds. unfold mkfs_main. rewrite E0, E1, E2, E3. split; [reflexivity|exact F].
Qed.

(** C14. [mkfs] makes a file system.  Given at most 198 files that can be opened, with names
    of at most 14 bytes and without a slash, of at most 268 blocks each and all together within the
    disk, it ends normally, and in its image the kernel finds: the superblock; a bitmap in which
    exactly the metadata and the blocks of the files are in use; each file as an inode of type
    T_FILE with one link, with its size and its contents; the root directory, in which every name
    is looked up as the inode of the first file of that name; and no block in two files. *)
Theorem mkfs_makes_image files : Forall file_ok files -> (length files <= 198)%nat -> fits (contents files) ->
  exists st, mkfs_main files = Some st /\ made files (blk st).
Proof.
  intros Hok Hc Hfit. destruct (mkfs_main_ok files Hok Hc Hfit) as (st&ds&E&F). exists st. split; [exact E|]. split.
  - intros b Hb. by apply (rsect_ok st b (co_disk _ _ _ (fn_core _ _ _ F))).
  - apply F.
  - by apply (bitmap_finished st ds files).
  - by apply (used_finished st ds).
  - intros k f Hk. pose proof (lookup_lt_Some _ _ _ Hk) as Hlt. destruct (holds_finished st ds files F (S k) ltac:(lia)) as (d&data&Hd&Hdata&H).
    assert (Ed : data = fdata f) by (change ((fdata <$> files) !! k = Some data) in Hdata; rewrite list_lookup_fmap, Hk in Hdata; by injection Hdata as <-). subst data.
    replace (Z.of_nat (S k) + 1) with (Z.of_nat k + 2) in H by lia. rewrite (fn_size _ _ _ F k f d Hk Hd) in H. destruct (fn_node _ _ _ F (S k) d Hd) as (_&Ht&_). by rewrite Ht in H.
  - destruct (holds_finished st ds files F 0 ltac:(lia)) as (d&data&Hd&[= <-]&H). rewrite (fn_root _ _ _ F d Hd) in H. destruct (fn_node _ _ _ F 0 d Hd) as (_&Ht&_). by rewrite Ht in H.
  - intros name Hn. by apply (names_finished st ds).
  - intros i j x Hi Hj Hx Oi Oj. replace i with (Z.of_nat (Z.to_nat (i - 1)) + 1) in Oi by lia. replace j with (Z.of_nat (Z.to_nat (j - 1)) + 1) in Oj by lia.
    pose proof (apart_finished st ds files F (Z.to_nat (i - 1)) (Z.to_nat (j - 1)) x ltac:(lia) ltac:(lia) Hx Oi Oj). lia.
Qed.

(** Two files, one of them with a leading directory and underscore. *)
Definition two_files : list hostfile := [(str "README", Some [str "xv6"]); (str "user/_cat", Some [replicate 1024 7; [8]])].

Lemma two_files_ok : Forall file_ok two_files /\ fits (contents two_files).
Proof.
  split; [|by vm_compute]. repeat apply Forall_cons_2; [| |by apply Forall_nil]; split.
  - exists (str "README"). split; [done|]. split; [cbn; lia|]. repeat constructor; cbn; lia.
  - by exists [str "xv6"].
  - repeat constructor; cbn; lia.
  - cbn. lia.
  - exists (str "cat"). split; [by vm_compute|]. split; [cbn; lia|]. repeat constructor; cbn; lia.
  - by exists [replicate 1024 7; [8]].
  - apply (Forall_app_2 byte_ok (replicate 1024 7) [8]); [apply Forall_replicate; unfold byte_ok; lia|]. repeat constructor; lia.
  - vm_compute. congruence.
Qed.

Lemma mkfs_makes_image_witness : exists st, mkfs_main two_files = Some st /\ made two_files (blk st) /\
  dlookup (blk st) (on_disk (blk st) 1) (str "cat") = Some 3 /\ frange (blk st) (on_disk (blk st) 3) 0 1025 = replicate 1024 7 ++ [8].
Proof.
  destruct two_files_ok as [H1 H2]. destruct (mkfs_makes_image two_files H1 ltac:(cbn; lia) H2) as (st&E&M). exists st. split; [exact E|]. split; [exact M|]. split.
  - rewrite (ma_names _ _ M); [by vm_compute|]. split; [cbn; lia|]. repeat constructor; cbn; lia.
  - exact (ho_data _ _ _ _ _ (ma_file _ _ M 1%nat _ eq_refl)).
Defined.

(** 62 files, whose entries with the two others fill a block. *)
Definition full_block : list hostfile := replicate 62 (str "f", Some []).

Lemma hole_finished st ds files : finished st ds files -> Forall file_ok files -> length files = 62%nat ->
  i_size (on_disk (blk st) 1) = 2048 /\ faddr (blk st) (on_disk (blk st) 1) 1 = 0.
Proof.
  intros F Hok Hn. assert (Hl : Z.of_nat (length (root_dir files)) = 1024) by (rewrite root_dir_len, Hn by done; done).
  destruct (holds_finished st ds files F 0 ltac:(lia)) as (d&data&Hd&[= <-]&H). change (Z.of_nat 0 + 1) with 1 in H. split.
  - by rewrite (ho_size _ _ _ _ _ H), (fn_root _ _ _ F d Hd), Hl.
  - apply (ho_holes _ _ _ _ _ H); [unfold inrange; lia|]. rewrite Hl. lia.
Qed.

(** When the entries end at the end of a block, the size given to the root directory covers one
    block more, which is not allocated: the kernel's first [read] there allocates it in [bmap],
    outside of a transaction. *)
Theorem mkfs_root_hole : exists st, mkfs_main full_block = Some st /\
  i_size (on_disk (blk st) 1) = 2048 /\ faddr (blk st) (on_disk (blk st) 1) 1 = 0.
Proof.
  assert (Hok : Forall file_ok full_block).
  { apply Forall_replicate. split; [exists (str "f"); split; [done|]; split; [cbn; lia|]; repeat constructor; cbn; lia|by exists []|by apply Forall_nil|cbn; lia]. }
  assert (Hn : length full_block = 62%nat) by (by vm_compute). assert (Hfit : fits (contents full_block)) by (by vm_compute).
  destruct (mkfs_main_ok full_block Hok ltac:(rewrite Hn; lia) Hfit) as (st&ds&E&F). exists st. split; [exact E|]. exact (hole_finished st ds full_block F Hok Hn).
Qed.
